(* ===== verification/_CoqProject ===== *)
-Q . S2P
Prelude.v
Memory.v
Machine.v
Platform.v
Sv32.v
Spinlock.v
Printf.v
Kalloc.v
Vm.v
Proc.v
Sleeplock.v
Bio.v
Log.v
Fs.v
Console.v
File.v
Life.v
Exec.v
Syscall.v
Trap.v
Kvm.v
Nemu.v
Qemu.v
Asm.v
Entry.v
Drivers.v
ProcSpec.v
SleepSpec.v
NemuSpec.v
VirtioSpec.v
UartSpec.v
SdSpec.v
Typed.v
TypedFs.v
TypedSys.v
TypedBoard.v
ConsoleSpec.v
BioSpec.v
BioRefine.v
LogSpec.v
LogTx.v
LogCrash.v
VmSpec.v
UserVm.v
UserCopy.v
ProcVm.v
ForkSpec.v
WaitSpec.v
ExitSpec.v
LifeCycle.v
ExecArgs.v
FsTx.v
FsAlloc.v
FsFile.v
FsWrite.v
FsRw.v
FsDir.v
FsLink.v
FsPath.v
InitSpec.v
Mkfs.v
MkfsSpec.v
MkfsCorrect.v
MkfsBoot.v
PipeSpec.v
ConsoleRead.v
User.v
Umalloc.v
UmallocSpec.v
Grep.v
Progs.v
ProgsSpec.v
Sh.v
ShSpec.v
TestLib.v
TestFs.v
TestProc.v
TestMem.v
Usertests.v
Grind.v
