(* ===== verification/Prelude.v ===== *)
(** * xv6 for 32-bit RISC-V: a verification development

    The program is a port of the xv6 teaching system to RV32 with Sv32 page
    tables, for the boards QEMU virt and NEMU: the kernel (src/kernel), the two
    board layers (src/platform), the user programs and their C library
    (src/user) and the builder of the disk image (src/mkfs).

    ** How the code is modelled

    C integers are [Z] kept in the range of their type, with the wrap-around
    written out ([u32], [s32], [u16], ...).  Code with effects is a function
    from a state to an [outcome]: [Ok], [Panic] for a call of panic() or a
    failed assert, [Hang] for a computation that never returns.  Pointers into
    kernel tables are indices, pages and user memory are bytes of a memory from
    addresses to bytes.  Names are those of the source; a loop is a [Fixpoint]
    with the name of its function and a suffix.

    The kernel runs on one hart.  Code of one process is run to its end; where
    it gives the CPU away ([sched]), the rest of the system acts through the
    class [World], which says how the state has changed when the process is
    resumed.  Device registers are read and written through the same class.
    Interrupts do not arrive inside the code of the kernel; the handlers of
    Trap.v are run on their own.  Boards are the classes of Platform.v, with the
    NEMU and QEMU drivers as instances; the file system is proved against the
    laws [DiskOk] and [SerialOk].  Addresses fixed by the linker are the class
    [Layout].  Where C leaves the behaviour undefined the model stops: a log
    header with more than LOGSIZE entries makes [read_head] a [Hang], since the
    code would write beyond its array.

    ** The files

    Kernel:
    - Memory.v: memory, string.c.  Machine.v: constants, structures and the
      state [kstate].  Platform.v: platform.h.  Sv32.v: page-table arithmetic.
    - Spinlock.v, Printf.v, Kalloc.v, Vm.v, Proc.v, Sleeplock.v, Bio.v, Log.v,
      Fs.v, Console.v: the C files of these names; File.v: file.c and pipe.c;
      Life.v: fork, exit, wait and the way to user mode; Exec.v; Syscall.v:
      syscall.c, sysproc.c, sysfile.c; Trap.v; Kvm.v: kernel page table and
      main.c.
    - Nemu.v, Qemu.v: the two platform.c.  Asm.v: trampoline.S, swtch.S,
      kernelvec.S, timervec.S and start.c.  Entry.v: entry.S, the first user
      program and the stubs of the system calls.  Drivers.v: the drivers of the
      original kernel that the platform layer replaces (uart.c, plic.c,
      sdcard.c, virtio_disk.c).
    Kernel, specifications:
    - ProcSpec.v, SleepSpec.v: sleep, wakeup, kill, the scheduler, sleep locks.
    - NemuSpec.v: the NEMU drivers meet the laws.  VirtioSpec.v, UartSpec.v:
      the disk and the serial line of QEMU.  SdSpec.v: the checksum of the SD
      card.
    - Typed.v, TypedFs.v, TypedSys.v, TypedBoard.v: the well-formedness of the
      whole kernel state, kept by every function.
    - ConsoleSpec.v, ConsoleRead.v: line editing and reading from the console.
    - BioSpec.v, BioRefine.v: the buffer cache.  LogSpec.v, LogTx.v,
      LogCrash.v: the log, transactions, crashes.
    - VmSpec.v, UserVm.v, UserCopy.v: page tables, user memory and the copies
      between kernel and user.
    - ProcVm.v, ForkSpec.v, WaitSpec.v, ExitSpec.v, LifeCycle.v: the address
      space and the entry of a process, fork, wait and exit, and the three
      together.  ExecArgs.v: the arguments of exec.  InitSpec.v: the first
      process.
    - FsTx.v, FsAlloc.v, FsFile.v, FsWrite.v, FsRw.v, FsDir.v, FsLink.v: the
      file system inside a transaction; FsRw.v has the theorems on reading and
      writing for buffers of the kernel and of the user.  FsPath.v: inode locks
      and paths.
      PipeSpec.v: pipes.
    Image builder: Mkfs.v, and MkfsSpec.v, MkfsCorrect.v with its proof;
    MkfsBoot.v: the kernel on its image.
    User programs: User.v (ulib.c, printf.c, programs as trees of system
    calls), Umalloc.v, Grep.v, Progs.v (the small programs), Sh.v, with
    UmallocSpec.v, ProgsSpec.v (printf, grep, cat, wc) and ShSpec.v.
    Test programs: TestLib.v, TestFs.v, TestProc.v, TestMem.v (the tests of
    usertests.c), Usertests.v (its driver) and Grind.v.

    ** What is shown

    - Storage: every sequence of buffer cache calls refines a map of referenced
      blocks; a transaction is atomic and durable, whatever the disk write at
      which the machine stops and however often recovery is interrupted; on top
      of transactions, the block allocator, readi, writei, dirlookup and dirlink
      do what they should, with their error returns, from and to kernel or user
      memory; what is written is read back and a name that was added is found; namex walks the tree that is on
      disk and keeps the references of the inode table balanced;
      the image mkfs writes is a file system that meets the hypotheses of those
      theorems, and the kernel reads from it by path the files mkfs was given.
    - Memory: the page allocator refines a set of pages; mappages installs
      exactly the translation asked for, as the hardware walk reads it;
      uvmalloc, uvmcopy and uvmfree either succeed or undo what they did, and
      leak no page; the copies to and from user space move exactly the
      accessible bytes.
    - The kernel as a whole: its state is well-formed ([typed]: table sizes, the
      ranges of the fields, indices inside their tables, the list of buffers)
      after main and stays so under every sequence of user programs, system
      calls, interrupts and scheduling, the first return to user mode with the
      recovery of the file system included.
    - Devices: the NEMU drivers meet the laws the kernel relies on; on QEMU a
      disk request is carried out by driver, device, interrupt handler and
      scheduler together, after those queued before it, and the serial line
      loses and reorders nothing, also when its buffer is full and the writer
      has to wait for the interrupt; what is typed is edited as a line editor
      should and is what a reader gets.
    - Processes: fork gives the child a copy of everything or gives back what
      it took; exit gives back files, directory and children, the last
      references to pipes and inodes included; wait collects a
      zombie, its status and its memory; and with the scheduler between them a
      child that is forked, exits and is waited for leaves no trace but its
      status.  The first process, from the bytes of its program to the system
      call, executes /init; exec gets exactly the strings that are in user
      memory.  The scheduler runs every runnable process in every round; no
      wakeup is lost; the spinlock and sleep lock protocols, nested interrupt
      masking, kill; saving and restoring of registers by the assembly
      routines; pipes as bounded queues.
    - User programs: malloc and free keep a heap of disjoint blocks; the shell
      parses what its printer writes, and always ends; grep finds exactly the
      lines that match; cat and wc on streams cut in any way; printing of
      integers; the random numbers of grind.

    ** Bounds and fuel

    Loops of the kernel get as many turns as the data they walk can make them
    take (the size of a file in blocks, of the bitmap, the number of pages), and
    the theorems show that they return.  [malloc], [free], the matcher of grep
    and the loops of user programs that read until the end take a bound as an
    argument; the theorems hold for every bound above a stated number of turns.
    The parser of the shell gets the length of its line.  Loops that wait for a
    device or for another process are followed for [patience] turns, a field of
    [World], and are a [Hang] after them.  NBUF, NINODE, NPROC
    and the other sizes are those of param.h.

    ** What is not modelled

    ramdisk.c, which uses fields and constants that the kernel no longer
    declares and is not built; the accessors of machine registers in riscv.h,
    each one instruction, which appear as reads and writes of the fields of the
    state; defs.h and types.h, which declare names; more than one hart; the
    inside of the devices, which are parameters with the behaviour the drivers
    rely on (for the virtio disk, a device that follows its specification and
    serves the requests in the order of the ring).  Freeing an inode on the disk
    with its last reference (itrunc in iput) is a definition, and no theorem on
    exit covers it.
    The tests of usertests.c are given as what they do for every answer of the
    kernel; that this kernel passes each of them, and what the exit status of the
    driver says, is not shown. *)
From stdpp Require Import gmap strings countable prelude.

Open Scope Z_scope.

(** ** Machine integers

    Every C integer is a [Z] kept in the range of its type; the conversions
    below are the ones the compiler inserts. *)

(** Conversion to [uint32]/[uint] (reduction modulo 2^32). *)
Definition u32 (x : Z) : Z := x mod 4294967296.
(** Conversion to [uint16]/[ushort]. *)
Definition u16 (x : Z) : Z := x mod 65536.
(** Conversion to [uchar]; plain [char] is unsigned in the RISC-V ABI. *)
Definition u8 (x : Z) : Z := x mod 256.
(** Conversion to [int] (two's complement). *)
Definition s32 (x : Z) : Z :=
  if u32 x <? 2147483648 then u32 x else u32 x - 4294967296.
(** Conversion to [short]. *)
Definition s16 (x : Z) : Z :=
  if u16 x <? 32768 then u16 x else u16 x - 65536.

(** A value that fits in 32 bits. *)
Definition is_u32 (x : Z) : Prop := 0 <= x < 4294967296.

(** ** The effect monad of the kernel

    C code that reads and writes global state is a function from the state to
    an outcome.  [Panic] is a call of [panic()]; [Hang] is a computation that
    never returns: a lock that is never released to the spinning CPU, or a
    process that sleeps and is never scheduled again. *)
Inductive outcome (St A : Type) : Type :=
| Ok (a : A) (s : St)
| Panic (msg : string) (s : St)
| Hang (s : St).
Arguments Ok {St A} a s.
Arguments Panic {St A} msg s.
Arguments Hang {St A} s.

Definition M (St A : Type) : Type := St -> outcome St A.

#[export] Instance M_ret {St} : MRet (M St) := fun A a s => Ok a s.
#[export] Instance M_bind {St} : MBind (M St) := fun A B k m s =>
  match m s with
  | Ok a s' => k a s'
  | Panic msg s' => Panic msg s'
  | Hang s' => Hang s'
  end.

Definition gets {St A} (f : St -> A) : M St A := fun s => Ok (f s) s.
Definition modify {St} (f : St -> St) : M St unit := fun s => Ok tt (f s).
Definition panic {St A} (msg : string) : M St A := fun s => Panic msg s.
Definition hang {St A} : M St A := fun s => Hang s.

(** [for(i = lo; i < lo + n; i++) body(i)] with no early exit. *)
Fixpoint for_range {St} (n : nat) (lo : nat) (body : nat -> M St unit) : M St unit :=
  match n with
  | O => mret tt
  | S n' => body lo ;; for_range n' (S lo) body
  end.

(** The final state of a run, and its value when it returned. *)
Definition final {St A} (o : outcome St A) : St :=
  match o with Ok _ s => s | Panic _ s => s | Hang s => s end.
Definition result {St A} (o : outcome St A) : option A :=
  match o with Ok a _ => Some a | _ => None end.

Lemma run_ok {St A} (o : outcome St A) a s : o = Ok a s -> final o = s /\ result o = Some a.
Proof. by intros ->. Qed.

(** Total correctness: the computation returns and its result satisfies [Q]. *)
Definition wp {St A} (m : M St A) (Q : A -> St -> Prop) (s : St) : Prop :=
  match m s with Ok a s' => Q a s' | _ => False end.

(** Partial correctness: if the computation returns, its result satisfies [Q].
    Only used next to a theorem that says when it returns. *)
Definition wlp {St A} (m : M St A) (Q : A -> St -> Prop) (s : St) : Prop :=
  match m s with Ok a s' => Q a s' | _ => True end.

(** The message of a panic, if the computation panics. *)
Definition panics {St A} (m : M St A) (s : St) : option string :=
  match m s with Panic msg _ => Some msg | _ => None end.

(** C arrays of integers as lists; a read out of range yields 0. *)
Definition at_ (l : list Z) (i : nat) : Z := nth i l 0.

(** [l[i..i+length v-1] := v] on an array, entries past the end dropped. *)
Definition splice (l : list Z) (i : nat) (v : list Z) : list Z :=
  take i l ++ take (length l - i) v ++ drop (i + length v) l.

(** ** Rules for the monad *)

Lemma bind_ok {St A B} (m : M St A) (k : A -> M St B) s a s' :
  m s = Ok a s' -> (m ≫= k) s = k a s'.
Proof. intros H. unfold mbind, M_bind. by rewrite H. Qed.

Lemma bind_panic {St A B} (m : M St A) (k : A -> M St B) s msg s' :
  m s = Panic msg s' -> (m ≫= k) s = Panic msg s'.
Proof. intros H. unfold mbind, M_bind. by rewrite H. Qed.

Lemma bind_hang {St A B} (m : M St A) (k : A -> M St B) s s' :
  m s = Hang s' -> (m ≫= k) s = Hang s'.
Proof. intros H. unfold mbind, M_bind. by rewrite H. Qed.

Lemma bind_inv_ok {St A B} (m : M St A) (k : A -> M St B) s b s'' :
  (m ≫= k) s = Ok b s'' -> exists a s', m s = Ok a s' /\ k a s' = Ok b s''.
Proof.
  unfold mbind, M_bind. destruct (m s) as [a s'| |]; [|discriminate..]. eauto.
Qed.

Lemma for_range_inv {St} (I : nat -> St -> Prop) n : forall lo (body : nat -> M St unit) s,
  I lo s ->
  (forall i s, (lo <= i < lo + n)%nat -> I i s -> exists s', body i s = Ok tt s' /\ I (S i) s') ->
  exists s', for_range n lo body s = Ok tt s' /\ I (lo + n)%nat s'.
Proof.
  induction n as [|n IH]; intros lo body s H0 Hb; cbn [for_range].
  - exists s. by rewrite Nat.add_0_r.
  - destruct (Hb lo s) as (s1 & Hr & H1); [lia|done|]. erewrite bind_ok by exact Hr.
    destruct (IH (S lo) body s1 H1) as (s2 & Hr2 & H2).
    { intros i s' Hi. apply Hb. lia. }
    exists s2. by replace (lo + S n)%nat with (S lo + n)%nat by lia.
Qed.

Lemma bind_gets {St A B} (f : St -> A) (k : A -> M St B) s :
  (gets f ≫= k) s = k (f s) s.
Proof. reflexivity. Qed.

Lemma bind_modify {St B} (f : St -> St) (k : unit -> M St B) s :
  (modify f ≫= k) s = k tt (f s).
Proof. reflexivity. Qed.

Lemma bind_ret {St A B} (a : A) (k : A -> M St B) s :
  ((mret a : M St A) ≫= k) s = k a s.
Proof. reflexivity. Qed.

Lemma bind_assoc {St A B C} (m : M St A) (f : A -> M St B) (g : B -> M St C) s :
  ((m ≫= f) ≫= g) s = (m ≫= (fun a => f a ≫= g)) s.
Proof. unfold mbind, M_bind. by destruct (m s). Qed.

Lemma wp_ok {St A} (m : M St A) Q s a s' : m s = Ok a s' -> Q a s' -> wp m Q s.
Proof. intros H HQ. unfold wp. by rewrite H. Qed.

Lemma wp_inv {St A} (m : M St A) Q s :
  wp m Q s -> exists a s', m s = Ok a s' /\ Q a s'.
Proof. unfold wp. destruct (m s) as [a s'| |]; [eauto|done..]. Qed.

Lemma wp_bind {St A B} (m : M St A) (k : A -> M St B) Q s :
  wp m (fun a s' => wp (k a) Q s') s -> wp (m ≫= k) Q s.
Proof. unfold wp, mbind, M_bind. by destruct (m s). Qed.

Lemma wp_mono {St A} (m : M St A) (Q R : A -> St -> Prop) s :
  wp m Q s -> (forall a s', Q a s' -> R a s') -> wp m R s.
Proof. unfold wp. destruct (m s); naive_solver. Qed.

Create HintDb kernel.
Create Rewrite HintDb monad.
#[export] Hint Rewrite @bind_gets @bind_modify @bind_ret @bind_assoc : monad.

(** [mstep H] rewrites the next bound computation with the equation [H];
    [msimp] runs the reads, writes and returns at the head of a program. *)
Ltac msimp := repeat first
  [ rewrite bind_assoc | rewrite bind_gets | rewrite bind_modify | rewrite bind_ret
  | progress cbn beta iota ].
Tactic Notation "mstep" uconstr(H) := erewrite bind_ok by (eapply H; eauto with kernel); msimp.

(** ** Integers *)

Lemma u32_small x : is_u32 x -> u32 x = x.
Proof. apply Z.mod_small. Qed.

Lemma u32_range x : is_u32 (u32 x).
Proof. by apply Z.mod_pos_bound. Qed.

Lemma u8_range x : 0 <= u8 x < 256.
Proof. by apply Z.mod_pos_bound. Qed.

Lemma u8_small x : 0 <= x < 256 -> u8 x = x.
Proof. apply Z.mod_small. Qed.

Lemma u8_idemp x : u8 (u8 x) = u8 x.
Proof. apply u8_small, u8_range. Qed.

Lemma u32_idemp x : u32 (u32 x) = u32 x.
Proof. apply u32_small, u32_range. Qed.

Lemma u32_add_l x y : u32 (u32 x + y) = u32 (x + y).
Proof. apply Zplus_mod_idemp_l. Qed.

Lemma u32_add_r x y : u32 (x + u32 y) = u32 (x + y).
Proof. apply Zplus_mod_idemp_r. Qed.

Lemma u32_sub_l x y : u32 (u32 x - y) = u32 (x - y).
Proof. apply Zminus_mod_idemp_l. Qed.

Lemma s32_range x : -2147483648 <= s32 x < 2147483648.
Proof.
  unfold s32. pose proof (u32_range x) as Hx; unfold is_u32 in Hx.
  destruct (Z.ltb_spec (u32 x) 2147483648); lia.
Qed.

Lemma s32_small x : -2147483648 <= x < 2147483648 -> s32 x = x.
Proof.
  intros H. unfold s32. destruct (Z.ltb_spec (u32 x) 2147483648) as [Hlt|Hge];
    unfold u32 in *; Z.div_mod_to_equations; lia.
Qed.

(** ** Arrays *)

Lemma at_lookup l i x : l !! i = Some x -> at_ l i = x.
Proof. intros H. unfold at_. by apply nth_lookup_Some. Qed.

Lemma lookup_at l i : (i < length l)%nat -> l !! i = Some (at_ l i).
Proof.
  intros H. unfold at_. rewrite nth_lookup.
  destruct (l !! i) eqn:E; [done|]. apply lookup_ge_None in E. lia.
Qed.

Lemma list_alter_insert {A} (f : A -> A) i x (l : list A) :
  l !! i = Some x -> alter f i l = <[i := f x]> l.
Proof.
  intros Hx. apply list_eq. intros j. destruct (decide (i = j)) as [<-|Hne].
  - rewrite list_lookup_alter_eq, Hx, list_lookup_insert_eq; [done|].
    by apply lookup_lt_Some in Hx.
  - by rewrite list_lookup_alter_ne, list_lookup_insert_ne by done.
Qed.

Lemma length_splice l i v : length (splice l i v) = length l.
Proof. unfold splice. rewrite !length_app, !length_take, length_drop. lia. Qed.

Lemma lookup_splice l i v j :
  (i + length v <= length l)%nat ->
  splice l i v !! j =
    if decide (i <= j < i + length v)%nat then v !! (j - i)%nat else l !! j.
Proof.
  intros H. unfold splice. rewrite (take_ge v) by lia. case_decide as Hj.
  - rewrite lookup_app_r by (rewrite length_take; lia).
    rewrite length_take, Nat.min_l by lia. rewrite lookup_app_l by lia. done.
  - destruct (decide (j < i)%nat).
    + rewrite lookup_app_l by (rewrite length_take; lia).
      by rewrite lookup_take_lt by lia.
    + rewrite lookup_app_r by (rewrite length_take; lia).
      rewrite length_take, Nat.min_l by lia.
      rewrite lookup_app_r by lia. rewrite lookup_drop. f_equal. lia.
Qed.
