(* ===== verification/Memory.v ===== *)
(** * Byte-addressed memory and the C library of the kernel

    Physical memory as the kernel sees it through its direct map (RAM) and
    the frames of its stacks, with the little-endian loads and stores the
    compiler emits, and [kernel/string.c].  Memory routines ([memset],
    [memmove], [memcmp]) work on memory; the string routines work on arrays
    of characters given as lists (a read past the end is a NUL). *)
From S2P Require Import Prelude.
From stdpp Require Import gmap strings countable prelude.

Open Scope Z_scope.

(** ** Memory *)

(** Cells hold bytes; a cell never written holds 0. *)
Definition load8 (m : gmap Z Z) (a : Z) : Z := u8 (default 0 (m !! a)).
Definition store8 (m : gmap Z Z) (a v : Z) : gmap Z Z := <[a := u8 v]> m.

Definition load16 (m : gmap Z Z) (a : Z) : Z :=
  load8 m a + 256 * load8 m (a + 1).
Definition load32 (m : gmap Z Z) (a : Z) : Z :=
  load8 m a + 256 * load8 m (a + 1) + 65536 * load8 m (a + 2)
  + 16777216 * load8 m (a + 3).
Definition store32 (m : gmap Z Z) (a v : Z) : gmap Z Z :=
  store8 (store8 (store8 (store8 m a v) (a + 1) (v / 256))
    (a + 2) (v / 65536)) (a + 3) (v / 16777216).

Fixpoint load_bytes (m : gmap Z Z) (a : Z) (n : nat) : list Z :=
  match n with
  | O => []
  | S n' => load8 m a :: load_bytes m (a + 1) n'
  end.
Fixpoint store_bytes (m : gmap Z Z) (a : Z) (l : list Z) : gmap Z Z :=
  match l with
  | [] => m
  | c :: l' => store_bytes (store8 m a c) (a + 1) l'
  end.

(** Little-endian encodings of integers stored in byte arrays. *)
Definition bytes_of_u16 (v : Z) : list Z := [u8 v; u8 (v / 256)].
Definition bytes_of_u32 (v : Z) : list Z :=
  [u8 v; u8 (v / 256); u8 (v / 65536); u8 (v / 16777216)].
Definition u16_at (l : list Z) (i : nat) : Z :=
  at_ l i + 256 * at_ l (i + 1).
Definition u32_at (l : list Z) (i : nat) : Z :=
  at_ l i + 256 * at_ l (i + 1) + 65536 * at_ l (i + 2) + 16777216 * at_ l (i + 3).

Lemma u16_bytes v l : 0 <= v < 65536 -> u16_at (bytes_of_u16 v ++ l) 0 = v.
Proof. intros Hv. unfold u16_at, at_. cbn [nth bytes_of_u16 app plus]. unfold u8. Z.div_mod_to_equations. lia. Qed.
Lemma u32_bytes v l : is_u32 v -> u32_at (bytes_of_u32 v ++ l) 0 = v.
Proof. intros H. unfold u32_at, at_. cbn [nth bytes_of_u32 app plus]. unfold u8, is_u32 in *. Z.div_mod_to_equations. lia. Qed.

(** ** kernel/string.c on memory *)

Fixpoint memset_loop (n : nat) (m : gmap Z Z) (cdst c : Z) : gmap Z Z :=
  match n with
  | O => m
  | S n' => memset_loop n' (store8 m cdst c) (cdst + 1) c
  end.
Definition memset (m : gmap Z Z) (dst c n : Z) : gmap Z Z :=
  memset_loop (Z.to_nat n) m dst c.

Fixpoint memcmp_loop (n : nat) (m : gmap Z Z) (s1 s2 : Z) : Z :=
  match n with
  | O => 0
  | S n' =>
    if load8 m s1 =? load8 m s2 then memcmp_loop n' m (s1 + 1) (s2 + 1)
    else load8 m s1 - load8 m s2
  end.
Definition memcmp (m : gmap Z Z) (v1 v2 n : Z) : Z :=
  memcmp_loop (Z.to_nat n) m v1 v2.

(** [while(n-- > 0) *--d = *--s;] *)
Fixpoint memmove_down (n : nat) (m : gmap Z Z) (d s : Z) : gmap Z Z :=
  match n with
  | O => m
  | S n' => memmove_down n' (store8 m (d - 1) (load8 m (s - 1))) (d - 1) (s - 1)
  end.
(** [while(n-- > 0) *d++ = *s++;] *)
Fixpoint memmove_up (n : nat) (m : gmap Z Z) (d s : Z) : gmap Z Z :=
  match n with
  | O => m
  | S n' => memmove_up n' (store8 m d (load8 m s)) (d + 1) (s + 1)
  end.
Definition memmove (m : gmap Z Z) (dst src n : Z) : gmap Z Z :=
  if n =? 0 then m
  else if (src <? dst) && (dst <? src + n)
  then memmove_down (Z.to_nat n) m (dst + n) (src + n)
  else memmove_up (Z.to_nat n) m dst src.
Definition memcpy (m : gmap Z Z) (dst src n : Z) : gmap Z Z := memmove m dst src n.

(** ** kernel/string.c on character arrays *)

(** [i] is the distance both pointers have advanced. *)
Fixpoint strncmp_loop (n : nat) (i : nat) (p q : list Z) : Z :=
  match n with
  | O => 0
  | S n' =>
    if negb (at_ p i =? 0) && (at_ p i =? at_ q i) then strncmp_loop n' (S i) p q
    else u8 (at_ p i) - u8 (at_ q i)
  end.
Definition strncmp (p q : list Z) (n : Z) : Z := strncmp_loop (Z.to_nat n) 0 p q.

Fixpoint strncpy_pad (n : nat) (i : nat) (s : list Z) : list Z :=
  match n with
  | O => s
  | S n' => strncpy_pad n' (S i) (<[i := 0]> s)
  end.
Fixpoint strncpy_copy (n : nat) (i : nat) (s t : list Z) : list Z :=
  match n with
  | O => s
  | S n' =>
    let s' := <[i := at_ t i]> s in
    if at_ t i =? 0 then strncpy_pad n' (S i) s' else strncpy_copy n' (S i) s' t
  end.
Definition strncpy (s t : list Z) (n : Z) : list Z := strncpy_copy (Z.to_nat n) 0 s t.

(** [n] counts the values [--n] still takes above 0. *)
Fixpoint safestrcpy_copy (n : nat) (i : nat) (s t : list Z) : list Z :=
  match n with
  | O => <[i := 0]> s
  | S n' =>
    let s' := <[i := at_ t i]> s in
    if at_ t i =? 0 then <[S i := 0]> s' else safestrcpy_copy n' (S i) s' t
  end.
Definition safestrcpy (s t : list Z) (n : Z) : list Z :=
  if n <=? 0 then s else safestrcpy_copy (Z.to_nat (n - 1)) 0 s t.

Fixpoint strlen (s : list Z) : nat :=
  match s with
  | [] => O
  | c :: s' => if c =? 0 then O else S (strlen s')
  end.

(** The string held by an array: its bytes before the first NUL. *)
Definition cstr (s : list Z) : list Z := take (strlen s) s.

(** The NUL-terminated string at an address, looking at [n] bytes at most. *)
Definition cstr_at (m : gmap Z Z) (a : Z) (n : nat) : list Z := cstr (load_bytes m a n).

(** ** Loads and stores *)

Lemma load8_range m a : 0 <= load8 m a < 256.
Proof. apply u8_range. Qed.

Lemma load8_store8 m a v b :
  load8 (store8 m a v) b = if decide (a = b) then u8 v else load8 m b.
Proof.
  unfold load8, store8. rewrite lookup_insert. case_decide; [|done].
  cbn. by rewrite u8_idemp.
Qed.

Lemma load8_store8_eq m a v : load8 (store8 m a v) a = u8 v.
Proof. rewrite load8_store8. by case_decide. Qed.

Lemma load8_store8_ne m a v b : a <> b -> load8 (store8 m a v) b = load8 m b.
Proof. intros H. rewrite load8_store8. by case_decide. Qed.

Lemma load32_range m a : is_u32 (load32 m a).
Proof.
  unfold load32, is_u32.
  pose proof (load8_range m a); pose proof (load8_range m (a + 1)).
  pose proof (load8_range m (a + 2)); pose proof (load8_range m (a + 3)). lia.
Qed.

Lemma load8_store32 m a v b :
  load8 (store32 m a v) b =
    if decide (a <= b < a + 4) then u8 (v / 256 ^ (b - a)) else load8 m b.
Proof.
  unfold store32. rewrite !load8_store8.
  repeat case_decide; subst; try lia; try done.
  - by replace (a + 3 - a) with 3 by lia.
  - by replace (a + 2 - a) with 2 by lia.
  - by replace (a + 1 - a) with 1 by lia.
  - replace (b - b) with 0 by lia. by rewrite Z.div_1_r.
Qed.

Lemma load8_store32_ne m a v b :
  b < a \/ a + 4 <= b -> load8 (store32 m a v) b = load8 m b.
Proof. intros H. rewrite load8_store32. case_decide; [lia|done]. Qed.

Lemma load32_store32_eq m a v : load32 (store32 m a v) a = u32 v.
Proof.
  unfold load32. rewrite !load8_store32.
  repeat (case_decide; [|lia]).
  replace (a - a) with 0 by lia. replace (a + 1 - a) with 1 by lia.
  replace (a + 2 - a) with 2 by lia. replace (a + 3 - a) with 3 by lia.
  unfold u8, u32. change (256 ^ 0) with 1. change (256 ^ 1) with 256.
  change (256 ^ 2) with 65536. change (256 ^ 3) with 16777216.
  rewrite Z.div_1_r. Z.div_mod_to_equations. lia.
Qed.

Lemma load32_ext m m' a :
  (forall b, a <= b < a + 4 -> load8 m b = load8 m' b) -> load32 m a = load32 m' a.
Proof. intros H. unfold load32. rewrite !H by lia. done. Qed.

Lemma load32_store32_ne m a v b :
  b + 4 <= a \/ a + 4 <= b -> load32 (store32 m a v) b = load32 m b.
Proof. intros H. apply load32_ext. intros c Hc. apply load8_store32_ne. lia. Qed.

(** ** Byte ranges *)

Lemma length_load_bytes m a n : length (load_bytes m a n) = n.
Proof. revert a. induction n; intros; cbn; auto. Qed.

Lemma lookup_load_bytes m a n i :
  (i < n)%nat -> load_bytes m a n !! i = Some (load8 m (a + Z.of_nat i)).
Proof.
  revert a i. induction n as [|n IH]; intros a i Hi; [lia|].
  destruct i as [|i]; cbn [load_bytes lookup list_lookup].
  - by rewrite Z.add_0_r.
  - rewrite IH by lia. f_equal. f_equal. lia.
Qed.

Lemma load_bytes_ext m m' a n :
  (forall b, a <= b < a + Z.of_nat n -> load8 m b = load8 m' b) ->
  load_bytes m a n = load_bytes m' a n.
Proof.
  revert a. induction n as [|n IH]; intros a H; [done|]. cbn. f_equal.
  - apply H. lia.
  - apply IH. intros b Hb. apply H. lia.
Qed.

Lemma load_bytes_app m a n k :
  load_bytes m a (n + k) = load_bytes m a n ++ load_bytes m (a + Z.of_nat n) k.
Proof.
  revert a. induction n as [|n IH]; intros a; cbn.
  - by rewrite Z.add_0_r.
  - rewrite IH. do 2 f_equal. f_equal. lia.
Qed.

Lemma load8_store_bytes_out m a l b :
  b < a \/ a + Z.of_nat (length l) <= b -> load8 (store_bytes m a l) b = load8 m b.
Proof.
  revert m a. induction l as [|c l IH]; intros m a H; [done|]. cbn in *.
  rewrite IH by lia. apply load8_store8_ne. lia.
Qed.

Lemma load8_store_bytes_in m a l i c :
  l !! i = Some c -> load8 (store_bytes m a l) (a + Z.of_nat i) = u8 c.
Proof.
  revert m a i. induction l as [|d l IH]; intros m a i H; [done|].
  destruct i as [|i]; cbn in *.
  - inversion H; subst. rewrite Z.add_0_r, load8_store_bytes_out by lia.
    apply load8_store8_eq.
  - replace (a + Z.of_nat (S i)) with ((a + 1) + Z.of_nat i) by lia. by apply IH.
Qed.

Lemma store_bytes_app m a l k :
  store_bytes m a (l ++ k) = store_bytes (store_bytes m a l) (a + Z.of_nat (length l)) k.
Proof.
  revert m a. induction l as [|c l IH]; intros m a; cbn.
  - by rewrite Z.add_0_r.
  - rewrite IH. f_equal. lia.
Qed.

Lemma load_bytes_store_bytes m a l :
  load_bytes (store_bytes m a l) a (length l) = u8 <$> l.
Proof.
  apply list_eq. intros i. destruct (decide (i < length l)%nat) as [Hi|Hi].
  - rewrite lookup_load_bytes by done. rewrite list_lookup_fmap.
    destruct (lookup_lt_is_Some_2 l i Hi) as [c Hc]. rewrite Hc. cbn.
    by rewrite (load8_store_bytes_in _ _ _ _ c).
  - rewrite !lookup_ge_None_2; [done| |].
    + rewrite length_fmap. lia.
    + rewrite length_load_bytes. lia.
Qed.

Lemma load8_memset m dst c n b :
  0 <= n ->
  load8 (memset m dst c n) b = if decide (dst <= b < dst + n) then u8 c else load8 m b.
Proof.
  intros Hn. unfold memset. destruct (Z_of_nat_complete n Hn) as [k ->].
  rewrite Nat2Z.id. clear Hn. revert m dst.
  induction k as [|k IH]; intros m dst; cbn [memset_loop].
  - case_decide; [lia|done].
  - rewrite IH, load8_store8. repeat case_decide; try lia; done.
Qed.

Lemma load32_memset_in m dst n b :
  0 <= n -> dst <= b -> b + 4 <= dst + n -> load32 (memset m dst 0 n) b = 0.
Proof.
  intros. unfold load32. rewrite !load8_memset by lia.
  repeat (case_decide; [|lia]). reflexivity.
Qed.

Lemma load32_memset_out m dst c n b :
  0 <= n -> b + 4 <= dst \/ dst + n <= b -> load32 (memset m dst c n) b = load32 m b.
Proof.
  intros. apply load32_ext. intros x Hx. rewrite load8_memset by lia.
  case_decide; [lia|done].
Qed.

(** ** memmove *)

Lemma load8_memmove_up n m d s b :
  d <= s \/ s + Z.of_nat n <= d ->
  load8 (memmove_up n m d s) b =
    if decide (d <= b < d + Z.of_nat n) then load8 m (s + (b - d)) else load8 m b.
Proof.
  revert m d s. induction n as [|n IH]; intros m d s H; cbn [memmove_up].
  - case_decide; [lia|done].
  - rewrite IH by lia.
    repeat case_decide; try lia.
    + rewrite load8_store8_ne by lia. f_equal. lia.
    + assert (b = d) as -> by lia. rewrite load8_store8_eq, Z.sub_diag, Z.add_0_r.
      apply u8_small, load8_range.
    + apply load8_store8_ne. lia.
Qed.

Lemma load8_memmove_down n m d s b :
  s <= d ->
  load8 (memmove_down n m d s) b =
    if decide (d - Z.of_nat n <= b < d) then load8 m (s - (d - b)) else load8 m b.
Proof.
  revert m d s. induction n as [|n IH]; intros m d s H; cbn [memmove_down].
  - case_decide; [lia|done].
  - rewrite IH by lia.
    repeat case_decide; try lia.
    + rewrite load8_store8_ne by lia. f_equal. lia.
    + assert (b = d - 1) as -> by lia. rewrite load8_store8_eq.
      replace (s - (d - (d - 1))) with (s - 1) by lia. apply u8_small, load8_range.
    + apply load8_store8_ne. lia.
Qed.

Lemma load8_memmove m dst src n b :
  0 <= n ->
  load8 (memmove m dst src n) b =
    if decide (dst <= b < dst + n) then load8 m (src + (b - dst)) else load8 m b.
Proof.
  intros Hn. unfold memmove. destruct (Z.eqb_spec n 0) as [->|Hnz].
  { case_decide; [lia|done]. }
  destruct (Z.ltb_spec src dst), (Z.ltb_spec dst (src + n)); cbn [andb].
  - rewrite load8_memmove_down by lia.
    repeat case_decide; first [lia | done | f_equal; lia].
  - rewrite load8_memmove_up by lia. repeat case_decide; first [lia | done].
  - rewrite load8_memmove_up by lia. repeat case_decide; first [lia | done].
  - rewrite load8_memmove_up by lia. repeat case_decide; first [lia | done].
Qed.

(** ** Character arrays *)

Lemma at_insert_eq s i c : (i < length s)%nat -> at_ (<[i := c]> s) i = c.
Proof. intros H. apply at_lookup. by apply list_lookup_insert_eq. Qed.

Lemma at_insert_ne s i j c : i <> j -> at_ (<[i := c]> s) j = at_ s j.
Proof. intros H. unfold at_. rewrite !nth_lookup. by rewrite list_lookup_insert_ne. Qed.

Lemma strlen_spec s i : (i < strlen s)%nat -> at_ s i <> 0.
Proof.
  revert i. induction s as [|c s IH]; intros i H; cbn in *; [lia|].
  destruct (Z.eqb_spec c 0); [lia|]. destruct i; [done|].
  unfold at_ in *. cbn. apply IH. lia.
Qed.

Lemma strlen_end s : at_ s (strlen s) = 0.
Proof.
  induction s as [|c s IH]; [done|]. cbn. destruct (Z.eqb_spec c 0); [done|exact IH].
Qed.

Lemma strlen_unique s n :
  (forall i, (i < n)%nat -> at_ s i <> 0) -> at_ s n = 0 -> strlen s = n.
Proof.
  intros H1 H2. destruct (Nat.lt_trichotomy (strlen s) n) as [H|[H|H]]; [|done|].
  - exfalso. apply (H1 _ H), strlen_end.
  - exfalso. by apply (strlen_spec s n).
Qed.

Lemma strlen_le_length s : (strlen s <= length s)%nat.
Proof. induction s as [|c s IH]; cbn; [lia|]. destruct (c =? 0); lia. Qed.

Lemma strncmp_loop_zero n i p q :
  (forall j, 0 <= at_ p j < 256) -> (forall j, 0 <= at_ q j < 256) ->
  strncmp_loop n i p q = 0 <->
  forall j, (i <= j < i + n)%nat ->
    (forall k, (i <= k < j)%nat -> at_ p k <> 0) -> at_ p j = at_ q j.
Proof.
  intros Hp Hq. revert i. induction n as [|n IH]; intros i; cbn [strncmp_loop].
  { split; [lia|done]. }
  destruct (Z.eqb_spec (at_ p i) 0) as [Hz|Hz]; cbn [negb andb].
  { rewrite !u8_small by done. split.
    - intros H j Hj Hk. destruct (decide (j = i)) as [->|]; [lia|].
      exfalso. apply (Hk i); [lia|done].
    - intros H. rewrite (H i); [lia|lia|]. intros k Hk. lia. }
  destruct (Z.eqb_spec (at_ p i) (at_ q i)) as [He|He].
  - rewrite IH. split; intros H j Hj Hk.
    + destruct (decide (j = i)) as [->|]; [done|]. apply H; [lia|].
      intros k Hk'. apply Hk. lia.
    + apply H; [lia|]. intros k Hk'. destruct (decide (k = i)) as [->|]; [done|].
      apply Hk. lia.
  - rewrite !u8_small by done. split; [lia|]. intros H. exfalso. apply He, H; [lia|].
    intros k Hk. lia.
Qed.

Lemma strncpy_pad_at n i s j :
  (i + n <= length s)%nat ->
  at_ (strncpy_pad n i s) j = if decide (i <= j < i + n)%nat then 0 else at_ s j.
Proof.
  revert i s. induction n as [|n IH]; intros i s H; cbn [strncpy_pad].
  { case_decide; [lia|done]. }
  rewrite IH by (rewrite length_insert; lia).
  destruct (decide (j = i)) as [->|Hne].
  - rewrite at_insert_eq by lia. repeat case_decide; try lia; done.
  - rewrite at_insert_ne by done. repeat case_decide; try lia; done.
Qed.

Lemma strncpy_copy_at n i s t j :
  (i + n <= length s)%nat -> (i <= strlen t)%nat ->
  at_ (strncpy_copy n i s t) j =
    if decide (i <= j < i + n)%nat
    then (if decide (j < strlen t)%nat then at_ t j else 0)
    else at_ s j.
Proof.
  revert i s. induction n as [|n IH]; intros i s H Hi; cbn [strncpy_copy].
  { case_decide; [lia|done]. }
  destruct (Z.eqb_spec (at_ t i) 0) as [Hz|Hz].
  - assert (strlen t = i) as Hl.
    { apply strlen_unique; [|done]. intros k Hk. apply strlen_spec. lia. }
    rewrite strncpy_pad_at by (rewrite length_insert; lia).
    destruct (decide (j = i)) as [->|Hne].
    + rewrite at_insert_eq by lia. repeat case_decide; try lia; done.
    + rewrite at_insert_ne by done. repeat case_decide; try lia; done.
  - assert (i <> strlen t) by (intros ->; by rewrite strlen_end in Hz).
    rewrite IH by (rewrite ?length_insert; lia).
    destruct (decide (j = i)) as [->|Hne].
    + rewrite at_insert_eq by lia. repeat case_decide; try lia; done.
    + rewrite at_insert_ne by done. repeat case_decide; try lia; done.
Qed.

Lemma length_strncpy_copy n i s t : length (strncpy_copy n i s t) = length s.
Proof.
  assert (forall k j r, length (strncpy_pad k j r) = length r) as Hpad.
  { induction k as [|k IH]; intros j r; cbn; [done|]. by rewrite IH, length_insert. }
  revert i s. induction n as [|n IH]; intros i s; cbn; [done|].
  case_match; [rewrite Hpad|rewrite IH]; apply length_insert.
Qed.

Lemma safestrcpy_copy_at n i s t j :
  (i + n < length s)%nat -> (i <= strlen t)%nat ->
  let e := Nat.min (strlen t) (i + n) in
  ((i <= j < e)%nat -> at_ (safestrcpy_copy n i s t) j = at_ t j) /\
  (j = e -> at_ (safestrcpy_copy n i s t) j = 0) /\
  ((j < i \/ i + n < j)%nat -> at_ (safestrcpy_copy n i s t) j = at_ s j).
Proof.
  cbn zeta. revert i s. induction n as [|n IH]; intros i s H Hi; cbn [safestrcpy_copy].
  { split_and!; [lia| |]; intros Hj.
    - subst j. replace (_ `min` _)%nat with i by lia. apply at_insert_eq. lia.
    - apply at_insert_ne. lia. }
  destruct (Z.eqb_spec (at_ t i) 0) as [Hz|Hz].
  - assert (strlen t = i) as Hl.
    { apply strlen_unique; [|done]. intros k Hk. apply strlen_spec. lia. }
    split_and!; [lia| |]; intros Hj.
    + subst j. rewrite at_insert_ne by lia.
      replace (_ `min` _)%nat with i by lia. rewrite at_insert_eq by lia. done.
    + rewrite !at_insert_ne by lia. done.
  - assert (i <> strlen t) by (intros ->; by rewrite strlen_end in Hz).
    destruct (IH (S i) (<[i := at_ t i]> s)) as (IH1 & IH2 & IH3);
      [rewrite length_insert; lia|lia|].
    split_and!; intros Hj.
    + destruct (decide (j = i)) as [->|Hne].
      * rewrite IH3 by lia. apply at_insert_eq. lia.
      * apply IH1. lia.
    + apply IH2. lia.
    + rewrite IH3 by lia. apply at_insert_ne. lia.
Qed.

Lemma length_safestrcpy_copy n i s t : length (safestrcpy_copy n i s t) = length s.
Proof.
  revert i s. induction n as [|n IH]; intros i s; cbn; [apply length_insert|].
  case_match; [|rewrite IH]; by rewrite ?length_insert.
Qed.

(** ** Correctness of kernel/string.c *)

(** [memmove] copies [n] bytes as if through a private buffer, for every
    overlap of source and destination, and changes nothing else. *)
Theorem memmove_correct m dst src n :
  0 <= n ->
  load_bytes (memmove m dst src n) dst (Z.to_nat n) = load_bytes m src (Z.to_nat n) /\
  (forall b, b < dst \/ dst + n <= b -> load8 (memmove m dst src n) b = load8 m b).
Proof.
  intros Hn. split.
  - apply list_eq. intros i. destruct (decide (i < Z.to_nat n)%nat).
    + rewrite !lookup_load_bytes, load8_memmove by lia.
      case_decide; [|lia]. do 2 f_equal. lia.
    + by rewrite !lookup_ge_None_2 by (rewrite length_load_bytes; lia).
  - intros b Hb. rewrite load8_memmove by done. case_decide; [lia|done].
Qed.

Lemma memmove_correct_witness :
  load_bytes (memmove (store_bytes ∅ 100 [1; 2; 3; 4; 5]) 102 100 4) 102 (Z.to_nat 4)
    = [1; 2; 3; 4].
Proof.
  destruct (memmove_correct (store_bytes ∅ 100 [1; 2; 3; 4; 5]) 102 100 4) as [H _].
  - lia.
  - rewrite H. reflexivity.
Defined.

(** [strncmp] of two character arrays is 0 exactly when they agree on
    every one of the first [n] positions not after a NUL: directory names are
    compared as NUL-padded arrays that need no terminator. *)
Theorem strncmp_zero_iff p q n :
  (forall j, 0 <= at_ p j < 256) -> (forall j, 0 <= at_ q j < 256) ->
  strncmp p q n = 0 <->
  forall j, (j < Z.to_nat n)%nat -> (j <= strlen p)%nat -> at_ p j = at_ q j.
Proof.
  intros Hp Hq. unfold strncmp. rewrite strncmp_loop_zero by done.
  split; intros H j Hj.
  - intros Hl. apply H; [lia|]. intros k Hk. apply strlen_spec. lia.
  - intros Hk. apply H; [lia|]. destruct (decide (j <= strlen p)%nat); [done|].
    exfalso. apply (Hk (strlen p)); [lia|apply strlen_end].
Qed.

Lemma strncmp_zero_iff_witness :
  strncmp [97; 98; 0; 7] [97; 98; 0; 9] 4 = 0.
Proof.
  apply strncmp_zero_iff.
  - intros j. do 5 (destruct j as [|j]; [cbn; lia|]). destruct j; cbn; lia.
  - intros j. do 5 (destruct j as [|j]; [cbn; lia|]). destruct j; cbn; lia.
  - intros j Hj Hl. cbn in Hl. do 3 (destruct j as [|j]; [reflexivity|]). lia.
Defined.

(** [safestrcpy] into an array with room for [n] > 0 bytes leaves there
    the first [n - 1] characters of the source string, NUL-terminated within
    the [n] bytes, and touches nothing past them. *)
Theorem safestrcpy_correct s t n :
  0 < n <= Z.of_nat (length s) ->
  cstr (safestrcpy s t n) = take (Z.to_nat (n - 1)) (cstr t) /\
  length (safestrcpy s t n) = length s /\
  (forall j, (Z.to_nat n <= j)%nat -> at_ (safestrcpy s t n) j = at_ s j).
Proof.
  intros Hn. unfold safestrcpy. destruct (Z.leb_spec n 0); [lia|].
  pose proof (fun j => safestrcpy_copy_at (Z.to_nat (n - 1)) 0 s t j
    ltac:(lia) ltac:(lia)) as Hat. cbn zeta in Hat. cbn [Nat.add] in Hat.
  set (r := safestrcpy_copy _ _ _ _) in *.
  set (e := (strlen t `min` Z.to_nat (n - 1))%nat) in *.
  assert (Hlen : length r = length s) by apply length_safestrcpy_copy.
  assert (He : strlen r = e).
  { apply strlen_unique.
    - intros i Hi. destruct (Hat i) as (Hin & _ & _). rewrite Hin by lia.
      apply strlen_spec. lia.
    - by apply Hat. }
  split_and!; [|done|].
  - unfold cstr. rewrite He, take_take.
    pose proof (strlen_le_length t).
    apply list_eq. intros i. destruct (decide (i < e)%nat).
    + rewrite !lookup_take_lt by lia. rewrite !lookup_at by lia.
      f_equal. apply Hat. lia.
    + by rewrite !lookup_take_ge by lia.
  - intros j Hj. apply Hat. lia.
Qed.

Lemma safestrcpy_correct_witness :
  cstr (safestrcpy (replicate 4 255) [105; 110; 105; 116; 0] 4) = [105; 110; 105].
Proof.
  destruct (safestrcpy_correct (replicate 4 255) [105; 110; 105; 116; 0] 4) as (H & _).
  - cbn. lia.
  - rewrite H. reflexivity.
Defined.
