(* ===== verification/Machine.v ===== *)
(** * The machine and the data structures of the kernel

    The constants and macros of [param.h], [memlayout.h], [riscv.h], [fs.h],
    [stat.h] and [fcntl.h], the structures of [proc.h], [file.h], [buf.h],
    [fs.h], [log.c] and [console.c], and the state of the whole kernel.

    Pointers into the kernel's static tables (processes, files, inodes,
    buffers) are indices of those tables; pointers to pages handed out by the
    page allocator are addresses, and the structures in such pages (page
    tables, trap frames, pipes) live in [mem]. *)
From S2P Require Import Prelude.
From stdpp Require Import gmap strings countable prelude.

Open Scope Z_scope.

(** ** kernel/param.h *)

Definition NPROC : nat := 8.
Definition NOFILE : nat := 8.
Definition NFILE : nat := 8.
Definition NINODE : nat := 8.
Definition NDEV : Z := 8.
Definition ROOTDEV : Z := 1.
Definition MAXARG : nat := 16.
Definition MAXOPBLOCKS : Z := 16.
Definition LOGSIZE : Z := MAXOPBLOCKS.
Definition NBUF : nat := 16.
Definition FSSIZE : Z := 2000.
Definition MAXPATH : Z := 128.

(** ** kernel/riscv.h *)

Definition SSTATUS_SPP : Z := 256.
Definition SSTATUS_SPIE : Z := 32.
Definition SSTATUS_SIE : Z := 2.
Definition SATP_SV32 : Z := 2147483648.
(** [SATP_SV32 | (((uint32)pagetable) >> 12)] *)
Definition MAKE_SATP (pagetable : Z) : Z :=
  Z.lor SATP_SV32 (Z.shiftr (u32 pagetable) 12).

Definition PGSIZE : Z := 4096.
Definition PGSHIFT : Z := 12.
(** [~(PGSIZE-1)] as a [uint32]. *)
Definition PGMASK : Z := 4294963200.
Definition PGROUNDUP (sz : Z) : Z := Z.land (u32 (sz + PGSIZE - 1)) PGMASK.
Definition PGROUNDDOWN (a : Z) : Z := Z.land (u32 a) PGMASK.

Definition PTE_V : Z := 1.
Definition PTE_R : Z := 2.
Definition PTE_W : Z := 4.
Definition PTE_X : Z := 8.
Definition PTE_U : Z := 16.
Definition PTE_A : Z := 64.
Definition PTE_D : Z := 128.
Definition PA2PTE (pa : Z) : Z := u32 (Z.shiftl (Z.shiftr (u32 pa) 12) 10).
Definition PTE2PA (pte : Z) : Z := u32 (Z.shiftl (Z.shiftr pte 10) 12).
Definition PTE_FLAGS (pte : Z) : Z := Z.land pte 1023.
Definition PXMASK : Z := 1023.
Definition PXSHIFT (level : Z) : Z := PGSHIFT + 10 * level.
Definition PX (level va : Z) : Z := Z.land (Z.shiftr (u32 va) (PXSHIFT level)) PXMASK.
Definition MAXVA : Z := 4294967295.

(** ** kernel/memlayout.h *)

Definition KERNBASE : Z := 2147483648.
Definition PHYSTOP : Z := KERNBASE + 16 * 1024 * 1024.
Definition TRAMPOLINE : Z := u32 (MAXVA - PGSIZE + 1).
Definition KSTACK (p : Z) : Z := u32 (TRAMPOLINE - (p + 1) * 2 * PGSIZE).
Definition TRAPFRAME : Z := u32 (TRAMPOLINE - PGSIZE).

(** ** kernel/fs.h, kernel/stat.h, kernel/fcntl.h, kernel/file.h *)

Definition ROOTINO : Z := 1.
Definition BSIZE : Z := 512.
Definition FSMAGIC : Z := 270544960.
Definition NDIRECT : Z := 12.
Definition NINDIRECT : Z := 128.
Definition MAXFILE : Z := NDIRECT + NINDIRECT.
Definition IPB : Z := 8.
Definition BPB : Z := BSIZE * 8.
Definition DIRSIZ : Z := 14.
Definition T_DIR : Z := 1.
Definition T_FILE : Z := 2.
Definition T_DEVICE : Z := 3.
Definition O_RDONLY : Z := 0.
Definition O_WRONLY : Z := 1.
Definition O_RDWR : Z := 2.
Definition O_CREATE : Z := 512.
Definition O_TRUNC : Z := 1024.
Definition CONSOLE : Z := 1.

(** ** Identities of locks and sleep channels *)

(** Sleep locks: one per inode table entry, one per buffer. *)
Inductive slid : Type := SLInode (i : nat) | SLBuf (i : nat).

(** Spinlocks, named by the structure they protect. *)
Inductive lockid : Type :=
| LKmem | LPid | LWait | LProc (i : nat) | LFtable | LItable | LBcache | LLog
| LTicks | LCons | LPr | LUart | LDisk | LPipe (a : Z) | LSleep (l : slid).

(** Sleep channels (addresses in the code). *)
Inductive chan : Type :=
| CProc (i : nat) | CLog | CTicks | CCons | CUart | CPipeR (a : Z) | CPipeW (a : Z)
| CSleep (l : slid) | CDiskFree | CDiskInfo (i : nat).

#[export] Instance slid_eq_dec : EqDecision slid.
Proof. solve_decision. Defined.
#[export] Instance slid_countable : Countable slid.
Proof.
  refine (inj_countable'
    (fun l => match l with SLInode i => inl i | SLBuf i => inr i end)
    (fun x => match x with inl i => SLInode i | inr i => SLBuf i end) _).
  by intros [].
Defined.

#[export] Instance lockid_eq_dec : EqDecision lockid.
Proof. solve_decision. Defined.
Definition lockid_code (l : lockid) : nat * nat * Z + slid :=
  match l with
  | LKmem => inl (0%nat, 0%nat, 0) | LPid => inl (1%nat, 0%nat, 0)
  | LWait => inl (2%nat, 0%nat, 0) | LProc i => inl (3%nat, i, 0)
  | LFtable => inl (4%nat, 0%nat, 0) | LItable => inl (5%nat, 0%nat, 0)
  | LBcache => inl (6%nat, 0%nat, 0) | LLog => inl (7%nat, 0%nat, 0)
  | LTicks => inl (8%nat, 0%nat, 0) | LCons => inl (9%nat, 0%nat, 0)
  | LPr => inl (10%nat, 0%nat, 0) | LUart => inl (11%nat, 0%nat, 0)
  | LDisk => inl (12%nat, 0%nat, 0) | LPipe a => inl (13%nat, 0%nat, a)
  | LSleep l => inr l
  end.
Definition lockid_decode (c : nat * nat * Z + slid) : lockid :=
  match c with
  | inl (0%nat, _, _) => LKmem | inl (1%nat, _, _) => LPid
  | inl (2%nat, _, _) => LWait | inl (3%nat, i, _) => LProc i
  | inl (4%nat, _, _) => LFtable | inl (5%nat, _, _) => LItable
  | inl (6%nat, _, _) => LBcache | inl (7%nat, _, _) => LLog
  | inl (8%nat, _, _) => LTicks | inl (9%nat, _, _) => LCons
  | inl (10%nat, _, _) => LPr | inl (11%nat, _, _) => LUart
  | inl (12%nat, _, _) => LDisk | inl (_, _, a) => LPipe a
  | inr l => LSleep l
  end.
#[export] Instance lockid_countable : Countable lockid.
Proof. refine (inj_countable' lockid_code lockid_decode _). by intros []. Defined.
#[export] Instance chan_eq_dec : EqDecision chan.
Proof. solve_decision. Defined.

(** kernel/proc.h, enum procstate. *)
Inductive procstate : Type := UNUSED | USED | SLEEPING | RUNNABLE | RUNNING | ZOMBIE.
#[export] Instance procstate_eq_dec : EqDecision procstate.
Proof. solve_decision. Defined.

(** kernel/file.h, the type of a struct file. *)
Inductive ftype : Type := FD_NONE | FD_PIPE | FD_INODE | FD_DEVICE.
#[export] Instance ftype_eq_dec : EqDecision ftype.
Proof. solve_decision. Defined.

(** kernel/file.h, struct devsw: the pair of functions a device registers; the
    console (kernel/console.c) is the only device that does. *)
Inductive devfn : Type := ConsoleDev.
#[export] Instance devfn_eq_dec : EqDecision devfn.
Proof. solve_decision. Defined.

(** ** Structures *)

#[local] Set Primitive Projections.

(** kernel/spinlock.h, struct spinlock (the debugging name is left out) *)
Record spinlock : Type := mk_spinlock {
  locked : Z;  (** 0 or 1 *)
  lcpu : option Z  (** the hart holding it *)
}.

(** kernel/sleeplock.h, struct sleeplock; its inner spinlock is [LSleep] of its identity *)
Record sleeplock : Type := mk_sleeplock {
  sl_locked : Z;
  sl_pid : Z  (** process holding the lock *)
}.

(** kernel/proc.h, struct context *)
Record context : Type := mk_context {
  ctx_ra : Z;
  ctx_sp : Z;
  ctx_s : list Z  (** s0..s11 *)
}.

(** kernel/proc.h, struct cpu: [cpus[0]], NCPU being 1 *)
Record cpu : Type := mk_cpu {
  c_proc : option nat;  (** index in the process table of the process running here *)
  noff : Z;  (** depth of push_off() nesting *)
  intena : bool  (** were interrupts enabled before push_off()? *)
}.

(** The supervisor registers the C code accesses (kernel/riscv.h) *)
Record csrs : Type := mk_csrs {
  sstatus : Z;
  sepc : Z;
  scause : Z;
  stval : Z;
  stvec : Z;
  satp : Z;
  sip : Z;
  tp : Z  (** hartid, kept in tp *)
}.

(** kernel/proc.h, struct proc (the lock is [LProc] of its index) *)
Record proc : Type := mk_proc {
  p_state : procstate;
  p_chan : option chan;  (** if set, sleeping on chan *)
  p_killed : Z;
  p_xstate : Z;  (** exit status for the parent *)
  p_pid : Z;
  p_parent : option nat;
  p_kstack : Z;
  p_sz : Z;  (** size of user memory (bytes) *)
  p_pagetable : Z;
  p_trapframe : Z;
  p_context : context;
  p_ofile : list (option nat);  (** open files *)
  p_cwd : option nat;  (** index in the inode table *)
  p_name : list Z
}.

(** kernel/file.h, struct file *)
Record file : Type := mk_file {
  f_type : ftype;
  f_ref : Z;
  f_readable : Z;
  f_writable : Z;
  f_pipe : Z;  (** FD_PIPE *)
  f_ip : option nat;  (** FD_INODE and FD_DEVICE *)
  f_off : Z;  (** FD_INODE *)
  f_major : Z  (** FD_DEVICE *)
}.

(** kernel/file.h, struct inode (the sleep lock is [SLInode] of its index) *)
Record inode : Type := mk_inode {
  i_dev : Z;
  i_inum : Z;
  i_ref : Z;
  i_valid : Z;
  i_type : Z;
  i_major : Z;
  i_minor : Z;
  i_nlink : Z;
  i_size : Z;
  i_addrs : list Z  (** NDIRECT+1 block numbers *)
}.

(** kernel/buf.h, struct buf; [prev] and [next] are indices in the cache, NBUF being [bcache.head] (the sleep lock is [SLBuf] of its index; [CRC16] is not used) *)
Record buf : Type := mk_buf {
  b_valid : Z;
  b_disk : Z;  (** set while virtio_disk.c owns the buffer *)
  b_dev : Z;
  b_blockno : Z;
  b_refcnt : Z;
  b_prev : nat;
  b_next : nat;
  b_data : list Z  (** BSIZE bytes *)
}.

(** kernel/fs.h, struct superblock *)
Record superblock : Type := mk_superblock {
  sb_magic : Z;
  sb_size : Z;
  sb_nblocks : Z;
  sb_ninodes : Z;
  sb_nlog : Z;
  sb_logstart : Z;
  sb_inodestart : Z;
  sb_bmapstart : Z
}.

(** kernel/log.c, struct log with its struct logheader *)
Record logstate : Type := mk_logstate {
  log_start : Z;
  log_size : Z;
  log_outstanding : Z;
  log_committing : Z;
  log_dev : Z;
  lh_n : Z;
  lh_block : list Z  (** LOGSIZE block numbers *)
}.

(** kernel/console.c, struct cons *)
Record console : Type := mk_console {
  cons_buf : list Z;
  cons_r : Z;
  cons_w : Z;
  cons_e : Z
}.

(** The static data of the platform layers: the keyboard state of platform/nemu/platform.c, and the UART and disk structures of platform/qemu/platform.c *)
Record pdata : Type := mk_pdata {
  kb_shift : Z;  (** nemu_shift_down *)
  kb_ctrl : Z;  (** nemu_ctrl_down *)
  kb_caps : Z;  (** nemu_caps_lock *)
  tx_buf : list Z;  (** qemu_uart.tx_buf *)
  tx_w : Z;  (** qemu_uart.tx_w *)
  tx_r : Z;  (** qemu_uart.tx_r *)
  vd_desc : Z;  (** qemu_disk.desc, a page *)
  vd_avail : Z;  (** qemu_disk.avail, a page *)
  vd_used : Z;  (** qemu_disk.used, a page *)
  vd_free : list Z;  (** qemu_disk.free *)
  vd_used_idx : Z;  (** qemu_disk.used_idx *)
  vd_status : list Z;  (** qemu_disk.info[].status *)
  vd_done : list Z;  (** qemu_disk.info[].done *)
  vd_ops : list (Z * Z);  (** qemu_disk.ops[]: type and sector *)
  vd_b : list (option nat)  (** info[].b of kernel/virtio_disk.c *)
}.

(** The state of the kernel *)
Record kstate : Type := mk_kstate {
  mem : gmap Z Z;  (** RAM and kernel stack frames *)
  freelist : Z;  (** kmem.freelist *)
  kcpu : cpu;
  csr : csrs;
  locks : gmap lockid spinlock;
  slocks : gmap slid sleeplock;
  procs : list proc;  (** proc[NPROC] *)
  nextpid : Z;
  initproc : option nat;
  ftable : list file;  (** ftable.file[NFILE] *)
  itable : list inode;  (** itable.inode[NINODE] *)
  sblk : superblock;
  bufs : list buf;  (** bcache.buf[NBUF], then bcache.head *)
  log : logstate;
  disk : gmap Z (list Z);  (** blocks of the device ROOTDEV *)
  dtrace : list (Z * list Z);  (** block writes the device has seen *)
  kcons : console;
  ticks : Z;
  uart : list Z;  (** characters sent to the serial line *)
  kernel_pagetable : Z;
  mmio : gmap Z Z;  (** device registers last written *)
  plat : pdata;  (** static data of the platform layer *)
  devsw : gmap Z devfn;  (** devsw[], the entries that are set *)
  pr_locking : Z;  (** pr.locking *)
  panicked : Z;
  fs_first : Z;  (** [first] of forkret() *)
  nmmio : nat;  (** device registers read so far *)
  nsched : nat  (** times the CPU was given away *)
}.

(** ** Field updates *)

Definition set_c_proc (v : option nat) (c : cpu) : cpu :=
  {| c_proc := v; noff := noff c; intena := intena c |}.
Definition set_noff (v : Z) (c : cpu) : cpu :=
  {| c_proc := c_proc c; noff := v; intena := intena c |}.
Definition set_intena (v : bool) (c : cpu) : cpu :=
  {| c_proc := c_proc c; noff := noff c; intena := v |}.

Definition set_sstatus (v : Z) (c : csrs) : csrs :=
  {| sstatus := v; sepc := sepc c; scause := scause c; stval := stval c; stvec := stvec c;
     satp := satp c; sip := sip c; tp := tp c |}.
Definition set_sepc (v : Z) (c : csrs) : csrs :=
  {| sstatus := sstatus c; sepc := v; scause := scause c; stval := stval c; stvec := stvec c;
     satp := satp c; sip := sip c; tp := tp c |}.
Definition set_scause (v : Z) (c : csrs) : csrs :=
  {| sstatus := sstatus c; sepc := sepc c; scause := v; stval := stval c; stvec := stvec c;
     satp := satp c; sip := sip c; tp := tp c |}.
Definition set_stval (v : Z) (c : csrs) : csrs :=
  {| sstatus := sstatus c; sepc := sepc c; scause := scause c; stval := v; stvec := stvec c;
     satp := satp c; sip := sip c; tp := tp c |}.
Definition set_stvec (v : Z) (c : csrs) : csrs :=
  {| sstatus := sstatus c; sepc := sepc c; scause := scause c; stval := stval c; stvec := v;
     satp := satp c; sip := sip c; tp := tp c |}.
Definition set_satp (v : Z) (c : csrs) : csrs :=
  {| sstatus := sstatus c; sepc := sepc c; scause := scause c; stval := stval c;
     stvec := stvec c; satp := v; sip := sip c; tp := tp c |}.
Definition set_sip (v : Z) (c : csrs) : csrs :=
  {| sstatus := sstatus c; sepc := sepc c; scause := scause c; stval := stval c;
     stvec := stvec c; satp := satp c; sip := v; tp := tp c |}.
Definition set_tp (v : Z) (c : csrs) : csrs :=
  {| sstatus := sstatus c; sepc := sepc c; scause := scause c; stval := stval c;
     stvec := stvec c; satp := satp c; sip := sip c; tp := v |}.

Definition set_p_state (v : procstate) (p : proc) : proc :=
  {| p_state := v; p_chan := p_chan p; p_killed := p_killed p; p_xstate := p_xstate p;
     p_pid := p_pid p; p_parent := p_parent p; p_kstack := p_kstack p; p_sz := p_sz p;
     p_pagetable := p_pagetable p; p_trapframe := p_trapframe p; p_context := p_context p;
     p_ofile := p_ofile p; p_cwd := p_cwd p; p_name := p_name p |}.
Definition set_p_chan (v : option chan) (p : proc) : proc :=
  {| p_state := p_state p; p_chan := v; p_killed := p_killed p; p_xstate := p_xstate p;
     p_pid := p_pid p; p_parent := p_parent p; p_kstack := p_kstack p; p_sz := p_sz p;
     p_pagetable := p_pagetable p; p_trapframe := p_trapframe p; p_context := p_context p;
     p_ofile := p_ofile p; p_cwd := p_cwd p; p_name := p_name p |}.
Definition set_p_killed (v : Z) (p : proc) : proc :=
  {| p_state := p_state p; p_chan := p_chan p; p_killed := v; p_xstate := p_xstate p;
     p_pid := p_pid p; p_parent := p_parent p; p_kstack := p_kstack p; p_sz := p_sz p;
     p_pagetable := p_pagetable p; p_trapframe := p_trapframe p; p_context := p_context p;
     p_ofile := p_ofile p; p_cwd := p_cwd p; p_name := p_name p |}.
Definition set_p_xstate (v : Z) (p : proc) : proc :=
  {| p_state := p_state p; p_chan := p_chan p; p_killed := p_killed p; p_xstate := v;
     p_pid := p_pid p; p_parent := p_parent p; p_kstack := p_kstack p; p_sz := p_sz p;
     p_pagetable := p_pagetable p; p_trapframe := p_trapframe p; p_context := p_context p;
     p_ofile := p_ofile p; p_cwd := p_cwd p; p_name := p_name p |}.
Definition set_p_pid (v : Z) (p : proc) : proc :=
  {| p_state := p_state p; p_chan := p_chan p; p_killed := p_killed p; p_xstate := p_xstate p;
     p_pid := v; p_parent := p_parent p; p_kstack := p_kstack p; p_sz := p_sz p;
     p_pagetable := p_pagetable p; p_trapframe := p_trapframe p; p_context := p_context p;
     p_ofile := p_ofile p; p_cwd := p_cwd p; p_name := p_name p |}.
Definition set_p_parent (v : option nat) (p : proc) : proc :=
  {| p_state := p_state p; p_chan := p_chan p; p_killed := p_killed p; p_xstate := p_xstate p;
     p_pid := p_pid p; p_parent := v; p_kstack := p_kstack p; p_sz := p_sz p;
     p_pagetable := p_pagetable p; p_trapframe := p_trapframe p; p_context := p_context p;
     p_ofile := p_ofile p; p_cwd := p_cwd p; p_name := p_name p |}.
Definition set_p_kstack (v : Z) (p : proc) : proc :=
  {| p_state := p_state p; p_chan := p_chan p; p_killed := p_killed p; p_xstate := p_xstate p;
     p_pid := p_pid p; p_parent := p_parent p; p_kstack := v; p_sz := p_sz p;
     p_pagetable := p_pagetable p; p_trapframe := p_trapframe p; p_context := p_context p;
     p_ofile := p_ofile p; p_cwd := p_cwd p; p_name := p_name p |}.
Definition set_p_sz (v : Z) (p : proc) : proc :=
  {| p_state := p_state p; p_chan := p_chan p; p_killed := p_killed p; p_xstate := p_xstate p;
     p_pid := p_pid p; p_parent := p_parent p; p_kstack := p_kstack p; p_sz := v;
     p_pagetable := p_pagetable p; p_trapframe := p_trapframe p; p_context := p_context p;
     p_ofile := p_ofile p; p_cwd := p_cwd p; p_name := p_name p |}.
Definition set_p_pagetable (v : Z) (p : proc) : proc :=
  {| p_state := p_state p; p_chan := p_chan p; p_killed := p_killed p; p_xstate := p_xstate p;
     p_pid := p_pid p; p_parent := p_parent p; p_kstack := p_kstack p; p_sz := p_sz p;
     p_pagetable := v; p_trapframe := p_trapframe p; p_context := p_context p;
     p_ofile := p_ofile p; p_cwd := p_cwd p; p_name := p_name p |}.
Definition set_p_trapframe (v : Z) (p : proc) : proc :=
  {| p_state := p_state p; p_chan := p_chan p; p_killed := p_killed p; p_xstate := p_xstate p;
     p_pid := p_pid p; p_parent := p_parent p; p_kstack := p_kstack p; p_sz := p_sz p;
     p_pagetable := p_pagetable p; p_trapframe := v; p_context := p_context p;
     p_ofile := p_ofile p; p_cwd := p_cwd p; p_name := p_name p |}.
Definition set_p_context (v : context) (p : proc) : proc :=
  {| p_state := p_state p; p_chan := p_chan p; p_killed := p_killed p; p_xstate := p_xstate p;
     p_pid := p_pid p; p_parent := p_parent p; p_kstack := p_kstack p; p_sz := p_sz p;
     p_pagetable := p_pagetable p; p_trapframe := p_trapframe p; p_context := v;
     p_ofile := p_ofile p; p_cwd := p_cwd p; p_name := p_name p |}.
Definition set_p_ofile (v : list (option nat)) (p : proc) : proc :=
  {| p_state := p_state p; p_chan := p_chan p; p_killed := p_killed p; p_xstate := p_xstate p;
     p_pid := p_pid p; p_parent := p_parent p; p_kstack := p_kstack p; p_sz := p_sz p;
     p_pagetable := p_pagetable p; p_trapframe := p_trapframe p; p_context := p_context p;
     p_ofile := v; p_cwd := p_cwd p; p_name := p_name p |}.
Definition set_p_cwd (v : option nat) (p : proc) : proc :=
  {| p_state := p_state p; p_chan := p_chan p; p_killed := p_killed p; p_xstate := p_xstate p;
     p_pid := p_pid p; p_parent := p_parent p; p_kstack := p_kstack p; p_sz := p_sz p;
     p_pagetable := p_pagetable p; p_trapframe := p_trapframe p; p_context := p_context p;
     p_ofile := p_ofile p; p_cwd := v; p_name := p_name p |}.
Definition set_p_name (v : list Z) (p : proc) : proc :=
  {| p_state := p_state p; p_chan := p_chan p; p_killed := p_killed p; p_xstate := p_xstate p;
     p_pid := p_pid p; p_parent := p_parent p; p_kstack := p_kstack p; p_sz := p_sz p;
     p_pagetable := p_pagetable p; p_trapframe := p_trapframe p; p_context := p_context p;
     p_ofile := p_ofile p; p_cwd := p_cwd p; p_name := v |}.

Definition set_f_type (v : ftype) (f : file) : file :=
  {| f_type := v; f_ref := f_ref f; f_readable := f_readable f; f_writable := f_writable f;
     f_pipe := f_pipe f; f_ip := f_ip f; f_off := f_off f; f_major := f_major f |}.
Definition set_f_ref (v : Z) (f : file) : file :=
  {| f_type := f_type f; f_ref := v; f_readable := f_readable f; f_writable := f_writable f;
     f_pipe := f_pipe f; f_ip := f_ip f; f_off := f_off f; f_major := f_major f |}.
Definition set_f_readable (v : Z) (f : file) : file :=
  {| f_type := f_type f; f_ref := f_ref f; f_readable := v; f_writable := f_writable f;
     f_pipe := f_pipe f; f_ip := f_ip f; f_off := f_off f; f_major := f_major f |}.
Definition set_f_writable (v : Z) (f : file) : file :=
  {| f_type := f_type f; f_ref := f_ref f; f_readable := f_readable f; f_writable := v;
     f_pipe := f_pipe f; f_ip := f_ip f; f_off := f_off f; f_major := f_major f |}.
Definition set_f_pipe (v : Z) (f : file) : file :=
  {| f_type := f_type f; f_ref := f_ref f; f_readable := f_readable f;
     f_writable := f_writable f; f_pipe := v; f_ip := f_ip f; f_off := f_off f;
     f_major := f_major f |}.
Definition set_f_ip (v : option nat) (f : file) : file :=
  {| f_type := f_type f; f_ref := f_ref f; f_readable := f_readable f;
     f_writable := f_writable f; f_pipe := f_pipe f; f_ip := v; f_off := f_off f;
     f_major := f_major f |}.
Definition set_f_off (v : Z) (f : file) : file :=
  {| f_type := f_type f; f_ref := f_ref f; f_readable := f_readable f;
     f_writable := f_writable f; f_pipe := f_pipe f; f_ip := f_ip f; f_off := v;
     f_major := f_major f |}.
Definition set_f_major (v : Z) (f : file) : file :=
  {| f_type := f_type f; f_ref := f_ref f; f_readable := f_readable f;
     f_writable := f_writable f; f_pipe := f_pipe f; f_ip := f_ip f; f_off := f_off f;
     f_major := v |}.

Definition set_i_dev (v : Z) (ip : inode) : inode :=
  {| i_dev := v; i_inum := i_inum ip; i_ref := i_ref ip; i_valid := i_valid ip;
     i_type := i_type ip; i_major := i_major ip; i_minor := i_minor ip; i_nlink := i_nlink ip;
     i_size := i_size ip; i_addrs := i_addrs ip |}.
Definition set_i_inum (v : Z) (ip : inode) : inode :=
  {| i_dev := i_dev ip; i_inum := v; i_ref := i_ref ip; i_valid := i_valid ip;
     i_type := i_type ip; i_major := i_major ip; i_minor := i_minor ip; i_nlink := i_nlink ip;
     i_size := i_size ip; i_addrs := i_addrs ip |}.
Definition set_i_ref (v : Z) (ip : inode) : inode :=
  {| i_dev := i_dev ip; i_inum := i_inum ip; i_ref := v; i_valid := i_valid ip;
     i_type := i_type ip; i_major := i_major ip; i_minor := i_minor ip; i_nlink := i_nlink ip;
     i_size := i_size ip; i_addrs := i_addrs ip |}.
Definition set_i_valid (v : Z) (ip : inode) : inode :=
  {| i_dev := i_dev ip; i_inum := i_inum ip; i_ref := i_ref ip; i_valid := v;
     i_type := i_type ip; i_major := i_major ip; i_minor := i_minor ip; i_nlink := i_nlink ip;
     i_size := i_size ip; i_addrs := i_addrs ip |}.
Definition set_i_type (v : Z) (ip : inode) : inode :=
  {| i_dev := i_dev ip; i_inum := i_inum ip; i_ref := i_ref ip; i_valid := i_valid ip;
     i_type := v; i_major := i_major ip; i_minor := i_minor ip; i_nlink := i_nlink ip;
     i_size := i_size ip; i_addrs := i_addrs ip |}.
Definition set_i_major (v : Z) (ip : inode) : inode :=
  {| i_dev := i_dev ip; i_inum := i_inum ip; i_ref := i_ref ip; i_valid := i_valid ip;
     i_type := i_type ip; i_major := v; i_minor := i_minor ip; i_nlink := i_nlink ip;
     i_size := i_size ip; i_addrs := i_addrs ip |}.
Definition set_i_minor (v : Z) (ip : inode) : inode :=
  {| i_dev := i_dev ip; i_inum := i_inum ip; i_ref := i_ref ip; i_valid := i_valid ip;
     i_type := i_type ip; i_major := i_major ip; i_minor := v; i_nlink := i_nlink ip;
     i_size := i_size ip; i_addrs := i_addrs ip |}.
Definition set_i_nlink (v : Z) (ip : inode) : inode :=
  {| i_dev := i_dev ip; i_inum := i_inum ip; i_ref := i_ref ip; i_valid := i_valid ip;
     i_type := i_type ip; i_major := i_major ip; i_minor := i_minor ip; i_nlink := v;
     i_size := i_size ip; i_addrs := i_addrs ip |}.
Definition set_i_size (v : Z) (ip : inode) : inode :=
  {| i_dev := i_dev ip; i_inum := i_inum ip; i_ref := i_ref ip; i_valid := i_valid ip;
     i_type := i_type ip; i_major := i_major ip; i_minor := i_minor ip; i_nlink := i_nlink ip;
     i_size := v; i_addrs := i_addrs ip |}.
Definition set_i_addrs (v : list Z) (ip : inode) : inode :=
  {| i_dev := i_dev ip; i_inum := i_inum ip; i_ref := i_ref ip; i_valid := i_valid ip;
     i_type := i_type ip; i_major := i_major ip; i_minor := i_minor ip; i_nlink := i_nlink ip;
     i_size := i_size ip; i_addrs := v |}.

Definition set_b_valid (v : Z) (b : buf) : buf :=
  {| b_valid := v; b_disk := b_disk b; b_dev := b_dev b; b_blockno := b_blockno b;
     b_refcnt := b_refcnt b; b_prev := b_prev b; b_next := b_next b; b_data := b_data b |}.
Definition set_b_disk (v : Z) (b : buf) : buf :=
  {| b_valid := b_valid b; b_disk := v; b_dev := b_dev b; b_blockno := b_blockno b;
     b_refcnt := b_refcnt b; b_prev := b_prev b; b_next := b_next b; b_data := b_data b |}.
Definition set_b_dev (v : Z) (b : buf) : buf :=
  {| b_valid := b_valid b; b_disk := b_disk b; b_dev := v; b_blockno := b_blockno b;
     b_refcnt := b_refcnt b; b_prev := b_prev b; b_next := b_next b; b_data := b_data b |}.
Definition set_b_blockno (v : Z) (b : buf) : buf :=
  {| b_valid := b_valid b; b_disk := b_disk b; b_dev := b_dev b; b_blockno := v;
     b_refcnt := b_refcnt b; b_prev := b_prev b; b_next := b_next b; b_data := b_data b |}.
Definition set_b_refcnt (v : Z) (b : buf) : buf :=
  {| b_valid := b_valid b; b_disk := b_disk b; b_dev := b_dev b; b_blockno := b_blockno b;
     b_refcnt := v; b_prev := b_prev b; b_next := b_next b; b_data := b_data b |}.
Definition set_b_prev (v : nat) (b : buf) : buf :=
  {| b_valid := b_valid b; b_disk := b_disk b; b_dev := b_dev b; b_blockno := b_blockno b;
     b_refcnt := b_refcnt b; b_prev := v; b_next := b_next b; b_data := b_data b |}.
Definition set_b_next (v : nat) (b : buf) : buf :=
  {| b_valid := b_valid b; b_disk := b_disk b; b_dev := b_dev b; b_blockno := b_blockno b;
     b_refcnt := b_refcnt b; b_prev := b_prev b; b_next := v; b_data := b_data b |}.
Definition set_b_data (v : list Z) (b : buf) : buf :=
  {| b_valid := b_valid b; b_disk := b_disk b; b_dev := b_dev b; b_blockno := b_blockno b;
     b_refcnt := b_refcnt b; b_prev := b_prev b; b_next := b_next b; b_data := v |}.

Definition set_log_start (v : Z) (l : logstate) : logstate :=
  {| log_start := v; log_size := log_size l; log_outstanding := log_outstanding l;
     log_committing := log_committing l; log_dev := log_dev l; lh_n := lh_n l;
     lh_block := lh_block l |}.
Definition set_log_size (v : Z) (l : logstate) : logstate :=
  {| log_start := log_start l; log_size := v; log_outstanding := log_outstanding l;
     log_committing := log_committing l; log_dev := log_dev l; lh_n := lh_n l;
     lh_block := lh_block l |}.
Definition set_log_outstanding (v : Z) (l : logstate) : logstate :=
  {| log_start := log_start l; log_size := log_size l; log_outstanding := v;
     log_committing := log_committing l; log_dev := log_dev l; lh_n := lh_n l;
     lh_block := lh_block l |}.
Definition set_log_committing (v : Z) (l : logstate) : logstate :=
  {| log_start := log_start l; log_size := log_size l; log_outstanding := log_outstanding l;
     log_committing := v; log_dev := log_dev l; lh_n := lh_n l; lh_block := lh_block l |}.
Definition set_log_dev (v : Z) (l : logstate) : logstate :=
  {| log_start := log_start l; log_size := log_size l; log_outstanding := log_outstanding l;
     log_committing := log_committing l; log_dev := v; lh_n := lh_n l; lh_block := lh_block l |}.
Definition set_lh_n (v : Z) (l : logstate) : logstate :=
  {| log_start := log_start l; log_size := log_size l; log_outstanding := log_outstanding l;
     log_committing := log_committing l; log_dev := log_dev l; lh_n := v;
     lh_block := lh_block l |}.
Definition set_lh_block (v : list Z) (l : logstate) : logstate :=
  {| log_start := log_start l; log_size := log_size l; log_outstanding := log_outstanding l;
     log_committing := log_committing l; log_dev := log_dev l; lh_n := lh_n l; lh_block := v |}.

Definition set_cons_buf (v : list Z) (c : console) : console :=
  {| cons_buf := v; cons_r := cons_r c; cons_w := cons_w c; cons_e := cons_e c |}.
Definition set_cons_r (v : Z) (c : console) : console :=
  {| cons_buf := cons_buf c; cons_r := v; cons_w := cons_w c; cons_e := cons_e c |}.
Definition set_cons_w (v : Z) (c : console) : console :=
  {| cons_buf := cons_buf c; cons_r := cons_r c; cons_w := v; cons_e := cons_e c |}.
Definition set_cons_e (v : Z) (c : console) : console :=
  {| cons_buf := cons_buf c; cons_r := cons_r c; cons_w := cons_w c; cons_e := v |}.

Definition set_kb_shift (v : Z) (d : pdata) : pdata :=
  {| kb_shift := v; kb_ctrl := kb_ctrl d; kb_caps := kb_caps d; tx_buf := tx_buf d;
     tx_w := tx_w d; tx_r := tx_r d; vd_desc := vd_desc d; vd_avail := vd_avail d;
     vd_used := vd_used d; vd_free := vd_free d; vd_used_idx := vd_used_idx d;
     vd_status := vd_status d; vd_done := vd_done d; vd_ops := vd_ops d; vd_b := vd_b d |}.
Definition set_kb_ctrl (v : Z) (d : pdata) : pdata :=
  {| kb_shift := kb_shift d; kb_ctrl := v; kb_caps := kb_caps d; tx_buf := tx_buf d;
     tx_w := tx_w d; tx_r := tx_r d; vd_desc := vd_desc d; vd_avail := vd_avail d;
     vd_used := vd_used d; vd_free := vd_free d; vd_used_idx := vd_used_idx d;
     vd_status := vd_status d; vd_done := vd_done d; vd_ops := vd_ops d; vd_b := vd_b d |}.
Definition set_kb_caps (v : Z) (d : pdata) : pdata :=
  {| kb_shift := kb_shift d; kb_ctrl := kb_ctrl d; kb_caps := v; tx_buf := tx_buf d;
     tx_w := tx_w d; tx_r := tx_r d; vd_desc := vd_desc d; vd_avail := vd_avail d;
     vd_used := vd_used d; vd_free := vd_free d; vd_used_idx := vd_used_idx d;
     vd_status := vd_status d; vd_done := vd_done d; vd_ops := vd_ops d; vd_b := vd_b d |}.
Definition set_tx_buf (v : list Z) (d : pdata) : pdata :=
  {| kb_shift := kb_shift d; kb_ctrl := kb_ctrl d; kb_caps := kb_caps d; tx_buf := v;
     tx_w := tx_w d; tx_r := tx_r d; vd_desc := vd_desc d; vd_avail := vd_avail d;
     vd_used := vd_used d; vd_free := vd_free d; vd_used_idx := vd_used_idx d;
     vd_status := vd_status d; vd_done := vd_done d; vd_ops := vd_ops d; vd_b := vd_b d |}.
Definition set_tx_w (v : Z) (d : pdata) : pdata :=
  {| kb_shift := kb_shift d; kb_ctrl := kb_ctrl d; kb_caps := kb_caps d; tx_buf := tx_buf d;
     tx_w := v; tx_r := tx_r d; vd_desc := vd_desc d; vd_avail := vd_avail d;
     vd_used := vd_used d; vd_free := vd_free d; vd_used_idx := vd_used_idx d;
     vd_status := vd_status d; vd_done := vd_done d; vd_ops := vd_ops d; vd_b := vd_b d |}.
Definition set_tx_r (v : Z) (d : pdata) : pdata :=
  {| kb_shift := kb_shift d; kb_ctrl := kb_ctrl d; kb_caps := kb_caps d; tx_buf := tx_buf d;
     tx_w := tx_w d; tx_r := v; vd_desc := vd_desc d; vd_avail := vd_avail d;
     vd_used := vd_used d; vd_free := vd_free d; vd_used_idx := vd_used_idx d;
     vd_status := vd_status d; vd_done := vd_done d; vd_ops := vd_ops d; vd_b := vd_b d |}.
Definition set_vd_desc (v : Z) (d : pdata) : pdata :=
  {| kb_shift := kb_shift d; kb_ctrl := kb_ctrl d; kb_caps := kb_caps d; tx_buf := tx_buf d;
     tx_w := tx_w d; tx_r := tx_r d; vd_desc := v; vd_avail := vd_avail d; vd_used := vd_used d;
     vd_free := vd_free d; vd_used_idx := vd_used_idx d; vd_status := vd_status d;
     vd_done := vd_done d; vd_ops := vd_ops d; vd_b := vd_b d |}.
Definition set_vd_avail (v : Z) (d : pdata) : pdata :=
  {| kb_shift := kb_shift d; kb_ctrl := kb_ctrl d; kb_caps := kb_caps d; tx_buf := tx_buf d;
     tx_w := tx_w d; tx_r := tx_r d; vd_desc := vd_desc d; vd_avail := v; vd_used := vd_used d;
     vd_free := vd_free d; vd_used_idx := vd_used_idx d; vd_status := vd_status d;
     vd_done := vd_done d; vd_ops := vd_ops d; vd_b := vd_b d |}.
Definition set_vd_used (v : Z) (d : pdata) : pdata :=
  {| kb_shift := kb_shift d; kb_ctrl := kb_ctrl d; kb_caps := kb_caps d; tx_buf := tx_buf d;
     tx_w := tx_w d; tx_r := tx_r d; vd_desc := vd_desc d; vd_avail := vd_avail d; vd_used := v;
     vd_free := vd_free d; vd_used_idx := vd_used_idx d; vd_status := vd_status d;
     vd_done := vd_done d; vd_ops := vd_ops d; vd_b := vd_b d |}.
Definition set_vd_free (v : list Z) (d : pdata) : pdata :=
  {| kb_shift := kb_shift d; kb_ctrl := kb_ctrl d; kb_caps := kb_caps d; tx_buf := tx_buf d;
     tx_w := tx_w d; tx_r := tx_r d; vd_desc := vd_desc d; vd_avail := vd_avail d;
     vd_used := vd_used d; vd_free := v; vd_used_idx := vd_used_idx d; vd_status := vd_status d;
     vd_done := vd_done d; vd_ops := vd_ops d; vd_b := vd_b d |}.
Definition set_vd_used_idx (v : Z) (d : pdata) : pdata :=
  {| kb_shift := kb_shift d; kb_ctrl := kb_ctrl d; kb_caps := kb_caps d; tx_buf := tx_buf d;
     tx_w := tx_w d; tx_r := tx_r d; vd_desc := vd_desc d; vd_avail := vd_avail d;
     vd_used := vd_used d; vd_free := vd_free d; vd_used_idx := v; vd_status := vd_status d;
     vd_done := vd_done d; vd_ops := vd_ops d; vd_b := vd_b d |}.
Definition set_vd_status (v : list Z) (d : pdata) : pdata :=
  {| kb_shift := kb_shift d; kb_ctrl := kb_ctrl d; kb_caps := kb_caps d; tx_buf := tx_buf d;
     tx_w := tx_w d; tx_r := tx_r d; vd_desc := vd_desc d; vd_avail := vd_avail d;
     vd_used := vd_used d; vd_free := vd_free d; vd_used_idx := vd_used_idx d; vd_status := v;
     vd_done := vd_done d; vd_ops := vd_ops d; vd_b := vd_b d |}.
Definition set_vd_done (v : list Z) (d : pdata) : pdata :=
  {| kb_shift := kb_shift d; kb_ctrl := kb_ctrl d; kb_caps := kb_caps d; tx_buf := tx_buf d;
     tx_w := tx_w d; tx_r := tx_r d; vd_desc := vd_desc d; vd_avail := vd_avail d;
     vd_used := vd_used d; vd_free := vd_free d; vd_used_idx := vd_used_idx d;
     vd_status := vd_status d; vd_done := v; vd_ops := vd_ops d; vd_b := vd_b d |}.
Definition set_vd_ops (v : list (Z * Z)) (d : pdata) : pdata :=
  {| kb_shift := kb_shift d; kb_ctrl := kb_ctrl d; kb_caps := kb_caps d; tx_buf := tx_buf d;
     tx_w := tx_w d; tx_r := tx_r d; vd_desc := vd_desc d; vd_avail := vd_avail d;
     vd_used := vd_used d; vd_free := vd_free d; vd_used_idx := vd_used_idx d;
     vd_status := vd_status d; vd_done := vd_done d; vd_ops := v; vd_b := vd_b d |}.
Definition set_vd_b (v : list (option nat)) (d : pdata) : pdata :=
  {| kb_shift := kb_shift d; kb_ctrl := kb_ctrl d; kb_caps := kb_caps d; tx_buf := tx_buf d;
     tx_w := tx_w d; tx_r := tx_r d; vd_desc := vd_desc d; vd_avail := vd_avail d;
     vd_used := vd_used d; vd_free := vd_free d; vd_used_idx := vd_used_idx d;
     vd_status := vd_status d; vd_done := vd_done d; vd_ops := vd_ops d; vd_b := v |}.

Definition set_mem (v : gmap Z Z) (s : kstate) : kstate :=
  {| mem := v; freelist := freelist s; kcpu := kcpu s; csr := csr s; locks := locks s;
     slocks := slocks s; procs := procs s; nextpid := nextpid s; initproc := initproc s;
     ftable := ftable s; itable := itable s; sblk := sblk s; bufs := bufs s; log := log s;
     disk := disk s; dtrace := dtrace s; kcons := kcons s; ticks := ticks s; uart := uart s;
     kernel_pagetable := kernel_pagetable s; mmio := mmio s; plat := plat s; devsw := devsw s;
     pr_locking := pr_locking s; panicked := panicked s; fs_first := fs_first s;
     nmmio := nmmio s; nsched := nsched s |}.
Definition set_freelist (v : Z) (s : kstate) : kstate :=
  {| mem := mem s; freelist := v; kcpu := kcpu s; csr := csr s; locks := locks s;
     slocks := slocks s; procs := procs s; nextpid := nextpid s; initproc := initproc s;
     ftable := ftable s; itable := itable s; sblk := sblk s; bufs := bufs s; log := log s;
     disk := disk s; dtrace := dtrace s; kcons := kcons s; ticks := ticks s; uart := uart s;
     kernel_pagetable := kernel_pagetable s; mmio := mmio s; plat := plat s; devsw := devsw s;
     pr_locking := pr_locking s; panicked := panicked s; fs_first := fs_first s;
     nmmio := nmmio s; nsched := nsched s |}.
Definition set_kcpu (v : cpu) (s : kstate) : kstate :=
  {| mem := mem s; freelist := freelist s; kcpu := v; csr := csr s; locks := locks s;
     slocks := slocks s; procs := procs s; nextpid := nextpid s; initproc := initproc s;
     ftable := ftable s; itable := itable s; sblk := sblk s; bufs := bufs s; log := log s;
     disk := disk s; dtrace := dtrace s; kcons := kcons s; ticks := ticks s; uart := uart s;
     kernel_pagetable := kernel_pagetable s; mmio := mmio s; plat := plat s; devsw := devsw s;
     pr_locking := pr_locking s; panicked := panicked s; fs_first := fs_first s;
     nmmio := nmmio s; nsched := nsched s |}.
Definition set_csr (v : csrs) (s : kstate) : kstate :=
  {| mem := mem s; freelist := freelist s; kcpu := kcpu s; csr := v; locks := locks s;
     slocks := slocks s; procs := procs s; nextpid := nextpid s; initproc := initproc s;
     ftable := ftable s; itable := itable s; sblk := sblk s; bufs := bufs s; log := log s;
     disk := disk s; dtrace := dtrace s; kcons := kcons s; ticks := ticks s; uart := uart s;
     kernel_pagetable := kernel_pagetable s; mmio := mmio s; plat := plat s; devsw := devsw s;
     pr_locking := pr_locking s; panicked := panicked s; fs_first := fs_first s;
     nmmio := nmmio s; nsched := nsched s |}.
Definition set_locks (v : gmap lockid spinlock) (s : kstate) : kstate :=
  {| mem := mem s; freelist := freelist s; kcpu := kcpu s; csr := csr s; locks := v;
     slocks := slocks s; procs := procs s; nextpid := nextpid s; initproc := initproc s;
     ftable := ftable s; itable := itable s; sblk := sblk s; bufs := bufs s; log := log s;
     disk := disk s; dtrace := dtrace s; kcons := kcons s; ticks := ticks s; uart := uart s;
     kernel_pagetable := kernel_pagetable s; mmio := mmio s; plat := plat s; devsw := devsw s;
     pr_locking := pr_locking s; panicked := panicked s; fs_first := fs_first s;
     nmmio := nmmio s; nsched := nsched s |}.
Definition set_slocks (v : gmap slid sleeplock) (s : kstate) : kstate :=
  {| mem := mem s; freelist := freelist s; kcpu := kcpu s; csr := csr s; locks := locks s;
     slocks := v; procs := procs s; nextpid := nextpid s; initproc := initproc s;
     ftable := ftable s; itable := itable s; sblk := sblk s; bufs := bufs s; log := log s;
     disk := disk s; dtrace := dtrace s; kcons := kcons s; ticks := ticks s; uart := uart s;
     kernel_pagetable := kernel_pagetable s; mmio := mmio s; plat := plat s; devsw := devsw s;
     pr_locking := pr_locking s; panicked := panicked s; fs_first := fs_first s;
     nmmio := nmmio s; nsched := nsched s |}.
Definition set_procs (v : list proc) (s : kstate) : kstate :=
  {| mem := mem s; freelist := freelist s; kcpu := kcpu s; csr := csr s; locks := locks s;
     slocks := slocks s; procs := v; nextpid := nextpid s; initproc := initproc s;
     ftable := ftable s; itable := itable s; sblk := sblk s; bufs := bufs s; log := log s;
     disk := disk s; dtrace := dtrace s; kcons := kcons s; ticks := ticks s; uart := uart s;
     kernel_pagetable := kernel_pagetable s; mmio := mmio s; plat := plat s; devsw := devsw s;
     pr_locking := pr_locking s; panicked := panicked s; fs_first := fs_first s;
     nmmio := nmmio s; nsched := nsched s |}.
Definition set_nextpid (v : Z) (s : kstate) : kstate :=
  {| mem := mem s; freelist := freelist s; kcpu := kcpu s; csr := csr s; locks := locks s;
     slocks := slocks s; procs := procs s; nextpid := v; initproc := initproc s;
     ftable := ftable s; itable := itable s; sblk := sblk s; bufs := bufs s; log := log s;
     disk := disk s; dtrace := dtrace s; kcons := kcons s; ticks := ticks s; uart := uart s;
     kernel_pagetable := kernel_pagetable s; mmio := mmio s; plat := plat s; devsw := devsw s;
     pr_locking := pr_locking s; panicked := panicked s; fs_first := fs_first s;
     nmmio := nmmio s; nsched := nsched s |}.
Definition set_initproc (v : option nat) (s : kstate) : kstate :=
  {| mem := mem s; freelist := freelist s; kcpu := kcpu s; csr := csr s; locks := locks s;
     slocks := slocks s; procs := procs s; nextpid := nextpid s; initproc := v;
     ftable := ftable s; itable := itable s; sblk := sblk s; bufs := bufs s; log := log s;
     disk := disk s; dtrace := dtrace s; kcons := kcons s; ticks := ticks s; uart := uart s;
     kernel_pagetable := kernel_pagetable s; mmio := mmio s; plat := plat s; devsw := devsw s;
     pr_locking := pr_locking s; panicked := panicked s; fs_first := fs_first s;
     nmmio := nmmio s; nsched := nsched s |}.
Definition set_ftable (v : list file) (s : kstate) : kstate :=
  {| mem := mem s; freelist := freelist s; kcpu := kcpu s; csr := csr s; locks := locks s;
     slocks := slocks s; procs := procs s; nextpid := nextpid s; initproc := initproc s;
     ftable := v; itable := itable s; sblk := sblk s; bufs := bufs s; log := log s;
     disk := disk s; dtrace := dtrace s; kcons := kcons s; ticks := ticks s; uart := uart s;
     kernel_pagetable := kernel_pagetable s; mmio := mmio s; plat := plat s; devsw := devsw s;
     pr_locking := pr_locking s; panicked := panicked s; fs_first := fs_first s;
     nmmio := nmmio s; nsched := nsched s |}.
Definition set_itable (v : list inode) (s : kstate) : kstate :=
  {| mem := mem s; freelist := freelist s; kcpu := kcpu s; csr := csr s; locks := locks s;
     slocks := slocks s; procs := procs s; nextpid := nextpid s; initproc := initproc s;
     ftable := ftable s; itable := v; sblk := sblk s; bufs := bufs s; log := log s;
     disk := disk s; dtrace := dtrace s; kcons := kcons s; ticks := ticks s; uart := uart s;
     kernel_pagetable := kernel_pagetable s; mmio := mmio s; plat := plat s; devsw := devsw s;
     pr_locking := pr_locking s; panicked := panicked s; fs_first := fs_first s;
     nmmio := nmmio s; nsched := nsched s |}.
Definition set_sblk (v : superblock) (s : kstate) : kstate :=
  {| mem := mem s; freelist := freelist s; kcpu := kcpu s; csr := csr s; locks := locks s;
     slocks := slocks s; procs := procs s; nextpid := nextpid s; initproc := initproc s;
     ftable := ftable s; itable := itable s; sblk := v; bufs := bufs s; log := log s;
     disk := disk s; dtrace := dtrace s; kcons := kcons s; ticks := ticks s; uart := uart s;
     kernel_pagetable := kernel_pagetable s; mmio := mmio s; plat := plat s; devsw := devsw s;
     pr_locking := pr_locking s; panicked := panicked s; fs_first := fs_first s;
     nmmio := nmmio s; nsched := nsched s |}.
Definition set_bufs (v : list buf) (s : kstate) : kstate :=
  {| mem := mem s; freelist := freelist s; kcpu := kcpu s; csr := csr s; locks := locks s;
     slocks := slocks s; procs := procs s; nextpid := nextpid s; initproc := initproc s;
     ftable := ftable s; itable := itable s; sblk := sblk s; bufs := v; log := log s;
     disk := disk s; dtrace := dtrace s; kcons := kcons s; ticks := ticks s; uart := uart s;
     kernel_pagetable := kernel_pagetable s; mmio := mmio s; plat := plat s; devsw := devsw s;
     pr_locking := pr_locking s; panicked := panicked s; fs_first := fs_first s;
     nmmio := nmmio s; nsched := nsched s |}.
Definition set_log (v : logstate) (s : kstate) : kstate :=
  {| mem := mem s; freelist := freelist s; kcpu := kcpu s; csr := csr s; locks := locks s;
     slocks := slocks s; procs := procs s; nextpid := nextpid s; initproc := initproc s;
     ftable := ftable s; itable := itable s; sblk := sblk s; bufs := bufs s; log := v;
     disk := disk s; dtrace := dtrace s; kcons := kcons s; ticks := ticks s; uart := uart s;
     kernel_pagetable := kernel_pagetable s; mmio := mmio s; plat := plat s; devsw := devsw s;
     pr_locking := pr_locking s; panicked := panicked s; fs_first := fs_first s;
     nmmio := nmmio s; nsched := nsched s |}.
Definition set_disk (v : gmap Z (list Z)) (s : kstate) : kstate :=
  {| mem := mem s; freelist := freelist s; kcpu := kcpu s; csr := csr s; locks := locks s;
     slocks := slocks s; procs := procs s; nextpid := nextpid s; initproc := initproc s;
     ftable := ftable s; itable := itable s; sblk := sblk s; bufs := bufs s; log := log s;
     disk := v; dtrace := dtrace s; kcons := kcons s; ticks := ticks s; uart := uart s;
     kernel_pagetable := kernel_pagetable s; mmio := mmio s; plat := plat s; devsw := devsw s;
     pr_locking := pr_locking s; panicked := panicked s; fs_first := fs_first s;
     nmmio := nmmio s; nsched := nsched s |}.
Definition set_dtrace (v : list (Z * list Z)) (s : kstate) : kstate :=
  {| mem := mem s; freelist := freelist s; kcpu := kcpu s; csr := csr s; locks := locks s;
     slocks := slocks s; procs := procs s; nextpid := nextpid s; initproc := initproc s;
     ftable := ftable s; itable := itable s; sblk := sblk s; bufs := bufs s; log := log s;
     disk := disk s; dtrace := v; kcons := kcons s; ticks := ticks s; uart := uart s;
     kernel_pagetable := kernel_pagetable s; mmio := mmio s; plat := plat s; devsw := devsw s;
     pr_locking := pr_locking s; panicked := panicked s; fs_first := fs_first s;
     nmmio := nmmio s; nsched := nsched s |}.
Definition set_kcons (v : console) (s : kstate) : kstate :=
  {| mem := mem s; freelist := freelist s; kcpu := kcpu s; csr := csr s; locks := locks s;
     slocks := slocks s; procs := procs s; nextpid := nextpid s; initproc := initproc s;
     ftable := ftable s; itable := itable s; sblk := sblk s; bufs := bufs s; log := log s;
     disk := disk s; dtrace := dtrace s; kcons := v; ticks := ticks s; uart := uart s;
     kernel_pagetable := kernel_pagetable s; mmio := mmio s; plat := plat s; devsw := devsw s;
     pr_locking := pr_locking s; panicked := panicked s; fs_first := fs_first s;
     nmmio := nmmio s; nsched := nsched s |}.
Definition set_ticks (v : Z) (s : kstate) : kstate :=
  {| mem := mem s; freelist := freelist s; kcpu := kcpu s; csr := csr s; locks := locks s;
     slocks := slocks s; procs := procs s; nextpid := nextpid s; initproc := initproc s;
     ftable := ftable s; itable := itable s; sblk := sblk s; bufs := bufs s; log := log s;
     disk := disk s; dtrace := dtrace s; kcons := kcons s; ticks := v; uart := uart s;
     kernel_pagetable := kernel_pagetable s; mmio := mmio s; plat := plat s; devsw := devsw s;
     pr_locking := pr_locking s; panicked := panicked s; fs_first := fs_first s;
     nmmio := nmmio s; nsched := nsched s |}.
Definition set_uart (v : list Z) (s : kstate) : kstate :=
  {| mem := mem s; freelist := freelist s; kcpu := kcpu s; csr := csr s; locks := locks s;
     slocks := slocks s; procs := procs s; nextpid := nextpid s; initproc := initproc s;
     ftable := ftable s; itable := itable s; sblk := sblk s; bufs := bufs s; log := log s;
     disk := disk s; dtrace := dtrace s; kcons := kcons s; ticks := ticks s; uart := v;
     kernel_pagetable := kernel_pagetable s; mmio := mmio s; plat := plat s; devsw := devsw s;
     pr_locking := pr_locking s; panicked := panicked s; fs_first := fs_first s;
     nmmio := nmmio s; nsched := nsched s |}.
Definition set_kernel_pagetable (v : Z) (s : kstate) : kstate :=
  {| mem := mem s; freelist := freelist s; kcpu := kcpu s; csr := csr s; locks := locks s;
     slocks := slocks s; procs := procs s; nextpid := nextpid s; initproc := initproc s;
     ftable := ftable s; itable := itable s; sblk := sblk s; bufs := bufs s; log := log s;
     disk := disk s; dtrace := dtrace s; kcons := kcons s; ticks := ticks s; uart := uart s;
     kernel_pagetable := v; mmio := mmio s; plat := plat s; devsw := devsw s;
     pr_locking := pr_locking s; panicked := panicked s; fs_first := fs_first s;
     nmmio := nmmio s; nsched := nsched s |}.
Definition set_mmio (v : gmap Z Z) (s : kstate) : kstate :=
  {| mem := mem s; freelist := freelist s; kcpu := kcpu s; csr := csr s; locks := locks s;
     slocks := slocks s; procs := procs s; nextpid := nextpid s; initproc := initproc s;
     ftable := ftable s; itable := itable s; sblk := sblk s; bufs := bufs s; log := log s;
     disk := disk s; dtrace := dtrace s; kcons := kcons s; ticks := ticks s; uart := uart s;
     kernel_pagetable := kernel_pagetable s; mmio := v; plat := plat s; devsw := devsw s;
     pr_locking := pr_locking s; panicked := panicked s; fs_first := fs_first s;
     nmmio := nmmio s; nsched := nsched s |}.
Definition set_plat (v : pdata) (s : kstate) : kstate :=
  {| mem := mem s; freelist := freelist s; kcpu := kcpu s; csr := csr s; locks := locks s;
     slocks := slocks s; procs := procs s; nextpid := nextpid s; initproc := initproc s;
     ftable := ftable s; itable := itable s; sblk := sblk s; bufs := bufs s; log := log s;
     disk := disk s; dtrace := dtrace s; kcons := kcons s; ticks := ticks s; uart := uart s;
     kernel_pagetable := kernel_pagetable s; mmio := mmio s; plat := v; devsw := devsw s;
     pr_locking := pr_locking s; panicked := panicked s; fs_first := fs_first s;
     nmmio := nmmio s; nsched := nsched s |}.
Definition set_devsw (v : gmap Z devfn) (s : kstate) : kstate :=
  {| mem := mem s; freelist := freelist s; kcpu := kcpu s; csr := csr s; locks := locks s;
     slocks := slocks s; procs := procs s; nextpid := nextpid s; initproc := initproc s;
     ftable := ftable s; itable := itable s; sblk := sblk s; bufs := bufs s; log := log s;
     disk := disk s; dtrace := dtrace s; kcons := kcons s; ticks := ticks s; uart := uart s;
     kernel_pagetable := kernel_pagetable s; mmio := mmio s; plat := plat s; devsw := v;
     pr_locking := pr_locking s; panicked := panicked s; fs_first := fs_first s;
     nmmio := nmmio s; nsched := nsched s |}.
Definition set_pr_locking (v : Z) (s : kstate) : kstate :=
  {| mem := mem s; freelist := freelist s; kcpu := kcpu s; csr := csr s; locks := locks s;
     slocks := slocks s; procs := procs s; nextpid := nextpid s; initproc := initproc s;
     ftable := ftable s; itable := itable s; sblk := sblk s; bufs := bufs s; log := log s;
     disk := disk s; dtrace := dtrace s; kcons := kcons s; ticks := ticks s; uart := uart s;
     kernel_pagetable := kernel_pagetable s; mmio := mmio s; plat := plat s; devsw := devsw s;
     pr_locking := v; panicked := panicked s; fs_first := fs_first s; nmmio := nmmio s;
     nsched := nsched s |}.
Definition set_panicked (v : Z) (s : kstate) : kstate :=
  {| mem := mem s; freelist := freelist s; kcpu := kcpu s; csr := csr s; locks := locks s;
     slocks := slocks s; procs := procs s; nextpid := nextpid s; initproc := initproc s;
     ftable := ftable s; itable := itable s; sblk := sblk s; bufs := bufs s; log := log s;
     disk := disk s; dtrace := dtrace s; kcons := kcons s; ticks := ticks s; uart := uart s;
     kernel_pagetable := kernel_pagetable s; mmio := mmio s; plat := plat s; devsw := devsw s;
     pr_locking := pr_locking s; panicked := v; fs_first := fs_first s; nmmio := nmmio s;
     nsched := nsched s |}.
Definition set_fs_first (v : Z) (s : kstate) : kstate :=
  {| mem := mem s; freelist := freelist s; kcpu := kcpu s; csr := csr s; locks := locks s;
     slocks := slocks s; procs := procs s; nextpid := nextpid s; initproc := initproc s;
     ftable := ftable s; itable := itable s; sblk := sblk s; bufs := bufs s; log := log s;
     disk := disk s; dtrace := dtrace s; kcons := kcons s; ticks := ticks s; uart := uart s;
     kernel_pagetable := kernel_pagetable s; mmio := mmio s; plat := plat s; devsw := devsw s;
     pr_locking := pr_locking s; panicked := panicked s; fs_first := v; nmmio := nmmio s;
     nsched := nsched s |}.
Definition set_nmmio (v : nat) (s : kstate) : kstate :=
  {| mem := mem s; freelist := freelist s; kcpu := kcpu s; csr := csr s; locks := locks s;
     slocks := slocks s; procs := procs s; nextpid := nextpid s; initproc := initproc s;
     ftable := ftable s; itable := itable s; sblk := sblk s; bufs := bufs s; log := log s;
     disk := disk s; dtrace := dtrace s; kcons := kcons s; ticks := ticks s; uart := uart s;
     kernel_pagetable := kernel_pagetable s; mmio := mmio s; plat := plat s; devsw := devsw s;
     pr_locking := pr_locking s; panicked := panicked s; fs_first := fs_first s; nmmio := v;
     nsched := nsched s |}.
Definition set_nsched (v : nat) (s : kstate) : kstate :=
  {| mem := mem s; freelist := freelist s; kcpu := kcpu s; csr := csr s; locks := locks s;
     slocks := slocks s; procs := procs s; nextpid := nextpid s; initproc := initproc s;
     ftable := ftable s; itable := itable s; sblk := sblk s; bufs := bufs s; log := log s;
     disk := disk s; dtrace := dtrace s; kcons := kcons s; ticks := ticks s; uart := uart s;
     kernel_pagetable := kernel_pagetable s; mmio := mmio s; plat := plat s; devsw := devsw s;
     pr_locking := pr_locking s; panicked := panicked s; fs_first := fs_first s;
     nmmio := nmmio s; nsched := v |}.

(** A kernel computation. *)
Abbreviation K := (M kstate).

(** Addresses that the linker chooses, and the address of the stack frame
    that holds the local structures whose address is passed to a copy
    routine. *)
Class Layout : Type := {
  kend : Z;          (** [end], the first address after the kernel *)
  etext : Z;         (** end of the kernel text *)
  trampoline : Z;    (** the trampoline page *)
  uservec : Z;
  userret : Z;
  usertrap_addr : Z;
  kernelvec : Z;
  forkret_addr : Z;
  frame : Z;
  buf_addr : nat -> Z;      (** address of [bcache.buf[i].data] *)
  vd_ops_addr : nat -> Z;   (** address of [qemu_disk.ops[i]] *)
  vd_status_addr : nat -> Z; (** address of [qemu_disk.info[i].status] *)
}.

(** What the linker script guarantees of those addresses: the kernel is at
    the bottom of RAM and leaves room above it, its stacks are outside the
    RAM the page allocator manages. *)
Class LayoutOk (L : Layout) : Prop := {
  kend_range : KERNBASE < kend < PHYSTOP;
  etext_range : KERNBASE < etext <= kend;
  trampoline_aligned : trampoline mod PGSIZE = 0;
  trampoline_range : KERNBASE <= trampoline < kend;
  frame_range : PHYSTOP <= frame < 4294901760;
}.

(** The world around the kernel code of one process.
    - [others]: what the rest of the system does each time the CPU is given
      away: from the state the process leaves (and how often it has left
      before) to the one it is resumed in, [None] if it is never scheduled
      again;
    - [hw_read]: the value a load from a device register returns, given how
      many such loads there were, the address and the state;
    - [hw_write]: what a store to a device register does besides being
      remembered;
    - [patience]: how many turns a loop that waits for a device or for another
      process is followed for. *)
Class World : Type := {
  others : nat -> kstate -> option kstate;
  hw_read : nat -> Z -> kstate -> Z;
  hw_write : Z -> Z -> kstate -> kstate;
  patience : nat;
}.

(** ** Updates inside the tables *)

Definition upd_lock (lk : lockid) (l : spinlock) (s : kstate) : kstate :=
  set_locks (<[lk := l]> (locks s)) s.
Definition upd_slock (l : slid) (v : sleeplock) (s : kstate) : kstate :=
  set_slocks (<[l := v]> (slocks s)) s.
Definition upd_noff (n : Z) (s : kstate) : kstate := set_kcpu (set_noff n (kcpu s)) s.
Definition upd_proc (i : nat) (f : proc -> proc) (s : kstate) : kstate :=
  set_procs (alter f i (procs s)) s.
Definition upd_file (i : nat) (f : file -> file) (s : kstate) : kstate :=
  set_ftable (alter f i (ftable s)) s.
Definition upd_inode (i : nat) (f : inode -> inode) (s : kstate) : kstate :=
  set_itable (alter f i (itable s)) s.
Definition upd_buf (i : nat) (f : buf -> buf) (s : kstate) : kstate :=
  set_bufs (alter f i (bufs s)) s.
Definition upd_log (f : logstate -> logstate) (s : kstate) : kstate :=
  set_log (f (log s)) s.

Definition upd_plat (f : pdata -> pdata) (s : kstate) : kstate := set_plat (f (plat s)) s.

(** The lock structure while this hart holds it; the state with one more
    level of [push_off], and with the lock [lk] taken besides. *)
Definition held_lock (s : kstate) : spinlock := {| locked := 1; lcpu := Some (tp (csr s)) |}.
Definition pushed (s : kstate) : kstate :=
  upd_noff (noff (kcpu s) + 1)
    (set_csr (set_sstatus (Z.ldiff (sstatus (csr s)) SSTATUS_SIE) (csr s)) s).
Definition acq (lk : lockid) (s : kstate) : kstate :=
  pushed (upd_lock lk (held_lock s) s).

(** [ksimp] reads fields of updated states. *)
Ltac ksimp := cbn [
  locked lcpu sl_locked sl_pid ctx_ra ctx_sp ctx_s c_proc noff intena sstatus sepc
  scause stval stvec satp sip tp p_state p_chan p_killed p_xstate p_pid p_parent
  p_kstack p_sz p_pagetable p_trapframe p_context p_ofile p_cwd p_name f_type f_ref
  f_readable f_writable f_pipe f_ip f_off f_major i_dev i_inum i_ref i_valid i_type
  i_major i_minor i_nlink i_size i_addrs b_valid b_disk b_dev b_blockno b_refcnt b_prev
  b_next b_data sb_magic sb_size sb_nblocks sb_ninodes sb_nlog sb_logstart sb_inodestart
  sb_bmapstart log_start log_size log_outstanding log_committing log_dev lh_n lh_block
  cons_buf cons_r cons_w cons_e kb_shift kb_ctrl kb_caps tx_buf tx_w tx_r vd_desc
  vd_avail vd_used vd_free vd_used_idx vd_status vd_done vd_ops vd_b mem freelist kcpu
  csr locks slocks procs nextpid initproc ftable itable sblk bufs log disk dtrace kcons
  ticks uart kernel_pagetable mmio plat devsw pr_locking panicked fs_first nmmio nsched
  set_c_proc set_noff set_intena set_sstatus set_sepc set_scause set_stval set_stvec
  set_satp set_sip set_tp set_p_state set_p_chan set_p_killed set_p_xstate set_p_pid
  set_p_parent set_p_kstack set_p_sz set_p_pagetable set_p_trapframe set_p_context
  set_p_ofile set_p_cwd set_p_name set_f_type set_f_ref set_f_readable set_f_writable
  set_f_pipe set_f_ip set_f_off set_f_major set_i_dev set_i_inum set_i_ref set_i_valid
  set_i_type set_i_major set_i_minor set_i_nlink set_i_size set_i_addrs set_b_valid
  set_b_disk set_b_dev set_b_blockno set_b_refcnt set_b_prev set_b_next set_b_data
  set_log_start set_log_size set_log_outstanding set_log_committing set_log_dev set_lh_n
  set_lh_block set_cons_buf set_cons_r set_cons_w set_cons_e set_kb_shift set_kb_ctrl
  set_kb_caps set_tx_buf set_tx_w set_tx_r set_vd_desc set_vd_avail set_vd_used
  set_vd_free set_vd_used_idx set_vd_status set_vd_done set_vd_ops set_vd_b set_mem
  set_freelist set_kcpu set_csr set_locks set_slocks set_procs set_nextpid set_initproc
  set_ftable set_itable set_sblk set_bufs set_log set_disk set_dtrace set_kcons
  set_ticks set_uart set_kernel_pagetable set_mmio set_plat set_devsw set_pr_locking
  set_panicked set_fs_first set_nmmio set_nsched upd_lock upd_slock upd_noff upd_proc
  upd_file upd_inode upd_buf upd_log upd_plat pushed acq held_lock].
Tactic Notation "ksimp" "in" hyp(H) := cbn [
  locked lcpu sl_locked sl_pid ctx_ra ctx_sp ctx_s c_proc noff intena sstatus sepc
  scause stval stvec satp sip tp p_state p_chan p_killed p_xstate p_pid p_parent
  p_kstack p_sz p_pagetable p_trapframe p_context p_ofile p_cwd p_name f_type f_ref
  f_readable f_writable f_pipe f_ip f_off f_major i_dev i_inum i_ref i_valid i_type
  i_major i_minor i_nlink i_size i_addrs b_valid b_disk b_dev b_blockno b_refcnt b_prev
  b_next b_data sb_magic sb_size sb_nblocks sb_ninodes sb_nlog sb_logstart sb_inodestart
  sb_bmapstart log_start log_size log_outstanding log_committing log_dev lh_n lh_block
  cons_buf cons_r cons_w cons_e kb_shift kb_ctrl kb_caps tx_buf tx_w tx_r vd_desc
  vd_avail vd_used vd_free vd_used_idx vd_status vd_done vd_ops vd_b mem freelist kcpu
  csr locks slocks procs nextpid initproc ftable itable sblk bufs log disk dtrace kcons
  ticks uart kernel_pagetable mmio plat devsw pr_locking panicked fs_first nmmio nsched
  set_c_proc set_noff set_intena set_sstatus set_sepc set_scause set_stval set_stvec
  set_satp set_sip set_tp set_p_state set_p_chan set_p_killed set_p_xstate set_p_pid
  set_p_parent set_p_kstack set_p_sz set_p_pagetable set_p_trapframe set_p_context
  set_p_ofile set_p_cwd set_p_name set_f_type set_f_ref set_f_readable set_f_writable
  set_f_pipe set_f_ip set_f_off set_f_major set_i_dev set_i_inum set_i_ref set_i_valid
  set_i_type set_i_major set_i_minor set_i_nlink set_i_size set_i_addrs set_b_valid
  set_b_disk set_b_dev set_b_blockno set_b_refcnt set_b_prev set_b_next set_b_data
  set_log_start set_log_size set_log_outstanding set_log_committing set_log_dev set_lh_n
  set_lh_block set_cons_buf set_cons_r set_cons_w set_cons_e set_kb_shift set_kb_ctrl
  set_kb_caps set_tx_buf set_tx_w set_tx_r set_vd_desc set_vd_avail set_vd_used
  set_vd_free set_vd_used_idx set_vd_status set_vd_done set_vd_ops set_vd_b set_mem
  set_freelist set_kcpu set_csr set_locks set_slocks set_procs set_nextpid set_initproc
  set_ftable set_itable set_sblk set_bufs set_log set_disk set_dtrace set_kcons
  set_ticks set_uart set_kernel_pagetable set_mmio set_plat set_devsw set_pr_locking
  set_panicked set_fs_first set_nmmio set_nsched upd_lock upd_slock upd_noff upd_proc
  upd_file upd_inode upd_buf upd_log upd_plat pushed acq held_lock] in H.
