(* ===== verification/Platform.v ===== *)
(** * The platform boundary (platform/common/platform.h)

    The kernel reaches the board through the functions of platform.h.  Each
    group of them is a class; platform/nemu/platform.c and
    platform/qemu/platform.c are the instances ([Nemu], [Qemu]).  The laws are
    what the kernel code relies on. *)
From S2P Require Import Prelude Memory Machine.
From stdpp Require Import gmap strings countable prelude.

Open Scope Z_scope.

(** ** Device registers *)

Section Mmio.
Context {W : World}.

(** A load from a device register. *)
Definition mmio_load (a : Z) : K Z := fun s =>
  Ok (hw_read (nmmio s) a s) (set_nmmio (S (nmmio s)) s).

(** A store to a device register. *)
Definition mmio_store (a v : Z) : K unit :=
  modify (fun s => hw_write a v (set_mmio (<[a := v]> (mmio s)) s)).
End Mmio.

(** ** The functions *)

Definition PLATFORM_INTR_NONE : Z := 0.
Definition PLATFORM_INTR_DEV : Z := 1.
Definition PLATFORM_INTR_TIMER : Z := 2.

(** The serial line. *)
Class Serial : Type := {
  platform_uart_init : K unit;
  platform_uart_putc : Z -> K unit;
  platform_uart_putc_sync : Z -> K unit;
}.

(** The disk; the second argument is the buffer whose [data] is passed. *)
Class DiskDriver : Type := {
  platform_disk_init : K unit;
  platform_disk_read : Z -> nat -> K unit;
  platform_disk_write : Z -> nat -> K unit;
}.

(** The device registers mapped into the kernel page table. *)
Class BoardMap : Type := platform_kvmmap : Z -> K unit.

(** Interrupts. *)
Class IrqChip : Type := {
  platform_irq_init : K unit;
  platform_irq_init_hart : K unit;
  platform_handle_irq : K Z;
}.

(** ** What the kernel relies on *)

(** States that differ only in what belongs to the devices. *)
Definition device_change (s s' : kstate) : Prop :=
  exists mm u k, s' = set_mmio mm (set_uart u (set_nmmio k s)).

(** Block [b] of the disk, BSIZE bytes. *)
Definition disk_block (d : gmap Z (list Z)) (b : Z) : list Z :=
  default (replicate (Z.to_nat BSIZE) 0) (d !! b).

(** Writing to the serial line returns and changes nothing else. *)
Class SerialOk (P : Serial) : Prop := {
  putc_sync_ok : forall c s, exists s', platform_uart_putc_sync c s = Ok tt s' /\ device_change s s';
}.

(** A polled disk: a read fills the buffer with the block, a write stores the
    buffer as the block. *)
Class DiskOk (D : DiskDriver) : Prop := {
  disk_read_ok : forall b i s, is_u32 b -> (i < NBUF)%nat -> exists s',
    platform_disk_read b i s = Ok tt s' /\
    device_change (upd_buf i (set_b_data (disk_block (disk s) b)) s) s';
  disk_write_ok : forall b i s bf, is_u32 b -> bufs s !! i = Some bf -> (i < NBUF)%nat -> exists s',
    platform_disk_write b i s = Ok tt s' /\
    device_change (set_disk (<[b := b_data bf]> (disk s))
      (set_dtrace (dtrace s ++ [(b, b_data bf)]) s)) s';
}.

Lemma device_change_refl s : device_change s s.
Proof. by exists (mmio s), (uart s), (nmmio s). Qed.

Lemma device_change_trans s1 s2 s3 :
  device_change s1 s2 -> device_change s2 s3 -> device_change s1 s3.
Proof. intros (m1 & u1 & k1 & ->) (m2 & u2 & k2 & ->). by exists m2, u2, k2. Qed.
