(* ===== verification/Sv32.v ===== *)
(** * Address arithmetic of Sv32

    Facts about the page and page-table-entry macros of [kernel/riscv.h] in
    terms of division and remainder, used by the page allocator and the
    virtual memory code. *)
From S2P Require Import Prelude Machine.
From stdpp Require Import gmap strings countable prelude.

Open Scope Z_scope.

Lemma land_shiftr x k n : 0 <= k -> 0 <= n ->
  Z.land (Z.shiftr x k) (Z.ones n) = (x / 2 ^ k) mod 2 ^ n.
Proof. intros. rewrite Z.land_ones by lia. by rewrite Z.shiftr_div_pow2. Qed.

Lemma testbit_high x n k : 0 <= x < 2 ^ n -> 0 <= n <= k -> Z.testbit x k = false.
Proof.
  intros Hx Hk. rewrite <- (Z.mod_small x (2 ^ n)) by done.
  apply Z.mod_pow2_bits_high. lia.
Qed.

Lemma land_PGMASK x : is_u32 x -> Z.land x PGMASK = x / PGSIZE * PGSIZE.
Proof.
  intros Hx. change PGMASK with (Z.shiftl (Z.ones 20) 12). change PGSIZE with (2 ^ 12).
  rewrite <- Z.shiftr_div_pow2, <- Z.shiftl_mul_pow2 by lia.
  apply Z.bits_inj'. intros n Hn. rewrite Z.land_spec, !Z.shiftl_spec by lia.
  destruct (decide (n < 12)).
  - rewrite (Z.testbit_neg_r (Z.ones 20)), (Z.testbit_neg_r (Z.shiftr x 12)) by lia.
    by rewrite andb_false_r.
  - rewrite Z.shiftr_spec by lia. replace (n - 12 + 12) with n by lia.
    destruct (decide (n < 32)).
    + rewrite Z.ones_spec_low by lia. apply andb_true_r.
    + rewrite (testbit_high x 32) by (unfold is_u32 in Hx; lia). done.
Qed.

Lemma PGROUNDDOWN_eq a : is_u32 a -> PGROUNDDOWN a = a / PGSIZE * PGSIZE.
Proof. intros H. unfold PGROUNDDOWN. rewrite u32_small by done. by apply land_PGMASK. Qed.

Lemma PGROUNDDOWN_page a : is_u32 a -> a mod PGSIZE = 0 -> PGROUNDDOWN a = a.
Proof. intros Ha Hm. rewrite PGROUNDDOWN_eq by done. unfold PGSIZE in *. Z.div_mod_to_equations. lia. Qed.

Lemma PGROUNDDOWN_bounds a : is_u32 a ->
  PGROUNDDOWN a <= a < PGROUNDDOWN a + PGSIZE /\ PGROUNDDOWN a mod PGSIZE = 0 /\
  is_u32 (PGROUNDDOWN a).
Proof.
  intros Ha. rewrite PGROUNDDOWN_eq by done. unfold PGSIZE, is_u32 in *.
  split_and!; Z.div_mod_to_equations; lia.
Qed.

(** No wrap-around below the last page. *)
Lemma PGROUNDUP_eq sz :
  0 <= sz <= 4294963200 -> PGROUNDUP sz = (sz + PGSIZE - 1) / PGSIZE * PGSIZE.
Proof.
  intros H. unfold PGROUNDUP, PGSIZE in *. rewrite u32_small by (unfold is_u32; lia).
  apply land_PGMASK. unfold is_u32. lia.
Qed.

Lemma PGROUNDUP_bounds sz : 0 <= sz <= 4294963200 ->
  sz <= PGROUNDUP sz < sz + PGSIZE /\ PGROUNDUP sz mod PGSIZE = 0.
Proof.
  intros H. rewrite PGROUNDUP_eq by done. unfold PGSIZE in *.
  split_and!; Z.div_mod_to_equations; lia.
Qed.

Lemma PGROUNDUP_page sz :
  0 <= sz <= 4294963200 -> sz mod PGSIZE = 0 -> PGROUNDUP sz = sz.
Proof.
  intros H Hm. rewrite PGROUNDUP_eq by done. unfold PGSIZE in *. Z.div_mod_to_equations. lia.
Qed.

Lemma PGROUNDUP_mono a b :
  0 <= a <= b -> b <= 4294963200 -> PGROUNDUP a <= PGROUNDUP b.
Proof.
  intros. rewrite !PGROUNDUP_eq by lia. unfold PGSIZE. Z.div_mod_to_equations. lia.
Qed.

Lemma PX1_eq va : is_u32 va -> PX 1 va = va / 4194304.
Proof.
  intros H. unfold PX. rewrite u32_small by done. change PXMASK with (Z.ones 10).
  change (PXSHIFT 1) with 22. rewrite land_shiftr by lia.
  change (2 ^ 22) with 4194304. change (2 ^ 10) with 1024. unfold is_u32 in H.
  Z.div_mod_to_equations. lia.
Qed.

Lemma PX0_eq va : is_u32 va -> PX 0 va = (va / 4096) mod 1024.
Proof.
  intros H. unfold PX. rewrite u32_small by done. change PXMASK with (Z.ones 10).
  change (PXSHIFT 0) with 12. by rewrite land_shiftr by lia.
Qed.

Lemma PX_range level va : 0 <= PX level va < 1024.
Proof.
  unfold PX. change PXMASK with (Z.ones 10). rewrite Z.land_ones by lia.
  by apply Z.mod_pos_bound.
Qed.

(** The two indices and the page offset determine the address. *)
Lemma PX_split va : is_u32 va -> va = PX 1 va * 4194304 + PX 0 va * 4096 + va mod 4096.
Proof.
  intros H. rewrite PX1_eq, PX0_eq by done. unfold is_u32 in H.
  Z.div_mod_to_equations. lia.
Qed.

Lemma PX_inj va va' :
  is_u32 va -> is_u32 va' -> PX 1 va = PX 1 va' -> PX 0 va = PX 0 va' ->
  va / PGSIZE = va' / PGSIZE.
Proof.
  intros H H' H1 H0. rewrite (PX_split va H), (PX_split va' H'), H1, H0.
  unfold PGSIZE. Z.div_mod_to_equations. lia.
Qed.

Lemma PA2PTE_eq pa : is_u32 pa -> PA2PTE pa = pa / 4096 * 1024.
Proof.
  intros H. unfold PA2PTE. rewrite (u32_small pa) by done.
  rewrite Z.shiftl_mul_pow2, Z.shiftr_div_pow2 by lia.
  change (2 ^ 12) with 4096. change (2 ^ 10) with 1024. apply u32_small.
  unfold is_u32 in *. Z.div_mod_to_equations. lia.
Qed.

Lemma lor_low a b n : 0 <= n -> a mod 2 ^ n = 0 -> 0 <= b < 2 ^ n -> Z.lor a b = a + b.
Proof.
  intros Hn Ha Hb. symmetry. rewrite Z.add_nocarry_lxor.
  - symmetry. apply Z.bits_inj'. intros k Hk. rewrite Z.lor_spec, Z.lxor_spec.
    destruct (decide (k < n)).
    + assert (Z.testbit a k = false) as ->.
      { rewrite <- (Z.mod_pow2_bits_low a n) by lia. by rewrite Ha, Z.bits_0. }
      by destruct (Z.testbit b k).
    + rewrite (testbit_high b n) by lia. by destruct (Z.testbit a k).
  - apply Z.bits_inj'. intros k Hk. rewrite Z.land_spec, Z.bits_0.
    destruct (decide (k < n)).
    + assert (Z.testbit a k = false) as ->; [|done].
      rewrite <- (Z.mod_pow2_bits_low a n) by lia. by rewrite Ha, Z.bits_0.
    + rewrite (testbit_high b n) by lia. apply andb_false_r.
Qed.

(** The entry for page [pa] with permission bits [f]. *)
Lemma PTE2PA_PA2PTE pa f :
  is_u32 pa -> 0 <= f < 1024 -> PTE2PA (Z.lor (PA2PTE pa) f) = pa / PGSIZE * PGSIZE.
Proof.
  intros Hp Hf. unfold PTE2PA. rewrite PA2PTE_eq by done.
  rewrite (lor_low _ _ 10); [|lia|apply Z.mod_mul; lia|change (2 ^ 10) with 1024; lia].
  rewrite Z.shiftl_mul_pow2, Z.shiftr_div_pow2 by lia.
  change (2 ^ 10) with 1024. change (2 ^ 12) with 4096. unfold PGSIZE.
  rewrite Z.div_add_l, (Z.div_small f) by lia. rewrite Z.add_0_r. apply u32_small.
  unfold is_u32 in *. Z.div_mod_to_equations. lia.
Qed.

Lemma PTE_FLAGS_PA2PTE pa f :
  is_u32 pa -> 0 <= f < 1024 -> PTE_FLAGS (Z.lor (PA2PTE pa) f) = f.
Proof.
  intros Hp Hf. unfold PTE_FLAGS. rewrite PA2PTE_eq by done.
  rewrite (lor_low _ _ 10); [|lia|apply Z.mod_mul; lia|change (2 ^ 10) with 1024; lia].
  change 1023 with (Z.ones 10). rewrite Z.land_ones by lia. change (2 ^ 10) with 1024.
  rewrite Z.add_comm, Z.mod_add by lia. by apply Z.mod_small.
Qed.

(** Flag tests look at the low ten bits only. *)
Lemma land_flags pte k : 0 <= k < 1024 -> Z.land pte k = Z.land (PTE_FLAGS pte) k.
Proof.
  intros Hk. unfold PTE_FLAGS. rewrite <- Z.land_assoc. f_equal. symmetry.
  rewrite Z.land_comm. change 1023 with (Z.ones 10).
  rewrite Z.land_ones by lia. by apply Z.mod_small.
Qed.

Lemma PTE_FLAGS_range pte : 0 <= PTE_FLAGS pte < 1024.
Proof.
  unfold PTE_FLAGS. change 1023 with (Z.ones 10). rewrite Z.land_ones by lia.
  by apply Z.mod_pos_bound.
Qed.
