(* ===== verification/Spinlock.v ===== *)
(** * Spinlocks and interrupt masking

    [kernel/spinlock.c] and the interrupt flag accessors of
    [kernel/riscv.h].  There is one hart ([NCPU] is 1), so a lock found taken
    by code that runs with interrupts off is never released: the spin loop
    of [acquire] is the outcome [Hang]. *)
From S2P Require Import Prelude Machine.
From stdpp Require Import gmap strings countable prelude.

Open Scope Z_scope.

(** ** Interrupt flag (kernel/riscv.h) *)

(** The SIE bit of a status word. *)
Definition sie_of (x : Z) : bool := negb (Z.land x SSTATUS_SIE =? 0).

Definition intr_on : K unit := modify (fun s =>
  set_csr (set_sstatus (Z.lor (sstatus (csr s)) SSTATUS_SIE) (csr s)) s).
Definition intr_off : K unit := modify (fun s =>
  set_csr (set_sstatus (Z.ldiff (sstatus (csr s)) SSTATUS_SIE) (csr s)) s).
Definition intr_get : K bool := gets (fun s => sie_of (sstatus (csr s))).

(** [cpuid()] reads the hart number from tp. *)
Definition cpuid : K Z := gets (fun s => tp (csr s)).

(** ** kernel/spinlock.c *)

Definition unlocked : spinlock := {| locked := 0; lcpu := None |}.
Definition lock_of (s : kstate) (lk : lockid) : spinlock := default unlocked (locks s !! lk).

Definition initlock (lk : lockid) : K unit := modify (upd_lock lk unlocked).

Definition push_off : K unit :=
  old ← intr_get;
  intr_off ;;
  n ← gets (fun s => noff (kcpu s));
  (if n =? 0 then modify (fun s => set_kcpu (set_intena old (kcpu s)) s) else mret tt) ;;
  modify (fun s => upd_noff (noff (kcpu s) + 1) s).

Definition pop_off : K unit :=
  i ← intr_get;
  if (i : bool) then panic "pop_off - interruptible" else
  n ← gets (fun s => noff (kcpu s));
  if n <? 1 then panic "pop_off" else
  modify (fun s => upd_noff (noff (kcpu s) - 1) s) ;;
  c ← gets (fun s => kcpu s);
  if (noff c =? 0) && intena c then intr_on else mret tt.

Definition holding (lk : lockid) : K bool := gets (fun s =>
  negb (locked (lock_of s lk) =? 0) && bool_decide (lcpu (lock_of s lk) = Some (tp (csr s)))).

(** [__sync_lock_test_and_set(&lk->locked, 1)] *)
Definition test_and_set (lk : lockid) : K Z :=
  old ← gets (fun s => lock_of s lk);
  modify (upd_lock lk {| locked := 1; lcpu := lcpu old |}) ;;
  mret (locked old).

Definition acquire (lk : lockid) : K unit :=
  push_off ;;
  h ← holding lk;
  if (h : bool) then panic "acquire" else
  old ← test_and_set lk;
  if negb (old =? 0) then hang else
  modify (fun s => upd_lock lk
    {| locked := locked (lock_of s lk); lcpu := Some (tp (csr s)) |} s).

Definition release (lk : lockid) : K unit :=
  h ← holding lk;
  if negb h then panic "release" else
  modify (fun s => upd_lock lk {| locked := locked (lock_of s lk); lcpu := None |} s) ;;
  modify (fun s => upd_lock lk {| locked := 0; lcpu := lcpu (lock_of s lk) |} s) ;;
  pop_off.

(** ** States in which locks may be taken

    [settled]: the saved interrupt state agrees with the flag when no lock is
    held, and interrupts are off when one is.  Kernel code is in such a state
    from its first [push_off] on. *)
Definition sie (s : kstate) : bool := sie_of (sstatus (csr s)).
Record settled (s : kstate) : Prop := {
  settled_noff : 0 <= noff (kcpu s);
  settled_out : noff (kcpu s) = 0 -> intena (kcpu s) = sie s;
  settled_in : noff (kcpu s) <> 0 -> sie s = false;
}.
Definition lock_free (lk : lockid) (s : kstate) : Prop := locks s !! lk = Some unlocked.

(** ** Lemmas *)

Lemma sie_of_off x : sie_of (Z.ldiff x SSTATUS_SIE) = false.
Proof.
  unfold sie_of. replace (Z.land _ _) with 0; [done|]. symmetry.
  apply Z.bits_inj'. intros n Hn. rewrite Z.land_spec, Z.ldiff_spec, Z.bits_0.
  destruct (Z.testbit x n), (Z.testbit SSTATUS_SIE n); done.
Qed.

Lemma sie_of_testbit x : sie_of x = Z.testbit x 1.
Proof.
  unfold sie_of, SSTATUS_SIE. destruct (Z.testbit x 1) eqn:E.
  - destruct (Z.eqb_spec (Z.land x 2) 0) as [H|]; [|done].
    assert (Z.testbit (Z.land x 2) 1 = true) as Hb by (rewrite Z.land_spec, E; done).
    by rewrite H in Hb.
  - replace (Z.land x 2) with 0; [done|]. symmetry. apply Z.bits_inj'.
    intros n Hn. rewrite Z.land_spec, Z.bits_0.
    destruct (decide (n = 1)) as [->|Hne]; [by rewrite E|].
    change 2 with (2 ^ 1). rewrite Z.pow2_bits_false by done. by destruct (Z.testbit x n).
Qed.

Lemma ldiff_noop x : sie_of x = false -> Z.ldiff x SSTATUS_SIE = x.
Proof.
  rewrite sie_of_testbit. intros H. apply Z.bits_inj'. intros n Hn.
  rewrite Z.ldiff_spec. unfold SSTATUS_SIE. change 2 with (2 ^ 1).
  destruct (decide (n = 1)) as [->|Hne]; [by rewrite H|].
  rewrite Z.pow2_bits_false by done. by rewrite andb_true_r.
Qed.

Lemma lor_ldiff x : sie_of x = true -> Z.lor (Z.ldiff x SSTATUS_SIE) SSTATUS_SIE = x.
Proof.
  rewrite sie_of_testbit. intros H. apply Z.bits_inj'. intros n Hn.
  rewrite Z.lor_spec, Z.ldiff_spec. unfold SSTATUS_SIE. change 2 with (2 ^ 1).
  destruct (decide (n = 1)) as [->|Hne]; [by rewrite H|].
  rewrite Z.pow2_bits_false by done. by rewrite andb_true_r, orb_false_r.
Qed.

Lemma lock_of_upd lk l s : lock_of (upd_lock lk l s) lk = l.
Proof. unfold lock_of. ksimp. by rewrite lookup_insert_eq. Qed.

Lemma lock_of_pushed lk s : lock_of (pushed s) lk = lock_of s lk.
Proof. reflexivity. Qed.

Lemma lock_of_acq lk s : lock_of (acq lk s) lk = held_lock s.
Proof. apply lock_of_upd. Qed.

Lemma push_off_ok s : settled s -> push_off s = Ok tt (pushed s).
Proof.
  intros [Hn Ho Hi]. unfold push_off, intr_get, intr_off. msimp. ksimp.
  destruct (Z.eqb_spec (noff (kcpu s)) 0) as [Hz|Hz]; msimp.
  - unfold modify, pushed, upd_noff. cbn. f_equal.
    specialize (Ho Hz). unfold sie in Ho. rewrite <- Ho. reflexivity.
  - reflexivity.
Qed.

Lemma settled_pushed s : settled s -> settled (pushed s).
Proof.
  intros [Hn Ho Hi]. split; cbn; [lia|lia|].
  intros _. apply sie_of_off.
Qed.

Lemma pop_off_pushed s : settled s -> pop_off (pushed s) = Ok tt s.
Proof.
  intros [Hn Ho Hi]. unfold pop_off, intr_get. msimp.
  ksimp. rewrite sie_of_off. msimp. ksimp. destruct (Z.ltb_spec (noff (kcpu s) + 1) 1); [lia|]. msimp. ksimp.
  replace (noff (kcpu s) + 1 - 1) with (noff (kcpu s)) by lia.
  destruct (Z.eqb_spec (noff (kcpu s)) 0) as [Hz|Hz]; cbn [andb].
  - rewrite (Ho Hz). unfold sie in *. destruct (sie_of (sstatus (csr s))) eqn:E.
    + unfold intr_on, modify. ksimp. rewrite lor_ldiff by done. reflexivity.
    + unfold pushed. rewrite ldiff_noop by done. reflexivity.
  - unfold pushed. rewrite ldiff_noop by auto. reflexivity.
Qed.

Lemma settled_upd_lock lk l s : settled s -> settled (upd_lock lk l s).
Proof. intros [??]; split; done. Qed.

Lemma settled_acq lk s : settled s -> settled (acq lk s).
Proof. intros H. by apply settled_pushed, settled_upd_lock. Qed.

Lemma acquire_ok lk s : settled s -> lock_free lk s -> acquire lk s = Ok tt (acq lk s).
Proof.
  intros Hs Hf. unfold acquire. mstep push_off_ok. unfold holding. msimp.
  assert (lock_of (pushed s) lk = unlocked) as Hl.
  { unfold lock_of. cbn. unfold lock_free in Hf. by rewrite Hf. }
  rewrite Hl. cbn [unlocked locked lcpu negb andb Z.eqb]. unfold test_and_set. msimp.
  rewrite Hl. cbn [unlocked locked lcpu negb andb Z.eqb].
  unfold modify. f_equal. unfold acq, upd_lock, lock_of, pushed, upd_noff. cbn.
  rewrite lookup_insert_eq. cbn. by rewrite insert_insert_eq.
Qed.

Lemma release_acq lk s : settled s -> lock_free lk s -> release lk (acq lk s) = Ok tt s.
Proof.
  intros Hs Hf. unfold release, holding. msimp.
  rewrite lock_of_acq. cbn [held_lock locked lcpu Z.eqb negb andb].
  rewrite bool_decide_eq_true_2 by done. cbn [negb]. msimp.
  rewrite <- (pop_off_pushed s) by done. f_equal.
  unfold upd_lock at 1 2. unfold lock_of, acq, upd_lock, pushed, upd_noff. cbn.
  rewrite !lookup_insert_eq. cbn. rewrite !insert_insert_eq.
  unfold lock_free in Hf. change {| locked := 0; lcpu := None |} with unlocked.
  rewrite insert_id by done. reflexivity.
Qed.

Lemma lock_free_acq_ne lk lk' s :
  lk <> lk' -> lock_free lk' s -> lock_free lk' (acq lk s).
Proof. unfold lock_free. cbn. intros. by rewrite lookup_insert_ne. Qed.

#[export] Hint Resolve settled_pushed settled_upd_lock settled_acq lock_free_acq_ne : kernel.

(** A critical section that only updates fields other than the locks and the
    CPU runs as its body alone. *)
Lemma critical lk f s :
  settled s -> lock_free lk s ->
  f (acq lk s) = acq lk (f s) -> settled (f s) -> lock_free lk (f s) ->
  (acquire lk ;; modify f ;; release lk) s = Ok tt (f s).
Proof.
  intros Hs Hf Hc Hs' Hf'. mstep acquire_ok. rewrite Hc. by apply release_acq.
Qed.

Lemma push_off_iter n i s :
  settled s -> for_range n i (fun _ => push_off) s = Ok tt (Nat.iter n pushed s).
Proof.
  revert i s. induction n as [|n IH]; intros i s Hs; cbn [for_range]; [done|].
  mstep push_off_ok. rewrite IH by auto with kernel. by rewrite Nat.iter_succ_r.
Qed.

Lemma settled_pushed_iter n s : settled s -> settled (Nat.iter n pushed s).
Proof. intros Hs. induction n; cbn; auto with kernel. Qed.

#[local] Hint Resolve settled_pushed_iter : kernel.

Lemma noff_pushed_iter n s :
  noff (kcpu (Nat.iter n pushed s)) = noff (kcpu s) + Z.of_nat n.
Proof.
  induction n as [|n IH]; [cbn; lia|].
  change (noff (kcpu (Nat.iter n pushed s)) + 1 = noff (kcpu s) + Z.of_nat (S n)). lia.
Qed.

Lemma pop_off_iter n i s :
  settled s -> for_range n i (fun _ => pop_off) (Nat.iter n pushed s) = Ok tt s.
Proof.
  revert i. induction n as [|n IH]; intros i Hs; cbn [for_range]; [done|].
  cbn [Nat.iter]. mstep (pop_off_pushed (Nat.iter n pushed s)). by apply IH.
Qed.

(** ** Correctness of kernel/spinlock.c *)

(** [push_off] and [pop_off] are matched: [n] of the one undo [n] of the
    other and restore the interrupt flag, which is off in between. *)
Theorem push_pop_matched n s :
  settled s ->
  (for_range n 0 (fun _ => push_off) ;; for_range n 0 (fun _ => pop_off)) s = Ok tt s /\
  (exists s', for_range (S n) 0 (fun _ => push_off) s = Ok tt s' /\
    sie s' = false /\ noff (kcpu s') = noff (kcpu s) + Z.of_nat (S n)).
Proof.
  intros Hs. split.
  - mstep push_off_iter. by apply pop_off_iter.
  - exists (Nat.iter (S n) pushed s). split_and!.
    + by apply push_off_iter.
    + apply sie_of_off.
    + apply noff_pushed_iter.
Qed.

Definition boot_csrs : csrs :=
  {| sstatus := SSTATUS_SIE; sepc := 0; scause := 0; stval := 0; stvec := 0;
     satp := 0; sip := 0; tp := 0 |}.
(** The static data as the kernel image has it, all zeroes but for a few
    initialisers, with interrupts on. *)
Definition blank_proc : proc :=
  {| p_state := UNUSED; p_chan := None; p_killed := 0; p_xstate := 0; p_pid := 0; p_parent := None;
     p_kstack := 0; p_sz := 0; p_pagetable := 0; p_trapframe := 0;
     p_context := {| ctx_ra := 0; ctx_sp := 0; ctx_s := replicate 12 0 |};
     p_ofile := replicate NOFILE None; p_cwd := None; p_name := replicate 16 0 |}.
Definition blank_file : file :=
  {| f_type := FD_NONE; f_ref := 0; f_readable := 0; f_writable := 0; f_pipe := 0; f_ip := None;
     f_off := 0; f_major := 0 |}.
Definition blank_inode : inode :=
  {| i_dev := 0; i_inum := 0; i_ref := 0; i_valid := 0; i_type := 0; i_major := 0; i_minor := 0;
     i_nlink := 0; i_size := 0; i_addrs := replicate 13 0 |}.
Definition blank_buf : buf :=
  {| b_valid := 0; b_disk := 0; b_dev := 0; b_blockno := 0; b_refcnt := 0; b_prev := 0; b_next := 0;
     b_data := replicate 512 0 |}.
Definition blank : kstate :=
  {| mem := ∅; freelist := 0;
     kcpu := {| c_proc := None; noff := 0; intena := true |};
     csr := boot_csrs; locks := ∅; slocks := ∅; procs := replicate NPROC blank_proc; nextpid := 1;
     initproc := None; ftable := replicate NFILE blank_file; itable := replicate NINODE blank_inode;
     sblk := {| sb_magic := 0; sb_size := 0; sb_nblocks := 0; sb_ninodes := 0;
                sb_nlog := 0; sb_logstart := 0; sb_inodestart := 0; sb_bmapstart := 0 |};
     bufs := replicate (S NBUF) blank_buf;
     log := {| log_start := 0; log_size := 0; log_outstanding := 0; log_committing := 0;
               log_dev := 0; lh_n := 0; lh_block := replicate 16 0 |};
     disk := ∅; dtrace := [];
     kcons := {| cons_buf := replicate 128 0; cons_r := 0; cons_w := 0; cons_e := 0 |};
     ticks := 0; uart := []; kernel_pagetable := 0; mmio := ∅;
     plat := {| kb_shift := 0; kb_ctrl := 0; kb_caps := 0; tx_buf := replicate 32 0; tx_w := 0;
                tx_r := 0; vd_desc := 0; vd_avail := 0; vd_used := 0; vd_free := replicate 8 0;
                vd_used_idx := 0; vd_status := replicate 8 0; vd_done := replicate 8 0;
                vd_ops := replicate 8 (0, 0); vd_b := replicate 8 None |};
     devsw := ∅; pr_locking := 0; panicked := 0; fs_first := 1; nmmio := 0; nsched := 0 |}.

Lemma settled_blank : settled blank.
Proof. split; cbn; done. Qed.

Lemma push_pop_matched_witness :
  settled blank /\
  (for_range 3 0 (fun _ => push_off) ;; for_range 3 0 (fun _ => pop_off)) blank = Ok tt blank.
Proof. split; [apply settled_blank|]. apply (push_pop_matched 3 blank), settled_blank. Defined.

(** The spinlock protocol.  Taking a free lock and releasing it restores
    the state; while it is held interrupts are off and [holding] says so;
    taking it again and releasing a free one panic; on the single hart a lock
    left taken by code that lost the CPU is waited for in vain. *)
Theorem spinlock_protocol lk s :
  settled s -> lock_free lk s ->
  (acquire lk ;; release lk) s = Ok tt s /\
  (exists s', acquire lk s = Ok tt s' /\ sie s' = false /\ holding lk s' = Ok true s' /\
    panics (acquire lk) s' = Some "acquire"%string) /\
  panics (release lk) s = Some "release"%string /\
  (exists s', acquire lk (upd_lock lk {| locked := 1; lcpu := None |} s) = Hang s').
Proof.
  intros Hs Hf. split_and!.
  - mstep acquire_ok. by apply release_acq.
  - exists (acq lk s). split_and!.
    + by apply acquire_ok.
    + apply sie_of_off.
    + unfold holding, gets. rewrite lock_of_acq. cbn.
      by rewrite bool_decide_eq_true_2.
    + unfold panics, acquire. erewrite bind_ok by (apply push_off_ok; auto with kernel).
      unfold holding. msimp. rewrite lock_of_pushed, lock_of_acq. cbn.
      by rewrite bool_decide_eq_true_2.
  - unfold panics, release, holding. msimp. unfold lock_of, lock_free in *. by rewrite Hf.
  - unfold acquire. erewrite bind_ok by (apply push_off_ok; auto with kernel).
    unfold holding, test_and_set. msimp. rewrite lock_of_pushed, lock_of_upd.
    cbn [locked lcpu Z.eqb negb andb]. rewrite bool_decide_eq_false_2 by done. msimp.
    rewrite lock_of_pushed, lock_of_upd. cbn [locked Z.eqb negb]. unfold hang. eauto.
Qed.

Lemma spinlock_protocol_witness :
  settled (upd_lock LKmem unlocked blank) /\ lock_free LKmem (upd_lock LKmem unlocked blank) /\
  (acquire LKmem ;; release LKmem) (upd_lock LKmem unlocked blank)
    = Ok tt (upd_lock LKmem unlocked blank).
Proof.
  split; [apply settled_upd_lock, settled_blank|]. split; [reflexivity|].
  apply (spinlock_protocol LKmem (upd_lock LKmem unlocked blank));
    [apply settled_upd_lock, settled_blank|reflexivity].
Defined.
