(* ===== verification/Printf.v ===== *)
(** * Formatted console output (kernel/printf.c) and the character output of
    kernel/console.c

    The conversions are functions to lists of characters; [printf] sends them
    to the serial line one by one, under the lock [pr.lock] once
    [printfinit] has turned locking on.  [panic] is the outcome
    [Panic], followed by [panic_stop]. *)
From S2P Require Import Prelude Memory Machine Platform Spinlock.
From stdpp Require Import gmap strings countable prelude.

Open Scope Z_scope.

(** ** Characters *)

(** The bytes of a string literal, without the NUL. *)
Fixpoint chars (s : string) : list Z :=
  match s with
  | EmptyString => []
  | String c s' => Z.of_N (Ascii.N_of_ascii c) :: chars s'
  end.

Definition newline : string := String (Ascii.ascii_of_nat 10) EmptyString.

Definition BACKSPACE : Z := 256.

(** ** Conversions *)

Definition digits : list Z := chars "0123456789abcdef".

(** The do-while loop: digits of [x], least significant first. *)
Fixpoint printint_digits (fuel : nat) (x base : Z) : list Z :=
  match fuel with
  | O => []
  | S fuel' =>
    let c := at_ digits (Z.to_nat (x mod base)) in
    let x := x / base in
    if negb (x =? 0) then c :: printint_digits fuel' x base else [c]
  end.

(** What [printint] sends to the console. *)
Definition printint (xx base : Z) (sign : bool) : list Z :=
  let sign := sign && (xx <? 0) in
  let x := if sign then u32 (- xx) else u32 xx in
  let buf := printint_digits 32 x base in
  let buf := if sign then buf ++ chars "-" else buf in
  reverse buf.

(** The loop of [printptr]: [n] digits of [x], most significant first. *)
Fixpoint printptr_digits (n : nat) (x : Z) : list Z :=
  match n with
  | O => []
  | S n' => at_ digits (Z.to_nat (Z.shiftr x 28)) :: printptr_digits n' (u32 (Z.shiftl x 4))
  end.
Definition printptr (x : Z) : list Z := chars "0x" ++ printptr_digits 8 x.

(** A variable argument: an integer, or a string, whose pointer may be null. *)
Inductive varg : Type := AInt (v : Z) | AStr (s : option (list Z)).

(** [va_arg(ap, int)] and [va_arg(ap, char * )]. *)
Definition va_int (a : varg) : Z := match a with AInt v => v | AStr _ => 0 end.
Definition va_str (a : varg) : option (list Z) := match a with AStr s => s | AInt _ => None end.

(** What [printf] sends for the rest of a format (the bytes before the NUL). *)
Fixpoint format (fmt : list Z) (ap : list varg) : list Z :=
  match fmt with
  | [] => []
  | c :: fmt' =>
    if negb (c =? 37) then c :: format fmt' ap
    else
      match fmt' with
      | [] => []
      | d :: fmt'' =>
        let a := default (AInt 0) (head ap) in
        if d =? 100 then printint (s32 (va_int a)) 10 true ++ format fmt'' (tail ap)
        else if d =? 120 then printint (s32 (va_int a)) 16 true ++ format fmt'' (tail ap)
        else if d =? 112 then printptr (u32 (va_int a)) ++ format fmt'' (tail ap)
        else if d =? 115 then
          cstr (default (chars "(null)") (va_str a)) ++ format fmt'' (tail ap)
        else if d =? 37 then 37 :: format fmt'' ap
        else 37 :: d :: format fmt'' ap
      end
  end.

(** ** Output *)

Section Printf.
Context {Ser : Serial}.

Definition consputc (c : Z) : K unit :=
  if c =? BACKSPACE then
    platform_uart_putc_sync 8 ;;
    platform_uart_putc_sync 32 ;;
    platform_uart_putc_sync 8
  else platform_uart_putc_sync c.

Fixpoint conswrite (l : list Z) : K unit :=
  match l with
  | [] => mret tt
  | c :: l' => consputc c ;; conswrite l'
  end.

Definition printf (fmt : string) (ap : list varg) : K unit :=
  locking ← gets (fun s => pr_locking s);
  (if negb (locking =? 0) then acquire LPr else mret tt) ;;
  conswrite (format (chars fmt) ap) ;;
  (if negb (locking =? 0) then release LPr else mret tt).

(** What the kernel does where the outcome is [Panic msg]: the C function
    [panic]. *)
Definition panic_stop (msg : string) : K unit :=
  modify (set_pr_locking 0) ;;
  printf "panic: " [] ;;
  printf msg [] ;;
  printf newline [] ;;
  modify (set_panicked 1) ;;
  hang.

Definition printfinit : K unit :=
  modify (set_panicked 0) ;;
  initlock LPr ;;
  modify (set_pr_locking 1).
End Printf.
