(* ===== verification/Kalloc.v ===== *)
(** * The physical page allocator

    [kernel/kalloc.c].  Free pages form a singly linked list threaded through
    their first word; the abstract state of the allocator is the list of free
    pages, and clients use it through [free_pages], the set of free pages. *)
From S2P Require Import Prelude Memory Machine Sv32 Spinlock.
From stdpp Require Import gmap strings countable prelude.

Open Scope Z_scope.

Section Kalloc.
Context {L : Layout}.

(** ** Operations *)

Definition upd_mem (f : gmap Z Z -> gmap Z Z) : K unit :=
  modify (fun s => set_mem (f (mem s)) s).

Definition kfree (pa : Z) : K unit :=
  if negb (pa mod PGSIZE =? 0) || (pa <? kend) || (PHYSTOP <=? pa)
  then panic "kfree"
  else
    (* fill with junk to catch dangling refs *)
    upd_mem (fun m => memset m pa 1 PGSIZE) ;;
    acquire LKmem ;;
    modify (fun s => set_mem (store32 (mem s) pa (freelist s)) s) ;;
    modify (fun s => set_freelist pa s) ;;
    release LKmem.

Definition kalloc : K Z :=
  acquire LKmem ;;
  r ← gets (fun s => freelist s);
  (if negb (r =? 0) then modify (fun s => set_freelist (load32 (mem s) r) s) else mret tt) ;;
  release LKmem ;;
  (if negb (r =? 0) then upd_mem (fun m => memset m r 5 PGSIZE) else mret tt) ;;
  mret r.

(** The loop of [freerange]; it makes [fuel] turns at most. *)
Fixpoint freerange_loop (fuel : nat) (p pa_end : Z) : K unit :=
  if p + PGSIZE <=? pa_end then
    match fuel with
    | O => hang
    | S fuel' => kfree p ;; freerange_loop fuel' (p + PGSIZE) pa_end
    end
  else mret tt.
Definition freerange (pa_start pa_end : Z) : K unit :=
  let p := PGROUNDUP pa_start in
  freerange_loop (Z.to_nat ((pa_end - p) / PGSIZE)) p pa_end.

Definition kinit : K unit :=
  initlock LKmem ;;
  freerange kend PHYSTOP.

(** ** Invariant *)

(** A page the allocator may hand out. *)
Definition page (p : Z) : Prop := p mod PGSIZE = 0 /\ kend <= p < PHYSTOP.

(** The list of pages threaded from [head]. *)
Fixpoint chain (m : gmap Z Z) (head : Z) (l : list Z) : Prop :=
  match l with
  | [] => head = 0
  | p :: l' => head = p /\ p <> 0 /\ chain m (load32 m p) l'
  end.

Record kalloc_inv (l : list Z) (s : kstate) : Prop := {
  ki_chain : chain (mem s) (freelist s) l;
  ki_nodup : NoDup l;
  ki_pages : Forall page l;
}.

(** The state in which the allocator may be called, with free set [F]. *)
Record free_pages (F : gset Z) (s : kstate) : Prop := {
  fp_settled : settled s;
  fp_lock : lock_free LKmem s;
  fp_list : exists l, kalloc_inv l s /\ F = list_to_set l;
}.

(** Memory agrees outside the page at [p]. *)
Definition same_outside (p : Z) (m m' : gmap Z Z) : Prop :=
  forall b, b < p \/ p + PGSIZE <= b -> load8 m' b = load8 m b.

(** ** Lemmas *)

Lemma pages_apart p q :
  p mod PGSIZE = 0 -> q mod PGSIZE = 0 -> p <> q -> p + PGSIZE <= q \/ q + PGSIZE <= p.
Proof. unfold PGSIZE. intros. Z.div_mod_to_equations. lia. Qed.

Lemma chain_ext m m' head l :
  (forall p, p ∈ l -> load32 m' p = load32 m p) -> chain m head l -> chain m' head l.
Proof.
  revert head. induction l as [|p l IH]; intros head H; cbn; [done|].
  intros (-> & Hp & Hc). split_and!; [done|done|].
  rewrite H by set_solver. apply IH; [|done]. intros q Hq. apply H. set_solver.
Qed.

Lemma same_outside_load32 p m m' q :
  same_outside p m m' -> q + 4 <= p \/ p + PGSIZE <= q -> load32 m' q = load32 m q.
Proof. intros H Hq. apply load32_ext. intros b Hb. apply H. lia. Qed.

Lemma same_outside_refl p m : same_outside p m m.
Proof. by intros b Hb. Qed.

Lemma same_outside_memset p m c : same_outside p m (memset m p c PGSIZE).
Proof. intros b Hb. rewrite load8_memset by done. case_decide; [lia|done]. Qed.

Lemma same_outside_store32 p m m' a v :
  p <= a -> a + 4 <= p + PGSIZE -> same_outside p m m' -> same_outside p m (store32 m' a v).
Proof. intros Ha Ha' H b Hb. rewrite load8_store32_ne by lia. by apply H. Qed.

Lemma chain_outside p m m' head l :
  p mod PGSIZE = 0 -> Forall page l -> p ∉ l -> same_outside p m m' ->
  chain m head l -> chain m' head l.
Proof.
  intros Hp Hl Hn Ho. apply chain_ext. intros q Hq.
  rewrite Forall_forall in Hl. destruct (Hl q Hq) as [Hqa _].
  eapply same_outside_load32; [done|].
  destruct (pages_apart p q) as [H|H]; [done|done|set_solver|lia|unfold PGSIZE in *; lia].
Qed.

Context {LO : LayoutOk L}.

Lemma page_pos p : page p -> 0 < p.
Proof. intros [_ H]. pose proof kend_range. unfold KERNBASE in *. lia. Qed.

Lemma page_u32 p : page p -> is_u32 p.
Proof.
  intros Hp. pose proof (page_pos p Hp). destruct Hp as [_ Hr].
  unfold PHYSTOP, KERNBASE, is_u32 in *. lia.
Qed.

(** The state [kfree] leaves. *)
Definition freed (pa : Z) (s : kstate) : kstate :=
  set_mem (store32 (memset (mem s) pa 1 PGSIZE) pa (freelist s)) (set_freelist pa s).

Lemma kfree_guard pa :
  page pa <-> negb (pa mod PGSIZE =? 0) || (pa <? kend) || (PHYSTOP <=? pa) = false.
Proof. unfold page. lia. Qed.

Lemma kfree_ok pa s :
  settled s -> lock_free LKmem s -> page pa -> kfree pa s = Ok tt (freed pa s).
Proof.
  intros Hs Hf Hp. unfold kfree. rewrite (proj1 (kfree_guard pa) Hp).
  unfold upd_mem. msimp.
  erewrite bind_ok by (apply acquire_ok; [by destruct Hs; split|done]). msimp.
  change (release LKmem (acq LKmem (freed pa s)) = Ok tt (freed pa s)).
  apply release_acq; [by destruct Hs; split|done].
Qed.

Lemma kalloc_ok s :
  settled s -> lock_free LKmem s ->
  kalloc s = Ok (freelist s) (if freelist s =? 0 then s else
    set_mem (memset (mem s) (freelist s) 5 PGSIZE)
      (set_freelist (load32 (mem s) (freelist s)) s)).
Proof.
  intros Hs Hf. unfold kalloc. mstep acquire_ok.
  change (freelist (acq LKmem s)) with (freelist s).
  destruct (Z.eqb_spec (freelist s) 0) as [Hz|Hz]; cbn [negb]; msimp.
  - mstep release_acq. reflexivity.
  - set (s1 := set_freelist (load32 (mem s) (freelist s)) s).
    erewrite bind_ok by (apply (release_acq LKmem s1); [by destruct Hs; split|done]).
    reflexivity.
Qed.

Lemma kalloc_inv_freed pa l s :
  kalloc_inv l s -> page pa -> pa ∉ l -> kalloc_inv (pa :: l) (freed pa s).
Proof.
  intros [Hc Hn Hp] Hpa Hni. split.
  - cbn. split_and!; [done|pose proof (page_pos _ Hpa); lia|].
    rewrite load32_store32_eq.
    assert (is_u32 (freelist s)) as Hu.
    { destruct l as [|q l]; cbn in Hc.
      - rewrite Hc. done.
      - destruct Hc as (-> & _). apply page_u32. by inversion Hp. }
    rewrite u32_small by done.
    eapply (chain_outside pa (mem s)); [by destruct Hpa|done|done| |done].
    apply same_outside_store32; [lia|unfold PGSIZE; lia|apply same_outside_memset].
  - constructor; done.
  - by constructor.
Qed.

Lemma kalloc_inv_alloc p l s :
  kalloc_inv (p :: l) s ->
  freelist s = p /\ p <> 0 /\ (p ∉ l) /\ page p /\
  kalloc_inv l (set_mem (memset (mem s) p 5 PGSIZE)
    (set_freelist (load32 (mem s) p) s)).
Proof.
  intros [(Hh & Hnz & Hc) Hn Hp]. apply NoDup_cons in Hn as [Hni Hn].
  apply Forall_cons in Hp as [Hpp Hp]. split_and!; try done.
  split; cbn; [|done|done].
  eapply (chain_outside p (mem s)); [by destruct Hpp|done|done| |done].
  apply same_outside_memset.
Qed.

(** ** What the allocator promises its clients *)

Lemma kalloc_spec F s :
  free_pages F s ->
  exists p s', kalloc s = Ok p s' /\
    ((F = ∅ /\ p = 0 /\ s' = s) \/
     (p ∈ F /\ page p /\ free_pages (F ∖ {[p]}) s' /\
      (exists m' fl, s' = set_mem m' (set_freelist fl s) /\ same_outside p (mem s) m'))).
Proof.
  intros [Hs Hf (l & Hi & ->)]. rewrite kalloc_ok by done.
  destruct l as [|p l].
  - destruct Hi as [Hc _ _]. cbn in Hc. rewrite Hc. cbn. eauto 10.
  - destruct (kalloc_inv_alloc p l s Hi) as (Hh & Hnz & Hni & Hp & Hi').
    rewrite Hh. destruct (Z.eqb_spec p 0) as [|_]; [done|].
    do 2 eexists. split; [reflexivity|]. right. split_and!.
    + set_solver.
    + done.
    + split; [by destruct Hs; split|done|]. exists l. split; [done|]. set_solver.
    + do 2 eexists. split; [reflexivity|apply same_outside_memset].
Qed.

Lemma kfree_spec F p s :
  free_pages F s -> page p -> p ∉ F ->
  exists s', kfree p s = Ok tt s' /\ free_pages ({[p]} ∪ F) s' /\
    (exists m' fl, s' = set_mem m' (set_freelist fl s) /\ same_outside p (mem s) m').
Proof.
  intros [Hs Hf (l & Hi & ->)] Hp Hni. rewrite kfree_ok by done.
  eexists. split; [reflexivity|]. split.
  - split; [by destruct Hs; split|done|]. exists (p :: l). split; [|set_solver].
    apply kalloc_inv_freed; [done|done|]. set_solver.
  - exists (store32 (memset (mem s) p 1 PGSIZE) p (freelist s)), p. split; [done|].
    apply same_outside_store32; [lia|unfold PGSIZE; lia|apply same_outside_memset].
Qed.

Lemma free_pages_page F s p : free_pages F s -> p ∈ F -> page p.
Proof.
  intros [_ _ (l & [_ _ Hp] & ->)] H. rewrite Forall_forall in Hp. apply Hp. set_solver.
Qed.

(** The [n] pages from [p] on, and the loop that frees them. *)
Definition pages_from (p : Z) (n : nat) : list Z :=
  (fun i : nat => p + Z.of_nat i * PGSIZE) <$> seq 0 n.

Lemma elem_of_pages_from p n q :
  q ∈ pages_from p n <-> exists i : nat, (i < n)%nat /\ q = p + Z.of_nat i * PGSIZE.
Proof.
  unfold pages_from. rewrite list_elem_of_fmap. setoid_rewrite elem_of_seq.
  split; intros (i & H1 & H2); exists i; split; first [done|lia].
Qed.

Lemma pages_from_S p n : pages_from p (S n) = p :: pages_from (p + PGSIZE) n.
Proof.
  unfold pages_from. cbn [seq]. rewrite fmap_cons. f_equal; [lia|].
  rewrite <- fmap_S_seq, <- list_fmap_compose. apply list_fmap_ext.
  intros i x _. unfold compose. lia.
Qed.

Lemma freerange_loop_ok n p pa_end l s :
  settled s -> lock_free LKmem s -> kalloc_inv l s ->
  p mod PGSIZE = 0 -> kend <= p -> pa_end <= PHYSTOP ->
  p + Z.of_nat n * PGSIZE <= pa_end < p + Z.of_nat (S n) * PGSIZE ->
  Forall (fun q => q < p) l ->
  exists s', freerange_loop n p pa_end s = Ok tt s' /\
    settled s' /\ lock_free LKmem s' /\ kalloc_inv (reverse (pages_from p n) ++ l) s'.
Proof.
  revert p l s. induction n as [|n IH]; intros p l s Hs Hf Hi Hp Hk He Hb Hl;
    cbn [freerange_loop]; unfold PGSIZE in *.
  - destruct (Z.leb_spec (p + 4096) pa_end); [lia|]. by exists s.
  - destruct (Z.leb_spec (p + 4096) pa_end) as [_|]; [|lia].
    assert (page p) as Hpp by (split; [done|unfold PGSIZE; lia]).
    assert (p ∉ l) as Hni.
    { intros Hin. rewrite Forall_forall in Hl. specialize (Hl p Hin). cbn in Hl. lia. }
    erewrite bind_ok by (by apply kfree_ok).
    destruct (IH (p + 4096) (p :: l) (freed p s)) as (s' & Hr & Hs' & Hf' & Hi').
    + by destruct Hs; split.
    + done.
    + by apply kalloc_inv_freed.
    + Z.div_mod_to_equations. lia.
    + lia.
    + done.
    + lia.
    + constructor; [lia|]. eapply Forall_impl; [exact Hl|]. cbn. intros. lia.
    + exists s'. split_and!; [done..|]. fold PGSIZE in *. rewrite pages_from_S, reverse_cons.
      by rewrite <- app_assoc.
Qed.

(** ** Correctness of kernel/kalloc.c *)

(** After [kinit] the free set is every whole page between the end of the
    kernel and the end of RAM. *)
Theorem kinit_correct s :
  settled s -> freelist s = 0 ->
  exists F s', kinit s = Ok tt s' /\ free_pages F s' /\
    (forall p, p ∈ F <-> p mod PGSIZE = 0 /\ kend <= p /\ p + PGSIZE <= PHYSTOP).
Proof.
  intros Hs Hz. unfold kinit, initlock. msimp. set (s0 := upd_lock LKmem unlocked s).
  pose proof kend_range as Hk. unfold PHYSTOP, KERNBASE in Hk.
  destruct (PGROUNDUP_bounds kend) as [Hb Hm]; [lia|]. unfold freerange.
  set (p := PGROUNDUP kend) in *. set (n := Z.to_nat ((PHYSTOP - p) / PGSIZE)).
  destruct (freerange_loop_ok n p PHYSTOP [] s0) as (s' & Hr & Hs' & Hf' & Hi').
  - by apply settled_upd_lock.
  - unfold lock_free, s0. ksimp. apply lookup_insert_eq.
  - split; [done|constructor|constructor].
  - done.
  - lia.
  - done.
  - unfold n, PHYSTOP, KERNBASE, PGSIZE in *. Z.div_mod_to_equations. lia.
  - constructor.
  - rewrite app_nil_r in Hi'. exists (list_to_set (reverse (pages_from p n))), s'.
    split; [exact Hr|]. split; [split; eauto|]. intros q.
    rewrite elem_of_list_to_set, elem_of_reverse, elem_of_pages_from.
    unfold PGSIZE in *. apply Z.mod_divide in Hm as [a Ha]; [|lia]. split.
    + intros (i & Hi & ->). rewrite Z.mod_add, Ha, Z.mod_mul by lia.
      unfold n in Hi. split_and!; [done|lia|]. Z.div_mod_to_equations. lia.
    + intros (Hq & Hq1 & Hq2). apply Z.mod_divide in Hq as [b Hb']; [|lia].
      exists (Z.to_nat (b - a)). unfold n. split; [|lia].
      assert (b - a + 1 <= (PHYSTOP - p) / 4096); [|lia].
      apply Z.div_le_lower_bound; lia.
Qed.

(** The abstract allocator: a set of free pages, a call, its result and the
    new set. *)
Inductive alloc_call : Type := CallKalloc | CallKfree (p : Z).
Inductive alloc_spec : gset Z -> alloc_call -> Z -> gset Z -> Prop :=
| spec_exhausted : alloc_spec ∅ CallKalloc 0 ∅
| spec_alloc F p : p ∈ F -> p <> 0 -> alloc_spec F CallKalloc p (F ∖ {[p]})
| spec_free F p : p ∉ F -> page p -> alloc_spec F (CallKfree p) 0 ({[p]} ∪ F).
Definition alloc_run (c : alloc_call) : K Z :=
  match c with CallKalloc => kalloc | CallKfree p => kfree p ;; mret 0 end.
(** The client frees only pages it owns. *)
Definition alloc_legal (F : gset Z) (c : alloc_call) : Prop :=
  match c with CallKalloc => True | CallKfree p => page p /\ p ∉ F end.

(** C28: the allocator refines a set of free pages: [kalloc] returns a page of
    the set and removes it, or 0 when the set is empty; [kfree] adds a page
    the client owns; memory changes only inside that page, and nothing else
    of the kernel state changes but the list head. *)
Theorem kalloc_refines_set F s c :
  free_pages F s -> alloc_legal F c ->
  exists r F' s', alloc_run c s = Ok r s' /\ alloc_spec F c r F' /\ free_pages F' s' /\
    (exists m' fl, s' = set_mem m' (set_freelist fl s) /\
      same_outside (match c with CallKalloc => r | CallKfree p => p end) (mem s) m').
Proof.
  intros HF Hl. destruct c as [|p]; cbn [alloc_run].
  - destruct (kalloc_spec F s HF) as (p & s' & Hr & [(-> & -> & ->)|(Hin & Hp & HF' & Hm)]).
    + exists 0, ∅, s. split_and!; [done|constructor|done|].
      exists (mem s), (freelist s). split; [done|apply same_outside_refl].
    + exists p, (F ∖ {[p]}), s'. split_and!; [done| |done|done].
      constructor; [done|]. pose proof (page_pos p Hp). lia.
  - destruct Hl as [Hp Hni].
    destruct (kfree_spec F p s HF Hp Hni) as (s' & Hr & HF' & Hm).
    exists 0, ({[p]} ∪ F), s'. erewrite bind_ok by exact Hr.
    split_and!; [done|by constructor|done|done].
Qed.

(** [kfree] accepts exactly the page-aligned addresses of allocatable RAM
    and panics on every other one; a page just freed is the next one
    allocated. *)
Theorem kfree_guard_lifo F s pa :
  free_pages F s ->
  (~ page pa <-> panics (kfree pa) s = Some "kfree"%string) /\
  (page pa -> pa ∉ F ->
    exists s', (kfree pa ;; kalloc) s = Ok pa s' /\ free_pages F s').
Proof.
  intros [Hs Hf (l & Hi & ->)]. split.
  - rewrite kfree_guard. unfold panics. split.
    + intros Hg. unfold kfree. by destruct (_ || _).
    + intros Hpn Hg. assert (page pa) as Hp by by apply kfree_guard.
      rewrite kfree_ok in Hpn by done. done.
  - intros Hp Hni. erewrite bind_ok by (by apply kfree_ok).
    assert (kalloc_inv (pa :: l) (freed pa s)) as Hi'.
    { apply kalloc_inv_freed; [done|done|]. set_solver. }
    destruct (kalloc_inv_alloc pa l _ Hi') as (Hh & Hnz & _ & _ & Hi'').
    rewrite kalloc_ok by (done || by destruct Hs; split). rewrite Hh.
    destruct (Z.eqb_spec pa 0) as [|_]; [done|].
    eexists. split; [reflexivity|]. split; [by destruct Hs; split|done|]. by exists l.
Qed.

End Kalloc.

(** ** Witnesses: a kernel that ends eight pages below the end of RAM *)

Definition test_layout : Layout :=
  {| kend := PHYSTOP - 8 * PGSIZE - 100; etext := KERNBASE + 8192; trampoline := KERNBASE + 4096;
     uservec := KERNBASE + 4096; userret := KERNBASE + 4096 + 160; usertrap_addr := KERNBASE + 1000;
     kernelvec := KERNBASE + 2000; forkret_addr := KERNBASE + 3000; frame := PHYSTOP + 4096;
     buf_addr i := KERNBASE + 65536 + 600 * Z.of_nat i; vd_ops_addr i := KERNBASE + 80000 + 16 * Z.of_nat i;
     vd_status_addr i := KERNBASE + 81000 + 8 * Z.of_nat i |}.

Lemma test_layout_ok : LayoutOk test_layout.
Proof. split; cbn; unfold PHYSTOP, KERNBASE, PGSIZE; (reflexivity || lia). Qed.

Definition booted : kstate :=
  match @kinit test_layout blank with Ok _ s => s | _ => blank end.

Lemma kinit_correct_witness :
  settled blank /\ freelist blank = 0 /\
  exists F s', @kinit test_layout blank = Ok tt s' /\ @free_pages test_layout F s'.
Proof.
  split; [apply settled_blank|]. split; [reflexivity|].
  destruct (@kinit_correct test_layout test_layout_ok blank settled_blank eq_refl)
    as (F & s' & H1 & H2 & _).
  exists F, s'. split; [exact H1|exact H2].
Defined.

(** The free list of [booted]. *)
Definition test_frames : list Z :=
  map (fun i => PHYSTOP - i * PGSIZE) [1; 2; 3; 4; 5; 6; 7; 8].

Lemma booted_free :
  @free_pages test_layout (list_to_set test_frames) booted.
Proof.
  split.
  - split; vm_compute; congruence.
  - vm_compute. reflexivity.
  - exists test_frames.
    split; [split|].
    + vm_compute. repeat split; congruence.
    + apply (bool_decide_unpack _). vm_compute. exact I.
    + repeat constructor; vm_compute; congruence.
    + vm_compute. reflexivity.
Qed.

Lemma kalloc_refines_set_witness :
  exists r F' s', @alloc_run test_layout CallKalloc booted = Ok r s' /\
    @alloc_spec test_layout
      (list_to_set test_frames) CallKalloc r F'.
Proof.
  destruct (@kalloc_refines_set test_layout test_layout_ok _ booted CallKalloc booted_free I)
    as (r & F' & s' & H1 & H2 & _).
  exists r, F', s'. split; [exact H1|exact H2].
Defined.

(** A state in which one page is allocated. *)
Definition booted1 : kstate :=
  match kalloc booted with Ok _ s => s | _ => booted end.

Lemma booted1_free :
  @free_pages test_layout (list_to_set (tail test_frames)) booted1.
Proof.
  split.
  - split; vm_compute; congruence.
  - vm_compute. reflexivity.
  - exists (tail test_frames).
    split; [split|].
    + vm_compute. repeat split; congruence.
    + apply (bool_decide_unpack _). vm_compute. exact I.
    + repeat constructor; vm_compute; congruence.
    + vm_compute. reflexivity.
Qed.

Lemma kfree_guard_lifo_witness :
  @page test_layout (PHYSTOP - 4096) /\
  exists s', (@kfree test_layout (PHYSTOP - 4096) ;; kalloc) booted1
    = Ok (PHYSTOP - 4096) s'.
Proof.
  assert (@page test_layout (PHYSTOP - 4096)) as Hp by (vm_compute; repeat split; congruence).
  split; [exact Hp|].
  destruct (@kfree_guard_lifo test_layout test_layout_ok _ booted1 (PHYSTOP - 4096) booted1_free)
    as [_ H].
  destruct (H Hp) as (s' & Hs & _).
  - apply (bool_decide_unpack _). vm_compute. exact I.
  - exists s'. exact Hs.
Defined.
