(* ===== verification/Vm.v ===== *)
(** * Virtual memory: the operations of kernel/vm.c

    Page tables live in pages of physical memory and are walked there.  The
    copy routines take the kernel side as a list of bytes: [copyout] the bytes
    at [src], [copyin] and [copyinstr] return the bytes they store at [dst],
    also when they fail half way. *)
From S2P Require Import Prelude Memory Machine Sv32 Spinlock Kalloc.
From stdpp Require Import gmap strings countable prelude.

Open Scope Z_scope.

Section Vm.
Context {L : Layout}.

Definition is_set (v mask : Z) : bool := negb (Z.land v mask =? 0).

(** The loop of [walk] over the levels above 0: the level-0 table for [va],
    or [None] when it is missing and may not, or cannot, be made. *)
Fixpoint walk_loop (level : nat) (pagetable va : Z) (alloc : bool) : K (option Z) :=
  match level with
  | O => mret (Some pagetable)
  | S level' =>
    let pte := pagetable + 4 * PX (Z.of_nat level) va in
    v ← gets (fun s => load32 (mem s) pte);
    if is_set v PTE_V then walk_loop level' (PTE2PA v) va alloc
    else if negb alloc then mret None
    else
      p ← kalloc;
      if p =? 0 then mret None
      else
        upd_mem (fun m => memset m p 0 PGSIZE) ;;
        upd_mem (fun m => store32 m pte (Z.lor (PA2PTE p) PTE_V)) ;;
        walk_loop level' p va alloc
  end.

(** The address of the entry for [va], or 0. *)
Definition walk (pagetable va : Z) (alloc : bool) : K Z :=
  if MAXVA <? va then panic "walk" else
  t ← walk_loop 1 pagetable va alloc;
  match t with
  | None => mret 0
  | Some pt => mret (pt + 4 * PX 0 va)
  end.

Definition walkaddr (pagetable va : Z) : K Z :=
  if MAXVA <? va then mret 0 else
  pte ← walk pagetable va false;
  if pte =? 0 then mret 0 else
  v ← gets (fun s => load32 (mem s) pte);
  if negb (is_set v PTE_V) then mret 0
  else if negb (is_set v PTE_U) then mret 0
  else mret (PTE2PA v).

(** [perm |= PTE_A; if(perm & PTE_W) perm |= PTE_D;] *)
Definition add_ad (perm : Z) : Z :=
  let perm := Z.lor perm PTE_A in
  if is_set perm PTE_W then Z.lor perm PTE_D else perm.

Fixpoint mappages_loop (fuel : nat) (pagetable a last pa perm : Z) : K Z :=
  pte ← walk pagetable a true;
  if pte =? 0 then mret (-1) else
  v ← gets (fun s => load32 (mem s) pte);
  if is_set v PTE_V then panic "mappages: remap" else
  let perm := add_ad perm in
  upd_mem (fun m => store32 m pte (Z.lor (Z.lor (PA2PTE pa) perm) PTE_V)) ;;
  if a =? last then mret 0 else
  match fuel with
  | O => hang
  | S fuel' => mappages_loop fuel' pagetable (u32 (a + PGSIZE)) last (u32 (pa + PGSIZE)) perm
  end.
Definition mappages (pagetable va size pa perm : Z) : K Z :=
  if size =? 0 then panic "mappages: size" else
  let a := PGROUNDDOWN va in
  let last := PGROUNDDOWN (u32 (va + size - 1)) in
  mappages_loop (Z.to_nat (u32 (last - a) / PGSIZE)) pagetable a last pa perm.

Definition kvmmap (kpgtbl va pa sz perm : Z) : K unit :=
  r ← mappages kpgtbl va sz pa perm;
  if negb (r =? 0) then panic "kvmmap" else mret tt.

(** [n] turns of the loop of [uvmunmap], [a] being a page number. *)
Fixpoint uvmunmap_loop (n : nat) (pagetable a : Z) (do_free : bool) : K unit :=
  match n with
  | O => mret tt
  | S n' =>
    pte ← walk pagetable (u32 (Z.shiftl a 12)) false;
    if pte =? 0 then panic "uvmunmap: walk" else
    v ← gets (fun s => load32 (mem s) pte);
    if negb (is_set v PTE_V) then panic "uvmunmap: not mapped" else
    if PTE_FLAGS v =? PTE_V then panic "uvmunmap: not a leaf" else
    (if do_free then kfree (PTE2PA v) else mret tt) ;;
    upd_mem (fun m => store32 m pte 0) ;;
    uvmunmap_loop n' pagetable (a + 1) do_free
  end.
Definition uvmunmap (pagetable va npages : Z) (do_free : bool) : K unit :=
  if negb (va mod PGSIZE =? 0) then panic "uvmunmap: not aligned" else
  let a := Z.shiftr va 12 in
  let bound := u32 (a + npages) in
  uvmunmap_loop (Z.to_nat (bound - a)) pagetable a do_free.

Definition uvmcreate : K Z :=
  pagetable ← kalloc;
  if pagetable =? 0 then mret 0 else
  upd_mem (fun m => memset m pagetable 0 PGSIZE) ;;
  mret pagetable.

Definition uvmfirst (pagetable : Z) (src : list Z) (sz : Z) : K unit :=
  if PGSIZE <=? sz then panic "uvmfirst: more than a page" else
  m ← kalloc;
  upd_mem (fun mm => memset mm m 0 PGSIZE) ;;
  mappages pagetable 0 PGSIZE m (Z.lor (Z.lor (Z.lor PTE_W PTE_R) PTE_X) PTE_U) ;;
  upd_mem (fun mm => store_bytes mm m (take (Z.to_nat sz) src)).

Definition uvmdealloc (pagetable oldsz newsz : Z) : K Z :=
  if oldsz <=? newsz then mret oldsz else
  (if PGROUNDUP newsz <? PGROUNDUP oldsz then
     let npages := s32 ((PGROUNDUP oldsz - PGROUNDUP newsz) / PGSIZE) in
     uvmunmap pagetable (PGROUNDUP newsz) (u32 npages) true
   else mret tt) ;;
  mret newsz.

(** The loop of [uvmalloc], from address [a]; [oldsz] is already rounded up. *)
Fixpoint uvmalloc_loop (fuel : nat) (pagetable a oldsz newsz xperm : Z) : K Z :=
  if newsz <=? a then mret newsz else
  match fuel with
  | O => hang
  | S fuel' =>
    m ← kalloc;
    if m =? 0 then
      uvmdealloc pagetable a oldsz ;; mret 0
    else
      upd_mem (fun mm => memset mm m 0 PGSIZE) ;;
      r ← mappages pagetable a PGSIZE m (Z.lor (Z.lor PTE_R PTE_U) xperm);
      if negb (r =? 0) then
        kfree m ;;
        uvmdealloc pagetable a oldsz ;;
        mret 0
      else uvmalloc_loop fuel' pagetable (u32 (a + PGSIZE)) oldsz newsz xperm
  end.
Definition uvmalloc (pagetable oldsz newsz xperm : Z) : K Z :=
  if newsz <? oldsz then mret oldsz else
  let oldsz := PGROUNDUP oldsz in
  uvmalloc_loop (Z.to_nat ((newsz - oldsz) / PGSIZE + 1)) pagetable oldsz oldsz newsz xperm.

(** One turn of the loop of [freewalk], [rec] being the recursive call. *)
Definition freewalk_entry (rec : Z -> K unit) (pagetable : Z) (i : nat) : K unit :=
  let a := pagetable + 4 * Z.of_nat i in
  pte ← gets (fun s => load32 (mem s) a);
  if is_set pte PTE_V && negb (is_set pte (Z.lor (Z.lor PTE_R PTE_W) PTE_X)) then
    rec (PTE2PA pte) ;;
    upd_mem (fun m => store32 m a 0)
  else if is_set pte PTE_V then panic "freewalk: leaf"
  else mret tt.

(** [freewalk] recurses into the tables an entry without R, W or X points to;
    [depth] bounds the nesting. *)
Fixpoint freewalk_depth (depth : nat) (pagetable : Z) : K unit :=
  match depth with
  | O => hang
  | S depth' =>
    for_range 1024 0 (freewalk_entry (freewalk_depth depth') pagetable) ;;
    kfree pagetable
  end.
(** An Sv32 table has two levels; one level of slack. *)
Definition freewalk (pagetable : Z) : K unit := freewalk_depth 3 pagetable.

Definition uvmfree (pagetable sz : Z) : K unit :=
  (if 0 <? sz then uvmunmap pagetable 0 (PGROUNDUP sz / PGSIZE) true else mret tt) ;;
  freewalk pagetable.

Fixpoint uvmcopy_loop (fuel : nat) (old new i sz : Z) : K Z :=
  if sz <=? i then mret 0 else
  match fuel with
  | O => hang
  | S fuel' =>
    pte ← walk old i false;
    if pte =? 0 then panic "uvmcopy: pte should exist" else
    v ← gets (fun s => load32 (mem s) pte);
    if negb (is_set v PTE_V) then panic "uvmcopy: page not present" else
    let pa := PTE2PA v in
    let flags := PTE_FLAGS v in
    let err := (uvmunmap new 0 (i / PGSIZE) true ;; mret (-1)) : K Z in
    m ← kalloc;
    if m =? 0 then err else
    upd_mem (fun mm => memmove mm m pa PGSIZE) ;;
    r ← mappages new i PGSIZE m flags;
    if negb (r =? 0) then kfree m ;; err
    else uvmcopy_loop fuel' old new (u32 (i + PGSIZE)) sz
  end.
Definition uvmcopy (old new sz : Z) : K Z :=
  uvmcopy_loop (Z.to_nat (sz / PGSIZE + 1)) old new 0 sz.

Definition uvmclear (pagetable va : Z) : K unit :=
  pte ← walk pagetable va false;
  if pte =? 0 then panic "uvmclear" else
  upd_mem (fun m => store32 m pte (Z.ldiff (load32 m pte) PTE_U)).

Fixpoint copyout_loop (fuel : nat) (pagetable dstva : Z) (src : list Z) (len : Z) : K Z :=
  if len <=? 0 then mret 0 else
  match fuel with
  | O => hang
  | S fuel' =>
    let va0 := PGROUNDDOWN dstva in
    pa0 ← walkaddr pagetable va0;
    if pa0 =? 0 then mret (-1) else
    let n := Z.min (PGSIZE - (dstva - va0)) len in
    upd_mem (fun m => store_bytes m (pa0 + (dstva - va0)) (take (Z.to_nat n) src)) ;;
    copyout_loop fuel' pagetable (u32 (va0 + PGSIZE)) (drop (Z.to_nat n) src) (len - n)
  end.
Definition copyout (pagetable dstva : Z) (src : list Z) (len : Z) : K Z :=
  copyout_loop (Z.to_nat (len / PGSIZE + 2)) pagetable dstva src len.

(** [copyin] returns its result and the bytes stored at [dst]. *)
Fixpoint copyin_loop (fuel : nat) (pagetable srcva len : Z) (acc : list Z) : K (Z * list Z) :=
  if len <=? 0 then mret (0, acc) else
  match fuel with
  | O => hang
  | S fuel' =>
    let va0 := PGROUNDDOWN srcva in
    pa0 ← walkaddr pagetable va0;
    if pa0 =? 0 then mret (-1, acc) else
    let n := Z.min (PGSIZE - (srcva - va0)) len in
    bytes ← gets (fun s => load_bytes (mem s) (pa0 + (srcva - va0)) (Z.to_nat n));
    copyin_loop fuel' pagetable (u32 (va0 + PGSIZE)) (len - n) (acc ++ bytes)
  end.
Definition copyin (pagetable srcva len : Z) : K (Z * list Z) :=
  copyin_loop (Z.to_nat (len / PGSIZE + 2)) pagetable srcva len [].

(** The inner loop of [copyinstr]: at most [n] bytes from address [p];
    returns whether a NUL was copied and the bytes copied. *)
Fixpoint copyinstr_bytes (n : nat) (m : gmap Z Z) (p : Z) : bool * list Z :=
  match n with
  | O => (false, [])
  | S n' =>
    if load8 m p =? 0 then (true, [0])
    else let '(g, l) := copyinstr_bytes n' m (p + 1) in (g, load8 m p :: l)
  end.
Fixpoint copyinstr_loop (fuel : nat) (pagetable srcva max : Z) (acc : list Z) : K (Z * list Z) :=
  if max <=? 0 then mret (-1, acc) else
  match fuel with
  | O => hang
  | S fuel' =>
    let va0 := PGROUNDDOWN srcva in
    pa0 ← walkaddr pagetable va0;
    if pa0 =? 0 then mret (-1, acc) else
    let n := Z.min (PGSIZE - (srcva - va0)) max in
    r ← gets (fun s => copyinstr_bytes (Z.to_nat n) (mem s) (pa0 + (srcva - va0)));
    if (r.1 : bool) then mret (0, acc ++ r.2)
    else copyinstr_loop fuel' pagetable (u32 (va0 + PGSIZE)) (max - n) (acc ++ r.2)
  end.
Definition copyinstr (pagetable srcva max : Z) : K (Z * list Z) :=
  copyinstr_loop (Z.to_nat (max / PGSIZE + 2)) pagetable srcva max [].

End Vm.
