(* ===== verification/Proc.v ===== *)
(** * Processes: kernel/proc.c up to the system calls fork, exit and wait

    The process table, its allocation and release, sleeping and waking,
    killing, the context switch and the scheduler loop.  Pointers into the
    table are indices; a null pointer is [None], and following it is the page
    fault that [kerneltrap] panics on. *)
From S2P Require Import Prelude Memory Machine Platform Sv32 Spinlock Printf Kalloc Vm.
From stdpp Require Import gmap strings countable prelude.

Open Scope Z_scope.

(** ** Access to the table *)

Definition proc_of (s : kstate) (i : nat) : proc := default blank_proc (procs s !! i).
Notation pget i f := (gets (fun s => f (proc_of s i))) (only parsing).
Definition pset (i : nat) (f : proc -> proc) : K unit := modify (upd_proc i f).

(** Offsets in a struct trapframe (kernel/proc.h); every field is a uint32. *)
Definition TF_kernel_satp : Z := 0.
Definition TF_kernel_sp : Z := 4.
Definition TF_kernel_trap : Z := 8.
Definition TF_epc : Z := 12.
Definition TF_kernel_hartid : Z := 16.
Definition TF_ra : Z := 20.
Definition TF_sp : Z := 24.
Definition TF_a (n : Z) : Z := 56 + 4 * n.
Definition TF_SIZE : Z := 144.

Definition tf_get (i : nat) (off : Z) : K Z :=
  gets (fun s => load32 (mem s) (p_trapframe (proc_of s i) + off)).
Definition tf_set (i : nat) (off v : Z) : K unit :=
  modify (fun s => set_mem (store32 (mem s) (p_trapframe (proc_of s i) + off) v) s).

(** ** CPU and current process *)

Definition myproc : K (option nat) :=
  push_off ;;
  p ← gets (fun s => c_proc (kcpu s));
  pop_off ;;
  mret p.

(** The current process where the code follows the pointer. *)
Definition curproc : K nat :=
  p ← myproc;
  match p with Some i => mret i | None => panic "kerneltrap" end.

Section Proc.
Context {L : Layout} {W : World}.

Definition proc_mapstacks (kpgtbl : Z) : K unit :=
  for_range NPROC 0 (fun i =>
    pa ← kalloc;
    if pa =? 0 then panic "kalloc" else
    kvmmap kpgtbl (KSTACK (Z.of_nat i)) pa PGSIZE (Z.lor PTE_R PTE_W)).

Definition procinit : K unit :=
  initlock LPid ;;
  initlock LWait ;;
  for_range NPROC 0 (fun i =>
    initlock (LProc i) ;;
    pset i (set_p_state UNUSED) ;;
    pset i (set_p_kstack (KSTACK (Z.of_nat i)))).

Definition allocpid : K Z :=
  acquire LPid ;;
  pid ← gets (fun s => nextpid s);
  modify (set_nextpid (s32 (pid + 1))) ;;
  release LPid ;;
  mret pid.

(** ** Page tables of processes *)

Definition proc_pagetable (i : nat) : K Z :=
  pagetable ← uvmcreate;
  if pagetable =? 0 then mret 0 else
  r ← mappages pagetable TRAMPOLINE PGSIZE trampoline (Z.lor PTE_R PTE_X);
  if r <? 0 then
    uvmfree pagetable 0 ;;
    mret 0
  else
    tf ← pget i p_trapframe;
    r ← mappages pagetable TRAPFRAME PGSIZE tf (Z.lor PTE_R PTE_W);
    if r <? 0 then
      uvmunmap pagetable TRAMPOLINE 1 false ;;
      uvmfree pagetable 0 ;;
      mret 0
    else mret pagetable.

Definition proc_freepagetable (pagetable sz : Z) : K unit :=
  uvmunmap pagetable TRAMPOLINE 1 false ;;
  uvmunmap pagetable TRAPFRAME 1 false ;;
  uvmfree pagetable sz.

(** ** Allocation and release of table entries *)

Definition freeproc (i : nat) : K unit :=
  tf ← pget i p_trapframe;
  (if negb (tf =? 0) then kfree tf else mret tt) ;;
  pset i (set_p_trapframe 0) ;;
  pagetable ← pget i p_pagetable;
  sz ← pget i p_sz;
  (if negb (pagetable =? 0) then proc_freepagetable pagetable sz else mret tt) ;;
  pset i (set_p_pagetable 0) ;;
  pset i (set_p_sz 0) ;;
  pset i (set_p_pid 0) ;;
  pset i (set_p_parent None) ;;
  pset i (fun p => set_p_name (splice (p_name p) 0 [0]) p) ;;
  pset i (set_p_chan None) ;;
  pset i (set_p_killed 0) ;;
  pset i (set_p_xstate 0) ;;
  pset i (set_p_state UNUSED).

(** The loop of [allocproc] over the last [n] entries, from entry [i] on; the
    lock of the entry found is held. *)
Fixpoint allocproc_find (n i : nat) : K (option nat) :=
  match n with
  | O => mret None
  | S n' =>
    acquire (LProc i) ;;
    st ← pget i p_state;
    if decide (st = UNUSED) then mret (Some i)
    else release (LProc i) ;; allocproc_find n' (S i)
  end.

Definition allocproc : K (option nat) :=
  found ← allocproc_find NPROC 0;
  match found with
  | None => mret None
  | Some i =>
    pid ← allocpid;
    pset i (set_p_pid pid) ;;
    pset i (set_p_state USED) ;;
    tf ← kalloc;
    pset i (set_p_trapframe tf) ;;
    if tf =? 0 then
      freeproc i ;;
      release (LProc i) ;;
      mret None
    else
      pagetable ← proc_pagetable i;
      pset i (set_p_pagetable pagetable) ;;
      if pagetable =? 0 then
        freeproc i ;;
        release (LProc i) ;;
        mret None
      else
        kstack ← pget i p_kstack;
        pset i (set_p_context {| ctx_ra := forkret_addr; ctx_sp := u32 (kstack + PGSIZE);
                                 ctx_s := replicate 12 0 |}) ;;
        mret (Some i)
  end.

Definition growproc (n : Z) : K Z :=
  i ← curproc;
  sz ← pget i p_sz;
  pagetable ← pget i p_pagetable;
  if 0 <? n then
    sz ← uvmalloc pagetable sz (u32 (sz + n)) PTE_W;
    if sz =? 0 then mret (-1) else
    pset i (set_p_sz sz) ;;
    mret 0
  else if n <? 0 then
    sz ← uvmdealloc pagetable sz (u32 (sz + n));
    pset i (set_p_sz sz) ;;
    mret 0
  else
    pset i (set_p_sz sz) ;;
    mret 0.

(** ** Switching *)

(** [swtch(&p->context, &mycpu()->context)]: the scheduler and other processes
    run until this process is resumed. *)
Definition swtch : K unit := fun s =>
  match others (nsched s) s with
  | None => Hang s
  | Some s' => Ok tt (set_nsched (S (nsched s)) s')
  end.

Definition sched : K unit :=
  i ← curproc;
  h ← holding (LProc i);
  if negb h then panic "sched p->lock" else
  n ← gets (fun s => noff (kcpu s));
  if negb (n =? 1) then panic "sched locks" else
  st ← pget i p_state;
  if decide (st = RUNNING) then panic "sched running" else
  on ← intr_get;
  if (on : bool) then panic "sched interruptible" else
  e ← gets (fun s => intena (kcpu s));
  swtch ;;
  modify (fun s => set_kcpu (set_intena e (kcpu s)) s).

Definition yield : K unit :=
  i ← curproc;
  acquire (LProc i) ;;
  pset i (set_p_state RUNNABLE) ;;
  sched ;;
  release (LProc i).

(** One turn of the inner loop of [scheduler], up to the context switch:
    [true] when it switches to process [i], whose lock is then held. *)
Definition scheduler_pick (i : nat) : K bool :=
  acquire (LProc i) ;;
  st ← pget i p_state;
  if decide (st = RUNNABLE) then
    pset i (set_p_state RUNNING) ;;
    modify (fun s => set_kcpu (set_c_proc (Some i) (kcpu s)) s) ;;
    mret true
  else
    release (LProc i) ;;
    mret false.

(** The rest of the turn, when the process has switched back. *)
Definition scheduler_back (i : nat) : K unit :=
  modify (fun s => set_kcpu (set_c_proc None (kcpu s)) s) ;;
  release (LProc i).

(** [scheduler], where [run i] stands for what process [i] does from the switch
    to it until it switches back; its loop is followed for [patience] rounds. *)
Definition scheduler_round (run : nat -> K unit) : K unit :=
  intr_on ;;
  for_range NPROC 0 (fun i =>
    switch ← scheduler_pick i;
    if (switch : bool) then
      run i ;;
      scheduler_back i
    else mret tt).
Fixpoint scheduler_loop (rounds : nat) (run : nat -> K unit) : K unit :=
  match rounds with
  | O => hang
  | S rounds' => scheduler_round run ;; scheduler_loop rounds' run
  end.
Definition scheduler (run : nat -> K unit) : K unit :=
  modify (fun s => set_kcpu (set_c_proc None (kcpu s)) s) ;;
  scheduler_loop patience run.

(** ** Sleep and wakeup *)

Definition sleep (ch : chan) (lk : lockid) : K unit :=
  i ← curproc;
  acquire (LProc i) ;;
  release lk ;;
  pset i (set_p_chan (Some ch)) ;;
  pset i (set_p_state SLEEPING) ;;
  sched ;;
  pset i (set_p_chan None) ;;
  release (LProc i) ;;
  acquire lk.

(** [wakeup(chan)]; a null [chan] is [None]. *)
Definition wakeup_on (ch : option chan) : K unit :=
  for_range NPROC 0 (fun i =>
    me ← myproc;
    if decide (me = Some i) then mret tt else
    acquire (LProc i) ;;
    p ← gets (fun s => proc_of s i);
    (if decide (p_state p = SLEEPING) then
       if decide (p_chan p = ch) then pset i (set_p_state RUNNABLE) else mret tt
     else mret tt) ;;
    release (LProc i)).
Definition wakeup (ch : chan) : K unit := wakeup_on (Some ch).

(** ** Killing *)

Fixpoint kill_loop (n i : nat) (pid : Z) : K Z :=
  match n with
  | O => mret (-1)
  | S n' =>
    acquire (LProc i) ;;
    p ← gets (fun s => proc_of s i);
    if p_pid p =? pid then
      pset i (set_p_killed 1) ;;
      (if decide (p_state p = SLEEPING) then pset i (set_p_state RUNNABLE) else mret tt) ;;
      release (LProc i) ;;
      mret 0
    else
      release (LProc i) ;;
      kill_loop n' (S i) pid
  end.
Definition kill (pid : Z) : K Z := kill_loop NPROC 0 pid.

Definition setkilled (i : nat) : K unit :=
  acquire (LProc i) ;;
  pset i (set_p_killed 1) ;;
  release (LProc i).

Definition killed (i : nat) : K Z :=
  acquire (LProc i) ;;
  k ← pget i p_killed;
  release (LProc i) ;;
  mret k.

(** ** Copies to and from either address space *)

Definition either_copyout (user_dst : bool) (dst : Z) (src : list Z) (len : Z) : K Z :=
  p ← myproc;
  if user_dst then
    match p with
    | None => panic "kerneltrap"
    | Some i => pagetable ← pget i p_pagetable; copyout pagetable dst src len
    end
  else
    modify (fun s => set_mem (store_bytes (mem s) dst (take (Z.to_nat len) src)) s) ;;
    mret 0.

Definition either_copyin (user_src : bool) (src len : Z) : K (Z * list Z) :=
  p ← myproc;
  if user_src then
    match p with
    | None => panic "kerneltrap"
    | Some i => pagetable ← pget i p_pagetable; copyin pagetable src len
    end
  else
    bytes ← gets (fun s => load_bytes (mem s) src (Z.to_nat len));
    mret (0, bytes).

(** ** The process listing *)

Definition state_name (st : procstate) : string :=
  match st with
  | UNUSED => "unused" | USED => "used" | SLEEPING => "sleep " | RUNNABLE => "runble"
  | RUNNING => "run   " | ZOMBIE => "zombie"
  end.

Definition procdump `{Serial} : K unit :=
  printf newline [] ;;
  for_range NPROC 0 (fun i =>
    p ← gets (fun s => proc_of s i);
    if decide (p_state p = UNUSED) then mret tt else
    printf "%d %s %s"
      [AInt (p_pid p); AStr (Some (chars (state_name (p_state p)))); AStr (Some (cstr (p_name p)))] ;;
    printf newline []).
End Proc.
