(* ===== verification/Sleeplock.v ===== *)
(** * Sleep locks (kernel/sleeplock.c)

    Locks that processes hold across sleeps; the inner spinlock of lock [l] is
    [LSleep l], the channel its waiters sleep on [CSleep l]. *)
From S2P Require Import Prelude Memory Machine Platform Sv32 Spinlock Printf Kalloc Vm Proc.
From stdpp Require Import gmap strings countable prelude.

Open Scope Z_scope.

Definition sl_blank : sleeplock := {| sl_locked := 0; sl_pid := 0 |}.
Definition slock_of (s : kstate) (l : slid) : sleeplock := default sl_blank (slocks s !! l).

Section Sleeplock.
Context {L : Layout} {W : World}.

Definition initsleeplock (l : slid) : K unit :=
  initlock (LSleep l) ;;
  modify (upd_slock l sl_blank).

(** [while (lk->locked) sleep(lk, &lk->lk);] *)
Fixpoint acquiresleep_wait (fuel : nat) (l : slid) : K unit :=
  lk ← gets (fun s => slock_of s l);
  if negb (sl_locked lk =? 0) then
    match fuel with
    | O => hang
    | S fuel' => sleep (CSleep l) (LSleep l) ;; acquiresleep_wait fuel' l
    end
  else mret tt.
Definition acquiresleep (l : slid) : K unit :=
  acquire (LSleep l) ;;
  acquiresleep_wait patience l ;;
  modify (fun s => upd_slock l {| sl_locked := 1; sl_pid := sl_pid (slock_of s l) |} s) ;;
  i ← curproc;
  pid ← pget i p_pid;
  modify (fun s => upd_slock l {| sl_locked := sl_locked (slock_of s l); sl_pid := pid |} s) ;;
  release (LSleep l).

Definition releasesleep (l : slid) : K unit :=
  acquire (LSleep l) ;;
  modify (upd_slock l sl_blank) ;;
  wakeup (CSleep l) ;;
  release (LSleep l).

Definition holdingsleep (l : slid) : K bool :=
  acquire (LSleep l) ;;
  lk ← gets (fun s => slock_of s l);
  r ← (if negb (sl_locked lk =? 0) then
         i ← curproc;
         pid ← pget i p_pid;
         mret (sl_pid lk =? pid)
       else mret false);
  release (LSleep l) ;;
  mret r.
End Sleeplock.
