(* ===== verification/Bio.v ===== *)
(** * The buffer cache (kernel/bio.c)

    [bufs] holds [bcache.buf] and, at index NBUF, [bcache.head]; [b_prev] and
    [b_next] are indices, so the list through all the buffers is walked and
    relinked as in the code. *)
From S2P Require Import Prelude Memory Machine Platform Sv32 Spinlock Printf Kalloc Vm Proc Sleeplock.
From stdpp Require Import gmap strings countable prelude.

Open Scope Z_scope.

Definition buf_of (s : kstate) (i : nat) : buf := default blank_buf (bufs s !! i).
Notation bget_field i f := (gets (fun s => f (buf_of s i))) (only parsing).
Definition bset (i : nat) (f : buf -> buf) : K unit := modify (upd_buf i f).

Section Bio.
Context {L : Layout} {W : World} {D : DiskDriver}.

(** One turn of the loop of [binit]: buffer [b] goes to the front. *)
Definition binit_turn (b : nat) : K unit :=
  n ← bget_field NBUF b_next;
  bset b (set_b_next n) ;;
  bset b (set_b_prev NBUF) ;;
  initsleeplock (SLBuf b) ;;
  n ← bget_field NBUF b_next;
  bset n (set_b_prev b) ;;
  bset NBUF (set_b_next b).
Definition binit : K unit :=
  initlock LBcache ;;
  bset NBUF (set_b_prev NBUF) ;;
  bset NBUF (set_b_next NBUF) ;;
  for_range NBUF 0 binit_turn.

(** The two searches of [bget], from buffer [b] on. *)
Fixpoint bget_cached (fuel b : nat) (dev blockno : Z) : K (option nat) :=
  if decide (b = NBUF) then mret None else
  bf ← gets (fun s => buf_of s b);
  if (b_dev bf =? dev) && (b_blockno bf =? blockno) then mret (Some b) else
  match fuel with
  | O => hang
  | S fuel' => bget_cached fuel' (b_next bf) dev blockno
  end.
Fixpoint bget_lru (fuel b : nat) : K (option nat) :=
  if decide (b = NBUF) then mret None else
  bf ← gets (fun s => buf_of s b);
  if b_refcnt bf =? 0 then mret (Some b) else
  match fuel with
  | O => hang
  | S fuel' => bget_lru fuel' (b_prev bf)
  end.

Definition bget (dev blockno : Z) : K nat :=
  acquire LBcache ;;
  first ← bget_field NBUF b_next;
  found ← bget_cached NBUF first dev blockno;
  match found with
  | Some b =>
    bset b (fun bf => set_b_refcnt (u32 (b_refcnt bf + 1)) bf) ;;
    release LBcache ;;
    acquiresleep (SLBuf b) ;;
    mret b
  | None =>
    last ← bget_field NBUF b_prev;
    found ← bget_lru NBUF last;
    match found with
    | Some b =>
      bset b (set_b_dev dev) ;;
      bset b (set_b_blockno blockno) ;;
      bset b (set_b_valid 0) ;;
      bset b (set_b_refcnt 1) ;;
      release LBcache ;;
      acquiresleep (SLBuf b) ;;
      mret b
    | None => panic "bget: no buffers"
    end
  end.

Definition bread (dev blockno : Z) : K nat :=
  b ← bget dev blockno;
  bf ← gets (fun s => buf_of s b);
  (if b_valid bf =? 0 then
     platform_disk_read (b_blockno bf) b ;;
     bset b (set_b_valid 1)
   else mret tt) ;;
  mret b.

Definition bwrite (b : nat) : K unit :=
  h ← holdingsleep (SLBuf b);
  if negb h then panic "bwrite" else
  n ← bget_field b b_blockno;
  platform_disk_write n b.

(** Unlinking [b] and linking it in behind the head. *)
Definition to_front (b : nat) : K unit :=
  bf ← gets (fun s => buf_of s b);
  bset (b_next bf) (set_b_prev (b_prev bf)) ;;
  bf ← gets (fun s => buf_of s b);
  bset (b_prev bf) (set_b_next (b_next bf)) ;;
  n ← bget_field NBUF b_next;
  bset b (set_b_next n) ;;
  bset b (set_b_prev NBUF) ;;
  n ← bget_field NBUF b_next;
  bset n (set_b_prev b) ;;
  bset NBUF (set_b_next b).

Definition brelse (b : nat) : K unit :=
  h ← holdingsleep (SLBuf b);
  if negb h then panic "brelse" else
  releasesleep (SLBuf b) ;;
  acquire LBcache ;;
  bset b (fun bf => set_b_refcnt (u32 (b_refcnt bf - 1)) bf) ;;
  r ← bget_field b b_refcnt;
  (if r =? 0 then to_front b else mret tt) ;;
  release LBcache.

Definition bpin (b : nat) : K unit :=
  acquire LBcache ;;
  bset b (fun bf => set_b_refcnt (u32 (b_refcnt bf + 1)) bf) ;;
  release LBcache.

Definition bunpin (b : nat) : K unit :=
  acquire LBcache ;;
  bset b (fun bf => set_b_refcnt (u32 (b_refcnt bf - 1)) bf) ;;
  release LBcache.
End Bio.
