(* ===== verification/Log.v ===== *)
(** * The write-ahead log (kernel/log.c) *)
From S2P Require Import Prelude Memory Machine Platform Sv32 Spinlock Printf Kalloc Vm Proc Sleeplock Bio.
From stdpp Require Import gmap strings countable prelude.

Open Scope Z_scope.

Notation lget f := (gets (fun s => f (log s))) (only parsing).
Definition lset (f : logstate -> logstate) : K unit := modify (upd_log f).

(** [log.lh.block[i]]. *)
Definition lh_at (l : logstate) (i : nat) : Z := at_ (lh_block l) i.

(** The words of a log header in a block: [n], then the block numbers. *)
Definition hd_n (data : list Z) : Z := s32 (u32_at data 0).
Definition hd_block (data : list Z) (i : nat) : Z := s32 (u32_at data (4 + 4 * i)).
(** [memmove]d or assigned into the bytes of a buffer. *)
Definition put_u32 (data : list Z) (off : nat) (v : Z) : list Z := splice data off (bytes_of_u32 v).
Lemma length_put_u32 d o v : length (put_u32 d o v) = length d.
Proof. apply length_splice. Qed.

Section Log.
Context {L : Layout} {W : World} {D : DiskDriver}.

Definition install_trans_turn (recovering : bool) (tail : nat) : K unit :=
  l ← gets (fun s => log s);
  lbuf ← bread (log_dev l) (u32 (log_start l + Z.of_nat tail + 1));
  l ← gets (fun s => log s);
  dbuf ← bread (log_dev l) (u32 (lh_at l tail));
  data ← bget_field lbuf b_data;
  bset dbuf (set_b_data data) ;;
  bwrite dbuf ;;
  (if negb recovering then bunpin dbuf else mret tt) ;;
  brelse lbuf ;;
  brelse dbuf.
(** [lh.n] does not change while the loop runs. *)
Definition install_trans (recovering : bool) : K unit :=
  n ← lget lh_n;
  for_range (Z.to_nat n) 0 (install_trans_turn recovering).

(** The loop of [read_head] does not look at LOGSIZE: with more entries it
    stores behind [log.lh.block], which C leaves undefined.  The model stops
    there. *)
Definition read_head : K unit :=
  l ← gets (fun s => log s);
  buf ← bread (log_dev l) (u32 (log_start l));
  data ← bget_field buf b_data;
  if LOGSIZE <? hd_n data then hang else
  lset (set_lh_n (hd_n data)) ;;
  for_range (Z.to_nat (hd_n data)) 0 (fun i =>
    lset (fun l => set_lh_block (<[i := hd_block data i]> (lh_block l)) l)) ;;
  brelse buf.

Definition write_head : K unit :=
  l ← gets (fun s => log s);
  buf ← bread (log_dev l) (u32 (log_start l));
  l ← gets (fun s => log s);
  bset buf (fun b => set_b_data (put_u32 (b_data b) 0 (u32 (lh_n l))) b) ;;
  for_range (Z.to_nat (lh_n l)) 0 (fun i =>
    bset buf (fun b => set_b_data (put_u32 (b_data b) (4 + 4 * i) (u32 (lh_at l i))) b)) ;;
  bwrite buf ;;
  brelse buf.

Definition recover_from_log : K unit :=
  read_head ;;
  install_trans true ;;
  lset (set_lh_n 0) ;;
  write_head.

Definition initlog (dev : Z) (sb : superblock) : K unit :=
  initlock LLog ;;
  lset (set_log_start (s32 (sb_logstart sb))) ;;
  lset (set_log_size (s32 (sb_nlog sb))) ;;
  lset (set_log_dev dev) ;;
  recover_from_log.

Fixpoint begin_op_wait (fuel : nat) : K unit :=
  l ← gets (fun s => log s);
  if negb (log_committing l =? 0) || (LOGSIZE <? lh_n l + (log_outstanding l + 1) * MAXOPBLOCKS) then
    match fuel with
    | O => hang
    | S fuel' => sleep CLog LLog ;; begin_op_wait fuel'
    end
  else
    lset (fun l => set_log_outstanding (log_outstanding l + 1) l) ;;
    release LLog.
Definition begin_op : K unit :=
  acquire LLog ;;
  begin_op_wait patience.

Definition write_log_turn (tail : nat) : K unit :=
  l ← gets (fun s => log s);
  to ← bread (log_dev l) (u32 (log_start l + Z.of_nat tail + 1));
  l ← gets (fun s => log s);
  from ← bread (log_dev l) (u32 (lh_at l tail));
  data ← bget_field from b_data;
  bset to (set_b_data data) ;;
  bwrite to ;;
  brelse from ;;
  brelse to.
Definition write_log : K unit :=
  n ← lget lh_n;
  for_range (Z.to_nat n) 0 write_log_turn.

Definition commit : K unit :=
  n ← lget lh_n;
  if 0 <? n then
    write_log ;;
    write_head ;;
    install_trans false ;;
    lset (set_lh_n 0) ;;
    write_head
  else mret tt.

Definition end_op : K unit :=
  acquire LLog ;;
  lset (fun l => set_log_outstanding (log_outstanding l - 1) l) ;;
  l ← gets (fun s => log s);
  if negb (log_committing l =? 0) then panic "log.committing" else
  if log_outstanding l =? 0 then
    lset (set_log_committing 1) ;;
    release LLog ;;
    commit ;;
    acquire LLog ;;
    lset (set_log_committing 0) ;;
    wakeup CLog ;;
    release LLog
  else
    wakeup CLog ;;
    release LLog.

(** The search of [log_write]: the first slot below [n] holding [blockno]. *)
Fixpoint log_find (n i : nat) (l : logstate) (blockno : Z) : nat :=
  match n with
  | O => i
  | S n' => if u32 (lh_at l i) =? blockno then i else log_find n' (S i) l blockno
  end.

Definition log_write (b : nat) : K unit :=
  acquire LLog ;;
  l ← gets (fun s => log s);
  if (LOGSIZE <=? lh_n l) || (log_size l - 1 <=? lh_n l) then panic "too big a transaction" else
  if log_outstanding l <? 1 then panic "log_write outside of trans" else
  blockno ← bget_field b b_blockno;
  let i := log_find (Z.to_nat (lh_n l)) 0 l blockno in
  lset (fun l => set_lh_block (<[i := s32 blockno]> (lh_block l)) l) ;;
  (if Z.of_nat i =? lh_n l then
     bpin b ;;
     lset (fun l => set_lh_n (lh_n l + 1) l)
   else mret tt) ;;
  release LLog.
End Log.
