(* ===== verification/Fs.v ===== *)
(** * The file system (kernel/fs.c)

    Blocks, inodes, file contents, directories and path names.  Inode pointers
    are indices in [itable]; structures on disk are byte lists read and
    written at the offsets of kernel/fs.h. *)
From S2P Require Import Prelude Memory Machine Platform Sv32 Spinlock Printf Kalloc Vm Proc Sleeplock Bio Log.
From stdpp Require Import gmap strings countable prelude.

Open Scope Z_scope.

(** ** Layout of the structures of kernel/fs.h *)

Definition put_u16 (data : list Z) (off : nat) (v : Z) : list Z := splice data off (bytes_of_u16 v).
Lemma length_put_u16 d o v : length (put_u16 d o v) = length d.
Proof. apply length_splice. Qed.

(** Block of inode [i], block of the bitmap bit of block [b]. *)
Definition IBLOCK (i : Z) (sb : superblock) : Z := u32 (i / IPB + sb_inodestart sb).
Definition BBLOCK (b : Z) (sb : superblock) : Z := u32 (b / BPB + sb_bmapstart sb).

(** Offset of inode [inum] in its block; a struct dinode has 64 bytes. *)
Definition dinode_off (inum : Z) : nat := Z.to_nat (64 * (inum mod IPB)).

(** The superblock in the bytes of block 1. *)
Definition decode_sb (data : list Z) : superblock :=
  {| sb_magic := u32_at data 0; sb_size := u32_at data 4; sb_nblocks := u32_at data 8;
     sb_ninodes := u32_at data 12; sb_nlog := u32_at data 16; sb_logstart := u32_at data 20;
     sb_inodestart := u32_at data 24; sb_bmapstart := u32_at data 28 |}.

(** [dip->type] and its neighbours, for the dinode at [o] of a block. *)
Definition dip_type (data : list Z) (o : nat) : Z := s16 (u16_at data o).
Definition dip_read (data : list Z) (o : nat) (ip : inode) : inode :=
  set_i_addrs ((fun i => u32_at data (o + 12 + 4 * i)) <$> seq 0 13)
  (set_i_size (u32_at data (o + 8))
  (set_i_nlink (s16 (u16_at data (o + 6)))
  (set_i_minor (s16 (u16_at data (o + 4)))
  (set_i_major (s16 (u16_at data (o + 2)))
  (set_i_type (s16 (u16_at data o)) ip))))).
Definition dip_write (ip : inode) (data : list Z) (o : nat) : list Z :=
  let data := put_u16 data o (u16 (i_type ip)) in
  let data := put_u16 data (o + 2) (u16 (i_major ip)) in
  let data := put_u16 data (o + 4) (u16 (i_minor ip)) in
  let data := put_u16 data (o + 6) (u16 (i_nlink ip)) in
  let data := put_u32 data (o + 8) (i_size ip) in
  splice data (o + 12) (mjoin (bytes_of_u32 <$> i_addrs ip)).
Lemma length_dip_write ip d o : length (dip_write ip d o) = length d.
Proof. unfold dip_write. by rewrite length_splice, length_put_u32, !length_put_u16. Qed.

Definition ip_of (s : kstate) (i : nat) : inode := default blank_inode (itable s !! i).
Notation iget_field i f := (gets (fun s => f (ip_of s i))) (only parsing).
Definition iset (i : nat) (f : inode -> inode) : K unit := modify (upd_inode i f).

(** ** Path elements *)

(** The path after its leading slashes. *)
Fixpoint skip_slashes (path : list Z) : list Z :=
  match path with
  | 47 :: path' => skip_slashes path'
  | _ => path
  end.
(** The element at the start of [path], and the rest. *)
Fixpoint take_elem (path : list Z) : list Z * list Z :=
  match path with
  | [] => ([], [])
  | c :: path' =>
    if c =? 47 then ([], path) else let '(e, rest) := take_elem path' in (c :: e, rest)
  end.

(** [skipelem(path, name)]; a path is the list of its bytes before the NUL. *)
Definition skipelem (path name : list Z) : option (list Z * list Z) :=
  let path := skip_slashes path in
  match path with
  | [] => None
  | _ =>
    let '(e, path) := take_elem path in
    let name :=
      if DIRSIZ <=? Z.of_nat (length e) then splice name 0 (take (Z.to_nat DIRSIZ) e)
      else splice (splice name 0 e) (length e) [0] in
    Some (skip_slashes path, name)
  end.

Definition namecmp (s t : list Z) : Z := strncmp s t DIRSIZ.

Section Fs.
Context {L : Layout} {W : World} {D : DiskDriver} {Ser : Serial}.

(** ** Superblock and blocks *)

Definition readsb (dev : Z) : K unit :=
  bp ← bread dev 1;
  data ← bget_field bp b_data;
  modify (set_sblk (decode_sb data)) ;;
  brelse bp.

Definition fsinit (dev : Z) : K unit :=
  readsb dev ;;
  sb ← gets (fun s => sblk s);
  if negb (sb_magic sb =? FSMAGIC) then panic "invalid file system" else
  initlog dev sb.

Definition bzero (dev bno : Z) : K unit :=
  bp ← bread dev bno;
  bset bp (set_b_data (replicate (Z.to_nat BSIZE) 0)) ;;
  log_write bp ;;
  brelse bp.

(** Bit [bi] of a bitmap block. *)
Definition bit_clear (data : list Z) (bi : Z) : bool :=
  Z.land (at_ data (Z.to_nat (bi / 8))) (Z.shiftl 1 (bi mod 8)) =? 0.
Definition bit_mark (data : list Z) (bi : Z) : list Z :=
  let k := Z.to_nat (bi / 8) in
  <[k := Z.lor (at_ data k) (Z.shiftl 1 (bi mod 8))]> data.
Definition bit_unmark (data : list Z) (bi : Z) : list Z :=
  let k := Z.to_nat (bi / 8) in
  <[k := Z.ldiff (at_ data k) (Z.shiftl 1 (bi mod 8))]> data.

(** The inner loop of [balloc]: the first clear bit from [bi] on, among [n]. *)
Fixpoint balloc_scan (n : nat) (data : list Z) (b bi size : Z) : option Z :=
  match n with
  | O => None
  | S n' =>
    if b + bi <? size then
      if bit_clear data bi then Some bi else balloc_scan n' data b (bi + 1) size
    else None
  end.
(** The outer loop, from block [b] on. *)
Fixpoint balloc_loop (fuel : nat) (dev b : Z) : K Z :=
  sb ← gets (fun s => sblk s);
  if b <? sb_size sb then
    match fuel with
    | O => hang
    | S fuel' =>
      bp ← bread dev (BBLOCK b sb);
      data ← bget_field bp b_data;
      match balloc_scan (Z.to_nat BPB) data b 0 (sb_size sb) with
      | Some bi =>
        bset bp (set_b_data (bit_mark data bi)) ;;
        log_write bp ;;
        brelse bp ;;
        bzero dev (b + bi) ;;
        mret (b + bi)
      | None =>
        brelse bp ;;
        balloc_loop fuel' dev (b + BPB)
      end
    end
  else
    printf (String.append "balloc: out of blocks" newline) [] ;;
    mret 0.
Definition balloc (dev : Z) : K Z :=
  sb ← gets (fun s => sblk s);
  balloc_loop (Z.to_nat (sb_size sb / BPB + 1)) dev 0.

Definition bfree (dev b : Z) : K unit :=
  sb ← gets (fun s => sblk s);
  bp ← bread dev (BBLOCK b sb);
  let bi := b mod BPB in
  data ← bget_field bp b_data;
  if bit_clear data bi then panic "freeing free block" else
  bset bp (set_b_data (bit_unmark data bi)) ;;
  log_write bp ;;
  brelse bp.

(** ** Inodes *)

Definition iinit : K unit :=
  initlock LItable ;;
  for_range NINODE 0 (fun i => initsleeplock (SLInode i)).

(** The search of [iget] over [n] entries from [i] on: the entry of the inode,
    or the first free one. *)
Fixpoint iget_scan (n i : nat) (empty : option nat) (dev inum : Z) : K (nat + option nat) :=
  match n with
  | O => mret (inr empty)
  | S n' =>
    ip ← gets (fun s => ip_of s i);
    if (0 <? i_ref ip) && (i_dev ip =? dev) && (i_inum ip =? inum) then mret (inl i) else
    let empty := match empty with
                 | None => if i_ref ip =? 0 then Some i else None
                 | Some _ => empty
                 end in
    iget_scan n' (S i) empty dev inum
  end.
Definition iget (dev inum : Z) : K nat :=
  acquire LItable ;;
  r ← iget_scan NINODE 0 None dev inum;
  match r with
  | inl i =>
    iset i (fun ip => set_i_ref (i_ref ip + 1) ip) ;;
    release LItable ;;
    mret i
  | inr None => panic "iget: no inodes"
  | inr (Some i) =>
    iset i (set_i_dev dev) ;;
    iset i (set_i_inum inum) ;;
    iset i (set_i_ref 1) ;;
    iset i (set_i_valid 0) ;;
    release LItable ;;
    mret i
  end.

Fixpoint ialloc_loop (n : nat) (dev inum type : Z) : K (option nat) :=
  match n with
  | O =>
    printf (String.append "ialloc: no inodes" newline) [] ;;
    mret None
  | S n' =>
    sb ← gets (fun s => sblk s);
    bp ← bread dev (IBLOCK inum sb);
    data ← bget_field bp b_data;
    let o := dinode_off inum in
    if dip_type data o =? 0 then
      bset bp (set_b_data (put_u16 (splice data o (replicate 64 0)) o (u16 type))) ;;
      log_write bp ;;
      brelse bp ;;
      i ← iget dev inum;
      mret (Some i)
    else
      brelse bp ;;
      ialloc_loop n' dev (inum + 1) type
  end.
Definition ialloc (dev type : Z) : K (option nat) :=
  sb ← gets (fun s => sblk s);
  ialloc_loop (Z.to_nat (sb_ninodes sb - 1)) dev 1 type.

Definition iupdate (i : nat) : K unit :=
  sb ← gets (fun s => sblk s);
  ip ← gets (fun s => ip_of s i);
  bp ← bread (i_dev ip) (IBLOCK (i_inum ip) sb);
  ip ← gets (fun s => ip_of s i);
  bset bp (fun b => set_b_data (dip_write ip (b_data b) (dinode_off (i_inum ip))) b) ;;
  log_write bp ;;
  brelse bp.

Definition idup (i : nat) : K nat :=
  acquire LItable ;;
  iset i (fun ip => set_i_ref (i_ref ip + 1) ip) ;;
  release LItable ;;
  mret i.

Definition ilock (ip : option nat) : K unit :=
  match ip with
  | None => panic "ilock"
  | Some i =>
    ref ← iget_field i i_ref;
    if ref <? 1 then panic "ilock" else
    acquiresleep (SLInode i) ;;
    valid ← iget_field i i_valid;
    if valid =? 0 then
      sb ← gets (fun s => sblk s);
      ip ← gets (fun s => ip_of s i);
      bp ← bread (i_dev ip) (IBLOCK (i_inum ip) sb);
      data ← bget_field bp b_data;
      iset i (fun ip => dip_read data (dinode_off (i_inum ip)) ip) ;;
      brelse bp ;;
      iset i (set_i_valid 1) ;;
      type ← iget_field i i_type;
      if type =? 0 then panic "ilock: no type" else mret tt
    else mret tt
  end.

Definition iunlock (ip : option nat) : K unit :=
  match ip with
  | None => panic "iunlock"
  | Some i =>
    h ← holdingsleep (SLInode i);
    if negb h then panic "iunlock" else
    ref ← iget_field i i_ref;
    if ref <? 1 then panic "iunlock" else
    releasesleep (SLInode i)
  end.

(** ** Contents *)

Definition bmap (i : nat) (bn : Z) : K Z :=
  ip ← gets (fun s => ip_of s i);
  if bn <? NDIRECT then
    let addr := at_ (i_addrs ip) (Z.to_nat bn) in
    if addr =? 0 then
      addr ← balloc (i_dev ip);
      if addr =? 0 then mret 0 else
      iset i (fun ip => set_i_addrs (<[Z.to_nat bn := addr]> (i_addrs ip)) ip) ;;
      mret addr
    else mret addr
  else
    let bn := bn - NDIRECT in
    if bn <? NINDIRECT then
      let addr := at_ (i_addrs ip) (Z.to_nat NDIRECT) in
      addr ← (if addr =? 0 then
                addr ← balloc (i_dev ip);
                if addr =? 0 then mret 0 else
                iset i (fun ip => set_i_addrs (<[Z.to_nat NDIRECT := addr]> (i_addrs ip)) ip) ;;
                mret addr
              else mret addr);
      if addr =? 0 then mret 0 else
      bp ← bread (i_dev ip) addr;
      data ← bget_field bp b_data;
      let addr := u32_at data (Z.to_nat (4 * bn)) in
      addr ← (if addr =? 0 then
                addr ← balloc (i_dev ip);
                (if negb (addr =? 0) then
                   bset bp (fun b => set_b_data (put_u32 (b_data b) (Z.to_nat (4 * bn)) addr) b) ;;
                   log_write bp
                 else mret tt) ;;
                mret addr
              else mret addr);
      brelse bp ;;
      mret addr
    else panic "bmap: out of range".

Definition itrunc (i : nat) : K unit :=
  for_range (Z.to_nat NDIRECT) 0 (fun k =>
    ip ← gets (fun s => ip_of s i);
    if negb (at_ (i_addrs ip) k =? 0) then
      bfree (i_dev ip) (at_ (i_addrs ip) k) ;;
      iset i (fun ip => set_i_addrs (<[k := 0]> (i_addrs ip)) ip)
    else mret tt) ;;
  ip ← gets (fun s => ip_of s i);
  let ind := at_ (i_addrs ip) (Z.to_nat NDIRECT) in
  (if negb (ind =? 0) then
     bp ← bread (i_dev ip) ind;
     for_range (Z.to_nat NINDIRECT) 0 (fun j =>
       data ← bget_field bp b_data;
       if negb (u32_at data (4 * j) =? 0) then bfree (i_dev ip) (u32_at data (4 * j))
       else mret tt) ;;
     brelse bp ;;
     bfree (i_dev ip) ind ;;
     iset i (fun ip => set_i_addrs (<[Z.to_nat NDIRECT := 0]> (i_addrs ip)) ip)
   else mret tt) ;;
  iset i (set_i_size 0) ;;
  iupdate i.

Definition iput (i : nat) : K unit :=
  acquire LItable ;;
  ip ← gets (fun s => ip_of s i);
  (if (i_ref ip =? 1) && negb (i_valid ip =? 0) && (i_nlink ip =? 0) then
     acquiresleep (SLInode i) ;;
     release LItable ;;
     itrunc i ;;
     iset i (set_i_type 0) ;;
     iupdate i ;;
     iset i (set_i_valid 0) ;;
     releasesleep (SLInode i) ;;
     acquire LItable
   else mret tt) ;;
  iset i (fun ip => set_i_ref (i_ref ip - 1) ip) ;;
  release LItable.

Definition iunlockput (i : nat) : K unit :=
  iunlock (Some i) ;;
  iput i.

(** The bytes of the struct stat of an inode. *)
Definition stati (i : nat) : K (list Z) :=
  ip ← gets (fun s => ip_of s i);
  mret (bytes_of_u32 (i_dev ip) ++ bytes_of_u32 (i_inum ip) ++ bytes_of_u16 (u16 (i_type ip)) ++
        bytes_of_u16 (u16 (i_nlink ip)) ++ bytes_of_u32 (i_size ip)).

Fixpoint readi_loop (fuel : nat) (i : nat) (user_dst : bool) (dst off n tot : Z) : K Z :=
  if tot <? n then
    match fuel with
    | O => hang
    | S fuel' =>
      addr ← bmap i (off / BSIZE);
      if addr =? 0 then mret tot else
      dev ← iget_field i i_dev;
      bp ← bread dev addr;
      let m := Z.min (n - tot) (BSIZE - off mod BSIZE) in
      data ← bget_field bp b_data;
      r ← either_copyout user_dst dst (drop (Z.to_nat (off mod BSIZE)) data) m;
      if r =? -1 then
        brelse bp ;;
        mret (-1)
      else
        brelse bp ;;
        readi_loop fuel' i user_dst (u32 (dst + m)) (off + m) n (tot + m)
    end
  else mret tot.
Definition readi (i : nat) (user_dst : bool) (dst off n : Z) : K Z :=
  size ← iget_field i i_size;
  if (size <? off) || (u32 (off + n) <? off) then mret 0 else
  let n := if size <? off + n then size - off else n in
  readi_loop (Z.to_nat (n / BSIZE + 2)) i user_dst dst off n 0.

(** The loop of [writei]; it returns [tot] and [off]. *)
Fixpoint writei_loop (fuel : nat) (i : nat) (user_src : bool) (src off n tot : Z) : K (Z * Z) :=
  if tot <? n then
    match fuel with
    | O => hang
    | S fuel' =>
      addr ← bmap i (off / BSIZE);
      if addr =? 0 then mret (tot, off) else
      dev ← iget_field i i_dev;
      bp ← bread dev addr;
      let m := Z.min (n - tot) (BSIZE - off mod BSIZE) in
      r ← either_copyin user_src src m;
      bset bp (fun b => set_b_data (splice (b_data b) (Z.to_nat (off mod BSIZE)) r.2) b) ;;
      if (r.1 : Z) =? -1 then
        brelse bp ;;
        mret (tot, off)
      else
        log_write bp ;;
        brelse bp ;;
        writei_loop fuel' i user_src (u32 (src + m)) (off + m) n (tot + m)
    end
  else mret (tot, off).
Definition writei (i : nat) (user_src : bool) (src off n : Z) : K Z :=
  size ← iget_field i i_size;
  if (size <? off) || (u32 (off + n) <? off) then mret (-1) else
  if MAXFILE * BSIZE <? off + n then mret (-1) else
  r ← writei_loop (Z.to_nat (n / BSIZE + 2)) i user_src src off n 0;
  size ← iget_field i i_size;
  (if size <? (r.2 : Z) then iset i (set_i_size r.2) else mret tt) ;;
  iupdate i ;;
  mret (r.1 : Z).

(** ** Directories; the local [de] is at [frame] *)

Definition DIRENT : Z := 16.
Definition de_inum : K Z := gets (fun s => load16 (mem s) frame).
Definition de_name : K (list Z) := gets (fun s => load_bytes (mem s) (frame + 2) (Z.to_nat DIRSIZ)).

(** The entry found and its offset, what [*poff] is set to. *)
Fixpoint dirlookup_loop (fuel : nat) (dp : nat) (name : list Z) (off : Z) : K (option (nat * Z)) :=
  size ← iget_field dp i_size;
  if off <? size then
    match fuel with
    | O => hang
    | S fuel' =>
      r ← readi dp false frame off DIRENT;
      if negb (r =? DIRENT) then panic "dirlookup read" else
      inum ← de_inum;
      if inum =? 0 then dirlookup_loop fuel' dp name (off + DIRENT) else
      nm ← de_name;
      if namecmp name nm =? 0 then
        dev ← iget_field dp i_dev;
        ip ← iget dev inum;
        mret (Some (ip, off))
      else dirlookup_loop fuel' dp name (off + DIRENT)
    end
  else mret None.
Definition dirlookup (dp : nat) (name : list Z) : K (option (nat * Z)) :=
  ip ← gets (fun s => ip_of s dp);
  if negb (i_type ip =? T_DIR) then panic "dirlookup not DIR" else
  dirlookup_loop (Z.to_nat (i_size ip / DIRENT + 1)) dp name 0.

(** The offset of the first free entry, or the size. *)
Fixpoint dirlink_find (fuel : nat) (dp : nat) (off : Z) : K Z :=
  size ← iget_field dp i_size;
  if off <? size then
    match fuel with
    | O => hang
    | S fuel' =>
      r ← readi dp false frame off DIRENT;
      if negb (r =? DIRENT) then panic "dirlink read" else
      inum ← de_inum;
      if inum =? 0 then mret off else dirlink_find fuel' dp (off + DIRENT)
    end
  else mret off.
Definition dirlink (dp : nat) (name : list Z) (inum : Z) : K Z :=
  r ← dirlookup dp name;
  match r with
  | Some (ip, _) =>
    iput ip ;;
    mret (-1)
  | None =>
    size ← iget_field dp i_size;
    off ← dirlink_find (Z.to_nat (size / DIRENT + 1)) dp 0;
    nm ← de_name;
    modify (fun s => set_mem (store_bytes (mem s) (frame + 2) (strncpy nm name DIRSIZ)) s) ;;
    modify (fun s => set_mem (store_bytes (mem s) frame (bytes_of_u16 (u16 inum))) s) ;;
    r ← writei dp false frame off DIRENT;
    mret (if negb (r =? DIRENT) then -1 else 0)
  end.

(** ** Paths *)

(** The loop of [namex] at inode [ip]; it returns the inode, if any, and what
    is left in [name]. *)
Fixpoint namex_loop (fuel : nat) (ip : nat) (path : list Z) (nameiparent : bool) (name : list Z)
    : K (option nat * list Z) :=
  match skipelem path name with
  | None =>
    if nameiparent then
      iput ip ;;
      mret (None, name)
    else mret (Some ip, name)
  | Some (path, name) =>
    match fuel with
    | O => hang
    | S fuel' =>
      ilock (Some ip) ;;
      type ← iget_field ip i_type;
      if negb (type =? T_DIR) then
        iunlockput ip ;;
        mret (None, name)
      else if nameiparent && bool_decide (path = []) then
        iunlock (Some ip) ;;
        mret (Some ip, name)
      else
        next ← dirlookup ip name;
        match next with
        | None =>
          iunlockput ip ;;
          mret (None, name)
        | Some (next, _) =>
          iunlockput ip ;;
          namex_loop fuel' next path nameiparent name
        end
    end
  end.
Definition namex (path : list Z) (nameiparent : bool) (name : list Z) : K (option nat * list Z) :=
  ip ← (if at_ path 0 =? 47 then iget ROOTDEV ROOTINO
        else
          i ← curproc;
          cwd ← pget i p_cwd;
          match cwd with Some ip => idup ip | None => panic "kerneltrap" end);
  namex_loop (S (length path)) ip path nameiparent name.

Definition namei (path : list Z) : K (option nat) :=
  r ← namex path false (replicate (Z.to_nat DIRSIZ) 0);
  mret (r.1 : option nat).

Definition nameiparent (path name : list Z) : K (option nat * list Z) := namex path true name.
End Fs.
