(* ===== verification/Console.v ===== *)
(** * The console (kernel/console.c)

    Line-edited input through [cons.buf] with the read, write and edit indices
    [r], [w], [e], and the [read]/[write] entries of the console device. *)
From S2P Require Import Prelude Memory Machine Platform Sv32 Spinlock Printf Kalloc Vm Proc.
From stdpp Require Import gmap strings countable prelude.

Open Scope Z_scope.

Definition INPUT_BUF_SIZE : Z := 128.

(** [C('D')] and the like. *)
Definition ctrl (c : Z) : Z := c - 64.
Definition CTRL_P : Z := ctrl 80.
Definition CTRL_U : Z := ctrl 85.
Definition CTRL_H : Z := ctrl 72.
Definition CTRL_D : Z := ctrl 68.

(** [cons.buf[i % INPUT_BUF_SIZE]]. *)
Definition cons_at (c : console) (i : Z) : Z := at_ (cons_buf c) (Z.to_nat (i mod INPUT_BUF_SIZE)).
Definition cons_put (c : console) (i v : Z) : console :=
  set_cons_buf (<[Z.to_nat (i mod INPUT_BUF_SIZE) := u8 v]> (cons_buf c)) c.

Definition cset (f : console -> console) : K unit := modify (fun s => set_kcons (f (kcons s)) s).

Section Console.
Context {L : Layout} {W : World} {Ser : Serial}.

(** The loop of [consolewrite] over the [n] bytes from the [i]-th on. *)
Fixpoint consolewrite_loop (n : nat) (user_src : bool) (src i : Z) : K Z :=
  match n with
  | O => mret i
  | S n' =>
    r ← either_copyin user_src (u32 (src + i)) 1;
    if (r.1 : Z) =? -1 then mret i else
    platform_uart_putc (at_ r.2 0) ;;
    consolewrite_loop n' user_src src (i + 1)
  end.
Definition consolewrite (user_src : bool) (src n : Z) : K Z :=
  consolewrite_loop (Z.to_nat n) user_src src 0.

(** The inner loop of [consoleread]: [false] when the process was killed. *)
Fixpoint consoleread_wait (fuel : nat) : K bool :=
  c ← gets (fun s => kcons s);
  if cons_r c =? cons_w c then
    i ← curproc;
    k ← killed i;
    if negb (k =? 0) then
      release LCons ;;
      mret false
    else
      match fuel with
      | O => hang
      | S fuel' => sleep CCons LCons ;; consoleread_wait fuel'
      end
  else mret true.

(** The outer loop, with [n] bytes still wanted of [target]; [None] when the
    process was killed, the remaining [n] otherwise. *)
Fixpoint consoleread_loop (n : nat) (user_dst : bool) (dst target : Z) : K (option Z) :=
  match n with
  | O => mret (Some 0)
  | S n' =>
    ok ← consoleread_wait patience;
    if negb ok then mret None else
    c ← gets (fun s => cons_at (kcons s) (cons_r (kcons s)));
    cset (fun k => set_cons_r (u32 (cons_r k + 1)) k) ;;
    if c =? CTRL_D then
      (if Z.of_nat n <? target then cset (fun k => set_cons_r (u32 (cons_r k - 1)) k) else mret tt) ;;
      mret (Some (Z.of_nat n))
    else
      r ← either_copyout user_dst dst [c] 1;
      if r =? -1 then mret (Some (Z.of_nat n)) else
      if c =? 10 then mret (Some (Z.of_nat n'))
      else consoleread_loop n' user_dst (u32 (dst + 1)) target
  end.
Definition consoleread (user_dst : bool) (dst n : Z) : K Z :=
  acquire LCons ;;
  r ← consoleread_loop (Z.to_nat n) user_dst dst (u32 n);
  match r with
  | None => mret (-1)
  | Some rest =>
    release LCons ;;
    mret (s32 (n - (if 0 <? n then rest else n)))
  end.

(** [while(cons.e != cons.w && cons.buf[(cons.e-1) % INPUT_BUF_SIZE] != '\n')] *)
Fixpoint kill_line (fuel : nat) : K unit :=
  c ← gets (fun s => kcons s);
  if (cons_e c =? cons_w c) || (cons_at c (u32 (cons_e c - 1)) =? 10) then mret tt else
  match fuel with
  | O => hang
  | S fuel' =>
    cset (set_cons_e (u32 (cons_e c - 1))) ;;
    consputc BACKSPACE ;;
    kill_line fuel'
  end.

Definition consoleintr (c : Z) : K unit :=
  acquire LCons ;;
  (if c =? CTRL_P then procdump
   else if c =? CTRL_U then kill_line (Z.to_nat INPUT_BUF_SIZE)
   else if (c =? CTRL_H) || (c =? 127) then
     k ← gets (fun s => kcons s);
     if negb (cons_e k =? cons_w k) then
       cset (set_cons_e (u32 (cons_e k - 1))) ;;
       consputc BACKSPACE
     else mret tt
   else
     k ← gets (fun s => kcons s);
     if negb (c =? 0) && (u32 (cons_e k - cons_r k) <? INPUT_BUF_SIZE) then
       let c := if c =? 13 then 10 else c in
       consputc c ;;
       cset (fun k => set_cons_e (u32 (cons_e k + 1)) (cons_put k (cons_e k) c)) ;;
       k ← gets (fun s => kcons s);
       if (c =? 10) || (c =? CTRL_D) || (u32 (cons_e k - cons_r k) =? INPUT_BUF_SIZE) then
         cset (set_cons_w (cons_e k)) ;;
         wakeup CCons
       else mret tt
     else mret tt) ;;
  release LCons.

Definition consoleinit : K unit :=
  initlock LCons ;;
  platform_uart_init ;;
  modify (fun s => set_devsw (<[CONSOLE := ConsoleDev]> (devsw s)) s).
End Console.
