(* ===== verification/File.v ===== *)
(** * Files and pipes (kernel/file.c, kernel/pipe.c)

    The table of open files, and the pipes, whose structures live in pages of
    the page allocator. *)
From S2P Require Import Prelude Memory Machine Platform Sv32 Spinlock Printf Kalloc Vm Proc Sleeplock Bio Log Fs Console.
From stdpp Require Import gmap strings countable prelude.

Open Scope Z_scope.

Definition file_of (s : kstate) (i : nat) : file := default blank_file (ftable s !! i).
Notation fget i f := (gets (fun s => f (file_of s i))) (only parsing).
Definition fset (i : nat) (f : file -> file) : K unit := modify (upd_file i f).

(** ** struct pipe, at an address; a struct spinlock has 12 bytes *)

Definition PIPESIZE : Z := 512.
Definition PI_data : Z := 12.
Definition PI_nread : Z := PI_data + PIPESIZE.
Definition PI_nwrite : Z := PI_nread + 4.
Definition PI_readopen : Z := PI_nwrite + 4.
Definition PI_writeopen : Z := PI_readopen + 4.

Definition pi_get (pi off : Z) : K Z := gets (fun s => load32 (mem s) (pi + off)).
Definition pi_set (pi off v : Z) : K unit := modify (fun s => set_mem (store32 (mem s) (pi + off) v) s).

Section File.
Context {L : Layout} {W : World} {D : DiskDriver} {Ser : Serial}.

(** ** Pipes *)

Definition pipeclose (pi writable : Z) : K unit :=
  acquire (LPipe pi) ;;
  (if negb (writable =? 0) then
     pi_set pi PI_writeopen 0 ;;
     wakeup (CPipeR pi)
   else
     pi_set pi PI_readopen 0 ;;
     wakeup (CPipeW pi)) ;;
  ro ← pi_get pi PI_readopen;
  wo ← pi_get pi PI_writeopen;
  if (ro =? 0) && (wo =? 0) then
    release (LPipe pi) ;;
    kfree pi
  else release (LPipe pi).

(** The loop of [pipewrite]: [None] for the early return. *)
Fixpoint pipewrite_loop (fuel : nat) (pr : nat) (pi addr n i : Z) : K (option Z) :=
  if i <? n then
    match fuel with
    | O => hang
    | S fuel' =>
      ro ← pi_get pi PI_readopen;
      stop ← (if ro =? 0 then mret true else k ← killed pr; mret (negb (k =? 0)));
      if (stop : bool) then
        release (LPipe pi) ;;
        mret None
      else
        nw ← pi_get pi PI_nwrite;
        nr ← pi_get pi PI_nread;
        if nw =? u32 (nr + PIPESIZE) then
          wakeup (CPipeR pi) ;;
          sleep (CPipeW pi) (LPipe pi) ;;
          pipewrite_loop fuel' pr pi addr n i
        else
          pagetable ← pget pr p_pagetable;
          r ← copyin pagetable (u32 (addr + i)) 1;
          if (r.1 : Z) =? -1 then mret (Some i) else
          modify (fun s => set_mem (store8 (mem s) (pi + PI_data + nw mod PIPESIZE) (at_ r.2 0)) s) ;;
          pi_set pi PI_nwrite (u32 (nw + 1)) ;;
          pipewrite_loop fuel' pr pi addr n (i + 1)
    end
  else mret (Some i).
Definition pipewrite (pi addr n : Z) : K Z :=
  pr ← curproc;
  acquire (LPipe pi) ;;
  r ← pipewrite_loop (Z.to_nat n + patience) pr pi addr n 0;
  match r with
  | None => mret (-1)
  | Some i =>
    wakeup (CPipeR pi) ;;
    release (LPipe pi) ;;
    mret i
  end.

(** The waiting loop of [piperead]: [false] for the early return. *)
Fixpoint piperead_wait (fuel : nat) (pr : nat) (pi : Z) : K bool :=
  nr ← pi_get pi PI_nread;
  nw ← pi_get pi PI_nwrite;
  wo ← pi_get pi PI_writeopen;
  if (nr =? nw) && negb (wo =? 0) then
    k ← killed pr;
    if negb (k =? 0) then
      release (LPipe pi) ;;
      mret false
    else
      match fuel with
      | O => hang
      | S fuel' => sleep (CPipeR pi) (LPipe pi) ;; piperead_wait fuel' pr pi
      end
  else mret true.
(** The copying loop, [n] bytes still wanted. *)
Fixpoint piperead_loop (n : nat) (pr : nat) (pi addr i : Z) : K Z :=
  match n with
  | O => mret i
  | S n' =>
    nr ← pi_get pi PI_nread;
    nw ← pi_get pi PI_nwrite;
    if nr =? nw then mret i else
    ch ← gets (fun s => load8 (mem s) (pi + PI_data + nr mod PIPESIZE));
    pi_set pi PI_nread (u32 (nr + 1)) ;;
    pagetable ← pget pr p_pagetable;
    r ← copyout pagetable (u32 (addr + i)) [ch] 1;
    if r =? -1 then mret i else piperead_loop n' pr pi addr (i + 1)
  end.
Definition piperead (pi addr n : Z) : K Z :=
  pr ← curproc;
  acquire (LPipe pi) ;;
  ok ← piperead_wait patience pr pi;
  if negb ok then mret (-1) else
  i ← piperead_loop (Z.to_nat n) pr pi addr 0;
  wakeup (CPipeW pi) ;;
  release (LPipe pi) ;;
  mret i.

(** ** The file table *)

Definition fileinit : K unit := initlock LFtable.

Fixpoint filealloc_loop (n i : nat) : K (option nat) :=
  match n with
  | O =>
    release LFtable ;;
    mret None
  | S n' =>
    ref ← fget i f_ref;
    if ref =? 0 then
      fset i (set_f_ref 1) ;;
      release LFtable ;;
      mret (Some i)
    else filealloc_loop n' (S i)
  end.
Definition filealloc : K (option nat) :=
  acquire LFtable ;;
  filealloc_loop NFILE 0.

Definition filedup (f : nat) : K nat :=
  acquire LFtable ;;
  ref ← fget f f_ref;
  if ref <? 1 then panic "filedup" else
  fset f (fun x => set_f_ref (f_ref x + 1) x) ;;
  release LFtable ;;
  mret f.

(** A file's inode where the code follows the pointer. *)
Definition the_inode (ip : option nat) : K nat :=
  match ip with Some i => mret i | None => panic "kerneltrap" end.

Definition fileclose (f : nat) : K unit :=
  acquire LFtable ;;
  ref ← fget f f_ref;
  if ref <? 1 then panic "fileclose" else
  fset f (fun x => set_f_ref (f_ref x - 1) x) ;;
  ref ← fget f f_ref;
  if 0 <? ref then release LFtable else
  ff ← gets (fun s => file_of s f);
  fset f (set_f_ref 0) ;;
  fset f (set_f_type FD_NONE) ;;
  release LFtable ;;
  match f_type ff with
  | FD_PIPE => pipeclose (f_pipe ff) (f_writable ff)
  | FD_INODE | FD_DEVICE =>
    begin_op ;;
    ip ← the_inode (f_ip ff);
    iput ip ;;
    end_op
  | FD_NONE => mret tt
  end.

Definition filestat (f : nat) (addr : Z) : K Z :=
  p ← curproc;
  ff ← gets (fun s => file_of s f);
  match f_type ff with
  | FD_INODE | FD_DEVICE =>
    ilock (f_ip ff) ;;
    ip ← the_inode (f_ip ff);
    st ← stati ip;
    iunlock (f_ip ff) ;;
    pagetable ← pget p p_pagetable;
    r ← copyout pagetable addr st 16;
    mret (if r <? 0 then -1 else 0)
  | _ => mret (-1)
  end.

(** [devsw[major].read] and [devsw[major].write]. *)
Definition dev_read (d : devfn) (user_dst : bool) (dst n : Z) : K Z :=
  match d with ConsoleDev => consoleread user_dst dst n end.
Definition dev_write (d : devfn) (user_src : bool) (src n : Z) : K Z :=
  match d with ConsoleDev => consolewrite user_src src n end.

Definition fileread (f : nat) (addr n : Z) : K Z :=
  ff ← gets (fun s => file_of s f);
  if f_readable ff =? 0 then mret (-1) else
  match f_type ff with
  | FD_PIPE => piperead (f_pipe ff) addr n
  | FD_DEVICE =>
    if (f_major ff <? 0) || (NDEV <=? f_major ff) then mret (-1) else
    d ← gets (fun s => devsw s !! f_major ff);
    match d with None => mret (-1) | Some d => dev_read d true addr n end
  | FD_INODE =>
    ilock (f_ip ff) ;;
    ip ← the_inode (f_ip ff);
    off ← fget f f_off;
    r ← readi ip true addr off (u32 n);
    (if 0 <? r then fset f (fun x => set_f_off (u32 (f_off x + r)) x) else mret tt) ;;
    iunlock (f_ip ff) ;;
    mret r
  | FD_NONE => panic "fileread"
  end.

(** The largest write of one transaction. *)
Definition filewrite_max : Z := (MAXOPBLOCKS - 1 - 1 - 2) / 2 * BSIZE.

(** The loop of [filewrite]; it returns [i]. *)
Fixpoint filewrite_loop (fuel : nat) (f : nat) (addr n i : Z) : K Z :=
  if i <? n then
    match fuel with
    | O => hang
    | S fuel' =>
      let n1 := if filewrite_max <? n - i then filewrite_max else n - i in
      begin_op ;;
      ip ← fget f f_ip;
      ilock ip ;;
      j ← the_inode ip;
      off ← fget f f_off;
      r ← writei j true (u32 (addr + i)) off n1;
      (if 0 <? r then fset f (fun x => set_f_off (u32 (f_off x + r)) x) else mret tt) ;;
      iunlock ip ;;
      end_op ;;
      if negb (r =? n1) then mret i else filewrite_loop fuel' f addr n (i + r)
    end
  else mret i.

Definition filewrite (f : nat) (addr n : Z) : K Z :=
  ff ← gets (fun s => file_of s f);
  if f_writable ff =? 0 then mret (-1) else
  match f_type ff with
  | FD_PIPE => pipewrite (f_pipe ff) addr n
  | FD_DEVICE =>
    if (f_major ff <? 0) || (NDEV <=? f_major ff) then mret (-1) else
    d ← gets (fun s => devsw s !! f_major ff);
    match d with None => mret (-1) | Some d => dev_write d true addr n end
  | FD_INODE =>
    i ← filewrite_loop (Z.to_nat (n / filewrite_max + 1)) f addr n 0;
    mret (if i =? n then n else -1)
  | FD_NONE => panic "filewrite"
  end.

(** ** pipealloc *)

(** The exits of [pipealloc] at [bad]; [pi] is 0 there. *)
Definition pipealloc_bad (f0 f1 : option nat) : K (option (nat * nat)) :=
  match f0 with Some f => fileclose f | None => mret tt end ;;
  match f1 with Some f => fileclose f | None => mret tt end ;;
  mret None.

Definition pipealloc : K (option (nat * nat)) :=
  f0 ← filealloc;
  match f0 with
  | None => pipealloc_bad None None
  | Some f0 =>
    f1 ← filealloc;
    match f1 with
    | None => pipealloc_bad (Some f0) None
    | Some f1 =>
      pi ← kalloc;
      if pi =? 0 then pipealloc_bad (Some f0) (Some f1) else
      pi_set pi PI_readopen 1 ;;
      pi_set pi PI_writeopen 1 ;;
      pi_set pi PI_nwrite 0 ;;
      pi_set pi PI_nread 0 ;;
      initlock (LPipe pi) ;;
      fset f0 (set_f_type FD_PIPE) ;;
      fset f0 (set_f_readable 1) ;;
      fset f0 (set_f_writable 0) ;;
      fset f0 (set_f_pipe pi) ;;
      fset f1 (set_f_type FD_PIPE) ;;
      fset f1 (set_f_readable 0) ;;
      fset f1 (set_f_writable 1) ;;
      fset f1 (set_f_pipe pi) ;;
      mret (Some (f0, f1))
    end
  end.
End File.
