(* ===== verification/Life.v ===== *)
(** * The life of a process: userinit, fork, exit, wait, forkret (kernel/proc.c)
    and the return to user space (usertrapret of kernel/trap.c) *)
From S2P Require Import Prelude Memory Machine Platform Sv32 Spinlock Printf Kalloc Vm Proc Sleeplock Bio Log Fs Console File.
From stdpp Require Import gmap strings countable prelude.

Open Scope Z_scope.

(** [initcode], user/initcode.S assembled. *)
Definition initcode : list Z :=
  [0x17; 0x05; 0x00; 0x00; 0x13; 0x05; 0x45; 0x02;
   0x97; 0x05; 0x00; 0x00; 0x93; 0x85; 0x35; 0x02;
   0x93; 0x08; 0x70; 0x00; 0x73; 0x00; 0x00; 0x00;
   0x93; 0x08; 0x20; 0x00; 0x73; 0x00; 0x00; 0x00;
   0xef; 0xf0; 0x9f; 0xff; 0x2f; 0x69; 0x6e; 0x69;
   0x74; 0x00; 0x00; 0x24; 0x00; 0x00; 0x00; 0x00;
   0x00; 0x00; 0x00; 0x00].

Section Life.
Context {L : Layout} {W : World} {D : DiskDriver} {Ser : Serial}.

Definition userinit : K unit :=
  p ← allocproc;
  modify (set_initproc p) ;;
  match p with
  | None => panic "kerneltrap"
  | Some i =>
    pagetable ← pget i p_pagetable;
    uvmfirst pagetable initcode (Z.of_nat (length initcode)) ;;
    pset i (set_p_sz PGSIZE) ;;
    tf_set i TF_epc 0 ;;
    tf_set i TF_sp PGSIZE ;;
    pset i (fun p => set_p_name (safestrcpy (p_name p) (chars "initcode") 16) p) ;;
    cwd ← namei (chars "/");
    pset i (set_p_cwd cwd) ;;
    pset i (set_p_state RUNNABLE) ;;
    release (LProc i)
  end.

Definition fork : K Z :=
  p ← curproc;
  np ← allocproc;
  match np with
  | None => mret (-1)
  | Some np =>
    pt ← pget p p_pagetable;
    npt ← pget np p_pagetable;
    sz ← pget p p_sz;
    r ← uvmcopy pt npt sz;
    if r <? 0 then
      freeproc np ;;
      release (LProc np) ;;
      mret (-1)
    else
      pset np (set_p_sz sz) ;;
      tf ← pget p p_trapframe;
      ntf ← pget np p_trapframe;
      modify (fun s =>
        set_mem (store_bytes (mem s) ntf (load_bytes (mem s) tf (Z.to_nat TF_SIZE))) s) ;;
      tf_set np (TF_a 0) 0 ;;
      for_range NOFILE 0 (fun i =>
        ofile ← pget p p_ofile;
        match ofile !! i with
        | Some (Some f) =>
          f ← filedup f;
          pset np (fun q => set_p_ofile (<[i := Some f]> (p_ofile q)) q)
        | _ => mret tt
        end) ;;
      cwd ← pget p p_cwd;
      ip ← the_inode cwd;
      ip ← idup ip;
      pset np (set_p_cwd (Some ip)) ;;
      name ← pget p p_name;
      pset np (fun q => set_p_name (safestrcpy (p_name q) name 16) q) ;;
      pid ← pget np p_pid;
      release (LProc np) ;;
      acquire LWait ;;
      pset np (set_p_parent (Some p)) ;;
      release LWait ;;
      acquire (LProc np) ;;
      pset np (set_p_state RUNNABLE) ;;
      release (LProc np) ;;
      mret pid
  end.

(** [wakeup(initproc)]: the channel is the address of that process. *)
Definition wakeup_proc (p : option nat) : K unit := wakeup_on (CProc <$> p).

Definition reparent (p : nat) : K unit :=
  for_range NPROC 0 (fun pp =>
    parent ← pget pp p_parent;
    if decide (parent = Some p) then
      init ← gets (fun s => initproc s);
      pset pp (set_p_parent init) ;;
      wakeup_proc init
    else mret tt).

Definition exit (status : Z) : K unit :=
  p ← curproc;
  init ← gets (fun s => initproc s);
  if decide (init = Some p) then panic "init exiting" else
  for_range NOFILE 0 (fun fd =>
    ofile ← pget p p_ofile;
    match ofile !! fd with
    | Some (Some f) =>
      fileclose f ;;
      pset p (fun q => set_p_ofile (<[fd := None]> (p_ofile q)) q)
    | _ => mret tt
    end) ;;
  begin_op ;;
  cwd ← pget p p_cwd;
  ip ← the_inode cwd;
  iput ip ;;
  end_op ;;
  pset p (set_p_cwd None) ;;
  acquire LWait ;;
  reparent p ;;
  parent ← pget p p_parent;
  wakeup_proc parent ;;
  acquire (LProc p) ;;
  pset p (set_p_xstate status) ;;
  pset p (set_p_state ZOMBIE) ;;
  release LWait ;;
  sched ;;
  panic "zombie exit".

(** The scan of [wait] over [n] entries from [pp] on: the value to return, or
    whether there are children. *)
Fixpoint wait_scan (n pp : nat) (p : nat) (addr : Z) (havekids : bool) : K (Z + bool) :=
  match n with
  | O => mret (inr havekids)
  | S n' =>
    parent ← pget pp p_parent;
    if decide (parent = Some p) then
      acquire (LProc pp) ;;
      st ← pget pp p_state;
      if decide (st = ZOMBIE) then
        pid ← pget pp p_pid;
        pagetable ← pget p p_pagetable;
        xstate ← pget pp p_xstate;
        r ← (if addr =? 0 then mret 0 else copyout pagetable addr (bytes_of_u32 (u32 xstate)) 4);
        if r <? 0 then
          release (LProc pp) ;;
          release LWait ;;
          mret (inl (-1))
        else
          freeproc pp ;;
          release (LProc pp) ;;
          release LWait ;;
          mret (inl pid)
      else
        release (LProc pp) ;;
        wait_scan n' (S pp) p addr true
    else wait_scan n' (S pp) p addr havekids
  end.
Fixpoint wait_loop (fuel : nat) (p : nat) (addr : Z) : K Z :=
  r ← wait_scan NPROC 0 p addr false;
  match r with
  | inl r => mret r
  | inr havekids =>
    stop ← (if negb havekids then mret true else k ← killed p; mret (negb (k =? 0)));
    if (stop : bool) then
      release LWait ;;
      mret (-1)
    else
      match fuel with
      | O => hang
      | S fuel' => sleep (CProc p) LWait ;; wait_loop fuel' p addr
      end
  end.
Definition wait (addr : Z) : K Z :=
  p ← curproc;
  acquire LWait ;;
  wait_loop patience p addr.

(** ** Return to user space *)

(** The value is the [satp] that [userret] is entered with. *)
Definition usertrapret : K Z :=
  p ← curproc;
  intr_off ;;
  modify (fun s => set_csr (set_stvec (u32 (TRAMPOLINE + (uservec - trampoline))) (csr s)) s) ;;
  ksatp ← gets (fun s => satp (csr s));
  tf_set p TF_kernel_satp ksatp ;;
  kstack ← pget p p_kstack;
  tf_set p TF_kernel_sp (u32 (kstack + PGSIZE)) ;;
  tf_set p TF_kernel_trap usertrap_addr ;;
  hart ← gets (fun s => tp (csr s));
  tf_set p TF_kernel_hartid hart ;;
  modify (fun s => set_csr (set_sstatus
    (Z.lor (Z.ldiff (sstatus (csr s)) SSTATUS_SPP) SSTATUS_SPIE) (csr s)) s) ;;
  epc ← tf_get p TF_epc;
  modify (fun s => set_csr (set_sepc epc (csr s)) s) ;;
  pagetable ← pget p p_pagetable;
  mret (MAKE_SATP pagetable).

Definition forkret : K Z :=
  p ← curproc;
  release (LProc p) ;;
  first ← gets (fun s => fs_first s);
  (if negb (first =? 0) then
     modify (set_fs_first 0) ;;
     fsinit ROOTDEV
   else mret tt) ;;
  usertrapret.
End Life.
