(* ===== verification/Exec.v ===== *)
(** * exec (kernel/exec.c)

    The local [elf] is at [frame], [ph] behind it; [argv] is a list of
    addresses of strings, a 0 ends it. *)
From S2P Require Import Prelude Memory Machine Platform Sv32 Spinlock Printf Kalloc Vm Proc Sleeplock Bio Log Fs Console File.
From stdpp Require Import gmap strings countable prelude.

Open Scope Z_scope.

(** kernel/elf.h *)
Definition ELF_MAGIC : Z := 1179403647.
Definition ELF_PROG_LOAD : Z := 1.
Definition ELFHDR : Z := 52.
Definition PROGHDR : Z := 32.

Definition flags2perm (flags : Z) : Z :=
  let perm := if negb (Z.land flags 1 =? 0) then PTE_X else 0 in
  if negb (Z.land flags 2 =? 0) then Z.lor perm PTE_W else perm.

(** What follows the last slash of a path. *)
Fixpoint last_elem (path last : list Z) : list Z :=
  match path with
  | [] => last
  | c :: path' => last_elem path' (if c =? 47 then path' else last)
  end.

Section Exec.
Context {L : Layout} {W : World} {D : DiskDriver} {Ser : Serial}.

Definition elf_field (off : Z) : K Z := gets (fun s => load32 (mem s) (frame + off)).
Definition elf_phnum : K Z := gets (fun s => load16 (mem s) (frame + 44)).
Definition ph_addr : Z := frame + 64.
Definition ph_field (k : Z) : K Z := gets (fun s => load32 (mem s) (ph_addr + 4 * k)).

Fixpoint loadseg_loop (fuel : nat) (pagetable va : Z) (ip : nat) (offset sz i : Z) : K Z :=
  if i <? sz then
    match fuel with
    | O => hang
    | S fuel' =>
      pa ← walkaddr pagetable (u32 (va + i));
      if pa =? 0 then panic "loadseg: address should exist" else
      let n := if sz - i <? PGSIZE then sz - i else PGSIZE in
      r ← readi ip false pa (u32 (offset + i)) n;
      if negb (r =? n) then mret (-1)
      else loadseg_loop fuel' pagetable va ip offset sz (u32 (i + PGSIZE))
    end
  else mret 0.
Definition loadseg (pagetable va : Z) (ip : nat) (offset sz : Z) : K Z :=
  loadseg_loop (Z.to_nat (sz / PGSIZE + 1)) pagetable va ip offset sz 0.

(** One program header, the size so far being [sz]: the new size, or an
    error, with the size to free. *)
Definition exec_segment (pagetable : Z) (ip : nat) (off sz : Z) : K (Z + Z) :=
  r ← readi ip false ph_addr (u32 off) PROGHDR;
  if negb (r =? PROGHDR) then mret (inr sz) else
  type ← ph_field 0;
  if negb (type =? ELF_PROG_LOAD) then mret (inl sz) else
  poff ← ph_field 1;
  vaddr ← ph_field 2;
  filesz ← ph_field 4;
  memsz ← ph_field 5;
  flags ← ph_field 6;
  if memsz <? filesz then mret (inr sz) else
  if u32 (vaddr + memsz) <? vaddr then mret (inr sz) else
  if negb (vaddr mod PGSIZE =? 0) then mret (inr sz) else
  sz1 ← uvmalloc pagetable sz (u32 (vaddr + memsz)) (flags2perm flags);
  if sz1 =? 0 then mret (inr sz) else
  r ← loadseg pagetable vaddr ip poff filesz;
  mret (if r <? 0 then inr sz1 else inl sz1).

Fixpoint exec_segments (n : nat) (pagetable : Z) (ip : nat) (off sz : Z) : K (Z + Z) :=
  match n with
  | O => mret (inl sz)
  | S n' =>
    r ← exec_segment pagetable ip off sz;
    match r with
    | inl sz => exec_segments n' pagetable ip (s32 (off + PROGHDR)) sz
    | inr sz => mret (inr sz)
    end
  end.

(** The argument strings, from number [argc] on: the stack pointer and the
    pointers pushed, or an error. *)
Fixpoint exec_args (argv : list Z) (pagetable sp stackbase argc : Z) (ustack : list Z)
    : K (option (Z * list Z)) :=
  match argv with
  | [] => mret (Some (sp, ustack))
  | a :: argv' =>
    if a =? 0 then mret (Some (sp, ustack)) else
    if Z.of_nat MAXARG <=? argc then mret None else
    str ← gets (fun s => cstr_at (mem s) a (Z.to_nat PGSIZE));
    let len := Z.of_nat (length str) + 1 in
    let sp := u32 (sp - len) in
    let sp := sp - sp mod 16 in
    if sp <? stackbase then mret None else
    r ← copyout pagetable sp (str ++ [0]) len;
    if r <? 0 then mret None
    else exec_args argv' pagetable sp stackbase (argc + 1) (ustack ++ [sp])
  end.

(** [bad:] *)
Definition exec_bad (pagetable sz : Z) (ip : option nat) : K Z :=
  (if negb (pagetable =? 0) then proc_freepagetable pagetable sz else mret tt) ;;
  match ip with
  | Some i =>
    iunlockput i ;;
    end_op
  | None => mret tt
  end ;;
  mret (-1).

(** From the stack on, the program being loaded at size [sz]. *)
Definition exec_stack (path : list Z) (argv : list Z) (pagetable sz entry : Z) : K Z :=
  p ← curproc;
  oldsz ← pget p p_sz;
  let sz := PGROUNDUP sz in
  sz1 ← uvmalloc pagetable sz (u32 (sz + 2 * PGSIZE)) PTE_W;
  if sz1 =? 0 then exec_bad pagetable sz None else
  let sz := sz1 in
  uvmclear pagetable (u32 (sz - 2 * PGSIZE)) ;;
  let sp := sz in
  let stackbase := u32 (sp - PGSIZE) in
  r ← exec_args argv pagetable sp stackbase 0 [];
  match r with
  | None => exec_bad pagetable sz None
  | Some (sp, ustack) =>
    let argc := Z.of_nat (length ustack) in
    let sp := u32 (sp - (argc + 1) * 4) in
    let sp := sp - sp mod 16 in
    if sp <? stackbase then exec_bad pagetable sz None else
    r ← copyout pagetable sp (mjoin (bytes_of_u32 <$> (ustack ++ [0]))) ((argc + 1) * 4);
    if r <? 0 then exec_bad pagetable sz None else
    tf_set p (TF_a 1) sp ;;
    pset p (fun q => set_p_name (safestrcpy (p_name q) (last_elem path path) 16) q) ;;
    oldpagetable ← pget p p_pagetable;
    pset p (set_p_pagetable pagetable) ;;
    pset p (set_p_sz sz) ;;
    tf_set p TF_epc entry ;;
    tf_set p TF_sp sp ;;
    proc_freepagetable oldpagetable oldsz ;;
    mret argc
  end.

Definition exec (path : list Z) (argv : list Z) : K Z :=
  p ← curproc;
  begin_op ;;
  ip ← namei path;
  match ip with
  | None =>
    end_op ;;
    mret (-1)
  | Some i =>
    ilock (Some i) ;;
    r ← readi i false frame 0 ELFHDR;
    if negb (r =? ELFHDR) then exec_bad 0 0 (Some i) else
    magic ← elf_field 0;
    if negb (magic =? ELF_MAGIC) then exec_bad 0 0 (Some i) else
    pagetable ← proc_pagetable p;
    if pagetable =? 0 then exec_bad 0 0 (Some i) else
    phoff ← elf_field 28;
    phnum ← elf_phnum;
    r ← exec_segments (Z.to_nat phnum) pagetable i (s32 phoff) 0;
    match r with
    | inr sz => exec_bad pagetable sz (Some i)
    | inl sz =>
      iunlockput i ;;
      end_op ;;
      entry ← elf_field 24;
      exec_stack path argv pagetable sz entry
    end
  end.
End Exec.
