(* ===== verification/Syscall.v ===== *)
(** * System call arguments and the system calls (kernel/syscall.c,
    kernel/sysproc.c, kernel/sysfile.c) *)
From S2P Require Import Prelude Memory Machine Platform Sv32 Spinlock Printf Kalloc Vm Proc Sleeplock Bio Log Fs Console File Life Exec.
From stdpp Require Import gmap strings countable prelude.

Open Scope Z_scope.

Section Syscall.
Context {L : Layout} {W : World} {D : DiskDriver} {Ser : Serial}.

(** ** Arguments *)

(** [fetchaddr]: the word at a user address, or [None] for -1. *)
Definition fetchaddr (addr : Z) : K (option Z) :=
  p ← curproc;
  sz ← pget p p_sz;
  if (sz <=? addr) || (sz <? u32 (addr + 4)) then mret None else
  pagetable ← pget p p_pagetable;
  r ← copyin pagetable addr 4;
  mret (if negb ((r.1 : Z) =? 0) then None else Some (u32_at r.2 0)).

(** [fetchstr]: its result and the bytes stored in [buf]. *)
Definition fetchstr (addr max : Z) : K (Z * list Z) :=
  p ← curproc;
  pagetable ← pget p p_pagetable;
  r ← copyinstr pagetable addr max;
  mret (if (r.1 : Z) <? 0 then (-1, r.2) else (Z.of_nat (strlen r.2), r.2)).

Definition argraw (n : Z) : K Z :=
  p ← curproc;
  if (0 <=? n) && (n <=? 5) then tf_get p (TF_a n) else panic "argraw".
Definition argint (n : Z) : K Z := v ← argraw n; mret (s32 v).
Definition argaddr (n : Z) : K Z := argraw n.
Definition argstr (n max : Z) : K (Z * list Z) :=
  addr ← argaddr n;
  fetchstr addr max.

(** ** kernel/sysproc.c *)

Definition sys_exit : K Z :=
  n ← argint 0;
  exit n ;;
  mret 0.
Definition sys_getpid : K Z :=
  p ← curproc;
  pget p p_pid.
Definition sys_fork : K Z := fork.
Definition sys_wait : K Z :=
  p ← argaddr 0;
  wait p.
Definition sys_sbrk : K Z :=
  n ← argint 0;
  p ← curproc;
  addr ← pget p p_sz;
  r ← growproc n;
  mret (if r <? 0 then -1 else addr).

Fixpoint sys_sleep_loop (fuel : nat) (ticks0 n : Z) : K Z :=
  t ← gets (fun s => ticks s);
  if u32 (t - ticks0) <? u32 n then
    p ← curproc;
    k ← killed p;
    if negb (k =? 0) then
      release LTicks ;;
      mret (-1)
    else
      match fuel with
      | O => hang
      | S fuel' => sleep CTicks LTicks ;; sys_sleep_loop fuel' ticks0 n
      end
  else
    release LTicks ;;
    mret 0.
Definition sys_sleep : K Z :=
  n ← argint 0;
  acquire LTicks ;;
  ticks0 ← gets (fun s => ticks s);
  sys_sleep_loop patience ticks0 n.

Definition sys_kill : K Z :=
  pid ← argint 0;
  kill pid.
Definition sys_uptime : K Z :=
  acquire LTicks ;;
  xticks ← gets (fun s => ticks s);
  release LTicks ;;
  mret xticks.

(** ** kernel/sysfile.c *)

(** The descriptor and the file, or [None] for -1. *)
Definition argfd (n : Z) : K (option (Z * nat)) :=
  fd ← argint n;
  if (fd <? 0) || (Z.of_nat NOFILE <=? fd) then mret None else
  p ← curproc;
  ofile ← pget p p_ofile;
  match ofile !! Z.to_nat fd with
  | Some (Some f) => mret (Some (fd, f))
  | _ => mret None
  end.

Fixpoint fdalloc_loop (n fd : nat) (p : nat) (f : nat) : K Z :=
  match n with
  | O => mret (-1)
  | S n' =>
    ofile ← pget p p_ofile;
    match ofile !! fd with
    | Some None =>
      pset p (fun q => set_p_ofile (<[fd := Some f]> (p_ofile q)) q) ;;
      mret (Z.of_nat fd)
    | _ => fdalloc_loop n' (S fd) p f
    end
  end.
Definition fdalloc (f : nat) : K Z :=
  p ← curproc;
  fdalloc_loop NOFILE 0 p f.

Definition sys_dup : K Z :=
  a ← argfd 0;
  match a with
  | None => mret (-1)
  | Some (_, f) =>
    fd ← fdalloc f;
    if fd <? 0 then mret (-1) else
    filedup f ;;
    mret fd
  end.

Definition sys_read : K Z :=
  p ← argaddr 1;
  n ← argint 2;
  a ← argfd 0;
  match a with None => mret (-1) | Some (_, f) => fileread f p n end.

Definition sys_write : K Z :=
  p ← argaddr 1;
  n ← argint 2;
  a ← argfd 0;
  match a with None => mret (-1) | Some (_, f) => filewrite f p n end.

Definition ofile_clear (p : nat) (fd : Z) : K unit :=
  pset p (fun q => set_p_ofile (<[Z.to_nat fd := None]> (p_ofile q)) q).

Definition sys_close : K Z :=
  a ← argfd 0;
  match a with
  | None => mret (-1)
  | Some (fd, f) =>
    p ← curproc;
    ofile_clear p fd ;;
    fileclose f ;;
    mret 0
  end.

Definition sys_fstat : K Z :=
  st ← argaddr 1;
  a ← argfd 0;
  match a with None => mret (-1) | Some (_, f) => filestat f st end.

Definition name0 : list Z := replicate (Z.to_nat DIRSIZ) 0.

(** [bad:] of [sys_link]. *)
Definition sys_link_bad (ip : nat) : K Z :=
  ilock (Some ip) ;;
  iset ip (fun x => set_i_nlink (s16 (i_nlink x - 1)) x) ;;
  iupdate ip ;;
  iunlockput ip ;;
  end_op ;;
  mret (-1).

Definition sys_link : K Z :=
  old ← argstr 0 MAXPATH;
  if (old.1 : Z) <? 0 then mret (-1) else
  new ← argstr 1 MAXPATH;
  if (new.1 : Z) <? 0 then mret (-1) else
  begin_op ;;
  ip ← namei (cstr old.2);
  match ip with
  | None =>
    end_op ;;
    mret (-1)
  | Some ip =>
    ilock (Some ip) ;;
    type ← iget_field ip i_type;
    if type =? T_DIR then
      iunlockput ip ;;
      end_op ;;
      mret (-1)
    else
      iset ip (fun x => set_i_nlink (s16 (i_nlink x + 1)) x) ;;
      iupdate ip ;;
      iunlock (Some ip) ;;
      r ← nameiparent (cstr new.2) name0;
      match (r.1 : option nat) with
      | None => sys_link_bad ip
      | Some dp =>
        ilock (Some dp) ;;
        ddev ← iget_field dp i_dev;
        idev ← iget_field ip i_dev;
        inum ← iget_field ip i_inum;
        failed ← (if negb (ddev =? idev) then mret true
                  else k ← dirlink dp r.2 inum; mret (k <? 0));
        if (failed : bool) then
          iunlockput dp ;;
          sys_link_bad ip
        else
          iunlockput dp ;;
          iput ip ;;
          end_op ;;
          mret 0
      end
  end.

Fixpoint isdirempty_loop (fuel : nat) (dp : nat) (off : Z) : K bool :=
  size ← iget_field dp i_size;
  if off <? size then
    match fuel with
    | O => hang
    | S fuel' =>
      r ← readi dp false frame off DIRENT;
      if negb (r =? DIRENT) then panic "isdirempty: readi" else
      inum ← de_inum;
      if negb (inum =? 0) then mret false else isdirempty_loop fuel' dp (off + DIRENT)
    end
  else mret true.
Definition isdirempty (dp : nat) : K bool :=
  size ← iget_field dp i_size;
  isdirempty_loop (Z.to_nat (size / DIRENT + 1)) dp (2 * DIRENT).

(** [bad:] of [sys_unlink]. *)
Definition sys_unlink_bad (dp : nat) : K Z :=
  iunlockput dp ;;
  end_op ;;
  mret (-1).

Definition sys_unlink : K Z :=
  path ← argstr 0 MAXPATH;
  if (path.1 : Z) <? 0 then mret (-1) else
  begin_op ;;
  r ← nameiparent (cstr path.2) name0;
  match (r.1 : option nat) with
  | None =>
    end_op ;;
    mret (-1)
  | Some dp =>
    ilock (Some dp) ;;
    if (namecmp r.2 (chars ".") =? 0) || (namecmp r.2 (chars "..") =? 0) then sys_unlink_bad dp else
    e ← dirlookup dp r.2;
    match e with
    | None => sys_unlink_bad dp
    | Some (ip, off) =>
      ilock (Some ip) ;;
      nlink ← iget_field ip i_nlink;
      if nlink <? 1 then panic "unlink: nlink < 1" else
      type ← iget_field ip i_type;
      full ← (if type =? T_DIR then em ← isdirempty ip; mret (negb em) else mret false);
      if (full : bool) then
        iunlockput ip ;;
        sys_unlink_bad dp
      else
        modify (fun s => set_mem (memset (mem s) frame 0 DIRENT) s) ;;
        w ← writei dp false frame off DIRENT;
        if negb (w =? DIRENT) then panic "unlink: writei" else
        type ← iget_field ip i_type;
        (if type =? T_DIR then
           iset dp (fun x => set_i_nlink (s16 (i_nlink x - 1)) x) ;;
           iupdate dp
         else mret tt) ;;
        iunlockput dp ;;
        iset ip (fun x => set_i_nlink (s16 (i_nlink x - 1)) x) ;;
        iupdate ip ;;
        iunlockput ip ;;
        end_op ;;
        mret 0
    end
  end.

(** [fail:] of [create]. *)
Definition create_fail (ip dp : nat) : K (option nat) :=
  iset ip (set_i_nlink 0) ;;
  iupdate ip ;;
  iunlockput ip ;;
  iunlockput dp ;;
  mret None.

Definition create (path : list Z) (type major minor : Z) : K (option nat) :=
  r ← nameiparent path name0;
  match (r.1 : option nat) with
  | None => mret None
  | Some dp =>
    ilock (Some dp) ;;
    e ← dirlookup dp r.2;
    match e with
    | Some (ip, _) =>
      iunlockput dp ;;
      ilock (Some ip) ;;
      itype ← iget_field ip i_type;
      if (type =? T_FILE) && ((itype =? T_FILE) || (itype =? T_DEVICE)) then mret (Some ip) else
      iunlockput ip ;;
      mret None
    | None =>
      dev ← iget_field dp i_dev;
      ip ← ialloc dev type;
      match ip with
      | None =>
        iunlockput dp ;;
        mret None
      | Some ip =>
        ilock (Some ip) ;;
        iset ip (set_i_major (s16 major)) ;;
        iset ip (set_i_minor (s16 minor)) ;;
        iset ip (set_i_nlink 1) ;;
        iupdate ip ;;
        inum ← iget_field ip i_inum;
        dinum ← iget_field dp i_inum;
        dots ← (if type =? T_DIR then
                  k ← dirlink ip (chars ".") inum;
                  if k <? 0 then mret false else
                  k ← dirlink ip (chars "..") dinum;
                  mret (negb (k <? 0))
                else mret true);
        if negb dots then create_fail ip dp else
        k ← dirlink dp r.2 inum;
        if k <? 0 then create_fail ip dp else
        (if type =? T_DIR then
           iset dp (fun x => set_i_nlink (s16 (i_nlink x + 1)) x) ;;
           iupdate dp
         else mret tt) ;;
        iunlockput dp ;;
        mret (Some ip)
      end
    end
  end.

(** [sys_open] once the inode is found and locked. *)
Definition sys_open_inode (ip : nat) (omode : Z) : K Z :=
  x ← gets (fun s => ip_of s ip);
  if (i_type x =? T_DEVICE) && ((i_major x <? 0) || (NDEV <=? i_major x)) then
    iunlockput ip ;;
    end_op ;;
    mret (-1)
  else
    f ← filealloc;
    fd ← match f with None => mret (-1) | Some f => fdalloc f end;
    match f with
    | None =>
      iunlockput ip ;;
      end_op ;;
      mret (-1)
    | Some f =>
      if fd <? 0 then
        fileclose f ;;
        iunlockput ip ;;
        end_op ;;
        mret (-1)
      else
        (if i_type x =? T_DEVICE then
           fset f (set_f_type FD_DEVICE) ;;
           fset f (set_f_major (i_major x))
         else
           fset f (set_f_type FD_INODE) ;;
           fset f (set_f_off 0)) ;;
        fset f (set_f_ip (Some ip)) ;;
        fset f (set_f_readable (if Z.land omode O_WRONLY =? 0 then 1 else 0)) ;;
        fset f (set_f_writable
          (if negb (Z.land omode O_WRONLY =? 0) || negb (Z.land omode O_RDWR =? 0) then 1 else 0)) ;;
        (if negb (Z.land omode O_TRUNC =? 0) && (i_type x =? T_FILE) then itrunc ip else mret tt) ;;
        iunlock (Some ip) ;;
        end_op ;;
        mret fd
    end.

Definition sys_open : K Z :=
  omode ← argint 1;
  path ← argstr 0 MAXPATH;
  if (path.1 : Z) <? 0 then mret (-1) else
  begin_op ;;
  if negb (Z.land omode O_CREATE =? 0) then
    ip ← create (cstr path.2) T_FILE 0 0;
    match ip with
    | None =>
      end_op ;;
      mret (-1)
    | Some ip => sys_open_inode ip omode
    end
  else
    ip ← namei (cstr path.2);
    match ip with
    | None =>
      end_op ;;
      mret (-1)
    | Some ip =>
      ilock (Some ip) ;;
      type ← iget_field ip i_type;
      if (type =? T_DIR) && negb (omode =? O_RDONLY) then
        iunlockput ip ;;
        end_op ;;
        mret (-1)
      else sys_open_inode ip omode
    end.

Definition sys_mkdir : K Z :=
  begin_op ;;
  path ← argstr 0 MAXPATH;
  ip ← (if (path.1 : Z) <? 0 then mret None else create (cstr path.2) T_DIR 0 0);
  match ip with
  | None =>
    end_op ;;
    mret (-1)
  | Some ip =>
    iunlockput ip ;;
    end_op ;;
    mret 0
  end.

Definition sys_mknod : K Z :=
  begin_op ;;
  major ← argint 1;
  minor ← argint 2;
  path ← argstr 0 MAXPATH;
  ip ← (if (path.1 : Z) <? 0 then mret None else create (cstr path.2) T_DEVICE (s16 major) (s16 minor));
  match ip with
  | None =>
    end_op ;;
    mret (-1)
  | Some ip =>
    iunlockput ip ;;
    end_op ;;
    mret 0
  end.

Definition sys_chdir : K Z :=
  p ← curproc;
  begin_op ;;
  path ← argstr 0 MAXPATH;
  ip ← (if (path.1 : Z) <? 0 then mret None else namei (cstr path.2));
  match ip with
  | None =>
    end_op ;;
    mret (-1)
  | Some ip =>
    ilock (Some ip) ;;
    type ← iget_field ip i_type;
    if negb (type =? T_DIR) then
      iunlockput ip ;;
      end_op ;;
      mret (-1)
    else
      iunlock (Some ip) ;;
      cwd ← pget p p_cwd;
      cwd ← the_inode cwd;
      iput cwd ;;
      end_op ;;
      pset p (set_p_cwd (Some ip)) ;;
      mret 0
  end.

(** [for(i = 0; i < NELEM(argv) && argv[i] != 0; i++) kfree(argv[i]);] *)
Fixpoint free_argv (argv : list Z) : K unit :=
  match argv with
  | [] => mret tt
  | a :: argv' =>
    if a =? 0 then mret tt else
    kfree a ;;
    free_argv argv'
  end.

(** The loop of [sys_exec] that fetches the arguments, [n] slots being left:
    the pages so far and whether it succeeded. *)
Fixpoint fetch_argv (n : nat) (uargv : Z) (argv : list Z) : K (bool * list Z) :=
  match n with
  | O => mret (false, argv)
  | S n' =>
    uarg ← fetchaddr (u32 (uargv + 4 * Z.of_nat (length argv)));
    match uarg with
    | None => mret (false, argv)
    | Some uarg =>
      if uarg =? 0 then mret (true, argv) else
      page ← kalloc;
      if page =? 0 then mret (false, argv) else
      r ← fetchstr uarg PGSIZE;
      modify (fun s => set_mem (store_bytes (mem s) page r.2) s) ;;
      if (r.1 : Z) <? 0 then mret (false, argv ++ [page])
      else fetch_argv n' uargv (argv ++ [page])
    end
  end.

Definition sys_exec : K Z :=
  uargv ← argaddr 1;
  path ← argstr 0 MAXPATH;
  if (path.1 : Z) <? 0 then mret (-1) else
  r ← fetch_argv MAXARG uargv [];
  if (r.1 : bool) then
    ret ← exec (cstr path.2) r.2;
    free_argv r.2 ;;
    mret ret
  else
    free_argv r.2 ;;
    mret (-1).

Definition sys_pipe : K Z :=
  p ← curproc;
  fdarray ← argaddr 0;
  a ← pipealloc;
  match a with
  | None => mret (-1)
  | Some (rf, wf) =>
    fd0 ← fdalloc rf;
    fd1 ← (if fd0 <? 0 then mret (-1) else fdalloc wf);
    if (fd0 <? 0) || (fd1 <? 0) then
      (if 0 <=? fd0 then ofile_clear p fd0 else mret tt) ;;
      fileclose rf ;;
      fileclose wf ;;
      mret (-1)
    else
      pagetable ← pget p p_pagetable;
      r0 ← copyout pagetable fdarray (bytes_of_u32 fd0) 4;
      r1 ← (if r0 <? 0 then mret (-1) else copyout pagetable (u32 (fdarray + 4)) (bytes_of_u32 fd1) 4);
      if (r0 <? 0) || (r1 <? 0) then
        ofile_clear p fd0 ;;
        ofile_clear p fd1 ;;
        fileclose rf ;;
        fileclose wf ;;
        mret (-1)
      else mret 0
  end.

(** ** The table *)

Definition syscalls (num : Z) : option (K Z) :=
  match num with
  | 1 => Some sys_fork | 2 => Some sys_exit | 3 => Some sys_wait | 4 => Some sys_pipe
  | 5 => Some sys_read | 6 => Some sys_kill | 7 => Some sys_exec | 8 => Some sys_fstat
  | 9 => Some sys_chdir | 10 => Some sys_dup | 11 => Some sys_getpid | 12 => Some sys_sbrk
  | 13 => Some sys_sleep | 14 => Some sys_uptime | 15 => Some sys_open | 16 => Some sys_write
  | 17 => Some sys_mknod | 18 => Some sys_unlink | 19 => Some sys_link | 20 => Some sys_mkdir
  | 21 => Some sys_close
  | _ => None
  end.

Definition syscall : K unit :=
  p ← curproc;
  a7 ← tf_get p (TF_a 7);
  let num := s32 a7 in
  match (if (0 <? num) && (num <? 22) then syscalls num else None) with
  | Some f =>
    r ← f;
    tf_set p (TF_a 0) (u32 r)
  | None =>
    q ← gets (fun s => proc_of s p);
    printf (String.append "%d %s: unknown sys call %d" newline)
      [AInt (p_pid q); AStr (Some (cstr (p_name q))); AInt num] ;;
    tf_set p (TF_a 0) (u32 (-1))
  end.
End Syscall.
