(* ===== verification/Trap.v ===== *)
(** * Traps (kernel/trap.c) *)
From S2P Require Import Prelude Memory Machine Platform Sv32 Spinlock Printf Kalloc Vm Proc Sleeplock Bio Log Fs Console File Life Exec Syscall.
From stdpp Require Import gmap strings countable prelude.

Open Scope Z_scope.

Notation csr_get f := (gets (fun s => f (csr s))) (only parsing).

Section Trap.
Context {L : Layout} {W : World} {D : DiskDriver} {Ser : Serial} {I : IrqChip}.

Definition w_stvec (v : Z) : K unit := modify (fun s => set_csr (set_stvec v (csr s)) s).

Definition trapinit : K unit := initlock LTicks.
Definition trapinithart : K unit := w_stvec kernelvec.

Definition clockintr : K unit :=
  acquire LTicks ;;
  modify (fun s => set_ticks (u32 (ticks s + 1)) s) ;;
  wakeup CTicks ;;
  release LTicks.

Definition devintr : K Z :=
  which_dev ← platform_handle_irq;
  id ← cpuid;
  (if (which_dev =? PLATFORM_INTR_TIMER) && (id =? 0) then clockintr else mret tt) ;;
  mret which_dev.

(** [usertrap]; the value is that of [usertrapret]. *)
Definition usertrap : K Z :=
  st ← csr_get sstatus;
  if negb (Z.land st SSTATUS_SPP =? 0) then panic "usertrap: not from user mode" else
  w_stvec kernelvec ;;
  p ← curproc;
  epc ← csr_get sepc;
  tf_set p TF_epc epc ;;
  cause ← csr_get scause;
  which_dev ←
    (if cause =? 8 then
       k ← killed p;
       (if negb (k =? 0) then exit (-1) else mret tt) ;;
       epc ← tf_get p TF_epc;
       tf_set p TF_epc (u32 (epc + 4)) ;;
       intr_on ;;
       syscall ;;
       mret 0
     else
       which_dev ← devintr;
       if negb (which_dev =? 0) then mret which_dev else
       cause ← csr_get scause;
       pid ← pget p p_pid;
       printf (String.append "usertrap(): unexpected scause %p pid=%d" newline) [AInt cause; AInt pid] ;;
       epc ← csr_get sepc;
       val ← csr_get stval;
       printf (String.append "            sepc=%p stval=%p" newline) [AInt epc; AInt val] ;;
       setkilled p ;;
       mret 0);
  k ← killed p;
  (if negb (k =? 0) then exit (-1) else mret tt) ;;
  (if which_dev =? PLATFORM_INTR_TIMER then yield else mret tt) ;;
  usertrapret.

Definition kerneltrap : K unit :=
  epc ← csr_get sepc;
  st ← csr_get sstatus;
  cause ← csr_get scause;
  if Z.land st SSTATUS_SPP =? 0 then panic "kerneltrap: not from supervisor mode" else
  on ← intr_get;
  if (on : bool) then panic "kerneltrap: interrupts enabled" else
  which_dev ← devintr;
  if which_dev =? 0 then
    printf (String.append "scause %p" newline) [AInt cause] ;;
    e ← csr_get sepc;
    val ← csr_get stval;
    printf (String.append "sepc=%p stval=%p" newline) [AInt e; AInt val] ;;
    panic "kerneltrap"
  else
    (if which_dev =? PLATFORM_INTR_TIMER then
       me ← myproc;
       match me with
       | None => mret tt
       | Some _ =>
         i ← curproc;
         state ← pget i p_state;
         if decide (state = RUNNING) then yield else mret tt
       end
     else mret tt) ;;
    modify (fun s => set_csr (set_sepc epc (csr s)) s) ;;
    modify (fun s => set_csr (set_sstatus st (csr s)) s).
End Trap.
