(* ===== verification/Kvm.v ===== *)
(** * The kernel page table (kernel/vm.c) and the boot sequence (kernel/main.c) *)
From S2P Require Import Prelude Memory Machine Platform Sv32 Spinlock Printf Kalloc Vm Proc Sleeplock Bio Log Fs Console File Life Exec Syscall Trap.
From stdpp Require Import gmap strings countable prelude.

Open Scope Z_scope.

Section Kvm.
Context {L : Layout} {W : World} {D : DiskDriver} {Ser : Serial} {I : IrqChip} {B : BoardMap}.

Definition kvmmake : K Z :=
  kpgtbl ← kalloc;
  modify (fun s => set_mem (memset (mem s) kpgtbl 0 PGSIZE) s) ;;
  platform_kvmmap kpgtbl ;;
  kvmmap kpgtbl KERNBASE KERNBASE (u32 (etext - KERNBASE)) (Z.lor (Z.lor PTE_R PTE_X) PTE_A) ;;
  kvmmap kpgtbl etext etext (u32 (PHYSTOP - etext))
    (Z.lor (Z.lor (Z.lor PTE_R PTE_W) PTE_A) PTE_D) ;;
  kvmmap kpgtbl TRAMPOLINE trampoline PGSIZE (Z.lor (Z.lor PTE_R PTE_X) PTE_A) ;;
  proc_mapstacks kpgtbl ;;
  mret kpgtbl.

Definition kvminit : K unit :=
  kpgtbl ← kvmmake;
  modify (set_kernel_pagetable kpgtbl).

(** The TLB fences order accesses of one hart and have no effect here. *)
Definition kvminithart : K unit :=
  modify (fun s => set_csr (set_satp (MAKE_SATP (kernel_pagetable s)) (csr s)) s).

Definition say (msg : string) : K unit := printf (String.append msg newline) [].

(** [main] on hart 0, up to the call of [scheduler]; on another hart it waits
    for [started], which hart 0 sets. *)
Definition main : K unit :=
  id ← cpuid;
  if id =? 0 then
    consoleinit ;;
    printfinit ;;
    printf newline [] ;;
    say "xv6 kernel is booting" ;;
    printf newline [] ;;
    say "kinit()" ;;
    kinit ;;
    say "kvminit()" ;;
    kvminit ;;
    say "kvminithart()" ;;
    kvminithart ;;
    say "procinit()" ;;
    procinit ;;
    say "trapinit()" ;;
    trapinit ;;
    say "trapinithart()" ;;
    trapinithart ;;
    say "platform_irq_init()" ;;
    platform_irq_init ;;
    say "platform_irq_init_hart()" ;;
    platform_irq_init_hart ;;
    say "binit()" ;;
    binit ;;
    say "iinit()" ;;
    iinit ;;
    say "fileinit()" ;;
    fileinit ;;
    say "disk_init()" ;;
    platform_disk_init ;;
    say "userinit()" ;;
    userinit
  else hang.
(** All of it. *)
Definition main_forever (run : nat -> K unit) : K unit := main ;; scheduler run.
End Kvm.
