(* ===== verification/Qemu.v ===== *)
(** * The QEMU platform (platform/qemu/platform.c)

    The 16550A serial line with its transmit ring, the virtio-mmio block device
    and the interrupts of the QEMU virt board, as instances of the platform
    classes. *)
From S2P Require Import Prelude Memory Machine Platform Sv32 Spinlock Printf Kalloc Vm Proc Console Trap.
From stdpp Require Import gmap strings countable prelude.

Open Scope Z_scope.

Definition QEMU_UART0 : Z := 268435456.
Definition QEMU_UART0_IRQ : Z := 10.
Definition QEMU_VIRTIO0 : Z := 268439552.
Definition QEMU_VIRTIO0_IRQ : Z := 1.
Definition QEMU_PLIC : Z := 201326592.
Definition QEMU_PLIC_SENABLE (hart : Z) : Z := QEMU_PLIC + 8320 + hart * 256.
Definition QEMU_PLIC_SPRIORITY (hart : Z) : Z := QEMU_PLIC + 2101248 + hart * 8192.
Definition QEMU_PLIC_SCLAIM (hart : Z) : Z := QEMU_PLIC + 2101252 + hart * 8192.

(** ** Registers of the serial line *)

Definition UART_RHR : Z := 0.
Definition UART_THR : Z := 0.
Definition UART_IER : Z := 1.
Definition UART_IER_RX_ENABLE : Z := 1.
Definition UART_IER_TX_ENABLE : Z := 2.
Definition UART_FCR : Z := 2.
Definition UART_ISR : Z := 2.
Definition UART_LCR : Z := 3.
Definition UART_LCR_BAUD_LATCH : Z := 128.
Definition UART_LSR : Z := 5.
Definition UART_LSR_RX_READY : Z := 1.
Definition UART_LSR_TX_IDLE : Z := 32.

Definition TX_SIZE : Z := 32.

(** ** virtio.h *)

Definition VIRTIO_MMIO_MAGIC_VALUE : Z := 0.
Definition VIRTIO_MMIO_VERSION : Z := 4.
Definition VIRTIO_MMIO_DEVICE_ID : Z := 8.
Definition VIRTIO_MMIO_VENDOR_ID : Z := 12.
Definition VIRTIO_MMIO_DEVICE_FEATURES : Z := 16.
Definition VIRTIO_MMIO_DRIVER_FEATURES : Z := 32.
Definition VIRTIO_MMIO_QUEUE_SEL : Z := 48.
Definition VIRTIO_MMIO_QUEUE_NUM_MAX : Z := 52.
Definition VIRTIO_MMIO_QUEUE_NUM : Z := 56.
Definition VIRTIO_MMIO_QUEUE_READY : Z := 68.
Definition VIRTIO_MMIO_QUEUE_NOTIFY : Z := 80.
Definition VIRTIO_MMIO_INTERRUPT_STATUS : Z := 96.
Definition VIRTIO_MMIO_INTERRUPT_ACK : Z := 100.
Definition VIRTIO_MMIO_STATUS : Z := 112.
Definition VIRTIO_MMIO_QUEUE_DESC_LOW : Z := 128.
Definition VIRTIO_MMIO_QUEUE_DESC_HIGH : Z := 132.
Definition VIRTIO_MMIO_DRIVER_DESC_LOW : Z := 144.
Definition VIRTIO_MMIO_DRIVER_DESC_HIGH : Z := 148.
Definition VIRTIO_MMIO_DEVICE_DESC_LOW : Z := 160.
Definition VIRTIO_MMIO_DEVICE_DESC_HIGH : Z := 164.

Definition VIRTIO_CONFIG_S_ACKNOWLEDGE : Z := 1.
Definition VIRTIO_CONFIG_S_DRIVER : Z := 2.
Definition VIRTIO_CONFIG_S_DRIVER_OK : Z := 4.
Definition VIRTIO_CONFIG_S_FEATURES_OK : Z := 8.

Definition VIRTIO_BLK_F_RO : Z := 5.
Definition VIRTIO_BLK_F_SCSI : Z := 7.
Definition VIRTIO_BLK_F_CONFIG_WCE : Z := 11.
Definition VIRTIO_BLK_F_MQ : Z := 12.
Definition VIRTIO_F_ANY_LAYOUT : Z := 27.
Definition VIRTIO_RING_F_INDIRECT_DESC : Z := 28.
Definition VIRTIO_RING_F_EVENT_IDX : Z := 29.

Definition NUM : nat := 8.
Definition VRING_DESC_F_NEXT : Z := 1.
Definition VRING_DESC_F_WRITE : Z := 2.
Definition VIRTIO_BLK_T_IN : Z := 0.
Definition VIRTIO_BLK_T_OUT : Z := 1.

(** A store of a half word. *)
Definition store16 (m : gmap Z Z) (a v : Z) : gmap Z Z :=
  store8 (store8 m a (v mod 256)) (a + 1) (v / 256 mod 256).

(** Descriptor [i] of the table at [d] (struct virtq_desc, 16 bytes). *)
Definition desc_set (d : Z) (i : nat) (addr len flags next : Z) (m : gmap Z Z) : gmap Z Z :=
  let a := d + 16 * Z.of_nat i in
  store16 (store16 (store32 (store32 (store32 m a addr) (a + 4) 0) (a + 8) len) (a + 12) flags)
    (a + 14) next.
Definition desc_flags (d : Z) (i : nat) (m : gmap Z Z) : Z := load16 m (d + 16 * Z.of_nat i + 12).
Definition desc_next (d : Z) (i : nat) (m : gmap Z Z) : Z := load16 m (d + 16 * Z.of_nat i + 14).

(** [avail->idx], [avail->ring[i]], [used->idx] and [used->ring[i].id]. *)
Definition avail_idx (a : Z) (m : gmap Z Z) : Z := load16 m (a + 2).
Definition used_idx (a : Z) (m : gmap Z Z) : Z := load16 m (a + 2).
Definition used_id (a i : Z) (m : gmap Z Z) : Z := load32 m (a + 4 + 8 * i).

Section Qemu.
Context {L : Layout} {W : World}.

(** ** Serial line *)

Definition UART_READ (r : Z) : K Z := v ← mmio_load (QEMU_UART0 + r); mret (u8 v).
Definition UART_WRITE (r v : Z) : K unit := mmio_store (QEMU_UART0 + r) (u8 v).

(** The loop of [platform_qemu_uart_start]; each turn takes one byte of the
    ring, so that [tx_w - tx_r] turns empty it. *)
Fixpoint uart_start_loop (fuel : nat) : K unit :=
  w ← gets (fun s => tx_w (plat s));
  r ← gets (fun s => tx_r (plat s));
  if w =? r then
    UART_READ UART_ISR ;;
    mret tt
  else
  lsr ← UART_READ UART_LSR;
  if Z.land lsr UART_LSR_TX_IDLE =? 0 then mret tt else
  c ← gets (fun s => at_ (tx_buf (plat s)) (Z.to_nat (r mod TX_SIZE)));
  modify (upd_plat (set_tx_r (u32 (r + 1)))) ;;
  wakeup CUart ;;
  UART_WRITE UART_THR c ;;
  match fuel with
  | O => hang
  | S fuel' => uart_start_loop fuel'
  end.
Definition platform_qemu_uart_start : K unit :=
  n ← gets (fun s => Z.to_nat (u32 (tx_w (plat s) - tx_r (plat s))));
  uart_start_loop n.

Definition platform_uart_init : K unit :=
  UART_WRITE UART_IER 0 ;;
  UART_WRITE UART_LCR UART_LCR_BAUD_LATCH ;;
  UART_WRITE 0 (Z.land (32000000 / 115200) 255) ;;
  UART_WRITE 1 (Z.shiftr (32000000 / 115200) 8) ;;
  UART_WRITE UART_LCR 0 ;;
  UART_WRITE UART_FCR 7 ;;
  UART_WRITE UART_IER (Z.lor UART_IER_TX_ENABLE UART_IER_RX_ENABLE) ;;
  initlock LUart.

Definition platform_uart_getc : K Z :=
  lsr ← UART_READ UART_LSR;
  if negb (Z.land lsr UART_LSR_RX_READY =? 0) then UART_READ UART_RHR else mret (-1).

(** [while(qemu_uart.tx_w == qemu_uart.tx_r + sizeof(qemu_uart.tx_buf))] *)
Fixpoint uart_putc_wait (fuel : nat) : K unit :=
  d ← gets (fun s => plat s);
  if tx_w d =? u32 (tx_r d + TX_SIZE) then
    match fuel with
    | O => hang
    | S fuel' => sleep CUart LUart ;; uart_putc_wait fuel'
    end
  else mret tt.

Definition platform_uart_putc (c : Z) : K unit :=
  acquire LUart ;;
  p ← gets (fun s => panicked s);
  if negb (p =? 0) then hang else
  uart_putc_wait patience ;;
  modify (upd_plat (fun d =>
    set_tx_w (u32 (tx_w d + 1)) (set_tx_buf (<[Z.to_nat (tx_w d mod TX_SIZE) := u8 c]> (tx_buf d)) d))) ;;
  platform_qemu_uart_start ;;
  release LUart.

(** [while((UART_READ(UART_LSR) & UART_LSR_TX_IDLE) == 0)] *)
Fixpoint uart_idle_wait (fuel : nat) : K unit :=
  lsr ← UART_READ UART_LSR;
  if Z.land lsr UART_LSR_TX_IDLE =? 0 then
    match fuel with
    | O => hang
    | S fuel' => uart_idle_wait fuel'
    end
  else mret tt.

Definition platform_uart_putc_sync (c : Z) : K unit :=
  push_off ;;
  p ← gets (fun s => panicked s);
  if negb (p =? 0) then hang else
  uart_idle_wait patience ;;
  UART_WRITE UART_THR c ;;
  pop_off.

#[export] Instance qemu_serial : Serial := {
  Platform.platform_uart_init := platform_uart_init;
  Platform.platform_uart_putc := platform_uart_putc;
  Platform.platform_uart_putc_sync := platform_uart_putc_sync;
}.

Fixpoint uart_intr_loop (fuel : nat) : K unit :=
  match fuel with
  | O => hang
  | S fuel' =>
    c ← platform_uart_getc;
    if c =? -1 then mret tt else
    consoleintr c ;;
    uart_intr_loop fuel'
  end.
Definition platform_qemu_uart_intr : K unit :=
  uart_intr_loop patience ;;
  acquire LUart ;;
  platform_qemu_uart_start ;;
  release LUart.

(** ** virtio block device *)

Definition VIRTIO_READ (r : Z) : K Z := mmio_load (QEMU_VIRTIO0 + r).
Definition VIRTIO_WRITE (r v : Z) : K unit := mmio_store (QEMU_VIRTIO0 + r) (u32 v).

Fixpoint alloc_desc_loop (n i : nat) : K Z :=
  match n with
  | O => mret (-1)
  | S n' =>
    f ← gets (fun s => at_ (vd_free (plat s)) i);
    if negb (f =? 0) then
      modify (upd_plat (fun d => set_vd_free (<[i := 0]> (vd_free d)) d)) ;;
      mret (Z.of_nat i)
    else alloc_desc_loop n' (S i)
  end.
Definition platform_qemu_alloc_desc : K Z := alloc_desc_loop NUM 0.

Definition platform_qemu_free_desc (i : nat) : K unit :=
  if (NUM <=? i)%nat then panic "platform_qemu_free_desc 1" else
  f ← gets (fun s => at_ (vd_free (plat s)) i);
  if negb (f =? 0) then panic "platform_qemu_free_desc 2" else
  modify (fun s => set_mem (desc_set (vd_desc (plat s)) i 0 0 0 0 (mem s)) s) ;;
  modify (upd_plat (fun d => set_vd_free (<[i := 1]> (vd_free d)) d)) ;;
  wakeup CDiskFree.

(** A chain of more than NUM descriptors comes back to a free one and
    panics. *)
Fixpoint free_chain_loop (fuel i : nat) : K unit :=
  flags ← gets (fun s => desc_flags (vd_desc (plat s)) i (mem s));
  next ← gets (fun s => desc_next (vd_desc (plat s)) i (mem s));
  platform_qemu_free_desc i ;;
  if negb (Z.land flags VRING_DESC_F_NEXT =? 0) then
    match fuel with
    | O => hang
    | S fuel' => free_chain_loop fuel' (Z.to_nat next)
    end
  else mret tt.
Definition platform_qemu_free_chain (i : nat) : K unit := free_chain_loop NUM i.

(** [platform_qemu_alloc3_desc(idx)]: the three indices, or [None] for -1. *)
Definition platform_qemu_alloc3_desc : K (option (nat * nat * nat)) :=
  i0 ← platform_qemu_alloc_desc;
  if i0 <? 0 then mret None else
  i1 ← platform_qemu_alloc_desc;
  if i1 <? 0 then
    platform_qemu_free_desc (Z.to_nat i0) ;;
    mret None
  else
  i2 ← platform_qemu_alloc_desc;
  if i2 <? 0 then
    platform_qemu_free_desc (Z.to_nat i0) ;;
    platform_qemu_free_desc (Z.to_nat i1) ;;
    mret None
  else mret (Some (Z.to_nat i0, Z.to_nat i1, Z.to_nat i2)).

Fixpoint alloc3_wait (fuel : nat) : K (nat * nat * nat) :=
  r ← platform_qemu_alloc3_desc;
  match r with
  | Some idx => mret idx
  | None =>
    match fuel with
    | O => hang
    | S fuel' => sleep CDiskFree LDisk ;; alloc3_wait fuel'
    end
  end.

(** [while(qemu_disk.info[idx[0]].done == 0)] *)
Fixpoint done_wait (fuel i : nat) : K unit :=
  d ← gets (fun s => at_ (vd_done (plat s)) i);
  if d =? 0 then
    match fuel with
    | O => hang
    | S fuel' => sleep (CDiskInfo i) LDisk ;; done_wait fuel' i
    end
  else mret tt.

(** The request header, the three descriptors, the status byte and the entry
    of the available ring. *)
Definition queue_request (blockno : Z) (b : nat) (write : bool) (i0 i1 i2 : nat) : K unit :=
  modify (upd_plat (fun d => set_vd_ops
    (<[i0 := (if write then VIRTIO_BLK_T_OUT else VIRTIO_BLK_T_IN, u32 (blockno * (BSIZE / 512)))]>
      (vd_ops d)) d)) ;;
  modify (fun s => set_mem (desc_set (vd_desc (plat s)) i0 (vd_ops_addr i0) 16 VRING_DESC_F_NEXT
    (Z.of_nat i1) (mem s)) s) ;;
  modify (fun s => set_mem (desc_set (vd_desc (plat s)) i1 (buf_addr b) BSIZE
    (Z.lor (if write then 0 else VRING_DESC_F_WRITE) VRING_DESC_F_NEXT) (Z.of_nat i2) (mem s)) s) ;;
  modify (upd_plat (fun d => set_vd_done (<[i0 := 0]> (vd_done d))
    (set_vd_status (<[i0 := 255]> (vd_status d)) d))) ;;
  modify (fun s => set_mem (desc_set (vd_desc (plat s)) i2 (vd_status_addr i0) 1
    VRING_DESC_F_WRITE 0 (mem s)) s) ;;
  modify (fun s =>
    let a := vd_avail (plat s) in
    set_mem (store16 (mem s) (a + 4 + 2 * (avail_idx a (mem s) mod Z.of_nat NUM)) (Z.of_nat i0)) s) ;;
  modify (fun s =>
    let a := vd_avail (plat s) in
    set_mem (store16 (mem s) (a + 2) (avail_idx a (mem s) + 1)) s).

Definition platform_qemu_disk_rw (blockno : Z) (b : nat) (write : bool) : K unit :=
  acquire LDisk ;;
  idx ← alloc3_wait patience;
  let '(i0, i1, i2) := idx in
  queue_request blockno b write i0 i1 i2 ;;
  VIRTIO_WRITE VIRTIO_MMIO_QUEUE_NOTIFY 0 ;;
  done_wait patience i0 ;;
  platform_qemu_free_chain i0 ;;
  release LDisk ;;
  st ← gets (fun s => at_ (vd_status (plat s)) i0);
  if negb (st =? 0) then panic "platform_qemu_disk_rw status" else mret tt.

Definition platform_disk_init : K unit :=
  initlock LDisk ;;
  magic ← VIRTIO_READ VIRTIO_MMIO_MAGIC_VALUE;
  if negb (magic =? 1953655158) then panic "platform_disk_init: no virtio disk" else
  version ← VIRTIO_READ VIRTIO_MMIO_VERSION;
  if negb (version =? 2) then panic "platform_disk_init: no virtio disk" else
  device ← VIRTIO_READ VIRTIO_MMIO_DEVICE_ID;
  if negb (device =? 2) then panic "platform_disk_init: no virtio disk" else
  vendor ← VIRTIO_READ VIRTIO_MMIO_VENDOR_ID;
  if negb (vendor =? 1431127377) then panic "platform_disk_init: no virtio disk" else
  VIRTIO_WRITE VIRTIO_MMIO_STATUS 0 ;;
  let status := VIRTIO_CONFIG_S_ACKNOWLEDGE in
  VIRTIO_WRITE VIRTIO_MMIO_STATUS status ;;
  let status := Z.lor status VIRTIO_CONFIG_S_DRIVER in
  VIRTIO_WRITE VIRTIO_MMIO_STATUS status ;;
  features ← VIRTIO_READ VIRTIO_MMIO_DEVICE_FEATURES;
  let features := Z.clearbit features VIRTIO_BLK_F_RO in
  let features := Z.clearbit features VIRTIO_BLK_F_SCSI in
  let features := Z.clearbit features VIRTIO_BLK_F_CONFIG_WCE in
  let features := Z.clearbit features VIRTIO_BLK_F_MQ in
  let features := Z.clearbit features VIRTIO_F_ANY_LAYOUT in
  let features := Z.clearbit features VIRTIO_RING_F_EVENT_IDX in
  let features := Z.clearbit features VIRTIO_RING_F_INDIRECT_DESC in
  VIRTIO_WRITE VIRTIO_MMIO_DRIVER_FEATURES features ;;
  let status := Z.lor status VIRTIO_CONFIG_S_FEATURES_OK in
  VIRTIO_WRITE VIRTIO_MMIO_STATUS status ;;
  status ← VIRTIO_READ VIRTIO_MMIO_STATUS;
  if Z.land status VIRTIO_CONFIG_S_FEATURES_OK =? 0 then
    panic "platform_disk_init: FEATURES_OK unset" else
  VIRTIO_WRITE VIRTIO_MMIO_QUEUE_SEL 0 ;;
  ready ← VIRTIO_READ VIRTIO_MMIO_QUEUE_READY;
  if negb (ready =? 0) then panic "platform_disk_init: queue already ready" else
  max ← VIRTIO_READ VIRTIO_MMIO_QUEUE_NUM_MAX;
  if max =? 0 then panic "platform_disk_init: no queue 0" else
  if max <? Z.of_nat NUM then panic "platform_disk_init: short queue" else
  desc ← kalloc;
  modify (upd_plat (set_vd_desc desc)) ;;
  avail ← kalloc;
  modify (upd_plat (set_vd_avail avail)) ;;
  used ← kalloc;
  modify (upd_plat (set_vd_used used)) ;;
  if (desc =? 0) || (avail =? 0) || (used =? 0) then panic "platform_disk_init: kalloc" else
  modify (fun s => set_mem (memset (mem s) desc 0 PGSIZE) s) ;;
  modify (fun s => set_mem (memset (mem s) avail 0 PGSIZE) s) ;;
  modify (fun s => set_mem (memset (mem s) used 0 PGSIZE) s) ;;
  VIRTIO_WRITE VIRTIO_MMIO_QUEUE_NUM (Z.of_nat NUM) ;;
  VIRTIO_WRITE VIRTIO_MMIO_QUEUE_DESC_LOW desc ;;
  VIRTIO_WRITE VIRTIO_MMIO_QUEUE_DESC_HIGH 0 ;;
  VIRTIO_WRITE VIRTIO_MMIO_DRIVER_DESC_LOW avail ;;
  VIRTIO_WRITE VIRTIO_MMIO_DRIVER_DESC_HIGH 0 ;;
  VIRTIO_WRITE VIRTIO_MMIO_DEVICE_DESC_LOW used ;;
  VIRTIO_WRITE VIRTIO_MMIO_DEVICE_DESC_HIGH 0 ;;
  VIRTIO_WRITE VIRTIO_MMIO_QUEUE_READY 1 ;;
  modify (upd_plat (set_vd_free (replicate NUM 1))) ;;
  VIRTIO_WRITE VIRTIO_MMIO_STATUS (Z.lor status VIRTIO_CONFIG_S_DRIVER_OK).

Definition platform_disk_read (blockno : Z) (b : nat) : K unit := platform_qemu_disk_rw blockno b false.
Definition platform_disk_write (blockno : Z) (b : nat) : K unit := platform_qemu_disk_rw blockno b true.

#[export] Instance qemu_disk_driver : DiskDriver := {
  Platform.platform_disk_init := platform_disk_init;
  Platform.platform_disk_read := platform_disk_read;
  Platform.platform_disk_write := platform_disk_write;
}.

(** The loop of [platform_qemu_disk_intr]; [used_idx] takes 2^16 values.  The
    device returns heads of chains, which are below NUM. *)
Fixpoint disk_intr_loop (fuel : nat) : K unit :=
  u ← gets (fun s => vd_used_idx (plat s));
  i ← gets (fun s => used_idx (vd_used (plat s)) (mem s));
  if u =? i then mret tt else
  id ← gets (fun s => Z.to_nat (used_id (vd_used (plat s)) (u mod Z.of_nat NUM) (mem s)));
  st ← gets (fun s => at_ (vd_status (plat s)) id);
  if negb (st =? 0) then panic "platform_qemu_disk_intr: bad status" else
  modify (upd_plat (fun d => set_vd_done (<[id := 1]> (vd_done d)) d)) ;;
  wakeup (CDiskInfo id) ;;
  modify (upd_plat (set_vd_used_idx ((u + 1) mod 65536))) ;;
  match fuel with
  | O => hang
  | S fuel' => disk_intr_loop fuel'
  end.

Definition platform_qemu_disk_intr : K unit :=
  acquire LDisk ;;
  st ← VIRTIO_READ VIRTIO_MMIO_INTERRUPT_STATUS;
  VIRTIO_WRITE VIRTIO_MMIO_INTERRUPT_ACK (Z.land st 3) ;;
  disk_intr_loop (Z.to_nat 65536) ;;
  release LDisk.

(** ** Interrupts, timer and page table *)

Definition platform_irq_init : K unit :=
  mmio_store (QEMU_PLIC + QEMU_UART0_IRQ * 4) 1 ;;
  mmio_store (QEMU_PLIC + QEMU_VIRTIO0_IRQ * 4) 1.

Definition platform_irq_init_hart : K unit :=
  hart ← cpuid;
  mmio_store (QEMU_PLIC_SENABLE hart)
    (Z.lor (Z.shiftl 1 QEMU_UART0_IRQ) (Z.shiftl 1 QEMU_VIRTIO0_IRQ)) ;;
  mmio_store (QEMU_PLIC_SPRIORITY hart) 0.

Definition platform_irq_claim : K Z :=
  hart ← cpuid;
  irq ← mmio_load (QEMU_PLIC_SCLAIM hart);
  mret (s32 irq).

Definition platform_irq_complete (irq : Z) : K unit :=
  hart ← cpuid;
  mmio_store (QEMU_PLIC_SCLAIM hart) (u32 irq).

Definition platform_timer_ack : K unit :=
  p ← csr_get sip;
  modify (fun s => set_csr (set_sip (Z.ldiff p 2) (csr s)) s).

Definition platform_kvmmap (kpgtbl : Z) : K unit :=
  kvmmap kpgtbl QEMU_UART0 QEMU_UART0 PGSIZE (Z.lor PTE_R PTE_W) ;;
  kvmmap kpgtbl QEMU_VIRTIO0 QEMU_VIRTIO0 PGSIZE (Z.lor PTE_R PTE_W) ;;
  kvmmap kpgtbl QEMU_PLIC QEMU_PLIC 4194304 (Z.lor PTE_R PTE_W).

#[export] Instance qemu_board : BoardMap := platform_kvmmap.

Definition platform_handle_irq : K Z :=
  cause ← csr_get scause;
  if negb (Z.land cause 2147483648 =? 0) && (Z.land cause 255 =? 9) then
    irq ← platform_irq_claim;
    (if irq =? QEMU_UART0_IRQ then platform_qemu_uart_intr
     else if irq =? QEMU_VIRTIO0_IRQ then platform_qemu_disk_intr
     else if negb (irq =? 0) then
       printf (String.append "unexpected interrupt irq=%d" newline) [AInt irq]
     else mret tt) ;;
    (if negb (irq =? 0) then platform_irq_complete irq else mret tt) ;;
    mret PLATFORM_INTR_DEV
  else if cause =? 2147483649 then
    platform_timer_ack ;;
    mret PLATFORM_INTR_TIMER
  else mret PLATFORM_INTR_NONE.

#[export] Instance qemu_irq : IrqChip := {
  Platform.platform_irq_init := platform_irq_init;
  Platform.platform_irq_init_hart := platform_irq_init_hart;
  Platform.platform_handle_irq := platform_handle_irq;
}.
End Qemu.
