(* ===== verification/Asm.v ===== *)
(** * The assembly routines: trampoline.S, swtch.S, kernelvec.S, timervec.S and
    start.c

    The routines that save and restore registers are given by their tables of
    registers and offsets, run over a register file and memory. *)
From S2P Require Import Prelude Memory Machine.
From stdpp Require Import gmap strings countable prelude.

Open Scope Z_scope.

(** Registers by ABI name. *)
Inductive reg : Type :=
| ra | sp | gp | tp_ | t0 | t1 | t2 | s0 | s1 | a0 | a1 | a2 | a3 | a4 | a5 | a6 | a7
| s2 | s3 | s4 | s5 | s6 | s7 | s8 | s9 | s10 | s11 | t3 | t4 | t5 | t6.
#[export] Instance reg_eq_dec : EqDecision reg.
Proof. solve_decision. Defined.

Definition regs : Type := reg -> Z.
Definition rset (r : reg) (v : Z) (f : regs) : regs := fun x => if decide (x = r) then v else f x.

(** [sw r, off(b)] for each pair of the table, and [lw r, off(b)]. *)
Definition stores (l : list (reg * Z)) (b : reg) (f : regs) (m : gmap Z Z) : gmap Z Z :=
  foldl (fun m p => store32 m (f b + p.2) (f p.1)) m l.
Definition loads (l : list (reg * Z)) (b : reg) (m : gmap Z Z) (f : regs) : regs :=
  foldl (fun f p => rset p.1 (load32 m (f b + p.2)) f) f l.

(** ** kernel/trampoline.S *)

(** The registers [uservec] saves while [a0] holds the trapframe, in order;
    [userret] restores the same. *)
Definition tf_table : list (reg * Z) :=
  [(ra, 20); (sp, 24); (gp, 28); (tp_, 32); (t0, 36); (t1, 40); (t2, 44); (s0, 48); (s1, 52);
   (a1, 60); (a2, 64); (a3, 68); (a4, 72); (a5, 76); (a6, 80); (a7, 84);
   (s2, 88); (s3, 92); (s4, 96); (s5, 100); (s6, 104); (s7, 108); (s8, 112); (s9, 116);
   (s10, 120); (s11, 124); (t3, 128); (t4, 132); (t5, 136); (t6, 140)].

(** [uservec], with the trapframe at address [tf]: the registers, memory, the
    new [satp] and the address jumped to. *)
Definition uservec_code (tf : Z) (f : regs) (m : gmap Z Z) : regs * gmap Z Z * Z * Z :=
  let sscratch := f a0 in
  let f := rset a0 tf f in
  let m := stores tf_table a0 f m in
  let f := rset t0 sscratch f in
  let m := store32 m (f a0 + 56) (f t0) in
  let f := rset sp (load32 m (f a0 + 4)) f in
  let f := rset tp_ (load32 m (f a0 + 16)) f in
  let f := rset t0 (load32 m (f a0 + 8)) f in
  let f := rset t1 (load32 m (f a0)) f in
  (f, m, f t1, f t0).

(** [userret]: the registers user mode is entered with. *)
Definition userret_code (tf : Z) (f : regs) (m : gmap Z Z) : regs :=
  let f := rset a0 tf f in
  let f := loads tf_table a0 m f in
  rset a0 (load32 m (f a0 + 56)) f.

(** ** kernel/swtch.S *)

Definition ctx_table : list (reg * Z) :=
  [(ra, 0); (sp, 4); (s0, 8); (s1, 12); (s2, 16); (s3, 20); (s4, 24); (s5, 28); (s6, 32);
   (s7, 36); (s8, 40); (s9, 44); (s10, 48); (s11, 52)].

(** [swtch(old, new)]: [a0] and [a1] hold the two contexts. *)
Definition swtch_code (f : regs) (m : gmap Z Z) : regs * gmap Z Z :=
  let m := stores ctx_table a0 f m in
  (loads ctx_table a1 m f, m).

(** ** kernel/kernelvec.S *)

Definition kvec_saves : list (reg * Z) :=
  [(ra, 0); (sp, 4); (gp, 8); (tp_, 12); (t0, 16); (t1, 20); (t2, 24); (s0, 28); (s1, 32);
   (a0, 36); (a1, 40); (a2, 44); (a3, 48); (a4, 52); (a5, 56); (a6, 60); (a7, 64); (s2, 68);
   (s3, 72); (s4, 76); (s5, 80); (s6, 84); (s7, 88); (s8, 92); (s9, 96); (s10, 100);
   (s11, 104); (t3, 108); (t4, 112); (t5, 116); (t6, 120)].
(** All of them but [tp]. *)
Definition kvec_restores : list (reg * Z) :=
  [(ra, 0); (sp, 4); (gp, 8); (t0, 16); (t1, 20); (t2, 24); (s0, 28); (s1, 32);
   (a0, 36); (a1, 40); (a2, 44); (a3, 48); (a4, 52); (a5, 56); (a6, 60); (a7, 64); (s2, 68);
   (s3, 72); (s4, 76); (s5, 80); (s6, 84); (s7, 88); (s8, 92); (s9, 96); (s10, 100);
   (s11, 104); (t3, 108); (t4, 112); (t5, 116); (t6, 120)].

(** [kernelvec] before the call of [kerneltrap], and after it. *)
Definition kernelvec_enter (f : regs) (m : gmap Z Z) : regs * gmap Z Z :=
  let f := rset sp (u32 (f sp - 128)) f in
  (f, stores kvec_saves sp f m).
(** The second of the loads reloads the stack pointer, which is the base of
    those that follow. *)
Definition kernelvec_leave (f : regs) (m : gmap Z Z) : regs :=
  let f := loads kvec_restores sp m f in
  rset sp (u32 (f sp + 128)) f.

(** ** platform/qemu/timervec.S *)

(** The timer interrupt, [mscratch] pointing to the scratch area: registers,
    memory (where MTIMECMP is) and [mscratch] afterwards; [sip] becomes 2. *)
Definition timervec_qemu (f : regs) (m : gmap Z Z) (mscratch : Z) : regs * gmap Z Z * Z :=
  let '(f, mscratch) := (rset a0 mscratch f, f a0) in
  let m := stores [(a1, 0); (a2, 4); (a3, 8); (a4, 12)] a0 f m in
  let f := rset a1 (load32 m (f a0 + 16)) f in
  let f := rset a2 (load32 m (f a0 + 20)) f in
  let f := rset a3 (load32 m (f a1)) f in
  let f := rset a4 (load32 m (f a1 + 4)) f in
  let f := rset a3 (u32 (f a3 + f a2)) f in
  let f := rset a2 (if f a3 <? f a2 then 1 else 0) f in
  let f := rset a4 (u32 (f a4 + f a2)) f in
  let m := store32 m (f a1 + 4) (f a4) in
  let m := store32 m (f a1) (f a3) in
  let f := rset a1 2 f in
  let f := loads [(a4, 12); (a3, 8); (a2, 4); (a1, 0)] a0 m f in
  (rset a0 mscratch f, m, f a0).

(** platform/nemu/timervec.S *)
Definition timervec_nemu (f : regs) (m : gmap Z Z) (mscratch : Z) : regs * gmap Z Z * Z :=
  let '(f, mscratch) := (rset a0 mscratch f, f a0) in
  let m := stores [(a1, 0); (a2, 4); (a3, 8); (a4, 12)] a0 f m in
  let f := rset a1 2 f in
  let f := loads [(a4, 12); (a3, 8); (a2, 4); (a1, 0)] a0 m f in
  (rset a0 mscratch f, m, f a0).

(** ** kernel/start.c *)

(** The machine-mode registers [start] and [platform_timer_init] write. *)
Record mcsrs : Type := mk_mcsrs {
  mstatus : Z; mepc : Z; msatp : Z; medeleg : Z; mideleg : Z; m_sie : Z; pmpaddr0 : Z; pmpcfg0 : Z;
  mscratch : Z; mtvec : Z; mie : Z; mhartid : Z; mtp : Z;
}.

Definition MSTATUS_MPP_MASK : Z := 6144.
Definition MSTATUS_MPP_S : Z := 2048.
Definition MSTATUS_MIE : Z := 8.
Definition SIE_SEIE : Z := 512.
Definition SIE_STIE : Z := 32.
Definition SIE_SSIE : Z := 2.
Definition MIE_MTIE : Z := 128.

(** The part of [platform_timer_init] both platforms share, the scratch area
    of the hart being at [scratch]. *)
Definition timer_csrs (scratch timervec : Z) (c : mcsrs) : mcsrs :=
  {| mstatus := Z.lor (mstatus c) MSTATUS_MIE; mepc := mepc c; msatp := msatp c;
     medeleg := medeleg c; mideleg := mideleg c; m_sie := m_sie c; pmpaddr0 := pmpaddr0 c;
     pmpcfg0 := pmpcfg0 c; mscratch := scratch; mtvec := timervec;
     mie := Z.lor (mie c) MIE_MTIE; mhartid := mhartid c; mtp := mtp c |}.

(** platform/qemu/platform.c, [platform_timer_init]: MTIMECMP of hart [id] and
    the last two words of its scratch area, from MTIME. *)
Definition QEMU_CLINT : Z := 33554432.
Definition QEMU_CLINT_MTIMECMP (hartid : Z) : Z := QEMU_CLINT + 16384 + 8 * hartid.
Definition QEMU_TIMER_INTERVAL : Z := 3200000.
Definition platform_timer_init_qemu (id mtime : Z) : Z * Z * Z :=
  ((mtime + QEMU_TIMER_INTERVAL) mod 18446744073709551616,
   QEMU_CLINT_MTIMECMP id, QEMU_TIMER_INTERVAL).

(** [start], up to its [mret]; [platform_early_init] is empty. *)
Definition start (main timervec : Z) (timer_scratch : Z -> Z) (c : mcsrs) : mcsrs :=
  let c :=
    {| mstatus := Z.lor (Z.ldiff (mstatus c) MSTATUS_MPP_MASK) MSTATUS_MPP_S; mepc := main;
       msatp := 0; medeleg := 65535; mideleg := 65535;
       m_sie := Z.lor (Z.lor (Z.lor (m_sie c) SIE_SEIE) SIE_STIE) SIE_SSIE;
       pmpaddr0 := 1073741823; pmpcfg0 := 15; mscratch := mscratch c; mtvec := mtvec c;
       mie := mie c; mhartid := mhartid c; mtp := mtp c |} in
  let c := timer_csrs (timer_scratch (mhartid c)) timervec c in
  {| mstatus := mstatus c; mepc := mepc c; msatp := msatp c; medeleg := medeleg c;
     mideleg := mideleg c; m_sie := m_sie c; pmpaddr0 := pmpaddr0 c; pmpcfg0 := pmpcfg0 c;
     mscratch := mscratch c; mtvec := mtvec c; mie := mie c; mhartid := mhartid c;
     mtp := mhartid c |}.

(** ** Tables of registers *)

(** No register occurs twice, and the words do not overlap. *)
Fixpoint apart (l : list (reg * Z)) : bool :=
  match l with
  | [] => true
  | p :: l' =>
      forallb (fun q => bool_decide (p.1 <> q.1) && ((p.2 + 4 <=? q.2) || (q.2 + 4 <=? p.2))) l' &&
      apart l'
  end.

Lemma rset_eq r v f : rset r v f r = v.
Proof. unfold rset. by rewrite decide_True. Qed.
Lemma rset_ne r v f x : x <> r -> rset r v f x = f x.
Proof. intros. unfold rset. by rewrite decide_False. Qed.

Lemma apart_cons p l :
  apart (p :: l) = true ->
  apart l = true /\
  forall q, q ∈ l -> p.1 <> q.1 /\ (p.2 + 4 <= q.2 \/ q.2 + 4 <= p.2).
Proof.
  cbn. rewrite andb_true_iff, forallb_forall. intros [H Hl]. split; [done|].
  intros q Hq. specialize (H q ltac:(by apply list_elem_of_In)).
  apply andb_true_iff in H as [H1 H2]. apply bool_decide_eq_true in H1.
  split; [done|]. apply orb_true_iff in H2. lia.
Qed.

Lemma stores_cons p l b f m :
  stores (p :: l) b f m = stores l b f (store32 m (f b + p.2) (f p.1)).
Proof. done. Qed.
Lemma loads_cons p l b m f :
  loads (p :: l) b m f = loads l b m (rset p.1 (load32 m (f b + p.2)) f).
Proof. done. Qed.

Lemma stores_out l b f m a :
  (forall p, p ∈ l -> a + 4 <= f b + p.2 \/ f b + p.2 + 4 <= a) ->
  load32 (stores l b f m) a = load32 m a.
Proof.
  revert m. induction l as [|p l IH]; intros m H; [done|].
  rewrite stores_cons, IH by (intros; apply H; by right).
  apply load32_store32_ne. destruct (H p ltac:(by left)); lia.
Qed.

Lemma stores_in l b f m r off :
  apart l = true -> (r, off) ∈ l -> load32 (stores l b f m) (f b + off) = u32 (f r).
Proof.
  revert m. induction l as [|p l IH]; intros m H Hin; [by apply elem_of_nil in Hin|].
  apply apart_cons in H as [Hl Hp]. apply elem_of_cons in Hin as [<-|Hin];
    rewrite stores_cons; [|by apply IH].
  rewrite stores_out; [apply load32_store32_eq|].
  intros q Hq. destruct (Hp q Hq) as [_ Ho]. cbn in Ho. lia.
Qed.

Lemma loads_out l b m f r : r ∉ l.*1 -> loads l b m f r = f r.
Proof.
  revert f. induction l as [|p l IH]; intros f H; [done|].
  apply not_elem_of_cons in H as [H1 H2]. rewrite loads_cons, (IH _ H2). by apply rset_ne.
Qed.

Lemma not_in_table (l : list (reg * Z)) r : bool_decide (r ∈ l.*1) = false -> r ∉ l.*1.
Proof. apply bool_decide_eq_false. Qed.

(** A table that reloads its base register finds the base there. *)
Definition base_kept (l : list (reg * Z)) (b : reg) (m : gmap Z Z) (f : regs) : Prop :=
  forall off, (b, off) ∈ l -> load32 m (f b + off) = f b.

Lemma base_kept_not l b m f : bool_decide (b ∈ l.*1) = false -> base_kept l b m f.
Proof.
  intros H off Hin. apply bool_decide_eq_false in H. destruct H.
  apply list_elem_of_fmap. by exists (b, off).
Qed.

Lemma loads_in l b m f r off :
  apart l = true -> base_kept l b m f -> (r, off) ∈ l -> loads l b m f r = load32 m (f b + off).
Proof.
  revert f. induction l as [|p l IH]; intros f H Hb Hin; [by apply elem_of_nil in Hin|].
  apply apart_cons in H as [Hl Hp]. rewrite loads_cons.
  apply elem_of_cons in Hin as [<-|Hin]; cbn [fst snd].
  - rewrite loads_out; [apply rset_eq|]. intros (q & E & Hq)%list_elem_of_fmap.
    by destruct (Hp q Hq).
  - assert (E : rset p.1 (load32 m (f b + p.2)) f b = f b).
    { destruct (decide (b = p.1)) as [->|Hne]; [|by apply rset_ne].
      rewrite rset_eq. apply Hb. rewrite <- surjective_pairing. left. }
    rewrite <- E at 2. apply IH; [done| |done].
    intros o Ho. rewrite E. apply Hb. by right.
Qed.

Lemma load32_agree m m' lo hi a :
  (forall b, lo <= b < hi -> load8 m' b = load8 m b) -> lo <= a -> a + 4 <= hi ->
  load32 m' a = load32 m a.
Proof. intros H ??. apply load32_ext. intros b ?. apply H. lia. Qed.

(** Offset of a register in a table. *)
Fixpoint off_of (l : list (reg * Z)) (r : reg) : option Z :=
  match l with
  | [] => None
  | p :: l' => if decide (p.1 = r) then Some p.2 else off_of l' r
  end.
Lemma off_of_in l r off : off_of l r = Some off -> (r, off) ∈ l.
Proof.
  induction l as [|[r' o] l IH]; cbn; [done|]. case_decide; intros E.
  - simplify_eq. left.
  - right. by apply IH.
Qed.

Lemma off_of_none l r : off_of l r = None -> r ∉ l.*1.
Proof.
  induction l as [|p l IH]; cbn; [intros _; apply not_elem_of_nil|].
  case_decide; intros E; [done|]. apply not_elem_of_cons. split; [congruence|by apply IH].
Qed.

Lemma tf_offs r : r <> a0 -> exists off, (r, off) ∈ tf_table /\ 20 <= off /\ off + 4 <= 144 /\
  (off + 4 <= 56 \/ 60 <= off).
Proof.
  intros Hr. destruct (off_of tf_table r) as [off|] eqn:E.
  - exists off. split; [by apply off_of_in|]. destruct r; first [by destruct Hr | injection E as <-; lia].
  - by destruct r.
Qed.

Lemma ctx_offs r off : (r, off) ∈ ctx_table -> 0 <= off /\ off + 4 <= 56.
Proof.
  intros H. unfold ctx_table in H.
  repeat (apply elem_of_cons in H as [[= -> ->]|H]; [lia|]). by apply elem_of_nil in H.
Qed.

(** A word of the trapframe outside the saved registers. *)
Lemma uservec_frame tf f m off :
  off + 4 <= 20 ->
  load32 (store32 (stores tf_table a0 (rset a0 tf f) m) (tf + 56) (f a0)) (tf + off) =
  load32 m (tf + off).
Proof.
  intros. rewrite load32_store32_ne by lia. apply stores_out. rewrite rset_eq.
  intros p Hp. unfold tf_table in Hp.
  repeat (apply elem_of_cons in Hp as [->|Hp]; [cbn; lia|]). by apply elem_of_nil in Hp.
Qed.

(** The trapframe after [uservec]. *)
Lemma uservec_eq tf f m :
  exists f1 m1, uservec_code tf f m = (f1, m1, load32 m tf, load32 m (tf + 8)) /\
  m1 = store32 (stores tf_table a0 (rset a0 tf f) m) (tf + 56) (f a0) /\
  f1 sp = load32 m (tf + 4) /\ f1 tp_ = load32 m (tf + 16).
Proof.
  rewrite <- (uservec_frame tf f m 4), <- (uservec_frame tf f m 8),
    <- (uservec_frame tf f m 16) by lia.
  pose proof (uservec_frame tf f m 0 ltac:(lia)) as E0. rewrite Z.add_0_r in E0.
  rewrite <- E0. do 2 eexists. split; [reflexivity|]. split_and!; reflexivity.
Qed.

Definition saved_regs (f : regs) : Prop := forall r, is_u32 (f r).

(** Entering the kernel and returning to user space restores every user
    register.  [uservec] leaves in the trapframe everything [userret] loads:
    whatever the kernel does in between with its registers and with memory
    outside the saved words, user mode resumes with the registers it had, and
    with the [a0] the kernel left in the trapframe (the one saved, unless a
    system call stored its result there).  The kernel stack, hartid, page table
    and entry point come from the words the kernel put in the trapframe. *)
Theorem trapframe_round_trip tf f m f1 m1 satp pc :
  saved_regs f -> uservec_code tf f m = (f1, m1, satp, pc) ->
  f1 sp = load32 m (tf + 4) /\ f1 tp_ = load32 m (tf + 16) /\
  satp = load32 m tf /\ pc = load32 m (tf + 8) /\ load32 m1 (tf + 56) = f a0 /\
  forall f2 m2,
    (forall b, tf + 20 <= b < tf + 144 -> ~ tf + 56 <= b < tf + 60 -> load8 m2 b = load8 m1 b) ->
    forall r, userret_code tf f2 m2 r = if decide (r = a0) then load32 m2 (tf + 56) else f r.
Proof.
  intros Hf E. destruct (uservec_eq tf f m) as (f1' & m1' & E' & Em & Hsp & Htp).
  rewrite E' in E. injection E as <- <- <- <-. split_and!; try done.
  { rewrite Em, load32_store32_eq. by apply u32_small. }
  intros f2 m2 H r. unfold userret_code. case_decide as Hr.
  - subst r. rewrite rset_eq, loads_out by (by apply not_in_table). by rewrite rset_eq.
  - rewrite rset_ne by done. destruct (tf_offs r Hr) as (off & Hin & ? & ? & ?).
    rewrite (loads_in _ _ _ _ r off), rset_eq by (done || by apply base_kept_not).
    rewrite (load32_ext _ m1') by (intros; apply H; lia).
    rewrite Em, load32_store32_ne by lia.
    rewrite <- (rset_eq a0 tf f) at 2. rewrite (stores_in _ _ _ _ r) by done.
    rewrite rset_ne by done. by apply u32_small.
Qed.

Lemma trapframe_round_trip_witness :
  exists f1 m1 satp pc,
  uservec_code 4294959104 (fun _ => 7) ∅ = (f1, m1, satp, pc) /\
  forall r, userret_code 4294959104 (fun _ => 0) (store32 m1 (4294959104 + 56) 3) r =
  if decide (r = a0) then 3 else 7.
Proof.
  destruct (uservec_code 4294959104 (fun _ => 7) ∅) as [[[f1 m1] satp] pc] eqn:E.
  exists f1, m1, satp, pc. split; [reflexivity|]. intros r.
  refine (eq_trans (proj2 (proj2 (proj2 (proj2 (proj2
    (trapframe_round_trip 4294959104 (fun _ => 7) ∅ f1 m1 satp pc _ E)))))
    (fun _ => 0) (store32 m1 (4294959104 + 56) 3) _ r) _).
  - intros x. unfold is_u32. lia.
  - intros b ??. apply load8_store32_ne. lia.
  - rewrite load32_store32_eq. reflexivity.
Defined.

(** [swtch] is a coroutine switch.  It leaves with the callee-saved
    registers of the new context, and the old context holds its own: when some
    later [swtch] is given that context back, unchanged, it returns with the
    callee-saved registers of the earlier call, [ra] and [sp] among them. *)
Theorem swtch_round_trip f m :
  saved_regs f ->
  (forall r off, (r, off) ∈ ctx_table ->
    f a1 + 56 <= f a0 \/ f a0 + 56 <= f a1 ->
    (swtch_code f m).1 r = load32 m (f a1 + off)) /\
  forall f2 m2 r, r ∈ ctx_table.*1 ->
    f2 a1 = f a0 -> f2 a0 + 56 <= f a0 \/ f a0 + 56 <= f2 a0 ->
    (forall b, f a0 <= b < f a0 + 56 -> load8 m2 b = load8 (swtch_code f m).2 b) ->
    (swtch_code f2 m2).1 r = f r.
Proof.
  intros Hf. unfold swtch_code. cbn [fst snd]. split.
  - intros r off Hin Hd. pose proof (ctx_offs _ _ Hin).
    rewrite (loads_in _ _ _ _ r off) by (done || by apply base_kept_not).
    apply stores_out. intros [r' o] Hin'. pose proof (ctx_offs _ _ Hin'). cbn. lia.
  - intros f2 m2 r ([r' off] & -> & Hin)%list_elem_of_fmap Ha Hd Hm.
    pose proof (ctx_offs _ _ Hin).
    rewrite (loads_in _ _ _ _ r' off) by (done || by apply base_kept_not).
    rewrite stores_out.
    2: { intros [r2 o] Hin'. pose proof (ctx_offs _ _ Hin'). cbn. lia. }
    rewrite Ha, (load32_agree _ _ _ _ _ Hm) by lia.
    rewrite (stores_in _ _ _ _ r') by done. by apply u32_small.
Qed.

Lemma swtch_round_trip_witness :
  let f := rset a1 256 (rset a0 0 (fun _ => 7)) in
  let g := rset a1 0 (rset a0 512 (fun _ => 9)) in
  (swtch_code g (swtch_code f ∅).2).1 sp = 7.
Proof.
  cbn zeta.
  refine (proj2 (swtch_round_trip (rset a1 256 (rset a0 0 (fun _ => 7))) ∅ _)
    (rset a1 0 (rset a0 512 (fun _ => 9))) _ sp _ _ _ _).
  - intros r. unfold rset, is_u32. repeat case_decide; lia.
  - cbn. right. left.
  - reflexivity.
  - right. vm_compute. discriminate.
  - reflexivity.
Defined.

Lemma kvec_offs r : exists off, (r, off) ∈ kvec_saves /\ 0 <= off /\ off + 4 <= 124 /\
  (r <> tp_ -> (r, off) ∈ kvec_restores).
Proof.
  destruct (off_of kvec_saves r) as [off|] eqn:E; [|by destruct r].
  exists off. split; [by apply off_of_in|].
  destruct r; injection E as <-; (split; [lia|split; [lia|intros Hr]]);
    first [by apply off_of_in | by destruct Hr].
Qed.

Lemma kvec_restores_in r off :
  (r, off) ∈ kvec_restores -> (r, off) ∈ kvec_saves /\ 0 <= off /\ off + 4 <= 124.
Proof.
  intros H. unfold kvec_restores in H.
  repeat (apply elem_of_cons in H as [[= -> ->]|H];
    [split; [by apply off_of_in|lia]|]). by apply elem_of_nil in H.
Qed.

(** A trap in the kernel is transparent.  [kernelvec] saves every register
    on the interrupted stack; if [kerneltrap] returns with the same stack
    pointer and that frame unchanged, every register but [tp] is restored, and
    [tp] is the one of the hart the thread is now on. *)
Theorem kernelvec_transparent f m :
  saved_regs f ->
  let '(f1, m1) := kernelvec_enter f m in
  forall f2 m2, f2 sp = f1 sp ->
    (forall b, f1 sp <= b < f1 sp + 124 -> load8 m2 b = load8 m1 b) ->
    forall r, kernelvec_leave f2 m2 r = if decide (r = tp_) then f2 tp_ else f r.
Proof.
  intros Hf. unfold kernelvec_enter. generalize (rset_eq sp (u32 (f sp - 128)) f).
  set (f1 := rset sp (u32 (f sp - 128)) f). intros Hsp f2 m2 Hsp2 Hm.
  assert (Hold : forall r off, (r, off) ∈ kvec_saves -> 0 <= off -> off + 4 <= 124 ->
    load32 m2 (f2 sp + off) = f1 r).
  { intros r off Hin ??. rewrite Hsp2, (load32_agree _ _ _ _ _ Hm) by lia.
    rewrite (stores_in _ _ _ _ r) by done. apply u32_small. unfold f1, rset.
    case_decide; [apply u32_range|apply Hf]. }
  assert (Hload : forall r, loads kvec_restores sp m2 f2 r = if decide (r = tp_) then f2 tp_ else f1 r).
  { intros r. case_decide as Hr; [subst; by apply loads_out, not_in_table|].
    destruct (kvec_offs r) as (off & Hin & ? & ? & Hin'). specialize (Hin' Hr).
    rewrite (loads_in _ _ _ _ r off); [by apply Hold|done| |done].
    intros o (Ho & ? & ?)%kvec_restores_in. by rewrite (Hold sp). }
  intros r. unfold kernelvec_leave. destruct (decide (r = sp)) as [->|Hne].
  - rewrite rset_eq, Hload, decide_False, Hsp, u32_add_l by done.
    replace (f sp - 128 + 128) with (f sp) by lia. apply u32_small, Hf.
  - rewrite rset_ne, Hload by done. case_decide; [done|]. unfold f1. by rewrite rset_ne.
Qed.

Lemma kernelvec_transparent_witness :
  kernelvec_leave (rset sp 3968 (fun _ => 1)) (kernelvec_enter (rset sp 4096 (fun _ => 7)) ∅).2 t6 = 7.
Proof.
  refine (kernelvec_transparent (rset sp 4096 (fun _ => 7)) ∅ _
    (rset sp 3968 (fun _ => 1)) _ _ _ t6).
  - intros r. unfold rset, is_u32. repeat case_decide; lia.
  - reflexivity.
  - reflexivity.
Defined.

(** A 64-bit word of memory. *)
Definition load64 (m : gmap Z Z) (a : Z) : Z := load32 m a + 4294967296 * load32 m (a + 4).

(** The carry of the two-word addition. *)
Lemma add64 lo hi d :
  is_u32 lo -> is_u32 hi -> is_u32 d ->
  u32 (lo + d) + 4294967296 * u32 (hi + (if u32 (lo + d) <? d then 1 else 0)) =
  (lo + 4294967296 * hi + d) mod 18446744073709551616.
Proof.
  unfold is_u32, u32. intros.
  destruct (Z_lt_le_dec (lo + d) 4294967296).
  - rewrite (Z.mod_small (lo + d)) by lia. destruct (Z.ltb_spec (lo + d) d); [lia|].
    rewrite Z.add_0_r, (Z.mod_small hi) by lia. rewrite Z.mod_small; lia.
  - assert (E : (lo + d) mod 4294967296 = lo + d - 4294967296).
    { symmetry. apply Z.mod_unique with 1; lia. }
    rewrite E. destruct (Z.ltb_spec (lo + d - 4294967296) d); [|lia].
    destruct (decide (hi = 4294967295)) as [->|].
    + replace ((4294967295 + 1) mod 4294967296) with 0 by reflexivity.
      apply Z.mod_unique with 1; lia.
    + rewrite (Z.mod_small (hi + 1)) by lia. rewrite Z.mod_small; lia.
Qed.

Definition timer_saves : list (reg * Z) := [(a1, 0); (a2, 4); (a3, 8); (a4, 12)].
Definition timer_loads : list (reg * Z) := [(a4, 12); (a3, 8); (a2, 4); (a1, 0)].

Lemma timer_saves_off p : p ∈ timer_saves -> 0 <= p.2 /\ p.2 + 4 <= 16.
Proof.
  intros H. unfold timer_saves in H.
  repeat (apply elem_of_cons in H as [->|H]; [cbn; lia|]). by apply elem_of_nil in H.
Qed.

(** What the restoring half of both timer vectors yields, from a memory that
    still has the saved words. *)
Lemma timer_restore f g ms m m' :
  saved_regs f -> g a0 = ms ->
  (forall r, r ∉ [a0; a1; a2; a3; a4] -> g r = f r) ->
  (forall o, 0 <= o -> o + 4 <= 16 ->
    load32 m' (ms + o) = load32 (stores timer_saves a0 (rset a0 ms f) m) (ms + o)) ->
  forall r, rset a0 (f a0) (loads timer_loads a0 m' g) r = f r.
Proof.
  intros Hf Hg Hr Hm r. destruct (decide (r = a0)) as [->|Hne]; [apply rset_eq|].
  rewrite rset_ne by done. destruct (off_of timer_loads r) as [off|] eqn:E.
  - apply off_of_in in E.
    assert (Hin : (r, off) ∈ timer_saves).
    { clear -E. unfold timer_loads, timer_saves in *.
      rewrite !elem_of_cons in *. naive_solver. }
    pose proof (timer_saves_off _ Hin) as [? ?]. cbn [fst snd] in *.
    rewrite (loads_in _ _ _ _ r off) by (done || by apply base_kept_not).
    rewrite Hg, Hm by done. rewrite <- (rset_eq a0 ms f) at 2.
    rewrite (stores_in _ _ _ _ r) by done. rewrite rset_ne by done. by apply u32_small.
  - apply off_of_none in E. rewrite loads_out by done. apply Hr. cbn in E.
    rewrite !not_elem_of_cons in *. naive_solver.
Qed.

#[local] Opaque load32 store32 u32.
(** The memory the QEMU timer vector leaves, and the registers it reloads. *)
Lemma timervec_qemu_eq f m ms :
  exists g, g a0 = ms /\ (forall r, r ∉ [a0; a1; a2; a3; a4] -> g r = f r) /\
    timervec_qemu f m ms =
    let m0 := stores timer_saves a0 (rset a0 ms f) m in
    let c := load32 m0 (ms + 16) in
    let d := load32 m0 (ms + 20) in
    let lo := u32 (load32 m0 c + d) in
    let hi := u32 (load32 m0 (c + 4) + (if lo <? d then 1 else 0)) in
    let m' := store32 (store32 m0 (c + 4) hi) c lo in
    (rset a0 (f a0) (loads timer_loads a0 m' g), m', loads timer_loads a0 m' g a0).
Proof.
  eexists. split; [|split; [|reflexivity]]; [reflexivity|].
  intros r Hr. destruct r; try reflexivity; destruct Hr; set_solver.
Qed.
#[local] Transparent load32 store32 u32.

(** The QEMU timer vector adds the interval to the 64-bit MTIMECMP of the
    hart, carry included, and is otherwise invisible: every register and
    [mscratch] are as before, and so is memory outside the four scratch words
    and MTIMECMP. *)
Theorem timervec_qemu_correct f m ms :
  saved_regs f ->
  let c := load32 m (ms + 16) in
  ms + 24 <= c \/ c + 8 <= ms ->
  let '(f', m', ms') := timervec_qemu f m ms in
  (forall r, f' r = f r) /\ ms' = ms /\
  load64 m' c = (load64 m c + load32 m (ms + 20)) mod 18446744073709551616 /\
  forall a, a + 4 <= ms \/ ms + 16 <= a -> a + 4 <= c \/ c + 8 <= a -> load32 m' a = load32 m a.
Proof.
  intros Hf c Hc.
  set (f0 := rset a0 ms f). set (m0 := stores timer_saves a0 f0 m).
  assert (Hm0 : forall a, a + 4 <= ms \/ ms + 16 <= a -> load32 m0 a = load32 m a).
  { intros a Ha. apply stores_out. intros p Hp%timer_saves_off.
    change (f0 a0) with ms. lia. }
  destruct (timervec_qemu_eq f m ms) as (g & Hg & Hgr & ->). cbn zeta.
  fold f0 m0. rewrite !Hm0 by lia. fold c.
  set (d := load32 m (ms + 20)). set (lo := u32 (load32 m c + d)).
  set (hi := u32 _). split_and!.
  - apply (timer_restore f g ms m); try done. intros o ??.
    rewrite !load32_store32_ne by lia. done.
  - rewrite loads_out by (by apply not_in_table). done.
  - unfold load64. rewrite load32_store32_eq, load32_store32_ne, load32_store32_eq by lia.
    unfold lo, hi. rewrite !u32_idemp. apply add64; apply load32_range.
  - intros a Ha Hac. rewrite !load32_store32_ne by lia. apply Hm0. done.
Qed.

Lemma timervec_qemu_correct_witness :
  let m := store32 (store32 (store32 ∅ 16 256) 20 1000000) 256 4294967295 in
  let '(_, m', _) := timervec_qemu (fun _ => 7) m 0 in
  load64 m' 256 = 4295967295.
Proof.
  set (m := store32 _ 256 4294967295).
  refine (proj1 (proj2 (proj2 (timervec_qemu_correct (fun _ => 7) m 0 _ _)))).
  - intros r. unfold is_u32. lia.
  - vm_compute. left. discriminate.
Defined.
