(* ===== verification/Entry.v ===== *)
(** * The code that enters the system: entry.S, the first user program
    (initcode of kernel/proc.c, user/initcode.S) and the system call stubs
    (user/usys.pl)

    The first program is an array of bytes; they are decoded and run as RV32
    instructions over the register file of Asm.v. *)
From S2P Require Import Prelude Memory Machine Platform Sv32 Spinlock Printf Kalloc Vm Proc Sleeplock Bio Log Fs Console File Life Asm.
From stdpp Require Import gmap strings countable prelude.

Open Scope Z_scope.

(** ** Instructions *)

(** Register numbers; [x0] is [None]. *)
Definition xregs : list reg :=
  [ra; sp; gp; tp_; t0; t1; t2; s0; s1; a0; a1; a2; a3; a4; a5; a6; a7;
   s2; s3; s4; s5; s6; s7; s8; s9; s10; s11; t3; t4; t5; t6].
Definition xreg (n : Z) : option reg := if n =? 0 then None else xregs !! Z.to_nat (n - 1).

Inductive instr : Type :=
| Auipc (rd : option reg) (imm : Z)
| Addi (rd rs : option reg) (imm : Z)
| Slli (rd rs : option reg) (shamt : Z)
| Add (rd rs1 rs2 : option reg)
| Jal (rd : option reg) (off : Z)
| Jalr (rd rs : option reg) (off : Z)
| Csrr_mhartid (rd : option reg)
| Ecall.

(** Bits [lo] to [lo + n - 1] of a word, and a value of [n] bits as signed. *)
Definition field (w lo n : Z) : Z := Z.land (Z.shiftr w lo) (2 ^ n - 1).
Definition signed (n v : Z) : Z := if v <? 2 ^ (n - 1) then v else v - 2 ^ n.

(** The formats of the RV32I manual, for the instructions above. *)
Definition decode (w : Z) : option instr :=
  let opcode := field w 0 7 in
  let rd := xreg (field w 7 5) in
  let funct3 := field w 12 3 in
  let rs1 := xreg (field w 15 5) in
  if opcode =? 0x17 then Some (Auipc rd (Z.shiftl (field w 12 20) 12))
  else if opcode =? 0x13 then
    if funct3 =? 0 then Some (Addi rd rs1 (signed 12 (field w 20 12)))
    else if (funct3 =? 1) && (field w 25 7 =? 0) then Some (Slli rd rs1 (field w 20 5)) else None
  else if opcode =? 0x33 then
    if (funct3 =? 0) && (field w 25 7 =? 0) then Some (Add rd rs1 (xreg (field w 20 5))) else None
  else if opcode =? 0x6f then
    Some (Jal rd (signed 21 (Z.lor (Z.lor (Z.shiftl (field w 31 1) 20) (Z.shiftl (field w 12 8) 12))
      (Z.lor (Z.shiftl (field w 20 1) 11) (Z.shiftl (field w 21 10) 1)))))
  else if opcode =? 0x67 then
    if funct3 =? 0 then Some (Jalr rd rs1 (signed 12 (field w 20 12))) else None
  else if w =? 0x73 then Some Ecall
  else if (opcode =? 0x73) && (funct3 =? 2) && (field w 20 12 =? 0xf14) && (field w 15 5 =? 0)
  then Some (Csrr_mhartid rd)
  else None.

(** ** Running them *)

Record core : Type := mk_core { pc : Z; xs : regs }.

Definition rget (r : option reg) (f : regs) : Z := match r with None => 0 | Some r => f r end.
Definition rput (r : option reg) (v : Z) (f : regs) : regs := match r with None => f | Some r => rset r v f end.

(** The effect of an instruction other than [ecall], on the hart [hart]. *)
Definition run_instr (hart : Z) (i : instr) (c : core) : option core :=
  let next v rd := Some (mk_core (u32 (pc c + 4)) (rput rd v (xs c))) in
  match i with
  | Auipc rd imm => next (u32 (pc c + imm)) rd
  | Addi rd rs imm => next (u32 (rget rs (xs c) + imm)) rd
  | Slli rd rs sh => next (u32 (Z.shiftl (rget rs (xs c)) sh)) rd
  | Add rd rs1 rs2 => next (u32 (rget rs1 (xs c) + rget rs2 (xs c))) rd
  | Csrr_mhartid rd => next hart rd
  | Jal rd off => Some (mk_core (u32 (pc c + off)) (rput rd (u32 (pc c + 4)) (xs c)))
  | Jalr rd rs off =>
      Some (mk_core (Z.clearbit (u32 (rget rs (xs c) + off)) 0) (rput rd (u32 (pc c + 4)) (xs c)))
  | Ecall => None
  end.

(** The instruction at the program counter, from a memory of bytes. *)
Definition fetch (byte : Z -> option Z) (c : core) : option instr :=
  match byte (pc c), byte (pc c + 1), byte (pc c + 2), byte (pc c + 3) with
  | Some b0, Some b1, Some b2, Some b3 => decode (b0 + 256 * b1 + 65536 * b2 + 16777216 * b3)
  | _, _, _, _ => None
  end.

(** A user program: it runs instructions, and a system call comes back with
    any value in [a0], if it comes back.  The label holds the registers at a
    system call. *)
Inductive user_step (byte : Z -> option Z) : core -> option regs -> core -> Prop :=
| step_instr c i c' : fetch byte c = Some i -> run_instr 0 i c = Some c' -> user_step byte c None c'
| step_ecall c v : fetch byte c = Some Ecall ->
    user_step byte c (Some (xs c)) (mk_core (u32 (pc c + 4)) (rset a0 v (xs c))).

(** The system calls of a run, in order. *)
Inductive user_run (byte : Z -> option Z) (c : core) : list regs -> core -> Prop :=
| run_nil : user_run byte c [] c
| run_instrs l c1 c2 : user_run byte c l c1 -> user_step byte c1 None c2 -> user_run byte c l c2
| run_ecall l c1 r c2 : user_run byte c l c1 -> user_step byte c1 (Some r) c2 -> user_run byte c (l ++ [r]) c2.

(** ** kernel/entry.S *)

Definition NCPU : Z := 1.

(** [_entry] up to the call of [start]; [la] loads the address of stack0. *)
Definition _entry (stack0 : Z) (hart : Z) (f : regs) : regs :=
  let f := rset sp stack0 f in
  let f := rset a1 hart f in
  let f := rset a1 (u32 (f a1 + 1)) f in
  let f := rset a0 (u32 (Z.shiftl (f a1) 12)) f in
  rset sp (u32 (f sp + f a0)) f.

(** The stack of a hart, which grows down from its [sp]. *)
Definition boot_stack (stack0 hart : Z) (f : regs) (a : Z) : Prop :=
  _entry stack0 hart f sp - PGSIZE <= a < _entry stack0 hart f sp.

(** ** user/initcode.S and the bytes of kernel/proc.c *)

(** user/initcode.S: nine instructions, then the string at address 36 and the
    vector [argv] behind it. *)
Definition la (rd : reg) (label pc : Z) : list (Z * instr) :=
  [(pc, Auipc (Some rd) 0); (pc + 4, Addi (Some rd) (Some rd) (label - pc))].
Definition initcode_S (argv : Z) : list (Z * instr) :=
  la a0 36 0 ++ la a1 argv 8 ++
  [(16, Addi (Some a7) None 7); (20, Ecall); (24, Addi (Some a7) None 2); (28, Ecall); (32, Jal (Some ra) (24 - 32))].

(** The instructions of the array [initcode]. *)
Definition initcode_program : list (Z * instr) :=
  [(0, Auipc (Some a0) 0); (4, Addi (Some a0) (Some a0) 36);
   (8, Auipc (Some a1) 0); (12, Addi (Some a1) (Some a1) 35);
   (16, Addi (Some a7) None 7); (20, Ecall);
   (24, Addi (Some a7) None 2); (28, Ecall);
   (32, Jal (Some ra) (-8))].

(** ** user/usys.pl *)

(** [li a7, SYS_name; ecall; ret] *)
Definition stub (num : Z) : list instr := [Addi (Some a7) None num; Ecall; Jalr None (Some ra) 0].

(** The names of the stubs with the numbers of kernel/syscall.h. *)
Definition usys : list (string * Z) :=
  [("fork", 1); ("exit", 2); ("wait", 3); ("pipe", 4); ("read", 5); ("write", 16); ("close", 21);
   ("kill", 6); ("exec", 7); ("open", 15); ("mknod", 17); ("unlink", 18); ("fstat", 8); ("link", 19);
   ("mkdir", 20); ("chdir", 9); ("dup", 10); ("getpid", 11); ("sbrk", 12); ("sleep", 13); ("uptime", 14)]%string.

(** A stub run from its first instruction, the kernel answering with [v]: the
    registers at the system call, and where it returns. *)
Definition call_stub (num v : Z) (c : core) : option (regs * core) :=
  match stub num with
  | [i; _; k] =>
    match run_instr 0 i c with
    | Some c1 =>
      match run_instr 0 k (mk_core (u32 (pc c1 + 4)) (rset a0 v (xs c1))) with
      | Some c2 => Some (xs c1, c2)
      | None => None
      end
    | None => None
    end
  | _ => None
  end.

(** Reads a register of an updated file. *)
Ltac rsimp := repeat first [rewrite rset_eq | rewrite rset_ne by discriminate].

(** ** The stacks *)

(** On [n] harts, each enters [start] on the page of stack0 of its own. *)
Lemma entry_sp stack0 n hart f :
  0 <= stack0 -> 0 <= hart < n -> stack0 + PGSIZE * n < 2 ^ 32 ->
  _entry stack0 hart f sp = stack0 + PGSIZE * (hart + 1).
Proof.
  intros H0 Hh Hl. unfold _entry, PGSIZE in *. rsimp. unfold u32. rewrite Z.shiftl_mul_pow2 by lia.
  change (2 ^ 12) with 4096. rewrite (Z.mod_small (hart + 1)), (Z.mod_small (_ * _)), Z.mod_small by lia. lia.
Qed.
Lemma entry_stacks stack0 n f g h1 h2 :
  0 <= stack0 -> stack0 + PGSIZE * n < 2 ^ 32 -> 0 <= h1 < n -> 0 <= h2 < n ->
  (forall a, boot_stack stack0 h1 f a -> stack0 <= a < stack0 + PGSIZE * n) /\
  (h1 <> h2 -> forall a, ~ (boot_stack stack0 h1 f a /\ boot_stack stack0 h2 g a)).
Proof.
  intros H0 Hl Hh1 Hh2. unfold boot_stack. rewrite !(entry_sp stack0 n) by done. unfold PGSIZE in *.
  split; [intros a Hb; lia|intros Hne a [Hb1 Hb2]; lia].
Qed.

(** ** The first program *)

Definition is_exec (r : regs) : Prop := r a7 = 7 /\ r a0 = 36 /\ r a1 = 43.
Definition is_exit (r : regs) : Prop := r a7 = 2.

(** The array is not quite the assembled file: the directive .p2align 2 puts
    [argv] at 44, the next multiple of 4 behind the string, and the array has
    it at 43. *)
Lemma initcode_unaligned :
  initcode_program = initcode_S 43 /\ 36 + Z.of_nat (length (chars "/init")) + 2 = 43 /\ initcode_program <> initcode_S 44.
Proof. split_and!; [reflexivity|reflexivity|discriminate]. Qed.

Section Initcode.
Context (byte : Z -> option Z).
Hypothesis Hbyte : forall i b, initcode !! i = Some b -> byte (Z.of_nat i) = Some b.

Lemma initcode_fetch c (i : instr) :
  (exists n b0 b1 b2 b3, pc c = Z.of_nat n /\ initcode !! n = Some b0 /\ initcode !! (n + 1)%nat = Some b1 /\
     initcode !! (n + 2)%nat = Some b2 /\ initcode !! (n + 3)%nat = Some b3 /\
     decode (b0 + 256 * b1 + 65536 * b2 + 16777216 * b3) = Some i) ->
  fetch byte c = Some i.
Proof.
  intros (n & b0 & b1 & b2 & b3 & Hpc & H0 & H1 & H2 & H3 & Hd). unfold fetch. rewrite Hpc.
  rewrite (Hbyte n b0 H0).
  replace (Z.of_nat n + 1) with (Z.of_nat (n + 1)) by lia. rewrite (Hbyte _ b1 H1).
  replace (Z.of_nat n + 2) with (Z.of_nat (n + 2)) by lia. rewrite (Hbyte _ b2 H2).
  replace (Z.of_nat n + 3) with (Z.of_nat (n + 3)) by lia. by rewrite (Hbyte _ b3 H3).
Qed.

Lemma initcode_instrs : Forall (fun '(a, i) => forall f, fetch byte (mk_core a f) = Some i) initcode_program.
Proof.
  repeat (apply Forall_cons_2; [intros f|]); [..|by apply Forall_nil]; apply initcode_fetch; cbn [pc];
    [exists 0%nat|exists 4%nat|exists 8%nat|exists 12%nat|exists 16%nat|exists 20%nat|exists 24%nat|exists 28%nat|exists 32%nat];
    do 4 eexists; split_and!; reflexivity.
Qed.

(** Where the program is, with what in its registers, before the first system
    call and after it. *)
Inductive at_exec : core -> Prop :=
| at_0 f : at_exec (mk_core 0 f)
| at_4 f : f a0 = 0 -> at_exec (mk_core 4 f)
| at_8 f : f a0 = 36 -> at_exec (mk_core 8 f)
| at_12 f : f a0 = 36 -> f a1 = 8 -> at_exec (mk_core 12 f)
| at_16 f : f a0 = 36 -> f a1 = 43 -> at_exec (mk_core 16 f)
| at_20 f : is_exec f -> at_exec (mk_core 20 f).
Inductive at_exit : core -> Prop :=
| at_24 f : at_exit (mk_core 24 f)
| at_28 f : is_exit f -> at_exit (mk_core 28 f)
| at_32 f : at_exit (mk_core 32 f).
Inductive calls_so_far : list regs -> core -> Prop :=
| no_call c : at_exec c -> calls_so_far [] c
| some_calls r l c : is_exec r -> Forall is_exit l -> at_exit c -> calls_so_far (r :: l) c.

(** A step of the program is the instruction at its place. *)
Lemma step_at c i c' o c2 :
  fetch byte c = Some i -> run_instr 0 i c = Some c' -> user_step byte c o c2 -> o = None /\ c2 = c'.
Proof.
  intros Hf Hr Hs. destruct Hs as [d j d' Hf' Hr'|d v Hf']; by simplify_eq.
Qed.
Lemma step_call c o c2 :
  fetch byte c = Some Ecall -> user_step byte c o c2 ->
  exists v, o = Some (xs c) /\ c2 = mk_core (u32 (pc c + 4)) (rset a0 v (xs c)).
Proof.
  intros Hf Hs. destruct Hs as [d j d' Hf' Hr'|d v Hf']; [by simplify_eq|by exists v].
Qed.

Ltac step_with I Hs := destruct (step_at _ _ _ _ _ I eq_refl Hs) as [-> ->].

Lemma initcode_step l c o c' :
  calls_so_far l c -> user_step byte c o c' ->
  calls_so_far (match o with Some r => l ++ [r] | None => l end) c'.
Proof.
  pose proof initcode_instrs as Hi. unfold initcode_program in Hi. rewrite !Forall_cons in Hi.
  destruct Hi as (I0 & I4 & I8 & I12 & I16 & I20 & I24 & I28 & I32 & _).
  intros [c1 Hc|r l1 c1 Hr Hl Hc] Hs.
  - destruct Hc as [f|f H0|f H0|f H0 H1|f H0 H1|f H].
    + step_with (I0 f) Hs. apply no_call, at_4. reflexivity.
    + step_with (I4 f) Hs. apply no_call, at_8. cbn. rsimp. by rewrite H0.
    + step_with (I8 f) Hs. apply no_call, at_12; cbn; by rsimp.
    + step_with (I12 f) Hs. apply no_call, at_16; cbn; rsimp; by rewrite ?H1.
    + step_with (I16 f) Hs. apply no_call, at_20; split_and!; cbn; by rsimp.
    + destruct (step_call _ _ _ (I20 f) Hs) as (v & -> & ->). by apply some_calls, at_24.
  - destruct Hc as [f|f H|f].
    + step_with (I24 f) Hs. apply some_calls, at_28; [done|done|]. unfold is_exit. cbn. by rsimp.
    + destruct (step_call _ _ _ (I28 f) Hs) as (v & -> & ->). apply some_calls, at_32; [done|].
      apply Forall_app. split; [done|]. by apply Forall_singleton.
    + step_with (I32 f) Hs. by apply some_calls, at_24.
Qed.

(** The program always goes on. *)
Lemma initcode_progress l c : calls_so_far l c -> exists o c', user_step byte c o c'.
Proof.
  pose proof initcode_instrs as Hi. unfold initcode_program in Hi. rewrite !Forall_cons in Hi.
  destruct Hi as (I0 & I4 & I8 & I12 & I16 & I20 & I24 & I28 & I32 & _).
  assert (forall c i, fetch byte c = Some i -> exists o c', user_step byte c o c') as Hgo.
  { intros d i Hf. destruct (run_instr 0 i d) as [d'|] eqn:Hr; [by exists None, d'; eapply step_instr|].
    destruct i; try discriminate Hr. exists (Some (xs d)). eexists. by apply (step_ecall _ _ 0). }
  intros [c1 [f|f ?|f ?|f ? ?|f ? ?|f ?]|r l1 c1 _ _ [f|f ?|f]]; eauto.
Qed.

Lemma initcode_run c l c' : pc c = 0 -> user_run byte c l c' -> calls_so_far l c'.
Proof.
  intros Hpc. induction 1 as [|l c1 c2 _ IH Hs|l c1 r c2 _ IH Hs].
  - destruct c as [p f]. cbn in Hpc. subst p. apply no_call, at_0.
  - exact (initcode_step _ _ _ _ IH Hs).
  - exact (initcode_step _ _ _ _ IH Hs).
Qed.

Lemma run_more c c1 i c2 :
  user_run byte c [] c1 -> fetch byte c1 = Some i -> run_instr 0 i c1 = Some c2 -> user_run byte c [] c2.
Proof. intros. eapply run_instrs; [done|]. by eapply step_instr. Qed.

(** The first five instructions. *)
Lemma initcode_first f : exists c, user_run byte (mk_core 0 f) [] c /\ fetch byte c = Some Ecall /\ is_exec (xs c).
Proof.
  pose proof initcode_instrs as Hi. unfold initcode_program in Hi. rewrite !Forall_cons in Hi.
  destruct Hi as (I0 & I4 & I8 & I12 & I16 & I20 & _).
  pose proof (run_more _ _ _ _ (run_nil byte (mk_core 0 f)) (I0 f) eq_refl) as R1.
  pose proof (run_more _ _ _ _ R1 (I4 _) eq_refl) as R2. pose proof (run_more _ _ _ _ R2 (I8 _) eq_refl) as R3.
  pose proof (run_more _ _ _ _ R3 (I12 _) eq_refl) as R4. pose proof (run_more _ _ _ _ R4 (I16 _) eq_refl) as R5.
  eexists. split; [exact R5|]. split; [apply I20|]. split_and!; cbn; by rsimp.
Qed.
End Initcode.

(** The first program, the bytes of [initcode], started at address 0 with
    any registers and any memory beyond them: it never stops, and runs into
    its first system call after five instructions; that is [exec] with the
    addresses 36 and 43, and every later one, should it come back, is
    [exit]. *)
Theorem initcode_calls byte f :
  (forall i b, initcode !! i = Some b -> byte (Z.of_nat i) = Some b) ->
  (exists c, user_run byte (mk_core 0 f) [] c /\ fetch byte c = Some Ecall /\ is_exec (xs c)) /\
  forall l c, user_run byte (mk_core 0 f) l c ->
    (exists o c', user_step byte c o c') /\
    match l with
    | [] => True
    | r :: l' => is_exec r /\ Forall is_exit l'
    end.
Proof.
  intros Hb. split; [by apply initcode_first|]. intros l c Hr.
  pose proof (initcode_run byte Hb (mk_core 0 f) l c eq_refl Hr) as Hc. split; [by eapply initcode_progress|].
  destruct Hc; [done|by split].
Qed.

(** ** The stubs *)

(** A stub enters the kernel with its number in [a7] and its arguments where
    the caller put them, and returns to its caller with the kernel's answer
    in [a0]; only [a7] is lost besides. *)
Lemma stub_calls num v c :
  0 <= num < 2048 -> Z.testbit (xs c ra) 0 = false -> is_u32 (xs c ra) ->
  exists r c', call_stub num v c = Some (r, c') /\ r a7 = num /\ (forall x, x <> a7 -> r x = xs c x) /\
    pc c' = xs c ra /\ xs c' a0 = v /\ forall x, x <> a0 -> x <> a7 -> xs c' x = xs c x.
Proof.
  intros Hn Hra Hu. eexists _, _. split; [reflexivity|]. cbn [xs pc rput rget]. rewrite !Z.add_0_l, !Z.add_0_r. split_and!.
  - rsimp. apply u32_small. unfold is_u32. lia.
  - intros x Hx. by rewrite rset_ne.
  - rsimp. rewrite (u32_small _ Hu). apply Z.bits_inj'. intros n Hn0. rewrite Z.clearbit_eqb.
    destruct (Z.eqb_spec 0 n) as [<-|]; [by rewrite Hra|]. by rewrite andb_true_r.
  - by rsimp.
  - intros x H1 H2. by rewrite !rset_ne.
Qed.
