(* ===== verification/Drivers.v ===== *)
(** * Drivers the platform layer has replaced

    kernel/uart.c, kernel/plic.c and kernel/sdcard.c are linked into the kernel
    but no longer called; kernel/virtio_disk.c is not linked.  The static data
    of uart.c and virtio_disk.c are those of the QEMU platform layer, which was
    made from them ([tx_buf] and [vd_desc] to [vd_ops] of [pdata], the locks
    [LUart] and [LDisk]); virtio_disk.c has [vd_b] and [b_disk] besides, and its
    sleepers on buffer [b] wait on [CDiskInfo b].  kernel/ramdisk.c cannot be
    modelled: it uses fields and macros that no file of the tree declares. *)
From S2P Require Import Prelude Memory Machine Platform Spinlock Kalloc Proc Console Qemu.
From stdpp Require Import gmap strings countable prelude.

Open Scope Z_scope.

Section Drivers.
Context {L : Layout} {W : World} {Ser : Serial}.

(** ** kernel/uart.c *)

Definition UART0 : Z := 268435456.
Definition ReadReg (reg : Z) : K Z := v ← mmio_load (UART0 + reg); mret (u8 v).
Definition WriteReg (reg v : Z) : K unit := mmio_store (UART0 + reg) (u8 v).
Definition RHR : Z := 0.
Definition THR : Z := 0.
Definition IER : Z := 1.
Definition FCR : Z := 2.
Definition ISR : Z := 2.
Definition LCR : Z := 3.
Definition LSR : Z := 5.
Definition UART_TX_BUF_SIZE : Z := 32.

Definition uartinit : K unit :=
  WriteReg IER 0 ;;
  WriteReg LCR (Z.shiftl 1 7) ;;
  WriteReg 0 (Z.land (32000000 / 115200) 255) ;;
  WriteReg 1 (Z.shiftr (32000000 / 115200) 8) ;;
  WriteReg LCR 0 ;;
  WriteReg FCR 7 ;;
  WriteReg IER (Z.lor (Z.shiftl 1 1) (Z.shiftl 1 0)) ;;
  initlock LUart.

(** [while(1)] of [uartstart]: a turn takes one byte of the ring. *)
Fixpoint uartstart_loop (fuel : nat) : K unit :=
  d ← gets (fun s => plat s);
  if tx_w d =? tx_r d then
    ReadReg ISR ;;
    mret tt
  else
  lsr ← ReadReg LSR;
  if Z.land lsr (Z.shiftl 1 5) =? 0 then mret tt else
  let c := at_ (tx_buf d) (Z.to_nat (tx_r d mod UART_TX_BUF_SIZE)) in
  modify (upd_plat (fun d => set_tx_r (u32 (tx_r d + 1)) d)) ;;
  wakeup CUart ;;
  WriteReg THR c ;;
  match fuel with
  | O => hang
  | S fuel' => uartstart_loop fuel'
  end.
Definition uartstart : K unit :=
  n ← gets (fun s => Z.to_nat (u32 (tx_w (plat s) - tx_r (plat s))));
  uartstart_loop n.

Fixpoint uartputc_wait (fuel : nat) : K unit :=
  d ← gets (fun s => plat s);
  if tx_w d =? u32 (tx_r d + UART_TX_BUF_SIZE) then
    match fuel with
    | O => hang
    | S fuel' => sleep CUart LUart ;; uartputc_wait fuel'
    end
  else mret tt.
Definition uartputc (c : Z) : K unit :=
  acquire LUart ;;
  p ← gets (fun s => panicked s);
  if negb (p =? 0) then hang else
  uartputc_wait patience ;;
  modify (upd_plat (fun d =>
    set_tx_buf (<[Z.to_nat (tx_w d mod UART_TX_BUF_SIZE) := u8 c]> (tx_buf d)) d)) ;;
  modify (upd_plat (fun d => set_tx_w (u32 (tx_w d + 1)) d)) ;;
  uartstart ;;
  release LUart.

Fixpoint uartputc_spin (fuel : nat) : K unit :=
  lsr ← ReadReg LSR;
  if Z.land lsr (Z.shiftl 1 5) =? 0 then
    match fuel with
    | O => hang
    | S fuel' => uartputc_spin fuel'
    end
  else mret tt.
Definition uartputc_sync (c : Z) : K unit :=
  push_off ;;
  p ← gets (fun s => panicked s);
  if negb (p =? 0) then hang else
  uartputc_spin patience ;;
  WriteReg THR c ;;
  pop_off.

Definition uartgetc : K Z :=
  lsr ← ReadReg LSR;
  if negb (Z.land lsr 1 =? 0) then ReadReg RHR else mret (-1).

Fixpoint uartintr_loop (fuel : nat) : K unit :=
  match fuel with
  | O => hang
  | S fuel' =>
    c ← uartgetc;
    if c =? -1 then mret tt else
    consoleintr c ;;
    uartintr_loop fuel'
  end.
Definition uartintr : K unit :=
  uartintr_loop patience ;;
  acquire LUart ;;
  uartstart ;;
  release LUart.

(** ** kernel/plic.c *)

Definition PLIC : Z := 201326592.
Definition UART0_IRQ : Z := 10.
Definition VIRTIO0_IRQ : Z := 1.
Definition PLIC_SENABLE (hart : Z) : Z := PLIC + 8320 + hart * 256.
Definition PLIC_SPRIORITY (hart : Z) : Z := PLIC + 2101248 + hart * 8192.
Definition PLIC_SCLAIM (hart : Z) : Z := PLIC + 2101252 + hart * 8192.

(** [qemu] says whether XV6_PLATFORM_QEMU is defined. *)
Definition plicinit (qemu : bool) : K unit :=
  mmio_store (PLIC + UART0_IRQ * 4) 1 ;;
  if qemu then mmio_store (PLIC + VIRTIO0_IRQ * 4) 1 else mret tt.
Definition plicinithart (qemu : bool) : K unit :=
  hart ← cpuid;
  let enables := Z.shiftl 1 UART0_IRQ in
  let enables := if qemu then Z.lor enables (Z.shiftl 1 VIRTIO0_IRQ) else enables in
  mmio_store (PLIC_SENABLE hart) enables ;;
  mmio_store (PLIC_SPRIORITY hart) 0.
Definition plic_claim : K Z :=
  hart ← cpuid;
  irq ← mmio_load (PLIC_SCLAIM hart);
  mret (s32 irq).
Definition plic_complete (irq : Z) : K unit :=
  hart ← cpuid;
  mmio_store (PLIC_SCLAIM hart) (u32 irq).
End Drivers.

(** ** kernel/sdcard.c *)

Module SdCard.

Definition SDCARD : Z := 268439552.
Definition RW : Z := 0.
Definition CTR : Z := 4.

(** One turn of the inner loop of [getCRC16]. *)
Definition crc_bit (crc : Z) : Z :=
  let crc := Z.shiftl crc 1 in
  if negb (Z.land crc (Z.shiftl 1 16) =? 0) then Z.lxor crc 69665 else crc.
Definition crc_byte (crc c : Z) : Z := Nat.iter 8 crc_bit (Z.lxor crc (Z.shiftl c 8)).
Definition getCRC16 (message : list Z) : Z := foldl crc_byte 0 message.

Section SdCard.
Context {W : World}.

Definition ReadReg (reg : Z) : K Z := v ← mmio_load (SDCARD + reg); mret (u8 v).
Definition WriteReg (reg v : Z) : K unit := mmio_store (SDCARD + reg) (u8 v).

(** The halves of the cycle counter, by their CSR numbers. *)
Definition CYCLE : Z := 3072.
Definition CYCLEH : Z := 3200.
Fixpoint mtime_loop (fuel : nat) : K Z :=
  h1 ← mmio_load CYCLEH;
  l ← mmio_load CYCLE;
  h2 ← mmio_load CYCLEH;
  if negb (h1 =? h2) then
    match fuel with
    | O => hang
    | S fuel' => mtime_loop fuel'
    end
  else mret (Z.lor (Z.shiftl h1 32) l).
Definition mtime : K Z := mtime_loop patience.

Fixpoint msleep_loop (fuel : nat) (t dt : Z) : K unit :=
  now ← mtime;
  if (now - t) mod 18446744073709551616 <? dt then
    match fuel with
    | O => hang
    | S fuel' => msleep_loop fuel' t dt
    end
  else mret tt.
Definition msleep (dt : Z) : K unit :=
  let dt := u32 (dt * 32) in
  t ← mtime;
  msleep_loop patience t dt.

Definition spi_rw (c : Z) : K Z :=
  WriteReg RW c ;;
  ReadReg RW.

(** [while ((i < n) && (spi_rw(255) == 255)) ++i;] with [n] turns left. *)
Fixpoint spi_wait (n : nat) : K unit :=
  match n with
  | O => mret tt
  | S n' =>
    c ← spi_rw 255;
    if c =? 255 then spi_wait n' else mret tt
  end.

Definition spi_cmd (cmd arg0 arg1 arg2 arg3 crc : Z) : K Z :=
  WriteReg RW 255 ;;
  WriteReg RW (Z.lor 64 cmd) ;;
  WriteReg RW arg0 ;;
  WriteReg RW arg1 ;;
  WriteReg RW arg2 ;;
  WriteReg RW arg3 ;;
  WriteReg RW crc ;;
  spi_wait 10 ;;
  ReadReg RW.

Fixpoint spi_r_loop (n : nat) (r : Z) : K Z :=
  match n with
  | O => mret r
  | S n' =>
    c ← spi_rw 255;
    spi_r_loop n' (Z.lor (u32 (Z.shiftl r 8)) c)
  end.
Definition spi_r : K Z := spi_r_loop 4 0.

(** [for (int i = 0; i < 10; i++)] of [spi_init], left when the card is ready. *)
Fixpoint spi_ready (n : nat) : K unit :=
  match n with
  | O => mret tt
  | S n' =>
    msleep 100000 ;;
    spi_cmd 55 0 0 0 0 0 ;;
    spi_cmd 41 64 0 0 0 0 ;;
    r ← ReadReg RW;
    if r =? 0 then mret tt else spi_ready n'
  end.
Definition spi_init : K Z :=
  initlock LDisk ;;
  msleep 1000 ;;
  WriteReg CTR 1 ;;
  for_range 100 0 (fun _ =>
    msleep 1 ;;
    WriteReg CTR 3 ;;
    msleep 1 ;;
    WriteReg CTR 1) ;;
  msleep 1 ;;
  WriteReg CTR 0 ;;
  spi_cmd 0 0 0 0 0 149 ;;
  spi_cmd 8 0 0 1 170 135 ;;
  spi_r ;;
  spi_ready 10 ;;
  spi_cmd 58 0 0 0 0 0 ;;
  ocr ← spi_r;
  (if negb (Z.lnot (Z.land (s32 ocr) (Z.shiftl 1 30)) =? 0) then spi_cmd 16 0 0 2 0 0 ;; mret tt
   else mret tt) ;;
  mret 0.

(** The bytes of a block number, the most significant first. *)
Definition spi_addr (block : Z) : Z * Z * Z * Z :=
  (Z.land (Z.shiftr block 24) 255, Z.land (Z.shiftr block 16) 255,
   Z.land (Z.shiftr block 8) 255, Z.land block 255).

Definition spi_rb (block buf : Z) : K unit :=
  acquire LDisk ;;
  let '(b1, b2, b3, b4) := spi_addr block in
  r ← spi_cmd 17 b1 b2 b3 b4 0;
  (if r =? 0 then
     spi_wait (Z.to_nat 100000) ;;
     for_range 514 0 (fun i =>
       c ← spi_rw 255;
       modify (fun s => set_mem (store8 (mem s) (buf + Z.of_nat i) c) s))
   else mret tt) ;;
  crc ← gets (fun s => getCRC16 (load_bytes (mem s) buf 514));
  if negb (crc =? 0) then panic "CRC16 error" else
  release LDisk.

(** [while (spi_rw(255) != 255)], which panics when [i] exceeds 100000. *)
Fixpoint spi_busy (n : nat) (msg : string) : K unit :=
  c ← spi_rw 255;
  if c =? 255 then mret tt else
  match n with
  | O => panic msg
  | S n' => spi_busy n' msg
  end.
Definition spi_wb (block buf : Z) : K unit :=
  acquire LDisk ;;
  let '(b1, b2, b3, b4) := spi_addr block in
  spi_cmd 24 b1 b2 b3 b4 0 ;;
  spi_busy (Z.to_nat 100001) "spi_wb1" ;;
  spi_rw 254 ;;
  for_range 514 0 (fun i =>
    c ← gets (fun s => load8 (mem s) (buf + Z.of_nat i));
    spi_rw c ;;
    mret tt) ;;
  spi_rw 255 ;;
  spi_busy (Z.to_nat 100001) "spi_wb2" ;;
  release LDisk.
End SdCard.
End SdCard.

(** ** kernel/virtio_disk.c *)

Module VirtioDisk.
Section VirtioDisk.
Context {L : Layout} {W : World}.

Definition VIRTIO0 : Z := 268439552.
Definition R_get (r : Z) : K Z := mmio_load (VIRTIO0 + r).
Definition R_set (r v : Z) : K unit := mmio_store (VIRTIO0 + r) (u32 v).

(** The four identification registers, read from left to right until one is
    not as it should be. *)
Definition identify : K bool :=
  magic ← R_get VIRTIO_MMIO_MAGIC_VALUE;
  if negb (magic =? 1953655158) then mret false else
  version ← R_get VIRTIO_MMIO_VERSION;
  if negb (version =? 2) then mret false else
  device ← R_get VIRTIO_MMIO_DEVICE_ID;
  if negb (device =? 2) then mret false else
  vendor ← R_get VIRTIO_MMIO_VENDOR_ID;
  mret (vendor =? 1431127377).

Definition virtio_disk_init : K unit :=
  initlock LDisk ;;
  found ← identify;
  if negb found then panic "could not find virtio disk" else
  R_set VIRTIO_MMIO_STATUS 0 ;;
  let status := VIRTIO_CONFIG_S_ACKNOWLEDGE in
  R_set VIRTIO_MMIO_STATUS status ;;
  let status := Z.lor status VIRTIO_CONFIG_S_DRIVER in
  R_set VIRTIO_MMIO_STATUS status ;;
  features ← R_get VIRTIO_MMIO_DEVICE_FEATURES;
  let features := foldl Z.clearbit features
    [VIRTIO_BLK_F_RO; VIRTIO_BLK_F_SCSI; VIRTIO_BLK_F_CONFIG_WCE; VIRTIO_BLK_F_MQ;
     VIRTIO_F_ANY_LAYOUT; VIRTIO_RING_F_EVENT_IDX; VIRTIO_RING_F_INDIRECT_DESC] in
  R_set VIRTIO_MMIO_DRIVER_FEATURES features ;;
  let status := Z.lor status VIRTIO_CONFIG_S_FEATURES_OK in
  R_set VIRTIO_MMIO_STATUS status ;;
  status ← R_get VIRTIO_MMIO_STATUS;
  if Z.land status VIRTIO_CONFIG_S_FEATURES_OK =? 0 then panic "virtio disk FEATURES_OK unset" else
  R_set VIRTIO_MMIO_QUEUE_SEL 0 ;;
  ready ← R_get VIRTIO_MMIO_QUEUE_READY;
  if negb (ready =? 0) then panic "virtio disk should not be ready" else
  max ← R_get VIRTIO_MMIO_QUEUE_NUM_MAX;
  if max =? 0 then panic "virtio disk has no queue 0" else
  if max <? Z.of_nat NUM then panic "virtio disk max queue too short" else
  desc ← kalloc;
  modify (upd_plat (set_vd_desc desc)) ;;
  avail ← kalloc;
  modify (upd_plat (set_vd_avail avail)) ;;
  used ← kalloc;
  modify (upd_plat (set_vd_used used)) ;;
  if (desc =? 0) || (avail =? 0) || (used =? 0) then panic "virtio disk kalloc" else
  modify (fun s => set_mem (memset (mem s) desc 0 PGSIZE) s) ;;
  modify (fun s => set_mem (memset (mem s) avail 0 PGSIZE) s) ;;
  modify (fun s => set_mem (memset (mem s) used 0 PGSIZE) s) ;;
  R_set VIRTIO_MMIO_QUEUE_NUM (Z.of_nat NUM) ;;
  R_set VIRTIO_MMIO_QUEUE_DESC_LOW desc ;;
  R_set VIRTIO_MMIO_QUEUE_DESC_HIGH 0 ;;
  R_set VIRTIO_MMIO_DRIVER_DESC_LOW avail ;;
  R_set VIRTIO_MMIO_DRIVER_DESC_HIGH 0 ;;
  R_set VIRTIO_MMIO_DEVICE_DESC_LOW used ;;
  R_set VIRTIO_MMIO_DEVICE_DESC_HIGH 0 ;;
  R_set VIRTIO_MMIO_QUEUE_READY 1 ;;
  for_range NUM 0 (fun i => modify (upd_plat (fun d => set_vd_free (<[i := 1]> (vd_free d)) d))) ;;
  R_set VIRTIO_MMIO_STATUS (Z.lor status VIRTIO_CONFIG_S_DRIVER_OK).

(** The loop of [alloc_desc] from descriptor [i] on, [n] of them. *)
Fixpoint alloc_desc_from (n i : nat) : K Z :=
  match n with
  | O => mret (-1)
  | S n' =>
    f ← gets (fun s => at_ (vd_free (plat s)) i);
    if negb (f =? 0) then
      modify (upd_plat (fun d => set_vd_free (<[i := 0]> (vd_free d)) d)) ;;
      mret (Z.of_nat i)
    else alloc_desc_from n' (S i)
  end.
Definition alloc_desc : K Z := alloc_desc_from NUM 0.

Definition free_desc (i : nat) : K unit :=
  if (NUM <=? i)%nat then panic "free_desc 1" else
  f ← gets (fun s => at_ (vd_free (plat s)) i);
  if negb (f =? 0) then panic "free_desc 2" else
  modify (fun s => set_mem (desc_set (vd_desc (plat s)) i 0 0 0 0 (mem s)) s) ;;
  modify (upd_plat (fun d => set_vd_free (<[i := 1]> (vd_free d)) d)) ;;
  wakeup CDiskFree.

(** The loop of [free_chain]; a chain of more than NUM descriptors comes back
    to a free one and panics. *)
Fixpoint free_chain_from (fuel i : nat) : K unit :=
  flag ← gets (fun s => desc_flags (vd_desc (plat s)) i (mem s));
  nxt ← gets (fun s => desc_next (vd_desc (plat s)) i (mem s));
  free_desc i ;;
  if negb (Z.land flag VRING_DESC_F_NEXT =? 0) then
    match fuel with
    | O => hang
    | S fuel' => free_chain_from fuel' (Z.to_nat nxt)
    end
  else mret tt.
Definition free_chain (i : nat) : K unit := free_chain_from NUM i.

(** [for(int i = 0; i < 3; i++)] of [alloc3_desc] with [n] turns left and the
    descriptors taken so far, [None] for -1. *)
Fixpoint alloc3_from (n : nat) (idx : list nat) : K (option (list nat)) :=
  match n with
  | O => mret (Some idx)
  | S n' =>
    i ← alloc_desc;
    if i <? 0 then
      for_range (length idx) 0 (fun j => free_desc (nth j idx 0%nat)) ;;
      mret None
    else alloc3_from n' (idx ++ [Z.to_nat i])
  end.
Definition alloc3_desc : K (option (list nat)) := alloc3_from 3 [].

Fixpoint alloc3_sleep (fuel : nat) : K (list nat) :=
  r ← alloc3_desc;
  match r with
  | Some idx => mret idx
  | None =>
    match fuel with
    | O => hang
    | S fuel' => sleep CDiskFree LDisk ;; alloc3_sleep fuel'
    end
  end.

(** [while(b->disk == 1) sleep(b, &disk.vdisk_lock);] *)
Fixpoint await (fuel b : nat) : K unit :=
  d ← gets (fun s => from_option b_disk 0 (bufs s !! b));
  if d =? 1 then
    match fuel with
    | O => hang
    | S fuel' => sleep (CDiskInfo b) LDisk ;; await fuel' b
    end
  else mret tt.

Definition virtio_disk_rw (b : nat) (write : bool) : K unit :=
  blockno ← gets (fun s => from_option b_blockno 0 (bufs s !! b));
  let sector := u32 (blockno * (BSIZE / 512)) in
  acquire LDisk ;;
  idx ← alloc3_sleep patience;
  let i0 := nth 0 idx 0%nat in
  let i1 := nth 1 idx 0%nat in
  let i2 := nth 2 idx 0%nat in
  modify (upd_plat (fun d => set_vd_ops
    (<[i0 := (if write then VIRTIO_BLK_T_OUT else VIRTIO_BLK_T_IN, sector)]> (vd_ops d)) d)) ;;
  modify (fun s => set_mem (desc_set (vd_desc (plat s)) i0 (vd_ops_addr i0) 16 VRING_DESC_F_NEXT
    (Z.of_nat i1) (mem s)) s) ;;
  modify (fun s => set_mem (desc_set (vd_desc (plat s)) i1 (buf_addr b) BSIZE
    (Z.lor (if write then 0 else VRING_DESC_F_WRITE) VRING_DESC_F_NEXT) (Z.of_nat i2) (mem s)) s) ;;
  modify (upd_plat (fun d => set_vd_status (<[i0 := 255]> (vd_status d)) d)) ;;
  modify (fun s => set_mem (desc_set (vd_desc (plat s)) i2 (vd_status_addr i0) 1
    VRING_DESC_F_WRITE 0 (mem s)) s) ;;
  modify (upd_buf b (set_b_disk 1)) ;;
  modify (upd_plat (fun d => set_vd_b (<[i0 := Some b]> (vd_b d)) d)) ;;
  modify (fun s =>
    let a := vd_avail (plat s) in
    set_mem (store16 (mem s) (a + 4 + 2 * (avail_idx a (mem s) mod Z.of_nat NUM)) (Z.of_nat i0)) s) ;;
  modify (fun s =>
    let a := vd_avail (plat s) in
    set_mem (store16 (mem s) (a + 2) (avail_idx a (mem s) + 1)) s) ;;
  R_set VIRTIO_MMIO_QUEUE_NOTIFY 0 ;;
  await patience b ;;
  modify (upd_plat (fun d => set_vd_b (<[i0 := None]> (vd_b d)) d)) ;;
  free_chain i0 ;;
  release LDisk.

(** [while(disk.used_idx != disk.used->idx)]; [used_idx] takes 2^16 values.  A
    completed chain has its buffer in [info]. *)
Fixpoint intr_loop (fuel : nat) : K unit :=
  u ← gets (fun s => vd_used_idx (plat s));
  i ← gets (fun s => used_idx (vd_used (plat s)) (mem s));
  if u =? i then mret tt else
  id ← gets (fun s => Z.to_nat (used_id (vd_used (plat s)) (u mod Z.of_nat NUM) (mem s)));
  st ← gets (fun s => at_ (vd_status (plat s)) id);
  if negb (st =? 0) then panic "virtio_disk_intr status" else
  b ← gets (fun s => default 0%nat (nth id (vd_b (plat s)) None));
  modify (upd_buf b (set_b_disk 0)) ;;
  wakeup (CDiskInfo b) ;;
  modify (upd_plat (set_vd_used_idx ((u + 1) mod 65536))) ;;
  match fuel with
  | O => hang
  | S fuel' => intr_loop fuel'
  end.
Definition virtio_disk_intr : K unit :=
  acquire LDisk ;;
  st ← R_get VIRTIO_MMIO_INTERRUPT_STATUS;
  R_set VIRTIO_MMIO_INTERRUPT_ACK (Z.land st 3) ;;
  intr_loop (Z.to_nat 65536) ;;
  release LDisk.
End VirtioDisk.
End VirtioDisk.
