(* ===== verification/ProcSpec.v ===== *)
(** * Sleep, wakeup, kill and the scheduler (kernel/proc.c): what they do

    [ctx me s]: process [me] runs in the kernel and holds no spinlock, and the
    kernel's locks are initialised.  Operations are described by the state they
    return. *)
From S2P Require Import Prelude Memory Machine Platform Sv32 Spinlock Printf Kalloc Vm Proc.
From stdpp Require Import gmap strings countable sorting prelude.

Open Scope Z_scope.

(** The locks that exist from boot on, all but those of pipes. *)
Definition static_lock (lk : lockid) : Prop :=
  match lk with
  | LPipe _ => False
  | LProc i => (i < NPROC)%nat
  | LSleep (SLBuf i) => (i < NBUF)%nat
  | LSleep (SLInode i) => (i < NINODE)%nat
  | _ => True
  end.

Record ctx (me : nat) (s : kstate) : Prop := {
  ctx_settled : settled s;
  ctx_locks : forall lk, static_lock lk -> lock_free lk s;
  ctx_cur : c_proc (kcpu s) = Some me;
  ctx_procs : length (procs s) = NPROC;
  ctx_me : (me < NPROC)%nat;
}.

(** ** The current process *)

Lemma myproc_ok s : settled s -> myproc s = Ok (c_proc (kcpu s)) s.
Proof.
  intros Hs. unfold myproc. mstep push_off_ok. erewrite bind_ok by (by apply pop_off_pushed).
  done.
Qed.

Lemma curproc_ok me s : settled s -> c_proc (kcpu s) = Some me -> curproc s = Ok me s.
Proof. intros Hs Hc. unfold curproc. erewrite bind_ok by (by apply myproc_ok). by rewrite Hc. Qed.

(** ** Wakeup *)

(** What [wakeup(ch)] called by [me] makes of entry [i] of the table. *)
Definition wake (me : option nat) (ch : option chan) (i : nat) (p : proc) : proc :=
  if decide (me = Some i) then p else
  if decide (p_state p = SLEEPING) then
    if decide (p_chan p = ch) then set_p_state RUNNABLE p else p
  else p.

Lemma wake_idem me ch i q : wake me ch i (wake me ch i q) = wake me ch i q.
Proof. unfold wake. repeat case_decide; done. Qed.
Lemma imap_imap {A} (G F : nat -> A -> A) l : imap G (imap F l) = imap (fun j q => G j (F j q)) l.
Proof. apply list_eq. intros i. rewrite !list_lookup_imap. by destruct (l !! i). Qed.

Lemma imap_lookup_alter {A} (f : nat -> A -> A) i l :
  alter (f i) i (imap (fun j x => if decide (j < i)%nat then f j x else x) l) =
  imap (fun j x => if decide (j < S i)%nat then f j x else x) l.
Proof.
  apply list_eq. intros j. destruct (decide (j = i)) as [->|Hne].
  - rewrite list_lookup_alter_eq, !list_lookup_imap. destruct (l !! i); cbn; [|done].
    rewrite decide_False by lia. by rewrite decide_True by lia.
  - rewrite list_lookup_alter_ne by done. rewrite !list_lookup_imap.
    destruct (l !! j); cbn; [|done]. do 2 f_equal.
    destruct (decide (j < i)%nat), (decide (j < S i)%nat); try done; lia.
Qed.

Lemma imap_id {A} (l : list A) : imap (fun _ x => x) l = l.
Proof. apply list_eq. intros i. rewrite list_lookup_imap. by destruct (l !! i). Qed.

(** The table after the first [i] turns of the loop. *)
Definition wake_upto (me : option nat) (ch : option chan) (i : nat) (ps : list proc) : list proc :=
  imap (fun j p => if decide (j < i)%nat then wake me ch j p else p) ps.

Lemma set_procs_id s : set_procs (procs s) s = s.
Proof. by destruct s. Qed.

(** Two updates of an entry that agree on what is there. *)
Lemma upd_proc_ext i f g p s :
  procs s !! i = Some p -> f p = g p -> upd_proc i f s = upd_proc i g s.
Proof.
  intros Hp E. unfold upd_proc. f_equal. apply list_eq. intros j.
  destruct (decide (i = j)) as [<-|Hne].
  - rewrite !list_lookup_alter_eq, Hp. cbn. by rewrite E.
  - by rewrite !list_lookup_alter_ne by done.
Qed.
Lemma upd_proc_id i f p s : procs s !! i = Some p -> f p = p -> upd_proc i f s = s.
Proof.
  intros Hp E. rewrite (upd_proc_ext i f (fun x => x) p) by done.
  unfold upd_proc. rewrite list_alter_id by done. apply set_procs_id.
Qed.

Lemma proc_of_lookup s i p : procs s !! i = Some p -> proc_of s i = p.
Proof. intros H. unfold proc_of. by rewrite H. Qed.
Lemma lookup_proc_of s i : (i < length (procs s))%nat -> procs s !! i = Some (proc_of s i).
Proof. intros [p Hp]%lookup_lt_is_Some. by rewrite (proc_of_lookup _ _ _ Hp). Qed.

(** An update of the process table inside the critical section of one lock. *)
Lemma critical_proc lk i f s :
  settled s -> lock_free lk s ->
  release lk (upd_proc i f (acq lk s)) = Ok tt (upd_proc i f s).
Proof.
  intros Hs Hf. change (upd_proc i f (acq lk s)) with (acq lk (upd_proc i f s)).
  apply release_acq; [|done]. destruct Hs; by split.
Qed.

(** One turn of the loop of [wakeup]. *)
Lemma wakeup_turn ch i s p :
  settled s -> lock_free (LProc i) s -> procs s !! i = Some p ->
  (me ← myproc;
   if decide (me = Some i) then mret tt else
   acquire (LProc i) ;;
   p ← gets (fun s => proc_of s i);
   (if decide (p_state p = SLEEPING) then
      if decide (p_chan p = ch) then pset i (set_p_state RUNNABLE) else mret tt
    else mret tt) ;;
   release (LProc i)) s = Ok tt (upd_proc i (wake (c_proc (kcpu s)) ch i) s).
Proof.
  intros Hs Hl Hp. erewrite bind_ok by (by apply myproc_ok).
  case_decide as Hme.
  { rewrite (upd_proc_id i _ p); [done|done|]. unfold wake. by rewrite decide_True. }
  mstep acquire_ok. rewrite (proc_of_lookup _ i p) by done.
  rewrite (upd_proc_ext i _ (fun p => if decide (p_state p = SLEEPING) then
    if decide (p_chan p = ch) then set_p_state RUNNABLE p else p else p) p) by
    (first [done | unfold wake; by rewrite decide_False]).
  case_decide; [case_decide|].
  - unfold pset. msimp. rewrite critical_proc by done. f_equal.
    apply (upd_proc_ext i _ _ p); [done|]. by rewrite !decide_True.
  - msimp. rewrite release_acq by done. f_equal. symmetry.
    apply (upd_proc_id i _ p); [done|]. rewrite decide_True by done. by rewrite decide_False.
  - msimp. rewrite release_acq by done. f_equal. symmetry.
    apply (upd_proc_id i _ p); [done|]. by rewrite decide_False.
Qed.

(** [wakeup] makes exactly the sleepers on the channel runnable, the caller
    excepted, and leaves everything else as it is. *)
Lemma wakeup_on_ok ch s :
  settled s -> (forall i, (i < NPROC)%nat -> lock_free (LProc i) s) ->
  length (procs s) = NPROC ->
  wakeup_on ch s = Ok tt (set_procs (imap (wake (c_proc (kcpu s)) ch) (procs s)) s).
Proof.
  intros Hs Hl Hn.
  assert (exists s', wakeup_on ch s = Ok tt s' /\
    s' = set_procs (wake_upto (c_proc (kcpu s)) ch (0 + NPROC) (procs s)) s) as (s' & E & ->).
  { apply (for_range_inv (fun i t => t = set_procs (wake_upto (c_proc (kcpu s)) ch i (procs s)) s)).
    - unfold wake_upto. rewrite imap_ext with (g := fun _ p => p).
      + by rewrite imap_id, set_procs_id.
      + intros. by rewrite decide_False by lia.
    - intros i t Hi ->. eexists. split; [|reflexivity].
      destruct (procs (set_procs (wake_upto (c_proc (kcpu s)) ch i (procs s)) s) !! i) as [p|] eqn:Hp.
      + rewrite (wakeup_turn ch i _ p); [|destruct Hs; by split|apply Hl; lia|done].
        unfold upd_proc, wake_upto. ksimp. by rewrite imap_lookup_alter.
      + apply lookup_ge_None in Hp. ksimp in Hp. unfold wake_upto in Hp.
        rewrite length_imap in Hp. lia. }
  rewrite E. do 2 f_equal. apply imap_ext. intros j p Hj.
  rewrite decide_True; [done|]. apply lookup_lt_Some in Hj. lia.
Qed.

(** [wakeup] with the condition lock held. *)
(** What [wakeup] on [ch] makes of the processes. *)
Definition woken_on (me : nat) (ch : chan) (s : kstate) : kstate :=
  set_procs (imap (wake (Some me) (Some ch)) (procs s)) s.
Lemma ctx_woken_on me ch s : ctx me s -> ctx me (woken_on me ch s).
Proof. intros [[] H2 H3 H4 H5]. split; [by split|done|done| |done]. unfold woken_on. cbn. by rewrite length_imap. Qed.

Lemma wakeup_under me lk ch s :
  ctx me s -> (forall i, lk <> LProc i) -> 
  wakeup ch (acq lk s) = Ok tt (acq lk (set_procs (imap (wake (Some me) (Some ch)) (procs s)) s)).
Proof.
  intros Hc Hlk. unfold wakeup. rewrite wakeup_on_ok.
  - change (c_proc (kcpu (acq lk s))) with (c_proc (kcpu s)). by rewrite (ctx_cur _ _ Hc).
  - apply settled_acq, Hc.
  - intros i Hi. pose proof (ctx_locks _ _ Hc (LProc i) Hi). eauto with kernel.
  - apply Hc.
Qed.

Lemma killed_ok i s :
  settled s -> lock_free (LProc i) s -> killed i s = Ok (p_killed (proc_of s i)) s.
Proof.
  intros Hs Hf. unfold killed. mstep acquire_ok. msimp. change (proc_of (acq (LProc i) s) i) with (proc_of s i).
  by erewrite bind_ok by by apply release_acq.
Qed.

(** ** Switching *)

(** Locks are released in any order. *)
Lemma acq_comm lk l2 s : lk <> l2 -> acq l2 (acq lk s) = acq lk (acq l2 s).
Proof.
  intros Hne. unfold acq, upd_lock, pushed, upd_noff, held_lock.
  cbn. rewrite insert_insert_ne by done. reflexivity.
Qed.

Lemma release_under lk l2 s :
  lk <> l2 -> settled s -> lock_free lk s ->
  release lk (acq l2 (acq lk s)) = Ok tt (acq l2 s).
Proof.
  intros Hne Hs Hf. rewrite acq_comm by done. apply release_acq; eauto with kernel.
Qed.

Section Sched.
Context {L : Layout} {W : World}.

(** The guards of [sched] are met by a process that holds only its own lock. *)
Lemma sched_ok me s p :
  settled s -> noff (kcpu s) = 0 -> c_proc (kcpu s) = Some me -> procs s !! me = Some p ->
  p_state p <> RUNNING ->
  sched (acq (LProc me) s) =
  match others (nsched s) (acq (LProc me) s) with
  | None => Hang (acq (LProc me) s)
  | Some s' => Ok tt (set_kcpu (set_intena (intena (kcpu s)) (kcpu s'))
                        (set_nsched (S (nsched s)) s'))
  end.
Proof.
  intros Hs Hn Hc Hp Hr. unfold sched.
  erewrite bind_ok by (apply curproc_ok; [by apply settled_acq|exact Hc]).
  unfold holding. msimp. rewrite lock_of_acq. cbn [held_lock locked lcpu].
  rewrite bool_decide_eq_true_2 by done. cbn [negb andb Z.eqb]. msimp.
  change (noff (kcpu (acq (LProc me) s))) with (noff (kcpu s) + 1).
  rewrite Hn. change (negb (0 + 1 =? 1)) with false. cbv iota.
  msimp. rewrite (proc_of_lookup _ me p) by done. rewrite decide_False by done.
  unfold intr_get. msimp.
  change (sstatus (csr (acq (LProc me) s))) with (Z.ldiff (sstatus (csr s)) SSTATUS_SIE).
  rewrite sie_of_off. msimp. unfold swtch.
  unfold mbind, M_bind. change (nsched (acq (LProc me) s)) with (nsched s).
  by destruct (others (nsched s) (acq (LProc me) s)).
Qed.

Lemma upd_proc_twice i f g s : upd_proc i f (upd_proc i g s) = upd_proc i (fun p => f (g p)) s.
Proof.
  unfold upd_proc. ksimp. by rewrite list_alter_alter_eq.
Qed.

Definition asleep (ch : chan) (p : proc) : proc := set_p_state SLEEPING (set_p_chan (Some ch) p).

(** The state in which a sleeper gives up the CPU, and the one it returns in. *)
Lemma sleep_ok ch lk me s p r :
  settled s -> noff (kcpu s) = 0 -> c_proc (kcpu s) = Some me -> procs s !! me = Some p ->
  lock_free lk s -> lock_free (LProc me) s -> lk <> LProc me ->
  others (nsched s) (acq (LProc me) (upd_proc me (asleep ch) s)) = Some (acq (LProc me) r) ->
  settled r -> lock_free lk r -> lock_free (LProc me) r -> intena (kcpu r) = intena (kcpu s) ->
  sleep ch lk (acq lk s) =
  Ok tt (acq lk (set_nsched (S (nsched s)) (upd_proc me (set_p_chan None) r))).
Proof.
  intros Hs Hn Hc Hp Hlk Hlp Hne Ho Hr Hrk Hrp Hi. unfold sleep.
  erewrite bind_ok by (apply curproc_ok; [by apply settled_acq|exact Hc]).
  erewrite bind_ok by (apply acquire_ok; eauto with kernel).
  erewrite bind_ok by (by apply release_under).
  unfold pset. msimp.
  change (upd_proc me (set_p_state SLEEPING) (upd_proc me (set_p_chan (Some ch)) (acq (LProc me) s)))
    with (acq (LProc me) (upd_proc me (set_p_state SLEEPING) (upd_proc me (set_p_chan (Some ch)) s))).
  rewrite upd_proc_twice. change (fun p => set_p_state SLEEPING (set_p_chan (Some ch) p)) with (asleep ch).
  erewrite bind_ok.
  2: { rewrite (sched_ok me _ (asleep ch p)); try done.
    - change (nsched (upd_proc me (asleep ch) s)) with (nsched s). rewrite Ho. reflexivity.
    - destruct Hs; by split.
    - ksimp. by rewrite list_lookup_alter_eq, Hp. }
  msimp. change (intena (kcpu (upd_proc me (asleep ch) s))) with (intena (kcpu s)). rewrite <- Hi.
  set (r' := set_nsched (S (nsched s)) (upd_proc me (set_p_chan None) r)).
  assert (Hr' : settled r') by (destruct Hr; by split).
  match goal with |- _ ?t = _ => replace t with (acq (LProc me) r') end.
  2: { unfold r'. destruct r as [??[???]]. reflexivity. }
  erewrite bind_ok by (by apply release_acq). by apply acquire_ok.
Qed.

Lemma sleep_hang ch lk me s p :
  settled s -> noff (kcpu s) = 0 -> c_proc (kcpu s) = Some me -> procs s !! me = Some p ->
  lock_free lk s -> lock_free (LProc me) s -> lk <> LProc me ->
  others (nsched s) (acq (LProc me) (upd_proc me (asleep ch) s)) = None ->
  sleep ch lk (acq lk s) = Hang (acq (LProc me) (upd_proc me (asleep ch) s)).
Proof.
  intros Hs Hn Hc Hp Hlk Hlp Hne Ho. unfold sleep.
  erewrite bind_ok by (apply curproc_ok; [by apply settled_acq|exact Hc]).
  erewrite bind_ok by (apply acquire_ok; eauto with kernel).
  erewrite bind_ok by (by apply release_under).
  unfold pset. msimp.
  change (upd_proc me (set_p_state SLEEPING) (upd_proc me (set_p_chan (Some ch)) (acq (LProc me) s)))
    with (acq (LProc me) (upd_proc me (set_p_state SLEEPING) (upd_proc me (set_p_chan (Some ch)) s))).
  rewrite upd_proc_twice. change (fun p => set_p_state SLEEPING (set_p_chan (Some ch) p)) with (asleep ch).
  apply bind_hang. rewrite (sched_ok me _ (asleep ch p)); try done.
  - change (nsched (upd_proc me (asleep ch) s)) with (nsched s). by rewrite Ho.
  - destruct Hs; by split.
  - ksimp. by rewrite list_lookup_alter_eq, Hp.
Qed.

(** ** The scheduler *)

Lemma scheduler_pick_run i s p :
  settled s -> lock_free (LProc i) s -> procs s !! i = Some p -> p_state p = RUNNABLE ->
  scheduler_pick i s = Ok true
    (acq (LProc i) (set_kcpu (set_c_proc (Some i) (kcpu s)) (upd_proc i (set_p_state RUNNING) s))).
Proof.
  intros Hs Hl Hp Hst. unfold scheduler_pick. mstep acquire_ok. unfold pset. msimp.
  rewrite (proc_of_lookup _ i p), decide_True by done. msimp. reflexivity.
Qed.

Lemma scheduler_pick_skip i s p :
  settled s -> lock_free (LProc i) s -> procs s !! i = Some p -> p_state p <> RUNNABLE ->
  scheduler_pick i s = Ok false s.
Proof.
  intros Hs Hl Hp Hst. unfold scheduler_pick. mstep acquire_ok. unfold pset. msimp.
  rewrite (proc_of_lookup _ i p), decide_False by done.
  erewrite bind_ok by (by apply release_acq). done.
Qed.

Lemma scheduler_back_ok i s :
  settled s -> lock_free (LProc i) s ->
  scheduler_back i (acq (LProc i) s) = Ok tt (set_kcpu (set_c_proc None (kcpu s)) s).
Proof.
  intros Hs Hl. unfold scheduler_back. msimp.
  change (set_kcpu _ (acq (LProc i) s)) with
    (acq (LProc i) (set_kcpu (set_c_proc None (kcpu s)) s)).
  apply release_acq; [|done]. destruct Hs; by split.
Qed.

(** What happens on the CPU between the switch away from [me] and the switch
    back, when the only event is that process [j] calls [wakeup(ch)]. *)
Definition run_as (j : nat) {A} (m : K A) : K A :=
  modify (fun s => set_kcpu (set_c_proc (Some j) (kcpu s)) s) ;;
  a ← m;
  modify (fun s => set_kcpu (set_c_proc None (kcpu s)) s) ;;
  mret a.
Definition meanwhile (me j : nat) (ch : chan) : K bool :=
  scheduler_back me ;;
  run_as j (wakeup ch) ;;
  scheduler_pick me.

Lemma meanwhile_ok me j ch s :
  settled s -> (forall i, (i < NPROC)%nat -> lock_free (LProc i) s) -> length (procs s) = NPROC ->
  (me < NPROC)%nat ->
  meanwhile me j ch (acq (LProc me) s) =
  scheduler_pick me (set_kcpu (set_c_proc None (kcpu s))
    (set_procs (imap (wake (Some j) (Some ch)) (procs s)) s)).
Proof.
  intros Hs Hl Hn Hme. unfold meanwhile.
  erewrite bind_ok by (apply scheduler_back_ok; [done|by apply Hl]).
  unfold run_as, wakeup. msimp.
  erewrite bind_ok by (apply wakeup_on_ok; [destruct Hs; by split|apply Hl|done]).
  msimp. reflexivity.
Qed.

(** The table when [me] has gone to sleep on [ch] and [j] has called
    [wakeup(ch')]. *)
Lemma slept_lookup me j ch ch' s p :
  procs s !! me = Some p -> j <> me ->
  imap (wake (Some j) (Some ch')) (alter (asleep ch) me (procs s)) !! me =
  Some (if decide (ch = ch') then set_p_state RUNNABLE (asleep ch p) else asleep ch p).
Proof.
  intros Hp Hne. rewrite list_lookup_imap. ksimp. rewrite list_lookup_alter_eq, Hp.
  cbn [fmap option_fmap option_map]. f_equal. unfold wake.
  rewrite decide_False by congruence. unfold asleep. ksimp. rewrite decide_True by done.
  destruct (decide (ch = ch')) as [->|]; [by rewrite decide_True|].
  rewrite decide_False by congruence. done.
Qed.
Lemma slept_lookup_ne me i j ch ch' s p :
  procs s !! i = Some p -> i <> me ->
  imap (wake (Some j) (Some ch')) (alter (asleep ch) me (procs s)) !! i =
  Some (wake (Some j) (Some ch') i p).
Proof. intros Hp Hne. rewrite list_lookup_imap. ksimp. by rewrite list_lookup_alter_ne, Hp. Qed.
End Sched.

(** C38: no wakeup is lost.  A process that calls [sleep] on [ch] with the
    condition lock [lk] held gives up [lk] and the CPU; when some other process
    then calls [wakeup(ch)], the scheduler finds the sleeper runnable and it
    returns from [sleep] running, off the channel and holding [lk] again, with
    nothing changed but the other sleepers on [ch], which are runnable too.  A
    [wakeup] on any other channel leaves it asleep: the scheduler passes over
    it. *)
Theorem sleep_wakeup (L : Layout) (W : World) me j ch lk s p :
  ctx me s -> noff (kcpu s) = 0 -> lock_free lk s -> (forall i, lk <> LProc i) ->
  procs s !! me = Some p -> j <> me ->
  (forall n a, others n a =
     match meanwhile me j ch a with Ok true a' => Some a' | _ => None end) ->
  (exists s', sleep ch lk (acq lk s) = Ok tt (acq lk s') /\
    procs s' !! me = Some (set_p_state RUNNING (set_p_chan None p)) /\
    (forall i q, i <> me -> procs s !! i = Some q ->
       procs s' !! i = Some (wake (Some j) (Some ch) i q)) /\
    s' = set_procs (procs s') (set_nsched (S (nsched s)) s)) /\
  (forall ch', ch' <> ch -> exists s',
    meanwhile me j ch' (acq (LProc me) (upd_proc me (asleep ch) s)) = Ok false s').
Proof.
  intros [Hs Hl Hc Hn Hme] H0 Hlk Hne Hp Hj Ho.
  set (s1 := upd_proc me (asleep ch) s).
  assert (Hs1 : settled s1) by (destruct Hs; by split).
  assert (Hl1 : forall i, (i < NPROC)%nat -> lock_free (LProc i) s1) by (intros; by apply Hl).
  assert (Hn1 : length (procs s1) = NPROC) by (unfold s1; ksimp; by rewrite length_alter).
  split.
  - set (r := set_kcpu (set_c_proc (Some me) (set_c_proc None (kcpu s)))
      (upd_proc me (set_p_state RUNNING)
        (set_procs (imap (wake (Some j) (Some ch)) (procs s1)) s1))).
    assert (Hm : meanwhile me j ch (acq (LProc me) s1) = Ok true (acq (LProc me) r)).
    { rewrite meanwhile_ok by done.
      erewrite scheduler_pick_run; [reflexivity|destruct Hs1; by split|by apply Hl1| |].
      - ksimp. apply slept_lookup; done.
      - by rewrite decide_True. }
    eexists. split; [|split; [|split]].
    + apply (sleep_ok ch lk me s p r); try done; try (by apply Hl).
      * rewrite Ho. fold s1. by rewrite Hm.
      * destruct Hs; by split.
    + unfold r, s1. ksimp. rewrite !list_lookup_alter_eq.
      rewrite (slept_lookup me j ch ch s p) by done.
      by rewrite decide_True.
    + intros i q Hi Hq. unfold r, s1. ksimp. rewrite !list_lookup_alter_ne by done.
      by apply slept_lookup_ne.
    + destruct s as [??[???]]. cbn in Hc. subst. reflexivity.
  - intros ch' Hch. rewrite meanwhile_ok by done.
    erewrite scheduler_pick_skip; [eauto|destruct Hs1; by split|by apply Hl1| |].
    + ksimp. apply slept_lookup; done.
    + by rewrite decide_False.
Qed.

(** The locks as the initialisation functions leave them. *)
Definition static_locks : list lockid :=
  [LKmem; LPid; LWait; LFtable; LItable; LBcache; LLog; LTicks; LCons; LPr; LUart; LDisk] ++
  (LProc <$> seq 0 NPROC) ++ ((fun i => LSleep (SLBuf i)) <$> seq 0 NBUF) ++
  ((fun i => LSleep (SLInode i)) <$> seq 0 NINODE).
Definition boot_locks : gmap lockid spinlock :=
  gset_to_gmap unlocked (list_to_set static_locks).

Lemma boot_locks_free lk s : locks s = boot_locks -> static_lock lk -> lock_free lk s.
Proof.
  intros E H. unfold lock_free. rewrite E. unfold boot_locks.
  apply lookup_gset_to_gmap_Some. split; [|done]. apply elem_of_list_to_set.
  unfold static_locks. rewrite !elem_of_app, !list_elem_of_fmap.
  destruct lk as [| | | | | | | | | | | | | |[]]; cbn in H;
    try (left; rewrite !elem_of_cons; tauto).
  - right. left. exists i. split; [done|]. apply elem_of_seq. lia.
  - right. right. right. exists i. split; [done|]. apply elem_of_seq. lia.
  - right. right. left. exists i. split; [done|]. apply elem_of_seq. lia.
Qed.

(** A machine with two processes, process 0 running, process 1 able to. *)
Definition two_procs : kstate :=
  set_locks boot_locks (set_kcpu (set_c_proc (Some 0%nat) (kcpu blank))
    (upd_proc 1 (set_p_state RUNNABLE) (upd_proc 0 (set_p_state RUNNING) blank))).

Lemma two_procs_ctx : ctx 0 two_procs.
Proof.
  split.
  - split; cbn; done.
  - intros lk. by apply boot_locks_free.
  - reflexivity.
  - reflexivity.
  - unfold NPROC. lia.
Qed.

(** The world in which the only thing that happens during a sleep of process 0
    is that process 1 wakes the sleepers on the tick channel. *)
Definition waker_world : World :=
  {| others n a := match meanwhile 0 1 CTicks a with Ok true a' => Some a' | _ => None end;
     hw_read _ _ _ := 0; hw_write _ _ s := s; patience := 1 |}.

Lemma sleep_wakeup_witness :
  exists s', @sleep waker_world CTicks LTicks (acq LTicks two_procs) = Ok tt (acq LTicks s') /\
  p_state (proc_of s' 0) = RUNNING.
Proof.
  destruct (proj1 (sleep_wakeup test_layout waker_world 0 1 CTicks LTicks two_procs
    (set_p_state RUNNING blank_proc) two_procs_ctx eq_refl
    (boot_locks_free LTicks two_procs eq_refl I) (fun i => ltac:(discriminate)) eq_refl
    ltac:(discriminate) (fun n a => eq_refl))) as (s' & H1 & H2 & _).
  exists s'. split; [exact H1|]. unfold proc_of. rewrite H2. reflexivity.
Defined.

(** ** Kill *)

Definition kill_mark (p : proc) : proc :=
  (if decide (p_state p = SLEEPING) then set_p_state RUNNABLE else fun p => p) (set_p_killed 1 p).

(** The loop from entry [i] on: [i'] is the first entry with the pid, if any. *)
Lemma kill_loop_ok pid n : forall i s,
  settled s -> (forall j, (j < NPROC)%nat -> lock_free (LProc j) s) -> length (procs s) = NPROC ->
  (i + n = NPROC)%nat ->
  kill_loop n i pid s =
  match list_find (fun p => p_pid p = pid) (drop i (procs s)) with
  | Some (k, _) => Ok 0 (upd_proc (i + k) kill_mark s)
  | None => Ok (-1) s
  end.
Proof.
  induction n as [|n IH]; intros i s Hs Hl Hn Hi; cbn [kill_loop].
  { rewrite drop_ge by lia. done. }
  destruct (lookup_lt_is_Some_2 (procs s) i) as [p Hp]; [lia|].
  rewrite (drop_S _ p) by done. cbn [list_find].
  erewrite bind_ok by (apply acquire_ok; [done|apply Hl; lia]). msimp.
  rewrite (proc_of_lookup _ i p) by done.
  destruct (decide (p_pid p = pid)) as [Hpid|Hpid].
  - rewrite Hpid, Z.eqb_refl, Nat.add_0_r. unfold pset. msimp.
    rewrite (upd_proc_ext i kill_mark (if decide (p_state p = SLEEPING)
      then fun p => set_p_state RUNNABLE (set_p_killed 1 p) else set_p_killed 1) p);
      [|done|unfold kill_mark; by case_decide].
    case_decide.
    + msimp. rewrite upd_proc_twice.
      erewrite bind_ok by (apply critical_proc; [done|apply Hl; lia]). done.
    + msimp. erewrite bind_ok by (apply critical_proc; [done|apply Hl; lia]). done.
  - rewrite (proj2 (Z.eqb_neq _ _) Hpid).
    erewrite bind_ok by (apply release_acq; [done|apply Hl; lia]).
    rewrite IH by (done || lia).
    destruct (list_find _ (drop (S i) (procs s))) as [[k q]|]; cbn; [|done].
    by rewrite <- Nat.add_succ_comm.
Qed.

(** [kill(pid)] marks exactly the first process of that pid as killed,
    makes it runnable if it sleeps, changes nothing else and returns 0; without
    such a process it returns -1 and changes nothing. *)
Theorem kill_correct pid s :
  settled s -> (forall j, (j < NPROC)%nat -> lock_free (LProc j) s) -> length (procs s) = NPROC ->
  (forall i p, procs s !! i = Some p -> p_pid p = pid ->
     (forall j q, (j < i)%nat -> procs s !! j = Some q -> p_pid q <> pid) ->
     exists s' p', kill pid s = Ok 0 s' /\ s' = set_procs (<[i := p']> (procs s)) s /\
       p_killed p' = 1 /\ p' = set_p_state (p_state p') (set_p_killed 1 p) /\
       p_state p' = if decide (p_state p = SLEEPING) then RUNNABLE else p_state p) /\
  ((forall i p, procs s !! i = Some p -> p_pid p <> pid) -> kill pid s = Ok (-1) s).
Proof.
  intros Hs Hl Hn. unfold kill. rewrite kill_loop_ok by done. rewrite drop_0. split.
  - intros i p Hp Hpid Hfirst. exists (upd_proc i kill_mark s), (kill_mark p).
    rewrite (proj2 (list_find_Some _ _ i p)); [|by eauto].
    split; [done|]. unfold kill_mark. split; [|by case_decide; destruct p].
    unfold upd_proc. f_equal. rewrite (list_alter_insert _ _ _ _ Hp). done.
  - intros Hno. destruct (list_find _ _) as [[k q]|] eqn:E; [|done].
    apply list_find_Some in E as (Hq & Hpid & _). by destruct (Hno k q).
Qed.

Lemma kill_correct_witness :
  exists s' p', kill 0 two_procs = Ok 0 s' /\ s' = set_procs (<[0%nat := p']> (procs two_procs)) two_procs /\
    p_killed p' = 1.
Proof.
  destruct (proj1 (kill_correct 0 two_procs (ctx_settled _ _ two_procs_ctx)
    (fun j Hj => ctx_locks _ _ two_procs_ctx (LProc j) Hj) eq_refl)
    0%nat (set_p_state RUNNING blank_proc) eq_refl eq_refl
    (fun j q Hj => ltac:(lia))) as (s' & p' & H1 & H2 & H3 & _).
  exists s', p'. split; [exact H1|]. split; [exact H2|exact H3].
Defined.

(** A slot of the table that is not in use has pid 0, and [allocproc] does not
    clear [killed]: after [kill(0)] the next process created is born killed. *)
Lemma kill_zero_next_process :
  let s := set_locks boot_locks booted in
  match kill 0 s with
  | Ok 0 s1 =>
      match @allocproc test_layout s1 with
      | Ok (Some i) s2 => p_killed (proc_of s2 i) = 1 /\ p_pid (proc_of s2 i) = 1
      | _ => False
      end
  | _ => False
  end.
Proof. vm_compute. split; reflexivity. Qed.

(** * The scheduler (kernel/proc.c)

    One round of its loop runs every process that is runnable, once and in the
    order of the table. *)

(** The scheduler between two turns, and when it switches to process [j]. *)
Record idle (s : kstate) : Prop := {
  id_settled : settled s;
  id_on : sie s = true;
  id_procs : length (procs s) = NPROC;
  id_locks : forall i, (i < NPROC)%nat -> lock_free (LProc i) s;
}.
Definition no_proc (s : kstate) : kstate := set_kcpu (set_c_proc None (kcpu s)) s.
Definition dispatch (j : nat) (s : kstate) : kstate :=
  acq (LProc j) (set_kcpu (set_c_proc (Some j) (kcpu s)) (upd_proc j (set_p_state RUNNING) s)).
Definition runnable (s : kstate) (j : nat) : Prop := (j < NPROC)%nat /\ p_state (proc_of s j) = RUNNABLE.

Lemma lor_sie x : sie_of x = true -> Z.lor x SSTATUS_SIE = x.
Proof.
  unfold sie_of. rewrite negb_true_iff, Z.eqb_neq. intros H. change SSTATUS_SIE with (2 ^ 1) in *.
  apply Z.bits_inj'. intros n Hn. rewrite Z.lor_spec, Z.pow2_bits_eqb by lia.
  destruct (Z.eqb_spec 1 n) as [<-|]; [|by rewrite orb_false_r]. rewrite orb_true_r. symmetry.
  apply not_false_iff_true. intros Ht. apply H. apply Z.bits_inj'. intros k Hk.
  rewrite Z.land_spec, Z.pow2_bits_eqb, Z.bits_0 by lia.
  destruct (Z.eqb_spec 1 k) as [<-|]; [by rewrite Ht|by rewrite andb_false_r].
Qed.
Lemma intr_on_on s : sie s = true -> intr_on s = Ok tt s.
Proof. intros H. unfold intr_on, modify. rewrite (lor_sie _ H). by destruct s as [??? []]. Qed.

Section Fair.
Context {L : Layout} {W : World}.

(** What the processes do: the invariant [I] of the scheduler's states, an
    observation [obs] of memory, and each process [j], when it runs, adds [j]
    to it, leaves runnable processes runnable, and switches back. *)
Context (I : kstate -> Prop) (obs : gmap Z Z -> list nat) (run : nat -> K unit).
Definition well_behaved : Prop :=
  (forall s, I s -> idle s) /\
  forall j s, I s -> runnable s j -> exists s', run j (dispatch j s) = Ok tt (acq (LProc j) s') /\
    settled s' /\ lock_free (LProc j) s' /\ I (no_proc s') /\ obs (mem s') = obs (mem s) ++ [j] /\
    forall k, k <> j -> runnable s k -> runnable s' k.

(** The processes that have run after the turns of the first [i]. *)
Definition ran_upto (s : kstate) (i : nat) (l : list nat) (t : kstate) : Prop :=
  I t /\ obs (mem t) = obs (mem s) ++ l /\ StronglySorted lt l /\ Forall (fun k => (k < i)%nat) l /\
  (forall k, (k < i)%nat -> runnable s k -> k ∈ l) /\ (forall k, (i <= k)%nat -> runnable s k -> runnable t k).

Lemma turn_ok s i l t :
  well_behaved -> (i < NPROC)%nat -> ran_upto s i l t ->
  exists t' l', (switch ← scheduler_pick i; if (switch : bool) then run i ;; scheduler_back i else mret tt) t = Ok tt t' /\
    ran_upto s (S i) l' t'.
Proof.
  intros [HI Hrun] Hi (Ht & Ho & Hs & Hl & Hran & Hrest). pose proof (HI t Ht) as [H1 H2 H3 H4].
  destruct (lookup_lt_is_Some_2 (procs t) i) as [p Hp]; [lia|].
  assert (p_state (proc_of t i) = p_state p) as Ep by (by rewrite (proc_of_lookup _ _ _ Hp)).
  destruct (decide (p_state p = RUNNABLE)) as [Hr|Hr].
  - rewrite (bind_ok _ _ _ _ _ (scheduler_pick_run i t p H1 (H4 i Hi) Hp Hr)).
    destruct (Hrun i t Ht (conj Hi (eq_trans Ep Hr))) as (t1 & E & Hs1 & Hl1 & HI1 & Ho1 & Hk1). unfold dispatch in E.
    rewrite (bind_ok _ _ _ _ _ E), scheduler_back_ok by done. exists (no_proc t1), (l ++ [i]). split; [done|].
    split; [done|]. split; [change (mem (no_proc t1)) with (mem t1); by rewrite Ho1, Ho, app_assoc|].
    split_and!.
    + apply StronglySorted_app. split_and!; [|done|repeat constructor]. intros x y Hx ->%list_elem_of_singleton.
      rewrite Forall_forall in Hl. by apply Hl.
    + apply Forall_app. split; [eapply Forall_impl; [exact Hl|]; cbn; lia|]. constructor; [lia|constructor].
    + intros k Hk Hrk. apply elem_of_app. destruct (decide (k = i)) as [->|]; [right; by left|left]. apply Hran; [lia|done].
    + intros k Hk Hrk. apply (Hk1 k); [lia|]. apply Hrest; [lia|done].
  - rewrite (bind_ok _ _ _ _ _ (scheduler_pick_skip i t p H1 (H4 i Hi) Hp Hr)).
    exists t, l. split; [done|]. split_and!; [done|done|done|eapply Forall_impl; [exact Hl|]; cbn; lia| |].
    + intros k Hk Hrk. apply Hran; [|done]. destruct (decide (k = i)) as [->|]; [|lia].
      destruct (Hrest i) as [_ Hri]; [lia|done|]. by rewrite Ep in Hri.
    + intros k Hk Hrk. apply Hrest; [lia|done].
Qed.

(** C37: the scheduler is fair.  When each process, run with its lock held and
    as the current one, switches back in the end, having put no other process
    out of the runnable ones, a round of the scheduler ends, and has run every
    process that was runnable when it started (and those woken in time), each
    once and in the order of the table. *)
Theorem scheduler_fair s :
  well_behaved -> I s ->
  exists s' l, scheduler_round run s = Ok tt s' /\ I s' /\ obs (mem s') = obs (mem s) ++ l /\
    StronglySorted lt l /\ forall k, runnable s k -> k ∈ l.
Proof.
  intros Hw Hs. unfold scheduler_round. rewrite (bind_ok _ _ _ _ _ (intr_on_on s (id_on _ (proj1 Hw s Hs)))).
  destruct (for_range_inv (fun i t => exists l, ran_upto s i l t) NPROC 0 (fun i =>
    switch ← scheduler_pick i; if (switch : bool) then run i ;; scheduler_back i else mret tt) s)
    as (s' & E & l & Hi & Ho & Hso & _ & Hr & _).
  - exists []. split_and!; [done|by rewrite app_nil_r|constructor|constructor|intros; lia|done].
  - intros i t Hi (l & Hl). destruct (turn_ok s i l t Hw ltac:(lia) Hl) as (t' & l' & E & H'). by exists t'; split; [|exists l'].
  - exists s', l. split_and!; [done..|]. intros k Hk. apply Hr; [apply Hk|done].
Qed.
End Fair.

(** ** A machine whose processes note that they run, and sleep *)

(** The processes that have run, encoded in cell 0 of memory. *)
Definition noted (m : gmap Z Z) : list nat :=
  match m !! 0 with Some (Z.pos p) => default [] (decode p) | _ => [] end.
Definition note (j : nat) : K unit :=
  modify (fun s => set_mem (<[0 := Z.pos (encode (noted (mem s) ++ [j]))]> (mem s)) s) ;;
  pset j (set_p_state SLEEPING).

(** Both processes are runnable, and interrupts are on. *)
Definition two_ready : kstate :=
  set_csr (set_sstatus SSTATUS_SIE (csr blank)) (set_kcpu (set_intena true (kcpu blank))
    (set_locks boot_locks (upd_proc 1 (set_p_state RUNNABLE) (upd_proc 0 (set_p_state RUNNABLE) blank)))).

Lemma note_well_behaved : well_behaved idle noted note.
Proof.
  split; [done|]. intros j s [H1 H2 H3 H4] [Hj Hr]. unfold note, pset, dispatch.
  rewrite bind_modify. set (m' := <[0 := _]> _).
  exists (upd_proc j (set_p_state SLEEPING) (set_mem m' (set_kcpu (set_c_proc (Some j) (kcpu s))
    (upd_proc j (set_p_state RUNNING) s)))).
  split; [reflexivity|]. split; [destruct H1; by split|]. split; [by apply H4|]. split_and!.
  - split; [destruct H1; by split|done|cbn; by rewrite !length_alter|exact H4].
  - cbn [mem upd_proc set_procs set_mem]. unfold noted at 1, m'. rewrite lookup_insert_eq, decode_encode. reflexivity.
  - intros k Hne [Hk Hrk]. split; [done|]. unfold proc_of in *. cbn. by rewrite !list_lookup_alter_ne.
Qed.

Lemma scheduler_fair_witness : exists s' (l : list nat), scheduler_round note two_ready = Ok tt s' /\ 0%nat ∈ l /\ 1%nat ∈ l.
Proof.
  assert (idle two_ready) as Hi.
  { split; [split; vm_compute; congruence|reflexivity|reflexivity|]. intros i H. apply boot_locks_free; [reflexivity|exact H]. }
  destruct (scheduler_fair idle noted note two_ready note_well_behaved Hi) as (s' & l & E & _ & _ & _ & Hl).
  exists s', l. split; [exact E|]. split; apply Hl; (split; [unfold NPROC; lia|reflexivity]).
Defined.
