(* ===== verification/SleepSpec.v ===== *)
(** * Sleep locks (kernel/sleeplock.c): what they do

    Also the frame of the file-system layers: [bkept me s s'] says that [s']
    differs from [s] only in the buffer cache, the locks of buffers, the disk,
    the device registers, and in other processes having been woken. *)
From S2P Require Import Prelude Memory Machine Platform Sv32 Spinlock Printf Kalloc Vm Proc Sleeplock ProcSpec.
From stdpp Require Import gmap strings countable prelude.

Open Scope Z_scope.

Create HintDb kept.

(** ** Frames *)

(** [P'] is [P] with some sleepers other than [me] made runnable. *)
Definition woken1 (p p' : proc) : Prop :=
  p' = p \/ p_state p = SLEEPING /\ p' = set_p_state RUNNABLE p.
Definition woken (me : nat) (P P' : list proc) : Prop :=
  P' !! me = P !! me /\ Forall2 woken1 P P'.

(** The locks of inodes are in [S] as they are in [S0]. *)
Definition ilocks_kept (S0 S : gmap slid sleeplock) : Prop :=
  forall i, default sl_blank (S !! SLInode i) = default sl_blank (S0 !! SLInode i).

Definition bkept (me : nat) (s s' : kstate) : Prop :=
  exists B S D T M U N P, (woken me (procs s) P /\ ilocks_kept (slocks s) S) /\
  s' = set_bufs B (set_slocks S (set_disk D (set_dtrace T
         (set_mmio M (set_uart U (set_nmmio N (set_procs P s))))))).

Lemma woken_refl me P : woken me P P.
Proof. split; [done|]. apply Forall_Forall2_diag, Forall_true. by left. Qed.

#[export] Instance woken1_trans : Transitive woken1.
Proof. intros p q r [->|[Hp ->]] [->|[Hq ->]]; [by left|by right|by right|done]. Qed.

Lemma woken_trans me P1 P2 P3 : woken me P1 P2 -> woken me P2 P3 -> woken me P1 P3.
Proof.
  intros [H1 F1] [H2 F2]. split; [congruence|].
  by etrans.
Qed.

Lemma wake_woken me ch P : woken me P (imap (wake (Some me) ch) P).
Proof.
  split.
  - rewrite list_lookup_imap. destruct (P !! me); cbn; [|done]. unfold wake. by rewrite decide_True.
  - apply Forall2_same_length_lookup_2; [by rewrite length_imap|].
    intros i p p' Hp Hp'. rewrite list_lookup_imap, Hp in Hp'. injection Hp' as <-.
    unfold wake. repeat case_decide; [by left|by right|by left|by left].
Qed.

Lemma bkept_refl me s : bkept me s s.
Proof.
  exists (bufs s), (slocks s), (disk s), (dtrace s), (mmio s), (uart s), (nmmio s), (procs s).
  split; [split; [apply woken_refl|done]|]. by destruct s.
Qed.

Lemma bkept_trans me s1 s2 s3 : bkept me s1 s2 -> bkept me s2 s3 -> bkept me s1 s3.
Proof.
  intros (B & S & D & T & M & U & N & P & Hw & ->) (B' & S' & D' & T' & M' & U' & N' & P' & Hw' & ->).
  exists B', S', D', T', M', U', N', P'. split; [|reflexivity].
  ksimp in Hw'. destruct Hw as [Hw HS], Hw' as [Hw' HS']. split; [by eapply woken_trans|].
  intros i. by rewrite HS', HS.
Qed.

(** The updates [bkept] allows, one at a time. *)
Section Kept.
Variables (me : nat) (s s' : kstate).
Hypothesis H : bkept me s s'.

Lemma bkept_upd_buf i f : bkept me s (upd_buf i f s').
Proof.
  destruct H as (B & S & D & T & M & U & N & P & Hw & ->).
  by exists (alter f i B), S, D, T, M, U, N, P.
Qed.
Lemma bkept_set_bufs B' : bkept me s (set_bufs B' s').
Proof.
  destruct H as (B & S & D & T & M & U & N & P & Hw & ->). by exists B', S, D, T, M, U, N, P.
Qed.
Lemma bkept_upd_slock b v : bkept me s (upd_slock (SLBuf b) v s').
Proof.
  destruct H as (B & S & D & T & M & U & N & P & [Hw HS] & ->).
  exists B, (<[SLBuf b := v]> S), D, T, M, U, N, P. split; [|done]. split; [done|].
  intros i. rewrite lookup_insert_ne by done. apply HS.
Qed.
Lemma bkept_set_disk D' : bkept me s (set_disk D' s').
Proof.
  destruct H as (B & S & D & T & M & U & N & P & Hw & ->). by exists B, S, D', T, M, U, N, P.
Qed.
Lemma bkept_set_dtrace T' : bkept me s (set_dtrace T' s').
Proof.
  destruct H as (B & S & D & T & M & U & N & P & Hw & ->). by exists B, S, D, T', M, U, N, P.
Qed.
Lemma bkept_set_mmio M' : bkept me s (set_mmio M' s').
Proof.
  destruct H as (B & S & D & T & M & U & N & P & Hw & ->). by exists B, S, D, T, M', U, N, P.
Qed.
Lemma bkept_set_uart U' : bkept me s (set_uart U' s').
Proof.
  destruct H as (B & S & D & T & M & U & N & P & Hw & ->). by exists B, S, D, T, M, U', N, P.
Qed.
Lemma bkept_set_nmmio N' : bkept me s (set_nmmio N' s').
Proof.
  destruct H as (B & S & D & T & M & U & N & P & Hw & ->). by exists B, S, D, T, M, U, N', P.
Qed.
Lemma bkept_wake ch : bkept me s (set_procs (imap (wake (Some me) ch) (procs s')) s').
Proof.
  destruct H as (B & S & D & T & M & U & N & P & Hw & ->).
  exists B, S, D, T, M, U, N, (imap (wake (Some me) ch) P). split; [|done].
  destruct Hw as [Hw HS]. split; [|done]. by eapply woken_trans, wake_woken.
Qed.
End Kept.

#[export] Hint Resolve bkept_refl bkept_upd_buf bkept_set_bufs bkept_upd_slock bkept_set_disk
  bkept_set_dtrace bkept_set_mmio bkept_set_uart bkept_set_nmmio bkept_wake : kept.

Lemma woken_length me P P' : woken me P P' -> length P' = length P.
Proof. intros [_ H]. symmetry. by eapply Forall2_length. Qed.

Lemma bkept_ctx me s s' : bkept me s s' -> ctx me s -> ctx me s'.
Proof.
  intros (B & S & D & T & M & U & N & P & Hw & ->) [Hs Hl Hc Hn Hme].
  split; [destruct Hs; by split|done|done| |done].
  ksimp. rewrite (woken_length _ _ _ (proj1 Hw)). exact Hn.
Qed.

(** The pid of process [me]. *)
Definition pid_of (me : nat) (s : kstate) : Z := p_pid (proc_of s me).

Lemma bkept_pid me s s' : bkept me s s' -> pid_of me s' = pid_of me s.
Proof.
  intros (B & S & D & T & M & U & N & P & [[Hw _] _] & ->).
  unfold pid_of, proc_of. ksimp. by rewrite Hw.
Qed.

(** ** The operations *)

Section SleepSpec.
Context {L : Layout} {W : World}.

Definition taken (me : nat) (s : kstate) : sleeplock := {| sl_locked := 1; sl_pid := pid_of me s |}.

Lemma slock_of_upd l v s : slock_of (upd_slock l v s) l = v.
Proof. unfold slock_of. ksimp. by rewrite lookup_insert_eq. Qed.
Lemma slock_of_upd_ne l l' v s : l <> l' -> slock_of (upd_slock l v s) l' = slock_of s l'.
Proof. intros. unfold slock_of. ksimp. by rewrite lookup_insert_ne. Qed.

Lemma acquiresleep_wait_free fuel l s :
  sl_locked (slock_of s l) = 0 -> acquiresleep_wait fuel l s = Ok tt s.
Proof. intros H. destruct fuel; cbn [acquiresleep_wait]; msimp; by rewrite H. Qed.

Lemma curproc_ctx me s : ctx me s -> curproc s = Ok me s.
Proof. intros H. apply curproc_ok; [apply H|apply H]. Qed.

Lemma acquiresleep_ok me l s :
  ctx me s -> static_lock (LSleep l) -> sl_locked (slock_of s l) = 0 ->
  acquiresleep l s = Ok tt (upd_slock l (taken me s) s).
Proof.
  intros Hc Hl H. pose proof (ctx_settled _ _ Hc) as Hs. pose proof (ctx_locks _ _ Hc _ Hl) as Hf.
  unfold acquiresleep. mstep acquire_ok.
  erewrite bind_ok by (by apply acquiresleep_wait_free). msimp.
  erewrite bind_ok.
  2: { apply (curproc_ok me); [|apply Hc]. apply (settled_acq (LSleep l)) in Hs. destruct Hs; by split. }
  msimp.
  rewrite <- (release_acq (LSleep l) (upd_slock l (taken me s) s)); [|destruct Hs; by split|done].
  f_equal. unfold upd_slock, slock_of, taken, pid_of, proc_of. ksimp.
  rewrite lookup_insert_eq. cbn [default sl_locked sl_pid id]. by rewrite insert_insert_eq.
Qed.

Lemma holdingsleep_ok me l s :
  ctx me s -> static_lock (LSleep l) -> slock_of s l = taken me s ->
  holdingsleep l s = Ok true s.
Proof.
  intros Hc Hl H. pose proof (ctx_settled _ _ Hc) as Hs. pose proof (ctx_locks _ _ Hc _ Hl) as Hf.
  unfold holdingsleep. mstep acquire_ok.
  change (slock_of (acq (LSleep l) s) l) with (slock_of s l). rewrite H.
  cbn [taken sl_locked sl_pid Z.eqb negb]. msimp.
  erewrite bind_ok by (apply (curproc_ok me); [by apply settled_acq|apply Hc]).
  msimp. erewrite bind_ok by (by apply release_acq).
  unfold pid_of. change (proc_of (acq (LSleep l) s) me) with (proc_of s me).
  by rewrite Z.eqb_refl.
Qed.

Lemma holdingsleep_not me l s :
  ctx me s -> static_lock (LSleep l) -> sl_locked (slock_of s l) = 0 \/ sl_pid (slock_of s l) <> pid_of me s ->
  holdingsleep l s = Ok false s.
Proof.
  intros Hc Hl H. pose proof (ctx_settled _ _ Hc) as Hs. pose proof (ctx_locks _ _ Hc _ Hl) as Hf.
  unfold holdingsleep. mstep acquire_ok.
  change (slock_of (acq (LSleep l) s) l) with (slock_of s l).
  destruct (Z.eqb_spec (sl_locked (slock_of s l)) 0) as [E|E]; cbn [negb]; msimp.
  { erewrite bind_ok by (by apply release_acq). done. }
  destruct H as [H|H]; [done|].
  erewrite bind_ok by (apply (curproc_ok me); [by apply settled_acq|apply Hc]).
  msimp. erewrite bind_ok by (by apply release_acq).
  unfold mret, M_ret. f_equal. by apply Z.eqb_neq.
Qed.

Lemma releasesleep_ok me l s :
  ctx me s -> static_lock (LSleep l) ->
  releasesleep l s =
  Ok tt (set_procs (imap (wake (Some me) (Some (CSleep l))) (procs s)) (upd_slock l sl_blank s)).
Proof.
  intros Hc Hl. pose proof (ctx_settled _ _ Hc) as Hs. pose proof (ctx_locks _ _ Hc _ Hl) as Hf.
  unfold releasesleep, wakeup. mstep acquire_ok.
  erewrite bind_ok.
  2: { apply wakeup_on_ok.
    - apply (settled_acq (LSleep l)) in Hs. destruct Hs; by split.
    - intros i Hi. apply (lock_free_acq_ne (LSleep l) (LProc i)); [done|]. by apply Hc.
    - apply Hc. }
  ksimp. rewrite (ctx_cur _ _ Hc).
  rewrite <- (release_acq (LSleep l)); [reflexivity| |done]. destruct Hs; by split.
Qed.
End SleepSpec.

(** [s] with process [j] running instead. *)
Definition as_proc (j : nat) (s : kstate) : kstate := set_kcpu (set_c_proc (Some j) (kcpu s)) s.

(** The sleep-lock protocol.  Taking a free sleep lock makes the process
    its holder, as [holdingsleep] confirms for it and for no process with
    another pid; releasing it frees the lock and makes runnable exactly the
    processes asleep on it; and a process that asks for the lock meanwhile goes
    to sleep on it with no spinlock held but its own, and does not return. *)
Theorem sleeplock_protocol (L : Layout) (W : World) me j l s :
  ctx me s -> noff (kcpu s) = 0 -> static_lock (LSleep l) -> slock_of s l = sl_blank ->
  (j < NPROC)%nat -> j <> me -> pid_of j s <> pid_of me s ->
  exists s1, acquiresleep l s = Ok tt s1 /\
  holdingsleep l s1 = Ok true s1 /\
  holdingsleep l (as_proc j s1) = Ok false (as_proc j s1) /\
  (exists s2, releasesleep l s1 = Ok tt s2 /\ slock_of s2 l = sl_blank /\
     procs s2 = imap (wake (Some me) (Some (CSleep l))) (procs s)) /\
  ((forall n a, others n a = None) -> (0 < patience)%nat ->
   acquiresleep l (as_proc j s1) =
   Hang (acq (LProc j) (upd_proc j (asleep (CSleep l)) (as_proc j s1)))).
Proof.
  intros Hc H0 Hl Hfree Hj Hne Hpid. exists (upd_slock l (taken me s) s).
  assert (Hc1 : ctx me (upd_slock l (taken me s) s)) by (destruct Hc as [[]]; by split).
  assert (Hcj : ctx j (as_proc j (upd_slock l (taken me s) s))) by (destruct Hc as [[]]; by split).
  split_and!.
  - apply acquiresleep_ok; [done|done|by rewrite Hfree].
  - apply (holdingsleep_ok me); [done|done|by rewrite slock_of_upd].
  - apply (holdingsleep_not j); [done|done|right].
    change (slock_of (as_proc j (upd_slock l (taken me s) s)) l)
      with (slock_of (upd_slock l (taken me s) s) l).
    rewrite slock_of_upd. cbn. intros E. by apply Hpid.
  - eexists. split; [by apply (releasesleep_ok me)|]. split; [|done].
    unfold slock_of. ksimp. by rewrite lookup_insert_eq.
  - intros Ho Hp. destruct Hcj as [Hs Hlk Hcur Hn Hjn]. unfold acquiresleep.
    erewrite bind_ok by (by apply acquire_ok; [|apply Hlk]).
    destruct patience as [|fuel]; [lia|]. cbn [acquiresleep_wait]. msimp.
    change (slock_of (acq (LSleep l) (as_proc j (upd_slock l (taken me s) s))) l)
      with (slock_of (upd_slock l (taken me s) s) l).
    rewrite slock_of_upd. cbn [taken sl_locked Z.eqb negb]. msimp.
    destruct (lookup_lt_is_Some_2 (procs s) j) as [p Hpj]; [by rewrite (ctx_procs _ _ Hc)|].
    apply bind_hang. apply (sleep_hang _ _ _ _ p); try done; try (by apply Hlk).
Qed.

(** The two processes with pids 1 and 2, and a world in which nobody else runs. *)
Definition two_pids : kstate := upd_proc 1 (set_p_pid 2) (upd_proc 0 (set_p_pid 1) two_procs).
Definition lone_world : World :=
  {| others _ _ := None; hw_read _ _ _ := 0; hw_write _ _ s := s; patience := 3 |}.

Lemma two_pids_ctx : ctx 0 two_pids.
Proof.
  pose proof two_procs_ctx as [[] Hl]. split; [by split|exact Hl|reflexivity|reflexivity|].
  unfold NPROC. lia.
Qed.

Lemma sleeplock_protocol_witness :
  exists s1, @acquiresleep lone_world (SLInode 3) two_pids = Ok tt s1 /\
  @acquiresleep lone_world (SLInode 3) (as_proc 1 s1) =
   Hang (acq (LProc 1) (upd_proc 1 (asleep (CSleep (SLInode 3))) (as_proc 1 s1))).
Proof.
  destruct (sleeplock_protocol test_layout lone_world 0 1 (SLInode 3) two_pids two_pids_ctx eq_refl
    ltac:(unfold static_lock, NINODE; lia) eq_refl ltac:(unfold NPROC; lia) ltac:(discriminate)
    ltac:(vm_compute; discriminate)) as (s1 & H1 & _ & _ & _ & H5).
  exists s1. split; [exact H1|]. apply H5; [reflexivity|]. cbn. lia.
Defined.
