(* ===== verification/NemuSpec.v ===== *)
(** * The NEMU disk driver meets what the kernel relies on

    [NemuDisk] is the documented behaviour of the disk controller: the command,
    buffer, block and count registers are only remembered, and writing 1 to the
    valid register carries out the request.  From it follow the laws of
    [DiskOk], which the buffer cache and the log are verified against. *)
From S2P Require Import Prelude Memory Machine Platform Sv32 Spinlock Printf Kalloc Vm Proc Console Trap Nemu ProcSpec.
From stdpp Require Import gmap strings countable prelude.

Open Scope Z_scope.

(** The request the registers describe. *)
Definition disk_request (L : Layout) (cmd : Z) (i : nat) (b : Z) (s : kstate) : Prop :=
  mmio s !! (NEMU_DISK + 4 * DISK_REG_CMD) = Some cmd /\
  mmio s !! (NEMU_DISK + 4 * DISK_REG_BUF) = Some (buf_addr i) /\
  mmio s !! (NEMU_DISK + 4 * DISK_REG_BLKNO) = Some b /\
  mmio s !! (NEMU_DISK + 4 * DISK_REG_BLKCNT) = Some 1.

Class NemuDisk (L : Layout) (W : World) : Prop := {
  nemu_setup : forall r v s, 0 <= r < DISK_REG_VALID -> hw_write (NEMU_DISK + 4 * r) v s = s;
  nemu_read : forall i b s, (i < NBUF)%nat -> disk_request L DISK_CMD_READ i b s ->
    hw_write (NEMU_DISK + 4 * DISK_REG_VALID) 1 s =
    upd_buf i (set_b_data (disk_block (disk s) b)) s;
  nemu_write : forall i b s bf, (i < NBUF)%nat -> disk_request L DISK_CMD_WRITE i b s ->
    bufs s !! i = Some bf ->
    hw_write (NEMU_DISK + 4 * DISK_REG_VALID) 1 s =
    set_disk (<[b := b_data bf]> (disk s)) (set_dtrace (dtrace s ++ [(b, b_data bf)]) s);
}.

(** A byte stored at the serial port is sent. *)
Class NemuUart (W : World) : Prop :=
  nemu_uart : forall c s, hw_write NEMU_UART0 c s = set_uart (uart s ++ [c]) s.

(** Both requests, up to the write of the valid register. *)
Definition disk_setup (cmd : Z) `{Layout} (i : nat) (b : Z) (s : kstate) : kstate :=
  set_mmio (<[NEMU_DISK + 4 * DISK_REG_VALID := 1]> (<[NEMU_DISK + 4 * DISK_REG_BLKCNT := 1]>
    (<[NEMU_DISK + 4 * DISK_REG_BLKNO := b]> (<[NEMU_DISK + 4 * DISK_REG_BUF := buf_addr i]>
    (<[NEMU_DISK + 4 * DISK_REG_CMD := cmd]> (mmio s)))))) s.

Lemma disk_setup_request L cmd i b s : disk_request L cmd i b (disk_setup cmd i b s).
Proof.
  unfold disk_request, disk_setup. ksimp.
  by repeat (first [rewrite lookup_insert_eq | rewrite lookup_insert_ne by done]).
Qed.

Lemma nemu_disk_setup L W (N : NemuDisk L W) cmd i b s :
  (nemu_disk DISK_REG_CMD cmd ;; nemu_disk DISK_REG_BUF (buf_addr i) ;;
   nemu_disk DISK_REG_BLKNO b ;; nemu_disk DISK_REG_BLKCNT 1 ;; nemu_disk DISK_REG_VALID 1) s =
  Ok tt (hw_write (NEMU_DISK + 4 * DISK_REG_VALID) 1 (disk_setup cmd i b s)).
Proof.
  unfold nemu_disk, mmio_store. msimp.
  rewrite (nemu_setup DISK_REG_CMD), (nemu_setup DISK_REG_BUF), (nemu_setup DISK_REG_BLKNO),
    (nemu_setup DISK_REG_BLKCNT) by done.
  reflexivity.
Qed.

Lemma nemu_disk_laws (L : Layout) (W : World) : NemuDisk L W -> DiskOk nemu_disk_driver.
Proof.
  intros N. split.
  - intros b i s Hb Hi. cbn. unfold Nemu.platform_disk_read.
    rewrite (nemu_disk_setup L W N). eexists. split; [reflexivity|].
    rewrite (nemu_read i b) by (done || apply disk_setup_request).
    by exists (mmio (disk_setup DISK_CMD_READ i b s)), (uart s), (nmmio s); destruct s.
  - intros b i s bf Hb Hbf Hi. cbn. unfold Nemu.platform_disk_write.
    rewrite (nemu_disk_setup L W N). eexists. split; [reflexivity|].
    rewrite (nemu_write i b _ bf) by (done || apply disk_setup_request).
    by exists (mmio (disk_setup DISK_CMD_WRITE i b s)), (uart s), (nmmio s); destruct s.
Qed.

Lemma nemu_serial_laws (W : World) : NemuUart W -> SerialOk nemu_serial.
Proof.
  intros U. split. intros c s. eexists. split; [reflexivity|]. rewrite nemu_uart.
  by eexists _, _, (nmmio s); destruct s.
Qed.

(** C39: the NEMU platform implements what the kernel relies on.  On a disk
    controller and a serial port that behave as documented,
    [platform_disk_read] returns with the block in the buffer,
    [platform_disk_write] with the buffer on disk, and [platform_uart_putc_sync]
    with the byte sent, and none changes anything else but device registers. *)
Theorem nemu_platform_ok (L : Layout) (W : World) :
  NemuDisk L W -> NemuUart W ->
  DiskOk nemu_disk_driver /\ SerialOk nemu_serial /\
  forall c s, exists s', Nemu.platform_uart_putc_sync c s = Ok tt s' /\ uart s' = uart s ++ [u8 c].
Proof.
  intros N U. split; [by apply nemu_disk_laws|]. split; [by apply nemu_serial_laws|].
  intros c s. eexists. split; [reflexivity|]. by rewrite nemu_uart.
Qed.

(** A machine with such a controller, the other processes never running. *)
Definition reg (s : kstate) (r : Z) : Z := default 0 (mmio s !! (NEMU_DISK + 4 * r)).
Definition disk_go (s : kstate) : kstate :=
  match list_find (fun i => @buf_addr test_layout i = reg s DISK_REG_BUF) (seq 0 NBUF) with
  | None => s
  | Some (i, _) =>
      let b := reg s DISK_REG_BLKNO in
      if reg s DISK_REG_CMD =? DISK_CMD_READ then upd_buf i (set_b_data (disk_block (disk s) b)) s
      else match bufs s !! i with
           | None => s
           | Some bf => set_disk (<[b := b_data bf]> (disk s))
                          (set_dtrace (dtrace s ++ [(b, b_data bf)]) s)
           end
  end.
Definition nemu_world : World :=
  {| others _ _ := None; hw_read _ _ _ := 0;
     hw_write a v s :=
       if a =? NEMU_DISK + 4 * DISK_REG_VALID then disk_go s
       else if a =? NEMU_UART0 then set_uart (uart s ++ [v]) s else s;
     patience := 10 |}.

Lemma find_buf i :
  (i < NBUF)%nat ->
  list_find (fun j => @buf_addr test_layout j = @buf_addr test_layout i) (seq 0 NBUF) = Some (i, i).
Proof.
  intros Hi. apply list_find_Some. split_and!.
  - apply lookup_seq. lia.
  - done.
  - intros j y Hj%lookup_seq Hlt. cbn. lia.
Qed.

Lemma nemu_world_disk : NemuDisk test_layout nemu_world.
Proof.
  split.
  - intros r v s Hr. cbn [hw_write nemu_world]. unfold DISK_REG_VALID in Hr.
    rewrite !(proj2 (Z.eqb_neq _ _)); [done|unfold NEMU_DISK, NEMU_UART0; lia|].
    unfold DISK_REG_VALID. lia.
  - intros i b s Hi (H1 & H2 & H3 & H4). cbn [hw_write nemu_world]. rewrite Z.eqb_refl.
    unfold disk_go, reg. rewrite H1, H2, H3. cbn [default id]. rewrite find_buf by done.
    reflexivity.
  - intros i b s bf Hi (H1 & H2 & H3 & H4) Hbf. cbn [hw_write nemu_world]. rewrite Z.eqb_refl.
    unfold disk_go, reg. rewrite H1, H2, H3. cbn [default id]. rewrite find_buf by done.
    rewrite Hbf. reflexivity.
Qed.

Lemma nemu_world_uart : NemuUart nemu_world.
Proof. intros c s. reflexivity. Qed.

Lemma nemu_platform_ok_witness :
  DiskOk (@nemu_disk_driver test_layout nemu_world) /\ SerialOk (@nemu_serial nemu_world).
Proof.
  destruct (nemu_platform_ok test_layout nemu_world nemu_world_disk nemu_world_uart) as (H1 & H2 & _).
  split; [exact H1|exact H2].
Defined.
