(* ===== verification/VirtioSpec.v ===== *)
(** * The QEMU disk driver and its device

    The driver of platform/qemu/platform.c shares a table of descriptors and
    two rings of indices with the device.  [virtio_step] is the device, as the
    virtio specification describes it: it takes the next chain of the available
    ring, finds the request in the three buffers of the chain, carries it out,
    and puts the head of the chain on the used ring.  The rings implement a
    queue of requests ([vq]): the driver appends to it, the device serves it in
    order, the interrupt handler marks what has been served, and the owner of a
    request takes back its descriptors. *)
From S2P Require Import Prelude Memory Machine Platform Sv32 Spinlock Printf Kalloc Vm Proc Console Trap Qemu ProcSpec.
From stdpp Require Import gmap strings countable prelude.

Open Scope Z_scope.

(** ** Half words *)

Lemma load8_store16 m a v b :
  load8 (store16 m a v) b =
  if decide (b = a) then u8 v else if decide (b = a + 1) then u8 (v / 256) else load8 m b.
Proof.
  unfold store16. rewrite !load8_store8. unfold u8.
  repeat case_decide; subst; try lia; try done; by rewrite Z.mod_mod.
Qed.
Lemma load16_range m a : 0 <= load16 m a < 65536.
Proof. unfold load16. pose proof (load8_range m a). pose proof (load8_range m (a + 1)). lia. Qed.
Lemma load16_store16 m a v : load16 (store16 m a v) a = v mod 65536.
Proof.
  unfold load16. rewrite !load8_store16. rewrite decide_True by done. rewrite decide_False by lia.
  rewrite decide_True by done. unfold u8. Z.div_mod_to_equations. lia.
Qed.
Lemma load16_ext m m' a :
  (forall b, a <= b < a + 2 -> load8 m b = load8 m' b) -> load16 m a = load16 m' a.
Proof. intros H. unfold load16. rewrite !H by lia. done. Qed.

(** ** Memory that two states share *)

(** The memories agree outside [n] bytes at [a]. *)
Definition outside (a n : Z) (m m' : gmap Z Z) : Prop :=
  forall b, b < a \/ a + n <= b -> load8 m' b = load8 m b.

Lemma outside_store16 a n b v m : a <= b -> b + 2 <= a + n -> outside a n m (store16 m b v).
Proof. intros H1 H2 c Hc. rewrite load8_store16. repeat (case_decide; [lia|]). done. Qed.
Lemma outside_store32 a n b v m : a <= b -> b + 4 <= a + n -> outside a n m (store32 m b v).
Proof. intros H1 H2 c Hc. apply load8_store32_ne. lia. Qed.
Lemma outside_trans a n m1 m2 m3 : outside a n m1 m2 -> outside a n m2 m3 -> outside a n m1 m3.
Proof. intros H1 H2 b Hb. by rewrite H2, H1. Qed.
Lemma outside_wider a n a' n' m m' :
  a' <= a -> a + n <= a' + n' -> outside a n m m' -> outside a' n' m m'.
Proof. intros H1 H2 H b Hb. apply H. lia. Qed.
Lemma load16_outside a n m m' b :
  outside a n m m' -> b + 2 <= a \/ a + n <= b -> load16 m' b = load16 m b.
Proof. intros H Hb. apply load16_ext. intros c Hc. apply H. lia. Qed.
Lemma load32_outside a n m m' b :
  outside a n m m' -> b + 4 <= a \/ a + n <= b -> load32 m' b = load32 m b.
Proof. intros H Hb. apply load32_ext. intros c Hc. apply H. lia. Qed.

(** ** Descriptors *)

Record vdesc : Type := mk_vdesc { d_addr : Z; d_len : Z; d_flags : Z; d_next : Z }.
Definition vdesc_at (m : gmap Z Z) (d : Z) (i : nat) : vdesc :=
  let a := d + 16 * Z.of_nat i in
  {| d_addr := load32 m a + 4294967296 * load32 m (a + 4); d_len := load32 m (a + 8);
     d_flags := load16 m (a + 12); d_next := load16 m (a + 14) |}.

Lemma desc_set_outside d i x l f n m : outside (d + 16 * Z.of_nat i) 16 m (desc_set d i x l f n m).
Proof.
  unfold desc_set. eapply outside_trans; [|apply outside_store16; lia].
  eapply outside_trans; [|apply outside_store16; lia].
  eapply outside_trans; [|apply outside_store32; lia].
  eapply outside_trans; [|apply outside_store32; lia]. apply outside_store32; lia.
Qed.

Lemma desc_set_at d i x l f n m :
  is_u32 x -> is_u32 l -> 0 <= f < 65536 -> 0 <= n < 65536 ->
  vdesc_at (desc_set d i x l f n m) d i = mk_vdesc x l f n.
Proof.
  intros Hx Hl Hf Hn. unfold vdesc_at, desc_set. set (a := d + 16 * Z.of_nat i).
  assert (E : forall b v w m', b + 2 <= a + 14 -> load16 (store16 (store16 m' (a + 12) v) (a + 14) w) b =
    load16 (store16 m' (a + 12) v) b).
  { intros b v w m' Hb. eapply load16_outside; [apply (outside_store16 (a + 14) 2); lia|lia]. }
  assert (E4 : forall b v w m', b + 4 <= a + 12 ->
    load32 (store16 (store16 m' (a + 12) v) (a + 14) w) b = load32 m' b).
  { intros b v w m' Hb. etrans; (eapply load32_outside; [apply (outside_store16 (a + 12) 4); lia|lia]). }
  rewrite !E4, E, !load16_store16 by lia. rewrite !(Z.mod_small _ 65536) by lia.
  rewrite (load32_store32_ne _ (a + 8) _ a), (load32_store32_ne _ (a + 8) _ (a + 4)) by lia.
  rewrite (load32_store32_ne _ (a + 4) _ a) by lia. rewrite !load32_store32_eq, !u32_small by done.
  f_equal. change (u32 0) with 0. lia.
Qed.

Lemma vdesc_outside a n m m' d i :
  outside a n m m' -> d + 16 * Z.of_nat i + 16 <= a \/ a + n <= d + 16 * Z.of_nat i ->
  vdesc_at m' d i = vdesc_at m d i.
Proof.
  intros H Hd. unfold vdesc_at. f_equal.
  - by rewrite !(load32_outside a n m m') by (done || lia).
  - by apply (load32_outside a n); [|lia].
  - by apply (load16_outside a n); [|lia].
  - by apply (load16_outside a n); [|lia].
Qed.

(** ** The device *)

(** The static object of the driver an address points to. *)
Definition object_at (f : nat -> Z) (n : nat) (a : Z) : option nat :=
  fst <$> list_find (fun i => f i = a) (seq 0 n).

(** A register as it was last written. *)
Definition vreg (s : kstate) (r : Z) : Z := default 0 (mmio s !! (QEMU_VIRTIO0 + r)).

(** Moving a block: into a buffer for a read, from it for a write. *)
Definition transfer (write : bool) (blk : Z) (b : nat) (s : kstate) : kstate :=
  if write then
    match bufs s !! b with
    | Some bf => set_disk (<[blk := b_data bf]> (disk s)) (set_dtrace (dtrace s ++ [(blk, b_data bf)]) s)
    | None => s
    end
  else upd_buf b (set_b_data (disk_block (disk s) blk)) s.

Section Device.
Context {L : Layout}.

(** The request of the chain with head [h]: whether it writes, the block, the
    buffer and the place of the status byte.  The first descriptor is the
    header and is only read; the data are written by the device for a read of
    the disk and only then; the last is one byte for the status. *)
Definition request_at (s : kstate) (h : nat) : option (bool * Z * nat * nat) :=
  let table := vreg s VIRTIO_MMIO_QUEUE_DESC_LOW in
  let d0 := vdesc_at (mem s) table h in
  let d1 := vdesc_at (mem s) table (Z.to_nat (d_next d0)) in
  let d2 := vdesc_at (mem s) table (Z.to_nat (d_next d1)) in
  if negb (d_flags d0 =? VRING_DESC_F_NEXT) || negb (d_len d0 =? 16) then None else
  if (Z.land (d_flags d1) VRING_DESC_F_NEXT =? 0) || negb (d_len d1 =? BSIZE) then None else
  if negb (d_flags d2 =? VRING_DESC_F_WRITE) || negb (d_len d2 =? 1) then None else
  o ← object_at vd_ops_addr NUM (d_addr d0);
  b ← object_at buf_addr NBUF (d_addr d1);
  st ← object_at vd_status_addr NUM (d_addr d2);
  op ← vd_ops (plat s) !! o;
  let device_writes := negb (Z.land (d_flags d1) VRING_DESC_F_WRITE =? 0) in
  if (op.1 =? VIRTIO_BLK_T_IN) && device_writes then Some (false, op.2 / (BSIZE / 512), b, st)
  else if (op.1 =? VIRTIO_BLK_T_OUT) && negb device_writes then Some (true, op.2 / (BSIZE / 512), b, st)
  else None.

(** Serving the next request of the available ring, if there is one. *)
Definition virtio_step (s : kstate) : option kstate :=
  let avail := vreg s VIRTIO_MMIO_DRIVER_DESC_LOW in
  let used := vreg s VIRTIO_MMIO_DEVICE_DESC_LOW in
  let n := vreg s VIRTIO_MMIO_QUEUE_NUM in
  let u := used_idx used (mem s) in
  if u =? avail_idx avail (mem s) then None else
  let h := load16 (mem s) (avail + 4 + 2 * (u mod n)) in
  r ← request_at s (Z.to_nat h);
  let '(write, blk, b, st) := r in
  let s := transfer write blk b s in
  let s := upd_plat (fun d => set_vd_status (<[st := 0]> (vd_status d)) d) s in
  let a := used + 4 + 8 * (u mod n) in
  let m := store32 (store32 (mem s) a h) (a + 4) (if (write : bool) then 1 else BSIZE + 1) in
  Some (set_mem (store16 m (used + 2) (u + 1)) s).

(** Serving [n] requests, fewer if there are not as many. *)
Fixpoint virtio_run (n : nat) (s : kstate) : kstate :=
  match n with
  | O => s
  | S n' => match virtio_step s with Some s' => virtio_run n' s' | None => s end
  end.
End Device.

(** ** The queue of requests *)

(** A request, with the three descriptors of its chain. *)
Record vreq : Type := mk_vreq {
  v_head : nat; v_mid : nat; v_tail : nat; v_write : bool; v_blk : Z; v_buf : nat
}.
Definition slots (r : vreq) : list nat := [v_head r; v_mid r; v_tail r].
Definition carry (s : kstate) (r : vreq) : kstate := transfer (v_write r) (v_blk r) (v_buf r) s.

(** Pages at [x] and [y] do not overlap. *)
Definition apart (x y : Z) : Prop := x + PGSIZE <= y \/ y + PGSIZE <= x.

(** The linker places the objects of the driver apart, in 32 bits. *)
Class DriverData (L : Layout) : Prop := {
  ops_inj : forall i j, vd_ops_addr i = vd_ops_addr j -> i = j;
  status_inj : forall i j, vd_status_addr i = vd_status_addr j -> i = j;
  buf_inj : forall i j, buf_addr i = buf_addr j -> i = j;
  ops_u32 : forall i, (i < NUM)%nat -> is_u32 (vd_ops_addr i);
  status_u32 : forall i, (i < NUM)%nat -> is_u32 (vd_status_addr i);
  buf_u32 : forall i, (i < NBUF)%nat -> is_u32 (buf_addr i);
}.

Section Queue.
Context {L : Layout}.

(** The chain of a request in the table at [vd_desc d]. *)
Record chain (m : gmap Z Z) (d : pdata) (r : vreq) : Prop := {
  ch_head : vdesc_at m (vd_desc d) (v_head r) =
    mk_vdesc (vd_ops_addr (v_head r)) 16 VRING_DESC_F_NEXT (Z.of_nat (v_mid r));
  ch_mid : vdesc_at m (vd_desc d) (v_mid r) = mk_vdesc (buf_addr (v_buf r)) BSIZE
    (Z.lor (if v_write r then 0 else VRING_DESC_F_WRITE) VRING_DESC_F_NEXT) (Z.of_nat (v_tail r));
  ch_tail : vdesc_at m (vd_desc d) (v_tail r) =
    mk_vdesc (vd_status_addr (v_head r)) 1 VRING_DESC_F_WRITE 0;
  ch_op : vd_ops d !! v_head r =
    Some (if v_write r then VIRTIO_BLK_T_OUT else VIRTIO_BLK_T_IN, v_blk r);
  ch_buf : (v_buf r < NBUF)%nat;
  ch_slots : Forall (fun i => i < NUM)%nat (slots r);
}.

(** The rings hold the requests [f], served and seen by the driver, whose owner
    has not yet taken back the descriptors, [c], served but not yet seen, and
    [q], not yet served; the last two are on the rings, in order. *)
Record vqueue (f c q : list vreq) (m : gmap Z Z) (d : pdata) (mm : gmap Z Z) : Prop := {
  vq_table : mm !! (QEMU_VIRTIO0 + VIRTIO_MMIO_QUEUE_DESC_LOW) = Some (vd_desc d);
  vq_avail_reg : mm !! (QEMU_VIRTIO0 + VIRTIO_MMIO_DRIVER_DESC_LOW) = Some (vd_avail d);
  vq_used_reg : mm !! (QEMU_VIRTIO0 + VIRTIO_MMIO_DEVICE_DESC_LOW) = Some (vd_used d);
  vq_num_reg : mm !! (QEMU_VIRTIO0 + VIRTIO_MMIO_QUEUE_NUM) = Some (Z.of_nat NUM);
  vq_apart1 : apart (vd_desc d) (vd_avail d);
  vq_apart2 : apart (vd_desc d) (vd_used d);
  vq_apart3 : apart (vd_avail d) (vd_used d);
  vq_free : length (vd_free d) = NUM /\ Forall (fun x => x = 0 \/ x = 1) (vd_free d);
  vq_lens : length (vd_status d) = NUM /\ length (vd_done d) = NUM /\ length (vd_ops d) = NUM;
  vq_chains : Forall (chain m d) (f ++ c ++ q);
  vq_nodup : NoDup ((f ++ c ++ q) ≫= slots);
  vq_taken : Forall (fun i => vd_free d !! i = Some 0) ((f ++ c ++ q) ≫= slots);
  vq_range : 0 <= vd_used_idx d < 65536;
  vq_used_idx : used_idx (vd_used d) m = (vd_used_idx d + Z.of_nat (length c)) mod 65536;
  vq_used_ids : forall k r, c !! k = Some r ->
    used_id (vd_used d) ((vd_used_idx d + Z.of_nat k) mod Z.of_nat NUM) m = Z.of_nat (v_head r);
  vq_status : Forall (fun r => vd_status d !! v_head r = Some 0) (f ++ c);
  vq_seen : Forall (fun r => vd_done d !! v_head r = Some 1) f;
  vq_avail_idx : avail_idx (vd_avail d) m =
    (vd_used_idx d + Z.of_nat (length c) + Z.of_nat (length q)) mod 65536;
  vq_ring : forall k r, q !! k = Some r ->
    load16 m (vd_avail d + 4 +
      2 * ((vd_used_idx d + Z.of_nat (length c) + Z.of_nat k) mod Z.of_nat NUM)) = Z.of_nat (v_head r);
}.
Definition vq (f c q : list vreq) (s : kstate) : Prop := vqueue f c q (mem s) (plat s) (mmio s).

(** ** Consequences *)

Lemma nodup_bound (l : list nat) n : NoDup l -> Forall (fun i => i < n)%nat l -> (length l <= n)%nat.
Proof.
  intros Hd Hl. rewrite <- (length_seq n 0). apply submseteq_length, NoDup_submseteq; [done|].
  intros i Hi. apply elem_of_seq. rewrite Forall_forall in Hl. specialize (Hl i Hi). lia.
Qed.
Lemma length_slots l : length (l ≫= slots) = (3 * length l)%nat.
Proof. induction l as [|r l IH]; [done|]. cbn in *. lia. Qed.
Lemma slots_lt r n : Forall (fun i => i < n)%nat (slots r) ->
  (v_head r < n)%nat /\ (v_mid r < n)%nat /\ (v_tail r < n)%nat.
Proof. unfold slots. rewrite !Forall_cons. tauto. Qed.
Lemma slots_elem i l : i ∈ l ≫= slots <-> exists r, r ∈ l /\ i ∈ slots r.
Proof. rewrite list_elem_of_bind. naive_solver. Qed.

Lemma chains_slots m d l : Forall (chain m d) l -> Forall (fun i => i < NUM)%nat (l ≫= slots).
Proof.
  intros H. rewrite Forall_forall. intros i (r & Hr & Hi)%slots_elem.
  rewrite Forall_forall in H. pose proof (ch_slots _ _ _ (H r Hr)) as Hs.
  rewrite Forall_forall in Hs. by apply Hs.
Qed.
(** At most two requests have descriptors. *)
Lemma vqueue_few f c q m d mm : vqueue f c q m d mm -> (length (f ++ c ++ q) <= 2)%nat.
Proof.
  intros H. pose proof (nodup_bound _ NUM (vq_nodup _ _ _ _ _ _ H) (chains_slots _ _ _ (vq_chains _ _ _ _ _ _ H))).
  rewrite length_slots in *. unfold NUM in *. lia.
Qed.

(** A chain depends on its descriptors and its header only. *)
Lemma vchain_ext m m' d d' r :
  vd_desc d' = vd_desc d -> vd_ops d' !! v_head r = vd_ops d !! v_head r ->
  (forall i, i ∈ slots r -> vdesc_at m' (vd_desc d) i = vdesc_at m (vd_desc d) i) ->
  chain m d r -> chain m' d' r.
Proof.
  intros E1 E2 Hm [H1 H2 H3 H4 H5 H6].
  split; rewrite ?E1, ?E2; try done; rewrite Hm; unfold slots; try done; set_solver.
Qed.

(** Memory outside the table keeps all chains. *)
Lemma chains_outside a n m m' d d' l :
  outside a n m m' -> vd_desc d + 16 * Z.of_nat NUM <= a \/ a + n <= vd_desc d ->
  vd_desc d' = vd_desc d -> vd_ops d' = vd_ops d -> Forall (chain m d) l -> Forall (chain m' d') l.
Proof.
  intros Ho Ha E1 E2 H. eapply Forall_impl; [exact H|]. intros r Hr. cbn in Hr.
  apply (vchain_ext m m' d d'); [done|by rewrite E2| |done].
  intros i Hi. pose proof (ch_slots _ _ _ Hr) as Hs. rewrite Forall_forall in Hs. specialize (Hs i Hi).
  apply (vdesc_outside a n); [done|]. lia.
Qed.
End Queue.

(** ** What the driver and the device change *)

(** The part of the state that requests are about. *)
Definition dview (s : kstate) : list buf * gmap Z (list Z) * list (Z * list Z) :=
  (bufs s, disk s, dtrace s).

(** The bytes of the table and of the two rings. *)
Definition ring_byte (d : pdata) (a : Z) : Prop :=
  vd_desc d <= a < vd_desc d + 128 \/ vd_avail d <= a < vd_avail d + 24 \/
  vd_used d <= a < vd_used d + 72.

(** Nothing else changes than the driver's data, the rings, the process table
    and what requests are about. *)
Record vframe (s s' : kstate) : Prop := {
  vf_state : exists fr u st dn op m ps mm k n bs dk tr,
    s' = set_mem m (set_plat (set_vd_free fr (set_vd_used_idx u (set_vd_status st (set_vd_done dn
           (set_vd_ops op (plat s)))))) (set_procs ps (set_mmio mm (set_nmmio k (set_nsched n
           (set_bufs bs (set_disk dk (set_dtrace tr s)))))))) ;
  vf_mem : forall a, ~ ring_byte (plat s) a -> load8 (mem s') a = load8 (mem s) a;
}.

#[export] Instance vframe_preorder : PreOrder vframe.
Proof.
  split.
  - intros s. split; [|done].
    exists (vd_free (plat s)), (vd_used_idx (plat s)), (vd_status (plat s)), (vd_done (plat s)),
      (vd_ops (plat s)), (mem s), (procs s), (mmio s), (nmmio s), (nsched s), (bufs s), (disk s), (dtrace s).
    by destruct s as [? ? ? ? ? ? ? ? ? ? ? ? ? ? ? ? ? ? ? ? ? [] ? ? ? ? ? ?].
  - intros s1 s2 s3 [(? & ? & ? & ? & ? & ? & ? & ? & ? & ? & ? & ? & ? & ->) H1]
      [(fr & u & st & dn & op & m & ps & mm & k & n & bs & dk & tr & ->) H2].
    split; [by exists fr, u, st, dn, op, m, ps, mm, k, n, bs, dk, tr|].
    intros a Ha. rewrite H2; [by apply H1|exact Ha].
Qed.

Lemma transfer_dview w b i s t : dview s = dview t -> dview (transfer w b i s) = dview (transfer w b i t).
Proof.
  intros [= E1 E2 E3]. unfold dview, transfer. destruct w; [|ksimp; by rewrite E1, E2, E3].
  rewrite E1. destruct (bufs t !! i); cbn; by rewrite ?E1, E2, E3.
Qed.
Lemma carries_dview l : forall s t, dview s = dview t -> dview (foldl carry s l) = dview (foldl carry t l).
Proof. induction l as [|r l IH]; intros s t E; [done|]. cbn. by apply IH, transfer_dview. Qed.

(** ** The device serves the queue in order *)

Lemma object_at_ok f n i :
  (forall j k, f j = f k -> j = k) -> (i < n)%nat -> object_at f n (f i) = Some i.
Proof.
  intros Hinj Hi. unfold object_at.
  rewrite (proj2 (list_find_Some (fun j => f j = f i) (seq 0 n) i i)); [done|]. split_and!.
  - apply lookup_seq. lia.
  - done.
  - intros j y (-> & Hlt)%lookup_seq Hj E%Hinj. lia.
Qed.

Lemma idx_mod x n : (x mod 65536 + n) mod 65536 = (x + n) mod 65536.
Proof. by rewrite Zplus_mod_idemp_l. Qed.
Lemma idx_slot x : (x mod 65536) mod Z.of_nat NUM = x mod Z.of_nat NUM.
Proof. unfold NUM. change (Z.of_nat 8) with 8. Z.div_mod_to_equations. lia. Qed.
Lemma slot_range x : 0 <= x mod Z.of_nat NUM < 8.
Proof. unfold NUM. change (Z.of_nat 8) with 8. apply Z.mod_pos_bound. lia. Qed.
(** Positions less than eight apart are different slots of a ring. *)
Lemma slot_ne x i j :
  0 <= i -> 0 <= j -> i < j < i + 8 -> (x + i) mod Z.of_nat NUM <> (x + j) mod Z.of_nat NUM.
Proof. unfold NUM. change (Z.of_nat 8) with 8. intros. Z.div_mod_to_equations. lia. Qed.
Lemma idx_ne x n : 0 < n < 65536 -> x mod 65536 <> (x + n) mod 65536.
Proof. intros. Z.div_mod_to_equations. lia. Qed.

Section Serve.
Context {L : Layout} {DD : DriverData L}.

Lemma vregs f c q s : vq f c q s ->
  vreg s VIRTIO_MMIO_QUEUE_DESC_LOW = vd_desc (plat s) /\
  vreg s VIRTIO_MMIO_DRIVER_DESC_LOW = vd_avail (plat s) /\
  vreg s VIRTIO_MMIO_DEVICE_DESC_LOW = vd_used (plat s) /\
  vreg s VIRTIO_MMIO_QUEUE_NUM = Z.of_nat NUM.
Proof. intros [H1 H2 H3 H4]. unfold vreg. by rewrite H1, H2, H3, H4. Qed.

Lemma chain_request s r :
  vreg s VIRTIO_MMIO_QUEUE_DESC_LOW = vd_desc (plat s) -> chain (mem s) (plat s) r ->
  request_at s (v_head r) = Some (v_write r, v_blk r, v_buf r, v_head r).
Proof.
  intros E [H1 H2 H3 H4 H5 H6]. apply Forall_cons in H6 as [H6 _].
  unfold request_at. rewrite E, H1. cbn [d_next d_flags d_len d_addr]. rewrite Nat2Z.id, H2.
  cbn [d_next d_flags d_len d_addr]. rewrite Nat2Z.id, H3. cbn [d_next d_flags d_len d_addr].
  rewrite (object_at_ok vd_ops_addr), (object_at_ok vd_status_addr), (object_at_ok buf_addr)
    by (done || apply ops_inj || apply status_inj || apply buf_inj).
  cbn [mbind option_bind]. rewrite H4. cbn [mbind option_bind].
  destruct (v_write r); cbn; by rewrite Z.div_1_r.
Qed.

(** The head of the available ring. *)
Lemma next_request f c r q s : vq f c (r :: q) s ->
  used_idx (vd_used (plat s)) (mem s) <> avail_idx (vd_avail (plat s)) (mem s) /\
  load16 (mem s) (vd_avail (plat s) + 4 +
    2 * (used_idx (vd_used (plat s)) (mem s) mod Z.of_nat NUM)) = Z.of_nat (v_head r).
Proof.
  intros H. pose proof (vqueue_few _ _ _ _ _ _ H) as Hn. rewrite !length_app in Hn. cbn [length] in Hn.
  split.
  - rewrite (vq_used_idx _ _ _ _ _ _ H), (vq_avail_idx _ _ _ _ _ _ H). cbn [length].
    apply idx_ne. lia.
  - rewrite (vq_used_idx _ _ _ _ _ _ H), idx_slot.
    pose proof (vq_ring _ _ _ _ _ _ H 0 r eq_refl) as E. change (Z.of_nat 0) with 0 in E.
    by rewrite Z.add_0_r in E.
Qed.

(** The memory of the used ring after a request. *)
Definition retire (h len : Z) (d : pdata) (m : gmap Z Z) : gmap Z Z :=
  let u := used_idx (vd_used d) m in
  let a := vd_used d + 4 + 8 * (u mod Z.of_nat NUM) in
  store16 (store32 (store32 m a h) (a + 4) len) (vd_used d + 2) (u + 1).

Lemma virtio_step_head f c r q s : vq f c (r :: q) s ->
  virtio_step s = Some (let t := carry s r in
    set_mem (retire (Z.of_nat (v_head r)) (if v_write r then 1 else BSIZE + 1) (plat s) (mem s))
      (upd_plat (fun d => set_vd_status (<[v_head r := 0]> (vd_status d)) d) t)).
Proof.
  intros H. destruct (vregs _ _ _ _ H) as (E1 & E2 & E3 & E4), (next_request _ _ _ _ _ H) as [Hne Hh].
  unfold virtio_step. rewrite E2, E3, E4. rewrite (proj2 (Z.eqb_neq _ _) Hne), Hh, Nat2Z.id.
  rewrite (chain_request s r) by
    (done || (pose proof (vq_chains _ _ _ _ _ _ H) as Hc; rewrite Forall_forall in Hc; apply Hc; set_solver)).
  cbn [mbind option_bind]. do 2 f_equal. unfold retire.
  replace (mem (upd_plat _ _)) with (mem s); [done|].
  unfold transfer. destruct (v_write r); [destruct (bufs s !! v_buf r)|]; reflexivity.
Qed.

Lemma retire_outside h len d m : outside (vd_used d) 72 m (retire h len d m).
Proof.
  unfold retire. set (u := used_idx (vd_used d) m). pose proof (slot_range u).
  eapply outside_trans; [|apply outside_store16; lia].
  eapply outside_trans; apply outside_store32; lia.
Qed.
Lemma retire_idx h len d m :
  used_idx (vd_used d) (retire h len d m) = (used_idx (vd_used d) m + 1) mod 65536.
Proof. unfold used_idx at 1. unfold retire. apply load16_store16. Qed.
Lemma retire_id h len d m :
  is_u32 h -> used_id (vd_used d) (used_idx (vd_used d) m mod Z.of_nat NUM) (retire h len d m) = h.
Proof.
  intros Hh. unfold used_id, retire. set (u := used_idx (vd_used d) m). pose proof (slot_range u).
  rewrite (load32_outside (vd_used d + 2) 2 (store32 (store32 m _ _) _ _)) by
    (apply outside_store16 || idtac; lia).
  rewrite load32_store32_ne by lia. by rewrite load32_store32_eq, u32_small.
Qed.
Lemma retire_id_ne h len d m i :
  i <> used_idx (vd_used d) m mod Z.of_nat NUM -> 0 <= i < 8 ->
  used_id (vd_used d) i (retire h len d m) = used_id (vd_used d) i m.
Proof.
  intros Hne Hi. unfold used_id, retire. set (u := used_idx (vd_used d) m) in *. pose proof (slot_range u).
  rewrite (load32_outside (vd_used d + 2) 2 (store32 (store32 m _ _) _ _)) by
    (apply outside_store16 || idtac; lia).
  by rewrite !load32_store32_ne by lia.
Qed.

Lemma insert_same {A} (l : list A) i j x : l !! i = Some x -> <[j := x]> l !! i = Some x.
Proof.
  intros H. destruct (decide (j = i)) as [->|Hne]; [|by rewrite list_lookup_insert_ne].
  apply list_lookup_insert_eq. by eapply lookup_lt_Some.
Qed.

(** Serving a request moves it from the queue to those to be seen. *)
Lemma serve_queue f c r q m d mm len :
  vqueue f c (r :: q) m d mm ->
  vqueue f (c ++ [r]) q (retire (Z.of_nat (v_head r)) len d m)
    (set_vd_status (<[v_head r := 0]> (vd_status d)) d) mm.
Proof.
  intros H. pose proof (vqueue_few _ _ _ _ _ _ H) as Hn. rewrite !length_app in Hn. cbn [length] in Hn.
  pose proof (retire_outside (Z.of_nat (v_head r)) len d m) as Ho.
  assert (Hr : chain m d r).
  { pose proof (vq_chains _ _ _ _ _ _ H) as Hc. rewrite Forall_forall in Hc. apply Hc. set_solver. }
  assert (Hh : (v_head r < NUM)%nat) by (pose proof (ch_slots _ _ _ Hr) as Hs; by inversion Hs).
  destruct H as [T1 T2 T3 T4 A1 A2 A3 Hf (Hl1 & Hl2 & Hl3) Hc Hd Ht Hg Hu Hi Hs Hdn Ha Hq].
  unfold apart, PGSIZE in *. assert (E : f ++ (c ++ [r]) ++ q = f ++ c ++ r :: q) by by rewrite <- !app_assoc.
  split; rewrite ?E; ksimp; try done.
  - by rewrite length_insert.
  - apply (chains_outside (vd_used d) 72 m _ d); [exact Ho|unfold NUM; lia|done|done|exact Hc].
  - rewrite retire_idx, Hu, idx_mod, length_app. cbn [length]. rewrite Nat2Z.inj_add. by rewrite Z.add_assoc.
  - intros k x [Hx|(Hk & Hx)]%lookup_app_Some.
    + rewrite retire_id_ne; [by apply Hi| |apply slot_range]. apply lookup_lt_Some in Hx.
      rewrite Hu, idx_slot. apply slot_ne; lia.
    + apply list_lookup_singleton_Some in Hx as (Hx & <-).
      replace (vd_used_idx d + Z.of_nat k) with (vd_used_idx d + Z.of_nat (length c)) by lia.
      rewrite <- idx_slot, <- Hu. apply retire_id. unfold is_u32, NUM in *. lia.
  - rewrite app_assoc. apply Forall_app. split.
    + eapply Forall_impl; [exact Hs|]. intros x Hx. by apply insert_same.
    + apply Forall_singleton. apply list_lookup_insert_eq. lia.
  - etrans; [apply (load16_outside _ _ _ _ _ Ho); lia|]. rewrite length_app. cbn [length].
    unfold avail_idx in Ha. rewrite Ha. cbn [length]. f_equal. lia.
  - intros k x Hx. rewrite length_app. cbn [length].
    replace (vd_used_idx d + Z.of_nat (length c + 1) + Z.of_nat k) with
      (vd_used_idx d + Z.of_nat (length c) + Z.of_nat (S k)) by lia.
    etrans; [apply (load16_outside _ _ _ _ _ Ho)|by apply Hq].
    pose proof (slot_range (vd_used_idx d + Z.of_nat (length c) + Z.of_nat (S k))). lia.
Qed.

Lemma carry_frame r s : exists bs dk tr, carry s r = set_bufs bs (set_disk dk (set_dtrace tr s)).
Proof.
  unfold carry, transfer. destruct (v_write r).
  - destruct (bufs s !! v_buf r) as [bf|].
    + by exists (bufs s), (<[v_blk r := b_data bf]> (disk s)), (dtrace s ++ [(v_blk r, b_data bf)]).
    + by exists (bufs s), (disk s), (dtrace s).
  - by exists (alter (set_b_data (disk_block (disk s) (v_blk r))) (v_buf r) (bufs s)), (disk s), (dtrace s).
Qed.

(** Of the driver's own data the device changes the status bytes only. *)
Definition device_only (s s' : kstate) : Prop :=
  exists m st bs dk tr, s' = set_mem m (set_plat (set_vd_status st (plat s))
    (set_bufs bs (set_disk dk (set_dtrace tr s)))).
Lemma device_only_trans s1 s2 s3 : device_only s1 s2 -> device_only s2 s3 -> device_only s1 s3.
Proof. intros (? & ? & ? & ? & ? & ->) (m & st & bs & dk & tr & ->). by exists m, st, bs, dk, tr. Qed.

Lemma virtio_step_ok f c r q s : vq f c (r :: q) s -> exists s',
  virtio_step s = Some s' /\ vq f (c ++ [r]) q s' /\ dview s' = dview (carry s r) /\
  vframe s s' /\ device_only s s'.
Proof.
  intros H. eexists. split; [by eapply virtio_step_head|]. cbn zeta.
  set (len := if v_write r then 1 else BSIZE + 1).
  pose proof (serve_queue f c r q (mem s) (plat s) (mmio s) len H) as Hq.
  pose proof (retire_outside (Z.of_nat (v_head r)) len (plat s) (mem s)) as Ho.
  destruct (carry_frame r s) as (bs & dk & tr & ->). split_and!; [exact Hq|done| |].
  - split; [|intros a Ha; apply Ho; unfold ring_byte in Ha; lia].
    by exists (vd_free (plat s)), (vd_used_idx (plat s)), (<[v_head r := 0]> (vd_status (plat s))),
      (vd_done (plat s)), (vd_ops (plat s)), (retire (Z.of_nat (v_head r)) len (plat s) (mem s)),
      (procs s), (mmio s), (nmmio s), (nsched s), bs, dk, tr.
  - by eexists _, (<[v_head r := 0]> (vd_status (plat s))), bs, dk, tr.
Qed.

(** The queue is empty when the device stops. *)
Lemma virtio_step_none f c s : vq f c [] s -> virtio_step s = None.
Proof.
  intros H. destruct (vregs _ _ _ _ H) as (_ & E2 & E3 & _). unfold virtio_step. rewrite E2, E3.
  rewrite (vq_used_idx _ _ _ _ _ _ H), (vq_avail_idx _ _ _ _ _ _ H). cbn [length].
  rewrite Z.add_0_r, Z.eqb_refl. done.
Qed.

Lemma virtio_run_ok q : forall n f c s, vq f c q s -> (length q <= n)%nat ->
  vq f (c ++ q) [] (virtio_run n s) /\ dview (virtio_run n s) = dview (foldl carry s q) /\
  vframe s (virtio_run n s) /\ device_only s (virtio_run n s).
Proof.
  induction q as [|r q IH]; intros n f c s H Hn.
  - assert (virtio_run n s = s) as ->.
    { destruct n; cbn; [done|]. by rewrite (virtio_step_none _ _ _ H). }
    rewrite app_nil_r. split_and!; [done|done|reflexivity|].
    exists (mem s), (vd_status (plat s)), (bufs s), (disk s), (dtrace s).
    by destruct s as [? ? ? ? ? ? ? ? ? ? ? ? ? ? ? ? ? ? ? ? ? [] ? ? ? ? ? ?].
  - destruct n as [|n]; [cbn in Hn; lia|].
    destruct (virtio_step_ok _ _ _ _ _ H) as (s' & E & Hq & Hv & Hf & Hd). cbn [virtio_run foldl]. rewrite E.
    destruct (IH n f (c ++ [r]) s' Hq) as (G1 & G2 & G3 & G4); [cbn in Hn; lia|].
    rewrite <- app_assoc in G1. split_and!; [exact G1| | |].
    + rewrite G2. by apply carries_dview.
    + by etrans.
    + by eapply device_only_trans.
Qed.
End Serve.

(** ** Descriptors are taken and given back *)

Definition is_spare (x : Z) : Prop := x = 1.
#[export] Instance is_spare_dec x : Decision (is_spare x) := decide (x = 1).
(** The free descriptors of the table. *)
Definition spare (l : list Z) : nat := length (filter is_spare l).

Lemma spare_find l : (0 < spare l)%nat -> exists j, l !! j = Some 1 /\
  forall i, (i < j)%nat -> l !! i <> Some 1.
Proof.
  induction l as [|x l IH]; [cbn; lia|]. unfold spare. rewrite filter_cons. case_decide as Hx.
  - intros _. exists 0%nat. cbn. unfold is_spare in Hx. subst. split; [done|lia].
  - intros (j & Hj & Hm)%IH. exists (S j). split; [done|]. intros [|i] Hi; cbn.
    + unfold is_spare in Hx. naive_solver.
    + apply Hm. lia.
Qed.
Lemma spare_insert l j : l !! j = Some 1 -> spare l = S (spare (<[j := 0]> l)).
Proof.
  intros Hj. rewrite <- (take_drop_middle _ _ _ Hj) at 1.
  rewrite insert_take_drop by (by eapply lookup_lt_Some). unfold spare.
  rewrite !filter_app, !filter_cons, !length_app.
  rewrite decide_True by done. rewrite decide_False by done. cbn. lia.
Qed.

Definition free_list (l : list Z) : Prop := length l = NUM /\ Forall (fun x => x = 0 \/ x = 1) l.

Lemma free_list_insert l j x : x = 0 \/ x = 1 -> free_list l -> free_list (<[j := x]> l).
Proof. intros Hx [H1 H2]. split; [by rewrite length_insert|by apply Forall_insert]. Qed.

Lemma alloc_desc_loop_ok j n : forall i s, (i <= j < i + n)%nat -> free_list (vd_free (plat s)) ->
  vd_free (plat s) !! j = Some 1 -> (forall k, (k < j)%nat -> vd_free (plat s) !! k <> Some 1) ->
  alloc_desc_loop n i s = Ok (Z.of_nat j) (upd_plat (fun d => set_vd_free (<[j := 0]> (vd_free d)) d) s).
Proof.
  induction n as [|n IH]; intros i s Hi [Hl Hf] Hj Hm; [lia|]. cbn [alloc_desc_loop]. msimp.
  destruct (decide (i = j)) as [->|Hne].
  - rewrite (at_lookup _ _ _ Hj). cbn [Z.eqb negb]. msimp. done.
  - assert (Hlt : (i < length (vd_free (plat s)))%nat) by (apply lookup_lt_Some in Hj; lia).
    assert (at_ (vd_free (plat s)) i = 0) as ->.
    { pose proof (lookup_at _ _ Hlt) as E. rewrite Forall_lookup in Hf.
      destruct (Hf _ _ E) as [E'|E']; [done|]. rewrite E' in E. destruct (Hm i); [lia|done]. }
    cbn [Z.eqb negb]. apply IH; [lia|done..].
Qed.

Definition take_desc (j : nat) (s : kstate) : kstate :=
  upd_plat (fun d => set_vd_free (<[j := 0]> (vd_free d)) d) s.

Lemma alloc_desc_ok s : free_list (vd_free (plat s)) -> (0 < spare (vd_free (plat s)))%nat ->
  exists j, platform_qemu_alloc_desc s = Ok (Z.of_nat j) (take_desc j s) /\
    vd_free (plat s) !! j = Some 1.
Proof.
  intros Hf (j & Hj & Hm)%spare_find. exists j. split; [|done].
  apply alloc_desc_loop_ok; try done. apply lookup_lt_Some in Hj. destruct Hf. lia.
Qed.

(** With three free descriptors the allocation succeeds. *)
Lemma alloc3_ok `{W : World} s : free_list (vd_free (plat s)) -> (3 <= spare (vd_free (plat s)))%nat ->
  exists i0 i1 i2, platform_qemu_alloc3_desc s =
      Ok (Some (i0, i1, i2)) (take_desc i2 (take_desc i1 (take_desc i0 s))) /\
    NoDup [i0; i1; i2] /\ Forall (fun i => vd_free (plat s) !! i = Some 1) [i0; i1; i2].
Proof.
  intros Hf Hn. unfold platform_qemu_alloc3_desc.
  destruct (alloc_desc_ok s Hf) as (i0 & E0 & H0); [lia|]. pose proof (spare_insert _ _ H0) as S0.
  assert (F1 : free_list (vd_free (plat (take_desc i0 s)))) by (apply free_list_insert; auto).
  destruct (alloc_desc_ok _ F1) as (i1 & E1 & H1).
  { change (0 < spare (<[i0 := 0%Z]> (vd_free (plat s))))%nat. lia. }
  pose proof (spare_insert _ _ H1) as S1.
  assert (F2 : free_list (vd_free (plat (take_desc i1 (take_desc i0 s))))) by (apply free_list_insert; auto).
  destruct (alloc_desc_ok _ F2) as (i2 & E2 & H2).
  { change (spare (<[i0 := 0]> (vd_free (plat s))) = S (spare (<[i1 := 0]> (<[i0 := 0]> (vd_free (plat s)))))) in S1.
    change (0 < spare (<[i1 := 0%Z]> (<[i0 := 0%Z]> (vd_free (plat s)))))%nat. lia. }
  erewrite bind_ok by exact E0. rewrite (proj2 (Z.ltb_ge _ _)) by lia.
  erewrite bind_ok by exact E1. rewrite (proj2 (Z.ltb_ge _ _)) by lia.
  erewrite bind_ok by exact E2. rewrite (proj2 (Z.ltb_ge _ _)) by lia.
  rewrite !Nat2Z.id. exists i0, i1, i2. split; [done|]. cbn in H1, H2.
  apply list_lookup_insert_Some in H1 as [(? & ? & ?)|(N1 & H1)]; [done|].
  apply list_lookup_insert_Some in H2 as [(? & ? & ?)|(N2 & H2)]; [done|].
  apply list_lookup_insert_Some in H2 as [(? & ? & ?)|(N3 & H2)]; [done|].
  split; [|by rewrite !Forall_cons, Forall_nil]. rewrite !NoDup_cons. set_solver by eauto using NoDup_nil_2.
Qed.

(** ** Submitting a request *)

Section Submit.
Context {L : Layout} {DD : DriverData L}.

Definition op_of (r : vreq) : Z * Z := (if v_write r then VIRTIO_BLK_T_OUT else VIRTIO_BLK_T_IN, v_blk r).
(** The driver's data, its table and the available ring with the request. *)
Definition sub_plat (r : vreq) (d : pdata) : pdata :=
  set_vd_done (<[v_head r := 0]> (vd_done d)) (set_vd_status (<[v_head r := 255]> (vd_status d))
    (set_vd_ops (<[v_head r := op_of r]> (vd_ops d))
      (set_vd_free (<[v_tail r := 0]> (<[v_mid r := 0]> (<[v_head r := 0]> (vd_free d)))) d))).
Definition sub_table (r : vreq) (d : Z) (m : gmap Z Z) : gmap Z Z :=
  desc_set d (v_tail r) (vd_status_addr (v_head r)) 1 VRING_DESC_F_WRITE 0
    (desc_set d (v_mid r) (buf_addr (v_buf r)) BSIZE
      (Z.lor (if v_write r then 0 else VRING_DESC_F_WRITE) VRING_DESC_F_NEXT) (Z.of_nat (v_tail r))
      (desc_set d (v_head r) (vd_ops_addr (v_head r)) 16 VRING_DESC_F_NEXT (Z.of_nat (v_mid r)) m)).
Definition sub_slot (r : vreq) (a : Z) (m : gmap Z Z) : gmap Z Z :=
  store16 m (a + 4 + 2 * (avail_idx a m mod Z.of_nat NUM)) (Z.of_nat (v_head r)).
Definition sub_ring (r : vreq) (a : Z) (m : gmap Z Z) : gmap Z Z :=
  let m' := sub_slot r a m in store16 m' (a + 2) (avail_idx a m' + 1).
Definition sub_mem (r : vreq) (d : pdata) (m : gmap Z Z) : gmap Z Z :=
  sub_ring r (vd_avail d) (sub_table r (vd_desc d) m).

Lemma queue_request_eq `{W : World} r s : is_u32 (v_blk r) ->
  queue_request (v_blk r) (v_buf r) (v_write r) (v_head r) (v_mid r) (v_tail r)
    (take_desc (v_tail r) (take_desc (v_mid r) (take_desc (v_head r) s))) =
  Ok tt (set_mem (sub_mem r (plat s) (mem s)) (set_plat (sub_plat r (plat s)) s)).
Proof.
  intros Hb. unfold queue_request. change (BSIZE / 512) with 1. rewrite Z.mul_1_r, u32_small by done.
  reflexivity.
Qed.

Lemma sub_ring_outside r a m : outside a 24 m (sub_ring r a m).
Proof.
  unfold sub_ring, sub_slot. pose proof (slot_range (avail_idx a m)).
  eapply outside_trans; apply outside_store16; lia.
Qed.
Lemma sub_slot_idx r a m : avail_idx a (sub_slot r a m) = avail_idx a m.
Proof.
  unfold sub_slot. pose proof (slot_range (avail_idx a m)).
  apply (load16_outside (a + 4 + 2 * (avail_idx a m mod Z.of_nat NUM)) 2); [|lia].
  apply outside_store16; lia.
Qed.
Lemma sub_ring_idx r a m : avail_idx a (sub_ring r a m) = (avail_idx a m + 1) mod 65536.
Proof. unfold sub_ring. unfold avail_idx at 1. by rewrite load16_store16, sub_slot_idx. Qed.
Lemma sub_ring_slot r a m k : 0 <= k < 8 -> (v_head r < NUM)%nat ->
  load16 (sub_ring r a m) (a + 4 + 2 * k) =
  if decide (k = avail_idx a m mod Z.of_nat NUM) then Z.of_nat (v_head r) else load16 m (a + 4 + 2 * k).
Proof.
  intros Hk Hr. unfold sub_ring.
  rewrite (load16_outside (a + 2) 2 (sub_slot r a m)) by (apply outside_store16 || idtac; lia).
  unfold sub_slot. case_decide as E.
  - rewrite <- E, load16_store16. apply Z.mod_small. unfold NUM in Hr. lia.
  - apply (load16_outside (a + 4 + 2 * (avail_idx a m mod Z.of_nat NUM)) 2); [apply outside_store16; lia|].
    lia.
Qed.

Lemma desc_set_ne d i j x l f n m : i <> j -> vdesc_at (desc_set d i x l f n m) d j = vdesc_at m d j.
Proof. intros H. eapply vdesc_outside; [apply desc_set_outside|]. lia. Qed.
Lemma sub_table_ne r d j m : j ∉ slots r -> vdesc_at (sub_table r d m) d j = vdesc_at m d j.
Proof. intros H. unfold sub_table. unfold slots in H. by rewrite !desc_set_ne by set_solver. Qed.
Lemma desc_set_in_table d i x l f n m :
  (i < NUM)%nat -> outside d (16 * Z.of_nat NUM) m (desc_set d i x l f n m).
Proof. intros H. eapply outside_wider; [..|apply desc_set_outside]; lia. Qed.
Lemma sub_table_outside r d m : Forall (fun i => i < NUM)%nat (slots r) ->
  outside d (16 * Z.of_nat NUM) m (sub_table r d m).
Proof.
  intros (H1 & H2 & H3)%slots_lt. unfold sub_table.
  eapply outside_trans; [eapply outside_trans|]; by apply desc_set_in_table.
Qed.

Lemma sub_chain r d m : NoDup (slots r) -> Forall (fun i => i < NUM)%nat (slots r) ->
  (v_buf r < NBUF)%nat -> length (vd_ops d) = NUM ->
  chain (sub_table r (vd_desc d) m) (sub_plat r d) r.
Proof.
  intros Hd Hs Hb Hl. assert (Hs' := Hs). unfold slots in Hd, Hs. rewrite !NoDup_cons in Hd.
  rewrite !Forall_cons in Hs. destruct Hs as (H1 & H2 & H3 & _).
  assert (v_head r <> v_mid r /\ v_head r <> v_tail r /\ v_mid r <> v_tail r) as (N1 & N2 & N3)
    by (destruct Hd as (? & ? & _); set_solver).
  pose proof (ops_u32 _ H1). pose proof (status_u32 _ H1). pose proof (buf_u32 _ Hb).
  unfold NUM in H1, H2, H3.
  split; try done; change (vd_desc (sub_plat r d)) with (vd_desc d); unfold sub_table.
  - rewrite !desc_set_ne by done. apply desc_set_at; unfold is_u32, VRING_DESC_F_NEXT in *; lia.
  - rewrite desc_set_ne by done. apply desc_set_at; unfold is_u32, BSIZE in *; try lia.
    by destruct (v_write r).
  - apply desc_set_at; unfold is_u32, VRING_DESC_F_WRITE in *; lia.
  - cbn. apply list_lookup_insert_eq. rewrite Hl. unfold NUM. lia.
Qed.

(** A descriptor that is free belongs to no chain. *)
Lemma fresh_slots f c q m d mm r :
  vqueue f c q m d mm -> Forall (fun i => vd_free d !! i = Some 1) (slots r) ->
  forall i, i ∈ (f ++ c ++ q) ≫= slots -> i ∉ slots r.
Proof.
  intros H Hr i Hi Hin. pose proof (vq_taken _ _ _ _ _ _ H) as Ht. rewrite Forall_forall in Ht, Hr.
  specialize (Ht i Hi). specialize (Hr i Hin). rewrite Ht in Hr. discriminate.
Qed.

Lemma head_slot r : v_head r ∈ slots r.
Proof. unfold slots. set_solver. Qed.

Lemma sub_chains f c q m d mm r :
  vqueue f c q m d mm -> Forall (fun i => vd_free d !! i = Some 1) (slots r) -> NoDup (slots r) ->
  (v_buf r < NBUF)%nat ->
  Forall (chain (sub_mem r d m) (sub_plat r d)) ((f ++ c ++ q) ++ [r]).
Proof.
  intros H Hr Hd Hb. pose proof (fresh_slots _ _ _ _ _ _ _ H Hr) as Hfr.
  assert (Hs : Forall (fun i => i < NUM)%nat (slots r)).
  { eapply Forall_impl; [exact Hr|]. intros i Hi%lookup_lt_Some. by rewrite (proj1 (vq_free _ _ _ _ _ _ H)) in Hi. }
  pose proof (sub_ring_outside r (vd_avail d) (sub_table r (vd_desc d) m)) as Ho.
  pose proof (vq_apart1 _ _ _ _ _ _ H) as Ha. unfold apart, PGSIZE in Ha.
  apply (chains_outside (vd_avail d) 24 (sub_table r (vd_desc d) m) _ (sub_plat r d));
    [exact Ho|cbn; unfold NUM; lia|done|done|].
  apply Forall_app. split; [|apply Forall_singleton, sub_chain; try done; apply (vq_lens _ _ _ _ _ _ H)].
  pose proof (vq_chains _ _ _ _ _ _ H) as Hc. rewrite Forall_forall in Hc |- *. intros x Hx.
  apply (vchain_ext m _ d); [done| | |by apply Hc].
  - cbn. apply list_lookup_insert_ne. intros E. apply (Hfr (v_head x)).
    + apply slots_elem. eauto using head_slot.
    + rewrite <- E. apply head_slot.
  - intros i Hi. apply sub_table_ne, Hfr, slots_elem. eauto.
Qed.

Lemma sub_taken r d : length (vd_free d) = NUM -> Forall (fun i => i < NUM)%nat (slots r) ->
  Forall (fun i => vd_free (sub_plat r d) !! i = Some 0) (slots r).
Proof.
  intros Hl Hs. rewrite Forall_forall in Hs |- *. intros i Hin. cbn.
  assert (Hli : (i < length (vd_free d))%nat) by (rewrite Hl; by apply Hs).
  unfold slots in Hin. rewrite !elem_of_cons, elem_of_nil in Hin.
  destruct (decide (i = v_tail r)) as [->|]; [apply list_lookup_insert_eq; by rewrite !length_insert|].
  rewrite list_lookup_insert_ne by done.
  destruct (decide (i = v_mid r)) as [->|]; [apply list_lookup_insert_eq; by rewrite !length_insert|].
  rewrite list_lookup_insert_ne by done. destruct Hin as [->|[?|[?|[]]]]; try done.
  by apply list_lookup_insert_eq.
Qed.

(** Writing the table leaves the rings, and writing the available ring leaves
    the used ring. *)
Lemma sub_reads r d m : Forall (fun i => i < NUM)%nat (slots r) ->
  apart (vd_desc d) (vd_avail d) -> apart (vd_desc d) (vd_used d) -> apart (vd_avail d) (vd_used d) ->
  avail_idx (vd_avail d) (sub_table r (vd_desc d) m) = avail_idx (vd_avail d) m /\
  used_idx (vd_used d) (sub_mem r d m) = used_idx (vd_used d) m /\
  (forall i, 0 <= i < 8 -> used_id (vd_used d) i (sub_mem r d m) = used_id (vd_used d) i m) /\
  (forall i, 0 <= i < 8 -> load16 (sub_table r (vd_desc d) m) (vd_avail d + 4 + 2 * i) =
     load16 m (vd_avail d + 4 + 2 * i)).
Proof.
  intros Hs A1 A2 A3. unfold apart, PGSIZE in *.
  pose proof (sub_ring_outside r (vd_avail d) (sub_table r (vd_desc d) m)) as Ho1.
  pose proof (sub_table_outside r (vd_desc d) m Hs) as Ho2. unfold NUM in Ho2. split_and!.
  - apply (load16_outside _ _ _ _ _ Ho2). lia.
  - unfold used_idx, sub_mem.
    by rewrite (load16_outside _ _ _ _ _ Ho1), (load16_outside _ _ _ _ _ Ho2) by lia.
  - intros i Hi. unfold used_id, sub_mem.
    by rewrite (load32_outside _ _ _ _ _ Ho1), (load32_outside _ _ _ _ _ Ho2) by lia.
  - intros i Hi. apply (load16_outside _ _ _ _ _ Ho2). lia.
Qed.

(** Submitting appends to the queue. *)
Lemma submit_queue f c q m d mm r :
  vqueue f c q m d mm -> Forall (fun i => vd_free d !! i = Some 1) (slots r) -> NoDup (slots r) ->
  (v_buf r < NBUF)%nat -> vqueue f c (q ++ [r]) (sub_mem r d m) (sub_plat r d) mm.
Proof.
  intros H Hr Hd Hb. pose proof (sub_chains _ _ _ _ _ _ _ H Hr Hd Hb) as Hch.
  pose proof (fresh_slots _ _ _ _ _ _ _ H Hr) as Hfr. pose proof (vqueue_few _ _ _ _ _ _ H) as Hn.
  assert (Hs : Forall (fun i => i < NUM)%nat (slots r)).
  { eapply Forall_impl; [exact Hr|]. intros i Hi%lookup_lt_Some. by rewrite (proj1 (vq_free _ _ _ _ _ _ H)) in Hi. }
  assert (Hh : (v_head r < NUM)%nat) by by inversion Hs.
  assert (Hold : forall x, x ∈ f ++ c ++ q -> v_head x <> v_head r).
  { intros x Hx E. apply (Hfr (v_head x)); [apply slots_elem; eauto using head_slot|rewrite E; apply head_slot]. }
  destruct H as [T1 T2 T3 T4 A1 A2 A3 Hf (Hl1 & Hl2 & Hl3) Hc Hdup Ht Hg Hu Hi Hst Hdn Ha Hq].
  destruct (sub_reads r d m Hs A1 A2 A3) as (Ei & Eu & Ed & Er).
  assert (E : f ++ c ++ q ++ [r] = (f ++ c ++ q) ++ [r]) by by rewrite <- !app_assoc.
  split; rewrite ?E; try done.
  - cbn. by do 3 (apply free_list_insert; [auto|]).
  - cbn. by rewrite !length_insert.
  - rewrite bind_app. cbn [mbind list_bind app]. rewrite app_nil_r. apply NoDup_app. split_and!; try done.
  - rewrite bind_app. cbn [mbind list_bind app]. rewrite app_nil_r. apply Forall_app. split.
    + eapply Forall_impl; [exact Ht|]. intros i Hi'. cbn. by do 3 apply insert_same.
    + apply sub_taken; [apply Hf|done].
  - by etrans.
  - intros k x Hx. etrans; [apply Ed, slot_range|by apply Hi].
  - rewrite Forall_forall in Hst |- *. intros x Hx. cbn. rewrite list_lookup_insert_ne; [by apply Hst|].
    apply not_eq_sym, Hold. rewrite app_assoc. apply elem_of_app. by left.
  - rewrite Forall_forall in Hdn |- *. intros x Hx. cbn. rewrite list_lookup_insert_ne; [by apply Hdn|].
    apply not_eq_sym, Hold, elem_of_app. by left.
  - unfold sub_mem. cbn [sub_plat]. change (vd_avail (sub_plat r d)) with (vd_avail d).
    rewrite sub_ring_idx, Ei, Ha, idx_mod, length_app. cbn [length].
    change (vd_used_idx (sub_plat r d)) with (vd_used_idx d). f_equal. lia.
  - intros k x Hx. change (vd_used_idx (sub_plat r d)) with (vd_used_idx d).
    change (vd_avail (sub_plat r d)) with (vd_avail d). unfold sub_mem.
    rewrite sub_ring_slot, Ei, Ha, idx_slot by (apply slot_range || done).
    rewrite !length_app in Hn. apply lookup_app_Some in Hx as [Hx|(Hk & Hx)].
    + assert (Hk := lookup_lt_Some _ _ _ Hx). rewrite decide_False by (apply slot_ne; lia).
      rewrite Er by apply slot_range. by apply Hq.
    + apply list_lookup_singleton_Some in Hx as (Hx & <-).
      replace k with (length q) by lia. by rewrite decide_True.
Qed.
End Submit.

(** ** The interrupt handler *)

(** No lock of the kernel is held. *)
Record calm (s : kstate) : Prop := {
  calm_settled : settled s;
  calm_locks : forall lk, static_lock lk -> lock_free lk s;
  calm_procs : length (procs s) = NPROC;
}.

(** The table after [wakeup(ch)]. *)
Definition woken (s : kstate) (ch : chan) : list proc := imap (wake (c_proc (kcpu s)) (Some ch)) (procs s).

Lemma wakeup_calm lk ch s : (forall i, lk <> LProc i) -> calm s ->
  wakeup ch (acq lk s) = Ok tt (acq lk (set_procs (woken s ch) s)).
Proof.
  intros Hlk [Hs Hl Hn]. unfold wakeup. rewrite wakeup_on_ok; [done| | |done].
  - by apply settled_acq.
  - intros i Hi. apply lock_free_acq_ne; [done|]. by apply Hl.
Qed.
Lemma calm_change s s' : calm s -> locks s' = locks s -> kcpu s' = kcpu s -> csr s' = csr s ->
  length (procs s') = length (procs s) -> calm s'.
Proof.
  intros [[S1 S2 S3] Hl Hn] El Ek Ec Ep. split.
  - unfold sie in *. split; unfold sie; rewrite ?Ek, ?Ec; done.
  - intros lk Hlk. unfold lock_free. rewrite El. by apply Hl.
  - by rewrite Ep.
Qed.

Lemma slot_mod x k : (x mod 65536 + k) mod Z.of_nat NUM = (x + k) mod Z.of_nat NUM.
Proof. unfold NUM. change (Z.of_nat 8) with 8. Z.div_mod_to_equations. lia. Qed.

Section Intr.
Context {L : Layout}.

(** The driver has seen that [r] is done. *)
Definition see (r : vreq) (d : pdata) : pdata :=
  set_vd_used_idx ((vd_used_idx d + 1) mod 65536) (set_vd_done (<[v_head r := 1]> (vd_done d)) d).

Lemma see_queue f r c q m d mm :
  vqueue f (r :: c) q m d mm -> vqueue (f ++ [r]) c q m (see r d) mm.
Proof.
  intros [T1 T2 T3 T4 A1 A2 A3 Hf (Hl1 & Hl2 & Hl3) Hc Hdup Ht Hg Hu Hi Hst Hdn Ha Hq].
  assert (E : (f ++ [r]) ++ c ++ q = f ++ (r :: c) ++ q) by by rewrite <- !app_assoc.
  assert (Hr : chain m d r) by (rewrite Forall_forall in Hc; apply Hc; set_solver).
  assert (Hh : (v_head r < NUM)%nat) by (pose proof (ch_slots _ _ _ Hr) as Hs; by inversion Hs).
  split; rewrite ?E; try done.
  - cbn. by rewrite length_insert.
  - eapply Forall_impl; [exact Hc|]. intros x [H1 H2 H3 H4 H5 H6]. by split.
  - cbn. apply Z.mod_pos_bound. lia.
  - etrans; [exact Hu|]. change (vd_used_idx (see r d)) with ((vd_used_idx d + 1) mod 65536).
    rewrite idx_mod. cbn [length]. f_equal. lia.
  - intros k x Hx. etrans; [|exact (Hi (S k) x Hx)].
    change (vd_used_idx (see r d)) with ((vd_used_idx d + 1) mod 65536). rewrite slot_mod.
    change (vd_used (see r d)) with (vd_used d). do 2 f_equal. lia.
  - rewrite <- app_assoc. exact Hst.
  - apply Forall_app. split.
    + eapply Forall_impl; [exact Hdn|]. intros x Hx. by apply insert_same.
    + apply Forall_singleton. cbn. apply list_lookup_insert_eq. lia.
  - etrans; [exact Ha|]. change (vd_used_idx (see r d)) with ((vd_used_idx d + 1) mod 65536).
    rewrite <- !Z.add_assoc, idx_mod. cbn [length]. f_equal. lia.
  - intros k x Hx. etrans; [|exact (Hq k x Hx)].
    change (vd_used_idx (see r d)) with ((vd_used_idx d + 1) mod 65536).
    change (vd_avail (see r d)) with (vd_avail d). rewrite <- !Z.add_assoc, slot_mod. cbn [length].
    do 5 f_equal. lia.
Qed.

(** One turn of the handler's loop, and the loop. *)
Definition seen (s : kstate) (r : vreq) : kstate :=
  set_plat (see r (plat s)) (set_procs (woken s (CDiskInfo (v_head r))) s).

Lemma seen_calm s r : calm s -> calm (seen s r).
Proof. intros H. apply (calm_change s); try done. unfold seen, woken. ksimp. by rewrite length_imap. Qed.
Lemma seen_all_calm c : forall s, calm s -> calm (foldl seen s c).
Proof. induction c as [|r c IH]; intros s H; [done|]. cbn. by apply IH, seen_calm. Qed.
Lemma seen_all_vq c : forall f q s, vq f c q s -> vq (f ++ c) [] q (foldl seen s c).
Proof.
  induction c as [|r c IH]; intros f q s H; [by rewrite app_nil_r|].
  cbn. rewrite cons_middle, app_assoc. apply IH. unfold vq, seen. ksimp. by apply see_queue.
Qed.

(** The handler touches its own data and the process table. *)
Lemma seen_all_frame c : forall s, exists d ps, foldl seen s c = set_plat d (set_procs ps s) /\
  vd_free d = vd_free (plat s) /\ vd_status d = vd_status (plat s) /\ vd_ops d = vd_ops (plat s).
Proof.
  induction c as [|r c IH]; intros s.
  - exists (plat s), (procs s). by destruct s.
  - destruct (IH (seen s r)) as (d & ps & E & H1 & H2 & H3). exists d, ps. split; [exact E|done].
Qed.

Lemma seen_all_awake c : forall s i p, procs s !! i = Some p -> p_state p <> SLEEPING ->
  procs (foldl seen s c) !! i = Some p.
Proof.
  induction c as [|r c IH]; intros s i p Hp Hs; [done|]. cbn. apply IH; [|done].
  unfold seen, woken. ksimp. rewrite list_lookup_imap, Hp. cbn. f_equal. unfold wake.
  case_decide; [done|]. by rewrite decide_False.
Qed.
(** Who waits for a request that has been served is woken. *)
Lemma seen_all_woken c : forall s i p r, procs s !! i = Some p -> p_state p = SLEEPING ->
  p_chan p = Some (CDiskInfo (v_head r)) -> c_proc (kcpu s) = None -> r ∈ c ->
  procs (foldl seen s c) !! i = Some (set_p_state RUNNABLE p).
Proof.
  induction c as [|x c IH]; intros s i p r Hp Hs Hch Hc Hr; [by apply elem_of_nil in Hr|]. cbn.
  assert (E : procs (seen s x) !! i =
    Some (if decide (v_head r = v_head x) then set_p_state RUNNABLE p else p)).
  { unfold seen, woken. ksimp. rewrite list_lookup_imap, Hp. cbn. f_equal. unfold wake.
    rewrite Hc, decide_False by done. rewrite decide_True by done. rewrite Hch.
    destruct (decide (v_head r = v_head x)) as [->|Hne]; [by rewrite decide_True|].
    rewrite decide_False; [done|]. congruence. }
  destruct (decide (v_head r = v_head x)) as [Hx|Hx]; [by apply seen_all_awake|].
  apply (IH _ i p r); try done. apply elem_of_cons in Hr as [->|]; done.
Qed.

Lemma disk_intr_loop_ok c : forall fuel f q s, calm s -> vq f c q s -> (length c <= fuel)%nat ->
  disk_intr_loop fuel (acq LDisk s) = Ok tt (acq LDisk (foldl seen s c)).
Proof.
  induction c as [|r c IH]; intros fuel f q s Hs H Hn;
    destruct fuel as [|fuel]; try (cbn [length] in Hn; lia); cbn [disk_intr_loop foldl]; msimp;
    change (plat (acq LDisk s)) with (plat s); change (mem (acq LDisk s)) with (mem s);
    rewrite (vq_used_idx _ _ _ _ _ _ H).
  1, 2: by rewrite Z.add_0_r, Z.mod_small, Z.eqb_refl by apply (vq_range _ _ _ _ _ _ H).
  pose proof (vqueue_few _ _ _ _ _ _ H) as Hf. rewrite !length_app in Hf. cbn [length] in Hf |- *.
  rewrite (proj2 (Z.eqb_neq _ _)).
  2: { rewrite <- (Z.mod_small (vd_used_idx (plat s)) 65536) at 1 by apply (vq_range _ _ _ _ _ _ H).
    apply idx_ne. lia. }
  pose proof (vq_used_ids _ _ _ _ _ _ H 0 r eq_refl) as Ei. change (Z.of_nat 0) with 0 in Ei.
  rewrite Z.add_0_r in Ei. msimp.
  change (plat (acq LDisk s)) with (plat s). change (mem (acq LDisk s)) with (mem s). rewrite Ei, Nat2Z.id.
  pose proof (vq_status _ _ _ _ _ _ H) as Hst. rewrite Forall_forall in Hst.
  rewrite (at_lookup _ _ _ (Hst r ltac:(set_solver))). cbn [Z.eqb negb]. msimp.
  change (upd_plat ?f (acq LDisk s)) with (acq LDisk (upd_plat f s)).
  erewrite bind_ok by (apply wakeup_calm; [done|]; apply (calm_change s); done). msimp.
  rewrite <- (IH fuel (f ++ [r]) q (seen s r)); [done|by apply seen_calm|by apply see_queue|].
  cbn [length] in Hn. lia.
Qed.
End Intr.

(** The two registers that tell the device to look at the rings have no effect
    on the state of the kernel: the device works on its own. *)
Class QemuVirtio (W : World) : Prop :=
  virtio_doorbell : forall r v s, r = VIRTIO_MMIO_QUEUE_NOTIFY \/ r = VIRTIO_MMIO_INTERRUPT_ACK ->
    hw_write (QEMU_VIRTIO0 + r) v s = s.

Section Driver.
Context {L : Layout} {DD : DriverData L} {W : World} {QV : QemuVirtio W}.

(** Ringing one of them. *)
Definition rung (r v : Z) (s : kstate) : kstate := set_mmio (<[QEMU_VIRTIO0 + r := u32 v]> (mmio s)) s.
Definition bell (r : Z) : Prop := r = VIRTIO_MMIO_QUEUE_NOTIFY \/ r = VIRTIO_MMIO_INTERRUPT_ACK.

Lemma virtio_write_bell r v s : bell r -> VIRTIO_WRITE r v s = Ok tt (rung r v s).
Proof. intros H. unfold VIRTIO_WRITE, mmio_store, modify. by rewrite virtio_doorbell. Qed.
Lemma rung_vq r v f c q s : bell r -> vq f c q s -> vq f c q (rung r v s).
Proof.
  intros Hb [T1 T2 T3 T4 A1 A2 A3 Hf Hl Hc Hdup Ht Hg Hu Hi Hst Hdn Ha Hq].
  split; try done; unfold rung; ksimp; rewrite lookup_insert_ne; try done;
    by destruct Hb as [->| ->].
Qed.

Lemma disk_intr_ok f c q s : calm s -> vq f c q s -> exists v,
  platform_qemu_disk_intr s =
  Ok tt (foldl seen (rung VIRTIO_MMIO_INTERRUPT_ACK v (set_nmmio (S (nmmio s)) s)) c).
Proof.
  intros Hs H. unfold platform_qemu_disk_intr.
  erewrite bind_ok by (apply acquire_ok; [apply Hs|by apply (calm_locks _ Hs)]).
  unfold VIRTIO_READ, mmio_load. erewrite bind_ok by reflexivity.
  erewrite bind_ok by (apply virtio_write_bell; by right).
  set (v := Z.land _ 3). exists v.
  change (rung _ _ (set_nmmio ?n (acq LDisk s))) with
    (acq LDisk (rung VIRTIO_MMIO_INTERRUPT_ACK v (set_nmmio n s))).
  set (s1 := rung VIRTIO_MMIO_INTERRUPT_ACK v (set_nmmio (S (nmmio s)) s)).
  assert (H1 : calm s1) by by apply (calm_change s).
  assert (Hq : vq f c q s1) by (apply rung_vq; [by right|done]).
  pose proof (vqueue_few _ _ _ _ _ _ H) as Hn. rewrite !length_app in Hn.
  erewrite bind_ok by (apply (disk_intr_loop_ok c _ f q); [done|done|lia]).
  pose proof (seen_all_calm c s1 H1) as H2.
  apply release_acq; [apply H2|by apply (calm_locks _ H2)].
Qed.

(** ** Giving back a chain *)

Definition clear_table (r : vreq) (d : Z) (m : gmap Z Z) : gmap Z Z :=
  desc_set d (v_tail r) 0 0 0 0 (desc_set d (v_mid r) 0 0 0 0 (desc_set d (v_head r) 0 0 0 0 m)).
Definition clear_free (r : vreq) (l : list Z) : list Z :=
  <[v_tail r := 1]> (<[v_mid r := 1]> (<[v_head r := 1]> l)).

Lemma slots_distinct r : NoDup (slots r) ->
  v_head r <> v_mid r /\ v_head r <> v_tail r /\ v_mid r <> v_tail r.
Proof. unfold slots. rewrite !NoDup_cons. intros (? & ? & _). set_solver. Qed.

(** One descriptor given back, by process [me]. *)
Definition freed (i : nat) (s : kstate) : kstate :=
  let s' := upd_plat (fun d => set_vd_free (<[i := 1]> (vd_free d)) d)
    (set_mem (desc_set (vd_desc (plat s)) i 0 0 0 0 (mem s)) s) in
  set_procs (woken s' CDiskFree) s'.

Lemma freed_calm i s : calm s -> calm (freed i s).
Proof. intros H. apply (calm_change s); try done. unfold freed, woken. ksimp. by rewrite length_imap. Qed.

Lemma free_desc_ok i s : calm s -> (i < NUM)%nat -> vd_free (plat s) !! i = Some 0 ->
  platform_qemu_free_desc i (acq LDisk s) = Ok tt (acq LDisk (freed i s)).
Proof.
  intros Hs Hi Hf. unfold platform_qemu_free_desc. rewrite (proj2 (Nat.leb_gt _ _)) by done. msimp.
  change (plat (acq LDisk s)) with (plat s). rewrite (at_lookup _ _ _ Hf). cbn [Z.eqb negb]. msimp.
  change (set_mem ?m (acq LDisk s)) with (acq LDisk (set_mem m s)).
  change (upd_plat ?f (acq LDisk ?t)) with (acq LDisk (upd_plat f t)).
  apply wakeup_calm; [done|]. by apply (calm_change s).
Qed.

Lemma free_chain_turn fuel i s v : calm s -> (i < NUM)%nat -> vd_free (plat s) !! i = Some 0 ->
  vdesc_at (mem s) (vd_desc (plat s)) i = v ->
  free_chain_loop fuel i (acq LDisk s) =
  (if negb (Z.land (d_flags v) VRING_DESC_F_NEXT =? 0) then
     match fuel with O => hang | S fuel' => free_chain_loop fuel' (Z.to_nat (d_next v)) end
   else mret tt) (acq LDisk (freed i s)).
Proof.
  intros Hs Hi Hf <-. destruct fuel; cbn [free_chain_loop]; do 2 (erewrite bind_ok by reflexivity);
    erewrite bind_ok by (by apply free_desc_ok); reflexivity.
Qed.

Lemma free_chain_ok r s : calm s -> chain (mem s) (plat s) r -> NoDup (slots r) ->
  Forall (fun i => vd_free (plat s) !! i = Some 0) (slots r) ->
  platform_qemu_free_chain (v_head r) (acq LDisk s) =
  Ok tt (acq LDisk (freed (v_tail r) (freed (v_mid r) (freed (v_head r) s)))).
Proof.
  intros Hs Hc Hd Hf. pose proof (slots_distinct r Hd) as (N1 & N2 & N3).
  destruct Hc as [H1 H2 H3 _ _ Hl]. unfold slots in Hl, Hf. rewrite !Forall_cons in Hl, Hf.
  destruct Hl as (L1 & L2 & L3 & _), Hf as (F1 & F2 & F3 & _).
  pose proof (freed_calm (v_head r) s Hs) as C1. pose proof (freed_calm (v_mid r) _ C1) as C2.
  assert (G2 : vdesc_at (mem (freed (v_head r) s)) (vd_desc (plat s)) (v_mid r) =
    vdesc_at (mem s) (vd_desc (plat s)) (v_mid r)) by by apply desc_set_ne.
  assert (G3 : vdesc_at (mem (freed (v_mid r) (freed (v_head r) s))) (vd_desc (plat s)) (v_tail r) =
    vdesc_at (mem s) (vd_desc (plat s)) (v_tail r)) by (etrans; by apply desc_set_ne).
  rewrite H2 in G2. rewrite H3 in G3.
  assert (E2 : vd_free (plat (freed (v_head r) s)) !! v_mid r = Some 0)
    by (etrans; [by apply list_lookup_insert_ne|exact F2]).
  assert (E3 : vd_free (plat (freed (v_mid r) (freed (v_head r) s))) !! v_tail r = Some 0)
    by (etrans; [by apply list_lookup_insert_ne|]; etrans; [by apply list_lookup_insert_ne|exact F3]).
  unfold platform_qemu_free_chain. change NUM with (S (S 6)).
  etrans; [exact (free_chain_turn _ _ s _ Hs L1 F1 H1)|]. cbn [d_flags d_next]. rewrite Nat2Z.id.
  etrans; [exact (free_chain_turn _ _ _ _ C1 L2 E2 G2)|]. cbn [d_flags d_next]. rewrite Nat2Z.id.
  replace (negb _) with true by by destruct (v_write r).
  exact (free_chain_turn _ _ _ _ C2 L3 E3 G3).
Qed.

Lemma clear_table_ne r d j m : j ∉ slots r -> vdesc_at (clear_table r d m) d j = vdesc_at m d j.
Proof. intros H. unfold clear_table. unfold slots in H. by rewrite !desc_set_ne by set_solver. Qed.
Lemma clear_free_ne r l j : j ∉ slots r -> clear_free r l !! j = l !! j.
Proof. intros H. unfold clear_free. unfold slots in H. by rewrite !list_lookup_insert_ne by set_solver. Qed.

(** The queue without a request whose descriptors are given back. *)
Lemma free_queue f r m d mm : vqueue (f ++ [r]) [] [] m d mm ->
  vqueue f [] [] (clear_table r (vd_desc d) m) (set_vd_free (clear_free r (vd_free d)) d) mm.
Proof.
  intros [T1 T2 T3 T4 A1 A2 A3 Hf Hl Hc Hdup Ht Hg Hu Hi Hst Hdn Ha Hq].
  rewrite !app_nil_r in *. rewrite bind_app in Hdup, Ht. cbn [mbind list_bind app] in Hdup, Ht.
  rewrite app_nil_r in Hdup, Ht. apply NoDup_app in Hdup as (Hdup & Hnew & _).
  apply Forall_app in Hc as [Hc [Hr _]%Forall_cons], Ht as [Ht _], Hst as [Hst _], Hdn as [Hdn _].
  pose proof (slots_lt _ _ (ch_slots _ _ _ Hr)) as (L1 & L2 & L3).
  assert (Ho : outside (vd_desc d) (16 * Z.of_nat NUM) m (clear_table r (vd_desc d) m)).
  { unfold clear_table. eapply outside_trans; [eapply outside_trans|]; by apply desc_set_in_table. }
  unfold NUM in Ho. unfold apart, PGSIZE in A1, A2, A3.
  split; rewrite ?app_nil_r; try done.
  - cbn. by do 3 (apply free_list_insert; [auto|]).
  - rewrite Forall_forall in Hc |- *. intros x Hx. apply (vchain_ext m _ d); [done|done| |by apply Hc].
    intros i Hi'. apply clear_table_ne, Hnew, slots_elem. eauto.
  - rewrite Forall_forall in Ht |- *. intros i Hi'. cbn. rewrite clear_free_ne by by apply Hnew. by apply Ht.
  - etrans; [apply (load16_outside _ _ _ _ _ Ho); cbn; lia|exact Hu].
  - etrans; [apply (load16_outside _ _ _ _ _ Ho); cbn; lia|exact Ha].
Qed.

Lemma clear_free_restores r l : NoDup (slots r) -> Forall (fun i => l !! i = Some 1) (slots r) ->
  clear_free r (<[v_tail r := 0]> (<[v_mid r := 0]> (<[v_head r := 0]> l))) = l.
Proof.
  intros Hd Hl. destruct (slots_distinct r Hd) as (N1 & N2 & N3). unfold slots in Hl.
  rewrite !Forall_cons in Hl. destruct Hl as (H1 & H2 & H3 & _). unfold clear_free.
  rewrite (list_insert_insert_ne _ (v_head r) (v_tail r)), (list_insert_insert_ne _ (v_head r) (v_mid r)) by done.
  rewrite list_insert_insert_eq, (list_insert_id l (v_head r)) by done.
  rewrite (list_insert_insert_ne _ (v_mid r) (v_tail r)) by done.
  by rewrite !list_insert_insert_eq, (list_insert_id l (v_mid r)), list_insert_id by done.
Qed.

(** ** A request from beginning to end *)

Lemma vframe_same s s' : vframe s s' ->
  locks s' = locks s /\ kcpu s' = kcpu s /\ csr s' = csr s /\ vd_desc (plat s') = vd_desc (plat s).
Proof. by intros [(? & ? & ? & ? & ? & ? & ? & ? & ? & ? & ? & ? & ? & ->) _]. Qed.

(** The CPU may be given to somebody else meanwhile. *)
Lemma vframe_kcpu s k t : vframe (set_kcpu k s) t -> vframe s (set_kcpu (kcpu s) t).
Proof.
  intros [(fr & u & st & dn & op & m & ps & mm & k' & n & bs & dk & tr & ->) H].
  split; [by exists fr, u, st, dn, op, m, ps, mm, k', n, bs, dk, tr|exact H].
Qed.

Lemma seen_frame s r : vframe s (seen s r).
Proof.
  split; [|done]. by exists (vd_free (plat s)), ((vd_used_idx (plat s) + 1) mod 65536), (vd_status (plat s)),
    (<[v_head r := 1]> (vd_done (plat s))), (vd_ops (plat s)), (mem s),
    (woken s (CDiskInfo (v_head r))), (mmio s), (nmmio s), (nsched s), (bufs s), (disk s), (dtrace s).
Qed.
Lemma seen_all_vframe c : forall s, vframe s (foldl seen s c).
Proof. induction c as [|r c IH]; intros s; [reflexivity|]. cbn. etrans; [apply seen_frame|apply IH]. Qed.
Lemma rung_vframe r v k s : vframe s (rung r v (set_nmmio k s)).
Proof.
  split; [|done]. by exists (vd_free (plat s)), (vd_used_idx (plat s)), (vd_status (plat s)),
    (vd_done (plat s)), (vd_ops (plat s)), (mem s), (procs s), (<[QEMU_VIRTIO0 + r := u32 v]> (mmio s)), k,
    (nsched s), (bufs s), (disk s), (dtrace s).
Qed.
Lemma procs_vframe ps n s : vframe s (set_procs ps (set_nsched n s)).
Proof.
  split; [|done]. by exists (vd_free (plat s)), (vd_used_idx (plat s)), (vd_status (plat s)),
    (vd_done (plat s)), (vd_ops (plat s)), (mem s), ps, (mmio s), (nmmio s), n, (bufs s), (disk s), (dtrace s).
Qed.
Lemma freed_vframe i s : (i < NUM)%nat -> vframe s (freed i s).
Proof.
  intros Hi. split.
  { by exists (<[i := 1]> (vd_free (plat s))), (vd_used_idx (plat s)), (vd_status (plat s)),
      (vd_done (plat s)), (vd_ops (plat s)), (desc_set (vd_desc (plat s)) i 0 0 0 0 (mem s)),
      (procs (freed i s)), (mmio s), (nmmio s), (nsched s), (bufs s), (disk s), (dtrace s). }
  intros a Ha. apply desc_set_outside. unfold ring_byte, NUM in *. lia.
Qed.
Lemma sub_vframe r s : Forall (fun i => i < NUM)%nat (slots r) ->
  vframe s (set_mem (sub_mem r (plat s) (mem s)) (set_plat (sub_plat r (plat s)) s)).
Proof.
  intros Hs. pose proof (sub_table_outside r (vd_desc (plat s)) (mem s) Hs) as H1. unfold NUM in H1.
  pose proof (sub_ring_outside r (vd_avail (plat s)) (sub_table r (vd_desc (plat s)) (mem s))) as H2.
  split.
  { by exists (vd_free (sub_plat r (plat s))), (vd_used_idx (plat s)), (vd_status (sub_plat r (plat s))),
      (vd_done (sub_plat r (plat s))), (vd_ops (sub_plat r (plat s))), (sub_mem r (plat s) (mem s)),
      (procs s), (mmio s), (nmmio s), (nsched s), (bufs s), (disk s), (dtrace s). }
  intros a Ha. unfold ring_byte in Ha. unfold sub_mem. rewrite H2, H1 by lia. done.
Qed.

(** What happens on the CPU while the process [me] waits: the device serves the
    queue and interrupts, and the scheduler picks [me] again. *)
Definition disk_meanwhile (me : nat) : K bool :=
  scheduler_back me ;;
  modify (virtio_run NUM) ;;
  platform_qemu_disk_intr ;;
  scheduler_pick me.

Lemma disk_meanwhile_ok me f c q s p r :
  calm s -> (me < NPROC)%nat -> c_proc (kcpu s) = Some me -> procs s !! me = Some (asleep (CDiskInfo (v_head r)) p) ->
  vq f c q s -> r ∈ c ++ q -> exists s',
  disk_meanwhile me (acq (LProc me) s) = Ok true (acq (LProc me) s') /\
  vq (f ++ c ++ q) [] [] s' /\ dview s' = dview (foldl carry s q) /\ vframe s s' /\
  procs s' !! me = Some (set_p_state RUNNING (set_p_chan (Some (CDiskInfo (v_head r))) p)) /\
  vd_free (plat s') = vd_free (plat s) /\ calm s'.
Proof.
  intros Hs Hme Hc Hp Hq Hr. unfold disk_meanwhile.
  erewrite bind_ok by (apply scheduler_back_ok; [apply Hs|by apply (calm_locks _ Hs)]). msimp.
  set (s1 := set_kcpu (set_c_proc None (kcpu s)) s).
  assert (Hn : (length q <= NUM)%nat).
  { pose proof (vqueue_few _ _ _ _ _ _ Hq) as Hf. rewrite !length_app in Hf. unfold NUM. lia. }
  destruct (virtio_run_ok q NUM f c s1 Hq Hn) as (Q2 & V2 & F2 & D2). set (s2 := virtio_run NUM s1) in *.
  assert (P2 : procs s2 = procs s1) by by destruct D2 as (? & ? & ? & ? & ? & ->).
  assert (R2 : vd_free (plat s2) = vd_free (plat s1)) by by destruct D2 as (? & ? & ? & ? & ? & ->).
  destruct (vframe_same _ _ F2) as (El & Ek & Ec & _).
  assert (C2 : calm s2).
  { apply (calm_change s1); [|done|done|done|by rewrite P2]. destruct Hs as [[] ? ?]. by split; [split|..]. }
  destruct (disk_intr_ok f (c ++ q) [] s2 C2 Q2) as (v & E3). erewrite bind_ok by exact E3.
  set (s3 := rung VIRTIO_MMIO_INTERRUPT_ACK v (set_nmmio (S (nmmio s2)) s2)) in *.
  assert (F3 : vframe s1 (foldl seen s3 (c ++ q))).
  { etrans; [exact F2|]. etrans; [apply rung_vframe|apply seen_all_vframe]. }
  destruct (vframe_same _ _ F3) as (El' & Ek' & Ec' & _).
  destruct (seen_all_frame (c ++ q) s3) as (d & ps & E4 & R4 & _).
  assert (Q4 : vq (f ++ c ++ q) [] [] (foldl seen s3 (c ++ q))).
  { apply seen_all_vq, rung_vq; [by right|exact Q2]. }
  assert (P4 := seen_all_woken (c ++ q) s3 me _ r (eq_trans (f_equal (.!! me) P2) Hp) eq_refl eq_refl
    (f_equal c_proc Ek) Hr).
  assert (C4 : calm (foldl seen s3 (c ++ q))).
  { apply seen_all_calm. by apply (calm_change s2). }
  set (s4 := foldl seen s3 (c ++ q)) in *. eexists. split_and!.
  - apply (scheduler_pick_run me s4 _ (calm_settled _ C4) (calm_locks _ C4 (LProc me) Hme) P4). done.
  - exact Q4.
  - rewrite <- (carries_dview q s1 s) by done. rewrite <- V2.
    change (dview s4 = dview s2). by rewrite E4.
  - rewrite Ek'. change (kcpu s1) with (set_c_proc None (kcpu s)).
    replace (set_c_proc (Some me) (set_c_proc None (kcpu s))) with (kcpu s)
      by (destruct (kcpu s); cbn in Hc; by subst).
    apply (vframe_kcpu s (set_c_proc None (kcpu s))). etrans; [exact F3|].
    exact (procs_vframe (alter (set_p_state RUNNING) me (procs s4)) (nsched s4) s4).
  - ksimp. rewrite list_lookup_alter_eq, P4. done.
  - change (vd_free (plat s4) = vd_free (plat s)). rewrite E4. cbn. rewrite R4. exact R2.
  - destruct C4 as [[S1 S2 S3] L4 N4]. split; [by split|exact L4|]. ksimp. by rewrite length_alter.
Qed.

Lemma ctx_calm me s : ctx me s -> calm s.
Proof. intros [H1 H2 H3 H4 H5]. by split. Qed.
Lemma calm_ctx me s : calm s -> c_proc (kcpu s) = Some me -> (me < NPROC)%nat -> ctx me s.
Proof. intros [H1 H2 H3] Hc Hm. by split. Qed.
Lemma ctx_vframe me s s' : ctx me s -> vframe s s' -> length (procs s') = NPROC -> ctx me s'.
Proof.
  intros Hc Hf Hn. destruct (vframe_same _ _ Hf) as (E1 & E2 & E3 & _). apply calm_ctx.
  - apply (calm_change s); try done; [by apply (ctx_calm me)|]. by rewrite Hn, (ctx_procs _ _ Hc).
  - rewrite E2. apply Hc.
  - apply Hc.
Qed.

Definition give_back (r : vreq) (s : kstate) : kstate :=
  freed (v_tail r) (freed (v_mid r) (freed (v_head r) s)).
Lemma freed_me me i s : c_proc (kcpu s) = Some me -> procs (freed i s) !! me = procs s !! me.
Proof.
  intros Hc. unfold freed, woken. ksimp. rewrite list_lookup_imap, Hc.
  destruct (procs s !! me); cbn; [|done]. unfold wake. by rewrite decide_True.
Qed.
Lemma give_back_ok me f r s : ctx me s -> vq (f ++ [r]) [] [] s ->
  platform_qemu_free_chain (v_head r) (acq LDisk s) = Ok tt (acq LDisk (give_back r s)) /\
  vq f [] [] (give_back r s) /\ vframe s (give_back r s) /\ ctx me (give_back r s) /\
  procs (give_back r s) !! me = procs s !! me.
Proof.
  intros Hc Hq. pose proof (vq_chains _ _ _ _ _ _ Hq) as Hch. pose proof (vq_nodup _ _ _ _ _ _ Hq) as Hd.
  pose proof (vq_taken _ _ _ _ _ _ Hq) as Ht. rewrite !app_nil_r in Hch, Hd, Ht.
  rewrite bind_app in Hd, Ht. cbn [mbind list_bind app] in Hd, Ht. rewrite app_nil_r in Hd, Ht.
  apply NoDup_app in Hd as (_ & _ & Hd). apply Forall_app in Ht as [_ Ht].
  apply Forall_app in Hch as [_ [Hr _]%Forall_cons].
  destruct (slots_lt _ _ (ch_slots _ _ _ Hr)) as (L1 & L2 & L3).
  pose proof (ctx_calm _ _ Hc) as C0. split; [by apply free_chain_ok|]. split; [exact (free_queue f r _ _ _ Hq)|].
  assert (Hf : vframe s (give_back r s)).
  { unfold give_back. etrans; [by apply (freed_vframe (v_head r))|].
    etrans; [by apply (freed_vframe (v_mid r))|by apply freed_vframe]. }
  split; [exact Hf|]. split; [apply (ctx_vframe me s); [done|done|]|].
  - pose proof (freed_calm (v_tail r) _ (freed_calm (v_mid r) _ (freed_calm (v_head r) s C0))) as C3. apply C3.
  - unfold give_back. etrans; [apply (freed_me me); apply Hc|]. etrans; [apply (freed_me me); apply Hc|].
    apply freed_me, Hc.
Qed.

(** Waiting for the request. *)
Lemma done_wait_ok n me f c q r s p :
  (forall n a, others n a = match disk_meanwhile me a with Ok true a' => Some a' | _ => None end) ->
  ctx me s -> noff (kcpu s) = 0 -> procs s !! me = Some p -> vq f c (q ++ [r]) s ->
  vd_done (plat s) !! v_head r = Some 0 ->
  exists s', done_wait (S n) (v_head r) (acq LDisk s) = Ok tt (acq LDisk s') /\
    vq (f ++ c ++ q ++ [r]) [] [] s' /\ dview s' = dview (foldl carry s (q ++ [r])) /\ vframe s s' /\
    ctx me s' /\ procs s' !! me = Some (set_p_state RUNNING (set_p_chan None p)) /\
    vd_free (plat s') = vd_free (plat s).
Proof.
  intros Ho Hc Hn Hp Hq Hd. set (s1 := upd_proc me (asleep (CDiskInfo (v_head r))) s).
  assert (C1 : calm s1).
  { apply (calm_change s); [by apply (ctx_calm me)|done..|]. unfold s1. ksimp. by rewrite length_alter. }
  destruct (disk_meanwhile_ok me f c (q ++ [r]) s1 p r) as (s2 & E & Q & V & F & P & R & C2);
    try apply Hc; try done.
  { unfold s1. ksimp. by rewrite list_lookup_alter_eq, Hp. }
  { rewrite !elem_of_app. right. right. by apply list_elem_of_singleton. }
  assert (F1 : vframe s s2).
  { etrans; [|exact F]. exact (procs_vframe (procs s1) (nsched s) s). }
  destruct (vframe_same _ _ F1) as (El & Ek & Ec & _).
  set (s3 := set_nsched (S (nsched s)) (upd_proc me (set_p_chan None) s2)).
  assert (E3 : sleep (CDiskInfo (v_head r)) LDisk (acq LDisk s) = Ok tt (acq LDisk s3)).
  { apply (sleep_ok _ _ me s p s2); try done; try apply Hc; try done; try apply C2; try done; try apply Hc.
    - rewrite Ho. fold s1. by rewrite E.
    - by rewrite Ek. }
  assert (F3 : vframe s s3) by (etrans; [exact F1|exact (procs_vframe (procs s3) (nsched s3) s2)]).
  exists s3. split_and!; try done.
  - cbn [done_wait]. msimp. change (plat (acq LDisk s)) with (plat s). rewrite (at_lookup _ _ _ Hd).
    cbn [Z.eqb]. erewrite bind_ok by exact E3.
    pose proof (vq_seen _ _ _ _ _ _ Q) as Hseen. rewrite Forall_forall in Hseen.
    assert (Hr : vd_done (plat s3) !! v_head r = Some 1) by (apply Hseen; rewrite !elem_of_app; right; right; right;
      by apply list_elem_of_singleton).
    destruct n; cbn [done_wait]; msimp; change (plat (acq LDisk s3)) with (plat s3);
      by rewrite (at_lookup _ _ _ Hr).
  - etrans; [exact V|]. by apply carries_dview.
  - apply (ctx_vframe me s); [done|done|]. unfold s3. ksimp. rewrite length_alter. apply C2.
  - unfold s3. ksimp. by rewrite list_lookup_alter_eq, P.
Qed.

Lemma alloc3_wait_ok n s : free_list (vd_free (plat s)) -> (3 <= spare (vd_free (plat s)))%nat ->
  exists i0 i1 i2, alloc3_wait n (acq LDisk s) =
      Ok (i0, i1, i2) (take_desc i2 (take_desc i1 (take_desc i0 (acq LDisk s)))) /\
    NoDup [i0; i1; i2] /\ Forall (fun i => vd_free (plat s) !! i = Some 1) [i0; i1; i2].
Proof.
  intros Hf Hn. destruct (alloc3_ok (acq LDisk s) Hf Hn) as (i0 & i1 & i2 & E & H).
  exists i0, i1, i2. split; [|exact H]. destruct n; cbn [alloc3_wait]; by erewrite bind_ok by exact E.
Qed.
End Driver.

(** C17: the QEMU disk driver, its device, the interrupt and the scheduler
    together carry out a request.  The driver's rings hold requests of other
    processes, some served already and not yet seen ([c]), some waiting ([q]);
    three of the eight descriptors are free, so that at most one other request
    is under way.  While the caller sleeps, the device serves what is on the
    available ring, as the virtio specification describes it and in the order of
    the ring, which is assumed of the device, and interrupts.  Then [platform_disk_read] or [platform_disk_write] returns in
    process [me] with its block moved between disk and buffer, after the
    requests that were queued before it and in their order; no request is on
    the rings any more, the others are marked done, the three descriptors are
    free again, and no other part of the kernel's state has changed. *)
Theorem virtio_rw_correct (L : Layout) (DD : DriverData L) (W : World) (QV : QemuVirtio W)
    me s p f c q b i w :
  (forall n a, others n a = match disk_meanwhile me a with Ok true a' => Some a' | _ => None end) ->
  (0 < patience)%nat ->
  ctx me s -> noff (kcpu s) = 0 -> procs s !! me = Some p ->
  vq f c q s -> (3 <= spare (vd_free (plat s)))%nat -> is_u32 b -> (i < NBUF)%nat ->
  exists s', (if w : bool then Qemu.platform_disk_write b i else Qemu.platform_disk_read b i) s = Ok tt s' /\
    dview s' = dview (transfer w b i (foldl carry s q)) /\
    vq (f ++ c ++ q) [] [] s' /\ vd_free (plat s') = vd_free (plat s) /\
    vframe s s' /\ ctx me s' /\ procs s' !! me = Some (set_p_state RUNNING (set_p_chan None p)).
Proof.
  intros Ho Hpat Hc Hn Hp Hq Hsp Hb Hi.
  assert (Hlk : lock_free LDisk s) by by apply Hc.
  destruct (alloc3_wait_ok patience s (vq_free _ _ _ _ _ _ Hq) Hsp) as (i0 & i1 & i2 & E1 & Hd & Hf).
  set (r := mk_vreq i0 i1 i2 w b i). change [i0; i1; i2] with (slots r) in Hd, Hf.
  assert (Hs : Forall (fun j => j < NUM)%nat (slots r)).
  { eapply Forall_impl; [exact Hf|]. intros j Hj%lookup_lt_Some. by rewrite (proj1 (vq_free _ _ _ _ _ _ Hq)) in Hj. }
  set (s1 := rung VIRTIO_MMIO_QUEUE_NOTIFY 0
    (set_mem (sub_mem r (plat s) (mem s)) (set_plat (sub_plat r (plat s)) s))).
  assert (F1 : vframe s s1).
  { etrans; [by apply (sub_vframe r)|].
    exact (rung_vframe _ _ (nmmio s) (set_mem (sub_mem r (plat s) (mem s)) (set_plat (sub_plat r (plat s)) s))). }
  assert (Q1 : vq f c (q ++ [r]) s1) by (apply rung_vq; [by left|by apply submit_queue]).
  destruct (Nat.lt_exists_pred _ _ Hpat) as (k & Ek & _).
  destruct (done_wait_ok k me f c q r s1 p Ho) as (s2 & E2 & Q2 & V2 & F2 & C2 & P2 & R2); try done.
  { apply (ctx_vframe me s); [done|done|apply Hc]. }
  { apply list_lookup_insert_eq. rewrite (proj1 (proj2 (vq_lens _ _ _ _ _ _ Hq))). by inversion Hs. }
  rewrite !app_assoc in Q2. rewrite <- (app_assoc f c q) in Q2.
  destruct (give_back_ok me _ r s2 C2 Q2) as (E3 & Q3 & F3 & C3 & P3).
  assert (St : vd_status (plat s2) !! v_head r = Some 0).
  { pose proof (vq_status _ _ _ _ _ _ Q2) as H. rewrite Forall_forall in H. apply H.
    rewrite !elem_of_app. left. right. by apply list_elem_of_singleton. }
  exists (give_back r s2). split_and!; try done.
  - assert (E : platform_qemu_disk_rw b i w s = Ok tt (give_back r s2)); [|by destruct w].
    unfold platform_qemu_disk_rw. erewrite bind_ok by (by apply acquire_ok; [apply Hc|]).
    erewrite bind_ok by exact E1. cbn beta iota.
    erewrite bind_ok by exact (queue_request_eq r (acq LDisk s) Hb).
    erewrite bind_ok by (apply virtio_write_bell; by left). rewrite Ek.
    erewrite bind_ok by exact E2. erewrite bind_ok by exact E3.
    erewrite bind_ok by (apply release_acq; [apply C3|by apply (ctx_locks _ _ C3)]).
    msimp. rewrite (at_lookup _ _ _ (St : vd_status (plat (give_back r s2)) !! i0 = Some 0)). done.
  - etrans; [exact V2|]. rewrite foldl_app. cbn [foldl]. apply transfer_dview. by apply carries_dview.
  - etrans; [|apply (clear_free_restores r _ Hd Hf)]. change (vd_free (plat (give_back r s2))) with
      (clear_free r (vd_free (plat s2))). by rewrite R2.
  - etrans; [exact F1|]. etrans; [exact F2|exact F3].
  - by rewrite P3.
Qed.

(** A board with such a disk, and the driver as its initialisation leaves it. *)
Lemma test_driver_data : DriverData test_layout.
Proof.
  split; cbn; unfold KERNBASE, NUM, NBUF, is_u32; intros; lia.
Qed.
Definition bare_world : World :=
  {| others _ _ := None; hw_read _ _ _ := 0; hw_write _ _ s := s; patience := 1 |}.
Definition qemu_disk_world : World :=
  {| others _ a := match @disk_meanwhile test_layout bare_world 0 a with Ok true a' => Some a' | _ => None end;
     hw_read _ _ _ := 0; hw_write _ _ s := s; patience := 1 |}.
Definition disk_machine : kstate :=
  set_disk {[3 := replicate 512 7]}
  (set_mmio (<[QEMU_VIRTIO0 + VIRTIO_MMIO_QUEUE_DESC_LOW := PHYSTOP - 4096]>
    (<[QEMU_VIRTIO0 + VIRTIO_MMIO_DRIVER_DESC_LOW := PHYSTOP - 8192]>
    (<[QEMU_VIRTIO0 + VIRTIO_MMIO_DEVICE_DESC_LOW := PHYSTOP - 12288]>
    {[QEMU_VIRTIO0 + VIRTIO_MMIO_QUEUE_NUM := Z.of_nat NUM]})))
  (upd_plat (fun d => set_vd_desc (PHYSTOP - 4096) (set_vd_avail (PHYSTOP - 8192)
    (set_vd_used (PHYSTOP - 12288) (set_vd_free (replicate NUM 1) d)))) two_procs)).

Lemma disk_machine_vq : @vq test_layout [] [] [] disk_machine.
Proof.
  split; try done; [by right..| |apply NoDup_nil_2].
  split; [done|]. apply Forall_replicate. by right.
Qed.

Lemma virtio_rw_correct_witness : exists s',
  @Qemu.platform_disk_read test_layout qemu_disk_world 3 2 disk_machine = Ok tt s' /\
  bufs s' = alter (set_b_data (replicate 512 7)) 2%nat (bufs disk_machine).
Proof.
  destruct (virtio_rw_correct test_layout test_driver_data qemu_disk_world (fun _ _ _ _ => eq_refl)
    0 disk_machine (set_p_state RUNNING blank_proc) [] [] [] 3 2 false) as (s' & E & V & _).
  - intros n a. reflexivity.
  - cbn. lia.
  - destruct two_procs_ctx as [H1 H2 H3 H4 H5]. split; [by destruct H1; split|exact H2|exact H3|exact H4|exact H5].
  - reflexivity.
  - reflexivity.
  - exact disk_machine_vq.
  - apply Nat.leb_le. reflexivity.
  - unfold is_u32. lia.
  - unfold NBUF. lia.
  - exists s'. split; [exact E|]. injection V as V _ _. etrans; [exact V|]. reflexivity.
Defined.
