(* ===== verification/UartSpec.v ===== *)
(** * The QEMU serial line is a queue

    The bytes of the ring of platform/qemu/platform.c between [tx_r] and [tx_w]
    are those that have been written and not yet sent ([txq]).  Writing appends
    a byte, waiting for room if there is none; the transmitter takes them from
    the other end, at once or in its interrupt. *)
From S2P Require Import Prelude Memory Machine Platform Sv32 Spinlock Printf Kalloc Vm Proc Console Trap Qemu ProcSpec VirtioSpec.
From stdpp Require Import gmap strings countable prelude.

Open Scope Z_scope.

(** A byte stored in the holding register is sent. *)
Class QemuUart (W : World) : Prop :=
  qemu_thr : forall c s, hw_write (QEMU_UART0 + UART_THR) c s = set_uart (uart s ++ [c]) s.

(** The ring holds the bytes [l], the oldest first. *)
Record txq (l : list Z) (d : pdata) : Prop := {
  tq_len : length (tx_buf d) = Z.to_nat TX_SIZE;
  tq_r : is_u32 (tx_r d);
  tq_w : tx_w d = u32 (tx_r d + Z.of_nat (length l));
  tq_room : Z.of_nat (length l) <= TX_SIZE;
  tq_byte : Forall (fun x => 0 <= x < 256) l;
  tq_bytes : forall k x, l !! k = Some x ->
    tx_buf d !! Z.to_nat ((tx_r d + Z.of_nat k) mod TX_SIZE) = Some x;
}.

(** What the driver of the serial line changes. *)
Definition uframe (s s' : kstate) : Prop := exists b w r ps u mm k n,
  s' = set_plat (set_tx_buf b (set_tx_w w (set_tx_r r (plat s))))
         (set_procs ps (set_uart u (set_mmio mm (set_nmmio k (set_nsched n s))))).
Lemma uframe_parts s ps u mm k n : uframe s (set_procs ps (set_uart u (set_mmio mm (set_nmmio k (set_nsched n s))))).
Proof.
  exists (tx_buf (plat s)), (tx_w (plat s)), (tx_r (plat s)), ps, u, mm, k, n.
  by destruct s as [? ? ? ? ? ? ? ? ? ? ? ? ? ? ? ? ? ? ? ? ? [] ? ? ? ? ? ?].
Qed.
#[export] Instance uframe_preorder : PreOrder uframe.
Proof.
  split.
  - intros s. pose proof (uframe_parts s (procs s) (uart s) (mmio s) (nmmio s) (nsched s)) as H. by destruct s.
  - intros s1 s2 s3 (? & ? & ? & ? & ? & ? & ? & ? & ->) (b & w & r & ps & u & mm & k & n & ->).
    by exists b, w, r, ps, u, mm, k, n.
Qed.

Lemma ring_turn r k : (u32 (r + 1) + k) mod TX_SIZE = (r + 1 + k) mod TX_SIZE.
Proof. unfold u32, TX_SIZE. Z.div_mod_to_equations. lia. Qed.
Lemma ring_ne r n : is_u32 r -> 0 < n <= 32 -> u32 (r + n) <> r.
Proof. unfold is_u32, u32. intros. Z.div_mod_to_equations. lia. Qed.
Lemma ring_full r n : 0 <= n < 32 -> u32 (r + n) <> u32 (r + TX_SIZE).
Proof. unfold u32, TX_SIZE. intros. Z.div_mod_to_equations. lia. Qed.
Lemma ring_count r n : 0 <= n <= 32 -> u32 (u32 (r + n) - r) = n.
Proof. unfold u32. intros. Z.div_mod_to_equations. lia. Qed.
Lemma ring_slot_ne r n k : 0 <= k -> k < n < k + 32 -> (r + n) mod TX_SIZE <> (r + k) mod TX_SIZE.
Proof. unfold TX_SIZE. intros. Z.div_mod_to_equations. lia. Qed.
Lemma ring_next r n : u32 (u32 (r + n) + 1) = u32 (r + (n + 1)).
Proof. unfold u32. rewrite Zplus_mod_idemp_l. f_equal. lia. Qed.
Lemma ring_w_slot r n : u32 (r + n) mod TX_SIZE = (r + n) mod TX_SIZE.
Proof. unfold u32, TX_SIZE. Z.div_mod_to_equations. lia. Qed.

(** Taking the oldest byte. *)
Lemma txq_tail x l d : txq (x :: l) d -> txq l (set_tx_r (u32 (tx_r d + 1)) d).
Proof.
  intros [H1 H2 H3 H4 H5 H6]. apply Forall_cons in H5 as [_ H5]. cbn [length] in H3, H4. split; ksimp; try done.
  - apply u32_range.
  - rewrite H3, u32_add_l. f_equal. lia.
  - lia.
  - intros k y Hy. rewrite ring_turn. pose proof (H6 (S k) y Hy) as E. rewrite <- E. do 3 f_equal. lia.
Qed.
(** Adding one. *)
Lemma txq_snoc c l d : txq l d -> Z.of_nat (length l) < TX_SIZE ->
  txq (l ++ [u8 c]) (set_tx_w (u32 (tx_w d + 1))
    (set_tx_buf (<[Z.to_nat (tx_w d mod TX_SIZE) := u8 c]> (tx_buf d)) d)).
Proof.
  intros [H1 H2 H3 H4 H5 H6] Hl. unfold TX_SIZE in Hl.
  assert (Hw : tx_w d mod TX_SIZE = (tx_r d + Z.of_nat (length l)) mod TX_SIZE) by (rewrite H3; apply ring_w_slot).
  split; ksimp; try done.
  - by rewrite length_insert.
  - rewrite H3, ring_next, length_app. do 2 f_equal. cbn. lia.
  - rewrite length_app. cbn. unfold TX_SIZE. lia.
  - apply Forall_app. split; [done|]. apply Forall_singleton, u8_range.
  - intros k x Hx. rewrite Hw. apply lookup_app_Some in Hx as [Hx|(Hk & Hx)].
    + rewrite list_lookup_insert_ne; [by apply H6|]. assert (Hk := lookup_lt_Some _ _ _ Hx).
      intros E. apply (ring_slot_ne (tx_r d) (Z.of_nat (length l)) (Z.of_nat k)); [lia..|].
      assert (forall a, 0 <= a mod TX_SIZE) by (intros; by apply Z.mod_pos_bound).
      by apply Z2Nat.inj in E.
    + apply list_lookup_singleton_Some in Hx as (Hx & <-). replace k with (length l) by lia.
      apply list_lookup_insert_eq. rewrite H1.
      pose proof (Z.mod_pos_bound (tx_r d + Z.of_nat (length l)) TX_SIZE eq_refl). lia.
Qed.

Section Uart.
Context {L : Layout} {W : World} {QU : QemuUart W}.

Definition lsr_at (n : nat) (s : kstate) : Z := u8 (hw_read n (QEMU_UART0 + UART_LSR) s).
(** The transmitter is ready whenever it is asked. *)
Definition always_idle : Prop := forall n s, Z.land (lsr_at n s) UART_LSR_TX_IDLE <> 0.

(** The state after one byte is given to the transmitter. *)
Definition sent_one (x : Z) (s : kstate) : kstate :=
  let s1 := upd_plat (set_tx_r (u32 (tx_r (plat s) + 1))) (set_nmmio (S (nmmio s)) s) in
  let s2 := set_procs (woken s1 CUart) s1 in
  set_uart (uart s2 ++ [x]) (set_mmio (<[QEMU_UART0 + UART_THR := x]> (mmio s2)) s2).
Lemma sent_one_frame x s : uframe s (sent_one x s).
Proof.
  by exists (tx_buf (plat s)), (tx_w (plat s)), (u32 (tx_r (plat s) + 1)), (procs (sent_one x s)),
    (uart s ++ [x]), (<[QEMU_UART0 + UART_THR := x]> (mmio s)), (S (nmmio s)), (nsched s).
Qed.
Lemma sent_one_calm x s : calm s -> calm (sent_one x s).
Proof. intros H. apply (calm_change s); try done. unfold sent_one, woken. ksimp. by rewrite length_imap. Qed.

(** One turn of the loop when a byte is waiting. *)
Lemma uart_start_turn x l fuel s : calm s -> txq (x :: l) (plat s) ->
  uart_start_loop (S fuel) (acq LUart s) =
  if Z.land (lsr_at (nmmio s) (acq LUart s)) UART_LSR_TX_IDLE =? 0
  then Ok tt (acq LUart (set_nmmio (S (nmmio s)) s))
  else uart_start_loop fuel (acq LUart (sent_one x s)).
Proof.
  intros Hs H. destruct (H) as [H1 H2 H3 H4 H5 H6]. apply Forall_cons in H5 as [Hx _].
  cbn [uart_start_loop]. msimp. change (plat (acq LUart s)) with (plat s).
  rewrite H3, (proj2 (Z.eqb_neq _ _)) by (apply ring_ne; [done|cbn [length] in *; unfold TX_SIZE in *; lia]).
  unfold UART_READ, mmio_load. rewrite bind_assoc. erewrite bind_ok by reflexivity. msimp.
  change (nmmio (acq LUart s)) with (nmmio s). fold (lsr_at (nmmio s) (acq LUart s)).
  destruct (Z.land (lsr_at (nmmio s) (acq LUart s)) UART_LSR_TX_IDLE =? 0); [done|].
  msimp. pose proof (H6 0%nat x eq_refl) as E0. rewrite Z.add_0_r in E0.
  change (plat (set_nmmio _ (acq LUart s))) with (plat s). rewrite (at_lookup _ _ _ E0).
  change (upd_plat ?f (set_nmmio ?n (acq LUart s))) with (acq LUart (upd_plat f (set_nmmio n s))).
  erewrite bind_ok by (apply wakeup_calm; [done|]; apply (calm_change s); done).
  unfold UART_WRITE, mmio_store. rewrite (u8_small x) by done. msimp. rewrite qemu_thr. reflexivity.
Qed.

(** [sent] bytes from the front of the queue [l] are sent, [l'] stay; if there
    are any the writers are woken. *)
Record drained (l sent l' : list Z) (s s' : kstate) : Prop := {
  dn_queue : l = sent ++ l';
  dn_wire : uart s' = uart s ++ sent;
  dn_ring : txq l' (plat s');
  dn_frame : uframe s s';
  dn_calm : calm s';
  dn_cpu : kcpu s' = kcpu s /\ nsched s' = nsched s;
  dn_woken : procs s' = match sent with [] => procs s | _ => woken s CUart end;
  dn_some : l <> [] -> Z.land (lsr_at (nmmio s) (acq LUart s)) UART_LSR_TX_IDLE <> 0 -> sent <> [];
  dn_all : always_idle -> l' = [];
}.
Lemma drained_none l s : calm s -> txq l (plat s) ->
  (l <> [] -> Z.land (lsr_at (nmmio s) (acq LUart s)) UART_LSR_TX_IDLE = 0) ->
  drained l [] l s (set_nmmio (S (nmmio s)) s).
Proof.
  intros Hs H Hi. split; try done.
  - by rewrite app_nil_r.
  - pose proof (uframe_parts s (procs s) (uart s) (mmio s) (S (nmmio s)) (nsched s)) as F. by destruct s.
  - by apply (calm_change s).
  - intros Hl Hn. destruct Hn. by apply Hi.
  - intros Ha. destruct (decide (l = [])) as [|Hl]; [done|]. by destruct (Ha (nmmio s) (acq LUart s) (Hi Hl)).
Qed.
Lemma woken_idem s ch ps : ps = woken s ch -> imap (wake (c_proc (kcpu s)) (Some ch)) ps = ps.
Proof. intros ->. unfold woken. rewrite imap_imap. apply imap_ext. intros. apply wake_idem. Qed.

(** What is sent is the front of the queue. *)
Lemma uart_start_loop_ok l : forall fuel s, calm s -> txq l (plat s) -> (length l <= fuel)%nat ->
  exists s' sent l', uart_start_loop fuel (acq LUart s) = Ok tt (acq LUart s') /\ drained l sent l' s s'.
Proof.
  induction l as [|x l IH]; intros fuel s Hs H Hf.
  - exists (set_nmmio (S (nmmio s)) s), [], []. split; [|by apply drained_none].
    assert (E : tx_w (plat s) = tx_r (plat s)).
    { rewrite (tq_w _ _ H). cbn. rewrite Z.add_0_r. apply u32_small, H. }
    destruct fuel; cbn [uart_start_loop]; msimp; change (plat (acq LUart s)) with (plat s);
      rewrite E, Z.eqb_refl; reflexivity.
  - destruct fuel as [|fuel]; [cbn in Hf; lia|]. rewrite (uart_start_turn x l) by done.
    destruct (Z.eqb_spec (Z.land (lsr_at (nmmio s) (acq LUart s)) UART_LSR_TX_IDLE) 0) as [E|E].
    + exists (set_nmmio (S (nmmio s)) s), [], (x :: l). split; [done|by apply drained_none].
    + destruct (IH fuel (sent_one x s)) as (s' & sent & l' & G & [-> G2 G3 G4 G5 [G6 G7] G8 _ G9]).
      * by apply sent_one_calm.
      * exact (txq_tail x l _ H).
      * cbn in Hf. lia.
      * exists s', (x :: sent), l'. split; [exact G|]. split; [done| |done| |done|done| |done|done].
        -- rewrite G2. change (uart (sent_one x s)) with (uart s ++ [x]). by rewrite <- app_assoc.
        -- etrans; [apply (sent_one_frame x)|exact G4].
        -- rewrite G8. destruct sent; [done|]. exact (woken_idem s CUart _ eq_refl).
Qed.

Lemma uart_start_ok l s : calm s -> txq l (plat s) -> exists s' sent l',
  platform_qemu_uart_start (acq LUart s) = Ok tt (acq LUart s') /\ drained l sent l' s s'.
Proof.
  intros Hs H. unfold platform_qemu_uart_start. msimp. change (plat (acq LUart s)) with (plat s).
  rewrite (tq_w _ _ H), ring_count by (pose proof (tq_room _ _ H); unfold TX_SIZE in *; lia).
  rewrite Nat2Z.id. by apply uart_start_loop_ok.
Qed.

(** ** A full ring *)

(** What happens on the CPU between the switch away from the writer [me] and
    the switch back, when the serial line interrupts the scheduler meanwhile. *)
Definition serial_turn (me : nat) (a : kstate) : option kstate :=
  match (scheduler_back me ;; platform_qemu_uart_intr ;; scheduler_pick me) a with
  | Ok true c => Some c
  | _ => None
  end.

(** The process [me] may wait for room: the next time it gives up the CPU the
    serial line interrupts, because the transmitter is ready; no key was typed. *)
Record may_wait (me : nat) (s : kstate) : Prop := {
  mw_ctx : ctx me s;
  mw_noff : noff (kcpu s) = 0;
  mw_patience : (0 < patience)%nat;
  mw_turn : forall a, others (nsched s) a = serial_turn me a;
  mw_quiet : forall t, Z.land (lsr_at (nmmio s) t) UART_LSR_RX_READY = 0;
  mw_ready : forall t, Z.land (lsr_at (S (nmmio s)) t) UART_LSR_TX_IDLE <> 0;
}.

Lemma uart_intr_ok l s : calm s -> txq l (plat s) -> (0 < patience)%nat ->
  (forall t, Z.land (lsr_at (nmmio s) t) UART_LSR_RX_READY = 0) ->
  exists s' sent l', platform_qemu_uart_intr s = Ok tt s' /\ drained l sent l' (set_nmmio (S (nmmio s)) s) s'.
Proof.
  intros Hs H Hp Hq. set (s1 := set_nmmio (S (nmmio s)) s).
  assert (C1 : calm s1) by by apply (calm_change s).
  destruct (uart_start_ok l s1 C1 H) as (s' & sent & l' & E & Hd). exists s', sent, l'. split; [|exact Hd].
  unfold platform_qemu_uart_intr. erewrite (bind_ok _ _ _ tt s1).
  2: { destruct patience as [|n]; [lia|]. cbn [uart_intr_loop]. unfold Qemu.platform_uart_getc, UART_READ, mmio_load.
    rewrite !bind_assoc. erewrite bind_ok by reflexivity. msimp. fold (lsr_at (nmmio s) s). rewrite Hq. reflexivity. }
  erewrite bind_ok by (apply acquire_ok; [apply C1|by apply (calm_locks _ C1)]).
  rewrite (bind_ok _ _ _ _ _ E). pose proof (dn_calm _ _ _ _ _ Hd) as C2.
  apply release_acq; [apply C2|by apply (calm_locks _ C2)].
Qed.

(** The writer sleeps until the interrupt has made room and woken it. *)
Lemma serial_wait me l s : may_wait me s -> txq l (plat s) -> l <> [] ->
  exists s' sent l', sleep CUart LUart (acq LUart s) = Ok tt (acq LUart s') /\ l = sent ++ l' /\ sent <> [] /\
    uart s' = uart s ++ sent /\ txq l' (plat s') /\ uframe s s' /\ calm s'.
Proof.
  intros [Hc Hn Hp Ho Hq Hr] H Hl. pose proof (ctx_settled _ _ Hc) as Hs. pose proof (ctx_locks _ _ Hc) as Hlk.
  set (sA := upd_proc me (asleep CUart) s). set (sB := set_kcpu (set_c_proc None (kcpu sA)) sA).
  assert (procs s !! me = Some (proc_of s me)) as Hme by (apply lookup_proc_of; rewrite (ctx_procs _ _ Hc); apply Hc).
  assert (calm sB) as CB.
  { split; [destruct Hs; by split|exact Hlk|]. cbn. by rewrite length_alter, (ctx_procs _ _ Hc). }
  destruct (uart_intr_ok l sB CB H Hp Hq) as (s2 & sent & l' & E2 & [D1 D2 D3 D4 D5 [D6 D6'] D7 D8 _]).
  specialize (D8 Hl ltac:(apply Hr)).
  assert (procs s2 !! me = Some (set_p_state RUNNABLE (asleep CUart (proc_of s me)))) as Hme2.
  { rewrite D7. destruct sent; [done|]. unfold woken. rewrite list_lookup_imap. cbn. by rewrite list_lookup_alter_eq, Hme. }
  set (r := set_kcpu (set_c_proc (Some me) (kcpu s2)) (upd_proc me (set_p_state RUNNING) s2)).
  assert (kcpu r = kcpu s) as Er.
  { unfold r. cbn. rewrite D6. pose proof (ctx_cur _ _ Hc) as Ec. destruct s as [? ? [? ? ?]]. cbn in *. by subst. }
  assert (calm r) as Cr.
  { destruct D5 as [[S1 S2 S3] L2 P2]. split; [by split|exact L2|]. cbn. by rewrite length_alter. }
  exists (set_nsched (S (nsched s)) (upd_proc me (set_p_chan None) r)), sent, l'.
  assert (sleep CUart LUart (acq LUart s) =
    Ok tt (acq LUart (set_nsched (S (nsched s)) (upd_proc me (set_p_chan None) r)))) as Esl.
  { apply (sleep_ok _ _ _ _ (proc_of s me)); [done|done|apply Hc|done|by apply (Hlk LUart)|apply (Hlk (LProc me)), Hc|done| |
      apply Cr|by apply (calm_locks _ Cr)|apply (calm_locks _ Cr (LProc me)), Hc|by rewrite Er].
    rewrite Ho. unfold serial_turn. fold sA.
    erewrite bind_ok by (apply scheduler_back_ok; [destruct Hs; by split|apply (Hlk (LProc me)), Hc]). fold sB.
    rewrite (bind_ok _ _ _ _ _ E2). 
    by rewrite (scheduler_pick_run me s2 _ (calm_settled _ D5) (calm_locks _ D5 (LProc me) (ctx_me _ _ Hc)) Hme2 eq_refl). }
  destruct D4 as (b & w & r0 & ps & u & mm & k & n & E4).
  split_and!; [exact Esl|exact D1|exact D8|exact D2|exact D3| |].
  - exists b, w, r0, (alter (set_p_chan None) me (alter (set_p_state RUNNING) me (procs s2))), u, mm, k, (S (nsched s)).
    transitivity (set_kcpu (kcpu r) (set_nsched (S (nsched s)) (set_procs (alter (set_p_chan None) me (alter (set_p_state RUNNING) me (procs s2))) s2))); [done|].
    rewrite Er, E4. by destruct s.
  - apply (calm_change r); [exact Cr|done..|]. cbn. by rewrite length_alter.
Qed.

(** [uart_putc_wait] returns with room. *)
Lemma putc_wait_ok l s : calm s -> txq l (plat s) -> (Z.of_nat (length l) = TX_SIZE -> exists me, may_wait me s) ->
  exists s' sent l', uart_putc_wait patience (acq LUart s) = Ok tt (acq LUart s') /\ l = sent ++ l' /\
    Z.of_nat (length l') < TX_SIZE /\ uart s' = uart s ++ sent /\ txq l' (plat s') /\ uframe s s' /\ calm s'.
Proof.
  intros Hs H Hw. pose proof (tq_room _ _ H) as Hroom.
  assert (Hno : forall fuel l t, txq l (plat t) -> Z.of_nat (length l) < TX_SIZE ->
    uart_putc_wait fuel (acq LUart t) = Ok tt (acq LUart t)).
  { intros fuel l0 t H0 Hl. destruct fuel; cbn [uart_putc_wait]; msimp; change (plat (acq LUart t)) with (plat t);
      rewrite (tq_w _ _ H0), (proj2 (Z.eqb_neq _ _)) by (apply ring_full; unfold TX_SIZE in Hl; lia); reflexivity. }
  destruct (decide (Z.of_nat (length l) = TX_SIZE)) as [Hfull|Hl].
  - destruct (Hw Hfull) as [me Hm]. pose proof (mw_patience _ _ Hm) as Hp.
    destruct (serial_wait me l s Hm H) as (s' & sent & l' & E & -> & Hne & Eu & H' & F & C); [by intros ->|].
    assert (Z.of_nat (length l') < TX_SIZE) as Hl'.
    { rewrite length_app in Hroom. destruct sent; [done|]. cbn in Hroom. lia. }
    exists s', sent, l'. split_and!; [|done..]. destruct patience as [|n]; [lia|]. cbn [uart_putc_wait]. msimp.
    change (plat (acq LUart s)) with (plat s). rewrite (tq_w _ _ H), Hfull, Z.eqb_refl.
    rewrite (bind_ok _ _ _ _ _ E). by eapply Hno.
  - exists s, [], l. split_and!; [eapply Hno; [done|lia]|done|lia|by rewrite app_nil_r|done|done|done].
Qed.

(** The byte enters the ring. *)
Definition queue_byte (c : Z) (s : kstate) : kstate :=
  upd_plat (fun d => set_tx_w (u32 (tx_w d + 1))
    (set_tx_buf (<[Z.to_nat (tx_w d mod TX_SIZE) := u8 c]> (tx_buf d)) d)) s.
Lemma queue_byte_frame c s : uframe s (queue_byte c s).
Proof.
  by exists (tx_buf (plat (queue_byte c s))), (tx_w (plat (queue_byte c s))), (tx_r (plat s)), (procs s), (uart s), (mmio s), (nmmio s), (nsched s); destruct s.
Qed.
End Uart.

(** C36: the QEMU serial line sends what it is given, in order, also when its
    ring is full.  On a ring that holds [l], [platform_uart_putc] returns with
    the byte behind [l]: some bytes from the front are on the wire, the others
    in the ring, none lost, none repeated, none overwritten and none overtaken,
    whatever the transmitter says of its state; if it is always ready nothing
    stays in the ring.  When the ring is full the writer goes to sleep, the
    interrupt of the transmitter, which must be ready then, sends a byte and
    wakes it, and it goes on.  Only the ring, the wire, the device registers,
    the process table and the count of switches are touched. *)
Theorem serial_fifo (L : Layout) (W : World) (QU : QemuUart W) l c s :
  calm s -> panicked s = 0 -> txq l (plat s) ->
  (Z.of_nat (length l) = TX_SIZE -> exists me, may_wait me s) ->
  exists s' sent l', Qemu.platform_uart_putc c s = Ok tt s' /\
    l ++ [u8 c] = sent ++ l' /\ uart s' = uart s ++ sent /\ txq l' (plat s') /\
    uframe s s' /\ calm s' /\ (always_idle -> l' = []).
Proof.
  intros Hs Hp H Hw. unfold Qemu.platform_uart_putc.
  erewrite bind_ok by (apply acquire_ok; [apply Hs|by apply (calm_locks _ Hs)]). msimp.
  change (panicked (acq LUart s)) with (panicked s). rewrite Hp. cbn [Z.eqb negb].
  destruct (putc_wait_ok l s Hs H Hw) as (s0 & sent0 & l0 & E0 & -> & Hl0 & Eu0 & H0 & F0 & C0).
  rewrite (bind_ok _ _ _ _ _ E0). msimp.
  destruct (uart_start_ok (l0 ++ [u8 c]) (queue_byte c s0)) as (s2 & sent & l' & E & [El Eu Hq F2 C2 _ _ _ Hi]);
    [by apply (calm_change s0)|by apply txq_snoc|].
  exists s2, (sent0 ++ sent), l'. rewrite (bind_ok _ _ _ _ _ E). split_and!; [|by rewrite <- !app_assoc, El| |done| |done|done].
  - apply release_acq; [apply C2|by apply (calm_locks _ C2)].
  - rewrite Eu. change (uart (queue_byte c s0)) with (uart s0). by rewrite Eu0, app_assoc.
  - etrans; [exact F0|]. etrans; [apply queue_byte_frame|exact F2].
Qed.

Definition uart_world : World :=
  {| others _ a := serial_turn (W := {| others _ _ := None; hw_read _ _ _ := 32;
       hw_write a v s := if a =? QEMU_UART0 + UART_THR then set_uart (uart s ++ [v]) s else s; patience := 1 |}) 0 a;
     hw_read _ _ _ := 32;
     hw_write a v s := if a =? QEMU_UART0 + UART_THR then set_uart (uart s ++ [v]) s else s; patience := 1 |}.

(** Thirty-two bytes wait in the ring of process 0. *)
Definition full_ring : kstate :=
  upd_plat (fun d => set_tx_w 32 (set_tx_buf (Z.of_nat <$> seq 0 32) d)) two_procs.

Lemma serial_fifo_witness : exists s',
  @Qemu.platform_uart_putc uart_world 65 full_ring = Ok tt s' /\
  uart s' = (Z.of_nat <$> seq 0 32) ++ [65] /\ txq [] (plat s').
Proof.
  assert (ctx 0 full_ring) as Hc by (destruct two_procs_ctx as [[] ? ? ? ?]; by split).
  destruct (serial_fifo test_layout uart_world (fun _ _ => eq_refl) (Z.of_nat <$> seq 0 32) 65 full_ring)
    as (s' & sent & l' & E & El & Eu & Hq & _ & _ & Hi).
  - exact (ctx_calm 0 _ Hc).
  - reflexivity.
  - split; try done; try (vm_compute; by split).
    + apply Forall_fmap, Forall_seq. intros j Hj. cbn. lia.
    + intros k x Hx. rewrite list_lookup_fmap in Hx. 
      destruct (seq 0 32 !! k) as [j|] eqn:Ek; [|done]. apply lookup_seq in Ek as [-> Hk]. injection Hx as <-.
      cbn [tx_r plat full_ring upd_plat]. change (tx_r (plat full_ring)) with 0. rewrite Z.add_0_l, Z.mod_small by (unfold TX_SIZE; lia).
      rewrite Nat2Z.id. change (tx_buf (plat full_ring)) with (Z.of_nat <$> seq 0 32).
      rewrite list_lookup_fmap, lookup_seq_lt by done. reflexivity.
  - intros _. exists 0%nat. split; [exact Hc|reflexivity|cbn; lia|reflexivity|reflexivity|intros t; discriminate].
  - rewrite Hi in El, Hq by (intros n s; discriminate). rewrite app_nil_r in El. subst sent.
    exists s'. split; [exact E|]. split; [exact Eu|exact Hq].
Defined.
