(* ===== verification/SdSpec.v ===== *)
(** * The checksum of the SD-card driver (kernel/sdcard.c)

    [getCRC16] is the remainder modulo x^16 + x^12 + x^5 + 1 of the message
    followed by 16 zero bits.  It is linear, so that what it detects can be read
    off the difference of two messages. *)
From S2P Require Import Prelude Memory Machine Platform Spinlock Proc Console Qemu Drivers.
From stdpp Require Import gmap strings countable prelude.

Import SdCard.
Open Scope Z_scope.

Definition is_u16 (x : Z) : Prop := 0 <= x < 65536.
Definition is_byte (x : Z) : Prop := 0 <= x < 256.

(** ** One bit *)

Lemma land_bit a n : 0 <= n -> Z.land a (2 ^ n) = if Z.testbit a n then 2 ^ n else 0.
Proof.
  intros Hn. apply Z.bits_inj'. intros k Hk. rewrite Z.land_spec.
  destruct (Z.testbit a n) eqn:E; rewrite ?Z.bits_0, Z.pow2_bits_eqb by done.
  - destruct (Z.eqb_spec n k) as [->|]; [by rewrite E|by rewrite andb_false_r].
  - destruct (Z.eqb_spec n k) as [->|]; [by rewrite E|by rewrite andb_false_r].
Qed.
Lemma crc_bit_eq x : crc_bit x = Z.lxor (Z.shiftl x 1) (if Z.testbit x 15 then 69665 else 0).
Proof.
  unfold crc_bit. change (Z.shiftl 1 16) with (2 ^ 16). rewrite land_bit by done.
  rewrite Z.shiftl_spec by done. change (16 - 1) with 15.
  destruct (Z.testbit x 15); cbn [negb Z.eqb]; [done|]. by rewrite Z.lxor_0_r.
Qed.

Lemma crc_bit_lxor x y : crc_bit (Z.lxor x y) = Z.lxor (crc_bit x) (crc_bit y).
Proof.
  rewrite !crc_bit_eq, Z.lxor_spec, Z.shiftl_lxor. set (a := Z.shiftl x 1). set (b := Z.shiftl y 1).
  destruct (Z.testbit x 15), (Z.testbit y 15); cbn [xorb]; rewrite ?Z.lxor_0_r; try done.
  - rewrite (Z.lxor_comm b), Z.lxor_assoc, <- (Z.lxor_assoc 69665), Z.lxor_nilpotent, Z.lxor_0_l. done.
  - by rewrite !Z.lxor_assoc, (Z.lxor_comm b).
  - by rewrite Z.lxor_assoc.
Qed.

Lemma high_bits x n k : 0 <= x < 2 ^ n -> 0 <= n <= k -> Z.testbit x k = false.
Proof.
  intros Hx Hk. destruct (decide (x = 0)) as [->|]; [apply Z.bits_0|].
  apply Z.bits_above_log2; [lia|]. apply Z.log2_lt_pow2; [lia|].
  apply Z.lt_le_trans with (2 ^ n); [lia|]. apply Z.pow_le_mono_r; lia.
Qed.
Lemma below_pow2 x n : 0 <= x -> 0 <= n -> (forall k, n <= k -> Z.testbit x k = false) -> x < 2 ^ n.
Proof.
  intros Hx Hn H. assert (E : x = x mod 2 ^ n).
  { apply Z.bits_inj'. intros k Hk. destruct (decide (n <= k)).
    - by rewrite H, Z.mod_pow2_bits_high by lia.
    - by rewrite Z.mod_pow2_bits_low by lia. }
  rewrite E. apply Z.mod_pos_bound. lia.
Qed.

Lemma crc_bit_range x : is_u16 x -> is_u16 (crc_bit x).
Proof.
  intros Hx. rewrite crc_bit_eq. assert (0 <= Z.shiftl x 1) by (apply Z.shiftl_nonneg; unfold is_u16 in Hx; lia).
  split; [apply Z.lxor_nonneg; by destruct (Z.testbit x 15)|].
  change 65536 with (2 ^ 16). apply below_pow2; [apply Z.lxor_nonneg; by destruct (Z.testbit x 15)|done|].
  intros k Hk. rewrite Z.lxor_spec, Z.shiftl_spec by lia. destruct (decide (k = 16)) as [->|].
  - change (16 - 1) with 15. by destruct (Z.testbit x 15).
  - rewrite (high_bits x 16) by (unfold is_u16 in Hx; lia).
    destruct (Z.testbit x 15); [|by rewrite Z.bits_0]. apply (high_bits 69665 17); lia.
Qed.

(** No bit is lost: the polynomial has a constant term. *)
Lemma crc_bit_zero x : crc_bit x = 0 -> x = 0.
Proof.
  rewrite crc_bit_eq. intros E. destruct (Z.testbit x 15).
  - assert (Z.testbit (Z.lxor (Z.shiftl x 1) 69665) 0 = true) as H.
    { rewrite Z.lxor_spec, Z.shiftl_spec by done. by rewrite Z.testbit_neg_r. }
    rewrite E in H. discriminate.
  - rewrite Z.lxor_0_r, Z.shiftl_mul_pow2 in E by done. lia.
Qed.

(** ** Bytes *)

Abbreviation crc_bits n := (Nat.iter n crc_bit).

Lemma crc_bits_lxor n x y : crc_bits n (Z.lxor x y) = Z.lxor (crc_bits n x) (crc_bits n y).
Proof. induction n as [|n IH]; [done|]. by rewrite !Nat.iter_succ, IH, crc_bit_lxor. Qed.
Lemma crc_bits_range n x : is_u16 x -> is_u16 (crc_bits n x).
Proof. intros H. induction n; [done|]. rewrite Nat.iter_succ. by apply crc_bit_range. Qed.
Lemma crc_bits_zero n x : crc_bits n x = 0 -> x = 0.
Proof. induction n as [|n IH]; [done|]. rewrite Nat.iter_succ. intros H. by apply IH, crc_bit_zero. Qed.
Lemma crc_bits_0 n : crc_bits n 0 = 0.
Proof. induction n as [|n IH]; [done|]. by rewrite Nat.iter_succ, IH. Qed.

(** Eight turns on a byte only move it up. *)
Lemma crc_bits_byte b : is_byte b -> crc_bits 8 b = Z.shiftl b 8.
Proof.
  intros Hb. assert (H : forall n, (n <= 8)%nat -> crc_bits n b = Z.shiftl b (Z.of_nat n)).
  { induction n as [|n IH]; intros Hn; [by rewrite Z.shiftl_0_r|].
    rewrite Nat.iter_succ, IH, crc_bit_eq, Z.shiftl_spec by lia.
    rewrite (high_bits b 8) by (unfold is_byte in Hb; lia).
    rewrite Z.lxor_0_r, Z.shiftl_shiftl by lia. f_equal. lia. }
  apply (H 8%nat). lia.
Qed.

(** Two bytes are the 16 bits they make up. *)
Lemma crc_two c a b : is_byte b ->
  crc_byte (crc_byte c a) b = crc_bits 16 (Z.lxor c (Z.lxor (Z.shiftl a 8) b)).
Proof.
  intros Hb. unfold crc_byte. rewrite <- (crc_bits_byte b Hb), <- crc_bits_lxor, <- Nat.iter_add.
  by rewrite Z.lxor_assoc.
Qed.

Lemma crc_byte_range c b : is_u16 c -> is_byte b -> is_u16 (crc_byte c b).
Proof.
  intros Hc Hb. apply crc_bits_range. unfold is_u16, is_byte in *. rewrite Z.shiftl_mul_pow2 by done.
  split; [apply Z.lxor_nonneg; lia|]. change 65536 with (2 ^ 16). apply below_pow2; [apply Z.lxor_nonneg; lia|done|].
  intros k Hk. rewrite Z.lxor_spec, (high_bits c 16), (high_bits (b * 2 ^ 8) 16) by lia. done.
Qed.
Lemma crc_range m : Forall is_byte m -> forall c, is_u16 c -> is_u16 (foldl crc_byte c m).
Proof. induction 1 as [|b m Hb _ IH]; intros c Hc; cbn; [done|]. by apply IH, crc_byte_range. Qed.

(** The difference of two runs goes its own way. *)
Lemma crc_diff m : forall c d, foldl crc_byte (Z.lxor c d) m =
  Z.lxor (foldl crc_byte c m) (crc_bits (8 * length m) d).
Proof.
  induction m as [|b m IH]; intros c d; cbn [foldl]; [done|].
  replace (crc_byte (Z.lxor c d) b) with (Z.lxor (crc_byte c b) (crc_bits 8 d)).
  - rewrite IH, <- Nat.iter_add. do 2 f_equal. cbn [length]. lia.
  - unfold crc_byte. rewrite <- crc_bits_lxor. f_equal. rewrite !Z.lxor_assoc. f_equal. apply Z.lxor_comm.
Qed.

Lemma bytes_u16 c : is_u16 c -> Z.lxor (Z.shiftl (c / 256) 8) (c mod 256) = c.
Proof.
  intros Hc. rewrite Z.shiftl_mul_pow2 by done. change (2 ^ 8) with 256.
  rewrite <- Z.add_nocarry_lxor; [pose proof (Z.div_mod c 256); lia|].
  apply Z.bits_inj'. intros k Hk. rewrite Z.land_spec, Z.bits_0.
  change (c / 256 * 256) with (c / 256 * 2 ^ 8). change (c mod 256) with (c mod 2 ^ 8).
  rewrite Z.mul_pow2_bits by done. destruct (decide (k < 8)).
  - by rewrite Z.testbit_neg_r by lia.
  - by rewrite Z.mod_pow2_bits_high, andb_false_r by lia.
Qed.

Lemma join_bytes a b : is_byte a -> is_byte b -> Z.lxor (Z.shiftl a 8) b = 256 * a + b.
Proof.
  unfold is_byte. intros Ha Hb. pose proof (bytes_u16 (256 * a + b) ltac:(unfold is_u16; lia)) as B.
  replace ((256 * a + b) / 256) with a in B by (Z.div_mod_to_equations; lia).
  by replace ((256 * a + b) mod 256) with b in B by (Z.div_mod_to_equations; lia).
Qed.

Lemma crc_burst n c x x' m : x <> x' ->
  foldl crc_byte (crc_bits n (Z.lxor c x')) m <> foldl crc_byte (crc_bits n (Z.lxor c x)) m.
Proof.
  intros Hne E. assert (Ec : Z.lxor c x' = Z.lxor (Z.lxor c x) (Z.lxor x x')).
  { by rewrite Z.lxor_assoc, <- (Z.lxor_assoc x), Z.lxor_nilpotent, Z.lxor_0_l. }
  rewrite Ec, crc_bits_lxor, crc_diff in E. set (y := foldl crc_byte _ m) in E.
  assert (Ey : Z.lxor y (Z.lxor y (crc_bits (8 * length m) (crc_bits n (Z.lxor x x')))) = Z.lxor y y)
    by by rewrite E.
  rewrite <- Z.lxor_assoc, Z.lxor_nilpotent, Z.lxor_0_l in Ey.
  apply crc_bits_zero, crc_bits_zero, Z.lxor_eq in Ey. done.
Qed.

Lemma foldl_two {A B} (f : A -> B -> A) c a b m : foldl f c ([a; b] ++ m) = foldl f (f (f c a) b) m.
Proof. done. Qed.

(** C40: the checksum of the SD-card driver.  A message followed by its checksum,
    the high byte first, has checksum 0, which is what [spi_rb] tests on the 514
    bytes of a block; and two messages of the same length that differ within two
    adjacent bytes only, a burst of at most 16 bits, never have the same
    checksum. *)
Theorem crc_detects_bursts m :
  Forall is_byte m ->
  getCRC16 (m ++ [getCRC16 m / 256; getCRC16 m mod 256]) = 0 /\
  forall m1 m2 a b a' b', m = m1 ++ [a; b] ++ m2 -> is_byte a' -> is_byte b' -> (a, b) <> (a', b') ->
    getCRC16 (m1 ++ [a'; b'] ++ m2) <> getCRC16 m.
Proof.
  intros Hm. unfold getCRC16. split.
  - pose proof (crc_range m Hm 0 ltac:(unfold is_u16; lia)) as Hc. rewrite foldl_app.
    revert Hc. generalize (foldl crc_byte 0 m). intros c Hc.
    etrans; [apply (foldl_two crc_byte c (c / 256) (c mod 256) [])|].
    rewrite crc_two by (apply Z.mod_pos_bound; lia). by rewrite bytes_u16, Z.lxor_nilpotent, crc_bits_0.
  - intros m1 m2 a b a' b' -> Ha' Hb' Hne. rewrite !Forall_app in Hm.
    destruct Hm as (_ & Hab & _). rewrite !Forall_cons in Hab. destruct Hab as (Ha & Hb & _).
    rewrite !(foldl_app crc_byte m1), !foldl_two, !crc_two by done. apply crc_burst.
    rewrite !join_bytes by done. intros Ex. apply Hne. unfold is_byte in *. f_equal; lia.
Qed.

Lemma crc_detects_bursts_witness :
  getCRC16 ([49; 50; 51] ++ [getCRC16 [49; 50; 51] / 256; getCRC16 [49; 50; 51] mod 256]) = 0 /\
  getCRC16 ([49] ++ [50; 52] ++ []) <> getCRC16 [49; 50; 51].
Proof.
  destruct (crc_detects_bursts [49; 50; 51]) as [H1 H2].
  - repeat constructor; lia.
  - split; [exact H1|]. apply (H2 [49] [] 50 51); [reflexivity|unfold is_byte; lia..|congruence].
Defined.

(** ** A read that fails *)

Lemma crc_zeroes n : getCRC16 (replicate n 0) = 0.
Proof.
  unfold getCRC16. induction n as [|n IH]; [done|]. cbn [replicate foldl].
  replace (crc_byte 0 0) with 0 by reflexivity. exact IH.
Qed.

(** A card that answers every command with an error. *)
Definition failing_card : World :=
  {| others _ _ := None; hw_read _ _ _ := 1; hw_write _ _ s := s; patience := 1 |}.
Lemma load_bytes_empty a n : load_bytes ∅ a n = replicate n 0.
Proof.
  revert a. induction n as [|n IH]; intros a; cbn; [done|]. rewrite IH.
  unfold load8. by rewrite lookup_empty.
Qed.

(** Only device registers change. *)
Definition spi_only (s s' : kstate) : Prop := exists mm k, s' = set_mmio mm (set_nmmio k s).
#[export] Instance spi_only_trans : Transitive spi_only.
Proof. intros s1 s2 s3 (? & ? & ->) (mm & k & ->). by exists mm, k. Qed.
Lemma spi_write r v s : exists s', @WriteReg failing_card r v s = Ok tt s' /\ spi_only s s'.
Proof. eexists. split; [reflexivity|]. by exists (<[SDCARD + r := u8 v]> (mmio s)), (nmmio s); destruct s. Qed.
Lemma spi_read r s : exists s', @ReadReg failing_card r s = Ok 1 s' /\ spi_only s s'.
Proof. eexists. split; [reflexivity|]. by exists (mmio s), (S (nmmio s)); destruct s. Qed.

Lemma spi_cmd_fails cmd a0 a1 a2 a3 crc s : exists s',
  @spi_cmd failing_card cmd a0 a1 a2 a3 crc s = Ok 1 s' /\ spi_only s s'.
Proof.
  unfold spi_cmd.
  destruct (spi_write RW 255 s) as (s1 & E1 & H1), (spi_write RW (Z.lor 64 cmd) s1) as (s2 & E2 & H2),
    (spi_write RW a0 s2) as (s3 & E3 & H3), (spi_write RW a1 s3) as (s4 & E4 & H4),
    (spi_write RW a2 s4) as (s5 & E5 & H5), (spi_write RW a3 s5) as (s6 & E6 & H6),
    (spi_write RW crc s6) as (s7 & E7 & H7), (spi_write RW 255 s7) as (s8 & E8 & H8),
    (spi_read RW s8) as (s9 & E9 & H9), (spi_read RW s9) as (s10 & E10 & H10).
  erewrite bind_ok by exact E1. erewrite bind_ok by exact E2. erewrite bind_ok by exact E3.
  erewrite bind_ok by exact E4. erewrite bind_ok by exact E5. erewrite bind_ok by exact E6.
  erewrite bind_ok by exact E7. cbn [spi_wait]. unfold spi_rw. rewrite !bind_assoc.
  erewrite bind_ok by exact E8. erewrite bind_ok by exact E9. cbn [Z.eqb]. msimp. exists s10.
  split; [exact E10|]. do 4 (etrans; [first [exact H1|exact H2|exact H3|exact H4]|]).
  do 5 (etrans; [first [exact H5|exact H6|exact H7|exact H8|exact H9]|]). exact H10.
Qed.

(** When the read command fails, [spi_rb] checks what was in the buffer before;
    on a buffer of zeroes it returns as if the block had been read. *)
Lemma spi_rb_ignores_failure block buf : exists s',
  @spi_rb failing_card block buf (upd_lock LDisk unlocked blank) = Ok tt s' /\ mem s' = ∅.
Proof.
  set (s := upd_lock LDisk unlocked blank).
  assert (Hs : settled s) by apply settled_upd_lock, settled_blank.
  unfold spi_rb. erewrite bind_ok by (by apply acquire_ok). cbn [spi_addr].
  match goal with |- context [spi_cmd ?c ?b1 ?b2 ?b3 ?b4 ?x] =>
    destruct (spi_cmd_fails c b1 b2 b3 b4 x (acq LDisk s)) as (s' & E & mm & k & ->) end.
  erewrite bind_ok by exact E. cbn [Z.eqb]. msimp.
  change (set_mmio mm (set_nmmio k (acq LDisk s))) with (acq LDisk (set_mmio mm (set_nmmio k s))).
  change (mem (acq LDisk (set_mmio mm (set_nmmio k s)))) with (∅ : gmap Z Z).
  rewrite load_bytes_empty, crc_zeroes. cbn [Z.eqb negb]. eexists. split; [by apply release_acq|done].
Qed.
