(* ===== verification/Typed.v ===== *)
(** * Well-formed kernel states

    [typed]: the tables have their sizes, every pointer into one of them that is
    kept in the kernel's data is null or an index of it, and file offsets, the
    count of the log and the positions of the two rings are in the range the
    code relies on, so that no access through them leaves its table.  [keeps m Q] says that [m] preserves
    this whatever its outcome, a panic included, and that the value it returns
    satisfies [Q]; its rules follow the structure of the code, and the hints of
    the database [typed] apply them.  This file has the rules and the code up
    to processes; TypedFs.v, TypedSys.v and TypedBoard.v go on with it. *)
From S2P Require Import Prelude Memory Machine Platform Sv32 Spinlock Printf Kalloc Vm Proc Console.
From stdpp Require Import gmap strings countable prelude.

Open Scope Z_scope.

(** ** The invariant *)

(** A null pointer, or an index of a table with [n] entries. *)
Definition in_table (n : nat) (p : option nat) : Prop :=
  match p with Some i => (i < n)%nat | None => True end.

Record proc_typed (p : proc) : Prop := {
  pt_ofile : length (p_ofile p) = NOFILE;
  pt_files : Forall (in_table NFILE) (p_ofile p);
  pt_cwd : in_table NINODE (p_cwd p);
  pt_parent : in_table NPROC (p_parent p);
  pt_name : length (p_name p) = 16%nat;
}.

(** The members of the union that go with the type of the file. *)
Record file_typed (f : file) : Prop := {
  ft_ip : in_table NINODE (f_ip f);
  ft_inode : f_type f = FD_INODE -> f_ip f <> None;
  ft_device : f_type f = FD_DEVICE -> f_ip f <> None /\ 0 <= f_major f < NDEV;
  ft_off : is_u32 (f_off f);
}.

Definition inode_typed (ip : inode) : Prop := length (i_addrs ip) = 13%nat.

Record buf_typed (b : buf) : Prop := {
  bt_prev : (b_prev b <= NBUF)%nat;
  bt_next : (b_next b <= NBUF)%nat;
  bt_data : length (b_data b) = Z.to_nat BSIZE;
}.

(** A negative count, as a header on disk may have it, means no entry. *)
Record log_typed (l : logstate) : Prop := {
  lt_n : -2147483648 <= lh_n l <= LOGSIZE;
  lt_block : length (lh_block l) = Z.to_nat LOGSIZE;
}.

(** The three indices run through the buffer in the order r, w, e, and at most
    one round apart, also across the wrap of the counters. *)
Record cons_typed (c : console) : Prop := {
  ct_buf : length (cons_buf c) = Z.to_nat INPUT_BUF_SIZE;
  ct_r : is_u32 (cons_r c);
  ct_w : is_u32 (cons_w c);
  ct_e : is_u32 (cons_e c);
  ct_order : u32 (cons_w c - cons_r c) <= u32 (cons_e c - cons_r c) <= INPUT_BUF_SIZE;
}.

(** The output ring of the QEMU serial line has 32 bytes and is never more than
    full; the disk driver has 8 descriptors. *)
Record plat_typed (d : pdata) : Prop := {
  pl_buf : length (tx_buf d) = 32%nat;
  pl_r : is_u32 (tx_r d);
  pl_w : is_u32 (tx_w d);
  pl_ring : u32 (tx_w d - tx_r d) <= 32;
  pl_free : length (vd_free d) = 8%nat;
  pl_status : length (vd_status d) = 8%nat;
  pl_done : length (vd_done d) = 8%nat;
  pl_ops : length (vd_ops d) = 8%nat;
  pl_used : 0 <= vd_used_idx d < 65536;
}.

Record typed (s : kstate) : Prop := {
  ty_procs : length (procs s) = NPROC;
  ty_proc : Forall proc_typed (procs s);
  ty_files : length (ftable s) = NFILE;
  ty_file : Forall file_typed (ftable s);
  ty_inodes : length (itable s) = NINODE;
  ty_inode : Forall inode_typed (itable s);
  ty_bufs : length (bufs s) = S NBUF;
  ty_buf : Forall buf_typed (bufs s);
  ty_log : log_typed (log s);
  ty_cons : cons_typed (kcons s);
  ty_plat : plat_typed (plat s);
  ty_disk : map_Forall (fun _ d => length d = Z.to_nat BSIZE) (disk s);
  ty_cpu : in_table NPROC (c_proc (kcpu s));
  ty_init : in_table NPROC (initproc s);
}.

(** ** Computations that keep it *)

Definition keeps {A} (m : K A) (Q : A -> Prop) : Prop := forall s, typed s ->
  match m s with Ok a s' => typed s' /\ Q a | Panic _ s' | Hang s' => typed s' end.
Abbreviation keep m := (keeps m (fun _ => True)).

Lemma keeps_final {A} (m : K A) Q s : keeps m Q -> typed s -> typed (final (m s)).
Proof. intros H Hs. specialize (H s Hs). by destruct (m s); [destruct H|..]. Qed.

Lemma keeps_ret {A} (a : A) (Q : A -> Prop) : Q a -> keeps (mret a) Q.
Proof. by intros H s Hs. Qed.
Lemma keeps_panic {A} msg (Q : A -> Prop) : keeps (panic msg) Q.
Proof. by intros s Hs. Qed.
Lemma keeps_hang {A} (Q : A -> Prop) : keeps hang Q.
Proof. by intros s Hs. Qed.
Lemma keeps_gets {A} (f : kstate -> A) (Q : A -> Prop) :
  (forall s, typed s -> Q (f s)) -> keeps (gets f) Q.
Proof. intros H s Hs. split; [done|]. by apply H. Qed.
Lemma keeps_modify f (Q : unit -> Prop) :
  (forall s, typed s -> typed (f s)) -> Q tt -> keeps (modify f) Q.
Proof. intros H HQ s Hs. split; [|done]. by apply H. Qed.

Lemma keeps_bind {A B} (m : K A) (k : A -> K B) P Q :
  keeps m P -> (forall a, P a -> keeps (k a) Q) -> keeps (m ≫= k) Q.
Proof.
  intros Hm Hk s Hs. specialize (Hm s Hs). unfold mbind, M_bind.
  destruct (m s) as [a s'| |]; [|done..]. destruct Hm as [H1 H2]. by apply Hk.
Qed.
Lemma keeps_bind_gets {A B} (f : kstate -> A) (k : A -> K B) Q :
  (forall s, typed s -> keeps (k (f s)) Q) -> keeps (gets f ≫= k) Q.
Proof. intros H s Hs. by apply H. Qed.
Lemma keeps_bind_ret {A B} (a : A) (k : A -> K B) Q : keeps (k a) Q -> keeps (mret a ≫= k) Q.
Proof. intros H s Hs. by apply H. Qed.

Lemma keeps_mono {A} (m : K A) (P Q : A -> Prop) :
  keeps m P -> (forall a, P a -> Q a) -> keeps m Q.
Proof. intros H HPQ s Hs. specialize (H s Hs). destruct (m s); [|done..]. naive_solver. Qed.

Lemma keep_for_range (body : nat -> K unit) n lo :
  (forall i, (lo <= i < lo + n)%nat -> keep (body i)) -> keep (for_range n lo body).
Proof.
  revert lo. induction n as [|n IH]; intros lo H; cbn [for_range]; [by apply keeps_ret|].
  eapply keeps_bind; [apply H; lia|]. intros _ _. apply IH. intros i Hi. apply H. lia.
Qed.

(** ** Rules for the updates of the state *)

(** A state that agrees on the tables. *)
Ltac ty_frame := match goal with H : typed ?s |- typed _ => solve [destruct H; split; assumption] end.

Lemma length_safestrcpy s t n : length (safestrcpy s t n) = length s.
Proof. unfold safestrcpy. case_match; [done|]. apply length_safestrcpy_copy. Qed.

Lemma Forall_alter_keep {A} (P : A -> Prop) (f : A -> A) i l :
  Forall P l -> (forall x, P x -> P (f x)) -> Forall P (alter f i l).
Proof. intros Hl Hf. apply Forall_alter; [done|]. intros x _ Hx. by apply Hf. Qed.

Lemma typed_upd_proc i f s :
  typed s -> (forall p, proc_typed p -> proc_typed (f p)) -> typed (upd_proc i f s).
Proof. intros [] Hf. split; ksimp; rewrite ?length_alter; auto using Forall_alter_keep. Qed.
Lemma typed_upd_file i f s :
  typed s -> (forall x, file_typed x -> file_typed (f x)) -> typed (upd_file i f s).
Proof. intros [] Hf. split; ksimp; rewrite ?length_alter; auto using Forall_alter_keep. Qed.
Lemma typed_upd_inode i f s :
  typed s -> (forall x, inode_typed x -> inode_typed (f x)) -> typed (upd_inode i f s).
Proof. intros [] Hf. split; ksimp; rewrite ?length_alter; auto using Forall_alter_keep. Qed.
Lemma typed_upd_buf i f s :
  typed s -> (forall x, buf_typed x -> buf_typed (f x)) -> typed (upd_buf i f s).
Proof. intros [] Hf. split; ksimp; rewrite ?length_alter; auto using Forall_alter_keep. Qed.
Lemma typed_upd_log f s : typed s -> log_typed (f (log s)) -> typed (upd_log f s).
Proof. intros [] Hf. split; ksimp; auto. Qed.
Lemma typed_set_kcons c s : typed s -> cons_typed c -> typed (set_kcons c s).
Proof. intros [] Hc. split; ksimp; auto. Qed.

Lemma typed_upd_plat f s : typed s -> plat_typed (f (plat s)) -> typed (upd_plat f s).
Proof. intros [] Hf. split; ksimp; auto. Qed.

(** Entries read from a table of a well-formed state. *)
Lemma proc_of_typed s i : typed s -> proc_typed (proc_of s i).
Proof.
  intros Hs. unfold proc_of. destruct (procs s !! i) as [p|] eqn:E; cbn.
  - by apply (Forall_lookup_1 _ _ _ _ (ty_proc s Hs) E).
  - split; cbn; auto; repeat constructor.
Qed.

(** ** The tactic *)

Create HintDb typed discriminated.
#[export] Hint Constants Opaque : typed.
#[export] Hint Variables Opaque : typed.

Ltac pt_auto := match goal with H : proc_typed _ |- proc_typed _ =>
  destruct H; split; ksimp;
    rewrite ?length_insert, ?length_splice, ?length_safestrcpy; auto;
    try (apply Forall_insert; auto with typed); auto with typed end.
#[export] Hint Extern 2 (proc_typed _) => solve [pt_auto] : typed.
#[export] Hint Extern 2 (typed _) => ty_frame : typed.
#[export] Hint Extern 1 (_ = _) => reflexivity : typed.
#[export] Hint Resolve keeps_ret keeps_panic keeps_hang ty_init : typed.
#[export] Hint Extern 0 True => exact I : typed.
#[export] Hint Extern 0 (in_table _ None) => exact I : typed.

Ltac kleaf := solve [eauto 4 with typed].
Ltac kstep := lazymatch goal with
  | |- forall _, _ => intro
  | |- keeps (panic _) _ => apply keeps_panic
  | |- keeps hang _ => apply keeps_hang
  | |- keeps (mret _) _ => apply keeps_ret
  | |- keeps (mret _ ≫= _) _ => apply keeps_bind_ret; cbn beta
  | |- keeps (gets _ ≫= _) _ => apply keeps_bind_gets; intros ? ?; cbn beta
  | |- keeps (modify _ ≫= _) _ => eapply (keeps_bind _ _ (fun _ => True));
      [apply keeps_modify; [intros ? ?|exact I]|intros _ _]
  | |- keeps ((if _ then _ else _) ≫= _) _ => eapply (keeps_bind _ _ (fun _ => True)); [|intros ? _]
  | |- keeps ((match _ with _ => _ end) ≫= _) _ => eapply (keeps_bind _ _ (fun _ => True)); [|intros ? _]
  | |- keeps ((_ ≫= _) ≫= _) _ => eapply (keeps_bind _ _ (fun _ => True)); [|intros ? _]
  | |- keeps (for_range _ _ _ ≫= _) _ => eapply (keeps_bind _ _ (fun _ => True)); [|intros ? _]
  | |- keeps (_ ≫= _) _ => eapply keeps_bind; [kleaf|intros ? ?; cbn beta in *]
  | |- keeps (if ?b then _ else _) _ => destruct b eqn:?
  | |- keeps (match ?x with _ => _ end) _ => destruct x eqn:?
  | |- keeps (for_range _ _ _) _ => apply keep_for_range; intros ? ?
  | |- keeps (gets _) _ => apply keeps_gets; intros ? ?
  | |- keeps (modify _) _ => apply keeps_modify; [intros ? ?|]
  | |- keeps _ _ => first [kleaf | eapply keeps_mono; [kleaf|intros ? ?; exact I]]
  | |- _ => kleaf
  end.
Ltac kauto := repeat kstep.

(** ** Locks, memory and page tables *)

Lemma keep_initlock lk : keep (initlock lk).
Proof. unfold initlock. kauto. Qed.
#[export] Hint Resolve keep_initlock : typed.
Lemma keep_push_off : keep push_off.
Proof. unfold push_off, intr_get, intr_off. kauto. Qed.
Lemma keep_pop_off : keep pop_off.
Proof. unfold pop_off, intr_get, intr_on. kauto. Qed.
#[export] Hint Resolve keep_push_off keep_pop_off : typed.
Lemma keep_acquire lk : keep (acquire lk).
Proof. unfold acquire, holding, test_and_set. kauto. Qed.
Lemma keep_release lk : keep (release lk).
Proof. unfold release, holding. kauto. Qed.
#[export] Hint Resolve keep_acquire keep_release : typed.

Lemma keep_upd_mem f : keep (upd_mem f).
Proof. unfold upd_mem. kauto. Qed.
#[export] Hint Resolve keep_upd_mem : typed.

Section Vm.
Context {L : Layout}.

Lemma keep_kfree pa : keep (kfree pa).
Proof. unfold kfree. kauto. Qed.
Lemma keep_kalloc : keep kalloc.
Proof. unfold kalloc. kauto. Qed.
#[local] Hint Resolve keep_kfree keep_kalloc : typed.

Lemma keep_freerange a b : keep (freerange a b).
Proof.
  unfold freerange. cbn zeta. set (n := Z.to_nat _). clearbody n.
  generalize (PGROUNDUP a). induction n as [|n IH]; intros p; cbn [freerange_loop]; kauto.
Qed.
#[local] Hint Resolve keep_freerange : typed.
Lemma keep_kinit : keep kinit.
Proof. unfold kinit. kauto. Qed.

Lemma keep_walk pt va alloc : keep (walk pt va alloc).
Proof.
  unfold walk. destruct (MAXVA <? va); [kauto|].
  assert (forall lv p, keep (walk_loop lv p va alloc)) as Hw.
  { induction lv as [|lv IH]; intros p; cbn [walk_loop]; kauto. }
  eapply keeps_bind; [apply Hw|]. kauto.
Qed.
#[local] Hint Resolve keep_walk : typed.
Lemma keep_walkaddr pt va : keep (walkaddr pt va).
Proof. unfold walkaddr. kauto. Qed.
#[local] Hint Resolve keep_walkaddr : typed.

Lemma keep_mappages pt va sz pa perm : keep (mappages pt va sz pa perm).
Proof.
  unfold mappages. destruct (sz =? 0); [kauto|]. cbn zeta. generalize (Z.to_nat (u32 
    (PGROUNDDOWN (u32 (va + sz - 1)) - PGROUNDDOWN va) / PGSIZE)). intros n.
  generalize (PGROUNDDOWN va) (PGROUNDDOWN (u32 (va + sz - 1))). intros a last. revert a pa perm.
  induction n as [|n IH]; intros a pa perm; cbn [mappages_loop]; kauto.
Qed.
#[local] Hint Resolve keep_mappages : typed.
Lemma keep_kvmmap pt va pa sz perm : keep (kvmmap pt va pa sz perm).
Proof. unfold kvmmap. kauto. Qed.

Lemma keep_uvmunmap pt va n fr : keep (uvmunmap pt va n fr).
Proof.
  unfold uvmunmap. destruct (negb _); [kauto|]. cbn zeta. generalize (Z.to_nat (u32
    (Z.shiftr va 12 + n) - Z.shiftr va 12)). intros k. generalize (Z.shiftr va 12).
  induction k as [|k IH]; intros a; cbn [uvmunmap_loop]; kauto.
Qed.
#[local] Hint Resolve keep_uvmunmap : typed.
Lemma keep_uvmcreate : keep uvmcreate.
Proof. unfold uvmcreate. kauto. Qed.
Lemma keep_uvmfirst pt src sz : keep (uvmfirst pt src sz).
Proof. unfold uvmfirst. kauto. Qed.
Lemma keep_uvmdealloc pt o n : keep (uvmdealloc pt o n).
Proof. unfold uvmdealloc. kauto. Qed.
#[local] Hint Resolve keep_uvmdealloc : typed.
Lemma keep_uvmalloc pt o n x : keep (uvmalloc pt o n x).
Proof.
  unfold uvmalloc. destruct (n <? o); [kauto|]. cbn zeta. generalize (Z.to_nat
    ((n - PGROUNDUP o) / PGSIZE + 1)). intros k. generalize (PGROUNDUP o) at 1.
  induction k as [|k IH]; intros a; cbn [uvmalloc_loop]; kauto.
Qed.
Lemma keep_freewalk pt : keep (freewalk pt).
Proof.
  unfold freewalk. generalize 3%nat. intros d. revert pt.
  induction d as [|d IH]; intros pt; cbn [freewalk_depth]; [kauto|].
  unfold freewalk_entry. kauto.
Qed.
#[local] Hint Resolve keep_freewalk : typed.
Lemma keep_uvmfree pt sz : keep (uvmfree pt sz).
Proof. unfold uvmfree. kauto. Qed.
Lemma keep_uvmcopy o n sz : keep (uvmcopy o n sz).
Proof.
  unfold uvmcopy. generalize (Z.to_nat (sz / PGSIZE + 1)). intros k. generalize 0 at 1.
  induction k as [|k IH]; intros a; cbn [uvmcopy_loop]; cbn zeta; kauto.
Qed.
Lemma keep_uvmclear pt va : keep (uvmclear pt va).
Proof. unfold uvmclear. kauto. Qed.

Lemma keep_copyout pt va src n : keep (copyout pt va src n).
Proof.
  unfold copyout. generalize (Z.to_nat (n / PGSIZE + 2)). intros k. revert va src n.
  induction k as [|k IH]; intros va src n; cbn [copyout_loop]; cbn zeta; kauto.
Qed.
Lemma keep_copyin pt va n : keep (copyin pt va n).
Proof.
  unfold copyin. generalize (Z.to_nat (n / PGSIZE + 2)) (@nil Z). intros k. revert va n.
  induction k as [|k IH]; intros va n acc; cbn [copyin_loop]; cbn zeta; kauto.
Qed.
Lemma keep_copyinstr pt va n : keep (copyinstr pt va n).
Proof.
  unfold copyinstr. generalize (Z.to_nat (n / PGSIZE + 2)) (@nil Z). intros k. revert va n.
  induction k as [|k IH]; intros va n acc; cbn [copyinstr_loop]; cbn zeta; kauto.
Qed.
End Vm.
#[export] Hint Resolve keep_kfree keep_kalloc keep_freerange keep_kinit keep_walk keep_walkaddr
  keep_mappages keep_kvmmap keep_uvmunmap keep_uvmcreate keep_uvmfirst keep_uvmdealloc
  keep_uvmalloc keep_uvmfree keep_uvmcopy keep_uvmclear keep_copyout keep_copyin
  keep_copyinstr : typed.

(** ** What is required of the world and of the board *)

Class WorldTyped (W : World) : Prop := {
  others_typed : forall n s s', typed s -> others n s = Some s' -> typed s';
  hw_write_typed : forall a v s, typed s -> typed (hw_write a v s);
  hw_write_kcons : forall a v s, kcons (hw_write a v s) = kcons s;
}.

(** [keeps] for code that also leaves the console input alone. *)
Definition keepc {A} (m : K A) : Prop := forall s, typed s ->
  match m s with
  | Ok _ s' => typed s' /\ kcons s' = kcons s
  | Panic _ s' | Hang s' => typed s'
  end.

Class SerialTyped (P : Serial) : Prop := {
  uart_init_typed : keep platform_uart_init;
  uart_putc_typed : forall c, keep (platform_uart_putc c);
  uart_putc_sync_typed : forall c, keepc (platform_uart_putc_sync c);
}.

(** A driver fills the buffer with BSIZE bytes. *)
Class DiskTyped (D : DiskDriver) : Prop := {
  disk_init_typed : keep platform_disk_init;
  disk_read_typed : forall b i, (i <= NBUF)%nat -> keep (platform_disk_read b i);
  disk_write_typed : forall b i, (i <= NBUF)%nat -> keep (platform_disk_write b i);
}.

Class IrqTyped (I : IrqChip) : Prop := {
  irq_init_typed : keep platform_irq_init;
  irq_init_hart_typed : keep platform_irq_init_hart;
  handle_irq_typed : keep platform_handle_irq;
}.

Class BoardTyped (B : BoardMap) : Prop := board_typed : forall pt, keep (platform_kvmmap pt).

Lemma keepc_bind {A B} (m : K A) (k : A -> K B) :
  keepc m -> (forall a, keepc (k a)) -> keepc (m ≫= k).
Proof.
  intros Hm Hk s Hs. specialize (Hm s Hs). unfold mbind, M_bind.
  destruct (m s) as [a s'| |]; [|done..]. destruct Hm as [H1 <-]. by apply Hk.
Qed.
Lemma keepc_keep {A} (m : K A) : keepc m -> keep m.
Proof. intros H s Hs. specialize (H s Hs). by destruct (m s); [destruct H|..]. Qed.

#[export] Hint Resolve uart_init_typed uart_putc_typed disk_init_typed disk_read_typed
  disk_write_typed irq_init_typed irq_init_hart_typed handle_irq_typed board_typed : typed.

Section Printf.
Context {Ser : Serial} {SerT : SerialTyped Ser}.

Lemma keepc_consputc c : keepc (consputc c).
Proof.
  unfold consputc. destruct (c =? BACKSPACE); [|apply uart_putc_sync_typed].
  repeat (apply keepc_bind; [apply uart_putc_sync_typed|intros _]). apply uart_putc_sync_typed.
Qed.
Lemma keep_consputc c : keep (consputc c).
Proof. apply keepc_keep, keepc_consputc. Qed.
#[local] Hint Resolve keep_consputc : typed.
Lemma keep_conswrite l : keep (conswrite l).
Proof. induction l as [|c l IH]; cbn [conswrite]; kauto. Qed.
#[local] Hint Resolve keep_conswrite : typed.
Lemma keep_printf fmt ap : keep (printf fmt ap).
Proof. unfold printf. kauto. Qed.
Lemma keep_printfinit : keep printfinit.
Proof. unfold printfinit. kauto. Qed.
End Printf.
#[export] Hint Resolve keep_consputc keep_conswrite keep_printf keep_printfinit : typed.

(** ** Processes *)

Lemma keep_pset i f : (forall p, proc_typed p -> proc_typed (f p)) -> keep (pset i f).
Proof. intros Hf. apply keeps_modify; [|done]. intros s Hs. by apply typed_upd_proc. Qed.
#[export] Hint Resolve keep_pset : typed.

Lemma keep_tf_set i off v : keep (tf_set i off v).
Proof. unfold tf_set. kauto. Qed.
Lemma keep_tf_get i off : keep (tf_get i off).
Proof. unfold tf_get. kauto. Qed.
#[export] Hint Resolve keep_tf_set keep_tf_get : typed.

Lemma keep_myproc : keeps myproc (in_table NPROC).
Proof.
  unfold myproc. kstep. kstep. eapply keeps_bind; [kleaf|]. intros _ _. apply keeps_ret.
  by apply ty_cpu.
Qed.
#[export] Hint Resolve keep_myproc : typed.
Lemma keep_curproc : keeps curproc (fun i => (i < NPROC)%nat).
Proof. unfold curproc. kauto. Qed.
#[export] Hint Resolve keep_curproc : typed.

Section Proc.
Context {L : Layout} {W : World} {WT : WorldTyped W}.

Lemma keep_proc_mapstacks pt : keep (proc_mapstacks pt).
Proof. unfold proc_mapstacks. kauto. Qed.
Lemma keep_procinit : keep procinit.
Proof. unfold procinit. kauto. Qed.
Lemma keep_allocpid : keep allocpid.
Proof. unfold allocpid. kauto. Qed.
Lemma keep_proc_pagetable i : keep (proc_pagetable i).
Proof. unfold proc_pagetable. kauto. Qed.
Lemma keep_proc_freepagetable pt sz : keep (proc_freepagetable pt sz).
Proof. unfold proc_freepagetable. kauto. Qed.
#[local] Hint Resolve keep_allocpid keep_proc_pagetable keep_proc_freepagetable : typed.
Lemma keep_freeproc i : keep (freeproc i).
Proof. unfold freeproc. kauto. Qed.
#[local] Hint Resolve keep_freeproc : typed.

Lemma keep_allocproc_find n i : (i + n <= NPROC)%nat -> keeps (allocproc_find n i) (in_table NPROC).
Proof.
  revert i. induction n as [|n IH]; intros i Hi; cbn [allocproc_find]; [by apply keeps_ret|].
  kstep. kstep. case_decide; [apply keeps_ret; cbn; lia|].
  eapply keeps_bind; [kleaf|]. intros _ _. apply IH. lia.
Qed.
Lemma keep_allocproc : keeps allocproc (in_table NPROC).
Proof.
  unfold allocproc. eapply keeps_bind; [by apply keep_allocproc_find|]. intros [i|] Hi; [|by apply keeps_ret].
  kauto; done.
Qed.
Lemma keep_growproc n : keep (growproc n).
Proof. unfold growproc. kauto. Qed.

Lemma keep_swtch : keep swtch.
Proof.
  intros s Hs. unfold swtch. destruct (others (nsched s) s) as [s'|] eqn:E; [|done].
  split; [|done]. pose proof (others_typed _ _ _ Hs E). ty_frame.
Qed.
#[local] Hint Resolve keep_swtch : typed.
Lemma keep_sched : keep sched.
Proof. unfold sched, holding, intr_get. kauto. Qed.
#[local] Hint Resolve keep_sched : typed.
Lemma keep_yield : keep yield.
Proof. unfold yield. kauto. Qed.
Lemma keep_scheduler_pick i : (i < NPROC)%nat -> keep (scheduler_pick i).
Proof. intros Hi. unfold scheduler_pick. kauto. Qed.
Lemma keep_scheduler_back i : keep (scheduler_back i).
Proof. unfold scheduler_back. kauto. by destruct H; split. Qed.
Lemma keep_sleep ch lk : keep (sleep ch lk).
Proof. unfold sleep. kauto. Qed.
Lemma keep_wakeup_on ch : keep (wakeup_on ch).
Proof. unfold wakeup_on. kauto. Qed.
Lemma keep_wakeup ch : keep (wakeup ch).
Proof. apply keep_wakeup_on. Qed.
Lemma keep_kill pid : keep (kill pid).
Proof.
  unfold kill. generalize NPROC at 1. intros n. generalize 0%nat.
  induction n as [|n IH]; intros i; cbn [kill_loop]; kauto.
Qed.
Lemma keep_setkilled i : keep (setkilled i).
Proof. unfold setkilled. kauto. Qed.
Lemma keep_killed i : keep (killed i).
Proof. unfold killed. kauto. Qed.

Lemma keep_either_copyout u dst src n : keep (either_copyout u dst src n).
Proof. unfold either_copyout. kauto. Qed.
Lemma keep_either_copyin u src n : keep (either_copyin u src n).
Proof. unfold either_copyin. kauto. Qed.
Lemma keep_procdump `{SerialTyped} : keep procdump.
Proof. unfold procdump. kauto. Qed.
End Proc.
#[export] Hint Resolve keep_proc_mapstacks keep_procinit keep_proc_pagetable
  keep_proc_freepagetable keep_freeproc keep_allocproc keep_growproc keep_sched keep_yield
  keep_scheduler_pick keep_scheduler_back keep_sleep keep_wakeup_on keep_wakeup keep_kill
  keep_setkilled keep_killed keep_either_copyout keep_either_copyin keep_procdump : typed.
