(* ===== verification/TypedFs.v ===== *)
(** * Well-formed kernel states: buffers, log, file system, console, files *)
From S2P Require Import Prelude Memory Machine Platform Sv32 Spinlock Printf Kalloc Vm Proc Sleeplock Bio Log Fs Console File Typed.
From stdpp Require Import gmap strings countable prelude.

Open Scope Z_scope.

(** ** Tracking a part of the state *)

(** [keeps] at one state, with a postcondition on the final state too. *)
Definition good {A} (Q : A -> kstate -> Prop) (o : outcome kstate A) : Prop :=
  match o with Ok a s' => typed s' /\ Q a s' | Panic _ s' | Hang s' => typed s' end.
Abbreviation fine o := (good (fun _ _ => True) o).

Lemma keeps_good {A} (m : K A) Q :
  (forall s, typed s -> good (fun a _ => Q a) (m s)) -> keeps m Q.
Proof. done. Qed.
Lemma good_then {A B} (m : K A) (k : A -> K B) P Q s :
  good P (m s) -> (forall a s', P a s' -> typed s' -> good Q (k a s')) -> good Q ((m ≫= k) s).
Proof.
  unfold mbind, M_bind, good at 1. destruct (m s) as [a s'| |]; [|done..]. intros [H1 H2] Hk. by apply Hk.
Qed.
Lemma good_step {A B} (m : K A) (k : A -> K B) P Q s :
  keeps m P -> typed s -> (forall a s', P a -> typed s' -> good Q (k a s')) -> good Q ((m ≫= k) s).
Proof. intros Hm Hs Hk. apply (good_then m k (fun a _ => P a)); [by apply Hm|done]. Qed.

(** The computation leaves [F] of the state as it is. *)
Definition leaves {X A} (F : kstate -> X) (m : K A) : Prop :=
  forall s a s', m s = Ok a s' -> F s' = F s.

Lemma leaves_bind {X A B} (F : kstate -> X) (m : K A) (k : A -> K B) :
  leaves F m -> (forall a, leaves F (k a)) -> leaves F (m ≫= k).
Proof.
  intros Hm Hk s b s'' (a & s' & H1 & H2)%bind_inv_ok.
  by rewrite (Hk _ _ _ _ H2), (Hm _ _ _ H1).
Qed.
Lemma leaves_gets {X A} (F : kstate -> X) (f : kstate -> A) : leaves F (gets f).
Proof. by intros s a s' [= _ <-]. Qed.
Lemma leaves_modify {X} (F : kstate -> X) f : (forall s, F (f s) = F s) -> leaves F (modify f).
Proof. by intros H s a s' [= _ <-]. Qed.
Lemma leaves_ret {X A} (F : kstate -> X) (a : A) : leaves F (mret a).
Proof. by intros s b s' [= _ <-]. Qed.
Lemma leaves_panic {X A} (F : kstate -> X) msg : leaves F (panic msg : K A).
Proof. by intros s a s' [=]. Qed.
Lemma leaves_hang {X A} (F : kstate -> X) : leaves F (hang : K A).
Proof. by intros s a s' [=]. Qed.

Ltac lv := repeat lazymatch goal with
  | |- forall _, _ => intro
  | |- leaves _ (_ ≫= _) => apply leaves_bind
  | |- leaves _ (gets _) => apply leaves_gets
  | |- leaves _ (modify _) => apply leaves_modify
  | |- leaves _ (mret _) => apply leaves_ret
  | |- leaves _ (panic _) => apply leaves_panic
  | |- leaves _ hang => apply leaves_hang
  | |- leaves _ (if ?b then _ else _) => destruct b
  end; auto.

(** Taking and releasing locks touches the lock, the nesting depth and the
    interrupt flag only. *)
Lemma acquire_leaves {X} (F : kstate -> X) lk :
  (forall s c l k, F (set_locks l (set_kcpu k (set_csr c s))) = F s) ->
  leaves F (acquire lk) /\ leaves F (release lk).
Proof.
  intros HF.
  assert (forall s c, F (set_csr c s) = F s) as Hc by (intros s c; apply (HF s c (locks s) (kcpu s))).
  assert (forall s k, F (set_kcpu k s) = F s) as Hk by (intros s k; apply (HF s (csr s) (locks s) k)).
  assert (forall s l, F (set_locks l s) = F s) as Hl by (intros s l; apply (HF s (csr s) l (kcpu s))).
  unfold acquire, release, push_off, pop_off, intr_get, intr_on, intr_off, holding, test_and_set.
  split; lv; first [apply Hc | apply Hk | apply Hl].
Qed.

Lemma good_bind {X A B} (F : kstate -> X) (m : K A) (k : A -> K B) P Q s :
  keeps m P -> leaves F m -> typed s ->
  (forall a s', P a -> typed s' -> F s' = F s -> good Q (k a s')) -> good Q ((m ≫= k) s).
Proof.
  intros Hm HF Hs Hk. specialize (Hm s Hs). unfold mbind, M_bind.
  destruct (m s) as [a s'| |] eqn:E; [|done..]. destruct Hm as [H1 H2]. apply Hk; eauto.
Qed.

(** ** Rules for the tables *)

Lemma buf_of_typed s i : typed s -> buf_typed (buf_of s i).
Proof.
  intros Hs. unfold buf_of. destruct (bufs s !! i) as [b|] eqn:E; cbn.
  - by apply (Forall_lookup_1 _ _ _ _ (ty_buf s Hs) E).
  - split; cbn; unfold NBUF; lia || done.
Qed.
Lemma ip_of_typed s i : typed s -> inode_typed (ip_of s i).
Proof.
  intros Hs. unfold ip_of. destruct (itable s !! i) as [b|] eqn:E; cbn; [|done].
  by apply (Forall_lookup_1 _ _ _ _ (ty_inode s Hs) E).
Qed.
Lemma file_of_typed s i : typed s -> file_typed (file_of s i).
Proof.
  intros Hs. unfold file_of. destruct (ftable s !! i) as [b|] eqn:E; cbn.
  - by apply (Forall_lookup_1 _ _ _ _ (ty_file s Hs) E).
  - by split; cbn.
Qed.

Lemma keep_bset i f : (forall b, buf_typed b -> buf_typed (f b)) -> keep (bset i f).
Proof. intros Hf. apply keeps_modify; [|done]. intros s Hs. by apply typed_upd_buf. Qed.
Lemma keep_iset i f : (forall b, inode_typed b -> inode_typed (f b)) -> keep (iset i f).
Proof. intros Hf. apply keeps_modify; [|done]. intros s Hs. by apply typed_upd_inode. Qed.
Lemma keep_fset i f : (forall b, file_typed b -> file_typed (f b)) -> keep (fset i f).
Proof. intros Hf. apply keeps_modify; [|done]. intros s Hs. by apply typed_upd_file. Qed.
Lemma keep_lset f : (forall l, log_typed l -> log_typed (f l)) -> keep (lset f).
Proof.
  intros Hf. apply keeps_modify; [|done]. intros s Hs. apply typed_upd_log; [done|]. apply Hf, ty_log, Hs.
Qed.

Lemma buf_typed_data f b :
  (length (b_data b) = Z.to_nat BSIZE -> length (b_data (f b)) = Z.to_nat BSIZE) ->
  b_prev (f b) = b_prev b -> b_next (f b) = b_next b -> buf_typed b -> buf_typed (f b).
Proof. intros Hd Hp Hn []. split; rewrite ?Hp, ?Hn; auto. Qed.

Ltac bt_auto := match goal with H : buf_typed _ |- buf_typed _ =>
  destruct H; split; ksimp; unfold bit_mark, bit_unmark;
    rewrite ?length_dip_write, ?length_put_u32, ?length_put_u16, ?length_splice, ?length_insert,
      ?length_replicate; auto using bt_data, buf_of_typed, bt_next, bt_prev; try lia end.
Ltac it_auto := unfold inode_typed in *; ksimp; rewrite ?length_insert, ?length_fmap; auto.
Ltac ft_auto := match goal with H : file_typed _ |- file_typed _ =>
  destruct H; split; ksimp; auto using u32_range; try done; try discriminate end.
#[export] Hint Extern 2 (buf_typed _) => solve [bt_auto] : typed.
#[export] Hint Extern 2 (inode_typed _) => solve [it_auto] : typed.
#[export] Hint Extern 2 (file_typed _) => solve [ft_auto] : typed.
#[export] Hint Extern 2 (log_typed _) => match goal with H : log_typed _ |- _ =>
  solve [destruct H; split; ksimp; rewrite ?length_insert; auto; unfold LOGSIZE, MAXOPBLOCKS; lia] end : typed.
#[export] Hint Resolve keep_bset keep_iset keep_fset keep_lset : typed.

(** ** Sleep locks and buffers *)

Section Bio.
Context {L : Layout} {W : World} {WT : WorldTyped W} {D : DiskDriver} {DT : DiskTyped D}.

Lemma keep_initsleeplock l : keep (initsleeplock l).
Proof. unfold initsleeplock. kauto. Qed.
Lemma keep_acquiresleep_wait n l : keep (acquiresleep_wait n l).
Proof. induction n as [|n IH]; cbn [acquiresleep_wait]; kauto. Qed.
#[local] Hint Resolve keep_initsleeplock keep_acquiresleep_wait : typed.
Lemma keep_acquiresleep l : keep (acquiresleep l).
Proof. unfold acquiresleep. kauto. Qed.
Lemma keep_releasesleep l : keep (releasesleep l).
Proof. unfold releasesleep. kauto. Qed.
Lemma keep_holdingsleep l : keep (holdingsleep l).
Proof. unfold holdingsleep. kauto. Qed.
#[local] Hint Resolve keep_acquiresleep keep_releasesleep keep_holdingsleep : typed.

Lemma keep_binit : keep binit.
Proof. unfold binit, binit_turn. kauto. Qed.

Lemma keep_bget_cached n b dev bno :
  (b <= NBUF)%nat -> keeps (bget_cached n b dev bno) (in_table NBUF).
Proof.
  revert b. induction n as [|n IH]; intros b Hb; cbn [bget_cached]; kauto; cbn; try lia.
  apply IH. by apply bt_next, buf_of_typed.
Qed.
Lemma keep_bget_lru n b : (b <= NBUF)%nat -> keeps (bget_lru n b) (in_table NBUF).
Proof.
  revert b. induction n as [|n IH]; intros b Hb; cbn [bget_lru]; kauto; cbn; try lia.
  apply IH. by apply bt_prev, buf_of_typed.
Qed.
Lemma keep_bget dev bno : keeps (bget dev bno) (fun b => (b < NBUF)%nat).
Proof.
  unfold bget. kstep. kstep. eapply keeps_bind.
  { by apply keep_bget_cached, bt_next, buf_of_typed. }
  intros [b|] Hb; [kauto; done|]. kstep. eapply keeps_bind.
  { by apply keep_bget_lru, bt_prev, buf_of_typed. }
  kauto; done.
Qed.
#[local] Hint Resolve keep_bget : typed.

Lemma keep_bread dev bno : keeps (bread dev bno) (fun b => (b < NBUF)%nat).
Proof. unfold bread. kauto; try done. eapply keeps_bind; [apply disk_read_typed; lia|]. kauto. Qed.
Lemma keep_bwrite b : (b < NBUF)%nat -> keep (bwrite b).
Proof. intros Hb. unfold bwrite. kauto. apply disk_write_typed. lia. Qed.
Lemma keep_to_front b : (b < NBUF)%nat -> keep (to_front b).
Proof. intros Hb. unfold to_front. kauto. Qed.
#[local] Hint Resolve keep_to_front : typed.
Lemma keep_brelse b : (b < NBUF)%nat -> keep (brelse b).
Proof. intros Hb. unfold brelse. kauto. Qed.
Lemma keep_bpin b : keep (bpin b).
Proof. unfold bpin. kauto. Qed.
Lemma keep_bunpin b : keep (bunpin b).
Proof. unfold bunpin. kauto. Qed.
End Bio.
#[export] Hint Resolve keep_initsleeplock keep_acquiresleep keep_releasesleep keep_holdingsleep
  keep_binit keep_bread keep_bwrite keep_brelse keep_bpin keep_bunpin : typed.

(** ** The log *)

Section Log.
Context {L : Layout} {W : World} {WT : WorldTyped W} {D : DiskDriver} {DT : DiskTyped D}.

Lemma keep_install_trans r : keep (install_trans r).
Proof. unfold install_trans, install_trans_turn. kauto. Qed.
Lemma keep_write_head : keep write_head.
Proof. unfold write_head. kauto. Qed.
Lemma keep_write_log : keep write_log.
Proof. unfold write_log, write_log_turn. kauto. Qed.
#[local] Hint Resolve keep_install_trans keep_write_head keep_write_log : typed.
(** A header with more entries is the one the model does not follow. *)
Lemma keep_read_head : keep read_head.
Proof.
  unfold read_head. do 3 kstep. destruct (Z.ltb_spec LOGSIZE (hd_n (b_data (buf_of s0 a)))) as [Hlt|Hge]; [kauto|].
  pose proof (s32_range (u32_at (b_data (buf_of s0 a)) 0)) as Hr. fold (hd_n (b_data (buf_of s0 a))) in Hr.
  eapply keeps_bind; [apply keep_lset; intros l []; split; ksimp; [lia|done]|]. kauto.
Qed.
#[local] Hint Resolve keep_read_head : typed.
Lemma keep_initlog dev sb : keep (initlog dev sb).
Proof. unfold initlog, recover_from_log. kauto. Qed.
Lemma keep_commit : keep commit.
Proof. unfold commit. kauto. Qed.
#[local] Hint Resolve keep_commit : typed.
Lemma keep_begin_op : keep begin_op.
Proof.
  unfold begin_op. kstep. induction patience as [|n IH]; cbn [begin_op_wait]; kauto.
Qed.
Lemma keep_end_op : keep end_op.
Proof. unfold end_op. kauto. Qed.

Lemma bpin_log b : leaves (fun s => log s) (bpin b).
Proof.
  unfold bpin. apply leaves_bind; [by apply acquire_leaves|intros _].
  apply leaves_bind; [by apply leaves_modify|intros _]. by apply acquire_leaves.
Qed.

(** The header never gets more than LOGSIZE entries. *)
Lemma keep_log_write b : keep (log_write b).
Proof.
  unfold log_write. kstep. apply keeps_good. intros s Hs. msimp.
  destruct ((LOGSIZE <=? lh_n (log s)) || _) eqn:G; [exact Hs|].
  destruct (log_outstanding (log s) <? 1); [exact Hs|].
  cbn zeta. msimp. rewrite (bind_ok (lset _) _ s tt _ eq_refl).
  set (i := log_find _ _ _ _). set (s1 := upd_log _ s).
  assert (log_typed (log s1)) as Hl.
  { destruct (ty_log s Hs). unfold s1. split; ksimp; [done|]. by rewrite length_insert. }
  assert (typed s1) as Hs1 by by apply typed_upd_log.
  assert (-2147483648 <= lh_n (log s1) < LOGSIZE) as Hn.
  { pose proof (lt_n _ Hl). change (lh_n (log s1)) with (lh_n (log s)) in *. lia. }
  assert (fine ((if Z.of_nat i =? lh_n (log s) then
    bpin b ;; lset (fun l => set_lh_n (lh_n l + 1) l) else mret tt) s1)) as Hb.
  { destruct (_ =? _); [|by split].
    apply (good_bind (fun s => log s) _ _ _ _ _ (keep_bpin b) (bpin_log b) Hs1).
    intros _ s2 _ Hs2 E. cbn beta in E. split; [|done]. apply typed_upd_log; [done|]. rewrite E.
    destruct Hl. split; ksimp; [lia|done]. }
  apply (good_then _ _ _ _ _ Hb). intros _ s2 _ Hs2. by apply keep_release.
Qed.
End Log.
#[export] Hint Resolve keep_initlog keep_begin_op keep_end_op keep_log_write : typed.

(** ** The file system *)

Section Fs.
Context {L : Layout} {W : World} {WT : WorldTyped W} {D : DiskDriver} {DT : DiskTyped D}.
Context {Ser : Serial} {SerT : SerialTyped Ser}.

Lemma keep_fsinit dev : keep (fsinit dev).
Proof. unfold fsinit, readsb. kauto. Qed.
Lemma keep_bzero dev b : keep (bzero dev b).
Proof. unfold bzero. kauto. Qed.
#[local] Hint Resolve keep_bzero : typed.
Lemma keep_balloc dev : keep (balloc dev).
Proof.
  unfold balloc. kstep. generalize (Z.to_nat (sb_size (sblk s) / BPB + 1)) 0. intros n.
  induction n as [|n IH]; intros b; cbn [balloc_loop]; kauto.
Qed.
Lemma keep_bfree dev b : keep (bfree dev b).
Proof. unfold bfree. cbn zeta. kauto. Qed.
#[local] Hint Resolve keep_balloc keep_bfree : typed.

Lemma keep_iinit : keep iinit.
Proof. unfold iinit. kauto. Qed.

Lemma keep_iget_scan n i e dev inum : (i + n <= NINODE)%nat -> in_table NINODE e ->
  keeps (iget_scan n i e dev inum)
    (fun r => match r with inl j => (j < NINODE)%nat | inr o => in_table NINODE o end).
Proof.
  revert i e. induction n as [|n IH]; intros i e Hi He; cbn [iget_scan]; [by apply keeps_ret|].
  kstep. case_match; [apply keeps_ret; lia|]. apply IH; [lia|].
  destruct e; [done|]. case_match; cbn; [lia|done].
Qed.
Lemma keep_iget dev inum : keeps (iget dev inum) (fun i => (i < NINODE)%nat).
Proof.
  unfold iget. kstep. eapply keeps_bind; [by apply keep_iget_scan|]. kauto; done.
Qed.
#[local] Hint Resolve keep_iget : typed.

Lemma keep_ialloc dev type : keeps (ialloc dev type) (in_table NINODE).
Proof.
  unfold ialloc. kstep. generalize (Z.to_nat (sb_ninodes (sblk s) - 1)). intros n. generalize 1.
  induction n as [|n IH]; intros i; cbn [ialloc_loop]; cbn zeta; kauto; done.
Qed.
Lemma keep_iupdate i : keep (iupdate i).
Proof. unfold iupdate. kauto. Qed.
Lemma keep_idup i : (i < NINODE)%nat -> keeps (idup i) (fun i => (i < NINODE)%nat).
Proof. intros Hi. unfold idup. kauto; done. Qed.
#[local] Hint Resolve keep_iupdate keep_idup : typed.
Lemma keep_ilock i : keep (ilock i).
Proof. unfold ilock. kauto. Qed.
Lemma keep_iunlock i : keep (iunlock i).
Proof. unfold iunlock. kauto. Qed.
#[local] Hint Resolve keep_ilock keep_iunlock : typed.

Lemma keep_bmap i bn : keep (bmap i bn).
Proof. unfold bmap. cbn zeta. kauto. Qed.
Lemma keep_itrunc i : keep (itrunc i).
Proof. unfold itrunc. cbn zeta. kauto. Qed.
#[local] Hint Resolve keep_bmap keep_itrunc : typed.
Lemma keep_iput i : keep (iput i).
Proof. unfold iput. kauto. Qed.
#[local] Hint Resolve keep_iput : typed.
Lemma keep_iunlockput i : keep (iunlockput i).
Proof. unfold iunlockput. kauto. Qed.
Lemma keep_stati i : keep (stati i).
Proof. unfold stati. kauto. Qed.
#[local] Hint Resolve keep_iunlockput : typed.

Lemma keep_readi i u dst off n : keep (readi i u dst off n).
Proof.
  unfold readi. kstep. destruct (_ || _); [by apply keeps_ret|]. cbn zeta.
  match goal with |- keeps (readi_loop (Z.to_nat (?n / _ + 2)) _ _ _ _ _ _) _ => generalize n end.
  intros m. generalize (Z.to_nat (m / BSIZE + 2)) 0. intros k. revert dst off.
  induction k as [|k IH]; intros dst off t; cbn [readi_loop]; cbn zeta; kauto.
Qed.
Lemma keep_writei_loop k i u src off n t : keep (writei_loop k i u src off n t).
Proof.
  revert src off t. induction k as [|k IH]; intros src off t; cbn [writei_loop]; cbn zeta; kauto.
Qed.
#[local] Hint Resolve keep_readi keep_writei_loop : typed.
Lemma keep_writei i u src off n : keep (writei i u src off n).
Proof. unfold writei. kauto. Qed.
#[local] Hint Resolve keep_writei : typed.

Lemma keep_dirlookup dp name :
  keeps (dirlookup dp name) (fun r => in_table NINODE (fst <$> r)).
Proof.
  unfold dirlookup. kstep. case_match; [apply keeps_panic|].
  generalize (Z.to_nat (i_size (ip_of s dp) / DIRENT + 1)) 0. intros n.
  induction n as [|n IH]; intros off; cbn [dirlookup_loop]; unfold de_inum, de_name; kauto; done.
Qed.
Lemma keep_dirlink_find n dp off : keep (dirlink_find n dp off).
Proof.
  revert off. induction n as [|n IH]; intros off; cbn [dirlink_find]; unfold de_inum; kauto.
Qed.
#[local] Hint Resolve keep_dirlookup keep_dirlink_find : typed.
Lemma keep_dirlink dp name inum : keep (dirlink dp name inum).
Proof. unfold dirlink, de_name. kauto. Qed.

Lemma keep_namex_loop n ip path par name : (ip < NINODE)%nat ->
  keeps (namex_loop n ip path par name) (fun r => in_table NINODE r.1).
Proof.
  revert ip path name. induction n as [|n IH]; intros ip path name Hip; cbn [namex_loop]; kauto;
    done.
Qed.
Lemma keep_namex path par name : keeps (namex path par name) (fun r => in_table NINODE r.1).
Proof.
  unfold namex. eapply keeps_bind with (P := fun i => (i < NINODE)%nat).
  - destruct (_ =? 47); [kauto|]. kstep. kstep.
    pose proof (pt_cwd _ (proc_of_typed _ a H0)) as Hc.
    destruct (p_cwd _) as [c|]; [|apply keeps_panic]. by apply keep_idup.
  - intros i Hi. by apply keep_namex_loop.
Qed.
#[local] Hint Resolve keep_namex : typed.
Lemma keep_namei path : keeps (namei path) (in_table NINODE).
Proof. unfold namei. kauto. Qed.
Lemma keep_nameiparent path name : keeps (nameiparent path name) (fun r => in_table NINODE r.1).
Proof. apply keep_namex. Qed.
End Fs.
#[export] Hint Resolve keep_fsinit keep_iinit keep_ialloc keep_iupdate keep_idup keep_ilock keep_iunlock
  keep_itrunc keep_iput keep_iunlockput keep_stati keep_readi keep_writei keep_dirlookup
  keep_dirlink keep_namei keep_nameiparent : typed.

(** ** Console input *)

Lemma cons_take c :
  cons_typed c -> cons_r c <> cons_w c -> cons_typed (set_cons_r (u32 (cons_r c + 1)) c).
Proof.
  intros [Hb Hr Hw He Ho] Hne. split; ksimp; auto using u32_range.
  unfold is_u32, u32, INPUT_BUF_SIZE in *. Z.div_mod_to_equations. lia.
Qed.
Lemma cons_erase c :
  cons_typed c -> cons_e c <> cons_w c -> cons_typed (set_cons_e (u32 (cons_e c - 1)) c).
Proof.
  intros [Hb Hr Hw He Ho] Hne. split; ksimp; auto using u32_range.
  unfold is_u32, u32, INPUT_BUF_SIZE in *. Z.div_mod_to_equations. lia.
Qed.
Lemma cons_type c v :
  cons_typed c -> u32 (cons_e c - cons_r c) < INPUT_BUF_SIZE ->
  cons_typed (set_cons_e (u32 (cons_e c + 1)) (cons_put c (cons_e c) v)).
Proof.
  intros [Hb Hr Hw He Ho] Hlt. unfold cons_put. split; ksimp; rewrite ?length_insert; auto using u32_range.
  unfold is_u32, u32, INPUT_BUF_SIZE in *. Z.div_mod_to_equations. lia.
Qed.
Lemma cons_enter c : cons_typed c -> cons_typed (set_cons_w (cons_e c) c).
Proof. intros [Hb Hr Hw He Ho]. split; ksimp; auto. lia. Qed.
Lemma cons_untake c :
  is_u32 (cons_r c) -> set_cons_r (u32 (u32 (cons_r c + 1) - 1)) (set_cons_r (u32 (cons_r c + 1)) c) = c.
Proof.
  intros Hr. rewrite u32_sub_l. replace (cons_r c + 1 - 1) with (cons_r c) by lia.
  rewrite u32_small by done. by destruct c.
Qed.

Lemma bind_cset {B} f (k : unit -> K B) s : (cset f ≫= k) s = k tt (set_kcons (f (kcons s)) s).
Proof. reflexivity. Qed.

Section Console.
Context {L : Layout} {W : World} {WT : WorldTyped W} {Ser : Serial} {SerT : SerialTyped Ser}.

Lemma good_putc c s : typed s -> good (fun _ s' => kcons s' = kcons s) (consputc c s).
Proof. apply keepc_consputc. Qed.

Lemma keep_consolewrite u src n : keep (consolewrite u src n).
Proof.
  unfold consolewrite. generalize (Z.to_nat n) 0. intros k.
  induction k as [|k IH]; intros i; cbn [consolewrite_loop]; kauto.
Qed.

(** When the wait succeeds there is a character to take. *)
Lemma consoleread_wait_good n s : typed s ->
  good (fun b s' => b = true -> cons_r (kcons s') <> cons_w (kcons s')) (consoleread_wait n s).
Proof.
  revert s. induction n as [|n IH]; intros s Hs; cbn [consoleread_wait]; msimp;
    (destruct (Z.eqb_spec (cons_r (kcons s)) (cons_w (kcons s))) as [E|E]; [|done]);
    (eapply good_step; [kleaf|done|intros i s1 _ H1]); (eapply good_step; [kleaf|done|intros k s2 _ H2]);
    (destruct (negb (k =? 0)); [eapply good_step; [kleaf|done|intros _ s3 _ H3]; done|]); [done|].
  eapply good_step; [kleaf|done|intros _ s3 _ H3]. by apply IH.
Qed.

Lemma keep_consoleread_loop n u dst t : keep (consoleread_loop n u dst t).
Proof.
  revert dst. induction n as [|n IH]; intros dst; cbn [consoleread_loop]; [by apply keeps_ret|].
  apply keeps_good. intros s Hs. eapply good_then; [by apply consoleread_wait_good|].
  intros b s1 Hne H1. destruct b; cbn [negb]; [|done]. specialize (Hne eq_refl). msimp.
  pose proof (ty_cons s1 H1) as Hc.
  set (s2 := set_kcons (set_cons_r (u32 (cons_r (kcons s1) + 1)) (kcons s1)) s1).
  assert (typed s2) as H2 by (apply typed_set_kcons; [done|]; by apply cons_take).
  rewrite bind_cset. fold s2. destruct (_ =? CTRL_D).
  - destruct (_ <? t); [|done]. rewrite bind_cset. unfold s2. ksimp. rewrite cons_untake by apply Hc.
    by destruct s1.
  - eapply good_step; [kleaf|done|]. intros r s3 _ H3. destruct (r =? -1); [done|].
    destruct (_ =? 10); [done|]. by apply IH.
Qed.
Lemma keep_consoleread u dst n : keep (consoleread u dst n).
Proof. unfold consoleread. kstep. eapply keeps_bind; [apply keep_consoleread_loop|]. kauto. Qed.

Lemma keep_kill_line n : keep (kill_line n).
Proof.
  induction n as [|n IH]; apply keeps_good; intros s Hs; cbn [kill_line]; msimp;
    (destruct ((cons_e (kcons s) =? cons_w (kcons s)) || _) eqn:E; [done|]); [done|].
  set (s1 := set_kcons (set_cons_e (u32 (cons_e (kcons s) - 1)) (kcons s)) s).
  rewrite bind_cset. fold s1.
  assert (typed s1) as H1.
  { apply typed_set_kcons; [done|]. apply cons_erase; [by apply ty_cons|lia]. }
  eapply good_step; [kleaf|done|]. intros _ s2 _ H2. by apply IH.
Qed.

Lemma keep_consoleintr c : keep (consoleintr c).
Proof.
  unfold consoleintr. kstep. kstep; [|kauto].
  destruct (c =? CTRL_P); [kauto|]. destruct (c =? CTRL_U); [apply keep_kill_line|].
  apply keeps_good. intros s Hs. pose proof (ty_cons s Hs) as Hc. destruct (_ || _); msimp.
  - destruct (Z.eqb_spec (cons_e (kcons s)) (cons_w (kcons s))) as [E|E]; [done|]. cbn [negb].
    set (s1 := set_kcons (set_cons_e (u32 (cons_e (kcons s) - 1)) (kcons s)) s).
    rewrite bind_cset. fold s1. apply keep_consputc.
    apply typed_set_kcons; [done|]. by apply cons_erase.
  - destruct (negb (c =? 0) && _) eqn:E; [|done]. apply andb_prop in E as [_ E].
    cbn zeta. set (c' := if c =? 13 then 10 else c). clearbody c'.
    eapply good_then; [apply good_putc, Hs|]. intros u s1 E1 H1. cbn beta in E1. rewrite <- E1 in E, Hc.
    set (s2 := set_kcons (set_cons_e (u32 (cons_e (kcons s1) + 1))
      (cons_put (kcons s1) (cons_e (kcons s1)) c')) s1).
    assert (typed s2) as H2 by (apply typed_set_kcons; [done|]; apply cons_type; [done|lia]).
    rewrite bind_cset. fold s2. msimp. destruct (_ || _); [|done].
    set (s3 := set_kcons (set_cons_w (cons_e (kcons s2)) (kcons s2)) s2).
    rewrite bind_cset. fold s3. apply keep_wakeup.
    apply typed_set_kcons; [done|]. by apply cons_enter, ty_cons.
Qed.
Lemma keep_consoleinit : keep consoleinit.
Proof. unfold consoleinit. kauto. Qed.
End Console.
#[export] Hint Resolve keep_consolewrite keep_consoleread keep_consoleintr keep_consoleinit : typed.
