(* ===== verification/TypedSys.v ===== *)
(** * Well-formed kernel states: files, processes, system calls, traps, boot

    Every trap, whatever the system call or the interrupt, and the boot
    sequence preserve [typed], on every board whose drivers do. *)
From S2P Require Import Prelude Memory Machine Platform Sv32 Spinlock Printf Kalloc Vm Proc Sleeplock Bio Log Fs Console File Life Exec Syscall Trap Kvm Typed TypedFs.
From stdpp Require Import gmap strings countable prelude.

Open Scope Z_scope.

Section Files.
Context {L : Layout} {W : World} {WT : WorldTyped W} {D : DiskDriver} {DT : DiskTyped D}.
Context {Ser : Serial} {SerT : SerialTyped Ser}.

(** ** Pipes and files *)

Lemma keep_pi_set pi off v : keep (pi_set pi off v).
Proof. unfold pi_set. kauto. Qed.
Lemma keep_pi_get pi off : keep (pi_get pi off).
Proof. unfold pi_get. kauto. Qed.
#[local] Hint Resolve keep_pi_set keep_pi_get : typed.

Lemma keep_pipeclose pi w : keep (pipeclose pi w).
Proof. unfold pipeclose. kauto. Qed.
Lemma keep_pipewrite_loop k pr pi addr n i : keep (pipewrite_loop k pr pi addr n i).
Proof. revert i. induction k as [|k IH]; intros i; cbn [pipewrite_loop]; kauto. Qed.
Lemma keep_piperead_wait k pr pi : keep (piperead_wait k pr pi).
Proof. induction k as [|k IH]; cbn [piperead_wait]; kauto. Qed.
Lemma keep_piperead_loop k pr pi addr i : keep (piperead_loop k pr pi addr i).
Proof. revert i. induction k as [|k IH]; intros i; cbn [piperead_loop]; kauto. Qed.
#[local] Hint Resolve keep_pipeclose keep_pipewrite_loop keep_piperead_wait keep_piperead_loop : typed.
Lemma keep_pipewrite pi addr n : keep (pipewrite pi addr n).
Proof. unfold pipewrite. kauto. Qed.
Lemma keep_piperead pi addr n : keep (piperead pi addr n).
Proof. unfold piperead. kauto. Qed.
#[local] Hint Resolve keep_pipewrite keep_piperead : typed.

Lemma keep_filealloc : keeps filealloc (in_table NFILE).
Proof.
  unfold filealloc. kstep.
  assert (forall n i, (i + n <= NFILE)%nat -> keeps (filealloc_loop n i) (in_table NFILE)) as H'.
  { induction n as [|n IH]; intros i Hi; cbn [filealloc_loop].
    - eapply keeps_bind; [kleaf|]. intros _ _. by apply keeps_ret.
    - kstep. kstep; [|apply IH; lia]. do 2 (eapply keeps_bind; [kleaf|]; intros _ _).
      apply keeps_ret. cbn. lia. }
  by apply H'.
Qed.
Lemma keep_filedup f : (f < NFILE)%nat -> keeps (filedup f) (fun f => (f < NFILE)%nat).
Proof. intros Hf. unfold filedup. kauto; done. Qed.
Lemma keep_the_inode p : in_table NINODE p -> keeps (the_inode p) (fun i => (i < NINODE)%nat).
Proof. intros Hp. unfold the_inode. destruct p; kauto; done. Qed.
Lemma f_ip_typed s f : typed s -> in_table NINODE (f_ip (file_of s f)).
Proof. intros Hs. by apply ft_ip, file_of_typed. Qed.
#[local] Hint Resolve keep_filealloc keep_filedup keep_the_inode f_ip_typed : typed.
Lemma keep_fileclose f : keep (fileclose f).
Proof. unfold fileclose. kauto. Qed.
Lemma keep_filestat f addr : keep (filestat f addr).
Proof. unfold filestat. kauto. Qed.
Lemma keep_fileread f addr n : keep (fileread f addr n).
Proof. unfold fileread, dev_read. kauto. Qed.
Lemma keep_filewrite_loop k f addr n i : keep (filewrite_loop k f addr n i).
Proof. revert i. induction k as [|k IH]; intros i; cbn [filewrite_loop]; cbn zeta; kauto. Qed.
#[local] Hint Resolve keep_fileclose keep_filewrite_loop : typed.
Lemma keep_filewrite f addr n : keep (filewrite f addr n).
Proof. unfold filewrite, dev_write. kauto. Qed.
Lemma keep_pipealloc : keeps pipealloc (fun r => match r with
  | Some (f0, f1) => (f0 < NFILE)%nat /\ (f1 < NFILE)%nat | None => True end).
Proof. unfold pipealloc, pipealloc_bad. kauto; done. Qed.
End Files.
#[export] Hint Resolve keep_the_inode f_ip_typed keep_pi_set keep_pi_get keep_filealloc keep_filedup
  keep_fileclose keep_filestat keep_fileread keep_filewrite keep_pipealloc : typed.

(** ** Processes *)

Section Life.
Context {L : Layout} {W : World} {WT : WorldTyped W} {D : DiskDriver} {DT : DiskTyped D}.
Context {Ser : Serial} {SerT : SerialTyped Ser}.

Lemma ofile_typed s p fd f :
  p_ofile (proc_of s p) !! fd = Some (Some f) -> typed s -> (f < NFILE)%nat.
Proof. intros Hf Hs. by apply (Forall_lookup_1 _ _ _ _ (pt_files _ (proc_of_typed s p Hs)) Hf). Qed.
Lemma cwd_typed s p : typed s -> in_table NINODE (p_cwd (proc_of s p)).
Proof. intros Hs. by apply pt_cwd, proc_of_typed. Qed.
#[local] Hint Resolve ofile_typed cwd_typed : typed.

Lemma keep_userinit : keep userinit.
Proof. unfold userinit. kauto. Qed.
Lemma keep_fork : keep fork.
Proof. unfold fork. kauto. Qed.
Lemma keep_wakeup_proc p : keep (wakeup_proc p).
Proof. apply keep_wakeup_on. Qed.
#[local] Hint Resolve keep_wakeup_proc : typed.
Lemma keep_reparent p : keep (reparent p).
Proof. unfold reparent. kauto. Qed.
#[local] Hint Resolve keep_reparent : typed.
Lemma keep_exit n : keep (exit n).
Proof. unfold exit. kauto. Qed.
Lemma keep_wait_scan n pp p addr h : keep (wait_scan n pp p addr h).
Proof. revert pp h. induction n as [|n IH]; intros pp h; cbn [wait_scan]; kauto. Qed.
#[local] Hint Resolve keep_wait_scan : typed.
Lemma keep_wait addr : keep (wait addr).
Proof.
  unfold wait. kstep. kstep. induction patience as [|n IH]; cbn [wait_loop]; kauto.
Qed.
Lemma keep_usertrapret : keep usertrapret.
Proof. unfold usertrapret, intr_off. kauto. Qed.

(** ** exec *)

Lemma keep_loadseg pt va ip off sz : keep (loadseg pt va ip off sz).
Proof.
  unfold loadseg. generalize (Z.to_nat (sz / PGSIZE + 1)) 0. intros n.
  induction n as [|n IH]; intros i; cbn [loadseg_loop]; cbn zeta; kauto.
Qed.
#[local] Hint Resolve keep_loadseg : typed.
Lemma keep_exec_segments n pt ip off sz : keep (exec_segments n pt ip off sz).
Proof.
  revert off sz. induction n as [|n IH]; intros off sz; cbn [exec_segments];
    unfold exec_segment, ph_field; kauto.
Qed.
Lemma keep_exec_args argv pt sp base argc us : keep (exec_args argv pt sp base argc us).
Proof.
  revert sp argc us. induction argv as [|a argv IH]; intros sp argc us; cbn [exec_args]; cbn zeta; kauto.
Qed.
Lemma keep_exec_bad pt sz ip : keep (exec_bad pt sz ip).
Proof. unfold exec_bad. kauto. Qed.
#[local] Hint Resolve keep_exec_segments keep_exec_args keep_exec_bad : typed.
Lemma keep_exec_stack path argv pt sz entry : keep (exec_stack path argv pt sz entry).
Proof. unfold exec_stack. cbn zeta. kauto. Qed.
#[local] Hint Resolve keep_exec_stack : typed.
Lemma keep_exec path argv : keep (exec path argv).
Proof. unfold exec, elf_field, elf_phnum. kauto. Qed.
End Life.
#[export] Hint Resolve ofile_typed cwd_typed keep_userinit keep_fork keep_exit
  keep_wait keep_usertrapret keep_exec : typed.

(** ** System calls *)

Section Calls.
Context {L : Layout} {W : World} {WT : WorldTyped W} {D : DiskDriver} {DT : DiskTyped D}.
Context {Ser : Serial} {SerT : SerialTyped Ser}.

Lemma keep_fetchaddr a : keep (fetchaddr a).
Proof. unfold fetchaddr. kauto. Qed.
Lemma keep_fetchstr a n : keep (fetchstr a n).
Proof. unfold fetchstr. kauto. Qed.
Lemma keep_argraw n : keep (argraw n).
Proof. unfold argraw. kauto. Qed.
#[local] Hint Resolve keep_fetchaddr keep_fetchstr keep_argraw : typed.
Lemma keep_argint n : keep (argint n).
Proof. unfold argint. kauto. Qed.
Lemma keep_argaddr n : keep (argaddr n).
Proof. apply keep_argraw. Qed.
#[local] Hint Resolve keep_argint keep_argaddr : typed.
Lemma keep_argstr n m : keep (argstr n m).
Proof. unfold argstr. kauto. Qed.
#[local] Hint Resolve keep_argstr : typed.
Lemma keep_argfd n : keeps (argfd n) (fun r => in_table NFILE (snd <$> r)).
Proof. unfold argfd. kauto; try done. cbn. eauto with typed. Qed.
Lemma keep_fdalloc f : (f < NFILE)%nat -> keep (fdalloc f).
Proof.
  intros Hf. unfold fdalloc. kstep. generalize NOFILE 0%nat. intros n.
  induction n as [|n IH]; intros i; cbn [fdalloc_loop]; kauto.
Qed.
#[local] Hint Resolve keep_argfd keep_fdalloc : typed.

Lemma keep_sys_exit : keep sys_exit.
Proof. unfold sys_exit. kauto. Qed.
Lemma keep_sys_getpid : keep sys_getpid.
Proof. unfold sys_getpid. kauto. Qed.
Lemma keep_sys_wait : keep sys_wait.
Proof. unfold sys_wait. kauto. Qed.
Lemma keep_sys_sbrk : keep sys_sbrk.
Proof. unfold sys_sbrk. kauto. Qed.
Lemma keep_sys_sleep : keep sys_sleep.
Proof.
  unfold sys_sleep. kstep. kstep. kstep. induction patience as [|n IH]; cbn [sys_sleep_loop]; kauto.
Qed.
Lemma keep_sys_kill : keep sys_kill.
Proof. unfold sys_kill. kauto. Qed.
Lemma keep_sys_uptime : keep sys_uptime.
Proof. unfold sys_uptime. kauto. Qed.

Lemma keep_sys_dup : keep sys_dup.
Proof. unfold sys_dup. kauto. Qed.
Lemma keep_sys_read : keep sys_read.
Proof. unfold sys_read. kauto. Qed.
Lemma keep_sys_write : keep sys_write.
Proof. unfold sys_write. kauto. Qed.
Lemma keep_ofile_clear p fd : keep (ofile_clear p fd).
Proof. unfold ofile_clear. kauto. Qed.
#[local] Hint Resolve keep_ofile_clear : typed.
Lemma keep_sys_close : keep sys_close.
Proof. unfold sys_close. kauto. Qed.
Lemma keep_sys_fstat : keep sys_fstat.
Proof. unfold sys_fstat. kauto. Qed.
Lemma keep_sys_link : keep sys_link.
Proof. unfold sys_link, sys_link_bad. kauto. Qed.
Lemma keep_isdirempty dp : keep (isdirempty dp).
Proof.
  unfold isdirempty. kstep. generalize (Z.to_nat (i_size (ip_of s dp) / DIRENT + 1)) (2 * DIRENT).
  intros n. induction n as [|n IH]; intros off; cbn [isdirempty_loop]; unfold de_inum; kauto.
Qed.
#[local] Hint Resolve keep_isdirempty : typed.
Lemma keep_sys_unlink : keep sys_unlink.
Proof. unfold sys_unlink, sys_unlink_bad. kauto. Qed.
Lemma keep_create path t ma mi : keeps (create path t ma mi) (in_table NINODE).
Proof. unfold create, create_fail. kauto; done. Qed.
#[local] Hint Resolve keep_create : typed.

(** The assignments of [sys_open] to the new file: its type and the members
    that go with it. *)
Lemma bind_fset {B} i f (k : unit -> K B) s : (fset i f ≫= k) s = k tt (upd_file i f s).
Proof. reflexivity. Qed.
Lemma upd_file_twice i f g s : upd_file i g (upd_file i f s) = upd_file i (fun x => g (f x)) s.
Proof. unfold upd_file. ksimp. by rewrite list_alter_alter_eq. Qed.
Lemma typed_open_device f ip major s :
  typed s -> (ip < NINODE)%nat -> 0 <= major < NDEV ->
  typed (upd_file f (set_f_ip (Some ip)) (upd_file f (set_f_major major) (upd_file f (set_f_type FD_DEVICE) s))).
Proof.
  intros Hs Hip Hm. rewrite !upd_file_twice. apply typed_upd_file; [done|]. intros x []. by split.
Qed.
Lemma typed_open_inode f ip s :
  typed s -> (ip < NINODE)%nat ->
  typed (upd_file f (set_f_ip (Some ip)) (upd_file f (set_f_off 0) (upd_file f (set_f_type FD_INODE) s))).
Proof.
  intros Hs Hip. rewrite !upd_file_twice. apply typed_upd_file; [done|]. intros x []. by split.
Qed.

Lemma keep_sys_open_inode ip omode : (ip < NINODE)%nat -> keep (sys_open_inode ip omode).
Proof.
  intros Hip. unfold sys_open_inode. kstep. kstep; [kauto|]. apply andb_false_iff in Heqb.
  eapply keeps_bind; [kleaf|]. intros [f|] Hf; [|kauto].
  eapply keeps_bind; [by apply keep_fdalloc|]. intros a _.
  destruct (a <? 0); [kauto|]. apply keeps_good. intros s1 Hs1.
  match goal with |- good _ ((_ ≫= (fun _ => _ ≫= ?k)) _) => assert (keep (k tt)) as Hk by kauto end.
  destruct (i_type (ip_of s ip) =? T_DEVICE) eqn:E; msimp; rewrite !bind_fset; apply Hk.
  - apply typed_open_device; [done..|]. destruct Heqb as [|Hm]; [congruence|lia].
  - by apply typed_open_inode.
Qed.
#[local] Hint Resolve keep_sys_open_inode : typed.
Lemma keep_sys_open : keep sys_open.
Proof. unfold sys_open. kauto. Qed.
Lemma keep_sys_mkdir : keep sys_mkdir.
Proof. unfold sys_mkdir. kauto. Qed.
Lemma keep_sys_mknod : keep sys_mknod.
Proof. unfold sys_mknod. kauto. Qed.
Lemma keep_sys_chdir : keep sys_chdir.
Proof.
  unfold sys_chdir. do 3 kstep. eapply keeps_bind with (P := in_table NINODE); [|kauto].
  destruct (_ <? 0); [by apply keeps_ret|]. kauto.
Qed.
Lemma keep_free_argv argv : keep (free_argv argv).
Proof. induction argv as [|a argv IH]; cbn [free_argv]; kauto. Qed.
Lemma keep_fetch_argv n u argv : keep (fetch_argv n u argv).
Proof. revert argv. induction n as [|n IH]; intros argv; cbn [fetch_argv]; kauto. Qed.
#[local] Hint Resolve keep_free_argv keep_fetch_argv : typed.
Lemma keep_sys_exec : keep sys_exec.
Proof. unfold sys_exec. kauto. Qed.
Lemma keep_sys_pipe : keep sys_pipe.
Proof.
  unfold sys_pipe. do 3 kstep. kstep; [|kauto]. destruct p as [rf wf]. destruct H1 as [H1 H2]. kauto.
Qed.
#[local] Hint Resolve keep_sys_exit keep_sys_getpid keep_sys_wait keep_sys_sbrk keep_sys_sleep
  keep_sys_kill keep_sys_uptime keep_sys_dup keep_sys_read keep_sys_write keep_sys_close
  keep_sys_fstat keep_sys_link keep_sys_unlink keep_sys_open keep_sys_mkdir keep_sys_mknod
  keep_sys_chdir keep_sys_exec keep_sys_pipe : typed.

Lemma keep_syscalls num f : syscalls num = Some f -> keep f.
Proof.
  unfold syscalls. intros H. repeat case_match; simplify_eq; eauto 2 with typed.
  apply keep_fork.
Qed.
#[local] Hint Resolve keep_syscalls : typed.
Lemma keep_syscall : keep syscall.
Proof.
  unfold syscall. cbn zeta. kstep. kstep. destruct ((0 <? _) && _); [|kauto].
  destruct (syscalls _) as [f|] eqn:E; kauto.
Qed.
End Calls.
#[export] Hint Resolve keep_syscall : typed.

(** ** Traps and boot *)

Section Trap.
Context {L : Layout} {W : World} {WT : WorldTyped W} {D : DiskDriver} {DT : DiskTyped D}.
Context {Ser : Serial} {SerT : SerialTyped Ser} {I : IrqChip} {IT : IrqTyped I}.

Lemma keep_clockintr : keep clockintr.
Proof. unfold clockintr. kauto. Qed.
#[local] Hint Resolve keep_clockintr : typed.
Lemma keep_devintr : keep devintr.
Proof. unfold devintr, cpuid. kauto. Qed.
#[local] Hint Resolve keep_devintr : typed.
Lemma keep_w_stvec v : keep (w_stvec v).
Proof. unfold w_stvec. kauto. Qed.
#[local] Hint Resolve keep_w_stvec : typed.
Lemma keep_intr_on : keep intr_on.
Proof. unfold intr_on. kauto. Qed.
#[local] Hint Resolve keep_intr_on : typed.
Lemma keep_usertrap : keep usertrap.
Proof. unfold usertrap. kauto. Qed.
Lemma keep_kerneltrap : keep kerneltrap.
Proof. unfold kerneltrap, intr_get. kauto. Qed.

#[local] Hint Resolve keep_usertrap keep_kerneltrap : typed.
Lemma keep_main {B : BoardMap} {BT : BoardTyped B} : keep main.
Proof.
  unfold main, cpuid, say, kvminit, kvmmake, kvminithart, trapinit, trapinithart, fileinit. kauto.
Qed.

(** ** Runs of the system *)

(** [forkret] initialises the file system when it runs first. *)
Lemma keep_forkret : keep forkret.
Proof. unfold forkret. kauto. Qed.

(** The states between the steps of a run that starts in [s0]: user programs
    change memory and registers, traps and the scheduler run kernel code, and a
    new process starts in [forkret], the first one with the recovery of the
    file system. *)
Inductive kreach (s0 : kstate) : kstate -> Prop :=
| reach_start : kreach s0 s0
| reach_user s m c : kreach s0 s -> kreach s0 (set_mem m (set_csr c s))
| reach_usertrap s v s' : kreach s0 s -> usertrap s = Ok v s' -> kreach s0 s'
| reach_kerneltrap s s' : kreach s0 s -> kerneltrap s = Ok tt s' -> kreach s0 s'
| reach_forkret s v s' : kreach s0 s -> forkret s = Ok v s' -> kreach s0 s'
| reach_pick s i b s' : kreach s0 s -> (i < NPROC)%nat -> scheduler_pick i s = Ok b s' -> kreach s0 s'
| reach_back s i s' : kreach s0 s -> scheduler_back i s = Ok tt s' -> kreach s0 s'.

Lemma keeps_ok {A} (m : K A) Q s a s' : keeps m Q -> typed s -> m s = Ok a s' -> typed s'.
Proof. intros H Hs E. specialize (H s Hs). rewrite E in H. by destruct H. Qed.

Lemma kreach_typed s0 s : typed s0 -> kreach s0 s -> typed s.
Proof.
  intros H0. induction 1 as [|s m c _ IH|s v s' _ IH E|s s' _ IH E|s v s' _ IH E|s i b s' _ IH Hi E|s i s' _ IH E].
  - done.
  - by destruct IH; split.
  - by eapply keeps_ok; [apply keep_usertrap| |exact E].
  - by eapply keeps_ok; [apply keep_kerneltrap| |exact E].
  - by eapply keeps_ok; [apply keep_forkret| |exact E].
  - by eapply keeps_ok; [apply keep_scheduler_pick| |exact E].
  - by eapply keeps_ok; [apply keep_scheduler_back| |exact E].
Qed.

(** The static data of the kernel image. *)
Lemma typed_blank : typed blank.
Proof.
  assert (proc_typed blank_proc) as Hp by (split; cbn; try done; by repeat constructor).
  assert (file_typed blank_file) as Hf by by split.
  assert (buf_typed blank_buf) as Hb by (split; cbn; try done; unfold NBUF; lia).
  split; try done; unfold blank; ksimp; try by apply Forall_replicate.
Qed.

(** [s] is well-formed, and so is the state that a trap taken there or the
    start of a process ends in, also when it panics or never returns. *)
Definition stays_typed (s : kstate) : Prop :=
  typed s /\ typed (final (usertrap s)) /\ typed (final (kerneltrap s)) /\ typed (final (forkret s)).
Lemma kreach_stays s0 s : typed s0 -> kreach s0 s -> stays_typed s.
Proof.
  intros H0 Hr. pose proof (kreach_typed s0 s H0 Hr) as Hs.
  split_and!; [done|eapply keeps_final; [|done]; auto using keep_usertrap, keep_kerneltrap, keep_forkret..].
Qed.
Lemma main_typed {B : BoardMap} {BT : BoardTyped B} m c : typed (final (main (set_mem m (set_csr c blank)))).
Proof. eapply keeps_final; [apply keep_main|]. pose proof typed_blank as H. by destruct H; split. Qed.

End Trap.
