(* ===== verification/TypedBoard.v ===== *)
(** * Well-formed kernel states: the drivers of the two boards

    The NEMU and the QEMU platform layers preserve [typed], whatever their
    devices answer, so that the theorem of TypedSys.v applies to both. *)
From S2P Require Import Prelude Memory Machine Platform Sv32 Spinlock Printf Kalloc Vm Proc Sleeplock Console Trap Kvm Nemu Qemu ProcSpec NemuSpec Typed TypedFs TypedSys.
From stdpp Require Import gmap strings countable prelude.

Open Scope Z_scope.

Section Mmio.
Context {W : World} {WT : WorldTyped W}.

Lemma keep_mmio_load a : keep (mmio_load a).
Proof. intros s Hs. split; [|done]. ty_frame. Qed.
Lemma keep_mmio_store a v : keep (mmio_store a v).
Proof. apply keeps_modify; [|done]. intros s Hs. apply hw_write_typed. ty_frame. Qed.
Lemma keepc_mmio_store a v : keepc (mmio_store a v).
Proof.
  intros s Hs. destruct (keep_mmio_store a v s Hs) as [H _]. split; [exact H|]. by rewrite hw_write_kcons.
Qed.
End Mmio.
#[export] Hint Resolve keep_mmio_load keep_mmio_store : typed.

(** ** NEMU *)

Section NemuBoard.
Context {L : Layout} {W : World} {WT : WorldTyped W}.

#[export] Instance nemu_serial_typed : SerialTyped nemu_serial.
Proof. split; cbn; [apply keeps_ret; done|intros c; apply keep_mmio_store|intros c; apply keepc_mmio_store]. Qed.
#[local] Hint Resolve nemu_serial_typed : typed.

Lemma keep_nemu_disk r v : keep (nemu_disk r v).
Proof. apply keep_mmio_store. Qed.
#[local] Hint Resolve keep_nemu_disk : typed.
#[export] Instance nemu_disk_typed : DiskTyped nemu_disk_driver.
Proof.
  split; cbn; unfold Nemu.platform_disk_init, Nemu.platform_disk_read, Nemu.platform_disk_write; kauto.
Qed.

Lemma keyboard_plat sc d : plat_typed d -> plat_typed (platform_nemu_keyboard_event sc d).2.
Proof.
  intros []. unfold platform_nemu_keyboard_event. cbn zeta. repeat case_match; cbn; by split.
Qed.
Lemma keep_nemu_getc n : keep (getc_loop n).
Proof.
  induction n as [|n IH]; cbn [getc_loop]; [kauto|]. kstep. kstep; [kauto|].
  apply keeps_good. intros s Hs. msimp.
  assert (typed (set_plat (platform_nemu_keyboard_event a (plat s)).2 s)) as H1.
  { apply (typed_upd_plat (fun d => (platform_nemu_keyboard_event a d).2)); [done|].
    apply keyboard_plat. by apply ty_plat. }
  destruct (negb _); [done|]. by apply IH.
Qed.
Lemma keep_nemu_keyboard n : keep (keyboard_intr_loop n).
Proof.
  induction n as [|n IH]; cbn [keyboard_intr_loop]; [kauto|]. unfold Nemu.platform_uart_getc.
  eapply keeps_bind; [apply keep_nemu_getc|]. kauto.
Qed.
#[local] Hint Resolve keep_nemu_keyboard : typed.
#[export] Instance nemu_irq_typed : IrqTyped nemu_irq.
Proof.
  split; cbn; unfold Nemu.platform_irq_init, Nemu.platform_irq_init_hart, Nemu.platform_handle_irq,
    Nemu.platform_irq_claim, Nemu.platform_irq_complete, Nemu.platform_timer_ack,
    platform_nemu_keyboard_intr, cpuid; cbn zeta; kauto.
Qed.
#[export] Instance nemu_board_typed : BoardTyped nemu_board.
Proof. intros pt. change (keep (Nemu.platform_kvmmap pt)). unfold Nemu.platform_kvmmap. kauto. Qed.
End NemuBoard.

(** ** QEMU *)

Section QemuBoard.
Context {L : Layout} {W : World} {WT : WorldTyped W}.

Lemma keep_upd_plat f : (forall d, plat_typed d -> plat_typed (f d)) -> keep (modify (upd_plat f)).
Proof. intros Hf. apply keeps_modify; [|done]. intros s Hs. apply typed_upd_plat; [done|]. by apply Hf, ty_plat. Qed.

Lemma keep_UART_READ r : keep (UART_READ r).
Proof. unfold UART_READ. kauto. Qed.
Lemma keep_UART_WRITE r v : keep (UART_WRITE r v).
Proof. apply keep_mmio_store. Qed.
#[local] Hint Resolve keep_UART_READ keep_UART_WRITE : typed.

(** A byte leaves the ring only when there is one, and enters it only when
    there is room. *)
Lemma ring_take d :
  plat_typed d -> tx_w d <> tx_r d -> plat_typed (set_tx_r (u32 (tx_r d + 1)) d).
Proof.
  intros [] Hne. split; ksimp; auto using u32_range.
  unfold is_u32, u32 in *. Z.div_mod_to_equations. lia.
Qed.
Lemma ring_put d c :
  plat_typed d -> tx_w d <> u32 (tx_r d + TX_SIZE) ->
  plat_typed (set_tx_w (u32 (tx_w d + 1)) (set_tx_buf (<[Z.to_nat (tx_w d mod TX_SIZE) := u8 c]> (tx_buf d)) d)).
Proof.
  intros [] Hne. split; ksimp; rewrite ?length_insert; auto using u32_range.
  unfold is_u32, u32, TX_SIZE in *. Z.div_mod_to_equations. lia.
Qed.

Lemma UART_READ_plat r : leaves (fun s => plat s) (UART_READ r).
Proof. unfold UART_READ, mmio_load. apply leaves_bind; [|intros; apply leaves_ret]. by intros s a s' [= _ <-]. Qed.

Lemma keep_uart_start_loop n : keep (uart_start_loop n).
Proof.
  induction n as [|n IH]; cbn [uart_start_loop]; apply keeps_good; intros s Hs; msimp;
    (destruct (Z.eqb_spec (tx_w (plat s)) (tx_r (plat s))) as [E|E];
       [eapply good_step; [kleaf|done|]; by intros|]);
    (eapply (good_bind (fun s => plat s)); [kleaf|apply UART_READ_plat|done|]);
    intros lsr s1 _ H1 E1; cbn beta in E1; (destruct (_ =? 0); [done|]); msimp;
    rewrite <- E1 in *;
    (assert (typed (upd_plat (set_tx_r (u32 (tx_r (plat s1) + 1))) s1)) as H2
       by (apply typed_upd_plat; [done|]; apply ring_take; [by apply ty_plat|done]));
    (eapply good_step; [kleaf|exact H2|]; intros _ s3 _ H3);
    (eapply good_step; [kleaf|exact H3|]; intros _ s4 _ H4); [done|by apply IH].
Qed.
#[local] Hint Resolve keep_uart_start_loop : typed.
Lemma keep_uart_start : keep platform_qemu_uart_start.
Proof. unfold platform_qemu_uart_start. kauto. Qed.
#[local] Hint Resolve keep_uart_start : typed.

Lemma uart_putc_wait_good n s : typed s ->
  good (fun _ s' => tx_w (plat s') <> u32 (tx_r (plat s') + TX_SIZE)) (uart_putc_wait n s).
Proof.
  revert s. induction n as [|n IH]; intros s Hs; cbn [uart_putc_wait]; msimp;
    (destruct (Z.eqb_spec (tx_w (plat s)) (u32 (tx_r (plat s) + TX_SIZE))) as [E|E]; [|by split]); [done|].
  eapply good_step; [kleaf|done|]. intros _ s1 _ H1. by apply IH.
Qed.
Lemma keep_qemu_putc c : keep (Qemu.platform_uart_putc c).
Proof.
  unfold Qemu.platform_uart_putc. kstep. kstep. kstep; [kauto|]. apply keeps_good. intros s1 H1.
  eapply good_then; [by apply uart_putc_wait_good|]. intros u s2 Hne H2. cbn beta in Hne. msimp.
  eapply good_step; [kleaf| |].
  { apply typed_upd_plat; [done|]. apply ring_put; [by apply ty_plat|done]. }
  intros _ s3 _ H3. by apply keep_release.
Qed.

Lemma keepc_leaves {A} (m : K A) : keep m -> leaves (fun s => kcons s) m -> keepc m.
Proof.
  intros H Hl s Hs. specialize (H s Hs). destruct (m s) as [a s'| |] eqn:E; [|done..].
  destruct H as [H _]. split; [done|]. exact (Hl s a s' E).
Qed.
Lemma uart_idle_wait_keepc n : keepc (uart_idle_wait n).
Proof.
  apply keepc_leaves; induction n as [|n IH]; cbn [uart_idle_wait]; unfold UART_READ; kauto; lv;
    by intros s a s' [= _ <-].
Qed.
Lemma keepc_off : keepc push_off /\ keepc pop_off.
Proof.
  split; apply keepc_leaves; try kleaf; unfold push_off, pop_off, intr_get, intr_on, intr_off; lv.
Qed.

#[export] Instance qemu_serial_typed : SerialTyped qemu_serial.
Proof.
  split; cbn; [unfold Qemu.platform_uart_init; kauto|apply keep_qemu_putc|].
  intros c. unfold Qemu.platform_uart_putc_sync. apply keepc_bind; [apply keepc_off|intros _].
  apply keepc_bind; [by intros s Hs|intros p]. destruct (negb _); [by intros s Hs|].
  apply keepc_bind; [apply uart_idle_wait_keepc|intros _].
  apply keepc_bind; [apply keepc_mmio_store|intros _]. apply keepc_off.
Qed.
#[local] Hint Resolve qemu_serial_typed : typed.

(** *** The disk *)

#[local] Hint Extern 2 (plat_typed _) => match goal with H : plat_typed _ |- _ =>
  solve [destruct H; split; ksimp; rewrite ?length_insert, ?length_replicate; auto;
         apply Z.mod_pos_bound; lia] end : typed.
#[local] Hint Resolve keep_upd_plat : typed.
Ltac kq := repeat first
  [ match goal with
    | |- keeps (modify (upd_plat _) ≫= _) _ =>
        eapply keeps_bind; [apply keep_upd_plat; eauto with typed|intros _ _]
    | |- keeps (modify (upd_plat _)) _ => apply keep_upd_plat; eauto with typed
    end
  | kstep ].

Lemma keep_alloc_desc : keep platform_qemu_alloc_desc.
Proof.
  unfold platform_qemu_alloc_desc. generalize NUM 0%nat. intros n.
  induction n as [|n IH]; intros i; cbn [alloc_desc_loop]; kq.
Qed.
Lemma keep_free_desc i : keep (platform_qemu_free_desc i).
Proof. unfold platform_qemu_free_desc. kq. Qed.
#[local] Hint Resolve keep_alloc_desc keep_free_desc : typed.
Lemma keep_free_chain i : keep (platform_qemu_free_chain i).
Proof.
  unfold platform_qemu_free_chain. generalize NUM. intros n. revert i.
  induction n as [|n IH]; intros i; cbn [free_chain_loop]; kq.
Qed.
Lemma keep_alloc3_wait n : keep (alloc3_wait n).
Proof. induction n as [|n IH]; cbn [alloc3_wait]; unfold platform_qemu_alloc3_desc; kq. Qed.
Lemma keep_done_wait n i : keep (done_wait n i).
Proof. induction n as [|n IH]; cbn [done_wait]; kq. Qed.
Lemma keep_queue_request b i w i0 i1 i2 : keep (queue_request b i w i0 i1 i2).
Proof. unfold queue_request. kq. Qed.
Lemma keep_VIRTIO_READ r : keep (VIRTIO_READ r).
Proof. apply keep_mmio_load. Qed.
Lemma keep_VIRTIO_WRITE r v : keep (VIRTIO_WRITE r v).
Proof. apply keep_mmio_store. Qed.
#[local] Hint Resolve keep_free_chain keep_alloc3_wait keep_done_wait keep_queue_request
  keep_VIRTIO_READ keep_VIRTIO_WRITE : typed.
Lemma keep_qemu_disk_rw b i w : keep (platform_qemu_disk_rw b i w).
Proof. unfold platform_qemu_disk_rw. kq. Qed.

#[export] Instance qemu_disk_typed : DiskTyped qemu_disk_driver.
Proof.
  split; cbn; unfold Qemu.platform_disk_read, Qemu.platform_disk_write; intros;
    try apply keep_qemu_disk_rw. unfold Qemu.platform_disk_init. cbn zeta. kq.
Qed.

Lemma keep_disk_intr_loop n : keep (disk_intr_loop n).
Proof. induction n as [|n IH]; cbn [disk_intr_loop]; kq. Qed.
Lemma keep_uart_intr_loop n : keep (uart_intr_loop n).
Proof. induction n as [|n IH]; cbn [uart_intr_loop]; unfold Qemu.platform_uart_getc; kq. Qed.
#[local] Hint Resolve keep_disk_intr_loop keep_uart_intr_loop : typed.
#[export] Instance qemu_irq_typed : IrqTyped qemu_irq.
Proof.
  split; cbn; unfold Qemu.platform_irq_init, Qemu.platform_irq_init_hart, Qemu.platform_handle_irq,
    Qemu.platform_irq_claim, Qemu.platform_irq_complete, Qemu.platform_timer_ack,
    platform_qemu_uart_intr, platform_qemu_disk_intr, cpuid; kq.
Qed.
#[export] Instance qemu_board_typed : BoardTyped qemu_board.
Proof. intros pt. change (keep (Qemu.platform_kvmmap pt)). unfold Qemu.platform_kvmmap. kauto. Qed.
End QemuBoard.

(** ** The NEMU machine of NemuSpec.v *)

Lemma disk_go_typed s : typed s -> typed (disk_go s).
Proof.
  intros Hs. unfold disk_go. destruct (list_find _ _) as [[i x]|]; [|done].
  destruct (_ =? DISK_CMD_READ).
  - apply typed_upd_buf; [done|]. intros b []. split; ksimp; [done..|].
    unfold disk_block. destruct (disk s !! _) as [d|] eqn:E; cbn [default id]; [|by rewrite length_replicate].
    exact (ty_disk s Hs _ _ E).
  - destruct (bufs s !! i) as [bf|] eqn:E; [|done].
    pose proof (Forall_lookup_1 _ _ _ _ (ty_buf s Hs) E) as [_ _ Hd]. destruct Hs. split; ksimp; try done.
    by apply map_Forall_insert_2.
Qed.

#[export] Instance nemu_world_typed : WorldTyped nemu_world.
Proof.
  split; [done| |]; intros a v s; cbn [hw_write nemu_world]; repeat case_match; try done.
  - intros Hs. by apply disk_go_typed.
  - intros []. by split.
  - unfold disk_go. repeat case_match; done.
Qed.

Section Witness.
#[local] Existing Instances test_layout nemu_world.
#[local] Existing Instances nemu_serial nemu_disk_driver nemu_irq nemu_board.

End Witness.
