(* ===== verification/ConsoleSpec.v ===== *)
(** * Typing at the console (kernel/console.c)

    What [consoleintr] makes of the keys: a line editor.  The abstract state is
    the text that can be read and the line being typed; [edit] says what one
    key does to it, and the ring buffer with its three wrapping indices
    implements it. *)
From S2P Require Import Prelude Memory Machine Platform Sv32 Spinlock Printf Kalloc Vm Proc Sleeplock Bio Log Fs Console ProcSpec NemuSpec Typed TypedFs.
From stdpp Require Import gmap strings countable prelude.

Open Scope Z_scope.

(** ** Output *)

Section Output.
Context {Ser : Serial} {SO : SerialOk Ser}.

Lemma consputc_ok c s : exists s', consputc c s = Ok tt s' /\ device_change s s'.
Proof.
  unfold consputc. destruct (c =? BACKSPACE); [|apply putc_sync_ok].
  destruct (putc_sync_ok 8 s) as (t1 & F1 & G1). destruct (putc_sync_ok 32 t1) as (t2 & F2 & G2).
  destruct (putc_sync_ok 8 t2) as (t3 & F3 & G3). exists t3.
  rewrite (bind_ok _ _ _ _ _ F1), (bind_ok _ _ _ _ _ F2). split; [done|].
  by do 2 (eapply device_change_trans; [eassumption|]).
Qed.
Lemma conswrite_ok l : forall s, exists s', conswrite l s = Ok tt s' /\ device_change s s'.
Proof.
  induction l as [|c l IH]; intros s; cbn [conswrite]; [exists s; split; [done|apply device_change_refl]|].
  destruct (consputc_ok c s) as (s1 & E1 & D1). destruct (IH s1) as (s2 & E2 & D2). exists s2.
  rewrite (bind_ok _ _ _ _ _ E1). split; [done|]. by eapply device_change_trans.
Qed.

Lemma device_change_acq lk s s' :
  device_change (acq lk s) s' -> exists s1, s' = acq lk s1 /\ device_change s s1.
Proof.
  intros (m & u & k & ->). exists (set_mmio m (set_uart u (set_nmmio k s))). split; [done|]. by exists m, u, k.
Qed.
Lemma device_change_settled s s' : device_change s s' -> settled s -> settled s'.
Proof. intros (m & u & k & ->) []. by split. Qed.
Lemma device_change_free lk s s' : device_change s s' -> lock_free lk s -> lock_free lk s'.
Proof. by intros (m & u & k & ->). Qed.

(** Printing leaves everything but the devices as it is. *)
Lemma printf_dev fmt ap s :
  settled s -> lock_free LPr s -> exists s', printf fmt ap s = Ok tt s' /\ device_change s s'.
Proof.
  intros Hs Hf. unfold printf. rewrite bind_gets. destruct (pr_locking s =? 0); cbn [negb].
  - destruct (conswrite_ok (format (chars fmt) ap) s) as (s1 & E1 & D1). exists s1. split; [|done].
    rewrite (bind_ok (mret tt) _ s tt s eq_refl). by rewrite (bind_ok _ _ _ _ _ E1).
  - destruct (conswrite_ok (format (chars fmt) ap) (acq LPr s)) as (s1 & E1 & D1).
    destruct (device_change_acq _ _ _ D1) as (s2 & -> & D2). exists s2. split; [|done].
    rewrite (bind_ok _ _ _ _ _ (acquire_ok LPr s Hs Hf)), (bind_ok _ _ _ _ _ E1).
    apply release_acq; eauto using device_change_settled, device_change_free.
Qed.

(** [panic] prints without taking a lock, whatever locks are held, freezes the
    output and stops. *)
Lemma panic_stop_hangs msg s :
  exists s1, panic_stop msg s = Hang (set_panicked 1 s1) /\ device_change (set_pr_locking 0 s) s1.
Proof.
  assert (forall fmt t, pr_locking t = 0 -> exists t', printf fmt [] t = Ok tt t' /\ device_change t t' /\ pr_locking t' = 0) as Hp.
  { intros fmt t Ht. destruct (conswrite_ok (format (chars fmt) []) t) as (t' & E & Dt). exists t'.
    unfold printf. rewrite bind_gets, Ht. cbn [Z.eqb negb]. rewrite (bind_ok (mret tt) _ t tt t eq_refl), (bind_ok _ _ _ _ _ E).
    split_and!; [done|done|]. by destruct Dt as (m & u & k & ->). }
  unfold panic_stop. rewrite bind_modify.
  destruct (Hp "panic: "%string (set_pr_locking 0 s) eq_refl) as (s1 & E1 & D1 & L1). rewrite (bind_ok _ _ _ _ _ E1).
  destruct (Hp msg s1 L1) as (s2 & E2 & D2 & L2). rewrite (bind_ok _ _ _ _ _ E2).
  destruct (Hp newline s2 L2) as (s3 & E3 & D3 & _). rewrite (bind_ok _ _ _ _ _ E3), bind_modify.
  exists s3. split; [done|]. by do 2 (eapply device_change_trans; [eassumption|]).
Qed.

Lemma procdump_dev s :
  settled s -> lock_free LPr s -> exists s', procdump s = Ok tt s' /\ device_change s s'.
Proof.
  intros Hs Hf. unfold procdump. destruct (printf_dev newline [] s Hs Hf) as (s1 & E1 & D1).
  rewrite (bind_ok _ _ _ _ _ E1).
  apply (for_range_inv (fun _ t => device_change s t)); [done|]. intros i t _ Dt. rewrite bind_gets.
  case_decide; [by exists t|].
  pose proof (device_change_settled _ _ Dt Hs) as Hs2. pose proof (device_change_free _ _ _ Dt Hf) as Hf2.
  match goal with |- context [printf ?f ?ap ≫= _] => destruct (printf_dev f ap t Hs2 Hf2) as (s2 & E2 & D2) end.
  rewrite (bind_ok _ _ _ _ _ E2). destruct (printf_dev newline [] s2) as (s3 & E3 & D3);
    eauto using device_change_settled, device_change_free.
  exists s3. split; [done|]. by do 2 (eapply device_change_trans; [eassumption|]).
Qed.
End Output.

(** ** The line editor *)

(** The effect of one key on the text to be read and the line being typed. *)
Definition edit (st : list Z * list Z) (c : Z) : list Z * list Z :=
  let '(q, l) := st in
  if c =? CTRL_P then (q, l)
  else if c =? CTRL_U then (q, [])
  else if (c =? CTRL_H) || (c =? 127) then (q, removelast l)
  else if (c =? 0) || (INPUT_BUF_SIZE <=? Z.of_nat (length q + length l)) then (q, l)
  else
    let c := if c =? 13 then 10 else c in
    let l := l ++ [c] in
    if (c =? 10) || (c =? CTRL_D) || (Z.of_nat (length q + length l) =? INPUT_BUF_SIZE)
    then (q ++ l, []) else (q, l).

(** The buffer holds the text [q] and, behind it, the line [l]. *)
Record holds (q l : list Z) (c : console) : Prop := {
  hd_typed : cons_typed c;
  hd_text : u32 (cons_w c - cons_r c) = Z.of_nat (length q);
  hd_line : u32 (cons_e c - cons_r c) = Z.of_nat (length q + length l);
  hd_data : forall i x, (q ++ l) !! i = Some x -> cons_at c (cons_r c + Z.of_nat i) = x;
}.
(** A newline never stays in the line being typed. *)
Abbreviation open_line l := (Forall (fun x => x <> 10) l).

Lemma holds_room q l c : holds q l c -> Z.of_nat (length q + length l) <= INPUT_BUF_SIZE.
Proof. intros [[] _ H _]. lia. Qed.

Lemma cons_at_u32 c i : cons_at c (u32 i) = cons_at c i.
Proof.
  unfold cons_at, u32, INPUT_BUF_SIZE. do 2 f_equal. Z.div_mod_to_equations. lia.
Qed.

Lemma holds_end q l c : holds q l c -> cons_e c = u32 (cons_r c + Z.of_nat (length q + length l)).
Proof.
  intros [[_ Hr Hw He _] _ H _]. unfold is_u32, u32 in *. Z.div_mod_to_equations. lia.
Qed.

(** One more character behind the line. *)
Lemma holds_type q l c v :
  holds q l c -> Z.of_nat (length q + length l) < INPUT_BUF_SIZE -> 0 <= v < 256 ->
  holds q (l ++ [v]) (set_cons_e (u32 (cons_e c + 1)) (cons_put c (cons_e c) v)).
Proof.
  intros Hh Hlt Hv. pose proof (holds_end q l c Hh) as Ee. destruct Hh as [Ht H1 H2 H3].
  assert (Hb : length (cons_buf c) = 128%nat) by apply Ht. split.
  - apply cons_type; [done|lia].
  - exact H1.
  - unfold cons_put. ksimp. rewrite length_app. cbn [length]. unfold u32, INPUT_BUF_SIZE in *.
    Z.div_mod_to_equations. lia.
  - intros i x Hi. rewrite app_assoc in Hi. unfold cons_at, cons_put, at_. ksimp. rewrite (u8_small v Hv).
    rewrite Ee. apply lookup_app_Some in Hi as [Hi|[Hge Hi]].
    + pose proof (lookup_lt_Some _ _ _ Hi) as Hlen. rewrite length_app in Hlen.
      rewrite nth_lookup, list_lookup_insert_ne; [|unfold u32, INPUT_BUF_SIZE in *; Z.div_mod_to_equations; lia].
      rewrite <- nth_lookup. by apply H3.
    + apply list_lookup_singleton_Some in Hi as [Hi <-]. rewrite length_app in *.
      rewrite nth_lookup. replace (Z.to_nat _) with
        (Z.to_nat (u32 (cons_r c + Z.of_nat (length q + length l)) mod INPUT_BUF_SIZE)).
      * rewrite list_lookup_insert_eq; [done|].
        pose proof (Z.mod_pos_bound (u32 (cons_r c + Z.of_nat (length q + length l))) 128).
        unfold INPUT_BUF_SIZE. lia.
      * f_equal. unfold u32, INPUT_BUF_SIZE. replace i with (length q + length l)%nat by lia.
        Z.div_mod_to_equations. lia.
Qed.

(** The last character of the line erased. *)
Lemma holds_erase q l x c :
  holds q (l ++ [x]) c -> holds q l (set_cons_e (u32 (cons_e c - 1)) c).
Proof.
  intros Hh. pose proof (holds_room _ _ _ Hh) as Hroom. destruct Hh as [Ht H1 H2 H3].
  rewrite length_app in *. cbn [length] in *. split; ksimp.
  - apply cons_erase; [done|]. intros E. rewrite E in H2. lia.
  - exact H1.
  - unfold u32, INPUT_BUF_SIZE in *. Z.div_mod_to_equations. lia.
  - intros i y Hi. apply H3. rewrite app_assoc. apply lookup_app_Some. by left.
Qed.

(** The line becomes text. *)
Lemma holds_enter q l c : holds q l c -> holds (q ++ l) [] (set_cons_w (cons_e c) c).
Proof.
  intros [Ht H1 H2 H3]. split; ksimp; rewrite ?app_nil_r, ?Nat.add_0_r, ?length_app; try done.
  by apply cons_enter.
Qed.

Lemma holds_last q l x c : holds q (l ++ [x]) c ->
  cons_e c <> cons_w c /\ cons_at c (u32 (cons_e c - 1)) = x.
Proof.
  intros Hh. pose proof (holds_end _ _ _ Hh) as Ee. pose proof (holds_room _ _ _ Hh) as Hroom.
  destruct Hh as [Ht H1 H2 H3].
  rewrite length_app in *. cbn [length] in *. split; [intros E; rewrite E in H2; lia|].
  rewrite <- (H3 (length q + length l)%nat x).
  - rewrite cons_at_u32, <- (cons_at_u32 c (cons_r c + _)), <- (cons_at_u32 c (cons_e c - 1)). f_equal.
    rewrite Ee, u32_sub_l. f_equal. lia.
  - rewrite app_assoc, lookup_app_r; rewrite length_app; [|lia]. by rewrite Nat.sub_diag.
Qed.
Lemma holds_blank q c : holds q [] c -> cons_e c = cons_w c.
Proof.
  intros [[_ Hr Hw He Ho] H1 H2 _]. cbn in H2. rewrite Nat.add_0_r in H2.
  unfold is_u32, u32, INPUT_BUF_SIZE in *. Z.div_mod_to_equations. lia.
Qed.

Section Typing.
Context {L : Layout} {W : World} {Ser : Serial} {SO : SerialOk Ser}.

(** The console is changed to [k], the devices in any way. *)
Definition typed_at (k : console) (s s' : kstate) : Prop := device_change (set_kcons k s) s' /\ kcons s' = k.

Lemma typed_at_putc f s c : exists s',
  (cset f ;; consputc c) s = Ok tt s' /\ typed_at (f (kcons s)) s s'.
Proof.
  rewrite bind_cset. destruct (consputc_ok c (set_kcons (f (kcons s)) s)) as (s' & E & D).
  exists s'. split; [done|]. split; [done|]. by destruct D as (m & u & k & ->).
Qed.
Lemma typed_at_trans k1 k2 s1 s2 s3 : typed_at k1 s1 s2 -> typed_at k2 s2 s3 -> typed_at k2 s1 s3.
Proof.
  intros [(m & u & k & ->) E1] [(m' & u' & k' & ->) E2]. split; [|done]. by exists m', u', k'.
Qed.
Lemma typed_at_refl s : typed_at (kcons s) s s.
Proof. split; [|done]. by exists (mmio s), (uart s), (nmmio s). Qed.

Lemma kill_line_spec l : forall n q s, holds q l (kcons s) -> open_line l -> (length l <= n)%nat ->
  exists s', kill_line n s = Ok tt s' /\ typed_at (kcons s') s s' /\ holds q [] (kcons s').
Proof.
  induction l as [|x l IH] using rev_ind; intros n q s Hh Hl Hn.
  - exists s. split; [|split; [apply typed_at_refl|done]].
    destruct n; cbn [kill_line]; rewrite bind_gets, (holds_blank _ _ Hh), Z.eqb_refl; done.
  - rewrite length_app in Hn. cbn in Hn. destruct n as [|n]; [lia|]. cbn [kill_line]. rewrite bind_gets.
    destruct (holds_last _ _ _ _ Hh) as [Hne Hx]. apply Forall_app in Hl as [Hl Hx10].
    apply Forall_cons_1 in Hx10 as [Hx10 _]. rewrite (proj2 (Z.eqb_neq _ _) Hne).
    rewrite Hx, (proj2 (Z.eqb_neq _ _) Hx10). cbn [orb].
    destruct (typed_at_putc (set_cons_e (u32 (cons_e (kcons s) - 1))) s BACKSPACE) as (s1 & E1 & T1).
    rewrite <- bind_assoc, (bind_ok _ _ _ _ _ E1).
    pose proof (proj2 T1) as K1.
    destruct (IH n q s1) as (s2 & E2 & T2 & H2); [rewrite K1; by apply (holds_erase q l x)|done|lia|].
    exists s2. split; [done|]. split; [|done]. by eapply typed_at_trans.
Qed.

(** A state in which an interrupt is handled: no lock is held. *)
Record intr_ctx (s : kstate) : Prop := {
  ic_settled : settled s;
  ic_locks : forall lk, static_lock lk -> lock_free lk s;
  ic_procs : length (procs s) = NPROC;
}.

(** What a key may change: the console, the devices, and the state of the
    processes that wait for input. *)
Definition keyed (s s' : kstate) : Prop := exists s1, typed_at (kcons s') s1 s' /\
  (s1 = s \/ s1 = set_procs (imap (wake (c_proc (kcpu s)) (Some CCons)) (procs s)) s).

Lemma keyed_ctx s s' : keyed s s' -> intr_ctx s -> intr_ctx s'.
Proof.
  intros (s1 & [(m & u & k & ->) _] & Hs1) [[] Hl Hp].
  assert (length (procs s1) = NPROC) as Hn.
  { destruct Hs1 as [->| ->]; [done|]. ksimp. by rewrite length_imap. }
  by destruct Hs1 as [->| ->]; split; [split|..].
Qed.

Lemma typed_at_acq lk k s a : typed_at k (acq lk s) a -> exists t, a = acq lk t /\ typed_at k s t.
Proof.
  intros [(m & u & n & ->) E]. exists (set_mmio m (set_uart u (set_nmmio n (set_kcons k s)))).
  split; [done|]. split; [|done]. by exists m, u, n.
Qed.

(** The end of the handler, after the console was changed. *)
Lemma key_done k s a : intr_ctx s -> typed_at k (acq LCons s) a ->
  exists s', release LCons a = Ok tt s' /\ keyed s s' /\ kcons s' = k.
Proof.
  intros Hc (t & -> & [D E])%typed_at_acq. exists t. split; [|split; [|done]].
  - apply release_acq; [apply (device_change_settled _ _ D)|apply (device_change_free _ _ _ D)].
    + destruct (ic_settled _ Hc). by split.
    + by apply (ic_locks _ Hc LCons).
  - exists s. split; [|by left]. by rewrite E.
Qed.
(** The same when the readers are woken. *)
Lemma key_wake k s a : intr_ctx s -> typed_at k (acq LCons s) a ->
  exists s', (wakeup CCons ;; release LCons) a = Ok tt s' /\ keyed s s' /\ kcons s' = k.
Proof.
  intros Hc (t & -> & [(m & u & n & ->) E])%typed_at_acq.
  set (t := set_mmio m (set_uart u (set_nmmio n (set_kcons k s)))) in *.
  assert (settled t) as Ht by (destruct (ic_settled _ Hc); by split).
  exists (set_procs (imap (wake (c_proc (kcpu s)) (Some CCons)) (procs s)) t). split; [|split; [|done]].
  - unfold wakeup. erewrite bind_ok.
    2:{ apply wakeup_on_ok; [by apply settled_acq| |apply (ic_procs _ Hc)].
        intros i Hi. pose proof (ic_locks _ Hc (LProc i) Hi) as Hf.
        change (lock_free (LProc i) t) in Hf. eauto with kernel. }
    apply (release_acq LCons (set_procs (imap (wake (c_proc (kcpu s)) (Some CCons)) (procs s)) t)).
    + destruct Ht. by split.
    + by apply (ic_locks _ Hc LCons).
  - exists (set_procs (imap (wake (c_proc (kcpu s)) (Some CCons)) (procs s)) s). split; [|by right].
    split; [|done]. by exists m, u, n.
Qed.

Lemma typed_at_dev s s' : device_change s s' -> typed_at (kcons s) s s'.
Proof. intros (m & u & k & ->). split; [|done]. by exists m, u, k. Qed.
Lemma typed_at_cset f s : typed_at (f (kcons s)) s (set_kcons (f (kcons s)) s).
Proof. split; [|done]. by exists (mmio s), (uart s), (nmmio s). Qed.

(** A character that goes into the line: [holds] behind it, and who is woken. *)
Lemma type_spec c s q l : intr_ctx s -> holds q l (kcons s) -> open_line l -> 0 <= c < 256 ->
  Z.of_nat (length q + length l) < INPUT_BUF_SIZE ->
  let full := (c =? 10) || (c =? CTRL_D) || (Z.of_nat (length q + length (l ++ [c])) =? INPUT_BUF_SIZE) in
  exists s', ((consputc c ;;
    cset (fun k => set_cons_e (u32 (cons_e k + 1)) (cons_put k (cons_e k) c)) ;;
    k ← gets (fun s => kcons s);
    if (c =? 10) || (c =? CTRL_D) || (u32 (cons_e k - cons_r k) =? INPUT_BUF_SIZE) then
      cset (set_cons_w (cons_e k)) ;; wakeup CCons
    else mret tt) ;; release LCons) (acq LCons s) = Ok tt s' /\ keyed s s' /\
    (if full then holds (q ++ l ++ [c]) [] (kcons s')
     else holds q (l ++ [c]) (kcons s') /\ open_line (l ++ [c])).
Proof.
  intros Hc Hh Hl Hb Hlt full. destruct (consputc_ok c (acq LCons s)) as (a1 & E1 & D1).
  rewrite bind_assoc, (bind_ok _ _ _ _ _ E1). pose proof (typed_at_dev _ _ D1) as T1.
  set (f := fun k => set_cons_e (u32 (cons_e k + 1)) (cons_put k (cons_e k) c)).
  rewrite bind_assoc, bind_cset.
  pose proof (typed_at_trans _ _ _ _ _ T1 (typed_at_cset f a1)) as T2.
  set (a2 := set_kcons (f (kcons a1)) a1) in *. rewrite (proj2 T1) in T2.
  assert (kcons a2 = f (kcons s)) as K2 by (unfold a2; ksimp; by rewrite (proj2 T1)).
  pose proof (holds_type q l (kcons s) c Hh Hlt Hb) as H2. fold (f (kcons s)) in H2.
  rewrite bind_assoc, bind_gets, K2, (hd_line _ _ _ H2). unfold full. destruct (_ || _) eqn:G.
  - rewrite bind_assoc, bind_cset. set (a3 := set_kcons _ a2).
    destruct (key_wake (set_cons_w (cons_e (f (kcons s))) (f (kcons s))) s a3 Hc) as (s' & E' & K' & Ek).
    { eapply typed_at_trans; [exact T2|]. unfold a3. rewrite <- K2.
      apply (typed_at_cset (set_cons_w (cons_e (kcons a2))) a2). }
    exists s'. split; [done|]. split; [done|]. rewrite Ek. by apply holds_enter.
  - destruct (key_done (f (kcons s)) s a2 Hc T2) as (s' & E' & K' & Ek).
    exists s'. rewrite bind_ret. split; [done|]. split; [done|]. rewrite Ek. split; [done|].
    apply Forall_app. split; [done|]. apply Forall_singleton. lia.
Qed.

Lemma consoleintr_spec c s q l : intr_ctx s -> holds q l (kcons s) -> open_line l -> 0 <= c < 256 ->
  exists s', consoleintr c s = Ok tt s' /\ keyed s s' /\
    holds (edit (q, l) c).1 (edit (q, l) c).2 (kcons s') /\ open_line (edit (q, l) c).2.
Proof.
  intros Hc Hh Hl Hb. pose proof (ic_settled _ Hc) as Hs. pose proof (holds_room _ _ _ Hh) as Hroom.
  unfold consoleintr, edit. erewrite bind_ok by (apply acquire_ok; [done|by apply (ic_locks _ Hc LCons)]).
  destruct (c =? CTRL_P).
  { destruct (procdump_dev (acq LCons s)) as (a & E & D).
    { by apply settled_acq. } { pose proof (ic_locks _ Hc LPr I). eauto with kernel. }
    destruct (key_done (kcons s) s a Hc (typed_at_dev _ _ D)) as (s' & E' & K & Ek).
    exists s'. rewrite (bind_ok _ _ _ _ _ E), Ek. by split_and!. }
  destruct (c =? CTRL_U).
  { destruct (kill_line_spec l (Z.to_nat INPUT_BUF_SIZE) q (acq LCons s) Hh Hl) as (a & E & T & Ha);
      [unfold INPUT_BUF_SIZE in *; lia|].
    destruct (key_done (kcons a) s a Hc T) as (s' & E' & K & Ek).
    exists s'. rewrite (bind_ok _ _ _ _ _ E), Ek. by split_and!. }
  destruct ((c =? CTRL_H) || (c =? 127)).
  { rewrite bind_assoc, bind_gets. change (kcons (acq LCons s)) with (kcons s).
    destruct l as [|x l _] using rev_ind.
    - rewrite (holds_blank _ _ Hh), Z.eqb_refl. cbn [negb]. rewrite bind_ret.
      destruct (key_done (kcons s) s (acq LCons s) Hc (typed_at_refl _)) as (s' & E' & K & Ek).
      exists s'. rewrite Ek. by split_and!.
    - destruct (holds_last _ _ _ _ Hh) as [Hne _]. rewrite (proj2 (Z.eqb_neq _ _) Hne). cbn [negb].
      destruct (typed_at_putc (set_cons_e (u32 (cons_e (kcons s) - 1))) (acq LCons s) BACKSPACE) as (a & E & T).
      destruct (key_done _ s a Hc T) as (s' & E' & K & Ek).
      exists s'. rewrite (bind_ok _ _ _ _ _ E), Ek, removelast_last. apply Forall_app in Hl as [Hl _].
      split_and!; try done. cbn. by apply (holds_erase q l x). }
  rewrite bind_assoc, bind_gets. change (kcons (acq LCons s)) with (kcons s). rewrite (hd_line _ _ _ Hh).
  destruct (c =? 0) eqn:E0; cbn [negb andb orb].
  { destruct (key_done (kcons s) s (acq LCons s) Hc (typed_at_refl _)) as (s' & E' & K & Ek).
    exists s'. rewrite bind_ret, Ek. by split_and!. }
  rewrite Z.leb_antisym. destruct (Z.ltb_spec (Z.of_nat (length q + length l)) INPUT_BUF_SIZE) as [Hlt|Hge]; cbn [negb].
  2:{ destruct (key_done (kcons s) s (acq LCons s) Hc (typed_at_refl _)) as (s' & E' & K & Ek).
      exists s'. rewrite bind_ret, Ek. by split_and!. }
  cbn zeta. set (c' := if c =? 13 then 10 else c).
  destruct (type_spec c' s q l Hc Hh Hl) as (s' & E' & K & H'); [unfold c'; case_match; lia|done|].
  exists s'. split; [exact E'|]. split; [done|]. cbn zeta in H'.
  destruct (_ || (_ =? INPUT_BUF_SIZE)); [|done]. by split; [|constructor].
Qed.

(** The keys of a list, one after the other. *)
Fixpoint type_keys (cs : list Z) : K unit :=
  match cs with
  | [] => mret tt
  | c :: cs' => consoleintr c ;; type_keys cs'
  end.

(** A process left alone or woken. *)
Definition roused (p p' : proc) : Prop := p' = p \/ p' = set_p_state RUNNABLE p.

#[local] Instance roused_preorder : PreOrder roused.
Proof. split; [by left|]. intros p1 p2 p3 [->| ->] [->| ->]; [by left|by right..]. Qed.
Lemma wake_roused me ch ps : Forall2 roused ps (imap (wake me ch) ps).
Proof.
  apply Forall2_same_length_lookup_2; [by rewrite length_imap|]. intros i p p' Hp Hp'.
  rewrite list_lookup_imap, Hp in Hp'. injection Hp' as <-. unfold wake.
  repeat case_decide; [by left|by right|by left..].
Qed.

Lemma keyed_rest s s' : keyed s s' ->
  exists P k, Forall2 roused (procs s) P /\ device_change (set_kcons k (set_procs P s)) s'.
Proof.
  intros (s1 & [D _] & Hs1). exists (procs s1), (kcons s'). generalize dependent (kcons s'). intros k D.
  destruct Hs1 as [->| ->]; (split; [|done]); [reflexivity|apply wake_roused].
Qed.

Lemma type_keys_spec cs s q l :
  intr_ctx s -> holds q l (kcons s) -> open_line l -> Forall (fun c => 0 <= c < 256) cs ->
  exists s', type_keys cs s = Ok tt s' /\ intr_ctx s' /\
    holds (fold_left edit cs (q, l)).1 (fold_left edit cs (q, l)).2 (kcons s') /\
    exists P k, Forall2 roused (procs s) P /\ device_change (set_kcons k (set_procs P s)) s'.
Proof.
  intros Hc Hh Hl Hcs. revert s q l Hc Hh Hl. induction Hcs as [|c cs Hb Hcs IH]; intros s q l Hc Hh Hl.
  - exists s. split_and!; try done. exists (procs s), (kcons s). split; [reflexivity|].
    by exists (mmio s), (uart s), (nmmio s).
  - destruct (consoleintr_spec c s q l Hc Hh Hl Hb) as (s1 & E1 & K1 & H1 & L1).
    cbn [type_keys fold_left]. rewrite (bind_ok _ _ _ _ _ E1). destruct (edit (q, l) c) as [q1 l1].
    destruct (IH s1 q1 l1 (keyed_ctx _ _ K1 Hc) H1 L1) as (s2 & E2 & C2 & H2 & P & k & HP & m & u & n & ->).
    eexists. split; [exact E2|]. split; [done|]. split; [done|]. exists P, k.
    destruct (keyed_rest _ _ K1) as (P1 & k1 & HP1 & m1 & u1 & n1 & ->). split; [|by exists m, u, n].
    etrans; [exact HP1|exact HP].
Qed.

(** Typing implements the line editor.  Whatever keys arrive, in whatever
    order and number, the handler returns, and the buffer then holds what
    [edit] makes of them: erased characters and killed lines are gone, a line
    becomes readable when it is entered or the buffer is full, and no key
    changes text that can already be read; this holds across the wrap of the
    buffer and of its three counters.  Only the console, the devices and the
    states of waiting processes change. *)
Theorem typing_edits cs s q l :
  intr_ctx s -> holds q l (kcons s) -> open_line l -> Forall (fun c => 0 <= c < 256) cs ->
  exists s', type_keys cs s = Ok tt s' /\ intr_ctx s' /\
    holds (fold_left edit cs (q, l)).1 (fold_left edit cs (q, l)).2 (kcons s') /\
    (exists t, (fold_left edit cs (q, l)).1 = q ++ t) /\
    exists P k, Forall2 roused (procs s) P /\ device_change (set_kcons k (set_procs P s)) s'.
Proof.
  intros Hc Hh Hl Hcs. destruct (type_keys_spec cs s q l Hc Hh Hl Hcs) as (s' & E & C & H & R).
  exists s'. split_and!; try done. clear. revert q l. induction cs as [|c cs IH]; intros q l; cbn [fold_left].
  - exists []. by rewrite app_nil_r.
  - assert (exists t, (edit (q, l) c).1 = q ++ t) as [t Ht].
    { unfold edit. repeat case_match; cbn; first [exists []; by rewrite app_nil_r | by eexists]. }
    destruct (edit (q, l) c) as [q1 l1]. cbn in Ht. subst q1. destruct (IH (q ++ t) l1) as [t' ->].
    exists (t ++ t'). by rewrite app_assoc.
Qed.
End Typing.

(** ** A line typed at the NEMU board: a, b, backspace, c, return *)

Lemma two_procs_intr : intr_ctx two_procs.
Proof. destruct two_procs_ctx. by split. Qed.
Lemma holds_empty c :
  cons_typed c -> cons_w c = cons_r c -> cons_e c = cons_r c -> holds [] [] c.
Proof.
  intros Hc Hw He. split; [done| | |by intros i x Hi]; rewrite ?Hw, ?He, Z.sub_diag; reflexivity.
Qed.

Lemma typing_edits_witness : exists s',
  @type_keys (@Nemu.nemu_serial nemu_world) [97; 98; 8; 99; 13] two_procs = Ok tt s' /\
  holds [97; 99; 10] [] (kcons s').
Proof.
  pose proof (nemu_serial_laws nemu_world nemu_world_uart) as SO.
  destruct (@typing_edits (@Nemu.nemu_serial nemu_world) SO [97; 98; 8; 99; 13] two_procs [] [])
    as (s' & E & _ & H & _ & _).
  - apply two_procs_intr.
  - apply holds_empty; [|reflexivity..]. split; vm_compute; try reflexivity; split; congruence.
  - constructor.
  - repeat constructor; lia.
  - exists s'. split; [exact E|exact H].
Defined.
