(* ===== verification/BioSpec.v ===== *)
(** * The buffer cache (kernel/bio.c): refinement of a map of referenced blocks

    Abstractly the cache is a finite map from the block numbers that are
    referenced to their reference count, contents and whether the running
    process has them locked.  Buffers nobody references are copies of disk
    blocks and are invisible, and so is the order of the list. *)
From S2P Require Import Prelude Memory Machine Platform Sv32 Spinlock Printf Kalloc Vm Proc Sleeplock Bio ProcSpec SleepSpec.
From stdpp Require Import gmap strings countable prelude.

Open Scope Z_scope.

(** ** Doubly linked lists *)

(** From [a] through [l] to [z], by [nx] forwards and [pv] backwards. *)
Fixpoint path (nx pv : nat -> nat) (a : nat) (l : list nat) (z : nat) : Prop :=
  match l with
  | [] => nx a = z /\ pv z = a
  | x :: l' => nx a = x /\ pv x = a /\ path nx pv x l' z
  end.

Lemma path_app nx pv a l1 x l2 z :
  path nx pv a (l1 ++ x :: l2) z <-> path nx pv a l1 x /\ path nx pv x l2 z.
Proof.
  revert a. induction l1 as [|y l1 IH]; intros a; cbn; [tauto|]. rewrite IH. tauto.
Qed.

Lemma path_ext nx pv nx' pv' a l z :
  (forall i, i ∈ a :: l -> nx' i = nx i) -> (forall i, i ∈ z :: l -> pv' i = pv i) ->
  path nx pv a l z -> path nx' pv' a l z.
Proof.
  revert a. induction l as [|x l IH]; intros a Hn Hp; cbn.
  - rewrite Hn, Hp by (by left). done.
  - intros (H1 & H2 & H). rewrite (Hn a) by (by left).
    rewrite (Hp x) by (right; by left). split_and!; [done..|].
    apply IH; [|set_solver|done]. intros i Hi. apply Hn. by right.
Qed.

(** The node after [a], the node before [z]. *)
Lemma path_first nx pv a l z : path nx pv a l z -> nx a = hd z l.
Proof. destruct l; cbn; tauto. Qed.
Fixpoint end_of (a : nat) (l : list nat) : nat :=
  match l with [] => a | x :: l' => end_of x l' end.
Lemma path_last nx pv a l z : path nx pv a l z -> pv z = end_of a l.
Proof.
  revert a. induction l as [|x l IH]; intros a; cbn; [tauto|].
  intros (_ & _ & H). apply IH, H.
Qed.

Definition upd (f : nat -> nat) (i v : nat) : nat -> nat := fun j => if decide (j = i) then v else f j.

Lemma upd_eq f i v : upd f i v i = v.
Proof. unfold upd. by rewrite decide_True. Qed.
Lemma upd_ne f i v j : j <> i -> upd f i v j = f j.
Proof. intros. unfold upd. by rewrite decide_False. Qed.

Lemma last_in (l : list nat) a : end_of a l ∈ a :: l.
Proof. revert a. induction l as [|x l IH]; intros a; [by left|]. right. apply IH. Qed.
Lemma hd_in (l : list nat) z : hd z l ∈ z :: l.
Proof. destruct l; cbn; [by left|right; by left]. Qed.

(** Taking [b] out. *)
Lemma path_unlink nx pv a l1 b l2 z :
  NoDup (a :: l1 ++ b :: l2) -> NoDup (z :: l1 ++ b :: l2) ->
  path nx pv a (l1 ++ b :: l2) z ->
  path (upd nx (pv b) (nx b)) (upd pv (nx b) (pv b)) a (l1 ++ l2) z.
Proof.
  revert a. induction l1 as [|x l1 IH]; intros a Na Nz; cbn.
  - intros (Ha & Hb & H). rewrite Hb. destruct l2 as [|c l2]; cbn in *.
    + destruct H as [-> _]. by rewrite !upd_eq.
    + destruct H as (-> & _ & H). rewrite !upd_eq. split_and!; [done..|].
      rewrite !NoDup_cons in Na, Nz.
      revert H. apply path_ext; intros i Hi; apply upd_ne; intros ->; set_solver.
  - intros (Ha & Hx & H). pose proof H as H'. apply path_app in H' as [H1 H2].
    apply path_last in H1. apply path_first in H2. cbn in Na, Nz. rewrite !NoDup_cons in Na, Nz.
    pose proof (last_in l1 x) as Hl. pose proof (hd_in l2 z) as Hh. rewrite <- H1 in Hl. rewrite <- H2 in Hh.
    rewrite (upd_ne nx) by (intros ->; set_solver).
    rewrite (upd_ne pv) by (intros ->; set_solver).
    split_and!; [done..|]. apply IH; [|constructor|done].
    + constructor; [|apply Na]. apply Na.
    + set_solver.
    + apply Nz.
Qed.

(** Putting [b] in behind the head. *)
Lemma path_link nx pv z b l :
  b ∉ z :: l -> NoDup (z :: l) -> path nx pv z l z ->
  path (upd (upd nx b (nx z)) z b) (upd (upd pv b z) (nx z) b) z (b :: l) z.
Proof.
  intros Hb Nz H. assert (b <> z) by set_solver. assert (Hh := hd_in l z).
  rewrite <- (path_first _ _ _ _ _ H) in Hh.
  cbn. rewrite upd_eq, (upd_ne _ (nx z)) by set_solver. rewrite upd_eq. split_and!; [done..|].
  destruct l as [|x l]; cbn in *.
  - destruct H as [-> _]. rewrite upd_ne, upd_eq by done. by rewrite upd_eq.
  - destruct H as (-> & _ & H). rewrite upd_ne, !upd_eq by done. split_and!; [done..|].
    rewrite !NoDup_cons in Nz.
    revert H. apply path_ext; intros i Hi; rewrite !upd_ne; set_solver.
Qed.

Lemma path_rev nx pv a l z : path nx pv a l z -> path pv nx z (rev l) a.
Proof.
  revert a. induction l as [|x l IH]; intros a; cbn; [tauto|].
  intros (H1 & H2 & H). apply path_app. split; [by apply IH|by cbn].
Qed.

(** ** The list of buffers *)

Definition bat (B : list buf) (i : nat) : buf := default blank_buf (B !! i).
Definition nexts (B : list buf) (i : nat) : nat := b_next (bat B i).
Definition prevs (B : list buf) (i : nat) : nat := b_prev (bat B i).

(** [l] is the list of the buffers, most recently used first. *)
Record ring (B : list buf) (l : list nat) : Prop := {
  ring_length : length B = S NBUF;
  ring_perm : l ≡ₚ seq 0 NBUF;
  ring_path : path (nexts B) (prevs B) NBUF l NBUF;
}.

Lemma ring_in B l i : ring B l -> i ∈ l <-> (i < NBUF)%nat.
Proof. intros [_ H _]. rewrite H, elem_of_seq. lia. Qed.

Lemma ring_nodup B l : ring B l -> NoDup (NBUF :: l).
Proof.
  intros H. constructor.
  - rewrite (ring_in _ _ _ H). lia.
  - rewrite (ring_perm _ _ H). apply NoDup_seq.
Qed.

Lemma bat_lookup B i bf : B !! i = Some bf -> bat B i = bf.
Proof. intros H. unfold bat. by rewrite H. Qed.
Lemma lookup_bat B i : (i < length B)%nat -> B !! i = Some (bat B i).
Proof. intros [b Hb]%lookup_lt_is_Some. by rewrite (bat_lookup _ _ _ Hb). Qed.

Lemma bat_alter f i B : (i < length B)%nat -> bat (alter f i B) i = f (bat B i).
Proof. intros H. unfold bat. rewrite list_lookup_alter_eq, (lookup_bat _ _ H). done. Qed.
Lemma bat_alter_ne f i j B : i <> j -> bat (alter f i B) j = bat B j.
Proof. intros H. unfold bat. by rewrite list_lookup_alter_ne. Qed.

(** Updates that leave the links alone. *)
Lemma ring_alter f i B l :
  (forall b, b_next (f b) = b_next b) -> (forall b, b_prev (f b) = b_prev b) ->
  ring B l -> ring (alter f i B) l.
Proof.
  intros Hn Hp H. pose proof H as [Hl Hpm Hpa]. split; [by rewrite length_alter|done|].
  revert Hpa. apply path_ext; intros j Hj; unfold nexts, prevs.
  - destruct (decide (i = j)) as [<-|]; [|by rewrite bat_alter_ne].
    assert (Hi : i ∈ NBUF :: l) by done. rewrite elem_of_cons, (ring_in _ _ _ H) in Hi.
    rewrite bat_alter by lia. apply Hn.
  - destruct (decide (i = j)) as [<-|]; [|by rewrite bat_alter_ne].
    rewrite elem_of_cons, (ring_in _ _ _ H) in Hj.
    rewrite bat_alter by lia. apply Hp.
Qed.

Section Search.
Context {L : Layout} {W : World}.

Definition caches (B : list buf) (dev blockno : Z) (i : nat) : bool :=
  (b_dev (bat B i) =? dev) && (b_blockno (bat B i) =? blockno).
Definition unused (B : list buf) (i : nat) : bool := b_refcnt (bat B i) =? 0.

Lemma bget_cached_ok dev blockno s l : forall fuel a,
  path (nexts (bufs s)) (prevs (bufs s)) a l NBUF -> NBUF ∉ l -> (length l <= fuel)%nat ->
  bget_cached fuel (nexts (bufs s) a) dev blockno s = Ok (find (caches (bufs s) dev blockno) l) s.
Proof.
  induction l as [|x l IH]; intros fuel a Hp Hz Hf; cbn in Hp.
  - destruct Hp as [-> _]. destruct fuel; cbn [bget_cached]; by rewrite decide_True.
  - destruct Hp as (-> & _ & Hp). apply not_elem_of_cons in Hz as [Hx Hz].
    destruct fuel as [|fuel]; [cbn in Hf; lia|]. cbn [bget_cached find].
    rewrite decide_False by done. msimp. fold (bat (bufs s) x).
    unfold caches at 1. change (buf_of s x) with (bat (bufs s) x).
    destruct ((b_dev (bat (bufs s) x) =? dev) && (b_blockno (bat (bufs s) x) =? blockno)); [done|].
    apply (IH fuel x Hp Hz). cbn in Hf. lia.
Qed.

Lemma bget_lru_ok s l : forall fuel a,
  path (prevs (bufs s)) (nexts (bufs s)) a l NBUF -> NBUF ∉ l -> (length l <= fuel)%nat ->
  bget_lru fuel (prevs (bufs s) a) s = Ok (find (unused (bufs s)) l) s.
Proof.
  induction l as [|x l IH]; intros fuel a Hp Hz Hf; cbn in Hp.
  - destruct Hp as [-> _]. destruct fuel; cbn [bget_lru]; by rewrite decide_True.
  - destruct Hp as (-> & _ & Hp). apply not_elem_of_cons in Hz as [Hx Hz].
    destruct fuel as [|fuel]; [cbn in Hf; lia|]. cbn [bget_lru find].
    rewrite decide_False by done. msimp.
    unfold unused at 1. change (buf_of s x) with (bat (bufs s) x).
    destruct (b_refcnt (bat (bufs s) x) =? 0); [done|].
    apply (IH fuel x Hp Hz). cbn in Hf. lia.
Qed.
End Search.

Section Ops.
Context {L : Layout} {W : World} {D : DiskDriver}.

(** Buffer updates inside the critical section of the cache lock. *)
Lemma release_bufs lk B s :
  settled s -> lock_free lk s ->
  release lk (set_bufs B (acq lk s)) = Ok tt (set_bufs B s).
Proof.
  intros Hs Hf. change (set_bufs B (acq lk s)) with (acq lk (set_bufs B s)).
  apply release_acq; [|done]. destruct Hs; by split.
Qed.

Lemma set_bufs_ctx me B s : ctx me s -> ctx me (set_bufs B s).
Proof. intros [[] Hl Hc Hn Hm]. by split. Qed.

Definition one_more (bf : buf) : buf := set_b_refcnt (u32 (b_refcnt bf + 1)) bf.
Definition one_less (bf : buf) : buf := set_b_refcnt (u32 (b_refcnt bf - 1)) bf.
Definition recycle (dev blockno : Z) (bf : buf) : buf :=
  set_b_refcnt 1 (set_b_valid 0 (set_b_blockno blockno (set_b_dev dev bf))).

Lemma bget_found me dev blockno s l i :
  ctx me s -> ring (bufs s) l -> find (caches (bufs s) dev blockno) l = Some i ->
  (i < NBUF)%nat -> sl_locked (slock_of s (SLBuf i)) = 0 ->
  bget dev blockno s = Ok i (upd_slock (SLBuf i) (taken me s) (upd_buf i one_more s)).
Proof.
  intros Hc Hr Hf Hi Hsl. pose proof (ctx_settled _ _ Hc) as Hs.
  pose proof (ctx_locks _ _ Hc LBcache I) as Hl. unfold bget. mstep acquire_ok.
  change (b_next (buf_of (acq LBcache s) NBUF)) with (nexts (bufs (acq LBcache s)) NBUF).
  erewrite bind_ok.
  2: { apply (bget_cached_ok _ _ _ l).
    - apply Hr.
    - by apply NoDup_cons, (ring_nodup _ _ Hr).
    - rewrite (ring_perm _ _ Hr), length_seq. lia. }
  change (bufs (acq LBcache s)) with (bufs s). rewrite Hf. msimp. unfold bset. msimp.
  unfold upd_buf at 1. erewrite bind_ok by (by apply release_bufs).
  erewrite bind_ok; [reflexivity|].
  exact (acquiresleep_ok me (SLBuf i) (upd_buf i one_more s) (set_bufs_ctx _ _ _ Hc) Hi Hsl).
Qed.

Lemma bget_recycle me dev blockno s l i :
  ctx me s -> ring (bufs s) l -> find (caches (bufs s) dev blockno) l = None ->
  find (unused (bufs s)) (rev l) = Some i ->
  (i < NBUF)%nat -> sl_locked (slock_of s (SLBuf i)) = 0 ->
  bget dev blockno s = Ok i (upd_slock (SLBuf i) (taken me s) (upd_buf i (recycle dev blockno) s)).
Proof.
  intros Hc Hr Hf Hu Hi Hsl. pose proof (ctx_settled _ _ Hc) as Hs.
  pose proof (ctx_locks _ _ Hc LBcache I) as Hl. unfold bget. mstep acquire_ok.
  pose proof (ring_nodup _ _ Hr) as Hnd. apply NoDup_cons in Hnd as [Hnin _].
  assert (Hlen : length l = NBUF) by by rewrite (ring_perm _ _ Hr), length_seq.
  change (b_next (buf_of (acq LBcache s) NBUF)) with (nexts (bufs (acq LBcache s)) NBUF).
  erewrite bind_ok by (apply (bget_cached_ok _ _ _ l); [apply Hr|done|lia]).
  change (bufs (acq LBcache s)) with (bufs s). rewrite Hf. msimp.
  change (b_prev (buf_of (acq LBcache s) NBUF)) with (prevs (bufs (acq LBcache s)) NBUF).
  erewrite bind_ok by (apply (bget_lru_ok _ (rev l));
    [apply path_rev, Hr|by intros ?%list_elem_of_In%in_rev%list_elem_of_In|rewrite length_rev; lia]).
  change (bufs (acq LBcache s)) with (bufs s). rewrite Hu. msimp. unfold bset. msimp.
  unfold upd_buf at 1 2 3 4. ksimp. rewrite !list_alter_alter_eq.
  erewrite bind_ok by (by apply (release_bufs LBcache (alter (recycle dev blockno) i (bufs s)))).
  erewrite bind_ok; [reflexivity|].
  exact (acquiresleep_ok me (SLBuf i) (upd_buf i (recycle dev blockno) s) (set_bufs_ctx _ _ _ Hc) Hi Hsl).
Qed.

(** [to_front] on the links alone. *)
Definition unlink (b : nat) (B : list buf) : list buf :=
  let B := alter (set_b_prev (prevs B b)) (nexts B b) B in
  alter (set_b_next (nexts B b)) (prevs B b) B.
Definition link (b : nat) (B : list buf) : list buf :=
  let B := alter (set_b_next (nexts B NBUF)) b B in
  let B := alter (set_b_prev NBUF) b B in
  let B := alter (set_b_prev b) (nexts B NBUF) B in
  alter (set_b_next b) NBUF B.

Lemma to_front_ok b s : to_front b s = Ok tt (set_bufs (link b (unlink b (bufs s))) s).
Proof. reflexivity. Qed.

(** The links of an updated array. *)
Lemma nexts_set i v B j : (i < length B)%nat -> nexts (alter (set_b_next v) i B) j = upd (nexts B) i v j.
Proof.
  intros H. unfold nexts, upd. case_decide as E; [subst|by rewrite bat_alter_ne].
  by rewrite bat_alter.
Qed.
Lemma prevs_set i v B j : (i < length B)%nat -> prevs (alter (set_b_prev v) i B) j = upd (prevs B) i v j.
Proof.
  intros H. unfold prevs, upd. case_decide as E; [subst|by rewrite bat_alter_ne].
  by rewrite bat_alter.
Qed.
Lemma nexts_set_prev i v B j : nexts (alter (set_b_prev v) i B) j = nexts B j.
Proof.
  unfold nexts, bat. destruct (decide (i = j)) as [<-|]; [|by rewrite list_lookup_alter_ne].
  rewrite list_lookup_alter_eq. by destruct (B !! i).
Qed.
Lemma prevs_set_next i v B j : prevs (alter (set_b_next v) i B) j = prevs B j.
Proof.
  unfold prevs, bat. destruct (decide (i = j)) as [<-|]; [|by rewrite list_lookup_alter_ne].
  rewrite list_lookup_alter_eq. by destruct (B !! i).
Qed.

(** The buffers [l], some of the cache, form the list. *)
Record chain (B : list buf) (l : list nat) : Prop := {
  chain_length : length B = S NBUF;
  chain_nodup : NoDup l;
  chain_range : forall i, i ∈ l -> (i < NBUF)%nat;
  chain_path : path (nexts B) (prevs B) NBUF l NBUF;
}.

Lemma unlink_chain B l1 b l2 : chain B (l1 ++ b :: l2) -> chain (unlink b B) (l1 ++ l2).
Proof.
  intros [Hlen Hnd Hr Hp].
  assert (Hb : (b < NBUF)%nat) by (apply Hr; set_solver).
  assert (Hz : NBUF ∉ l1 ++ b :: l2) by (intros Hz; apply Hr in Hz; lia).
  pose proof Hp as [P1 P2]%path_app.
  assert (Hn : nexts B b ∈ NBUF :: l2) by (rewrite (path_first _ _ _ _ _ P2); apply hd_in).
  assert (Hv : prevs B b ∈ NBUF :: l1) by (rewrite (path_last _ _ _ _ _ P1); apply last_in).
  assert (Hnr : (nexts B b < length B)%nat).
  { apply elem_of_cons in Hn as [->|Hn]; [lia|]. specialize (Hr (nexts B b) ltac:(set_solver)). lia. }
  assert (Hvr : (prevs B b < length B)%nat).
  { apply elem_of_cons in Hv as [->|Hv]; [lia|]. specialize (Hr (prevs B b) ltac:(set_solver)). lia. }
  assert (Hnb : b <> nexts B b).
  { intros E. rewrite <- E in Hn. apply NoDup_app in Hnd as (_ & _ & Hnd%NoDup_cons). 
    apply elem_of_cons in Hn as [|]; [lia|tauto]. }
  split.
  - unfold unlink. by rewrite !length_alter.
  - apply NoDup_app in Hnd as (H1 & H2 & H3). apply NoDup_app. rewrite NoDup_cons in H3. set_solver.
  - intros i Hi. apply Hr. set_solver.
  - eapply path_ext; [..|apply (path_unlink _ _ _ _ b _ _ ltac:(by constructor) ltac:(by constructor) Hp)].
    + intros i _. unfold unlink. rewrite nexts_set_prev, prevs_set by done.
      rewrite upd_ne by done. rewrite nexts_set by (by rewrite length_alter).
      unfold upd. case_decide; [done|]. apply nexts_set_prev.
    + intros i _. unfold unlink. rewrite prevs_set_next. by apply prevs_set.
Qed.

Lemma link_chain B b l : chain B l -> (b < NBUF)%nat -> b ∉ l -> chain (link b B) (b :: l).
Proof.
  intros [Hlen Hnd Hr Hp] Hb Hbl.
  assert (Hz : NBUF ∉ l) by (intros Hz; apply Hr in Hz; lia).
  assert (Hbz : b ∉ NBUF :: l) by (apply not_elem_of_cons; split; [lia|done]).
  assert (Hn : nexts B NBUF ∈ NBUF :: l) by (rewrite (path_first _ _ _ _ _ Hp); apply hd_in).
  assert (Hnr : (nexts B NBUF < length B)%nat).
  { apply elem_of_cons in Hn as [->|Hn]; [lia|]. specialize (Hr _ Hn). lia. }
  split.
  - unfold link. by rewrite !length_alter.
  - by constructor.
  - intros i [->|Hi]%elem_of_cons; [done|by apply Hr].
  - assert (E : forall j, nexts (alter (set_b_prev NBUF) b (alter (set_b_next (nexts B NBUF)) b B)) j =
      upd (nexts B) b (nexts B NBUF) j).
    { intros j. rewrite nexts_set_prev. apply nexts_set. lia. }
    eapply path_ext; [..|apply (path_link _ _ _ b _ Hbz ltac:(by constructor) Hp)].
    + intros i _. unfold link. rewrite nexts_set by (rewrite !length_alter; lia).
      unfold upd at 1 2. case_decide; [done|]. by rewrite nexts_set_prev, E.
    + intros i _. unfold link. rewrite prevs_set_next, E, (upd_ne _ b) by lia.
      rewrite prevs_set by (by rewrite !length_alter).
      unfold upd at 1 2. case_decide; [done|]. rewrite prevs_set by (rewrite !length_alter; lia).
      unfold upd. case_decide; [done|]. apply prevs_set_next.
Qed.
End Ops.

Lemma ring_front B l1 b l2 :
  ring B (l1 ++ b :: l2) -> ring (link b (unlink b B)) (b :: l1 ++ l2).
Proof.
  intros H. pose proof (ring_nodup _ _ H) as [_ Hnd]%NoDup_cons.
  assert (Hc : chain B (l1 ++ b :: l2)).
  { split; [apply H|done| |apply H]. intros i. apply (ring_in _ _ _ H). }
  assert (Hb : (b < NBUF)%nat) by (apply (chain_range _ _ Hc); set_solver).
  destruct (link_chain _ b _ (unlink_chain _ _ _ _ Hc) Hb) as [H1 _ _ H4].
  { apply NoDup_app in Hnd as (_ & Hd & [Hb2 _]%NoDup_cons). set_solver. }
  split; [done| |done]. rewrite <- (ring_perm _ _ H). by rewrite Permutation_middle.
Qed.

(** A buffer without its links. *)
Definition bare (bf : buf) : buf := set_b_next 0 (set_b_prev 0 bf).

Lemma bare_alter f (i j : nat) (B : list buf) :
  (forall bf, bare (f bf) = bare bf) -> bare <$> alter f i B !! j = bare <$> B !! j.
Proof.
  intros H. destruct (decide (i = j)) as [<-|]; [|by rewrite list_lookup_alter_ne].
  rewrite list_lookup_alter_eq. destruct (B !! i); cbn; [|done]. by rewrite H.
Qed.
Lemma bare_front b (B : list buf) (j : nat) : bare <$> link b (unlink b B) !! j = bare <$> B !! j.
Proof. unfold link, unlink. by rewrite !bare_alter. Qed.

(** ** The abstract cache *)

Record centry : Type := mk_centry { c_ref : Z; c_data : list Z; c_held : bool }.

(** Slot [i] holds block [b] as entry [e] says. *)
Record slot_ok (me : nat) (s : kstate) (i : nat) (b : Z) (e : centry) : Prop := {
  so_dev : b_dev (bat (bufs s) i) = ROOTDEV;
  so_block : b_blockno (bat (bufs s) i) = b;
  so_ref : b_refcnt (bat (bufs s) i) = c_ref e;
  so_valid : b_valid (bat (bufs s) i) <> 0;
  so_data : b_data (bat (bufs s) i) = c_data e;
  so_lock : slock_of s (SLBuf i) = if c_held e then taken me s else sl_blank;
}.
(** Slot [i] is not referenced; if it holds a block, it is a copy. *)
Record idle_ok (s : kstate) (i : nat) : Prop := {
  io_ref : b_refcnt (bat (bufs s) i) = 0;
  io_lock : slock_of s (SLBuf i) = sl_blank;
  io_data : b_dev (bat (bufs s) i) = ROOTDEV -> b_valid (bat (bufs s) i) <> 0 ->
    b_data (bat (bufs s) i) = disk_block (disk s) (b_blockno (bat (bufs s) i));
}.
Definition entry_ok (e : centry) : Prop := 0 < c_ref e < 2147483648 /\ length (c_data e) = Z.to_nat BSIZE.

(** The cache of state [s] represents [C]; block [b] is in slot [J !! b]. *)
Record cache (me : nat) (J : gmap Z nat) (C : gmap Z centry) (s : kstate) : Prop := {
  ca_ring : exists l, ring (bufs s) l;
  ca_dom : forall b, J !! b = None <-> C !! b = None;
  ca_slot : forall b i e, J !! b = Some i -> C !! b = Some e ->
    (i < NBUF)%nat /\ slot_ok me s i b e /\ entry_ok e;
  ca_idle : forall i, (i < NBUF)%nat -> (forall b, J !! b <> Some i) -> idle_ok s i;
  ca_uniq : forall i j, (i < NBUF)%nat -> (j < NBUF)%nat ->
    b_dev (bat (bufs s) i) = ROOTDEV -> b_dev (bat (bufs s) j) = ROOTDEV ->
    b_blockno (bat (bufs s) i) = b_blockno (bat (bufs s) j) -> i = j;
  ca_disk : forall b, length (disk_block (disk s) b) = Z.to_nat BSIZE;
}.

Lemma cache_slot me J C s b i :
  cache me J C s -> J !! b = Some i ->
  exists e, C !! b = Some e /\ (i < NBUF)%nat /\ slot_ok me s i b e /\ entry_ok e.
Proof.
  intros H Hi. destruct (C !! b) as [e|] eqn:E.
  - exists e. split; [done|]. by apply (ca_slot _ _ _ _ H b i e).
  - apply (ca_dom _ _ _ _ H) in E. congruence.
Qed.

Lemma bare_eq (B B' : list buf) (j : nat) :
  bare <$> B' !! j = bare <$> B !! j -> bare (bat B' j) = bare (bat B j).
Proof. unfold bat. intros H. destruct (B' !! j), (B !! j); cbn in *; congruence. Qed.

Lemma slot_ok_bare me s s' j b e :
  bare (bat (bufs s') j) = bare (bat (bufs s) j) ->
  slock_of s' (SLBuf j) = slock_of s (SLBuf j) -> pid_of me s' = pid_of me s ->
  slot_ok me s j b e -> slot_ok me s' j b e.
Proof.
  intros E El Ep [H1 H2 H3 H4 H5 H6]. injection E as Ev _ Ed Eb Er Edt.
  split; [congruence..|]. rewrite El, H6. unfold taken. by rewrite Ep.
Qed.

Lemma idle_ok_bare s s' j :
  bare (bat (bufs s') j) = bare (bat (bufs s) j) ->
  slock_of s' (SLBuf j) = slock_of s (SLBuf j) ->
  (b_dev (bat (bufs s) j) = ROOTDEV ->
   disk_block (disk s') (b_blockno (bat (bufs s) j)) = disk_block (disk s) (b_blockno (bat (bufs s) j))) ->
  idle_ok s j -> idle_ok s' j.
Proof.
  intros E El Ek [H1 H2 H3]. injection E as Ev _ Ed Eb Er Edt.
  split; [congruence..|]. intros Hd Hv. rewrite Ed in Hd. rewrite Ev in Hv.
  rewrite Eb, Edt, Ek by done. by apply H3.
Qed.

Lemma cache_size me J C s : cache me J C s -> size J = size C.
Proof.
  intros H. rewrite <- !size_dom. f_equal. apply set_eq. intros b. rewrite !elem_of_dom.
  pose proof (ca_dom _ _ _ _ H b) as E. rewrite <- !not_eq_None_Some. tauto.
Qed.

(** [s'] is [s] but for slot [i], which now holds block [b], for the contents
    of block [b] on disk, and for the order of the list. *)
Record touched (me i : nat) (b : Z) (s s' : kstate) : Prop := {
  to_ring : exists l, ring (bufs s') l;
  to_bare : forall j, j <> i -> bare (bat (bufs s') j) = bare (bat (bufs s) j);
  to_lock : forall j, j <> i -> slock_of s' (SLBuf j) = slock_of s (SLBuf j);
  to_pid : pid_of me s' = pid_of me s;
  to_disk : forall b', b' <> b -> disk_block (disk s') b' = disk_block (disk s) b';
  to_len : length (disk_block (disk s') b) = Z.to_nat BSIZE;
  to_dev : b_dev (bat (bufs s') i) = ROOTDEV;
  to_block : b_blockno (bat (bufs s') i) = b;
}.

(** No other slot has block [b]. *)
Definition only_slot (i : nat) (b : Z) (s : kstate) : Prop :=
  forall j, (j < NBUF)%nat -> j <> i -> b_dev (bat (bufs s) j) = ROOTDEV ->
  b_blockno (bat (bufs s) j) <> b.
(** Slot [i] is the one of block [b], or it is idle and block [b] has none. *)
Definition may_hold (J : gmap Z nat) (i : nat) (b : Z) (s : kstate) : Prop :=
  J !! b = Some i \/ (forall b', J !! b' <> Some i) /\ only_slot i b s.

Lemma cache_block me J C s b i :
  cache me J C s -> J !! b = Some i -> (i < NBUF)%nat /\ b_dev (bat (bufs s) i) = ROOTDEV /\ b_blockno (bat (bufs s) i) = b.
Proof. intros H Hi. destruct (cache_slot _ _ _ _ _ _ H Hi) as (e & _ & ? & [] & _). done. Qed.

Lemma may_hold_only me J C s i b :
  cache me J C s -> may_hold J i b s -> only_slot i b s.
Proof.
  intros H [Hi|[_ Ho]]; [|done]. destruct (cache_block _ _ _ _ _ _ H Hi) as (? & ? & ?).
  intros j ? Hne Hd Hb. destruct Hne. apply (ca_uniq _ _ _ _ H); congruence.
Qed.

(** A block other than [b] is in another slot than [i]. *)
Lemma may_hold_other me J C s i b b' i' :
  cache me J C s -> may_hold J i b s -> b' <> b -> J !! b' = Some i' -> i' <> i.
Proof.
  intros H Hm Hb Hi' ->. destruct Hm as [Hi|[Hn _]]; [|by destruct (Hn b')].
  destruct (cache_block _ _ _ _ _ _ H Hi) as (_ & _ & E1).
  destruct (cache_block _ _ _ _ _ _ H Hi') as (_ & _ & E2). congruence.
Qed.

Lemma touched_uniq me J C s s' i b :
  cache me J C s -> may_hold J i b s -> touched me i b s s' ->
  forall j k, (j < NBUF)%nat -> (k < NBUF)%nat ->
  b_dev (bat (bufs s') j) = ROOTDEV -> b_dev (bat (bufs s') k) = ROOTDEV ->
  b_blockno (bat (bufs s') j) = b_blockno (bat (bufs s') k) -> j = k.
Proof.
  intros H Hm Ht j k Hj Hk Dj Dk E. pose proof (may_hold_only _ _ _ _ _ _ H Hm) as Ho.
  pose proof (to_block _ _ _ _ _ Ht) as Eb.
  destruct (decide (j = i)) as [->|Nj], (decide (k = i)) as [->|Nk]; [done|..].
  - pose proof (to_bare _ _ _ _ _ Ht k Nk) as Bk. injection Bk as _ _ Ek Ekb _ _.
    destruct (Ho k Hk Nk); congruence.
  - pose proof (to_bare _ _ _ _ _ Ht j Nj) as Bj. injection Bj as _ _ Ej Ejb _ _.
    destruct (Ho j Hj Nj); congruence.
  - pose proof (to_bare _ _ _ _ _ Ht k Nk) as Bk. injection Bk as _ _ Ek Ekb _ _.
    pose proof (to_bare _ _ _ _ _ Ht j Nj) as Bj. injection Bj as _ _ Ej Ejb _ _.
    apply (ca_uniq _ _ _ _ H); congruence.
Qed.

Lemma touched_slot me J C s s' i b b' i' e :
  cache me J C s -> may_hold J i b s -> touched me i b s s' -> b' <> b ->
  J !! b' = Some i' -> C !! b' = Some e -> (i' < NBUF)%nat /\ slot_ok me s' i' b' e /\ entry_ok e.
Proof.
  intros H Hm Ht Hb Hi He. destruct (ca_slot _ _ _ _ H _ _ _ Hi He) as (? & Hs & ?).
  split_and!; [done| |done]. pose proof (may_hold_other _ _ _ _ _ _ _ _ H Hm Hb Hi).
  by apply (slot_ok_bare me s); [apply Ht|apply Ht|apply Ht|].
Qed.

Lemma touched_idle me J C s s' i b j :
  cache me J C s -> may_hold J i b s -> touched me i b s s' -> (j < NBUF)%nat -> j <> i ->
  (forall b', J !! b' <> Some j) -> idle_ok s' j.
Proof.
  intros H Hm Ht Hj Hne Hn. apply (idle_ok_bare s); [by apply Ht|by apply Ht| |].
  - intros Hd. apply Ht. by apply (may_hold_only _ _ _ _ _ _ H Hm).
  - by apply (ca_idle _ _ _ _ H).
Qed.

Lemma touched_disk me J C s s' i b :
  cache me J C s -> touched me i b s s' -> forall b', length (disk_block (disk s') b') = Z.to_nat BSIZE.
Proof.
  intros H Ht b'. destruct (decide (b' = b)) as [->|Hne].
  - exact (to_len _ _ _ _ _ Ht).
  - rewrite (to_disk _ _ _ _ _ Ht) by done. apply (ca_disk _ _ _ _ H).
Qed.

Lemma cache_put me J C s s' i b e :
  cache me J C s -> (i < NBUF)%nat -> may_hold J i b s -> touched me i b s s' ->
  slot_ok me s' i b e -> entry_ok e -> cache me (<[b := i]> J) (<[b := e]> C) s'.
Proof.
  intros H Hi Hm Ht Hs He. split.
  - apply Ht.
  - intros b'. destruct (decide (b = b')) as [<-|Hne].
    + by rewrite !lookup_insert_eq.
    + rewrite !lookup_insert_ne by done. apply H.
  - intros b' i' e'. destruct (decide (b = b')) as [<-|Hne].
    + rewrite !lookup_insert_eq. intros [= <-] [= <-]. done.
    + rewrite !lookup_insert_ne by done. by apply (touched_slot _ _ _ _ _ _ _ _ _ _ H Hm Ht).
  - intros j Hj Hn. assert (j <> i) by (intros ->; apply (Hn b); by rewrite lookup_insert_eq).
    apply (touched_idle _ _ _ _ _ _ _ _ H Hm Ht); [done..|].
    intros b' Hb'. destruct (decide (b = b')) as [<-|Hne].
    + destruct Hm as [Hm|[_ Ho]]; [congruence|].
      destruct (cache_block _ _ _ _ _ _ H Hb') as (_ & ? & ?). by destruct (Ho j).
    + apply (Hn b'). by rewrite lookup_insert_ne.
  - by apply (touched_uniq _ _ _ _ _ _ _ H Hm Ht).
  - by apply (touched_disk _ _ _ _ _ _ _ H Ht).
Qed.

Lemma cache_del me J C s s' i b :
  cache me J C s -> J !! b = Some i -> touched me i b s s' -> idle_ok s' i ->
  cache me (delete b J) (delete b C) s'.
Proof.
  intros H Hi Ht Hid. assert (Hm : may_hold J i b s) by (by left). split.
  - apply Ht.
  - intros b'. destruct (decide (b = b')) as [<-|Hne].
    + by rewrite !lookup_delete_eq.
    + rewrite !lookup_delete_ne by done. apply H.
  - intros b' i' e'. destruct (decide (b = b')) as [<-|Hne]; [by rewrite lookup_delete_eq|].
    rewrite !lookup_delete_ne by done. by apply (touched_slot _ _ _ _ _ _ _ _ _ _ H Hm Ht).
  - intros j Hj Hn. destruct (decide (j = i)) as [->|Hji]; [done|].
    apply (touched_idle _ _ _ _ _ _ _ _ H Hm Ht); [done..|].
    intros b' Hb'. destruct (decide (b = b')) as [<-|Hne]; [congruence|].
    apply (Hn b'). by rewrite lookup_delete_ne.
  - by apply (touched_uniq _ _ _ _ _ _ _ H Hm Ht).
  - by apply (touched_disk _ _ _ _ _ _ _ H Ht).
Qed.

(** ** The operations on the abstract cache *)

Section Spec.
Context {L : Layout} {W : World} {D : DiskDriver} {DO : DiskOk D}.

(** Changes of one slot that keep its links. *)
Lemma touched_alter me i b s s' g :
  (exists l, ring (bufs s) l) -> (i < NBUF)%nat -> bufs s' = alter g i (bufs s) ->
  (forall bf, b_next (g bf) = b_next bf) -> (forall bf, b_prev (g bf) = b_prev bf) ->
  (forall j, j <> i -> slock_of s' (SLBuf j) = slock_of s (SLBuf j)) ->
  pid_of me s' = pid_of me s ->
  (forall b', b' <> b -> disk_block (disk s') b' = disk_block (disk s) b') ->
  length (disk_block (disk s') b) = Z.to_nat BSIZE ->
  b_dev (g (bat (bufs s) i)) = ROOTDEV -> b_blockno (g (bat (bufs s) i)) = b ->
  touched me i b s s'.
Proof.
  intros [l Hl] Hi Eb Hn Hp Hlk Hpid Hd Hdl Hdev Hblk.
  assert (Hlen : (i < length (bufs s))%nat) by (rewrite (ring_length _ _ Hl); lia).
  split; try done.
  - exists l. rewrite Eb. by apply ring_alter.
  - intros j Hj. by rewrite Eb, bat_alter_ne.
  - by rewrite Eb, bat_alter.
  - by rewrite Eb, bat_alter.
Qed.

Lemma idle_exists me J C s :
  cache me J C s -> (size J < NBUF)%nat -> exists i, (i < NBUF)%nat /\ forall b, J !! b <> Some i.
Proof.
  intros H Hsz. destruct (decide (Exists (fun i => i ∉ (map_to_list J).*2) (seq 0 NBUF))) as [E|E].
  - apply Exists_exists in E as (i & Hi%elem_of_seq & Hn). exists i. split; [lia|].
    intros b Hb. apply Hn. apply list_elem_of_fmap. exists (b, i). split; [done|].
    by apply elem_of_map_to_list.
  - exfalso. apply not_Exists_Forall in E; [|apply _].
    assert (Hsub : incl (seq 0 NBUF) (map_to_list J).*2).
    { intros i Hi. rewrite <- list_elem_of_In in *. rewrite Forall_forall in E.
      destruct (decide (i ∈ (map_to_list J).*2)); [done|]. by destruct (E i Hi). }
    apply NoDup_incl_length in Hsub; [|apply NoDup_ListNoDup, NoDup_seq].
    rewrite length_seq, length_fmap, length_map_to_list in Hsub. lia.
Qed.

(** The cache with a block newly in slot [i]. *)
Lemma claimed_cache me J C s s' b i g :
  cache me J C s -> (i < NBUF)%nat -> (forall b', J !! b' <> Some i) -> only_slot i b s ->
  bufs s' = alter g i (bufs s) -> slocks s' = <[SLBuf i := taken me s]> (slocks s) ->
  procs s' = procs s -> disk s' = disk s ->
  (forall bf, b_next (g bf) = b_next bf) -> (forall bf, b_prev (g bf) = b_prev bf) ->
  b_dev (g (bat (bufs s) i)) = ROOTDEV -> b_blockno (g (bat (bufs s) i)) = b ->
  b_refcnt (g (bat (bufs s) i)) = 1 -> b_valid (g (bat (bufs s) i)) <> 0 ->
  b_data (g (bat (bufs s) i)) = disk_block (disk s) b ->
  cache me (<[b := i]> J) (<[b := mk_centry 1 (disk_block (disk s) b) true]> C) s'.
Proof.
  intros H Hi Hidle Hon Eb Es Ep Ed Gn Gp Gd Gb Gr Gv Gt.
  destruct (ca_ring _ _ _ _ H) as [l Hl].
  assert (Hlen : (i < length (bufs s))%nat) by (rewrite (ring_length _ _ Hl); lia).
  assert (Hpid : pid_of me s' = pid_of me s) by (unfold pid_of, proc_of; by rewrite Ep).
  assert (Hbat : bat (bufs s') i = g (bat (bufs s) i)) by (rewrite Eb; by apply bat_alter).
  apply (cache_put me J C s); [done|done|by right| | |].
  - apply (touched_alter me i b s s' g); try done; [by exists l| |by rewrite Ed|].
    + intros j Hj. unfold slock_of. rewrite Es. by rewrite lookup_insert_ne by congruence.
    + rewrite Ed. apply (ca_disk _ _ _ _ H).
  - split; rewrite ?Hbat; try done. cbn. unfold slock_of. rewrite Es.
    rewrite lookup_insert_eq. unfold taken. cbn. by rewrite Hpid.
  - split; cbn; [lia|]. apply (ca_disk _ _ _ _ H).
Qed.

(** Reading a block into a slot [bget] has just claimed for it. *)
Lemma bread_claimed me J C s b i f :
  cache me J C s -> is_u32 b -> (i < NBUF)%nat ->
  (forall b', J !! b' <> Some i) -> only_slot i b s ->
  bget ROOTDEV b s = Ok i (upd_slock (SLBuf i) (taken me s) (upd_buf i f s)) ->
  (forall bf, b_next (f bf) = b_next bf) -> (forall bf, b_prev (f bf) = b_prev bf) ->
  b_dev (f (bat (bufs s) i)) = ROOTDEV -> b_blockno (f (bat (bufs s) i)) = b ->
  b_refcnt (f (bat (bufs s) i)) = 1 ->
  (b_valid (f (bat (bufs s) i)) <> 0 -> b_data (f (bat (bufs s) i)) = disk_block (disk s) b) ->
  exists s', bread ROOTDEV b s = Ok i s' /\ bkept me s s' /\ disk s' = disk s /\ dtrace s' = dtrace s /\
    cache me (<[b := i]> J) (<[b := mk_centry 1 (disk_block (disk s) b) true]> C) s'.
Proof.
  intros H Hb Hi Hidle Hon Eg Fn Fp Fd Fb Fr Fv.
  destruct (ca_ring _ _ _ _ H) as [l Hl].
  assert (Hlen : (i < length (bufs s))%nat) by (rewrite (ring_length _ _ Hl); lia).
  unfold bread. rewrite (bind_ok _ _ _ _ _ Eg). msimp.
  set (s1 := upd_slock (SLBuf i) (taken me s) (upd_buf i f s)).
  change (buf_of s1 i) with (bat (alter f i (bufs s)) i). rewrite bat_alter by done.
  destruct (Z.eqb_spec (b_valid (f (bat (bufs s) i))) 0) as [Ev|Ev].
  - rewrite Fb.
    destruct (disk_read_ok b i s1 Hb Hi) as (s2 & E2 & mm & u & k & ->).
    rewrite bind_assoc. rewrite (bind_ok _ _ _ _ _ E2). unfold bset. msimp.
    eexists. split; [reflexivity|]. split_and!; [|done|done|].
    + unfold s1. auto 20 with kept.
    + apply (claimed_cache me J C s _ b i
        (fun bf => set_b_valid 1 (set_b_data (disk_block (disk s) b) (f bf)))); try done.
      unfold s1. ksimp. by rewrite !list_alter_alter_eq.
  - msimp. eexists. split; [reflexivity|]. split_and!; [|done|done|].
    + unfold s1. auto 20 with kept.
    + apply (claimed_cache me J C s _ b i f); try done. by apply Fv.
Qed.

(** What a read makes of the entry of a block. *)
Definition read_entry (C : gmap Z centry) (s : kstate) (b : Z) : centry :=
  match C !! b with
  | Some e => mk_centry (c_ref e + 1) (c_data e) true
  | None => mk_centry 1 (disk_block (disk s) b) true
  end.
Definition readable (J : gmap Z nat) (C : gmap Z centry) (b : Z) : Prop :=
  match C !! b with
  | Some e => c_held e = false /\ c_ref e + 1 < 2147483648
  | None => (size J < NBUF)%nat
  end.

Lemma find_caches_some B l dev b i :
  ring B l -> find (caches B dev b) l = Some i ->
  (i < NBUF)%nat /\ b_dev (bat B i) = dev /\ b_blockno (bat B i) = b.
Proof.
  intros Hl [Hin Hc]%find_some. apply list_elem_of_In, (ring_in _ _ _ Hl) in Hin.
  unfold caches in Hc. apply andb_true_iff in Hc as [H1%Z.eqb_eq H2%Z.eqb_eq]. done.
Qed.
Lemma find_caches_none B l dev b j :
  ring B l -> find (caches B dev b) l = None -> (j < NBUF)%nat -> b_dev (bat B j) = dev ->
  b_blockno (bat B j) <> b.
Proof.
  intros Hl Hf Hj Hd Hb. apply (ring_in _ _ _ Hl), list_elem_of_In in Hj.
  pose proof (find_none _ _ Hf j Hj) as Hc. unfold caches in Hc.
  rewrite Hd, Hb, !Z.eqb_refl in Hc. done.
Qed.

(** [bread] of a block that is referenced. *)
Lemma bread_hit me J C s b i e :
  ctx me s -> cache me J C s -> J !! b = Some i -> C !! b = Some e -> c_held e = false ->
  c_ref e + 1 < 2147483648 ->
  exists s', bread ROOTDEV b s = Ok i s' /\ bkept me s s' /\ disk s' = disk s /\ dtrace s' = dtrace s /\
    cache me (<[b := i]> J) (<[b := mk_centry (c_ref e + 1) (c_data e) true]> C) s'.
Proof.
  intros Hc H Hi He Hh Hr. destruct (ca_ring _ _ _ _ H) as [l Hl].
  destruct (ca_slot _ _ _ _ H _ _ _ Hi He) as (HiN & [S1 S2 S3 S4 S5 S6] & [E1 E2]).
  assert (Hlen : (i < length (bufs s))%nat) by (rewrite (ring_length _ _ Hl); lia).
  rewrite Hh in S6.
  assert (Hf : find (caches (bufs s) ROOTDEV b) l = Some i).
  { destruct (find _ l) as [j|] eqn:E.
    - destruct (find_caches_some _ _ _ _ _ Hl E) as (? & ? & ?). f_equal.
      apply (ca_uniq _ _ _ _ H); congruence.
    - by destruct (find_caches_none _ _ _ _ i Hl E). }
  unfold bread. erewrite bind_ok by (apply (bget_found me _ _ _ l); rewrite ?S6; done). msimp.
  set (s1 := upd_slock (SLBuf i) (taken me s) (upd_buf i one_more s)).
  change (buf_of s1 i) with (bat (alter one_more i (bufs s)) i). rewrite bat_alter by done.
  cbn [one_more set_b_refcnt b_valid]. rewrite (proj2 (Z.eqb_neq _ _) S4). msimp.
  eexists. split; [reflexivity|]. split_and!; [unfold s1; auto 20 with kept|done|done|].
  apply (cache_put me J C s); [done|done|by left| | |].
  - apply (touched_alter me i b s s1 one_more); try done; [by exists l| |apply (ca_disk _ _ _ _ H)].
    intros j Hj. unfold s1. rewrite slock_of_upd_ne by congruence. done.
  - assert (Hb : bat (bufs s1) i = one_more (bat (bufs s) i)) by (by apply bat_alter).
    split; rewrite ?Hb; cbn; try done.
    + rewrite S3. apply u32_small. unfold is_u32. lia.
    + unfold s1. by rewrite slock_of_upd.
  - split; cbn; [lia|done].
Qed.

(** [bread] of a block that is not referenced. *)
Lemma bread_new me J C s b :
  ctx me s -> cache me J C s -> is_u32 b -> J !! b = None -> (size J < NBUF)%nat ->
  exists i s', bread ROOTDEV b s = Ok i s' /\ bkept me s s' /\ disk s' = disk s /\ dtrace s' = dtrace s /\
    cache me (<[b := i]> J) (<[b := mk_centry 1 (disk_block (disk s) b) true]> C) s'.
Proof.
  intros Hc H Hb Hn Hsz. destruct (ca_ring _ _ _ _ H) as [l Hl].
  destruct (find (caches (bufs s) ROOTDEV b) l) as [i|] eqn:Hf.
  - destruct (find_caches_some _ _ _ _ _ Hl Hf) as (Hi & Hd & Hbl).
    assert (Hidle : forall b', J !! b' <> Some i).
    { intros b' Hb'. destruct (cache_block _ _ _ _ _ _ H Hb') as (_ & _ & ?). congruence. }
    destruct (ca_idle _ _ _ _ H i Hi Hidle) as [I1 I2 I3].
    exists i. apply (bread_claimed me J C s b i one_more); try done.
    + intros j Hj Hne Hdj Hbj. destruct Hne. apply (ca_uniq _ _ _ _ H); congruence.
    + apply (bget_found me _ _ _ l); rewrite ?I2; done.
    + cbn. by rewrite I1.
    + cbn. intros Hv. rewrite I3 by done. by rewrite Hbl.
  - destruct (idle_exists _ _ _ _ H Hsz) as (k & Hk & Hkidle).
    destruct (find (unused (bufs s)) (rev l)) as [i|] eqn:Hu.
    2: { pose proof Hk as Hk'. apply (ring_in _ _ _ Hl), list_elem_of_In, in_rev in Hk'.
         pose proof (find_none _ _ Hu k Hk') as E. unfold unused in E.
         by rewrite (io_ref _ _ (ca_idle _ _ _ _ H k Hk Hkidle)) in E. }
    pose proof (find_some _ _ Hu) as [Hi Hun].
    apply in_rev, list_elem_of_In, (ring_in _ _ _ Hl) in Hi.
    unfold unused in Hun. apply Z.eqb_eq in Hun.
    assert (Hidle : forall b', J !! b' <> Some i).
    { intros b' Hb'. destruct (cache_slot _ _ _ _ _ _ H Hb') as (e & _ & _ & [] & [? _]). lia. }
    destruct (ca_idle _ _ _ _ H i Hi Hidle) as [I1 I2 I3].
    exists i. apply (bread_claimed me J C s b i (recycle ROOTDEV b)); try done.
    + intros j Hj Hne Hdj. by apply (find_caches_none _ _ _ _ _ Hl Hf).
    + apply (bget_recycle me _ _ _ l); rewrite ?I2; done.
Qed.

Lemma bread_spec me J C s b :
  ctx me s -> cache me J C s -> is_u32 b -> readable J C b ->
  exists i s', bread ROOTDEV b s = Ok i s' /\ bkept me s s' /\ disk s' = disk s /\ dtrace s' = dtrace s /\
    cache me (<[b := i]> J) (<[b := read_entry C s b]> C) s' /\
    forall j, J !! b = Some j -> j = i.
Proof.
  intros Hc H Hb Hr. unfold readable in Hr. unfold read_entry. destruct (J !! b) as [i|] eqn:Hi.
  - destruct (cache_slot _ _ _ _ _ _ H Hi) as (e & He & _). rewrite He in *.
    destruct (bread_hit me J C s b i e Hc H Hi He) as (s' & ?); [tauto..|].
    exists i, s'. naive_solver.
  - pose proof (proj1 (ca_dom _ _ _ _ H b) Hi) as He. rewrite He in *.
    destruct (bread_new me J C s b Hc H Hb Hi Hr) as (i & s' & ?). exists i, s'. naive_solver.
Qed.

Lemma bwrite_spec me J C s b i e :
  ctx me s -> cache me J C s -> is_u32 b -> J !! b = Some i -> C !! b = Some e -> c_held e = true ->
  exists s', bwrite i s = Ok tt s' /\ bkept me s s' /\
    disk s' = <[b := c_data e]> (disk s) /\ dtrace s' = dtrace s ++ [(b, c_data e)] /\
    cache me J C s'.
Proof.
  intros Hc H Hb Hi He Hh. destruct (ca_ring _ _ _ _ H) as [l Hl].
  destruct (ca_slot _ _ _ _ H _ _ _ Hi He) as (HiN & [S1 S2 S3 S4 S5 S6] & [E1 E2]).
  rewrite Hh in S6. unfold bwrite. erewrite bind_ok by (by apply (holdingsleep_ok me)).
  cbn [negb]. msimp. change (buf_of s i) with (bat (bufs s) i).
  destruct (disk_write_ok b i s (bat (bufs s) i) Hb) as (s' & E & mm & u & k & ->); [|done|].
  { apply lookup_bat. rewrite (ring_length _ _ Hl). lia. }
  rewrite S5 in E. eexists. split; [exact (eq_trans (f_equal (fun n => platform_disk_write n i s) S2) E)|].
   split_and!; [auto 20 with kept|done|done|].
  rewrite <- (insert_id J b i Hi), <- (insert_id C b e He).
  apply (cache_put me J C s); [done|done|by left| |by split; rewrite ?Hh|done].
  split; try done; [by exists l|..]; ksimp.
  - intros b' Hb'. unfold disk_block. by rewrite lookup_insert_ne.
  - unfold disk_block. by rewrite lookup_insert_eq.
Qed.

Lemma bset_data_spec me J C s b i e d :
  cache me J C s -> J !! b = Some i -> C !! b = Some e -> length d = Z.to_nat BSIZE ->
  cache me J (<[b := mk_centry (c_ref e) d (c_held e)]> C) (upd_buf i (set_b_data d) s).
Proof.
  intros H Hi He Hd. destruct (ca_ring _ _ _ _ H) as [l Hl].
  destruct (ca_slot _ _ _ _ H _ _ _ Hi He) as (HiN & [S1 S2 S3 S4 S5 S6] & [E1 E2]).
  assert (Hlen : (i < length (bufs s))%nat) by (rewrite (ring_length _ _ Hl); lia).
  rewrite <- (insert_id J b i Hi).
  apply (cache_put me J C s); [done|done|by left| | |done].
  - apply (touched_alter me i b s _ (set_b_data d)); try done; [by exists l|apply (ca_disk _ _ _ _ H)].
  - assert (Hb : bat (bufs (upd_buf i (set_b_data d) s)) i = set_b_data d (bat (bufs s) i))
      by (by apply bat_alter).
    by split; rewrite ?Hb.
Qed.

(** The part of [brelse] both cases share. *)
Lemma brelse_unlock me J C s b i e :
  ctx me s -> cache me J C s -> J !! b = Some i -> C !! b = Some e -> c_held e = true ->
  let s1 := set_procs (imap (wake (Some me) (Some (CSleep (SLBuf i)))) (procs s))
              (upd_slock (SLBuf i) sl_blank s) in
  brelse i s =
  Ok tt (set_bufs (let B := alter one_less i (bufs s) in
                   if c_ref e =? 1 then link i (unlink i B) else B) s1).
Proof.
  intros Hc H Hi He Hh s1. destruct (ca_ring _ _ _ _ H) as [l Hl].
  destruct (ca_slot _ _ _ _ H _ _ _ Hi He) as (HiN & [S1 S2 S3 S4 S5 S6] & [E1 E2]).
  assert (Hlen : (i < length (bufs s))%nat) by (rewrite (ring_length _ _ Hl); lia).
  rewrite Hh in S6. unfold brelse. erewrite bind_ok by (by apply (holdingsleep_ok me)). cbn [negb].
  erewrite bind_ok by (by apply (releasesleep_ok me)). fold s1.
  assert (Hc1 : ctx me s1) by (eapply bkept_ctx, Hc;
    apply (bkept_wake me s (upd_slock (SLBuf i) sl_blank s)); auto with kept).
  pose proof (ctx_settled _ _ Hc1) as Hs. pose proof (ctx_locks _ _ Hc1 LBcache I) as Hf.
  mstep acquire_ok. unfold bset. msimp.
  change (buf_of (upd_buf i (fun bf => set_b_refcnt (u32 (b_refcnt bf - 1)) bf) (acq LBcache s1)) i)
    with (bat (alter one_less i (bufs s)) i).
  rewrite bat_alter by done. cbn [one_less set_b_refcnt b_refcnt]. rewrite S3.
  rewrite u32_small by (unfold is_u32; lia).
  destruct (Z.eqb_spec (c_ref e) 1) as [E|E].
  - rewrite E. change (1 - 1 =? 0) with true. cbv iota.
    rewrite (bind_ok _ _ _ _ _ (to_front_ok i _)). by apply (release_bufs LBcache).
  - rewrite (proj2 (Z.eqb_neq (c_ref e - 1) 0)) by lia. msimp. by apply (release_bufs LBcache).
Qed.

Lemma brelse_keep me J C s b i e :
  ctx me s -> cache me J C s -> J !! b = Some i -> C !! b = Some e -> c_held e = true -> 1 < c_ref e ->
  exists s', brelse i s = Ok tt s' /\ bkept me s s' /\ disk s' = disk s /\ dtrace s' = dtrace s /\
    cache me J (<[b := mk_centry (c_ref e - 1) (c_data e) false]> C) s'.
Proof.
  intros Hc H Hi He Hh Hr. rewrite (brelse_unlock me J C s b i e) by done. cbv zeta.
  rewrite (proj2 (Z.eqb_neq (c_ref e) 1)) by lia.
  eexists. split; [reflexivity|]. split_and!; [|done|done|].
  { apply bkept_set_bufs. apply (bkept_wake me s (upd_slock (SLBuf i) sl_blank s)). auto with kept. }
  set (s' := set_bufs _ _). destruct (ca_ring _ _ _ _ H) as [l Hl].
  destruct (ca_slot _ _ _ _ H _ _ _ Hi He) as (HiN & [S1 S2 S3 S4 S5 S6] & [E1 E2]).
  assert (Hlen : (i < length (bufs s))%nat) by (rewrite (ring_length _ _ Hl); lia).
  assert (Hbat : bat (bufs s') i = one_less (bat (bufs s) i)) by (by apply bat_alter).
  rewrite <- (insert_id J b i Hi). apply (cache_put me J C s); [done|done|by left| | |].
  - apply (touched_alter me i b s s' one_less); try done; [by exists l|..].
    + intros j Hj. unfold slock_of, s'. ksimp. by rewrite lookup_insert_ne by congruence.
    + unfold pid_of, proc_of, s'. ksimp. by rewrite (proj1 (wake_woken me _ _)).
    + apply (ca_disk _ _ _ _ H).
  - split; rewrite ?Hbat; cbn; try done.
    + rewrite S3. apply u32_small. unfold is_u32. lia.
    + unfold slock_of, s'. ksimp. by rewrite lookup_insert_eq.
  - split; cbn; [lia|done].
Qed.

Lemma brelse_drop me J C s b i e :
  ctx me s -> cache me J C s -> J !! b = Some i -> C !! b = Some e -> c_held e = true -> c_ref e = 1 ->
  c_data e = disk_block (disk s) b ->
  exists s', brelse i s = Ok tt s' /\ bkept me s s' /\ disk s' = disk s /\ dtrace s' = dtrace s /\
    cache me (delete b J) (delete b C) s'.
Proof.
  intros Hc H Hi He Hh Hr Hclean. rewrite (brelse_unlock me J C s b i e) by done. cbv zeta.
  rewrite Hr. cbn [Z.eqb Pos.eqb].
  eexists. split; [reflexivity|]. split_and!; [|done|done|].
  { apply bkept_set_bufs. apply (bkept_wake me s (upd_slock (SLBuf i) sl_blank s)). auto with kept. }
  set (s' := set_bufs _ _). destruct (ca_ring _ _ _ _ H) as [l Hl].
  destruct (ca_slot _ _ _ _ H _ _ _ Hi He) as (HiN & [S1 S2 S3 S4 S5 S6] & [E1 E2]).
  assert (Hlen : (i < length (bufs s))%nat) by (rewrite (ring_length _ _ Hl); lia).
  assert (Hbare : forall j, bare (bat (bufs s') j) = bare (bat (alter one_less i (bufs s)) j)).
  { intros j. apply bare_eq, bare_front. }
  pose proof (Hbare i) as Hb. rewrite bat_alter in Hb by done. injection Hb as Bv _ Bd Bb Br Bt.
  apply (cache_del me J C s _ i b); [done|done| |].
  - split; try done.
    + apply (ring_in _ _ _ Hl) in HiN. apply list_elem_of_split in HiN as (l1 & l2 & ->).
      eexists. apply ring_front. by apply ring_alter.
    + intros j Hj. rewrite Hbare. by rewrite bat_alter_ne by done.
    + intros j Hj. unfold slock_of, s'. ksimp. by rewrite lookup_insert_ne by congruence.
    + unfold pid_of, proc_of, s'. ksimp. by rewrite (proj1 (wake_woken me _ _)).
    + apply (ca_disk _ _ _ _ H).
    + etrans; [exact Bd|exact S1].
    + etrans; [exact Bb|exact S2].
  - split; change (bufs s') with (link i (unlink i (alter one_less i (bufs s)))).
    + rewrite Br, S3, Hr. done.
    + unfold slock_of, s'. ksimp. by rewrite lookup_insert_eq.
    + intros _ _. rewrite Bt, Bb, S5, S2. done.
Qed.

(** A change of the reference count alone. *)
Lemma cache_ref me J C s b i e g r :
  cache me J C s -> J !! b = Some i -> C !! b = Some e -> 0 < r < 2147483648 ->
  (forall bf, bare (g bf) = bare (set_b_refcnt (b_refcnt (g bf)) bf)) ->
  (forall bf, b_next (g bf) = b_next bf) -> (forall bf, b_prev (g bf) = b_prev bf) ->
  b_refcnt (g (bat (bufs s) i)) = r ->
  cache me J (<[b := mk_centry r (c_data e) (c_held e)]> C) (upd_buf i g s).
Proof.
  intros H Hi He Hr Hg Gn Gp Gr. destruct (ca_ring _ _ _ _ H) as [l Hl].
  destruct (ca_slot _ _ _ _ H _ _ _ Hi He) as (HiN & [S1 S2 S3 S4 S5 S6] & [E1 E2]).
  assert (Hlen : (i < length (bufs s))%nat) by (rewrite (ring_length _ _ Hl); lia).
  specialize (Hg (bat (bufs s) i)). injection Hg as Gv _ Gd Gb Gt.
  rewrite <- (insert_id J b i Hi).
  apply (cache_put me J C s); [done|done|by left| | |done].
  - apply (touched_alter me i b s _ g); try done; [by exists l|apply (ca_disk _ _ _ _ H)|congruence..].
  - assert (Hb : bat (bufs (upd_buf i g s)) i = g (bat (bufs s) i)) by (by apply bat_alter).
    split; rewrite ?Hb; cbn; congruence || done.
Qed.

Lemma bpin_spec me J C s b i e :
  ctx me s -> cache me J C s -> J !! b = Some i -> C !! b = Some e -> c_ref e + 1 < 2147483648 ->
  exists s', bpin i s = Ok tt s' /\ bkept me s s' /\ disk s' = disk s /\ dtrace s' = dtrace s /\
    cache me J (<[b := mk_centry (c_ref e + 1) (c_data e) (c_held e)]> C) s'.
Proof.
  intros Hc H Hi He Hr. pose proof (ctx_settled _ _ Hc) as Hs.
  pose proof (ctx_locks _ _ Hc LBcache I) as Hf. exists (upd_buf i one_more s).
  split. { unfold bpin. mstep acquire_ok. by apply (release_bufs LBcache). }
  split_and!; [auto with kept|done|done|].
  destruct (ca_slot _ _ _ _ H _ _ _ Hi He) as (HiN & [S1 S2 S3 S4 S5 S6] & [E1 E2]).
  apply (cache_ref me J C s b i e one_more); try done; [lia|].
  cbn. rewrite S3. apply u32_small. unfold is_u32. lia.
Qed.

Lemma bunpin_spec me J C s b i e :
  ctx me s -> cache me J C s -> J !! b = Some i -> C !! b = Some e -> 1 < c_ref e ->
  exists s', bunpin i s = Ok tt s' /\ bkept me s s' /\ disk s' = disk s /\ dtrace s' = dtrace s /\
    cache me J (<[b := mk_centry (c_ref e - 1) (c_data e) (c_held e)]> C) s'.
Proof.
  intros Hc H Hi He Hr. pose proof (ctx_settled _ _ Hc) as Hs.
  pose proof (ctx_locks _ _ Hc LBcache I) as Hf. exists (upd_buf i one_less s).
  split. { unfold bunpin. mstep acquire_ok. by apply (release_bufs LBcache). }
  split_and!; [auto with kept|done|done|].
  destruct (ca_slot _ _ _ _ H _ _ _ Hi He) as (HiN & [S1 S2 S3 S4 S5 S6] & [E1 E2]).
  apply (cache_ref me J C s b i e one_less); try done; [lia|].
  cbn. rewrite S3. apply u32_small. unfold is_u32. lia.
Qed.
End Spec.
