(* ===== verification/BioRefine.v ===== *)
(** * The buffer cache refines the map of referenced blocks

    A client of bio.c reads blocks, changes, writes, releases and pins the
    buffers it was given.  [brun] runs such a sequence of calls on the kernel
    state, [astep] gives the effect of each on the abstract cache and disk. *)
From S2P Require Import Prelude Memory Machine Platform Sv32 Spinlock Printf Kalloc Vm Proc Sleeplock Bio Trap Nemu ProcSpec SleepSpec NemuSpec BioSpec.
From stdpp Require Import gmap strings countable prelude.

Open Scope Z_scope.

(** ** Initialisation *)

Section Init.
Context {L : Layout} {W : World} {D : DiskDriver}.

(** After [binit] has inserted the buffers below [k]. *)
Record inited (s : kstate) (k : nat) (t : kstate) : Prop := {
  in_chain : chain (bufs t) (rev (seq 0 k));
  in_bare : forall j, bare (bat (bufs t) j) = bare (bat (bufs s) j);
  in_slock : forall j, (j < k)%nat -> slock_of t (SLBuf j) = sl_blank;
  in_lock : forall j, (j < k)%nat -> lock_free (LSleep (SLBuf j)) t;
  in_bcache : lock_free LBcache t;
  in_rest : exists Lk Sl B, t = set_locks Lk (set_slocks Sl (set_bufs B s));
}.

Lemma binit_turn_ok s k t :
  (k < NBUF)%nat -> inited s k t -> exists t', binit_turn k t = Ok tt t' /\ inited s (S k) t'.
Proof.
  intros Hk [H1 H2 H3 H4 H5 (Lk & Sl & B & H6)].
  exists (set_bufs (link k (bufs t)) (upd_slock (SLBuf k) sl_blank (upd_lock (LSleep (SLBuf k)) unlocked t))).
  split; [reflexivity|]. split.
  - rewrite seq_S, rev_app_distr. cbn. apply link_chain; [done|done|].
    intros ?%list_elem_of_In%in_rev%in_seq. lia.
  - intros j. rewrite <- H2. apply bare_eq. ksimp. unfold link. by rewrite !bare_alter.
  - intros j Hj. unfold slock_of. ksimp. destruct (decide (j = k)) as [->|].
    + by rewrite lookup_insert_eq.
    + rewrite lookup_insert_ne by congruence. apply H3. lia.
  - intros j Hj. unfold lock_free. ksimp. destruct (decide (j = k)) as [->|].
    + by rewrite lookup_insert_eq.
    + rewrite lookup_insert_ne by congruence. apply H4. lia.
  - unfold lock_free. ksimp. by rewrite lookup_insert_ne by done.
  - rewrite H6. by eexists _, _, _.
Qed.

(** The cache of a machine that has just run [binit] is empty. *)
Lemma binit_spec me s :
  length (bufs s) = S NBUF ->
  (forall i, (i < NBUF)%nat -> b_refcnt (bat (bufs s) i) = 0 /\ b_dev (bat (bufs s) i) <> ROOTDEV) ->
  (forall b, length (disk_block (disk s) b) = Z.to_nat BSIZE) ->
  exists s', binit s = Ok tt s' /\ cache me ∅ ∅ s' /\
    exists Lk Sl B, s' = set_locks Lk (set_slocks Sl (set_bufs B s)).
Proof.
  intros Hlen Hz Hd. unfold binit, initlock, bset. msimp.
  set (s1 := upd_buf NBUF (set_b_next NBUF) (upd_buf NBUF (set_b_prev NBUF) (upd_lock LBcache unlocked s))).
  destruct (for_range_inv (inited s) NBUF 0 binit_turn s1) as (s' & E & [H1 H2 H3 H4 H5 H6]).
  - split; try lia.
    + split; [unfold s1; ksimp; by rewrite !length_alter|constructor|intros i Hi; by apply elem_of_nil in Hi|].
      change (path (nexts (bufs s1)) (prevs (bufs s1)) NBUF [] NBUF). cbn [path].
      unfold nexts, prevs, s1. ksimp. rewrite !bat_alter by (rewrite ?length_alter; lia). done.
    + intros j. apply bare_eq. unfold s1. ksimp. by rewrite !bare_alter.
    + unfold lock_free, s1. ksimp. by rewrite lookup_insert_eq.
    + by eexists _, _, _.
  - intros i t Hi. apply binit_turn_ok. lia.
  - exists s'. split; [done|]. split; [|done]. cbn [Nat.add] in *. split.
    + exists (rev (seq 0 NBUF)). split; [apply H1| |apply H1]. symmetry. apply Permutation_rev.
    + done.
    + done.
    + intros i Hi _. pose proof (H2 i) as Hb. injection Hb as Bv _ Bd Bb Br Bt.
      destruct (Hz i Hi). split; [congruence|by apply H3|congruence].
    + intros i j Hi Hj Di. pose proof (H2 i) as Hb. injection Hb as Bv _ Bd Bb Br Bt.
      destruct (Hz i Hi). congruence.
    + destruct H6 as (Lk & Sl & B & ->). done.
Qed.
End Init.

(** ** Sequences of calls *)

Inductive bop : Type :=
| BRead (b : Z) | BSet (b : Z) (d : list Z) | BWrite (b : Z) | BRelse (b : Z) | BPin (b : Z) | BUnpin (b : Z).

Definition bnum (o : bop) : Z :=
  match o with BRead b | BSet b _ | BWrite b | BRelse b | BPin b | BUnpin b => b end.

(** The abstract state: the referenced blocks, the disk and its write trace. *)
Record astate : Type := mk_astate { a_cache : gmap Z centry; a_disk : gmap Z (list Z); a_trace : list (Z * list Z) }.

(** The effect of a call, [None] when the caller may not make it. *)
Definition astep (o : bop) (a : astate) : option astate :=
  let C := a_cache a in
  if negb ((0 <=? bnum o) && (bnum o <? 4294967296)) then None else
  let with_ e b := Some (mk_astate (<[b := e]> C) (a_disk a) (a_trace a)) in
  match o with
  | BRead b =>
    match C !! b with
    | None => if (size C <? NBUF)%nat then with_ (mk_centry 1 (disk_block (a_disk a) b) true) b else None
    | Some e => if c_held e || negb (c_ref e + 1 <? 2147483648) then None
                else with_ (mk_centry (c_ref e + 1) (c_data e) true) b
    end
  | BSet b d =>
    match C !! b with
    | Some e => if c_held e && (length d =? Z.to_nat BSIZE)%nat
                then with_ (mk_centry (c_ref e) d (c_held e)) b else None
    | None => None
    end
  | BWrite b =>
    match C !! b with
    | Some e => if c_held e then Some (mk_astate C (<[b := c_data e]> (a_disk a)) (a_trace a ++ [(b, c_data e)]))
                else None
    | None => None
    end
  | BRelse b =>
    match C !! b with
    | Some e =>
      if negb (c_held e) then None else
      if c_ref e =? 1 then
        if decide (c_data e = disk_block (a_disk a) b)
        then Some (mk_astate (delete b C) (a_disk a) (a_trace a)) else None
      else with_ (mk_centry (c_ref e - 1) (c_data e) false) b
    | None => None
    end
  | BPin b =>
    match C !! b with
    | Some e => if c_ref e + 1 <? 2147483648
                then with_ (mk_centry (c_ref e + 1) (c_data e) (c_held e)) b else None
    | None => None
    end
  | BUnpin b =>
    match C !! b with
    | Some e => if 1 <? c_ref e then with_ (mk_centry (c_ref e - 1) (c_data e) (c_held e)) b else None
    | None => None
    end
  end.

Fixpoint asteps (l : list bop) (a : astate) : option astate :=
  match l with
  | [] => Some a
  | o :: l' => match astep o a with Some a' => asteps l' a' | None => None end
  end.

Section Refine.
Context {L : Layout} {W : World} {D : DiskDriver}.

(** The calls themselves; the client remembers in [J] the buffer it was given
    for each block. *)
Definition brun1 (o : bop) (J : gmap Z nat) : K (gmap Z nat) :=
  match o with
  | BRead b => i ← bread ROOTDEV b; mret (<[b := i]> J)
  | BSet b d => bset (default 0%nat (J !! b)) (set_b_data d) ;; mret J
  | BWrite b => bwrite (default 0%nat (J !! b)) ;; mret J
  | BRelse b => brelse (default 0%nat (J !! b)) ;; mret J
  | BPin b => bpin (default 0%nat (J !! b)) ;; mret J
  | BUnpin b => bunpin (default 0%nat (J !! b)) ;; mret J
  end.
Fixpoint brun (l : list bop) (J : gmap Z nat) : K (gmap Z nat) :=
  match l with
  | [] => mret J
  | o :: l' => J' ← brun1 o J; brun l' J'
  end.

(** The kernel state represents the abstract one; the handles of [J] for
    blocks that are referenced are good. *)
Record represents (me : nat) (J : gmap Z nat) (a : astate) (s : kstate) : Prop := {
  re_ctx : ctx me s;
  re_cache : exists J', cache me J' (a_cache a) s /\
    forall b i, J' !! b = Some i -> J !! b = Some i;
  re_disk : disk s = a_disk a;
  re_trace : dtrace s = a_trace a;
}.

Lemma brun1_read {DO : DiskOk D} me J J' C s b a' :
  ctx me s -> cache me J' C s -> (forall b i, J' !! b = Some i -> J !! b = Some i) -> is_u32 b ->
  match C !! b with
  | None => if (size J' <? NBUF)%nat
            then Some (mk_astate (<[b := mk_centry 1 (disk_block (disk s) b) true]> C) (disk s) (dtrace s))
            else None
  | Some e => if c_held e || negb (c_ref e + 1 <? 2147483648) then None
              else Some (mk_astate (<[b := mk_centry (c_ref e + 1) (c_data e) true]> C) (disk s) (dtrace s))
  end = Some a' ->
  exists J1 s', (i ← bread ROOTDEV b; mret (<[b := i]> J)) s = Ok J1 s' /\
    represents me J1 a' s' /\ bkept me s s'.
Proof.
  intros Hc H HJ Hu Ha.
  assert (Hr : readable J' C b /\ a' = mk_astate (<[b := read_entry C s b]> C) (disk s) (dtrace s)).
  { unfold readable, read_entry. destruct (C !! b) as [e|].
    - destruct (c_held e); [done|]. cbn [orb] in Ha.
      destruct (Z.ltb_spec (c_ref e + 1) 2147483648); [|done]. by injection Ha as <-.
    - destruct (Nat.ltb_spec (size J') NBUF); [|done]. by injection Ha as <-. }
  destruct Hr as [Hr ->].
  destruct (bread_spec me J' C s b Hc H Hu Hr) as (i & s' & E & Hk & Ed & Et & H' & _).
  exists (<[b := i]> J), s'. rewrite (bind_ok _ _ _ _ _ E). split; [done|]. split; [|done].
  split; [by eapply bkept_ctx| |done|done]. exists (<[b := i]> J'). split; [done|].
  intros b' i'. destruct (decide (b = b')) as [<-|].
  - by rewrite !lookup_insert_eq.
  - rewrite !lookup_insert_ne by done. apply HJ.
Qed.

Lemma brun1_spec {DO : DiskOk D} me o J a a' s :
  represents me J a s -> astep o a = Some a' ->
  exists J1 s', brun1 o J s = Ok J1 s' /\ represents me J1 a' s' /\ bkept me s s'.
Proof.
  intros [Hc (J' & H & HJ) Hd Ht] Ha. destruct a as [C d tr]; cbn [a_cache a_disk a_trace] in *. subst.
  assert (Hget : forall b e, C !! b = Some e -> exists i, J' !! b = Some i /\ default 0%nat (J !! b) = i).
  { intros b e He. destruct (J' !! b) as [i|] eqn:E.
    - exists i. by rewrite (HJ b i E).
    - apply (ca_dom _ _ _ _ H) in E. congruence. }
  assert (Hend : forall (m : K unit) C' d' tr' J2,
    (exists s', m s = Ok tt s' /\ bkept me s s' /\ disk s' = d' /\ dtrace s' = tr' /\ cache me J2 C' s') ->
    (forall b i, J2 !! b = Some i -> J' !! b = Some i) ->
    exists J1 s', (m ;; mret J) s = Ok J1 s' /\ represents me J1 (mk_astate C' d' tr') s' /\ bkept me s s').
  { intros m C' d' tr' J2 (s' & E & Hk & <- & <- & Hc') HJ2. exists J, s'.
    rewrite (bind_ok _ _ _ _ _ E). split; [done|]. split; [|done].
    split; [by eapply bkept_ctx| |done|done]. exists J2. split; [done|]. intros; by apply HJ, HJ2. }
  unfold astep in Ha. cbn [a_cache a_disk a_trace] in Ha.
  destruct (Z.leb_spec 0 (bnum o)); [|done]. destruct (Z.ltb_spec (bnum o) 4294967296); [|done].
  cbn [andb negb] in Ha. assert (Hu : is_u32 (bnum o)) by done.
  destruct o as [b|b d|b|b|b|b]; cbn [brun1 bnum] in *.
  { apply (brun1_read me J J' C s b a'); try done. by rewrite (cache_size _ _ _ _ H). }
  all: destruct (C !! b) as [e|] eqn:He; [|done]; destruct (Hget b e He) as (i & Hi & Ei); rewrite Ei.
  - destruct (c_held e) eqn:Hh; [|done]. cbn [andb] in Ha.
    destruct (Nat.eqb_spec (length d) (Z.to_nat BSIZE)); [|done]. injection Ha as <-.
    apply (Hend _ _ _ _ J'); [|done]. eexists. split; [reflexivity|].
    split_and!; [auto with kept|done|done|]. rewrite <- Hh. by apply bset_data_spec.
  - destruct (c_held e) eqn:Hh; [|done]. injection Ha as <-.
    apply (Hend _ _ _ _ J'); [|done]. by apply bwrite_spec.
  - destruct (c_held e) eqn:Hh; [|done]. cbn [negb] in Ha.
    destruct (Z.eqb_spec (c_ref e) 1).
    + case_decide; [|done]. injection Ha as <-. apply (Hend _ _ _ _ (delete b J')).
      * by apply (brelse_drop me J' C s b i e).
      * intros b' i'. by intros [_ ?]%lookup_delete_Some.
    + injection Ha as <-. apply (Hend _ _ _ _ J'); [|done]. apply brelse_keep; try done.
      destruct (ca_slot _ _ _ _ H _ _ _ Hi He) as (_ & _ & [? _]). lia.
  - destruct (Z.ltb_spec (c_ref e + 1) 2147483648); [|done]. injection Ha as <-.
    apply (Hend _ _ _ _ J'); [|done]. by apply bpin_spec.
  - destruct (Z.ltb_spec 1 (c_ref e)); [|done]. injection Ha as <-.
    apply (Hend _ _ _ _ J'); [|done]. by apply bunpin_spec.
Qed.
End Refine.

(** C2: the buffer cache refines the map of referenced blocks.  For every
    sequence of calls that callers are allowed to make, bio.c on its linked
    list of NBUF buffers returns from each without panicking, in a state that
    represents the abstract outcome: each referenced block is in exactly one
    buffer, with its count, its lock and the last data put there; reading a
    block that is not referenced gives what is on disk, whatever was cached or
    recycled before; writes reach the disk in order; and nothing else of the
    kernel changes. *)
Theorem bcache_refines (L : Layout) (W : World) (D : DiskDriver) (DO : DiskOk D) me l : forall J a a' s,
  represents me J a s -> asteps l a = Some a' ->
  exists J' s', brun l J s = Ok J' s' /\ represents me J' a' s' /\ bkept me s s'.
Proof.
  induction l as [|o l IH]; intros J a a' s H Ha; cbn [asteps brun] in *.
  - injection Ha as <-. exists J, s. split; [done|]. split; [done|apply bkept_refl].
  - destruct (astep o a) as [a1|] eqn:E1; [|done].
    destruct (brun1_spec me o J a a1 s H E1) as (J1 & s1 & R1 & H1 & K1).
    destruct (IH J1 a1 a' s1 H1 Ha) as (J2 & s2 & R2 & H2 & K2).
    exists J2, s2. rewrite (bind_ok _ _ _ _ _ R1). split; [done|]. split; [done|].
    by eapply bkept_trans.
Qed.

(** ** A machine to run it on *)

Lemma cache_set_locks me J C Lk s : cache me J C s -> cache me J C (set_locks Lk s).
Proof.
  intros [H1 H2 H3 H4 H5 H6]. split; try done.
  - intros b i e Hi He. destruct (H3 b i e Hi He) as (? & [] & ?). done.
  - intros i Hi Hn. destruct (H4 i Hi Hn). done.
Qed.

(** Two processes, the cache initialised, a machine booted on the disk [d]. *)
Definition booted_on (d : gmap Z (list Z)) : kstate :=
  set_locks boot_locks (final (binit (set_disk d two_pids))).

Lemma booted_on_ok d :
  (forall b, length (disk_block d b) = Z.to_nat BSIZE) ->
  ctx 0 (booted_on d) /\ cache 0 ∅ ∅ (booted_on d) /\
  exists Sl B, booted_on d = set_slocks Sl (set_bufs B (set_disk d two_pids)).
Proof.
  intros Hd. destruct (binit_spec 0 (set_disk d two_pids) eq_refl) as (s' & E & Hc & Lk & Sl & B & ->).
  - intros i Hi. change (bufs (set_disk d two_pids)) with (replicate (S NBUF) blank_buf).
    unfold bat. rewrite lookup_replicate_2 by lia. done.
  - exact Hd.
  - unfold booted_on. rewrite E. cbn [final].
    split_and!; [|by apply cache_set_locks|by exists Sl, B].
    destruct two_pids_ctx as [[S1 S2 S3] Hl Hcur Hn Hme].
    split; [split; [exact S1|exact S2|exact S3]|exact Hl|exact Hcur|exact Hn|exact Hme].
Qed.

Lemma bio_machine_ok :
  ctx 0 (booted_on ∅) /\ cache 0 ∅ ∅ (booted_on ∅) /\ disk (booted_on ∅) = ∅ /\ dtrace (booted_on ∅) = [].
Proof.
  destruct (booted_on_ok ∅) as (H1 & H2 & Sl & B & E); [intros b; reflexivity|].
  split_and!; [done|done|by rewrite E..].
Qed.

Definition sample : list Z := replicate 512 65.
Definition sample_ops : list bop :=
  [BRead 7; BSet 7 sample; BPin 7; BWrite 7; BRelse 7; BRead 9; BRelse 9; BRead 7].

Lemma bcache_refines_witness :
  exists a' J' s',
  asteps sample_ops (mk_astate ∅ ∅ []) = Some a' /\
  @brun nemu_world (@nemu_disk_driver test_layout nemu_world) sample_ops ∅ (booted_on ∅) = Ok J' s' /\
  disk_block (disk s') 7 = sample.
Proof.
  destruct (asteps sample_ops (mk_astate ∅ ∅ [])) as [a'|] eqn:E; [|vm_compute in E; discriminate].
  destruct bio_machine_ok as (H1 & H2 & H3 & H4).
  destruct (bcache_refines test_layout nemu_world (@nemu_disk_driver test_layout nemu_world)
    (nemu_disk_laws _ _ nemu_world_disk) 0 sample_ops ∅ (mk_astate ∅ ∅ []) a' (booted_on ∅)) as (J' & s' & R & H & _).
  - split; [exact H1|exists ∅; split; [exact H2|intros b i Hi; exact Hi]|exact H3|exact H4].
  - exact E.
  - exists a', J', s'. split; [reflexivity|]. split; [exact R|].
    rewrite (re_disk _ _ _ _ H). vm_compute in E. injection E as <-. vm_compute. reflexivity.
Defined.
