(* ===== verification/LogSpec.v ===== *)
(** * The log (kernel/log.c): what its parts write

    The operations of log.c are described by the sequence of block writes they
    issue and by the abstract buffer cache they leave. *)
From S2P Require Import Prelude Memory Machine Platform Sv32 Spinlock Printf Kalloc Vm Proc Sleeplock Bio Log ProcSpec SleepSpec BioSpec.
From stdpp Require Import gmap strings countable prelude.

Open Scope Z_scope.

(** The disk after some writes. *)
Definition apply_writes (w : list (Z * list Z)) (d : gmap Z (list Z)) : gmap Z (list Z) :=
  foldl (fun d p => <[p.1 := p.2]> d) d w.

Lemma apply_writes_app w1 w2 d : apply_writes (w1 ++ w2) d = apply_writes w2 (apply_writes w1 d).
Proof. apply foldl_app. Qed.

Lemma apply_writes_ne w d b :
  b ∉ w.*1 -> disk_block (apply_writes w d) b = disk_block d b.
Proof.
  revert d. induction w as [|[b' v] w IH]; intros d H; [done|].
  apply not_elem_of_cons in H as [Hne H]. cbn [apply_writes foldl fst snd].
  change (disk_block (apply_writes w (<[b' := v]> d)) b = disk_block d b).
  rewrite IH by done. unfold disk_block. by rewrite lookup_insert_ne by (intros ->; done).
Qed.

Lemma apply_writes_in w d b v :
  NoDup w.*1 -> (b, v) ∈ w -> disk_block (apply_writes w d) b = v.
Proof.
  revert d. induction w as [|[b' v'] w IH]; intros d Hnd Hin; [by apply elem_of_nil in Hin|].
  apply NoDup_cons in Hnd as [Hn Hnd]. cbn [fmap list_fmap fst] in Hn.
  change (disk_block (apply_writes w (<[b' := v']> d)) b = v).
  apply elem_of_cons in Hin as [[= -> ->]|Hin]; [|by apply IH].
  rewrite apply_writes_ne by done. unfold disk_block. by rewrite lookup_insert_eq.
Qed.

(** ** The header block *)

Lemma at_splice l i v j :
  (i + length v <= length l)%nat ->
  at_ (splice l i v) j = if decide (i <= j < i + length v)%nat then at_ v (j - i) else at_ l j.
Proof.
  intros H. unfold at_. rewrite !nth_lookup, lookup_splice by done. by case_decide.
Qed.

Lemma put_u32_same d o v :
  (o + 4 <= length d)%nat -> is_u32 v -> u32_at (put_u32 d o v) o = v.
Proof.
  intros H Hv. unfold u32_at, put_u32. rewrite !at_splice by done. cbn [length bytes_of_u32].
  rewrite !decide_True by lia.
  replace (o - o)%nat with 0%nat by lia. replace (o + 1 - o)%nat with 1%nat by lia.
  replace (o + 2 - o)%nat with 2%nat by lia. replace (o + 3 - o)%nat with 3%nat by lia.
  unfold at_. cbn [nth bytes_of_u32]. unfold u8, is_u32 in *. Z.div_mod_to_equations. lia.
Qed.
Lemma put_u32_other d o o' v :
  (o + 4 <= length d)%nat -> (o' + 4 <= o \/ o + 4 <= o')%nat -> u32_at (put_u32 d o v) o' = u32_at d o'.
Proof.
  intros H Hd. unfold u32_at, put_u32. rewrite !at_splice by done. cbn [length bytes_of_u32].
  by rewrite !decide_False by lia.
Qed.

(** [data] is a log header listing [bs]. *)
Record heads (bs : list Z) (data : list Z) : Prop := {
  he_n : hd_n data = Z.of_nat (length bs);
  he_block : forall i b, bs !! i = Some b -> hd_block data i = b;
  he_len : length data = Z.to_nat BSIZE;
}.

Section LogSpec.
Context {L : Layout} {W : World} {D : DiskDriver} {DO : DiskOk D}.

(** What one more operation leads to: the writes [w] issued, the cache [J],
    [C] left. *)
Record outcome_of (me : nat) (s : kstate) (w : list (Z * list Z)) (J : gmap Z nat) (C : gmap Z centry)
    (s' : kstate) : Prop := {
  oo_kept : bkept me s s';
  oo_disk : disk s' = apply_writes w (disk s);
  oo_trace : dtrace s' = dtrace s ++ w;
  oo_cache : cache me J C s';
}.

Lemma outcome_refl me s J C : cache me J C s -> outcome_of me s [] J C s.
Proof. intros H. split; [apply bkept_refl|done|by rewrite app_nil_r|done]. Qed.

Lemma outcome_trans me s1 s2 s3 w1 w2 J C J' C' :
  outcome_of me s1 w1 J C s2 -> outcome_of me s2 w2 J' C' s3 -> outcome_of me s1 (w1 ++ w2) J' C' s3.
Proof.
  intros [K1 D1 T1 C1] [K2 D2 T2 C2]. split; [by eapply bkept_trans| | |done].
  - rewrite D2, D1. by rewrite apply_writes_app.
  - rewrite T2, T1. by rewrite app_assoc.
Qed.

(** The operations of bio.c in this form. *)
Lemma bread_out me J C s b :
  ctx me s -> cache me J C s -> is_u32 b -> readable J C b ->
  exists i s', bread ROOTDEV b s = Ok i s' /\
    outcome_of me s [] (<[b := i]> J) (<[b := read_entry C s b]> C) s' /\
    forall j, J !! b = Some j -> j = i.
Proof.
  intros Hc H Hb Hr. destruct (bread_spec me J C s b Hc H Hb Hr) as (i & s' & E & K & Ed & Et & H' & Hj).
  exists i, s'. split; [done|]. split; [|done]. split; [done|done|by rewrite app_nil_r|done].
Qed.

Lemma bget_data me J C s b i e :
  cache me J C s -> J !! b = Some i -> C !! b = Some e -> bget_field i b_data s = Ok (c_data e) s.
Proof.
  intros H Hi He. destruct (ca_slot _ _ _ _ H _ _ _ Hi He) as (_ & [_ _ _ _ S5 _] & _).
  unfold gets. f_equal. exact S5.
Qed.

(** Copying block [src] onto block [dst], both locked, and writing it out: the
    common part of [write_log] and [install_trans]. *)
Lemma copy_block_out me J C s src dst i j e f :
  ctx me s -> cache me J C s -> is_u32 dst -> src <> dst ->
  J !! src = Some i -> C !! src = Some e -> J !! dst = Some j -> C !! dst = Some f -> c_held f = true ->
  exists s', (forall A (k : K A),
      (data ← bget_field i b_data; bset j (set_b_data data) ;; bwrite j ;; k) s = k s') /\
    outcome_of me s [(dst, c_data e)] J (<[dst := mk_centry (c_ref f) (c_data e) true]> C) s'.
Proof.
  intros Hc H Hu Hne Hi He Hj Hf Hh.
  destruct (ca_slot _ _ _ _ H _ _ _ Hi He) as (_ & _ & [_ Hlen]).
  pose proof (bset_data_spec me J C s dst j f (c_data e) H Hj Hf Hlen) as H1. rewrite Hh in H1.
  destruct (bwrite_spec me J _ _ dst j (mk_centry (c_ref f) (c_data e) true)
    (bkept_ctx _ _ _ (bkept_upd_buf me s s (bkept_refl me s) _ _) Hc) H1 Hu Hj) as (s' & E & K & Ed & Et & H').
  - by rewrite lookup_insert_eq.
  - done.
  - exists s'. split.
    { intros A k. rewrite (bind_ok _ _ _ _ _ (bget_data _ _ _ _ _ _ _ H Hi He)). unfold bset. msimp.
      by rewrite (bind_ok _ _ _ _ _ E). }
    split; [|done|done|done]. eapply bkept_trans; [|exact K]. auto with kept.
Qed.

Lemma brelse_out_keep me J C s b i e :
  ctx me s -> cache me J C s -> J !! b = Some i -> C !! b = Some e -> c_held e = true -> 1 < c_ref e ->
  exists s', brelse i s = Ok tt s' /\
    outcome_of me s [] J (<[b := mk_centry (c_ref e - 1) (c_data e) false]> C) s'.
Proof.
  intros Hc H Hi He Hh Hr.
  destruct (brelse_keep me J C s b i e Hc H Hi He Hh Hr) as (s' & E & K & Ed & Et & H').
  exists s'. split; [done|]. split; [done|done|by rewrite app_nil_r|done].
Qed.

Lemma brelse_out_drop me J C s b i e :
  ctx me s -> cache me J C s -> J !! b = Some i -> C !! b = Some e -> c_held e = true -> c_ref e = 1 ->
  c_data e = disk_block (disk s) b ->
  exists s', brelse i s = Ok tt s' /\ outcome_of me s [] (delete b J) (delete b C) s'.
Proof.
  intros Hc H Hi He Hh Hr Hd.
  destruct (brelse_drop me J C s b i e Hc H Hi He Hh Hr Hd) as (s' & E & K & Ed & Et & H').
  exists s'. split; [done|]. split; [done|done|by rewrite app_nil_r|done].
Qed.

Lemma bunpin_out me J C s b i e :
  ctx me s -> cache me J C s -> J !! b = Some i -> C !! b = Some e -> 1 < c_ref e ->
  exists s', bunpin i s = Ok tt s' /\
    outcome_of me s [] J (<[b := mk_centry (c_ref e - 1) (c_data e) (c_held e)]> C) s'.
Proof.
  intros Hc H Hi He Hr.
  destruct (bunpin_spec me J C s b i e Hc H Hi He Hr) as (s' & E & K & Ed & Et & H').
  exists s'. split; [done|]. split; [done|done|by rewrite app_nil_r|done].
Qed.

Lemma outcome_ctx me s w J C s' : outcome_of me s w J C s' -> ctx me s -> ctx me s'.
Proof. intros [K _ _ _]. by apply bkept_ctx. Qed.
Lemma outcome_log me s w J C s' : outcome_of me s w J C s' -> log s' = log s.
Proof. intros [(B & S & D' & T & M & U & N & P & _ & ->) _ _ _]. done. Qed.
Lemma outcome_eq me s w J C J' C' s' :
  outcome_of me s w J C s' -> J = J' -> C = C' -> outcome_of me s w J' C' s'.
Proof. by intros H -> ->. Qed.

(** ** The loops *)

(** The log starts at block [st], and its header lists [bs]. *)
Record log_ok (st : Z) (bs : list Z) (l : logstate) : Prop := {
  lo_start : log_start l = st;
  lo_dev : log_dev l = ROOTDEV;
  lo_n : lh_n l = Z.of_nat (length bs);
  lo_block : forall i b, bs !! i = Some b -> lh_block l !! i = Some b;
  lo_len : length (lh_block l) = Z.to_nat LOGSIZE;
}.
(** [bs] are home blocks: outside the log, numbers an [int] holds. *)
Record homes (st : Z) (bs : list Z) : Prop := {
  ho_nodup : NoDup bs;
  ho_range : forall b, b ∈ bs -> 0 <= b < 2147483648 /\ (b < st \/ st + LOGSIZE <= b);
  ho_len : (length bs < NBUF)%nat;
  ho_start : 0 <= st /\ st + LOGSIZE < 2147483648;
}.

Lemma log_dev_ok st bs l : log_ok st bs l -> log_dev l = ROOTDEV.
Proof. apply lo_dev. Qed.
Lemma lh_at_ok st bs l i b : log_ok st bs l -> bs !! i = Some b -> lh_at l i = b.
Proof. intros H Hb. apply at_lookup. by apply (lo_block _ _ _ H). Qed.

(** The log block of slot [i]. *)
Definition slot_block (st : Z) (i : nat) : Z := st + Z.of_nat i + 1.

Lemma slot_block_u32 st bs i :
  homes st bs -> (i < length bs)%nat -> is_u32 (slot_block st i) /\ u32 (slot_block st i) = slot_block st i.
Proof.
  intros H Hi. pose proof (ho_start _ _ H). pose proof (ho_len _ _ H).
  assert (is_u32 (slot_block st i)).
  { unfold is_u32, slot_block, LOGSIZE, MAXOPBLOCKS, NBUF in *. lia. }
  split; [done|by apply u32_small].
Qed.
Lemma home_u32 st bs b : homes st bs -> b ∈ bs -> is_u32 b /\ u32 b = b.
Proof.
  intros H Hb. destruct (ho_range _ _ H b Hb) as [? _].
  assert (is_u32 b) by (unfold is_u32; lia). split; [done|by apply u32_small].
Qed.
Lemma slot_home_ne st bs b i : homes st bs -> b ∈ bs -> (i < length bs)%nat -> slot_block st i <> b.
Proof.
  intros H Hb Hi. pose proof (ho_len _ _ H). destruct (ho_range _ _ H b Hb) as [_ ?].
  unfold slot_block, LOGSIZE, MAXOPBLOCKS, NBUF in *. lia.
Qed.

(** The cache during a commit: the blocks of the transaction pinned, with the
    contents [V], and nothing else referenced. *)
Definition pinned (bs : list Z) (V : Z -> list Z) (C : gmap Z centry) : Prop :=
  forall b, C !! b = if decide (b ∈ bs) then Some (mk_centry 1 (V b) false) else None.

Lemma pinned_in bs V C b : pinned bs V C -> b ∈ bs -> C !! b = Some (mk_centry 1 (V b) false).
Proof. intros H Hb. by rewrite H, decide_True. Qed.
Lemma pinned_out bs V C b : pinned bs V C -> b ∉ bs -> C !! b = None.
Proof. intros H Hb. by rewrite H, decide_False. Qed.
Lemma pinned_size bs V C : NoDup bs -> pinned bs V C -> (size C <= length bs)%nat.
Proof.
  intros Hn H. rewrite <- size_dom, <- (size_list_to_set (C := gset Z) bs) by done.
  apply subseteq_size. intros b [e He]%elem_of_dom. apply elem_of_list_to_set.
  rewrite H in He. by case_decide.
Qed.

(** Reading log block [i] and then the home block it is for. *)
Lemma read_two me st bs J C s i b :
  ctx me s -> log_ok st bs (log s) -> homes st bs -> cache me J C s -> bs !! i = Some b ->
  C !! slot_block st i = None ->
  match C !! b with Some e => c_held e = false /\ c_ref e = 1 | None => True end ->
  (size C + 1 < NBUF \/ size C < NBUF /\ is_Some (C !! b))%nat ->
  exists i1 i2 s', (forall A (k : nat -> nat -> K A),
    (l ← gets (fun s => log s);
     i1 ← bread (log_dev l) (u32 (log_start l + Z.of_nat i + 1));
     l ← gets (fun s => log s);
     i2 ← bread (log_dev l) (u32 (lh_at l i));
     k i1 i2) s = k i1 i2 s') /\
  (forall j, J !! b = Some j -> j = i2) /\
  outcome_of me s [] (<[b := i2]> (<[slot_block st i := i1]> J))
    (<[b := read_entry C s b]> (<[slot_block st i := mk_centry 1 (disk_block (disk s) (slot_block st i)) true]> C)) s'.
Proof.
  intros Hc Hl Hh H Hb Hn He Hsz. pose proof (lookup_lt_Some _ _ _ Hb) as Hi.
  assert (Hbs : b ∈ bs) by (by eapply list_elem_of_lookup_2).
  destruct (slot_block_u32 _ _ _ Hh Hi) as [Ul El]. destruct (home_u32 _ _ _ Hh Hbs) as [Ub Eb].
  pose proof (slot_home_ne _ _ _ _ Hh Hbs Hi) as Hne. set (lb := slot_block st i) in *.
  destruct (bread_out me J C s lb Hc H Ul) as (i1 & s1 & E1 & O1 & _).
  { unfold readable. rewrite Hn, (cache_size _ _ _ _ H). lia. }
  pose proof (outcome_ctx _ _ _ _ _ _ O1 Hc) as Hc1.
  unfold read_entry in O1 at 1. rewrite Hn in O1.
  destruct (bread_out me _ _ s1 b Hc1 (oo_cache _ _ _ _ _ _ O1) Ub) as (i2 & s2 & E2 & O2 & Hj).
  { unfold readable. rewrite lookup_insert_ne by done. destruct (C !! b) as [e|] eqn:Ee.
    - destruct He as [-> ->]. split; [done|lia].
    - rewrite map_size_insert_None by (by apply (ca_dom _ _ _ _ H)). rewrite (cache_size _ _ _ _ H).
      destruct Hsz as [?|[_ []]]; [lia|done]. }
  exists i1, i2, s2. split; [|split].
  - intros A k. msimp. rewrite (lo_start _ _ _ Hl), (lo_dev _ _ _ Hl).
    change (st + Z.of_nat i + 1) with lb. rewrite El, (bind_ok _ _ _ _ _ E1). msimp.
    rewrite (outcome_log _ _ _ _ _ _ O1), (lh_at_ok _ _ _ _ _ Hl Hb), Eb, (lo_dev _ _ _ Hl).
    by rewrite (bind_ok _ _ _ _ _ E2).
  - intros j Hjb. apply Hj. by rewrite lookup_insert_ne.
  - pose proof (outcome_trans _ _ _ _ _ _ _ _ _ _ O1 O2) as O. revert O.
    intros O. eapply outcome_eq; [exact O|done|]. f_equal.
    unfold read_entry. rewrite lookup_insert_ne by done. by rewrite (oo_disk _ _ _ _ _ _ O1).
Qed.

Lemma insert_twice_under {A} (m : gmap Z A) i j x y z :
  i <> j -> <[i := x]> (<[j := y]> (<[i := z]> m)) = <[j := y]> (<[i := x]> m).
Proof. intros H. by rewrite (insert_insert_ne _ i j), insert_insert_eq by done. Qed.

(** Releasing both, the home block kept or dropped. *)
Lemma relse_pair me J C s lb b i1 i2 v e :
  ctx me s -> cache me (<[b := i2]> (<[lb := i1]> J)) (<[b := e]> (<[lb := mk_centry 1 v true]> C)) s ->
  lb <> b -> J !! lb = None -> C !! lb = None -> c_held e = true -> 1 < c_ref e ->
  v = disk_block (disk s) lb ->
  exists s', (brelse i2 ;; brelse i1) s = Ok tt s' /\
    outcome_of me s [] (<[b := i2]> J) (<[b := mk_centry (c_ref e - 1) (c_data e) false]> C) s'.
Proof.
  intros Hc H Hne HJ HC Hh Hr Hv.
  destruct (brelse_out_keep me _ _ s b i2 e Hc H) as (s1 & E1 & O1); [by simplify_map_eq..|].
  pose proof (outcome_ctx _ _ _ _ _ _ O1 Hc) as Hc1.
  destruct (brelse_out_drop me _ _ s1 lb i1 (mk_centry 1 v true) Hc1 (oo_cache _ _ _ _ _ _ O1))
    as (s2 & E2 & O2); [by simplify_map_eq..| |].
  { cbn. by rewrite (oo_disk _ _ _ _ _ _ O1). }
  exists s2. split.
  - by rewrite (bind_ok _ _ _ _ _ E1), E2.
  - eapply outcome_eq; [exact (outcome_trans _ _ _ _ _ _ _ _ _ _ O1 O2)|..].
    + rewrite delete_insert_ne, delete_insert_id by done. done.
    + rewrite insert_insert_eq, delete_insert_ne, delete_insert_id by done. done.
Qed.

Lemma write_log_turn_spec me st bs V J C s i b :
  ctx me s -> log_ok st bs (log s) -> homes st bs -> cache me J C s -> pinned bs V C -> bs !! i = Some b ->
  exists s', write_log_turn i s = Ok tt s' /\ outcome_of me s [(slot_block st i, V b)] J C s'.
Proof.
  intros Hc Hl Hh H Hp Hb. pose proof (lookup_lt_Some _ _ _ Hb) as Hi.
  assert (Hbs : b ∈ bs) by (by eapply list_elem_of_lookup_2).
  pose proof (slot_home_ne _ _ _ _ Hh Hbs Hi) as Hne.
  destruct (slot_block_u32 _ _ _ Hh Hi) as [Ul _].
  assert (Hlb : slot_block st i ∉ bs) by (intros Hx; by apply (slot_home_ne _ _ _ _ Hh Hx Hi)).
  pose proof (pinned_in _ _ _ _ Hp Hbs) as Ce. pose proof (pinned_out _ _ _ _ Hp Hlb) as Cl.
  pose proof (pinned_size _ _ _ (ho_nodup _ _ Hh) Hp) as Hsz. pose proof (ho_len _ _ Hh) as Hlen.
  destruct (read_two me st bs J C s i b Hc Hl Hh H Hb Cl) as (i1 & i2 & s1 & E1 & Hj & O1).
  { by rewrite Ce. } { right. split; [lia|by rewrite Ce]. }
  unfold read_entry in O1. rewrite Ce in O1. cbn [c_ref c_data] in O1.
  pose proof (outcome_ctx _ _ _ _ _ _ O1 Hc) as Hc1.
  set (lb := slot_block st i) in *.
  destruct (copy_block_out me _ _ s1 b lb i2 i1 (mk_centry 2 (V b) true)
    (mk_centry 1 (disk_block (disk s) lb) true) Hc1 (oo_cache _ _ _ _ _ _ O1) Ul)
    as (s2 & E2 & O2); [done|by simplify_map_eq..|].
  pose proof (outcome_ctx _ _ _ _ _ _ O2 Hc1) as Hc2. cbn [c_ref c_data] in O2.
  eapply outcome_eq in O2; [|reflexivity|apply (insert_twice_under C lb b); done].
  destruct (relse_pair me J C s2 lb b i1 i2 (V b) (mk_centry 2 (V b) true) Hc2 (oo_cache _ _ _ _ _ _ O2))
    as (s3 & E3 & O3); try done.
  { by apply (ca_dom _ _ _ _ H). }
  { rewrite (oo_disk _ _ _ _ _ _ O2). cbn. unfold disk_block. by rewrite lookup_insert_eq. }
  exists s3. split.
  - unfold write_log_turn. by rewrite E1, E2.
  - eapply outcome_eq; [exact (outcome_trans _ _ _ _ _ _ _ _ _ _ O1 (outcome_trans _ _ _ _ _ _ _ _ _ _ O2 O3))|..].
    + apply insert_id. destruct (J !! b) as [j|] eqn:Ej; [by rewrite (Hj j)|].
      apply (ca_dom _ _ _ _ H) in Ej. congruence.
    + by apply insert_id.
Qed.

(** The writes of [write_log]. *)
Definition log_writes (st : Z) (V : Z -> list Z) (bs : list Z) : list (Z * list Z) :=
  imap (fun i b => (slot_block st i, V b)) bs.

Lemma write_log_spec me st bs V J C s :
  ctx me s -> log_ok st bs (log s) -> homes st bs -> cache me J C s -> pinned bs V C ->
  exists s', write_log s = Ok tt s' /\ outcome_of me s (log_writes st V bs) J C s'.
Proof.
  intros Hc Hl Hh H Hp. unfold write_log. msimp. rewrite (lo_n _ _ _ Hl), Nat2Z.id.
  destruct (for_range_inv (fun k t => outcome_of me s (take k (log_writes st V bs)) J C t)
    (length bs) 0 write_log_turn s) as (s' & E & O).
  - by apply outcome_refl.
  - intros k t Hk O. destruct (lookup_lt_is_Some_2 bs k) as [b Hb]; [lia|].
    destruct (write_log_turn_spec me st bs V J C t k b) as (t' & E & O'); try done.
    + by eapply outcome_ctx.
    + by rewrite (outcome_log _ _ _ _ _ _ O).
    + apply O.
    + exists t'. split; [done|]. erewrite take_S_r; [by eapply outcome_trans|].
      unfold log_writes. rewrite list_lookup_imap, Hb. done.
  - exists s'. split; [done|]. rewrite take_ge in O; [done|].
    unfold log_writes. rewrite length_imap. lia.
Qed.

(** Releasing both blocks for good. *)
Lemma relse_both me J C s lb b i1 i2 v e :
  ctx me s -> cache me (<[b := i2]> (<[lb := i1]> J)) (<[b := mk_centry 1 v true]> (<[lb := e]> C)) s ->
  lb <> b -> J !! lb = None -> C !! lb = None -> c_held e = true -> c_ref e = 1 ->
  c_data e = disk_block (disk s) lb -> v = disk_block (disk s) b ->
  exists s', (brelse i1 ;; brelse i2) s = Ok tt s' /\ outcome_of me s [] (delete b J) (delete b C) s'.
Proof.
  intros Hc H Hne HJ HC Hh Hr He Hv.
  destruct (brelse_out_drop me _ _ s lb i1 e Hc H) as (s1 & E1 & O1); [by simplify_map_eq..|].
  pose proof (outcome_ctx _ _ _ _ _ _ O1 Hc) as Hc1.
  destruct (brelse_out_drop me _ _ s1 b i2 (mk_centry 1 v true) Hc1 (oo_cache _ _ _ _ _ _ O1))
    as (s2 & E2 & O2); [by simplify_map_eq..| |].
  { cbn. by rewrite (oo_disk _ _ _ _ _ _ O1). }
  exists s2. split; [by rewrite (bind_ok _ _ _ _ _ E1), E2|].
  eapply outcome_eq; [exact (outcome_trans _ _ _ _ _ _ _ _ _ _ O1 O2)|..].
  - rewrite delete_insert_ne, delete_insert_eq, delete_insert_id by done. done.
  - rewrite delete_insert_ne, delete_insert_eq, delete_insert_id by done. done.
Qed.

(** One turn of [install_trans]: log block [i] goes to its home, which the
    commit has pinned and a recovery has not. *)
Lemma install_trans_turn_spec me st bs J C s i b rec :
  ctx me s -> log_ok st bs (log s) -> homes st bs -> cache me J C s -> bs !! i = Some b ->
  C !! slot_block st i = None ->
  (if rec : bool then C !! b = None /\ (size C + 1 < NBUF)%nat
   else (exists v, C !! b = Some (mk_centry 1 v false)) /\ (size C < NBUF)%nat) ->
  exists s', install_trans_turn rec i s = Ok tt s' /\
    outcome_of me s [(b, disk_block (disk s) (slot_block st i))] (delete b J) (delete b C) s'.
Proof.
  intros Hc Hl Hh H Hb Cl Hrec. pose proof (lookup_lt_Some _ _ _ Hb) as Hi.
  assert (Hbs : b ∈ bs) by (by eapply list_elem_of_lookup_2).
  pose proof (slot_home_ne _ _ _ _ Hh Hbs Hi) as Hne. destruct (home_u32 _ _ _ Hh Hbs) as [Ub _].
  destruct (read_two me st bs J C s i b Hc Hl Hh H Hb Cl) as (i1 & i2 & s1 & E1 & Hj & O1).
  { destruct rec; [by rewrite (proj1 Hrec)|]. by destruct Hrec as [[v ->] _]. }
  { destruct rec; [left; lia|right]. destruct Hrec as [[v ->] ?]. done. }
  pose proof (outcome_ctx _ _ _ _ _ _ O1 Hc) as Hc1. set (lb := slot_block st i) in *.
  set (v := disk_block (disk s) lb) in *.
  destruct (copy_block_out me _ _ s1 lb b i1 i2 (mk_centry 1 v true) (read_entry C s b)
    Hc1 (oo_cache _ _ _ _ _ _ O1) Ub) as (s2 & E2 & O2);
    [done|by simplify_map_eq..|unfold read_entry; by destruct (C !! b)|].
  pose proof (outcome_ctx _ _ _ _ _ _ O2 Hc1) as Hc2. cbn [c_data] in O2.
  eapply outcome_eq in O2; [|reflexivity|apply insert_insert_eq].
  assert (exists s3, (if negb rec then bunpin i2 else mret tt) s2 = Ok tt s3 /\
    outcome_of me s2 [] (<[b := i2]> (<[lb := i1]> J))
      (<[b := mk_centry 1 v true]> (<[lb := mk_centry 1 v true]> C)) s3) as (s3 & E3 & O3).
  { unfold read_entry in O2. destruct rec; cbn [negb].
    - exists s2. split; [done|]. rewrite (proj1 Hrec) in O2. apply outcome_refl, O2.
    - destruct Hrec as [[w Hw] _]. rewrite Hw in O2. cbn [c_ref] in O2.
      destruct (bunpin_out me _ _ s2 b i2 (mk_centry 2 v true) Hc2 (oo_cache _ _ _ _ _ _ O2)) as (s3 & E3 & O3);
        [by simplify_map_eq..|].
      exists s3. split; [done|]. eapply outcome_eq; [exact O3|done|apply insert_insert_eq]. }
  pose proof (outcome_ctx _ _ _ _ _ _ O3 Hc2) as Hc3.
  assert (Hd : disk s3 = <[b := v]> (disk s)).
  { rewrite (oo_disk _ _ _ _ _ _ O3), (oo_disk _ _ _ _ _ _ O2), (oo_disk _ _ _ _ _ _ O1). done. }
  destruct (relse_both me J C s3 lb b i1 i2 v (mk_centry 1 v true) Hc3 (oo_cache _ _ _ _ _ _ O3))
    as (s4 & E4 & O4); try done.
  { by apply (ca_dom _ _ _ _ H). }
  { rewrite Hd. unfold disk_block. by rewrite lookup_insert_ne. }
  { rewrite Hd. unfold disk_block. by rewrite lookup_insert_eq. }
  exists s4. split.
  - unfold install_trans_turn. by rewrite E1, E2, (bind_ok _ _ _ _ _ E3).
  - exact (outcome_trans _ _ _ _ _ _ _ _ _ _ O1 (outcome_trans _ _ _ _ _ _ _ _ _ _ O2
      (outcome_trans _ _ _ _ _ _ _ _ _ _ O3 O4))).
Qed.

(** The writes of [install_trans] over the disk [d]. *)
Definition home_writes (st : Z) (d : gmap Z (list Z)) (bs : list Z) : list (Z * list Z) :=
  imap (fun i b => (b, disk_block d (slot_block st i))) bs.

Lemma home_writes_fst st d bs : (home_writes st d bs).*1 = bs.
Proof. unfold home_writes. rewrite fmap_imap. apply list_eq. intros i. rewrite list_lookup_imap. by destruct (bs !! i). Qed.
Lemma home_writes_slot st d bs k i :
  homes st bs -> (i < length bs)%nat ->
  disk_block (apply_writes (take k (home_writes st d bs)) d) (slot_block st i) = disk_block d (slot_block st i).
Proof.
  intros Hh Hi. apply apply_writes_ne. rewrite fmap_take, home_writes_fst.
  intros Hx. apply (slot_home_ne _ _ _ _ Hh (subseteq_take _ _ _ Hx) Hi). done.
Qed.

(** What the cache holds when [install_trans] starts. *)
Definition install_from (rec : bool) (bs : list Z) (C : gmap Z centry) : Prop :=
  if rec then C = ∅ else exists V, pinned bs V C.

Lemma install_from_next (rec : bool) b bs C :
  NoDup (b :: bs) -> install_from rec (b :: bs) C -> install_from rec bs (delete b C).
Proof.
  intros [Hb _]%NoDup_cons. destruct rec; cbn [install_from].
  - intros ->. apply delete_empty.
  - intros [V H]. exists V. intros b'. destruct (decide (b' = b)) as [->|Hne].
    + by rewrite lookup_delete_eq, decide_False.
    + rewrite lookup_delete_ne, H by done. apply decide_ext. set_solver.
Qed.
Lemma install_from_ready (rec : bool) st bs C k b :
  homes st bs -> bs !! k = Some b -> install_from rec (drop k bs) C ->
  C !! slot_block st k = None /\
  (if rec then C !! b = None /\ (size C + 1 < NBUF)%nat
   else (exists v, C !! b = Some (mk_centry 1 v false)) /\ (size C < NBUF)%nat).
Proof.
  intros Hh Hb H. pose proof (lookup_lt_Some _ _ _ Hb) as Hk. destruct rec; cbn [install_from] in H.
  - subst C. rewrite !lookup_empty, map_size_empty. unfold NBUF. repeat split; lia.
  - destruct H as [V H]. split; [|split].
    + apply (pinned_out _ _ _ _ H). intros Hx%subseteq_drop. by apply (slot_home_ne _ _ _ _ Hh Hx Hk).
    + exists (V b). apply (pinned_in _ _ _ _ H). rewrite (drop_S _ _ _ Hb). set_solver.
    + apply (Nat.le_lt_trans _ (length (drop k bs))).
      * apply (pinned_size _ V); [|done]. apply (sublist_NoDup _ bs); [apply Hh|apply sublist_drop].
      * rewrite length_drop. pose proof (ho_len _ _ Hh). lia.
Qed.

Lemma install_trans_spec me st bs J C s rec :
  ctx me s -> log_ok st bs (log s) -> homes st bs -> cache me J C s -> install_from rec bs C ->
  exists s', install_trans rec s = Ok tt s' /\ outcome_of me s (home_writes st (disk s) bs) ∅ ∅ s'.
Proof.
  intros Hc Hl Hh H Hf. unfold install_trans. msimp. rewrite (lo_n _ _ _ Hl), Nat2Z.id.
  set (W' := home_writes st (disk s) bs).
  destruct (for_range_inv (fun k t => exists J' C', outcome_of me s (take k W') J' C' t /\
      install_from rec (drop k bs) C') (length bs) 0 (install_trans_turn rec) s)
    as (s' & E & J' & C' & O & Hf').
  - exists J, C. split; [by apply outcome_refl|done].
  - intros k t Hk (J' & C' & O & Hf'). destruct (lookup_lt_is_Some_2 bs k) as [b Hb]; [lia|].
    destruct (install_from_ready rec st bs C' k b Hh Hb Hf') as [Hs Hr].
    destruct (install_trans_turn_spec me st bs J' C' t k b rec) as (t' & E & O'); try done.
    + by eapply outcome_ctx.
    + by rewrite (outcome_log _ _ _ _ _ _ O).
    + apply O.
    + exists t'. split; [done|]. exists (delete b J'), (delete b C'). split.
      * rewrite (oo_disk _ _ _ _ _ _ O) in O'. unfold W' in O'. rewrite home_writes_slot in O' by (done || lia).
        erewrite take_S_r; [by eapply outcome_trans|].
        unfold W', home_writes. rewrite list_lookup_imap, Hb. done.
      * rewrite (drop_S _ _ _ Hb) in Hf'. apply install_from_next; [|done].
        rewrite <- (drop_S _ _ _ Hb). apply (sublist_NoDup _ bs); [apply Hh|apply sublist_drop].
  - exists s'. split; [done|]. rewrite Nat.add_0_l, drop_ge in Hf' by lia.
    assert (C' = ∅) as ->.
    { destruct rec; [done|]. destruct Hf' as [V Hp]. apply map_eq. intros b. by rewrite Hp, lookup_empty. }
    assert (J' = ∅) as ->.
    { apply map_eq. intros b. rewrite lookup_empty. apply (ca_dom _ _ _ _ (oo_cache _ _ _ _ _ _ O)). done. }
    rewrite take_ge in O; [done|]. unfold W', home_writes. rewrite length_imap. lia.
Qed.

(** ** The header on disk *)

Lemma bset_data_out me J C s b i e g :
  ctx me s -> cache me J C s -> J !! b = Some i -> C !! b = Some e ->
  length (g (c_data e)) = Z.to_nat BSIZE ->
  exists s', bset i (fun bf => set_b_data (g (b_data bf)) bf) s = Ok tt s' /\
    outcome_of me s [] J (<[b := mk_centry (c_ref e) (g (c_data e)) (c_held e)]> C) s'.
Proof.
  intros Hc H Hi He Hl. destruct (ca_slot _ _ _ _ H _ _ _ Hi He) as (_ & [_ _ _ _ S5 _] & _).
  assert (E : upd_buf i (fun bf => set_b_data (g (b_data bf)) bf) s = upd_buf i (set_b_data (g (c_data e))) s).
  { unfold upd_buf. f_equal. apply list_alter_ext; [|done]. intros bf Hbf. unfold bat in S5.
    rewrite Hbf in S5. cbn in S5. by rewrite S5. }
  eexists. split; [unfold bset, modify; rewrite E; reflexivity|].
  split; [|done|by rewrite app_nil_r|by apply bset_data_spec]. auto with kept.
Qed.

(** What the loop of [write_head] has written after [k] turns. *)
Record heads_upto (bs : list Z) (k : nat) (data : list Z) : Prop := {
  hu_n : hd_n data = Z.of_nat (length bs);
  hu_block : forall i b, (i < k)%nat -> bs !! i = Some b -> hd_block data i = b;
  hu_len : length data = Z.to_nat BSIZE;
}.

Lemma heads_start bs data :
  length data = Z.to_nat BSIZE -> (length bs < NBUF)%nat ->
  heads_upto bs 0 (put_u32 data 0 (u32 (Z.of_nat (length bs)))).
Proof.
  intros Hd Hn. unfold NBUF, BSIZE in *. split; [|lia|by rewrite length_put_u32 by lia].
  assert (U : is_u32 (Z.of_nat (length bs))) by (unfold is_u32; lia).
  unfold hd_n. rewrite (u32_small _ U), put_u32_same by (done || lia). apply s32_small. lia.
Qed.
Lemma heads_next st bs k b data :
  homes st bs -> bs !! k = Some b -> heads_upto bs k data ->
  heads_upto bs (S k) (put_u32 data (4 + 4 * k) (u32 b)).
Proof.
  intros Hh Hb [H1 H2 H3]. pose proof (lookup_lt_Some _ _ _ Hb) as Hk. pose proof (ho_len _ _ Hh) as Hn.
  destruct (home_u32 st bs b Hh) as [Ub Eb]; [by eapply list_elem_of_lookup_2|].
  unfold NBUF, BSIZE in *. split; [|intros i b' Hi Hb'|by rewrite length_put_u32 by lia].
  - unfold hd_n in *. rewrite put_u32_other by lia. done.
  - unfold hd_block in *. rewrite Eb. destruct (decide (i = k)) as [->|Hne].
    + rewrite put_u32_same by (lia || done). assert (b' = b) as -> by congruence.
      apply s32_small. destruct (ho_range _ _ Hh b) as [? _]; [by eapply list_elem_of_lookup_2|lia].
    + rewrite put_u32_other by lia. apply H2; [lia|done].
Qed.

Lemma write_head_loop me st bs J C s i d :
  ctx me s -> log_ok st bs (log s) -> homes st bs -> J !! st = Some i -> heads_upto bs 0 d ->
  cache me J (<[st := mk_centry 1 d true]> C) s ->
  exists h s', for_range (length bs) 0 (fun k => bset i (fun b => set_b_data
      (put_u32 (b_data b) (4 + 4 * k) (u32 (lh_at (log s) k))) b)) s = Ok tt s' /\
    heads bs h /\ outcome_of me s [] J (<[st := mk_centry 1 h true]> C) s'.
Proof.
  intros Hc Hl Hh Hi H0 H.
  destruct (for_range_inv (fun k t => exists d, heads_upto bs k d /\
      outcome_of me s [] J (<[st := mk_centry 1 d true]> C) t) (length bs) 0
    (fun k => bset i (fun b => set_b_data (put_u32 (b_data b) (4 + 4 * k) (u32 (lh_at (log s) k))) b)) s)
    as (s' & E & h & Hh' & O).
  - exists d. split; [done|by apply outcome_refl].
  - intros k t Hk (d' & Hd' & O'). destruct (lookup_lt_is_Some_2 bs k) as [b Hb]; [lia|].
    pose proof (heads_next st bs k b d' Hh Hb Hd') as Hd2. rewrite (lh_at_ok _ _ _ _ _ Hl Hb).
    destruct (bset_data_out me _ _ t st i (mk_centry 1 d' true) (fun d => put_u32 d (4 + 4 * k) (u32 b))
      (outcome_ctx _ _ _ _ _ _ O' Hc) (oo_cache _ _ _ _ _ _ O')) as (t' & E & O2');
      [done|by simplify_map_eq|apply (hu_len _ _ _ Hd2)|].
    exists t'. split; [done|]. cbn [c_ref c_data c_held] in O2'. rewrite insert_insert_eq in O2'.
    eexists. split; [exact Hd2|]. exact (outcome_trans _ _ _ _ _ _ _ _ _ _ O' O2').
  - exists h, s'. split; [done|]. split; [|done]. destruct Hh' as [A1 A2 A3]. split; [done| |done].
    intros j b Hj. apply A2; [|done]. by apply lookup_lt_Some in Hj.
Qed.

Lemma bwrite_out me J C s b i e :
  ctx me s -> cache me J C s -> is_u32 b -> J !! b = Some i -> C !! b = Some e -> c_held e = true ->
  exists s', bwrite i s = Ok tt s' /\ outcome_of me s [(b, c_data e)] J C s'.
Proof.
  intros Hc H Hu Hi He Hh.
  destruct (bwrite_spec me J C s b i e Hc H Hu Hi He Hh) as (s' & E & K & Ed & Et & H').
  exists s'. split; [done|]. by split.
Qed.

Lemma write_head_spec me st bs J C s :
  ctx me s -> log_ok st bs (log s) -> homes st bs -> cache me J C s -> C !! st = None -> (size C < NBUF)%nat ->
  exists h s', write_head s = Ok tt s' /\ heads bs h /\ outcome_of me s [(st, h)] J C s'.
Proof.
  intros Hc Hl Hh H Hn Hsz. pose proof (ho_start _ _ Hh).
  assert (Us : is_u32 st) by (unfold is_u32, LOGSIZE, MAXOPBLOCKS in *; lia).
  destruct (bread_out me J C s st Hc H Us) as (i & s1 & E1 & O1 & _).
  { unfold readable. rewrite Hn, (cache_size _ _ _ _ H). lia. }
  pose proof (outcome_ctx _ _ _ _ _ _ O1 Hc) as Hc1. unfold read_entry in O1. rewrite Hn in O1.
  pose proof (heads_start bs _ (ca_disk _ _ _ _ H st) (ho_len _ _ Hh)) as Hu.
  destruct (bset_data_out me _ _ s1 st i (mk_centry 1 (disk_block (disk s) st) true)
    (fun d => put_u32 d 0 (u32 (Z.of_nat (length bs)))) Hc1 (oo_cache _ _ _ _ _ _ O1))
    as (s2 & E2 & O2); [by simplify_map_eq..|apply (hu_len _ _ _ Hu)|].
  pose proof (outcome_ctx _ _ _ _ _ _ O2 Hc1) as Hc2.
  cbn [c_ref c_data c_held] in O2. rewrite insert_insert_eq in O2.
  assert (L2 : log s2 = log s) by (by rewrite (outcome_log _ _ _ _ _ _ O2), (outcome_log _ _ _ _ _ _ O1)).
  destruct (write_head_loop me st bs (<[st := i]> J) C s2 i (put_u32 (disk_block (disk s) st) 0 (u32 (Z.of_nat (length bs)))) Hc2) as (h & s3 & E3 & Hd & O3);
    [by rewrite L2|done|by simplify_map_eq|exact Hu|apply O2|].
  pose proof (outcome_ctx _ _ _ _ _ _ O3 Hc2) as Hc3.
  destruct (bwrite_out me _ _ s3 st i (mk_centry 1 h true) Hc3 (oo_cache _ _ _ _ _ _ O3) Us)
    as (s4 & E4 & O4); [by simplify_map_eq..|].
  pose proof (outcome_ctx _ _ _ _ _ _ O4 Hc3) as Hc4.
  destruct (brelse_out_drop me _ _ s4 st i (mk_centry 1 h true) Hc4 (oo_cache _ _ _ _ _ _ O4))
    as (s5 & E5 & O5); [by simplify_map_eq..| |].
  { rewrite (oo_disk _ _ _ _ _ _ O4). cbn. unfold disk_block. by rewrite lookup_insert_eq. }
  exists h, s5. split; [|split; [done|]].
  - unfold write_head. msimp. rewrite (lo_start _ _ _ Hl), (lo_dev _ _ _ Hl), (u32_small _ Us).
    rewrite (bind_ok _ _ _ _ _ E1). msimp. rewrite (outcome_log _ _ _ _ _ _ O1), (lo_n _ _ _ Hl).
    rewrite (bind_ok _ _ _ _ _ E2), Nat2Z.id, <- L2, (bind_ok _ _ _ _ _ E3).
    by rewrite (bind_ok _ _ _ _ _ E4).
  - eapply outcome_eq; [exact (outcome_trans _ _ _ _ _ _ _ _ _ _ O1 (outcome_trans _ _ _ _ _ _ _ _ _ _ O2
      (outcome_trans _ _ _ _ _ _ _ _ _ _ O3 (outcome_trans _ _ _ _ _ _ _ _ _ _ O4 O5))))|..].
    + apply delete_insert_id. by apply (ca_dom _ _ _ _ H).
    + by apply delete_insert_id.
Qed.

(** ** Changes of the in-memory log *)

Lemma ctx_upd_log me f s : ctx me (upd_log f s) <-> ctx me s.
Proof. split; intros [[] H2 H3 H4 H5]; by split. Qed.
Lemma cache_upd_log me J C f s : cache me J C (upd_log f s) <-> cache me J C s.
Proof.
  split; intros [H1 H2 H3 H4 H5 H6]; (split; [done|done| | |done|done]).
  1, 3: intros b i e Hi He; destruct (H3 b i e Hi He) as (? & [S1 S2 S3 S4 S5 S6] & ?); split_and!; [done| |done]; by split.
  all: intros i Hi Hn; destruct (H4 i Hi Hn) as [S1 S2 S3]; by split.
Qed.
Lemma outcome_upd_log me f s w J C s' :
  outcome_of me (upd_log f s) w J C s' -> exists t, s' = upd_log f t /\ outcome_of me s w J C t.
Proof.
  intros [(B & S & D' & T & M & U & N & P & Hw & ->) Hd Ht H].
  exists (set_bufs B (set_slocks S (set_disk D' (set_dtrace T (set_mmio M (set_uart U (set_nmmio N (set_procs P s)))))))).
  split; [done|]. split; [|exact Hd|exact Ht|].
  - exists B, S, D', T, M, U, N, P. done.
  - apply (cache_upd_log me J C f). exact H.
Qed.

(** The log in memory while [read_head] fills it in. *)
Record log_upto (st : Z) (bs : list Z) (k : nat) (l : logstate) : Prop := {
  lu_start : log_start l = st;
  lu_dev : log_dev l = ROOTDEV;
  lu_n : lh_n l = Z.of_nat (length bs);
  lu_block : forall i b, (i < k)%nat -> bs !! i = Some b -> lh_block l !! i = Some b;
  lu_len : length (lh_block l) = Z.to_nat LOGSIZE;
}.

Lemma read_head_loop st bs h l s :
  heads bs h -> (length bs < NBUF)%nat -> log_upto st bs 0 l ->
  exists l', for_range (length bs) 0 (fun i =>
      lset (fun l => set_lh_block (<[i := hd_block h i]> (lh_block l)) l)) (upd_log (fun _ => l) s)
    = Ok tt (upd_log (fun _ => l') s) /\ log_ok st bs l'.
Proof.
  intros [_ Hb _] Hn H0.
  destruct (for_range_inv (fun k t => exists l', t = upd_log (fun _ => l') s /\ log_upto st bs k l')
    (length bs) 0 (fun i => lset (fun l => set_lh_block (<[i := hd_block h i]> (lh_block l)) l))
    (upd_log (fun _ => l) s)) as (s' & E & l' & -> & [A1 A2 A3 A4 A5]).
  - by exists l.
  - intros k t Hk (l' & -> & [A1 A2 A3 A4 A5]). destruct (lookup_lt_is_Some_2 bs k) as [b Hbk]; [lia|].
    eexists. split; [reflexivity|]. eexists. split; [reflexivity|].
    split; cbn; [done|done|done| |by rewrite length_insert].
    intros i b' Hi Hb'. destruct (decide (i = k)) as [->|Hne].
    + rewrite list_lookup_insert_eq by (rewrite A5; unfold LOGSIZE, MAXOPBLOCKS, NBUF in *; lia).
      by rewrite (Hb _ _ Hb').
    + rewrite list_lookup_insert_ne by done. apply A4; [lia|done].
  - exists l'. split; [done|]. split; try done. intros i b Hi. apply A4; [|done]. by apply lookup_lt_Some in Hi.
Qed.

Lemma read_head_spec me st bs J C s :
  ctx me s -> log_start (log s) = st -> log_dev (log s) = ROOTDEV ->
  length (lh_block (log s)) = Z.to_nat LOGSIZE ->
  homes st bs -> cache me J C s -> C !! st = None -> (size C < NBUF)%nat ->
  heads bs (disk_block (disk s) st) ->
  exists l t, read_head s = Ok tt (upd_log (fun _ => l) t) /\ log_ok st bs l /\ outcome_of me s [] J C t.
Proof.
  intros Hc Hst Hdev Hlen Hh H Hn Hsz Hd. pose proof (ho_start _ _ Hh).
  assert (Us : is_u32 st) by (unfold is_u32, LOGSIZE, MAXOPBLOCKS in *; lia).
  destruct (bread_out me J C s st Hc H Us) as (i & s1 & E1 & O1 & _).
  { unfold readable. rewrite Hn, (cache_size _ _ _ _ H). lia. }
  pose proof (outcome_ctx _ _ _ _ _ _ O1 Hc) as Hc1. unfold read_entry in O1. rewrite Hn in O1.
  set (data := disk_block (disk s) st) in *.
  destruct (read_head_loop st bs data (set_lh_n (hd_n data) (log s1)) s1 Hd (ho_len _ _ Hh)) as (l & E2 & Hl).
  { rewrite (outcome_log _ _ _ _ _ _ O1). split; cbn; [done|done|apply Hd|lia|done]. }
  set (s2 := upd_log (fun _ => l) s1).
  destruct (brelse_out_drop me _ _ s2 st i (mk_centry 1 data true)
    (proj2 (ctx_upd_log me _ s1) Hc1) (proj2 (cache_upd_log me _ _ _ s1) (oo_cache _ _ _ _ _ _ O1)))
    as (s3 & E3 & O3); [by simplify_map_eq..| |].
  { cbn. by rewrite (oo_disk _ _ _ _ _ _ O1). }
  destruct (outcome_upd_log _ _ _ _ _ _ _ O3) as (t & -> & O3').
  exists l, t. split; [|split; [done|]].
  - unfold read_head. msimp. rewrite Hst, Hdev, (u32_small _ Us), (bind_ok _ _ _ _ _ E1).
    rewrite (bind_ok _ _ _ _ _ (bget_data me _ _ s1 st i (mk_centry 1 data true) (oo_cache _ _ _ _ _ _ O1)
      (lookup_insert_eq _ _ _) (lookup_insert_eq _ _ _))). cbn [c_data].
    rewrite (he_n _ _ Hd) in E2 |- *. rewrite Nat2Z.id.
    rewrite (proj2 (Z.ltb_ge _ _)) by (pose proof (ho_len _ _ Hh); unfold LOGSIZE, MAXOPBLOCKS, NBUF in *; lia).
    rewrite (bind_ok (lset (set_lh_n (Z.of_nat (length bs)))) _ s1 tt (upd_log (fun _ => set_lh_n (Z.of_nat (length bs)) (log s1)) s1) eq_refl).
    by rewrite (bind_ok _ _ _ _ _ E2).
  - eapply outcome_eq; [exact (outcome_trans _ _ _ _ _ _ _ _ _ _ O1 O3')|..].
    + apply delete_insert_id. by apply (ca_dom _ _ _ _ H).
    + by apply delete_insert_id.
Qed.

(** ** Recovery and commit *)

Lemma homes_nil st bs : homes st bs -> homes st [].
Proof. intros [_ _ _ H]. split; [constructor|set_solver|unfold NBUF; cbn; lia|done]. Qed.
Lemma log_ok_clear st bs l : log_ok st bs l -> log_ok st [] (set_lh_n 0 l).
Proof. intros [H1 H2 H3 H4 H5]. split; cbn; [done|done|done| |done]. intros i b. by rewrite lookup_nil. Qed.

(** The last two statements of [commit] and of [recover_from_log]. *)
Lemma clear_head_spec me st bs s :
  ctx me s -> log_ok st bs (log s) -> homes st bs -> cache me ∅ ∅ s ->
  exists h t, (lset (set_lh_n 0) ;; write_head) s = Ok tt (upd_log (set_lh_n 0) t) /\
    heads [] h /\ outcome_of me s [(st, h)] ∅ ∅ t.
Proof.
  intros Hc Hl Hh H.
  destruct (write_head_spec me st [] ∅ ∅ (upd_log (set_lh_n 0) s)) as (h & s' & E & Hd & O).
  - by apply ctx_upd_log.
  - by apply (log_ok_clear st bs).
  - by apply (homes_nil st bs).
  - by apply cache_upd_log.
  - apply lookup_empty.
  - rewrite map_size_empty. unfold NBUF. lia.
  - destruct (outcome_upd_log _ _ _ _ _ _ _ O) as (t & -> & O'). exists h, t. done.
Qed.

(** The writes of a recovery that finds [bs] in the header. *)
Definition recover_writes (st : Z) (d : gmap Z (list Z)) (bs : list Z) (h0 : list Z) : list (Z * list Z) :=
  home_writes st d bs ++ [(st, h0)].

Lemma recover_spec me st bs s :
  ctx me s -> log_start (log s) = st -> log_dev (log s) = ROOTDEV ->
  length (lh_block (log s)) = Z.to_nat LOGSIZE ->
  homes st bs -> cache me ∅ ∅ s -> heads bs (disk_block (disk s) st) ->
  exists h0 l t, recover_from_log s = Ok tt (upd_log (fun _ => l) t) /\ heads [] h0 /\ log_ok st [] l /\
    outcome_of me s (recover_writes st (disk s) bs h0) ∅ ∅ t.
Proof.
  intros Hc Hst Hdev Hlen Hh H Hd.
  destruct (read_head_spec me st bs ∅ ∅ s) as (l & t1 & E1 & Hl & O1); try done.
  { rewrite map_size_empty. unfold NBUF. lia. }
  set (s1 := upd_log (fun _ => l) t1).
  assert (Hc1 : ctx me s1) by (apply ctx_upd_log; by eapply outcome_ctx).
  assert (H1 : cache me ∅ ∅ s1) by (apply cache_upd_log, O1).
  destruct (install_trans_spec me st bs ∅ ∅ s1 true Hc1 Hl Hh H1 eq_refl) as (s2 & E2 & O2).
  pose proof (outcome_log _ _ _ _ _ _ O2) as L2.
  destruct (outcome_upd_log _ _ _ _ _ _ _ O2) as (t2 & -> & O2').
  destruct (clear_head_spec me st bs (upd_log (fun _ => l) t2)) as (h & t3 & E3 & Hh0 & O3).
  - by eapply outcome_ctx.
  - done.
  - done.
  - apply O2.
  - destruct (outcome_upd_log _ _ _ _ _ _ _ O3) as (t & -> & O3').
    exists h, (set_lh_n 0 l), t. split; [|split; [done|split; [by apply (log_ok_clear st bs)|]]].
    + unfold recover_from_log. rewrite (bind_ok _ _ _ _ _ E1), (bind_ok _ _ _ _ _ E2). exact E3.
    + unfold recover_writes. pose proof (oo_disk _ _ _ _ _ _ O1) as D1. cbn in D1.
      change (disk s1) with (disk t1) in O2'. rewrite D1 in O2'.
      exact (outcome_trans _ _ _ _ _ _ _ _ _ _ O1 (outcome_trans _ _ _ _ _ _ _ _ _ _ O2' O3')).
Qed.

Lemma initlog_spec me st bs sb s :
  let s0 := upd_lock LLog unlocked s in
  ctx me s0 -> cache me ∅ ∅ s0 -> s32 (sb_logstart sb) = st ->
  length (lh_block (log s)) = Z.to_nat LOGSIZE -> homes st bs -> heads bs (disk_block (disk s) st) ->
  exists h0 l t, initlog ROOTDEV sb s = Ok tt (upd_log (fun _ => l) t) /\ heads [] h0 /\ log_ok st [] l /\
    outcome_of me s0 (recover_writes st (disk s) bs h0) ∅ ∅ t.
Proof.
  intros s0 Hc H Hst Hlen Hh Hd.
  set (f := fun l => set_log_dev ROOTDEV (set_log_size (s32 (sb_nlog sb)) (set_log_start (s32 (sb_logstart sb)) l))).
  destruct (recover_spec me st bs (upd_log f s0)) as (h0 & l & t & E & Hd0 & Hl & O); try done.
  - by apply ctx_upd_log.
  - by apply cache_upd_log.
  - destruct (outcome_upd_log _ _ _ _ _ _ _ O) as (t' & -> & O').
    exists h0, l, t'. split; [exact E|done].
Qed.

(** The writes of a commit of [bs] with contents [V]. *)
Definition commit_writes (st : Z) (V : Z -> list Z) (bs : list Z) (h h0 : list Z) : list (Z * list Z) :=
  log_writes st V bs ++ [(st, h)] ++ ((fun b => (b, V b)) <$> bs) ++ [(st, h0)].

Lemma log_writes_fst st V bs : (log_writes st V bs).*1 = slot_block st <$> seq 0 (length bs).
Proof.
  unfold log_writes. rewrite fmap_imap. apply list_eq. intros i.
  rewrite list_lookup_imap, list_lookup_fmap. destruct (decide (i < length bs)%nat) as [Hi|Hi].
  - rewrite lookup_seq_lt by done. destruct (lookup_lt_is_Some_2 bs i Hi) as [b ->]. done.
  - rewrite lookup_seq_ge, (lookup_ge_None_2 bs) by lia. done.
Qed.
Lemma log_writes_slot st V bs d i b :
  bs !! i = Some b -> disk_block (apply_writes (log_writes st V bs) d) (slot_block st i) = V b.
Proof.
  intros Hb. apply apply_writes_in.
  - rewrite log_writes_fst. apply NoDup_fmap_2_strong; [|apply NoDup_seq]. unfold slot_block. intros; lia.
  - apply list_elem_of_lookup. exists i. unfold log_writes. by rewrite list_lookup_imap, Hb.
Qed.
Lemma home_writes_logged st V d bs :
  (forall i b, bs !! i = Some b -> disk_block d (slot_block st i) = V b) ->
  home_writes st d bs = (fun b => (b, V b)) <$> bs.
Proof.
  intros H. apply list_eq. intros i. unfold home_writes. rewrite list_lookup_imap, list_lookup_fmap.
  destruct (bs !! i) as [b|] eqn:E; [|done]. cbn. by rewrite (H _ _ E).
Qed.

Lemma commit_spec me st bs V J C s :
  ctx me s -> log_ok st bs (log s) -> homes st bs -> bs <> [] -> cache me J C s -> pinned bs V C ->
  exists h h0 t, commit s = Ok tt (upd_log (set_lh_n 0) t) /\ heads bs h /\ heads [] h0 /\
    outcome_of me s (commit_writes st V bs h h0) ∅ ∅ t.
Proof.
  intros Hc Hl Hh Hne H Hp.
  destruct (write_log_spec me st bs V J C s Hc Hl Hh H Hp) as (s1 & E1 & O1).
  pose proof (outcome_ctx _ _ _ _ _ _ O1 Hc) as Hc1. pose proof (outcome_log _ _ _ _ _ _ O1) as L1.
  destruct (write_head_spec me st bs J C s1 Hc1) as (h & s2 & E2 & Hd & O2); try done.
  { by rewrite L1. } { apply O1. }
  { apply (pinned_out _ _ _ _ Hp). intros Hx. destruct (ho_range _ _ Hh _ Hx) as [_ ?].
    pose proof (ho_start _ _ Hh). unfold LOGSIZE, MAXOPBLOCKS in *. lia. }
  { pose proof (pinned_size _ _ _ (ho_nodup _ _ Hh) Hp). pose proof (ho_len _ _ Hh). lia. }
  pose proof (outcome_ctx _ _ _ _ _ _ O2 Hc1) as Hc2. pose proof (outcome_log _ _ _ _ _ _ O2) as L2.
  destruct (install_trans_spec me st bs J C s2 false Hc2) as (s3 & E3 & O3); try done.
  { by rewrite L2, L1. } { apply O2. } { by exists V. }
  rewrite (home_writes_logged st V) in O3.
  2:{ intros i b Hb. rewrite (oo_disk _ _ _ _ _ _ O2), (oo_disk _ _ _ _ _ _ O1).
      rewrite apply_writes_ne; [by apply log_writes_slot|]. unfold slot_block. set_solver by lia. }
  pose proof (outcome_ctx _ _ _ _ _ _ O3 Hc2) as Hc3. pose proof (outcome_log _ _ _ _ _ _ O3) as L3.
  destruct (clear_head_spec me st bs s3 Hc3) as (h0 & t & E4 & Hd0 & O4); [by rewrite L3, L2, L1|done|apply O3|].
  exists h, h0, t. split; [|split; [done|split; [done|]]].
  - unfold commit. msimp. rewrite (lo_n _ _ _ Hl). destruct bs as [|b bs']; [done|].
    cbn [length]. rewrite (proj2 (Z.ltb_lt 0 _)) by lia.
    rewrite (bind_ok _ _ _ _ _ E1), (bind_ok _ _ _ _ _ E2), (bind_ok _ _ _ _ _ E3). exact E4.
  - exact (outcome_trans _ _ _ _ _ _ _ _ _ _ O1 (outcome_trans _ _ _ _ _ _ _ _ _ _ O2
      (outcome_trans _ _ _ _ _ _ _ _ _ _ O3 O4))).
Qed.
End LogSpec.
