(* ===== verification/LogTx.v ===== *)
(** * Transactions of the log (kernel/log.c)

    A transaction is what a system call does between [begin_op] and [end_op]:
    blocks are read, changed, handed to [log_write] and released.  The theorems
    say what it leaves on the disk, and what a crash at any of its disk writes
    leaves after recovery. *)
From S2P Require Import Prelude Memory Machine Platform Sv32 Spinlock Printf Kalloc Vm Proc Sleeplock Bio Log.
From S2P Require Import Nemu ProcSpec SleepSpec NemuSpec BioSpec BioRefine LogSpec.
From stdpp Require Import gmap strings countable prelude.

Open Scope Z_scope.

Section Tx.
Context {L : Layout} {W : World} {D : DiskDriver}.

(** The use of the log its comments describe: read a block, modify it,
    [log_write], release. *)
Definition tx_write (p : Z * list Z) : K unit :=
  bp ← bread ROOTDEV p.1;
  bset bp (set_b_data p.2) ;;
  log_write bp ;;
  brelse bp.
Fixpoint tx_writes (ws : list (Z * list Z)) : K unit :=
  match ws with
  | [] => mret tt
  | p :: ws' => tx_write p ;; tx_writes ws'
  end.
Definition transaction (ws : list (Z * list Z)) : K unit :=
  begin_op ;; tx_writes ws ;; end_op.
End Tx.

(** The blocks a transaction logs, in the order of their first write. *)
Definition log_add (bs : list Z) (b : Z) : list Z := if decide (b ∈ bs) then bs else bs ++ [b].
Definition logged (ws : list (Z * list Z)) : list Z := foldl log_add [] (ws.*1).

Section LogTx.
Context {L : Layout} {W : World} {D : DiskDriver} {DO : DiskOk D}.

(** ** Operations that also change the log in memory *)

(** As [outcome_of], the log now being [l]. *)
Definition lstep (me : nat) (s : kstate) (w : list (Z * list Z)) (J : gmap Z nat) (C : gmap Z centry)
    (l : logstate) (s' : kstate) : Prop :=
  exists t, s' = upd_log (fun _ => l) t /\ outcome_of me s w J C t.

Lemma lstep_refl me s J C : cache me J C s -> lstep me s [] J C (log s) s.
Proof. intros H. exists s. split; [done|by apply outcome_refl]. Qed.
Lemma lstep_out me s w J C l s' w' J' C' s'' :
  lstep me s w J C l s' -> outcome_of me s' w' J' C' s'' -> lstep me s (w ++ w') J' C' l s''.
Proof.
  intros (t & -> & O) O'. destruct (outcome_upd_log _ _ _ _ _ _ _ O') as (t' & -> & O'').
  exists t'. split; [done|]. by eapply outcome_trans.
Qed.
Lemma lstep_set me s w J C l s' f :
  lstep me s w J C l s' -> lstep me s w J C (f l) (upd_log f s').
Proof. intros (t & -> & O). by exists t. Qed.
Lemma lstep_trans me s w J C l s' w' J' C' l' s'' :
  lstep me s w J C l s' -> lstep me s' w' J' C' l' s'' -> lstep me s (w ++ w') J' C' l' s''.
Proof. intros H (t & -> & O). exact (lstep_set _ _ _ _ _ l t (fun _ => l') (lstep_out _ _ _ _ _ _ _ _ _ _ _ H O)). Qed.
Lemma lstep_log me s w J C l s' : lstep me s w J C l s' -> log s' = l.
Proof. by intros (t & -> & _). Qed.
Lemma lstep_ctx me s w J C l s' : lstep me s w J C l s' -> ctx me s -> ctx me s'.
Proof. intros (t & -> & O) Hc. apply ctx_upd_log. by eapply outcome_ctx. Qed.
Lemma lstep_cache me s w J C l s' : lstep me s w J C l s' -> cache me J C s'.
Proof. intros (t & -> & O). apply cache_upd_log, O. Qed.
Lemma lstep_disk me s w J C l s' : lstep me s w J C l s' -> disk s' = apply_writes w (disk s).
Proof. intros (t & -> & O). apply O. Qed.
Lemma lstep_trace me s w J C l s' : lstep me s w J C l s' -> dtrace s' = dtrace s ++ w.
Proof. intros (t & -> & O). apply O. Qed.

Lemma lstep_from me f s w J C l s' : lstep me (upd_log f s) w J C l s' -> lstep me s w J C l s'.
Proof.
  intros (t & -> & O). destruct (outcome_upd_log _ _ _ _ _ _ _ O) as (t' & -> & O'). by exists t'.
Qed.

Lemma lset_run {A} f (k : unit -> K A) s : (lset f ≫= k) s = k tt (upd_log f s).
Proof. done. Qed.
(** ** begin_op *)

Lemma release_log s : settled s -> lock_free LLog s ->
  forall f, release LLog (upd_log f (acq LLog s)) = Ok tt (upd_log f s).
Proof.
  intros Hs Hf f. change (upd_log f (acq LLog s)) with (acq LLog (upd_log f s)).
  apply release_acq; [|done]. destruct Hs; by split.
Qed.

(** With nothing going on the transaction starts at once. *)
Lemma begin_op_ok me s :
  ctx me s -> log_committing (log s) = 0 -> lh_n (log s) + (log_outstanding (log s) + 1) * MAXOPBLOCKS <= LOGSIZE ->
  begin_op s = Ok tt (upd_log (fun l => set_log_outstanding (log_outstanding l + 1) l) s).
Proof.
  intros Hc Hcom Hn. pose proof (ctx_settled _ _ Hc) as Hs. pose proof (ctx_locks _ _ Hc LLog I) as Hf.
  unfold begin_op. mstep acquire_ok. destruct patience; cbn [begin_op_wait]; msimp.
  all: change (log (acq LLog s)) with (log s); rewrite Hcom.
  all: rewrite (proj2 (Z.ltb_ge _ _) Hn); cbn [negb orb Z.eqb].
  all: unfold lset; msimp; by apply release_log.
Qed.

(** ** log_write *)

Lemma log_find_in n : forall i l b k,
  (i <= k < i + n)%nat -> u32 (lh_at l k) = b -> (forall j, (i <= j < k)%nat -> u32 (lh_at l j) <> b) ->
  log_find n i l b = k.
Proof.
  induction n as [|n IH]; intros i l b k Hk Hb Hn; [lia|]. cbn [log_find].
  destruct (decide (i = k)) as [->|Hne]; [by rewrite Hb, Z.eqb_refl|].
  rewrite (proj2 (Z.eqb_neq _ _)) by (apply Hn; lia). apply IH; [lia|done|]. intros j Hj. apply Hn. lia.
Qed.
Lemma log_find_out n : forall i l b,
  (forall j, (i <= j < i + n)%nat -> u32 (lh_at l j) <> b) -> log_find n i l b = (i + n)%nat.
Proof.
  induction n as [|n IH]; intros i l b Hn; cbn [log_find]; [lia|].
  rewrite (proj2 (Z.eqb_neq _ _)) by (apply Hn; lia). rewrite IH; [lia|]. intros j Hj. apply Hn. lia.
Qed.
(** The search finds the slot of a logged block, or the end. *)
Lemma log_find_spec st bs l b :
  log_ok st bs l -> homes st bs ->
  exists k, log_find (length bs) 0 l b = k /\
    ((b ∈ bs /\ bs !! k = Some b) \/ (b ∉ bs /\ k = length bs)).
Proof.
  intros Hl Hh.
  assert (Hat : forall j x, bs !! j = Some x -> u32 (lh_at l j) = x).
  { intros j x Hj. rewrite (lh_at_ok _ _ _ _ _ Hl Hj).
    by apply (home_u32 st bs), list_elem_of_lookup_2 with j. }
  destruct (decide (b ∈ bs)) as [Hb|Hb].
  - apply list_elem_of_lookup in Hb as [k Hk]. exists k. pose proof (lookup_lt_Some _ _ _ Hk).
    split; [|left; split; [by apply list_elem_of_lookup_2 with k|done]].
    apply log_find_in; [lia|by apply Hat|]. intros j Hj E.
    destruct (lookup_lt_is_Some_2 bs j) as [x Hx]; [lia|]. rewrite (Hat _ _ Hx) in E. subst x.
    pose proof (NoDup_lookup _ _ _ _ (ho_nodup _ _ Hh) Hx Hk). lia.
  - exists (length bs). split; [|by right]. apply log_find_out. intros j Hj E.
    destruct (lookup_lt_is_Some_2 bs j) as [x Hx]; [lia|]. rewrite (Hat _ _ Hx) in E. subst x.
    apply Hb. by apply list_elem_of_lookup_2 with j.
Qed.

Lemma log_ok_add st bs l b k :
  log_ok st bs l -> 0 <= b < 2147483648 -> (length bs < Z.to_nat LOGSIZE)%nat -> b ∉ bs -> k = length bs ->
  log_ok st (bs ++ [b]) (set_lh_n (lh_n l + 1) (set_lh_block (<[k := s32 b]> (lh_block l)) l)).
Proof.
  intros [H1 H2 H3 H4 H5] Hb Hlt Hnb ->. rewrite s32_small by lia.
  split; cbn; [done|done|rewrite H3, length_app; cbn; lia| |by rewrite length_insert].
  intros i x Hi. destruct (decide (i = length bs)) as [->|Hne].
  - rewrite list_lookup_insert_eq by (by rewrite H5).
    rewrite lookup_app_r, Nat.sub_diag in Hi by lia. exact Hi.
  - rewrite list_lookup_insert_ne by done. apply H4.
    rewrite lookup_app in Hi. destruct (bs !! i) eqn:E; [done|].
    apply lookup_ge_None in E. destruct (i - length bs)%nat eqn:E'; [lia|done].
Qed.

Lemma bpin_ok i s : settled s -> lock_free LBcache s -> bpin i s = Ok tt (upd_buf i one_more s).
Proof. intros Hs Hf. unfold bpin. mstep acquire_ok. by apply (release_bufs LBcache). Qed.

(** The log in memory: [bs] logged, [out] operations running, no commit. *)
Record log_at (st sz : Z) (bs : list Z) (out : Z) (l : logstate) : Prop := {
  la_ok : log_ok st bs l;
  la_size : log_size l = sz;
  la_out : log_outstanding l = out;
  la_com : log_committing l = 0;
}.

Lemma log_ok_again st bs l b k :
  log_ok st bs l -> 0 <= b < 2147483648 -> (length bs < Z.to_nat LOGSIZE)%nat -> bs !! k = Some b ->
  log_ok st bs (set_lh_block (<[k := s32 b]> (lh_block l)) l).
Proof.
  intros [A1 A2 A3 A4 A5] Hb Hn Hk. rewrite s32_small by lia.
  split; cbn; [done|done|done| |by rewrite length_insert].
  intros j x Hj. destruct (decide (j = k)) as [->|Hne].
  - rewrite list_lookup_insert_eq; [congruence|]. rewrite A5. apply lookup_lt_Some in Hk. lia.
  - rewrite list_lookup_insert_ne by done. by apply A4.
Qed.

Definition slot_set (k : nat) (b : Z) (l : logstate) : logstate := set_lh_block (<[k := s32 b]> (lh_block l)) l.

(** [log_write] up to the point where the block is known or new. *)
Lemma log_write_enter st sz bs out s b i k :
  settled s -> lock_free LLog s -> log_at st sz bs out (log s) -> 1 <= out ->
  Z.of_nat (length bs) < LOGSIZE -> Z.of_nat (length bs) < sz - 1 ->
  b_blockno (bat (bufs s) i) = b -> log_find (length bs) 0 (log s) b = k ->
  log_write i s =
    ((if Z.of_nat k =? Z.of_nat (length bs) then bpin i ;; lset (fun l => set_lh_n (lh_n l + 1) l) else mret tt) ;;
     release LLog) (acq LLog (upd_log (slot_set k b) s)).
Proof.
  intros Hs Hf [Hl Hsz Ho Hcom] Hout Hn1 Hn2 Hb Ek. unfold log_write. mstep acquire_ok. unfold gets at 1. msimp.
  change (log (acq LLog s)) with (log s).
  rewrite (lo_n _ _ _ Hl), Hsz, Ho, (proj2 (Z.leb_gt _ _) Hn1), (proj2 (Z.leb_gt _ _) Hn2).
  rewrite (proj2 (Z.ltb_ge _ _) Hout). cbn [orb].
  assert (Eb : bget_field i b_blockno (acq LLog s) = Ok b (acq LLog s)) by (unfold gets; f_equal; exact Hb).
  by rewrite (bind_ok _ _ _ _ _ Eb), Nat2Z.id, Ek.
Qed.

Lemma log_write_spec me st sz bs out J C s b i e :
  ctx me s -> log_at st sz bs out (log s) -> homes st bs -> 1 <= out ->
  Z.of_nat (length bs) < LOGSIZE -> Z.of_nat (length bs) < sz - 1 -> 0 <= b < 2147483648 ->
  cache me J C s -> J !! b = Some i -> C !! b = Some e -> c_ref e + 1 < 2147483648 ->
  exists l s', log_write i s = Ok tt s' /\ log_at st sz (log_add bs b) out l /\
    lstep me s [] J (<[b := mk_centry (if decide (b ∈ bs) then c_ref e else c_ref e + 1) (c_data e) (c_held e)]> C) l s'.
Proof.
  intros Hc Hla Hh Hout Hn1 Hn2 Hb H Hi He Hr. pose proof Hla as [Hl Hsz Ho Hcom].
  pose proof (ctx_settled _ _ Hc) as Hs. pose proof (ctx_locks _ _ Hc LLog I) as Hf.
  destruct (ca_slot _ _ _ _ H _ _ _ Hi He) as (HiN & [_ S2 _ _ _ _] & _).
  destruct (log_find_spec st bs (log s) b Hl Hh) as (k & Ek & Hk).
  rewrite (log_write_enter st sz bs out s b i k Hs Hf Hla Hout Hn1 Hn2 S2 Ek). unfold log_add.
  assert (Hs1 : settled (upd_log (slot_set k b) s)) by (destruct Hs; by split).
  assert (Hlen : (length bs < Z.to_nat LOGSIZE)%nat) by (unfold LOGSIZE, MAXOPBLOCKS in *; lia).
  destruct Hk as [[Hin Hk]|[Hin ->]].
  - exists (slot_set k b (log s)), (upd_log (slot_set k b) s). rewrite !decide_True by done. split; [|split].
    + apply lookup_lt_Some in Hk. rewrite (proj2 (Z.eqb_neq _ _)) by lia. msimp. by apply release_acq.
    + split; [by apply log_ok_again|done..].
    + exists s. split; [done|]. apply outcome_refl. rewrite insert_id; [done|]. rewrite He. by destruct e.
  - set (f2 := fun l => set_lh_n (lh_n l + 1) l). set (f1 := slot_set (length bs) b).
    assert (Hs2 : settled (upd_log f2 (upd_buf i one_more (upd_log f1 s)))) by (destruct Hs; by split).
    exists (f2 (f1 (log s))), (upd_log f2 (upd_buf i one_more (upd_log f1 s))).
    rewrite !decide_False by done. split; [|split].
    + rewrite Z.eqb_refl. msimp.
      erewrite bind_ok by (apply bpin_ok; [by apply settled_acq|]; pose proof (ctx_locks _ _ Hc LBcache I); eauto with kernel).
      exact (release_acq LLog (upd_log f2 (upd_buf i one_more (upd_log f1 s))) Hs2 Hf).
    + split; [exact (log_ok_add st bs (log s) b _ Hl Hb Hlen Hin eq_refl)|done..].
    + exists (upd_buf i one_more s). split; [done|].
      destruct (bpin_spec me J C s b i e Hc H Hi He Hr) as (s' & E' & K & Ed & Et & H').
      rewrite (bpin_ok i s Hs (ctx_locks _ _ Hc LBcache I)) in E'. injection E' as <-.
      split; [done|done|by rewrite app_nil_r|done].
Qed.

(** ** The writes of a transaction *)

(** A block the file system may write. *)
Definition home_ok (st : Z) (p : Z * list Z) : Prop :=
  0 <= p.1 < 2147483648 /\ (p.1 < st \/ st + LOGSIZE <= p.1) /\ length p.2 = Z.to_nat BSIZE.

Lemma homes_add st bs b v :
  homes st bs -> home_ok st (b, v) -> (S (length bs) < NBUF)%nat -> homes st (log_add bs b).
Proof.
  intros [H1 H2 H3 H4] (Hb & Hr & _) Hn. unfold log_add. case_decide; [by split|].
  split; [|intros x Hx; apply elem_of_app in Hx as [Hx|Hx]; [by apply H2|apply list_elem_of_singleton in Hx as ->; done]|rewrite length_app; cbn; lia|done].
  apply NoDup_app. split; [done|]. split; [set_solver|apply NoDup_singleton].
Qed.

(** The contents of the logged blocks. *)
Definition vset (b : Z) (v : list Z) (V : Z -> list Z) (x : Z) : list Z := if decide (x = b) then v else V x.

Lemma pinned_add bs V C b v :
  pinned bs V C -> pinned (log_add bs b) (vset b v V) (<[b := mk_centry 1 v false]> C).
Proof.
  intros H x. unfold vset, log_add. destruct (decide (x = b)) as [->|Hne].
  - rewrite lookup_insert_eq, decide_True; [done|].
    case_decide; [done|set_solver].
  - rewrite lookup_insert_ne, H by done. apply decide_ext. case_decide; [done|set_solver].
Qed.

Lemma tx_write_spec me st sz bs out V J C s b v :
  ctx me s -> log_at st sz bs out (log s) -> homes st bs -> 1 <= out ->
  Z.of_nat (length bs) < LOGSIZE -> Z.of_nat (length bs) < sz - 1 -> home_ok st (b, v) ->
  cache me J C s -> pinned bs V C ->
  exists J' C' l s', tx_write (b, v) s = Ok tt s' /\ log_at st sz (log_add bs b) out l /\
    pinned (log_add bs b) (vset b v V) C' /\ lstep me s [] J' C' l s'.
Proof.
  intros Hc Hla Hh Hout Hn1 Hn2 (Hb & Hr & Hv) H Hp. cbn [fst snd] in *.
  pose proof (pinned_size _ _ _ (ho_nodup _ _ Hh) Hp) as Hsz. pose proof (ho_len _ _ Hh) as Hlen.
  assert (Ub : is_u32 b) by (unfold is_u32; lia).
  destruct (bread_out me J C s b Hc H Ub) as (i & s1 & E1 & O1 & _).
  { unfold readable. rewrite Hp, (cache_size _ _ _ _ H). case_decide; [by split|lia]. }
  pose proof (outcome_ctx _ _ _ _ _ _ O1 Hc) as Hc1.
  set (r := if decide (b ∈ bs) then 2 else 1).
  assert (exists d, read_entry C s b = mk_centry r d true) as [d Ed].
  { unfold read_entry, r. rewrite Hp. case_decide; by eexists. }
  rewrite Ed in O1.
  destruct (bset_data_out me _ _ s1 b i (mk_centry r d true) (fun _ => v) Hc1 (oo_cache _ _ _ _ _ _ O1))
    as (s2 & E2 & O2); [by simplify_map_eq..|done|].
  cbn [c_ref c_data c_held] in O2. rewrite insert_insert_eq in O2.
  pose proof (outcome_trans _ _ _ _ _ _ _ _ _ _ O1 O2) as O12. cbn [app] in O12.
  pose proof (outcome_ctx _ _ _ _ _ _ O12 Hc) as Hc2.
  destruct (log_write_spec me st sz bs out (<[b := i]> J) (<[b := mk_centry r v true]> C) s2 b i (mk_centry r v true) Hc2) as (l & s3 & E3 & Hl3 & O3);
    try done.
  { by rewrite (outcome_log _ _ _ _ _ _ O12). } { apply O12. }
  { by simplify_map_eq. } { by simplify_map_eq. } { unfold r; cbn; case_decide; lia. }
  cbn [c_ref c_data c_held] in O3. rewrite insert_insert_eq in O3.
  replace (if decide (b ∈ bs) then r else r + 1) with 2 in O3 by (unfold r; by case_decide).
  destruct (brelse_out_keep me _ _ s3 b i (mk_centry 2 v true) (lstep_ctx _ _ _ _ _ _ _ O3 Hc2)
    (lstep_cache _ _ _ _ _ _ _ O3)) as (s4 & E4 & O4); [by simplify_map_eq..|].
  cbn [c_ref c_data c_held] in O4. rewrite insert_insert_eq in O4.
  exists (<[b := i]> J), (<[b := mk_centry 1 v false]> C), l, s4. split; [|split; [done|split]].
  - unfold tx_write. cbn [fst snd]. rewrite (bind_ok _ _ _ _ _ E1), (bind_ok _ _ _ _ _ E2), (bind_ok _ _ _ _ _ E3). done.
  - by apply pinned_add.
  - pose proof (lstep_out _ _ _ _ _ _ _ _ _ _ _ O3 O4) as O34. destruct O34 as (t & -> & O34).
    exists t. split; [done|]. exact (outcome_trans _ _ _ _ _ _ _ _ _ _ O12 O34).
Qed.

(** The contents of the blocks after the writes [ws]. *)
Definition values (V : Z -> list Z) (ws : list (Z * list Z)) : Z -> list Z := foldl (fun V p => vset p.1 p.2 V) V ws.
(** There is room for every one of the writes. *)
Definition room (sz : Z) (bs : list Z) (ws : list (Z * list Z)) : Prop :=
  forall k, (k < length ws)%nat ->
    Z.of_nat (length (foldl log_add bs (take k ws).*1)) < sz - 1 /\ sz <= LOGSIZE.

Lemma room_cons sz bs p ws :
  room sz bs (p :: ws) -> Z.of_nat (length bs) < sz - 1 /\ sz <= LOGSIZE /\ room sz (log_add bs p.1) ws.
Proof.
  intros H. destruct (H 0%nat) as [H0 Hs]; [cbn; lia|]. split; [done|]. split; [done|].
  intros k Hk. apply (H (S k)). cbn. lia.
Qed.

Lemma tx_writes_spec me st sz out ws : forall bs V J C s,
  ctx me s -> log_at st sz bs out (log s) -> homes st bs -> 1 <= out -> room sz bs ws ->
  Forall (home_ok st) ws -> cache me J C s -> pinned bs V C ->
  exists J' C' l s', tx_writes ws s = Ok tt s' /\ log_at st sz (foldl log_add bs ws.*1) out l /\
    homes st (foldl log_add bs ws.*1) /\
    pinned (foldl log_add bs ws.*1) (values V ws) C' /\ lstep me s [] J' C' l s'.
Proof.
  induction ws as [|[b v] ws IH]; intros bs V J C s Hc Hla Hh Hout Hroom Hws H Hp.
  { exists J, C, (log s), s. split; [done|]. split; [done|]. split; [done|]. split; [done|by apply lstep_refl]. }
  apply Forall_cons in Hws as [Hb Hws]. apply room_cons in Hroom as (Hr1 & Hr2 & Hroom).
  destruct (tx_write_spec me st sz bs out V J C s b v Hc Hla Hh Hout) as (J1 & C1 & l1 & s1 & E1 & Hl1 & Hp1 & O1);
    try done; [lia|].
  destruct (IH (log_add bs b) (vset b v V) J1 C1 s1) as (J2 & C2 & l2 & s2 & E2 & Hl2 & Hh2 & Hp2 & O2); try done.
  - by eapply lstep_ctx.
  - by rewrite (lstep_log _ _ _ _ _ _ _ O1).
  - apply (homes_add st bs b v); [done|done|]. unfold NBUF, LOGSIZE, MAXOPBLOCKS in *. lia.
  - by eapply lstep_cache.
  - exists J2, C2, l2, s2. split; [|split; [done|split; [done|split; [done|]]]].
    + cbn [tx_writes]. by rewrite (bind_ok _ _ _ _ _ E1).
    + exact (lstep_trans _ _ _ _ _ _ _ _ _ _ _ _ O1 O2).
Qed.

(** ** end_op *)

(** What a commit writes. *)
Definition commit_trace (st : Z) (V : Z -> list Z) (bs : list Z) (w : list (Z * list Z)) : Prop :=
  (bs = [] /\ w = []) \/
  (exists h h0, heads bs h /\ heads [] h0 /\ w = commit_writes st V bs h h0).

Lemma commit_any me st bs V J C s :
  ctx me s -> log_ok st bs (log s) -> homes st bs -> cache me J C s -> pinned bs V C ->
  exists w s', commit s = Ok tt s' /\ commit_trace st V bs w /\ lstep me s w ∅ ∅ (set_lh_n 0 (log s)) s'.
Proof.
  intros Hc Hl Hh H Hp. destruct (decide (bs = [])) as [->|Hne].
  - exists [], s. assert (En : lh_n (log s) = 0) by apply Hl. split; [|split; [by left|]].
    + unfold commit. msimp. by rewrite En.
    + assert (C = ∅) as ->. { apply map_eq. intros b. by rewrite Hp, lookup_empty. }
      assert (J = ∅) as ->.
      { apply map_eq. intros b. rewrite lookup_empty. by apply (ca_dom _ _ _ _ H). }
      rewrite <- En. by apply lstep_refl.
  - destruct (commit_spec me st bs V J C s) as (h & h0 & t & E & Hh1 & Hh0 & O); try done.
    exists (commit_writes st V bs h h0), (upd_log (set_lh_n 0) t). split; [done|]. split; [right; eauto|].
    exists t. split; [|done]. by rewrite <- (outcome_log _ _ _ _ _ _ O).
Qed.

Lemma cache_wake me J C s ch :
  cache me J C s -> cache me J C (set_procs (imap (wake (Some me) ch) (procs s)) s).
Proof.
  intros [H1 H2 H3 H4 H5 H6]; split; [done|done| | |done|done].
  - intros b i e Hi He. destruct (H3 b i e Hi He) as (? & [S1 S2 S3 S4 S5 S6] & ?). split_and!; [done| |done].
    split; [done..|]. change (slock_of s (SLBuf i) = if c_held e then taken me s else sl_blank) in S6.
    unfold slock_of, taken, pid_of, proc_of in *. ksimp. rewrite S6. by rewrite (proj1 (wake_woken me _ _)).
  - intros i Hi Hn. destruct (H4 i Hi Hn) as [S1 S2 S3]. by split.
Qed.

Lemma end_op_spec me st sz bs V J C s :
  ctx me s -> log_at st sz bs 1 (log s) -> homes st bs -> cache me J C s -> pinned bs V C ->
  exists w l s', end_op s = Ok tt s' /\ commit_trace st V bs w /\ log_at st sz [] 0 l /\ lstep me s w ∅ ∅ l s'.
Proof.
  intros Hc [Hl Hsz Ho Hcom] Hh H Hp.
  pose proof (ctx_settled _ _ Hc) as Hs. pose proof (ctx_locks _ _ Hc LLog I) as Hf.
  set (f := fun l => set_log_committing 1 (set_log_outstanding (log_outstanding l - 1) l)).
  destruct (commit_any me st bs V J C (upd_log f s)) as (w & s1 & E1 & Hw & O1).
  - by apply ctx_upd_log.
  - destruct Hl as [A1 A2 A3 A4 A5]. by split.
  - done.
  - by apply cache_upd_log.
  - done.
  - pose proof (lstep_ctx _ _ _ _ _ _ _ O1 (proj2 (ctx_upd_log me f s) Hc)) as Hc1.
    pose proof (lstep_log _ _ _ _ _ _ _ O1) as L1.
    set (s2 := upd_log (set_log_committing 0) s1).
    assert (Hc2 : ctx me s2) by (by apply ctx_upd_log).
    set (s3 := set_procs (imap (wake (Some me) (Some CLog)) (procs s2)) s2).
    exists w, (set_log_committing 0 (log s1)), s3. split; [|split; [done|split]].
    + unfold end_op. mstep acquire_ok. rewrite lset_run, bind_gets.
      set (s0 := upd_log _ (acq LLog s)). assert (A1 : log_committing (log s0) = 0) by exact Hcom.
      assert (A2 : log_outstanding (log s0) = 0) by (unfold s0; cbn; by rewrite Ho).
      rewrite A1, A2. cbn [negb Z.eqb]. rewrite lset_run. subst s0.
      erewrite bind_ok by (exact (release_log s Hs Hf f)). rewrite (bind_ok _ _ _ _ _ E1).
      erewrite bind_ok by (apply acquire_ok; [apply Hc1|exact (ctx_locks _ _ Hc1 LLog I)]).
      rewrite lset_run. change (upd_log (set_log_committing 0) (acq LLog s1)) with (acq LLog s2).
      erewrite bind_ok by (by apply (wakeup_under me)). fold s3.
      apply release_acq; [|exact (ctx_locks _ _ Hc1 LLog I)]. destruct (ctx_settled _ _ Hc1). by split.
    + rewrite L1. destruct Hl as [A1 A2 A3 A4 A5]. split; cbn; [|done|by rewrite Ho|done].
      split; cbn; [done|done|done| |done]. intros i b. by rewrite lookup_nil.
    + apply (lstep_set _ _ _ _ _ _ _ (set_log_committing 0)) in O1. rewrite <- L1 in O1. fold s2 in O1.
      apply lstep_from in O1. rewrite <- (app_nil_r w). apply (lstep_out _ _ _ _ _ _ _ _ _ _ _ O1).
      split; [apply bkept_wake; auto with kept|done|by rewrite app_nil_r|].
      apply cache_wake. by eapply lstep_cache.
Qed.

(** ** A transaction *)

(** Between transactions: nothing cached is in use, and the log is empty in
    memory and on the disk. *)
Record quiet (me : nat) (st sz : Z) (s : kstate) : Prop := {
  q_ctx : ctx me s;
  q_log : log_at st sz [] 0 (log s);
  q_cache : cache me ∅ ∅ s;
  q_start : homes st [];
  q_head : heads [] (disk_block (disk s) st);
}.

(** The blocks of the disk that are not the log's. *)
Definition outside (st : Z) (b : Z) : Prop := b < st \/ st + LOGSIZE <= b.

Lemma homes_outside st bs b : homes st bs -> b ∈ bs -> outside st b.
Proof. intros H Hb. apply (ho_range _ _ H b Hb). Qed.

Lemma elem_of_log_add bs b x : x ∈ log_add bs b <-> x ∈ bs \/ x = b.
Proof. unfold log_add. case_decide; set_solver. Qed.
Lemma elem_of_logged_aux l : forall bs x, x ∈ foldl log_add bs l <-> x ∈ bs \/ x ∈ l.
Proof.
  induction l as [|b l IH]; intros bs x; cbn [foldl]; [set_solver|].
  rewrite IH, elem_of_log_add. set_solver.
Qed.
Lemma elem_of_logged ws x : x ∈ logged ws <-> x ∈ ws.*1.
Proof. unfold logged. rewrite elem_of_logged_aux. set_solver. Qed.

(** The contents logged are those the writes would leave on the disk. *)
Lemma values_writes ws : forall V d b,
  b ∈ ws.*1 \/ V b = disk_block d b -> values V ws b = disk_block (apply_writes ws d) b.
Proof.
  induction ws as [|[b' v] ws IH]; intros V d b H; cbn; [destruct H as [H|H]; [by apply elem_of_nil in H|done]|].
  apply IH. destruct (decide (b ∈ ws.*1)) as [|Hn]; [by left|right]. unfold vset, disk_block.
  case_decide as Hb; [subst; by rewrite lookup_insert_eq|]. rewrite lookup_insert_ne by done.
  destruct H as [H|H]; [|done]. cbn in H. set_solver.
Qed.

Lemma transaction_spec me st sz ws s :
  quiet me st sz s -> Forall (home_ok st) ws -> room sz [] ws ->
  exists w s' l, transaction ws s = Ok tt s' /\ homes st (logged ws) /\
    commit_trace st (values (fun _ => []) ws) (logged ws) w /\ log_at st sz [] 0 l /\ lstep me s w ∅ ∅ l s'.
Proof.
  intros [Hc Hl H Hst Hd] Hws Hroom. pose proof Hl as [Hlo Hsz Hout Hcom].
  pose proof (begin_op_ok me s Hc Hcom) as E0.
  assert (En : lh_n (log s) = 0) by apply Hlo. rewrite En, Hout in E0.
  specialize (E0 ltac:(unfold LOGSIZE, MAXOPBLOCKS; lia)).
  set (f := fun l => set_log_outstanding (log_outstanding l + 1) l) in E0.
  destruct (tx_writes_spec me st sz 1 ws [] (fun _ => []) ∅ ∅ (upd_log f s)) as
    (J1 & C1 & l1 & s1 & E1 & Hl1 & Hh1 & Hp1 & O1); try done.
  - by apply ctx_upd_log.
  - destruct Hlo as [A1 A2 A3 A4 A5]. split; cbn; [by split|done|by rewrite Hout|done].
  - by apply cache_upd_log.
  - pose proof (lstep_ctx _ _ _ _ _ _ _ O1 (proj2 (ctx_upd_log me f s) Hc)) as Hc1.
    destruct (end_op_spec me st sz (logged ws) (values (fun _ => []) ws) J1 C1 s1) as (w & l & s2 & E2 & Hw & Hl2 & O2);
      try done.
    + by rewrite (lstep_log _ _ _ _ _ _ _ O1).
    + by eapply lstep_cache.
    + exists w, s2, l. split; [|split; [done|split; [done|split; [done|]]]].
      * unfold transaction. by rewrite (bind_ok _ _ _ _ _ E0), (bind_ok _ _ _ _ _ E1).
      * apply (lstep_from me f). exact (lstep_trans _ _ _ _ _ _ _ _ _ _ _ _ O1 O2).
Qed.
End LogTx.
