(* ===== verification/LogCrash.v ===== *)
(** * Crashes and recovery (kernel/log.c)

    The images of the disk a crash can leave, during a commit or during a
    recovery, and what the next recovery makes of them. *)
From S2P Require Import Prelude Memory Machine Platform Sv32 Spinlock Printf Kalloc Vm Proc Sleeplock Bio Log.
From S2P Require Import Nemu ProcSpec SleepSpec NemuSpec BioSpec BioRefine LogSpec LogTx.
From stdpp Require Import gmap strings countable prelude.

Open Scope Z_scope.

(** ** Images *)

Section Images.
Variables (st : Z) (V : Z -> list Z) (bs : list Z) (d0 : gmap Z (list Z)).

(** Nothing has been committed. *)
Record old_image (d : gmap Z (list Z)) : Prop := {
  old_head : heads [] (disk_block d st);
  old_rest : forall b, outside st b -> disk_block d b = disk_block d0 b;
}.
(** The transaction is in the log; some of its blocks may be installed. *)
Record logged_image (d : gmap Z (list Z)) : Prop := {
  lg_head : heads bs (disk_block d st);
  lg_slot : forall i b, bs !! i = Some b -> disk_block d (slot_block st i) = V b;
  lg_rest : forall b, outside st b -> b ∉ bs -> disk_block d b = disk_block d0 b;
}.
(** The transaction is installed and the log cleared. *)
Record new_image (d : gmap Z (list Z)) : Prop := {
  new_head : heads [] (disk_block d st);
  new_rest : forall b, outside st b -> disk_block d b = if decide (b ∈ bs) then V b else disk_block d0 b;
}.
(** What a crash before, or after, the commit point leaves. *)
Definition durable (committed : bool) (d : gmap Z (list Z)) : Prop :=
  if committed then logged_image d \/ new_image d else old_image d.

Hypothesis Hh : homes st bs.

Lemma slot_lt i b : bs !! i = Some b -> (S i < NBUF)%nat.
Proof. intros Hi. apply lookup_lt_Some in Hi. pose proof (ho_len _ _ Hh). lia. Qed.

(** Writes of log blocks leave everything else. *)
Lemma log_writes_other k d b :
  outside st b \/ b = st -> disk_block (apply_writes (take k (log_writes st V bs)) d) b = disk_block d b.
Proof.
  intros Hb. apply apply_writes_ne. rewrite fmap_take, log_writes_fst. intros Hx%subseteq_take.
  apply list_elem_of_fmap in Hx as (i & -> & Hi). apply elem_of_seq in Hi. pose proof (ho_len _ _ Hh).
  unfold outside, slot_block, LOGSIZE, MAXOPBLOCKS, NBUF in *. lia.
Qed.
(** Writes of home blocks leave everything but them. *)
Lemma installs_other k d b :
  b ∉ bs -> disk_block (apply_writes (take k ((fun b => (b, V b)) <$> bs)) d) b = disk_block d b.
Proof.
  intros Hb. apply apply_writes_ne. rewrite fmap_take, <- list_fmap_compose. intros Hx%subseteq_take.
  apply Hb. apply list_elem_of_fmap in Hx as (x & -> & Hx). done.
Qed.
Lemma inside_not_home b : ~ outside st b -> b ∉ bs.
Proof. intros H Hb. by apply H, (homes_outside st bs). Qed.
Lemma slot_inside i b : bs !! i = Some b -> ~ outside st (slot_block st i) /\ slot_block st i <> st.
Proof.
  intros Hi. pose proof (slot_lt _ _ Hi).
  unfold outside, slot_block, LOGSIZE, MAXOPBLOCKS, NBUF in *. lia.
Qed.
Lemma start_inside : ~ outside st st.
Proof. unfold outside, LOGSIZE, MAXOPBLOCKS. lia. Qed.

(** Installing keeps the log. *)
Lemma logged_installs k d :
  logged_image d -> logged_image (apply_writes (take k ((fun b => (b, V b)) <$> bs)) d).
Proof.
  intros [H1 H2 H3]. split.
  - rewrite installs_other by (apply inside_not_home, start_inside). done.
  - intros i b Hi. rewrite installs_other; [by apply H2|]. by eapply inside_not_home, slot_inside.
  - intros b Ho Hb. rewrite installs_other by done. by apply H3.
Qed.
Lemma logged_cleared h0 d :
  logged_image d -> heads [] h0 ->
  new_image (apply_writes (((fun b => (b, V b)) <$> bs) ++ [(st, h0)]) d).
Proof.
  intros [H1 H2 H3] Hh0. rewrite apply_writes_app. split.
  - cbn. unfold disk_block. by rewrite lookup_insert_eq.
  - intros b Ho. rewrite apply_writes_ne.
    2:{ cbn. intros ->%list_elem_of_singleton. by apply start_inside. }
    case_decide as Hb.
    + apply apply_writes_in; [rewrite <- list_fmap_compose|apply list_elem_of_fmap; eauto].
      rewrite list_fmap_id. apply Hh.
    + rewrite apply_writes_ne; [by apply H3|]. rewrite <- list_fmap_compose, list_fmap_id. done.
Qed.

(** Installing and clearing, cut anywhere. *)
Lemma logged_tail k h0 d :
  logged_image d -> heads [] h0 ->
  durable true (apply_writes (take k (((fun b => (b, V b)) <$> bs) ++ [(st, h0)])) d).
Proof.
  intros H Hh0. set (w := (fun b => (b, V b)) <$> bs). destruct (decide (k <= length w)%nat) as [Hk|Hk].
  - left. rewrite take_app_le by done. by apply logged_installs.
  - right. rewrite take_ge by (rewrite length_app; cbn; lia). by apply logged_cleared.
Qed.

(** The disk right after the commit point. *)
Lemma commit_logged h :
  heads bs h -> logged_image (<[st := h]> (apply_writes (log_writes st V bs) d0)).
Proof.
  intros Hhd. split.
  - unfold disk_block. by rewrite lookup_insert_eq.
  - intros i b Hi. unfold disk_block. rewrite lookup_insert_ne by (intros E; by apply (slot_inside i b Hi)).
    by apply log_writes_slot.
  - intros b Ho Hb. unfold disk_block. rewrite lookup_insert_ne by (intros <-; by apply start_inside).
    pose proof (log_writes_other (length bs) d0 b (or_introl Ho)) as E.
    rewrite take_ge in E; [exact E|]. unfold log_writes. rewrite length_imap. lia.
Qed.
Lemma commit_done h h0 :
  heads bs h -> heads [] h0 -> new_image (apply_writes (commit_writes st V bs h h0) d0).
Proof.
  intros Hhd Hh0. unfold commit_writes. rewrite apply_writes_app. apply (logged_cleared h0); [|done].
  by apply commit_logged.
Qed.

(** A commit cut after [k] of its writes: the header is the commit point. *)
Lemma commit_cut k h h0 :
  heads [] (disk_block d0 st) -> heads bs h -> heads [] h0 ->
  durable (bool_decide (length bs < k)%nat) (apply_writes (take k (commit_writes st V bs h h0)) d0).
Proof.
  intros Hd Hhd Hh0. unfold commit_writes.
  assert (Hlen : length (log_writes st V bs) = length bs) by (unfold log_writes; apply length_imap).
  case_bool_decide as Hk; cbn [durable].
  - rewrite take_app_ge, Hlen by lia. destruct (k - length bs)%nat as [|k'] eqn:Ek; [lia|].
    cbn [app take]. rewrite apply_writes_app. set (d1 := apply_writes (log_writes st V bs) d0).
    change (apply_writes ((st, h) :: ?w) d1) with (apply_writes w (<[st := h]> d1)).
    apply logged_tail; [by apply commit_logged|done].
  - rewrite take_app_le by lia. split.
    + by rewrite log_writes_other by (by right).
    + intros b Ho. by rewrite log_writes_other by (by left).
Qed.

(** A recovery cut anywhere, and a recovery that completes. *)
Lemma logged_recover k h0 d :
  logged_image d -> heads [] h0 -> durable true (apply_writes (take k (recover_writes st d bs h0)) d).
Proof.
  intros H Hh0. unfold recover_writes. rewrite (home_writes_logged st V) by apply H. by apply logged_tail.
Qed.
Lemma logged_recovered h0 d :
  logged_image d -> heads [] h0 -> new_image (apply_writes (recover_writes st d bs h0) d).
Proof.
  intros H Hh0. unfold recover_writes. rewrite (home_writes_logged st V) by apply H. by apply logged_cleared.
Qed.
Lemma cleared_other k h0 d b : outside st b ->
  disk_block (apply_writes (take k (recover_writes st d [] h0)) d) b = disk_block d b.
Proof.
  intros Ho. apply apply_writes_ne. rewrite fmap_take. intros Hx%subseteq_take.
  cbn in Hx. apply list_elem_of_singleton in Hx as ->. by apply start_inside.
Qed.
Lemma cleared_head k h0 d : heads [] (disk_block d st) -> heads [] h0 ->
  heads [] (disk_block (apply_writes (take k (recover_writes st d [] h0)) d) st).
Proof.
  intros H Hh0. destruct k as [|k]; [done|]. cbn. rewrite take_nil. cbn.
  unfold disk_block. by rewrite lookup_insert_eq.
Qed.
Lemma old_recover k h0 d :
  old_image d -> heads [] h0 -> old_image (apply_writes (take k (recover_writes st d [] h0)) d).
Proof.
  intros [H1 H2] Hh0. split; [by apply cleared_head|]. intros b Ho. rewrite cleared_other by done. by apply H2.
Qed.
Lemma new_recover k h0 d :
  new_image d -> heads [] h0 -> new_image (apply_writes (take k (recover_writes st d [] h0)) d).
Proof.
  intros [H1 H2] Hh0. split; [by apply cleared_head|]. intros b Ho. rewrite cleared_other by done. by apply H2.
Qed.
End Images.

Section Crash.
Context {L : Layout} {W : World} {D : DiskDriver} {DO : DiskOk D}.

(** A machine that has booted up to [initlog]: nothing is cached. *)
Record ready (me : nat) (st : Z) (sb : superblock) (s : kstate) : Prop := {
  rd_ctx : ctx me (upd_lock LLog unlocked s);
  rd_cache : cache me ∅ ∅ (upd_lock LLog unlocked s);
  rd_start : s32 (sb_logstart sb) = st;
  rd_len : length (lh_block (log s)) = Z.to_nat LOGSIZE;
}.

(** A recovery that starts on the disk [d] and is cut by a crash that leaves
    [d']. *)
Definition reboots (st : Z) (d d' : gmap Z (list Z)) : Prop :=
  exists me sb s s' w k, ready me st sb s /\ disk s = d /\ initlog ROOTDEV sb s = Ok tt s' /\
    dtrace s' = dtrace s ++ w /\ d' = apply_writes (take k w) d.

(** [initlog] on an image: its writes and what they leave. *)
Lemma initlog_image st V bs d0 c me sb s :
  homes st bs -> durable st V bs d0 c (disk s) -> ready me st sb s ->
  exists w s', initlog ROOTDEV sb s = Ok tt s' /\ dtrace s' = dtrace s ++ w /\ disk s' = apply_writes w (disk s) /\
    (forall k, durable st V bs d0 c (apply_writes (take k w) (disk s))) /\
    (if c then new_image st V bs d0 (disk s') else old_image st d0 (disk s')).
Proof.
  intros Hh Hd [R1 R2 R3 R4].
  assert (exists bl, homes st bl /\ heads bl (disk_block (disk s) st) /\
    (forall h0 k, heads [] h0 -> durable st V bs d0 c (apply_writes (take k (recover_writes st (disk s) bl h0)) (disk s))) /\
    (forall h0, heads [] h0 -> let d := apply_writes (recover_writes st (disk s) bl h0) (disk s) in
      if c then new_image st V bs d0 d else old_image st d0 d)) as (bl & H1 & H2 & H3 & H4).
  { pose proof (homes_nil _ _ Hh) as Hn. destruct c; cbn [durable] in *.
    - destruct Hd as [Hd|Hd].
      + exists bs. split_and!; [done|apply Hd|intros; by apply logged_recover|intros; by apply logged_recovered].
      + exists []. split_and!; [done|apply Hd|intros; right; by apply new_recover|].
        intros h0 E. rewrite <- (take_ge (recover_writes st (disk s) [] h0) 1) by (cbn; lia). by apply new_recover.
    - exists []. split_and!; [done|apply Hd|intros; by apply old_recover|].
      intros h0 E. rewrite <- (take_ge (recover_writes st (disk s) [] h0) 1) by (cbn; lia). by apply old_recover. }
  destruct (initlog_spec me st bl sb s R1 R2 R3 R4 H1 H2) as (h0 & l & t & E & Hh0 & Hl & O).
  exists (recover_writes st (disk s) bl h0), (upd_log (fun _ => l) t). split; [done|].
  split; [apply O|]. split; [apply O|]. split; [intros k; by apply H3|].
  pose proof (oo_disk _ _ _ _ _ _ O) as Ed. change (disk (upd_log (fun _ => l) t)) with (disk t). rewrite Ed.
  by apply H4.
Qed.

Lemma reboots_durable st V bs d0 c d d' :
  homes st bs -> durable st V bs d0 c d -> rtc (reboots st) d d' -> durable st V bs d0 c d'.
Proof.
  intros Hh Hd H. induction H as [|d d1 d2 Hr _ IH]; [done|]. apply IH.
  destruct Hr as (me & sb & s & s' & w & k & Hr & <- & E & Et & ->).
  destruct (initlog_image st V bs d0 c me sb s Hh Hd Hr) as (w' & s'' & E' & Et' & _ & Hk & _).
  rewrite E in E'. injection E' as <-. rewrite Et in Et'. apply app_inv_head in Et' as ->. apply Hk.
Qed.

(** What a transaction's trace leaves, whole or cut. *)
Lemma trace_cut st V bs d0 w k :
  homes st bs -> heads [] (disk_block d0 st) -> commit_trace st V bs w ->
  durable st V bs d0 (bool_decide (length bs < k)%nat) (apply_writes (take k w) d0).
Proof.
  intros Hh Hd [[-> ->]|(h & h0 & H1 & H2 & ->)]; [|by apply commit_cut].
  rewrite take_nil. case_bool_decide; [right|]; by split.
Qed.
Lemma trace_done st V bs d0 w :
  homes st bs -> heads [] (disk_block d0 st) -> commit_trace st V bs w ->
  new_image st V bs d0 (apply_writes w d0).
Proof. intros Hh Hd [[-> ->]|(h & h0 & H1 & H2 & ->)]; [by split|by apply commit_done]. Qed.
End Crash.

(** C1: a file system transaction is atomic and durable.  Between transactions,
    [begin_op], any [bread]/modify/[log_write]/[brelse] of blocks that fit the
    log, and [end_op] succeed, and leave every block outside the log as those
    writes say.  If the machine crashes after [k] of the disk writes issued,
    and then in any number of recoveries after any of theirs, the recovery of
    [initlog] that completes leaves the blocks all as they were before, when the
    log header had not been written by the crash, and all as the transaction
    wrote them, when it had. *)
Theorem transaction_atomic (L : Layout) (W : World) (D : DiskDriver) (DO : DiskOk D) me st sz ws s :
  quiet me st sz s -> Forall (home_ok st) ws -> room sz [] ws ->
  let after := apply_writes ws (disk s) in
  exists w s', transaction ws s = Ok tt s' /\ quiet me st sz s' /\
    dtrace s' = dtrace s ++ w /\ disk s' = apply_writes w (disk s) /\
    (forall b, outside st b -> disk_block (disk s') b = disk_block after b) /\
    forall k d, rtc (reboots st) (apply_writes (take k w) (disk s)) d ->
    forall me1 sb s1, ready me1 st sb s1 -> disk s1 = d ->
    exists s2, initlog ROOTDEV sb s1 = Ok tt s2 /\ heads [] (disk_block (disk s2) st) /\
      forall b, outside st b -> disk_block (disk s2) b =
        if decide (length (logged ws) < k)%nat then disk_block after b else disk_block (disk s) b.
Proof.
  intros Hq Hws Hroom after. pose proof Hq as [Hc Hl H Hst Hd].
  destruct (transaction_spec me st sz ws s Hq Hws Hroom) as (w & s' & l & E & Hh & Hw & Hl' & O).
  set (V := values (fun _ => []) ws) in *.
  assert (Hnew : forall b, (if decide (b ∈ logged ws) then V b else disk_block (disk s) b) = disk_block after b).
  { intros b. case_decide as Hb; rewrite elem_of_logged in Hb.
    - by apply values_writes; left.
    - unfold after. by rewrite apply_writes_ne. }
  pose proof (trace_done st V _ (disk s) w Hh Hd Hw) as Hfin. rewrite <- (lstep_disk _ _ _ _ _ _ _ O) in Hfin.
  exists w, s'. split; [done|]. split_and!.
  - split; [by eapply lstep_ctx|by rewrite (lstep_log _ _ _ _ _ _ _ O)|by eapply lstep_cache|done|apply Hfin].
  - by eapply lstep_trace.
  - by eapply lstep_disk.
  - intros b Ho. rewrite (new_rest _ _ _ _ _ Hfin b Ho). apply Hnew.
  - intros k d Hr me1 sb s1 Hrd Ed.
    pose proof (reboots_durable st V _ _ _ _ _ Hh (trace_cut st V _ _ w k Hh Hd Hw) Hr) as Hdur.
    rewrite <- Ed in Hdur.
    destruct (initlog_image st V _ _ _ me1 sb s1 Hh Hdur Hrd) as (w2 & s2 & E2 & _ & _ & _ & Him).
    exists s2. split; [done|]. case_bool_decide as Hk.
    + split; [apply Him|]. intros b Ho. rewrite decide_True by done.
      rewrite (new_rest _ _ _ _ _ Him b Ho). apply Hnew.
    + split; [apply Him|]. intros b Ho. rewrite decide_False by done. by apply Him.
Qed.

(** ** Machines to run it on *)

(** The log of a file system made by mkfs: header at block 2, 16 blocks. *)
Definition mkfs_sb : superblock := {| sb_magic := 0; sb_size := 0; sb_nblocks := 0; sb_ninodes := 0;
  sb_nlog := 16; sb_logstart := 2; sb_inodestart := 0; sb_bmapstart := 0 |}.

Lemma booted_ready d :
  (forall b, length (disk_block d b) = Z.to_nat BSIZE) -> ready 0 2 mkfs_sb (booted_on d).
Proof.
  intros Hd. destruct (booted_on_ok d Hd) as (Hc & H & Sl & B & E).
  assert (U : upd_lock LLog unlocked (booted_on d) = booted_on d).
  { rewrite E. unfold upd_lock. ksimp. rewrite insert_id; [done|]. exact (ctx_locks _ _ two_pids_ctx LLog I). }
  split; [by rewrite U|by rewrite U|done|]. rewrite E. reflexivity.
Qed.

Definition log_machine_on (d : gmap Z (list Z)) : kstate :=
  upd_log (fun l => set_log_dev ROOTDEV (set_log_size 16 (set_log_start 2 l))) (booted_on d).
Definition log_machine : kstate := log_machine_on ∅.

Lemma log_machine_on_quiet d : (forall b, length (disk_block d b) = Z.to_nat BSIZE) -> heads [] (disk_block d 2) ->
  quiet 0 2 16 (log_machine_on d).
Proof.
  intros Hd Hh. destruct (booted_on_ok d Hd) as (Hc & H & Sl & B & E). unfold log_machine_on. split.
  - by apply ctx_upd_log.
  - rewrite E. split; [split|..]; try reflexivity. intros i b. by rewrite lookup_nil.
  - by apply cache_upd_log.
  - clear E. split; [constructor|intros b Hb; by apply elem_of_nil in Hb|unfold NBUF; cbn; lia|].
    unfold LOGSIZE, MAXOPBLOCKS. lia.
  - rewrite E. exact Hh.
Qed.
Lemma empty_head : heads [] (disk_block ∅ 2).
Proof. split; [reflexivity| |reflexivity]. intros i b. by rewrite lookup_nil. Qed.
Lemma log_machine_quiet : quiet 0 2 16 log_machine.
Proof. apply log_machine_on_quiet; [intros b; reflexivity|exact empty_head]. Qed.

Definition two_writes : list (Z * list Z) := [(40, sample); (41, sample); (40, replicate 512 66)].

Lemma transaction_atomic_witness :
  exists w s' s2, let D := @nemu_disk_driver test_layout nemu_world in
  @transaction nemu_world D two_writes log_machine = Ok tt s' /\
  dtrace s' = w /\ @initlog nemu_world D ROOTDEV mkfs_sb (booted_on (disk s')) = Ok tt s2 /\
  disk_block (disk s2) 40 = replicate 512 66 /\ disk_block (disk s2) 41 = sample.
Proof.
  destruct (transaction_atomic test_layout nemu_world (@nemu_disk_driver test_layout nemu_world)
    (nemu_disk_laws _ _ nemu_world_disk) 0 2 16 two_writes log_machine) as (w & s' & E & Hq & Ht & Hd & _ & Hcrash).
  - exact log_machine_quiet.
  - repeat constructor; cbn; unfold LOGSIZE, MAXOPBLOCKS; lia.
  - intros k Hk. cbn in Hk. split; [|unfold LOGSIZE, MAXOPBLOCKS; lia].
    destruct k as [|[|[|k]]]; [vm_compute; reflexivity..|lia].
  - destruct (Hcrash (3 + length w)%nat (disk s')) with (me1 := 0%nat) (sb := mkfs_sb) (s1 := booted_on (disk s'))
      as (s2 & E2 & _ & Hb).
    + rewrite take_ge by lia. rewrite <- Hd. reflexivity.
    + apply booted_ready. apply (ca_disk _ _ _ _ (q_cache _ _ _ _ Hq)).
    + by destruct (booted_on_ok (disk s') (ca_disk _ _ _ _ (q_cache _ _ _ _ Hq))) as (_ & _ & Sl & B & ->).
    + exists w, s', s2. split; [exact E|]. split; [exact Ht|]. split; [exact E2|].
      split; rewrite Hb by (right; unfold LOGSIZE, MAXOPBLOCKS; lia); reflexivity.
Defined.
