(* ===== verification/VmSpec.v ===== *)
(** * Page tables: invariant and the specification of the vm.c operations

    A page table is described by the set [T] of its pages, and by the function
    [pte_of] from virtual addresses to entries.  Every operation is specified
    by what it does to that function, to the set of free pages and to the
    memory outside page tables and free pages. *)
From S2P Require Import Prelude Memory Machine Sv32 Spinlock Kalloc Vm.
From stdpp Require Import gmap strings countable prelude.

Open Scope Z_scope.
#[local] Opaque memset.

(** ** Reading a page table *)

(** The address of the entry for [va], when its level-0 table exists. *)
Definition pte_addr (m : gmap Z Z) (root va : Z) : option Z :=
  let v := load32 m (root + 4 * PX 1 va) in
  if is_set v PTE_V then Some (PTE2PA v + 4 * PX 0 va) else None.

(** The entry for [va]; 0, which is invalid, when there is none. *)
Definition pte_of (m : gmap Z Z) (root va : Z) : Z :=
  match pte_addr m root va with Some a => load32 m a | None => 0 end.

(** Two addresses of the same page. *)
Definition same_page (va va' : Z) : Prop := va / PGSIZE = va' / PGSIZE.
#[export] Instance same_page_dec va va' : Decision (same_page va va').
Proof. unfold same_page. apply _. Defined.

(** Memory agrees outside the pages of [P]. *)
Definition agree_off (P : gset Z) (m m' : gmap Z Z) : Prop :=
  forall b, (forall p, p ∈ P -> b < p \/ p + PGSIZE <= b) -> load8 m' b = load8 m b.

Section VmSpec.
Context {L : Layout} {LO : LayoutOk L}.

(** The pages of the table at [root] are exactly [T]: valid root entries hold
    no permission bits and point to distinct pages of [T] other than the
    root. *)
Record pt_ok (T : gset Z) (m : gmap Z Z) (root : Z) : Prop := {
  pt_root : root ∈ T;
  pt_pages : forall t, t ∈ T -> page t;
  pt_child : forall i, 0 <= i < 1024 ->
    is_set (load32 m (root + 4 * i)) PTE_V = true ->
    load32 m (root + 4 * i) = u32 (Z.lor (PA2PTE (PTE2PA (load32 m (root + 4 * i)))) PTE_V) /\
    PTE2PA (load32 m (root + 4 * i)) ∈ T /\ PTE2PA (load32 m (root + 4 * i)) <> root;
  pt_inj : forall i j, 0 <= i < 1024 -> 0 <= j < 1024 ->
    is_set (load32 m (root + 4 * i)) PTE_V = true ->
    is_set (load32 m (root + 4 * j)) PTE_V = true ->
    PTE2PA (load32 m (root + 4 * i)) = PTE2PA (load32 m (root + 4 * j)) -> i = j;
  pt_exact : forall t, t ∈ T -> t <> root ->
    exists i, 0 <= i < 1024 /\ is_set (load32 m (root + 4 * i)) PTE_V = true /\
      PTE2PA (load32 m (root + 4 * i)) = t;
}.

(** ** Frames *)

Lemma agree_off_refl P m : agree_off P m m.
Proof. by intros b Hb. Qed.

Lemma agree_off_trans P m1 m2 m3 :
  agree_off P m1 m2 -> agree_off P m2 m3 -> agree_off P m1 m3.
Proof. intros H1 H2 b Hb. rewrite H2 by done. by apply H1. Qed.

Lemma agree_off_mono P P' m m' : P ⊆ P' -> agree_off P m m' -> agree_off P' m m'.
Proof. intros Hs H b Hb. apply H. intros p Hp. apply Hb. set_solver. Qed.

Lemma agree_off_single p m m' : same_outside p m m' -> agree_off {[p]} m m'.
Proof. intros H b Hb. apply H, Hb. set_solver. Qed.

Lemma agree_off_store32 P m m' p a v :
  p ∈ P -> p <= a -> a + 4 <= p + PGSIZE -> agree_off P m m' -> agree_off P m (store32 m' a v).
Proof.
  intros Hp Ha Ha' H b Hb. destruct (Hb p Hp); rewrite load8_store32_ne by lia; by apply H.
Qed.

Lemma agree_off_load8 P m m' t b :
  agree_off P m m' -> (forall p, p ∈ P -> page p) -> page t -> t ∉ P ->
  t <= b < t + PGSIZE -> load8 m' b = load8 m b.
Proof.
  intros H HP Ht Hni Hb. apply H. intros p Hp.
  destruct (pages_apart t p) as [?|?]; [apply Ht|by apply HP|set_solver|lia|lia].
Qed.

Lemma agree_off_load32 P m m' t a :
  agree_off P m m' -> (forall p, p ∈ P -> page p) -> page t -> t ∉ P ->
  t <= a -> a + 4 <= t + PGSIZE -> load32 m' a = load32 m a.
Proof.
  intros H HP Ht Hni Ha Ha'. apply load32_ext. intros b Hb.
  eapply agree_off_load8; eauto. lia.
Qed.

(** ** Entries *)

Lemma is_set_0 k : is_set 0 k = false.
Proof. unfold is_set. by rewrite Z.land_0_l. Qed.

Lemma pte_addr_in T m root va a :
  pt_ok T m root -> pte_addr m root va = Some a ->
  exists t, t ∈ T /\ t <> root /\ a = t + 4 * PX 0 va /\
    is_set (load32 m (root + 4 * PX 1 va)) PTE_V = true /\
    PTE2PA (load32 m (root + 4 * PX 1 va)) = t.
Proof.
  intros Hok H. unfold pte_addr in H.
  destruct (is_set _ _) eqn:E; [|done]. inversion H; subst.
  destruct (pt_child _ _ _ Hok (PX 1 va)) as (_ & Hin & Hne); [apply PX_range|done|].
  eauto 10.
Qed.

Lemma pte_addr_pos T m root va a :
  pt_ok T m root -> pte_addr m root va = Some a -> 0 < a.
Proof.
  intros Hok H. destruct (pte_addr_in _ _ _ _ _ Hok H) as (t & Ht & _ & -> & _).
  pose proof (page_pos t (pt_pages _ _ _ Hok t Ht)). pose proof (PX_range 0 va). lia.
Qed.

(** The same table in another memory that agrees on its pages. *)
Lemma pt_ok_frame P T m m' root :
  pt_ok T m root -> agree_off P m m' -> (forall p, p ∈ P -> page p) -> P ## T ->
  pt_ok T m' root /\ (forall va, pte_addr m' root va = pte_addr m root va) /\
  (forall va, pte_of m' root va = pte_of m root va).
Proof.
  intros Hok Ha HP Hd.
  assert (forall t a, t ∈ T -> t <= a -> a + 4 <= t + PGSIZE -> load32 m' a = load32 m a)
    as Hl.
  { intros t a Ht H1 H2. eapply agree_off_load32; [done|done|by eapply pt_pages|set_solver|done|done]. }
  assert (forall i, 0 <= i < 1024 -> load32 m' (root + 4 * i) = load32 m (root + 4 * i))
    as Hr.
  { intros i Hi. apply (Hl root); [apply Hok|unfold PGSIZE; lia|unfold PGSIZE; lia]. }
  assert (forall va, pte_addr m' root va = pte_addr m root va) as Hpa.
  { intros va. unfold pte_addr. by rewrite Hr by apply PX_range. }
  split_and!.
  - destruct Hok as [H1 H2 H3 H4 H5]. split; [done|done| | |].
    + intros i Hi. rewrite Hr by done. by apply H3.
    + intros i j Hi Hj. rewrite !Hr by done. by apply H4.
    + intros t Ht Hne. destruct (H5 t Ht Hne) as (i & Hi & Hv). exists i.
      by rewrite Hr.
  - done.
  - intros va. unfold pte_of. rewrite Hpa. destruct (pte_addr m root va) as [a|] eqn:E; [|done].
    destruct (pte_addr_in _ _ _ _ _ Hok E) as (t & Ht & _ & -> & _).
    pose proof (PX_range 0 va). apply (Hl t); [done|unfold PGSIZE; lia|unfold PGSIZE; lia].
Qed.

Lemma PX_same_page va va' :
  is_u32 va -> is_u32 va' -> same_page va va' -> PX 1 va' = PX 1 va /\ PX 0 va' = PX 0 va.
Proof.
  intros Hva Hva' Hsp. unfold same_page, PGSIZE in Hsp. rewrite !PX1_eq, !PX0_eq, Hsp by done.
  split; [|done]. Z.div_mod_to_equations. lia.
Qed.

Lemma pte_of_same_page m root va va' :
  is_u32 va -> is_u32 va' -> same_page va va' -> pte_of m root va' = pte_of m root va.
Proof.
  intros H1 H2 H3. destruct (PX_same_page va va' H1 H2 H3) as [E1 E0].
  unfold pte_of, pte_addr. by rewrite E1, E0.
Qed.

(** Writing the entry of [va]. *)
Lemma pte_store T m root va a v :
  pt_ok T m root -> pte_addr m root va = Some a -> is_u32 va ->
  pt_ok T (store32 m a v) root /\
  (forall va', is_u32 va' ->
    pte_of (store32 m a v) root va' =
      if decide (same_page va va') then u32 v else pte_of m root va') /\
  agree_off T m (store32 m a v).
Proof.
  intros Hok H Hva. destruct (pte_addr_in _ _ _ _ _ Hok H) as (t & Ht & Hne & -> & Hv & Hpa).
  pose proof (PX_range 0 va) as Hx.
  assert (page t) as Hpt by by eapply pt_pages.
  assert (page root) as Hpr by (eapply pt_pages; [done|apply Hok]).
  assert (forall i, 0 <= i < 1024 ->
    load32 (store32 m (t + 4 * PX 0 va) v) (root + 4 * i) = load32 m (root + 4 * i)) as Hr.
  { intros i Hi. apply load32_store32_ne.
    destruct (pages_apart t root) as [?|?]; [apply Hpt|apply Hpr|done| |];
      unfold PGSIZE in *; lia. }
  assert (forall va', pte_addr (store32 m (t + 4 * PX 0 va) v) root va' = pte_addr m root va')
    as Hpa'.
  { intros va'. unfold pte_addr. by rewrite Hr by apply PX_range. }
  split_and!.
  - destruct Hok as [H1 H2 H3 H4 H5]. split; [done|done| | |].
    + intros i Hi. rewrite Hr by done. by apply H3.
    + intros i j Hi Hj. rewrite !Hr by done. by apply H4.
    + intros t' Ht' Hne'. destruct (H5 t' Ht' Hne') as (i & Hi & Hv'). exists i. by rewrite Hr.
  - intros va' Hva'. unfold pte_of. rewrite Hpa'. case_decide as Hsp.
    + destruct (PX_same_page va va' Hva Hva' Hsp) as [E1 E0].
      unfold pte_addr. rewrite E1, E0, Hv, Hpa. apply load32_store32_eq.
    + destruct (pte_addr m root va') as [a'|] eqn:E; [|done].
      destruct (pte_addr_in _ _ _ _ _ Hok E) as (t' & Ht' & Hne' & -> & Hv' & Hpa'').
      pose proof (PX_range 0 va') as Hx'.
      apply load32_store32_ne. destruct (decide (t' = t)) as [->|Hnt].
      * assert (PX 1 va = PX 1 va') as E1.
        { eapply (pt_inj _ _ _ Hok); [apply PX_range|apply PX_range|done|done|congruence]. }
        assert (PX 0 va <> PX 0 va') as E0.
        { intros E0. apply Hsp, PX_inj; done. }
        lia.
      * destruct (pages_apart t t') as [?|?];
          [apply Hpt|by eapply pt_pages|done| |]; unfold PGSIZE in *; lia.
  - apply (agree_off_store32 _ _ _ t); [done|lia|unfold PGSIZE; lia|apply agree_off_refl].
Qed.

(** ** walk *)

Lemma walk_read root va s :
  is_u32 va -> walk root va false s = Ok (default 0 (pte_addr (mem s) root va)) s.
Proof.
  intros Hva. unfold walk. destruct (Z.ltb_spec MAXVA va) as [H|_].
  { unfold MAXVA, is_u32 in *. lia. }
  cbn [walk_loop]. msimp. unfold pte_addr. change (Z.of_nat 1) with 1.
  by destruct (is_set _ _).
Qed.

Lemma root_entry_valid pa : page pa ->
  let v := u32 (Z.lor (PA2PTE pa) PTE_V) in
  is_set v PTE_V = true /\ PTE2PA v = pa /\ PTE_FLAGS v = PTE_V.
Proof.
  intros Hp. cbn zeta. pose proof (page_u32 pa Hp) as Hu. destruct Hp as [Ha _].
  assert (u32 (Z.lor (PA2PTE pa) PTE_V) = Z.lor (PA2PTE pa) PTE_V) as ->.
  { apply u32_small. rewrite PA2PTE_eq by done.
    rewrite (lor_low _ _ 10); [|lia|apply Z.mod_mul; lia|unfold PTE_V; lia].
    unfold is_u32, PTE_V in *. Z.div_mod_to_equations. lia. }
  assert (PTE_FLAGS (Z.lor (PA2PTE pa) PTE_V) = PTE_V) as Hf
    by (apply PTE_FLAGS_PA2PTE; [done|unfold PTE_V; lia]).
  split_and!; [|rewrite PTE2PA_PA2PTE by (done || unfold PTE_V; lia)|done].
  - unfold is_set. rewrite land_flags by (unfold PTE_V; lia). by rewrite Hf.
  - unfold PGSIZE in *. Z.div_mod_to_equations. lia.
Qed.

(** The memory after a zeroed page [p] was hooked into an empty root slot. *)
Definition add_table (m : gmap Z Z) (root va p : Z) : gmap Z Z :=
  store32 (memset m p 0 PGSIZE) (root + 4 * PX 1 va) (Z.lor (PA2PTE p) PTE_V).

Lemma page_apart p q : page p -> page q -> p <> q -> p + 4096 <= q \/ q + 4096 <= p.
Proof. intros [Hp _] [Hq _]. by apply pages_apart. Qed.

Lemma add_table_loads m m' root va p :
  page p -> page root -> p <> root -> same_outside p m m' ->
  load32 (add_table m' root va p) (root + 4 * PX 1 va) = u32 (Z.lor (PA2PTE p) PTE_V) /\
  (forall k, 0 <= k < 1024 -> load32 (add_table m' root va p) (p + 4 * k) = 0) /\
  (forall b, b < p \/ p + 4096 <= b ->
    b < root + 4 * PX 1 va \/ root + 4 * PX 1 va + 4 <= b ->
    load8 (add_table m' root va p) b = load8 m b).
Proof.
  intros Hp Hr Hne Hso. pose proof (page_apart p root Hp Hr Hne) as Hap.
  pose proof (PX_range 1 va) as Hx. unfold add_table. split_and!.
  - apply load32_store32_eq.
  - intros k Hk. rewrite load32_store32_ne by lia.
    apply load32_memset_in; unfold PGSIZE; lia.
  - intros b H1 H2. rewrite load8_store32_ne by lia. rewrite load8_memset by done.
    case_decide as Hd; unfold PGSIZE in *; [lia|]. apply Hso. unfold PGSIZE. lia.
Qed.

(** A table page added under an empty root slot leaves the mapping alone. *)
Lemma pt_add_table T m m' root va p :
  pt_ok T m root -> page p -> p ∉ T -> is_u32 va ->
  is_set (load32 m (root + 4 * PX 1 va)) PTE_V = false -> same_outside p m m' ->
  pt_ok ({[p]} ∪ T) (add_table m' root va p) root /\
  pte_addr (add_table m' root va p) root va = Some (p + 4 * PX 0 va) /\
  (forall va', pte_of (add_table m' root va p) root va' = pte_of m root va') /\
  agree_off ({[p]} ∪ T) m (add_table m' root va p).
Proof.
  intros Hok Hp Hni Hva Hv Hso.
  pose proof (pt_pages _ _ _ Hok root (pt_root _ _ _ Hok)) as Hpr.
  pose proof (PX_range 1 va) as Hx.
  destruct (root_entry_valid p Hp) as (Hev & Hepa & Hefl).
  assert (p <> root) as Hpne by (intros ->; apply Hni, Hok).
  pose proof (page_apart p root Hp Hpr Hpne) as Hap.
  destruct (add_table_loads m m' root va p Hp Hpr Hpne Hso) as (Hre & Hz & Hb).
  generalize dependent (add_table m' root va p). intros m2 Hre Hz Hb.
  assert (forall i, 0 <= i < 1024 -> i <> PX 1 va ->
    load32 m2 (root + 4 * i) = load32 m (root + 4 * i)) as Hro.
  { intros i Hi Hne. apply load32_ext. intros b Hbb. apply Hb; lia. }
  split_and!.
  - destruct Hok as [H1 H2 H3 H4 H5]. split.
    + apply elem_of_union. by right.
    + intros t Ht. apply elem_of_union in Ht as [Ht|Ht]; [|by apply H2].
      apply elem_of_singleton in Ht as ->. done.
    + intros i Hi. destruct (decide (i = PX 1 va)) as [->|Hne].
      * rewrite Hre. intros _. rewrite Hepa. split_and!; [done| |done].
        apply elem_of_union. left. by apply elem_of_singleton.
      * rewrite Hro by done. intros Hvi. destruct (H3 i Hi Hvi) as (? & ? & ?).
        split_and!; [done| |done]. apply elem_of_union. by right.
    + intros i j Hi Hj.
      destruct (decide (i = PX 1 va)) as [->|Hni'], (decide (j = PX 1 va)) as [->|Hnj];
        [done|rewrite Hre, Hro by done|rewrite Hre, Hro by done|rewrite !Hro by done].
      * intros _ Hvj. rewrite Hepa. intros E. exfalso. apply Hni. rewrite E. by apply H3.
      * intros Hvi _. rewrite Hepa. intros E. exfalso. apply Hni. rewrite <- E. by apply H3.
      * by apply H4.
    + intros t Ht Hne. apply elem_of_union in Ht as [Ht|Ht].
      * apply elem_of_singleton in Ht as ->. exists (PX 1 va). rewrite Hre. done.
      * destruct (H5 t Ht Hne) as (i & Hi & Hvi & Hti). exists i.
        rewrite Hro; [done|done|]. intros ->. congruence.
  - unfold pte_addr. by rewrite Hre, Hev, Hepa.
  - intros va'. unfold pte_of, pte_addr. destruct (decide (PX 1 va' = PX 1 va)) as [E|E].
    + rewrite E, Hre, Hev, Hepa, Hv. apply Hz, PX_range.
    + rewrite Hro by (try apply PX_range; done).
      destruct (is_set (load32 m (root + 4 * PX 1 va')) PTE_V) eqn:Ev; [|done].
      destruct (pt_child _ _ _ Hok (PX 1 va')) as (_ & Hct & Hcr); [apply PX_range|done|].
      pose proof (pt_pages _ _ _ Hok _ Hct) as Hpt. pose proof (PX_range 0 va').
      generalize dependent (PTE2PA (load32 m (root + 4 * PX 1 va'))). intros t Hct Hcr Hpt.
      pose proof (page_apart t root Hpt Hpr Hcr).
      assert (t <> p) as Htp by (intros E'; apply Hni; by rewrite <- E').
      pose proof (page_apart t p Hpt Hp Htp).
      apply load32_ext. intros b Hbb. apply Hb; lia.
  - intros b HB. assert (root ∈ {[p]} ∪ T) as Hin by (apply elem_of_union; right; apply Hok).
    pose proof (HB root Hin) as H1.
    assert (p ∈ {[p]} ∪ T) as Hin' by (apply elem_of_union; left; by apply elem_of_singleton).
    pose proof (HB p Hin') as H2.
    unfold PGSIZE in *. apply Hb; lia.
Qed.

(** ** Address spaces and what the operations change *)

(** The state in which the operations on the table at [root] run: [T] are the
    pages of the table, [F] the free pages. *)
Record space (T F : gset Z) (root : Z) (s : kstate) : Prop := {
  sp_pt : pt_ok T (mem s) root;
  sp_free : free_pages F s;
  sp_disj : F ## T;
}.

(** A step that touches only memory in the pages of [P] and the free list. *)
Definition vstep (P : gset Z) (s s' : kstate) : Prop :=
  agree_off P (mem s) (mem s') /\ exists m' fl, s' = set_mem m' (set_freelist fl s).

Lemma vstep_refl P s : vstep P s s.
Proof. split; [apply agree_off_refl|]. by exists (mem s), (freelist s). Qed.

Lemma vstep_trans P s1 s2 s3 : vstep P s1 s2 -> vstep P s2 s3 -> vstep P s1 s3.
Proof.
  intros [H1 (m1 & f1 & ->)] [H2 (m2 & f2 & ->)]. split; [by eapply agree_off_trans|].
  by exists m2, f2.
Qed.

Lemma vstep_mono P P' s s' : P ⊆ P' -> vstep P s s' -> vstep P' s s'.
Proof. intros HP [H1 H2]. split; [by eapply agree_off_mono|done]. Qed.

Lemma vstep_mem P s m' : agree_off P (mem s) m' -> vstep P s (set_mem m' s).
Proof. intros H. split; [done|]. by exists m', (freelist s). Qed.

Lemma free_pages_vstep P F s s' :
  free_pages F s -> vstep P s s' -> freelist s' = freelist s ->
  (forall p, p ∈ P -> page p) -> P ## F -> free_pages F s'.
Proof.
  intros [Hs Hl (l & [Hc Hn Hp] & HF)] [Ha (m' & fl & ->)] Hfl HP Hd. ksimp in Ha. ksimp in Hfl.
  split; [by destruct Hs; split|done|]. exists l. split; [|done]. split; [|done|done].
  cbn. rewrite Hfl. eapply chain_ext; [|done]. intros q Hq.
  rewrite Forall_forall in Hp. eapply agree_off_load32; [done|done|by apply Hp| | |];
    unfold PGSIZE; [|lia|lia].
  intros HqP. apply (Hd q); [done|]. rewrite HF. by apply elem_of_list_to_set.
Qed.

(** [walk] hooks a fresh page [p] into the table. *)
Lemma space_add_table T F root va p m' fl s :
  space T F root s -> p ∈ F -> page p -> is_u32 va ->
  is_set (load32 (mem s) (root + 4 * PX 1 va)) PTE_V = false ->
  free_pages (F ∖ {[p]}) (set_mem m' (set_freelist fl s)) -> same_outside p (mem s) m' ->
  let s' := set_mem (add_table m' root va p) (set_freelist fl s) in
  space ({[p]} ∪ T) (F ∖ {[p]}) root s' /\ vstep (F ∪ T) s s' /\
  (forall va', pte_of (mem s') root va' = pte_of (mem s) root va') /\
  pte_addr (mem s') root va = Some (p + 4 * PX 0 va).
Proof.
  intros [Hok HF Hd] Hin Hp Hva Hv HF' Hso.
  assert (p ∉ T) as Hni by (intros HT; by apply (Hd p)).
  assert (page root) as Hpr by (eapply pt_pages; [done|apply Hok]).
  pose proof (PX_range 1 va).
  destruct (pt_add_table T (mem s) m' root va p) as (Hok' & Hpa & Hsame & Hag); [done..|].
  split_and!; [split| |done|done].
  - done.
  - eapply (free_pages_vstep {[p; root]}); [exact HF'| |done| |].
    + split; [|by exists (add_table m' root va p), fl]. unfold add_table. ksimp.
      eapply (agree_off_store32 _ _ _ root); [clear; set_solver|unfold PGSIZE; lia..|].
      eapply agree_off_mono; [|apply agree_off_single, same_outside_memset]. clear; set_solver.
    + intros q Hq. apply elem_of_union in Hq as [Hq|Hq]; apply elem_of_singleton in Hq as ->; done.
    + pose proof (pt_root _ _ _ Hok) as Hr. clear -Hr Hd. set_solver.
  - clear -Hd. set_solver.
  - split; [|by exists (add_table m' root va p), fl]. eapply agree_off_mono; [|exact Hag].
    clear -Hin. set_solver.
Qed.

Lemma size_remove (F : gset Z) p : (size F <= size (F ∖ {[p]}) + 1)%nat.
Proof.
  transitivity (size ((F ∖ {[p]}) ∪ {[p]})).
  - apply subseteq_size. intros x Hx. destruct (decide (x = p)) as [->|]; set_solver.
  - rewrite size_union_alt. apply Nat.add_le_mono_l. rewrite <- (size_singleton (C := gset Z) p).
    apply subseteq_size. set_solver.
Qed.

(** [walk] with [alloc]: the entry exists afterwards, the mapping is the same,
    and a page may have moved from the free set to the table; it fails only
    when the free set is empty. *)
Lemma walk_alloc T F root va s :
  space T F root s -> is_u32 va ->
  exists r s' T' F', walk root va true s = Ok r s' /\ space T' F' root s' /\
    T ⊆ T' /\ F' ∪ T' = F ∪ T /\ (size F <= size F' + 1)%nat /\ vstep (F ∪ T) s s' /\
    (forall va', pte_of (mem s') root va' = pte_of (mem s) root va') /\
    ((r = 0 /\ F = ∅ /\ s' = s) \/ (r <> 0 /\ pte_addr (mem s') root va = Some r)).
Proof.
  intros Hsp Hva. unfold walk. destruct (Z.ltb_spec MAXVA va) as [H|_].
  { unfold MAXVA, is_u32 in *. lia. }
  cbn [walk_loop]. msimp. change (Z.of_nat 1) with 1.
  destruct (is_set (load32 (mem s) (root + 4 * PX 1 va)) PTE_V) eqn:Ev.
  - msimp. eexists _, s, T, F. split; [reflexivity|].
    assert (pte_addr (mem s) root va =
      Some (PTE2PA (load32 (mem s) (root + 4 * PX 1 va)) + 4 * PX 0 va)) as Hpa.
    { unfold pte_addr. by rewrite Ev. }
    split_and!; try done; [lia|apply vstep_refl|]. right. split; [|done].
    pose proof (pte_addr_pos _ _ _ _ _ (sp_pt _ _ _ _ Hsp) Hpa). lia.
  - cbn [negb]. msimp.
    destruct (kalloc_spec F s (sp_free _ _ _ _ Hsp))
      as (p & s1 & Hr & [(-> & -> & ->)|(Hin & Hp & HF' & (m' & fl & -> & Hso))]);
      erewrite bind_ok by exact Hr.
    + cbn [Z.eqb]. msimp. exists 0, s, T, ∅. split_and!; try done; [lia|apply vstep_refl|by left].
    + pose proof (page_pos p Hp). destruct (Z.eqb_spec p 0) as [->|Hnz]; [done|].
      unfold upd_mem. msimp. ksimp.
      destruct (space_add_table T F root va p m' fl s) as (Hsp' & Hvs & Hsame & Hpa); [done..|].
      eexists _, _, ({[p]} ∪ T), (F ∖ {[p]}). split; [reflexivity|].
      split_and!; [done|clear; set_solver| |apply size_remove|done|done|].
      * clear -Hin. apply set_eq. intros x. destruct (decide (x = p)) as [->|]; set_solver.
      * right. split; [|done]. pose proof (PX_range 0 va). lia.
Qed.

(** Writing the entry of [va] in a state. *)
Lemma space_store T F root va a v s :
  space T F root s -> pte_addr (mem s) root va = Some a -> is_u32 va ->
  let s' := set_mem (store32 (mem s) a v) s in
  space T F root s' /\ vstep T s s' /\
  (forall va', is_u32 va' -> pte_of (mem s') root va' =
    if decide (same_page va va') then u32 v else pte_of (mem s) root va').
Proof.
  intros [Hok HF Hd] Ha Hva. destruct (pte_store T (mem s) root va a v) as (Hok' & Hp & Hag);
    [done..|]. cbn.
  assert (vstep T s (set_mem (store32 (mem s) a v) s)) as Hvs by by apply vstep_mem.
  split_and!; [split|done|done]; [done| |done].
  eapply free_pages_vstep; [done|done|done|by eapply pt_pages|]. clear -Hd. set_solver.
Qed.

(** ** mappages *)

Definition vpn (va : Z) : Z := va / PGSIZE.

(** The leaf entry [mappages] writes. *)
Definition leaf_pte (pa perm : Z) : Z := u32 (Z.lor (Z.lor (PA2PTE pa) (add_ad perm)) PTE_V).

(** The mapping [f] with [k] pages from [va] on mapped to the frames from
    [pa] on. *)
Definition map_pages (k va pa perm : Z) (f : Z -> Z) (va' : Z) : Z :=
  if decide (vpn va <= vpn va' < vpn va + k)
  then leaf_pte (u32 (pa + (vpn va' - vpn va) * PGSIZE)) perm else f va'.

Lemma is_set_lor_l a b k : is_set a k = true -> is_set (Z.lor a b) k = true.
Proof.
  unfold is_set. rewrite !negb_true_iff, !Z.eqb_neq, Z.land_lor_distr_l.
  intros H E. apply H. by apply Z.lor_eq_0_iff in E as [-> _].
Qed.

Lemma is_set_lor_r a b k : is_set b k = true -> is_set (Z.lor a b) k = true.
Proof. rewrite Z.lor_comm. apply is_set_lor_l. Qed.

Lemma lor_1024 a b : 0 <= a < 1024 -> 0 <= b < 1024 -> 0 <= Z.lor a b < 1024.
Proof.
  intros Ha Hb. rewrite <- (Z.mod_small a 1024), <- (Z.mod_small b 1024) by done.
  change 1024 with (2 ^ 10). rewrite <- !Z.land_ones, <- Z.land_lor_distr_l, Z.land_ones by lia.
  by apply Z.mod_pos_bound.
Qed.

Lemma add_ad_range perm : 0 <= perm < 1024 -> 0 <= add_ad perm < 1024.
Proof.
  intros H. unfold add_ad, PTE_A, PTE_D. destruct (is_set _ _); repeat (apply lor_1024; [|lia]); done.
Qed.

Lemma add_ad_idemp perm : add_ad (add_ad perm) = add_ad perm.
Proof.
  assert (forall x, Z.lor (Z.lor x PTE_A) PTE_A = Z.lor x PTE_A) as H1
    by (intros x; by rewrite <- Z.lor_assoc, Z.lor_diag).
  assert (forall x, is_set (Z.lor x PTE_D) PTE_W = is_set x PTE_W) as H2.
  { intros x. unfold is_set. by rewrite Z.land_lor_distr_l, Z.lor_0_r. }
  unfold add_ad. destruct (is_set (Z.lor perm PTE_A) PTE_W) eqn:E.
  - rewrite (Z.lor_comm _ PTE_D), <- Z.lor_assoc, H1, (Z.lor_comm PTE_D), H2, E.
    by rewrite <- Z.lor_assoc, Z.lor_diag.
  - by rewrite H1, E.
Qed.

Lemma vpn_next a : vpn (a + PGSIZE) = vpn a + 1.
Proof. unfold vpn, PGSIZE. Z.div_mod_to_equations. lia. Qed.

Lemma map_pages_0 va pa perm f va' : map_pages 0 va pa perm f va' = f va'.
Proof. unfold map_pages. rewrite decide_False by lia. done. Qed.

Lemma map_pages_S k va pa perm f va' :
  0 <= k ->
  map_pages (k + 1) va pa perm f va' =
  if decide (same_page va va') then leaf_pte (u32 pa) perm
  else map_pages k (va + PGSIZE) (pa + PGSIZE) perm f va'.
Proof.
  intros Hk. unfold map_pages, same_page. rewrite vpn_next. fold (vpn va) (vpn va').
  repeat case_decide; try lia; try done.
  - replace (vpn va') with (vpn va) by done. by rewrite Z.sub_diag, Z.add_0_r.
  - f_equal. f_equal. lia.
Qed.

Lemma leaf_pte_ad pa perm : leaf_pte pa (add_ad perm) = leaf_pte pa perm.
Proof. unfold leaf_pte. by rewrite add_ad_idemp. Qed.

Lemma pte_of_addr m root va a : pte_addr m root va = Some a -> pte_of m root va = load32 m a.
Proof. intros H. unfold pte_of. by rewrite H. Qed.

(** One turn of the loop. *)
Lemma mappages_turn n T F root a last pa perm s :
  space T F root s -> is_u32 a -> is_set (pte_of (mem s) root a) PTE_V = false ->
  (F = ∅ /\ mappages_loop n root a last pa perm s = Ok (-1) s) \/
  (exists s' T' F', space T' F' root s' /\ T ⊆ T' /\ F' ∪ T' = F ∪ T /\
    (size F <= size F' + 1)%nat /\ vstep (F ∪ T) s s' /\
    (forall va', is_u32 va' -> pte_of (mem s') root va' =
      if decide (same_page a va') then leaf_pte pa perm else pte_of (mem s) root va') /\
    mappages_loop n root a last pa perm s =
      (if a =? last then Ok 0 s' else
       match n with
       | O => Hang s'
       | S n' => mappages_loop n' root (u32 (a + PGSIZE)) last (u32 (pa + PGSIZE)) (add_ad perm) s'
       end)).
Proof.
  intros Hsp Hua Hfree.
  destruct (walk_alloc T F root a s Hsp Hua)
    as (r & s1 & T1 & F1 & Hr & Hsp1 & HT1 & HU1 & Hn1 & Hvs1 & Hpt1 & [(-> & HF0 & ->)|[Hnz Hpa]]).
  { left. split; [done|]. destruct n; cbn [mappages_loop]; by erewrite bind_ok by exact Hr. }
  right. set (v := Z.lor (Z.lor (PA2PTE pa) (add_ad perm)) PTE_V).
  destruct (space_store T1 F1 root a r v s1) as (Hsp2 & Hvs2 & Hpt2); [done..|].
  exists (set_mem (store32 (mem s1) r v) s1), T1, F1. split_and!; [done|done|done|done| | |].
  - eapply vstep_trans; [done|]. eapply vstep_mono; [|done]. rewrite <- HU1. clear; set_solver.
  - intros va' Hva'. rewrite Hpt2 by done. by rewrite Hpt1.
  - rewrite <- Hpt1, (pte_of_addr _ _ _ _ Hpa) in Hfree.
    destruct n; cbn [mappages_loop]; (erewrite bind_ok by exact Hr);
      rewrite (proj2 (Z.eqb_neq r 0) Hnz); msimp; rewrite Hfree; unfold upd_mem; msimp;
      by destruct (a =? last).
Qed.

(** The loop maps its pages in order; when it runs out of memory, a prefix. *)
Lemma mappages_loop_spec n : forall T F root a pa perm s,
  space T F root s -> 0 <= a -> a + Z.of_nat n * PGSIZE < 2 ^ 32 ->
  (forall va', is_u32 va' -> vpn a <= vpn va' <= vpn a + Z.of_nat n ->
    is_set (pte_of (mem s) root va') PTE_V = false) ->
  exists r s' T' F' k,
    mappages_loop n root a (a + Z.of_nat n * PGSIZE) (u32 pa) perm s = Ok r s' /\
    space T' F' root s' /\ T ⊆ T' /\ F' ∪ T' = F ∪ T /\ vstep (F ∪ T) s s' /\
    (forall va', is_u32 va' -> pte_of (mem s') root va' =
      map_pages k a pa perm (pte_of (mem s) root) va') /\
    ((r = 0 /\ k = Z.of_nat n + 1) \/ (r = -1 /\ 0 <= k <= Z.of_nat n /\ F' = ∅)).
Proof.
  induction n as [|n IH]; intros T F root a pa perm s Hsp Ha Hlim Hfree;
    assert (is_u32 a) as Hua by (unfold is_u32, PGSIZE in *; lia);
    pose proof (Hfree a Hua ltac:(lia)) as Hf0;
    match goal with |- context [mappages_loop ?n' _ _ ?last] =>
      destruct (mappages_turn n' T F root a last (u32 pa) perm s Hsp Hua Hf0)
        as [[HF ->]|(s1 & T1 & F1 & Hsp1 & HT1 & HU1 & _ & Hvs1 & Hpt1 & ->)] end.
  - exists (-1), s, T, F, 0.
    split_and!; try done; [apply vstep_refl|intros; by rewrite map_pages_0|].
    right. split_and!; [done|lia|lia|done].
  - rewrite (proj2 (Z.eqb_eq _ _)) by lia. exists 0, s1, T1, F1, 1.
    split_and!; try done; [|left; lia]. intros va' Hva'. rewrite Hpt1 by done.
    rewrite (map_pages_S 0) by lia. by rewrite map_pages_0.
  - exists (-1), s, T, F, 0.
    split_and!; try done; [apply vstep_refl|intros; by rewrite map_pages_0|].
    right. split_and!; [done|lia|lia|done].
  - rewrite (proj2 (Z.eqb_neq _ _)) by (unfold PGSIZE; lia).
    destruct (IH T1 F1 root (a + PGSIZE) (pa + PGSIZE) (add_ad perm) s1)
      as (r & s2 & T2 & F2 & k & Hr & Hsp2 & HT2 & HU2 & Hvs2 & Hpt2 & Hk);
      [done|unfold PGSIZE in *; lia|unfold PGSIZE in *; lia| |].
    { intros va' Hva'. rewrite vpn_next. intros Hr. rewrite Hpt1 by done.
      unfold same_page, vpn in *. rewrite decide_False by lia.
      apply Hfree; [done|]. unfold vpn. lia. }
    exists r, s2, T2, F2, (k + 1).
    rewrite (u32_small (a + PGSIZE)), u32_add_l by (unfold is_u32, PGSIZE in *; lia).
    replace (a + Z.of_nat (S n) * PGSIZE) with (a + PGSIZE + Z.of_nat n * PGSIZE) by lia.
    split_and!; [done|done|by transitivity T1|by rewrite HU2| | |].
    + eapply vstep_trans; [done|]. by rewrite <- HU1.
    + intros va' Hva'. rewrite Hpt2, map_pages_S by (done || destruct Hk; lia).
      unfold map_pages at 1. rewrite leaf_pte_ad, Hpt1 by done. unfold map_pages, same_page.
      rewrite vpn_next. fold (vpn a) (vpn va'). repeat case_decide; done || lia.
    + destruct Hk as [[-> ->]|(-> & ? & ->)]; [left; lia|right; split_and!; [done|lia|lia|done]].
Qed.

Lemma mappages_spec T F root va size pa perm s :
  space T F root s -> 0 <= va -> 0 < size -> va + size <= 2 ^ 32 -> is_u32 pa ->
  (forall va', is_u32 va' -> vpn va <= vpn va' <= vpn (va + size - 1) ->
    is_set (pte_of (mem s) root va') PTE_V = false) ->
  exists r s' T' F' k, mappages root va size pa perm s = Ok r s' /\
    space T' F' root s' /\ T ⊆ T' /\ F' ∪ T' = F ∪ T /\ vstep (F ∪ T) s s' /\
    (forall va', is_u32 va' -> pte_of (mem s') root va' =
      map_pages k va pa perm (pte_of (mem s) root) va') /\
    ((r = 0 /\ k = vpn (va + size - 1) - vpn va + 1) \/
     (r = -1 /\ 0 <= k <= vpn (va + size - 1) - vpn va /\ F' = ∅)).
Proof.
  intros Hsp Hva Hsz Hlim Hpa Hfree. unfold mappages.
  rewrite (proj2 (Z.eqb_neq size 0)) by lia.
  assert (is_u32 va /\ is_u32 (va + size - 1)) as [Hu1 Hu2] by (unfold is_u32; lia).
  rewrite (u32_small (va + size - 1)) by done. rewrite !PGROUNDDOWN_eq by done.
  fold (vpn va) (vpn (va + size - 1)).
  assert (vpn va <= vpn (va + size - 1)) as Hle by (unfold vpn; apply Z.div_le_mono; unfold PGSIZE; lia).
  set (d := vpn (va + size - 1) - vpn va).
  assert (vpn (va + size - 1) * PGSIZE = vpn va * PGSIZE + Z.of_nat (Z.to_nat d) * PGSIZE) as Hlast
    by (rewrite Z2Nat.id by lia; lia).
  assert (0 <= vpn va * PGSIZE /\ vpn (va + size - 1) * PGSIZE < 2 ^ 32) as [? ?].
  { unfold vpn, is_u32, PGSIZE in *. Z.div_mod_to_equations. lia. }
  rewrite u32_small by (unfold is_u32, PGSIZE in *; lia).
  replace ((vpn (va + size - 1) * PGSIZE - vpn va * PGSIZE) / PGSIZE) with d
    by (rewrite <- Z.mul_sub_distr_r, Z.div_mul; done).
  assert (vpn (vpn va * PGSIZE) = vpn va) as Hvv by (unfold vpn at 1; by rewrite Z.div_mul).
  destruct (mappages_loop_spec (Z.to_nat d) T F root (vpn va * PGSIZE) pa perm s)
    as (r & s' & T' & F' & k & Hr & Hsp' & HT & HU & Hvs & Hpt & Hk); [done|lia|lia| |].
  { intros va' Hva'. rewrite Hvv. intros H'. apply Hfree; [done|lia]. }
  rewrite (u32_small pa), <- Hlast in Hr by done. rewrite Hr.
  exists r, s', T', F', k. split_and!; try done.
  - intros va' Hva'. rewrite Hpt by done. unfold map_pages. by rewrite Hvv.
  - destruct Hk as [[-> ->]|(-> & ? & ->)]; [left; lia|right; split_and!; [done|lia|lia|done]].
Qed.

(** ** uvmunmap *)

(** The virtual pages from number [a] on are leaves for the frames [pas]. *)
Definition mapped (m : gmap Z Z) (root a : Z) (pas : list Z) : Prop :=
  forall i pa, pas !! i = Some pa ->
    let v := pte_of m root ((a + Z.of_nat i) * PGSIZE) in
    is_set v PTE_V = true /\ PTE_FLAGS v <> PTE_V /\ PTE2PA v = pa.

(** The mapping [f] without the [n] pages from number [a] on. *)
Definition unmap_pages (n a : Z) (f : Z -> Z) (va' : Z) : Z :=
  if decide (a <= vpn va' < a + n) then 0 else f va'.

(** [walk] without [alloc] reads. *)
Lemma walk_noalloc root va s :
  is_u32 va -> walk root va false s =
    Ok (match pte_addr (mem s) root va with Some a => a | None => 0 end) s.
Proof.
  intros Hva. unfold walk. destruct (Z.ltb_spec MAXVA va) as [H|_].
  { unfold MAXVA, is_u32 in *. lia. }
  cbn [walk_loop]. msimp. change (Z.of_nat 1) with 1. unfold pte_addr.
  destruct (is_set _ PTE_V); by msimp.
Qed.

(** Where an entry is valid, [walk] finds it. *)
Lemma pte_of_valid m root va :
  is_set (pte_of m root va) PTE_V = true -> exists a, pte_addr m root va = Some a.
Proof. unfold pte_of. destruct (pte_addr m root va) as [a|]; [eauto|]. by rewrite is_set_0. Qed.

(** Frames that may be freed. *)
Record frames (T F : gset Z) (pas : list Z) : Prop := {
  fr_nodup : NoDup pas;
  fr_page : forall pa, pa ∈ pas -> page pa /\ (pa ∉ T) /\ pa ∉ F;
}.

(** [kfree] of a data page leaves the table alone. *)
Lemma space_kfree T F root pa s :
  space T F root s -> page pa -> pa ∉ T -> pa ∉ F ->
  exists s', kfree pa s = Ok tt s' /\ space T ({[pa]} ∪ F) root s' /\ vstep {[pa]} s s' /\
    (forall va, pte_of (mem s') root va = pte_of (mem s) root va) /\
    (forall va, pte_addr (mem s') root va = pte_addr (mem s) root va).
Proof.
  intros [Hok HF Hd] Hp HT HnF.
  destruct (kfree_spec F pa s HF Hp HnF) as (s' & Hr & HF' & (m' & fl & -> & Hso)).
  eexists. split; [exact Hr|].
  destruct (pt_ok_frame {[pa]} T (mem s) m' root) as (Hok' & Ha & Hpt);
    [done|by apply agree_off_single|intros q Hq; by apply elem_of_singleton in Hq as ->|
     clear -HT; set_solver|].
  split_and!; [split|split| |]; try done.
  - clear -HT Hd. set_solver.
  - by apply agree_off_single.
  - by exists m', fl.
Qed.

Lemma vpn_mul a : vpn (a * PGSIZE) = a.
Proof. apply Z.div_mul. done. Qed.

Lemma same_page_mul a va' : same_page (a * PGSIZE) va' <-> vpn va' = a.
Proof.
  unfold same_page. fold (vpn (a * PGSIZE)) (vpn va'). rewrite vpn_mul. split; congruence.
Qed.

Lemma unmap_pages_S n a f va' :
  0 <= n -> unmap_pages (n + 1) a f va' =
    unmap_pages n (a + 1) (fun v => if decide (same_page (a * PGSIZE) v) then 0 else f v) va'.
Proof.
  intros Hn. unfold unmap_pages.
  repeat case_decide; try done; exfalso; rewrite ?same_page_mul in *; lia.
Qed.

Lemma mapped_cons m root a pa pas :
  mapped m root a (pa :: pas) ->
  (is_set (pte_of m root (a * PGSIZE)) PTE_V = true /\
   PTE_FLAGS (pte_of m root (a * PGSIZE)) <> PTE_V /\
   PTE2PA (pte_of m root (a * PGSIZE)) = pa) /\ mapped m root (a + 1) pas.
Proof.
  intros H. split.
  - pose proof (H 0%nat pa eq_refl) as H0. cbv zeta in H0. by rewrite Z.add_0_r in H0.
  - intros i pa' Hi. pose proof (H (S i) pa' Hi) as H0. cbv zeta in *.
    by replace (a + 1 + Z.of_nat i) with (a + Z.of_nat (S i)) by lia.
Qed.

Lemma mapped_ext m m' root a pas :
  (forall i, (i < length pas)%nat -> pte_of m' root ((a + Z.of_nat i) * PGSIZE) =
                                      pte_of m root ((a + Z.of_nat i) * PGSIZE)) ->
  mapped m root a pas -> mapped m' root a pas.
Proof.
  intros H Hm i pa Hi. cbv zeta. rewrite H by by eapply lookup_lt_Some. by apply Hm.
Qed.

Lemma page_addr_u32 a : 0 <= a < 2 ^ 20 -> is_u32 (a * PGSIZE).
Proof. unfold is_u32, PGSIZE. lia. Qed.

(** The frames [do_free] gives back. *)
Definition freed_frames (do_free : bool) (pas : list Z) : gset Z :=
  if do_free then list_to_set pas else ∅.

(** One turn of the loop. *)
Lemma uvmunmap_turn n (do_free : bool) T F root a pa s :
  space T F root s -> 0 <= a < 2 ^ 20 -> (do_free = true -> page pa /\ (pa ∉ T) /\ pa ∉ F) ->
  (let v := pte_of (mem s) root (a * PGSIZE) in
   is_set v PTE_V = true /\ PTE_FLAGS v <> PTE_V /\ PTE2PA v = pa) ->
  exists s', uvmunmap_loop (S n) root a do_free s = uvmunmap_loop n root (a + 1) do_free s' /\
    space T (freed_frames do_free [pa] ∪ F) root s' /\ vstep (freed_frames do_free [pa] ∪ T) s s' /\
    (forall va', is_u32 va' -> pte_of (mem s') root va' =
      if decide (same_page (a * PGSIZE) va') then 0 else pte_of (mem s) root va').
Proof.
  intros Hsp Ha Hfr (Hv & Hfl & Hpa). cbn [uvmunmap_loop].
  rewrite Z.shiftl_mul_pow2 by lia. change (2 ^ 12) with PGSIZE.
  pose proof (page_addr_u32 a Ha) as Hu. rewrite u32_small by done.
  destruct (pte_of_valid _ _ _ Hv) as (e & He).
  erewrite bind_ok by (apply walk_noalloc; done). rewrite He.
  pose proof (pte_addr_pos _ _ _ _ _ (sp_pt _ _ _ _ Hsp) He).
  rewrite (proj2 (Z.eqb_neq e 0)) by lia. msimp.
  rewrite <- (pte_of_addr _ _ _ _ He), Hv. cbn [negb].
  rewrite (proj2 (Z.eqb_neq _ _) Hfl), Hpa.
  assert (exists s1, (if do_free then kfree pa else mret tt) s = Ok tt s1 /\
    space T (freed_frames do_free [pa] ∪ F) root s1 /\ vstep (freed_frames do_free [pa]) s s1 /\
    (forall va, pte_of (mem s1) root va = pte_of (mem s) root va) /\
    (forall va, pte_addr (mem s1) root va = pte_addr (mem s) root va))
    as (s1 & Hr & Hsp1 & Hvs1 & Hpt1 & Ha1).
  { destruct do_free; cbn [freed_frames list_to_set foldr].
    - destruct (Hfr eq_refl) as (? & ? & ?). rewrite !union_empty_r_L. by apply space_kfree.
    - exists s. rewrite union_empty_l_L. split_and!; try done. apply vstep_refl. }
  erewrite bind_ok by exact Hr. unfold upd_mem. msimp.
  destruct (space_store T _ root (a * PGSIZE) e 0 s1 Hsp1) as (Hsp2 & Hvs2 & Hpt2);
    [by rewrite Ha1|done|].
  eexists. split; [reflexivity|]. split_and!; [done| |].
  - eapply vstep_trans; (eapply vstep_mono; [|eassumption]); clear; set_solver.
  - intros va' Hva'. rewrite Hpt2, Hpt1 by done. done.
Qed.

Lemma uvmunmap_loop_spec (do_free : bool) root pas : forall a T F s,
  space T F root s -> 0 <= a -> a + Z.of_nat (length pas) <= 2 ^ 20 ->
  mapped (mem s) root a pas -> (do_free = true -> frames T F pas) ->
  exists s', uvmunmap_loop (length pas) root a do_free s = Ok tt s' /\
    space T (freed_frames do_free pas ∪ F) root s' /\ vstep (freed_frames do_free pas ∪ T) s s' /\
    (forall va', is_u32 va' -> pte_of (mem s') root va' =
      unmap_pages (Z.of_nat (length pas)) a (pte_of (mem s) root) va').
Proof.
  induction pas as [|pa pas IH]; intros a T F s Hsp Ha Hlim Hm Hfr.
  - exists s. cbn. assert (freed_frames do_free [] = ∅) as -> by by destruct do_free.
    rewrite !union_empty_l_L. split_and!; try done; [apply vstep_refl|].
    intros va' _. unfold unmap_pages. rewrite decide_False by lia. done.
  - cbn [length] in *. apply mapped_cons in Hm as [H0 Hm].
    destruct (uvmunmap_turn (length pas) do_free T F root a pa s) as (s1 & -> & Hsp1 & Hvs1 & Hpt1);
      [done|lia| |done|].
    { intros Hdf. destruct (Hfr Hdf) as [_ H]. apply H. by left. }
    assert (freed_frames do_free (pa :: pas) = freed_frames do_free pas ∪ freed_frames do_free [pa])
      as ->.
    { destruct do_free; cbn; [|by rewrite union_empty_l_L]. clear; set_solver. }
    destruct (IH (a + 1) T (freed_frames do_free [pa] ∪ F) s1)
      as (s2 & Hr & Hsp2 & Hvs2 & Hpt2); [done|lia|lia| | |].
    { eapply mapped_ext; [|exact Hm]. intros i Hi. rewrite Hpt1 by (apply page_addr_u32; lia).
      rewrite decide_False; [done|]. rewrite same_page_mul, vpn_mul. lia. }
    { intros Hdf. destruct (Hfr Hdf) as [Hnd Hp]. apply NoDup_cons in Hnd as [Hni Hnd].
      split; [done|]. intros p Hpp. destruct (Hp p) as (? & ? & ?); [by right|].
      split_and!; [done|done|]. subst do_free. cbn. set_solver. }
    exists s2. rewrite <- union_assoc_L. split_and!; [done|done| |].
    + eapply vstep_trans; (eapply vstep_mono; [|eassumption]); clear; set_solver.
    + intros va' Hva'. rewrite Nat2Z.inj_succ, <- Z.add_1_r, unmap_pages_S, Hpt2 by (done || lia).
      unfold unmap_pages. case_decide; [done|]. by apply Hpt1.
Qed.

Lemma uvmunmap_spec (do_free : bool) root pas a T F s :
  space T F root s -> 0 <= a -> a + Z.of_nat (length pas) <= 2 ^ 20 ->
  mapped (mem s) root a pas -> (do_free = true -> frames T F pas) ->
  exists s', uvmunmap root (a * PGSIZE) (Z.of_nat (length pas)) do_free s = Ok tt s' /\
    space T (freed_frames do_free pas ∪ F) root s' /\ vstep (freed_frames do_free pas ∪ T) s s' /\
    (forall va', is_u32 va' -> pte_of (mem s') root va' =
      unmap_pages (Z.of_nat (length pas)) a (pte_of (mem s) root) va').
Proof.
  intros Hsp Ha Hlim Hm Hfr. unfold uvmunmap. rewrite Z.mod_mul by done. cbn [negb Z.eqb].
  rewrite Z.shiftr_div_pow2 by lia. change (2 ^ 12) with PGSIZE. rewrite Z.div_mul by done.
  rewrite u32_small by (unfold is_u32; lia).
  replace (Z.to_nat (a + Z.of_nat (length pas) - a)) with (length pas) by lia.
  by apply uvmunmap_loop_spec.
Qed.


(** ** The hardware's view *)

(** Sv32 translation as the hardware does it from the table at [root]: the
    physical address and the flags of the leaf, or [None] for a page fault. *)
Definition sv32 (m : gmap Z Z) (root va : Z) : option (Z * Z) :=
  let rwx := Z.lor (Z.lor PTE_R PTE_W) PTE_X in
  let e1 := load32 m (root + 4 * (va / 4194304)) in
  if negb (is_set e1 PTE_V) then None
  else if is_set e1 rwx then Some (e1 / 1048576 * 4194304 + va mod 4194304, e1 mod 1024)
  else
    let e0 := load32 m (e1 / 1024 * 4096 + 4 * (va / 4096 mod 1024)) in
    if negb (is_set e0 PTE_V) || negb (is_set e0 rwx) then None
    else Some (e0 / 1024 * 4096 + va mod 4096, e0 mod 1024).

(** On a well-formed table it is a function of the entry. *)
Lemma sv32_pte_of T m root va :
  pt_ok T m root -> is_u32 va ->
  sv32 m root va =
    let e := pte_of m root va in
    if negb (is_set e PTE_V) || negb (is_set e (Z.lor (Z.lor PTE_R PTE_W) PTE_X)) then None
    else Some (e / 1024 * 4096 + va mod 4096, e mod 1024).
Proof.
  intros Hok Hva. unfold sv32, pte_of, pte_addr. rewrite <- PX1_eq, <- PX0_eq by done.
  destruct (is_set (load32 m (root + 4 * PX 1 va)) PTE_V) eqn:Hv; cbn [negb]; [|by rewrite is_set_0].
  destruct (pt_child _ _ _ Hok (PX 1 va)) as (E & Hc & _); [apply PX_range|done|].
  set (c := PTE2PA _) in *. pose proof (pt_pages _ _ _ Hok c Hc) as Hp.
  destruct (root_entry_valid c Hp) as (_ & Hpa & Hfl). rewrite <- E in Hpa, Hfl.
  assert (is_set (load32 m (root + 4 * PX 1 va)) (Z.lor (Z.lor PTE_R PTE_W) PTE_X) = false) as ->.
  { unfold is_set. by rewrite land_flags, Hfl by done. }
  assert (load32 m (root + 4 * PX 1 va) / 1024 * 4096 = c) as ->; [|done].
  rewrite E. pose proof (page_u32 c Hp) as Hu. destruct Hp as [Hal _].
  rewrite PA2PTE_eq, (lor_low _ _ 10) by (try apply Z.mod_mul; done || unfold PTE_V; lia).
  unfold is_u32, PGSIZE, PTE_V in *. rewrite u32_small by (unfold is_u32; Z.div_mod_to_equations; lia).
  Z.div_mod_to_equations. lia.
Qed.

(** The translation of a leaf. *)
Lemma leaf_pte_sv32 pa perm :
  pa mod PGSIZE = 0 -> is_u32 pa -> 0 <= perm < 1024 ->
  is_set perm (Z.lor (Z.lor PTE_R PTE_W) PTE_X) = true ->
  is_set (leaf_pte pa perm) PTE_V = true /\
  is_set (leaf_pte pa perm) (Z.lor (Z.lor PTE_R PTE_W) PTE_X) = true /\
  leaf_pte pa perm / 1024 * 4096 = pa /\
  leaf_pte pa perm mod 1024 = Z.lor (add_ad perm) PTE_V.
Proof.
  intros Hal Hu Hp Hrwx. pose proof (add_ad_range perm Hp) as Had.
  assert (0 <= Z.lor (add_ad perm) PTE_V < 1024) as Hf by (by apply lor_1024).
  assert (Z.lor (PA2PTE pa) (Z.lor (add_ad perm) PTE_V) = pa / 4096 * 1024 + Z.lor (add_ad perm) PTE_V) as E.
  { rewrite PA2PTE_eq by done. apply (lor_low _ _ 10); [lia|by apply Z.mod_mul|done]. }
  assert (leaf_pte pa perm = pa / 4096 * 1024 + Z.lor (add_ad perm) PTE_V) as E'.
  { unfold leaf_pte. rewrite <- Z.lor_assoc, E. apply u32_small.
    unfold is_u32, PGSIZE in *. Z.div_mod_to_equations. lia. }
  split_and!.
  - rewrite E', <- E. by apply is_set_lor_r, is_set_lor_r.
  - rewrite E', <- E. apply is_set_lor_r, is_set_lor_l. unfold add_ad.
    destruct (is_set (Z.lor perm PTE_A) PTE_W); [apply is_set_lor_l|]; by apply is_set_lor_l.
  - rewrite E'. unfold PGSIZE in *. Z.div_mod_to_equations. lia.
  - rewrite E'. rewrite Z.add_comm, Z.mod_add by done. by apply Z.mod_small.
Qed.

(** C23: [mappages] installs exactly the translation it is asked for.  On a
    well-formed table, for a range whose pages are not mapped, it returns 0 or
    -1, and what the hardware translates afterwards is: from the start of the
    range on, a run of pages (all of them when it returns 0) translated to
    consecutive frames from [pa] with the permissions [perm] and the accessed
    and dirty bits; every other address as before.  It returns -1 only when
    the allocator has no page left, and every page it took is in the table. *)
Theorem mappages_translates T F root va size pa perm s :
  space T F root s -> 0 <= va -> 0 < size -> va + size <= 2 ^ 32 ->
  pa mod PGSIZE = 0 -> 0 <= pa -> pa + (vpn (va + size - 1) - vpn va + 1) * PGSIZE <= 2 ^ 32 ->
  0 <= perm < 1024 -> is_set perm (Z.lor (Z.lor PTE_R PTE_W) PTE_X) = true ->
  (forall va', is_u32 va' -> vpn va <= vpn va' <= vpn (va + size - 1) ->
    is_set (pte_of (mem s) root va') PTE_V = false) ->
  exists r s' T' F' k, mappages root va size pa perm s = Ok r s' /\
    space T' F' root s' /\ F' ∪ T' = F ∪ T /\ vstep (F ∪ T) s s' /\
    (forall va', is_u32 va' -> sv32 (mem s') root va' =
      if decide (vpn va <= vpn va' < vpn va + k)
      then Some (pa + (va' - PGROUNDDOWN va), Z.lor (add_ad perm) PTE_V)
      else sv32 (mem s) root va') /\
    ((r = 0 /\ k = vpn (va + size - 1) - vpn va + 1) \/
     (r = -1 /\ 0 <= k <= vpn (va + size - 1) - vpn va /\ F' = ∅)).
Proof.
  intros Hsp Hva Hsz Hlim Hal Hpa Hpl Hp Hrwx Hfree.
  assert (vpn va <= vpn (va + size - 1)) as Hle by (apply Z.div_le_mono; unfold PGSIZE; lia).
  destruct (mappages_spec T F root va size pa perm s)
    as (r & s' & T' & F' & k & Hr & Hsp' & _ & HU & Hvs & Hpt & Hk);
    [done..|unfold is_u32, PGSIZE in *; lia|done|].
  exists r, s', T', F', k. split_and!; try done. intros va' Hva'.
  rewrite (sv32_pte_of T' _ root va' (sp_pt _ _ _ _ Hsp') Hva').
  rewrite (sv32_pte_of T _ root va' (sp_pt _ _ _ _ Hsp) Hva'). cbv zeta.
  rewrite Hpt by done. unfold map_pages. case_decide as Hd; [|done].
  set (fr := pa + (vpn va' - vpn va) * PGSIZE).
  assert (is_u32 fr /\ fr mod PGSIZE = 0) as [Hfu Hfa].
  { split; [unfold fr, is_u32, PGSIZE in *; lia|]. unfold fr. by rewrite Z.mod_add. }
  rewrite (u32_small fr) by done.
  destruct (leaf_pte_sv32 fr perm) as (-> & -> & -> & ->); [done..|]. cbn [negb orb].
  do 2 f_equal. rewrite PGROUNDDOWN_eq by (unfold is_u32; lia).
  unfold fr, vpn, PGSIZE. Z.div_mod_to_equations. lia.
Qed.
End VmSpec.
