(* ===== verification/UserVm.v ===== *)
(** * User memory: uvmalloc, uvmdealloc, uvmcopy, uvmfree and the copies

    The user part of an address space is the list [pas] of the frames of its
    pages 0, 1, ...; the operations of vm.c on user memory are specified by
    what they do to that list, to the set of free pages and to the contents. *)
From S2P Require Import Prelude Memory Machine Sv32 Spinlock Kalloc Vm VmSpec.
From stdpp Require Import gmap strings countable prelude.

Open Scope Z_scope.
#[local] Opaque memset.

Section UserVm.
Context {L : Layout} {LO : LayoutOk L}.


(** The user pages 0, 1, ... of the table are the frames [pas], which belong
    to this address space only. *)
Record uvm (T F : gset Z) (root : Z) (pas : list Z) (s : kstate) : Prop := {
  uv_space : space T F root s;
  uv_mapped : mapped (mem s) root 0 pas;
  uv_frames : frames T F pas;
  uv_low : Z.of_nat (length pas) < 2 ^ 20;
}.

Lemma mapped_app m root a pas1 pas2 :
  mapped m root a (pas1 ++ pas2) <->
  mapped m root a pas1 /\ mapped m root (a + Z.of_nat (length pas1)) pas2.
Proof.
  split.
  - intros H. split.
    + intros i pa Hi. apply H. by rewrite lookup_app, Hi.
    + intros i pa Hi. cbv zeta.
      replace (a + Z.of_nat (length pas1) + Z.of_nat i) with (a + Z.of_nat (length pas1 + i)) by lia.
      apply H. rewrite lookup_app_r by lia. by replace (length pas1 + i - length pas1)%nat with i by lia.
  - intros [H1 H2] i pa Hi. apply lookup_app_Some in Hi as [Hi|[Hle Hi]]; [by apply H1|].
    pose proof (H2 _ _ Hi) as H. cbv zeta in *.
    by replace (a + Z.of_nat (length pas1) + Z.of_nat (i - length pas1)) with (a + Z.of_nat i) in H
      by lia.
Qed.

Lemma frames_app T F pas1 pas2 :
  frames T F (pas1 ++ pas2) -> frames T F pas1 /\ frames T F pas2 /\
    frames T (list_to_set pas2 ∪ F) pas1.
Proof.
  intros [Hnd Hp]. apply NoDup_app in Hnd as (H1 & H12 & H2).
  split_and!; split; try done; intros pa Hpa; destruct (Hp pa) as (? & ? & ?);
    try (apply elem_of_app; auto); split_and!; try done.
  apply not_elem_of_union. split; [|done]. intros Hin. apply elem_of_list_to_set in Hin.
  by apply (H12 pa).
Qed.

(** Unmapping from the top. *)
Lemma uvm_unmap_top T F root pas1 pas2 s :
  uvm T F root (pas1 ++ pas2) s ->
  exists s', uvmunmap root (Z.of_nat (length pas1) * PGSIZE) (Z.of_nat (length pas2)) true s = Ok tt s' /\
    uvm T (list_to_set pas2 ∪ F) root pas1 s' /\ vstep (list_to_set pas2 ∪ T) s s' /\
    (forall va', is_u32 va' -> pte_of (mem s') root va' =
      unmap_pages (Z.of_nat (length pas2)) (Z.of_nat (length pas1)) (pte_of (mem s) root) va').
Proof.
  intros [Hsp Hm Hfr Hlow]. rewrite length_app in Hlow. apply mapped_app in Hm as [Hm1 Hm2].
  apply frames_app in Hfr as (Hf1 & Hf2 & Hf3).
  destruct (uvmunmap_spec true root pas2 (Z.of_nat (length pas1)) T F s)
    as (s' & Hr & Hsp' & Hvs & Hpt); [done|lia|lia|done|done|].
  exists s'. split_and!; [done| |done|done]. split; [done| |done|lia].
  eapply mapped_ext; [|exact Hm1]. intros i Hi. rewrite Hpt by (apply page_addr_u32; lia).
  unfold unmap_pages. rewrite vpn_mul, decide_False by lia. done.
Qed.

Lemma uvmdealloc_spec T F root pas1 pas2 oldsz newsz s :
  uvm T F root (pas1 ++ pas2) s -> 0 <= newsz <= oldsz -> oldsz <= 2 ^ 32 - PGSIZE ->
  PGROUNDUP newsz = Z.of_nat (length pas1) * PGSIZE ->
  PGROUNDUP oldsz = Z.of_nat (length (pas1 ++ pas2)) * PGSIZE ->
  exists s', uvmdealloc root oldsz newsz s = Ok newsz s' /\
    uvm T (list_to_set pas2 ∪ F) root pas1 s' /\ vstep (list_to_set pas2 ∪ T) s s' /\
    (forall va', is_u32 va' -> pte_of (mem s') root va' =
      unmap_pages (Z.of_nat (length pas2)) (Z.of_nat (length pas1)) (pte_of (mem s) root) va').
Proof.
  intros Hu Hsz Hold Hn Ho. unfold uvmdealloc. rewrite Hn, Ho, length_app, Nat2Z.inj_add.
  assert (pas2 = [] -> exists s', Ok newsz s = Ok newsz s' /\
    uvm T (list_to_set pas2 ∪ F) root pas1 s' /\ vstep (list_to_set pas2 ∪ T) s s' /\
    (forall va', is_u32 va' -> pte_of (mem s') root va' =
      unmap_pages (Z.of_nat (length pas2)) (Z.of_nat (length pas1)) (pte_of (mem s) root) va'))
    as Hnil.
  { intros ->. exists s. rewrite app_nil_r in Hu. cbn. rewrite !union_empty_l_L.
    split_and!; [done|done|apply vstep_refl|]. intros va' _. unfold unmap_pages.
    rewrite decide_False by lia. done. }
  destruct (Z.leb_spec oldsz newsz).
  { assert (oldsz = newsz) as -> by lia. apply Hnil, nil_length_inv.
    rewrite Hn, length_app in Ho. unfold PGSIZE in *. lia. }
  destruct (Z.ltb_spec (Z.of_nat (length pas1) * PGSIZE)
    ((Z.of_nat (length pas1) + Z.of_nat (length pas2)) * PGSIZE)).
  - pose proof (uv_low _ _ _ _ _ Hu) as Hlow. rewrite length_app in Hlow.
    rewrite <- Z.mul_sub_distr_r, Z.div_mul by done.
    rewrite s32_small, u32_small by (unfold is_u32; lia).
    replace (_ + _ - _) with (Z.of_nat (length pas2)) by lia.
    destruct (uvm_unmap_top T F root pas1 pas2 s Hu) as (s' & Hr & Hrest).
    erewrite bind_ok by exact Hr. msimp. by exists s'.
  - msimp. apply Hnil, nil_length_inv. unfold PGSIZE in *. lia.
Qed.

(** ** Growing user memory *)

Lemma uvm_ptes T F T' F' root pas s s' :
  uvm T F root pas s -> space T' F' root s' -> T' ⊆ T ∪ F -> F' ⊆ T ∪ F ->
  (forall va, is_u32 va -> pte_of (mem s') root va = pte_of (mem s) root va) ->
  uvm T' F' root pas s'.
Proof.
  intros [Hsp Hm [Hnd Hp] Hlow] Hsp' HT HF Hpt. split; [done| | |done].
  - eapply mapped_ext; [|done]. intros i Hi. apply Hpt, page_addr_u32. lia.
  - split; [done|]. intros pa Hpa. destruct (Hp pa Hpa) as (Hpp & Hn1 & Hn2).
    clear -Hpp Hn1 Hn2 HT HF. set_solver.
Qed.

(** Memory of a page outside the table changes. *)
Lemma space_fill T F root p s m' :
  space T F root s -> page p -> p ∉ T -> p ∉ F -> agree_off {[p]} (mem s) m' ->
  space T F root (set_mem m' s) /\ (forall va, pte_of m' root va = pte_of (mem s) root va).
Proof.
  intros [Hok HF Hd] Hp HT HnF Ha.
  assert (forall q, q ∈ ({[p]} : gset Z) -> page q) as Hpp
    by (intros q Hq; by apply elem_of_singleton in Hq as ->).
  destruct (pt_ok_frame {[p]} T (mem s) m' root) as (Hok' & _ & Hpt); [done..|clear -HT; set_solver|].
  split; [|done]. split; [done| |done].
  eapply (free_pages_vstep {[p]}); [done|by apply vstep_mem|done|done|clear -HnF; set_solver].
Qed.

(** A page from the allocator. *)
Lemma space_kalloc T F root s :
  space T F root s ->
  (F = ∅ /\ kalloc s = Ok 0 s) \/
  (exists p s', kalloc s = Ok p s' /\ p ∈ F /\ page p /\ (p ∉ T) /\
    space T (F ∖ {[p]}) root s' /\ vstep {[p]} s s' /\
    (forall va, pte_of (mem s') root va = pte_of (mem s) root va)).
Proof.
  intros [Hok HF Hd].
  destruct (kalloc_spec F s HF)
    as (p & s1 & Hr & [(-> & -> & ->)|(Hin & Hp & HF' & (m' & fl & -> & Hso))]); [by left|right].
  assert (p ∉ T) as HT by (intros HT; by apply (Hd p)).
  destruct (pt_ok_frame {[p]} T (mem s) m' root) as (Hok' & _ & Hpt);
    [done|by apply agree_off_single|intros q Hq; by apply elem_of_singleton in Hq as ->|
     clear -HT; set_solver|].
  do 2 eexists. split; [exact Hr|]. split_and!; try done.
  - split; [done|done|clear -Hd; set_solver].
  - split; [by apply agree_off_single|by exists m', fl].
Qed.

Lemma leaf_pte_ok pa perm :
  pa mod PGSIZE = 0 -> is_u32 pa -> 0 <= perm < 1024 ->
  is_set (leaf_pte pa perm) PTE_V = true /\ PTE_FLAGS (leaf_pte pa perm) = Z.lor (add_ad perm) PTE_V /\
  PTE2PA (leaf_pte pa perm) = pa /\ Z.lor (add_ad perm) PTE_V <> PTE_V.
Proof.
  intros Hal Hu Hperm. pose proof (add_ad_range perm Hperm) as Had.
  assert (0 <= Z.lor (add_ad perm) PTE_V < 1024) as Hf by (by apply lor_1024).
  assert (is_u32 (Z.lor (PA2PTE pa) (Z.lor (add_ad perm) PTE_V))) as Hb.
  { rewrite PA2PTE_eq by done. rewrite (lor_low _ _ 10) by (try apply Z.mod_mul; done || lia).
    unfold is_u32 in *. Z.div_mod_to_equations. lia. }
  unfold leaf_pte. rewrite <- Z.lor_assoc, u32_small by done. split_and!.
  - apply is_set_lor_r, is_set_lor_r. done.
  - by apply PTE_FLAGS_PA2PTE.
  - rewrite PTE2PA_PA2PTE by done. unfold PGSIZE in *. Z.div_mod_to_equations. lia.
  - intros E. apply (f_equal (fun z => Z.testbit z 6)) in E. revert E.
    unfold add_ad. destruct (is_set _ _); rewrite !Z.lor_spec, ?orb_true_r; done.
Qed.

Lemma frames_snoc T F T' F' pas p :
  frames T F pas -> page p -> p ∉ pas -> p ∉ T' -> p ∉ F' ->
  T' ⊆ T ∪ F -> F' ⊆ T ∪ F -> frames T' F' (pas ++ [p]).
Proof.
  intros [Hnd Hp] Hpp Hni HT HF HsT HsF. split.
  - apply NoDup_app. split_and!; [done| |apply NoDup_singleton].
    intros x Hx Hin. apply list_elem_of_singleton in Hin as ->. done.
  - intros pa Hpa. apply elem_of_app in Hpa as [Hpa|Hpa].
    + destruct (Hp pa Hpa) as (? & ? & ?). clear -H H0 H1 HsT HsF. set_solver.
    + apply list_elem_of_singleton in Hpa as ->. done.
Qed.

(** Mapping one page fails only when no page is free, and takes at most one
    for the table. *)
Lemma map_one T F root n pa perm s :
  space T F root s -> 0 <= n < 2 ^ 20 -> is_u32 pa ->
  is_set (pte_of (mem s) root (n * PGSIZE)) PTE_V = false ->
  exists r s' T' F', mappages root (n * PGSIZE) PGSIZE pa perm s = Ok r s' /\
    space T' F' root s' /\ T ⊆ T' /\ F' ∪ T' = F ∪ T /\ vstep (F ∪ T) s s' /\
    ((r = 0 /\ (size F <= size F' + 1)%nat) \/ (r = -1 /\ F = ∅)) /\
    (forall va, is_u32 va -> pte_of (mem s') root va =
      if decide (vpn va = n /\ r = 0) then leaf_pte pa perm else pte_of (mem s) root va).
Proof.
  intros Hsp Hn Hpa Hfree. pose proof (page_addr_u32 n Hn) as Hu.
  assert (mappages root (n * PGSIZE) PGSIZE pa perm = mappages_loop 0 root (n * PGSIZE) (n * PGSIZE) pa perm) as ->.
  { unfold mappages. change (PGSIZE =? 0) with false. cbv iota zeta.
    assert (is_u32 (n * PGSIZE + PGSIZE - 1)) as Hu' by (unfold is_u32, PGSIZE in *; lia).
    rewrite (u32_small _ Hu'), !PGROUNDDOWN_eq by done.
    replace ((n * PGSIZE + PGSIZE - 1) / PGSIZE) with n by (unfold PGSIZE; Z.div_mod_to_equations; lia).
    rewrite Z.div_mul by done. by rewrite Z.sub_diag. }
  destruct (mappages_turn 0 T F root (n * PGSIZE) (n * PGSIZE) pa perm s Hsp Hu Hfree)
    as [[-> ->]|(s' & T' & F' & Hsp' & HT & HU & Hsz & Hvs & Hpt & ->)].
  - exists (-1), s, T, ∅. split_and!; try done; [apply vstep_refl|by right|].
    intros va Hva. by rewrite decide_False by lia.
  - rewrite Z.eqb_refl. exists 0, s', T', F'. split_and!; try done; [by left|].
    intros va Hva. rewrite Hpt by done. pose proof (same_page_mul n va) as Hsm.
    repeat case_decide; tauto.
Qed.

(** Mapping the page after the last one. *)
Lemma uvm_map_next T F root pas p perm s :
  uvm T F root pas s -> page p -> p ∉ pas -> p ∉ T -> p ∉ F -> 0 <= perm < 1024 ->
  Z.of_nat (length pas) + 1 < 2 ^ 20 ->
  is_set (pte_of (mem s) root (Z.of_nat (length pas) * PGSIZE)) PTE_V = false ->
  exists r s' T' F', mappages root (Z.of_nat (length pas) * PGSIZE) PGSIZE p perm s = Ok r s' /\
    T ⊆ T' /\ F' ∪ T' = F ∪ T /\ vstep (F ∪ T) s s' /\
    ((r = 0 /\ uvm T' F' root (pas ++ [p]) s' /\ (size F <= size F' + 1)%nat /\
      (forall va, is_u32 va -> pte_of (mem s') root va =
        if decide (vpn va = Z.of_nat (length pas)) then leaf_pte p perm else pte_of (mem s) root va)) \/
     (r = -1 /\ uvm T' F' root pas s' /\ F = ∅ /\
      (forall va, is_u32 va -> pte_of (mem s') root va = pte_of (mem s) root va))).
Proof.
  intros Hu Hp Hni HT HF Hperm Hlow Hfree. pose proof (page_u32 p Hp) as Hpu.
  set (n := Z.of_nat (length pas)) in *.
  destruct (map_one T F root n p perm s) as (r & s' & T' & F' & Hr & Hsp' & HTT & HU & Hvs & Hrr & Hpt);
    [apply Hu|lia|done|done|].
  exists r, s', T', F'.
  assert (T' ⊆ T ∪ F /\ F' ⊆ T ∪ F) as [HT' HF'] by (clear -HU; set_solver).
  split_and!; [done..|]. destruct Hrr as [[-> Hsz]|[-> HF0]]; [left|right].
  - assert (forall va, is_u32 va -> pte_of (mem s') root va =
      if decide (vpn va = n) then leaf_pte p perm else pte_of (mem s) root va) as Hpt'.
    { intros va Hva. rewrite Hpt by done. repeat case_decide; tauto || done. }
    split_and!; [done| |done|done]. destruct Hu as [Hsp Hm Hfr _].
    split; [done| | |rewrite length_app; cbn; lia].
    + apply mapped_app. split.
      * eapply mapped_ext; [|done]. intros i Hi. rewrite Hpt' by (apply page_addr_u32; lia).
        rewrite vpn_mul, decide_False by lia. done.
      * intros [|i] pa Hi; [|done]. injection Hi as <-. cbv zeta.
        rewrite !Z.add_0_l, Z.add_0_r. rewrite Hpt' by (apply page_addr_u32; lia).
        rewrite vpn_mul, decide_True by done.
        by destruct (leaf_pte_ok p perm (proj1 Hp)) as (? & -> & ? & ?).
    + eapply frames_snoc; try done; clear -HT HF HU; set_solver.
  - assert (forall va, is_u32 va -> pte_of (mem s') root va = pte_of (mem s) root va) as Hpt'.
    { intros va Hva. rewrite Hpt by done. by rewrite decide_False by lia. }
    split_and!; [done| |done|done]. by eapply uvm_ptes.
Qed.

(** The step [uvmalloc] and [uvmcopy] share: allocate a page, fill it, map it
    after the last user page, giving it back when the table cannot grow. *)
Definition grow (fill : gmap Z Z -> Z -> gmap Z Z) (root a perm : Z) (err cont : K Z) : K Z :=
  m ← kalloc;
  if m =? 0 then err else
  upd_mem (fun mm => fill mm m) ;;
  r ← mappages root a PGSIZE m perm;
  if negb (r =? 0) then kfree m ;; err else cont.

Lemma grow_spec fill T F root pas perm err cont s :
  (forall m p, page p -> agree_off {[p]} m (fill m p)) ->
  uvm T F root pas s -> 0 <= perm < 1024 -> Z.of_nat (length pas) + 1 < 2 ^ 20 ->
  is_set (pte_of (mem s) root (Z.of_nat (length pas) * PGSIZE)) PTE_V = false ->
  (exists s' T' F',
    grow fill root (Z.of_nat (length pas) * PGSIZE) perm err cont s = err s' /\
    uvm T' F' root pas s' /\ F' ∪ T' = F ∪ T /\ (size F <= 1)%nat /\ vstep (F ∪ T) s s' /\
    (forall va, is_u32 va -> pte_of (mem s') root va = pte_of (mem s) root va)) \/
  (exists p s' T' F' m1,
    grow fill root (Z.of_nat (length pas) * PGSIZE) perm err cont s = cont s' /\
    uvm T' F' root (pas ++ [p]) s' /\ {[p]} ∪ (F' ∪ T') = F ∪ T /\ (size F <= size F' + 2)%nat /\
    vstep (F ∪ T) s s' /\
    (forall va, is_u32 va -> pte_of (mem s') root va =
      if decide (vpn va = Z.of_nat (length pas)) then leaf_pte p perm else pte_of (mem s) root va) /\
    agree_off {[p]} (mem s) m1 /\
    (forall b, p <= b < p + PGSIZE -> load8 (mem s') b = load8 (fill m1 p) b)).
Proof.
  intros Hfill Hu Hperm Hlow Hfree. unfold grow.
  destruct (space_kalloc T F root s (uv_space _ _ _ _ _ Hu))
    as [[-> Hr]|(p & s1 & Hr & Hin & Hp & HT & Hsp1 & Hvs1 & Hpt1)]; erewrite bind_ok by exact Hr.
  { left. cbn [Z.eqb]. exists s, T, ∅. split_and!; try done; [rewrite size_empty; lia|apply vstep_refl]. }
  pose proof (page_pos p Hp). rewrite (proj2 (Z.eqb_neq p 0)) by lia. unfold upd_mem. msimp.
  destruct (space_fill T (F ∖ {[p]}) root p s1 (fill (mem s1) p)) as (Hsp2 & Hpt2);
    [done|done|done|clear; set_solver|by apply Hfill|].
  set (s2 := set_mem (fill (mem s1) p) s1) in *.
  assert (uvm T (F ∖ {[p]}) root pas s2) as Hu2.
  { eapply uvm_ptes; [done|done|clear; set_solver|clear; set_solver|].
    intros va _. unfold s2. ksimp. by rewrite Hpt2, Hpt1. }
  assert (vstep {[p]} s s2) as Hvs2.
  { eapply vstep_trans; [done|]. by apply vstep_mem, Hfill. }
  assert (p ∉ pas) as Hnp by (intros Hpa; by destruct (fr_page _ _ _ (uv_frames _ _ _ _ _ Hu) p Hpa)
    as (_ & _ & ?)).
  assert (forall va, pte_of (mem s2) root va = pte_of (mem s) root va) as Hpt12
    by (intros va; unfold s2; ksimp; by rewrite Hpt2, Hpt1).
  destruct (uvm_map_next T (F ∖ {[p]}) root pas p perm s2)
    as (r & s3 & T' & F' & Hr3 & HTT & HU & Hvs3 & Hres);
    [done|done|done|done|clear; set_solver|done|done|by rewrite Hpt12|].
  assert ({[p]} ∪ (F' ∪ T') = F ∪ T) as HU'.
  { rewrite HU. clear -Hin. apply set_eq. intros x.
    destruct (decide (x = p)) as [->|]; set_solver. }
  assert (p ∉ F' /\ p ∉ T') as [HnF' HnT'] by (clear -HU HT; set_solver).
  assert (vstep (F ∪ T) s s3) as Hvs13.
  { eapply vstep_trans; (eapply vstep_mono; [|eassumption]); clear -Hin; set_solver. }
  erewrite bind_ok by exact Hr3. pose proof (size_remove F p) as Hsz.
  destruct Hres as [(-> & Hu3 & Hsz3 & Hpt3)|(-> & Hu3 & HF0 & Hpt3)]; cbn [Z.eqb negb].
  - right. exists p, s3, T', F', (mem s1). split_and!; try done; [lia|..].
    + intros va Hva. rewrite Hpt3, Hpt12 by done. done.
    + apply Hvs1.
    + intros b Hb. destruct Hvs3 as [Ha _]. rewrite (agree_off_load8 _ _ _ p b Ha); try done.
      * intros q Hq. apply elem_of_union in Hq as [Hq|Hq].
        -- eapply free_pages_page; [apply (sp_free _ _ _ _ Hsp1)|done].
        -- eapply pt_pages; [apply (sp_pt _ _ _ _ Hsp1)|done].
      * clear -HT. set_solver.
  - left. destruct (space_kfree T' F' root p s3) as (s4 & Hr4 & Hsp4 & Hvs4 & Hpt4 & _);
      [apply Hu3|done|done|done|].
    erewrite bind_ok by exact Hr4. exists s4, T', ({[p]} ∪ F').
    assert (forall va, is_u32 va -> pte_of (mem s4) root va = pte_of (mem s) root va) as Hpt'.
    { intros va Hva. by rewrite Hpt4, Hpt3, Hpt12. }
    split_and!; [done| |by rewrite <- union_assoc_L|by rewrite HF0, size_empty in Hsz| |done].
    + eapply uvm_ptes; [exact Hu|done| | |done]; rewrite (union_comm_L T), <- HU'; clear; set_solver.
    + eapply vstep_trans; [done|]. eapply vstep_mono; [|done]. clear -Hin. set_solver.
Qed.

(** ** uvmcreate *)

Definition zero_page (m : gmap Z Z) (p : Z) : Prop :=
  forall b, p <= b < p + PGSIZE -> load8 m b = 0.

Lemma fill_memset m p c : page p -> agree_off {[p]} m (memset m p c PGSIZE).
Proof. intros _. apply agree_off_single, same_outside_memset. Qed.

Lemma is_zero_table m p : zero_page m p -> forall k, 0 <= k < 1024 -> load32 m (p + 4 * k) = 0.
Proof.
  intros Hz k Hk. unfold load32. rewrite !Hz by (unfold PGSIZE; lia). done.
Qed.

Lemma uvmcreate_spec F s :
  free_pages F s ->
  (F = ∅ /\ uvmcreate s = Ok 0 s) \/
  (exists p s', uvmcreate s = Ok p s' /\ p ∈ F /\ space {[p]} (F ∖ {[p]}) p s' /\
    vstep {[p]} s s' /\ (forall va, pte_of (mem s') p va = 0)).
Proof.
  intros HF. unfold uvmcreate.
  destruct (kalloc_spec F s HF)
    as (p & s1 & Hr & [(-> & -> & ->)|(Hin & Hp & HF' & (m' & fl & -> & Hso))]);
    erewrite bind_ok by exact Hr; [by left|right].
  pose proof (page_pos p Hp). rewrite (proj2 (Z.eqb_neq p 0)) by lia. unfold upd_mem. msimp.
  assert (zero_page (memset m' p 0 PGSIZE) p) as Hz.
  { intros b Hb. rewrite load8_memset, decide_True by done. done. }
  pose proof (is_zero_table _ _ Hz) as Hz'.
  assert (agree_off {[p]} m' (memset m' p 0 PGSIZE)) as Ha by by apply fill_memset.
  eexists p, _. split; [reflexivity|]. split_and!; [done| | |].
  - split; [|eapply (free_pages_vstep {[p]}); [exact HF'|by apply vstep_mem|done| |]|].
    + split; [by apply elem_of_singleton|by intros t ->%elem_of_singleton| | |].
      * intros i Hi Hv. cbn in Hv. rewrite Hz', is_set_0 in Hv by done. discriminate Hv.
      * intros i j Hi Hj Hv. cbn in Hv. rewrite Hz', is_set_0 in Hv by done. discriminate Hv.
      * intros t Ht%elem_of_singleton. done.
    + by intros q ->%elem_of_singleton.
    + clear; set_solver.
    + clear; set_solver.
  - eapply vstep_trans; [|by apply vstep_mem]. split; [by apply agree_off_single|by exists m', fl].
  - intros va. unfold pte_of, pte_addr. cbn. by rewrite Hz', is_set_0 by apply PX_range.
Qed.

(** ** uvmalloc *)

(** Page numbers from [n] up to size [sz] have no entry. *)
Definition unmapped_to (m : gmap Z Z) (root n sz : Z) : Prop :=
  forall i, n <= i -> i * PGSIZE < sz -> pte_of m root (i * PGSIZE) = 0.

(** The pages [uvmalloc] owned at the start: changes stay inside. *)
Lemma pool_page T F root s q : space T F root s -> q ∈ F ∪ T -> page q.
Proof.
  intros [Hok HF _] Hq. apply elem_of_union in Hq as [Hq|Hq];
    [by eapply free_pages_page|by eapply pt_pages].
Qed.

Lemma zero_page_vstep P s s' p :
  zero_page (mem s) p -> vstep P s s' -> (forall q, q ∈ P -> page q) -> page p -> p ∉ P ->
  zero_page (mem s') p.
Proof. intros Hz [Ha _] HP Hp Hni b Hb. rewrite (agree_off_load8 P (mem s) _ p b); auto. Qed.

(** Pages that hold [sz] bytes. *)
Definition pages_for (sz : Z) : Z := (sz + PGSIZE - 1) / PGSIZE.

(** The pages from number [a] on are mapped to the frames [pas], readable for
    the user and with the permissions [xperm]. *)
Definition user_ptes (m : gmap Z Z) (root a xperm : Z) (pas : list Z) : Prop :=
  forall i p, pas !! i = Some p -> pte_of m root ((a + Z.of_nat i) * PGSIZE) = leaf_pte p (Z.lor (Z.lor PTE_R PTE_U) xperm).

(** What the loop leaves: everything up to [newsz] mapped to zeroed pages, or
    the pages [new] mapped so far given back; that happens only when there were
    fewer than two free pages for each page still to be mapped. *)
Definition uvmalloc_post (root newsz xperm : Z) (pas new : list Z) (T F : gset Z)
    (s : kstate) (r : Z) (s' : kstate) : Prop :=
  (r = newsz /\ exists new' T' F', uvm T' F' root (pas ++ new ++ new') s' /\
     (new' = [] \/ Z.of_nat (length (pas ++ new ++ new')) * PGSIZE < newsz + PGSIZE) /\
     newsz <= Z.of_nat (length (pas ++ new ++ new')) * PGSIZE /\
     list_to_set new' ∪ (F' ∪ T') = F ∪ T /\ (size F <= size F' + 2 * length new')%nat /\ vstep (F ∪ T) s s' /\
     (forall p, p ∈ new' -> zero_page (mem s') p) /\
     user_ptes (mem s') root (Z.of_nat (length (pas ++ new))) xperm new' /\
     (forall va, is_u32 va ->
        vpn va < Z.of_nat (length (pas ++ new)) \/ Z.of_nat (length (pas ++ new ++ new')) <= vpn va ->
        pte_of (mem s') root va = pte_of (mem s) root va)) \/
  (r = 0 /\ exists T' F', uvm T' F' root pas s' /\ F' ∪ T' = list_to_set new ∪ (F ∪ T) /\
     Z.of_nat (size F) < 2 * (pages_for newsz - Z.of_nat (length (pas ++ new))) /\
     vstep (list_to_set new ∪ (F ∪ T)) s s' /\
     (forall va, is_u32 va -> pte_of (mem s') root va =
       unmap_pages (Z.of_nat (length new)) (Z.of_nat (length pas)) (pte_of (mem s) root) va)).

Lemma uvmalloc_done root newsz xperm pas new T F s :
  uvm T F root (pas ++ new) s -> newsz <= Z.of_nat (length (pas ++ new)) * PGSIZE ->
  uvmalloc_post root newsz xperm pas new T F s newsz s.
Proof.
  intros Hu Hle. left. split; [done|]. exists [], T, F. rewrite app_nil_r, list_to_set_nil, union_empty_l_L.
  split_and!; [done|by left|lia|done|lia|apply vstep_refl|by intros p Hp%not_elem_of_nil|done|done].
Qed.

(** Giving back the pages mapped so far. *)
Lemma uvmalloc_undo root newsz xperm pas new T F T' F' s s1 :
  uvm T' F' root (pas ++ new) s1 -> F' ∪ T' = F ∪ T -> vstep (F ∪ T) s s1 ->
  (forall va, is_u32 va -> pte_of (mem s1) root va = pte_of (mem s) root va) ->
  Z.of_nat (size F) < 2 * (pages_for newsz - Z.of_nat (length (pas ++ new))) ->
  Z.of_nat (length (pas ++ new)) * PGSIZE <= 2 ^ 32 - PGSIZE ->
  exists r s', (uvmdealloc root (Z.of_nat (length (pas ++ new)) * PGSIZE)
      (Z.of_nat (length pas) * PGSIZE) ;; mret 0) s1 = Ok r s' /\
    uvmalloc_post root newsz xperm pas new T F s r s'.
Proof.
  intros Hu HU Hvs Hpt Hlow Hlim.
  destruct (uvmdealloc_spec T' F' root pas new (Z.of_nat (length (pas ++ new)) * PGSIZE)
    (Z.of_nat (length pas) * PGSIZE) s1) as (s2 & Hr & Hu2 & Hvs2 & Hpt2); [done| |done| | |].
  - rewrite length_app. unfold PGSIZE. lia.
  - rewrite length_app in Hlim. apply PGROUNDUP_page; [unfold PGSIZE in *; lia|by apply Z.mod_mul].
  - apply PGROUNDUP_page; [unfold PGSIZE in *; lia|by apply Z.mod_mul].
  - erewrite bind_ok by exact Hr. exists 0, s2. split; [done|]. right. split; [done|].
    exists T', (list_to_set new ∪ F'). split_and!; [done| |done| |].
    + by rewrite <- union_assoc_L, HU.
    + rewrite <- HU in *. eapply vstep_trans; (eapply vstep_mono; [|eassumption]); clear; set_solver.
    + intros va Hva. rewrite Hpt2 by done. unfold unmap_pages. case_decide; [done|]. by apply Hpt.
Qed.

Lemma uvmalloc_extend root newsz xperm pas new p T F T' F' s s1 r s' :
  uvm T F root (pas ++ new) s -> uvm T' F' root (pas ++ new ++ [p]) s1 ->
  {[p]} ∪ (F' ∪ T') = F ∪ T -> (size F <= size F' + 2)%nat -> vstep (F ∪ T) s s1 ->
  zero_page (mem s1) p -> Z.of_nat (length (pas ++ new)) * PGSIZE < newsz ->
  (forall va, is_u32 va -> vpn va <> Z.of_nat (length (pas ++ new)) ->
     pte_of (mem s1) root va = pte_of (mem s) root va) ->
  pte_of (mem s1) root (Z.of_nat (length (pas ++ new)) * PGSIZE) = leaf_pte p (Z.lor (Z.lor PTE_R PTE_U) xperm) ->
  pte_of (mem s) root (Z.of_nat (length (pas ++ new)) * PGSIZE) = 0 ->
  uvmalloc_post root newsz xperm pas (new ++ [p]) T' F' s1 r s' ->
  uvmalloc_post root newsz xperm pas new T F s r s'.
Proof.
  intros Hu Hu1 HU Hsz Hvs Hz Hlt Hpt Hptn Hun [(-> & new' & T2 & F2 & Hu2 & Hl & Hle & HU2 & Hsz2 & Hvs2 & Hz2 & Hup2 & Hpt2)|
    (-> & T2 & F2 & Hu2 & HU2 & Hn2 & Hvs2 & Hpt2)].
  - left. split; [done|]. exists (p :: new'), T2, F2.
    rewrite <- !app_assoc in *. cbn [app] in *.
    split_and!; [done| |done| |cbn [length]; lia| | | |].
    + right. destruct Hl as [->|?]; [|done]. rewrite app_assoc, length_app. cbn. lia.
    + rewrite <- HU, <- HU2, list_to_set_cons. clear; set_solver.
    + eapply vstep_trans; [done|]. eapply vstep_mono; [|done]. rewrite <- HU. clear; set_solver.
    + intros q Hq. apply elem_of_cons in Hq as [->|Hq]; [|by apply Hz2].
      destruct (fr_page _ _ _ (uv_frames _ _ _ _ _ Hu1) p) as (? & ? & ?).
      { clear. set_solver. }
      eapply zero_page_vstep; [done|done| |done|].
      { intros q Hq. eapply pool_page; [apply Hu1|done]. }
      clear -H0 H1. set_solver.
    + pose proof (uv_low _ _ _ _ _ Hu2) as Hlow2. rewrite !length_app in Hlow2. cbn [length] in Hlow2.
      intros [|i] q Hq; cbn [lookup list_lookup] in Hq.
      * injection Hq as <-. rewrite Z.add_0_r. rewrite Hpt2; [done| |].
        -- apply page_addr_u32. rewrite length_app. lia.
        -- left. rewrite vpn_mul, !length_app. cbn [length]. lia.
      * replace (Z.of_nat (length (pas ++ new)) + Z.of_nat (S i)) with (Z.of_nat (length (pas ++ new ++ [p])) + Z.of_nat i)
          by (rewrite !length_app; cbn [length]; lia). by apply Hup2.
    + intros va Hva Hv. rewrite Hpt2, Hpt; [done|done| |done|].
      all: rewrite ?app_assoc, ?length_app in *; cbn [length] in *; lia.
  - right. split; [done|]. exists T2, F2.
    assert (list_to_set (new ++ [p]) ∪ (F' ∪ T') = list_to_set new ∪ (F ∪ T)) as HE.
    { rewrite <- HU, list_to_set_app_L, list_to_set_cons, list_to_set_nil. clear; set_solver. }
    rewrite HE in HU2, Hvs2. split_and!; [done|done|rewrite !length_app in *; cbn [length] in *; lia| |].
    + eapply vstep_trans; (eapply vstep_mono; [|eassumption]); clear; set_solver.
    + intros va Hva. rewrite Hpt2 by done. unfold unmap_pages. rewrite !length_app in *.
      cbn [length] in *. pose proof (uv_low _ _ _ _ _ Hu). rewrite length_app in *.
      destruct (decide (vpn va = Z.of_nat (length pas + length new))) as [E|E].
      * rewrite decide_True, decide_False by lia. rewrite <- Hun. symmetry.
        apply pte_of_same_page; [apply page_addr_u32; lia|done|]. by apply same_page_mul.
      * repeat case_decide; try lia; try done. by apply Hpt.
Qed.

Lemma uvmalloc_loop_spec root newsz xperm pas fuel : forall new T F s,
  uvm T F root (pas ++ new) s -> newsz <= 2 ^ 32 - PGSIZE -> 0 <= xperm < 1024 ->
  unmapped_to (mem s) root (Z.of_nat (length (pas ++ new))) newsz ->
  newsz <= Z.of_nat (length (pas ++ new)) * PGSIZE + Z.of_nat fuel * PGSIZE ->
  exists r s', uvmalloc_loop fuel root (Z.of_nat (length (pas ++ new)) * PGSIZE)
      (Z.of_nat (length pas) * PGSIZE) newsz xperm s = Ok r s' /\
    uvmalloc_post root newsz xperm pas new T F s r s'.
Proof.
  induction fuel as [|fuel IH]; intros new T F s Hu Hsz Hx Hun Hfuel; cbn [uvmalloc_loop].
  { rewrite (proj2 (Z.leb_le _ _)) by lia. exists newsz, s. split; [done|].
    apply uvmalloc_done; [done|lia]. }
  set (n := Z.of_nat (length (pas ++ new))) in *. destruct (Z.leb_spec newsz (n * PGSIZE)) as [|Hlt].
  { exists newsz, s. split; [done|]. by apply uvmalloc_done. }
  assert (0 <= Z.lor (Z.lor PTE_R PTE_U) xperm < 1024) as Hperm by (apply lor_1024; done).
  assert (n + 1 < 2 ^ 20) as Hn by (unfold PGSIZE in *; lia).
  pose proof (Hun n ltac:(lia) Hlt) as Hn0.
  destruct (grow_spec (fun mm m => memset mm m 0 PGSIZE) T F root (pas ++ new)
      (Z.lor (Z.lor PTE_R PTE_U) xperm)
      (uvmdealloc root (n * PGSIZE) (Z.of_nat (length pas) * PGSIZE) ;; mret 0)
      (uvmalloc_loop fuel root (u32 (n * PGSIZE + PGSIZE)) (Z.of_nat (length pas) * PGSIZE) newsz xperm)
      s) as [(s1 & T1 & F1 & Hr & Hu1 & HU1 & Hsz1 & Hvs1 & Hpt1)|
             (p & s1 & T1 & F1 & m1 & Hr & Hu1 & HU1 & Hsz1 & Hvs1 & Hpt1 & Hm1 & Hb)];
    [intros; by apply fill_memset|done|done|done|by fold n; rewrite Hn0, is_set_0|..];
    fold n in Hr; unfold grow in Hr; rewrite Hr; clear Hr.
  - eapply uvmalloc_undo; try done; fold n; [|lia].
    assert (n < pages_for newsz) by (unfold pages_for, PGSIZE in *; Z.div_mod_to_equations; lia). lia.
  - rewrite u32_small by (unfold is_u32, PGSIZE in *; lia). fold n in Hpt1.
    replace (n * PGSIZE + PGSIZE) with (Z.of_nat (length (pas ++ new ++ [p])) * PGSIZE)
      by (rewrite app_assoc, length_app; fold n; cbn [length]; lia).
    rewrite <- app_assoc in Hu1.
    destruct (IH (new ++ [p]) T1 F1 s1) as (r & s2 & Hr & Hpost); [done|done|done| | |].
    + intros i Hi Hi2. rewrite app_assoc, length_app in Hi. cbn [length] in Hi.
      rewrite Hpt1 by (apply page_addr_u32; unfold PGSIZE in *; lia).
      rewrite vpn_mul, decide_False by lia. apply Hun; lia.
    + rewrite app_assoc, length_app. cbn [length]. lia.
    + exists r, s2. split; [done|]. eapply uvmalloc_extend; try done.
      * intros b Hbb. rewrite Hb by done. rewrite load8_memset by done.
        by rewrite decide_True.
      * intros va Hva Hne. rewrite Hpt1 by done. rewrite decide_False by done. done.
      * fold n. rewrite Hpt1 by (apply page_addr_u32; lia). by rewrite vpn_mul, decide_True.
Qed.

Definition npages (sz : Z) : Z := PGROUNDUP sz / PGSIZE.

Lemma uvmalloc_spec T F root pas oldsz newsz xperm s :
  uvm T F root pas s -> 0 <= oldsz <= newsz -> newsz <= 2 ^ 32 - PGSIZE -> 0 <= xperm < 1024 ->
  npages oldsz = Z.of_nat (length pas) ->
  unmapped_to (mem s) root (Z.of_nat (length pas)) newsz ->
  exists r s' T' F', uvmalloc root oldsz newsz xperm s = Ok r s' /\ vstep (F ∪ T) s s' /\
    ((r = newsz /\ exists new, uvm T' F' root (pas ++ new) s' /\
        npages newsz = Z.of_nat (length (pas ++ new)) /\
        list_to_set new ∪ (F' ∪ T') = F ∪ T /\ (size F <= size F' + 2 * length new)%nat /\
        (forall p, p ∈ new -> zero_page (mem s') p) /\ user_ptes (mem s') root (Z.of_nat (length pas)) xperm new /\
        (forall va, is_u32 va ->
          vpn va < Z.of_nat (length pas) \/ Z.of_nat (length (pas ++ new)) <= vpn va ->
          pte_of (mem s') root va = pte_of (mem s) root va)) \/
     (r = 0 /\ uvm T' F' root pas s' /\ F' ∪ T' = F ∪ T /\
        Z.of_nat (size F) < 2 * (npages newsz - Z.of_nat (length pas)) /\
        (forall va, is_u32 va -> pte_of (mem s') root va = pte_of (mem s) root va))).
Proof.
  intros Hu Hsz Hlim Hx Hn Hun. unfold uvmalloc. rewrite (proj2 (Z.ltb_ge _ _)) by lia.
  assert (PGROUNDUP oldsz = Z.of_nat (length pas) * PGSIZE) as Hold.
  { destruct (PGROUNDUP_bounds oldsz) as [_ Hm]; [unfold PGSIZE in *; lia|].
    rewrite <- Hn. unfold npages, PGSIZE in *. Z.div_mod_to_equations. lia. }
  destruct (PGROUNDUP_bounds oldsz) as [Hob _]; [unfold PGSIZE in *; lia|].
  destruct (uvmalloc_loop_spec root newsz xperm pas
      (Z.to_nat ((newsz - PGROUNDUP oldsz) / PGSIZE + 1)) [] T F s) as (r & s' & Hr & Hpost);
    rewrite ?app_nil_r; try done.
  { rewrite Hold in *. unfold PGSIZE in *. Z.div_mod_to_equations. lia. }
  rewrite app_nil_r, <- Hold in Hr. rewrite Hr. exists r, s'.
  destruct Hpost as [(-> & new & T' & F' & Hu' & Hl & Hle & HU & Hc & Hvs & Hz & Hup & Hpt)|
    (-> & T' & F' & Hu' & HU & Hsz' & Hvs & Hpt)].
  - exists T', F'. split_and!; [done|done|]. left. split; [done|]. exists new. cbn [app] in *.
    rewrite app_nil_r in *. split_and!; try done. unfold npages. rewrite PGROUNDUP_eq by (unfold PGSIZE in *; lia).
    rewrite Z.div_mul by done.
    destruct Hl as [->|Hl]; [rewrite app_nil_r in *|]; rewrite ?Hold in *; unfold PGSIZE in *;
      Z.div_mod_to_equations; lia.
  - rewrite list_to_set_nil, union_empty_l_L in *. exists T', F'. split_and!; [done|done|]. right.
    split_and!; try done.
    + rewrite app_nil_r in Hsz'. unfold npages. rewrite PGROUNDUP_eq by (unfold PGSIZE in *; lia).
      by rewrite Z.div_mul.
    + intros va Hva. rewrite Hpt by done. unfold unmap_pages. cbn [length].
      rewrite decide_False by lia. done.
Qed.

(** C24: [uvmalloc] grows the user memory of a process from [oldsz] to
    [newsz], or fails leaving it as it was.  On success it returns [newsz], the
    pages below [oldsz] keep their frames, the new ones are zeroed pages of
    the pool of free and table pages, each mapped readable for the user with
    the permissions [xperm] besides, and the entries elsewhere are as before.
    On failure it returns 0, every entry is as before, and no page is lost:
    the free and table pages are together the same.  It fails only when fewer
    than two pages are free for each page to be added. *)
Theorem uvmalloc_correct T F root pas oldsz newsz xperm s :
  uvm T F root pas s -> 0 <= oldsz <= newsz -> newsz <= 2 ^ 32 - PGSIZE -> 0 <= xperm < 1024 ->
  npages oldsz = Z.of_nat (length pas) ->
  unmapped_to (mem s) root (Z.of_nat (length pas)) newsz ->
  exists r s' T' F', uvmalloc root oldsz newsz xperm s = Ok r s' /\ vstep (F ∪ T) s s' /\
    ((r = newsz /\ exists new, uvm T' F' root (pas ++ new) s' /\
        npages newsz = Z.of_nat (length (pas ++ new)) /\
        list_to_set new ∪ (F' ∪ T') = F ∪ T /\ (size F <= size F' + 2 * length new)%nat /\
        (forall p, p ∈ new -> zero_page (mem s') p) /\ user_ptes (mem s') root (Z.of_nat (length pas)) xperm new /\
        (forall va, is_u32 va ->
          vpn va < Z.of_nat (length pas) \/ Z.of_nat (length (pas ++ new)) <= vpn va ->
          pte_of (mem s') root va = pte_of (mem s) root va)) \/
     (r = 0 /\ uvm T' F' root pas s' /\ F' ∪ T' = F ∪ T /\
        Z.of_nat (size F) < 2 * (npages newsz - Z.of_nat (length pas)) /\
        (forall va, is_u32 va -> pte_of (mem s') root va = pte_of (mem s) root va))).
Proof. apply uvmalloc_spec. Qed.

(** ** uvmcopy *)

(** The page at [p] of [m] holds what the page at [q] of [m0] holds. *)
Definition page_copy (m : gmap Z Z) (p : Z) (m0 : gmap Z Z) (q : Z) : Prop :=
  forall k, 0 <= k < PGSIZE -> load8 m (p + k) = load8 m0 (q + k).

(** The parent: its table at [old] with pages [T0], its first user pages the
    frames [pas0], all of it outside the pool [P] the child is built from. *)
Record parent (P T0 : gset Z) (old : Z) (pas0 : list Z) (s : kstate) : Prop := {
  pr_pt : pt_ok T0 (mem s) old;
  pr_mapped : mapped (mem s) old 0 pas0;
  pr_pages : forall p, p ∈ pas0 -> page p;
  pr_disj : P ## T0;
  pr_disj' : P ## list_to_set pas0;
}.

Lemma parent_vstep P T0 old pas0 s s' :
  parent P T0 old pas0 s -> vstep P s s' -> (forall p, p ∈ P -> page p) ->
  parent P T0 old pas0 s' /\ (forall va, pte_of (mem s') old va = pte_of (mem s) old va) /\
  (forall p, p ∈ pas0 -> page_copy (mem s') p (mem s) p).
Proof.
  intros [Hok Hm Hpg Hd Hd'] [Ha _] HP.
  destruct (pt_ok_frame P T0 (mem s) (mem s') old) as (Hok' & _ & Hpt); [done..|].
  split_and!; [split; try done|done|].
  - eapply mapped_ext; [|done]. intros i Hi. apply Hpt.
  - intros p Hp k Hk. eapply agree_off_load8; [done|done|by apply Hpg| |lia].
    intros HpP. apply (Hd' p); [done|]. by apply elem_of_list_to_set.
Qed.

Lemma fill_memmove q m p : page p -> agree_off {[p]} m (memmove m p q PGSIZE).
Proof.
  intros _. apply agree_off_single. intros b Hb. rewrite load8_memmove by done.
  rewrite decide_False by lia. done.
Qed.

Lemma parent_mono P P' T0 old pas0 s :
  parent P T0 old pas0 s -> P' ⊆ P -> parent P' T0 old pas0 s.
Proof. intros [Hok Hm Hpg Hd Hd'] HP. split; try done; set_solver. Qed.

(** The child's pages so far: copies with the parent's permissions. *)
Definition copied (m : gmap Z Z) (new old : Z) (pas pas0 : list Z) : Prop :=
  forall i p q, pas !! i = Some p -> pas0 !! i = Some q ->
    page_copy m p m q /\
    pte_of m new (Z.of_nat i * PGSIZE) =
      leaf_pte p (PTE_FLAGS (pte_of m old (Z.of_nat i * PGSIZE))).

Lemma page_copy_vstep P s s' p q :
  page_copy (mem s) p (mem s) q -> vstep P s s' -> (forall x, x ∈ P -> page x) ->
  page p -> page q -> p ∉ P -> q ∉ P -> page_copy (mem s') p (mem s') q.
Proof.
  intros Hc [Ha _] HP Hp Hq Hnp Hnq k Hk.
  rewrite (agree_off_load8 P (mem s) (mem s') p (p + k)) by (done || lia).
  rewrite (agree_off_load8 P (mem s) (mem s') q (q + k)) by (done || lia).
  by apply Hc.
Qed.

Definition uvmcopy_post (new old : Z) (pas pas0 : list Z) (T F : gset Z)
    (s : kstate) (r : Z) (s' : kstate) : Prop :=
  (r = 0 /\ exists pas' T' F', uvm T' F' new (pas ++ pas') s' /\
     length (pas ++ pas') = length pas0 /\ copied (mem s') new old (pas ++ pas') pas0 /\
     list_to_set pas' ∪ (F' ∪ T') = F ∪ T /\ vstep (F ∪ T) s s' /\
     (forall va, is_u32 va -> Z.of_nat (length pas0) <= vpn va ->
        pte_of (mem s') new va = pte_of (mem s) new va)) \/
  (r = -1 /\ exists T' F', uvm T' F' new [] s' /\ F' ∪ T' = list_to_set pas ∪ (F ∪ T) /\
     (size F < 2 * (length pas0 - length pas))%nat /\
     vstep (list_to_set pas ∪ (F ∪ T)) s s' /\
     (forall va, is_u32 va -> pte_of (mem s') new va =
       unmap_pages (Z.of_nat (length pas)) 0 (pte_of (mem s) new) va)).

Lemma uvmcopy_undo new old pas pas0 T F T' F' s s1 :
  uvm T' F' new pas s1 -> F' ∪ T' = F ∪ T -> vstep (F ∪ T) s s1 ->
  (forall va, is_u32 va -> pte_of (mem s1) new va = pte_of (mem s) new va) ->
  (size F < 2 * (length pas0 - length pas))%nat ->
  exists r s', (uvmunmap new 0 (Z.of_nat (length pas) * PGSIZE / PGSIZE) true ;; mret (-1)) s1
      = Ok r s' /\ uvmcopy_post new old pas pas0 T F s r s'.
Proof.
  intros Hu HU Hvs Hpt Hlow. rewrite Z.div_mul by done.
  destruct (uvm_unmap_top T' F' new [] pas s1 Hu) as (s2 & Hr & Hu2 & Hvs2 & Hpt2).
  change (Z.of_nat (length [])) with 0 in Hpt2.
  erewrite bind_ok by exact Hr. exists (-1), s2. split; [done|]. right. split; [done|].
  exists T', (list_to_set pas ∪ F'). split_and!; [done|by rewrite <- union_assoc_L, HU|done| |].
  - rewrite <- HU in *. eapply vstep_trans; (eapply vstep_mono; [|eassumption]); clear; set_solver.
  - intros va Hva. rewrite Hpt2 by done. unfold unmap_pages. case_decide; [done|]. by apply Hpt.
Qed.

(** The copies made so far survive a step inside the pool, and the new page
    joins them. *)
Lemma copied_snoc T F new old pas pas0 T0 p q T' F' s s1 m1 :
  uvm T F new pas s -> parent (F ∪ T) T0 old pas0 s -> copied (mem s) new old pas pas0 ->
  pas0 !! length pas = Some q -> uvm T' F' new (pas ++ [p]) s1 ->
  {[p]} ∪ (F' ∪ T') = F ∪ T -> vstep (F ∪ T) s s1 ->
  (forall va, is_u32 va -> pte_of (mem s1) new va =
     if decide (vpn va = Z.of_nat (length pas))
     then leaf_pte p (PTE_FLAGS (pte_of (mem s) old (Z.of_nat (length pas) * PGSIZE)))
     else pte_of (mem s) new va) ->
  agree_off {[p]} (mem s) m1 ->
  (forall b, p <= b < p + PGSIZE -> load8 (mem s1) b = load8 (memmove m1 p q PGSIZE) b) ->
  copied (mem s1) new old (pas ++ [p]) pas0.
Proof.
  intros Hu Hpar Hc Hq Hu1 HU Hvs Hpt Hm1 Hb.
  assert (forall x, x ∈ F ∪ T -> page x) as HP by (intros x Hx; eapply pool_page; [apply Hu|done]).
  destruct (parent_vstep _ _ _ _ _ _ Hpar Hvs HP) as (Hpar1 & Hpt0 & Hsame).
  assert (forall x, x ∈ pas0 -> x ∉ F ∪ T) as Hni.
  { intros x Hx HxP. apply (pr_disj' _ _ _ _ _ Hpar x); [done|]. by apply elem_of_list_to_set. }
  intros i p' q' Hi Hq'. pose proof (list_elem_of_lookup_2 _ _ _ Hq') as Hqin.
  pose proof (pr_pages _ _ _ _ _ Hpar q' Hqin) as Hqp.
  pose proof (uv_low _ _ _ _ _ Hu1) as Hlow. rewrite length_app in Hlow. cbn in Hlow.
  apply lookup_app_Some in Hi as [Hi|[Hle Hi]].
  - pose proof (lookup_lt_Some _ _ _ Hi). destruct (Hc i p' q' Hi Hq') as [Hcp Hcf].
    destruct (fr_page _ _ _ (uv_frames _ _ _ _ _ Hu) p') as (Hpp & HnT & HnF);
      [by eapply list_elem_of_lookup_2|].
    split.
    + eapply page_copy_vstep; try done; [|by apply Hni]. clear -HnT HnF. set_solver.
    + rewrite Hpt by (apply page_addr_u32; lia). rewrite vpn_mul, decide_False by lia.
      by rewrite Hcf, Hpt0.
  - destruct (i - length pas)%nat as [|j] eqn:Ei; [|done]. injection Hi as <-.
    assert (i = length pas) as -> by lia. rewrite Hq in Hq'. injection Hq' as <-. split.
    + intros k Hk. rewrite Hb, load8_memmove by (done || lia). rewrite decide_True by lia.
      rewrite (Hsame q Hqin k Hk). replace (q + (p + k - p)) with (q + k) by lia.
      eapply (agree_off_load8 {[p]}); [done| |done| |lia].
      * intros x Hx. apply elem_of_singleton in Hx as ->. apply HP. rewrite <- HU. clear; set_solver.
      * intros Hx. apply elem_of_singleton in Hx as ->. apply (Hni p Hqin). rewrite <- HU. clear; set_solver.
    + rewrite Hpt by (apply page_addr_u32; lia). rewrite vpn_mul, decide_True by done. by rewrite Hpt0.
Qed.

Lemma uvmcopy_extend new old pas pas0 p T F T' F' s s1 r s' :
  {[p]} ∪ (F' ∪ T') = F ∪ T -> (size F <= size F' + 2)%nat -> vstep (F ∪ T) s s1 ->
  uvm T F new pas s -> (length pas < length pas0)%nat ->
  (forall va, is_u32 va -> vpn va <> Z.of_nat (length pas) ->
     pte_of (mem s1) new va = pte_of (mem s) new va) ->
  pte_of (mem s) new (Z.of_nat (length pas) * PGSIZE) = 0 ->
  uvmcopy_post new old (pas ++ [p]) pas0 T' F' s1 r s' -> uvmcopy_post new old pas pas0 T F s r s'.
Proof.
  intros HU Hsz Hvs Hu Hlt Hpt Hun [(-> & new' & T2 & F2 & Hu2 & Hl & Hc & HU2 & Hvs2 & Hpt2)|
    (-> & T2 & F2 & Hu2 & HU2 & Hn2 & Hvs2 & Hpt2)].
  - left. split; [done|]. exists (p :: new'), T2, F2. rewrite <- !app_assoc in *. cbn [app] in *.
    split_and!; try done.
    + rewrite <- HU, <- HU2, list_to_set_cons. clear; set_solver.
    + eapply vstep_trans; [done|]. eapply vstep_mono; [|done]. rewrite <- HU. clear; set_solver.
    + intros va Hva Hv. rewrite Hpt2, Hpt by (done || lia). done.
  - right. split; [done|]. exists T2, F2.
    assert (list_to_set (pas ++ [p]) ∪ (F' ∪ T') = list_to_set pas ∪ (F ∪ T)) as HE.
    { rewrite <- HU, list_to_set_app_L, list_to_set_cons, list_to_set_nil. clear; set_solver. }
    rewrite HE in HU2, Hvs2. split_and!; [done|done|rewrite length_app in Hn2; cbn in Hn2; lia| |].
    + eapply vstep_trans; (eapply vstep_mono; [|eassumption]); clear; set_solver.
    + intros va Hva. rewrite Hpt2 by done. unfold unmap_pages. rewrite !length_app in *.
      cbn [length] in *. pose proof (uv_low _ _ _ _ _ Hu).
      destruct (decide (vpn va = Z.of_nat (length pas))) as [E|E].
      * rewrite decide_True, decide_False by lia. rewrite <- Hun. symmetry.
        apply pte_of_same_page; [apply page_addr_u32; lia|done|]. by apply same_page_mul.
      * repeat case_decide; try lia; try done. by apply Hpt.
Qed.

Lemma uvmcopy_loop_spec new old pas0 T0 sz fuel : forall pas T F s,
  uvm T F new pas s -> parent (F ∪ T) T0 old pas0 s -> copied (mem s) new old pas pas0 ->
  (length pas <= length pas0)%nat -> 0 <= sz <= 2 ^ 32 - PGSIZE ->
  npages sz = Z.of_nat (length pas0) ->
  unmapped_to (mem s) new (Z.of_nat (length pas)) sz -> (length pas0 <= length pas + fuel)%nat ->
  exists r s', uvmcopy_loop fuel old new (Z.of_nat (length pas) * PGSIZE) sz s = Ok r s' /\
    uvmcopy_post new old pas pas0 T F s r s'.
Proof.
  induction fuel as [|fuel IH]; intros pas T F s Hu Hpar Hc Hle Hsz Hn Hun Hfuel; cbn [uvmcopy_loop];
    destruct (PGROUNDUP_bounds sz) as [Hpb Hpm]; try (unfold PGSIZE in *; lia);
    assert (PGROUNDUP sz = Z.of_nat (length pas0) * PGSIZE) as Hsz0
      by (rewrite <- Hn; unfold npages, PGSIZE in *; Z.div_mod_to_equations; lia).
  all: destruct (Z.leb_spec sz (Z.of_nat (length pas) * PGSIZE)) as [Hend|Hlt];
    [assert (length pas = length pas0) as Hlen by (unfold PGSIZE in *; lia);
     exists 0, s; split; [done|]; left; split; [done|]; exists [], T, F;
     rewrite app_nil_r, list_to_set_nil, union_empty_l_L; split_and!; try done; apply vstep_refl|].
  { unfold PGSIZE in *. lia. }
  assert (length pas < length pas0)%nat as Hlt' by (unfold PGSIZE in *; lia).
  assert (Z.of_nat (length pas) + 1 < 2 ^ 20) as Hn20 by (unfold PGSIZE in *; lia).
  destruct (lookup_lt_is_Some_2 _ _ Hlt') as [q Hq].
  destruct (pr_mapped _ _ _ _ _ Hpar _ _ Hq) as (Hv & _ & Hpa). rewrite Z.add_0_l in Hv, Hpa.
  destruct (pte_of_valid _ _ _ Hv) as (e & He).
  pose proof (pte_addr_pos _ _ _ _ _ (pr_pt _ _ _ _ _ Hpar) He) as Hep.
  erewrite bind_ok by (apply walk_noalloc, page_addr_u32; lia). rewrite He.
  rewrite (proj2 (Z.eqb_neq e 0)) by lia. msimp. rewrite <- (pte_of_addr _ _ _ _ He), Hv.
  cbn [negb]. cbv zeta. rewrite Hpa.
  pose proof (Hun _ (Z.le_refl _) Hlt) as Hun0.
  match goal with |- context [u32 ?x] => set (nxt := u32 x) end.
  destruct (grow_spec (fun mm m => memmove mm m q PGSIZE) T F new pas
      (PTE_FLAGS (pte_of (mem s) old (Z.of_nat (length pas) * PGSIZE)))
      (uvmunmap new 0 (Z.of_nat (length pas) * PGSIZE / PGSIZE) true ;; mret (-1))
      (uvmcopy_loop fuel old new nxt sz) s)
    as [(s1 & T1 & F1 & Hr & Hu1 & HU1 & Hsz1 & Hvs1 & Hpt1)|
        (p & s1 & T1 & F1 & m1 & Hr & Hu1 & HU1 & Hsz1 & Hvs1 & Hpt1 & Hm1 & Hb)];
    [intros; by apply fill_memmove|done|apply PTE_FLAGS_range|done|by rewrite Hun0, is_set_0|..];
    unfold grow in Hr; rewrite Hr; clear Hr.
  - eapply uvmcopy_undo; try done. lia.
  - subst nxt. rewrite u32_small by (unfold is_u32, PGSIZE in *; lia).
    replace (_ * PGSIZE + PGSIZE) with (Z.of_nat (length (pas ++ [p])) * PGSIZE)
      by (rewrite length_app; cbn [length]; lia).
    destruct (IH (pas ++ [p]) T1 F1 s1) as (r & s2 & Hr & Hpost); try done.
    + destruct (parent_vstep _ _ _ _ _ _ Hpar Hvs1) as (Hpar1 & _).
      { intros x Hx. eapply pool_page; [apply Hu|done]. }
      eapply parent_mono; [done|]. rewrite <- HU1. clear; set_solver.
    + by eapply copied_snoc.
    + rewrite length_app. cbn. lia.
    + intros i Hi Hi2. rewrite length_app in Hi. cbn [length] in Hi.
      rewrite Hpt1 by (apply page_addr_u32; unfold PGSIZE in *; lia).
      rewrite vpn_mul, decide_False by lia. apply Hun; lia.
    + rewrite length_app. cbn. lia.
    + exists r, s2. split; [done|]. eapply uvmcopy_extend; try done.
      intros va Hva Hne. rewrite Hpt1 by done. rewrite decide_False by done. done.
Qed.

Lemma uvmcopy_spec T F T0 new old pas0 sz s :
  uvm T F new [] s -> parent (F ∪ T) T0 old pas0 s -> 0 <= sz <= 2 ^ 32 - PGSIZE ->
  npages sz = Z.of_nat (length pas0) -> unmapped_to (mem s) new 0 sz ->
  exists r s' T' F', uvmcopy old new sz s = Ok r s' /\ vstep (F ∪ T) s s' /\
    parent (F ∪ T) T0 old pas0 s' /\
    ((r = 0 /\ exists pas, uvm T' F' new pas s' /\ length pas = length pas0 /\
        copied (mem s') new old pas pas0 /\ list_to_set pas ∪ (F' ∪ T') = F ∪ T /\
        (forall va, is_u32 va -> Z.of_nat (length pas0) <= vpn va ->
           pte_of (mem s') new va = pte_of (mem s) new va)) \/
     (r = -1 /\ uvm T' F' new [] s' /\ F' ∪ T' = F ∪ T /\ (size F < 2 * length pas0)%nat /\
        (forall va, is_u32 va -> pte_of (mem s') new va = pte_of (mem s) new va))).
Proof.
  intros Hu Hpar Hsz Hn Hun. unfold uvmcopy.
  destruct (uvmcopy_loop_spec new old pas0 T0 sz (Z.to_nat (sz / PGSIZE + 1)) [] T F s)
    as (r & s' & Hr & Hpost); try done.
  { cbn. lia. }
  { unfold npages in Hn. rewrite PGROUNDUP_eq, Z.div_mul in Hn by (done || unfold PGSIZE in *; lia).
    cbn. unfold PGSIZE in *. Z.div_mod_to_equations. lia. }
  change (Z.of_nat (length []) * PGSIZE) with 0 in Hr. rewrite Hr. exists r, s'.
  assert (vstep (F ∪ T) s s') as Hvs.
  { destruct Hpost as [(_ & ? & ? & ? & _ & _ & _ & _ & ? & _)|(_ & ? & ? & _ & _ & _ & Hv & _)]; [done|].
    by rewrite list_to_set_nil, union_empty_l_L in Hv. }
  destruct (parent_vstep _ _ _ _ _ _ Hpar Hvs) as (Hpar' & _).
  { intros x Hx. eapply pool_page; [apply Hu|done]. }
  destruct Hpost as [(-> & pas & T' & F' & Hu' & Hl & Hc & HU & _ & Hpt)|
    (-> & T' & F' & Hu' & HU & Hsz' & _ & Hpt)]; exists T', F'; split_and!; try done; [left|right].
  - split; [done|]. by exists pas.
  - rewrite list_to_set_nil, union_empty_l_L in HU. cbn [length] in Hsz'.
    rewrite Nat.sub_0_r in Hsz'. split_and!; try done.
    intros va Hva. rewrite Hpt by done. unfold unmap_pages. cbn [length].
    rewrite decide_False by lia. done.
Qed.

(** C25: [uvmcopy] gives the child a copy of the parent's memory, or nothing.
    On success each of the parent's pages below [sz] has a page of the child's
    own at the same address with the same bytes and the same permissions (and
    the accessed and dirty bits [mappages] sets); on failure the child has no
    user page, every entry of its table is as before, and the free and table
    pages are together what they were.  It fails only when fewer than two pages
    are free for each page to be copied.  The parent's table and pages are not
    written. *)
Theorem uvmcopy_correct T F T0 new old pas0 sz s :
  uvm T F new [] s -> parent (F ∪ T) T0 old pas0 s -> 0 <= sz <= 2 ^ 32 - PGSIZE ->
  npages sz = Z.of_nat (length pas0) -> unmapped_to (mem s) new 0 sz ->
  exists r s' T' F', uvmcopy old new sz s = Ok r s' /\ vstep (F ∪ T) s s' /\
    parent (F ∪ T) T0 old pas0 s' /\
    ((r = 0 /\ exists pas, uvm T' F' new pas s' /\ length pas = length pas0 /\
        copied (mem s') new old pas pas0 /\ list_to_set pas ∪ (F' ∪ T') = F ∪ T /\
        (forall va, is_u32 va -> Z.of_nat (length pas0) <= vpn va ->
           pte_of (mem s') new va = pte_of (mem s) new va)) \/
     (r = -1 /\ uvm T' F' new [] s' /\ F' ∪ T' = F ∪ T /\ (size F < 2 * length pas0)%nat /\
        (forall va, is_u32 va -> pte_of (mem s') new va = pte_of (mem s) new va))).
Proof. apply uvmcopy_spec. Qed.
End UserVm.

(** ** Witnesses: an address space made in the booted test kernel *)

#[local] Existing Instance test_layout.
#[local] Existing Instance test_layout_ok.

Definition test_root : Z := PHYSTOP - PGSIZE.
Definition test_old : kstate := final (uvmcreate booted).

Lemma test_old_space :
  exists F, @space test_layout {[test_root]} F test_root test_old /\
    (forall va, pte_of (mem test_old) test_root va = 0).
Proof.
  destruct (@uvmcreate_spec test_layout test_layout_ok _ booted booted_free)
    as [[E _]|(p & s' & Hr & _ & Hsp & _ & Hz)].
  - exfalso. revert E. apply (bool_decide_unpack _). vm_compute. exact I.
  - destruct (run_ok _ _ _ Hr) as [<- Hp].
    assert (result (uvmcreate booted) = Some test_root) as E by (vm_compute; reflexivity).
    rewrite E in Hp. injection Hp as <-. eexists. split; [exact Hsp|exact Hz].
Qed.

Lemma test_old_uvm :
  exists F, @uvm test_layout {[test_root]} F test_root [] test_old /\
    (forall va, pte_of (mem test_old) test_root va = 0).
Proof.
  destruct test_old_space as (F & Hsp & Hz). exists F. split; [|exact Hz].
  split; [exact Hsp| |split; [constructor|by intros pa Hpa%not_elem_of_nil]|done].
  intros i pa Hi. done.
Qed.

Lemma mappages_translates_witness :
  exists r s', mappages test_root 4096 5000 PHYSTOP (Z.lor PTE_R PTE_W) test_old = Ok r s'.
Proof.
  destruct test_old_space as (F & Hsp & Hz).
  destruct (@mappages_translates test_layout test_layout_ok _ F test_root 4096 5000 PHYSTOP
    (Z.lor PTE_R PTE_W) test_old Hsp) as (r & s' & T' & F' & k & Hr & _).
  - lia.
  - lia.
  - lia.
  - reflexivity.
  - unfold PHYSTOP, KERNBASE. lia.
  - vm_compute. discriminate.
  - split; [vm_compute; discriminate|reflexivity].
  - reflexivity.
  - intros va' _ _. rewrite Hz. reflexivity.
  - exists r, s'. exact Hr.
Defined.

Lemma uvmalloc_correct_witness :
  exists r s', @uvmalloc test_layout test_root 0 5000 PTE_W test_old = Ok r s'.
Proof.
  destruct test_old_uvm as (F & Hu & Hz).
  destruct (@uvmalloc_correct test_layout test_layout_ok _ F test_root [] 0 5000 PTE_W test_old Hu)
    as (r & s' & T' & F' & Hr & _).
  - lia.
  - unfold PGSIZE. lia.
  - unfold PTE_W. lia.
  - reflexivity.
  - intros i _ _. apply Hz.
  - exists r, s'. exact Hr.
Defined.

(** The old address space with two pages, and a new empty one. *)
Definition test_grown : kstate := final (@uvmalloc test_layout test_root 0 5000 PTE_W test_old).
Definition test_new : kstate := final (uvmcreate test_grown).

Lemma test_grown_uvm :
  exists T F pas, @uvm test_layout T F test_root pas test_grown /\ length pas = 2%nat /\
    (forall va, is_u32 va -> 2 <= vpn va -> pte_of (mem test_grown) test_root va = 0).
Proof.
  destruct test_old_uvm as (F & Hu & Hz).
  destruct (@uvmalloc_loop_spec test_layout test_layout_ok test_root 5000 PTE_W [] 2 []
    _ F test_old Hu) as (r & s' & Hr & Hpost);
    [unfold PGSIZE; lia|unfold PTE_W; lia| |cbn; unfold PGSIZE; lia|].
  { intros i _ _. apply Hz. }
  destruct (run_ok _ _ _ Hr) as [E Hv]. change (final _) with test_grown in E. subst s'.
  destruct Hpost as [(_ & new & T' & F' & Hu' & Hl & Hle & _ & _ & _ & _ & _ & Hpt)|(-> & _)].
  - exists T', F', new. cbn [app] in *.
    assert (length new = 2%nat) as Hlen.
    { destruct Hl as [->|Hl]; [cbn in Hle; lia|]. unfold PGSIZE in *. lia. }
    split; [exact Hu'|split; [exact Hlen|]]. intros va Hva Hv2. rewrite Hpt, Hz; [done|done|].
    right. rewrite Hlen. exact Hv2.
  - exfalso. revert Hv. vm_compute. discriminate.
Qed.

Lemma uvmcopy_correct_witness :
  exists new r s', @uvmcopy test_layout test_root new 5000 test_new = Ok r s'.
Proof.
  destruct test_grown_uvm as (T & F & pas & Hu & Hlen & _).
  destruct (@uvmcreate_spec test_layout test_layout_ok F test_grown (sp_free _ _ _ _ (uv_space _ _ _ _ _ Hu)))
    as [[_ E]|(p & s' & Hr & Hin & Hsp & Hvs & Hz)].
  { exfalso. apply (f_equal result) in E. revert E. vm_compute. discriminate. }
  destruct (run_ok _ _ _ Hr) as [E _]. change (final _) with test_new in E. subst s'.
  assert (forall q, q ∈ pas -> @page test_layout q /\ (q ∉ T) /\ q ∉ F) as Hfr by apply Hu.
  assert (@parent test_layout F T test_root pas test_grown) as Hp0.
  { split; [apply Hu|apply Hu|intros q Hq; apply (Hfr q Hq)|apply Hu|].
    intros q Hq Hq'. apply elem_of_list_to_set in Hq'. destruct (Hfr q Hq') as (_ & _ & Hn). exact (Hn Hq). }
  destruct (@parent_vstep test_layout test_layout_ok F T test_root pas test_grown test_new Hp0) as (Hp1 & _).
  { apply (vstep_mono {[p]}); [|exact Hvs]. clear -Hin. set_solver. }
  { intros q Hq. apply (free_pages_page F test_grown); [exact (sp_free _ _ _ _ (uv_space _ _ _ _ _ Hu))|exact Hq]. }
  destruct (@uvmcopy_correct test_layout test_layout_ok {[p]} (F ∖ {[p]}) T p test_root pas 5000 test_new)
    as (r & s' & T' & F' & Hr' & _).
  - split; [exact Hsp|intros i pa Hi; discriminate Hi|split; [constructor|]|reflexivity].
    intros pa Hpa. destruct (not_elem_of_nil _ Hpa).
  - apply (parent_mono F); [exact Hp1|]. clear -Hin. set_solver.
  - unfold PGSIZE. lia.
  - rewrite Hlen. reflexivity.
  - intros i _ _. apply Hz.
  - exists p, r, s'. exact Hr'.
Defined.

(** * freewalk and uvmfree: tearing an address space down

    Freeing the user pages and then the table gives every page of the address
    space back to the allocator. *)

Section UvmFree.
Context {L : Layout} {LO : LayoutOk L}.

(** No entry of the table is valid. *)
Definition no_leaves (m : gmap Z Z) (root : Z) : Prop :=
  forall i k, 0 <= i < 1024 -> 0 <= k < 1024 ->
    is_set (load32 m (root + 4 * i)) PTE_V = true ->
    is_set (load32 m (PTE2PA (load32 m (root + 4 * i)) + 4 * k)) PTE_V = false.

(** Freeing a level-0 table without valid entries. *)
Lemma freewalk_empty d p s :
  (forall k, 0 <= k < 1024 -> is_set (load32 (mem s) (p + 4 * k)) PTE_V = false) ->
  freewalk_depth (S d) p s = kfree p s.
Proof.
  intros Hz. cbn [freewalk_depth].
  destruct (for_range_inv (fun _ s' => s' = s) 1024 0 (freewalk_entry (freewalk_depth d) p) s)
    as (s' & Hr & ->); [done| |].
  - intros i s' Hi ->. exists s. split; [|done]. unfold freewalk_entry. msimp. by rewrite Hz by lia.
  - erewrite bind_ok by exact Hr. done.
Qed.

(** A child table is unhooked and freed. *)
Lemma pt_remove_table T m m' root i :
  pt_ok T m root -> 0 <= i < 1024 -> is_set (load32 m (root + 4 * i)) PTE_V = true ->
  same_outside (PTE2PA (load32 m (root + 4 * i))) m m' ->
  let c := PTE2PA (load32 m (root + 4 * i)) in
  pt_ok (T ∖ {[c]}) (store32 m' (root + 4 * i) 0) root /\
  load32 (store32 m' (root + 4 * i) 0) (root + 4 * i) = 0 /\
  (forall t a, t ∈ T -> t <> c -> t <= a -> a + 4 <= t + PGSIZE -> a <> root + 4 * i ->
     (a - root) mod 4 = 0 ->
     load32 (store32 m' (root + 4 * i) 0) a = load32 m a).
Proof.
  intros Hok Hi Hv Hso c. destruct (pt_child _ _ _ Hok i Hi Hv) as (_ & Hc & Hcr). fold c in Hc, Hcr.
  pose proof (pt_pages _ _ _ Hok c Hc) as Hpc.
  pose proof (pt_pages _ _ _ Hok root (pt_root _ _ _ Hok)) as Hpr.
  assert (forall t a, t ∈ T -> t <> c -> t <= a -> a + 4 <= t + PGSIZE -> a <> root + 4 * i ->
     (a - root) mod 4 = 0 -> load32 (store32 m' (root + 4 * i) 0) a = load32 m a) as Hl.
  { intros t a Ht Htc H1 H2 H3 H4. rewrite load32_store32_ne by (Z.div_mod_to_equations; lia).
    eapply same_outside_load32; [done|]. fold c.
    destruct (page_apart t c (pt_pages _ _ _ Hok t Ht) Hpc Htc); unfold PGSIZE in *; lia. }
  assert (load32 (store32 m' (root + 4 * i) 0) (root + 4 * i) = 0) as H0 by apply load32_store32_eq.
  generalize dependent (store32 m' (root + 4 * i) 0). intros m2 Hl H0.
  assert (forall j, 0 <= j < 1024 -> j <> i -> load32 m2 (root + 4 * j) = load32 m (root + 4 * j)) as Hr.
  { intros j Hj Hji. apply (Hl root); [apply Hok|done|unfold PGSIZE; lia..|].
    replace (root + 4 * j - root) with (j * 4) by lia. by apply Z.mod_mul. }
  assert (forall j, 0 <= j < 1024 -> is_set (load32 m2 (root + 4 * j)) PTE_V = true -> j <> i) as Hne.
  { intros j Hj Hvj ->. by rewrite H0, is_set_0 in Hvj. }
  split_and!; [|done|done]. destruct Hok as [G1 G2 G3 G4 G5]. split.
  - apply elem_of_difference. split; [done|]. intros E%elem_of_singleton. by apply Hcr.
  - intros t [Ht _]%elem_of_difference. by apply G2.
  - intros j Hj Hvj. pose proof (Hne j Hj Hvj) as Hji. rewrite Hr in Hvj |- * by done.
    destruct (G3 j Hj Hvj) as (? & ? & ?). split_and!; [done| |done].
    apply elem_of_difference. split; [done|]. intros E%elem_of_singleton.
    apply Hji. by apply G4.
  - intros j k Hj Hk Hvj Hvk. pose proof (Hne j Hj Hvj). pose proof (Hne k Hk Hvk).
    rewrite Hr in Hvj by done. rewrite Hr in Hvk by done. rewrite !Hr by done. by apply G4.
  - intros t [Ht Htc]%elem_of_difference Htr. destruct (G5 t Ht Htr) as (j & Hj & Hvj & Hpj).
    exists j. rewrite Hr; [done|done|]. intros ->. apply Htc, elem_of_singleton. by subst c.
Qed.

Lemma no_leaves_remove T m m2 root i :
  pt_ok T m root -> no_leaves m root -> 0 <= i < 1024 ->
  is_set (load32 m (root + 4 * i)) PTE_V = true -> load32 m2 (root + 4 * i) = 0 ->
  (forall t a, t ∈ T -> t <> PTE2PA (load32 m (root + 4 * i)) -> t <= a -> a + 4 <= t + PGSIZE ->
     a <> root + 4 * i -> (a - root) mod 4 = 0 -> load32 m2 a = load32 m a) ->
  no_leaves m2 root.
Proof.
  intros Hok Hnl Hi Hv H0 Hl j k Hj Hk Hvj. pose proof (pt_root _ _ _ Hok) as Hr.
  destruct (pt_child _ _ _ Hok i Hi Hv) as (_ & Hc & Hcr).
  destruct (decide (j = i)) as [->|Hne]; [by rewrite H0, is_set_0 in Hvj|].
  assert (load32 m2 (root + 4 * j) = load32 m (root + 4 * j)) as E.
  { apply (Hl root); [done|done|unfold PGSIZE; lia..|].
    replace (root + 4 * j - root) with (j * 4) by lia. by apply Z.mod_mul. }
  rewrite E in *. destruct (pt_child _ _ _ Hok j Hj Hvj) as (_ & Ht & Htr).
  pose proof (pt_pages _ _ _ Hok _ Ht) as Hpt. pose proof (pt_pages _ _ _ Hok _ Hr) as Hpr.
  pose proof (page_apart _ _ Hpt Hpr Htr).
  rewrite (Hl (PTE2PA (load32 m (root + 4 * j)))); [by apply Hnl|done| |lia|unfold PGSIZE; lia|lia|].
  - intros E'. apply Hne. by apply (pt_inj _ _ _ Hok).
  - destruct Hpt as [H1 _], Hpr as [H2 _]. unfold PGSIZE in *. Z.div_mod_to_equations. lia.
Qed.

(** The state of the loop over the root entries at [i]: the entries before [i]
    are gone and their tables free. *)
Record tearing (U : gset Z) (root : Z) (s0 : kstate) (i : nat) (s : kstate) : Prop := {
  te_space : exists T F, space T F root s /\ F ∪ T = U;
  te_gone : forall j, 0 <= j < Z.of_nat i -> is_set (load32 (mem s) (root + 4 * j)) PTE_V = false;
  te_leaves : no_leaves (mem s) root;
  te_step : vstep U s0 s;
}.

Lemma freewalk_entry_spec U root s0 i s d :
  tearing U root s0 i s -> (i < 1024)%nat ->
  exists s', freewalk_entry (freewalk_depth (S d)) root i s = Ok tt s' /\ tearing U root s0 (S i) s'.
Proof.
  intros [(T & F & Hsp & HU) Hg Hnl Hvs] Hi. set (k := Z.of_nat i) in *.
  unfold freewalk_entry. fold k. msimp.
  destruct (is_set (load32 (mem s) (root + 4 * k)) PTE_V) eqn:Hv; cbn [andb].
  2:{ exists s. split; [done|]. split; [by exists T, F| |done|done].
      intros j Hj. destruct (decide (j = k)) as [->|]; [done|]. apply Hg. lia. }
  pose proof (sp_pt _ _ _ _ Hsp) as Hok.
  destruct (pt_child _ _ _ Hok k ltac:(lia) Hv) as (Hent & Hc & Hcr).
  destruct (root_entry_valid _ (pt_pages _ _ _ Hok _ Hc)) as (_ & _ & Hfl). rewrite <- Hent in Hfl.
  set (c := PTE2PA (load32 (mem s) (root + 4 * k))) in *.
  assert (is_set (load32 (mem s) (root + 4 * k)) (Z.lor (Z.lor PTE_R PTE_W) PTE_X) = false) as ->.
  { unfold is_set. by rewrite land_flags, Hfl by done. }
  cbn [negb]. pose proof (pt_pages _ _ _ Hok c Hc) as Hpc.
  assert (c ∉ F) as HcF by (intros HF; by apply (sp_disj _ _ _ _ Hsp c)).
  destruct (kfree_spec F c s (sp_free _ _ _ _ Hsp) Hpc HcF) as (s1 & Hr & HF1 & (m1 & fl & -> & Hso)).
  erewrite bind_ok by (rewrite freewalk_empty; [exact Hr|intros j Hj; apply Hnl; lia || done]).
  unfold upd_mem. msimp. ksimp.
  destruct (pt_remove_table T (mem s) m1 root k) as (Hok2 & H0 & Hl); [done|lia|done|done|].
  fold c in Hok2, Hl. eexists. split; [reflexivity|].
  assert (F ∪ T = ({[c]} ∪ F) ∪ (T ∖ {[c]})) as HU'.
  { clear -Hc. apply set_eq. intros x. destruct (decide (x = c)) as [->|]; set_solver. }
  pose proof (pt_pages _ _ _ Hok _ (pt_root _ _ _ Hok)) as Hpr.
  assert (root ∉ {[c]} ∪ F) as HrF.
  { intros [E%elem_of_singleton|HF]%elem_of_union; [done|].
    apply (sp_disj _ _ _ _ Hsp root); [done|apply Hok]. }
  split.
  - exists (T ∖ {[c]}), ({[c]} ∪ F). split; [|by rewrite <- HU', HU]. split; [done| |].
    + eapply (free_pages_vstep {[root]}); [exact HF1| |done|by intros q ->%elem_of_singleton|].
      * apply vstep_mem. eapply agree_off_store32; [by apply elem_of_singleton|unfold PGSIZE; lia..|].
        apply agree_off_refl.
      * clear -HrF. set_solver.
    + pose proof (sp_disj _ _ _ _ Hsp) as Hd. clear -Hd. set_solver.
  - intros j Hj. cbn [mem set_mem]. destruct (decide (j = k)) as [->|Hjk]; [by rewrite H0, is_set_0|].
    rewrite (Hl root); [apply Hg; lia|apply Hok|done|unfold PGSIZE; lia..|].
    replace (root + 4 * j - root) with (j * 4) by lia. by apply Z.mod_mul.
  - eapply (no_leaves_remove T (mem s) _ root k); [done|done|lia|done|done|exact Hl].
  - eapply vstep_trans; [done|]. rewrite <- HU. split; [|by eexists _, fl].
    cbn [mem set_mem]. apply (agree_off_store32 _ _ _ root); [|unfold PGSIZE; lia..|].
    + apply elem_of_union. right. apply Hok.
    + eapply agree_off_mono; [|by apply agree_off_single]. clear -Hc. set_solver.
Qed.

Lemma freewalk_spec T F root s :
  space T F root s -> no_leaves (mem s) root ->
  exists s', freewalk root s = Ok tt s' /\ free_pages (F ∪ T) s' /\ vstep (F ∪ T) s s'.
Proof.
  intros Hsp Hnl. unfold freewalk. cbn [freewalk_depth].
  destruct (for_range_inv (tearing (F ∪ T) root s) 1024 0 (freewalk_entry (freewalk_depth 2) root) s)
    as (s1 & Hr & [(T1 & F1 & Hsp1 & HU) Hg _ Hvs]).
  - split; [by exists T, F|lia|done|apply vstep_refl].
  - intros i s' Hi Ht. apply freewalk_entry_spec; [done|lia].
  - change (freewalk_entry _ root) with (freewalk_entry (freewalk_depth 2) root).
    erewrite bind_ok by exact Hr. destruct Hsp1 as [Hok1 HF1 Hd1].
    assert (T1 = {[root]}) as ->.
    { apply set_eq. intros t. rewrite elem_of_singleton. split; [|intros ->; apply Hok1].
      intros Ht. destruct (decide (t = root)) as [|Hne]; [done|].
      destruct (pt_exact _ _ _ Hok1 t Ht Hne) as (i & Hi & Hv & _). by rewrite Hg in Hv by lia. }
    destruct (kfree_spec F1 root s1 HF1) as (s2 & Hr2 & HF2 & (m' & fl & -> & Hso)).
    + by eapply pt_pages; [done|apply elem_of_singleton].
    + clear -Hd1. set_solver.
    + eexists. split; [exact Hr2|]. rewrite (union_comm_L {[root]} F1), HU in HF2. split; [done|].
      eapply vstep_trans; [done|]. rewrite <- HU. split; [|by exists m', fl].
      eapply agree_off_mono; [|by apply agree_off_single]. clear; set_solver.
Qed.

(** No entry beyond the user pages. *)
Lemma no_leaves_pte_of m root T :
  pt_ok T m root -> (forall va, is_u32 va -> is_set (pte_of m root va) PTE_V = false) ->
  no_leaves m root.
Proof.
  intros Hok H i k Hi Hk Hv. set (va := i * 4194304 + k * 4096).
  assert (is_u32 va) as Hva by (unfold is_u32, va; lia).
  pose proof (H va Hva) as Hp. unfold pte_of, pte_addr in Hp.
  assert (PX 1 va = i /\ PX 0 va = k) as [E1 E0].
  { rewrite PX1_eq, PX0_eq by done. unfold va. split; Z.div_mod_to_equations; lia. }
  by rewrite E1, E0, Hv in Hp.
Qed.

Lemma uvmfree_spec T F root pas sz s :
  uvm T F root pas s -> 0 <= sz <= 2 ^ 32 - PGSIZE -> npages sz = Z.of_nat (length pas) ->
  (forall va, is_u32 va -> Z.of_nat (length pas) <= vpn va ->
     is_set (pte_of (mem s) root va) PTE_V = false) ->
  exists s', uvmfree root sz s = Ok tt s' /\ free_pages (list_to_set pas ∪ (F ∪ T)) s' /\
    vstep (list_to_set pas ∪ (F ∪ T)) s s'.
Proof.
  intros Hu Hsz Hn Hun. unfold uvmfree. fold (npages sz). rewrite Hn.
  assert (exists s1, (if 0 <? sz then uvmunmap root 0 (Z.of_nat (length pas)) true else mret tt) s
      = Ok tt s1 /\ space T (list_to_set pas ∪ F) root s1 /\ vstep (list_to_set pas ∪ T) s s1 /\
      no_leaves (mem s1) root) as (s1 & Hr & Hsp1 & Hvs1 & Hnl1).
  { destruct (Z.ltb_spec 0 sz) as [Hpos|Hz].
    - destruct (uvm_unmap_top T F root [] pas s Hu) as (s1 & Hr & Hu1 & Hvs1 & Hpt1).
      exists s1. split_and!; [done|apply Hu1|done|]. eapply no_leaves_pte_of; [apply Hu1|].
      intros va Hva. rewrite Hpt1 by done. unfold unmap_pages. change (Z.of_nat (length [])) with 0.
      case_decide as Hd; [by rewrite is_set_0|]. apply Hun; [done|].
      assert (0 <= vpn va) by (unfold vpn, is_u32, PGSIZE in *; Z.div_mod_to_equations; lia). lia.
    - assert (sz = 0) as -> by lia. change (npages 0) with 0 in Hn.
      destruct pas; [|cbn in Hn; lia]. exists s. rewrite list_to_set_nil, !union_empty_l_L.
      split_and!; [done|apply Hu|apply vstep_refl|]. eapply no_leaves_pte_of; [apply Hu|].
      intros va Hva. apply Hun; [done|]. cbn. unfold vpn, is_u32, PGSIZE in *.
      Z.div_mod_to_equations. lia. }
  erewrite bind_ok by exact Hr.
  destruct (freewalk_spec T (list_to_set pas ∪ F) root s1 Hsp1 Hnl1) as (s2 & Hr2 & HF2 & Hvs2).
  rewrite <- union_assoc_L in *. exists s2. split_and!; [done|done|].
  eapply vstep_trans; [|done]. eapply vstep_mono; [|done]. clear; set_solver.
Qed.

(** C26: [uvmfree] of an address space whose only mappings are its user pages
    returns, and gives all of it back: afterwards the free pages are the old
    ones, the user pages and the pages of the table. *)
Theorem uvmfree_no_leak T F root pas sz s :
  uvm T F root pas s -> 0 <= sz <= 2 ^ 32 - PGSIZE -> npages sz = Z.of_nat (length pas) ->
  (forall va, is_u32 va -> Z.of_nat (length pas) <= vpn va ->
     is_set (pte_of (mem s) root va) PTE_V = false) ->
  exists s', uvmfree root sz s = Ok tt s' /\ free_pages (list_to_set pas ∪ (F ∪ T)) s' /\
    vstep (list_to_set pas ∪ (F ∪ T)) s s'.
Proof. apply uvmfree_spec. Qed.
End UvmFree.

#[local] Existing Instance test_layout.
#[local] Existing Instance test_layout_ok.

Lemma uvmfree_no_leak_witness :
  exists s', @uvmfree test_layout test_root 5000 test_grown = Ok tt s'.
Proof.
  destruct test_grown_uvm as (T & F & pas & Hu & Hlen & Hz).
  destruct (@uvmfree_no_leak test_layout test_layout_ok T F test_root pas 5000 test_grown Hu)
    as (s' & Hr & _).
  - unfold PGSIZE. lia.
  - rewrite Hlen. reflexivity.
  - intros va Hva Hv. rewrite Hz, is_set_0; [done|done|]. rewrite Hlen in Hv. exact Hv.
  - exists s'. exact Hr.
Defined.
