(* ===== verification/UserCopy.v ===== *)
(** * copyout, copyin and copyinstr against the bytes a user program sees

    [ubyte] reads a user address through the page table; [copyin] returns
    those bytes, [copyout] changes exactly those bytes, and both fail exactly
    when an address of the range is not mapped for the user. *)
From S2P Require Import Prelude Memory Machine Sv32 Spinlock Kalloc Vm VmSpec UserVm.
From stdpp Require Import gmap strings countable prelude.

Open Scope Z_scope.
#[local] Opaque memset.

(** The page of [va] is mapped and the user may access it. *)
Definition accessible (m : gmap Z Z) (root va : Z) : bool :=
  is_set (pte_of m root va) PTE_V && is_set (pte_of m root va) PTE_U.

(** The physical address of [va], when it is accessible. *)
Definition upa (m : gmap Z Z) (root va : Z) : Z := PTE2PA (pte_of m root va) + va mod PGSIZE.

Definition ubyte (m : gmap Z Z) (root va : Z) : Z := load8 m (upa m root va).

Fixpoint ubytes (m : gmap Z Z) (root va : Z) (n : nat) : list Z :=
  match n with
  | O => []
  | S n' => ubyte m root va :: ubytes m root (va + 1) n'
  end.

Lemma length_ubytes m root va n : length (ubytes m root va n) = n.
Proof. revert va. induction n; intros; cbn; auto. Qed.

Lemma ubytes_app m root va n k :
  ubytes m root va (n + k) = ubytes m root va n ++ ubytes m root (va + Z.of_nat n) k.
Proof.
  revert va. induction n as [|n IH]; intros va; cbn [ubytes app plus].
  - by rewrite Z.add_0_r.
  - rewrite IH. do 3 f_equal. lia.
Qed.

Lemma lookup_ubytes m root va n i :
  (i < n)%nat -> ubytes m root va n !! i = Some (ubyte m root (va + Z.of_nat i)).
Proof.
  revert va i. induction n as [|n IH]; intros va i Hi; [lia|]. destruct i as [|i]; cbn.
  - by rewrite Z.add_0_r.
  - rewrite IH by lia. do 2 f_equal. lia.
Qed.

Section UserCopy.
Context {L : Layout} {LO : LayoutOk L}.

(** A table the copy routines may use: no accessible page has frame 0, the
    value [walkaddr] fails with. *)
Record user_table (T : gset Z) (m : gmap Z Z) (root : Z) : Prop := {
  ut_ok : pt_ok T m root;
  ut_nonzero : forall va, is_u32 va -> accessible m root va = true -> PTE2PA (pte_of m root va) <> 0;
}.

Lemma walkaddr_ok T root va s :
  is_u32 va -> user_table T (mem s) root ->
  walkaddr root va s = Ok (if accessible (mem s) root va then PTE2PA (pte_of (mem s) root va) else 0) s.
Proof.
  intros Hva [Hok _]. unfold walkaddr.
  rewrite (proj2 (Z.ltb_ge _ _)) by (unfold MAXVA, is_u32 in *; lia).
  erewrite bind_ok by by apply walk_noalloc. unfold accessible, pte_of.
  destruct (pte_addr (mem s) root va) as [a|] eqn:E; [|by rewrite is_set_0].
  pose proof (pte_addr_pos _ _ _ _ _ Hok E). rewrite (proj2 (Z.eqb_neq a 0)) by lia.
  msimp. destruct (is_set (load32 (mem s) a) PTE_V); cbn [negb andb]; [|done].
  by destruct (is_set (load32 (mem s) a) PTE_U).
Qed.

(** ** One page of a copy *)

(** The bytes of [va] up to the end of its page. *)
Definition in_page (va : Z) : Z := PGSIZE - va mod PGSIZE.

Lemma in_page_pos va : 0 < in_page va <= PGSIZE.
Proof. unfold in_page. pose proof (Z.mod_pos_bound va PGSIZE). unfold PGSIZE in *. lia. Qed.

Lemma rounddown_eq va : is_u32 va ->
  PGROUNDDOWN va = va - va mod PGSIZE /\ PGSIZE - (va - PGROUNDDOWN va) = in_page va /\
  PGROUNDDOWN va + PGSIZE = va + in_page va.
Proof.
  intros H. rewrite PGROUNDDOWN_eq by done. unfold in_page, PGSIZE. Z.div_mod_to_equations. lia.
Qed.

Lemma same_page_offset va k : is_u32 va -> 0 <= k < in_page va ->
  same_page va (va + k) /\ (va + k) mod PGSIZE = va mod PGSIZE + k.
Proof.
  unfold same_page, in_page, PGSIZE, is_u32. intros. split; Z.div_mod_to_equations; lia.
Qed.

(** Accessibility and the frame are those of the page. *)
Lemma accessible_same_page m root va va' :
  is_u32 va -> is_u32 va' -> same_page va va' -> accessible m root va' = accessible m root va.
Proof. intros. unfold accessible. by rewrite (pte_of_same_page m root va va'). Qed.

Lemma upa_offset m root va k :
  is_u32 va -> is_u32 (va + k) -> 0 <= k < in_page va -> upa m root (va + k) = upa m root va + k.
Proof.
  intros Hva Hk Hr. destruct (same_page_offset va k Hva Hr) as [Hsp Hm].
  unfold upa. rewrite (pte_of_same_page m root va), Hm by done. lia.
Qed.

Lemma ubytes_page m root va n :
  is_u32 va -> va + Z.of_nat n <= 2 ^ 32 -> Z.of_nat n <= in_page va ->
  ubytes m root va n = load_bytes m (upa m root va) n.
Proof.
  intros Hva Hlim Hn. apply list_eq. intros i. destruct (decide (i < n)%nat) as [Hi|Hi].
  - rewrite lookup_ubytes, lookup_load_bytes by done. unfold ubyte.
    rewrite upa_offset by (unfold is_u32 in *; lia || done). done.
  - by rewrite !lookup_ge_None_2 by (rewrite ?length_ubytes, ?length_load_bytes; lia).
Qed.

(** Every address of the range is accessible. *)
Definition range_ok (m : gmap Z Z) (root va len : Z) : Prop :=
  forall va', va <= va' < va + len -> accessible m root va' = true.

Lemma page_start_u32 va : is_u32 va -> is_u32 (PGROUNDDOWN va) /\ same_page va (PGROUNDDOWN va).
Proof.
  intros H. destruct (PGROUNDDOWN_bounds va H) as (_ & _ & Hu). split; [done|].
  rewrite PGROUNDDOWN_eq by done. unfold same_page, PGSIZE. by rewrite Z.div_mul.
Qed.

(** ** copyin *)

(** The loop returns the bytes of the longest accessible prefix, page by
    page. *)
Lemma copyin_loop_spec T root s : user_table T (mem s) root -> forall fuel va len acc,
  is_u32 va -> 0 <= len -> va + len <= 2 ^ 32 ->
  len <= in_page va + Z.of_nat fuel * PGSIZE - PGSIZE ->
  exists r k, copyin_loop fuel root va len acc s = Ok (r, acc ++ ubytes (mem s) root va k) s /\
    Z.of_nat k <= len /\ range_ok (mem s) root va (Z.of_nat k) /\
    ((r = 0 /\ Z.of_nat k = len) \/ (r = -1 /\ Z.of_nat k < len /\
       accessible (mem s) root (va + Z.of_nat k) = false)).
Proof.
  intros Hut. induction fuel as [|fuel IH]; intros va len acc Hva Hlen Hlim Hfuel; cbn [copyin_loop].
  { pose proof (in_page_pos va). rewrite (proj2 (Z.leb_le _ _)) by lia. exists 0, 0%nat.
    rewrite app_nil_r. split_and!; [done|lia|by intros va' ?; lia|left; lia]. }
  destruct (Z.leb_spec len 0).
  { exists 0, 0%nat. rewrite app_nil_r. split_and!; [done|lia|by intros va' ?; lia|left; lia]. }
  destruct (page_start_u32 va Hva) as [Hu0 Hsp0]. destruct (rounddown_eq va Hva) as (E0 & E1 & E2).
  erewrite bind_ok by by eapply walkaddr_ok.
  rewrite (accessible_same_page _ _ va) by done.
  destruct (accessible (mem s) root va) eqn:Hacc.
  2:{ cbn [Z.eqb]. exists (-1), 0%nat. rewrite app_nil_r, Z.add_0_r.
      split_and!; [done|lia|by intros va' ?; lia|right; split_and!; [done|lia|done]]. }
  rewrite (pte_of_same_page _ _ va) by done.
  rewrite (proj2 (Z.eqb_neq _ _)) by (by apply (ut_nonzero _ _ _ Hut)). msimp. rewrite E1, E2.
  pose proof (in_page_pos va) as Hip. set (n := Z.min (in_page va) len).
  replace (PTE2PA (pte_of (mem s) root va) + (va - PGROUNDDOWN va)) with (upa (mem s) root va)
    by (unfold upa; lia).
  rewrite <- ubytes_page by (done || lia).
  assert (range_ok (mem s) root va n) as Hr0.
  { intros va' Hv. destruct (same_page_offset va (va' - va) Hva) as [Hsp _]; [lia|].
    replace (va + (va' - va)) with va' in Hsp by lia.
    rewrite (accessible_same_page _ _ va); [done|done|unfold is_u32 in *; lia|done]. }
  destruct (decide (len <= in_page va)) as [Hlast|Hmore].
  - assert (n = len) as -> by lia. rewrite Z.sub_diag. exists 0, (Z.to_nat len).
    rewrite Z2Nat.id by lia. split_and!; [by destruct fuel|lia|done|by left].
  - assert (n = in_page va) as Hn by lia. rewrite Hn in *.
    rewrite u32_small by (unfold is_u32 in *; lia).
    destruct (IH (va + in_page va) (len - in_page va) (acc ++ ubytes (mem s) root va (Z.to_nat (in_page va))))
      as (r & k & Hr & Hk & Hrk & Hres); [unfold is_u32 in *; lia|lia|lia| |].
    { assert (in_page (va + in_page va) = PGSIZE) as ->; [|lia].
      unfold in_page, PGSIZE. Z.div_mod_to_equations. lia. }
    exists r, (Z.to_nat (in_page va) + k)%nat. rewrite ubytes_app, app_assoc, Nat2Z.inj_add, Z2Nat.id by lia.
    split_and!; [done|lia| |].
    + intros va' Hv. destruct (decide (va' < va + in_page va)); [apply Hr0; lia|apply Hrk; lia].
    + rewrite Z.add_assoc. destruct Hres as [[-> ?]|(-> & ? & ?)]; [left; lia|right; split_and!; done || lia].
Qed.

Lemma fuel_enough va len : 0 <= len ->
  len <= in_page va + Z.of_nat (Z.to_nat (len / PGSIZE + 2)) * PGSIZE - PGSIZE.
Proof.
  intros H. pose proof (in_page_pos va). unfold PGSIZE in *. Z.div_mod_to_equations. lia.
Qed.

Lemma copyin_spec T root s va len :
  user_table T (mem s) root -> is_u32 va -> 0 <= len -> va + len <= 2 ^ 32 ->
  exists r k, copyin root va len s = Ok (r, ubytes (mem s) root va k) s /\
    Z.of_nat k <= len /\ range_ok (mem s) root va (Z.of_nat k) /\
    ((r = 0 /\ Z.of_nat k = len) \/ (r = -1 /\ Z.of_nat k < len /\
       accessible (mem s) root (va + Z.of_nat k) = false)).
Proof.
  intros Hut Hva Hlen Hlim. eapply (copyin_loop_spec T root s Hut _ va len []); try done.
  by apply fuel_enough.
Qed.

(** ** copyout *)

(** Writing bytes of one accessible page. *)
Lemma uvm_store T F root pas va bytes s :
  uvm T F root pas s -> is_u32 va -> vpn va < Z.of_nat (length pas) ->
  Z.of_nat (length bytes) <= in_page va ->
  let s' := set_mem (store_bytes (mem s) (upa (mem s) root va) bytes) s in
  uvm T F root pas s' /\ vstep (list_to_set pas) s s' /\
  (forall va', pte_of (mem s') root va' = pte_of (mem s) root va') /\
  (forall va', is_u32 va' -> vpn va' < Z.of_nat (length pas) ->
    ubyte (mem s') root va' = if decide (va <= va' < va + Z.of_nat (length bytes))
                              then u8 (at_ bytes (Z.to_nat (va' - va))) else ubyte (mem s) root va').
Proof.
  intros Hu Hva Hv Hlen s'.
  assert (0 <= vpn va) as Hv0 by (unfold vpn, is_u32, PGSIZE in *; Z.div_mod_to_equations; lia).
  destruct (lookup_lt_is_Some_2 pas (Z.to_nat (vpn va))) as [p Hp]; [lia|].
  assert (forall va1 p1, is_u32 va1 -> 0 <= vpn va1 -> pas !! Z.to_nat (vpn va1) = Some p1 ->
    PTE2PA (pte_of (mem s) root va1) = p1) as Hframe.
  { intros va1 p1 H1 H2 H3. destruct (uv_mapped _ _ _ _ _ Hu _ _ H3) as (_ & _ & <-).
    f_equal. pose proof (uv_low _ _ _ _ _ Hu). pose proof (lookup_lt_Some _ _ _ H3).
    apply pte_of_same_page; [apply page_addr_u32; lia|done|]. apply same_page_mul. lia. }
  pose proof (list_elem_of_lookup_2 _ _ _ Hp) as Hpin.
  destruct (fr_page _ _ _ (uv_frames _ _ _ _ _ Hu) p Hpin) as (Hpp & HpT & HpF).
  pose proof (Hframe va p Hva Hv0 Hp) as Hpa. pose proof (Z.mod_pos_bound va PGSIZE eq_refl) as Hmod.
  assert (same_outside p (mem s) (mem s')) as Hso.
  { intros b Hb. cbn. apply load8_store_bytes_out. unfold upa, in_page in *. rewrite Hpa. lia. }
  destruct (space_fill T F root p s (mem s')) as (Hsp' & Hpt);
    [apply Hu|done|done|done|by apply agree_off_single|].
  split_and!; [|apply vstep_mem|done|].
  - eapply uvm_ptes; [exact Hu|done|clear; set_solver..|]. intros va' _. apply Hpt.
  - eapply agree_off_mono; [|by apply agree_off_single]. set_solver.
  - intros va' Hva' Hv'. unfold ubyte, upa. rewrite Hpt.
    assert (0 <= vpn va') as Hv0' by (unfold vpn, is_u32, PGSIZE in *; Z.div_mod_to_equations; lia).
    destruct (lookup_lt_is_Some_2 pas (Z.to_nat (vpn va'))) as [p' Hp']; [lia|].
    rewrite (Hframe va' p' Hva' Hv0' Hp'). pose proof (Z.mod_pos_bound va' PGSIZE eq_refl) as Hmod'.
    destruct (decide (p' = p)) as [->|Hne].
    + assert (Z.to_nat (vpn va') = Z.to_nat (vpn va)) as E
        by (eapply NoDup_lookup; [apply (uv_frames _ _ _ _ _ Hu)|done|done]).
      assert (va' = va - va mod PGSIZE + va' mod PGSIZE) as Hdiff
        by (unfold vpn, PGSIZE in *; Z.div_mod_to_equations; lia).
      case_decide as Hd.
      * destruct (lookup_lt_is_Some_2 bytes (Z.to_nat (va' - va))) as [c Hc]; [lia|].
        rewrite (at_lookup _ _ _ Hc). cbn. unfold upa. rewrite Hpa.
        replace (p + va' mod PGSIZE) with (p + va mod PGSIZE + Z.of_nat (Z.to_nat (va' - va))) by lia.
        by apply load8_store_bytes_in.
      * cbn. unfold upa. rewrite Hpa. apply load8_store_bytes_out. lia.
    + rewrite decide_False.
      * apply Hso. destruct (fr_page _ _ _ (uv_frames _ _ _ _ _ Hu) p') as (Hpp' & _ & _);
          [by eapply list_elem_of_lookup_2|].
        destruct (page_apart p' p Hpp' Hpp Hne); unfold PGSIZE in *; lia.
      * intros Hd. apply Hne. destruct (same_page_offset va (va' - va) Hva) as [Hsp _]; [lia|].
        replace (va + (va' - va)) with va' in Hsp by lia.
        unfold same_page in Hsp. fold (vpn va) (vpn va') in Hsp. congruence.
Qed.

(** Only the user pages are accessible. *)
Definition only_user (m : gmap Z Z) (root n : Z) : Prop :=
  forall va, is_u32 va -> accessible m root va = true -> vpn va < n.

Lemma only_user_zero m root n :
  (forall va, is_u32 va -> n <= vpn va -> pte_of m root va = 0) -> only_user m root n.
Proof.
  intros Hz va Hva Ha. destruct (Z.lt_ge_cases (vpn va) n) as [H|H]; [exact H|].
  unfold accessible in Ha. rewrite Hz, is_set_0 in Ha by done. discriminate Ha.
Qed.

Lemma vpn_nonneg va : is_u32 va -> 0 <= vpn va.
Proof. unfold vpn, is_u32, PGSIZE. intros. Z.div_mod_to_equations. lia. Qed.

Lemma uvm_user_table T F root pas s :
  uvm T F root pas s -> only_user (mem s) root (Z.of_nat (length pas)) -> user_table T (mem s) root.
Proof.
  intros Hu Hou. split; [apply Hu|]. intros va Hva Ha. pose proof (vpn_nonneg va Hva).
  pose proof (Hou va Hva Ha). destruct (lookup_lt_is_Some_2 pas (Z.to_nat (vpn va))) as [p Hp]; [lia|].
  destruct (uv_mapped _ _ _ _ _ Hu _ _ Hp) as (_ & _ & E).
  pose proof (uv_low _ _ _ _ _ Hu).
  rewrite (pte_of_same_page _ _ ((0 + Z.of_nat (Z.to_nat (vpn va))) * PGSIZE)), E;
    [|apply page_addr_u32; lia|done|apply same_page_mul; lia].
  destruct (fr_page _ _ _ (uv_frames _ _ _ _ _ Hu) p) as (Hpp & _); [by eapply list_elem_of_lookup_2|].
  pose proof (page_pos p Hpp). lia.
Qed.

Lemma accessible_ptes m m' root :
  (forall va, pte_of m' root va = pte_of m root va) -> forall va, accessible m' root va = accessible m root va.
Proof. intros H va. unfold accessible. by rewrite H. Qed.
Lemma only_user_ptes m m' root n :
  (forall va, pte_of m' root va = pte_of m root va) -> only_user m root n -> only_user m' root n.
Proof. intros H Ho va Hva Ha. apply Ho; [done|]. by rewrite <- (accessible_ptes _ _ _ H). Qed.

Lemma uvm_same T F root pas s s' :
  uvm T F root pas s -> mem s' = mem s -> freelist s' = freelist s -> settled s' -> lock_free LKmem s' ->
  uvm T F root pas s'.
Proof.
  intros [[Hok [_ _ (l & [K1 K2 K3] & HF)] Hd] Hm Hfr Hlow] Em Ef Hs Hl.
  split; [split; [by rewrite Em|split; [done|done|]|done]|by rewrite Em|done|done].
  exists l. split; [|done]. split; [by rewrite Em, Ef|done|done].
Qed.

(** What a copy of the first [k] bytes of [src] to [va] leaves. *)
Record copied_out (T F : gset Z) (root : Z) (pas : list Z) (va : Z) (src : list Z) (k : nat)
    (s s' : kstate) : Prop := {
  co_uvm : uvm T F root pas s';
  co_step : vstep (list_to_set pas) s s';
  co_ptes : forall va', pte_of (mem s') root va' = pte_of (mem s) root va';
  co_bytes : forall va', is_u32 va' -> vpn va' < Z.of_nat (length pas) ->
    ubyte (mem s') root va' = if decide (va <= va' < va + Z.of_nat k)
                              then u8 (at_ src (Z.to_nat (va' - va))) else ubyte (mem s) root va';
}.

Lemma copied_out_0 T F root pas va src s :
  uvm T F root pas s -> copied_out T F root pas va src 0 s s.
Proof.
  intros Hu. split; [done|apply vstep_refl|done|]. intros va' _ _.
  rewrite decide_False by lia. done.
Qed.

Lemma copied_out_app T F root pas va src k1 k2 s s1 s2 :
  copied_out T F root pas va (take k1 src) k1 s s1 -> (k1 <= length src)%nat ->
  copied_out T F root pas (va + Z.of_nat k1) (drop k1 src) k2 s1 s2 ->
  copied_out T F root pas va src (k1 + k2) s s2.
Proof.
  intros [Hu1 Hv1 Hp1 Hb1] Hk [Hu2 Hv2 Hp2 Hb2]. split; [done|by eapply vstep_trans| |].
  - intros va'. by rewrite Hp2, Hp1.
  - intros va' Hva' Hv. rewrite Hb2, Hb1 by done. unfold at_.
    repeat case_decide; try lia; try done.
    + rewrite !nth_lookup, lookup_drop. repeat f_equal. lia.
    + rewrite !nth_lookup, lookup_take_lt by lia. done.
Qed.

Lemma copyout_loop_spec T F root pas fuel : forall va src len s,
  uvm T F root pas s -> only_user (mem s) root (Z.of_nat (length pas)) ->
  is_u32 va -> len = Z.of_nat (length src) -> va + len <= 2 ^ 32 ->
  len <= in_page va + Z.of_nat fuel * PGSIZE - PGSIZE ->
  exists r k s', copyout_loop fuel root va src len s = Ok r s' /\
    copied_out T F root pas va src k s s' /\ Z.of_nat k <= len /\
    range_ok (mem s) root va (Z.of_nat k) /\
    ((r = 0 /\ Z.of_nat k = len) \/ (r = -1 /\ Z.of_nat k < len /\
       accessible (mem s) root (va + Z.of_nat k) = false)).
Proof.
  induction fuel as [|fuel IH]; intros va src len s Hu Hou Hva Hlen Hlim Hfuel; cbn [copyout_loop].
  { pose proof (in_page_pos va). rewrite (proj2 (Z.leb_le _ _)) by lia. exists 0, 0%nat, s.
    split_and!; [done|by apply copied_out_0|lia|by intros va' ?; lia|left; lia]. }
  destruct (Z.leb_spec len 0).
  { exists 0, 0%nat, s.
    split_and!; [done|by apply copied_out_0|lia|by intros va' ?; lia|left; lia]. }
  pose proof (uvm_user_table _ _ _ _ _ Hu Hou) as Hut.
  destruct (page_start_u32 va Hva) as [Hu0 Hsp0]. destruct (rounddown_eq va Hva) as (E0 & E1 & E2).
  erewrite bind_ok by by eapply walkaddr_ok.
  rewrite (accessible_same_page _ _ va) by done.
  destruct (accessible (mem s) root va) eqn:Hacc.
  2:{ cbn [Z.eqb]. exists (-1), 0%nat, s. rewrite Z.add_0_r.
      split_and!; [done|by apply copied_out_0|lia|by intros va' ?; lia|right; split_and!; [done|lia|done]]. }
  rewrite (pte_of_same_page _ _ va) by done.
  rewrite (proj2 (Z.eqb_neq _ _)) by (by apply (ut_nonzero _ _ _ Hut)). unfold upd_mem. msimp.
  rewrite E1, E2. pose proof (in_page_pos va) as Hip. set (n := Z.min (in_page va) len).
  replace (PTE2PA (pte_of (mem s) root va) + (va - PGROUNDDOWN va)) with (upa (mem s) root va)
    by (unfold upa; lia).
  assert (range_ok (mem s) root va n) as Hr0.
  { intros va' Hv. destruct (same_page_offset va (va' - va) Hva) as [Hsp _]; [lia|].
    replace (va + (va' - va)) with va' in Hsp by lia.
    rewrite (accessible_same_page _ _ va); [done|done|unfold is_u32 in *; lia|done]. }
  assert (length (take (Z.to_nat n) src) = Z.to_nat n) as Hlt by (rewrite length_take; lia).
  destruct (uvm_store T F root pas va (take (Z.to_nat n) src) s) as (Hu1 & Hvs1 & Hpt1 & Hb1);
    [done|done|by apply Hou|lia|]. rewrite Hlt in Hb1.
  set (s1 := set_mem (store_bytes _ _ _) s) in *.
  assert (forall va', accessible (mem s1) root va' = accessible (mem s) root va') as Hacc1
    by (intros va'; unfold accessible; by rewrite Hpt1).
  assert (copied_out T F root pas va (take (Z.to_nat n) src) (Z.to_nat n) s s1) as Hco1 by done.
  destruct (decide (len <= in_page va)) as [Hlast|Hmore].
  - assert (n = len) as Hn by lia. rewrite Hn in *. rewrite Z.sub_diag. exists 0, (Z.to_nat len), s1.
    rewrite take_ge in Hco1 by lia. rewrite Z2Nat.id by lia.
    split_and!; [by destruct fuel|done|lia|done|by left].
  - assert (n = in_page va) as Hn by lia. rewrite Hn in *.
    rewrite u32_small by (unfold is_u32 in *; lia).
    destruct (IH (va + in_page va) (drop (Z.to_nat (in_page va)) src) (len - in_page va) s1)
      as (r & k & s2 & Hr & Hco2 & Hk & Hrk & Hres); [done| |unfold is_u32 in *; lia| |lia| |].
    { intros va' H1 H2. rewrite Hacc1 in H2. by apply Hou. }
    { rewrite length_drop. lia. }
    { assert (in_page (va + in_page va) = PGSIZE) as ->; [|lia].
      unfold in_page, PGSIZE. Z.div_mod_to_equations. lia. }
    exists r, (Z.to_nat (in_page va) + k)%nat, s2. rewrite Nat2Z.inj_add, Z2Nat.id by lia.
    split_and!; [done| |lia| |].
    + eapply copied_out_app; [done|lia|]. by rewrite Z2Nat.id by lia.
    + intros va' Hv. destruct (decide (va' < va + in_page va)); [apply Hr0; lia|].
      rewrite <- Hacc1. apply Hrk; lia.
    + rewrite Z.add_assoc, <- Hacc1.
      destruct Hres as [[-> ?]|(-> & ? & ?)]; [left; lia|right; split_and!; done || lia].
Qed.

Lemma copyout_spec T F root pas va src s :
  uvm T F root pas s -> only_user (mem s) root (Z.of_nat (length pas)) ->
  is_u32 va -> va + Z.of_nat (length src) <= 2 ^ 32 ->
  exists r k s', copyout root va src (Z.of_nat (length src)) s = Ok r s' /\
    copied_out T F root pas va src k s s' /\ (k <= length src)%nat /\
    range_ok (mem s) root va (Z.of_nat k) /\
    ((r = 0 /\ k = length src) \/ (r = -1 /\ (k < length src)%nat /\
       accessible (mem s) root (va + Z.of_nat k) = false)).
Proof.
  intros Hu Hou Hva Hlim. unfold copyout.
  destruct (copyout_loop_spec T F root pas (Z.to_nat (Z.of_nat (length src) / PGSIZE + 2))
    va src (Z.of_nat (length src)) s) as (r & k & s' & Hr & Hco & Hk & Hrk & Hres); try done.
  { apply fuel_enough. lia. }
  exists r, k, s'. split_and!; [done|done|lia|done|].
  destruct Hres as [[-> ?]|(-> & ? & ?)]; [left; lia|right; split_and!; done || lia].
Qed.

(** Bytes behind the [len] first do not matter. *)
Lemma copyout_take root fuel : forall va src len s, is_u32 va ->
  copyout_loop fuel root va src len s = copyout_loop fuel root va (take (Z.to_nat len) src) len s.
Proof.
  induction fuel as [|fuel IH]; intros va src len s Hva; cbn [copyout_loop]; [done|].
  destruct (Z.leb_spec len 0); [done|]. pose proof (in_page_pos va). pose proof (rounddown_eq va Hva). unfold mbind, M_bind. destruct (walkaddr _ _ s) as [pa t| |]; [|done..].
  destruct (pa =? 0); [done|]. set (n := Z.min _ len).
  rewrite take_take, Nat.min_l by lia.
  destruct (upd_mem _ t) as [a t'| |]; [|done..]. rewrite IH by apply u32_range. f_equal.
  rewrite take_drop_commute. do 2 f_equal. lia.
Qed.
Lemma copyout_some T F root pas va src len s :
  uvm T F root pas s -> only_user (mem s) root (Z.of_nat (length pas)) ->
  is_u32 va -> 0 <= len <= Z.of_nat (length src) -> va + len <= 2 ^ 32 ->
  exists r k s', copyout root va src len s = Ok r s' /\ copied_out T F root pas va (take (Z.to_nat len) src) k s s' /\
    ((r = 0 /\ Z.of_nat k = len) \/ (r = -1 /\ Z.of_nat k < len /\ accessible (mem s) root (va + Z.of_nat k) = false)).
Proof.
  intros Hu Ho Hva Hlen Hlim. assert (Hl : length (take (Z.to_nat len) src) = Z.to_nat len) by (rewrite length_take; lia).
  destruct (copyout_spec T F root pas va (take (Z.to_nat len) src) s) as (r & k & s' & E & Hco & Hk & _ & Hr);
    [done..|rewrite Hl; lia|].
  exists r, k, s'. rewrite Hl, Z2Nat.id in E by lia. unfold copyout in *. rewrite copyout_take by done.
  split; [exact E|]. split; [exact Hco|]. rewrite Hl in Hr. destruct Hr as [[-> ->]|(-> & ? & ?)]; [left|right]; split_and!; done || lia.
Qed.

(** ** copyinstr *)

Lemma copyinstr_bytes_spec m n : forall p,
  exists k, (copyinstr_bytes n m p).2 = load_bytes m p k /\ (k <= n)%nat /\
    if (copyinstr_bytes n m p).1 then
      exists j, k = S j /\ load8 m (p + Z.of_nat j) = 0 /\
        (forall i, 0 <= i < Z.of_nat j -> load8 m (p + i) <> 0)
    else k = n /\ (forall i, 0 <= i < Z.of_nat n -> load8 m (p + i) <> 0).
Proof.
  induction n as [|n IH]; intros p; cbn [copyinstr_bytes].
  - exists 0%nat. split_and!; [done|done|split; [done|cbn; lia]].
  - destruct (Z.eqb_spec (load8 m p) 0) as [Hz|Hz].
    + exists 1%nat. cbn. rewrite Hz. split_and!; [done|lia|]. exists 0%nat. rewrite Z.add_0_r.
      split_and!; [done|done|lia].
    + destruct (IH (p + 1)) as (k & Hk & Hle & Hres).
      destruct (copyinstr_bytes n m (p + 1)) as [g l]. cbn [fst snd] in *. exists (S k).
      assert (forall j, (forall i, 0 <= i < Z.of_nat j -> load8 m (p + 1 + i) <> 0) ->
        forall i, 0 <= i < Z.of_nat (S j) -> load8 m (p + i) <> 0) as Hshift.
      { intros j Hj i Hi. destruct (decide (i = 0)) as [->|]; [by rewrite Z.add_0_r|].
        replace (p + i) with (p + 1 + (i - 1)) by lia. apply Hj. lia. }
      split_and!; [by rewrite Hk|lia|]. destruct g.
      * destruct Hres as (j & -> & Hj & Hb). exists (S j). split_and!; [done| |by apply Hshift].
        by replace (p + Z.of_nat (S j)) with (p + 1 + Z.of_nat j) by lia.
      * destruct Hres as [-> Hb]. split; [done|by apply Hshift].
Qed.

(** The string [copyinstr] stored: [k] bytes, ended by their only NUL when it
    succeeded. *)
Definition string_read (m : gmap Z Z) (root va max : Z) (r : Z) (k : nat) : Prop :=
  range_ok m root va (Z.of_nat k) /\ Z.of_nat k <= max /\
  ((r = 0 /\ exists j, k = S j /\ ubyte m root (va + Z.of_nat j) = 0 /\
      (forall i, 0 <= i < Z.of_nat j -> ubyte m root (va + i) <> 0)) \/
   (r = -1 /\ (forall i, 0 <= i < Z.of_nat k -> ubyte m root (va + i) <> 0) /\
      (Z.of_nat k = max \/ accessible m root (va + Z.of_nat k) = false))).

Lemma string_read_app m root va max n r k :
  range_ok m root va (Z.of_nat n) -> (forall i, 0 <= i < Z.of_nat n -> ubyte m root (va + i) <> 0) ->
  string_read m root (va + Z.of_nat n) (max - Z.of_nat n) r k -> string_read m root va max r (n + k).
Proof.
  intros Hr Hb (Hrk & Hk & Hres). unfold string_read. rewrite Nat2Z.inj_add. split_and!; [|lia|].
  - intros va' Hv. destruct (decide (va' < va + Z.of_nat n)); [apply Hr; lia|apply Hrk; lia].
  - assert (forall j, (forall i, 0 <= i < j -> ubyte m root (va + Z.of_nat n + i) <> 0) ->
      forall i, 0 <= i < Z.of_nat n + j -> ubyte m root (va + i) <> 0) as Hshift.
    { intros j Hj i Hi. destruct (decide (i < Z.of_nat n)); [by apply Hb; lia|].
      replace (va + i) with (va + Z.of_nat n + (i - Z.of_nat n)) by lia. apply Hj. lia. }
    destruct Hres as [(-> & j & -> & Hj & Hbj)|(-> & Hbk & Hend)]; [left|right].
    + split; [done|]. exists (n + j)%nat. rewrite Nat2Z.inj_add, Z.add_assoc.
      split_and!; [lia|done|]. by apply Hshift.
    + rewrite Z.add_assoc. split_and!; [done|by apply Hshift|].
      destruct Hend as [?|?]; [left; lia|by right].
Qed.

Lemma copyinstr_loop_spec T root s : user_table T (mem s) root -> forall fuel va max acc,
  is_u32 va -> 0 <= max -> va + max <= 2 ^ 32 ->
  max <= in_page va + Z.of_nat fuel * PGSIZE - PGSIZE ->
  exists r k, copyinstr_loop fuel root va max acc s = Ok (r, acc ++ ubytes (mem s) root va k) s /\
    string_read (mem s) root va max r k.
Proof.
  intros Hut. induction fuel as [|fuel IH]; intros va max acc Hva Hmax Hlim Hfuel; cbn [copyinstr_loop].
  { pose proof (in_page_pos va). rewrite (proj2 (Z.leb_le _ _)) by lia. exists (-1), 0%nat.
    rewrite app_nil_r. split; [done|]. split_and!; [by intros va' ?; lia|lia|].
    right. split_and!; [done|lia|left; lia]. }
  destruct (Z.leb_spec max 0).
  { exists (-1), 0%nat. rewrite app_nil_r. split; [done|]. split_and!; [by intros va' ?; lia|lia|].
    right. split_and!; [done|lia|left; lia]. }
  destruct (page_start_u32 va Hva) as [Hu0 Hsp0]. destruct (rounddown_eq va Hva) as (E0 & E1 & E2).
  erewrite bind_ok by by eapply walkaddr_ok.
  rewrite (accessible_same_page _ _ va) by done.
  destruct (accessible (mem s) root va) eqn:Hacc.
  2:{ cbn [Z.eqb]. exists (-1), 0%nat. rewrite app_nil_r. split; [done|].
      split_and!; [by intros va' ?; lia|lia|]. right. rewrite Z.add_0_r. split_and!; [done|lia|by right]. }
  rewrite (pte_of_same_page _ _ va) by done.
  rewrite (proj2 (Z.eqb_neq _ _)) by (by apply (ut_nonzero _ _ _ Hut)). msimp. rewrite E1, E2.
  pose proof (in_page_pos va) as Hip. set (n := Z.min (in_page va) max).
  replace (PTE2PA (pte_of (mem s) root va) + (va - PGROUNDDOWN va)) with (upa (mem s) root va)
    by (unfold upa; lia).
  assert (forall k, Z.of_nat k <= n -> range_ok (mem s) root va (Z.of_nat k)) as Hr0.
  { intros k Hk va' Hv. destruct (same_page_offset va (va' - va) Hva) as [Hsp _]; [lia|].
    replace (va + (va' - va)) with va' in Hsp by lia.
    rewrite (accessible_same_page _ _ va); [done|done|unfold is_u32 in *; lia|done]. }
  assert (forall i, 0 <= i < n -> load8 (mem s) (upa (mem s) root va + i) = ubyte (mem s) root (va + i)) as Hub.
  { intros i Hi. unfold ubyte. by rewrite upa_offset by (unfold is_u32 in *; lia || done). }
  destruct (copyinstr_bytes_spec (mem s) (Z.to_nat n) (upa (mem s) root va)) as (k & Hk & Hle & Hres).
  destruct (copyinstr_bytes (Z.to_nat n) (mem s) (upa (mem s) root va)) as [g l]. cbn [fst snd] in *.
  rewrite Hk, <- ubytes_page by (done || lia). destruct g.
  - destruct Hres as (j & -> & Hj & Hb). exists 0, (S j). split; [done|].
    split_and!; [apply Hr0; lia|lia|]. left. split; [done|]. exists j. rewrite <- Hub by lia.
    split_and!; [done|done|]. intros i Hi. rewrite <- Hub by lia. by apply Hb.
  - destruct Hres as [-> Hb].
    assert (forall i, 0 <= i < Z.of_nat (Z.to_nat n) -> ubyte (mem s) root (va + i) <> 0) as Hb'.
    { intros i Hi. rewrite <- Hub by lia. by apply Hb. }
    destruct (decide (max <= in_page va)) as [Hlast|Hmore].
    + assert (n = max) as Hn by lia. rewrite Hn in *. rewrite Z.sub_diag. exists (-1), (Z.to_nat max).
      split; [by destruct fuel|]. split_and!; [apply Hr0; lia|lia|]. right. split_and!; [done|done|left; lia].
    + assert (n = in_page va) as Hn by lia. rewrite Hn in *.
      rewrite u32_small by (unfold is_u32 in *; lia).
      destruct (IH (va + in_page va) (max - in_page va) (acc ++ ubytes (mem s) root va (Z.to_nat (in_page va))))
        as (r & k & Hr & Hsr); [unfold is_u32 in *; lia|lia|lia| |].
      { assert (in_page (va + in_page va) = PGSIZE) as ->; [|lia].
        unfold in_page, PGSIZE. Z.div_mod_to_equations. lia. }
      exists r, (Z.to_nat (in_page va) + k)%nat. rewrite ubytes_app, app_assoc, Z2Nat.id by lia.
      split; [done|]. apply string_read_app; [apply Hr0; lia|done|]. by rewrite Z2Nat.id by lia.
Qed.

(** C27: [copyout] of [src] to user address [va] writes exactly the accessible
    prefix of the range.  It returns 0 exactly when every address of
    [va, va + len) is mapped for the user, and then a user read of any address
    of the process gives the new byte inside the range and the old byte
    outside; otherwise it returns -1 and only a prefix that ends at an
    inaccessible address was written.  A following [copyin] of the range
    returns 0 and the bytes of [src]. *)
Theorem copyout_copyin T F root pas va src s :
  uvm T F root pas s -> only_user (mem s) root (Z.of_nat (length pas)) ->
  is_u32 va -> va + Z.of_nat (length src) <= 2 ^ 32 ->
  exists r k s', copyout root va src (Z.of_nat (length src)) s = Ok r s' /\
    copied_out T F root pas va src k s s' /\
    (r = 0 /\ k = length src /\ range_ok (mem s) root va (Z.of_nat (length src)) /\
       copyin root va (Z.of_nat (length src)) s' = Ok (0, u8 <$> src) s' \/
     r = -1 /\ (k < length src)%nat /\ range_ok (mem s) root va (Z.of_nat k) /\
       accessible (mem s) root (va + Z.of_nat k) = false).
Proof.
  intros Hu Hou Hva Hlim.
  destruct (copyout_spec T F root pas va src s) as (r & k & s' & Hr & Hco & Hk & Hrk & Hres); [done..|].
  exists r, k, s'. split_and!; [done|done|].
  destruct Hres as [[-> ->]|(-> & ? & ?)]; [left|by right; split_and!; [|done|exact Hrk|done]]. split_and!; try done.
  destruct Hco as [Hu' _ Hpt Hb].
  assert (forall va', accessible (mem s') root va' = accessible (mem s) root va') as Hacc
    by (intros va'; unfold accessible; by rewrite Hpt).
  destruct (copyin_spec T root s' va (Z.of_nat (length src))) as (r & k & Hr' & Hk' & _ & Hres); try done.
  { eapply uvm_user_table; [done|]. intros va' H1 H2. rewrite Hacc in H2. by apply Hou. }
  { lia. }
  rewrite Hr'. destruct Hres as [[-> Ek]|(_ & Hlt & Hna)].
  - f_equal. f_equal. apply list_eq. intros i. rewrite list_lookup_fmap.
    destruct (decide (i < length src)%nat) as [Hi|Hi].
    + rewrite lookup_ubytes by lia. destruct (lookup_lt_is_Some_2 src i Hi) as [c Hc]. rewrite Hc. cbn.
      assert (is_u32 (va + Z.of_nat i)) as Hui by (unfold is_u32 in *; lia).
      rewrite Hb, decide_True; [|lia|done|by apply Hou, Hrk; [|lia]].
      replace (Z.to_nat (va + Z.of_nat i - va)) with i by lia. by rewrite (at_lookup _ _ _ Hc).
    + rewrite !lookup_ge_None_2; [done|lia|rewrite length_ubytes; lia].
  - exfalso. rewrite Hacc, Hrk in Hna by lia. done.
Qed.

(** [copyinstr] stores a NUL-terminated user string: it returns 0 exactly
    when a NUL is found within [max] accessible bytes from [va], and then the
    bytes stored are the user's up to and including the first NUL; otherwise it
    returns -1, having met [max] bytes or an inaccessible address without
    meeting a NUL.  It never changes the state. *)
Theorem copyinstr_correct T root va max s :
  user_table T (mem s) root -> is_u32 va -> 0 <= max -> va + max <= 2 ^ 32 ->
  exists r k, copyinstr root va max s = Ok (r, ubytes (mem s) root va k) s /\
    string_read (mem s) root va max r k.
Proof.
  intros Hut Hva Hmax Hlim. unfold copyinstr.
  destruct (copyinstr_loop_spec T root s Hut (Z.to_nat (max / PGSIZE + 2)) va max [])
    as (r & k & Hr & Hsr); try done.
  { by apply fuel_enough. }
  by exists r, k.
Qed.
End UserCopy.

#[local] Existing Instance test_layout.
#[local] Existing Instance test_layout_ok.

Lemma copyout_copyin_witness :
  exists r s', copyout test_root 4090 [1; 2; 3; 4; 5; 6; 7; 8; 9; 10] 10 test_grown = Ok r s'.
Proof.
  destruct test_grown_uvm as (T & F & pas & Hu & Hlen & Hz).
  destruct (@copyout_copyin test_layout test_layout_ok T F test_root pas 4090
    [1; 2; 3; 4; 5; 6; 7; 8; 9; 10] test_grown Hu) as (r & k & s' & Hr & _).
  - rewrite Hlen. exact (only_user_zero _ _ _ Hz).
  - unfold is_u32. lia.
  - cbn. lia.
  - exists r, s'. exact Hr.
Defined.

Lemma copyinstr_correct_witness :
  exists r k, copyinstr test_root 4090 100 test_grown =
    Ok (r, ubytes (mem test_grown) test_root 4090 k) test_grown.
Proof.
  destruct test_grown_uvm as (T & F & pas & Hu & Hlen & Hz).
  destruct (@copyinstr_correct test_layout test_layout_ok T test_root 4090 100 test_grown)
    as (r & k & Hr & _).
  - eapply uvm_user_table; [exact Hu|]. rewrite Hlen. exact (only_user_zero _ _ _ Hz).
  - unfold is_u32. lia.
  - lia.
  - lia.
  - exists r, k. exact Hr.
Defined.
