(* ===== verification/ProcVm.v ===== *)
(** * The address space of a process: proc_pagetable, proc_freepagetable,
    allocproc and freeproc (kernel/proc.c)

    Besides its user pages, the page table of a process maps the trampoline and
    the process's trap frame at the top of the address space.  Making such a
    table and tearing it down, and taking and giving back an entry of the
    process table, conserve the pages of the allocator. *)
From S2P Require Import Prelude Memory Machine Platform Sv32 Spinlock Kalloc Vm Proc.
From S2P Require Import ProcSpec VmSpec UserVm UserCopy.
From stdpp Require Import gmap strings countable prelude.

Open Scope Z_scope.
#[local] Opaque memset.

Section ProcVm.
Context {L : Layout} {LO : LayoutOk L}.

(** Page numbers of the trampoline and of the trap frame. *)
Abbreviation tramp_vpn := 1048575.
Abbreviation tf_vpn := 1048574.
Lemma TRAMPOLINE_eq : TRAMPOLINE = tramp_vpn * PGSIZE.
Proof. reflexivity. Qed.
Lemma TRAPFRAME_eq : TRAPFRAME = tf_vpn * PGSIZE.
Proof. reflexivity. Qed.

(** The entry for an address above the user pages. *)
Definition high_pte (tf va : Z) : Z :=
  if decide (vpn va = tramp_vpn) then leaf_pte trampoline (Z.lor PTE_R PTE_X)
  else if decide (vpn va = tf_vpn) then leaf_pte tf (Z.lor PTE_R PTE_W) else 0.

(** The table at [root] is that of a process with the user pages [pas] and the
    trap frame [tf]. *)
Record pspace (T F : gset Z) (root : Z) (pas : list Z) (tf : Z) (s : kstate) : Prop := {
  ps_uvm : uvm T F root pas s;
  ps_high : forall va, is_u32 va -> Z.of_nat (length pas) <= vpn va ->
    pte_of (mem s) root va = high_pte tf va;
  ps_room : Z.of_nat (length pas) <= tf_vpn;
  ps_page : page tf;
}.

Lemma trampoline_pte :
  let v := leaf_pte trampoline (Z.lor PTE_R PTE_X) in
  is_set v PTE_V = true /\ PTE_FLAGS v = 75 /\ PTE2PA v = trampoline.
Proof.
  assert (is_u32 trampoline) as Hu.
  { pose proof trampoline_range. pose proof kend_range. unfold is_u32, KERNBASE, PHYSTOP, KERNBASE in *. lia. }
  by destruct (leaf_pte_ok trampoline (Z.lor PTE_R PTE_X) trampoline_aligned Hu) as (? & ? & ? & ?).
Qed.

Lemma tf_pte tf : page tf ->
  let v := leaf_pte tf (Z.lor PTE_R PTE_W) in
  is_set v PTE_V = true /\ PTE_FLAGS v = 199 /\ PTE2PA v = tf.
Proof.
  intros Hp. by destruct (leaf_pte_ok tf (Z.lor PTE_R PTE_W) (proj1 Hp) (page_u32 tf Hp)) as (? & ? & ? & ?).
Qed.

Lemma vpn_u32 va : is_u32 va -> 0 <= vpn va < 2 ^ 20.
Proof. unfold is_u32, vpn, PGSIZE. intros. Z.div_mod_to_equations. lia. Qed.

(** The pages above the user's are not accessible from user mode. *)
Lemma pspace_only_user T F root pas tf s :
  pspace T F root pas tf s -> only_user (mem s) root (Z.of_nat (length pas)).
Proof.
  intros [_ Hh _ Hp] va Hva Ha. destruct (Z.lt_ge_cases (vpn va) (Z.of_nat (length pas))) as [|Hge]; [done|].
  exfalso. revert Ha. unfold accessible. rewrite Hh by done. unfold high_pte.
  destruct trampoline_pte as (_ & Ht & _), (tf_pte tf Hp) as (_ & Hf & _). cbv zeta in *.
  assert (forall v n, PTE_FLAGS v = n -> Z.land n PTE_U = 0 -> is_set v PTE_U = false) as Hu.
  { intros v n E1 E2. unfold is_set. rewrite land_flags, E1, E2 by done. done. }
  repeat case_decide; rewrite ?is_set_0, ?andb_false_r; [|  |done];
    [rewrite (Hu _ 75 Ht)|rewrite (Hu _ 199 Hf)]; by rewrite ?andb_false_r.
Qed.

(** Unmapping one page that is kept. *)
Lemma unmap_one T F root n pa s :
  space T F root s -> 0 <= n < 2 ^ 20 ->
  (let v := pte_of (mem s) root (n * PGSIZE) in
   is_set v PTE_V = true /\ PTE_FLAGS v <> PTE_V /\ PTE2PA v = pa) ->
  exists s', uvmunmap root (n * PGSIZE) 1 false s = Ok tt s' /\ space T F root s' /\ vstep T s s' /\
    (forall va, is_u32 va -> pte_of (mem s') root va = if decide (vpn va = n) then 0 else pte_of (mem s) root va).
Proof.
  intros Hsp Hn Hv.
  destruct (uvmunmap_spec false root [pa] n T F s) as (s' & Hr & Hsp' & Hvs & Hpt); [done|lia|cbn; lia| |done|].
  { intros [|i] q Hi; [|done]. injection Hi as <-. by rewrite Z.add_0_r. }
  cbn [freed_frames length] in *. rewrite union_empty_l_L in *. exists s'. split_and!; try done.
  intros va Hva. rewrite Hpt by done. unfold unmap_pages. repeat case_decide; done || lia.
Qed.

(** ** proc_freepagetable *)

Lemma proc_freepagetable_spec T F root pas tf sz s :
  pspace T F root pas tf s -> 0 <= sz <= TRAPFRAME -> npages sz = Z.of_nat (length pas) ->
  exists s', proc_freepagetable root sz s = Ok tt s' /\ free_pages (list_to_set pas ∪ (F ∪ T)) s' /\
    vstep (list_to_set pas ∪ (F ∪ T)) s s'.
Proof.
  intros [Hu Hh Hroom Hp] Hsz Hn. unfold proc_freepagetable. rewrite TRAMPOLINE_eq, TRAPFRAME_eq.
  destruct trampoline_pte as (Hv1 & Hf1 & _), (tf_pte tf Hp) as (Hv2 & Hf2 & _). cbv zeta in *.
  assert (forall n, Z.of_nat (length pas) <= n < 2 ^ 20 ->
    pte_of (mem s) root (n * PGSIZE) = high_pte tf (n * PGSIZE)) as Hh'.
  { intros n Hn'. apply Hh; [apply page_addr_u32; lia|]. rewrite vpn_mul. lia. }
  destruct (unmap_one T F root tramp_vpn (PTE2PA (pte_of (mem s) root (tramp_vpn * PGSIZE))) s)
    as (s1 & Hr1 & Hsp1 & Hvs1 & Hpt1); [apply Hu|done| |].
  { rewrite Hh' by lia. unfold high_pte. rewrite vpn_mul, decide_True by done. split_and!; [done| |done].
    by rewrite Hf1. }
  erewrite bind_ok by exact Hr1.
  destruct (unmap_one T F root tf_vpn (PTE2PA (pte_of (mem s1) root (tf_vpn * PGSIZE))) s1)
    as (s2 & Hr2 & Hsp2 & Hvs2 & Hpt2); [done|done| |].
  { rewrite Hpt1, Hh' by (done || lia). unfold high_pte. rewrite vpn_mul, !decide_False, decide_True by done.
    split_and!; [done| |done]. by rewrite Hf2. }
  erewrite bind_ok by exact Hr2.
  assert (forall va, is_u32 va -> vpn va < Z.of_nat (length pas) ->
    pte_of (mem s2) root va = pte_of (mem s) root va) as Hlow.
  { intros va Hva Hv. rewrite Hpt2, Hpt1 by done. rewrite !decide_False by lia. done. }
  destruct (uvmfree_spec T F root pas sz s2) as (s3 & Hr3 & HF3 & Hvs3).
  - destruct Hu as [_ Hm Hfr Hl]. split; [done| |done|done]. eapply mapped_ext; [|done].
    intros i Hi. apply Hlow; [apply page_addr_u32; lia|]. rewrite vpn_mul. lia.
  - change TRAPFRAME with 4294959104 in Hsz. unfold PGSIZE. lia.
  - done.
  - intros va Hva Hv. rewrite Hpt2, Hpt1 by done. rewrite Hh by done. unfold high_pte.
    repeat case_decide; try done; apply is_set_0.
  - exists s3. split_and!; [done..|]. eapply vstep_trans; [|exact Hvs3].
    eapply vstep_mono; [|by eapply vstep_trans]. clear; set_solver.
Qed.

(** ** proc_pagetable *)

Lemma empty_uvm T F root s : space T F root s -> uvm T F root [] s.
Proof. intros Hsp. split; [done|by intros i pa Hi|split; [constructor|by intros pa Hpa%not_elem_of_nil]|done]. Qed.

(** A table that maps nothing is given back. *)
Lemma give_back F T' F' root s s' :
  space T' F' root s' -> F' ∪ T' = F -> vstep F s s' ->
  (forall va, is_u32 va -> pte_of (mem s') root va = 0) ->
  exists s'', (uvmfree root 0 ;; mret 0) s' = Ok 0 s'' /\ vstep F s s'' /\ free_pages F s''.
Proof.
  intros Hsp' HU Hvs Hz.
  destruct (uvmfree_spec T' F' root [] 0 s') as (s2 & Hr2 & HF2 & Hvs2);
    [by apply empty_uvm|unfold PGSIZE; lia|done|intros va Hva _; by rewrite Hz, is_set_0|].
  rewrite list_to_set_nil, union_empty_l_L, HU in *. erewrite bind_ok by exact Hr2.
  exists s2. split_and!; [done| |done]. by eapply vstep_trans.
Qed.

Lemma proc_pagetable_spec F i tf s :
  free_pages F s -> p_trapframe (proc_of s i) = tf -> page tf ->
  exists r s', proc_pagetable i s = Ok r s' /\ vstep F s s' /\
    ((r = 0 /\ free_pages F s' /\ (size F <= 2)%nat) \/
     (r <> 0 /\ exists T' F', F' ∪ T' = F /\ (size F <= size F' + 3)%nat /\ pspace T' F' r [] tf s')).
Proof.
  intros HF Htf Hp. unfold proc_pagetable.
  destruct (uvmcreate_spec F s HF) as [[-> Hr]|(root & s1 & Hr & Hin & Hsp1 & Hvs1 & Hz1)];
    erewrite bind_ok by exact Hr.
  { exists 0, s. split_and!; [done|apply vstep_refl|]. left. split_and!; [done|done|rewrite size_empty; lia]. }
  assert (page root) as Hproot by (by eapply free_pages_page).
  pose proof (page_pos root Hproot). rewrite (proj2 (Z.eqb_neq root 0)) by lia.
  assert ((F ∖ {[root]}) ∪ {[root]} = F) as HF1.
  { clear -Hin. apply set_eq. intros x. destruct (decide (x = root)) as [->|]; set_solver. }
  assert (forall P, P ⊆ F -> forall a b, vstep P a b -> vstep F a b) as Hmono
    by (intros P HP a b; by apply vstep_mono).
  rewrite TRAMPOLINE_eq.
  destruct (map_one {[root]} (F ∖ {[root]}) root tramp_vpn trampoline (Z.lor PTE_R PTE_X) s1)
    as (r2 & s2 & T2 & F2 & Hr2 & Hsp2 & _ & HU2 & Hvs2 & Hrr2 & Hpt2); [done|done| |by rewrite Hz1, is_set_0|].
  { pose proof trampoline_range. pose proof kend_range. unfold is_u32, KERNBASE, PHYSTOP, KERNBASE in *. lia. }
  rewrite HF1 in HU2, Hvs2. erewrite bind_ok by exact Hr2. pose proof (size_remove F root) as Hsz1.
  assert (vstep F s s2) as Hvs12.
  { eapply vstep_trans; [|exact Hvs2]. apply (Hmono {[root]}); [|done]. clear -Hin. set_solver. }
  destruct Hrr2 as [[-> Hsz2]|[-> HF2]]; cbn [Z.ltb Z.compare].
  2:{ destruct (give_back F T2 F2 root s s2) as (s3 & E3 & V3 & F3); [done..| |].
      { intros va Hva. rewrite Hpt2, Hz1 by done. by rewrite decide_False by lia. }
      exists 0, s3. split_and!; [done|done|]. left. split_and!; [done|done|].
      rewrite HF2, size_empty in Hsz1. lia. }
  rewrite bind_gets.
  assert (p_trapframe (proc_of s2 i) = tf) as ->.
  { destruct Hvs12 as (_ & m' & fl & ->). done. }
  rewrite TRAPFRAME_eq.
  destruct (map_one T2 F2 root tf_vpn tf (Z.lor PTE_R PTE_W) s2)
    as (r3 & s3 & T3 & F3 & Hr3 & Hsp3 & _ & HU3 & Hvs3 & Hrr3 & Hpt3);
    [done|done|by apply page_u32|rewrite Hpt2, Hz1 by done; rewrite vpn_mul; by rewrite decide_False by lia|].
  rewrite HU2 in HU3, Hvs3. erewrite bind_ok by exact Hr3.
  assert (vstep F s s3) as Hvs13 by (by eapply vstep_trans).
  destruct Hrr3 as [[-> Hsz3]|[-> HF3]]; cbn [Z.ltb Z.compare].
  - exists root, s3. split_and!; [done|done|]. right. split; [lia|]. exists T3, F3. split_and!; [done|lia|].
    split; [by apply empty_uvm| |cbn; lia|done]. intros va Hva _. rewrite Hpt3, Hpt2, Hz1 by done.
    unfold high_pte. repeat case_decide; done || lia.
  - destruct (unmap_one T3 F3 root tramp_vpn (PTE2PA (pte_of (mem s3) root (tramp_vpn * PGSIZE))) s3)
      as (s4 & Hr4 & Hsp4 & Hvs4 & Hpt4); [done|done| |].
    { destruct trampoline_pte as (Hv1 & Hf1 & _). rewrite Hpt3, decide_False, Hpt2 by (done || lia).
      rewrite vpn_mul, decide_True by done. split_and!; [done| |done]. by rewrite Hf1. }
    erewrite bind_ok by exact Hr4.
    destruct (give_back F T3 F3 root s s4) as (s5 & E5 & V5 & F5); [done..| | |].
    { eapply vstep_trans; [done|]. apply (Hmono T3); [|done]. rewrite <- HU3. clear; set_solver. }
    { intros va Hva. rewrite Hpt4, Hpt3, Hpt2, Hz1 by done. repeat case_decide; done || lia. }
    exists 0, s5. split_and!; [done|done|]. left. split_and!; [done|done|].
    rewrite HF3, size_empty in Hsz2. lia.
Qed.

(** ** What the table of pages depends on *)

Lemma free_pages_same F s s' :
  free_pages F s -> settled s' -> locks s' !! LKmem = locks s !! LKmem -> mem s' = mem s ->
  freelist s' = freelist s -> free_pages F s'.
Proof.
  intros [_ Hl (l & [Hc Hn Hp] & HF)] Hs' El Em Ef. split; [done|by unfold lock_free; rewrite El|].
  exists l. split; [|done]. split; [by rewrite Em, Ef|done|done].
Qed.

Lemma pspace_same T F root pas tf s s' :
  pspace T F root pas tf s -> mem s' = mem s -> free_pages F s' -> pspace T F root pas tf s'.
Proof.
  intros [[[Hok _ Hd] Hm Hfr Hl] Hh Hr Hp] Em HF. split; [split|..]; rewrite ?Em; try done.
  split; [by rewrite Em|done|done].
Qed.

Lemma settled_upd_proc i f s : settled s -> settled (upd_proc i f s).
Proof. intros []; by split. Qed.

Lemma free_pages_upd_proc F i f s : free_pages F s -> free_pages F (upd_proc i f s).
Proof. intros HF. eapply free_pages_same; [done|apply settled_upd_proc, HF|done..]. Qed.

Lemma free_pages_acq F lk s : free_pages F s -> lk <> LKmem -> free_pages F (acq lk s).
Proof.
  intros HF Hne. eapply free_pages_same; [done|apply settled_acq, HF| |done|done].
  cbn. by rewrite lookup_insert_ne.
Qed.

(** Steps of the memory operations commute with the process table. *)
Lemma vstep_upd_proc P i f s s' :
  vstep P (upd_proc i f s) s' -> exists s0, s' = upd_proc i f s0 /\ vstep P s s0.
Proof.
  intros (Ha & m' & fl & ->). exists (set_mem m' (set_freelist fl s)). split; [done|]. split; [done|].
  by exists m', fl.
Qed.

Lemma vstep_procs P s s' : vstep P s s' -> procs s' = procs s.
Proof. by intros (_ & m' & fl & ->). Qed.

(** ** freeproc *)

(** What [freeproc] makes of an entry. *)
Definition cleared (p : proc) : proc :=
  set_p_state UNUSED (set_p_xstate 0 (set_p_killed 0 (set_p_chan None
    (set_p_name (splice (p_name p) 0 [0]) (set_p_parent None (set_p_pid 0 (set_p_sz 0
      (set_p_pagetable 0 (set_p_trapframe 0 p))))))))).

(** A process with its memory: the user pages [pas], the pages [T] of its table
    and its trap frame, apart from each other and from the free pages [F]. *)
Record owns (T F : gset Z) (pas : list Z) (p : proc) (s : kstate) : Prop := {
  ow_space : pspace T F (p_pagetable p) pas (p_trapframe p) s;
  ow_tf : p_trapframe p ∉ list_to_set pas ∪ (F ∪ T);
  ow_sz : 0 <= p_sz p <= TRAPFRAME;
  ow_pages : npages (p_sz p) = Z.of_nat (length pas);
}.
Definition owned (T : gset Z) (pas : list Z) (p : proc) : gset Z :=
  {[p_trapframe p]} ∪ (list_to_set pas ∪ T).

(** The pages an entry of the process table owns: none, only a trap frame, or
    those of a whole process. *)
Inductive pmem (F : gset Z) (p : proc) (s : kstate) : gset Z -> Prop :=
| pmem_none : p_trapframe p = 0 -> p_pagetable p = 0 -> pmem F p s ∅
| pmem_tf : page (p_trapframe p) -> p_trapframe p ∉ F -> p_pagetable p = 0 ->
    pmem F p s {[p_trapframe p]}
| pmem_all T pas : owns T F pas p s -> pmem F p s (owned T pas p).

Lemma pspace_kfree T F root pas tf s :
  pspace T F root pas tf s -> tf ∉ list_to_set pas ∪ (F ∪ T) ->
  exists s', kfree tf s = Ok tt s' /\ vstep {[tf]} s s' /\ pspace T ({[tf]} ∪ F) root pas tf s'.
Proof.
  intros [[Hsp Hm [Hnd Hfr] Hl] Hh Hr Hp] Hni.
  destruct (space_kfree T F root tf s Hsp Hp) as (s' & E & Hsp' & Hvs & Hpt & _); [clear -Hni; set_solver..|].
  exists s'. split_and!; [done|done|]. split; [split|..]; try done.
  - eapply mapped_ext; [|done]. intros i _. apply Hpt.
  - split; [done|]. intros pa Hpa. destruct (Hfr pa Hpa) as (? & ? & ?). split_and!; [done|done|].
    intros [->%elem_of_singleton|]%elem_of_union; [|done]. apply Hni, elem_of_union_l. by apply elem_of_list_to_set.
  - intros va Hva Hv. rewrite Hpt. by apply Hh.
Qed.

Lemma pspace_root_pos T F root pas tf s : pspace T F root pas tf s -> 0 < root.
Proof.
  intros [[[Hok _ _] _ _ _] _ _ _]. apply page_pos. eapply pt_pages; [done|apply Hok].
Qed.

Lemma proc_of_upd i f p s : procs s !! i = Some p -> proc_of (upd_proc i f s) i = f p.
Proof. intros Hp. apply proc_of_lookup. unfold upd_proc. ksimp. by rewrite list_lookup_alter_eq, Hp. Qed.

Lemma freeproc_spec F O i p s :
  free_pages F s -> procs s !! i = Some p -> pmem F p s O ->
  exists s', freeproc i s = Ok tt (upd_proc i cleared s') /\ vstep (O ∪ F) s s' /\ free_pages (O ∪ F) s'.
Proof.
  intros HF Hp Hm. unfold freeproc, pset. rewrite bind_gets, (proc_of_lookup _ _ _ Hp).
  assert (exists s1 s2, (if negb (p_trapframe p =? 0) then kfree (p_trapframe p) else mret tt) s = Ok tt s1 /\
    procs s1 = procs s /\
    (if negb (p_pagetable p =? 0) then proc_freepagetable (p_pagetable p) (p_sz p) else mret tt)
      (upd_proc i (set_p_trapframe 0) s1) = Ok tt (upd_proc i (set_p_trapframe 0) s2) /\
    vstep (O ∪ F) s s2 /\ free_pages (O ∪ F) s2) as (s1 & s2 & E1 & P1 & E2 & V & HF').
  { destruct Hm as [-> ->|Hpg Hni ->|T pas [Hps Hni Hsz Hn]].
    - exists s, s. rewrite union_empty_l_L. split_and!; try done. apply vstep_refl.
    - pose proof (page_pos _ Hpg). rewrite (proj2 (Z.eqb_neq _ 0)) by lia. cbn [negb Z.eqb].
      destruct (kfree_spec F _ s HF Hpg Hni) as (s1 & E1 & HF1 & m' & fl & -> & Hso).
      eexists _, _. split_and!; [exact E1|done|done| |done]. split; [|by exists m', fl].
      eapply agree_off_mono; [|by apply agree_off_single]. clear; set_solver.
    - pose proof (page_pos _ (ps_page _ _ _ _ _ _ Hps)). pose proof (pspace_root_pos _ _ _ _ _ _ Hps).
      rewrite !(proj2 (Z.eqb_neq _ 0)) by lia. cbn [negb].
      destruct (pspace_kfree _ _ _ _ _ _ Hps Hni) as (s1 & E1 & V1 & Hps1).
      destruct (proc_freepagetable_spec T ({[p_trapframe p]} ∪ F) (p_pagetable p) pas (p_trapframe p) (p_sz p)
        (upd_proc i (set_p_trapframe 0) s1)) as (s2' & E2 & HF2 & V2); [|done|done|].
      { eapply pspace_same; [done|done|]. apply free_pages_upd_proc, Hps1. }
      destruct (vstep_upd_proc _ _ _ _ _ V2) as (s2 & -> & V2').
      assert (list_to_set pas ∪ ({[p_trapframe p]} ∪ F ∪ T) = owned T pas p ∪ F) as EU
        by (unfold owned; clear; set_solver). rewrite EU in *.
      exists s1, s2. split_and!; [done|by eapply vstep_procs|done| |].
      + eapply vstep_trans; [|done]. eapply vstep_mono; [|done]. unfold owned. clear; set_solver.
      + eapply free_pages_same; [done|destruct (fp_settled _ _ HF2); by split|done..]. }
  rewrite (bind_ok _ _ _ _ _ E1), bind_modify, !bind_gets.
  rewrite (proc_of_upd _ _ p) by (by rewrite P1). cbn [p_pagetable p_sz set_p_trapframe].
  rewrite (bind_ok _ _ _ _ _ E2). msimp. exists s2. split_and!; [|done|done].
  unfold modify. f_equal. rewrite !upd_proc_twice. reflexivity.
Qed.

(** ** allocproc *)

(** The first free entry. *)
Definition first_unused (lo i : nat) (s : kstate) : Prop :=
  p_state (proc_of s i) = UNUSED /\
  forall k, (lo <= k < i)%nat -> p_state (proc_of s k) <> UNUSED.

Lemma allocproc_find_spec s : settled s -> (forall i, (i < NPROC)%nat -> lock_free (LProc i) s) ->
  forall n i, (i + n <= NPROC)%nat ->
  (allocproc_find n i s = Ok None s /\
     forall k, (i <= k < i + n)%nat -> p_state (proc_of s k) <> UNUSED) \/
  (exists j, allocproc_find n i s = Ok (Some j) (acq (LProc j) s) /\ (i <= j < i + n)%nat /\
     first_unused i j s).
Proof.
  intros Hs Hl n. induction n as [|n IH]; intros i Hi; cbn [allocproc_find].
  { left. split; [done|]. intros k Hk. lia. }
  erewrite bind_ok by (apply acquire_ok; [done|apply Hl; lia]). rewrite bind_gets.
  change (proc_of (acq (LProc i) s) i) with (proc_of s i). case_decide as Hst.
  { right. exists i. split_and!; [done|lia|lia|]. split; [done|]. intros k Hk. lia. }
  erewrite bind_ok by (apply release_acq; [done|apply Hl; lia]).
  destruct (IH (S i) ltac:(lia)) as [[-> Hn]|(j & -> & Hj & Hst' & Hk)]; [left|right].
  - split; [done|]. intros k Hk. destruct (decide (k = i)) as [->|]; [done|]. apply Hn. lia.
  - exists j. split_and!; [done|lia|lia|]. split; [done|]. intros k Hk'.
    destruct (decide (k = i)) as [->|]; [done|]. apply Hk. lia.
Qed.

Lemma allocpid_ok s :
  settled s -> lock_free LPid s ->
  allocpid s = Ok (nextpid s) (set_nextpid (s32 (nextpid s + 1)) s).
Proof.
  intros Hs Hl. unfold allocpid. mstep acquire_ok.
  change (set_nextpid (s32 (nextpid (acq LPid s) + 1)) (acq LPid s))
    with (acq LPid (set_nextpid (s32 (nextpid s + 1)) s)).
  erewrite bind_ok by (apply release_acq; [destruct Hs; by split|done]). done.
Qed.

(** The entry [allocproc] returns. *)
Definition born (pid tf root : Z) (p : proc) : proc :=
  set_p_context {| ctx_ra := forkret_addr; ctx_sp := u32 (p_kstack p + PGSIZE); ctx_s := replicate 12 0 |}
    (set_p_pagetable root (set_p_trapframe tf (set_p_state USED (set_p_pid pid p)))).

(** An entry taken and changed by [f] is given back, with the pages it owns:
    only memory of the pages [F] has changed. *)
Lemma alloc_undo {A} (a : A) F F1 O i p f b s1 :
  settled b -> lock_free (LProc i) b -> procs b !! i = Some p ->
  vstep F (acq (LProc i) b) s1 -> free_pages F1 (upd_proc i f s1) -> pmem F1 (f p) (upd_proc i f s1) O ->
  O ∪ F1 = F ->
  exists s', (freeproc i ;; release (LProc i) ;; mret a) (upd_proc i f s1) =
      Ok a (upd_proc i (fun _ => cleared (f p)) s') /\
    vstep F b s' /\ free_pages F s'.
Proof.
  intros Hs Hl Hp V HF1 Hm HO.
  assert (procs s1 !! i = Some p) as Hp1 by (by rewrite (vstep_procs _ _ _ V)).
  destruct (freeproc_spec F1 O i (f p) (upd_proc i f s1) HF1) as (s2 & E & V2 & HF2);
    [unfold upd_proc; ksimp; by rewrite list_lookup_alter_eq, Hp1|done|].
  rewrite HO in V2, HF2. destruct (vstep_upd_proc _ _ _ _ _ V2) as (s3 & -> & V3).
  rewrite (bind_ok _ _ _ _ _ E), upd_proc_twice.
  rewrite (upd_proc_ext i _ (fun _ => cleared (f p)) p) by (done || by rewrite (vstep_procs _ _ _ V3)).
  destruct (vstep_trans _ _ _ _ V V3) as (Ha & m' & fl & Es3).
  exists (set_mem m' (set_freelist fl b)). rewrite Es3 in Ha, HF2 |- *.
  change (set_mem m' (set_freelist fl (acq (LProc i) b))) with (acq (LProc i) (set_mem m' (set_freelist fl b))).
  erewrite bind_ok by (apply critical_proc; [destruct Hs; by split|done]). split_and!; [done| |].
  - split; [done|]. by exists m', fl.
  - eapply free_pages_same; [exact HF2|destruct Hs; by split| |done|done].
    cbn. by rewrite lookup_insert_ne.
Qed.

(** Entries that are not in use are as [freeproc] left them. *)
Definition unused_clean (s : kstate) : Prop :=
  forall i p, procs s !! i = Some p -> p_state p = UNUSED -> cleared p = p.

Definition alloc_ready (s : kstate) : Prop :=
  settled s /\ (forall i, (i < NPROC)%nat -> lock_free (LProc i) s) /\ lock_free LPid s /\
  length (procs s) = NPROC /\ unused_clean s.

Lemma ctx_alloc_ready me s : ctx me s -> unused_clean s -> alloc_ready s.
Proof.
  intros [Hs Hl _ Hp _] Hc. split_and!; [done| |by apply Hl|done|done]. intros i Hi. by apply Hl.
Qed.

(** [allocproc] takes the first free entry and a pid, and gives it a trap frame
    and a page table; when there is no entry, or no memory, it returns null,
    and all but the pid is given back. *)
Lemma allocproc_spec F s :
  alloc_ready s -> free_pages F s ->
  exists r s', allocproc s = Ok r s' /\
   ((r = None /\ s' = s /\ forall k, (k < NPROC)%nat -> p_state (proc_of s k) <> UNUSED) \/
    (r = None /\ (exists i, (i < NPROC)%nat /\ first_unused 0 i s) /\
       vstep F (set_nextpid (s32 (nextpid s + 1)) s) s' /\ free_pages F s' /\ (size F <= 3)%nat) \/
    (exists i s1 T F' root tf, r = Some i /\ (i < NPROC)%nat /\ first_unused 0 i s /\
       s' = acq (LProc i) (upd_proc i (born (nextpid s) tf root) s1) /\
       vstep F (set_nextpid (s32 (nextpid s + 1)) s) s1 /\
       {[tf]} ∪ (F' ∪ T) = F /\ (tf ∉ F' ∪ T) /\ (size F <= size F' + 4)%nat /\ pspace T F' root [] tf s1)).
Proof.
  intros (Hs & Hl & Hpid & Hlen & Hcl) HF. unfold allocproc.
  destruct (allocproc_find_spec s Hs Hl NPROC 0) as [[E Hn]|(i & E & Hi & Hfu)]; [lia|..];
    rewrite (bind_ok _ _ _ _ _ E).
  { exists None, s. split; [done|]. left. split_and!; [done|done|]. intros k Hk. apply Hn. lia. }
  assert ((i < NPROC)%nat) as Hi' by lia. clear E Hi.
  erewrite bind_ok by (apply allocpid_ok; [by apply settled_acq|by apply lock_free_acq_ne]).
  set (b := set_nextpid (s32 (nextpid s + 1)) s).
  change (set_nextpid _ (acq (LProc i) s)) with (acq (LProc i) b).
  change (nextpid (acq (LProc i) s)) with (nextpid s).
  destruct (lookup_lt_is_Some_2 (procs s) i) as [p Hp]; [lia|].
  assert (cleared p = p) as Hc by (apply (Hcl i); [done|]; by rewrite <- (proc_of_lookup _ _ _ Hp); apply Hfu).
  assert (settled b) as Hsb by (destruct Hs; by split).
  assert (lock_free (LProc i) b) as Hlb by (by apply Hl).
  assert (free_pages F b) as HFb by (by eapply free_pages_same).
  assert (free_pages F (acq (LProc i) b)) as HFa by (by apply free_pages_acq).
  unfold pset. rewrite !bind_modify, upd_proc_twice.
  set (f1 := fun p => set_p_state USED (set_p_pid (nextpid s) p)).
  destruct (kalloc_spec F (upd_proc i f1 (acq (LProc i) b)) (free_pages_upd_proc _ _ _ _ HFa))
    as (tf & s1' & Hr & [(-> & -> & ->)|(Hin & Hpg & HF1 & m1 & fl1 & -> & Hso)]);
    rewrite (bind_ok _ _ _ _ _ Hr), bind_modify.
  { cbn [Z.eqb]. rewrite upd_proc_twice.
    destruct (alloc_undo (None : option nat) ∅ ∅ ∅ i p (fun p => set_p_trapframe 0 (f1 p)) b (acq (LProc i) b))
      as (s2 & E2 & V2 & HF2); try done; [apply vstep_refl|by apply free_pages_upd_proc| |].
    { apply pmem_none; [done|]. by rewrite <- Hc. }
    rewrite (upd_proc_id i _ p s2) in E2 by (exact Hc || by rewrite (vstep_procs _ _ _ V2)).
    exists None, s2. split; [done|]. right. left.
    split_and!; [done|by exists i|done|done|rewrite size_empty; lia]. }
  set (s1 := set_mem m1 (set_freelist fl1 (acq (LProc i) b))) in *.
  change (set_mem m1 (set_freelist fl1 (upd_proc i f1 (acq (LProc i) b)))) with (upd_proc i f1 s1) in *.
  pose proof (page_pos tf Hpg). rewrite (proj2 (Z.eqb_neq tf 0)) by lia. rewrite upd_proc_twice.
  assert (vstep {[tf]} (acq (LProc i) b) s1) as V1 by (split; [by apply agree_off_single|by exists m1, fl1]).
  assert ({[tf]} ∪ F ∖ {[tf]} = F) as HFu.
  { clear -Hin. apply set_eq. intros x. destruct (decide (x = tf)) as [->|]; set_solver. }
  set (f2 := fun p => set_p_trapframe tf (f1 p)).
  assert (procs s1 !! i = Some p) as Hp1 by done.
  assert (free_pages (F ∖ {[tf]}) (upd_proc i f2 s1)) as HF2.
  { eapply free_pages_same; [exact HF1|destruct (fp_settled _ _ HF1); by split|done..]. }
  destruct (proc_pagetable_spec (F ∖ {[tf]}) i tf (upd_proc i f2 s1) HF2) as (root & s2' & E2 & V2 & Hcase);
    [by rewrite (proc_of_upd _ _ p)|done|].
  rewrite (bind_ok _ _ _ _ _ E2), bind_modify. destruct (vstep_upd_proc _ _ _ _ _ V2) as (s2 & -> & V2').
  rewrite upd_proc_twice.
  assert (vstep F (acq (LProc i) b) s2) as V12.
  { eapply vstep_trans; (eapply vstep_mono; [|eassumption]); clear -Hin; set_solver. }
  pose proof (size_remove F tf) as Hsz.
  destruct Hcase as [(-> & HF3 & Hsz3)|(Hnz & T & F' & HU & Hsz3 & Hps)].
  - cbn [Z.eqb].
    destruct (alloc_undo (None : option nat) F (F ∖ {[tf]}) {[tf]} i p (fun p => set_p_pagetable 0 (f2 p)) b s2)
      as (s3 & E3 & V3 & HF4); try done.
    { eapply free_pages_same; [exact HF3|destruct (fp_settled _ _ HF3); by split|done..]. }
    { apply (pmem_tf _ (set_p_pagetable 0 (f2 p))); [done|clear; set_solver|done]. }
    rewrite (upd_proc_id i _ p s3) in E3 by (exact Hc || by rewrite (vstep_procs _ _ _ V3)).
    exists None, s3. split; [done|]. right. left. split_and!; [done|by exists i|done|done|lia].
  - rewrite (proj2 (Z.eqb_neq root 0)) by done. rewrite bind_gets, bind_modify, upd_proc_twice.
    rewrite (proc_of_upd _ _ p) by (by rewrite (vstep_procs _ _ _ V12)).
    destruct V12 as (Ha & m2 & fl2 & ->).
    exists (Some i). eexists. split; [reflexivity|]. right. right.
    exists i, (set_mem m2 (set_freelist fl2 b)), T, F', root, tf. split_and!; try done.
    + change (set_mem m2 (set_freelist fl2 (acq (LProc i) b))) with (acq (LProc i) (set_mem m2 (set_freelist fl2 b))).
      rewrite (upd_proc_ext i _ (born (nextpid s) tf root) p) by done. reflexivity.
    + split; [done|]. by exists m2, fl2.
    + by rewrite HU.
    + rewrite HU. clear; set_solver.
    + lia.
    + eapply pspace_same; [done|done|].
      eapply free_pages_same; [apply Hps|destruct Hsb; by split| |done|done]. cbn. by rewrite lookup_insert_ne.
Qed.

(** ** Frames *)

Lemma vstep_acq P lk s s' : vstep P s s' -> vstep P (acq lk s) (acq lk s').
Proof. intros (Ha & m' & fl & ->). split; [done|]. by exists m', fl. Qed.

Lemma vstep_upd P i f s s' : vstep P s s' -> vstep P (upd_proc i f s) (upd_proc i f s').
Proof. intros (Ha & m' & fl & ->). split; [done|]. by exists m', fl. Qed.

Lemma vstep_acq_inv P lk s s' : vstep P (acq lk s) s' -> exists s0, s' = acq lk s0 /\ vstep P s s0.
Proof.
  intros (Ha & m' & fl & ->). exists (set_mem m' (set_freelist fl s)). split; [done|]. split; [done|].
  by exists m', fl.
Qed.

(** The memory of a process is kept by steps on other pages. *)
Lemma owns_frame P T F F' pas p s s' :
  owns T F pas p s -> agree_off P (mem s) (mem s') -> (forall x, x ∈ P -> page x) -> P ## T ->
  free_pages F' s' -> F' ## owned T pas p -> owns T F' pas p s'.
Proof.
  intros [[[[Hok HF Hd] Hm [Hnd Hfr] Hl] Hh Hr Hp] Htf Hsz Hn] Ha HP Hd' HF' HF2. unfold owned in HF2.
  destruct (pt_ok_frame P T (mem s) (mem s') (p_pagetable p)) as (Hok' & _ & Hpt); [done..|].
  split; [split; [split; [split| | |]|..]| |done|done]; try done.
  - clear -HF2. set_solver.
  - eapply mapped_ext; [|done]. intros i _. apply Hpt.
  - split; [done|]. intros x Hx. destruct (Hfr x Hx) as (? & ? & ?). split_and!; [done|done|].
    intros HxF. apply (HF2 x HxF). clear -Hx. set_solver.
  - intros va Hva Hv. rewrite Hpt. by apply Hh.
  - clear -HF2 Htf. set_solver.
Qed.

Lemma owns_same T F pas p s s' : owns T F pas p s -> mem s' = mem s -> free_pages F s' -> owns T F pas p s'.
Proof. intros [Hps Htf Hsz Hn] Em HF. split; try done. by eapply pspace_same. Qed.

(** The free pages of a process's memory description. *)
Lemma owns_free T F pas p s : owns T F pas p s -> free_pages F s.
Proof. by intros [[[[] _ _ _] _ _ _] _ _ _]. Qed.

Lemma owns_disj T F pas p s : owns T F pas p s -> F ## owned T pas p.
Proof.
  intros [[[[_ _ Hd] _ [_ Hfr] _] _ _ _] Htf _ _]. unfold owned. intros x HF Hx.
  apply elem_of_union in Hx as [Hx%elem_of_singleton|Hx].
  - apply Htf. subst x. clear -HF. set_solver.
  - apply elem_of_union in Hx as [Hx|Hx]; [|by apply (Hd x)].
    apply elem_of_list_to_set in Hx. destruct (Hfr x Hx) as (_ & _ & ?). done.
Qed.

(** A page of a process's memory is read as before after steps elsewhere. *)
Lemma ubyte_frame_pages P T F pas p s m' va :
  owns T F pas p s -> agree_off P (mem s) m' -> (forall x, x ∈ P -> page x) -> P ## list_to_set pas ∪ T ->
  is_u32 va -> vpn va < Z.of_nat (length pas) ->
  ubyte m' (p_pagetable p) va = ubyte (mem s) (p_pagetable p) va.
Proof.
  intros [[[[Hok _ _] Hm [_ Hfr] Hlow] _ _ _] _ _ _] Ha HP Hd Hva Hv.
  destruct (pt_ok_frame P T (mem s) m' (p_pagetable p)) as (_ & _ & Hpt); [done..|clear -Hd; set_solver|].
  pose proof (vpn_nonneg va Hva) as Hv0.
  destruct (lookup_lt_is_Some_2 pas (Z.to_nat (vpn va))) as [pa Hpa]; [lia|].
  destruct (Hm _ _ Hpa) as (_ & _ & E). apply list_elem_of_lookup_2 in Hpa.
  unfold ubyte, upa. rewrite Hpt, (pte_of_same_page _ _ ((0 + Z.of_nat (Z.to_nat (vpn va))) * PGSIZE)), E;
    [|apply page_addr_u32; lia|done|apply same_page_mul; lia]. pose proof (Z.mod_pos_bound va PGSIZE eq_refl).
  apply (agree_off_load8 P _ _ pa); [done|done|apply (Hfr pa Hpa)| |lia]. clear -Hd Hpa. set_solver.
Qed.
Lemma ubyte_frame P T F pas p s m' va :
  owns T F pas p s -> agree_off P (mem s) m' -> (forall x, x ∈ P -> page x) -> P ## owned T pas p ->
  is_u32 va -> vpn va < Z.of_nat (length pas) ->
  ubyte m' (p_pagetable p) va = ubyte (mem s) (p_pagetable p) va.
Proof. intros Ho Ha HP Hd. eapply ubyte_frame_pages; [done..|]. unfold owned in Hd. clear -Hd. set_solver. Qed.
(** It does not depend on the rest of the entry. *)
Lemma owns_proc T F pas p q s :
  owns T F pas p s -> p_pagetable q = p_pagetable p -> p_trapframe q = p_trapframe p -> p_sz q = p_sz p ->
  owns T F pas q s.
Proof. intros [H1 H2 H3 H4] E1 E2 E3. split; by rewrite ?E1, ?E2, ?E3. Qed.

(** The trap frame is written: the process owns the same pages. *)
Lemma owns_trapframe T F pas p s s' :
  owns T F pas p s -> agree_off {[p_trapframe p]} (mem s) (mem s') -> settled s' ->
  locks s' !! LKmem = locks s !! LKmem -> freelist s' = freelist s -> owns T F pas p s'.
Proof.
  intros Ho Ha Hs El Ef. pose proof (ow_tf _ _ _ _ _ Ho) as Htf.
  assert (forall x, x ∈ ({[p_trapframe p]} : gset Z) -> page x) as HP
    by (intros x ->%elem_of_singleton; exact (ps_page _ _ _ _ _ _ (ow_space _ _ _ _ _ Ho))).
  eapply owns_frame; [exact Ho|exact Ha|exact HP|clear -Htf; set_solver| |apply (owns_disj _ _ _ _ _ Ho)].
  eapply (free_pages_vstep {[p_trapframe p]} F (set_mem (mem s) s')); [|split; [exact Ha|]|done|exact HP|clear -Htf; set_solver].
  - eapply free_pages_same; [by eapply owns_free|destruct Hs; by split|done..].
  - exists (mem s'), (freelist s'). by destruct s'.
Qed.
End ProcVm.
