(* ===== verification/ForkSpec.v ===== *)
(** * fork (kernel/proc.c)

    [fork] makes a child that is a copy of its parent: its own copy of the
    memory, the same registers but for the result, the same open files and
    current directory, each with one more reference.  When a process or memory
    is lacking it fails and nothing but a pid is used up. *)
From S2P Require Import Prelude Memory Machine Platform Sv32 Spinlock Printf Kalloc Vm Proc Sleeplock Bio Log Fs Console File Life.
From S2P Require Import ProcSpec VmSpec UserVm UserCopy ProcVm.
From stdpp Require Import gmap strings countable prelude.

Open Scope Z_scope.
#[local] Opaque memset.

(** ** Open files *)

(** How often a descriptor table holds the file [f]. *)
Definition refs_to (f : nat) (ofile : list (option nat)) : Z :=
  Z.of_nat (length (filter (fun o => o = Some f) ofile)).

(** The file table with the references of a descriptor table counted [d] times
    more: 1 for a copy of the table, -1 for closing it. *)
Definition add_refs (d : Z) (ofile : list (option nat)) (ft : list file) : list file :=
  imap (fun f x => set_f_ref (f_ref x + d * refs_to f ofile) x) ft.

Lemma refs_to_snoc f l o : refs_to f (l ++ [o]) = refs_to f l + (if decide (o = Some f) then 1 else 0).
Proof.
  unfold refs_to. rewrite filter_app, length_app. cbn. unfold filter, list_filter.
  case_decide; cbn; lia.
Qed.

Lemma add_refs_nil d ft : add_refs d [] ft = ft.
Proof.
  unfold add_refs. rewrite <- (imap_id ft) at 2. apply imap_ext. intros i x _.
  change (refs_to i []) with 0. rewrite Z.mul_0_r, Z.add_0_r. by destruct x.
Qed.

Lemma add_refs_none d l ft : add_refs d (l ++ [None]) ft = add_refs d l ft.
Proof. apply imap_ext. intros i x _. by rewrite refs_to_snoc, decide_False, Z.add_0_r. Qed.

Lemma add_refs_some d l f ft :
  add_refs d (l ++ [Some f]) ft = alter (fun x => set_f_ref (f_ref x + d) x) f (add_refs d l ft).
Proof.
  apply list_eq. intros i. unfold add_refs. rewrite list_lookup_imap.
  destruct (decide (i = f)) as [->|Hne].
  - rewrite list_lookup_alter_eq, list_lookup_imap. destruct (ft !! f); [|done]. cbn.
    rewrite refs_to_snoc, decide_True by done. f_equal. unfold set_f_ref. cbn. f_equal. lia.
  - rewrite list_lookup_alter_ne, list_lookup_imap by done. destruct (ft !! i); [|done]. cbn.
    rewrite refs_to_snoc, decide_False by congruence. by rewrite Z.add_0_r.
Qed.

(** Copying and closing a table cancel out. *)
Lemma add_refs_back l ft : add_refs (-1) l (add_refs 1 l ft) = ft.
Proof.
  apply list_eq. intros i. unfold add_refs. rewrite !list_lookup_imap. destruct (ft !! i) as [x|]; [|done].
  cbn [fmap option_fmap option_map]. f_equal. destruct x as [a1 a2 a3 a4 a5 a6 a7 a8].
  unfold set_f_ref. ksimp. f_equal. lia.
Qed.

Lemma filedup_ok f s :
  settled s -> lock_free LFtable s -> 1 <= f_ref (file_of s f) ->
  filedup f s = Ok f (upd_file f (fun x => set_f_ref (f_ref x + 1) x) s).
Proof.
  intros Hs Hl Hr. unfold filedup, fset. mstep acquire_ok.
  change (file_of (acq LFtable s) f) with (file_of s f). rewrite (proj2 (Z.ltb_ge _ _)) by lia. msimp.
  change (upd_file f ?g (acq LFtable s)) with (acq LFtable (upd_file f g s)).
  erewrite bind_ok by (apply release_acq; [destruct Hs; by split|done]). done.
Qed.

Lemma idup_ok i s :
  settled s -> lock_free LItable s ->
  idup i s = Ok i (upd_inode i (fun ip => set_i_ref (i_ref ip + 1) ip) s).
Proof.
  intros Hs Hl. unfold idup, iset. mstep acquire_ok.
  change (upd_inode i ?g (acq LItable s)) with (acq LItable (upd_inode i g s)).
  erewrite bind_ok by (apply release_acq; [destruct Hs; by split|done]). done.
Qed.

Lemma proc_of_upd_ne i j f s : i <> j -> proc_of (upd_proc i f s) j = proc_of s j.
Proof. intros Hne. unfold proc_of, upd_proc. ksimp. by rewrite list_lookup_alter_ne. Qed.

(** The descriptors of a table that refer to files in use. *)
Definition files_open (ofile : list (option nat)) (s : kstate) : Prop :=
  forall fd f, ofile !! fd = Some (Some f) -> (f < length (ftable s))%nat /\ 1 <= f_ref (file_of s f).

Lemma file_of_add_refs d l f s :
  (f < length (ftable s))%nat ->
  f_ref (default blank_file (add_refs d l (ftable s) !! f)) = f_ref (file_of s f) + d * refs_to f l.
Proof.
  intros Hf. unfold file_of, add_refs. rewrite list_lookup_imap.
  by destruct (lookup_lt_is_Some_2 _ _ Hf) as [x ->].
Qed.

(** The loop over the descriptors: the child's table is the parent's, and each
    file has the references of one more table. *)
Lemma fork_files me np ofile g s :
  me <> np -> settled s -> lock_free LFtable s -> p_ofile (proc_of s me) = ofile ->
  length ofile = NOFILE -> files_open ofile s ->
  for_range NOFILE 0 (fun i =>
    o ← pget me p_ofile;
    match o !! i with
    | Some (Some f) =>
      f ← filedup f;
      pset np (fun q => set_p_ofile (<[i := Some f]> (p_ofile q)) q)
    | _ => mret tt
    end) (acq (LProc np) (upd_proc np (fun q => set_p_ofile (replicate NOFILE None) (g q)) s)) =
  Ok tt (acq (LProc np) (upd_proc np (fun q => set_p_ofile ofile (g q))
    (set_ftable (add_refs 1 ofile (ftable s)) s))).
Proof.
  intros Hne Hs Hl Ho Hlen Hop.
  set (st := fun i : nat => acq (LProc np) (upd_proc np (fun q =>
    set_p_ofile (take i ofile ++ drop i (replicate NOFILE None)) (g q))
    (set_ftable (add_refs 1 (take i ofile) (ftable s)) s))).
  match goal with |- ?m ?a = _ => destruct (for_range_inv (fun i t => t = st i) NOFILE 0
    (fun i : nat => o ← pget me p_ofile; match o !! i with Some (Some f) => f ← filedup f;
      pset np (fun q => set_p_ofile (<[i := Some f]> (p_ofile q)) q) | _ => mret tt end) a)
    as (s' & E & ->) end.
  - unfold st. rewrite add_refs_nil. by destruct s.
  - intros i t Hi ->. rewrite bind_gets.
    change (proc_of (st i) me) with (proc_of (upd_proc np (fun q =>
      set_p_ofile (take i ofile ++ drop i (replicate NOFILE None)) (g q)) s) me).
    rewrite (proc_of_upd_ne np me), Ho by done.
    destruct (lookup_lt_is_Some_2 ofile i) as [o Hoi]; [lia|]. rewrite Hoi.
    assert (take (S i) ofile = take i ofile ++ [o]) as Et by (by apply take_S_r).
    assert (drop i (replicate NOFILE (None : option nat)) = None :: drop (S i) (replicate NOFILE None)) as Ed.
    { apply drop_S. apply lookup_replicate. split; [done|lia]. }
    exists (st (S i)). split; [|done]. destruct o as [f|].
    + destruct (Hop _ _ Hoi) as [Hf Hr].
      erewrite bind_ok.
      2:{ apply filedup_ok; [apply settled_acq; destruct Hs; by split|apply lock_free_acq_ne; done|].
          change (1 <= f_ref (default blank_file (add_refs 1 (take i ofile) (ftable s) !! f))).
          rewrite file_of_add_refs by done. unfold refs_to. lia. }
      unfold pset, modify. f_equal. unfold st. rewrite Et, Ed, add_refs_some.
      change (upd_file f ?h (acq (LProc np) (upd_proc np ?k (set_ftable ?FT s))))
        with (acq (LProc np) (upd_proc np k (set_ftable (alter h f FT) s))).
      change (upd_proc np ?h (acq (LProc np) ?x)) with (acq (LProc np) (upd_proc np h x)).
      rewrite upd_proc_twice. do 2 f_equal. cbn [p_ofile set_p_ofile].
      rewrite insert_app_r_alt by (rewrite length_take; lia).
      rewrite length_take. replace (i - i `min` length ofile)%nat with 0%nat by lia.
      cbn. by rewrite <- app_assoc.
    + unfold st. rewrite Et, Ed, add_refs_none, <- app_assoc. done.
  - unfold st in E. rewrite Nat.add_0_l, take_ge in E by lia.
    rewrite drop_ge, app_nil_r in E by (rewrite length_replicate; lia). exact E.
Qed.

(** ** The trap frame *)

(** The child's trap frame: a copy of the parent's words with 0 in [a0]. *)
Definition tf_copy (m : gmap Z Z) (ntf tf : Z) : gmap Z Z :=
  store32 (store_bytes m ntf (load_bytes m tf (Z.to_nat TF_SIZE))) (ntf + TF_a 0) 0.

Lemma tf_copy_word m ntf tf off :
  0 <= off -> off + 4 <= TF_SIZE -> off mod 4 = 0 ->
  load32 (tf_copy m ntf tf) (ntf + off) = if decide (off = TF_a 0) then 0 else load32 m (tf + off).
Proof.
  unfold tf_copy, TF_a, TF_SIZE. intros H1 H2 H3. case_decide as Hd; [subst off; by rewrite load32_store32_eq|].
  rewrite load32_store32_ne by (Z.div_mod_to_equations; lia).
  assert (forall k, 0 <= k < 4 -> load8 (store_bytes m ntf (load_bytes m tf (Z.to_nat 144))) (ntf + off + k) =
    load8 m (tf + off + k)) as Hb.
  { intros k Hk. replace (ntf + off + k) with (ntf + Z.of_nat (Z.to_nat (off + k))) by lia.
    erewrite load8_store_bytes_in by (apply lookup_load_bytes; lia).
    rewrite u8_small by apply load8_range. f_equal. lia. }
  unfold load32. rewrite <- (Z.add_0_r (ntf + off)), <- (Z.add_0_r (tf + off)), !Hb, !Z.add_0_r by lia.
  rewrite !Hb by lia. done.
Qed.

Lemma tf_copy_outside m ntf tf : same_outside ntf m (tf_copy m ntf tf).
Proof.
  intros b Hb. unfold tf_copy, TF_a, TF_SIZE, PGSIZE in *. rewrite load8_store32_ne by lia.
  apply load8_store_bytes_out. rewrite length_load_bytes. lia.
Qed.

Section Fork.
Context {L : Layout} {LO : LayoutOk L}.

(** ** The child's entry *)

(** [fork] once the memory is copied. *)
Definition fork_rest (p np : nat) (sz : Z) : K Z :=
  pset np (set_p_sz sz) ;;
  tf ← pget p p_trapframe;
  ntf ← pget np p_trapframe;
  modify (fun s =>
    set_mem (store_bytes (mem s) ntf (load_bytes (mem s) tf (Z.to_nat TF_SIZE))) s) ;;
  tf_set np (TF_a 0) 0 ;;
  for_range NOFILE 0 (fun i =>
    ofile ← pget p p_ofile;
    match ofile !! i with
    | Some (Some f) =>
      f ← filedup f;
      pset np (fun q => set_p_ofile (<[i := Some f]> (p_ofile q)) q)
    | _ => mret tt
    end) ;;
  cwd ← pget p p_cwd;
  ip ← the_inode cwd;
  ip ← idup ip;
  pset np (set_p_cwd (Some ip)) ;;
  name ← pget p p_name;
  pset np (fun q => set_p_name (safestrcpy (p_name q) name 16) q) ;;
  pid ← pget np p_pid;
  release (LProc np) ;;
  acquire LWait ;;
  pset np (set_p_parent (Some p)) ;;
  release LWait ;;
  acquire (LProc np) ;;
  pset np (set_p_state RUNNABLE) ;;
  release (LProc np) ;;
  mret pid.

Lemma fork_eq : fork =
  (p ← curproc;
   np ← allocproc;
   match np with
   | None => mret (-1)
   | Some np =>
     pt ← pget p p_pagetable;
     npt ← pget np p_pagetable;
     sz ← pget p p_sz;
     r ← uvmcopy pt npt sz;
     if r <? 0 then freeproc np ;; release (LProc np) ;; mret (-1) else fork_rest p np sz
   end).
Proof. reflexivity. Qed.

(** The entry [q] as the child of process [me], whose entry is [p]. *)
Definition child (me : nat) (pid tf root : Z) (p q : proc) : proc :=
  set_p_state RUNNABLE (set_p_parent (Some me) (set_p_name (safestrcpy (p_name q) (p_name p) 16)
    (set_p_cwd (p_cwd p) (set_p_ofile (p_ofile p) (set_p_sz (p_sz p) (born pid tf root q)))))).

Lemma fork_rest_ok me np pid tf root q ip s :
  me <> np -> settled s -> (forall lk, lk ∈ [LProc np; LWait; LFtable; LItable] -> lock_free lk s) ->
  procs s !! np = Some q -> p_ofile q = replicate NOFILE None ->
  let p := proc_of s me in
  length (p_ofile p) = NOFILE -> files_open (p_ofile p) s -> p_cwd p = Some ip ->
  fork_rest me np (p_sz p) (acq (LProc np) (upd_proc np (born pid tf root) s)) =
  Ok pid (upd_proc np (child me pid tf root p)
    (upd_inode ip (fun x => set_i_ref (i_ref x + 1) x)
      (set_ftable (add_refs 1 (p_ofile p) (ftable s)) (set_mem (tf_copy (mem s) tf (p_trapframe p)) s)))).
Proof.
  intros Hne Hs Hl Hq Hqo p Hlen Hop Hcwd.
  assert (lock_free (LProc np) s /\ lock_free LWait s /\ lock_free LFtable s /\ lock_free LItable s)
    as (L1 & L2 & L3 & L4) by (split_and!; apply Hl; set_solver).
  assert (forall f lk t, procs t = procs s -> proc_of (acq lk (upd_proc np f t)) me = p) as Hme.
  { intros f lk t Et. change (proc_of (acq lk (upd_proc np f t)) me) with (proc_of (upd_proc np f t) me).
    rewrite proc_of_upd_ne by done. unfold p, proc_of. by rewrite Et. }
  assert (forall f lk t, procs t = procs s -> proc_of (acq lk (upd_proc np f t)) np = f q) as Hnp.
  { intros f lk t Et. change (proc_of (acq lk (upd_proc np f t)) np) with (proc_of (upd_proc np f t) np).
    apply proc_of_upd. by rewrite Et. }
  unfold fork_rest, pset, tf_set. rewrite bind_modify.
  change (upd_proc np (set_p_sz (p_sz p)) (acq (LProc np) ?x))
    with (acq (LProc np) (upd_proc np (set_p_sz (p_sz p)) x)).
  rewrite upd_proc_twice, !bind_gets, Hme, Hnp, !bind_modify by done.
  change (set_mem ?m (acq (LProc np) (upd_proc np ?f s))) with (acq (LProc np) (upd_proc np f (set_mem m s))).
  rewrite Hnp by done.
  match goal with |- context [set_mem ?m (acq (LProc np) (upd_proc np ?f (set_mem ?m1 s)))] =>
    change (set_mem m (acq (LProc np) (upd_proc np f (set_mem m1 s))))
      with (acq (LProc np) (upd_proc np f (set_mem (tf_copy (mem s) tf (p_trapframe p)) s))) end.
  set (s3 := set_mem (tf_copy (mem s) tf (p_trapframe p)) s).
  erewrite (upd_proc_ext np _ (fun q => set_p_ofile (replicate NOFILE None)
    (set_p_sz (p_sz p) (born pid tf root q))) q s3 Hq) by (by rewrite <- Hqo).
  erewrite bind_ok by (apply (fork_files me np (p_ofile p) (fun q => set_p_sz (p_sz p) (born pid tf root q)) s3);
    [done|destruct Hs; by split|done..]).
  rewrite bind_gets, Hme, Hcwd by done. unfold the_inode at 1. rewrite bind_ret.
  set (s4 := set_ftable _ s3).
  erewrite bind_ok by (apply idup_ok; [apply settled_acq; destruct Hs; by split|by apply lock_free_acq_ne]).
  change (upd_inode ip ?g (acq (LProc np) (upd_proc np ?f s4)))
    with (acq (LProc np) (upd_proc np f (upd_inode ip g s4))).
  set (s5 := upd_inode ip _ s4).
  change (modify (upd_proc np ?f)) with (modify (upd_proc np f)).
  rewrite bind_modify.
  change (upd_proc np ?g (acq (LProc np) ?x)) with (acq (LProc np) (upd_proc np g x)).
  rewrite upd_proc_twice, bind_gets, Hme by done. rewrite bind_modify.
  change (upd_proc np ?g (acq (LProc np) ?x)) with (acq (LProc np) (upd_proc np g x)).
  rewrite upd_proc_twice, bind_gets, Hnp by done.
  assert (settled s5) as Hs5 by (destruct Hs; by split).
  erewrite bind_ok by (apply release_acq; [by apply settled_upd_proc|done]).
  erewrite bind_ok by (apply acquire_ok; [by apply settled_upd_proc|done]). rewrite bind_modify.
  erewrite bind_ok by (apply critical_proc; [by apply settled_upd_proc|done]).
  rewrite upd_proc_twice.
  erewrite bind_ok by (apply acquire_ok; [by apply settled_upd_proc|done]). rewrite bind_modify.
  erewrite bind_ok by (apply critical_proc; [by apply settled_upd_proc|done]).
  rewrite upd_proc_twice. unfold mret, M_ret. f_equal. unfold child. rewrite Hcwd. reflexivity.
Qed.

(** ** The child's memory *)

Lemma owns_parent P T0 F pas0 p s a :
  owns T0 F pas0 p s -> P ⊆ F -> agree_off F (mem s) (mem a) -> parent P T0 (p_pagetable p) pas0 a.
Proof.
  intros Ho HP Ha. pose proof (owns_disj _ _ _ _ _ Ho) as Hd. unfold owned in Hd.
  destruct Ho as [[[[Hok HF _] Hm [_ Hfr] _] _ _ _] _ _ _].
  destruct (pt_ok_frame F T0 (mem s) (mem a) (p_pagetable p)) as (Hok' & _ & Hpt);
    [done|done|intros x Hx; by eapply free_pages_page|clear -Hd; set_solver|].
  split; [done| |intros x Hx; apply (Hfr x Hx)|clear -Hd HP; set_solver..].
  eapply mapped_ext; [|done]. intros i _. apply Hpt.
Qed.

Lemma fork_uvmcopy T0 F pas0 p s T F' root tf a :
  owns T0 F pas0 p s -> agree_off F (mem s) (mem a) -> pspace T F' root [] tf a -> F' ∪ T ⊆ F ->
  exists r s' T2 F2, uvmcopy (p_pagetable p) root (p_sz p) a = Ok r s' /\ vstep (F' ∪ T) a s' /\
   ((r = 0 /\ exists pas, pspace T2 F2 root pas tf s' /\ length pas = length pas0 /\
       copied (mem s') root (p_pagetable p) pas pas0 /\ list_to_set pas ∪ (F2 ∪ T2) = F' ∪ T) \/
    (r = -1 /\ pspace T2 F2 root [] tf s' /\ F2 ∪ T2 = F' ∪ T /\ (size F' < 2 * length pas0)%nat)).
Proof.
  intros Ho Ha [Hu Hh Hr Hp] HP. pose proof (ow_sz _ _ _ _ _ Ho) as Hsz. pose proof (ow_pages _ _ _ _ _ Ho) as Hn.
  pose proof (ps_room _ _ _ _ _ _ (ow_space _ _ _ _ _ Ho)) as Hroom.
  change TRAPFRAME with (1048574 * PGSIZE) in Hsz.
  destruct (uvmcopy_spec T F' T0 root (p_pagetable p) pas0 (p_sz p) a) as (r & s' & T2 & F2 & E & V & _ & Hc);
    [done|by eapply owns_parent|unfold PGSIZE in *; lia|done| |].
  { intros i Hi Hlt. assert (0 <= i < 1048574) by (unfold PGSIZE in *; lia).
    rewrite Hh; [|apply page_addr_u32; lia|cbn [length]; rewrite vpn_mul; lia].
    unfold high_pte. rewrite vpn_mul, !decide_False by lia. done. }
  exists r, s', T2, F2. split_and!; [done|done|].
  destruct Hc as [(-> & pas & Hu' & Hl & Hcp & HU & Hpt)|(-> & Hu' & HU & Hlow & Hpt)]; [left|right].
  - split; [done|]. exists pas. split_and!; try done. split; [done| |lia|done].
    intros va Hva Hv. rewrite Hpt by lia || done. apply Hh; [done|]. cbn. pose proof (vpn_u32 va Hva). lia.
  - split_and!; try done. split; [done| |done|done]. intros va Hva Hv. rewrite Hpt by done. by apply Hh.
Qed.

(** ** The whole *)

(** A process that may call [fork]: it owns its memory, its files are open, and
    the entries of the table not in use are as [freeproc] and [exit] left
    them. *)
Record forker (me ip : nat) (T0 F : gset Z) (pas0 : list Z) (s : kstate) : Prop := {
  fk_ctx : ctx me s;
  fk_state : p_state (proc_of s me) <> UNUSED;
  fk_mem : owns T0 F pas0 (proc_of s me) s;
  fk_ofile : length (p_ofile (proc_of s me)) = NOFILE;
  fk_files : files_open (p_ofile (proc_of s me)) s;
  fk_cwd : p_cwd (proc_of s me) = Some ip;
  fk_clean : unused_clean s;
  fk_closed : forall i q, procs s !! i = Some q -> p_state q = UNUSED -> p_ofile q = replicate NOFILE None;
}.

(** What a successful [fork] leaves: entry [np] is the child, with the memory
    [pas] and [T]; [F'] are the pages that stay free. *)
Record forked (me ip : nat) (T0 F : gset Z) (pas0 : list Z) (s s' : kstate) (np : nat)
    (T F' : gset Z) (pas : list Z) : Prop := {
  fd_np : (np < NPROC)%nat /\ first_unused 0 np s;
  fd_state : exists root tf m' fl,
    s' = upd_proc np (child me (nextpid s) tf root (proc_of s me))
      (upd_inode ip (fun x => set_i_ref (i_ref x + 1) x)
        (set_ftable (add_refs 1 (p_ofile (proc_of s me)) (ftable s))
          (set_nextpid (s32 (nextpid s + 1)) (set_mem m' (set_freelist fl s))))) /\
    p_pagetable (proc_of s' np) = root /\ p_trapframe (proc_of s' np) = tf;
  fd_child : owns T F' pas (proc_of s' np) s';
  fd_parent : owns T0 F' pas0 (proc_of s' me) s';
  fd_pages : owned T pas (proc_of s' np) ∪ F' = F;
  fd_mem : agree_off F (mem s) (mem s');
  fd_length : length pas = length pas0;
  fd_copy : copied (mem s') (p_pagetable (proc_of s' np)) (p_pagetable (proc_of s me)) pas pas0;
  fd_regs : forall off, 0 <= off -> off + 4 <= TF_SIZE -> off mod 4 = 0 ->
    load32 (mem s') (p_trapframe (proc_of s' np) + off) =
    if decide (off = TF_a 0) then 0 else load32 (mem s) (p_trapframe (proc_of s me) + off);
}.

Lemma forked_intro me ip T0 F pas0 s np q T F' pas root tf s2 :
  forker me ip T0 F pas0 s -> (np < NPROC)%nat -> first_unused 0 np s -> procs s !! np = Some q ->
  vstep F (set_nextpid (s32 (nextpid s + 1)) s) s2 -> pspace T F' root pas tf s2 ->
  length pas = length pas0 -> copied (mem s2) root (p_pagetable (proc_of s me)) pas pas0 ->
  {[tf]} ∪ (list_to_set pas ∪ (F' ∪ T)) = F -> tf ∉ list_to_set pas ∪ (F' ∪ T) ->
  forked me ip T0 F pas0 s (upd_proc np (child me (nextpid s) tf root (proc_of s me))
    (upd_inode ip (fun x => set_i_ref (i_ref x + 1) x) (set_ftable (add_refs 1 (p_ofile (proc_of s me)) (ftable s2))
      (set_mem (tf_copy (mem s2) tf (p_trapframe (proc_of s me))) s2)))) np T F' pas.
Proof.
  intros Hk Hnp Hfu Hq V Hps Hlen Hcp HU Htf. destruct Hk as [Hctx Hst Hmem _ _ _ _ _].
  set (p := proc_of s me) in *. set (m3 := tf_copy (mem s2) tf (p_trapframe p)).
  set (s' := upd_proc np _ _).
  assert (np <> me) as Hne by (intros ->; destruct Hfu; done).
  assert (procs s2 = procs s) as Ep by (by rewrite (vstep_procs _ _ _ V)).
  assert (proc_of s' np = child me (nextpid s) tf root p q) as E1.
  { apply (proc_of_upd np _ q). cbn. by rewrite Ep. }
  assert (proc_of s' me = p) as E2.
  { unfold s'. rewrite proc_of_upd_ne by done. unfold p, proc_of. cbn. by rewrite Ep. }
  assert (agree_off {[tf]} (mem s2) m3) as A3 by apply agree_off_single, tf_copy_outside.
  assert (forall x, x ∈ ({[tf]} : gset Z) -> page x) as Hpg3
    by (intros x ->%elem_of_singleton; exact (ps_page _ _ _ _ _ _ Hps)).
  pose proof (owns_free _ _ _ _ _ Hmem) as HF. pose proof (owns_disj _ _ _ _ _ Hmem) as Hd.
  assert (agree_off F (mem s) m3) as A.
  { eapply agree_off_trans; [apply V|]. eapply agree_off_mono; [|exact A3]. rewrite <- HU. clear; set_solver. }
  assert (free_pages F' (set_mem m3 s2)) as HF3.
  { eapply (free_pages_vstep {[tf]}); [apply Hps|by apply vstep_mem|done|done|clear -Htf; set_solver]. }
  assert (free_pages F' s') as HF' by (eapply free_pages_same; [exact HF3|destruct (fp_settled _ _ HF3); by split|done..]).
  assert (owns T F' pas (child me (nextpid s) tf root p q) s2) as Hch.
  { split; [done|done|exact (ow_sz _ _ _ _ _ Hmem)|]. rewrite Hlen. exact (ow_pages _ _ _ _ _ Hmem). }
  assert (F' ⊆ F) as HFF by (rewrite <- HU; clear; set_solver).
  split; rewrite ?E1, ?E2; [done| | | | |done|done| |].
  - exists root, tf. destruct V as (_ & m' & fl & ->). by exists m3, fl.
  - eapply owns_frame; [exact Hch|exact A3|done|clear -Htf; set_solver|done|].
    apply (owns_disj _ _ _ _ _ Hch).
  - eapply owns_frame; [exact Hmem|exact A|intros x Hx; exact (free_pages_page F s x HF Hx)| |done|].
    + unfold owned in Hd. clear -Hd. set_solver.
    + clear -Hd HFF. set_solver.
  - unfold owned. cbn. rewrite <- HU. clear; set_solver.
  - pose proof (owns_parent {[tf]} T0 F pas0 p s s2 Hmem ltac:(rewrite <- HU; clear; set_solver) (proj1 V)) as Hpar.
    destruct (parent_vstep _ _ _ _ _ (set_mem m3 s2) Hpar) as (_ & Hpt & _); [by apply vstep_mem|done|].
    destruct (pt_ok_frame {[tf]} T (mem s2) m3 root) as (_ & _ & Hpt'); [apply Hps|done|done|clear -Htf; set_solver|].
    intros i x y Hx Hy. destruct (Hcp i x y Hx Hy) as [H1 H2]. apply list_elem_of_lookup_2 in Hx, Hy. split.
    + apply (page_copy_vstep {[tf]} s2 (set_mem m3 s2)); [done|by apply vstep_mem|done| | | |].
      * apply (fr_page _ _ _ (uv_frames _ _ _ _ _ (ps_uvm _ _ _ _ _ _ Hps)) x Hx).
      * apply (pr_pages _ _ _ _ _ Hpar y Hy).
      * clear -Htf Hx. set_solver.
      * pose proof (pr_disj' _ _ _ _ _ Hpar). clear -H Hy. set_solver.
    + cbn in Hpt. change (mem s') with m3. rewrite Hpt', Hpt. exact H2.
  - intros off H1 H2 H3. change (mem s') with m3. cbn [p_trapframe]. unfold m3.
    change (p_trapframe (child _ _ _ _ _ _)) with tf. rewrite tf_copy_word by done. case_decide; [done|].
    fold p. apply (agree_off_load32 F _ _ (p_trapframe p)); [apply V|intros x Hx; exact (free_pages_page F s x HF Hx)|
      exact (ps_page _ _ _ _ _ _ (ow_space _ _ _ _ _ Hmem))| |lia|unfold TF_SIZE, PGSIZE in *; lia].
    pose proof (ow_tf _ _ _ _ _ Hmem) as Hni. clear -Hni. set_solver.
Qed.

Lemma fork_finish me ip T0 F pas0 s np q T F' pas root tf s2 :
  forker me ip T0 F pas0 s -> (np < NPROC)%nat -> first_unused 0 np s -> procs s !! np = Some q ->
  vstep F (set_nextpid (s32 (nextpid s + 1)) s) s2 ->
  pspace T F' root pas tf (acq (LProc np) (upd_proc np (born (nextpid s) tf root) s2)) ->
  length pas = length pas0 -> copied (mem s2) root (p_pagetable (proc_of s me)) pas pas0 ->
  {[tf]} ∪ (list_to_set pas ∪ (F' ∪ T)) = F -> tf ∉ list_to_set pas ∪ (F' ∪ T) ->
  exists s', fork_rest me np (p_sz (proc_of s me)) (acq (LProc np) (upd_proc np (born (nextpid s) tf root) s2)) =
    Ok (nextpid s) s' /\ forked me ip T0 F pas0 s s' np T F' pas.
Proof.
  intros Hk Hnp Hfu Hq V Hps Hlen Hcp HU Htf. pose proof Hk as [Hctx Hst _ Hol Hfo Hcwd _ Hof].
  pose proof (ctx_locks _ _ Hctx) as Hlk.
  assert (settled s2) as Hs2 by (destruct V as (_ & m' & fl & ->); destruct (ctx_settled _ _ Hctx); by split).
  assert (pspace T F' root pas tf s2) as Hps2.
  { eapply pspace_same; [done|done|].
    eapply free_pages_same; [exact (sp_free _ _ _ _ (uv_space _ _ _ _ _ (ps_uvm _ _ _ _ _ _ Hps)))|done| |done|done].
    cbn. by rewrite lookup_insert_ne. }
  assert (proc_of s2 me = proc_of s me) as Em by (unfold proc_of; by rewrite (vstep_procs _ _ _ V)).
  eexists. split.
  - rewrite <- Em. apply (fork_rest_ok me np (nextpid s) tf root q ip s2); rewrite ?Em; try done.
    + intros ->. by destruct Hfu.
    + intros lk Hin. rewrite !elem_of_cons in Hin. destruct V as (_ & m' & fl & ->).
      destruct Hin as [->|[->|[->|[->|[]%elem_of_nil]]]]; by apply Hlk.
    + by rewrite (vstep_procs _ _ _ V).
    + apply (Hof np); [done|]. rewrite <- (proc_of_lookup _ _ _ Hq). apply Hfu.
    + destruct V as (_ & m' & fl & ->). done.
  - rewrite Em. by apply (forked_intro me ip T0 F pas0 s np q).
Qed.

Lemma fork_undo me ip T0 F pas0 s np q T F' root tf s2 :
  forker me ip T0 F pas0 s -> (np < NPROC)%nat -> first_unused 0 np s -> procs s !! np = Some q ->
  vstep F (set_nextpid (s32 (nextpid s + 1)) s) s2 ->
  pspace T F' root [] tf (acq (LProc np) (upd_proc np (born (nextpid s) tf root) s2)) ->
  {[tf]} ∪ (F' ∪ T) = F -> tf ∉ F' ∪ T ->
  exists s' c s1, (freeproc np ;; release (LProc np) ;; mret (-1))
      (acq (LProc np) (upd_proc np (born (nextpid s) tf root) s2)) = Ok (-1) s' /\
    s' = upd_proc np (set_p_context c) s1 /\
    vstep F (set_nextpid (s32 (nextpid s + 1)) s) s1 /\ free_pages F s'.
Proof.
  intros Hk Hnp Hfu Hq V Hps HU Htf. pose proof Hk as [Hctx Hst _ _ _ _ Hcl _].
  assert (cleared q = q) as Hqc.
  { apply (Hcl np); [done|]. rewrite <- (proc_of_lookup _ _ _ Hq). apply Hfu. }
  destruct (alloc_undo (-1) F F' (owned T [] (born (nextpid s) tf root q)) np q (born (nextpid s) tf root)
    (set_nextpid (s32 (nextpid s + 1)) s) (acq (LProc np) s2)) as (s3 & E3 & V3 & HF3).
  - destruct (ctx_settled _ _ Hctx); by split.
  - by apply (ctx_locks _ _ Hctx).
  - done.
  - by apply vstep_acq.
  - apply Hps.
  - apply pmem_all. rewrite <- Hqc. split; [exact Hps| |done|done]. clear -Htf. set_solver.
  - unfold owned. change (p_trapframe (born _ _ _ _)) with tf. rewrite <- HU. clear; set_solver.
  - eexists _, _, s3. split_and!; [exact E3| |done|by apply free_pages_upd_proc].
    apply (upd_proc_ext np _ _ q); [by rewrite (vstep_procs _ _ _ V3)|]. rewrite <- Hqc at 2. reflexivity.
Qed.

Lemma fork_spec me ip T0 F pas0 s :
  forker me ip T0 F pas0 s ->
  (exists s' np T F' pas, fork s = Ok (nextpid s) s' /\ forked me ip T0 F pas0 s s' np T F' pas) \/
  (exists s', fork s = Ok (-1) s' /\
    ((s' = s /\ forall k, (k < NPROC)%nat -> p_state (proc_of s k) <> UNUSED) \/
     (exists np c s1, first_unused 0 np s /\ s' = upd_proc np (set_p_context c) s1 /\
        vstep F (set_nextpid (s32 (nextpid s + 1)) s) s1 /\ free_pages F s' /\
        (size F < 2 * length pas0 + 4)%nat))).
Proof.
  intros Hk. pose proof Hk as [Hctx Hst Hmem Hol Hfo Hcwd Hcl Hof].
  pose proof (owns_free _ _ _ _ _ Hmem) as HF. pose proof (ctx_settled _ _ Hctx) as Hs.
  pose proof (ctx_locks _ _ Hctx) as Hlk. set (p := proc_of s me) in *.
  rewrite fork_eq. erewrite bind_ok by (apply curproc_ok; [done|apply Hctx]).
  destruct (allocproc_spec F s) as (r & s' & E & Hr); [by eapply ctx_alloc_ready|done|].
  rewrite (bind_ok _ _ _ _ _ E).
  destruct Hr as [(-> & -> & Hn)|[(-> & (i & Hi & Hfu) & V & HF' & Hsz)|
    (np & s1 & T & F' & root & tf & -> & Hnp & Hfu & -> & V & HU & Htf & Hsz & Hps)]].
  { right. exists s. split; [done|by left]. }
  { right. exists s'. split; [done|]. right. exists i, (p_context (proc_of s i)), s'.
    rewrite (upd_proc_id i _ (proc_of s i)); [by split_and!; try lia| |by destruct (proc_of s i)].
    rewrite (vstep_procs _ _ _ V). apply (lookup_proc_of s). by rewrite (ctx_procs _ _ Hctx). }
  set (b := set_nextpid (s32 (nextpid s + 1)) s) in *. clear E.
  assert (np <> me) as Hne by (intros ->; destruct Hfu; done).
  assert (procs s1 = procs s) as Ep by (by rewrite (vstep_procs _ _ _ V)).
  destruct (lookup_lt_is_Some_2 (procs s) np) as [q Hq]; [by rewrite (ctx_procs _ _ Hctx)|].
  set (a := acq (LProc np) (upd_proc np (born (nextpid s) tf root) s1)).
  assert (proc_of a me = p) as Ea.
  { change (proc_of a me) with (proc_of (upd_proc np (born (nextpid s) tf root) s1) me).
    rewrite proc_of_upd_ne by done. unfold p, proc_of. by rewrite Ep. }
  assert (p_pagetable (proc_of a np) = root) as Er.
  { change (proc_of a np) with (proc_of (upd_proc np (born (nextpid s) tf root) s1) np).
    by rewrite (proc_of_upd _ _ q) by by rewrite Ep. }
  rewrite !bind_gets, Ea, Er.
  assert (pspace T F' root [] tf a) as Hpa.
  { eapply pspace_same; [done|done|]. apply free_pages_acq; [|done]. apply free_pages_upd_proc, Hps. }
  destruct (fork_uvmcopy T0 F pas0 p s T F' root tf a Hmem) as (r & s' & T2 & F2 & E & V2 & Hr);
    [apply V|done|rewrite <- HU; clear; set_solver|].
  rewrite (bind_ok _ _ _ _ _ E). apply vstep_acq_inv in V2 as (x & -> & V2).
  apply vstep_upd_proc in V2 as (s2 & -> & V2).
  assert (vstep F b s2) as V12.
  { eapply vstep_trans; [done|]. eapply vstep_mono; [|done]. rewrite <- HU. clear; set_solver. }
  destruct Hr as [(-> & pas & Hps2 & Hlen & Hcp & HU2)|(-> & Hps2 & HU2 & Hlow)]; cbn [Z.ltb Z.compare].
  - left. destruct (fork_finish me ip T0 F pas0 s np q T2 F2 pas root tf s2) as (s' & E' & Hfd);
      [done..|by rewrite HU2|by rewrite HU2|].
    by exists s', np, T2, F2, pas.
  - right. destruct (fork_undo me ip T0 F pas0 s np q T2 F2 root tf s2) as (s' & c & s3 & E' & Es & V3 & HF3);
      [done..|by rewrite HU2|by rewrite HU2|].
    exists s'. split; [done|]. right. exists np, c, s3. split_and!; [done|done|done|done|lia].
Qed.

(** C9: [fork] makes a copy of the calling process, or gives back all it took.  On success the first free entry of the table is the child: its
    pid is the one returned, its parent the caller, it is runnable, its size,
    name, descriptors and current directory are the caller's, and each open
    file and the directory have the references added.  Its memory is its own:
    as many pages as the caller's, with the same contents and permissions, a
    page table with the trampoline and its own trap frame, whose words are the
    caller's but for 0 in [a0].  All of it comes from the free pages, none is
    lost, and the caller's memory is as it was.  [fork] fails when there is no
    free entry, or fewer than four free pages plus two per page of the caller;
    then every page it took is free again and the table is as it was, but for
    the saved context of the entry that was tried. *)
Theorem fork_correct me ip T0 F pas0 s :
  forker me ip T0 F pas0 s ->
  (exists s' np T F' pas, fork s = Ok (nextpid s) s' /\ forked me ip T0 F pas0 s s' np T F' pas) \/
  (exists s', fork s = Ok (-1) s' /\
    ((s' = s /\ forall k, (k < NPROC)%nat -> p_state (proc_of s k) <> UNUSED) \/
     (exists np c s1, first_unused 0 np s /\ s' = upd_proc np (set_p_context c) s1 /\
        vstep F (set_nextpid (s32 (nextpid s + 1)) s) s1 /\ free_pages F s' /\
        (size F < 2 * length pas0 + 4)%nat))).
Proof. apply fork_spec. Qed.
End Fork.

(** ** Process 0 of a small machine forks *)

#[local] Existing Instance test_layout.
#[local] Existing Instance test_layout_ok.

(** Process 0 runs, with an empty address space; its directory is inode 0 of
    the table. *)
Definition fork_proc : proc := set_p_pid 1 (set_p_cwd (Some 0%nat) (set_p_state RUNNING blank_proc)).
Definition fork_base : kstate :=
  set_locks boot_locks (set_nextpid 2 (set_kcpu (set_c_proc (Some 0%nat) (kcpu booted))
    (upd_inode 0 (set_i_ref 1)
      (upd_proc 0 (fun p => set_p_pid 1 (set_p_cwd (Some 0%nat) (set_p_state RUNNING p))) booted)))).
Definition give_space : K unit :=
  tf ← kalloc; pset 0 (set_p_trapframe tf) ;;
  pt ← proc_pagetable 0; pset 0 (set_p_pagetable pt).
Definition fork_machine : kstate := final (give_space fork_base).

Lemma give_space_ok s s1 s2 tf root :
  kalloc s = Ok tf s1 -> proc_pagetable 0 (upd_proc 0 (set_p_trapframe tf) s1) = Ok root s2 ->
  final (give_space s) = upd_proc 0 (set_p_pagetable root) s2.
Proof.
  intros E1 E2. unfold give_space, pset. rewrite (bind_ok _ _ _ _ _ E1), bind_modify.
  by rewrite (bind_ok _ _ _ _ _ E2).
Qed.

Lemma fork_base_ctx : ctx 0 fork_base.
Proof.
  split.
  - split; vm_compute; congruence.
  - intros lk. by apply boot_locks_free.
  - reflexivity.
  - vm_compute. reflexivity.
  - unfold NPROC. lia.
Qed.

Lemma fork_base_free : @free_pages test_layout (list_to_set test_frames) fork_base.
Proof.
  eapply free_pages_same; [exact booted_free|apply fork_base_ctx| |reflexivity|reflexivity].
  vm_compute. reflexivity.
Qed.

Lemma fork_base_procs : procs fork_base =
  fork_proc :: replicate 7 blank_proc.
Proof. vm_compute. reflexivity. Qed.

Lemma test_frames_size : size (list_to_set test_frames : gset Z) = 8%nat.
Proof. vm_compute. reflexivity. Qed.

Lemma fork_machine_forker s m fl root tf T F :
  ctx 0 s -> procs s = fork_proc :: replicate 7 blank_proc ->
  let s' := upd_proc 0 (set_p_pagetable root) (upd_proc 0 (set_p_trapframe tf) (set_mem m (set_freelist fl s))) in
  tf ∉ F ∪ T -> pspace T F root [] tf (upd_proc 0 (set_p_trapframe tf) (set_mem m (set_freelist fl s))) ->
  forker 0 0 T F [] s' /\ p_state (proc_of s' 1) = UNUSED /\ forall k, p_parent (proc_of s' k) = None.
Proof.
  intros [Hs Hl Hc Hp Hm] Ep s' Htf Hps. unfold s'. rewrite upd_proc_twice.
  set (f := fun p => set_p_pagetable root (set_p_trapframe tf p)). set (s2 := set_mem m (set_freelist fl s)).
  assert (procs (upd_proc 0 f s2) = f fork_proc :: replicate 7 blank_proc) as Ep'.
  { unfold upd_proc, s2. ksimp. by rewrite Ep. }
  assert (forall i q, procs (upd_proc 0 f s2) !! i = Some q -> p_state q = UNUSED -> q = blank_proc) as Hblank.
  { intros i q. rewrite Ep'. destruct i as [|i]; cbn; [intros [= <-]; done|].
    intros Hi _. by apply (lookup_replicate_1 7 blank_proc q i) in Hi as [-> _]. }
  split; [|split; [unfold proc_of; by rewrite Ep'|]].
  2:{ intros k. unfold proc_of. rewrite Ep'. destruct k as [|k]; [done|]. cbn [lookup list_lookup].
      destruct (replicate 7 blank_proc !! k) as [q|] eqn:Hq; [|done].
      by apply lookup_replicate_1 in Hq as [-> _]. }
  assert (proc_of (upd_proc 0 f s2) 0 = f fork_proc) as E0 by (unfold proc_of; by rewrite Ep').
  split; rewrite ?E0.
  - split; [destruct Hs; by split|exact Hl|done|by rewrite Ep'|done].
  - done.
  - split; [|cbn; clear -Htf; set_solver|split; vm_compute; discriminate|reflexivity].
    eapply pspace_same; [exact Hps|reflexivity|].
    eapply free_pages_same; [exact (sp_free _ _ _ _ (uv_space _ _ _ _ _ (ps_uvm _ _ _ _ _ _ Hps)))|
      destruct Hs; by split|reflexivity..].
  - reflexivity.
  - intros fd x Hx. apply (lookup_replicate_1 NOFILE None) in Hx as [? _]. done.
  - reflexivity.
  - intros i q Hi Hu. by rewrite (Hblank i q Hi Hu).
  - intros i q Hi Hu. by rewrite (Hblank i q Hi Hu).
Qed.

Lemma fork_machine_ok :
  exists T0 F, forker 0 0 T0 F [] fork_machine /\ (4 <= size F)%nat /\
    p_state (proc_of fork_machine 1) = UNUSED /\ (forall k, p_parent (proc_of fork_machine k) = None) /\
    exists root tf m fl, fork_machine = upd_proc 0 (set_p_pagetable root) (upd_proc 0 (set_p_trapframe tf)
      (set_mem m (set_freelist fl fork_base))).
Proof.
  set (F0 := list_to_set test_frames : gset Z).
  pose proof test_frames_size as Hsz. fold F0 in Hsz.
  destruct (kalloc_spec F0 fork_base fork_base_free)
    as (tf & s1 & E1 & [(H0 & _)|(Hin & Hpg & HF1 & m1 & fl1 & -> & _)]).
  { rewrite H0, size_empty in Hsz. discriminate Hsz. }
  pose proof fork_base_ctx as Hctx. pose proof fork_base_procs as Ep.
  change fork_machine with (final (give_space fork_base)). revert E1 HF1 Hctx Ep.
  generalize fork_base as s. intros s E1 HF1 Hctx Ep. set (s1 := set_mem m1 (set_freelist fl1 s)) in *.
  destruct (proc_pagetable_spec (F0 ∖ {[tf]}) 0 tf (upd_proc 0 (set_p_trapframe tf) s1))
    as (root & s2' & E2 & V2 & [(_ & _ & Hlow)|(_ & T & F & HU & Hlow & Hps)]).
  { by apply free_pages_upd_proc. }
  { erewrite proc_of_upd; [reflexivity|]. unfold s1. ksimp. by rewrite Ep. }
  { done. }
  { pose proof (size_remove F0 tf). lia. }
  rewrite (give_space_ok _ _ _ _ _ E1 E2).
  destruct (vstep_upd_proc _ _ _ _ _ V2) as (s2 & -> & (_ & m2 & fl2 & ->)).
  destruct (fork_machine_forker s m2 fl2 root tf T F) as (Hk & Hu & Hpp); [done|done|rewrite HU; clear; set_solver|exact Hps|].
  exists T, F. pose proof (size_remove F0 tf). split_and!; [exact Hk|lia|exact Hu|exact Hpp|].
  exists root, tf, m2, fl2. reflexivity.
Qed.

Lemma fork_correct_witness : exists s', fork fork_machine = Ok (nextpid fork_machine) s'.
Proof.
  destruct fork_machine_ok as (T0 & F & Hk & Hsz & Hun & _).
  destruct (@fork_correct test_layout test_layout_ok 0 0 T0 F [] fork_machine Hk)
    as [(s' & np & T & F' & pas & E & _)|(s' & _ & [[_ Hn]|(np & c & s1 & _ & _ & _ & _ & Hlow)])].
  - exists s'. exact E.
  - exfalso. apply (Hn 1%nat); [unfold NPROC; lia|exact Hun].
  - exfalso. cbn [length] in Hlow. lia.
Defined.
