(* ===== verification/WaitSpec.v ===== *)
(** * wait (kernel/proc.c)

    [wait] collects the first zombie child of the caller: it copies the exit
    status out, gives the child's memory back and frees its entry.  Without a
    zombie it fails at once when there is nothing to wait for, and sleeps
    otherwise. *)
From S2P Require Import Prelude Memory Machine Platform Sv32 Spinlock Printf Kalloc Vm Proc Sleeplock Bio Log Fs Console File Life.
From S2P Require Import ProcSpec VmSpec UserVm UserCopy ProcVm ForkSpec.
From stdpp Require Import gmap strings countable prelude.

Open Scope Z_scope.
#[local] Opaque memset.

Section Wait.
Context {L : Layout} {LO : LayoutOk L} {W : World}.

Definition child_of (me : nat) (s : kstate) (k : nat) : Prop := p_parent (proc_of s k) = Some me.
Definition zombie_of (me : nat) (s : kstate) (k : nat) : Prop :=
  child_of me s k /\ p_state (proc_of s k) = ZOMBIE.

#[local] Instance child_of_dec me s k : Decision (child_of me s k).
Proof. unfold child_of. apply _. Defined.

(** ** The scan *)

(** What [wait] does with a zombie, holding its lock and [wait_lock]. *)
Definition reap (pp p : nat) (addr : Z) : K (Z + bool) :=
  pid ← pget pp p_pid;
  pagetable ← pget p p_pagetable;
  xstate ← pget pp p_xstate;
  r ← (if addr =? 0 then mret 0 else copyout pagetable addr (bytes_of_u32 (u32 xstate)) 4);
  if r <? 0 then
    release (LProc pp) ;;
    release LWait ;;
    mret (inl (-1))
  else
    freeproc pp ;;
    release (LProc pp) ;;
    release LWait ;;
    mret (inl pid).

Section Scan.
Context (me : nat) (addr : Z) (s : kstate) (Hs : settled s)
  (Hl : forall i, (i < NPROC)%nat -> lock_free (LProc i) s).

Lemma wait_scan_step n i hk : (i < NPROC)%nat ->
  wait_scan (S n) i me addr hk (acq LWait s) =
  if decide (child_of me s i) then
    if decide (p_state (proc_of s i) = ZOMBIE) then reap i me addr (acq (LProc i) (acq LWait s))
    else wait_scan n (S i) me addr true (acq LWait s)
  else wait_scan n (S i) me addr hk (acq LWait s).
Proof.
  intros Hi. cbn [wait_scan]. rewrite bind_gets. change (proc_of (acq LWait s) i) with (proc_of s i).
  destruct (decide (child_of me s i)) as [Hc|Hc]; [rewrite decide_True by exact Hc|by rewrite decide_False by exact Hc].
  assert (lock_free (LProc i) (acq LWait s)) as Hf by (apply lock_free_acq_ne; [done|by apply Hl]).
  erewrite bind_ok by (apply acquire_ok; [by apply settled_acq|done]). rewrite bind_gets.
  change (proc_of (acq (LProc i) (acq LWait s)) i) with (proc_of s i). case_decide; [done|].
  erewrite bind_ok by (apply release_acq; [by apply settled_acq|done]). done.
Qed.

(** The scan stops at the first zombie, or finds out whether there are
    children. *)
Lemma wait_scan_spec n : forall i hk, (i + n <= NPROC)%nat ->
  (exists z, (i <= z < i + n)%nat /\ zombie_of me s z /\ (forall k, (i <= k < z)%nat -> ~ zombie_of me s k) /\
     wait_scan n i me addr hk (acq LWait s) = reap z me addr (acq (LProc z) (acq LWait s))) \/
  (exists hk', (forall k, (i <= k < i + n)%nat -> ~ zombie_of me s k) /\
     (hk' = true <-> hk = true \/ exists k, (i <= k < i + n)%nat /\ child_of me s k) /\
     wait_scan n i me addr hk (acq LWait s) = Ok (inr hk') (acq LWait s)).
Proof.
  induction n as [|n IH]; intros i hk Hi.
  { right. exists hk. split_and!; [intros k Hk; lia| |done]. split; [by left|]. intros [|(k & Hk & _)]; [done|lia]. }
  rewrite wait_scan_step by lia. destruct (decide (child_of me s i)) as [Hc|Hc].
  - destruct (decide (p_state (proc_of s i) = ZOMBIE)) as [Hz|Hz].
    { left. exists i. split_and!; [lia|lia|done|intros k Hk; lia|done]. }
    destruct (IH (S i) true) as [(z & Hz1 & Hz2 & Hz3 & E)|(hk' & Hn & Hk & E)]; [lia|left|right].
    + exists z. split_and!; [lia|lia|apply Hz2..| |done].
      intros k Hk. destruct (decide (k = i)) as [->|]; [by intros [_ ?]|apply Hz3; lia].
    + exists hk'. split_and!; [| |done].
      * intros k Hk'. destruct (decide (k = i)) as [->|]; [by intros [_ ?]|apply Hn; lia].
      * rewrite Hk. split; [|by left]. intros _. right. exists i. split; [lia|done].
  - destruct (IH (S i) hk) as [(z & Hz1 & Hz2 & Hz3 & E)|(hk' & Hn & Hk & E)]; [lia|left|right].
    + exists z. split_and!; [lia|lia|apply Hz2..| |done].
      intros k Hk. destruct (decide (k = i)) as [->|]; [by intros [? _]|apply Hz3; lia].
    + exists hk'. split_and!; [| |done].
      * intros k Hk'. destruct (decide (k = i)) as [->|]; [by intros [? _]|apply Hn; lia].
      * rewrite Hk. split; intros [|(k & Hk1 & Hk2)]; auto; right; exists k; (split; [|done]); [lia|].
        destruct (decide (k = i)) as [->|]; [done|lia].
Qed.
End Scan.

(** ** Collecting a zombie *)

(** User memory at [root] after the first [n] bytes of the status [x] are
    stored at [addr]; nothing is stored for a null pointer. *)
Definition status_stored (addr x : Z) (n : nat) (root len : Z) (m m' : gmap Z Z) : Prop :=
  forall va, is_u32 va -> vpn va < len -> ubyte m' root va =
    if decide (addr <> 0 /\ addr <= va < addr + Z.of_nat n)
    then u8 (at_ (bytes_of_u32 (u32 x)) (Z.to_nat (va - addr))) else ubyte m root va.

Lemma copy_status z addr x T F pas p s :
  owns T F pas p s -> is_u32 addr -> addr + 4 <= 2 ^ 32 ->
  exists r n s1, (if addr =? 0 then mret 0 else copyout (p_pagetable p) addr (bytes_of_u32 (u32 x)) 4)
      (acq (LProc z) (acq LWait s)) = Ok r (acq (LProc z) (acq LWait s1)) /\
    vstep (list_to_set pas) s s1 /\ owns T F pas p s1 /\
    status_stored addr x n (p_pagetable p) (Z.of_nat (length pas)) (mem s) (mem s1) /\
    ((r = 0 /\ n = 4%nat /\ (addr = 0 \/ range_ok (mem s) (p_pagetable p) addr 4)) \/
     (r = -1 /\ addr <> 0 /\ (n < 4)%nat /\ accessible (mem s) (p_pagetable p) (addr + Z.of_nat n) = false)).
Proof.
  intros Ho Ha Hlim. pose proof (owns_free _ _ _ _ _ Ho) as HF. destruct (Z.eqb_spec addr 0) as [->|Hnz].
  { exists 0, 4%nat, s. split_and!; [done|apply vstep_refl|done| |left; auto].
    intros va _ _. by rewrite decide_False by tauto. }
  set (a := acq (LProc z) (acq LWait s)).
  assert (free_pages F a) as HFa by (by apply free_pages_acq; [apply free_pages_acq|]).
  pose proof (ow_space _ _ _ _ _ Ho) as Hps.
  destruct (copyout_spec T F (p_pagetable p) pas addr (bytes_of_u32 (u32 x)) a) as (r & n & s' & E & [Hu V Hpt Hb] & _ & Hrk & Hr).
  { eapply ps_uvm, pspace_same; [exact Hps|done|done]. }
  { exact (pspace_only_user _ _ _ _ _ _ Hps). }
  { done. }
  { cbn. lia. }
  apply vstep_acq_inv in V as (y & -> & V). apply vstep_acq_inv in V as (s1 & -> & V).
  exists r, n, s1. split_and!; [done|done| | |].
  - destruct Ho as [_ Htf Hsz Hn]. split; [|done..].
    eapply (pspace_same _ _ _ _ _ (acq (LProc z) (acq LWait s1))); [|done|].
    + destruct Hps as [_ Hh Hroom Hp]. split; [done| |done|done]. intros va Hva Hv. rewrite Hpt. by apply Hh.
    + eapply free_pages_same; [apply Hu| | |done|done].
      * destruct V as (_ & m' & fl & ->). destruct (fp_settled _ _ HF); by split.
      * cbn. by rewrite !lookup_insert_ne.
  - intros va Hva Hv. pose proof (Hb va Hva Hv) as E'. cbn in E'. rewrite E'. repeat case_decide; tauto.
  - destruct Hr as [[-> ->]|(-> & ? & ?)]; [left|right; done]. split_and!; [done|done|by right].
Qed.

(** What is left when the zombie [z] is collected: it owned the pages [T] of
    its table, the user pages [pas] and its trap frame, and these, [owned], are
    free now. *)
Record reaped (me z : nat) (addr : Z) (T0 T F : gset Z) (pas0 pas : list Z) (s s' : kstate) : Prop := {
  re_zombie : owns T F pas (proc_of s z) s;
  re_state : exists s1, s' = upd_proc z cleared s1 /\
    vstep (list_to_set pas0 ∪ (owned T pas (proc_of s z) ∪ F)) s s1;
  re_free : free_pages (owned T pas (proc_of s z) ∪ F) s';
  re_parent : owns T0 (owned T pas (proc_of s z) ∪ F) pas0 (proc_of s me) s';
  re_status : status_stored addr (p_xstate (proc_of s z)) 4 (p_pagetable (proc_of s me))
    (Z.of_nat (length pas0)) (mem s) (mem s');
}.

Lemma owns_pages T F pas p s x : owns T F pas p s -> x ∈ owned T pas p ∪ F -> page x.
Proof.
  intros Ho Hx. pose proof (owns_free _ _ _ _ _ Ho) as HF.
  destruct Ho as [[[[Hok _ _] _ [_ Hfr] _] _ _ Hp] _ _ _]. unfold owned in Hx.
  rewrite !elem_of_union, elem_of_singleton, elem_of_list_to_set in Hx.
  destruct Hx as [[->|[Hx|Hx]]|Hx]; [done|apply (Hfr x Hx)|by eapply pt_pages|by eapply free_pages_page].
Qed.

Lemma reap_spec me z addr T0 T F pas0 pas s :
  ctx me s -> (z < NPROC)%nat -> is_u32 addr -> addr + 4 <= 2 ^ 32 ->
  owns T0 F pas0 (proc_of s me) s -> owns T F pas (proc_of s z) s ->
  owned T pas (proc_of s z) ## owned T0 pas0 (proc_of s me) ->
  exists r s', reap z me addr (acq (LProc z) (acq LWait s)) = Ok (inl r) s' /\
   ((r = p_pid (proc_of s z) /\ (addr = 0 \/ range_ok (mem s) (p_pagetable (proc_of s me)) addr 4) /\
       reaped me z addr T0 T F pas0 pas s s') \/
    (r = -1 /\ addr <> 0 /\ exists n, (n < 4)%nat /\
       accessible (mem s) (p_pagetable (proc_of s me)) (addr + Z.of_nat n) = false /\
       vstep (list_to_set pas0) s s' /\ free_pages F s' /\
       status_stored addr (p_xstate (proc_of s z)) n (p_pagetable (proc_of s me))
         (Z.of_nat (length pas0)) (mem s) (mem s'))).
Proof.
  intros Hctx Hz Ha Hlim Ho0 Ho Hdj. pose proof (ctx_settled _ _ Hctx) as Hs.
  assert (lock_free (LProc z) s /\ lock_free LWait s) as [L1 L2] by (split; by apply (ctx_locks _ _ Hctx)).
  unfold reap. rewrite !bind_gets.
  change (proc_of (acq (LProc z) (acq LWait s))) with (proc_of s).
  destruct (copy_status z addr (p_xstate (proc_of s z)) T0 F pas0 (proc_of s me) s Ho0 Ha Hlim)
    as (r & n & s1 & E & V & Ho01 & Hst & Hr). pose proof (owns_free _ _ _ _ _ Ho01) as HF1. rewrite (bind_ok _ _ _ _ _ E).
  assert (settled s1 /\ lock_free (LProc z) s1 /\ lock_free LWait s1 /\ procs s1 = procs s) as (Hs1 & L1' & L2' & Ep).
  { destruct V as (_ & m' & fl & ->). destruct Hs; by repeat split. }
  assert (lock_free (LProc z) (acq LWait s1)) as L1a by (by apply lock_free_acq_ne).
  destruct Hr as [(-> & -> & Hok)|(-> & Hnz & Hn & Hna)]; cbn [Z.ltb Z.compare].
  2:{ erewrite bind_ok by (apply release_acq; [by apply settled_acq|done]).
      erewrite bind_ok by (by apply release_acq). exists (-1), s1. split; [done|]. right.
      split_and!; [done|done|]. by exists n. }
  pose proof (owns_disj _ _ _ _ _ Ho) as Hd. pose proof (owns_disj _ _ _ _ _ Ho0) as Hd0.
  set (O := owned T pas (proc_of s z)) in *.
  assert (list_to_set pas0 ## T /\ (forall x, x ∈ (list_to_set pas0 : gset Z) -> page x)) as [Hd1 Hp0].
  { split; [unfold O, owned in Hdj; clear -Hdj; set_solver|]. intros x Hx. eapply (owns_pages _ _ _ _ _ _ Ho0).
    unfold owned. clear -Hx. set_solver. }
  assert (owns T F pas (proc_of s z) s1) as Ho1 by (by eapply owns_frame; [exact Ho|apply V|..]).
  assert (procs s !! z = Some (proc_of s z)) as Hpz by (apply lookup_proc_of; by rewrite (ctx_procs _ _ Hctx)).
  set (a := acq (LProc z) (acq LWait s1)).
  assert (free_pages F a) as HFa by (by apply free_pages_acq; [apply free_pages_acq|]).
  destruct (freeproc_spec F O z (proc_of s z) a HFa) as (s2' & E2 & V2 & HF2).
  { change (procs a) with (procs s1). by rewrite Ep. }
  { apply pmem_all. by eapply owns_same. }
  rewrite (bind_ok _ _ _ _ _ E2). apply vstep_acq_inv in V2 as (y & -> & V2). apply vstep_acq_inv in V2 as (s2 & -> & V2).
  assert (settled s2 /\ lock_free (LProc z) s2 /\ lock_free LWait s2) as (Hs2 & L1'' & L2'').
  { destruct V2 as (_ & m' & fl & ->). destruct Hs1; by repeat split. }
  erewrite bind_ok by (apply critical_proc; [by apply settled_acq|by apply lock_free_acq_ne]).
  erewrite bind_ok by (by apply critical_proc).
  assert (free_pages (O ∪ F) s2) as HF3.
  { eapply free_pages_same; [exact HF2|done| |done|done]. cbn. by rewrite !lookup_insert_ne. }
  assert ((O ∪ F) ## owned T0 pas0 (proc_of s me)) as HdOF by (clear -Hdj Hd0; set_solver).
  assert (forall x, x ∈ O ∪ F -> page x) as HpOF by (intros x; by apply (owns_pages _ _ _ _ _ _ Ho)).
  exists (p_pid (proc_of s z)). eexists. split; [reflexivity|]. left. split_and!; [done|done|]. split.
  - exact Ho.
  - exists s2. split; [done|]. eapply vstep_trans; (eapply vstep_mono; [|eassumption]); clear; set_solver.
  - by apply free_pages_upd_proc.
  - eapply (owns_frame (O ∪ F)); [exact Ho01|apply V2|done| |by apply free_pages_upd_proc|done].
    unfold owned in HdOF. clear -HdOF. set_solver.
  - intros va Hva Hv. rewrite <- (Hst va Hva Hv). change (mem (upd_proc z cleared s2)) with (mem s2).
    by eapply (ubyte_frame (O ∪ F)); [exact Ho01|apply V2|..].
Qed.

(** ** The whole *)

Lemma wait_loop_eq fuel p addr s :
  wait_loop fuel p addr s =
  (r ← wait_scan NPROC 0 p addr false;
   match r with
   | inl r => mret r
   | inr havekids =>
     stop ← (if negb havekids then mret true else k ← killed p; mret (negb (k =? 0)));
     if (stop : bool) then
       release LWait ;;
       mret (-1)
     else
       match fuel with
       | O => hang
       | S fuel' => sleep (CProc p) LWait ;; wait_loop fuel' p addr
       end
   end) s.
Proof. by destruct fuel. Qed.

Definition first_zombie (me : nat) (s : kstate) (z : nat) : Prop :=
  (z < NPROC)%nat /\ zombie_of me s z /\ forall k, (k < z)%nat -> ~ zombie_of me s k.
Definition no_zombie (me : nat) (s : kstate) : Prop := forall k, (k < NPROC)%nat -> ~ zombie_of me s k.
Definition has_child (me : nat) (s : kstate) : Prop := exists k, (k < NPROC)%nat /\ child_of me s k.

(** One turn of the loop of [wait]. *)
Lemma wait_loop_cases fuel me addr s :
  ctx me s ->
  (exists z, first_zombie me s z /\ forall r s',
     reap z me addr (acq (LProc z) (acq LWait s)) = Ok (inl r) s' -> wait_loop fuel me addr (acq LWait s) = Ok r s') \/
  (no_zombie me s /\ (~ has_child me s \/ p_killed (proc_of s me) <> 0) /\
     wait_loop fuel me addr (acq LWait s) = Ok (-1) s) \/
  (no_zombie me s /\ has_child me s /\ p_killed (proc_of s me) = 0 /\
     wait_loop fuel me addr (acq LWait s) =
       match fuel with
       | O => Hang (acq LWait s)
       | S n => (sleep (CProc me) LWait ;; wait_loop n me addr) (acq LWait s)
       end).
Proof.
  intros Hctx. pose proof (ctx_settled _ _ Hctx) as Hs.
  assert (lock_free LWait s) as L2 by (by apply (ctx_locks _ _ Hctx)).
  assert (forall i, (i < NPROC)%nat -> lock_free (LProc i) s) as L1 by (intros i Hi; by apply (ctx_locks _ _ Hctx)).
  rewrite wait_loop_eq.
  destruct (wait_scan_spec me addr s Hs L1 NPROC 0 false) as [(z & Hz & Hzz & Hf & E)|(hk & Hn & Hk & E)]; [lia|left|right].
  - exists z. split; [split_and!; [lia|apply Hzz..|]; intros k Hk; apply Hf; lia|].
    intros r s' E'. erewrite bind_ok by (rewrite E; exact E'). done.
  - rewrite (bind_ok _ _ _ _ _ E).
    assert (no_zombie me s) as Hnz by (intros k Hk'; apply Hn; lia).
    assert (hk = true <-> has_child me s) as Hkc.
    { rewrite Hk. unfold has_child. split; [intros [?|(k & ? & ?)]; [done|exists k; split; [lia|done]]|].
      intros (k & ? & ?). right. exists k. split; [lia|done]. }
    assert (release LWait (acq LWait s) = Ok tt s) as Erel by (by apply release_acq).
    destruct hk; cbn [negb].
    + assert (killed me (acq LWait s) = Ok (p_killed (proc_of s me)) (acq LWait s)) as Ek.
      { apply (killed_ok me (acq LWait s)); [by apply settled_acq|]. apply lock_free_acq_ne; [done|]. apply L1, Hctx. }
      rewrite bind_assoc, (bind_ok _ _ _ _ _ Ek), bind_ret.
      destruct (Z.eqb_spec (p_killed (proc_of s me)) 0) as [Hz|Hz]; cbn [negb]; [right|left].
      * split_and!; [done|by apply Hkc|done|]. by destruct fuel.
      * rewrite (bind_ok _ _ _ _ _ Erel). split_and!; [done|by right|done].
    + left. rewrite bind_ret, (bind_ok _ _ _ _ _ Erel). split_and!; [done|left|done].
      intros Hc. by apply Hkc in Hc.
Qed.

Lemma wait_is_loop me addr s : ctx me s -> wait addr s = wait_loop patience me addr (acq LWait s).
Proof.
  intros Hctx. unfold wait. erewrite bind_ok by (apply curproc_ok; apply Hctx).
  by erewrite bind_ok by (apply acquire_ok; [apply Hctx|by apply (ctx_locks _ _ Hctx)]).
Qed.

(** C15: [wait] of a process that owns its memory, where each zombie child [z]
    owns its own, the pages [Tz z] of its page table, its user pages [pz z] and
    its trap frame.  With a zombie child, the first in the table is collected:
    [wait] returns its pid, its exit status is at [addr] in user memory unless
    [addr] is null, its entry is free, exactly those pages of the child are free
    pages besides the ones that were, and the caller still owns its memory,
    otherwise unchanged; when the status cannot be stored it returns -1, the
    child stays, and at most the accessible bytes of the status are written.
    Without a zombie it returns -1 and changes nothing if there is no child or
    the caller is killed, and goes to sleep on its own entry otherwise. *)
Theorem wait_correct me addr T0 F pas0 (Tz : nat -> gset Z) (pz : nat -> list Z) s :
  ctx me s -> is_u32 addr -> addr + 4 <= 2 ^ 32 -> owns T0 F pas0 (proc_of s me) s ->
  (forall z, (z < NPROC)%nat -> zombie_of me s z -> owns (Tz z) F (pz z) (proc_of s z) s /\
     owned (Tz z) (pz z) (proc_of s z) ## owned T0 pas0 (proc_of s me)) ->
  let root := p_pagetable (proc_of s me) in
  (exists z s', first_zombie me s z /\ (addr = 0 \/ range_ok (mem s) root addr 4) /\
     wait addr s = Ok (p_pid (proc_of s z)) s' /\ reaped me z addr T0 (Tz z) F pas0 (pz z) s s') \/
  (exists z n s', first_zombie me s z /\ addr <> 0 /\ (n < 4)%nat /\
     accessible (mem s) root (addr + Z.of_nat n) = false /\ wait addr s = Ok (-1) s' /\
     vstep (list_to_set pas0) s s' /\ free_pages F s' /\
     status_stored addr (p_xstate (proc_of s z)) n root (Z.of_nat (length pas0)) (mem s) (mem s')) \/
  (no_zombie me s /\ (~ has_child me s \/ p_killed (proc_of s me) <> 0) /\ wait addr s = Ok (-1) s) \/
  (no_zombie me s /\ has_child me s /\ p_killed (proc_of s me) = 0 /\
     wait addr s = match patience with
                   | O => Hang (acq LWait s)
                   | S n => (sleep (CProc me) LWait ;; wait_loop n me addr) (acq LWait s)
                   end).
Proof.
  intros Hctx Ha Hlim Ho0 Hz root.
  rewrite (wait_is_loop me) by done.
  destruct (wait_loop_cases patience me addr s Hctx) as [(z & Hfz & Hw)|[?|?]]; [|tauto..].
  pose proof Hfz as (Hzn & Hzz & _). destruct (Hz z Hzn Hzz) as [Ho Hd].
  destruct (reap_spec me z addr T0 (Tz z) F pas0 (pz z) s) as (r & s' & E & [(-> & Hok & Hre)|(-> & Hnz & n & Hn & Hna & V & HF & Hst)]);
    [done..|left|right; left].
  - exists z, s'. split_and!; [done|done|by apply Hw|done].
  - exists z, n, s'. split_and!; try done. by apply Hw.
Qed.

(** A zombie that is the first in the table is the one collected. *)
Lemma collect fuel addr me np T0 T F pas0 pas s :
  ctx me s -> first_zombie me s np -> is_u32 addr -> addr + 4 <= 2 ^ 32 ->
  owns T F pas (proc_of s np) s -> owns T0 F pas0 (proc_of s me) s ->
  owned T pas (proc_of s np) ## owned T0 pas0 (proc_of s me) ->
  addr = 0 \/ range_ok (mem s) (p_pagetable (proc_of s me)) addr 4 ->
  exists s', wait_loop fuel me addr (acq LWait s) = Ok (p_pid (proc_of s np)) s' /\
    reaped me np addr T0 T F pas0 pas s s'.
Proof.
  intros Hctx Hfz Ha Hlim Ho Ho0 Hd Hr.
  destruct (wait_loop_cases fuel me addr s Hctx) as [(z & Hz & Hw)|[(Hn & _)|(Hn & _)]];
    [|destruct Hfz as (H1 & H2 & _); by destruct (Hn np H1)..].
  assert (z = np) as ->.
  { destruct Hfz as (_ & Z1 & Z2), Hz as (_ & Z3 & Z4). destruct (lt_eq_lt_dec z np) as [[Hlt|?]|Hlt]; [|done|].
    - by destruct (Z2 z Hlt).
    - by destruct (Z4 np Hlt). }
  destruct (reap_spec me np addr T0 T F pas0 pas s) as (r & s3 & E & [(-> & _ & Hre)|(_ & Hnz & n & Hn & Hna & _)]);
    [done|apply Hz|done..| |].
  - exists s3. split; [by apply Hw|done].
  - destruct Hr as [|Hr]; [done|]. rewrite Hr in Hna by lia. done.
Qed.

(** The parent and its child where the child, made by [fork], is a zombie. *)
Record collectable (me np : nat) (pid tf : Z) (T0 T F' : gset Z) (pas0 pas : list Z) (p : proc) (s2 : kstate) : Prop := {
  cl_ctx : ctx me s2;
  cl_zombie : first_zombie me s2 np;
  cl_pid : p_pid (proc_of s2 np) = pid;
  cl_tf : p_trapframe (proc_of s2 np) = tf;
  cl_child : owns T F' pas (proc_of s2 np) s2;
  cl_parent : owns T0 F' pas0 (proc_of s2 me) s2;
  cl_ptf : p_trapframe (proc_of s2 me) = p_trapframe p;
}.

(** A child that exits at once is collectable. *)
Lemma zombie_collectable me ip T0 F pas0 s s1 np T F' pas :
  forker me ip T0 F pas0 s -> forked me ip T0 F pas0 s s1 np T F' pas ->
  (forall k, ~ child_of me s k) ->
  collectable me np (nextpid s) (p_trapframe (proc_of s1 np)) T0 T F' pas0 pas (proc_of s me)
    (upd_proc np (set_p_state ZOMBIE) s1).
Proof.
  intros Hk Hf Hnc. pose proof (fk_ctx _ _ _ _ _ _ Hk) as [Hs Hl Hc Hp Hm].
  destruct (fd_np _ _ _ _ _ _ _ _ _ _ _ Hf) as [Hnp Hfu].
  assert (np <> me) as Hne by (intros ->; destruct Hfu; by destruct (fk_state _ _ _ _ _ _ Hk)).
  pose proof (fd_child _ _ _ _ _ _ _ _ _ _ _ Hf) as Hch. pose proof (fd_parent _ _ _ _ _ _ _ _ _ _ _ Hf) as Hpa.
  destruct (fd_state _ _ _ _ _ _ _ _ _ _ _ Hf) as (root & tf & m' & fl & Es & _ & Etf).
  pose proof (lookup_proc_of s np ltac:(by rewrite Hp)) as Hq.
  set (c := child me (nextpid s) tf root (proc_of s me) (proc_of s np)).
  assert (procs s1 !! np = Some c) as Hc1 by (rewrite Es; cbn; by rewrite list_lookup_alter_eq, Hq).
  assert (proc_of s1 np = c) as E1 by (by apply proc_of_lookup).
  assert (proc_of s1 me = proc_of s me) as E2 by (rewrite Es; rewrite proc_of_upd_ne by done; done).
  assert (forall k, k <> np -> proc_of (upd_proc np (set_p_state ZOMBIE) s1) k = proc_of s k) as Eo.
  { intros k Hkn. rewrite proc_of_upd_ne, Es, proc_of_upd_ne by done. done. }
  split; rewrite ?(proc_of_upd _ _ _ _ Hc1), ?(Eo me) by done.
  - rewrite Es. split; [destruct Hs; by split|exact Hl|exact Hc| |done]. cbn. by rewrite !length_alter.
  - split; [done|]. split; [split; unfold child_of; by rewrite (proc_of_upd _ _ _ _ Hc1)|].
    intros k Hkn [Hck _]. unfold child_of in Hck. rewrite Eo in Hck by lia. by apply (Hnc k).
  - done.
  - by rewrite E1.
  - rewrite E1 in Hch. destruct Hch as [Hps Htf Hsz Hn]. split; try done.
    eapply pspace_same; [exact Hps|done|]. apply free_pages_upd_proc.
    exact (sp_free _ _ _ _ (uv_space _ _ _ _ _ (ps_uvm _ _ _ _ _ _ Hps))).
  - rewrite E2 in Hpa. eapply owns_same; [exact Hpa|done|]. apply free_pages_upd_proc. by eapply owns_free.
  - done.
Qed.

(** It is the only zombie, and its pages are not the parent's. *)
Lemma zombie_alone me ip T0 F pas0 s s1 np T F' pas :
  forker me ip T0 F pas0 s -> forked me ip T0 F pas0 s s1 np T F' pas ->
  (forall k, ~ child_of me s k) ->
  let s2 := upd_proc np (set_p_state ZOMBIE) s1 in
  forall z, zombie_of me s2 z -> z = np /\ owns T F' pas (proc_of s2 z) s2 /\
    owned T pas (proc_of s2 z) ## owned T0 pas0 (proc_of s2 me).
Proof.
  intros Hk Hf Hnc s2 z [Hc _].
  pose proof (zombie_collectable _ _ _ _ _ _ _ _ _ _ _ Hk Hf Hnc) as [_ _ _ Htf Ho _ Hptf]. fold s2 in Htf, Ho, Hptf.
  assert (z = np) as ->.
  { destruct (decide (z = np)) as [|Hne]; [done|]. destruct (Hnc z). unfold child_of, s2 in *.
    destruct (fd_state _ _ _ _ _ _ _ _ _ _ _ Hf) as (root & tf & m' & fl & Es & _).
    rewrite proc_of_upd_ne, Es, proc_of_upd_ne in Hc by done. exact Hc. }
  split_and!; [done|done|]. unfold owned. rewrite Htf, Hptf.
  pose proof (owns_disj _ _ _ _ _ (fk_mem _ _ _ _ _ _ Hk)) as Hd.
  rewrite <- (fd_pages _ _ _ _ _ _ _ _ _ _ _ Hf) in Hd. unfold owned in Hd. clear -Hd. set_solver.
Qed.
End Wait.

(** ** The machine of ForkSpec.v: the child exits and is collected *)

#[local] Existing Instance test_layout.
#[local] Existing Instance test_layout_ok.
#[local] Existing Instance waker_world.

Lemma fork_machine_alone k : ~ child_of 0 fork_machine k.
Proof. destruct fork_machine_ok as (_ & _ & _ & _ & _ & H & _). unfold child_of. rewrite H. discriminate. Qed.

#[local] Opaque fork_machine.
Lemma wait_correct_witness : exists s2 s3,
  ctx 0 s2 /\ (exists z, first_zombie 0 s2 z) /\ wait 0 s2 = Ok (nextpid fork_machine) s3.
Proof.
  destruct fork_machine_ok as (T0 & F & Hk & Hsz & Hun & _).
  destruct (fork_spec 0 0 T0 F [] fork_machine Hk) as [(s1 & np & T & F' & pas & E & Hf)|(s' & _ & [[_ Hn]|Hn])].
  2:{ assert (1 < NPROC)%nat as H1 by (unfold NPROC; lia). destruct (Hn 1%nat H1 Hun). }
  2:{ destruct Hn as (? & ? & ? & _ & _ & _ & _ & Hlow). exfalso. cbn [length] in Hlow. lia. }
  pose proof (zombie_collectable _ _ _ _ _ _ _ _ _ _ _ Hk Hf fork_machine_alone) as [Hctx Hfz Hpid _ _ Ho0 _].
  pose proof (zombie_alone _ _ _ _ _ _ _ _ _ _ _ Hk Hf fork_machine_alone) as Hone. cbv zeta in Hone.
  revert Hctx Hfz Hpid Ho0 Hone. generalize (upd_proc np (set_p_state ZOMBIE) s1) as s2. intros s2 Hctx Hfz Hpid Ho0 Hone.
  destruct (wait_correct 0 0 T0 F' [] (fun _ => T) (fun _ => pas) s2 Hctx) as [(z & s3 & Hz & _ & Ew & _)|[(z & n & s3 & _ & Hnz & _)|[(Hn & _)|(Hn & _)]]].
  - unfold is_u32. lia.
  - lia.
  - exact Ho0.
  - intros z _ Hzz. destruct (Hone z Hzz) as (_ & H1 & H2). split; [exact H1|exact H2].
  - exists s2, s3. split; [exact Hctx|]. split; [exists np; exact Hfz|].
    rewrite Ew. destruct Hz as (_ & Hz2 & _). destruct (Hone z Hz2) as (-> & _). rewrite Hpid. reflexivity.
  - destruct (Hnz eq_refl).
  - destruct Hfz as (Hz1 & Hz2 & _). destruct (Hn np Hz1 Hz2).
  - destruct Hfz as (Hz1 & Hz2 & _). destruct (Hn np Hz1 Hz2).
Defined.
