(* ===== verification/ExitSpec.v ===== *)
(** * exit (kernel/proc.c)

    [exit] closes the files of the process and leaves its directory, gives its
    children to init, wakes its parent and becomes a zombie.  The files may
    be open elsewhere or not: the last reference to one closes an end of a
    pipe, or gives up an inode. *)
From S2P Require Import Prelude Memory Machine Platform Sv32 Spinlock Printf Kalloc Vm Proc Sleeplock Bio Log Fs Console File Life.
From S2P Require Import ProcSpec SleepSpec LogSpec LogTx VmSpec UserVm UserCopy ProcVm ForkSpec WaitSpec.
From stdpp Require Import gmap strings countable prelude.

Open Scope Z_scope.
#[local] Opaque memset.

Section Exit.
Context {L : Layout} {LO : LayoutOk L} {W : World} {D : DiskDriver}.

(** ** Giving up an inode *)

(** [iput] of a reference that is not the last one, or of an entry that was not
    read or has a link, only drops the reference. *)
Lemma iput_drops me i s : ctx me s -> i_ref (ip_of s i) <> 1 \/ i_valid (ip_of s i) = 0 \/ i_nlink (ip_of s i) <> 0 ->
  iput i s = Ok tt (upd_inode i (fun ip => set_i_ref (i_ref ip - 1) ip) s).
Proof.
  intros Hc Hr. pose proof (ctx_settled _ _ Hc) as Hs. pose proof (ctx_locks _ _ Hc LItable I) as Hf.
  unfold iput. rewrite (bind_ok _ _ _ _ _ (acquire_ok LItable s Hs Hf)), bind_gets.
  change (ip_of (acq LItable s) i) with (ip_of s i).
  assert (E : (i_ref (ip_of s i) =? 1) && negb (i_valid (ip_of s i) =? 0) && (i_nlink (ip_of s i) =? 0) = false).
  { destruct Hr as [H|[H|H]]; [by rewrite (proj2 (Z.eqb_neq _ _) H)| |].
    - rewrite H. cbn. by rewrite andb_false_r.
    - rewrite (proj2 (Z.eqb_neq _ _) H). apply andb_false_r. }
  rewrite E, bind_ret. unfold iset. rewrite bind_modify.
  change (upd_inode i ?g (acq LItable s)) with (acq LItable (upd_inode i g s)).
  apply release_acq; [|exact Hf]. destruct Hs; by split.
Qed.

(** No file system operation is going on. *)
Definition log_idle (l : logstate) : Prop := log_committing l = 0 /\ log_outstanding l = 0 /\ lh_n l = 0.
(** An operation may begin, and commits nothing if it is the only one and
    writes nothing. *)
Record log_room (l : logstate) : Prop := {
  lr_committing : log_committing l = 0;
  lr_room : lh_n l + (log_outstanding l + 1) * MAXOPBLOCKS <= LOGSIZE;
  lr_empty : log_outstanding l = 0 -> lh_n l = 0;
}.
Lemma log_idle_room l : log_idle l -> log_room l.
Proof. intros (H1 & H2 & H3). split; [done| |done]. rewrite H2, H3. vm_compute. discriminate. Qed.

Lemma log_back l : set_log_outstanding (log_outstanding l + 1 - 1) (set_log_outstanding (log_outstanding l + 1) l) = l.
Proof. destruct l as [a1 a2 a3 a4 a5 a6 a7]. unfold set_log_outstanding. ksimp. f_equal. lia. Qed.
Lemma log_committed l : log_committing l = 0 -> set_log_committing 0 (set_log_committing 1 l) = l.
Proof. destruct l as [a1 a2 a3 a4 a5 a6 a7]. unfold set_log_committing. ksimp. by intros ->. Qed.

(** The end of an operation that wrote nothing. *)
Lemma end_op_nothing me s :
  ctx me s -> log_room (log s) ->
  end_op (upd_log (fun l => set_log_outstanding (log_outstanding l + 1) l) s) = Ok tt (woken_on me CLog s).
Proof.
  intros Hc [H1 H2 H3]. pose proof (ctx_settled _ _ Hc) as Hs. pose proof (ctx_locks _ _ Hc LLog I) as Hf.
  set (s1 := upd_log _ s). assert (ctx me s1) as Hc1 by (by apply ctx_upd_log).
  unfold end_op. erewrite bind_ok by (apply acquire_ok; [apply Hc1|done]). unfold lset. rewrite bind_modify, bind_gets.
  assert (upd_log (fun l => set_log_outstanding (log_outstanding l - 1) l) (acq LLog s1) = acq LLog s) as ->.
  { change (acq LLog (set_log (set_log_outstanding (log_outstanding (log s) + 1 - 1)
      (set_log_outstanding (log_outstanding (log s) + 1) (log s))) s) = acq LLog s). rewrite log_back. by destruct s. }
  change (log (acq LLog s)) with (log s). rewrite H1. cbn [Z.eqb negb].
  assert (settled (woken_on me CLog s)) as Hsw by (destruct Hs; by split).
  destruct (Z.eqb_spec (log_outstanding (log s)) 0) as [E0|E0].
  - rewrite bind_modify. change (upd_log ?f (acq LLog s)) with (acq LLog (upd_log f s)).
    set (s2 := upd_log _ s). assert (ctx me s2) as Hc2 by (by apply ctx_upd_log).
    erewrite bind_ok by (apply release_acq; [apply Hc2|done]).
    assert (commit s2 = Ok tt s2) as Ec.
    { unfold commit. msimp. change (lh_n (log s2)) with (lh_n (log s)). by rewrite H3. }
    rewrite (bind_ok _ _ _ _ _ Ec). erewrite bind_ok by (apply acquire_ok; [apply Hc2|done]). rewrite bind_modify.
    assert (upd_log (set_log_committing 0) (acq LLog s2) = acq LLog s) as ->.
    { change (acq LLog (set_log (set_log_committing 0 (set_log_committing 1 (log s))) s) = acq LLog s).
      rewrite log_committed by done. by destruct s. }
    erewrite bind_ok by (by apply (wakeup_under me)). by apply release_acq.
  - erewrite bind_ok by (by apply (wakeup_under me)). by apply release_acq.
Qed.

(** The reference to inode [i] can be given up without freeing it: it was not
    read in, or it has a link. *)
Definition linked_inode (s : kstate) (i : nat) : Prop := i_valid (ip_of s i) = 0 \/ i_nlink (ip_of s i) <> 0.
Definition drop_inode (i : nat) (s : kstate) : kstate := upd_inode i (fun x => set_i_ref (i_ref x - 1) x) s.

Lemma put_inode me i s : ctx me s -> log_room (log s) -> i_ref (ip_of s i) <> 1 \/ linked_inode s i ->
  (begin_op ;; iput i ;; end_op) s = Ok tt (woken_on me CLog (drop_inode i s)).
Proof.
  intros Hc Hl Hi.
  erewrite bind_ok by (apply (begin_op_ok me); [done|apply Hl|apply Hl]). set (s1 := upd_log _ s).
  erewrite bind_ok by (apply (iput_drops me); [by apply ctx_upd_log|]; destruct Hi as [|[|]]; tauto).
  apply (end_op_nothing me (drop_inode i s)); [|done]. destruct Hc as [[] ? ? ? ?]. by split.
Qed.

(** ** Closing an end of a pipe *)

(** The state with the end marked closed and the other side woken. *)
Definition end_marked (me : nat) (pi writable : Z) (s : kstate) : kstate :=
  if negb (writable =? 0)
  then woken_on me (CPipeR pi) (set_mem (store32 (mem s) (pi + PI_writeopen) 0) s)
  else woken_on me (CPipeW pi) (set_mem (store32 (mem s) (pi + PI_readopen) 0) s).
(** The page of the pipe is given back when both ends are closed. *)
Definition end_shut (me : nat) (pi writable : Z) (s : kstate) : kstate :=
  let t := end_marked me pi writable s in
  if (load32 (mem t) (pi + PI_readopen) =? 0) && (load32 (mem t) (pi + PI_writeopen) =? 0) then freed pi t else t.

Lemma pipeclose_ok me pi w s :
  ctx me s -> lock_free (LPipe pi) s -> page pi -> pipeclose pi w s = Ok tt (end_shut me pi w s).
Proof.
  intros Hc Hl Hp. pose proof (ctx_settled _ _ Hc) as Hs. unfold pipeclose, pi_set, pi_get.
  erewrite bind_ok by (by apply acquire_ok). unfold end_shut. set (t := end_marked me pi w s).
  assert (ctx me t /\ lock_free (LPipe pi) t) as [Hct Hlt].
  { unfold t, end_marked. destruct (negb (w =? 0)); (split; [apply ctx_woken_on; destruct Hc as [[] ? ? ? ?]; by split|done]). }
  rewrite (bind_ok _ _ _ tt (acq (LPipe pi) t)).
  2:{ unfold t, end_marked. destruct (negb (w =? 0)); rewrite bind_modify;
        change (set_mem (store32 (mem (acq (LPipe pi) s)) ?a 0) (acq (LPipe pi) s)) with (acq (LPipe pi) (set_mem (store32 (mem s) a 0) s));
        apply (wakeup_under me); try done; destruct Hc as [[] ? ? ? ?]; by split. }
  rewrite !bind_gets. change (mem (acq (LPipe pi) t)) with (mem t).
  destruct (_ && _).
  - erewrite bind_ok by (apply release_acq; [apply Hct|done]).
    apply kfree_ok; [apply Hct|by apply (ctx_locks _ _ Hct)|done].
  - apply release_acq; [apply Hct|done].
Qed.

(** ** Closing a file *)

Definition shut_file (x : file) : file := set_f_type FD_NONE (set_f_ref 0 x).

(** What [fileclose] of file [f] leaves: one reference less; with the last one
    the entry of the file is free, its inode has one reference less, or its end
    of the pipe is closed. *)
Definition let_go (me f : nat) (s : kstate) : kstate :=
  let x := file_of s f in
  if 1 <? f_ref x then upd_file f (fun x => set_f_ref (f_ref x - 1) x) s else
  let t := upd_file f shut_file s in
  match f_type x, f_ip x with
  | FD_PIPE, _ => end_shut me (f_pipe x) (f_writable x) t
  | (FD_INODE | FD_DEVICE), Some i => woken_on me CLog (drop_inode i t)
  | _, _ => t
  end.

(** A file whose last reference can be given up: the page of a pipe is a page
    and its lock is free; an inode has a link or was not read in, and there is
    room for an operation in the log. *)
Record last_ok (f : nat) (s : kstate) : Prop := {
  lo_pipe : f_type (file_of s f) = FD_PIPE ->
    page (f_pipe (file_of s f)) /\ lock_free (LPipe (f_pipe (file_of s f))) s;
  lo_inode : f_type (file_of s f) = FD_INODE \/ f_type (file_of s f) = FD_DEVICE ->
    log_room (log s) /\ exists i, f_ip (file_of s f) = Some i /\ linked_inode s i;
}.

Lemma file_of_upd f g s : (f < length (ftable s))%nat -> file_of (upd_file f g s) f = g (file_of s f).
Proof.
  intros Hf. unfold file_of, upd_file. ksimp. rewrite list_lookup_alter_eq.
  by destruct (lookup_lt_is_Some_2 _ _ Hf) as [x ->].
Qed.

Lemma lookup_file_of s f : (f < length (ftable s))%nat -> ftable s !! f = Some (file_of s f).
Proof. intros Hf. unfold file_of. by destruct (lookup_lt_is_Some_2 _ _ Hf) as [x ->]. Qed.

Lemma fileclose_ok me f s :
  ctx me s -> (f < length (ftable s))%nat -> 1 <= f_ref (file_of s f) ->
  (f_ref (file_of s f) = 1 -> last_ok f s) -> fileclose f s = Ok tt (let_go me f s).
Proof.
  intros Hc Hf Hr Hlo. pose proof (ctx_settled _ _ Hc) as Hs. pose proof (ctx_locks _ _ Hc LFtable I) as Hl.
  unfold fileclose, fset, let_go. mstep acquire_ok.
  change (file_of (acq LFtable s) f) with (file_of s f). rewrite (proj2 (Z.ltb_ge _ _)) by lia. msimp.
  change (upd_file f ?g (acq LFtable s)) with (acq LFtable (upd_file f g s)).
  change (file_of (acq LFtable ?t) f) with (file_of t f). rewrite file_of_upd by done. cbn [f_ref set_f_ref].
  destruct (Z.ltb_spec 1 (f_ref (file_of s f))) as [Hlt|Hge].
  { rewrite (proj2 (Z.ltb_lt _ _)) by lia. apply release_acq; [destruct Hs; by split|done]. }
  rewrite (proj2 (Z.ltb_ge _ _)) by lia. destruct (Hlo ltac:(lia)) as [Hp Hi]. msimp.
  set (t := upd_file f shut_file s).
  match goal with |- _ ?u = _ => replace u with (acq LFtable t) end.
  2:{ unfold t. change (upd_file f ?g (acq LFtable ?u)) with (acq LFtable (upd_file f g u)). f_equal.
      unfold upd_file. ksimp. by rewrite !list_alter_alter_eq. }
  assert (ctx me t) as Hct by (destruct Hc as [[] ? ? ? ?]; by split).
  erewrite bind_ok by (apply release_acq; [apply Hct|done]).
  change (file_of (acq LFtable ?u) f) with (file_of u f). rewrite file_of_upd by done.
  change (f_type (set_f_ref ?r ?x)) with (f_type x). change (f_pipe (set_f_ref ?r ?x)) with (f_pipe x).
  change (f_writable (set_f_ref ?r ?x)) with (f_writable x). change (f_ip (set_f_ref ?r ?x)) with (f_ip x).
  destruct (f_type (file_of s f)) eqn:Ty.
  - done.
  - destruct (Hp eq_refl) as [Hpg Hlk]. by apply pipeclose_ok.
  - destruct (Hi (or_introl eq_refl)) as [Hlr (i & -> & Hlk)]. apply (put_inode me i t); [done..|by right].
  - destruct (Hi (or_intror eq_refl)) as [Hlr (i & -> & Hlk)]. apply (put_inode me i t); [done..|by right].
Qed.

(** ** What closing does not touch *)

Lemma wake_parent me ch i q : p_parent (wake me ch i q) = p_parent q.
Proof. unfold wake. repeat case_decide; done. Qed.
Lemma wake_self me ch q : wake (Some me) ch me q = q.
Proof. unfold wake. by rewrite decide_True. Qed.

(** Closing files changes of the process only its descriptors, of the other
    entries only whether they sleep, of the inodes only their references, and
    neither locks nor the log. *)
Record kept (me : nat) (s t : kstate) : Prop := {
  kp_ctx : ctx me t;
  kp_me : proc_of t me = set_p_ofile (p_ofile (proc_of t me)) (proc_of s me);
  kp_parent : forall j, p_parent (proc_of t j) = p_parent (proc_of s j);
  kp_inode : forall i, i_valid (ip_of t i) = i_valid (ip_of s i) /\ i_nlink (ip_of t i) = i_nlink (ip_of s i);
  kp_same : locks t = locks s /\ log t = log s /\ initproc t = initproc s /\ nsched t = nsched s /\ kcpu t = kcpu s;
}.

Lemma kept_trans me s t u : kept me s t -> kept me t u -> kept me s u.
Proof.
  intros [A1 A2 A3 A4 (A5 & A6 & A7 & A8 & A9)] [B1 B2 B3 B4 (B5 & B6 & B7 & B8 & B9)]. split; [done| | | |].
  - rewrite B2, A2. by destruct (proc_of s me).
  - intros j. by rewrite B3.
  - intros i. destruct (A4 i) as [<- <-]. apply B4.
  - split_and!; congruence.
Qed.

Ltac kept_tac :=
  let Hc := fresh in intros Hc; destruct Hc as [[] ? ? ? ?]; split;
  [by split|by destruct (proc_of _ _)|done|done|done].
Lemma kept_refl me s : ctx me s -> kept me s s.
Proof. kept_tac. Qed.
Lemma kept_mem me m s : ctx me s -> kept me s (set_mem m s).
Proof. kept_tac. Qed.
Lemma kept_freed me pa s : ctx me s -> kept me s (freed pa s).
Proof. kept_tac. Qed.
Lemma kept_file me f g s : ctx me s -> kept me s (upd_file f g s).
Proof. kept_tac. Qed.

Lemma woken_on_me me ch s : proc_of (woken_on me ch s) me = proc_of s me.
Proof.
  unfold proc_of, woken_on. cbn. rewrite list_lookup_imap. destruct (procs s !! me); [|done]. cbn. apply wake_self.
Qed.
Lemma kept_woken me ch s : ctx me s -> kept me s (woken_on me ch s).
Proof.
  intros Hc. split; [by apply ctx_woken_on| | |done|done].
  - rewrite woken_on_me. by destruct (proc_of s me).
  - intros j. unfold proc_of, woken_on. cbn. rewrite list_lookup_imap. destruct (procs s !! j) as [q|]; [|done].
    apply wake_parent.
Qed.

Lemma kept_drop_inode me i s : ctx me s -> kept me s (drop_inode i s).
Proof.
  intros [[] ? ? ? ?]. split; [by split|by destruct (proc_of _ _)|done| |done].
  intros j. unfold ip_of, drop_inode, upd_inode. cbn. destruct (decide (j = i)) as [->|Hne].
  - rewrite list_lookup_alter_eq. by destruct (itable s !! i).
  - by rewrite list_lookup_alter_ne.
Qed.

Lemma kept_end_shut me pi w s : ctx me s -> kept me s (end_shut me pi w s).
Proof.
  intros Hc. assert (kept me s (end_marked me pi w s)) as Hk.
  { unfold end_marked. destruct (negb (w =? 0)); (eapply kept_trans; [by apply kept_mem|]);
      apply kept_woken; eapply kp_ctx; by apply kept_mem. }
  unfold end_shut. destruct (_ && _); [|done]. eapply kept_trans; [done|]. apply kept_freed, Hk.
Qed.

Lemma kept_let_go me f s : ctx me s -> kept me s (let_go me f s).
Proof.
  intros Hc. unfold let_go. destruct (1 <? _); [by apply kept_file|].
  pose proof (kept_file me f shut_file s Hc) as Hk. destruct (f_type _); [done| | |].
  - eapply kept_trans; [done|]. apply kept_end_shut, Hk.
  - destruct (f_ip _) as [i|]; [|done]. pose proof (kept_drop_inode me i _ (kp_ctx _ _ _ Hk)) as Hk'.
    eapply kept_trans; [done|]. eapply kept_trans; [done|]. apply kept_woken, Hk'.
  - destruct (f_ip _) as [i|]; [|done]. pose proof (kept_drop_inode me i _ (kp_ctx _ _ _ Hk)) as Hk'.
    eapply kept_trans; [done|]. eapply kept_trans; [done|]. apply kept_woken, Hk'.
Qed.

Lemma let_go_me me f s : proc_of (let_go me f s) me = proc_of s me.
Proof.
  unfold let_go. destruct (1 <? _); [done|]. destruct (f_type (file_of s f)), (f_ip (file_of s f)); try done;
    try exact (woken_on_me me CLog (drop_inode _ (upd_file f shut_file s)));
    unfold end_shut, end_marked; destruct (_ && _), (negb _);
    exact (woken_on_me me _ (set_mem _ (upd_file f shut_file s))).
Qed.

(** ** The descriptor table *)

(** The entry of a file that loses [n] references. *)
Definition lose_refs (n : Z) (x : file) : file :=
  if n =? 0 then x else if n <? f_ref x then set_f_ref (f_ref x - n) x else shut_file x.
(** The file table when the descriptors of [ofile] are closed. *)
Definition closed_files (ofile : list (option nat)) (ft : list file) : list file :=
  imap (fun f x => lose_refs (refs_to f ofile) x) ft.

Lemma ftable_let_go me f s : ftable (let_go me f s) = alter (lose_refs 1) f (ftable s).
Proof.
  assert (alter (lose_refs 1) f (ftable s) =
    if 1 <? f_ref (file_of s f) then alter (fun x => set_f_ref (f_ref x - 1) x) f (ftable s) else alter shut_file f (ftable s)) as ->.
  { destruct (1 <? _) eqn:E; apply list_alter_ext; try done; intros x Hx; unfold file_of in E; rewrite Hx in E; cbn in E;
      unfold lose_refs; cbn [Z.eqb]; by rewrite E. }
  unfold let_go. destruct (1 <? _); [done|]. destruct (f_type _); [done| |by destruct (f_ip _)..].
  unfold end_shut, end_marked. destruct (_ && _), (negb _); done.
Qed.

Lemma lose_refs_next n x : 0 <= n -> n + 1 <= f_ref x -> lose_refs 1 (lose_refs n x) = lose_refs (n + 1) x.
Proof.
  intros H1 H2. unfold lose_refs. cbn [Z.eqb]. rewrite (proj2 (Z.eqb_neq (n + 1) 0)) by lia.
  destruct (Z.eqb_spec n 0) as [->|Hn]; [done|]. rewrite (proj2 (Z.ltb_lt n (f_ref x))) by lia.
  cbn [f_ref set_f_ref]. destruct (Z.ltb_spec (n + 1) (f_ref x)) as [Hlt|Hge].
  - rewrite (proj2 (Z.ltb_lt _ _)) by lia. destruct x. unfold set_f_ref. cbn. f_equal. lia.
  - rewrite (proj2 (Z.ltb_ge _ _)) by lia. by destruct x.
Qed.

Lemma alter_imap {A} (g : A -> A) i (F : nat -> A -> A) l :
  alter g i (imap F l) = imap (fun j q => if decide (j = i) then g (F j q) else F j q) l.
Proof.
  apply list_eq. intros j. rewrite list_lookup_imap. destruct (decide (j = i)) as [->|Hne].
  - rewrite list_lookup_alter_eq, list_lookup_imap. by destruct (l !! i).
  - rewrite list_lookup_alter_ne by done. rewrite list_lookup_imap. by destruct (l !! j).
Qed.

Lemma alter_as_imap {A} (g : A -> A) i l : alter g i l = imap (fun j q => if decide (j = i) then g q else q) l.
Proof. rewrite <- (imap_id l) at 1. apply alter_imap. Qed.

Lemma closed_files_nil ft : closed_files [] ft = ft.
Proof. unfold closed_files. rewrite <- (imap_id ft) at 2. by apply imap_ext. Qed.
Lemma closed_files_none l ft : closed_files (l ++ [None]) ft = closed_files l ft.
Proof. apply imap_ext. intros i x _. by rewrite refs_to_snoc, decide_False, Z.add_0_r. Qed.
Lemma closed_files_some l f ft :
  refs_to f l + 1 <= f_ref (default blank_file (ft !! f)) ->
  closed_files (l ++ [Some f]) ft = alter (lose_refs 1) f (closed_files l ft).
Proof.
  intros Hr. unfold closed_files. rewrite alter_imap. apply imap_ext. intros i x Hx. rewrite refs_to_snoc.
  case_decide as E; case_decide as E'; try (congruence || (subst; done)); [|by rewrite Z.add_0_r].
  subst i. rewrite Hx in Hr. symmetry. apply lose_refs_next; [unfold refs_to; lia|done].
Qed.

(** The files that are closed for good hold inodes: how many hold inode [i]. *)
Definition holds_inode (i : nat) (x : file) : bool :=
  match f_type x, f_ip x with (FD_INODE | FD_DEVICE), Some j => bool_decide (j = i) | _, _ => false end.
Definition inode_refs (i : nat) (ofile : list (option nat)) (ft : list file) : Z :=
  foldr Z.add 0 (imap (fun f x =>
    if (0 <? refs_to f ofile) && (refs_to f ofile =? f_ref x) && holds_inode i x then 1 else 0) ft).
(** The inode table when the descriptors of [ofile] are closed. *)
Definition closed_inodes (ofile : list (option nat)) (ft : list file) (it : list inode) : list inode :=
  imap (fun i x => set_i_ref (i_ref x - inode_refs i ofile ft) x) it.

Lemma sum_imap_one {A} (l : list A) : forall (g h : nat -> A -> Z) f x d,
  l !! f = Some x -> (forall j y, j <> f -> g j y = h j y) -> g f x = h f x + d ->
  foldr Z.add 0 (imap g l) = foldr Z.add 0 (imap h l) + d.
Proof.
  induction l as [|y l IH]; intros g h [|f] x d Hf Hne He; [done..| |]; cbn.
  - injection Hf as ->. rewrite He, (imap_ext (g ∘ S) (h ∘ S)); [lia|]. intros j z _. by apply Hne.
  - rewrite (Hne 0%nat), (IH (g ∘ S) (h ∘ S) f x d); [lia|done| |done..]. intros j z Hj. apply Hne. lia.
Qed.

Lemma refs_to_pos f l : 0 <= refs_to f l.
Proof. unfold refs_to. lia. Qed.

Lemma inode_refs_nil i ft : inode_refs i [] ft = 0.
Proof.
  unfold inode_refs. rewrite (imap_ext _ (fun _ _ => 0)) by done. generalize 0%nat. induction ft as [|x ft IH]; [done|].
  intros n. cbn. by apply IH.
Qed.
Lemma inode_refs_none i l ft : inode_refs i (l ++ [None]) ft = inode_refs i l ft.
Proof. unfold inode_refs. f_equal. apply imap_ext. intros j x _. by rewrite refs_to_snoc, decide_False, Z.add_0_r. Qed.
Lemma inode_refs_some i l f x ft :
  ft !! f = Some x -> refs_to f l + 1 <= f_ref x ->
  inode_refs i (l ++ [Some f]) ft =
  inode_refs i l ft + (if (refs_to f l + 1 =? f_ref x) && holds_inode i x then 1 else 0).
Proof.
  intros Hx Hr. apply (sum_imap_one ft _ _ f x); [done| |].
  - intros j y Hj. rewrite refs_to_snoc, decide_False by congruence. by rewrite Z.add_0_r.
  - rewrite refs_to_snoc, decide_True by done. pose proof (refs_to_pos f l).
    rewrite (proj2 (Z.ltb_lt 0 (refs_to f l + 1))), (proj2 (Z.eqb_neq (refs_to f l) (f_ref x))) by lia.
    rewrite andb_false_r. done.
Qed.

Lemma closed_inodes_nil ft it : closed_inodes [] ft it = it.
Proof.
  unfold closed_inodes. rewrite <- (imap_id it) at 2. apply imap_ext. intros i x _.
  rewrite inode_refs_nil, Z.sub_0_r. by destruct x.
Qed.
Lemma closed_inodes_none l ft it : closed_inodes (l ++ [None]) ft it = closed_inodes l ft it.
Proof. apply imap_ext. intros i x _. by rewrite inode_refs_none. Qed.

(** One more descriptor: the inode of the file loses a reference with the last
    one to the file. *)
Lemma closed_inodes_some l f x ft it :
  ft !! f = Some x -> refs_to f l + 1 <= f_ref x ->
  closed_inodes (l ++ [Some f]) ft it =
  imap (fun i y => if negb (1 <? f_ref x - refs_to f l) && holds_inode i (set_f_ref (f_ref x - refs_to f l) x)
    then set_i_ref (i_ref y - 1) y else y) (closed_inodes l ft it).
Proof.
  intros Hx Hr. unfold closed_inodes. rewrite imap_imap. apply imap_ext. intros i y _.
  rewrite (inode_refs_some i l f x) by done. change (holds_inode i (set_f_ref ?n x)) with (holds_inode i x).
  replace (negb (1 <? f_ref x - refs_to f l)) with (refs_to f l + 1 =? f_ref x) by lia.
  destruct (_ && _); destruct y; unfold set_i_ref; cbn; f_equal; lia.
Qed.

Lemma itable_let_go me f s :
  itable (let_go me f s) = imap (fun i x => if negb (1 <? f_ref (file_of s f)) && holds_inode i (file_of s f)
    then set_i_ref (i_ref x - 1) x else x) (itable s).
Proof.
  assert (forall i (it : list inode), alter (fun x => set_i_ref (i_ref x - 1) x) i it =
    imap (fun j x => if bool_decide (i = j) then set_i_ref (i_ref x - 1) x else x) it) as Ea.
  { intros i it. rewrite alter_as_imap. apply imap_ext. intros j x _. case_decide; case_bool_decide; congruence. }
  unfold let_go, holds_inode. destruct (1 <? _); cbn [negb andb]; [by rewrite imap_id|].
  destruct (f_type (file_of s f)), (f_ip (file_of s f)); try (rewrite imap_id; unfold end_shut, end_marked; by repeat case_match).
  - apply Ea.
  - apply Ea.
Qed.

(** Closing a descriptor, and all of them in order. *)
Definition close_fd (me : nat) (s : kstate) (fd : nat) : kstate :=
  match p_ofile (proc_of s me) !! fd with
  | Some (Some f) => upd_proc me (fun q => set_p_ofile (<[fd := None]> (p_ofile q)) q) (let_go me f s)
  | _ => s
  end.
Definition close_fds (me : nat) (s : kstate) : kstate := foldl (close_fd me) s (seq 0 NOFILE).

(** The descriptors of [ofile] can be closed. *)
Definition closable (ofile : list (option nat)) (s : kstate) : Prop :=
  forall fd f, ofile !! fd = Some (Some f) ->
    (f < length (ftable s))%nat /\ refs_to f ofile <= f_ref (file_of s f) /\
    (refs_to f ofile = f_ref (file_of s f) -> last_ok f s).

(** The state when [k] descriptors are closed. *)
Record closing (me k : nat) (s t : kstate) : Prop := {
  cg_kept : kept me s t;
  cg_ofile : p_ofile (proc_of t me) = replicate k None ++ drop k (p_ofile (proc_of s me));
  cg_files : ftable t = closed_files (take k (p_ofile (proc_of s me))) (ftable s);
  cg_inodes : itable t = closed_inodes (take k (p_ofile (proc_of s me))) (ftable s) (itable s);
}.

Lemma kept_clear me g s :
  ctx me s -> (forall q, g q = set_p_ofile (p_ofile (g q)) q) -> kept me s (upd_proc me g s).
Proof.
  intros Hc Hg. pose proof (lookup_proc_of s me ltac:(rewrite (ctx_procs _ _ Hc); apply Hc)) as Hp.
  split; [| | |done|done].
  - destruct Hc as [[] ? ? ? ?]. split; [by split|done|done| |done]. cbn. by rewrite length_alter.
  - rewrite (proc_of_upd _ _ _ _ Hp). apply Hg.
  - intros j. destruct (decide (j = me)) as [->|Hne]; [|by rewrite proc_of_upd_ne].
    rewrite (proc_of_upd _ _ _ _ Hp), Hg. done.
Qed.

(** A file of the table in the middle of the closing. *)
Lemma closing_file me k f s t :
  closing me k s t -> (f < length (ftable s))%nat -> refs_to f (take k (p_ofile (proc_of s me))) < f_ref (file_of s f) ->
  file_of t f = set_f_ref (f_ref (file_of s f) - refs_to f (take k (p_ofile (proc_of s me)))) (file_of s f).
Proof.
  intros [_ _ Hf _] Hlt Hr. unfold file_of in *. rewrite Hf. unfold closed_files. rewrite list_lookup_imap.
  destruct (lookup_lt_is_Some_2 _ _ Hlt) as [x Hx]. rewrite Hx in *. cbn in *. unfold lose_refs.
  destruct (Z.eqb_spec (refs_to f (take k (p_ofile (proc_of s me)))) 0) as [->|E].
  - rewrite Z.sub_0_r. by destruct x.
  - by rewrite (proj2 (Z.ltb_lt _ _)).
Qed.

Lemma refs_to_take f l k : l !! k = Some (Some f) -> refs_to f (take k l) + 1 <= refs_to f l.
Proof.
  intros Hk. rewrite <- (take_drop k l) at 2. rewrite (drop_S _ _ _ Hk). unfold refs_to.
  rewrite filter_app, filter_cons_True, length_app by done. cbn. lia.
Qed.

Lemma closing_last me k f s t :
  closing me k s t -> closable (p_ofile (proc_of s me)) s -> p_ofile (proc_of s me) !! k = Some (Some f) ->
  (f < length (ftable t))%nat /\ 1 <= f_ref (file_of t f) /\ (f_ref (file_of t f) = 1 -> last_ok f t).
Proof.
  intros Hg Hcl Hk. destruct (Hcl _ _ Hk) as (Hf & Hr & Hlast). pose proof (refs_to_take _ _ _ Hk) as Hle.
  pose proof (closing_file me k f s t Hg Hf ltac:(lia)) as E. destruct Hg as [Hkp _ Hft _].
  split; [rewrite Hft; unfold closed_files; by rewrite length_imap|]. rewrite E. cbn [f_ref set_f_ref].
  split; [lia|]. intros E1. destruct (Hlast ltac:(lia)) as [L1 L2].
  destruct (kp_same _ _ _ Hkp) as (K1 & K2 & _). split; rewrite E; cbn [f_type f_pipe f_ip set_f_ref].
  - unfold lock_free. by rewrite K1.
  - intros Ht. destruct (L2 Ht) as [Hl (i & Hi & Hn)]. rewrite K2. split; [done|]. exists i. split; [done|].
    unfold linked_inode in *. destruct (kp_inode _ _ _ Hkp i) as [-> ->]. done.
Qed.

Lemma closing_step me k s t :
  closing me k s t -> closable (p_ofile (proc_of s me)) s -> (k < length (p_ofile (proc_of s me)))%nat ->
  closing me (S k) s (close_fd me t k).
Proof.
  intros Hg Hcl Hk. set (ofile := p_ofile (proc_of s me)) in *.
  destruct (lookup_lt_is_Some_2 ofile k Hk) as [o Ho].
  assert (drop k ofile = o :: drop (S k) ofile) as Ed by (by apply drop_S).
  assert (take (S k) ofile = take k ofile ++ [o]) as Et by (by apply take_S_r).
  assert (replicate (S k) (None : option nat) = replicate k None ++ [None]) as Er by apply replicate_S_end.
  unfold close_fd. rewrite (cg_ofile _ _ _ _ Hg), lookup_app_r, length_replicate, Nat.sub_diag by (rewrite length_replicate; lia).
  fold ofile. rewrite Ed. cbn [lookup list_lookup]. pose proof Hg as [Hkp Hof Hft Hit]. fold ofile in Hof, Hft, Hit.
  rewrite Ed in Hof. destruct o as [f|].
  - destruct (Hcl _ _ Ho) as (Hf & Hr & _). pose proof (refs_to_take _ _ _ Ho) as Hle. fold ofile in Hr.
    pose proof (kept_let_go me f t (kp_ctx _ _ _ Hkp)) as Hkl. set (u := let_go me f t) in *.
    pose proof (lookup_proc_of u me ltac:(rewrite (ctx_procs _ _ (kp_ctx _ _ _ Hkl)); apply (kp_ctx _ _ _ Hkl))) as Hp.
    split.
    + eapply kept_trans; [done|]. eapply kept_trans; [done|]. by apply kept_clear; [apply Hkl|].
    + rewrite (proc_of_upd _ _ _ _ Hp). cbn [p_ofile set_p_ofile].
      unfold u. rewrite let_go_me, Hof, insert_app_r_alt by (rewrite length_replicate; lia).
      rewrite length_replicate, Nat.sub_diag, Er, <- app_assoc. done.
    + change (ftable (upd_proc me ?g u)) with (ftable u). unfold u. fold ofile. rewrite ftable_let_go, Hft, Et.
      symmetry. apply closed_files_some. unfold file_of in Hr. lia.
    + change (itable (upd_proc me ?g u)) with (itable u). unfold u. fold ofile.
      rewrite itable_let_go, Hit, Et, (closing_file me k f s t Hg Hf) by (fold ofile; lia).
      symmetry. apply closed_inodes_some; [by apply lookup_file_of|lia].
  - split; [done| | |]; fold ofile; [by rewrite Hof, Er, <- app_assoc|by rewrite Et, closed_files_none|by rewrite Et, closed_inodes_none].
Qed.

Lemma close_fd_ok me k s t :
  closing me k s t -> closable (p_ofile (proc_of s me)) s -> (k < length (p_ofile (proc_of s me)))%nat ->
  (ofile ← pget me p_ofile;
   match ofile !! k with
   | Some (Some f) =>
     fileclose f ;;
     pset me (fun q => set_p_ofile (<[k := None]> (p_ofile q)) q)
   | _ => mret tt
   end) t = Ok tt (close_fd me t k).
Proof.
  intros Hg Hcl Hk. rewrite bind_gets. unfold close_fd.
  destruct (p_ofile (proc_of t me) !! k) as [[f|]|] eqn:E; [|done..].
  rewrite (cg_ofile _ _ _ _ Hg), lookup_app_r, length_replicate, Nat.sub_diag, lookup_drop, Nat.add_0_r in E
    by (rewrite length_replicate; lia).
  destruct (closing_last me k f s t Hg Hcl E) as (H1 & H2 & H3).
  erewrite bind_ok by (apply (fileclose_ok me); [apply Hg|done..]). done.
Qed.

(** The loop of [exit] over the descriptors. *)
Lemma exit_files me s :
  ctx me s -> length (p_ofile (proc_of s me)) = NOFILE -> closable (p_ofile (proc_of s me)) s ->
  for_range NOFILE 0 (fun fd =>
    ofile ← pget me p_ofile;
    match ofile !! fd with
    | Some (Some f) =>
      fileclose f ;;
      pset me (fun q => set_p_ofile (<[fd := None]> (p_ofile q)) q)
    | _ => mret tt
    end) s = Ok tt (close_fds me s) /\ closing me NOFILE s (close_fds me s).
Proof.
  intros Hc Hl Hcl. edestruct (for_range_inv (fun k t => closing me k s t /\ t = foldl (close_fd me) s (seq 0 k)) NOFILE 0)
    as (s' & E & Hg & ->); [| |split; [exact E|exact Hg]].
  - split; [|done]. split; [by apply kept_refl|done|by rewrite closed_files_nil|by rewrite closed_inodes_nil].
  - intros k t Hk [Hg Et]. exists (close_fd me t k). split; [apply (close_fd_ok me k s t Hg Hcl); lia|].
    split; [apply closing_step; [done..|lia]|]. by rewrite seq_S, foldl_app, <- Et.
Qed.

#[local] Opaque close_fds.

(** ** Giving the children to init *)

Lemma wake_set_parent me ch i x q : wake me ch i (set_p_parent x q) = set_p_parent x (wake me ch i q).
Proof. unfold wake. cbn. repeat case_decide; done. Qed.

Definition reparented (me : nat) (init : option nat) (q : proc) : proc :=
  if decide (p_parent q = Some me) then set_p_parent init q else q.
Definition wake_if (b : bool) (me : nat) (ch : option chan) (j : nat) (q : proc) : proc :=
  if b then wake (Some me) ch j q else q.

(** The entry after the first [i] turns. *)
Definition reparent_upto (b : bool) (me i : nat) (init : option nat) (j : nat) (q : proc) : proc :=
  wake_if b me (CProc <$> init) j (if decide (j < i)%nat then reparented me init q else q).

(** A turn of the loop at a child of the caller, and at another entry. *)
Lemma reparent_child b me i init q s :
  procs s !! i = Some q -> p_parent q = Some me ->
  imap (wake (Some me) (CProc <$> init)) (alter (set_p_parent init) i (imap (reparent_upto b me i init) (procs s))) =
  imap (reparent_upto true me (S i) init) (procs s).
Proof.
  intros Hq Hp. rewrite alter_imap, imap_imap. apply imap_ext. intros j r Hj. unfold reparent_upto.
  destruct (decide (j = i)) as [->|Hne].
  - rewrite Hq in Hj. injection Hj as <-. rewrite decide_False, decide_True by lia.
    unfold reparented. rewrite decide_True by done.
    unfold wake_if. destruct b; by rewrite !wake_set_parent, ?wake_idem.
  - destruct (decide (j < i)%nat), (decide (j < S i)%nat); try lia;
      unfold wake_if; destruct b; by rewrite ?wake_idem.
Qed.

Lemma reparent_other b me i init q s :
  procs s !! i = Some q -> p_parent q <> Some me ->
  imap (reparent_upto b me i init) (procs s) = imap (reparent_upto b me (S i) init) (procs s).
Proof.
  intros Hq Hp. apply imap_ext. intros j r Hj. unfold reparent_upto. f_equal.
  destruct (decide (j = i)) as [->|Hne].
  - rewrite decide_False, decide_True by lia. rewrite Hq in Hj. injection Hj as <-.
    unfold reparented. by rewrite decide_False.
  - destruct (decide (j < i)%nat), (decide (j < S i)%nat); done || lia.
Qed.

Lemma reparent_ok me s :
  ctx me s -> exists b, (b = true <-> has_child me s) /\
  reparent me (acq LWait s) = Ok tt (acq LWait (set_procs
    (imap (fun j q => wake_if b me (CProc <$> initproc s) j (reparented me (initproc s) q)) (procs s)) s)).
Proof.
  intros Hc. set (init := initproc s).
  destruct (for_range_inv (fun i t => exists b, (b = true <-> exists k, (k < i)%nat /\ child_of me s k) /\
      t = acq LWait (set_procs (imap (reparent_upto b me i init) (procs s)) s)) NPROC 0 (fun pp =>
    parent ← pget pp p_parent;
    if decide (parent = Some me) then
      init ← gets (fun s => initproc s);
      pset pp (set_p_parent init) ;;
      wakeup_proc init
    else mret tt) (acq LWait s)) as (s' & E & b & Hb & ->).
  - exists false. split; [split; [done|intros (k & ? & _); lia]|]. f_equal.
    rewrite imap_ext with (g := fun _ p => p); [by rewrite imap_id, set_procs_id|]. intros j q _. done.
  - intros i t Hi (b & Hb & ->). rewrite bind_gets.
    destruct (lookup_lt_is_Some_2 (procs s) i) as [q Hq]; [rewrite (ctx_procs _ _ Hc); lia|].
    set (P := imap (reparent_upto b me i init) (procs s)).
    assert (p_parent (proc_of (acq LWait (set_procs P s)) i) = p_parent q) as ->.
    { unfold proc_of. cbn. unfold P. rewrite list_lookup_imap, Hq. cbn. unfold reparent_upto, wake_if.
      rewrite decide_False by lia. destruct b; [apply wake_parent|done]. }
    assert (child_of me s i <-> p_parent q = Some me) as Hci by (unfold child_of; by rewrite (proc_of_lookup _ _ _ Hq)).
    destruct (decide (p_parent q = Some me)) as [Hp|Hp].
    + rewrite bind_gets. unfold pset. rewrite bind_modify. change (initproc (acq LWait (set_procs P s))) with init.
      change (upd_proc i ?f (acq LWait (set_procs P s))) with (acq LWait (set_procs (alter f i P) s)).
      unfold wakeup_proc. rewrite wakeup_on_ok; [|apply settled_acq; destruct (ctx_settled _ _ Hc); by split| |].
      * eexists. split; [reflexivity|]. exists true.
        split; [split; [intros _; exists i; split; [lia|by apply Hci]|done]|].
        change (c_proc (kcpu (acq LWait ?t))) with (c_proc (kcpu t)). ksimp. rewrite (ctx_cur _ _ Hc).
        change (set_procs ?x (acq LWait (set_procs ?y s))) with (acq LWait (set_procs x s)).
        unfold P. by rewrite (reparent_child b me i init q).
      * intros k Hk. pose proof (ctx_locks _ _ Hc (LProc k) Hk). by apply lock_free_acq_ne.
      * cbn. unfold P. by rewrite length_alter, length_imap, (ctx_procs _ _ Hc).
    + eexists. split; [reflexivity|]. exists b. split; [|unfold P; by rewrite (reparent_other b me i init q)].
      rewrite Hb. split; intros (k & Hk & Hck); exists k; (split; [|done]); [lia|].
      destruct (decide (k = i)) as [->|]; [by apply Hci in Hck|lia].
  - exists b. split; [exact Hb|]. unfold reparent. rewrite E. do 3 f_equal. apply imap_ext. intros j q Hj.
    unfold reparent_upto. rewrite decide_True; [done|]. apply lookup_lt_Some in Hj. rewrite (ctx_procs _ _ Hc) in Hj. done.
Qed.

(** ** The whole *)

(** What [exit] leaves of the other entries: init has the children (and is
    woken if there were any), and the parent is woken. *)
Definition bereaved (me : nat) (init parent : option nat) (b : bool) (j : nat) (q : proc) : proc :=
  wake (Some me) (CProc <$> parent) j (wake_if b me (CProc <$> init) j (reparented me init q)).

(** [exit] from where it takes wait_lock on. *)
Definition exit_tail (p : nat) (status : Z) : K unit :=
  acquire LWait ;;
  reparent p ;;
  parent ← pget p p_parent;
  wakeup_proc parent ;;
  acquire (LProc p) ;;
  pset p (set_p_xstate status) ;;
  pset p (set_p_state ZOMBIE) ;;
  release LWait ;;
  sched ;;
  panic "zombie exit".

Lemma exit_tail_ok me status s :
  ctx me s -> p_parent (proc_of s me) <> Some me ->
  exists b, (b = true <-> has_child me s) /\
    exit_tail me status s = (sched ;; panic "zombie exit") (acq (LProc me)
      (set_procs (imap (fun j q => if decide (j = me) then set_p_state ZOMBIE (set_p_xstate status q)
        else bereaved me (initproc s) (p_parent (proc_of s me)) b j q) (procs s)) s)).
Proof.
  intros Hc Hpa. unfold exit_tail. pose proof (ctx_settled _ _ Hc) as Hs. pose proof (ctx_locks _ _ Hc) as Hlk.
  pose proof (lookup_proc_of s me ltac:(rewrite (ctx_procs _ _ Hc); apply Hc)) as Hme. set (p := proc_of s me) in *.
  destruct (reparent_ok me s Hc) as (b & Hb & Er). exists b. split; [exact Hb|].
  erewrite bind_ok by (apply acquire_ok; [done|by apply Hlk]). rewrite (bind_ok _ _ _ _ _ Er), bind_gets.
  set (P := imap _ (procs s)).
  assert (P !! me = Some p) as HP.
  { unfold P. rewrite list_lookup_imap, Hme. cbn. unfold wake_if, reparented. rewrite decide_False by done.
    destruct b; [by rewrite wake_self|done]. }
  change (proc_of (acq LWait (set_procs P s)) me) with (proc_of (set_procs P s) me).
  rewrite (proc_of_lookup (set_procs P s) me p) by exact HP. unfold wakeup_proc.
  assert (settled (set_procs P s)) as HsP by (destruct Hs; by split).
  erewrite bind_ok by (apply wakeup_on_ok; [by apply settled_acq|intros k Hk; apply lock_free_acq_ne;
    [done|by apply (Hlk (LProc k))]|cbn; unfold P; by rewrite length_imap, (ctx_procs _ _ Hc)]).
  change (c_proc (kcpu (acq LWait ?t))) with (c_proc (kcpu s)). rewrite (ctx_cur _ _ Hc).
  change (set_procs ?x (acq LWait (set_procs P s))) with (acq LWait (set_procs x s)).
  change (procs (acq LWait (set_procs P s))) with P.
  set (Q := imap _ P). assert (settled (set_procs Q s)) as HsQ by (destruct Hs; by split).
  erewrite bind_ok by (apply acquire_ok; [by apply settled_acq|apply lock_free_acq_ne; [done|apply (Hlk (LProc me)), Hc]]).
  unfold pset. rewrite !bind_modify.
  change (upd_proc me ?g (upd_proc me ?f (acq (LProc me) (acq LWait (set_procs Q s)))))
    with (acq (LProc me) (acq LWait (set_procs (alter g me (alter f me Q)) s))).
  erewrite bind_ok by (apply release_under; [done|destruct Hs; by split|by apply (Hlk LWait)]).
  do 3 f_equal. unfold Q, P. rewrite imap_imap, !alter_imap. apply imap_ext. intros j q Hq.
  repeat case_decide; subst; [|done]. rewrite Hme in Hq. injection Hq as <-.
  rewrite wake_self. unfold wake_if, reparented. rewrite decide_False by done. destruct b; by rewrite ?wake_self.
Qed.

(** A process that may call [exit].  Its files may be the last references: then
    the end of the pipe is closed, and the pipe freed with its second end, or
    the reference to the inode is given up.  No inode is freed on the disk:
    one that is given up has a link or, for the directory, other references. *)
Record exiter (me ip : nat) (s : kstate) : Prop := {
  ex_ctx : ctx me s;
  ex_init : initproc s <> Some me;
  ex_parent : p_parent (proc_of s me) <> Some me;
  ex_ofile : length (p_ofile (proc_of s me)) = NOFILE;
  ex_files : closable (p_ofile (proc_of s me)) s;
  ex_cwd : p_cwd (proc_of s me) = Some ip;
  ex_ip : i_ref (ip_of (close_fds me s) ip) <> 1 \/ linked_inode s ip;
  ex_log : log_room (log s);
}.

(** The machine when the process gives up the processor for the last time:
    it is a zombie that has no file and no directory, and the references it
    held are given back. *)
Definition dead (status : Z) (q : proc) : proc :=
  set_p_state ZOMBIE (set_p_xstate status (set_p_cwd None (set_p_ofile (replicate NOFILE None) q))).
Definition exited_from (me ip : nat) (status : Z) (b : bool) (s t : kstate) : kstate :=
  set_procs (imap (fun j q => if decide (j = me) then dead status q
      else bereaved me (initproc s) (p_parent (proc_of s me)) b j (wake (Some me) (Some CLog) j q)) (procs t))
    (drop_inode ip t).
Definition exited (me ip : nat) (status : Z) (b : bool) (s : kstate) : kstate :=
  exited_from me ip status b s (close_fds me s).

(** The files, the log and the directory: [exit] before [wait_lock]. *)
Definition exit_left (me ip : nat) (t : kstate) : kstate :=
  upd_proc me (set_p_cwd None) (woken_on me CLog (drop_inode ip t)).

Lemma exit_head me ip status s :
  exiter me ip s -> exit status s = exit_tail me status (exit_left me ip (close_fds me s)).
Proof.
  intros [Hc Hi Hpa Hol Hfs Hcwd Hir Hlog]. unfold exit.
  erewrite bind_ok by (apply curproc_ok; apply Hc). rewrite bind_gets, decide_False by done.
  destruct (exit_files me s Hc Hol Hfs) as [Ef [Hk Ho _ _]]. erewrite bind_ok by exact Ef.
  revert Hk Ho Hir. generalize (close_fds me s) as s1. intros s1 Hk Ho Hir. pose proof (kp_ctx _ _ _ Hk) as Hc1. destruct (kp_same _ _ _ Hk) as (_ & El & _).
  rewrite <- El in Hlog.
  assert (p_cwd (proc_of s1 me) = Some ip) as Ecwd by (by rewrite (kp_me _ _ _ Hk)).
  erewrite bind_ok by (apply (begin_op_ok me); [done|apply Hlog..]). rewrite bind_gets.
  change (proc_of (upd_log ?g s1) me) with (proc_of s1 me). rewrite Ecwd. unfold the_inode at 1. rewrite bind_ret.
  assert (i_ref (ip_of s1 ip) <> 1 \/ linked_inode s1 ip) as Hir1.
  { destruct Hir as [Hir|Hir]; [by left|right]. unfold linked_inode. by destruct (kp_inode _ _ _ Hk ip) as [-> ->]. }
  erewrite bind_ok by (apply (iput_drops me); [by apply ctx_upd_log|exact Hir1]).
  change (upd_inode ip ?g (upd_log ?h s1)) with (upd_log h (drop_inode ip s1)).
  erewrite bind_ok by (apply (end_op_nothing me); [by apply kept_drop_inode|exact Hlog]). done.
Qed.

Lemma exit_left_ctx me ip t : ctx me t -> ctx me (exit_left me ip t).
Proof.
  intros Hk. apply (kept_drop_inode me ip), kp_ctx, (ctx_woken_on _ CLog) in Hk.
  destruct Hk as [[] ? ? ? ?]. split; [by split|done|done| |done]. unfold exit_left. cbn in *. by rewrite length_alter.
Qed.

Lemma exit_left_parent me ip t j : p_parent (proc_of (exit_left me ip t) j) = p_parent (proc_of t j).
Proof.
  unfold proc_of, exit_left. cbn. rewrite alter_as_imap, imap_imap, list_lookup_imap. destruct (procs t !! j); [|done].
  cbn. case_decide; cbn; by rewrite wake_parent.
Qed.

Lemma exit_left_tail me ip status s t :
  kept me s t -> p_ofile (proc_of t me) = replicate NOFILE None -> p_parent (proc_of s me) <> Some me ->
  exists b, (b = true <-> has_child me s) /\
    exit_tail me status (exit_left me ip t) =
      (sched ;; panic "zombie exit") (acq (LProc me) (exited_from me ip status b s t)).
Proof.
  intros Hk Ho Hpa. pose proof (kp_ctx _ _ _ Hk) as Hc.
  pose proof (lookup_proc_of t me ltac:(rewrite (ctx_procs _ _ Hc); apply Hc)) as Hme.
  destruct (exit_tail_ok me status (exit_left me ip t)) as (b & Hb & E).
  - by apply exit_left_ctx.
  - by rewrite exit_left_parent, (kp_parent _ _ _ Hk).
  - exists b. split.
    + rewrite Hb. unfold has_child. apply exist_proper. intros j. apply and_iff_compat_l. unfold child_of.
      by rewrite exit_left_parent, (kp_parent _ _ _ Hk).
    + rewrite E, exit_left_parent, (kp_parent _ _ _ Hk). do 2 f_equal.
      change (initproc (exit_left me ip t)) with (initproc t). destruct (kp_same _ _ _ Hk) as (_ & _ & -> & _).
      unfold exited_from, exit_left, woken_on, upd_proc. cbn [procs set_procs].
      change (set_procs ?l (set_procs ?k (set_procs ?k' ?u))) with (set_procs l u). f_equal.
      rewrite alter_as_imap, !imap_imap. apply imap_ext. intros j q Hq. case_decide as Hj; [|done]. subst j.
      change (procs (drop_inode ip t)) with (procs t) in Hq. rewrite Hq in Hme. injection Hme as ->.
      rewrite wake_self. unfold dead. rewrite <- Ho. by destruct (proc_of t me).
Qed.

Lemma exit_spec me ip status s :
  exiter me ip s ->
  exists b, (b = true <-> has_child me s) /\
    exit status s = (sched ;; panic "zombie exit") (acq (LProc me) (exited me ip status b s)).
Proof.
  intros Hx. rewrite (exit_head me ip) by done.
  destruct (exit_files me s (ex_ctx _ _ _ Hx) (ex_ofile _ _ _ Hx) (ex_files _ _ _ Hx)) as [_ [Hk Ho _ _]].
  apply exit_left_tail; [done| |apply Hx]. by rewrite Ho, drop_ge, app_nil_r by (rewrite (ex_ofile _ _ _ Hx); lia).
Qed.

(** What is left of the process and its references. *)
Lemma exited_state me ip status b s :
  exiter me ip s -> let t := exited me ip status b s in
  settled t /\ noff (kcpu t) = noff (kcpu s) /\ nsched t = nsched s /\ c_proc (kcpu t) = Some me /\
  lock_free (LProc me) t /\
  procs t !! me = Some (dead status (proc_of s me)) /\
  ftable t = closed_files (p_ofile (proc_of s me)) (ftable s) /\
  itable t = alter (fun x => set_i_ref (i_ref x - 1) x) ip
    (closed_inodes (p_ofile (proc_of s me)) (ftable s) (itable s)).
Proof.
  intros Hx. pose proof (ex_ofile _ _ _ Hx) as Hol.
  destruct (exit_files me s (ex_ctx _ _ _ Hx) Hol (ex_files _ _ _ Hx)) as [_ [Hk Ho Hf Hi]].
  unfold exited. cbv zeta. revert Hk Ho Hf Hi. generalize (close_fds me s) as t. intros t Hk Ho Hf Hi.
  rewrite take_ge in Hf, Hi by lia. rewrite drop_ge, app_nil_r in Ho by lia.
  destruct (kp_ctx _ _ _ Hk) as [[] Hlk Hcur Hpr Hme]. destruct (kp_same _ _ _ Hk) as (_ & _ & _ & En & Ec).
  pose proof (lookup_proc_of t me ltac:(by rewrite Hpr)) as Hp. rewrite <- Ec.
  split_and!; [by split|done|done|done|by apply (Hlk (LProc me))| |done|].
  - unfold exited_from. cbn. rewrite list_lookup_imap, Hp. cbn. rewrite decide_True by done.
    f_equal. unfold dead. rewrite (kp_me _ _ _ Hk). by destruct (proc_of s me).
  - unfold exited_from, drop_inode. cbn. by rewrite Hi.
Qed.

(** The process gives up the CPU, and does not return from that. *)
Lemma exit_stops me ip status s :
  exiter me ip s -> noff (kcpu s) = 0 ->
  exists b, (b = true <-> has_child me s) /\
    let s' := acq (LProc me) (exited me ip status b s) in
    match others (nsched s) s' with
    | None => exit status s = Hang s'
    | Some t => exists t', exit status s = Panic "zombie exit" t'
    end.
Proof.
  intros Hx Hn. destruct (exit_spec me ip status s Hx) as (b & Hb & E). exists b. split; [exact Hb|]. cbv zeta.
  destruct (exited_state me ip status b s Hx) as (H1 & H2 & H3 & H4 & H5 & H6 & _).
  rewrite E. revert H1 H2 H3 H4 H5 H6. generalize (exited me ip status b s) as s'. intros s' H1 H2 H3 H4 H5 H6.
  pose proof (sched_ok me s' (dead status (proc_of s me))) as Hsched. rewrite H3 in Hsched.
  destruct (others (nsched s) (acq (LProc me) s')) as [t|].
  - erewrite bind_ok by (apply Hsched; [done|by rewrite H2|done|done|done]). by eexists.
  - apply bind_hang. apply Hsched; [done|by rewrite H2|done|done|done].
Qed.

(** C16: [exit] ends the process for good.  Each descriptor is closed, in
    order: its file loses a reference; with the last one its entry is free,
    and its inode loses a reference, or its end of the pipe is closed, with
    the sleepers at the other end woken and the page given back if that end
    was closed already.  So every file and every inode has as many references
    less as the process held, and the directory one less.  The children have
    init as parent, which is woken if there are any; the parent is woken; and
    the process is a zombie with that status, without descriptors and
    directory, when it gives up the CPU.  No other entry changes but for
    sleepers on the log and the pipes, which are woken.  It never returns: it
    is not scheduled again, or the kernel panics.  The log has room for an
    operation, and no inode given up is one to be freed on the disk. *)
Theorem exit_correct me ip status s :
  exiter me ip s -> noff (kcpu s) = 0 ->
  exists b, (b = true <-> has_child me s) /\
    let s' := acq (LProc me) (exited me ip status b s) in
    proc_of s' me = dead status (proc_of s me) /\
    ftable s' = closed_files (p_ofile (proc_of s me)) (ftable s) /\
    itable s' = alter (fun x => set_i_ref (i_ref x - 1) x) ip
      (closed_inodes (p_ofile (proc_of s me)) (ftable s) (itable s)) /\
    match others (nsched s) s' with
    | None => exit status s = Hang s'
    | Some t => exists t', exit status s = Panic "zombie exit" t'
    end.
Proof.
  intros Hx Hn. destruct (exit_stops me ip status s Hx Hn) as (b & Hb & E). exists b. split; [exact Hb|]. cbv zeta.
  destruct (exited_state me ip status b s Hx) as (_ & _ & _ & _ & _ & H6 & H7 & H8).
  split; [exact (proc_of_lookup _ _ _ H6)|]. split; [exact H7|]. split; [exact H8|exact E].
Qed.

End Exit.
