(* ===== verification/LifeCycle.v ===== *)
(** * fork, exit and wait together (kernel/proc.c)

    A process forks and waits; its child runs and exits while it sleeps; the
    scheduler switches between them.  The parent gets the child's pid and exit
    status, and nothing else is left of the child: its entry, its pages and
    its references are as before the fork. *)
From S2P Require Import Prelude Memory Machine Platform Sv32 Spinlock Printf Kalloc Vm Proc Sleeplock Bio Log Fs Console File Life.
From S2P Require Import ProcSpec SleepSpec LogSpec LogTx VmSpec UserVm UserCopy ProcVm ForkSpec WaitSpec ExitSpec.
From stdpp Require Import gmap strings countable prelude.

Open Scope Z_scope.
#[local] Opaque memset.

Section LifeCycle.
Context {L : Layout} {LO : LayoutOk L} {W : World} {D : DiskDriver}.

(** The world of a process that is not scheduled again. *)
Definition last_turn : World :=
  {| others := fun _ _ => None; hw_read := hw_read; hw_write := hw_write; patience := patience |}.

(** What happens on the CPU between the switch away from [me] and the switch
    back, when the scheduler runs [np] meanwhile, which calls [exit(x)]. *)
Definition child_turn (me np : nat) (x : Z) (a : kstate) : option kstate :=
  match (scheduler_back me ;; scheduler_pick np ;; release (LProc np) ;; exit (W := last_turn) x) a with
  | Hang b => match (scheduler_back np ;; scheduler_pick me) b with Ok true c => Some c | _ => None end
  | _ => None
  end.

(** The table after that. *)
Definition outlived (me np : nat) (x : Z) (j : nat) (q : proc) : proc :=
  if decide (j = np) then dead x (set_p_state RUNNING q)
  else if decide (j = me) then set_p_state RUNNING (asleep (CProc me) q)
  else wake (Some np) (Some (CProc me)) j (wake (Some np) (Some CLog) j q).

Lemma as_proc_id me s : c_proc (kcpu s) = Some me -> as_proc me s = s.
Proof. destruct s as [??[???]]. cbn. intros ->. reflexivity. Qed.

(** A sleeper is woken on its own channel only. *)
Lemma wake_yes j me ch q : j <> me -> wake (Some j) (Some ch) me (asleep ch q) = set_p_state RUNNABLE (asleep ch q).
Proof. intros. unfold wake. rewrite decide_False by congruence. cbn. by rewrite !decide_True. Qed.
Lemma wake_no j me ch ch' q : ch <> ch' -> wake (Some j) (Some ch') me (asleep ch q) = asleep ch q.
Proof. intros. unfold wake. cbn. repeat case_decide; congruence. Qed.

(** ** Exit of a process that shares its files *)

(** Every file of the table [ofile] has references besides those. *)
Definition files_shared (ofile : list (option nat)) (s : kstate) : Prop :=
  forall fd f, ofile !! fd = Some (Some f) ->
    (f < length (ftable s))%nat /\ refs_to f ofile < f_ref (file_of s f).

Lemma shared_closable ofile s : files_shared ofile s -> closable ofile s.
Proof. intros H fd f Hf. destruct (H fd f Hf) as [H1 H2]. split_and!; [done|lia|lia]. Qed.

Lemma let_go_shared me f s : 1 < f_ref (file_of s f) -> let_go me f s = upd_file f (fun x => set_f_ref (f_ref x + -1) x) s.
Proof. intros H. unfold let_go. by rewrite (proj2 (Z.ltb_lt _ _)). Qed.

(** Only the references of the files change when it closes them. *)
Lemma close_fds_shared me s :
  (me < length (procs s))%nat -> let ofile := p_ofile (proc_of s me) in length ofile = NOFILE -> files_shared ofile s ->
  close_fds me s = upd_proc me (set_p_ofile (replicate NOFILE None)) (set_ftable (add_refs (-1) ofile (ftable s)) s).
Proof.
  intros Hme ofile Hlen Hsh. pose proof (lookup_proc_of s me Hme) as Hp.
  set (st := fun i : nat => upd_proc me (set_p_ofile (replicate i None ++ drop i ofile))
    (set_ftable (add_refs (-1) (take i ofile) (ftable s)) s)).
  assert (forall i, (i <= NOFILE)%nat -> foldl (close_fd me) s (seq 0 i) = st i) as H.
  2:{ unfold close_fds. rewrite (H NOFILE) by done. unfold st. by rewrite take_ge, drop_ge, app_nil_r by lia. }
  induction i as [|i IH]; intros Hi.
  - unfold st. cbn [take replicate drop app]. rewrite add_refs_nil, (upd_proc_id me _ (proc_of s me)); [by destruct s|exact Hp|].
    cbn. by destruct (proc_of s me).
  - rewrite seq_S, foldl_app, IH by lia. cbn [foldl Nat.add]. unfold close_fd.
    assert (p_ofile (proc_of (st i) me) = replicate i None ++ drop i ofile) as ->.
    { unfold st. by rewrite (proc_of_upd _ _ (proc_of s me)). }
    destruct (lookup_lt_is_Some_2 ofile i) as [o Hoi]; [lia|].
    assert (drop i ofile = o :: drop (S i) ofile) as Ed by (by apply drop_S).
    assert (take (S i) ofile = take i ofile ++ [o]) as Et by (by apply take_S_r).
    assert (replicate (S i) (None : option nat) = replicate i None ++ [None]) as Er by apply replicate_S_end.
    rewrite lookup_app_r, length_replicate, Nat.sub_diag, Ed by (rewrite length_replicate; lia).
    cbn [lookup list_lookup]. destruct o as [f|].
    + destruct (Hsh _ _ Hoi) as [Hf Hr]. pose proof (refs_to_take _ _ _ Hoi) as Hle.
      rewrite let_go_shared.
      2:{ change (1 < f_ref (default blank_file (add_refs (-1) (take i ofile) (ftable s) !! f))).
          rewrite file_of_add_refs by done. lia. }
      unfold st. rewrite Et, Er, Ed, add_refs_some.
      change (upd_file f ?h (upd_proc me ?k (set_ftable ?FT s))) with (upd_proc me k (set_ftable (alter h f FT) s)).
      rewrite upd_proc_twice. apply (upd_proc_ext me _ _ (proc_of s me)); [exact Hp|]. cbn [p_ofile set_p_ofile].
      rewrite insert_app_r_alt by (rewrite length_replicate; lia).
      rewrite length_replicate, Nat.sub_diag. cbn [insert list_insert]. by rewrite <- app_assoc.
    + unfold st. rewrite Et, Er, Ed, add_refs_none, <- app_assoc. done.
Qed.

Lemma exited_shared me ip status b s :
  (me < length (procs s))%nat -> length (p_ofile (proc_of s me)) = NOFILE -> files_shared (p_ofile (proc_of s me)) s ->
  exited me ip status b s =
  set_procs (imap (fun j q => if decide (j = me) then dead status q
      else bereaved me (initproc s) (p_parent (proc_of s me)) b j (wake (Some me) (Some CLog) j q)) (procs s))
    (drop_inode ip (set_ftable (add_refs (-1) (p_ofile (proc_of s me)) (ftable s)) s)).
Proof.
  intros Hme Hl Hsh. unfold exited. rewrite close_fds_shared by done. unfold exited_from.
  set (t := set_ftable _ s). change (procs (upd_proc me ?g t)) with (alter g me (procs s)).
  rewrite alter_as_imap, imap_imap.
  change (drop_inode ip (upd_proc me ?g t)) with (set_procs (alter g me (procs s)) (drop_inode ip t)).
  change (set_procs ?l (set_procs ?k ?u)) with (set_procs l u). f_equal. apply imap_ext. intros j q _. by case_decide.
Qed.

Section Turn.
Context (me np ip : nat) (x : Z) (s : kstate).
Hypothesis (Hc : ctx me s) (Hn : noff (kcpu s) = 0) (Hnp : (np < NPROC)%nat) (Hne : np <> me).
Let sA : kstate := upd_proc me (asleep (CProc me)) s.
Let sB : kstate := as_proc np (upd_proc np (set_p_state RUNNING) sA).

Lemma turn_to_child :
  p_state (proc_of s np) = RUNNABLE ->
  forall (m : K unit), (scheduler_back me ;; scheduler_pick np ;; release (LProc np) ;; m) (acq (LProc me) sA) = m sB.
Proof.
  intros Hst m. pose proof (ctx_settled _ _ Hc) as Hs. pose proof (ctx_locks _ _ Hc) as Hl.
  assert (procs s !! np = Some (proc_of s np)) as Hq by (apply lookup_proc_of; by rewrite (ctx_procs _ _ Hc)).
  erewrite bind_ok by (apply scheduler_back_ok; [destruct Hs; by split|apply (Hl (LProc me)), Hc]).
  erewrite bind_ok by (apply (scheduler_pick_run np _ (proc_of s np)); [destruct Hs; by split|by apply (Hl (LProc np))| |done];
    unfold sA; cbn; by rewrite list_lookup_alter_ne).
  erewrite bind_ok by (apply release_acq; [destruct Hs; by split|by apply (Hl (LProc np))]). reflexivity.
Qed.

(** The table when the child is gone and the parent not yet picked. *)
Let alive_or_dead (j : nat) (q : proc) : proc :=
  if decide (j = me) then set_p_state RUNNABLE (asleep (CProc me) q) else outlived me np x j q.

Lemma turn_table :
  (forall k, ~ child_of np s k) ->
  imap (fun j q => if decide (j = np) then dead x q
    else bereaved np (initproc sB) (Some me) false j (wake (Some np) (Some CLog) j q)) (procs sB) =
  imap alive_or_dead (procs s).
Proof.
  intros Hnc. unfold sB, sA, as_proc, upd_proc. ksimp. rewrite alter_as_imap, imap_imap, alter_as_imap, imap_imap.
  apply imap_ext. intros j q Hj. unfold alive_or_dead, outlived.
  destruct (decide (j = np)) as [->|Hjn]; [by rewrite !decide_False by done|].
  unfold bereaved, wake_if, reparented.
  assert (p_parent q <> Some np) as Hqp by (intros Hqp; apply (Hnc j); unfold child_of; by rewrite (proc_of_lookup _ _ _ Hj)).
  destruct (decide (j = me)) as [->|Hjm]; rewrite wake_parent; [|by rewrite decide_False].
  cbn [p_parent asleep set_p_state set_p_chan]. rewrite wake_no, decide_False by done. by apply wake_yes.
Qed.

Lemma child_turn_ok :
  p_state (proc_of s np) = RUNNABLE -> p_parent (proc_of s np) = Some me -> (forall k, ~ child_of np s k) ->
  exiter np ip sB -> files_shared (p_ofile (proc_of sB np)) sB ->
  child_turn me np x (acq (LProc me) sA) = Some (acq (LProc me)
    (set_procs (imap (outlived me np x) (procs s)) (upd_inode ip (fun i => set_i_ref (i_ref i - 1) i)
      (set_ftable (add_refs (-1) (p_ofile (proc_of s np)) (ftable s)) s)))).
Proof.
  intros Hst Hpa Hnc Hx Hsh. unfold child_turn. rewrite turn_to_child by done.
  pose proof (ctx_settled _ _ Hc) as Hs. pose proof (ctx_locks _ _ Hc) as Hl.
  assert (procs s !! np = Some (proc_of s np)) as Hq by (apply lookup_proc_of; by rewrite (ctx_procs _ _ Hc)).
  assert (procs s !! me = Some (proc_of s me)) as Hp by (apply lookup_proc_of; rewrite (ctx_procs _ _ Hc); apply Hc).
  destruct (exit_stops (W := last_turn) np ip x sB Hx Hn) as (b & Hb & E). cbn [others last_turn] in E. rewrite E. clear E.
  assert (proc_of sB np = set_p_state RUNNING (proc_of s np)) as EB.
  { unfold sB, sA, proc_of. cbn. by rewrite list_lookup_alter_eq, list_lookup_alter_ne, Hq. }
  assert (forall j, p_parent (proc_of sB j) = p_parent (proc_of s j)) as EP.
  { intros j. unfold sB, sA, proc_of. cbn.
    destruct (decide (j = np)) as [->|]; [by rewrite list_lookup_alter_eq, list_lookup_alter_ne, Hq|].
    rewrite list_lookup_alter_ne by done.
    destruct (decide (j = me)) as [->|]; [by rewrite list_lookup_alter_eq, Hp|by rewrite list_lookup_alter_ne]. }
  destruct b; [destruct (proj1 Hb eq_refl) as (k & _ & Hk); unfold child_of in Hk; rewrite EP in Hk; by destruct (Hnc k)|].
  rewrite (exited_shared np ip x false sB); [|by rewrite (ctx_procs _ _ (ex_ctx _ _ _ Hx))|apply Hx|done].
  erewrite bind_ok by (apply scheduler_back_ok; [destruct Hs; by split|by apply (Hl (LProc np))]).
  rewrite EP, Hpa, EB. set (P := imap _ (procs sB)).
  assert (P = imap alive_or_dead (procs s)) as EPs by (by apply turn_table).
  erewrite (scheduler_pick_run me); [|destruct Hs; by split|apply (Hl (LProc me)), Hc| |].
  2:{ cbn [procs set_procs set_kcpu]. rewrite EPs, list_lookup_imap, Hp. cbn. unfold alive_or_dead. by rewrite decide_True. }
  2:done.
  do 2 f_equal.
  assert (c_proc (kcpu s) = Some me) as Ecp by apply Hc. rewrite EPs.
  change (as_proc me (set_procs (alter (set_p_state RUNNING) me
    (imap alive_or_dead (procs s)))
    (upd_inode ip (fun i => set_i_ref (i_ref i - 1) i) (set_ftable (add_refs (-1) (p_ofile (proc_of s np)) (ftable s)) s))) =
    set_procs (imap (outlived me np x) (procs s)) (upd_inode ip (fun i => set_i_ref (i_ref i - 1) i)
      (set_ftable (add_refs (-1) (p_ofile (proc_of s np)) (ftable s)) s))).
  rewrite as_proc_id by exact Ecp. f_equal. rewrite alter_imap. apply imap_ext. intros j q _. unfold alive_or_dead, outlived.
  repeat case_decide; subst; done.
Qed.
End Turn.

(** ** The cycle *)

(** A process that forks into the free entry [np] and waits: it is not killed,
    it has no other child and nobody is a child of the free entry, its
    directory is referenced, and no file system operation is under way. *)
Record waiter (me np ip : nat) (s : kstate) : Prop := {
  wt_noff : noff (kcpu s) = 0;
  wt_killed : p_killed (proc_of s me) = 0;
  wt_np : (np < NPROC)%nat /\ first_unused 0 np s;
  wt_alone : forall k i, p_parent (proc_of s k) = Some i -> i <> me /\ i <> np;
  wt_init : initproc s <> Some np;
  wt_log : log_idle (log s);
  wt_ip : 1 <= i_ref (ip_of s ip);
}.

Lemma first_unused_unique np np' s : first_unused 0 np s -> first_unused 0 np' s -> np = np'.
Proof.
  intros [H1 H2] [H3 H4]. destruct (lt_eq_lt_dec np np') as [[Hlt|?]|Hlt]; [|done|].
  - by destruct (H4 np ltac:(lia)).
  - by destruct (H2 np' ltac:(lia)).
Qed.

Section Cycle.
Context (me np ip : nat) (T0 F T F' : gset Z) (pas0 pas : list Z) (s s1 : kstate).
Hypothesis (Hk : forker me ip T0 F pas0 s) (Hw : waiter me np ip s).
Hypothesis (Hf : forked me ip T0 F pas0 s s1 np T F' pas).

Lemma cycle_ne : np <> me.
Proof. intros ->. destruct (wt_np _ _ _ _ Hw) as [_ [Hu _]]. by apply (fk_state _ _ _ _ _ _ Hk). Qed.

(** The table after the fork. *)
Lemma forked_procs : exists root tf,
  proc_of s1 np = child me (nextpid s) tf root (proc_of s me) (proc_of s np) /\
  forall k, k <> np -> proc_of s1 k = proc_of s k.
Proof.
  destruct (fd_state _ _ _ _ _ _ _ _ _ _ _ Hf) as (root & tf & m' & fl & -> & _ & _). exists root, tf. split.
  - apply (proc_of_upd np _ (proc_of s np)). apply (lookup_proc_of s np).
    rewrite (ctx_procs _ _ (fk_ctx _ _ _ _ _ _ Hk)). apply Hw.
  - intros k Hkn. by rewrite proc_of_upd_ne.
Qed.

Lemma forked_ctx : ctx me s1.
Proof.
  destruct (fk_ctx _ _ _ _ _ _ Hk) as [Hs Hl Hc Hp Hm].
  destruct (fd_state _ _ _ _ _ _ _ _ _ _ _ Hf) as (root & tf & m' & fl & -> & _ & _).
  split; [destruct Hs; by split|exact Hl|exact Hc| |done]. cbn. by rewrite length_alter.
Qed.

Lemma forked_files : ftable s1 = add_refs 1 (p_ofile (proc_of s me)) (ftable s) /\
  itable s1 = alter (fun i => set_i_ref (i_ref i + 1) i) ip (itable s) /\ log s1 = log s /\
  kcpu s1 = kcpu s /\ nsched s1 = nsched s /\ initproc s1 = initproc s.
Proof. by destruct (fd_state _ _ _ _ _ _ _ _ _ _ _ Hf) as (root & tf & m' & fl & -> & _ & _). Qed.

(** The child shares its files and may exit when it runs. *)
Lemma child_shares : let t := as_proc np (upd_proc np (set_p_state RUNNING) (upd_proc me (asleep (CProc me)) s1)) in
  files_shared (p_ofile (proc_of t np)) t.
Proof.
  destruct forked_procs as (root & tf & Enp & Eo). destruct forked_files as (Eft & _).
  pose proof cycle_ne as Hne. pose proof forked_ctx as [_ _ _ Hp _]. intros t.
  assert (p_ofile (proc_of t np) = p_ofile (proc_of s me)) as ->.
  { unfold t, proc_of. cbn. rewrite list_lookup_alter_eq, list_lookup_alter_ne by done.
    rewrite (lookup_proc_of s1 np) by (rewrite Hp; apply Hw). cbn. by rewrite Enp. }
  intros fd f Hfd. destruct (fk_files _ _ _ _ _ _ Hk fd f Hfd) as [Hlt Hr].
  unfold file_of. change (ftable t) with (ftable s1). rewrite Eft.
  split; [unfold add_refs; by rewrite length_imap|]. rewrite file_of_add_refs by done. lia.
Qed.

Lemma child_exiter : exiter np ip
  (as_proc np (upd_proc np (set_p_state RUNNING) (upd_proc me (asleep (CProc me)) s1))).
Proof.
  destruct forked_procs as (root & tf & Enp & Eo). destruct forked_files as (Eft & Eit & Elog & _ & _ & Ein).
  pose proof cycle_ne as Hne. pose proof forked_ctx as [Hs Hl Hc Hp Hm].
  set (t := as_proc np _).
  assert (proc_of t np = set_p_state RUNNING (proc_of s1 np)) as Et.
  { unfold t, proc_of. cbn. rewrite list_lookup_alter_eq, list_lookup_alter_ne by done.
    by rewrite (lookup_proc_of s1 np) by (rewrite Hp; apply Hw). }
  assert (ctx np t) as Hct.
  { split; [destruct Hs; by split|exact Hl|done| |apply Hw]. cbn. by rewrite !length_alter. }
  pose proof child_shares as Hsh. cbv zeta in Hsh. fold t in Hsh.
  split; rewrite ?Et, ?Enp.
  - done.
  - change (initproc s1 <> Some np). rewrite Ein. apply Hw.
  - cbn. congruence.
  - apply Hk.
  - rewrite Et, Enp in Hsh. by apply shared_closable.
  - apply Hk.
  - left. rewrite close_fds_shared; [|by rewrite (ctx_procs _ _ Hct); apply Hw|by rewrite Et, Enp; apply Hk|done].
    unfold ip_of. change (itable _) with (itable s1). rewrite Eit, list_lookup_alter_eq.
    pose proof (wt_ip _ _ _ _ Hw) as Hi. unfold ip_of in Hi. destruct (itable s !! ip) as [i|]; cbn in *; lia.
  - change (log_room (log s1)). rewrite Elog. apply log_idle_room, Hw.
Qed.
(** The machine when the parent has slept, with [wait_lock] aside. *)
Definition after (x : Z) : kstate :=
  set_nsched (S (nsched s)) (upd_proc me (set_p_chan None) (set_procs (imap (outlived me np x) (procs s1))
    (upd_inode ip (fun i => set_i_ref (i_ref i - 1) i)
      (set_ftable (add_refs (-1) (p_ofile (proc_of s1 np)) (ftable s1)) s1)))).

Lemma cycle_sleep x :
  (forall a, others (nsched s) a = child_turn me np x a) ->
  sleep (CProc me) LWait (acq LWait s1) = Ok tt (acq LWait (after x)).
Proof.
  intros Ho. destruct forked_procs as (root & tf & Enp & Eo). destruct forked_files as (_ & _ & _ & Ecpu & Ens & _).
  pose proof forked_ctx as Hc. pose proof (ctx_locks _ _ Hc) as Hl. pose proof (ctx_settled _ _ Hc) as Hs.
  unfold after. rewrite <- Ens. apply (sleep_ok _ _ _ _ (proc_of s1 me)).
  - done.
  - rewrite Ecpu. apply Hw.
  - apply Hc.
  - apply lookup_proc_of. rewrite (ctx_procs _ _ Hc). apply Hc.
  - by apply (Hl LWait).
  - apply (Hl (LProc me)), Hc.
  - done.
  - rewrite Ens, Ho. apply child_turn_ok; [done|rewrite Ecpu; apply Hw|apply Hw|apply cycle_ne|by rewrite Enp..| |apply child_exiter|apply child_shares].
    intros k Hck. unfold child_of in Hck. destruct (decide (k = np)) as [->|Hkn].
    + rewrite Enp in Hck. injection Hck as Hck. by apply cycle_ne.
    + rewrite Eo in Hck by done. by destruct (wt_alone _ _ _ _ Hw k np Hck).
  - destruct Hs; by split.
  - by apply (Hl LWait).
  - apply (Hl (LProc me)), Hc.
  - done.
Qed.

Lemma after_ctx x : ctx me (after x).
Proof.
  destruct forked_ctx as [Hs Hl Hc Hp Hm]. split; [destruct Hs; by split|exact Hl|exact Hc| |done].
  cbn. by rewrite length_alter, length_imap.
Qed.

Lemma after_procs x :
  proc_of (after x) np = dead x (set_p_state RUNNING (proc_of s1 np)) /\
  proc_of (after x) me = set_p_state RUNNING (set_p_chan None (proc_of s me)) /\
  forall k, k <> np -> k <> me -> proc_of (after x) k =
    wake (Some np) (Some (CProc me)) k (wake (Some np) (Some CLog) k (proc_of s k)).
Proof.
  destruct forked_procs as (root & tf & _ & Eo). pose proof cycle_ne as Hne. pose proof forked_ctx as Hc.
  assert (forall k, (k < NPROC)%nat -> procs s1 !! k = Some (proc_of s1 k)) as Hlk.
  { intros k Hlt. apply lookup_proc_of. by rewrite (ctx_procs _ _ Hc). }
  split_and!.
  - unfold proc_of at 1. cbn. rewrite list_lookup_alter_ne, list_lookup_imap, Hlk by (done || apply Hw). cbn.
    unfold outlived. by rewrite decide_True.
  - rewrite <- (Eo me) by done. unfold proc_of at 1. cbn. rewrite list_lookup_alter_eq, list_lookup_imap, Hlk by apply Hc. cbn.
    unfold outlived. by rewrite decide_False, decide_True by done.
  - intros k Hkn Hkm. rewrite <- (Eo k) by done. unfold proc_of. cbn. rewrite list_lookup_alter_ne, list_lookup_imap by done.
    destruct (procs s1 !! k) as [q|] eqn:Hq; cbn.
    + unfold outlived. by rewrite !decide_False by done.
    + unfold wake. cbn. by repeat case_decide.
Qed.

Lemma after_files x : ftable (after x) = ftable s /\ itable (after x) = itable s /\ log (after x) = log s.
Proof.
  destruct forked_procs as (root & tf & Enp & _). destruct forked_files as (Eft & Eit & Elog & _). split_and!.
  - change (ftable (after x)) with (add_refs (-1) (p_ofile (proc_of s1 np)) (ftable s1)).
    rewrite Enp, Eft. apply add_refs_back.
  - change (itable (after x)) with (alter (fun i => set_i_ref (i_ref i - 1) i) ip (itable s1)).
    rewrite Eit, !alter_as_imap, imap_imap. rewrite <- (imap_id (itable s)) at 2. apply imap_ext. intros j i _.
    case_decide; [|done]. destruct i. unfold set_i_ref. cbn. f_equal. lia.
  - exact Elog.
Qed.

(** Before the child has run [wait] finds it alive. *)
Lemma cycle_no_zombie : no_zombie me s1 /\ has_child me s1.
Proof.
  destruct forked_procs as (root & tf & Enp & Eo). split.
  - intros k _ [Hck Hz]. unfold child_of in Hck. destruct (decide (k = np)) as [->|Hkn]; [by rewrite Enp in Hz|].
    rewrite Eo in Hck by done. by destruct (wt_alone _ _ _ _ Hw k me Hck).
  - exists np. split; [apply Hw|]. unfold child_of. by rewrite Enp.
Qed.

Lemma after_zombie x : first_zombie me (after x) np.
Proof.
  destruct (after_procs x) as (E1 & E2 & E3). destruct forked_procs as (root & tf & Enp & _).
  split; [apply Hw|]. split; [split; unfold child_of; by rewrite E1, ?Enp|].
  intros k Hlt [Hck _]. unfold child_of in Hck. destruct (decide (k = me)) as [->|Hkm].
  - rewrite E2 in Hck. cbn in Hck. by destruct (wt_alone _ _ _ _ Hw me me Hck).
  - rewrite E3, !wake_parent in Hck by lia. by destruct (wt_alone _ _ _ _ Hw k me Hck).
Qed.
(** The memory of the two when the parent has slept. *)
Lemma after_owns x :
  owns T F' pas (proc_of (after x) np) (after x) /\ owns T0 F' pas0 (proc_of (after x) me) (after x) /\
  owned T pas (proc_of (after x) np) ## owned T0 pas0 (proc_of (after x) me) /\
  owned T pas (proc_of (after x) np) ∪ F' = F.
Proof.
  destruct (after_procs x) as (E1 & E2 & _). destruct forked_procs as (root & tf & _ & Eo).
  pose proof (fd_child _ _ _ _ _ _ _ _ _ _ _ Hf) as Hch. pose proof (fd_parent _ _ _ _ _ _ _ _ _ _ _ Hf) as Hpa.
  assert (free_pages F' (after x)) as HF.
  { eapply free_pages_same; [by eapply owns_free|apply after_ctx|done..]. }
  pose proof (fd_pages _ _ _ _ _ _ _ _ _ _ _ Hf) as HU. pose proof (owns_disj _ _ _ _ _ (fk_mem _ _ _ _ _ _ Hk)) as Hd.
  rewrite Eo in Hpa by (symmetry; apply cycle_ne).
  assert (owned T pas (proc_of (after x) np) = owned T pas (proc_of s1 np)) as O1 by (by rewrite E1).
  assert (owned T0 pas0 (proc_of (after x) me) = owned T0 pas0 (proc_of s me)) as O2 by (by rewrite E2).
  split_and!.
  - apply (owns_same _ _ _ _ s1); [|reflexivity|exact HF]. by eapply owns_proc; [exact Hch|rewrite E1..].
  - apply (owns_same _ _ _ _ s1); [|reflexivity|exact HF]. by eapply owns_proc; [exact Hpa|rewrite E2..].
  - rewrite O1, O2. rewrite <- HU in Hd. clear -Hd. set_solver.
  - by rewrite O1.
Qed.

(** User memory of the parent across the fork. *)
Lemma forked_user_memory va :
  accessible (mem s1) (p_pagetable (proc_of s me)) va = accessible (mem s) (p_pagetable (proc_of s me)) va /\
  (is_u32 va -> vpn va < Z.of_nat (length pas0) ->
   ubyte (mem s1) (p_pagetable (proc_of s me)) va = ubyte (mem s) (p_pagetable (proc_of s me)) va).
Proof.
  pose proof (fk_mem _ _ _ _ _ _ Hk) as Ho. pose proof (owns_disj _ _ _ _ _ Ho) as Hd.
  assert (forall a, a ∈ F -> page a) as HP by (intros a Ha; apply (free_pages_page F s a); [by eapply owns_free|done]).
  pose proof (fd_mem _ _ _ _ _ _ _ _ _ _ _ Hf) as Ha. split.
  - destruct (ow_space _ _ _ _ _ Ho) as [[[Hok _ _] _ _ _] _ _ _].
    destruct (pt_ok_frame F T0 (mem s) (mem s1) (p_pagetable (proc_of s me))) as (_ & _ & E); [done..| |].
    + unfold owned in Hd. clear -Hd. set_solver.
    + unfold accessible. by rewrite E.
  - intros. by eapply ubyte_frame.
Qed.

Lemma cycle_wait addr x n :
  is_u32 addr -> addr + 4 <= 2 ^ 32 -> addr = 0 \/ range_ok (mem s) (p_pagetable (proc_of s me)) addr 4 ->
  patience = S n -> (forall a, others (nsched s) a = child_turn me np x a) ->
  exists s3, wait addr s1 = Ok (nextpid s) s3 /\ reaped me np addr T0 T F' pas0 pas (after x) s3.
Proof.
  intros Ha Hlim Hr Hp Ho. rewrite (wait_is_loop me), Hp by apply forked_ctx.
  destruct cycle_no_zombie as [Hnz Hhc]. destruct (after_procs x) as (E1 & E2 & _).
  destruct forked_procs as (root & tf & Enp & Eo). destruct (after_owns x) as (O1 & O2 & O3 & _).
  destruct (wait_loop_cases (S n) me addr s1 forked_ctx) as [(z & (Hz1 & Hz2 & _) & _)|[(_ & Hor & _)|(_ & _ & _ & ->)]].
  { by destruct (Hnz z Hz1). }
  { exfalso. destruct Hor as [Hor|Hor]; [done|]. rewrite Eo in Hor by (symmetry; apply cycle_ne). by destruct Hw. }
  rewrite (bind_ok _ _ _ _ _ (cycle_sleep x Ho)).
  replace (nextpid s) with (p_pid (proc_of (after x) np)) by (by rewrite E1, Enp).
  eapply collect; [apply after_ctx|apply after_zombie|done..|].
  destruct Hr as [Hr|Hr]; [by left|right]. intros va Hva.
  change (mem (after x)) with (mem s1). rewrite E2. cbn. rewrite (proj1 (forked_user_memory va)). by apply Hr.
Qed.
End Cycle.

(** C8: a child comes and goes without a trace.  A process forks into the
    free entry [np] and waits with the address [addr]; while it sleeps the
    scheduler runs the child, which calls [exit(x)], and switches back.  Then
    [fork] returns the new pid and [wait] the same pid; the four bytes at
    [addr] are the status [x], unless [addr] is null, and the rest of the
    user memory of the process is as before the fork; the free pages, the
    references of the open files and of the inodes, and the log are those of
    before the fork; the entry of the child is free, that of the process is
    as it was, and the others at most woken from the log (or from a sleep on
    that entry). *)
Theorem fork_exit_wait me np ip T0 F pas0 addr x n s :
  forker me ip T0 F pas0 s -> waiter me np ip s -> (2 * length pas0 + 4 <= size F)%nat ->
  is_u32 addr -> addr + 4 <= 2 ^ 32 -> addr = 0 \/ range_ok (mem s) (p_pagetable (proc_of s me)) addr 4 ->
  patience = S n -> (forall a, others (nsched s) a = child_turn me np x a) ->
  exists s1 s3, fork s = Ok (nextpid s) s1 /\ wait addr s1 = Ok (nextpid s) s3 /\
    status_stored addr x 4 (p_pagetable (proc_of s me)) (Z.of_nat (length pas0)) (mem s) (mem s3) /\
    free_pages F s3 /\ owns T0 F pas0 (proc_of s3 me) s3 /\
    ftable s3 = ftable s /\ itable s3 = itable s /\ log s3 = log s /\
    p_state (proc_of s3 np) = UNUSED /\
    proc_of s3 me = set_p_state RUNNING (set_p_chan None (proc_of s me)) /\
    forall k, k <> np -> k <> me -> proc_of s3 k =
      wake (Some np) (Some (CProc me)) k (wake (Some np) (Some CLog) k (proc_of s k)).
Proof.
  intros Hk Hw Hsz Ha Hlim Hr Hp Ho. pose proof (wt_np _ _ _ _ Hw) as [Hnp Hfu].
  destruct (fork_spec me ip T0 F pas0 s Hk) as [(s1 & np' & T & F' & pas & E & Hf)|(s' & _ & [[_ Hn]|Hn])].
  2:{ destruct Hfu. by destruct (Hn np Hnp). }
  2:{ destruct Hn as (? & ? & ? & _ & _ & _ & _ & ?). lia. }
  assert (np' = np) as -> by (eapply first_unused_unique; [apply (fd_np _ _ _ _ _ _ _ _ _ _ _ Hf)|done]).
  destruct (cycle_wait me np ip T0 F T F' pas0 pas s s1 Hk Hw Hf addr x n) as (s3 & E3 & [_ (t & Et & V) HF Hpar Hst]); [done..|].
  destruct (after_owns me np ip T0 F T F' pas0 pas s s1 Hk Hw Hf x) as (_ & _ & _ & HU).
  destruct (after_files me np ip T0 F T F' pas0 pas s s1 Hk Hw Hf x) as (A1 & A2 & A3).
  destruct (after_procs me np ip T0 F T F' pas0 pas s s1 Hk Hw Hf x) as (E1 & E2 & E4).
  rewrite HU in HF, Hpar. set (a := after me np ip s s1 x) in *.
  destruct V as (_ & m' & fl & ->). set (t := set_mem m' (set_freelist fl a)) in *.
  assert (forall k, proc_of t k = proc_of a k) as Ep by done.
  assert (forall k, k <> np -> proc_of s3 k = proc_of a k) as Eo.
  { intros k Hkn. by rewrite Et, proc_of_upd_ne. }
  assert (me <> np) as Hne by (intros ->; destruct Hfu; by destruct (fk_state _ _ _ _ _ _ Hk)).
  exists s1, s3. split_and!; [done|done| |done| | | | | | |].
  - intros va Hva Hv. rewrite E1, E2 in Hst. specialize (Hst va Hva Hv).
    cbn [p_xstate dead set_p_state set_p_xstate p_pagetable set_p_chan] in Hst. rewrite Hst. case_decide; [done|]. 
    exact (proj2 (forked_user_memory me np ip T0 F T F' pas0 pas s s1 Hk Hf va) Hva Hv).
  - by rewrite Eo.
  - by rewrite Et, <- A1.
  - by rewrite Et, <- A2.
  - by rewrite Et, <- A3.
  - rewrite Et. erewrite proc_of_upd; [done|]. apply (lookup_proc_of t). change (procs t) with (procs (after me np ip s s1 x)).
    rewrite (ctx_procs _ _ (after_ctx me np ip T0 F T F' pas0 pas s s1 Hk Hf x)). done.
  - by rewrite Eo, E2.
  - intros k Hkn Hkm. by rewrite Eo, E4.
Qed.
End LifeCycle.

(** ** The machine of ForkSpec.v: process 0 forks and waits *)

#[local] Existing Instance test_layout.
#[local] Existing Instance test_layout_ok.

(** Process 1 runs once, and exits with status 7. *)
Definition quiet_world : World :=
  {| others _ _ := None; hw_read _ _ _ := 0; hw_write _ _ s := s; patience := 1 |}.
Definition no_disk : DiskDriver :=
  {| platform_disk_init := mret tt; platform_disk_read _ _ := mret tt; platform_disk_write _ _ := mret tt |}.
Definition cycle_world : World :=
  {| others _ a := child_turn (W := quiet_world) (D := no_disk) 0 1 7 a;
     hw_read _ _ _ := 0; hw_write _ _ s := s; patience := 1 |}.

Lemma fork_base_quiet : noff (kcpu fork_base) = 0 /\ initproc fork_base = None /\ log_idle (log fork_base) /\
  i_ref (ip_of fork_base 0) = 1.
Proof. split_and!; vm_compute; try reflexivity. split; [|split]; reflexivity. Qed.

Lemma fork_machine_waiter : waiter 0 1 0 fork_machine.
Proof.
  destruct fork_machine_ok as (T0 & F & Hk & _ & Hu & Hpar & root & tf & m & fl & E).
  destruct fork_base_quiet as (Q1 & Q2 & Q3 & Q4). pose proof fork_base_procs as Ep.
  split.
  - rewrite E. exact Q1.
  - rewrite E, upd_proc_twice. erewrite proc_of_upd; [|ksimp; rewrite Ep; reflexivity]. reflexivity.
  - split; [unfold NPROC; lia|]. split; [exact Hu|]. intros k Hlt. replace k with 0%nat by lia. apply Hk.
  - intros k i. rewrite Hpar. discriminate.
  - rewrite E. change (initproc fork_base <> Some 1%nat). rewrite Q2. discriminate.
  - rewrite E. exact Q3.
  - rewrite E. change (1 <= i_ref (ip_of fork_base 0)). rewrite Q4. lia.
Qed.
#[local] Opaque fork_machine.

Lemma fork_exit_wait_witness : exists s1 s3,
  fork fork_machine = Ok (nextpid fork_machine) s1 /\
  wait (W := cycle_world) 0 s1 = Ok (nextpid fork_machine) s3 /\
  p_state (proc_of s3 1) = UNUSED.
Proof.
  destruct fork_machine_ok as (T0 & F & Hk & Hsz & _).
  destruct (fork_exit_wait (W := cycle_world) (D := no_disk) 0 1 0 T0 F [] 0 7 0 fork_machine
    Hk fork_machine_waiter Hsz ltac:(unfold is_u32; lia) ltac:(lia) (or_introl eq_refl) eq_refl (fun a => eq_refl))
    as (s1 & s3 & E1 & E3 & _ & _ & _ & _ & _ & _ & Hs & _).
  exists s1, s3. split; [exact E1|split; [exact E3|exact Hs]].
Defined.

(** ** A process that holds the last references to its files

    Process 0 has both ends of a pipe, the file of inode 0, which is its
    directory too, and a device that another process has open as well. *)

Definition a_file (ty : ftype) (ref w pi : Z) (ip : option nat) : file :=
  set_f_type ty (set_f_ref ref (set_f_writable w (set_f_pipe pi (set_f_ip ip blank_file)))).
Definition pipe_page : Z := freelist fork_base.
Definition leaver : kstate :=
  let s := final (kalloc fork_base) in
  set_locks (<[LPipe pipe_page := unlocked]> boot_locks)
   (set_mem (store32 (store32 (mem s) (pipe_page + PI_readopen) 1) (pipe_page + PI_writeopen) 1)
   (set_ftable [a_file FD_PIPE 1 0 pipe_page None; a_file FD_PIPE 1 1 pipe_page None;
      a_file FD_INODE 1 0 0 (Some 0%nat); a_file FD_DEVICE 2 1 0 (Some 0%nat)]
   (upd_inode 0 (fun i => set_i_ref 3 (set_i_valid 1 (set_i_nlink 1 i)))
   (upd_proc 0 (set_p_ofile ([Some 0%nat; Some 1%nat; Some 2%nat; Some 3%nat] ++ replicate 4 None)) s)))).

Lemma leaver_proc : proc_of leaver 0 =
  set_p_ofile ([Some 0%nat; Some 1%nat; Some 2%nat; Some 3%nat] ++ replicate 4 None) fork_proc.
Proof. vm_compute. reflexivity. Qed.

Lemma leaver_ctx : ctx 0 leaver.
Proof.
  split.
  - split; vm_compute; congruence.
  - intros lk Hlk. unfold lock_free.
    change (locks leaver) with (<[LPipe pipe_page := unlocked]> (locks fork_base)).
    rewrite lookup_insert_ne by (intros <-; done). exact (boot_locks_free lk fork_base eq_refl Hlk).
  - vm_compute. reflexivity.
  - vm_compute. reflexivity.
  - unfold NPROC. lia.
Qed.

Lemma leaver_room : log_room (log leaver).
Proof. split; vm_compute; congruence. Qed.

Lemma leaver_linked : linked_inode leaver 0.
Proof. right. vm_compute. discriminate. Qed.

Lemma leaver_files : closable (p_ofile (proc_of leaver 0)) leaver.
Proof.
  rewrite leaver_proc. intros fd f Hf.
  assert (f < 4)%nat as Hlt.
  { do 4 (destruct fd as [|fd]; [injection Hf as <-; lia|]). change (replicate 4 (None : option nat) !! fd = Some (Some f)) in Hf.
    apply lookup_replicate in Hf as [Hf _]. discriminate. }
  split; [exact Hlt|]. clear Hf fd.
  destruct f as [|[|[|f]]]; [split; [vm_compute; congruence|]; intros _; split..|].
  - intros _. split; [vm_compute; split; [congruence|split; [congruence|reflexivity]]|vm_compute; reflexivity].
  - intros [E|E]; vm_compute in E; discriminate.
  - intros _. split; [vm_compute; split; [congruence|split; [congruence|reflexivity]]|vm_compute; reflexivity].
  - intros [E|E]; vm_compute in E; discriminate.
  - intros E. vm_compute in E. discriminate.
  - intros _. split; [exact leaver_room|]. exists 0%nat. split; [reflexivity|exact leaver_linked].
  - destruct f as [|f]; [|lia]. split; [vm_compute; congruence|]. intros E. vm_compute in E. discriminate.
Qed.

Lemma leaver_exiter : exiter 0 0 leaver.
Proof.
  split; [exact leaver_ctx| | | |exact leaver_files| |right; exact leaver_linked|exact leaver_room].
  - vm_compute. discriminate.
  - rewrite leaver_proc. discriminate.
  - rewrite leaver_proc. reflexivity.
  - rewrite leaver_proc. reflexivity.
Qed.

Lemma exit_correct_witness : exists b s',
  exit (W := quiet_world) (D := no_disk) 7 leaver = Hang s' /\
  p_state (proc_of s' 0) = ZOMBIE /\ f_type <$> ftable s' = [FD_NONE; FD_NONE; FD_NONE; FD_DEVICE] /\
  i_ref (ip_of s' 0) = 1 /\ freelist (exited 0 0 7 b leaver) = pipe_page.
Proof.
  destruct (exit_correct (W := quiet_world) (D := no_disk) 0 0 7 leaver leaver_exiter) as (b & _ & E1 & E2 & E3 & E4);
    [vm_compute; reflexivity|].
  exists b. eexists. split; [exact E4|]. split; [rewrite E1; reflexivity|].
  split; [rewrite E2; vm_compute; reflexivity|]. split; [unfold ip_of; rewrite E3; vm_compute; reflexivity|].
  destruct b; vm_compute; reflexivity.
Defined.
