(* ===== verification/ExecArgs.v ===== *)
(** * The arguments of the exec system call (sys_exec of kernel/sysfile.c,
    fetchaddr and fetchstr of kernel/syscall.c)

    [sys_exec] reads a path and a vector of strings out of user memory, each
    string into a page of its own.  Against the bytes the user program sees:
    it finds exactly the strings that are there, and gives back its pages when
    it does not. *)
From S2P Require Import Prelude Memory Machine Platform Sv32 Spinlock Printf Kalloc Vm Proc Sleeplock Bio Log Fs Console File Life Exec Syscall.
From S2P Require Import ProcSpec VmSpec UserVm UserCopy ProcVm ForkSpec.
From stdpp Require Import gmap strings countable prelude.

Open Scope Z_scope.
#[local] Opaque memset.

(** ** What the user program has in its memory *)

(** The string [l] is at [va], with its NUL within [max] bytes. *)
Definition ustring (m : gmap Z Z) (root va max : Z) (l : list Z) : Prop :=
  Z.of_nat (length l) < max /\ range_ok m root va (Z.of_nat (length l) + 1) /\
  ubytes m root va (length l) = l /\ ubyte m root (va + Z.of_nat (length l)) = 0 /\ 0 ∉ l.

(** A word at [va], inside a process of size [sz]. *)
Definition uword (m : gmap Z Z) (root va : Z) : Z := u32_at (ubytes m root va 4) 0.
Definition word_ok (m : gmap Z Z) (root sz va : Z) : Prop := va + 4 <= sz /\ range_ok m root va 4.

(** A vector of pointers to strings of less than a page, ended by a null
    pointer. *)
Inductive argvec (m : gmap Z Z) (root sz : Z) : Z -> list (list Z) -> Prop :=
| argvec_nil a : word_ok m root sz a -> uword m root a = 0 -> argvec m root sz a []
| argvec_cons a l args :
    word_ok m root sz a -> uword m root a <> 0 -> ustring m root (uword m root a) PGSIZE l ->
    argvec m root sz (a + 4) args -> argvec m root sz a (l :: args).

(** ** Strings *)

Lemma ubytes_nonzero m root va n :
  0 ∉ ubytes m root va n <-> forall i, 0 <= i < Z.of_nat n -> ubyte m root (va + i) <> 0.
Proof.
  split.
  - intros Hn i Hi E. apply Hn. apply list_elem_of_lookup. exists (Z.to_nat i).
    rewrite lookup_ubytes by lia. by rewrite Z2Nat.id, E by lia.
  - intros Hn [i Hi]%list_elem_of_lookup.
    assert (i < n)%nat as Hlt by (apply lookup_lt_Some in Hi; by rewrite length_ubytes in Hi).
    rewrite lookup_ubytes in Hi by done. injection Hi as Hi. apply (Hn (Z.of_nat i)); [lia|done].
Qed.

Lemma strlen_app_zero l : 0 ∉ l -> strlen (l ++ [0]) = length l.
Proof.
  induction l as [|c l IH]; intros H; [done|]. cbn. rewrite not_elem_of_cons in H. destruct H as [H0 Hl].
  rewrite (proj2 (Z.eqb_neq c 0)) by done. by rewrite IH.
Qed.

Lemma uword_u32 m root va : is_u32 (uword m root va).
Proof.
  unfold uword, u32_at, at_, is_u32. cbn [ubytes nth plus]. unfold ubyte.
  pose proof (load8_range m (upa m root va)). pose proof (load8_range m (upa m root (va + 1))).
  pose proof (load8_range m (upa m root (va + 1 + 1))). pose proof (load8_range m (upa m root (va + 1 + 1 + 1))). lia.
Qed.

(** What [copyinstr] found, in these terms. *)
Lemma string_read_ok m root va max k :
  string_read m root va max 0 k ->
  exists l, ustring m root va max l /\ k = S (length l) /\ ubytes m root va k = l ++ [0].
Proof.
  intros (Hr & Hk & [(_ & j & -> & H0 & Hn)|(? & _)]); [|lia].
  exists (ubytes m root va j). unfold ustring. rewrite length_ubytes. split_and!; [lia| |done|done| |done|].
  - intros va' Hv. apply Hr. lia.
  - by apply ubytes_nonzero.
  - rewrite <- Nat.add_1_r, ubytes_app. cbn. by rewrite H0.
Qed.
Lemma string_read_bad m root va max k l : string_read m root va max (-1) k -> ~ ustring m root va max l.
Proof.
  intros (Hr & Hk & [(? & _)|(_ & Hn & Hend)]) (Hlen & Hra & _ & H0 & _); [lia|].
  destruct (Z.lt_ge_cases (Z.of_nat (length l)) (Z.of_nat k)) as [Hlt|Hge].
  - by apply (Hn (Z.of_nat (length l))); [lia|].
  - destruct Hend as [|Hna]; [lia|]. rewrite Hra in Hna by lia. done.
Qed.

(** There is one string at an address, and one vector. *)
Lemma ustring_shorter m root va max max' l l' :
  ustring m root va max l -> ustring m root va max' l' -> (length l' <= length l)%nat.
Proof.
  intros (_ & _ & _ & H0 & _) (_ & _ & Hb & _ & Hn). apply Nat.nlt_ge. intros Hlt. rewrite <- Hb in Hn.
  rewrite ubytes_nonzero in Hn. by apply (Hn (Z.of_nat (length l))); [lia|].
Qed.
Lemma ustring_unique m root va max max' l l' : ustring m root va max l -> ustring m root va max' l' -> l = l'.
Proof.
  intros H H'. pose proof (ustring_shorter _ _ _ _ _ _ _ H H') as H1. pose proof (ustring_shorter _ _ _ _ _ _ _ H' H) as H2.
  destruct H as (_ & _ & E & _), H' as (_ & _ & E' & _). rewrite <- E, <- E'. f_equal. lia.
Qed.
Lemma argvec_unique m root sz a args args' : argvec m root sz a args -> argvec m root sz a args' -> args = args'.
Proof.
  intros H. revert args'. induction H as [a Hw H0|a l args Hw H0 Hl _ IH]; intros args' H'; inversion H'; subst; try done.
  f_equal; [by eapply ustring_unique|by apply IH].
Qed.

(** ** User memory while other pages change *)

(** The user sees the same bytes. *)
Definition same_user (m m' : gmap Z Z) (root : Z) : Prop :=
  forall va, accessible m' root va = accessible m root va /\
    (is_u32 va -> accessible m root va = true -> ubyte m' root va = ubyte m root va).

Lemma same_user_sym m m' root : same_user m m' root -> same_user m' m root.
Proof. intros H va. destruct (H va) as [E1 E2]. split; [done|]. intros Hva Ha. symmetry. apply E2; [done|by rewrite <- E1]. Qed.
Lemma same_user_trans m1 m2 m3 root : same_user m1 m2 root -> same_user m2 m3 root -> same_user m1 m3 root.
Proof.
  intros H H' va. destruct (H va) as [E1 E2], (H' va) as [E3 E4]. split; [by rewrite E3|].
  intros Hva Ha. rewrite E4 by (done || by rewrite E1). by apply E2.
Qed.

Section SameUser.
Context (m m' : gmap Z Z) (root : Z).
Hypothesis (Hsame : same_user m m' root).

Lemma same_user_range va len : range_ok m root va len -> range_ok m' root va len.
Proof. intros H va' Hv. rewrite (proj1 (Hsame va')). by apply H. Qed.
Lemma same_user_bytes va n :
  0 <= va -> va + Z.of_nat n <= 2 ^ 32 -> range_ok m root va (Z.of_nat n) -> ubytes m' root va n = ubytes m root va n.
Proof.
  revert va. induction n as [|n IH]; intros va H0 Hlim Hr; [done|]. cbn [ubytes]. f_equal.
  - apply Hsame; [unfold is_u32; lia|apply Hr; lia].
  - apply IH; [lia|lia|]. intros va' Hv. apply Hr. lia.
Qed.

(** The highest address a string may start at. *)
Definition low_user : Prop := forall va, is_u32 va -> accessible m root va = true -> va + PGSIZE <= 2 ^ 32.

Lemma same_user_string va max l :
  low_user -> is_u32 va -> max <= PGSIZE -> ustring m root va max l -> ustring m' root va max l.
Proof.
  intros Hlow Hva Hmax (Hlen & Hr & Hb & H0 & Hn).
  assert (va + PGSIZE <= 2 ^ 32) as Hl by (apply Hlow; [done|apply Hr; lia]). unfold is_u32 in Hva.
  split_and!; [done|by apply same_user_range| | |done].
  - rewrite same_user_bytes; [done|lia|lia|]. intros va' Hv. apply Hr. lia.
  - rewrite (proj2 (Hsame _)); [done|unfold is_u32; lia|apply Hr; lia].
Qed.
Lemma same_user_word sz va :
  sz <= 2 ^ 32 -> 0 <= va -> word_ok m root sz va -> word_ok m' root sz va /\ uword m' root va = uword m root va.
Proof.
  intros Hsz Hva [Hv Hr]. split; [split; [done|by apply same_user_range]|].
  unfold uword. by rewrite same_user_bytes by (done || lia).
Qed.
End SameUser.

Lemma same_user_argvec m m' root sz a args :
  same_user m m' root -> low_user m root -> sz <= 2 ^ 32 -> 0 <= a ->
  argvec m root sz a args -> argvec m' root sz a args.
Proof.
  intros Hs Hlow Hsz Ha H. induction H as [a Hw H0|a l args Hw H0 Hl _ IH].
  - destruct (same_user_word m m' root Hs sz a Hsz Ha Hw) as [Hw' E]. apply argvec_nil; [done|by rewrite E].
  - destruct (same_user_word m m' root Hs sz a Hsz Ha Hw) as [Hw' E].
    apply argvec_cons; [done|by rewrite E| |apply IH; lia]. rewrite E.
    by apply (same_user_string m m' root Hs); [|apply uword_u32| |].
Qed.

Section ExecArgs.
Context {L : Layout} {LO : LayoutOk L} {W : World} {D : DiskDriver} {Ser : Serial}.

Lemma owns_low T F pas p s : owns T F pas p s -> low_user (mem s) (p_pagetable p).
Proof.
  intros Ho va Hva Ha. pose proof (ow_space _ _ _ _ _ Ho) as Hps.
  pose proof (pspace_only_user _ _ _ _ _ _ Hps va Hva Ha) as Hv. pose proof (ps_room _ _ _ _ _ _ Hps) as Hr.
  unfold vpn, is_u32, PGSIZE in *. Z.div_mod_to_equations. lia.
Qed.
Lemma owns_user_table T F pas p s : owns T F pas p s -> user_table T (mem s) (p_pagetable p).
Proof.
  intros Ho. pose proof (ow_space _ _ _ _ _ Ho) as Hps.
  eapply uvm_user_table; [apply (ps_uvm _ _ _ _ _ _ Hps)|by eapply pspace_only_user].
Qed.

Lemma copyinstr_inaccessible T root va max s :
  user_table T (mem s) root -> is_u32 va -> accessible (mem s) root va = false -> 0 < max ->
  copyinstr root va max s = Ok (-1, []) s.
Proof.
  intros Hut Hva Hac Hmax. destruct (page_start_u32 va Hva) as [Hd Hsp]. unfold copyinstr.
  replace (Z.to_nat (max / PGSIZE + 2)) with (S (Z.to_nat (max / PGSIZE + 1))).
  2:{ assert (0 <= max / PGSIZE) by (apply Z.div_pos; [lia|done]). lia. }
  cbn [copyinstr_loop]. rewrite (proj2 (Z.leb_gt max 0)) by lia.
  erewrite bind_ok by (by apply (walkaddr_ok T)).
  by rewrite (accessible_same_page _ _ va), Hac.
Qed.

(** Steps on pages that are not user memory or its table. *)
Lemma owns_same_user P T F pas p s m' :
  owns T F pas p s -> agree_off P (mem s) m' -> (forall x, x ∈ P -> page x) -> P ## list_to_set pas ∪ T ->
  same_user (mem s) m' (p_pagetable p).
Proof.
  intros Ho Ha HP Hd va. split.
  - destruct (ow_space _ _ _ _ _ Ho) as [[[Hok _ _] _ _ _] _ _ _].
    destruct (pt_ok_frame P T (mem s) m' (p_pagetable p)) as (_ & _ & E); [done..| |].
    + clear -Hd. set_solver.
    + unfold accessible. by rewrite E.
  - intros Hva Hac. eapply ubyte_frame_pages; [done..|].
    by eapply pspace_only_user; [apply (ow_space _ _ _ _ _ Ho)|..].
Qed.

(** ** fetchaddr and fetchstr *)

Section Fetch.
Context (me : nat) (T F : gset Z) (pas : list Z) (s : kstate).
Hypothesis (Hc : ctx me s) (Ho : owns T F pas (proc_of s me) s).
Abbreviation p := (proc_of s me).
Abbreviation root := (p_pagetable (proc_of s me)).

Lemma fetchaddr_spec addr :
  is_u32 addr ->
  (word_ok (mem s) root (p_sz p) addr /\ fetchaddr addr s = Ok (Some (uword (mem s) root addr)) s) \/
  (~ word_ok (mem s) root (p_sz p) addr /\ fetchaddr addr s = Ok None s).
Proof.
  intros Ha. unfold fetchaddr. erewrite bind_ok by (apply curproc_ok; apply Hc). rewrite bind_gets.
  pose proof (ow_sz _ _ _ _ _ Ho) as [_ Hsz]. change TRAPFRAME with 4294959104 in Hsz. unfold is_u32 in Ha.
  assert ((p_sz p <=? addr) || (p_sz p <? u32 (addr + 4)) = negb (addr + 4 <=? p_sz p)) as ->.
  { destruct (Z.leb_spec (p_sz p) addr); cbn [orb]; [destruct (Z.leb_spec (addr + 4) (p_sz p)); [lia|done]|].
    unfold u32. rewrite Z.mod_small by lia. destruct (Z.ltb_spec (p_sz p) (addr + 4)), (Z.leb_spec (addr + 4) (p_sz p)); done || lia. }
  destruct (Z.leb_spec (addr + 4) (p_sz p)) as [Hle|Hgt]; cbn [negb]; [|right; split; [|done]; intros [? _]; lia].
  rewrite bind_gets.
  destruct (copyin_spec T root s addr 4) as (r & k & E & Hk & Hr & [(-> & Ek)|(-> & Hlt & Hna)]);
    [by apply (owns_user_table T F pas)|done|lia|lia|left|right]; rewrite (bind_ok _ _ _ _ _ E).
  - rewrite Ek in Hr. replace k with 4%nat by lia. by split.
  - split; [|done]. intros [_ Hr']. rewrite Hr' in Hna by lia. done.
Qed.

Lemma fetchstr_spec addr max :
  is_u32 addr -> 0 < max <= PGSIZE ->
  exists r k, fetchstr addr max s = Ok (r, ubytes (mem s) root addr k) s /\ Z.of_nat k <= max /\
    ((exists l, ustring (mem s) root addr max l /\ r = Z.of_nat (length l) /\ ubytes (mem s) root addr k = l ++ [0]) \/
     (r = -1 /\ forall l, ~ ustring (mem s) root addr max l)).
Proof.
  intros Ha Hmax. unfold fetchstr. erewrite bind_ok by (apply curproc_ok; apply Hc). rewrite bind_gets.
  pose proof (owns_user_table _ _ _ _ _ Ho) as Hut. 
  destruct (accessible (mem s) root addr) eqn:Hac.
  - pose proof (owns_low _ _ _ _ _ Ho addr Ha Hac) as Hlow.
    destruct (copyinstr_loop_spec T root s Hut (Z.to_nat (max / PGSIZE + 2)) addr max []) as (r & k & E & Hsr);
      [done|lia|lia|by apply fuel_enough; lia|].
    change (copyinstr_loop _ root addr max [] s) with (copyinstr root addr max s) in E. rewrite (bind_ok _ _ _ _ _ E).
    pose proof Hsr as (_ & Hk & [(Er & _)|(Er & _)]); rewrite Er in *; cbn [fst snd Z.ltb Z.compare app].
    + destruct (string_read_ok _ _ _ _ _ Hsr) as (l & Hl & Hk' & El). do 2 eexists. split; [done|]. split; [done|].
      left. exists l. split; [done|]. split; [|done]. rewrite El. f_equal. apply strlen_app_zero. apply Hl.
    + do 2 eexists. split; [done|]. split; [done|]. right. split; [done|]. intros l. by eapply string_read_bad.
  - exists (-1), 0%nat. assert (copyinstr root addr max s = Ok (-1, []) s) as E.
    { apply (copyinstr_inaccessible T); [done..|lia]. }
    rewrite (bind_ok _ _ _ _ _ E). split; [done|]. split; [lia|]. right. split; [done|].
    intros l (_ & Hr & _). rewrite Hr in Hac by lia. done.
Qed.
End Fetch.

(** ** The loop *)

(** The page [pg] holds the string [l]. *)
Definition page_holds (m : gmap Z Z) (pg : Z) (l : list Z) : Prop := load_bytes m pg (S (length l)) = l ++ [0].

Lemma u8_ubytes m root va n : u8 <$> ubytes m root va n = ubytes m root va n.
Proof.
  revert va. induction n as [|n IH]; intros va; [done|]. cbn. rewrite IH. f_equal.
  unfold u8, ubyte. apply Z.mod_small. apply load8_range.
Qed.

Lemma page_holds_frame P m m' pg l :
  agree_off P m m' -> (forall x, x ∈ P -> page x) -> page pg -> pg ∉ P -> Z.of_nat (length l) < PGSIZE ->
  page_holds m pg l -> page_holds m' pg l.
Proof.
  intros Ha HP Hp Hni Hlen Hl. unfold page_holds. rewrite <- Hl. apply load_bytes_ext. intros b Hb.
  eapply agree_off_load8; [done|done|exact Hp|done|lia].
Qed.

(** A page that is taken out of the free ones, whatever is stored in it. *)
Lemma owns_page_step T F F' pas pg p s s' :
  owns T F pas p s -> pg ∈ F -> agree_off {[pg]} (mem s) (mem s') -> free_pages F' s' -> F' ⊆ F ->
  owns T F' pas p s' /\ same_user (mem s) (mem s') (p_pagetable p).
Proof.
  intros Ho Hpg Ha HF Hsub. pose proof (owns_disj _ _ _ _ _ Ho) as Hd.
  assert (page pg) as Hp by (apply (free_pages_page F s pg); [by eapply owns_free|done]).
  assert (forall x, x ∈ ({[pg]} : gset Z) -> page x) as HP1 by (by intros x ->%elem_of_singleton).
  assert ({[pg]} ## owned T pas p) as Hd1 by (clear -Hd Hpg; set_solver). split.
  - apply (owns_frame {[pg]} T F F' pas p s s'); [done..| |done|].
    + unfold owned in Hd1. clear -Hd1. set_solver.
    + clear -Hd Hsub. set_solver.
  - eapply owns_same_user; [done..|]. unfold owned in Hd1. clear -Hd1. set_solver.
Qed.

(** A string fetched into a fresh page [pg]. *)
Lemma fetch_into me T F pas pg uarg s s1 :
  ctx me s -> owns T F pas (proc_of s me) s -> is_u32 uarg -> pg ∈ F ->
  (exists m' fl, s1 = set_mem m' (set_freelist fl s) /\ same_outside pg (mem s) m') -> free_pages (F ∖ {[pg]}) s1 ->
  let root := p_pagetable (proc_of s me) in
  exists r bytes s2, fetchstr uarg PGSIZE s1 = Ok (r, bytes) s1 /\
    s2 = set_mem (store_bytes (mem s1) pg bytes) s1 /\ vstep {[pg]} s s2 /\
    owns T (F ∖ {[pg]}) pas (proc_of s me) s2 /\ same_user (mem s) (mem s2) root /\
    ((exists l, ustring (mem s) root uarg PGSIZE l /\ 0 <= r /\ page_holds (mem s2) pg l) \/
     (r = -1 /\ forall l, ~ ustring (mem s) root uarg PGSIZE l)).
Proof.
  intros Hc Ho Hu Hpg (m' & fl & Es1 & Hout) HF root.
  assert (page pg) as Hp by (apply (free_pages_page F s pg); [by eapply owns_free|done]).
  assert (agree_off {[pg]} (mem s) (mem s1)) as Ha1.
  { subst s1. intros b Hb. apply Hout. apply Hb. by apply elem_of_singleton. }
  assert (ctx me s1) as Hc1 by (destruct Hc as [[] ? ? ? ?]; subst s1; by split).
  assert (proc_of s1 me = proc_of s me) as Ep by (by subst s1).
  destruct (owns_page_step T F (F ∖ {[pg]}) pas pg (proc_of s me) s s1) as [Ho1 Hsu]; [done..|clear; set_solver|].
  fold root in Hsu. rewrite <- Ep in Ho1.
  destruct (fetchstr_spec me T (F ∖ {[pg]}) pas s1 Hc1 Ho1 uarg PGSIZE Hu ltac:(done)) as (r & k & E & Hk & Hres).
  rewrite Ep in E, Hres. fold root in E, Hres. set (bytes := ubytes (mem s1) root uarg k) in *.
  assert (length bytes = k) as Hlb by apply length_ubytes.
  assert (agree_off {[pg]} (mem s1) (store_bytes (mem s1) pg bytes)) as Ha2.
  { intros b Hb. apply load8_store_bytes_out. rewrite Hlb. destruct (Hb pg ltac:(by apply elem_of_singleton)); lia. }
  set (s2 := set_mem (store_bytes (mem s1) pg bytes) s1).
  assert (agree_off {[pg]} (mem s) (mem s2)) as Ha by (by eapply agree_off_trans).
  assert (free_pages (F ∖ {[pg]}) s2) as HF2.
  { eapply (free_pages_vstep {[pg]} _ s1); [done| |done|by intros x ->%elem_of_singleton|clear; set_solver].
    split; [done|]. exists (store_bytes (mem s1) pg bytes), (freelist s1). by destruct s1. }
  destruct (owns_page_step T F (F ∖ {[pg]}) pas pg (proc_of s me) s s2) as [Ho2 Hsu2]; [done..|clear; set_solver|].
  exists r, bytes, s2. split_and!; try done.
  - split; [done|]. unfold s2. subst s1. by eexists _, _.
  - pose proof (same_user_sym _ _ _ Hsu) as Hus. pose proof (owns_low _ _ _ _ _ Ho) as Hlow.
    destruct Hres as [(l & Hl & Hr & Hb)|(Hr & Hn)]; [left|right].
    + exists l. split_and!; [|lia|].
      * apply (same_user_string (mem s1) (mem s) root Hus); [|done|done|done].
        unfold root. rewrite <- Ep. by apply (owns_low _ _ _ _ _ Ho1).
      * unfold page_holds, s2. cbn [mem set_mem]. replace (S (length l)) with (length bytes).
        -- rewrite load_bytes_store_bytes. unfold bytes. rewrite u8_ubytes. exact Hb.
        -- rewrite Hb, length_app. cbn. lia.
    + split; [done|]. intros l Hl. apply (Hn l). by apply (same_user_string (mem s) (mem s1) root Hsu).
Qed.

(** The result of [fetch_argv] with [n] slots left, the next argument pointer
    being at [a]: the pages [new] it adds hold the strings of the vector, or
    there is no vector of less than [n] strings there, or the free pages [F]
    do not suffice. *)
Definition fetched (n : nat) (F : gset Z) (root sz a : Z) (s : kstate) (ok : bool) (new : list Z) (s' : kstate) : Prop :=
  vstep F s s' /\ NoDup new /\ (forall x, x ∈ new -> x ∈ F) /\ free_pages (F ∖ list_to_set new) s' /\
  if ok then exists args, (length args < n)%nat /\ argvec (mem s) root sz a args /\ Forall2 (page_holds (mem s')) new args
  else forall args, argvec (mem s) root sz a args -> (n <= length args \/ size F < length args)%nat.

Lemma fetched_stop n F root sz a s (ok : bool) :
  free_pages F s ->
  (if ok then (0 < n)%nat /\ argvec (mem s) root sz a []
   else forall args, argvec (mem s) root sz a args -> (n <= length args \/ size F < length args)%nat) ->
  fetched n F root sz a s ok [] s.
Proof.
  intros HF Hok. unfold fetched. split_and!; [apply vstep_refl|constructor|set_solver| |].
  - by rewrite list_to_set_nil, difference_empty_L.
  - destruct ok; [|done]. destruct Hok as [Hn Hv]. exists []. split_and!; [cbn; lia|done|constructor].
Qed.

(** After one more string. *)
Lemma fetched_more n F pg root sz a l s s2 ok new s' :
  vstep {[pg]} s s2 -> pg ∈ F -> (forall x, x ∈ F -> page x) ->
  same_user (mem s) (mem s2) root -> low_user (mem s) root -> low_user (mem s2) root -> sz <= 2 ^ 32 -> 0 <= a ->
  word_ok (mem s) root sz a -> uword (mem s) root a <> 0 -> ustring (mem s) root (uword (mem s) root a) PGSIZE l ->
  page_holds (mem s2) pg l ->
  fetched n (F ∖ {[pg]}) root sz (a + 4) s2 ok new s' -> fetched (S n) F root sz a s ok (pg :: new) s'.
Proof.
  intros V Hpg HP Hsu Hlow Hlow2 Hsz Ha Hw H0 Hl Hpl (V' & Hnd & Hin & HF & Hok). unfold fetched.
  assert (pg ∉ new) as Hni by (intros Hx; apply Hin in Hx; clear -Hx; set_solver). split_and!.
  - apply (vstep_trans F s s2 s'); eapply vstep_mono; [|exact V| |exact V']; [clear -Hpg; set_solver|clear; set_solver].
  - by constructor.
  - intros x [->|Hx]%elem_of_cons; [done|]. apply Hin in Hx. clear -Hx. set_solver.
  - rewrite list_to_set_cons, <- difference_difference_l_L. done.
  - destruct ok.
    + destruct Hok as (args & Hlen & Hv & Hh). exists (l :: args). split_and!; [cbn; lia| |].
      * apply argvec_cons; [done..|]. apply (same_user_argvec (mem s2)); [by apply same_user_sym|done|done|lia|done].
      * constructor; [|done]. destruct V' as [Ha' _].
        apply (page_holds_frame (F ∖ {[pg]}) (mem s2)); [done| |by apply HP|clear; set_solver|apply Hl|done].
        intros x Hx. apply HP. clear -Hx. set_solver.
    + intros args Hv. inversion Hv as [|b l' args' _ _ Hl' Hv']; subst; [done|]. cbn [length].
      destruct (Hok args') as [|Hlt]; [by apply (same_user_argvec (mem s)); [..|lia|]|lia|].
      right. rewrite size_difference in Hlt by (clear -Hpg; set_solver). rewrite size_singleton in Hlt. lia.
Qed.

Lemma fetch_argv_spec me T pas n : forall argv F uargv s,
  ctx me s -> owns T F pas (proc_of s me) s ->
  exists ok new s', fetch_argv n uargv argv s = Ok (ok, argv ++ new) s' /\
    fetched n F (p_pagetable (proc_of s me)) (p_sz (proc_of s me)) (u32 (uargv + 4 * Z.of_nat (length argv))) s ok new s'.
Proof.
  induction n as [|n IH]; intros argv F uargv s Hc Ho; pose proof (owns_free _ _ _ _ _ Ho) as HF;
    set (root := p_pagetable (proc_of s me)); set (a := u32 _); set (sz := p_sz (proc_of s me)).
  { exists false, [], s. rewrite app_nil_r. split; [done|]. apply fetched_stop; [done|]. intros args _. lia. }
  cbn [fetch_argv]. fold a. assert (is_u32 a) as Hau by apply u32_range.
  pose proof (ow_sz _ _ _ _ _ Ho) as [_ Hsz]. change TRAPFRAME with 4294959104 in Hsz. fold sz in Hsz.
  destruct (fetchaddr_spec me T F pas s Hc Ho a Hau) as [[Hw E]|[Hw E]]; rewrite (bind_ok _ _ _ _ _ E); fold root sz in Hw.
  2:{ exists false, [], s. rewrite app_nil_r. split; [done|]. apply fetched_stop; [done|]. intros args Ha. by inversion Ha. }
  fold root. destruct (Z.eqb_spec (uword (mem s) root a) 0) as [H0|H0].
  { exists true, [], s. rewrite app_nil_r. split; [done|]. apply fetched_stop; [done|]. split; [lia|]. by apply argvec_nil. }
  destruct (kalloc_spec F s HF) as (pg & s1 & E1 & [(-> & -> & ->)|(Hin & Hpg & HF1 & Hs1)]); rewrite (bind_ok _ _ _ _ _ E1).
  { exists false, [], s. rewrite app_nil_r. split; [done|]. apply fetched_stop; [done|]. intros args Ha. right.
    rewrite size_empty. inversion Ha; [done|cbn; lia]. }
  rewrite (proj2 (Z.eqb_neq pg 0)) by (apply page_pos in Hpg; lia).
  destruct (fetch_into me T F pas pg (uword (mem s) root a) s s1) as (r & bytes & s2 & E2 & Es2 & V2 & Ho2 & Hsu & Hres);
    [done|done|apply uword_u32|done..|]. fold root in Hsu, Hres.
  rewrite (bind_ok _ _ _ _ _ E2), bind_modify. cbn [fst snd]. rewrite <- Es2.
  assert (proc_of s2 me = proc_of s me) as Ep by (destruct V2 as (_ & m2 & fl2 & ->); done).
  destruct Hres as [(l & Hl & Hr & Hpl)|(-> & Hn)]; cbn [Z.ltb Z.compare].
  - rewrite (proj2 (Z.ltb_ge r 0)) by done.
    assert (ctx me s2) as Hc2 by (destruct V2 as (_ & m2 & fl2 & ->); destruct Hc as [[] ? ? ? ?]; by split).
    destruct (IH (argv ++ [pg]) (F ∖ {[pg]}) uargv s2 Hc2) as (ok & new & s' & E' & Hf); [by rewrite Ep|].
    exists ok, (pg :: new), s'. rewrite <- app_assoc in E'. split; [done|].
    rewrite Ep, length_app in Hf. fold root sz in Hf.
    replace (u32 _) with (a + 4) in Hf.
    2:{ destruct Hw as [Hw _]. unfold a, u32, is_u32 in *. cbn [length].
        replace (uargv + 4 * Z.of_nat (length argv + 1)) with (uargv + 4 * Z.of_nat (length argv) + 4) by lia.
        rewrite <- (Z.add_mod_idemp_l (uargv + 4 * Z.of_nat (length argv))) by done.
        symmetry. apply Z.mod_small. lia. }
    eapply fetched_more; try done.
    + intros x Hx. by apply (free_pages_page F s x).
    + by apply (owns_low _ _ _ _ _ Ho).
    + by apply (owns_low _ _ _ _ _ Ho2).
    + lia.
    + apply Hau.
  - exists false, [pg], s2. split; [done|]. unfold fetched. split_and!.
    + eapply vstep_mono; [|exact V2]. clear -Hin. set_solver.
    + apply NoDup_singleton.
    + by intros x ->%list_elem_of_singleton.
    + rewrite list_to_set_singleton_L. by eapply owns_free.
    + intros args Ha. inversion Ha as [|b l args' _ _ Hl _]; [done|]. by destruct (Hn l).
Qed.

(** ** The system call *)

Lemma free_argv_spec F argv : forall s,
  free_pages F s -> Forall page argv -> NoDup argv -> (forall x, x ∈ argv -> x ∉ F) ->
  exists s', free_argv argv s = Ok tt s' /\ free_pages (list_to_set argv ∪ F) s' /\ vstep (list_to_set argv) s s'.
Proof.
  revert F. induction argv as [|a argv IH]; intros F s HF Hp Hnd Hni; cbn [free_argv].
  { exists s. rewrite list_to_set_nil, union_empty_l_L. split_and!; [done|done|apply vstep_refl]. }
  apply Forall_cons in Hp as [Hpa Hp]. apply NoDup_cons in Hnd as [Hna Hnd].
  rewrite (proj2 (Z.eqb_neq a 0)) by (apply page_pos in Hpa; lia).
  destruct (kfree_spec F a s HF Hpa) as (s1 & E1 & HF1 & m' & fl & Es1 & Hout); [apply Hni; set_solver|].
  rewrite (bind_ok _ _ _ _ _ E1).
  destruct (IH ({[a]} ∪ F) s1 HF1 Hp Hnd) as (s2 & E2 & HF2 & V2).
  { intros x Hx. rewrite not_elem_of_union, not_elem_of_singleton. split; [by intros ->|]. apply Hni. set_solver. }
  exists s2. split; [done|]. rewrite list_to_set_cons. split.
  - by replace ({[a]} ∪ list_to_set argv ∪ F) with (list_to_set argv ∪ ({[a]} ∪ F)) by (clear; set_solver).
  - apply (vstep_trans _ s s1); [|eapply vstep_mono; [|exact V2]; clear; set_solver].
    split; [|subst s1; by exists m', fl]. subst s1. intros b Hb. apply Hout. apply Hb. set_solver.
Qed.

(** The arguments of the system call: the registers a0 and a1 of the trap
    frame. *)
Definition arg (n : Z) (me : nat) (s : kstate) : Z := load32 (mem s) (p_trapframe (proc_of s me) + TF_a n).

Lemma argaddr_ok n me s : ctx me s -> 0 <= n <= 5 -> argaddr n s = Ok (arg n me s) s.
Proof.
  intros Hc Hn. unfold argaddr, argraw. erewrite bind_ok by (apply curproc_ok; apply Hc).
  rewrite (proj2 (Z.leb_le 0 n)), (proj2 (Z.leb_le n 5)) by lia. done.
Qed.

Lemma sys_exec_spec me T F pas s :
  ctx me s -> owns T F pas (proc_of s me) s ->
  let root := p_pagetable (proc_of s me) in
  let well_formed path args :=
    ustring (mem s) root (arg 0 me s) MAXPATH path /\
    argvec (mem s) root (p_sz (proc_of s me)) (arg 1 me s) args /\ (length args < MAXARG)%nat in
  (exists path args pages s', well_formed path args /\
     sys_exec s = (ret ← exec path pages; free_argv pages ;; mret ret) s' /\
     vstep F s s' /\ NoDup pages /\ (forall x, x ∈ pages -> x ∈ F) /\ free_pages (F ∖ list_to_set pages) s' /\
     Forall2 (page_holds (mem s')) pages args) \/
  (exists s', sys_exec s = Ok (-1) s' /\ vstep F s s' /\ free_pages F s' /\
     forall path args, well_formed path args -> (size F < length args)%nat).
Proof.
  intros Hc Ho root wf. unfold sys_exec. rewrite (bind_ok _ _ _ _ _ (argaddr_ok 1 me s Hc ltac:(lia))).
  unfold argstr. rewrite bind_assoc, (bind_ok _ _ _ _ _ (argaddr_ok 0 me s Hc ltac:(lia))).
  assert (is_u32 (arg 0 me s) /\ is_u32 (arg 1 me s)) as [H0 H1] by (split; apply load32_range).
  destruct (fetchstr_spec me T F pas s Hc Ho (arg 0 me s) MAXPATH H0 ltac:(done)) as (r & k & E & _ & Hres).
  rewrite (bind_ok _ _ _ _ _ E). cbn [fst snd]. destruct Hres as [(path & Hpath & -> & Eb)|(-> & Hn)].
  2:{ right. exists s. split_and!; [done|apply vstep_refl|by eapply owns_free|].
      intros path args [Hp _]. by destruct (Hn path). }
  rewrite (proj2 (Z.ltb_ge _ 0)), Eb by lia.
  destruct (fetch_argv_spec me T pas MAXARG [] F (arg 1 me s) s Hc Ho) as (ok & pages & s' & Ef & V & Hnd & Hin & HF & Hok).
  rewrite (bind_ok _ _ _ _ _ Ef). cbn [fst snd app length] in *. rewrite Z.mul_0_r, Z.add_0_r in Hok.
  rewrite u32_small in Hok by done. fold root in Hok. destruct ok; [left|right].
  - destruct Hok as (args & Hlen & Hv & Hh). exists path, args, pages, s'.
    replace (cstr (path ++ [0])) with path; [done|]. unfold cstr. rewrite strlen_app_zero by apply Hpath.
    by rewrite take_app_length.
  - destruct (free_argv_spec (F ∖ list_to_set pages) pages s') as (s2 & E2 & HF2 & V2).
    + done.
    + apply Forall_forall. intros x Hx. apply (free_pages_page F s x); [by eapply owns_free|by apply Hin].
    + done.
    + intros x Hx. clear -Hx. set_solver.
    + rewrite (bind_ok _ _ _ _ _ E2). exists s2. split_and!; [done| | |].
      * apply (vstep_trans _ s s'); [done|]. eapply vstep_mono; [|exact V2]. clear -Hin. set_solver.
      * by replace (list_to_set pages ∪ F ∖ list_to_set pages) with F in HF2 by (apply set_eq; intros x; clear -Hin; set_unfold; destruct (decide (x ∈ pages)); naive_solver).
      * intros p args (_ & Hv & Hlen). destruct (Hok args Hv); lia.
Qed.

(** C14: what [sys_exec] passes to [exec].  If user memory has a path of less
    than MAXPATH bytes at [a0], and at [a1] a vector of less than MAXARG
    strings of less than a page, for which there are enough free pages, [exec]
    is called with that path and with pages, taken from the free ones, that
    hold exactly those strings, and they are freed when it returns; nothing
    else has changed.  Otherwise the call returns -1, and the free pages are
    those of before. *)
Theorem sys_exec_args me T F pas s :
  ctx me s -> owns T F pas (proc_of s me) s ->
  let root := p_pagetable (proc_of s me) in
  let well_formed path args :=
    ustring (mem s) root (arg 0 me s) MAXPATH path /\
    argvec (mem s) root (p_sz (proc_of s me)) (arg 1 me s) args /\ (length args < MAXARG)%nat in
  (exists path args pages s', well_formed path args /\
     sys_exec s = (ret ← exec path pages; free_argv pages ;; mret ret) s' /\
     vstep F s s' /\ NoDup pages /\ (forall x, x ∈ pages -> x ∈ F) /\ free_pages (F ∖ list_to_set pages) s' /\
     Forall2 (page_holds (mem s')) pages args) \/
  (exists s', sys_exec s = Ok (-1) s' /\ vstep F s s' /\ free_pages F s' /\
     forall path args, well_formed path args -> (size F < length args)%nat).
Proof. apply sys_exec_spec. Qed.
End ExecArgs.
