(* ===== verification/FsTx.v ===== *)
(** * Blocks inside a transaction

    What the file system sees between [begin_op] and [end_op]: a map from block
    numbers to contents, the blocks it has buffers of, and the blocks logged so
    far.  The rules below say what [bread], [brelse] and the pattern "change
    the buffer, [log_write]" do to it; the layers above are proved with them
    only. *)
From S2P Require Import Prelude Memory Machine Platform Sv32 Spinlock Printf Kalloc Vm Proc Sleeplock Bio Log Fs.
From S2P Require Import ProcSpec SleepSpec BioSpec BioRefine LogSpec LogTx.
From stdpp Require Import gmap strings countable prelude.

Open Scope Z_scope.

(** The parts of the state the cache is made of. *)
Definition same_io (me : nat) (s s' : kstate) : Prop :=
  bufs s' = bufs s /\ (forall b, slock_of s' (SLBuf b) = slock_of s (SLBuf b)) /\ disk s' = disk s /\
  pid_of me s' = pid_of me s.

Lemma cache_same me J C s s' : same_io me s s' -> cache me J C s -> cache me J C s'.
Proof.
  intros (Eb & El & Ed & Ep) [H1 H2 H3 H4 H5 H6]. split; rewrite ?Eb, ?Ed; [done|done| | |done|done].
  - intros b i e Hi He. destruct (H3 b i e Hi He) as (? & [S1 S2 S3 S4 S5 S6] & ?). split_and!; [done| |done].
    split; rewrite ?Eb; [done..|]. unfold taken in *. by rewrite El, Ep.
  - intros i Hi Hn. destruct (H4 i Hi Hn) as [S1 S2 S3]. split; rewrite ?Eb, ?El, ?Ed; done.
Qed.

Section FsTx.
Context {L : Layout} {W : World} {D : DiskDriver} {DO : DiskOk D}.

(** The cache entry of block [b]: one reference for being logged, one for the
    buffer the file system has. *)
Definition tx_entry (bs : list Z) (V : Z -> list Z) (H : gmap Z nat) (b : Z) : option centry :=
  match H !! b with
  | Some _ => Some (mk_centry (if decide (b ∈ bs) then 2 else 1) (V b) true)
  | None => if decide (b ∈ bs) then Some (mk_centry 1 (V b) false) else None
  end.

(** In a transaction: [bs] logged, [V] the contents of the blocks, [H] the
    buffers held. *)
Record intx (me : nat) (st sz : Z) (bs : list Z) (V : Z -> list Z) (H : gmap Z nat) (s : kstate) : Prop := {
  it_ctx : ctx me s;
  it_log : exists out, 1 <= out /\ log_at st sz bs out (log s);
  it_homes : homes st bs;
  it_cache : exists J C, cache me J C s /\ (forall b i, H !! b = Some i -> J !! b = Some i) /\
    (forall b, C !! b = tx_entry bs V H b);
  it_view : forall b, b ∉ bs -> V b = disk_block (disk s) b;
}.

(** What a step of a transaction keeps of the rest of the state. *)
Definition tkept (me : nat) (s s' : kstate) : Prop := exists l t, s' = upd_log (fun _ => l) t /\ bkept me s t.

Lemma tkept_refl me s : tkept me s s.
Proof. exists (log s), s. split; [done|apply bkept_refl]. Qed.
Lemma bkept_tkept me s s' : bkept me s s' -> tkept me s s'.
Proof. intros H. by exists (log s'), s'. Qed.
Lemma bkept_upd_log me l s s' : bkept me (upd_log (fun _ => l) s) s' -> exists t, s' = upd_log (fun _ => l) t /\ bkept me s t.
Proof.
  intros (B & S & D' & T & M & U & N & P & Hw & ->).
  exists (set_bufs B (set_slocks S (set_disk D' (set_dtrace T (set_mmio M (set_uart U (set_nmmio N (set_procs P s)))))))).
  split; [done|]. by exists B, S, D', T, M, U, N, P.
Qed.
Lemma tkept_trans me s1 s2 s3 : tkept me s1 s2 -> tkept me s2 s3 -> tkept me s1 s3.
Proof.
  intros (l & t & -> & K) (l' & t' & -> & K'). destruct (bkept_upd_log _ _ _ _ K') as (t2 & -> & K2).
  exists l', t2. split; [done|]. by eapply bkept_trans.
Qed.
Lemma lstep_tkept me s w J C l s' : lstep me s w J C l s' -> tkept me s s'.
Proof. intros (t & -> & O). exists l, t. split; [done|apply O]. Qed.

(** Fields that a step keeps. *)
Lemma tkept_mem me s s' : tkept me s s' -> mem s' = mem s.
Proof. by intros (l & t & -> & B & S & D' & T & M & U & N & P & Hw & ->). Qed.
Lemma tkept_itable me s s' : tkept me s s' -> itable s' = itable s.
Proof. by intros (l & t & -> & B & S & D' & T & M & U & N & P & Hw & ->). Qed.
Lemma tkept_sblk me s s' : tkept me s s' -> sblk s' = sblk s.
Proof. by intros (l & t & -> & B & S & D' & T & M & U & N & P & Hw & ->). Qed.

(** Changes elsewhere do not matter. *)
Lemma intx_same me st sz bs V H s s' : same_io me s s' -> log s' = log s -> ctx me s' ->
  intx me st sz bs V H s -> intx me st sz bs V H s'.
Proof.
  intros Hs El Hc [_ H2 H3 (J & C & H4 & H5 & H6) H7]. split; [done|by rewrite El|done| |].
  - exists J, C. split; [by eapply cache_same|done].
  - intros b Hb. rewrite (proj1 (proj2 (proj2 Hs))). by apply H7.
Qed.

Section Rules.
Context (me : nat) (st sz : Z).
Notation intx := (intx me st sz).

Lemma tx_size bs V H J C s : cache me J C s -> NoDup bs -> (forall b, C !! b = tx_entry bs V H b) ->
  (size J <= length bs + size H)%nat.
Proof.
  intros Hc Hnd HC. rewrite (cache_size _ _ _ _ Hc), <- (size_dom C).
  assert (Hs : dom C ⊆ list_to_set bs ∪ dom H).
  { intros b [e Hb]%elem_of_dom. rewrite HC in Hb. unfold tx_entry in Hb. destruct (H !! b) eqn:E.
    - apply elem_of_union_r. by apply elem_of_dom_2 with n.
    - apply elem_of_union_l, elem_of_list_to_set. by destruct (decide (b ∈ bs)). }
  etrans; [exact (subseteq_size _ _ Hs)|]. rewrite size_union_alt, size_list_to_set by done.
  pose proof (subseteq_size (dom H ∖ list_to_set bs) (dom H) ltac:(set_solver)) as Hd. rewrite size_dom in Hd. lia.
Qed.

Lemma tx_view bs V H J C s b : cache me J C s -> (forall b, C !! b = tx_entry bs V H b) ->
  (forall b, b ∉ bs -> V b = disk_block (disk s) b) -> length (V b) = Z.to_nat BSIZE.
Proof.
  intros Hc HC HV. destruct (decide (b ∈ bs)) as [Hb|Hb].
  - specialize (HC b). unfold tx_entry in HC.
    assert (exists e, C !! b = Some e /\ c_data e = V b) as (e & He & <-)
      by (destruct (H !! b); rewrite decide_True in HC by done; by eexists).
    destruct (J !! b) as [i|] eqn:Hi; [|apply (ca_dom _ _ _ _ Hc) in Hi; congruence].
    apply (ca_slot _ _ _ _ Hc b i e Hi He).
  - rewrite HV by done. apply (ca_disk _ _ _ _ Hc).
Qed.
(** Every block has its size. *)
Lemma tx_len bs V H s b : intx bs V H s -> length (V b) = Z.to_nat BSIZE.
Proof. intros [_ _ _ (J & C & Hc & _ & HC) HV]. by eapply tx_view. Qed.
(** The data of a buffer held is the content of the block. *)
Lemma tx_data bs V H s b i : intx bs V H s -> H !! b = Some i -> b_data (bat (bufs s) i) = V b.
Proof.
  intros [_ _ _ (J & C & Hc & HJ & HC) _] Hb. specialize (HC b). unfold tx_entry in HC. rewrite Hb in HC.
  destruct (ca_slot _ _ _ _ Hc b i _ (HJ _ _ Hb) HC) as (_ & [_ _ _ _ S5 _] & _). exact S5.
Qed.
Lemma tx_get {A} bs V H s b i (k : list Z -> K A) : intx bs V H s -> H !! b = Some i ->
  (bget_field i b_data ≫= k) s = k (V b) s.
Proof. intros HI Hb. rewrite bind_gets. by rewrite <- (tx_data _ _ _ _ _ _ HI Hb). Qed.

Lemma tx_bread bs V H s b : intx bs V H s -> H !! b = None -> is_u32 b -> (length bs + size H < NBUF)%nat ->
  exists i s', bread ROOTDEV b s = Ok i s' /\ intx bs V (<[b := i]> H) s' /\ tkept me s s'.
Proof.
  intros HI Hb Hu Hsz. pose proof HI as [Hc Hl Hh (J & C & H4 & HJ & HC) HV]. pose proof (HC b) as HCb.
  pose proof (tx_size _ _ _ _ _ _ H4 (ho_nodup _ _ Hh) HC) as Hsize.
  unfold tx_entry in HCb. rewrite Hb in HCb.
  destruct (bread_out me J C s b Hc H4 Hu) as (i & s' & E & O & Hj).
  { unfold readable. rewrite HCb. case_decide; [by split|lia]. }
  exists i, s'. split; [done|]. split; [|apply bkept_tkept, O].
  split; [by eapply outcome_ctx|by rewrite (outcome_log _ _ _ _ _ _ O)|done| |].
  - exists (<[b := i]> J), (<[b := read_entry C s b]> C). split; [apply O|]. split.
    + intros b' i' Hb'. destruct (decide (b' = b)) as [->|Hne].
      * rewrite lookup_insert_eq in Hb'. by rewrite lookup_insert_eq.
      * rewrite lookup_insert_ne in Hb' |- * by done. by apply HJ.
    + intros b'. unfold tx_entry. destruct (decide (b' = b)) as [->|Hne]; [|rewrite !lookup_insert_ne by done; apply HC].
      rewrite !lookup_insert_eq. unfold read_entry. rewrite HCb. case_decide; cbn; [done|]. by rewrite HV.
  - intros b' Hb'. rewrite (oo_disk _ _ _ _ _ _ O). by apply HV.
Qed.

Lemma tx_brelse bs V H s b i : intx bs V H s -> H !! b = Some i ->
  exists s', brelse i s = Ok tt s' /\ intx bs V (delete b H) s' /\ tkept me s s'.
Proof.
  intros HI Hb. pose proof HI as [Hc Hl Hh (J & C & H4 & HJ & HC) HV]. pose proof (HC b) as HCb.
  unfold tx_entry in HCb. rewrite Hb in HCb. pose proof (HJ _ _ Hb) as Hi.
  assert (exists J' C' s', brelse i s = Ok tt s' /\ outcome_of me s [] J' C' s' /\
    (forall b', b' <> b -> J' !! b' = J !! b' /\ C' !! b' = C !! b') /\
    C' !! b = if decide (b ∈ bs) then Some (mk_centry 1 (V b) false) else None) as (J' & C' & s' & E & O & Hne & HC').
  { destruct (decide (b ∈ bs)) as [Hin|Hin].
    - destruct (brelse_out_keep me J C s b i _ Hc H4 Hi HCb) as (s' & E & O); [done|cbn; lia|].
      exists J, (<[b := mk_centry 1 (V b) false]> C), s'. split_and!; [done|done|intros; by simplify_map_eq|by simplify_map_eq].
    - destruct (brelse_out_drop me J C s b i _ Hc H4 Hi HCb) as (s' & E & O); [done|done|by apply HV|].
      exists (delete b J), (delete b C), s'. split_and!; [done|done|intros; by simplify_map_eq|by simplify_map_eq]. }
  exists s'. split; [done|]. split; [|apply bkept_tkept, O].
  split; [by eapply outcome_ctx|by rewrite (outcome_log _ _ _ _ _ _ O)|done| |].
  - exists J', C'. split; [apply O|]. split.
    + intros b' i' [Hnb Hb']%lookup_delete_Some. rewrite (proj1 (Hne b' ltac:(congruence))). by apply HJ.
    + intros b'. unfold tx_entry. destruct (decide (b' = b)) as [->|Hn].
      * by rewrite lookup_delete_eq.
      * rewrite lookup_delete_ne, (proj2 (Hne b' Hn)) by congruence. apply HC.
  - intros b' Hb'. rewrite (oo_disk _ _ _ _ _ _ O). by apply HV.
Qed.

(** A block the file system may write. *)
Definition home (b : Z) : Prop := 0 <= b < 2147483648 /\ outside st b.

(** Change the data of a buffer held, and log it. *)
Lemma tx_log bs V H s b i (g : list Z -> list Z) : intx bs V H s -> H !! b = Some i -> home b ->
  length (g (V b)) = Z.to_nat BSIZE -> Z.of_nat (length bs) < sz - 1 -> sz <= LOGSIZE ->
  exists s', (bset i (fun bf => set_b_data (g (b_data bf)) bf) ;; log_write i) s = Ok tt s' /\
    intx (log_add bs b) (vset b (g (V b)) V) H s' /\ tkept me s s'.
Proof.
  intros HI Hb [Hr Hout] Hg Hlen Hsz. pose proof HI as [Hc (out & Ho & Hl) Hh (J & C & H4 & HJ & HC) HV].
  pose proof (HC b) as HCb. unfold tx_entry in HCb. rewrite Hb in HCb. pose proof (HJ _ _ Hb) as Hi.
  destruct (bset_data_out me J C s b i _ g Hc H4 Hi HCb Hg) as (s1 & E1 & O1). cbn [c_ref c_data c_held] in O1.
  pose proof (outcome_ctx _ _ _ _ _ _ O1 Hc) as Hc1.
  set (e := mk_centry (if decide (b ∈ bs) then 2 else 1) (g (V b)) true) in *.
  destruct (log_write_spec me st sz bs out J (<[b := e]> C) s1 b i e Hc1) as (l & s2 & E2 & Hl2 & O2); try done.
  { by rewrite (outcome_log _ _ _ _ _ _ O1). } { lia. } { apply O1. } { by simplify_map_eq. }
  { subst e. cbn. case_decide; lia. }
  exists s2. split; [by rewrite (bind_ok _ _ _ _ _ E1)|]. rewrite insert_insert_eq in O2. split.
  - split; [by eapply lstep_ctx| | | |].
    + exists out. split; [done|]. by rewrite (lstep_log _ _ _ _ _ _ _ O2).
    + apply (homes_add st bs b (g (V b))); [done|by split|]. unfold NBUF, LOGSIZE, MAXOPBLOCKS in *. lia.
    + eexists _, _. split; [by eapply lstep_cache|]. split; [done|]. intros b'. unfold tx_entry, vset.
      assert (Hin : b' ∈ log_add bs b <-> b' ∈ bs \/ b' = b) by apply elem_of_log_add.
      destruct (decide (b' = b)) as [->|Hne].
      * rewrite lookup_insert_eq, Hb, (decide_True (P := b ∈ log_add bs b)) by (apply Hin; by right).
        subst e. cbn. by case_decide.
      * rewrite lookup_insert_ne, HC by done. unfold tx_entry.
        destruct (H !! b'); by rewrite (decide_ext (b' ∈ log_add bs b) (b' ∈ bs)) by (rewrite Hin; tauto).
    + intros b' Hb'. assert (b' ∉ bs /\ b' <> b) as [Hn1 Hn2] by (rewrite elem_of_log_add in Hb'; tauto).
      unfold vset. rewrite decide_False by done.
      rewrite (lstep_disk _ _ _ _ _ _ _ O2). cbn. rewrite (oo_disk _ _ _ _ _ _ O1). by apply HV.
  - eapply tkept_trans; [apply bkept_tkept, O1|by eapply lstep_tkept].
Qed.
End Rules.
End FsTx.
