(* ===== verification/FsAlloc.v ===== *)
(** * The block allocator (balloc, bfree, bzero of kernel/fs.c) *)
From S2P Require Import Prelude Memory Machine Platform Sv32 Spinlock Printf Kalloc Vm Proc Sleeplock Bio Log Fs.
From S2P Require Import ConsoleSpec ProcSpec SleepSpec BioSpec BioRefine LogSpec LogTx LogCrash FsTx Nemu NemuSpec.
From stdpp Require Import gmap strings countable prelude.

Open Scope Z_scope.

(** ** Bits of a bitmap block *)

Definition bit (data : list Z) (bi : Z) : bool := Z.testbit (at_ data (Z.to_nat (bi / 8))) (bi mod 8).

Lemma bit_clear_bit data bi : 0 <= bi -> bit_clear data bi = negb (bit data bi).
Proof.
  intros Hb. unfold bit_clear, bit. set (a := at_ _ _). pose proof (Z.mod_pos_bound bi 8 ltac:(lia)) as Hm.
  set (k := bi mod 8) in *. rewrite Z.shiftl_1_l. destruct (Z.testbit a k) eqn:E; cbn [negb].
  - apply Z.eqb_neq. intros H. apply (f_equal (fun z => Z.testbit z k)) in H.
    rewrite Z.land_spec, E, Z.pow2_bits_true, Z.bits_0 in H by lia. done.
  - apply Z.eqb_eq, Z.bits_inj'. intros n Hn. rewrite Z.land_spec, Z.bits_0.
    destruct (decide (n = k)) as [->|Hne]; [by rewrite E|]. rewrite Z.pow2_bits_false by lia. apply andb_false_r.
Qed.
Lemma at_insert data k j v : (k < length data)%nat -> at_ (<[k := v]> data) j = if decide (j = k) then v else at_ data j.
Proof.
  intros Hk. unfold at_. rewrite !nth_lookup. case_decide as E; [subst; by rewrite list_lookup_insert_eq|].
  by rewrite list_lookup_insert_ne.
Qed.
(** Two bits are the same one if the bytes and the places are. *)
Lemma bit_place a b : 0 <= a -> 0 <= b -> Z.to_nat (a / 8) = Z.to_nat (b / 8) -> a mod 8 = b mod 8 -> a = b.
Proof.
  intros Ha Hb Hd Hm. pose proof (Z.div_mod a 8 ltac:(lia)). pose proof (Z.div_mod b 8 ltac:(lia)).
  pose proof (Z.div_pos a 8 Ha ltac:(lia)). pose proof (Z.div_pos b 8 Hb ltac:(lia)). lia.
Qed.

Section Bits.
Context (data : list Z) (bi : Z).
Hypothesis Hlen : length data = Z.to_nat BSIZE.
Hypothesis Hbi : 0 <= bi < BPB.

Lemma bit_byte : (Z.to_nat (bi / 8) < length data)%nat.
Proof using Hlen Hbi. rewrite Hlen. unfold BPB, BSIZE in *. pose proof (Z.div_lt_upper_bound bi 8 512 ltac:(lia) ltac:(lia)). lia. Qed.
Lemma bit_bit_mark bj : 0 <= bj -> bit (bit_mark data bi) bj = if decide (bj = bi) then true else bit data bj.
Proof using Hlen Hbi.
  intros Hj. unfold bit, bit_mark. rewrite at_insert by apply bit_byte. rewrite Z.shiftl_1_l.
  pose proof (Z.mod_pos_bound bi 8 ltac:(lia)). pose proof (Z.mod_pos_bound bj 8 ltac:(lia)).
  destruct (decide (bj = bi)) as [->|Hne].
  - rewrite decide_True by done. rewrite Z.lor_spec, Z.pow2_bits_true by lia. apply orb_true_r.
  - case_decide as E; [|done]. rewrite E, Z.lor_spec, Z.pow2_bits_false; [apply orb_false_r|].
    intros Hm. apply Hne. apply bit_place; lia.
Qed.
Lemma bit_bit_unmark bj : 0 <= bj -> bit (bit_unmark data bi) bj = if decide (bj = bi) then false else bit data bj.
Proof using Hlen Hbi.
  intros Hj. unfold bit, bit_unmark. rewrite at_insert by apply bit_byte. rewrite Z.shiftl_1_l.
  pose proof (Z.mod_pos_bound bi 8 ltac:(lia)). pose proof (Z.mod_pos_bound bj 8 ltac:(lia)).
  destruct (decide (bj = bi)) as [->|Hne].
  - rewrite decide_True by done. rewrite Z.ldiff_spec, Z.pow2_bits_true by lia. apply andb_false_r.
  - case_decide as E; [|done]. rewrite E, Z.ldiff_spec, Z.pow2_bits_false; [apply andb_true_r|].
    intros Hm. apply Hne. apply bit_place; lia.
Qed.
Lemma bit_mark_len : length (bit_mark data bi) = Z.to_nat BSIZE.
Proof using Hlen. unfold bit_mark. by rewrite length_insert. Qed.
Lemma bit_unmark_len : length (bit_unmark data bi) = Z.to_nat BSIZE.
Proof using Hlen. unfold bit_unmark. by rewrite length_insert. Qed.
End Bits.

(** The scan finds the first clear bit. *)
Lemma balloc_scan_spec data b size n : forall bi, 0 <= bi ->
  match balloc_scan n data b bi size with
  | Some j => bi <= j < bi + Z.of_nat n /\ b + j < size /\ bit data j = false /\
              forall k, bi <= k < j -> bit data k = true
  | None => forall k, bi <= k < bi + Z.of_nat n -> b + k < size -> bit data k = true
  end.
Proof.
  induction n as [|n IH]; intros bi Hbi; cbn [balloc_scan]; [intros; lia|].
  destruct (Z.ltb_spec (b + bi) size) as [Hlt|Hge]; [|intros; lia].
  rewrite bit_clear_bit by done. destruct (bit data bi) eqn:E; cbn [negb].
  - specialize (IH (bi + 1) ltac:(lia)). destruct (balloc_scan n data b (bi + 1) size).
    + destruct IH as (H1 & H2 & H3 & H4). split_and!; [lia|lia|done|done|]. intros k Hk.
      destruct (decide (k = bi)) as [->|]; [done|]. apply H4. lia.
    + intros k Hk Hs. destruct (decide (k = bi)) as [->|]; [done|]. apply IH; lia.
  - split_and!; [lia|lia|done|done|]. intros; lia.
Qed.

(** ** The bitmap of the file system *)

Section Alloc.
Context {L : Layout} {W : World} {D : DiskDriver} {DO : DiskOk D} {Ser : Serial} {SO : SerialOk Ser}.
Context (me : nat) (st sz : Z) (sb : superblock).
Notation intx := (intx me st sz).

(** Block [b] is marked as in use. *)
Definition marked (V : Z -> list Z) (b : Z) : bool := bit (V (BBLOCK b sb)) (b mod BPB).

(** The bitmap lies outside the log, and so do the blocks it has as free,
    which are not its own. *)
Record bitmap_ok (V : Z -> list Z) : Prop := {
  bo_size : 0 <= sb_size sb < 2147483648;
  bo_map : forall b, 0 <= b < sb_size sb -> BBLOCK b sb = b / BPB + sb_bmapstart sb /\ home st (BBLOCK b sb);
  bo_free : forall b, 0 <= b < sb_size sb -> marked V b = false ->
    home st b /\ b <> 0 /\ forall b', 0 <= b' < sb_size sb -> b <> BBLOCK b' sb;
}.

Lemma BBLOCK_same V b bi : bitmap_ok V -> 0 <= b -> b mod BPB = 0 -> 0 <= bi < BPB -> b + bi < sb_size sb ->
  BBLOCK (b + bi) sb = BBLOCK b sb /\ (b + bi) mod BPB = bi.
Proof.
  intros Hok Hb Hm Hbi Hlt.
  rewrite (proj1 (bo_map _ Hok (b + bi) ltac:(lia))), (proj1 (bo_map _ Hok b ltac:(lia))).
  apply Z.mod_divide in Hm as [k ->]; [|unfold BPB, BSIZE in *; lia].
  rewrite (Z.add_comm (k * BPB) bi), Z.div_add, Z.mod_add, Z.div_mul by (unfold BPB, BSIZE; lia).
  rewrite Z.div_small, Z.mod_small by lia. split; lia.
Qed.

(** Another block's bit is another bit. *)
Lemma marked_vset V b data (v : bool) : bitmap_ok V -> 0 <= b < sb_size sb ->
  (forall bj, 0 <= bj -> bit data bj = if decide (bj = b mod BPB) then v else bit (V (BBLOCK b sb)) bj) ->
  forall x, 0 <= x < sb_size sb ->
    marked (vset (BBLOCK b sb) data V) x = if decide (x = b) then v else marked V x.
Proof.
  intros Hok Hb Hd x Hx. unfold marked, vset.
  pose proof (Z.mod_pos_bound x BPB ltac:(unfold BPB, BSIZE; lia)) as Hm.
  destruct (decide (BBLOCK x sb = BBLOCK b sb)) as [E|E].
  - rewrite Hd by lia. rewrite (proj1 (bo_map _ Hok x Hx)), (proj1 (bo_map _ Hok b Hb)) in E.
    destruct (decide (x = b)) as [->|Hne]; [by rewrite decide_True|]. rewrite decide_False.
    + by rewrite (proj1 (bo_map _ Hok x Hx)), E, <- (proj1 (bo_map _ Hok b Hb)).
    + intros Em. apply Hne. rewrite (Z.div_mod x BPB), (Z.div_mod b BPB) by (unfold BPB, BSIZE; lia). rewrite Em. lia.
  - rewrite decide_False; [done|]. intros ->. done.
Qed.
(** The bitmap stays well formed when a block of it changes, as long as the
    blocks free afterwards were free or may be. *)
Lemma bitmap_ok_vset V V' : bitmap_ok V ->
  (forall x, 0 <= x < sb_size sb -> marked V' x = false -> marked V x = false) -> bitmap_ok V'.
Proof. intros [H1 H2 H3] Hm. split; [done|done|]. intros b Hb Hf. by apply H3, Hm. Qed.

Lemma log_add_len bs b : (length (log_add bs b) <= S (length bs))%nat.
Proof. unfold log_add. case_decide; [lia|]. rewrite length_app. cbn. lia. Qed.

(** Change a block held, log it and let it go. *)
Lemma tx_update bs V H s b i (g : list Z -> list Z) : intx bs V H s -> H !! b = Some i -> home st b ->
  length (g (V b)) = Z.to_nat BSIZE -> Z.of_nat (length bs) < sz - 1 -> sz <= LOGSIZE ->
  exists s', (bset i (fun bf => set_b_data (g (b_data bf)) bf) ;; log_write i ;; brelse i) s = Ok tt s' /\
    intx (log_add bs b) (vset b (g (V b)) V) (delete b H) s' /\ tkept me s s'.
Proof.
  intros HI Hb Hh Hg H1 H2. destruct (tx_log me st sz bs V H s b i g HI Hb Hh Hg H1 H2) as (s1 & E1 & I1 & K1).
  destruct (tx_brelse me st sz _ _ _ s1 b i I1 Hb) as (s2 & E2 & I2 & K2).
  exists s2. split; [|split; [exact I2|by eapply tkept_trans]]. rewrite <- bind_assoc. by rewrite (bind_ok _ _ _ _ _ E1).
Qed.

(** Three steps, then the rest. *)
Lemma seq3_ok {A1 A2 A3 A4} (a : K A1) (b : K A2) (c : K A3) (k : K A4) s x s' :
  (a ;; b ;; c) s = Ok x s' -> (a ;; b ;; c ;; k) s = k s'.
Proof. unfold mbind, M_bind. destruct (a s); [|done|done]. destruct (b _); [|done|done]. by intros ->. Qed.

Lemma bzero_spec bs V H s b : intx bs V H s -> H !! b = None -> home st b ->
  (length bs + size H < NBUF)%nat -> Z.of_nat (length bs) < sz - 1 -> sz <= LOGSIZE ->
  exists s', bzero ROOTDEV b s = Ok tt s' /\ intx (log_add bs b) (vset b (replicate (Z.to_nat BSIZE) 0) V) H s' /\ tkept me s s'.
Proof.
  intros HI Hb Hh Hn H1 H2.
  destruct (tx_bread me st sz bs V H s b HI Hb ltac:(destruct Hh; unfold is_u32; lia) Hn) as (i & s1 & E1 & I1 & K1).
  destruct (tx_update bs V _ s1 b i (fun _ => replicate (Z.to_nat BSIZE) 0) I1) as (s2 & E2 & I2 & K2);
    [by apply lookup_insert_eq|done|by rewrite length_replicate|done|done|].
  exists s2. split; [|split; [|by eapply tkept_trans]].
  - unfold bzero. rewrite (bind_ok _ _ _ _ _ E1). exact E2.
  - by rewrite delete_insert_eq, delete_id in I2 by done.
Qed.

(** ** Messages *)

(** Printing leaves everything but the devices as it is. *)
Lemma printf_ok fmt ap s : ctx me s -> exists s', printf fmt ap s = Ok tt s' /\ device_change s s'.
Proof. intros Hc. apply printf_dev; [apply Hc|by apply (ctx_locks _ _ Hc LPr)]. Qed.
Lemma device_tkept s s' : device_change s s' -> tkept me s s'.
Proof. intros (m & u & k & ->). apply bkept_tkept. auto using bkept_refl with kept. Qed.
Lemma intx_device bs V H s s' : device_change s s' -> intx bs V H s -> intx bs V H s'.
Proof.
  intros Hd HI. pose proof (it_ctx _ _ _ _ _ _ _ HI) as Hc.
  destruct Hd as (m & u & k & ->).
  apply (intx_same me st sz bs V H s); [by split_and!|done| |done]. destruct Hc as [[] ? ? ? ?]. by split.
Qed.

(** ** balloc *)

(** What an allocation does to the contents of the blocks. *)
Definition balloc_view (nb : Z) (V : Z -> list Z) : Z -> list Z :=
  vset nb (replicate (Z.to_nat BSIZE) 0) (vset (BBLOCK nb sb) (bit_mark (V (BBLOCK nb sb)) (nb mod BPB)) V).

(** Room for two more blocks. *)
Definition room2 (bs : list Z) (H : gmap Z nat) : Prop :=
  Z.of_nat (length bs) + 1 < sz - 1 /\ sz <= LOGSIZE /\ (length bs + 1 + size H < NBUF)%nat.

(** No buffer of a bitmap block or of a free block is held. *)
Definition unheld (V : Z -> list Z) (H : gmap Z nat) : Prop :=
  forall b, 0 <= b < sb_size sb -> H !! (BBLOCK b sb) = None /\ (marked V b = false -> H !! b = None).

Lemma balloc_take bs V H s nb i : intx bs V (<[BBLOCK nb sb := i]> H) s -> bitmap_ok V -> unheld V H -> room2 bs H ->
  0 <= nb < sb_size sb -> marked V nb = false ->
  exists s', (bset i (set_b_data (bit_mark (V (BBLOCK nb sb)) (nb mod BPB))) ;; log_write i ;; brelse i ;;
    bzero ROOTDEV nb ;; mret nb) s = Ok nb s' /\
    intx (log_add (log_add bs (BBLOCK nb sb)) nb) (balloc_view nb V) H s' /\ tkept me s s'.
Proof.
  intros HI Hok Hun (R1 & R2 & R3) Hnb Hf. pose proof (bo_map _ Hok nb Hnb) as [_ Hhome].
  destruct (bo_free _ Hok nb Hnb Hf) as (Hnhome & _ & _). destruct (Hun nb Hnb) as [Hu1 Hu2]. specialize (Hu2 Hf).
  pose proof (Z.mod_pos_bound nb BPB ltac:(unfold BPB, BSIZE; lia)) as Hm.
  destruct (tx_update bs V _ s (BBLOCK nb sb) i (fun _ => bit_mark (V (BBLOCK nb sb)) (nb mod BPB)) HI) as (s1 & E1 & I1 & K1);
    [by apply lookup_insert_eq|done|apply bit_mark_len; by eapply tx_len|lia|done|].
  rewrite delete_insert_eq, delete_id in I1 by done. pose proof (log_add_len bs (BBLOCK nb sb)) as Hl.
  destruct (bzero_spec _ _ _ s1 nb I1 Hu2 Hnhome) as (s2 & E2 & I2 & K2); [lia|lia|done|].
  exists s2. split; [|split; [exact I2|by eapply tkept_trans]].
  rewrite (seq3_ok _ _ _ _ _ _ _ E1). by rewrite (bind_ok _ _ _ _ _ E2).
Qed.

Definition all_marked (V : Z -> list Z) : Prop := forall b, 0 <= b < sb_size sb -> marked V b = true.
(** [nb] is the first free block. *)
Definition first_free (V : Z -> list Z) (nb : Z) : Prop :=
  0 <= nb < sb_size sb /\ marked V nb = false /\ forall b, 0 <= b < nb -> marked V b = true.

Lemma balloc_loop_spec bs V H n : forall b s, intx bs V H s -> sblk s = sb -> bitmap_ok V -> unheld V H -> room2 bs H ->
  0 <= b -> b mod BPB = 0 -> (forall x, 0 <= x < b -> x < sb_size sb -> marked V x = true) ->
  sb_size sb <= b + Z.of_nat n * BPB ->
  exists r s', balloc_loop n ROOTDEV b s = Ok r s' /\ tkept me s s' /\
    ((r = 0 /\ all_marked V /\ intx bs V H s') \/
     (first_free V r /\ intx (log_add (log_add bs (BBLOCK r sb)) r) (balloc_view r V) H s')).
Proof.
  induction n as [|n IH]; intros b s HI Hsb Hok Hun HR Hb Hm Hlow Hn; cbn [balloc_loop]; rewrite bind_gets, Hsb.
  all: destruct (Z.ltb_spec b (sb_size sb)) as [Hlt|Hge]; [try lia|].
  all: try (destruct (printf_ok (String.append "balloc: out of blocks" newline) [] s (it_ctx _ _ _ _ _ _ _ HI)) as (s1 & E1 & D1);
    exists 0, s1; split; [by rewrite (bind_ok _ _ _ _ _ E1)|]; split; [by apply device_tkept|]; left;
    split; [done|]; split; [intros x Hx; apply Hlow; lia|by eapply intx_device]).
  destruct (bo_map _ Hok b ltac:(lia)) as [_ [Hh1 _]]. destruct HR as (R1 & R2 & R3).
  destruct (tx_bread me st sz bs V H s (BBLOCK b sb) HI (proj1 (Hun b ltac:(lia))) ltac:(unfold is_u32; lia) ltac:(lia))
    as (i & s1 & E1 & I1 & K1).
  rewrite (bind_ok _ _ _ _ _ E1), (tx_get me st sz _ _ _ _ _ _ _ I1 (lookup_insert_eq _ _ _)).
  pose proof (balloc_scan_spec (V (BBLOCK b sb)) b (sb_size sb) (Z.to_nat BPB) 0 ltac:(lia)) as Hscan.
  assert (HB : Z.of_nat (Z.to_nat BPB) = BPB) by (unfold BPB, BSIZE; lia). rewrite HB in Hscan.
  destruct (balloc_scan _ _ _ _ _) as [bi|].
  - destruct Hscan as (S1 & S2 & S3 & S4). destruct (BBLOCK_same V b bi Hok Hb Hm ltac:(lia) S2) as [EB Em].
    assert (Hf : marked V (b + bi) = false) by (unfold marked; by rewrite EB, Em).
    rewrite <- EB in I1. destruct (balloc_take bs V H s1 (b + bi) i I1 Hok Hun ltac:(by split_and!) ltac:(lia) Hf) as (s2 & E2 & I2 & K2).
    rewrite EB, Em in E2. exists (b + bi), s2. split; [exact E2|]. split; [by eapply tkept_trans|]. right.
    split; [|exact I2]. split; [lia|]. split; [done|]. intros x Hx.
    destruct (decide (x < b)) as [?|?]; [apply Hlow; lia|]. unfold marked.
    destruct (BBLOCK_same V b (x - b) Hok Hb Hm ltac:(lia) ltac:(lia)) as [EB' Em'].
    replace (b + (x - b)) with x in * by lia. rewrite EB', Em'. apply S4. lia.
  - destruct (tx_brelse me st sz _ _ _ s1 (BBLOCK b sb) i I1 (lookup_insert_eq _ _ _)) as (s2 & E2 & I2 & K2).
    rewrite delete_insert_eq, delete_id in I2 by apply (Hun b ltac:(lia)). rewrite (bind_ok _ _ _ _ _ E2).
    pose proof (tkept_trans _ _ _ _ K1 K2) as K12.
    destruct (IH (b + BPB) s2 I2) as (r & s3 & E3 & K3 & H3); [by rewrite (tkept_sblk _ _ _ K12)|done|done|by split_and!|lia|..].
    + rewrite <- (Z.mul_1_l BPB) at 1. by rewrite Z.mod_add by (unfold BPB, BSIZE; lia).
    + intros x Hx Hxs. destruct (decide (x < b)) as [?|?]; [apply Hlow; lia|]. unfold marked.
      destruct (BBLOCK_same V b (x - b) Hok Hb Hm ltac:(lia) ltac:(lia)) as [EB' Em'].
      replace (b + (x - b)) with x in * by lia. rewrite EB', Em'. apply Hscan; lia.
    + lia.
    + exists r, s3. split; [done|]. split; [by eapply tkept_trans|done].
Qed.

Lemma balloc_spec bs V H s : intx bs V H s -> sblk s = sb -> bitmap_ok V -> unheld V H -> room2 bs H ->
  exists r s', balloc ROOTDEV s = Ok r s' /\ tkept me s s' /\
    ((r = 0 /\ all_marked V /\ intx bs V H s') \/
     (first_free V r /\ intx (log_add (log_add bs (BBLOCK r sb)) r) (balloc_view r V) H s')).
Proof.
  intros HI Hsb Hok Hun HR. unfold balloc. rewrite bind_gets, Hsb.
  apply balloc_loop_spec; try done; [intros; lia|].
  pose proof (bo_size _ Hok). pose proof (Z.div_mod (sb_size sb) BPB ltac:(unfold BPB, BSIZE; lia)).
  pose proof (Z.mod_pos_bound (sb_size sb) BPB ltac:(unfold BPB, BSIZE; lia)).
  pose proof (Z.div_pos (sb_size sb) BPB ltac:(lia) ltac:(unfold BPB, BSIZE; lia)). lia.
Qed.

(** The effect on the bitmap and on the blocks. *)
Lemma balloc_view_marked V r : (forall b, length (V b) = Z.to_nat BSIZE) -> bitmap_ok V ->
  0 <= r < sb_size sb -> marked V r = false ->
  forall x, 0 <= x < sb_size sb -> marked (balloc_view r V) x = if decide (x = r) then true else marked V x.
Proof.
  intros Hlen Hok Hr Hf x Hx. pose proof (Z.mod_pos_bound r BPB ltac:(unfold BPB, BSIZE; lia)) as Hm.
  rewrite <- (marked_vset V r (bit_mark (V (BBLOCK r sb)) (r mod BPB)) true); try done.
  - unfold marked, balloc_view. unfold vset at 1. rewrite decide_False; [done|].
    intros E. by apply (proj2 (proj2 (bo_free _ Hok r Hr Hf)) x Hx).
  - intros bj Hbj. by apply bit_bit_mark.
Qed.
Lemma balloc_view_ok V r : (forall b, length (V b) = Z.to_nat BSIZE) -> bitmap_ok V ->
  0 <= r < sb_size sb -> marked V r = false -> bitmap_ok (balloc_view r V).
Proof.
  intros Hlen Hok Hr Hf. apply (bitmap_ok_vset V); [done|]. intros x Hx. rewrite balloc_view_marked by done. by case_decide.
Qed.
Lemma balloc_view_new V r : balloc_view r V r = replicate (Z.to_nat BSIZE) 0.
Proof. unfold balloc_view, vset. by rewrite decide_True. Qed.
Lemma balloc_view_other V r b : b <> r -> b <> BBLOCK r sb -> balloc_view r V b = V b.
Proof. intros H1 H2. unfold balloc_view, vset. by rewrite !decide_False. Qed.

(** ** bfree *)

Definition bfree_view (b : Z) (V : Z -> list Z) : Z -> list Z :=
  vset (BBLOCK b sb) (bit_unmark (V (BBLOCK b sb)) (b mod BPB)) V.

Lemma bfree_spec bs V H s b : intx bs V H s -> sblk s = sb -> bitmap_ok V -> H !! (BBLOCK b sb) = None ->
  (length bs + size H < NBUF)%nat -> Z.of_nat (length bs) < sz - 1 -> sz <= LOGSIZE -> 0 <= b < sb_size sb ->
  if marked V b then
    exists s', bfree ROOTDEV b s = Ok tt s' /\ intx (log_add bs (BBLOCK b sb)) (bfree_view b V) H s' /\ tkept me s s'
  else exists s', bfree ROOTDEV b s = Panic "freeing free block" s'.
Proof.
  intros HI Hsb Hok Hb Hn H1 H2 Hr. destruct (bo_map _ Hok b Hr) as [_ Hhome]. pose proof Hhome as [Hh _].
  pose proof (Z.mod_pos_bound b BPB ltac:(unfold BPB, BSIZE; lia)) as Hm.
  destruct (tx_bread me st sz bs V H s _ HI Hb ltac:(unfold is_u32; lia) Hn) as (i & s1 & E1 & I1 & K1).
  unfold bfree. rewrite bind_gets, Hsb, (bind_ok _ _ _ _ _ E1), (tx_get me st sz _ _ _ _ _ _ _ I1 (lookup_insert_eq _ _ _)).
  rewrite bit_clear_bit by lia. change (bit (V (BBLOCK b sb)) (b mod BPB)) with (marked V b).
  destruct (marked V b); cbn [negb]; [|by exists s1].
  destruct (tx_update bs V _ s1 (BBLOCK b sb) i (fun _ => bit_unmark (V (BBLOCK b sb)) (b mod BPB)) I1) as (s2 & E2 & I2 & K2);
    [by apply lookup_insert_eq|done|apply bit_unmark_len; by eapply tx_len|done|done|].
  rewrite delete_insert_eq, delete_id in I2 by done. exists s2. split; [exact E2|]. split; [exact I2|by eapply tkept_trans].
Qed.
Lemma bfree_view_marked V b : (forall b, length (V b) = Z.to_nat BSIZE) -> bitmap_ok V -> 0 <= b < sb_size sb ->
  forall x, 0 <= x < sb_size sb -> marked (bfree_view b V) x = if decide (x = b) then false else marked V x.
Proof.
  intros Hlen Hok Hr x Hx. pose proof (Z.mod_pos_bound b BPB ltac:(unfold BPB, BSIZE; lia)) as Hm.
  apply marked_vset; try done. intros bj Hbj. by apply bit_bit_unmark.
Qed.
End Alloc.

(** ** Transactions *)

Section Begin.
Context {L : Layout} {W : World} {D : DiskDriver} {DO : DiskOk D}.

(** [begin_op] on a quiet system starts a transaction that sees the disk. *)
Lemma begin_tx me st sz s : quiet me st sz s ->
  exists s', begin_op s = Ok tt s' /\ intx me st sz [] (disk_block (disk s)) ∅ s' /\ tkept me s s'.
Proof.
  intros [Hc Hl H Hst Hd]. pose proof Hl as [Hlo Hsz Hout Hcom].
  pose proof (begin_op_ok me s Hc Hcom) as E. assert (En : lh_n (log s) = 0) by apply Hlo.
  rewrite En, Hout in E. specialize (E ltac:(unfold LOGSIZE, MAXOPBLOCKS; lia)).
  eexists. split; [exact E|]. split.
  - split; [by apply ctx_upd_log| |done| |done].
    + exists 1. split; [lia|]. destruct Hlo as [A1 A2 A3 A4 A5]. split; cbn; [by split|done|by rewrite Hout|done].
    + exists ∅, ∅. split; [by apply cache_upd_log|]. split; [done|]. intros b. unfold tx_entry. by rewrite lookup_empty.
  - exists (set_log_outstanding (log_outstanding (log s) + 1) (log s)), s. split; [done|apply bkept_refl].
Qed.
End Begin.

(** ** The allocator *)

(** C18: the block allocator.  In a transaction, [balloc] returns 0, with a
    message, exactly when every block is marked in use; otherwise it returns
    the first free block, which is then marked and zeroed, and every other
    block and every other mark is as before.  The bitmap stays well formed. *)
Theorem balloc_correct (L : Layout) (W : World) (D : DiskDriver) (DO : DiskOk D) (Ser : Serial) (SO : SerialOk Ser)
    me st sz sb bs V H s :
  intx me st sz bs V H s -> sblk s = sb -> bitmap_ok st sb V -> unheld sb V H -> room2 sz bs H ->
  exists r s', balloc ROOTDEV s = Ok r s' /\ tkept me s s' /\
    ((r = 0 /\ all_marked sb V /\ intx me st sz bs V H s') \/
     (r <> 0 /\ first_free sb V r /\ exists bs' V', intx me st sz bs' V' H s' /\ bitmap_ok st sb V' /\
        V' r = replicate (Z.to_nat BSIZE) 0 /\
        (forall x, 0 <= x < sb_size sb -> marked sb V' x = if decide (x = r) then true else marked sb V x) /\
        (forall b, b <> r -> b <> BBLOCK r sb -> V' b = V b))).
Proof.
  intros HI Hsb Hok Hun HR. destruct (balloc_spec me st sz sb bs V H s HI Hsb Hok Hun HR) as (r & s' & E & K & Hr).
  exists r, s'. split; [done|]. split; [done|]. destruct Hr as [Hr|[Hff I']]; [by left|right].
  pose proof Hff as (Hr & Hf & _). destruct (bo_free _ _ _ Hok r Hr Hf) as (_ & Hnz & _).
  split; [done|]. split; [done|]. eexists _, _. split; [exact I'|].
  assert (Hlen : forall b, length (V b) = Z.to_nat BSIZE) by (intros b; by eapply tx_len).
  split_and!; [by apply balloc_view_ok|apply balloc_view_new|by eapply balloc_view_marked|by apply balloc_view_other].
Qed.

(** C20: freeing a block.  In a transaction, [bfree] of a block marked in use
    clears its mark and changes no other mark and no block but the one of the
    bitmap; a block that is not in use makes the kernel panic. *)
Theorem bfree_correct (L : Layout) (W : World) (D : DiskDriver) (DO : DiskOk D) me st sz sb bs V H s b :
  intx me st sz bs V H s -> sblk s = sb -> bitmap_ok st sb V -> unheld sb V H -> room2 sz bs H -> 0 <= b < sb_size sb ->
  if marked sb V b then
    exists bs' V' s', bfree ROOTDEV b s = Ok tt s' /\ tkept me s s' /\ intx me st sz bs' V' H s' /\
      (forall x, 0 <= x < sb_size sb -> marked sb V' x = if decide (x = b) then false else marked sb V x) /\
      (forall x, x <> BBLOCK b sb -> V' x = V x)
  else exists s', bfree ROOTDEV b s = Panic "freeing free block" s'.
Proof.
  intros HI Hsb Hok Hun (R1 & R2 & R3) Hb.
  pose proof (bfree_spec me st sz sb bs V H s b HI Hsb Hok (proj1 (Hun b Hb)) ltac:(lia) ltac:(lia) R2 Hb) as Hf.
  destruct (marked sb V b); [|done]. destruct Hf as (s' & E & I' & K). eexists _, _, s'. split_and!; [done|done|exact I'|..].
  - apply (bfree_view_marked st); [intros x; by eapply tx_len|done|done].
  - intros x Hx. unfold bfree_view, vset. by rewrite decide_False.
Qed.

(** *** A file system made by mkfs *)

Definition fs_sb : superblock := {| sb_magic := FSMAGIC; sb_size := 2000; sb_nblocks := 1955; sb_ninodes := 200;
  sb_nlog := 16; sb_logstart := 2; sb_inodestart := 18; sb_bmapstart := 44 |}.
Definition sample_map : list Z := replicate 6 255 ++ replicate 506 0.
Definition fs_disk : gmap Z (list Z) := {[44 := sample_map]}.
Definition fs_machine (d : gmap Z (list Z)) : kstate := set_sblk fs_sb (log_machine_on d).

Lemma fs_machine_quiet d : (forall b, length (disk_block d b) = Z.to_nat BSIZE) -> heads [] (disk_block d 2) ->
  quiet 0 2 16 (fs_machine d).
Proof.
  intros Hd Hh. destruct (log_machine_on_quiet d Hd Hh) as [Hc Hl H Hst Hq]. split; [|done| |done|done].
  - destruct Hc as [[] ? ? ? ?]. by split.
  - eapply cache_same; [|exact H]. by split_and!.
Qed.
Lemma bitmap_sample V : V 44 = sample_map -> bitmap_ok 2 fs_sb V.
Proof.
  intros HV. assert (HB : forall b, 0 <= b < 2000 -> BBLOCK b fs_sb = b / BPB + 44 /\ BBLOCK b fs_sb = 44 /\ b mod BPB = b).
  { intros b Hb. unfold BBLOCK. cbn [sb_bmapstart fs_sb]. rewrite Z.div_small, Z.mod_small by (unfold BPB, BSIZE; lia). done. }
  assert (Hlow : forall b, 0 <= b < 48 -> bit sample_map b = true).
  { intros b Hb. assert (Hall : forallb (bit sample_map) (seqZ 0 48) = true) by (vm_compute; reflexivity).
    rewrite forallb_forall in Hall. apply Hall, list_elem_of_In, elem_of_seqZ. lia. }
  split; cbn [sb_size fs_sb sb_bmapstart].
  - lia.
  - intros b Hb. destruct (HB b Hb) as (-> & E & _). split; [done|]. rewrite Z.div_small by (unfold BPB, BSIZE; lia).
    split; [lia|right]. unfold LOGSIZE, MAXOPBLOCKS. lia.
  - intros b Hb Hm. unfold marked in Hm. destruct (HB b Hb) as (_ & E & Em). rewrite E, Em, HV in Hm.
    assert (48 <= b) by (destruct (decide (b < 48)); [rewrite Hlow in Hm by lia; done|lia]).
    split; [split; [lia|right; unfold LOGSIZE, MAXOPBLOCKS; lia]|]. split; [lia|].
    intros b' Hb'. destruct (HB b' Hb') as (_ & E' & _). lia.
Qed.
Lemma fs_disk_len b : length (disk_block fs_disk b) = Z.to_nat BSIZE.
Proof.
  unfold disk_block, fs_disk. destruct (decide (b = 44)) as [->|]; [by rewrite lookup_singleton_eq|].
  by rewrite lookup_singleton_ne.
Qed.

Lemma fs_machine_ok : quiet 0 2 16 (fs_machine fs_disk).
Proof. apply fs_machine_quiet; [apply fs_disk_len|]. split; [reflexivity| |reflexivity]. intros i b. by rewrite lookup_nil. Qed.

Lemma fs_machine_view : disk_block (disk (fs_machine fs_disk)) 44 = sample_map.
Proof. destruct (booted_on_ok fs_disk fs_disk_len) as (_ & _ & Sl & B & E). unfold fs_machine, log_machine_on. by rewrite E. Qed.
Lemma unheld_empty sb V : unheld sb V ∅.
Proof. intros b Hb. by rewrite !lookup_empty. Qed.
Lemma room2_empty : room2 16 [] ∅.
Proof. unfold room2, LOGSIZE, MAXOPBLOCKS, NBUF. rewrite map_size_empty. cbn. lia. Qed.

Lemma balloc_correct_witness : exists s r s' V' bs', @begin_op nemu_world (fs_machine fs_disk) = Ok tt s /\
  @balloc nemu_world (@nemu_disk_driver test_layout nemu_world) (@nemu_serial nemu_world) ROOTDEV s = Ok r s' /\ r <> 0 /\
  intx 0 2 16 bs' V' ∅ s' /\ V' r = replicate 512 0.
Proof.
  destruct (begin_tx (W := nemu_world) 0 2 16 (fs_machine fs_disk) fs_machine_ok) as (s & E & HI & K). pose proof fs_machine_view as HV.
  destruct (balloc_correct test_layout nemu_world (@nemu_disk_driver test_layout nemu_world) (nemu_disk_laws _ _ nemu_world_disk)
    (@nemu_serial nemu_world) (nemu_serial_laws _ nemu_world_uart) 0 2 16 fs_sb [] _ ∅ s HI) as (r & s' & Eb & _ & Hr).
  - exact (tkept_sblk _ _ _ K).
  - by apply bitmap_sample.
  - apply unheld_empty.
  - exact room2_empty.
  - destruct Hr as [(_ & Hall & _)|(Hnz & _ & bs' & V' & I' & _ & Hz & _)].
    + exfalso. specialize (Hall 48 ltac:(cbn; lia)). unfold marked in Hall. change (BBLOCK 48 fs_sb) with 44 in Hall.
      rewrite HV in Hall. vm_compute in Hall. discriminate.
    + exists s, r, s', V', bs'. split; [exact E|]. split; [exact Eb|]. split; [exact Hnz|]. split; [exact I'|exact Hz].
Defined.

Lemma bfree_correct_witness : exists s s' V' bs', @begin_op nemu_world (fs_machine fs_disk) = Ok tt s /\
  @bfree nemu_world (@nemu_disk_driver test_layout nemu_world) ROOTDEV 47 s = Ok tt s' /\
  intx 0 2 16 bs' V' ∅ s' /\ marked fs_sb V' 47 = false.
Proof.
  destruct (begin_tx (W := nemu_world) 0 2 16 (fs_machine fs_disk) fs_machine_ok) as (s & E & HI & K). pose proof fs_machine_view as HV.
  pose proof (bfree_correct test_layout nemu_world (@nemu_disk_driver test_layout nemu_world) (nemu_disk_laws _ _ nemu_world_disk)
    0 2 16 fs_sb [] _ ∅ s 47 HI (tkept_sblk _ _ _ K) (bitmap_sample _ HV) (unheld_empty _ _) room2_empty ltac:(cbn; lia)) as Hf.
  assert (Em : marked fs_sb (disk_block (disk (fs_machine fs_disk))) 47 = true).
  { unfold marked. change (BBLOCK 47 fs_sb) with 44. rewrite HV. vm_compute. reflexivity. }
  rewrite Em in Hf. destruct Hf as (bs' & V' & s' & Ef & _ & I' & Hm & _).
  exists s, s', V', bs'. split; [exact E|]. split; [exact Ef|]. split; [exact I'|].
  rewrite (Hm 47 ltac:(cbn; lia)). reflexivity.
Defined.
