(* ===== verification/FsFile.v ===== *)
(** * Contents of files (bmap, readi, writei of kernel/fs.c) *)
From S2P Require Import Prelude Memory Machine Platform Sv32 Spinlock Printf Kalloc Vm Proc Sleeplock Bio Log Fs.
From S2P Require Import ProcSpec SleepSpec BioSpec BioRefine LogSpec LogTx LogCrash VmSpec UserVm UserCopy FsTx FsAlloc Nemu NemuSpec.
From stdpp Require Import gmap strings countable prelude.

Open Scope Z_scope.

(** ** What a file contains *)

(** The block with the [bn]th block of the file, 0 if there is none. *)
Definition baddr (V : Z -> list Z) (ip : inode) (bn : Z) : Z :=
  if bn <? NDIRECT then at_ (i_addrs ip) (Z.to_nat bn)
  else
    let ind := at_ (i_addrs ip) (Z.to_nat NDIRECT) in
    if ind =? 0 then 0 else u32_at (V ind) (Z.to_nat (4 * (bn - NDIRECT))).
(** The byte of the file at an offset, and [n] bytes. *)
Definition fbyte (V : Z -> list Z) (ip : inode) (o : Z) : Z := at_ (V (baddr V ip (o / BSIZE))) (Z.to_nat (o mod BSIZE)).
Definition fbytes (V : Z -> list Z) (ip : inode) (off : Z) (n : nat) : list Z :=
  (fun k => fbyte V ip (off + Z.of_nat k)) <$> seq 0 n.

Lemma fbytes_app V ip off n k : fbytes V ip off (n + k) = fbytes V ip off n ++ fbytes V ip (off + Z.of_nat n) k.
Proof.
  unfold fbytes. rewrite seq_app, fmap_app. f_equal.
  assert (Es : seq (0 + n) k = Nat.add n <$> seq 0 k) by (rewrite fmap_add_seq; f_equal; lia).
  rewrite Es, <- list_fmap_compose.
  apply list_fmap_ext. intros _ x _. cbn. f_equal. lia.
Qed.
Lemma length_fbytes V ip off n : length (fbytes V ip off n) = n.
Proof. unfold fbytes. by rewrite length_fmap, length_seq. Qed.
(** Within a block. *)
Lemma div_mod_near off k : 0 <= off -> 0 <= k -> off mod BSIZE + k < BSIZE ->
  (off + k) / BSIZE = off / BSIZE /\ (off + k) mod BSIZE = off mod BSIZE + k.
Proof.
  intros Ho Hk Hlt. pose proof (Z.div_mod off BSIZE ltac:(unfold BSIZE; lia)) as Hd.
  pose proof (Z.mod_pos_bound off BSIZE ltac:(unfold BSIZE; lia)).
  replace (off + k) with (off mod BSIZE + k + off / BSIZE * BSIZE) by lia.
  rewrite Z.div_add, Z.mod_add by (unfold BSIZE; lia). rewrite Z.div_small, Z.mod_small by lia. lia.
Qed.

(** A part of one block. *)
Lemma fbytes_block V ip off m : 0 <= off -> length (V (baddr V ip (off / BSIZE))) = Z.to_nat BSIZE ->
  off mod BSIZE + Z.of_nat m <= BSIZE ->
  fbytes V ip off m = take m (drop (Z.to_nat (off mod BSIZE)) (V (baddr V ip (off / BSIZE)))).
Proof.
  intros Ho Hlen Hm. pose proof (Z.mod_pos_bound off BSIZE ltac:(unfold BSIZE; lia)) as Hr.
  apply list_eq. intros j. unfold fbytes. rewrite list_lookup_fmap. destruct (decide (j < m)%nat) as [Hj|Hj].
  - rewrite (lookup_seq_lt _ _ _ Hj), lookup_take_lt, lookup_drop by done. cbn.
    assert (Ed : (off + Z.of_nat j) / BSIZE = off / BSIZE /\ (off + Z.of_nat j) mod BSIZE = off mod BSIZE + Z.of_nat j).
    { apply div_mod_near; lia. }
    unfold fbyte. rewrite (proj1 Ed), (proj2 Ed). unfold at_. rewrite nth_lookup.
    destruct (lookup_lt_is_Some_2 (V (baddr V ip (off / BSIZE))) (Z.to_nat (off mod BSIZE) + j)) as [x Hx];
      [rewrite Hlen; lia|].
    replace (Z.to_nat (off mod BSIZE + Z.of_nat j)) with (Z.to_nat (off mod BSIZE) + j)%nat by lia. by rewrite Hx.
  - rewrite lookup_take_ge by lia. rewrite lookup_ge_None_2; [done|]. rewrite length_seq. lia.
Qed.

(** A file all of whose blocks are there. *)
Record file_ok (V : Z -> list Z) (ip : inode) : Prop := {
  fo_dev : i_dev ip = ROOTDEV;
  fo_size : 0 <= i_size ip <= MAXFILE * BSIZE;
  fo_ind : is_u32 (at_ (i_addrs ip) (Z.to_nat NDIRECT));
  fo_blocks : forall bn, 0 <= bn -> bn * BSIZE < i_size ip -> baddr V ip bn <> 0 /\ is_u32 (baddr V ip bn);
}.

Section File.
Context {L : Layout} {LO : LayoutOk L} {W : World} {D : DiskDriver} {DO : DiskOk D} {Ser : Serial} {SO : SerialOk Ser}.
Context (me : nat) (st sz : Z).
Notation intx := (intx me st sz).

Lemma tkept_ip s s' i : tkept me s s' -> ip_of s' i = ip_of s i.
Proof. intros K. unfold ip_of. by rewrite (tkept_itable _ _ _ K). Qed.

(** [bmap] of a block that is there. *)
Lemma bmap_mapped bs V s i bn : intx bs V ∅ s -> (length bs < NBUF)%nat -> 0 <= bn < MAXFILE ->
  i_dev (ip_of s i) = ROOTDEV -> is_u32 (at_ (i_addrs (ip_of s i)) (Z.to_nat NDIRECT)) -> baddr V (ip_of s i) bn <> 0 ->
  exists s', bmap i bn s = Ok (baddr V (ip_of s i) bn) s' /\ intx bs V ∅ s' /\ tkept me s s'.
Proof.
  intros HI Hn Hbn Hdev Hind Hnz. unfold bmap. rewrite bind_gets. unfold baddr in *.
  destruct (bn <? NDIRECT) eqn:Ebn.
  - rewrite (proj2 (Z.eqb_neq _ _)) by done. exists s. split; [done|]. split; [done|apply tkept_refl].
  - apply Z.ltb_ge in Ebn. rewrite (proj2 (Z.ltb_lt _ _)) by (unfold MAXFILE in Hbn; lia).
    destruct (Z.eqb_spec (at_ (i_addrs (ip_of s i)) (Z.to_nat NDIRECT)) 0) as [E|Hnz']; [done|].
    rewrite bind_ret. rewrite (proj2 (Z.eqb_neq _ _)) by done. rewrite Hdev.
    set (ind := at_ _ _) in *.
    destruct (tx_bread me st sz bs V ∅ s ind HI (lookup_empty _) Hind) as (j & s1 & E1 & I1 & K1);
      [rewrite map_size_empty; lia|].
    rewrite (bind_ok _ _ _ _ _ E1), (tx_get me st sz _ _ _ _ _ _ _ I1 (lookup_insert_eq _ _ _)).
    rewrite (proj2 (Z.eqb_neq _ _)) by done. rewrite bind_ret.
    destruct (tx_brelse me st sz _ _ _ s1 ind j I1 (lookup_insert_eq _ _ _)) as (s2 & E2 & I2 & K2).
    rewrite delete_insert_eq, delete_empty in I2. exists s2. rewrite (bind_ok _ _ _ _ _ E2).
    split; [done|]. split; [done|by eapply tkept_trans].
Qed.

(** *** Memory changes, transactions do not notice *)

Lemma tkept_set_mem m s s' : tkept me s s' -> tkept me (set_mem m s) (set_mem m s').
Proof.
  intros (l & t & -> & B & S & D' & T & M & U & N & P & Hw & ->).
  exists l, (set_mem m (set_bufs B (set_slocks S (set_disk D' (set_dtrace T (set_mmio M (set_uart U (set_nmmio N (set_procs P s))))))))).
  split; [done|]. by exists B, S, D', T, M, U, N, P.
Qed.
Lemma intx_set_mem bs V H m s : intx bs V H s -> intx bs V H (set_mem m s).
Proof.
  intros HI. apply (intx_same me st sz bs V H s); [by split_and!|done| |done].
  destruct (it_ctx _ _ _ _ _ _ _ HI) as [[] ? ? ? ?]. by split.
Qed.

(** *** Where the bytes of a read go *)

Lemma tkept_me s s' : tkept me s s' -> proc_of s' me = proc_of s me.
Proof. intros (l & t & -> & B & S & D' & T & M & U & N & P & [[Hw _] _] & ->). unfold proc_of. cbn. by rewrite Hw. Qed.
Lemma tkept_vstep m fl s s' : tkept me s s' -> tkept me (set_mem m (set_freelist fl s)) (set_mem m (set_freelist fl s')).
Proof.
  intros (l & t & -> & B & S & D' & T & M & U & N & P & Hw & ->).
  exists l, (set_mem m (set_freelist fl (set_bufs B (set_slocks S (set_disk D' (set_dtrace T (set_mmio M (set_uart U (set_nmmio N (set_procs P s)))))))))).
  split; [done|]. by exists B, S, D', T, M, U, N, P.
Qed.
Lemma tkept_freelist s s' : tkept me s s' -> freelist s' = freelist s.
Proof. by intros (l & t & -> & B & S & D' & T & M & U & N & P & Hw & ->). Qed.
Lemma intx_vstep P bs V H s s' : vstep P s s' -> intx bs V H s -> intx bs V H s'.
Proof.
  intros [_ (m & fl & ->)] HI. apply (intx_same me st sz bs V H s); [by split_and!|done| |done].
  destruct (it_ctx _ _ _ _ _ _ _ HI) as [[] ? ? ? ?]. by split.
Qed.

(** The page table of the process. *)
Definition my_root (s : kstate) : Z := p_pagetable (proc_of s me).

Section Target.
Context (T F : gset Z) (pas : list Z) (user : bool).

(** The [n] bytes at [dst] are memory of the kernel, or addresses of the user,
    whose pages are [pas]. *)
Record target (dst n : Z) (s : kstate) : Prop := {
  ta_range : 0 <= dst /\ dst + n < 4294967296;
  ta_user : user = true -> uvm T F (my_root s) pas s /\ only_user (mem s) (my_root s) (Z.of_nat (length pas));
}.

(** The first [k] bytes of [data] have been stored at [dst]. *)
Definition delivered (dst : Z) (data : list Z) (k : nat) (s t : kstate) : Prop :=
  if user then copied_out T F (my_root s) pas dst data k s t
  else t = set_mem (store_bytes (mem s) dst (take k data)) s.
(** [r] is what the copy returns: [ok] if all [n] bytes have been stored, -1 if
    the user has no access to the next one. *)
Definition copy_result (ok r n dst : Z) (k : nat) (s : kstate) : Prop :=
  (r = ok /\ Z.of_nat k = n) \/
  (r = -1 /\ user = true /\ Z.of_nat k < n /\ accessible (mem s) (my_root s) (dst + Z.of_nat k) = false).

Lemma target_le dst n n' s : target dst n s -> n' <= n -> target dst n' s.
Proof. intros [H1 H2] Hn. split; [lia|done]. Qed.
Lemma delivered_nothing dst data s n : target dst n s -> delivered dst data 0 s s.
Proof.
  intros [_ Hu]. unfold delivered. destruct user; [by apply copied_out_0, Hu|]. by destruct s.
Qed.
Lemma delivered_app dst data k1 k2 s s1 s2 : (k1 <= length data)%nat -> my_root s1 = my_root s ->
  delivered dst (take k1 data) k1 s s1 -> delivered (dst + Z.of_nat k1) (drop k1 data) k2 s1 s2 ->
  delivered dst data (k1 + k2) s s2.
Proof.
  intros Hk Er. unfold delivered. destruct user; [rewrite Er; intros; by eapply copied_out_app|].
  intros -> ->. cbn [mem set_mem]. rewrite take_take, Nat.min_id, <- (take_take_drop data k1 k2), store_bytes_app, length_take.
  by rewrite Nat.min_l.
Qed.
(** Bytes behind those do not matter. *)
Lemma delivered_part dst data m k s t : (k <= m)%nat -> delivered dst (take m data) k s t -> delivered dst data k s t.
Proof.
  intros Hk. unfold delivered. destruct user; [|by rewrite take_take, Nat.min_l].
  intros [D1 D2 D3 D4]. split; [done..|]. intros va Hva Hv. rewrite D4 by done. case_decide; [|done].
  unfold at_. by rewrite !nth_lookup, lookup_take_lt by lia.
Qed.
Lemma delivered_root dst data k s t : delivered dst data k s t -> my_root t = my_root s.
Proof. unfold delivered. destruct user; [intros [_ [_ (m & fl & ->)] _ _]|intros ->]; done. Qed.
Lemma delivered_intx bs V H dst data k s t : delivered dst data k s t -> intx bs V H s -> intx bs V H t.
Proof.
  unfold delivered. destruct user; [intros [_ Hv _ _]; by eapply intx_vstep|intros ->; apply intx_set_mem].
Qed.
Lemma delivered_itable dst data k s t : delivered dst data k s t -> itable t = itable s.
Proof. unfold delivered. destruct user; [intros [_ [_ (m & fl & ->)] _ _]|intros ->]; done. Qed.
Lemma delivered_access dst data k s t va : delivered dst data k s t -> user = true ->
  accessible (mem t) (my_root t) va = accessible (mem s) (my_root s) va.
Proof.
  intros Hd Hu. rewrite (delivered_root _ _ _ _ _ Hd). unfold delivered in Hd. rewrite Hu in Hd.
  apply accessible_ptes. apply Hd.
Qed.
(** The rest of the buffer is still there. *)
Lemma target_rest dst n k data s t : target dst n s -> 0 <= Z.of_nat k <= n -> delivered dst data k s t ->
  target (dst + Z.of_nat k) (n - Z.of_nat k) t.
Proof.
  intros [Hr Hu] Hk Hd. split; [lia|]. intros Eu. destruct (Hu Eu) as [H1 H2].
  rewrite (delivered_root _ _ _ _ _ Hd). unfold delivered in Hd. rewrite Eu in Hd. destruct Hd as [D1 _ D3 _].
  split; [exact D1|by eapply only_user_ptes].
Qed.
(** Steps of a transaction around a copy. *)
Lemma target_tkept dst n s s' : ctx me s' -> tkept me s s' -> target dst n s -> target dst n s'.
Proof.
  intros Hc K [Hr Hu]. split; [done|]. intros Eu. destruct (Hu Eu) as [H1 H2]. unfold my_root.
  rewrite (tkept_me _ _ K), (tkept_mem _ _ _ K). split; [|done]. eapply uvm_same; [exact H1|by apply (tkept_mem me)|
    by apply tkept_freelist|apply Hc|by apply (ctx_locks _ _ Hc)].
Qed.
Lemma delivered_tkept dst n data k s s1 t1 : ctx me s -> target dst n s -> tkept me s s1 -> delivered dst data k s1 t1 ->
  exists t, delivered dst data k s t /\ tkept me t t1.
Proof.
  intros Hc [_ Hu] K. unfold delivered, my_root. rewrite (tkept_me _ _ K), (tkept_mem _ _ _ K). destruct user.
  - intros [D1 [Ha (m & fl & Et)] D3 D4]. rewrite (tkept_mem _ _ _ K) in Ha, D3, D4.
    exists (set_mem m (set_freelist fl s)). rewrite Et in *. split; [|by apply tkept_vstep]. split.
    + eapply uvm_same; [exact D1|done|done|destruct (ctx_settled _ _ Hc); by split|by apply (ctx_locks _ _ Hc)].
    + split; [exact Ha|]. by exists m, fl.
    + exact D3.
    + exact D4.
  - intros ->. eexists. split; [done|by apply tkept_set_mem].
Qed.

Lemma either_copyout_ok s dst src len : ctx me s -> target dst len s -> 0 <= len <= Z.of_nat (length src) ->
  exists r k t, either_copyout user dst src len s = Ok r t /\ delivered dst (take (Z.to_nat len) src) k s t /\
    copy_result 0 r len dst k s.
Proof.
  intros Hc [Hr Hu] Hlen. unfold either_copyout. rewrite (bind_ok _ _ _ _ _ (myproc_ok s (ctx_settled _ _ Hc))).
  rewrite (ctx_cur _ _ Hc). unfold delivered, copy_result. destruct user.
  - destruct (Hu eq_refl) as [H1 H2]. rewrite bind_gets.
    destruct (copyout_some T F (my_root s) pas dst src len s H1 H2) as (r & k & t & E & Hco & Hres);
      [unfold is_u32; lia|lia|lia|]. exists r, k, t. split; [exact E|]. split; [exact Hco|].
    destruct Hres as [?|(? & ? & ?)]; [by left|right; split_and!; done].
  - exists 0, (Z.to_nat len). eexists. split; [done|]. rewrite take_take, Nat.min_id. split; [done|]. left. lia.
Qed.
End Target.

(** ** readi *)

(** The part of the block a turn copies. *)
Lemma chunk_bounds off n tot : tot < n -> let m := Z.min (n - tot) (BSIZE - off mod BSIZE) in
  0 < m /\ m <= n - tot /\ off mod BSIZE + m <= BSIZE /\ (m = n - tot \/ (off + m) mod BSIZE = 0).
Proof.
  intros Hlt m. pose proof (Z.mod_pos_bound off BSIZE ltac:(unfold BSIZE; lia)) as Hm. subst m. split_and!; [lia..|].
  destruct (Z.min_spec (n - tot) (BSIZE - off mod BSIZE)) as [[? ->]|[? ->]]; [by left|right].
  rewrite (Z.div_mod off BSIZE) at 1 by (unfold BSIZE; lia).
  replace (BSIZE * (off / BSIZE) + off mod BSIZE + (BSIZE - off mod BSIZE)) with (0 + (off / BSIZE + 1) * BSIZE) by lia.
  by rewrite Z.mod_add by (unfold BSIZE; lia).
Qed.
Lemma block_in_file off size : 0 <= off < size -> 0 <= off / BSIZE /\ off / BSIZE * BSIZE < size.
Proof.
  intros H. pose proof (Z.div_mod off BSIZE ltac:(unfold BSIZE; lia)). pose proof (Z.mod_pos_bound off BSIZE ltac:(unfold BSIZE; lia)).
  pose proof (Z.div_pos off BSIZE ltac:(lia) ltac:(unfold BSIZE; lia)). lia.
Qed.

Section Readi.
Context (T F : gset Z) (pas : list Z) (user : bool).
Abbreviation target := (target T F pas user).
Abbreviation delivered := (delivered T F pas user).

Lemma readi_loop_spec bs V ip i n fuel : forall dst off tot s,
  intx bs V ∅ s -> (length bs < NBUF)%nat -> ip_of s i = ip -> file_ok V ip ->
  0 <= tot <= n -> 0 <= off -> off + (n - tot) <= i_size ip -> target dst (n - tot) s ->
  (tot < n -> off mod BSIZE + (n - tot) <= Z.of_nat fuel * BSIZE) ->
  exists r k t s', readi_loop fuel i user dst off n tot s = Ok r s' /\ intx bs V ∅ s' /\
    delivered dst (fbytes V ip off (Z.to_nat (n - tot))) k s t /\ tkept me t s' /\
    copy_result user n r (n - tot) dst k s.
Proof.
  induction fuel as [|fuel IH]; intros dst off tot s HI Hn Hip Hok Ht Ho Hs Hta Hf; cbn [readi_loop].
  all: destruct (Z.ltb_spec tot n) as [Hlt|Hge].
  all: try (assert (tot = n) as -> by lia; exists n, 0%nat, s, s; split; [done|]; split; [done|];
    split; [by eapply delivered_nothing|]; split; [apply tkept_refl|left; lia]).
  { pose proof (Z.mod_pos_bound off BSIZE ltac:(unfold BSIZE; lia)). lia. }
  destruct (chunk_bounds off n tot Hlt) as (M1 & M2 & M3 & M4). set (m := Z.min (n - tot) (BSIZE - off mod BSIZE)) in *.
  destruct (block_in_file off (i_size ip) ltac:(lia)) as [B1 B2].
  destruct (fo_blocks _ _ Hok _ B1 B2) as [Hnz Hu]. pose proof (fo_size _ _ Hok) as Hsz.
  assert (Hbn : 0 <= off / BSIZE < MAXFILE) by (split; [done|]; apply (Z.mul_lt_mono_pos_r BSIZE); [unfold BSIZE; lia|lia]).
  destruct (bmap_mapped bs V s i (off / BSIZE) HI Hn Hbn) as (s1 & E1 & I1 & K1);
    [by rewrite Hip, (fo_dev _ _ Hok)|rewrite Hip; apply Hok|by rewrite Hip|].
  rewrite Hip in E1. rewrite (bind_ok _ _ _ _ _ E1). set (addr := baddr V ip (off / BSIZE)) in *.
  rewrite (proj2 (Z.eqb_neq _ _)) by done. rewrite bind_gets, (tkept_ip _ _ _ K1), Hip, (fo_dev _ _ Hok).
  destruct (tx_bread me st sz bs V ∅ s1 addr I1 (lookup_empty _) Hu) as (j & s2 & E2 & I2 & K2); [rewrite map_size_empty; lia|].
  rewrite (bind_ok _ _ _ _ _ E2), (tx_get me st sz _ _ _ _ _ _ _ I2 (lookup_insert_eq _ _ _)).
  pose proof (tkept_trans _ _ _ _ K1 K2) as K12. pose proof (it_ctx _ _ _ _ _ _ _ I2) as Hc2.
  pose proof (tx_len me st sz _ _ _ _ addr I2) as Hlen. pose proof (Z.mod_pos_bound off BSIZE ltac:(unfold BSIZE; lia)).
  set (data := fbytes V ip off (Z.to_nat (n - tot))).
  assert (Hdl : length data = Z.to_nat (n - tot)) by apply length_fbytes.
  assert (Eb : take (Z.to_nat m) (drop (Z.to_nat (off mod BSIZE)) (V addr)) = take (Z.to_nat m) data).
  { unfold data. replace (Z.to_nat (n - tot)) with (Z.to_nat m + Z.to_nat (n - tot - m))%nat by lia.
    rewrite fbytes_app, take_app_length' by (symmetry; apply length_fbytes). symmetry. apply fbytes_block; [done|done|lia]. }
  assert (Hta2 : target dst m s2).
  { eapply target_tkept; [done|exact K12|]. eapply target_le; [exact Hta|lia]. }
  destruct (either_copyout_ok T F pas user s2 dst (drop (Z.to_nat (off mod BSIZE)) (V addr)) m Hc2 Hta2) as (rc & k & t2 & Ec & Hd & Hres).
  { rewrite length_drop, Hlen. lia. }
  rewrite Eb in Hd. rewrite (bind_ok _ _ _ _ _ Ec). pose proof (delivered_intx _ _ _ _ _ _ _ _ _ _ _ _ Hd I2) as I2'.
  destruct (tx_brelse me st sz _ _ _ _ addr j I2' (lookup_insert_eq _ _ _)) as (s3 & E3 & I3 & K3).
  rewrite delete_insert_eq, delete_empty in I3.
  destruct (delivered_tkept T F pas user dst m (take (Z.to_nat m) data) k s s2 t2) as (t & Hdt & Kt);
    [apply HI|by eapply target_le; [exact Hta|lia]|exact K12|exact Hd|].
  pose proof (tkept_trans _ _ _ _ Kt K3) as Kt3.
  assert (Ea : forall va, user = true -> accessible (mem s2) (my_root s2) va = accessible (mem s) (my_root s) va).
  { intros va _. unfold my_root. by rewrite (tkept_me _ _ K12), (tkept_mem _ _ _ K12). }
  destruct Hres as [[-> Hk]|(-> & Eu & Hk & Hacc)]; [cbn [Z.eqb]|rewrite Z.eqb_refl]; rewrite (bind_ok _ _ _ _ _ E3).
  2: { exists (-1), k, t, s3. split; [done|]. split; [exact I3|]. split; [|split; [exact Kt3|right; split_and!; [done|done|lia|by rewrite <- Ea]]].
       eapply delivered_part; [|exact Hdt]. lia. }
  rewrite (u32_small (dst + m)) by (destruct (ta_range _ _ _ _ _ _ _ Hta); unfold is_u32; lia).
  assert (Hrest' : target (dst + m) (n - tot - m) t).
  { rewrite <- Hk. eapply target_rest; [exact Hta|lia|exact Hdt]. }
  assert (Hrest : target (dst + m) (n - (tot + m)) t) by (eapply target_le; [exact Hrest'|lia]).
  destruct (IH (dst + m) (off + m) (tot + m) s3 I3 Hn) as (r & k' & t' & s4 & E4 & I4 & D4 & K4 & R4); try lia; try done.
  { unfold ip_of in *. by rewrite (tkept_itable _ _ _ Kt3), (delivered_itable _ _ _ _ _ _ _ _ _ Hdt). }
  { eapply target_tkept; [apply I3|exact Kt3|exact Hrest]. }
  destruct (delivered_tkept T F pas user (dst + m) (n - tot - m) (fbytes V ip (off + m) (Z.to_nat (n - (tot + m)))) k' t s3 t')
    as (t4 & D5 & K5); [by eapply it_ctx, delivered_intx|exact Hrest'|exact Kt3|exact D4|].
  exists r, (k + k')%nat, t4, s4. split; [exact E4|]. split; [exact I4|]. split; [|split; [by eapply tkept_trans|]].
  - eapply (delivered_app _ _ _ _ _ _ k k'); [lia|by eapply delivered_root|by rewrite <- Hk, Nat2Z.id in Hdt|].
    rewrite Hk. replace (drop k data) with (fbytes V ip (off + m) (Z.to_nat (n - (tot + m)))); [exact D5|].
    unfold data. replace (Z.to_nat (n - tot)) with (k + Z.to_nat (n - (tot + m)))%nat by lia.
    rewrite fbytes_app, drop_app_length' by (symmetry; apply length_fbytes). by rewrite Hk.
  - assert (Er : forall va, user = true -> accessible (mem s3) (my_root s3) va = accessible (mem s) (my_root s) va).
    { intros va Eu. unfold my_root. rewrite (tkept_me _ _ Kt3), (tkept_mem _ _ _ Kt3). by eapply delivered_access. }
    destruct R4 as [[-> ?]|(-> & Eu & ? & Ha)]; [left; lia|right]. split_and!; [done|done|lia|].
    rewrite <- Er by done. rewrite <- Ha. f_equal. lia.
Qed.

(** How much [readi] reads. *)
Definition read_len (size off n : Z) : Z :=
  if (size <? off) || (4294967296 <=? off + n) then 0 else Z.min n (size - off).

Lemma readi_any bs V i dst off n s :
  intx bs V ∅ s -> (length bs < NBUF)%nat -> file_ok V (ip_of s i) -> is_u32 off -> is_u32 n -> target dst n s ->
  let len := read_len (i_size (ip_of s i)) off n in
  exists r k t s', readi i user dst off n s = Ok r s' /\ intx bs V ∅ s' /\
    delivered dst (fbytes V (ip_of s i) off (Z.to_nat len)) k s t /\ tkept me t s' /\ copy_result user len r len dst k s.
Proof.
  intros HI Hn Hok Ho Hnn Hta. cbv zeta. unfold readi, read_len, is_u32 in *. rewrite bind_gets.
  set (size := i_size (ip_of s i)) in *. pose proof (fo_size _ _ Hok) as Hs. fold size in Hs.
  assert (Eo : (u32 (off + n) <? off) = (4294967296 <=? off + n)).
  { unfold u32. destruct (Z.leb_spec 4294967296 (off + n)) as [Hge|Hlt].
    - apply Z.ltb_lt. rewrite <- (Z.mod_unique (off + n) 4294967296 1 (off + n - 4294967296)); lia.
    - apply Z.ltb_ge. rewrite Z.mod_small; lia. }
  rewrite Eo. destruct ((size <? off) || (4294967296 <=? off + n)) eqn:E.
  - exists 0, 0%nat, s, s. split; [done|]. split; [done|]. split; [by eapply delivered_nothing|]. split; [apply tkept_refl|by left].
  - apply orb_false_iff in E as [E1%Z.ltb_ge E2%Z.leb_gt].
    assert (En : (if size <? off + n then size - off else n) = Z.min n (size - off)).
    { destruct (Z.ltb_spec size (off + n)); lia. }
    rewrite En. set (k := Z.min n (size - off)). pose proof (Z.mod_pos_bound off BSIZE ltac:(unfold BSIZE; lia)).
    pose proof (Z.div_mod k BSIZE ltac:(unfold BSIZE; lia)). pose proof (Z.mod_pos_bound k BSIZE ltac:(unfold BSIZE; lia)).
    pose proof (Z.div_pos k BSIZE ltac:(lia) ltac:(unfold BSIZE; lia)).
    destruct (readi_loop_spec bs V (ip_of s i) i k (Z.to_nat (k / BSIZE + 2)) dst off 0 s HI Hn eq_refl Hok) as (r & k' & t & s' & Er);
      [lia..|eapply target_le; [exact Hta|lia]|rewrite Z2Nat.id by lia; lia|].
    exists r, k', t, s'. by rewrite Z.sub_0_r in Er.
Qed.
End Readi.

(** Into kernel memory. *)
Lemma readi_spec bs V i dst off n s :
  intx bs V ∅ s -> (length bs < NBUF)%nat -> file_ok V (ip_of s i) -> is_u32 off -> is_u32 n ->
  0 <= dst -> dst + n < 4294967296 ->
  let r := read_len (i_size (ip_of s i)) off n in
  exists s', readi i false dst off n s = Ok r s' /\ intx bs V ∅ s' /\
    tkept me (set_mem (store_bytes (mem s) dst (fbytes V (ip_of s i) off (Z.to_nat r))) s) s'.
Proof.
  intros HI Hn Hok Ho Hnn Hd1 Hd2.
  destruct (readi_any ∅ ∅ [] false bs V i dst off n s HI Hn Hok Ho Hnn) as (r & k & t & s' & E & I' & D' & K & [[-> Hk]|(_ & ? & _)]);
    [by split|..|done].
  exists s'. split; [exact E|]. split; [exact I'|]. unfold delivered in D'. rewrite take_ge in D' by (rewrite length_fbytes; lia).
  by rewrite <- D'.
Qed.
End File.
