(* ===== verification/FsWrite.v ===== *)
(** * Reading and writing files (bmap with allocation, readi, writei and iupdate
    of kernel/fs.c) *)
From S2P Require Import Prelude Memory Machine Platform Sv32 Spinlock Printf Kalloc Vm Proc Sleeplock Bio Log Fs Nemu.
From S2P Require Import ProcSpec SleepSpec NemuSpec BioSpec BioRefine LogSpec LogTx LogCrash VmSpec UserVm UserCopy FsTx FsAlloc FsFile.
From stdpp Require Import gmap strings countable prelude.

Open Scope Z_scope.

(** The indirect block. *)
Notation ind ip := (at_ (i_addrs ip) (Z.to_nat NDIRECT)).

Lemma at_replicate n k : at_ (replicate n 0) k = 0.
Proof. unfold at_. rewrite nth_lookup. destruct (replicate n 0 !! k) eqn:E; [|done]. by apply lookup_replicate in E as [-> _]. Qed.
Lemma u32_at_zero n k : u32_at (replicate n 0) k = 0.
Proof. unfold u32_at. by rewrite !at_replicate. Qed.

(** ** The inode on disk *)

Definition short (v : Z) : Prop := -32768 <= v < 32768.

Lemma put_u16_same d o v : (o + 2 <= length d)%nat -> u16_at (put_u16 d o (u16 v)) o = u16 v.
Proof.
  intros H. unfold u16_at, put_u16. rewrite !at_splice by done. cbn [length bytes_of_u16]. rewrite !decide_True by lia.
  replace (o - o)%nat with 0%nat by lia. replace (o + 1 - o)%nat with 1%nat by lia.
  unfold at_. cbn [nth bytes_of_u16]. unfold u8, u16. Z.div_mod_to_equations. lia.
Qed.
Lemma put_u16_u16 d o o' v : (o + 2 <= length d)%nat -> (o' + 2 <= o \/ o + 2 <= o')%nat ->
  u16_at (put_u16 d o v) o' = u16_at d o'.
Proof.
  intros H Hd. unfold u16_at, put_u16. rewrite !at_splice by done. cbn [length bytes_of_u16].
  by rewrite !decide_False by lia.
Qed.
(** A part that is not overwritten reads the same. *)
Lemma u16_at_splice d o v o' : (o + length v <= length d)%nat -> (o' + 2 <= o \/ o + length v <= o')%nat ->
  u16_at (splice d o v) o' = u16_at d o'.
Proof. intros H Hd. unfold u16_at. rewrite !at_splice by done. by rewrite !decide_False by lia. Qed.
Lemma u32_at_splice d o v o' : (o + length v <= length d)%nat -> (o' + 4 <= o \/ o + length v <= o')%nat ->
  u32_at (splice d o v) o' = u32_at d o'.
Proof. intros H Hd. unfold u32_at. rewrite !at_splice by done. by rewrite !decide_False by lia. Qed.
Lemma s16_u16 v : short v -> s16 (u16 v) = v.
Proof.
  unfold short, s16, u16. intros H. rewrite Z.mod_mod by lia.
  destruct (Z.ltb_spec (v mod 65536) 32768); Z.div_mod_to_equations; lia.
Qed.

Lemma length_words l : length (mjoin (bytes_of_u32 <$> l)) = (4 * length l)%nat.
Proof. 
  induction l as [|v l IH]; [done|].
  change (mjoin (bytes_of_u32 <$> v :: l)) with (bytes_of_u32 v ++ mjoin (bytes_of_u32 <$> l)).
  rewrite length_app, IH. cbn. lia.
Qed.
Lemma word_at l i : Forall is_u32 l -> (i < length l)%nat -> u32_at (mjoin (bytes_of_u32 <$> l)) (4 * i) = at_ l i.
Proof.
  revert i. induction l as [|v l IH]; intros i Hl Hi; [cbn in Hi; lia|]. apply Forall_cons in Hl as [Hv Hl].
  change (mjoin (bytes_of_u32 <$> v :: l)) with (bytes_of_u32 v ++ mjoin (bytes_of_u32 <$> l)). destruct i as [|i].
  - unfold u32_at, at_. cbn [nth bytes_of_u32 app plus Nat.mul]. unfold u8, is_u32 in *. Z.div_mod_to_equations. lia.
  - change (at_ (v :: l) (S i)) with (at_ l i). rewrite <- IH by (done || (cbn in Hi; lia)).
    unfold u32_at, at_. replace (4 * S i)%nat with (4 + 4 * i)%nat by lia. reflexivity.
Qed.

Record dinode_ok (ip : inode) : Prop := {
  do_type : short (i_type ip);
  do_major : short (i_major ip);
  do_minor : short (i_minor ip);
  do_nlink : short (i_nlink ip);
  do_size : is_u32 (i_size ip);
  do_addrs : length (i_addrs ip) = 13%nat /\ Forall is_u32 (i_addrs ip);
}.
(** What [iupdate] stores, [ilock] reads back. *)
Lemma dip_round_trip ip data o : dinode_ok ip -> (o + 64 <= length data)%nat -> dip_read (dip_write ip data o) o ip = ip.
Proof.
  intros [H1 H2 H3 H4 H5 [H6 H7]] Ho. destruct ip as [dev inum ref valid type major minor nlink size addrs].
  cbn [i_type i_major i_minor i_nlink i_size i_addrs] in *. unfold dip_write, dip_read.
  cbn [i_type i_major i_minor i_nlink i_size i_addrs].
  set (d1 := put_u16 data o _). set (d2 := put_u16 d1 _ _). set (d3 := put_u16 d2 _ _). set (d4 := put_u16 d3 _ _).
  set (d5 := put_u32 d4 _ _).
  assert (L1 : length d1 = length data) by (apply length_put_u16; lia).
  assert (L2 : length d2 = length data) by (unfold d2; rewrite length_put_u16; lia).
  assert (L3 : length d3 = length data) by (unfold d3; rewrite length_put_u16; lia).
  assert (L4 : length d4 = length data) by (unfold d4; rewrite length_put_u16; lia).
  assert (L5 : length d5 = length data) by (unfold d5; rewrite length_put_u32; lia).
  assert (Lw : length (mjoin (bytes_of_u32 <$> addrs)) = 52%nat) by (rewrite length_words, H6; done).
  assert (Hi : forall x, (x + 2 <= o + 12)%nat -> u16_at (splice d5 (o + 12) (mjoin (bytes_of_u32 <$> addrs))) x = u16_at d5 x).
  { intros x Hx. apply u16_at_splice; lia. }
  assert (H45 : forall x, (x + 2 <= o + 8)%nat -> u16_at d5 x = u16_at d4 x).
  { intros x Hx. apply u16_at_splice; cbn; lia. }
  assert (H34 : forall x, (x + 2 <= o + 6)%nat -> u16_at d4 x = u16_at d3 x) by (intros x Hx; apply put_u16_u16; lia).
  assert (H23 : forall x, (x + 2 <= o + 4)%nat -> u16_at d3 x = u16_at d2 x) by (intros x Hx; apply put_u16_u16; lia).
  assert (H12 : forall x, (x + 2 <= o + 2)%nat -> u16_at d2 x = u16_at d1 x) by (intros x Hx; apply put_u16_u16; lia).
  unfold set_i_addrs, set_i_size, set_i_nlink, set_i_minor, set_i_major, set_i_type.
  cbn [i_dev i_inum i_ref i_valid i_type i_major i_minor i_nlink i_size i_addrs]. f_equal.
  - rewrite Hi, H45, H34, H23, H12 by lia. unfold d1. rewrite put_u16_same by lia. by apply s16_u16.
  - rewrite Hi, H45, H34, H23 by lia. unfold d2. rewrite put_u16_same by lia. by apply s16_u16.
  - rewrite Hi, H45, H34 by lia. unfold d3. rewrite put_u16_same by lia. by apply s16_u16.
  - rewrite Hi, H45 by lia. unfold d4. rewrite put_u16_same by lia. by apply s16_u16.
  - rewrite u32_at_splice by lia. apply put_u32_same; [lia|done].
  - apply list_eq. intros i. rewrite list_lookup_fmap. destruct (decide (i < 13)%nat) as [Hlt|Hge].
    + rewrite (lookup_seq_lt _ _ _ Hlt). cbn [fmap option_fmap option_map plus].
      assert (Hat : addrs !! i = Some (at_ addrs i)).
      { unfold at_. rewrite nth_lookup. destruct (lookup_lt_is_Some_2 addrs i) as [x ->]; [lia|done]. }
      rewrite Hat. f_equal. rewrite <- (word_at addrs i H7) by lia. unfold u32_at. rewrite !at_splice by lia.
      rewrite !decide_True by lia. repeat f_equal; lia.
    + rewrite !lookup_ge_None_2; [done|lia|rewrite length_seq; lia].
Qed.

Section Write.
Context {L : Layout} {LO : LayoutOk L} {W : World} {D : DiskDriver} {DO : DiskOk D} {Ser : Serial} {SO : SerialOk Ser}.
Context (me : nat) (st sz : Z) (sb : superblock).
Notation intx := (intx me st sz).
(** The file system has one block of bitmap. *)
Hypothesis Hone : 0 < sb_size sb <= BPB.
Notation bm := (BBLOCK 0 sb).

Lemma one_bitmap V b : bitmap_ok st sb V -> 0 <= b < sb_size sb -> BBLOCK b sb = bm.
Proof using Hone.
  intros Hok Hb. rewrite (proj1 (bo_map _ _ _ Hok b Hb)), (proj1 (bo_map _ _ _ Hok 0 ltac:(lia))).
  rewrite !Z.div_small by lia. done.
Qed.

(** A block in use that is not the bitmap. *)
Definition used (V : Z -> list Z) (b : Z) : Prop :=
  0 < b < sb_size sb /\ marked sb V b = true /\ b <> bm /\ home st b.

(** An inode whose blocks are in use and all different. *)
Record wfile (V : Z -> list Z) (ip : inode) : Prop := {
  wf_dev : i_dev ip = ROOTDEV;
  wf_len : length (i_addrs ip) = 13%nat;
  wf_size : 0 <= i_size ip <= MAXFILE * BSIZE;
  wf_ind : ind ip <> 0 -> used V (ind ip);
  wf_blk : forall bn, 0 <= bn < MAXFILE -> baddr V ip bn <> 0 -> used V (baddr V ip bn) /\ baddr V ip bn <> ind ip;
  wf_inj : forall bn bn', 0 <= bn < MAXFILE -> 0 <= bn' < MAXFILE ->
    baddr V ip bn <> 0 -> baddr V ip bn = baddr V ip bn' -> bn = bn';
}.

(** A block in use by something else. *)
Definition foreign (V : Z -> list Z) (ip : inode) (b : Z) : Prop :=
  used V b /\ b <> ind ip /\ forall bn, 0 <= bn < MAXFILE -> baddr V ip bn <> b.

(** The file gets at most the block [bn] more. *)
Record grows (V : Z -> list Z) (ip : inode) (V' : Z -> list Z) (ip' : inode) (bn : Z) : Prop := {
  gr_ip : ip' = set_i_addrs (i_addrs ip') ip;
  gr_wf : wfile V' ip';
  gr_map : bitmap_ok st sb V';
  gr_other : forall bn', 0 <= bn' < MAXFILE -> bn' <> bn -> baddr V' ip' bn' = baddr V ip bn';
  gr_same : baddr V ip bn <> 0 -> baddr V' ip' bn = baddr V ip bn;
  gr_used : forall b, used V b -> used V' b /\ (b <> ind ip -> V' b = V b);
  gr_ind : ind ip <> 0 -> ind ip' = ind ip;
  gr_foreign : forall b, foreign V ip b -> foreign V' ip' b;
}.

Lemma grows_refl V ip bn : wfile V ip -> bitmap_ok st sb V -> grows V ip V ip bn.
Proof. intros. split; [by destruct ip|done|done|done|done|done|done|done]. Qed.

(** Inode [i] becomes [ip']; the rest as in a transaction. *)
Definition fstep (i : nat) (ip' : inode) (s s' : kstate) : Prop := tkept me (upd_inode i (fun _ => ip') s) s'.

Lemma tkept_upd_inode i f s s' : tkept me s s' -> tkept me (upd_inode i f s) (upd_inode i f s').
Proof.
  intros (l & t & -> & B & S & D' & T & M & U & N & P & Hw & ->).
  exists l, (upd_inode i f (set_bufs B (set_slocks S (set_disk D' (set_dtrace T (set_mmio M (set_uart U (set_nmmio N (set_procs P s))))))))).
  split; [done|]. by exists B, S, D', T, M, U, N, P.
Qed.
Lemma upd_inode_twice i f g s : upd_inode i f (upd_inode i g s) = upd_inode i (fun x => f (g x)) s.
Proof. unfold upd_inode. ksimp. by rewrite list_alter_alter_eq. Qed.
Lemma upd_inode_id i s : upd_inode i (fun _ => ip_of s i) s = s.
Proof.
  assert (E : alter (fun _ => ip_of s i) i (itable s) = itable s).
  { apply list_eq. intros j. destruct (decide (j = i)) as [->|Hne]; [|by rewrite list_lookup_alter_ne].
    rewrite list_lookup_alter_eq. unfold ip_of. by destruct (itable s !! i). }
  unfold upd_inode. rewrite E. by destruct s.
Qed.
Lemma fstep_tkept i s s' : tkept me s s' -> fstep i (ip_of s i) s s'.
Proof. intros K. unfold fstep. by rewrite upd_inode_id. Qed.
Lemma fstep_trans i ip1 ip2 s s1 s2 : fstep i ip1 s s1 -> fstep i ip2 s1 s2 -> fstep i ip2 s s2.
Proof.
  unfold fstep. intros H1 H2. apply (tkept_upd_inode i (fun _ => ip2)) in H1. rewrite upd_inode_twice in H1.
  by eapply tkept_trans.
Qed.
Lemma fstep_ip i ip' s s' : is_Some (itable s !! i) -> fstep i ip' s s' -> ip_of s' i = ip' /\ is_Some (itable s' !! i).
Proof.
  intros [x Hx] K. unfold ip_of. rewrite (tkept_itable _ _ _ K). unfold upd_inode. ksimp.
  rewrite list_lookup_alter_eq, Hx. split; [done|by eexists].
Qed.
Lemma fstep_sblk i ip' s s' : fstep i ip' s s' -> sblk s' = sblk s.
Proof. intros K. by rewrite (tkept_sblk _ _ _ K). Qed.
Lemma fstep_mem i ip' s s' : fstep i ip' s s' -> mem s' = mem s.
Proof. intros K. by rewrite (tkept_mem _ _ _ K). Qed.
Lemma intx_upd_inode bs V H i f s : intx bs V H s -> intx bs V H (upd_inode i f s).
Proof.
  intros HI. apply (intx_same me st sz bs V H s); [by split_and!|done| |done].
  destruct (it_ctx _ _ _ _ _ _ _ HI) as [[] ? ? ? ?]. by split.
Qed.

(** ** A new block *)

(** A block that was free is none of those in use. *)
Lemma used_not_free V b r : used V b -> marked sb V r = false -> b <> r.
Proof. intros (_ & Hm & _) Hf ->. congruence. Qed.

Section NewBlock.
Context (V : Z -> list Z) (r : Z).
Hypothesis Hlen : forall b, length (V b) = Z.to_nat BSIZE.
Hypothesis Hok : bitmap_ok st sb V.
Hypothesis Hff : first_free sb V r.
Notation V' := (balloc_view sb r V).

Lemma new_used : used V' r.
Proof using All.
  destruct Hff as (Hr & Hf & _). destruct (bo_free _ _ _ Hok r Hr Hf) as (Hh & Hnz & Hnb).
  split; [lia|]. split; [rewrite (balloc_view_marked st) by done; by rewrite decide_True|]. split; [apply Hnb; lia|done].
Qed.
Lemma new_old b : used V b -> used V' b /\ V' b = V b.
Proof using All.
  intros Hu. pose proof Hff as (Hr & Hf & _). pose proof (used_not_free V b r Hu Hf) as Hne. destruct Hu as (H1 & H2 & H3 & H4).
  split.
  - split; [done|]. split; [rewrite (balloc_view_marked st) by (done || lia); by case_decide|done].
  - apply balloc_view_other; [done|]. by rewrite (one_bitmap V r).
Qed.
(** Block numbers of a file that was there read the same. *)
Lemma new_baddr ip bn : wfile V ip -> baddr V' ip bn = baddr V ip bn.
Proof using All.
  intros Hwf. unfold baddr. destruct (bn <? NDIRECT); [done|]. destruct (Z.eqb_spec (ind ip) 0); [done|].
  by rewrite (proj2 (new_old (ind ip) (wf_ind _ _ Hwf ltac:(done)))).
Qed.
Lemma new_wfile ip : wfile V ip -> wfile V' ip.
Proof using All.
  intros Hwf. pose proof (new_baddr ip) as Hb. pose proof Hwf as [H1 H2 H3 H4 H5 H6]. split; [done|done|done| | |].
  - intros Hnz. by apply new_old, H4.
  - intros bn Hbn. rewrite Hb by done. intros Hnz. destruct (H5 bn Hbn Hnz). split; [by apply new_old|done].
  - intros bn bn' Hbn Hbn'. rewrite !Hb by done. by apply H6.
Qed.

(** The block goes into a slot of the inode that was empty. *)
Lemma at_addrs ip k v j : length (i_addrs ip) = 13%nat -> (k < 13)%nat ->
  at_ (<[k := v]> (i_addrs ip)) j = if decide (j = k) then v else at_ (i_addrs ip) j.
Proof. intros Hl Hk. apply at_insert. by rewrite Hl. Qed.

Lemma slot_direct ip bn : wfile V ip -> 0 <= bn < NDIRECT -> baddr V ip bn = 0 ->
  let ip' := set_i_addrs (<[Z.to_nat bn := r]> (i_addrs ip)) ip in
  grows V ip V' ip' bn /\ baddr V' ip' bn = r.
Proof using All.
  intros Hwf Hbn Hz ip'. pose proof (new_wfile ip Hwf) as Hwf'. pose proof new_used as Hr.
  assert (Hat : forall j, at_ (i_addrs ip') j = if decide (j = Z.to_nat bn) then r else at_ (i_addrs ip) j).
  { intros j. apply at_addrs; [apply Hwf|unfold NDIRECT in Hbn; lia]. }
  assert (Hind : ind ip' = ind ip) by (rewrite Hat, decide_False; [done|unfold NDIRECT in *; lia]).
  assert (Hb : forall x, 0 <= x < MAXFILE -> baddr V' ip' x = if decide (x = bn) then r else baddr V ip x).
  { intros x Hx. rewrite <- (new_baddr ip x Hwf). unfold baddr. rewrite Hind. destruct (Z.ltb_spec x NDIRECT) as [Hlt|Hge].
    - rewrite Hat. by destruct (decide (x = bn)) as [->|Hne]; [rewrite decide_True|rewrite decide_False by lia].
    - rewrite decide_False by lia. done. }
  assert (Hold : forall x, 0 <= x < MAXFILE -> baddr V ip x <> 0 -> baddr V ip x <> r).
  { intros x Hx Hnz. apply (used_not_free V); [by apply (wf_blk _ _ Hwf)|apply Hff]. }
  assert (HM : NDIRECT <= MAXFILE) by (unfold MAXFILE, NINDIRECT; lia).
  split; [|rewrite Hb by lia; by rewrite decide_True]. split.
  - done.
  - destruct Hwf' as [W1 W2 W3 W4 W5 W6]. split; [done|by unfold ip'; cbn; rewrite length_insert|done|by rewrite Hind| |].
    + intros x Hx. rewrite Hb, Hind by done. case_decide as Ex.
      * intros _. split; [done|]. intros E. destruct (decide (ind ip = 0)) as [E0|E0].
        -- destruct Hr as [Hr0 _]. lia.
        -- by apply (used_not_free V (ind ip) r); [apply (wf_ind _ _ Hwf)|apply Hff|].
      * intros Hnz. destruct (wf_blk _ _ Hwf x Hx Hnz). split; [by apply new_old|done].
    + intros x x' Hx Hx'. rewrite !Hb by done. case_decide as E1; case_decide as E2; [congruence| | |].
      * intros _ E. exfalso. apply (Hold x' Hx'); [|done]. rewrite <- E. destruct Hr as [Hr0 _]. lia.
      * intros Hnz E. exfalso. by apply (Hold x Hx).
      * by apply (wf_inj _ _ Hwf).
  - by apply balloc_view_ok; [done|done|apply Hff..].
  - intros x Hx Hne. rewrite Hb by done. by rewrite decide_False.
  - done.
  - intros b Hu. destruct (new_old b Hu). done.
  - done.
  - intros b (Hu & Hi & Hx). split; [by apply new_old|]. rewrite Hind. split; [done|]. intros x Hxr. rewrite Hb by done.
    case_decide; [|by apply Hx]. apply not_eq_sym. by apply (used_not_free V); [|apply Hff].
Qed.

(** It becomes the indirect block. *)
Lemma slot_indirect ip bn : wfile V ip -> ind ip = 0 -> 0 <= bn < MAXFILE ->
  let ip' := set_i_addrs (<[Z.to_nat NDIRECT := r]> (i_addrs ip)) ip in
  grows V ip V' ip' bn /\ ind ip' = r /\ forall x, 0 <= x < MAXFILE -> baddr V' ip' x = baddr V ip x.
Proof using All.
  intros Hwf Hz Hbn ip'. pose proof (new_wfile ip Hwf) as Hwf'. pose proof new_used as Hr.
  assert (Hat : forall j, at_ (i_addrs ip') j = if decide (j = Z.to_nat NDIRECT) then r else at_ (i_addrs ip) j).
  { intros j. apply at_addrs; [apply Hwf|unfold NDIRECT; lia]. }
  assert (Hind : ind ip' = r) by (by rewrite Hat, decide_True).
  assert (Hb : forall x, 0 <= x < MAXFILE -> baddr V' ip' x = baddr V ip x).
  { intros x Hx. unfold baddr. rewrite Hind, Hz. destruct (Z.ltb_spec x NDIRECT) as [Hlt|Hge].
    - by rewrite Hat, decide_False by lia.
    - cbn [Z.eqb]. rewrite balloc_view_new, u32_at_zero. by destruct (r =? 0). }
  assert (Hold : forall x, 0 <= x < MAXFILE -> baddr V ip x <> 0 -> baddr V ip x <> r).
  { intros x Hx Hnz. apply (used_not_free V); [by apply (wf_blk _ _ Hwf)|apply Hff]. }
  split; [|done]. split.
  - done.
  - destruct Hwf' as [W1 W2 W3 W4 W5 W6].
    split; [done|by unfold ip'; cbn; rewrite length_insert|done|by rewrite Hind| |].
    + intros x Hx. rewrite Hb, Hind by done. intros Hnz. destruct (wf_blk _ _ Hwf x Hx Hnz).
      split; [by apply new_old|by apply Hold].
    + intros x x' Hx Hx'. rewrite !Hb by done. by apply (wf_inj _ _ Hwf).
  - by apply balloc_view_ok; [done|done|apply Hff..].
  - intros x Hx Hne. by apply Hb.
  - intros _. by apply Hb.
  - intros b Hu. destruct (new_old b Hu). done.
  - done.
  - intros b (Hu & Hi & Hx). split; [by apply new_old|]. rewrite Hind. split; [by apply (used_not_free V); [|apply Hff]|].
    intros x Hxr. rewrite Hb by done. by apply Hx.
Qed.

(** It is entered into the indirect block. *)
Lemma marked_vset_ne (U : Z -> list Z) x d b : bitmap_ok st sb U -> x <> bm -> 0 <= b < sb_size sb ->
  marked sb (vset x d U) b = marked sb U b.
Proof using Hone.
  intros HU Hx Hb. unfold marked, vset. rewrite decide_False; [done|]. by rewrite (one_bitmap U b HU Hb).
Qed.
Lemma used_vset (U : Z -> list Z) x d b : bitmap_ok st sb U -> x <> bm -> used U b -> used (vset x d U) b.
Proof using Hone. intros HU Hx (H1 & H2 & H3 & H4). split; [done|]. split; [|done]. rewrite marked_vset_ne; (done || lia). Qed.

Definition entry (bn : Z) : nat := Z.to_nat (4 * (bn - NDIRECT)).
Lemma slot_entry ip bn : wfile V ip -> ind ip <> 0 -> NDIRECT <= bn < MAXFILE -> baddr V ip bn = 0 ->
  let V2 := vset (ind ip) (put_u32 (V' (ind ip)) (entry bn) r) V' in
  grows V ip V2 ip bn /\ baddr V2 ip bn = r.
Proof using All.
  intros Hwf Hnz Hbn Hz V2. pose proof new_used as Hr. destruct Hff as (Hr0 & Hf & _).
  pose proof (wf_ind _ _ Hwf Hnz) as Hui. destruct (new_old _ Hui) as [Hui' Ei].
  assert (Hok' : bitmap_ok st sb V') by (by apply balloc_view_ok).
  assert (Hpos : forall x, NDIRECT <= x < MAXFILE -> (entry x + 4 <= length (V' (ind ip)))%nat).
  { intros x Hx. rewrite Ei, Hlen. unfold entry, MAXFILE, NDIRECT, NINDIRECT, BSIZE in *. lia. }
  assert (Ur : is_u32 r) by (pose proof (bo_size _ _ _ Hok); unfold is_u32; lia).
  assert (Hb : forall x, 0 <= x < MAXFILE -> baddr V2 ip x = if decide (x = bn) then r else baddr V ip x).
  { intros x Hx. rewrite <- (new_baddr ip x Hwf). unfold baddr. destruct (Z.ltb_spec x NDIRECT) as [Hlt|Hge].
    - by rewrite decide_False by lia.
    - rewrite (proj2 (Z.eqb_neq _ _)) by done. unfold V2, vset at 1. rewrite decide_True by done.
      destruct (decide (x = bn)) as [->|Hne]; [apply put_u32_same; [apply Hpos; lia|done]|].
      apply put_u32_other; [by apply Hpos|]. unfold entry. lia. }
  assert (Hu : forall b, used V b -> used V2 b) by (intros b Hb'; apply used_vset; [done|apply Hui|by apply new_old]).
  assert (Hr2 : used V2 r) by (apply used_vset; [done|apply Hui|done]).
  assert (Hold : forall x, 0 <= x < MAXFILE -> baddr V ip x <> 0 -> baddr V ip x <> r).
  { intros x Hx Hxnz. by apply (used_not_free V); [apply (wf_blk _ _ Hwf)|]. }
  assert (HN : 0 <= NDIRECT) by (unfold NDIRECT; lia).
  split; [|rewrite Hb by lia; by rewrite decide_True]. split.
  - by destruct ip.
  - destruct Hwf as [W1 W2 W3 W4 W5 W6]. split; [done|done|done|intros; by apply Hu, W4| |].
    + intros x Hx. rewrite Hb by done. case_decide as Ex.
      * intros _. split; [done|]. apply not_eq_sym. by apply (used_not_free V).
      * intros Hxnz. destruct (W5 x Hx Hxnz). split; [by apply Hu|done].
    + intros x x' Hx Hx'. rewrite !Hb by done. case_decide as E1; case_decide as E2; [congruence| | |].
      * intros _ E. exfalso. apply (Hold x' Hx'); [|done]. rewrite <- E. destruct Hr as [Hr1 _]. lia.
      * intros Hxnz E. exfalso. by apply (Hold x Hx).
      * by apply W6.
  - apply (bitmap_ok_vset st sb V'); [done|]. intros x Hx. unfold V2. by rewrite marked_vset_ne by (done || apply Hui).
  - intros x Hx Hne. rewrite Hb by done. by rewrite decide_False.
  - done.
  - intros b Hub. split; [by apply Hu|]. intros Hne. unfold V2, vset at 1. rewrite decide_False by done. by apply new_old.
  - done.
  - intros b (Hub & Hi & Hx). split; [by apply Hu|]. split; [done|]. intros x Hxr. rewrite Hb by done.
    case_decide; [|by apply Hx]. apply not_eq_sym. by apply (used_not_free V).
Qed.
End NewBlock.

(** ** bmap *)

(** Room in the log: the blocks logged, the bitmap and the indirect block, with
    one more for an indirect block still to come. *)
Definition weight (bs : list Z) (ip : inode) : nat :=
  size (list_to_set bs ∪ {[bm]} ∪ (if decide (ind ip = 0) then ∅ else {[ind ip]}) : gset Z) +
  (if decide (ind ip = 0) then 1 else 0).
(** What a step may log besides: the bitmap, the indirect block and [r]. *)
Definition logs (bs bs' : list Z) (ip' : inode) (r : Z) : Prop :=
  forall b, b ∈ bs' -> b ∈ bs \/ b = bm \/ (b = ind ip' /\ ind ip' <> 0) \/ (b = r /\ r <> 0).

Lemma weight_le bs ip : NoDup bs -> (length bs <= weight bs ip)%nat.
Proof.
  intros Hnd. unfold weight. rewrite <- (size_list_to_set (C := gset Z) bs Hnd).
  etrans; [|apply Nat.le_add_r]. apply subseteq_size. set_solver.
Qed.
Lemma weight_logs bs bs' ip ip' r : logs bs bs' ip' r -> (ind ip <> 0 -> ind ip' = ind ip) ->
  (weight bs' ip' <= weight bs ip + (if decide (r = 0%Z) then 0 else 1))%nat.
Proof.
  intros Hl Hi. unfold weight.
  set (X := list_to_set bs ∪ {[bm]} ∪ (if decide (ind ip = 0) then ∅ else {[ind ip]}) : gset Z).
  set (R := if decide (r = 0) then ∅ else {[r]} : gset Z).
  set (N := if decide (ind ip = 0) then (if decide (ind ip' = 0) then ∅ else {[ind ip']}) else ∅ : gset Z).
  assert (Hs : list_to_set bs' ∪ {[bm]} ∪ (if decide (ind ip' = 0) then ∅ else {[ind ip']}) ⊆ X ∪ N ∪ R).
  { unfold X, N, R. intros b Hb. repeat case_decide; set_unfold; destruct_or! Hb; try (destruct (Hl b Hb) as [?|[?|[[]|[]]]]); intuition congruence. }
  apply subseteq_size in Hs. pose proof (size_union_alt (X ∪ N) R). pose proof (size_union_alt X N).
  pose proof (subseteq_size (R ∖ (X ∪ N)) R ltac:(set_solver)). pose proof (subseteq_size (N ∖ X) N ltac:(set_solver)).
  assert (size R = if decide (r = 0) then 0%nat else 1%nat) by (unfold R; destruct (decide (r = 0)); [apply size_empty|apply size_singleton]).
  assert (size N + (if decide (ind ip' = 0%Z) then 1 else 0) = if decide (ind ip = 0%Z) then 1 else 0)%nat.
  { unfold N. destruct (decide (ind ip = 0)) as [E|E]; [|rewrite (Hi E), decide_False by done; by rewrite size_empty].
    destruct (decide (ind ip' = 0)); [by rewrite size_empty|by rewrite size_singleton]. }
  lia.
Qed.

(** Inode [i] is [ip], a file of a file system in a transaction. *)
Record fready (bs : list Z) (V : Z -> list Z) (ip : inode) (i : nat) (s : kstate) : Prop := {
  fr_tx : intx bs V ∅ s;
  fr_sb : sblk s = sb;
  fr_map : bitmap_ok st sb V;
  fr_wf : wfile V ip;
  fr_ip : ip_of s i = ip;
  fr_some : is_Some (itable s !! i);
  fr_sz : sz <= LOGSIZE;
}.
Lemma fready_len bs V ip i s b : fready bs V ip i s -> length (V b) = Z.to_nat BSIZE.
Proof. intros H. eapply tx_len, H. Qed.
Lemma fready_nodup bs V ip i s : fready bs V ip i s -> NoDup bs.
Proof. intros H. eapply ho_nodup, it_homes, H. Qed.
Lemma fready_step bs V ip i s bs' V' ip' bn s' : fready bs V ip i s -> fstep i ip' s s' -> intx bs' V' ∅ s' ->
  grows V ip V' ip' bn -> fready bs' V' ip' i s'.
Proof.
  intros [H1 H2 H3 H4 H5 H6 H7] K HI G. destruct (fstep_ip _ _ _ _ H6 K). split; try done; [|apply G|apply G].
  by rewrite (fstep_sblk _ _ _ _ K).
Qed.

(** There is room for [k] more blocks. *)
Definition space (k : Z) (bs : list Z) (ip : inode) : Prop := Z.of_nat (weight bs ip) + k < sz - 1.
Lemma space_room2 bs V ip i s (H : gmap Z nat) : fready bs V ip i s -> space 1 bs ip -> (size H <= 1)%nat -> room2 sz bs H.
Proof.
  intros HF Hs HH. pose proof (weight_le bs ip (fready_nodup _ _ _ _ _ HF)). pose proof (fr_sz _ _ _ _ _ HF).
  unfold room2, space, NBUF, LOGSIZE, MAXOPBLOCKS in *. split_and!; lia.
Qed.

(** An empty slot of the inode is filled with a new block. *)
Definition alloc_slot (i : nat) (k : nat) (dev : Z) : K Z :=
  addr ← balloc dev;
  if addr =? 0 then mret 0 else
  iset i (fun ip => set_i_addrs (<[k := addr]> (i_addrs ip)) ip) ;;
  mret addr.
Lemma alloc_slot_spec bs V ip i s k : fready bs V ip i s -> space 1 bs ip ->
  exists r s', alloc_slot i k ROOTDEV s = Ok r s' /\
    ((r = 0 /\ all_marked sb V /\ intx bs V ∅ s' /\ tkept me s s') \/
     (first_free sb V r /\ r <> 0 /\ intx (log_add (log_add bs bm) r) (balloc_view sb r V) ∅ s' /\
      fstep i (set_i_addrs (<[k := r]> (i_addrs ip)) ip) s s')).
Proof using All.
  intros HF Hsp. pose proof HF as [HI Hsb Hok Hwf Hip Hsome Hsz].
  destruct (balloc_spec me st sz sb bs V ∅ s HI Hsb Hok) as (r & s1 & E1 & K1 & Hr).
  { intros b Hb. by rewrite !lookup_empty. } { eapply space_room2; [done|done|rewrite map_size_empty; lia]. }
  unfold alloc_slot. rewrite (bind_ok _ _ _ _ _ E1). destruct Hr as [(-> & Hall & I1)|[Hff I1]].
  - exists 0, s1. cbn. split; [done|]. by left.
  - pose proof Hff as (Hr & Hf & _). destruct (bo_free _ _ _ Hok r Hr Hf) as (_ & Hnz & _).
    rewrite (proj2 (Z.eqb_neq _ _)) by done.
    exists r, (upd_inode i (fun ip => set_i_addrs (<[k := r]> (i_addrs ip)) ip) s1). split; [done|]. right.
    split; [done|]. split; [done|]. split.
    + rewrite (one_bitmap V r) in I1 by done. by apply intx_upd_inode.
    + unfold fstep. assert (E : upd_inode i (fun ip => set_i_addrs (<[k := r]> (i_addrs ip)) ip) s1 =
        upd_inode i (fun _ => set_i_addrs (<[k := r]> (i_addrs ip)) ip) s1).
      { unfold upd_inode. f_equal. apply list_alter_ext; [|done]. intros x Hx. rewrite <- Hip, <- (tkept_ip me s s1 i K1).
        unfold ip_of. by rewrite Hx. }
      rewrite E. by apply tkept_upd_inode.
Qed.

(** What [bmap] gives. *)
Definition mapped (bs : list Z) (V : Z -> list Z) (ip : inode) (i : nat) (bn : Z) (s : kstate) (r : Z) (s' : kstate) : Prop :=
  exists bs' V' ip', fready bs' V' ip' i s' /\ fstep i ip' s s' /\ grows V ip V' ip' bn /\ baddr V' ip' bn = r /\
    logs bs bs' ip' r /\ (r = 0 -> all_marked sb V').

Lemma logs_new bs ip' r : r <> 0 -> logs bs (log_add (log_add bs bm) r) ip' r.
Proof. intros Hr b Hb. rewrite !elem_of_log_add in Hb. intuition. Qed.
Lemma logs_refl bs ip' r : logs bs bs ip' r.
Proof. intros b Hb. by left. Qed.

(** The second half of [bmap]: the entry in the indirect block. *)
Definition bmap_entry (dev addr bn : Z) : K Z :=
  bp ← bread dev addr;
  data ← bget_field bp b_data;
  let addr := u32_at data (entry bn) in
  addr ← (if addr =? 0 then
            addr ← balloc dev;
            (if negb (addr =? 0) then
               bset bp (fun b => set_b_data (put_u32 (b_data b) (entry bn) addr) b) ;;
               log_write bp
             else mret tt) ;;
            mret addr
          else mret addr);
  brelse bp ;;
  mret addr.

Lemma unheld_ind V ip j : bitmap_ok st sb V -> wfile V ip -> ind ip <> 0 -> unheld sb V {[ind ip := j]}.
Proof using Hone.
  intros Hok Hwf Hnz b Hb. pose proof (wf_ind _ _ Hwf Hnz) as Hu. split.
  - rewrite lookup_singleton_ne; [done|]. rewrite (one_bitmap V) by done. apply Hu.
  - intros Hf. rewrite lookup_singleton_ne; [done|]. by apply (used_not_free V).
Qed.

Lemma bmap_entry_spec bs V ip i s bn : fready bs V ip i s -> space 1 bs ip -> ind ip <> 0 -> NDIRECT <= bn < MAXFILE ->
  exists r s', bmap_entry ROOTDEV (ind ip) bn s = Ok r s' /\ mapped bs V ip i bn s r s'.
Proof using All.
  intros HF Hsp Hnz Hbn. pose proof HF as [HI Hsb Hok Hwf Hip Hsome Hsz]. pose proof (wf_ind _ _ Hwf Hnz) as Hu.
  assert (Hbs : (length bs + size (∅ : gmap Z nat) < NBUF)%nat).
  { pose proof (space_room2 _ _ _ _ _ ∅ HF Hsp ltac:(rewrite map_size_empty; lia)) as (? & ? & ?). lia. }
  destruct (tx_bread me st sz bs V ∅ s (ind ip) HI (lookup_empty _) ltac:(destruct Hu as (_ & _ & _ & [? _]); unfold is_u32; lia) Hbs)
    as (j & s1 & E1 & I1 & K1). rewrite insert_empty in I1.
  assert (Hj : ({[ind ip := j]} : gmap Z nat) !! ind ip = Some j) by apply lookup_singleton_eq.
  unfold bmap_entry. rewrite (bind_ok _ _ _ _ _ E1), (tx_get me st sz _ _ _ _ _ _ _ I1 Hj).
  assert (Eb : u32_at (V (ind ip)) (entry bn) = baddr V ip bn).
  { unfold baddr. rewrite (proj2 (Z.ltb_ge _ _)) by lia. by rewrite (proj2 (Z.eqb_neq _ _)). }
  rewrite Eb. destruct (Z.eqb_spec (baddr V ip bn) 0) as [Hz|Hbnz].
  - destruct (balloc_spec me st sz sb bs V _ s1 I1) as (r & s2 & E2 & K2 & Hr); [by rewrite (tkept_sblk _ _ _ K1)|done|by apply unheld_ind|..].
    { eapply space_room2; [done|done|by rewrite map_size_singleton]. }
    pose proof (tkept_trans _ _ _ _ K1 K2) as K12. rewrite bind_assoc, (bind_ok _ _ _ _ _ E2), bind_assoc.
    destruct Hr as [(-> & Hall & I2)|[Hff I2]].
    + cbn [Z.eqb negb]. rewrite !bind_ret.
      destruct (tx_brelse me st sz _ _ _ s2 _ j I2 Hj) as (s3 & E3 & I3 & K3). rewrite delete_singleton_eq in I3.
      exists 0, s3. rewrite (bind_ok _ _ _ _ _ E3). split; [done|].
      assert (K : fstep i ip s s3) by (rewrite <- Hip; apply fstep_tkept; by eapply tkept_trans).
      exists bs, V, ip. pose proof (grows_refl V ip bn Hwf Hok) as G.
      split_and!; [by eapply fready_step|done|done|done|apply logs_refl|done].
    + pose proof Hff as (Hr & Hf & _). destruct (bo_free _ _ _ Hok r Hr Hf) as (_ & Hrnz & _).
      rewrite (one_bitmap V r) in I2 by done. rewrite (proj2 (Z.eqb_neq _ _)) by done. cbn [negb].
      assert (Hlen : forall b, length (V b) = Z.to_nat BSIZE) by (intros b; by eapply fready_len).
      assert (Hw : (weight (log_add (log_add bs bm) r) ip <= weight bs ip + 1)%nat).
      { pose proof (weight_logs bs _ ip ip r (logs_new bs ip r Hrnz) ltac:(done)) as Hw. by rewrite decide_False in Hw by done. }
      pose proof (weight_le (log_add (log_add bs bm) r) ip (ho_nodup _ _ (it_homes _ _ _ _ _ _ _ I2))).
      destruct (tx_log me st sz _ _ _ s2 (ind ip) j (fun d => put_u32 d (entry bn) r) I2 Hj) as (s3 & E3 & I3 & K3);
        [apply Hu| |unfold space in Hsp; lia|done|].
      { by rewrite length_put_u32, (tx_len me st sz _ _ _ _ (ind ip) I2). }
      rewrite (bind_ok _ _ _ _ _ E3), bind_ret.
      destruct (tx_brelse me st sz _ _ _ s3 _ j I3 Hj) as (s4 & E4 & I4 & K4). rewrite delete_singleton_eq in I4.
      exists r, s4. rewrite (bind_ok _ _ _ _ _ E4). split; [done|].
      destruct (slot_entry V r Hlen Hok Hff ip bn Hwf Hnz Hbn Hz) as [G Hb].
      assert (K : fstep i ip s s4) by (rewrite <- Hip; apply fstep_tkept; eapply tkept_trans; [exact K12|]; by eapply tkept_trans).
      eexists _, _, ip. split; [eapply fready_step; [exact HF|exact K|exact I4|exact G]|].
      split; [done|]. split; [exact G|]. split; [exact Hb|]. split; [|done].
      intros b Hb'. rewrite !elem_of_log_add in Hb'. intuition.
  - rewrite bind_ret. destruct (tx_brelse me st sz _ _ _ s1 _ j I1 Hj) as (s2 & E2 & I2 & K2). rewrite delete_singleton_eq in I2.
    exists (baddr V ip bn), s2. rewrite (bind_ok _ _ _ _ _ E2). split; [done|].
    assert (K : fstep i ip s s2) by (rewrite <- Hip; apply fstep_tkept; by eapply tkept_trans).
    exists bs, V, ip. pose proof (grows_refl V ip bn Hwf Hok) as G.
    split_and!; [by eapply fready_step|done|done|done|apply logs_refl|done].
Qed.

Lemma mapped_trans bs V ip i bn s bs1 V1 ip1 s1 r s2 : fstep i ip1 s s1 -> grows V ip V1 ip1 bn ->
  (forall x, 0 <= x < MAXFILE -> baddr V1 ip1 x = baddr V ip x) -> 0 <= bn < MAXFILE ->
  (forall b, b ∈ bs1 -> b ∈ bs \/ b = bm \/ b = ind ip1) -> ind ip1 <> 0 -> (forall b, used V b -> b <> ind ip1) ->
  mapped bs1 V1 ip1 i bn s1 r s2 -> mapped bs V ip i bn s r s2.
Proof.
  intros K1 G1 Hb Hbn Hl Hnz Hfresh (bs2 & V2 & ip2 & F2 & K2 & G2 & Hr & Hl2 & Ha).
  exists bs2, V2, ip2. split; [done|]. split; [by eapply fstep_trans|]. split; [|split; [done|split; [|done]]].
  - destruct G1 as [A1 A2 A3 A4 A5 A6 A7 A8], G2 as [B1 B2 B3 B4 B5 B6 B7 B8]. split; [|done|done| | | | |auto].
    + rewrite B1, A1. by destruct ip.
    + intros x Hx Hne. by rewrite B4, Hb.
    + intros Hx. rewrite B5, Hb by (rewrite ?Hb; done). done.
    + intros b Hu. destruct (A6 b Hu) as [Hu1 E1]. destruct (B6 b Hu1) as [Hu2 E2]. split; [done|].
      intros Hne. rewrite E2 by (by apply Hfresh). by apply E1.
    + intros Hx. rewrite B7; [by apply A7|done].
  - intros b Hb2. destruct (Hl2 b Hb2) as [H1|H1]; [|by right]. destruct (Hl b H1) as [?|[?| ->]]; [by left|by right; left|].
    right. right. left. by rewrite (gr_ind _ _ _ _ _ G2).
Qed.

Lemma bmap_spec bs V ip i s bn : fready bs V ip i s -> space 1 bs ip -> 0 <= bn < MAXFILE ->
  exists r s', bmap i bn s = Ok r s' /\ mapped bs V ip i bn s r s'.
Proof using All.
  intros HF Hsp Hbn. pose proof HF as [HI Hsb Hok Hwf Hip Hsome Hsz].
  assert (Hlen : forall b, length (V b) = Z.to_nat BSIZE) by (intros b; by eapply fready_len).
  assert (Hsame : forall r, baddr V ip bn = r -> (r = 0 -> all_marked sb V) ->
    forall s', tkept me s s' -> intx bs V ∅ s' -> mapped bs V ip i bn s r s').
  { intros r Hr Ha s' K I'. assert (K' : fstep i ip s s') by (rewrite <- Hip; by apply fstep_tkept).
    exists bs, V, ip. pose proof (grows_refl V ip bn Hwf Hok).
    split_and!; [by eapply fready_step|done|done|done|apply logs_refl|done]. }
  unfold bmap. rewrite bind_gets, Hip, (wf_dev _ _ Hwf). destruct (Z.ltb_spec bn NDIRECT) as [Hlt|Hge].
  - assert (Eb : at_ (i_addrs ip) (Z.to_nat bn) = baddr V ip bn) by (unfold baddr; by rewrite (proj2 (Z.ltb_lt _ _))).
    rewrite Eb. destruct (Z.eqb_spec (baddr V ip bn) 0) as [Hz|Hnz].
    + destruct (alloc_slot_spec bs V ip i s (Z.to_nat bn) HF Hsp) as (r & s1 & E1 & Hr). exists r, s1. split; [exact E1|].
      destruct Hr as [(-> & Hall & I1 & K1)|(Hff & Hrnz & I1 & K1)]; [by apply Hsame|].
      destruct (slot_direct V r Hlen Hok Hff ip bn Hwf ltac:(lia) Hz) as [G Hb].
      eexists _, _, _. split; [eapply fready_step; [exact HF|exact K1|exact I1|exact G]|].
      split; [exact K1|]. split; [exact G|]. split; [exact Hb|]. split; [by apply logs_new|done].
    + exists (baddr V ip bn), s. split; [done|]. by apply Hsame; [done|done|apply tkept_refl|].
  - rewrite (proj2 (Z.ltb_lt _ _)) by (unfold MAXFILE in Hbn; lia).
    assert (Htail : forall a s1, (bp ← bread ROOTDEV a;
      data ← bget_field bp b_data;
      let addr := u32_at data (Z.to_nat (4 * (bn - NDIRECT))) in
      addr ← (if addr =? 0 then
                addr ← balloc ROOTDEV;
                (if negb (addr =? 0) then
                   bset bp (fun b => set_b_data (put_u32 (b_data b) (Z.to_nat (4 * (bn - NDIRECT))) addr) b) ;;
                   log_write bp
                 else mret tt) ;;
                mret addr
              else mret addr);
      brelse bp ;;
      mret addr) s1 = bmap_entry ROOTDEV a bn s1) by done.
    destruct (Z.eqb_spec (ind ip) 0) as [Hz|Hnz].
    + destruct (alloc_slot_spec bs V ip i s (Z.to_nat NDIRECT) HF Hsp) as (a & s1 & E1 & Hr).
      unfold alloc_slot in E1. rewrite (bind_ok _ _ _ _ _ E1).
      assert (Hbz : baddr V ip bn = 0) by (unfold baddr; rewrite (proj2 (Z.ltb_ge _ _)) by lia; by rewrite Hz).
      destruct Hr as [(-> & Hall & I1 & K1)|(Hff & Hrnz & I1 & K1)].
      * exists 0, s1. split; [done|]. by apply Hsame.
      * rewrite (proj2 (Z.eqb_neq _ _)) by done. rewrite Htail.
        destruct (slot_indirect V a Hlen Hok Hff ip bn Hwf Hz Hbn) as (G & Hind & Hb).
        set (ip1 := set_i_addrs _ ip) in *. pose proof (fready_step _ _ _ _ _ _ _ _ _ _ HF K1 I1 G) as F1.
        assert (Hl : forall b, b ∈ log_add (log_add bs bm) a -> b ∈ bs \/ b = bm \/ b = ind ip1).
        { intros b Hb'. rewrite !elem_of_log_add in Hb'. rewrite Hind. intuition. }
        assert (Hsp1 : space 1 (log_add (log_add bs bm) a) ip1).
        { assert (Hlg : logs bs (log_add (log_add bs bm) a) ip1 0).
          { intros b Hb'. destruct (Hl b Hb') as [?|[?| ->]]; [by left|by right; left|]. right. right. left. by rewrite Hind. }
          pose proof (weight_logs bs _ ip ip1 0 Hlg ltac:(done)) as Hw. rewrite decide_True in Hw by done. unfold space in *. lia. }
        rewrite <- Hind. destruct (bmap_entry_spec _ _ ip1 i s1 bn F1 Hsp1 ltac:(by rewrite Hind) ltac:(lia)) as (r & s2 & E2 & M2).
        exists r, s2. split; [exact E2|]. eapply mapped_trans; [exact K1|exact G|exact Hb|done|exact Hl|by rewrite Hind| |exact M2].
        intros b Hu. rewrite Hind. apply (used_not_free V); [done|apply Hff].
    + rewrite bind_ret. rewrite (proj2 (Z.eqb_neq _ _)) by done. rewrite Htail.
      apply bmap_entry_spec; (done || lia).
Qed.

(** ** Contents written *)

(** [data] was written to the file at [off]. *)
Record wrote (V : Z -> list Z) (ip : inode) (V' : Z -> list Z) (ip' : inode) (off : Z) (data : list Z) : Prop := {
  wr_ip : ip' = set_i_addrs (i_addrs ip') ip;
  wr_wf : wfile V' ip';
  wr_map : bitmap_ok st sb V';
  wr_data : forall k c, data !! k = Some c -> fbyte V' ip' (off + Z.of_nat k) = c;
  wr_there : forall k, (k < length data)%nat -> baddr V' ip' ((off + Z.of_nat k) / BSIZE) <> 0;
  wr_keep : forall o, 0 <= o < MAXFILE * BSIZE -> o < off \/ off + Z.of_nat (length data) <= o ->
    baddr V ip (o / BSIZE) <> 0 -> fbyte V' ip' o = fbyte V ip o;
  wr_addr : forall bn, 0 <= bn < MAXFILE -> baddr V ip bn <> 0 -> baddr V' ip' bn = baddr V ip bn;
  wr_foreign : forall b, foreign V ip b -> foreign V' ip' b /\ V' b = V b;
}.

Lemma file_block o : 0 <= o < MAXFILE * BSIZE -> 0 <= o / BSIZE < MAXFILE.
Proof.
  intros Ho. split; [apply Z.div_pos; [lia|unfold BSIZE; lia]|]. apply Z.div_lt_upper_bound; [unfold BSIZE; lia|].
  rewrite Z.mul_comm. lia.
Qed.

Lemma wrote_nil V ip off : wfile V ip -> bitmap_ok st sb V -> wrote V ip V ip off [].
Proof. intros. split; try done. intros k. cbn. lia. Qed.
Lemma wrote_trans V ip V1 ip1 V2 ip2 off d1 d2 : 0 <= off -> off + Z.of_nat (length (d1 ++ d2)) <= MAXFILE * BSIZE ->
  wrote V ip V1 ip1 off d1 -> wrote V1 ip1 V2 ip2 (off + Z.of_nat (length d1)) d2 -> wrote V ip V2 ip2 off (d1 ++ d2).
Proof.
  intros Hoff Hmax A B. rewrite length_app in *. split.
  - rewrite (wr_ip _ _ _ _ _ _ B), (wr_ip _ _ _ _ _ _ A). by destruct ip.
  - apply B.
  - apply B.
  - intros k c Hk. rewrite lookup_app_Some in Hk. destruct Hk as [Hk|[Hk1 Hk2]].
    + pose proof (lookup_lt_Some _ _ _ Hk) as Hlt. rewrite (wr_keep _ _ _ _ _ _ B); [by eapply wr_data|lia|lia|by eapply wr_there].
    + rewrite <- (wr_data _ _ _ _ _ _ B _ _ Hk2). f_equal. lia.
  - intros k Hk. rewrite length_app in Hk. destruct (decide (k < length d1)%nat) as [Hlt|Hge].
    + rewrite (wr_addr _ _ _ _ _ _ B); [by eapply wr_there|apply file_block; lia|by eapply wr_there].
    + pose proof (wr_there _ _ _ _ _ _ B (k - length d1)%nat ltac:(lia)) as Ht.
      by replace (off + Z.of_nat (length d1) + Z.of_nat (k - length d1)) with (off + Z.of_nat k) in Ht by lia.
  - intros o Ho Hout Hnz. rewrite length_app in Hout. pose proof (file_block o Ho). rewrite (wr_keep _ _ _ _ _ _ B); [|done|lia|].
    + apply (wr_keep _ _ _ _ _ _ A); [done|lia|done].
    + by rewrite (wr_addr _ _ _ _ _ _ A).
  - intros bn Hbn Hnz. rewrite (wr_addr _ _ _ _ _ _ B), (wr_addr _ _ _ _ _ _ A) by (rewrite ?(wr_addr _ _ _ _ _ _ A); done). done.
  - intros b Hb. destruct (wr_foreign _ _ _ _ _ _ A b Hb) as [Hb1 E1]. destruct (wr_foreign _ _ _ _ _ _ B b Hb1) as [Hb2 E2].
    split; [done|congruence].
Qed.
Lemma wrote_grow V ip V1 ip1 bn off : wfile V ip -> 0 <= bn < MAXFILE -> grows V ip V1 ip1 bn -> wrote V ip V1 ip1 off [].
Proof.
  intros Hwf Hbn G.
  assert (Hb : forall x, 0 <= x < MAXFILE -> baddr V ip x <> 0 -> baddr V1 ip1 x = baddr V ip x).
  { intros x Hx Hnz. destruct (decide (x = bn)) as [->|Hne]; [by apply (gr_same _ _ _ _ _ G)|by apply (gr_other _ _ _ _ _ G)]. }
  split; try done; [apply G|apply G|apply G|intros k; cbn; lia| |].
  - intros o Ho _ Hnz. pose proof (file_block o Ho) as Hx. unfold fbyte. rewrite Hb by done.
    destruct (wf_blk _ _ Hwf _ Hx Hnz) as [Hu Hi]. by rewrite (proj2 (gr_used _ _ _ _ _ G _ Hu) Hi).
  - intros b Hf. split; [by apply (gr_foreign _ _ _ _ _ G)|]. destruct Hf as (Hu & Hi & _). by apply (gr_used _ _ _ _ _ G).
Qed.
Lemma wrote_put V ip off data : wfile V ip -> bitmap_ok st sb V -> (forall b, length (V b) = Z.to_nat BSIZE) ->
  0 <= off -> off + Z.of_nat (length data) <= MAXFILE * BSIZE -> off mod BSIZE + Z.of_nat (length data) <= BSIZE ->
  0 < Z.of_nat (length data) -> baddr V ip (off / BSIZE) <> 0 ->
  let addr := baddr V ip (off / BSIZE) in
  wrote V ip (vset addr (splice (V addr) (Z.to_nat (off mod BSIZE)) data) V) ip off data.
Proof using Hone.
  intros Hwf Hok Hlen Hoff Hmax Hfit Hpos Hnz addr. set (V' := vset addr _ V).
  pose proof (file_block off ltac:(lia)) as Hbn. destruct (wf_blk _ _ Hwf _ Hbn Hnz) as [Hu Hi]. fold addr in Hu, Hi.
  pose proof (Z.mod_pos_bound off BSIZE ltac:(unfold BSIZE; lia)) as Hm.
  assert (Hb : forall x, baddr V' ip x = baddr V ip x).
  { intros x. unfold baddr. destruct (x <? NDIRECT); [done|]. destruct (ind ip =? 0); [done|].
    unfold V', vset at 1. by rewrite decide_False by congruence. }
  assert (Hused : forall b, used V b -> used V' b) by (intros b; apply used_vset; [done|apply Hu]).
  assert (Hin : forall o, 0 <= o < MAXFILE * BSIZE -> baddr V ip (o / BSIZE) <> 0 -> fbyte V' ip o =
    if decide (o / BSIZE = off / BSIZE) then at_ (splice (V addr) (Z.to_nat (off mod BSIZE)) data) (Z.to_nat (o mod BSIZE)) else fbyte V ip o).
  { intros o Ho Honz. unfold fbyte. rewrite Hb. unfold V', vset. case_decide as E1.
    - rewrite decide_True; [done|]. apply (wf_inj _ _ Hwf); [by apply file_block|done|done|done].
    - rewrite decide_False; [done|]. intros E2. apply E1. unfold addr. by rewrite E2. }
  assert (Hat : forall k, (k < length data)%nat -> (off + Z.of_nat k) / BSIZE = off / BSIZE /\ (off + Z.of_nat k) mod BSIZE = off mod BSIZE + Z.of_nat k).
  { intros k Hk. by apply div_mod_near; lia. }
  split.
  - by destruct ip.
  - destruct Hwf as [W1 W2 W3 W4 W5 W6]. split; [done|done|done|auto| |].
    + intros x Hx. rewrite Hb. intros Hxnz. destruct (W5 x Hx Hxnz). auto.
    + intros x x' Hx Hx'. rewrite !Hb. by apply W6.
  - apply (bitmap_ok_vset st sb V); [done|]. intros x Hx. unfold V'. by rewrite marked_vset_ne by (done || apply Hu).
  - intros k c Hk. pose proof (lookup_lt_Some _ _ _ Hk) as Hlt. destruct (Hat k Hlt) as [E1 E2].
    rewrite Hin by (rewrite ?E1; (done || lia)). rewrite E1, E2, decide_True by done.
    rewrite at_splice by (rewrite Hlen; lia). rewrite decide_True by lia. unfold at_. rewrite nth_lookup.
    replace (Z.to_nat (off mod BSIZE + Z.of_nat k) - Z.to_nat (off mod BSIZE))%nat with k by lia. by rewrite Hk.
  - intros k Hk. rewrite Hb, (proj1 (Hat k Hk)). done.
  - intros o Ho Hout Honz. rewrite Hin by done. case_decide as E1; [|done].
    rewrite at_splice by (rewrite Hlen; lia). rewrite decide_False.
    + unfold fbyte. by rewrite E1.
    + pose proof (Z.div_mod o BSIZE ltac:(unfold BSIZE; lia)). pose proof (Z.div_mod off BSIZE ltac:(unfold BSIZE; lia)).
      pose proof (Z.mod_pos_bound o BSIZE ltac:(unfold BSIZE; lia)). rewrite E1 in *|-. lia.
  - intros bn Hbn' _. apply Hb.
  - intros b (H1 & H2 & H3). split; [split; [by apply Hused|split; [done|intros x Hx; rewrite Hb; by apply H3]]|].
    unfold V', vset. rewrite decide_False; [done|]. intros ->. by apply (H3 _ Hbn).
Qed.

(** ** writei *)

(** *** Where the bytes of a write come from *)

(** The [n] bytes at [a], of the kernel or of the user. *)
Definition buf_bytes (user : bool) (s : kstate) (a : Z) (n : nat) : list Z :=
  if user then ubytes (mem s) (my_root me s) a n else load_bytes (mem s) a n.
Lemma length_buf_bytes user s a n : length (buf_bytes user s a n) = n.
Proof. unfold buf_bytes. destruct user; [apply length_ubytes|apply length_load_bytes]. Qed.
Lemma buf_bytes_app user s a n k : buf_bytes user s a (n + k) = buf_bytes user s a n ++ buf_bytes user s (a + Z.of_nat n) k.
Proof. unfold buf_bytes. destruct user; [apply ubytes_app|apply load_bytes_app]. Qed.

Section Source.
Context (T : gset Z) (user : bool).

(** The [n] bytes at [src] are memory of the kernel, or addresses of the user. *)
Record source (src n : Z) (s : kstate) : Prop := {
  so_range : 0 <= src /\ src + n < 4294967296;
  so_user : user = true -> user_table T (mem s) (my_root me s);
}.
(** The user has no access to the byte at [a]. *)
Definition unreadable (s : kstate) (a : Z) : Prop := user = true /\ accessible (mem s) (my_root me s) a = false.
(** Of these bytes the first [k] can be read: all of them, or those up to an
    address the user has no access to, which goes to the first byte written or
    to the begin of a block of the file. *)
Record readable (src off n k : Z) (s : kstate) : Prop := {
  rd_range : 0 <= k <= n;
  rd_user : user = true -> range_ok (mem s) (my_root me s) src k;
  rd_stop : k < n -> unreadable s (src + k) /\ (k = 0 \/ (off + k) mod BSIZE = 0);
}.

Lemma either_copyin_all s src m : ctx me s -> source src m s -> 0 <= m ->
  (user = true -> range_ok (mem s) (my_root me s) src m) ->
  either_copyin user src m s = Ok (0, buf_bytes user s src (Z.to_nat m)) s.
Proof.
  intros Hc [Hr Hu] Hm Hok. unfold either_copyin, buf_bytes. rewrite (bind_ok _ _ _ _ _ (myproc_ok s (ctx_settled _ _ Hc))).
  rewrite (ctx_cur _ _ Hc). destruct user; [|done]. rewrite bind_gets.
  destruct (copyin_spec T (my_root me s) s src m (Hu eq_refl)) as (r & k & E & Hk & _ & [[-> <-]|(_ & Hlt & Ha)]);
    [unfold is_u32; lia|done|lia|by rewrite Nat2Z.id|].
  by rewrite (Hok eq_refl) in Ha by lia.
Qed.
Lemma either_copyin_none s src m : ctx me s -> source src m s -> 0 < m -> unreadable s src ->
  either_copyin user src m s = Ok (-1, []) s.
Proof.
  intros Hc [Hr Hu] Hm [-> Ha]. unfold either_copyin. rewrite (bind_ok _ _ _ _ _ (myproc_ok s (ctx_settled _ _ Hc))).
  rewrite (ctx_cur _ _ Hc), bind_gets.
  destruct (copyin_spec T (my_root me s) s src m (Hu eq_refl)) as (r & k & E & Hk & Hok & Hres);
    [unfold is_u32; lia|lia|lia|].
  destruct k as [|k]; [|by rewrite (Hok src ltac:(lia)) in Ha].
  destruct Hres as [[_ ?]|(-> & _)]; [lia|exact E].
Qed.

Lemma fstep_root i ip' s s' : fstep i ip' s s' -> my_root me s' = my_root me s.
Proof. intros K. unfold my_root. by rewrite (tkept_me _ _ _ K). Qed.
Lemma fstep_buf i ip' s s' a n : fstep i ip' s s' -> buf_bytes user s' a n = buf_bytes user s a n.
Proof. intros K. unfold buf_bytes. by rewrite (fstep_root _ _ _ _ K), (fstep_mem _ _ _ _ K). Qed.
Lemma source_fstep i ip' s s' src n : fstep i ip' s s' -> source src n s -> source src n s'.
Proof. intros K [H1 H2]. split; [done|]. by rewrite (fstep_root _ _ _ _ K), (fstep_mem _ _ _ _ K). Qed.
Lemma readable_fstep i ip' s s' src off n k : fstep i ip' s s' -> readable src off n k s -> readable src off n k s'.
Proof.
  intros K [H1 H2 H3]. split; unfold unreadable in *; rewrite ?(fstep_root _ _ _ _ K), ?(fstep_mem _ _ _ _ K); done.
Qed.
Lemma source_rest src n m s : source src n s -> 0 <= m -> source (src + m) (n - m) s.
Proof. intros [H1 H2] Hm. split; [lia|done]. Qed.
Lemma readable_rest src off n k m s : readable src off n k s -> 0 <= m <= k -> readable (src + m) (off + m) (n - m) (k - m) s.
Proof.
  intros [H1 H2 H3] Hm. split; [lia| |].
  - intros Hu a Ha. apply (H2 Hu). lia.
  - intros Hlt. destruct (H3 ltac:(lia)) as [Hr Hor]. replace (src + m + (k - m)) with (src + k) by lia.
    replace (off + m + (k - m)) with (off + k) by lia. split; [done|]. destruct Hor as [->|]; [left; lia|by right].
Qed.

(** What the loop gives: [d] bytes written at [off], all of the [k] that can be
    read unless the disk is full. *)
Definition written (bs : list Z) (V : Z -> list Z) (ip : inode) (i : nat) (src off : Z) (k d : Z) (w : nat) (s s' : kstate) : Prop :=
  exists bs' V' ip', fready bs' V' ip' i s' /\ fstep i ip' s s' /\
    wrote V ip V' ip' off (buf_bytes user s src (Z.to_nat d)) /\ 0 <= d <= k /\ (d < k -> all_marked sb V') /\
    (weight bs' ip' <= weight bs ip + w)%nat.

(** The block at which the source cannot be read stays as it is. *)
Lemma splice_nil d o : splice d o [] = d.
Proof. unfold splice. by rewrite take_nil, Nat.add_0_r, app_nil_l, take_drop. Qed.
Lemma bset_same j o s : bset j (fun b => set_b_data (splice (b_data b) o []) b) s = Ok tt s.
Proof.
  unfold bset, modify. f_equal. unfold upd_buf.
  rewrite (list_alter_ext _ id _ (bufs s) j); [|intros b _; rewrite splice_nil; by destruct b|done].
  rewrite list_alter_id by done. by destruct s.
Qed.
Lemma read_block_none {A} (k1 k2 : K A) bs V ip i s o addr src m : fready bs V ip i s -> (length bs < NBUF)%nat ->
  is_u32 addr -> source src m s -> 0 < m -> unreadable s src ->
  exists s', (bp ← bread ROOTDEV addr;
      r ← either_copyin user src m;
      bset bp (fun b => set_b_data (splice (b_data b) o r.2) b) ;;
      (if (r.1 : Z) =? -1 then brelse bp ;; k1 else log_write bp ;; brelse bp ;; k2)) s = k1 s' /\
    fready bs V ip i s' /\ fstep i ip s s'.
Proof using LO DO.
  intros HF Hn Ha Hso Hm Hr. pose proof HF as [HI Hsb Hok Hwf Hip Hsome Hsz].
  destruct (tx_bread me st sz bs V ∅ s addr HI (lookup_empty _) Ha) as (j & s1 & E1 & I1 & K1); [rewrite map_size_empty; lia|].
  rewrite insert_empty in I1. rewrite (bind_ok _ _ _ _ _ E1).
  assert (K1' : fstep i ip s s1) by (rewrite <- Hip; by apply fstep_tkept).
  assert (Hr1 : unreadable s1 src) by (unfold unreadable; by rewrite (fstep_root _ _ _ _ K1'), (fstep_mem _ _ _ _ K1')).
  rewrite (bind_ok _ _ _ _ _ (either_copyin_none s1 src m (it_ctx _ _ _ _ _ _ _ I1) (source_fstep _ _ _ _ _ _ K1' Hso) Hm Hr1)).
  cbn [fst snd]. rewrite (bind_ok _ _ _ _ _ (bset_same j o s1)), Z.eqb_refl.
  destruct (tx_brelse me st sz _ _ _ s1 addr j I1 (lookup_singleton_eq _ _)) as (s2 & E2 & I2 & K2).
  rewrite delete_singleton_eq in I2. exists s2. rewrite (bind_ok _ _ _ _ _ E2). split; [done|].
  assert (K : fstep i ip s s2) by (rewrite <- Hip; apply fstep_tkept; by eapply tkept_trans).
  split; [|done]. eapply fready_step; [done|done|done|apply (grows_refl V ip 0 Hwf Hok)].
Qed.

(** One block. *)
Lemma write_block {A} (k1 k2 : K A) bs V ip i s off src m : fready bs V ip i s -> space 0 bs ip ->
  0 <= off -> 0 < m -> off mod BSIZE + m <= BSIZE -> off + m <= MAXFILE * BSIZE ->
  baddr V ip (off / BSIZE) <> 0 -> source src m s -> (user = true -> range_ok (mem s) (my_root me s) src m) ->
  let addr := baddr V ip (off / BSIZE) in
  exists s', (bp ← bread ROOTDEV addr;
      r ← either_copyin user src m;
      bset bp (fun b => set_b_data (splice (b_data b) (Z.to_nat (off mod BSIZE)) r.2) b) ;;
      (if (r.1 : Z) =? -1 then brelse bp ;; k1 else log_write bp ;; brelse bp ;; k2)) s = k2 s' /\
    exists V', fready (log_add bs addr) V' ip i s' /\ fstep i ip s s' /\
      wrote V ip V' ip off (buf_bytes user s src (Z.to_nat m)).
Proof using All.
  intros HF Hsp Hoff Hm Hfit Hmax Hnz Hso Hrd addr. pose proof HF as [HI Hsb Hok Hwf Hip Hsome Hsz].
  pose proof (file_block off ltac:(lia)) as Hbn. destruct (wf_blk _ _ Hwf _ Hbn Hnz) as [Hu Hi]. fold addr in Hu, Hi.
  pose proof (weight_le bs ip (fready_nodup _ _ _ _ _ HF)) as Hw. unfold space in Hsp.
  pose proof (Z.mod_pos_bound off BSIZE ltac:(unfold BSIZE; lia)) as Hmod.
  destruct (tx_bread me st sz bs V ∅ s addr HI (lookup_empty _)) as (j & s1 & E1 & I1 & K1).
  { destruct Hu as (_ & _ & _ & [? _]). unfold is_u32. lia. }
  { rewrite map_size_empty. unfold NBUF, LOGSIZE, MAXOPBLOCKS in *. lia. }
  rewrite insert_empty in I1. rewrite (bind_ok _ _ _ _ _ E1).
  assert (K1' : fstep i ip s s1) by (rewrite <- Hip; by apply fstep_tkept).
  rewrite (bind_ok _ _ _ _ _ (either_copyin_all s1 src m (it_ctx _ _ _ _ _ _ _ I1) (source_fstep _ _ _ _ _ _ K1' Hso) ltac:(lia)
    ltac:(by rewrite (fstep_root _ _ _ _ K1'), (fstep_mem _ _ _ _ K1')))). cbn [fst snd Z.eqb].
  rewrite (fstep_buf _ _ _ _ _ _ K1'). set (data := buf_bytes user s src (Z.to_nat m)).
  assert (Hd : Z.of_nat (length data) = m) by (unfold data; rewrite length_buf_bytes; lia).
  assert (Hlen : forall b, length (V b) = Z.to_nat BSIZE) by (intros b; by eapply fready_len).
  destruct (tx_update me st sz bs V _ s1 addr j (fun d => splice d (Z.to_nat (off mod BSIZE)) data) I1) as (s2 & E2 & I2 & K2);
    [apply lookup_singleton_eq|apply Hu|by rewrite length_splice, Hlen|lia|done|].
  rewrite delete_singleton_eq in I2. exists s2. split; [by rewrite (seq3_ok _ _ _ _ _ _ _ E2)|].
  eexists. pose proof (wrote_put V ip off data Hwf Hok Hlen Hoff ltac:(lia) ltac:(lia) ltac:(lia) Hnz) as Wr. fold addr in Wr.
  assert (K : fstep i ip s s2) by (rewrite <- Hip; apply fstep_tkept; by eapply tkept_trans).
  split; [|split; [done|exact Wr]]. destruct (fstep_ip _ _ _ _ Hsome K).
  split; [exact I2|by rewrite (fstep_sblk _ _ _ _ K)|apply Wr|apply Wr|done|done|done].
Qed.

(** The part of the block a turn copies is readable, or its first byte is not. *)
Lemma readable_turn src off n k m s : readable src off n k s -> 0 < m <= n -> 0 <= off -> off mod BSIZE + m <= BSIZE ->
  m <= k \/ (k = 0 /\ k < n).
Proof.
  intros [H1 _ H3] Hm Ho Hfit. destruct (Z.lt_ge_cases k m) as [Hlt|]; [right|by left]. split; [|lia].
  destruct (H3 ltac:(lia)) as [_ [|Hmod]]; [done|]. destruct (div_mod_near off k Ho ltac:(lia) ltac:(lia)) as [_ E].
  pose proof (Z.mod_pos_bound off BSIZE ltac:(unfold BSIZE; lia)). lia.
Qed.

Lemma writei_loop_spec i n w : forall fuel bs V ip src off tot k s,
  fready bs V ip i s -> (w <= fuel)%nat -> space (Z.of_nat w) bs ip ->
  0 <= tot <= n -> 0 <= off -> off + (n - tot) <= MAXFILE * BSIZE ->
  source src (n - tot) s -> readable src off (n - tot) k s ->
  (tot < n -> off mod BSIZE + (n - tot) <= Z.of_nat w * BSIZE) ->
  exists d s', writei_loop fuel i user src off n tot s = Ok (tot + d, off + d) s' /\
    written bs V ip i src off k d w s s'.
Proof using All.
  induction w as [|w IH]; intros fuel bs V ip src off tot k s HF Hfu Hsp Ht Ho Hmax Hso Hrd Hk.
  all: pose proof HF as [HI Hsb Hok Hwf Hip Hsome Hsz]; pose proof (Z.mod_pos_bound off BSIZE ltac:(unfold BSIZE; lia)) as Hmod.
  all: pose proof (rd_range _ _ _ _ _ Hrd) as Hkr.
  all: destruct (decide (tot = n)) as [->|Hne];
    [exists 0, s; rewrite !Z.add_0_r; split; [destruct fuel; cbn [writei_loop]; by rewrite Z.ltb_irrefl|];
     exists bs, V, ip; split_and!; [done|rewrite <- Hip; apply fstep_tkept, tkept_refl|unfold buf_bytes; destruct user; by apply wrote_nil|lia..]|].
  { specialize (Hk ltac:(lia)). lia. }
  destruct fuel as [|fuel]; [lia|]. cbn [writei_loop]. rewrite (proj2 (Z.ltb_lt _ _)) by lia. specialize (Hk ltac:(lia)).
  destruct (chunk_bounds off n tot ltac:(lia)) as (M1 & M2 & M3 & M4). set (m := Z.min (n - tot) (BSIZE - off mod BSIZE)) in *.
  pose proof (file_block off ltac:(lia)) as Hbn.
  destruct (bmap_spec bs V ip i s (off / BSIZE) HF ltac:(unfold space in *; lia) Hbn) as (r & s1 & E1 & bs1 & V1 & ip1 & F1 & K1 & G1 & Hb1 & L1 & A1).
  rewrite (bind_ok _ _ _ _ _ E1). pose proof (wrote_grow V ip V1 ip1 _ off Hwf Hbn G1) as W1.
  pose proof (weight_logs bs bs1 ip ip1 r L1 (gr_ind _ _ _ _ _ G1)) as Hw1.
  destruct (Z.eqb_spec r 0) as [->|Hrnz].
  - rewrite decide_True in Hw1 by done. exists 0, s1. rewrite !Z.add_0_r. split; [done|]. exists bs1, V1, ip1.
    split_and!; [done|done|unfold buf_bytes; by destruct user|lia|lia|intros _; by apply A1|lia].
  - rewrite decide_False in Hw1 by done. rewrite bind_gets, (fr_ip _ _ _ _ _ F1), (wf_dev _ _ (fr_wf _ _ _ _ _ F1)).
    pose proof (source_fstep _ _ _ _ _ _ K1 Hso) as Hso1. pose proof (readable_fstep _ _ _ _ _ _ _ _ K1 Hrd) as Hrd1.
    assert (Hsom : source src m s1) by (destruct Hso1; by split; [lia|]).
    pose proof (wf_blk _ _ (fr_wf _ _ _ _ _ F1) _ Hbn ltac:(by rewrite Hb1)) as [Hub _]. rewrite Hb1 in Hub.
    destruct (readable_turn src off (n - tot) k m s1 Hrd1 ltac:(lia) Ho M3) as [Hmk|[-> Hlt]].
    2: { destruct (rd_stop _ _ _ _ _ Hrd1 Hlt) as [Hun _]. rewrite Z.add_0_r in Hun.
         pose proof (weight_le bs1 ip1 (fready_nodup _ _ _ _ _ F1)) as Hwl.
         destruct (read_block_none (mret (tot, off)) (writei_loop fuel i user (u32 (src + m)) (off + m) n (tot + m))
           bs1 V1 ip1 i s1 (Z.to_nat (off mod BSIZE)) r src m F1) as (s2 & E2 & F2 & K2); try done.
         { unfold space, NBUF, LOGSIZE, MAXOPBLOCKS in *. lia. }
         { destruct Hub as (_ & _ & _ & [? _]). unfold is_u32. lia. }
         exists 0, s2. rewrite E2, !Z.add_0_r. split; [done|]. exists bs1, V1, ip1.
         split_and!; [done|by eapply fstep_trans|unfold buf_bytes; by destruct user|lia..]. }
    destruct (write_block (mret (tot, off)) (writei_loop fuel i user (u32 (src + m)) (off + m) n (tot + m))
      bs1 V1 ip1 i s1 off src m F1) as (s2 & E2 & V2 & F2 & K2 & W2);
      [unfold space in *; lia|done|done|lia|lia|by rewrite Hb1|done|intros Hu' a Ha; apply (rd_user _ _ _ _ _ Hrd1 Hu'); lia|].
    rewrite Hb1 in E2, F2. rewrite E2. rewrite (u32_small (src + m)) by (destruct (so_range _ _ _ Hso); unfold is_u32; lia).
    assert (L2 : logs bs (log_add bs1 r) ip1 r).
    { intros b Hb. apply elem_of_log_add in Hb as [Hb| ->]; [by apply L1|]. by right; right; right. }
    pose proof (weight_logs bs _ ip ip1 r L2 (gr_ind _ _ _ _ _ G1)) as Hw2. rewrite decide_False in Hw2 by done.
    assert (K12 : fstep i ip1 s s2) by by eapply fstep_trans.
    destruct (IH fuel (log_add bs1 r) V2 ip1 (src + m) (off + m) (tot + m) (k - m) s2 F2) as (d & s3 & E3 & bs3 & V3 & ip3 & F3 & K3 & W3 & Hd & Ha & Hw3);
      try lia; [unfold space in *; lia|..].
    { replace (n - (tot + m)) with (n - tot - m) by lia. apply source_rest; [|lia]. by eapply source_fstep. }
    { replace (n - (tot + m)) with (n - tot - m) by lia. apply readable_rest; [|lia]. by eapply readable_fstep. }
    exists (m + d), s3. rewrite E3. split; [f_equal; f_equal; lia|]. exists bs3, V3, ip3.
    split; [done|]. split; [by eapply fstep_trans|].
    split_and!; [|lia|lia|intros ?; apply Ha; lia|lia].
    rewrite (fstep_buf _ _ _ _ _ _ K1) in W2. rewrite (fstep_buf _ _ _ _ _ _ K12) in W3.
    pose proof (wrote_trans V ip V1 ip1 V2 ip1 off [] (buf_bytes user s src (Z.to_nat m)) Ho ltac:(rewrite length_app, length_buf_bytes; cbn; lia) W1) as W12.
    rewrite Z.add_0_r in W12. specialize (W12 W2). cbn [app] in W12.
    rewrite Z2Nat.inj_add by lia. rewrite buf_bytes_app. apply (wrote_trans _ _ V2 ip1); [done| |done|].
    + rewrite length_app, !length_buf_bytes. lia.
    + rewrite length_buf_bytes, !Z2Nat.id by lia. exact W3.
Qed.
End Source.

(** ** iupdate *)

Section Foreign.
Context (V : Z -> list Z) (ip : inode) (x : Z) (d : list Z).
Hypothesis Hwf : wfile V ip.
Hypothesis Hok : bitmap_ok st sb V.
Hypothesis Hx : foreign V ip x.
Notation V' := (vset x d V).

Lemma foreign_baddr bn : baddr V' ip bn = baddr V ip bn.
Proof using Hx.
  unfold baddr. destruct (bn <? NDIRECT); [done|]. destruct (ind ip =? 0); [done|]. unfold vset.
  rewrite decide_False; [done|]. destruct Hx as (_ & H & _). congruence.
Qed.
Lemma foreign_fbyte o : 0 <= o < MAXFILE * BSIZE -> fbyte V' ip o = fbyte V ip o.
Proof using Hx.
  intros Ho. unfold fbyte. rewrite foreign_baddr. unfold vset. rewrite decide_False; [done|].
  destruct Hx as (_ & _ & H). by apply H, file_block.
Qed.
Lemma foreign_used b : used V b -> used V' b.
Proof using Hone Hok Hx. apply used_vset; [done|apply Hx]. Qed.
Lemma foreign_ok : wfile V' ip /\ bitmap_ok st sb V'.
Proof using Hone Hok Hx Hwf.
  split.
  - destruct Hwf as [W1 W2 W3 W4 W5 W6]. split; [done|done|done|auto using foreign_used| |].
    + intros bn Hbn. rewrite foreign_baddr. intros Hnz. destruct (W5 bn Hbn Hnz). auto using foreign_used.
    + intros bn bn' Hbn Hbn'. rewrite !foreign_baddr. by apply W6.
  - apply (bitmap_ok_vset st sb V); [done|]. intros b Hb. by rewrite marked_vset_ne by (done || apply Hx).
Qed.
End Foreign.

(** The block of the inode on disk. *)
Definition iblk (ip : inode) : Z := IBLOCK (i_inum ip) sb.

Lemma iupdate_spec bs V ip i s : fready bs V ip i s -> foreign V ip (iblk ip) -> space 0 bs ip -> 0 <= i_inum ip ->
  exists s', iupdate i s = Ok tt s' /\ fstep i ip s s' /\
    fready (log_add bs (iblk ip)) (vset (iblk ip) (dip_write ip (V (iblk ip)) (dinode_off (i_inum ip))) V) ip i s'.
Proof using All.
  intros HF Hfo Hsp Hin. pose proof HF as [HI Hsb Hok Hwf Hip Hsome Hsz]. pose proof Hfo as (Hu & _).
  pose proof (weight_le bs ip (fready_nodup _ _ _ _ _ HF)) as Hw. unfold space in Hsp.
  destruct (tx_bread me st sz bs V ∅ s (iblk ip) HI (lookup_empty _)) as (j & s1 & E1 & I1 & K1).
  { destruct Hu as (_ & _ & _ & [? _]). unfold is_u32. lia. }
  { rewrite map_size_empty. unfold NBUF, LOGSIZE, MAXOPBLOCKS in *. lia. }
  rewrite insert_empty in I1.
  assert (Hlen : forall b, length (V b) = Z.to_nat BSIZE) by (intros b; by eapply fready_len).
  destruct (tx_update me st sz bs V _ s1 (iblk ip) j (fun d => dip_write ip d (dinode_off (i_inum ip))) I1) as (s2 & E2 & I2 & K2);
    [apply lookup_singleton_eq|apply Hu| |lia|done|].
  { rewrite length_dip_write. apply Hlen. }
  rewrite delete_singleton_eq in I2. exists s2.
  assert (K : fstep i ip s s2) by (rewrite <- Hip; apply fstep_tkept; by eapply tkept_trans).
  split; [|split; [done|]].
  - unfold iupdate. rewrite !bind_gets, Hsb, Hip, (wf_dev _ _ Hwf). unfold iblk in E1.
    rewrite (bind_ok _ _ _ _ _ E1), bind_gets, (tkept_ip me s s1 i K1), Hip. exact E2.
  - destruct (fstep_ip _ _ _ _ Hsome K).
    destruct (foreign_ok V ip (iblk ip) (dip_write ip (V (iblk ip)) (dinode_off (i_inum ip))) Hwf Hok Hfo).
    split; [exact I2|by rewrite (fstep_sblk _ _ _ _ K)|done|done|done|done|done].
Qed.

(** ** writei *)

(** Setting the size. *)
Lemma baddr_size V ip n bn : baddr V (set_i_size n ip) bn = baddr V ip bn.
Proof. done. Qed.
Lemma size_step bs V ip i s n : fready bs V ip i s -> 0 <= n <= MAXFILE * BSIZE ->
  exists s', iset i (set_i_size n) s = Ok tt s' /\ fready bs V (set_i_size n ip) i s' /\ fstep i (set_i_size n ip) s s'.
Proof.
  intros HF Hn. pose proof HF as [HI Hsb Hok Hwf Hip Hsome Hsz].
  exists (upd_inode i (set_i_size n) s). split; [done|].
  assert (K : fstep i (set_i_size n ip) s (upd_inode i (set_i_size n) s)).
  { unfold fstep. assert (E : upd_inode i (set_i_size n) s = upd_inode i (fun _ => set_i_size n ip) s).
    { unfold upd_inode. f_equal. apply list_alter_ext; [|done]. intros x Hx. rewrite <- Hip. unfold ip_of. by rewrite Hx. }
    rewrite E. apply tkept_refl. }
  split; [|done]. destruct (fstep_ip _ _ _ _ Hsome K). split; [by apply intx_upd_inode|done|done| |done|done|done].
  destruct Hwf as [W1 W2 W3 W4 W5 W6]. by split.
Qed.

(** What a write of [data] at [off] makes of the file, of its inode on disk and
    of everything else. *)
Record write_effect (V : Z -> list Z) (ip : inode) (V' : Z -> list Z) (ip' : inode) (off : Z) (data : list Z) : Prop := {
  we_size : i_size ip' = Z.max (i_size ip) (off + Z.of_nat (length data));
  we_inode : ip' = set_i_size (i_size ip') (set_i_addrs (i_addrs ip') ip);
  we_wf : wfile V' ip' /\ bitmap_ok st sb V';
  we_data : fbytes V' ip' off (length data) = data;
  we_keep : forall o, 0 <= o < i_size ip -> o < off \/ off + Z.of_nat (length data) <= o ->
    baddr V ip (o / BSIZE) <> 0 -> fbyte V' ip' o = fbyte V ip o;
  we_addr : forall bn, 0 <= bn < MAXFILE -> baddr V ip bn <> 0 -> baddr V' ip' bn = baddr V ip bn;
  we_there : forall k, (k < length data)%nat -> baddr V' ip' ((off + Z.of_nat k) / BSIZE) <> 0;
  we_disk : dip_read (V' (iblk ip)) (dinode_off (i_inum ip)) ip' = ip';
  we_others : forall b, foreign V ip b -> b <> iblk ip -> V' b = V b;
}.

(** The fields of the inode fit their places on disk. *)
Definition shorts (ip : inode) : Prop := short (i_type ip) /\ short (i_major ip) /\ short (i_minor ip) /\ short (i_nlink ip).
Lemma wfile_dinode V ip : bitmap_ok st sb V -> wfile V ip -> shorts ip -> dinode_ok ip.
Proof.
  intros Hok Hwf (S1 & S2 & S3 & S4). pose proof (bo_size _ _ _ Hok) as Hs. pose proof (wf_size _ _ Hwf) as Hz.
  split; [done..|unfold is_u32, MAXFILE, NDIRECT, NINDIRECT, BSIZE in *; lia|]. split; [apply Hwf|].
  apply Forall_lookup. intros k b Hk.
  assert (Hat : at_ (i_addrs ip) k = b) by (unfold at_; by rewrite nth_lookup, Hk).
  assert (Hu : b = 0 \/ used V b).
  { destruct (decide (b = 0)) as [|Hnz]; [by left|right]. apply lookup_lt_Some in Hk. rewrite (wf_len _ _ Hwf) in Hk.
    destruct (decide (k < 12)%nat) as [Hlt|Hge].
    - assert (Eb : baddr V ip (Z.of_nat k) = b).
      { unfold baddr. rewrite (proj2 (Z.ltb_lt _ _)) by (unfold NDIRECT; lia). by rewrite Nat2Z.id. }
      rewrite <- Eb. apply (wf_blk _ _ Hwf); [unfold MAXFILE, NDIRECT, NINDIRECT; lia|by rewrite Eb].
    - assert (k = Z.to_nat NDIRECT) as -> by (unfold NDIRECT; lia). rewrite <- Hat. apply (wf_ind _ _ Hwf). by rewrite Hat. }
  unfold is_u32. destruct Hu as [->|[? _]]; lia.
Qed.

(** The number of blocks a write touches. *)
Definition touched (off n : Z) : nat := Z.to_nat ((off mod BSIZE + n + (BSIZE - 1)) / BSIZE).
Lemma touched_bounds off n : 0 <= off -> 0 <= n ->
  off mod BSIZE + n <= Z.of_nat (touched off n) * BSIZE /\ (touched off n <= Z.to_nat (n / BSIZE + 2))%nat.
Proof.
  intros Ho Hn. unfold touched. pose proof (Z.mod_pos_bound off BSIZE ltac:(unfold BSIZE; lia)).
  set (a := off mod BSIZE + n + (BSIZE - 1)). assert (Ea : a = off mod BSIZE + n + (BSIZE - 1)) by done. clearbody a.
  pose proof (Z.div_mod a BSIZE ltac:(unfold BSIZE; lia)).
  pose proof (Z.mod_pos_bound a BSIZE ltac:(unfold BSIZE; lia)). pose proof (Z.div_pos a BSIZE ltac:(unfold BSIZE in *; lia) ltac:(unfold BSIZE; lia)).
  pose proof (Z.div_mod n BSIZE ltac:(unfold BSIZE; lia)). pose proof (Z.mod_pos_bound n BSIZE ltac:(unfold BSIZE; lia)).
  split; [rewrite Z2Nat.id by lia; lia|]. apply Z2Nat.inj_le; [lia|pose proof (Z.div_pos n BSIZE ltac:(lia) ltac:(unfold BSIZE; lia)); lia|].
  pose proof (Z.div_lt_upper_bound a BSIZE (n / BSIZE + 3) ltac:(unfold BSIZE; lia) ltac:(lia)). lia.
Qed.

Lemma writei_spec T user bs V ip i s src off n k : fready bs V ip i s -> foreign V ip (iblk ip) -> shorts ip -> 0 <= i_inum ip ->
  space (Z.of_nat (touched off n)) bs ip -> 0 <= off <= i_size ip -> 0 <= n -> off + n <= MAXFILE * BSIZE ->
  source T user src n s -> readable user src off n k s ->
  exists d s' bs' V' ip', writei i user src off n s = Ok d s' /\ 0 <= d <= k /\ (d < k -> all_marked sb V') /\
    fready bs' V' ip' i s' /\ fstep i ip' s s' /\ write_effect V ip V' ip' off (buf_bytes user s src (Z.to_nat d)).
Proof using All.
  intros HF Hfo Hsh Hin Hsp Hoff Hn Hmax Hso Hrd. pose proof (rd_range _ _ _ _ _ _ Hrd) as Hkr. pose proof HF as [HI Hsb Hok Hwf Hip Hsome Hsz].
  destruct (touched_bounds off n ltac:(lia) Hn) as [T1 T2].
  assert (HM : MAXFILE * BSIZE < 4294967296) by (unfold MAXFILE, NDIRECT, NINDIRECT, BSIZE; lia).
  destruct (writei_loop_spec T user i n (touched off n) (Z.to_nat (n / BSIZE + 2)) bs V ip src off 0 k s HF T2 Hsp) as
    (d & s1 & E1 & bs1 & V1 & ip1 & F1 & K1 & W1 & Hd & Ha & Hw1); [lia|lia|lia|by rewrite Z.sub_0_r|by rewrite Z.sub_0_r|lia|].
  rewrite Z.add_0_l in E1. set (data := buf_bytes user s src (Z.to_nat d)) in *.
  assert (Hdl : Z.of_nat (length data) = d) by (unfold data; rewrite length_buf_bytes; lia).
  assert (Hsize1 : i_size ip1 = i_size ip) by (by rewrite (wr_ip _ _ _ _ _ _ W1)).
  set (ip2 := if i_size ip <? off + d then set_i_size (off + d) ip1 else ip1).
  assert (exists s2, (if i_size ip <? off + d then iset i (set_i_size (off + d)) else mret tt) s1 = Ok tt s2 /\
    fready bs1 V1 ip2 i s2 /\ fstep i ip2 s s2) as (s2 & E2 & F2 & K2).
  { unfold ip2. destruct (i_size ip <? off + d); [|by exists s1].
    destruct (size_step bs1 V1 ip1 i s1 (off + d) F1 ltac:(lia)) as (s2 & E2 & F2 & K2). exists s2.
    split; [done|]. split; [done|by eapply fstep_trans]. }
  assert (Eb : forall bn, baddr V1 ip2 bn = baddr V1 ip1 bn) by (intros bn; unfold ip2; by destruct (_ <? _)).
  assert (Ei : i_inum ip2 = i_inum ip) by (unfold ip2; rewrite (wr_ip _ _ _ _ _ _ W1); by destruct (_ <? _)).
  assert (Eind : ind ip2 = ind ip1) by (unfold ip2; by destruct (_ <? _)).
  destruct (wr_foreign _ _ _ _ _ _ W1 _ Hfo) as [(Fu & Fi & Fb) _].
  assert (Hfo2 : foreign V1 ip2 (iblk ip2)).
  { unfold iblk. rewrite Ei. split; [done|]. rewrite Eind. split; [done|]. intros bn. rewrite Eb. apply Fb. }
  destruct (iupdate_spec bs1 V1 ip2 i s2 F2 Hfo2) as (s3 & E3 & K3 & F3); [|by rewrite Ei|].
  { unfold space, weight in *. rewrite Eind. lia. }
  eexists d, s3, _, _, ip2. split; [|split; [lia|split; [|split; [exact F3|split; [by eapply fstep_trans|]]]]].
  - unfold writei. rewrite bind_gets, Hip. rewrite (proj2 (Z.ltb_ge _ _)), u32_small by (unfold is_u32; lia).
    rewrite !(proj2 (Z.ltb_ge _ _)) by lia. cbn [orb]. rewrite (bind_ok _ _ _ _ _ E1). cbn [fst snd].
    rewrite bind_gets, (fr_ip _ _ _ _ _ F1), Hsize1. rewrite (bind_ok _ _ _ _ _ E2). by rewrite (bind_ok _ _ _ _ _ E3).
  - intros Hlt x Hx. rewrite marked_vset_ne; [by apply Ha|apply F2|apply Hfo2|done].
  - assert (Hfb : forall o, 0 <= o < MAXFILE * BSIZE ->
      fbyte (vset (iblk ip2) (dip_write ip2 (V1 (iblk ip2)) (dinode_off (i_inum ip2))) V1) ip2 o = fbyte V1 ip1 o).
    { intros o Ho. rewrite (foreign_fbyte V1 ip2 _ _ Hfo2) by done. unfold fbyte. by rewrite Eb. }
    assert (Eiblk : iblk ip2 = iblk ip) by (unfold iblk; by rewrite Ei).
    fold data. split.
    + rewrite Hdl. unfold ip2. destruct (Z.ltb_spec (i_size ip) (off + d)); cbn; [lia|]. rewrite Hsize1. lia.
    + unfold ip2. rewrite (wr_ip _ _ _ _ _ _ W1). by destruct (_ <? _).
    + split; apply F3.
    + unfold fbytes. apply list_eq. intros x. rewrite list_lookup_fmap. destruct (data !! x) as [c|] eqn:Ek.
      * pose proof (lookup_lt_Some _ _ _ Ek) as Hk. rewrite (lookup_seq_lt _ _ _ Hk). cbn [fmap option_fmap option_map plus].
        rewrite Hfb by lia. by rewrite (wr_data _ _ _ _ _ _ W1 _ _ Ek).
      * apply lookup_ge_None in Ek. rewrite lookup_ge_None_2; [done|]. rewrite length_seq. lia.
    + intros o Ho Hout Hnz. pose proof (wf_size _ _ Hwf). rewrite Hfb by lia. apply (wr_keep _ _ _ _ _ _ W1); [lia|done|done].
    + intros bn Hbn Hnz. rewrite (foreign_baddr V1 ip2 _ _ Hfo2), Eb. by apply (wr_addr _ _ _ _ _ _ W1).
    + intros x Hk. rewrite (foreign_baddr V1 ip2 _ _ Hfo2), Eb. by apply (wr_there _ _ _ _ _ _ W1).
    + rewrite <- Eiblk, <- Ei. unfold vset at 1. rewrite decide_True by done. apply dip_round_trip.
      * eapply (wfile_dinode V1); [apply F2|apply F2|]. unfold ip2. rewrite (wr_ip _ _ _ _ _ _ W1). by destruct (_ <? _).
      * rewrite (fready_len _ _ _ _ _ _ F2). unfold dinode_off, IPB, BSIZE. pose proof (Z.mod_pos_bound (i_inum ip2) 8 ltac:(lia)). lia.
    + intros b Hb Hne. unfold vset. rewrite decide_False by congruence. by apply (wr_foreign _ _ _ _ _ _ W1).
Qed.
End Write.

Lemma load_bytes_u8 m a n : u8 <$> load_bytes m a n = load_bytes m a n.
Proof.
  revert a. induction n as [|n IH]; intros a; [done|]. cbn [load_bytes]. rewrite fmap_cons, IH.
  by rewrite u8_small by apply load8_range.
Qed.

Section Rw.
Context {L : Layout} {LO : LayoutOk L} {W : World} {D : DiskDriver} {DO : DiskOk D} {Ser : Serial} {SO : SerialOk Ser}.
Context (me : nat) (st sz : Z) (sb : superblock).

(** Inode [i] is the file [ip], in a transaction with room for a write of [n]
    bytes at [off]: two blocks for the bitmap and the indirect block, and those
    with the bytes. *)
Record writable (bs : list Z) (V : Z -> list Z) (ip : inode) (i : nat) (off n : Z) (s : kstate) : Prop := {
  wt_one : 0 < sb_size sb <= BPB;
  wt_file : fready me st sz sb bs V ip i s;
  wt_iblk : foreign st sb V ip (iblk sb ip);
  wt_shorts : shorts ip;
  wt_inum : 0 <= i_inum ip;
  wt_room : Z.of_nat (length bs + touched off n) + 2 < sz - 1;
}.

Lemma weight_bound bs ip : NoDup bs -> (weight sb bs ip <= length bs + 2)%nat.
Proof.
  intros Hnd. unfold weight. rewrite <- (size_list_to_set (C := gset Z) bs Hnd).
  set (A := list_to_set bs : gset Z). set (B := if decide _ then ∅ else _ : gset Z).
  pose proof (size_union_alt (A ∪ {[BBLOCK 0 sb]}) B). pose proof (size_union_alt A {[BBLOCK 0 sb]}).
  pose proof (subseteq_size ({[BBLOCK 0 sb]} ∖ A) {[BBLOCK 0 sb]} ltac:(set_solver)) as H1. rewrite size_singleton in H1.
  pose proof (subseteq_size (B ∖ (A ∪ {[BBLOCK 0 sb]})) B ltac:(set_solver)) as H2.
  unfold B in *. destruct (decide _); [rewrite size_empty in H2|rewrite size_singleton in H2]; lia.
Qed.
Lemma writable_space bs V ip i off n s : writable bs V ip i off n s -> space sz sb (Z.of_nat (touched off n)) bs ip.
Proof.
  intros H. pose proof (weight_bound bs ip (fready_nodup _ _ _ _ _ _ _ _ _ (wt_file _ _ _ _ _ _ _ H))).
  pose proof (wt_room _ _ _ _ _ _ _ H). unfold space. lia.
Qed.

Lemma writei_any T user bs V ip i s src off n k : writable bs V ip i off n s ->
  0 <= off <= i_size ip -> 0 <= n -> off + n <= MAXFILE * BSIZE -> source me T user src n s -> readable me user src off n k s ->
  exists d s' bs' V' ip', writei i user src off n s = Ok d s' /\ 0 <= d <= k /\ (d < k -> all_marked sb V') /\
    fready me st sz sb bs' V' ip' i s' /\ fstep me i ip' s s' /\
    write_effect st sb V ip V' ip' off (buf_bytes me user s src (Z.to_nat d)).
Proof.
  intros H Ho Hn Hmax Hso Hrd. pose proof (writable_space _ _ _ _ _ _ _ H). destruct H as [H1 H2 H3 H4 H5 _].
  by apply (writei_spec me st sz sb H1 T user bs V ip i s src off n k).
Qed.
(** From kernel memory. *)
Lemma kernel_source src off n s : 0 <= n -> 0 <= src -> src + n < 4294967296 ->
  source me ∅ false src n s /\ readable me false src off n n s.
Proof. intros. split; (split; [lia|done|..]). lia. Qed.
Lemma writei_good bs V ip i s src off n : writable bs V ip i off n s ->
  0 <= off <= i_size ip -> 0 <= n -> off + n <= MAXFILE * BSIZE -> 0 <= src -> src + n < 4294967296 ->
  exists d s' bs' V' ip', writei i false src off n s = Ok d s' /\ 0 <= d <= n /\ (d < n -> all_marked sb V') /\
    fready me st sz sb bs' V' ip' i s' /\ fstep me i ip' s s' /\
    write_effect st sb V ip V' ip' off (load_bytes (mem s) src (Z.to_nat d)).
Proof.
  intros H Ho Hn Hmax Hs1 Hs2. destruct (kernel_source src off n s Hn Hs1 Hs2).
  by apply (writei_any ∅ false bs V ip i s src off n n).
Qed.
Lemma writei_bad user i s src off n : is_u32 off -> is_u32 n -> is_u32 (i_size (ip_of s i)) ->
  ~ (off <= i_size (ip_of s i) /\ off + n <= MAXFILE * BSIZE) -> writei i user src off n s = Ok (-1) s.
Proof.
  intros Ho Hn Hs Hbad. unfold writei. rewrite bind_gets. set (size := i_size (ip_of s i)) in *. unfold is_u32, u32 in *.
  destruct (Z.ltb_spec size off) as [|H1]; [done|]. destruct (Z.ltb_spec ((off + n) mod 4294967296) off) as [|H2]; [done|]. cbn [orb].
  rewrite (proj2 (Z.ltb_lt _ _)); [done|]. destruct (decide (off + n < 4294967296)) as [Hlt|Hge]; [lia|].
  rewrite <- (Z.mod_unique (off + n) 4294967296 1 (off + n - 4294967296)) in H2 by lia. lia.
Qed.
End Rw.

(** A file without holes has none after a write. *)
Lemma file_ok_written me st sz sb bs' V ip V' ip' i s' off data : file_ok V ip -> 0 <= off <= i_size ip ->
  fready me st sz sb bs' V' ip' i s' -> write_effect st sb V ip V' ip' off data -> file_ok V' ip'.
Proof.
  intros Hok Ho F E. pose proof (fr_wf _ _ _ _ _ _ _ _ _ F) as Hwf. pose proof (fr_map _ _ _ _ _ _ _ _ _ F) as Hmap.
  pose proof (bo_size _ _ _ Hmap) as Hs. pose proof (wf_size _ _ _ _ Hwf) as Hz.
  assert (Hu : forall b, used st sb V' b -> is_u32 b) by (intros b [? _]; unfold is_u32; lia).
  split; [apply Hwf|done| |].
  - destruct (decide (ind ip' = 0)) as [->|Hnz]; [done|]. by apply Hu, (wf_ind _ _ _ _ Hwf).
  - intros bn Hbn Hlt. assert (Hr : 0 <= bn < MAXFILE) by (split; [done|]; unfold BSIZE in *; lia).
    assert (Hnz : baddr V' ip' bn <> 0).
    { destruct (decide (bn * BSIZE < i_size ip)) as [Hin|Hout].
      - destruct (fo_blocks _ _ Hok bn Hbn Hin) as [Hnz _]. by rewrite (we_addr _ _ _ _ _ _ _ _ E).
      - rewrite (we_size _ _ _ _ _ _ _ _ E) in Hlt.
        pose proof (we_there _ _ _ _ _ _ _ _ E (Z.to_nat (bn * BSIZE - off)) ltac:(lia)) as Ht.
        rewrite Z2Nat.id in Ht by lia. replace (off + (bn * BSIZE - off)) with (bn * BSIZE) in Ht by lia.
        by rewrite Z.div_mul in Ht by (unfold BSIZE; lia). }
    split; [done|]. by apply Hu, (wf_blk _ _ _ _ Hwf).
Qed.

(** *** The disk of FsAlloc.v: blocks in use *)

Lemma sample_used V b : V 44 = sample_map -> 0 < b < 48 -> (b < 2 \/ 18 <= b) -> b <> 44 -> used 2 fs_sb V b.
Proof.
  intros HV Hb Hr Hn. split; [cbn; lia|]. split; [|split; [done|]].
  - unfold marked, BBLOCK. cbn [sb_bmapstart fs_sb]. rewrite Z.div_small, Z.mod_small by (unfold BPB, BSIZE; lia).
    change (u32 (0 + 44)) with 44. rewrite HV.
    assert (Hall : forallb (bit sample_map) (seqZ 0 48) = true) by (vm_compute; reflexivity).
    rewrite forallb_forall in Hall. apply Hall, list_elem_of_In, elem_of_seqZ. lia.
  - split; [lia|]. unfold outside, LOGSIZE, MAXOPBLOCKS. lia.
Qed.
