(* ===== verification/FsRw.v ===== *)
(** * Reading and writing files (readi and writei of kernel/fs.c): the theorems

    For buffers in kernel memory, as exec and the directories use them, and for
    buffers of the user, as fileread and filewrite do. *)
From S2P Require Import Prelude Memory Machine Platform Sv32 Spinlock Printf Kalloc Vm Proc Sleeplock Bio Log Fs Nemu.
From S2P Require Import ProcSpec SleepSpec NemuSpec BioSpec BioRefine LogSpec LogTx LogCrash VmSpec UserVm UserCopy FsTx FsAlloc FsFile FsWrite.
From stdpp Require Import gmap strings countable prelude.

Open Scope Z_scope.

(** C19: [readi] reads the file, into kernel memory or memory of the user.  For a
    file without holes, [len] bytes of the range lie inside the file, 0 if it
    starts beyond the end or wraps around.  [readi] returns [len] and has
    stored exactly those bytes of the file at the destination; or it returns -1
    because the user has no access to a byte of the destination, and has stored
    the bytes before that one.  It changes nothing else. *)
Theorem readi_correct (L : Layout) (LO : LayoutOk L) (W : World) (D : DiskDriver) (DO : DiskOk D) (Ser : Serial) (SO : SerialOk Ser)
    me st sz bs V T F pas user_dst s i dst off n :
  intx me st sz bs V ∅ s -> (length bs < NBUF)%nat -> file_ok V (ip_of s i) -> is_u32 off -> is_u32 n ->
  target me T F pas user_dst dst n s ->
  let len := read_len (i_size (ip_of s i)) off n in
  exists r k t s', readi i user_dst dst off n s = Ok r s' /\ intx me st sz bs V ∅ s' /\
    delivered me T F pas user_dst dst (fbytes V (ip_of s i) off (Z.to_nat len)) k s t /\ tkept me t s' /\
    copy_result me user_dst len r len dst k s.
Proof. apply readi_any. Qed.

(** C4: [writei] writes the file, from kernel memory or memory of the user.  For
    a file of a well-formed file system in a transaction with room, and a
    source of which the first [k] bytes can be read, a write inside the file or
    at its end returns how many bytes were written, all [k] unless every block
    of the disk is in use; the file then has those bytes at the offset, every
    byte it had outside the range, and the right size; its inode on disk is up
    to date, the blocks in use by anything else are untouched, and bitmap and
    inode stay well formed.  A write beyond the end or over the largest size
    returns -1 and changes nothing. *)
Theorem writei_correct (L : Layout) (LO : LayoutOk L) (W : World) (D : DiskDriver) (DO : DiskOk D) (Ser : Serial) (SO : SerialOk Ser)
    me st sz sb bs V ip i T user_src s src off n k :
  writable me st sz sb bs V ip i off n s -> is_u32 off -> is_u32 n ->
  source me T user_src src n s -> readable me user_src src off n k s ->
  if decide (off <= i_size ip /\ off + n <= MAXFILE * BSIZE) then
    exists d s' bs' V' ip', writei i user_src src off n s = Ok d s' /\ 0 <= d <= k /\ (d < k -> all_marked sb V') /\
      fready me st sz sb bs' V' ip' i s' /\ fstep me i ip' s s' /\
      write_effect st sb V ip V' ip' off (buf_bytes me user_src s src (Z.to_nat d))
  else writei i user_src src off n s = Ok (-1) s.
Proof.
  intros H Ho Hn Hso Hrd. unfold is_u32 in *. case_decide as Hc.
  - destruct Hc. apply (writei_any me st sz sb T user_src bs); (done || lia).
  - pose proof (wt_file _ _ _ _ _ _ _ _ _ _ _ H) as F. apply writei_bad; [done|done| |by rewrite (fr_ip _ _ _ _ _ _ _ _ _ F)].
    rewrite (fr_ip _ _ _ _ _ _ _ _ _ F). pose proof (wf_size _ _ _ _ (fr_wf _ _ _ _ _ _ _ _ _ F)).
    unfold is_u32, MAXFILE, NDIRECT, NINDIRECT, BSIZE in *. lia.
Qed.

Lemma buf_byte_u8 me user s a n j : (j < n)%nat -> u8 (at_ (buf_bytes me user s a n) j) = at_ (buf_bytes me user s a n) j.
Proof.
  intros Hj. apply u8_small. unfold buf_bytes, at_. rewrite nth_lookup. destruct user.
  - rewrite lookup_ubytes by done. apply load8_range.
  - rewrite <- load_bytes_u8, list_lookup_fmap. destruct (_ !! j); cbn; [apply u8_range|lia].
Qed.

(** What was delivered is in the buffer. *)
Lemma delivered_bytes {L : Layout} {LO : LayoutOk L} me T F pas user dst data n s t s' : delivered me T F pas user dst data (length data) s t -> tkept me t s' ->
  target me T F pas user dst n s -> Z.of_nat (length data) <= n ->
  (user = true -> range_ok (mem s) (my_root me s) dst (Z.of_nat (length data))) ->
  (forall j, (j < length data)%nat -> u8 (at_ data j) = at_ data j) ->
  buf_bytes me user s' dst (length data) = data.
Proof.
  intros Hd K [Hr Hu] Hn Hok Hb. unfold buf_bytes, my_root. rewrite (tkept_me _ _ _ K), (tkept_mem _ _ _ K).
  pose proof (delivered_root _ _ _ _ _ _ _ _ _ _ Hd) as Er. unfold my_root in Er. rewrite Er. unfold delivered in Hd. destruct user.
  - destruct (Hu eq_refl) as [_ Ho]. destruct Hd as [_ _ _ Hby]. apply list_eq. intros j.
    destruct (decide (j < length data)%nat) as [Hj|Hj].
    + rewrite lookup_ubytes by done. assert (is_u32 (dst + Z.of_nat j)) as Hv by (unfold is_u32; lia).
      fold (my_root me s) in *. rewrite Hby, decide_True; [|lia|done|apply Ho; [done|apply Hok; [done|lia]]].
      replace (Z.to_nat (dst + Z.of_nat j - dst)) with j by lia. rewrite Hb by done. unfold at_. rewrite nth_lookup.
      by destruct (lookup_lt_is_Some_2 _ _ Hj) as [x ->].
    + rewrite !lookup_ge_None_2; [done|lia|]. rewrite length_ubytes. lia.
  - subst t. cbn [mem set_mem]. rewrite take_ge, load_bytes_store_bytes by lia. apply list_eq. intros j.
    rewrite list_lookup_fmap. destruct (data !! j) as [x|] eqn:E; [|done]. cbn. f_equal.
    pose proof (Hb j (lookup_lt_Some _ _ _ E)) as Hx. unfold at_ in Hx. by rewrite nth_lookup, E in Hx.
Qed.

(** C11: what is written is read back, between buffers of the kernel or of the
    user.  On a file without holes, with a source of which the first [k] bytes
    can be read and a destination the process has access to, [writei] of a
    range writes [d] bytes, all [k] unless every block of the disk is in use,
    [readi] of that many returns [d], and the destination holds the bytes of
    the source. *)
Theorem write_read_back (L : Layout) (LO : LayoutOk L) (W : World) (D : DiskDriver) (DO : DiskOk D) (Ser : Serial) (SO : SerialOk Ser)
    me st sz sb bs V ip i T' user_src T F pas user_dst s src dst off n k :
  writable me st sz sb bs V ip i off n s -> file_ok V ip -> 0 <= off <= i_size ip -> 0 <= n -> off + n <= MAXFILE * BSIZE ->
  source me T' user_src src n s -> readable me user_src src off n k s ->
  target me T F pas user_dst dst n s -> (user_dst = true -> range_ok (mem s) (my_root me s) dst n) ->
  exists d s1 s2 bs' V', writei i user_src src off n s = Ok d s1 /\ 0 <= d <= k /\
    intx me st sz bs' V' ∅ s1 /\ (d < k -> all_marked sb V') /\
    readi i user_dst dst off d s1 = Ok d s2 /\
    buf_bytes me user_dst s2 dst (Z.to_nat d) = buf_bytes me user_src s src (Z.to_nat d).
Proof.
  intros H Hok Ho Hn Hmax Hso Hrd Hta Hacc. pose proof (rd_range _ _ _ _ _ _ _ Hrd) as Hkr.
  destruct (writei_any me st sz sb T' user_src bs V ip i s src off n k H Ho Hn Hmax Hso Hrd) as (d & s1 & bs' & V' & ip' & E1 & Hd & Hall & F1 & K & E).
  set (data := buf_bytes me user_src s src (Z.to_nat d)) in *.
  assert (Hl : length data = Z.to_nat d) by apply length_buf_bytes.
  destruct (fstep_ip me i ip' s s1 (fr_some _ _ _ _ _ _ _ _ _ (wt_file _ _ _ _ _ _ _ _ _ _ _ H)) K) as [Hip _].
  pose proof (file_ok_written me st sz sb bs' V ip V' ip' i s1 off data Hok ltac:(lia) F1 E) as Hok'.
  pose proof (fr_tx _ _ _ _ _ _ _ _ _ F1) as I1.
  assert (Hta1 : target me T F pas user_dst dst d s1).
  { apply (target_le me T F pas user_dst dst n); [|lia].
    eapply (target_tkept me T F pas user_dst dst n (upd_inode i (fun _ => ip') s)); [apply I1|exact K|].
    destruct Hta as [A1 A2]. split; [done|]. intros Eu. destruct (A2 Eu) as [A3 A4]. split; [|done].
    eapply uvm_same; [exact A3|done|done|..].
    - pose proof (it_ctx _ _ _ _ _ _ _ (fr_tx _ _ _ _ _ _ _ _ _ (wt_file _ _ _ _ _ _ _ _ _ _ _ H))) as [[] ? ? ? ?]. by split.
    - apply (ctx_locks _ _ (it_ctx _ _ _ _ _ _ _ (fr_tx _ _ _ _ _ _ _ _ _ (wt_file _ _ _ _ _ _ _ _ _ _ _ H)))). done. }
  assert (Hacc1 : user_dst = true -> range_ok (mem s1) (my_root me s1) dst d).
  { intros Eu a Ha. rewrite (fstep_root _ _ _ _ _ K), (fstep_mem _ _ _ _ _ K). apply Hacc; [done|lia]. }
  destruct (readi_any me st sz T F pas user_dst bs' V' i dst off d s1 I1) as (r & k2 & t & s2 & E2 & _ & D2 & K2 & R2); try done.
  - eapply ho_len, it_homes, I1.
  - by rewrite Hip.
  - unfold is_u32, MAXFILE, NDIRECT, NINDIRECT, BSIZE in *. lia.
  - unfold is_u32, MAXFILE, NDIRECT, NINDIRECT, BSIZE in *. lia.
  - rewrite Hip in D2, R2. rewrite (we_size _ _ _ _ _ _ _ _ E), Hl in D2, R2.
    assert (Er : read_len (Z.max (i_size ip) (off + Z.of_nat (Z.to_nat d))) off d = d).
    { unfold read_len. rewrite Z2Nat.id by lia. rewrite (proj2 (Z.ltb_ge _ _)), (proj2 (Z.leb_gt _ _)); [cbn; lia| |lia].
      unfold MAXFILE, NDIRECT, NINDIRECT, BSIZE in *. lia. }
    rewrite Er in D2, R2. destruct R2 as [[-> Hk2]|(_ & Eu & Hk2 & Ha)].
    2:{ by rewrite (Hacc1 Eu) in Ha by lia. }
    exists d, s1, s2, bs', V'. split_and!; [done|lia|lia|done|done|done|].
    pose proof (we_data _ _ _ _ _ _ _ _ E) as Hdata. rewrite Hl in Hdata. rewrite Hdata in D2.
    fold data. rewrite <- Hl.
    assert (k2 = length data) as -> by lia.
    eapply delivered_bytes; [exact D2|exact K2|exact Hta1|lia|by rewrite Hl, Z2Nat.id by lia|].
    intros j Hj. apply buf_byte_u8. lia.
Qed.

(** *** A file, and a process with two pages of memory *)

Definition sample_inode : inode :=
  mk_inode ROOTDEV 1 1 1 T_FILE 0 0 1 600 ([45; 46] ++ replicate 11 0).
Definition file_machine : kstate := set_itable [sample_inode] (fs_machine fs_disk).

Lemma sample_baddr V bn : 0 <= bn -> baddr V sample_inode bn <> 0 -> (bn = 0 /\ baddr V sample_inode bn = 45) \/ (bn = 1 /\ baddr V sample_inode bn = 46).
Proof.
  intros Hb Hnz. assert (H0 : forall k, (2 <= k)%nat -> at_ (i_addrs sample_inode) k = 0).
  { intros [|[|k]] Hk; [lia..|]. apply (at_replicate 11 k). }
  unfold baddr in *. destruct (Z.ltb_spec bn NDIRECT).
  - destruct (decide (bn = 0)) as [->|]; [by left|]. destruct (decide (bn = 1)) as [->|]; [by right|].
    rewrite H0 in Hnz by lia. done.
  - rewrite H0 in Hnz by (unfold NDIRECT; lia). done.
Qed.
Lemma sample_wfile V : V 44 = sample_map -> wfile 2 fs_sb V sample_inode.
Proof.
  intros HV. split; [done|done|cbn; unfold MAXFILE, NDIRECT, NINDIRECT, BSIZE; lia|done| |].
  - intros bn Hbn Hnz. destruct (sample_baddr V bn ltac:(lia) Hnz) as [[-> ->]|[-> ->]];
      (split; [apply sample_used; [done|lia|lia|done]|done]).
  - intros bn bn' Hbn Hbn' Hnz E. destruct (sample_baddr V bn ltac:(lia) Hnz) as [[-> E1]|[-> E1]]; rewrite E in Hnz, E1;
      destruct (sample_baddr V bn' ltac:(lia) Hnz) as [[-> E2]|[-> E2]]; congruence.
Qed.
Lemma sample_file V : file_ok V sample_inode.
Proof.
  split; [done|cbn; unfold MAXFILE, NDIRECT, NINDIRECT, BSIZE; lia|by vm_compute|].
  intros bn H0 Hb. cbn [i_size sample_inode] in Hb. unfold BSIZE in Hb.
  destruct (decide (bn = 0)) as [->|]; [by vm_compute|]. assert (bn = 1) as -> by lia. by vm_compute.
Qed.

Lemma file_machine_quiet : quiet 0 2 16 file_machine.
Proof.
  destruct fs_machine_ok as [Hc Hl H Hst Hq]. split; [|done| |done|done].
  - destruct Hc as [[] ? ? ? ?]. by split.
  - eapply cache_same; [|exact H]. by split_and!.
Qed.

Section Witness.
#[local] Existing Instances test_layout test_layout_ok nemu_world.
#[local] Existing Instance nemu_disk_driver.
#[local] Existing Instance nemu_serial.

Definition user_machine : kstate :=
  set_mem (mem test_grown) (set_freelist (freelist test_grown) (upd_proc 0 (set_p_pagetable test_root) file_machine)).

Lemma user_machine_quiet : quiet 0 2 16 user_machine.
Proof.
  destruct file_machine_quiet as [Hc Hl H Hst Hq]. split; [|exact Hl| |exact Hst|exact Hq].
  - destruct Hc as [[] ? ? Hp ?]. split; [by split|done|done| |done]. unfold user_machine. cbn [procs set_mem set_freelist upd_proc set_procs].
    rewrite length_alter. exact Hp.
  - eapply cache_same; [|exact H]. split_and!; [done|done|done|]. unfold pid_of, user_machine, proc_of.
    cbn [procs set_mem set_freelist upd_proc set_procs]. rewrite list_lookup_alter_eq. by destruct (procs file_machine !! 0%nat).
Qed.

Lemma user_machine_root : my_root 0 user_machine = test_root.
Proof.
  unfold my_root, user_machine, proc_of. cbn [procs set_mem set_freelist upd_proc set_procs]. rewrite list_lookup_alter_eq.
  destruct (lookup_lt_is_Some_2 (procs file_machine) 0) as [p ->]; [|done].
  rewrite (ctx_procs _ _ (q_ctx _ _ _ _ file_machine_quiet)). unfold NPROC. lia.
Qed.

Lemma user_machine_access va : 0 <= va < 8192 -> accessible (mem user_machine) test_root va = true.
Proof.
  intros Hva. assert (forall n, 0 <= n < 2 -> accessible (mem test_grown) test_root (n * 4096) = true) as H.
  { intros n Hn. assert (n = 0 \/ n = 1) as [->| ->] by lia; vm_compute; reflexivity. }
  change (mem user_machine) with (mem test_grown). rewrite <- (H (va / 4096)) by (Z.div_mod_to_equations; lia).
  apply accessible_same_page; unfold is_u32, same_page, PGSIZE; Z.div_mod_to_equations; lia.
Qed.

(** In a transaction the file is ready for a write of 100 bytes at its end, and
    the user memory is there. *)
Lemma user_machine_begun : exists s V T F pas, begin_op user_machine = Ok tt s /\ intx 0 2 16 [] V ∅ s /\
  ip_of s 0 = sample_inode /\ writable 0 2 16 fs_sb [] V sample_inode 0 600 100 s /\
  (forall dst n, 0 <= dst -> dst + n < 4294967296 -> target 0 T F pas true dst n s) /\
  (forall src n, 0 <= src -> src + n < 4294967296 -> source 0 T true src n s) /\
  (forall va, 0 <= va < 8192 -> accessible (mem s) (my_root 0 s) va = true).
Proof.
  destruct (begin_tx (W := nemu_world) 0 2 16 user_machine user_machine_quiet) as (s & E & HI & K).
  assert (HV : disk_block (disk user_machine) 44 = sample_map) by exact fs_machine_view.
  assert (Hip : ip_of s 0 = sample_inode) by (unfold ip_of; by rewrite (tkept_itable _ _ _ K)).
  destruct test_grown_uvm as (T & F & pas & Hu & Hlen & Hz).
  assert (Ho : only_user (mem test_grown) test_root (Z.of_nat (length pas))) by (rewrite Hlen; by apply only_user_zero).
  assert (Hc : ctx 0 user_machine) by apply user_machine_quiet.
  assert (Hu' : uvm T F (my_root 0 user_machine) pas user_machine).
  { rewrite user_machine_root. apply (uvm_same T F test_root pas test_grown); [exact Hu|reflexivity|reflexivity|apply Hc|by apply (ctx_locks _ _ Hc)]. }
  assert (Er : my_root 0 s = test_root) by (unfold my_root; rewrite (tkept_me _ _ _ K); apply user_machine_root).
  exists s, (disk_block (disk user_machine)), T, F, pas. split; [exact E|]. split; [exact HI|]. split; [exact Hip|]. split_and!.
  - split; [cbn; unfold BPB, BSIZE; lia| | |unfold shorts, short; cbn; unfold T_FILE; lia|cbn; lia|vm_compute; reflexivity].
    + split; [exact HI|by rewrite (tkept_sblk _ _ _ K)|by apply bitmap_sample|by apply sample_wfile|exact Hip| |].
      * rewrite (tkept_itable _ _ _ K). by eexists.
      * unfold LOGSIZE, MAXOPBLOCKS. lia.
    + split; [apply sample_used; [exact HV|vm_compute; by split|vm_compute; by right|by vm_compute]|]. split; [by vm_compute|].
      intros bn Hbn Hx. destruct (sample_baddr (disk_block (disk user_machine)) bn) as [[_ Hy]|[_ Hy]]; [lia|by rewrite Hx| |];
        rewrite Hx in Hy; by vm_compute in Hy.
  - intros dst n H1 H2. apply (target_tkept 0 T F pas true dst n user_machine s); [apply HI|exact K|].
    split; [done|]. intros _. split; [exact Hu'|]. rewrite user_machine_root. exact Ho.
  - intros src n H1 H2. split; [done|]. intros _. rewrite Er, (tkept_mem _ _ _ K). exact (uvm_user_table T F test_root pas test_grown Hu Ho).
  - intros va Hva. rewrite Er, (tkept_mem _ _ _ K). by apply user_machine_access.
Qed.
#[local] Opaque user_machine.

(** A read of 100 bytes into the second page of the user. *)
Lemma readi_correct_witness : exists s s', begin_op user_machine = Ok tt s /\ readi 0 true 4096 500 512 s = Ok 100 s'.
Proof.
  destruct user_machine_begun as (s & V & T & F & pas & E & HI & Hip & _ & Hta & _ & Hacc).
  destruct (readi_correct test_layout test_layout_ok nemu_world nemu_disk_driver (nemu_disk_laws _ _ nemu_world_disk)
    nemu_serial (nemu_serial_laws _ nemu_world_uart) 0 2 16 [] V T F pas true s 0 4096 500 512 HI) as (r & k & t & s' & Er & _ & _ & _ & R).
  - unfold NBUF. cbn. lia.
  - rewrite Hip. apply sample_file.
  - unfold is_u32. lia.
  - unfold is_u32. lia.
  - apply Hta; lia.
  - rewrite Hip in R. change (read_len (i_size sample_inode) 500 512) with 100 in R.
    destruct R as [[-> _]|(_ & _ & Hk & Ha)]; [|rewrite Hacc in Ha by lia; discriminate Ha].
    exists s, s'. split; [exact E|exact Er].
Defined.

(** A write of 100 bytes of the second page. *)
Lemma writei_correct_witness : exists s d s', begin_op user_machine = Ok tt s /\
  writei 0 true 4096 600 100 s = Ok d s' /\ 0 <= d <= 100.
Proof.
  destruct user_machine_begun as (s & V & T & F & pas & E & HI & Hip & Hw & _ & Hso & Hacc).
  pose proof (writei_correct test_layout test_layout_ok nemu_world nemu_disk_driver (nemu_disk_laws _ _ nemu_world_disk)
    nemu_serial (nemu_serial_laws _ nemu_world_uart) 0 2 16 fs_sb [] V sample_inode 0 T true s 4096 600 100 100 Hw
    ltac:(unfold is_u32; lia) ltac:(unfold is_u32; lia) ltac:(apply Hso; lia)
    ltac:(split; [lia|intros _ va Hva; apply Hacc; lia|lia])) as H.
  rewrite decide_True in H by (cbn; unfold MAXFILE, NDIRECT, NINDIRECT, BSIZE; lia). destruct H as (d & s' & _ & _ & _ & Er & Hd & _).
  exists s, d, s'. split; [exact E|]. split; [exact Er|exact Hd].
Defined.

Lemma write_read_back_witness : exists s d s1 s2, begin_op user_machine = Ok tt s /\
  writei 0 true 4096 600 100 s = Ok d s1 /\ readi 0 true 1000 600 d s1 = Ok d s2 /\
  ubytes (mem s2) (my_root 0 s2) 1000 (Z.to_nat d) = ubytes (mem s) (my_root 0 s) 4096 (Z.to_nat d).
Proof.
  destruct user_machine_begun as (s & V & T & F & pas & E & HI & Hip & Hw & Hta & Hso & Hacc).
  destruct (write_read_back test_layout test_layout_ok nemu_world nemu_disk_driver (nemu_disk_laws _ _ nemu_world_disk)
    nemu_serial (nemu_serial_laws _ nemu_world_uart) 0 2 16 fs_sb [] V sample_inode 0 T true T F pas true s 4096 1000 600 100 100 Hw
    (sample_file V) ltac:(cbn; lia) ltac:(lia) ltac:(unfold MAXFILE, NDIRECT, NINDIRECT, BSIZE; lia) ltac:(apply Hso; lia)
    ltac:(split; [lia|intros _ va Hva; apply Hacc; lia|lia]) ltac:(apply Hta; lia) ltac:(intros _ va Hva; apply Hacc; lia))
    as (d & s1 & s2 & _ & _ & H1 & _ & _ & _ & H2 & H3).
  exists s, d, s1, s2. split; [exact E|]. split; [exact H1|]. split; [exact H2|exact H3].
Defined.
End Witness.
