(* ===== verification/FsDir.v ===== *)
(** * Directories (iget and dirlookup of kernel/fs.c) *)
From S2P Require Import Prelude Memory Machine Platform Sv32 Spinlock Printf Kalloc Vm Proc Sleeplock Bio Log Fs.
From S2P Require Import ProcSpec SleepSpec BioSpec BioRefine LogSpec LogTx LogCrash FsTx FsAlloc FsFile FsWrite Nemu NemuSpec.
From stdpp Require Import gmap strings countable prelude.

Open Scope Z_scope.

(** ** Directory entries *)

(** The 16 bytes of the [k]th entry, and its fields. *)
Definition dent (V : Z -> list Z) (ip : inode) (k : nat) : list Z := u8 <$> fbytes V ip (16 * Z.of_nat k) 16.
Definition dent_inum (V : Z -> list Z) (ip : inode) (k : nat) : Z := u16_at (dent V ip k) 0.
Definition dent_name (V : Z -> list Z) (ip : inode) (k : nat) : list Z := drop 2 (dent V ip k).
(** Two names are the same: they agree up to the first NUL or 14 characters. *)
Definition same_name (a b : list Z) : Prop :=
  forall j, (j < Z.to_nat DIRSIZ)%nat -> (forall k, (k < j)%nat -> at_ a k <> 0) -> at_ a j = at_ b j.
(** Entry [k] is in use and has the name. *)
Definition entry_is (V : Z -> list Z) (ip : inode) (name : list Z) (k : nat) : Prop :=
  dent_inum V ip k <> 0 /\ same_name name (dent_name V ip k).

Definition bytes_ok (l : list Z) : Prop := forall j, 0 <= at_ l j < 256.

Lemma at_u8 l : bytes_ok (u8 <$> l).
Proof. intros j. unfold at_. rewrite nth_lookup, list_lookup_fmap. destruct (l !! j); cbn; [apply u8_range|lia]. Qed.
Lemma at_take l n k : (k < n)%nat -> at_ (take n l) k = at_ l k.
Proof. intros H. unfold at_. by rewrite !nth_lookup, lookup_take_lt. Qed.
Lemma at_drop l k j : at_ (drop k l) j = at_ l (k + j).
Proof. unfold at_. by rewrite !nth_lookup, lookup_drop. Qed.
Lemma namecmp_same a b : bytes_ok a -> bytes_ok b -> namecmp a b = 0 <-> same_name a b.
Proof.
  intros Ha Hb. unfold namecmp, strncmp. rewrite strncmp_loop_zero by done. unfold same_name. split; intros H j Hj Hk.
  - apply H; [lia|]. intros k Hk'. apply Hk. lia.
  - apply H; [lia|]. intros k Hk'. apply Hk. lia.
Qed.

Lemma strncpy_at nm name j : length nm = 14%nat -> (j < 14)%nat ->
  at_ (strncpy nm name DIRSIZ) j = if decide (j < strlen name)%nat then at_ name j else 0.
Proof.
  intros Hl Hj. unfold strncpy. change (Z.to_nat DIRSIZ) with 14%nat. rewrite strncpy_copy_at by lia.
  by rewrite decide_True by lia.
Qed.
Lemma strncpy_same nm name : length nm = 14%nat -> same_name name (strncpy nm name DIRSIZ).
Proof.
  intros Hl j Hj Hk. rewrite strncpy_at by done. case_decide as E; [done|].
  destruct (decide (j = strlen name)) as [->|Hne]; [apply strlen_end|]. exfalso. apply (Hk (strlen name)); [lia|apply strlen_end].
Qed.

(** ** iget *)

Section Dir.
Context {L : Layout} {LO : LayoutOk L} {W : World} {D : DiskDriver} {DO : DiskOk D} {Ser : Serial} {SO : SerialOk Ser}.
Context (me : nat) (st sz : Z).
Notation intx := (intx me st sz).

(** The entry of the inode, if it is cached. *)
Definition caches_inode (dev inum : Z) (ip : inode) : bool := (0 <? i_ref ip) && (i_dev ip =? dev) && (i_inum ip =? inum).

Lemma iget_scan_spec dev inum s n : forall i empty, exists r, iget_scan n i empty dev inum s = Ok r s /\
  match r with
  | inl j => (i <= j < i + n)%nat /\ caches_inode dev inum (ip_of s j) = true
  | inr None => empty = None /\ forall j, (i <= j < i + n)%nat -> i_ref (ip_of s j) <> 0
  | inr (Some j) => (forall j', (i <= j' < i + n)%nat -> caches_inode dev inum (ip_of s j') = false) /\
      (empty = Some j \/ ((i <= j < i + n)%nat /\ i_ref (ip_of s j) = 0))
  end.
Proof.
  induction n as [|n IH]; intros i empty; cbn [iget_scan].
  - exists (inr empty). split; [done|]. destruct empty as [j|]; (split; [intros; lia || done|]); [by left|intros; lia].
  - rewrite bind_gets. fold (caches_inode dev inum (ip_of s i)). destruct (caches_inode dev inum (ip_of s i)) eqn:Ec.
    + exists (inl i). split; [done|]. split; [lia|done].
    + set (empty' := match empty with None => if i_ref (ip_of s i) =? 0 then Some i else None | Some _ => empty end).
      destruct (IH (S i) empty') as (r & E & Hr). exists r. split; [exact E|].
      destruct r as [j|[j|]].
      * destruct Hr as [Hj Hc]. split; [lia|done].
      * destruct Hr as [Hn He]. split.
        -- intros j' Hj'. destruct (decide (j' = i)) as [->|]; [done|]. apply Hn. lia.
        -- destruct He as [He|[Hj Hr]]; [|right; split; [lia|done]]. unfold empty' in He.
           destruct empty as [x|]; [by left|]. destruct (Z.eqb_spec (i_ref (ip_of s i)) 0); [|done].
           injection He as <-. right. split; [lia|done].
      * destruct Hr as [He Hn]. unfold empty' in He. destruct empty as [x|]; [done|].
        destruct (Z.eqb_spec (i_ref (ip_of s i)) 0) as [|Hne]; [done|]. split; [done|].
        intros j Hj. destruct (decide (j = i)) as [->|]; [done|]. apply Hn. lia.
Qed.

(** Under the lock of the table nothing else changes. *)
Lemma iset_acq i f s : upd_inode i f (acq LItable s) = acq LItable (upd_inode i f s).
Proof. done. Qed.

(** [iget] with a slot free, or the inode cached, gives an entry of the inode
    with one more reference; every other entry is as before. *)
Lemma iget_free_slot dev inum s : settled s -> lock_free LItable s -> length (itable s) = NINODE ->
  (exists j, (j < NINODE)%nat /\ i_ref (ip_of s j) = 0) ->
  exists i f, (i < NINODE)%nat /\ iget dev inum s = Ok i (upd_inode i f s) /\
    let ip := ip_of s i in
    i_dev (f ip) = dev /\ i_inum (f ip) = inum /\
    ((caches_inode dev inum ip = true /\ f ip = set_i_ref (i_ref ip + 1) ip) \/
     (i_ref ip = 0 /\ (forall j, (j < NINODE)%nat -> caches_inode dev inum (ip_of s j) = false) /\
      i_ref (f ip) = 1 /\ i_valid (f ip) = 0)).
Proof.
  intros Hs Hf Hlen (jf & Hjf & Hfree).
  assert (Hs' : forall i f, settled (upd_inode i f s)) by (intros i f; destruct Hs; by split).
  unfold iget. rewrite (bind_ok _ _ _ _ _ (acquire_ok LItable s Hs Hf)).
  destruct (iget_scan_spec dev inum (acq LItable s) NINODE 0 None) as (r & E & Hr). rewrite (bind_ok _ _ _ _ _ E).
  change (ip_of (acq LItable s)) with (ip_of s) in Hr. destruct r as [i|[i|]].
  - destruct Hr as [Hi Hca]. exists i, (fun ip => set_i_ref (i_ref ip + 1) ip). split; [lia|]. split.
    + unfold iset. rewrite bind_modify, iset_acq. erewrite bind_ok by (apply release_acq; [apply Hs'|exact Hf]). done.
    + unfold caches_inode in Hca. apply andb_prop in Hca as [[Ha Hb]%andb_prop Hd].
      apply Z.eqb_eq in Hb, Hd. cbn. split; [done|]. split; [done|]. left. split; [|done].
      unfold caches_inode. by rewrite Ha, Hb, Hd, !Z.eqb_refl.
  - destruct Hr as [Hn He]. destruct He as [He|[Hi Hr0]]; [done|].
    exists i, (fun ip => set_i_valid 0 (set_i_ref 1 (set_i_inum inum (set_i_dev dev ip)))). split; [lia|]. split.
    + unfold iset. rewrite !bind_modify, !iset_acq, !upd_inode_twice.
      erewrite bind_ok by (apply release_acq; [apply Hs'|exact Hf]). done.
    + cbn. split; [done|]. split; [done|]. right. split; [done|]. split; [|done]. intros j Hj. apply Hn. lia.
  - destruct Hr as [_ Hn]. exfalso. by apply (Hn jf ltac:(lia)).
Qed.
Lemma iget_spec dev inum s : ctx me s -> length (itable s) = NINODE ->
  (exists j, (j < NINODE)%nat /\ i_ref (ip_of s j) = 0) ->
  exists i f, (i < NINODE)%nat /\ iget dev inum s = Ok i (upd_inode i f s) /\
    let ip := ip_of s i in
    i_dev (f ip) = dev /\ i_inum (f ip) = inum /\
    ((caches_inode dev inum ip = true /\ f ip = set_i_ref (i_ref ip + 1) ip) \/
     (i_ref ip = 0 /\ (forall j, (j < NINODE)%nat -> caches_inode dev inum (ip_of s j) = false) /\
      i_ref (f ip) = 1 /\ i_valid (f ip) = 0)).
Proof. intros Hc. apply iget_free_slot; [apply Hc|by apply (ctx_locks _ _ Hc)]. Qed.

(** ** dirlookup *)

(** Only the scratch entry on the stack, and what transactions change, differs. *)
Definition scratch (s s' : kstate) : Prop := exists m,
  (forall a, ~ (frame <= a < frame + DIRENT) -> load8 m a = load8 (mem s) a) /\ tkept me (set_mem m s) s'.

Lemma scratch_refl s : scratch s s.
Proof. exists (mem s). split; [done|]. apply tkept_refl. Qed.
Lemma scratch_trans s1 s2 s3 : scratch s1 s2 -> scratch s2 s3 -> scratch s1 s3.
Proof.
  intros (m & Hm & K) (m' & Hm' & K'). exists m'. split.
  - intros a Ha. rewrite Hm', (tkept_mem _ _ _ K) by done. cbn [mem set_mem]. by apply Hm.
  - eapply tkept_trans; [|exact K']. exact (tkept_set_mem me m' _ _ K).
Qed.
Lemma scratch_itable s s' : scratch s s' -> itable s' = itable s.
Proof. intros (m & _ & K). by rewrite (tkept_itable _ _ _ K). Qed.

(** The entry is read into the frame. *)
Lemma read_entry bs V dp s k : intx bs V ∅ s -> (length bs < NBUF)%nat -> file_ok V (ip_of s dp) ->
  16 * Z.of_nat k + 16 <= i_size (ip_of s dp) ->
  exists s', readi dp false frame (16 * Z.of_nat k) DIRENT s = Ok DIRENT s' /\ intx bs V ∅ s' /\ scratch s s' /\
    load_bytes (mem s') frame 16 = dent V (ip_of s dp) k.
Proof using All.
  intros HI Hn Hok Hk. pose proof frame_range as Hf. pose proof (fo_size _ _ Hok) as Hs.
  assert (Hp : 0 < PHYSTOP) by (vm_compute; reflexivity).
  destruct (readi_spec me st sz bs V dp frame (16 * Z.of_nat k) DIRENT s) as (s' & E & I' & K'); try done.
  1-3: unfold is_u32, DIRENT, MAXFILE, NDIRECT, NINDIRECT, BSIZE in *; lia.
  assert (Er : read_len (i_size (ip_of s dp)) (16 * Z.of_nat k) DIRENT = DIRENT).
  { unfold read_len, DIRENT, MAXFILE, NDIRECT, NINDIRECT, BSIZE in *.
    rewrite (proj2 (Z.ltb_ge _ _)), (proj2 (Z.leb_gt _ _)) by lia. cbn [orb]. lia. }
  rewrite Er in E, K'. exists s'. split; [exact E|]. split; [exact I'|]. split.
  - eexists. split; [|exact K']. intros a Ha. apply load8_store_bytes_out. rewrite length_fbytes. unfold DIRENT in *. lia.
  - rewrite (tkept_mem _ _ _ K'). cbn [mem set_mem].
    pose proof (load_bytes_store_bytes (mem s) frame (fbytes V (ip_of s dp) (16 * Z.of_nat k) 16)) as H.
    rewrite length_fbytes in H. exact H.
Qed.
Lemma entry_fields m l : load_bytes m frame 16 = l ->
  load16 m frame = u16_at l 0 /\ load_bytes m (frame + 2) (Z.to_nat DIRSIZ) = drop 2 l.
Proof.
  intros <-. split; [done|]. change 16%nat with (2 + 14)%nat. rewrite load_bytes_app, drop_app_length'; [done|].
  by rewrite length_load_bytes.
Qed.

(** What [iget] gives: entry [i], changed by [f]. *)
Record igot (dev inum : Z) (s : kstate) (i : nat) (f : inode -> inode) : Prop := {
  ig_slot : (i < NINODE)%nat;
  ig_dev : i_dev (f (ip_of s i)) = dev;
  ig_inum : i_inum (f (ip_of s i)) = inum;
  ig_ref : (caches_inode dev inum (ip_of s i) = true /\ f (ip_of s i) = set_i_ref (i_ref (ip_of s i) + 1) (ip_of s i)) \/
     (i_ref (ip_of s i) = 0 /\ (forall j, (j < NINODE)%nat -> caches_inode dev inum (ip_of s j) = false) /\
      i_ref (f (ip_of s i)) = 1 /\ i_valid (f (ip_of s i)) = 0);
}.

(** The outcome [o] of a search from entry [k] in the state [s]: the first entry
    with the name and its inode, or that there is none. *)
Definition finds (bs : list Z) (V : Z -> list Z) (ip : inode) (name : list Z) (k : nat) (s : kstate)
    (o : outcome kstate (option (nat * Z))) : Prop :=
  exists s1, intx bs V ∅ s1 /\ scratch s s1 /\
    ((o = Ok None s1 /\ forall j, (k <= j)%nat -> 16 * Z.of_nat j < i_size ip -> ~ entry_is V ip name j) \/
     (exists j i f, (k <= j)%nat /\ 16 * Z.of_nat j < i_size ip /\ entry_is V ip name j /\
      (forall j', (k <= j' < j)%nat -> ~ entry_is V ip name j') /\ igot ROOTDEV (dent_inum V ip j) s1 i f /\
      o = Ok (Some (i, 16 * Z.of_nat j)) (upd_inode i f s1))).

Lemma finds_next bs V ip name k s s1 o : scratch s s1 -> ~ entry_is V ip name k ->
  finds bs V ip name (S k) s1 o -> finds bs V ip name k s o.
Proof.
  intros K1 Hno (s2 & I2 & K2 & H2). assert (Hk : forall j', (k <= j')%nat -> j' = k \/ (S k <= j')%nat) by lia.
  exists s2. split; [done|]. split; [by eapply scratch_trans|]. destruct H2 as [[E2 H2]|(j & i & f & Hj & Hj1 & Hj2 & Hj3 & Hj4)].
  - left. split; [done|]. intros j Hj. destruct (Hk j Hj) as [->|Hj']; [done|]. by apply H2.
  - right. exists j, i, f. split; [lia|]. split; [done|]. split; [done|]. split; [|done].
    intros j' Hj'. destruct (Hk j' ltac:(lia)) as [->|Hj'']; [done|]. apply Hj3. lia.
Qed.

Lemma dirlookup_loop_spec bs V ip dp name fuel : forall k s,
  intx bs V ∅ s -> (length bs < NBUF)%nat -> length (itable s) = NINODE ->
  (exists j, (j < NINODE)%nat /\ i_ref (ip_of s j) = 0) -> bytes_ok name ->
  ip_of s dp = ip -> file_ok V ip -> i_size ip mod 16 = 0 -> i_size ip <= 16 * Z.of_nat (k + fuel) ->
  finds bs V ip name k s (dirlookup_loop fuel dp name (16 * Z.of_nat k) s).
Proof using All.
  induction fuel as [|fuel IH]; intros k s HI Hn Hlen Hfree Hname Hip Hok Hmod Hf; cbn [dirlookup_loop].
  all: rewrite bind_gets, Hip; destruct (Z.ltb_spec (16 * Z.of_nat k) (i_size ip)) as [Hlt|Hge].
  all: try (exists s; split; [done|]; split; [apply scratch_refl|]; left; split; [done|]; intros; lia).
  { lia. }
  assert (Hroom : 16 * Z.of_nat k + 16 <= i_size ip) by (pose proof (Z.div_mod (i_size ip) 16 ltac:(lia)); lia).
  destruct (read_entry bs V dp s k HI Hn) as (s1 & E1 & I1 & K1 & Hb); [by rewrite Hip..|].
  rewrite (bind_ok _ _ _ _ _ E1), Z.eqb_refl. cbn [negb]. unfold de_inum, de_name. rewrite bind_gets.
  rewrite Hip in Hb. destruct (entry_fields _ _ Hb) as [-> Enm]. fold (dent_inum V ip k).
  pose proof (scratch_itable _ _ K1) as Eit.
  assert (Eip : forall j, ip_of s1 j = ip_of s j) by (intros j; unfold ip_of; by rewrite Eit).
  assert (Hfree' : exists j, (j < NINODE)%nat /\ i_ref (ip_of s1 j) = 0).
  { destruct Hfree as (j & Hj & Hj0). exists j. by rewrite Eip. }
  assert (Hrest : ~ entry_is V ip name k -> finds bs V ip name k s (dirlookup_loop fuel dp name (16 * Z.of_nat k + DIRENT) s1)).
  { intros Hno. replace (16 * Z.of_nat k + DIRENT) with (16 * Z.of_nat (S k)) by (unfold DIRENT; lia).
    eapply finds_next; [exact K1|exact Hno|]. apply IH; try done; [by rewrite Eit|by rewrite Eip|lia]. }
  destruct (Z.eqb_spec (dent_inum V ip k) 0) as [E0|Hnz]; [by apply Hrest; intros [? _]|].
  rewrite bind_gets, Enm. fold (dent_name V ip k).
  assert (Hsame : namecmp name (dent_name V ip k) = 0 <-> same_name name (dent_name V ip k)).
  { apply namecmp_same; [done|]. intros j. unfold dent_name. rewrite at_drop. apply at_u8. }
  destruct (Z.eqb_spec (namecmp name (dent_name V ip k)) 0) as [E0|Hne]; [|by apply Hrest; intros [_ ?%Hsame]].
  rewrite bind_gets, Eip, Hip, (fo_dev _ _ Hok).
  destruct (iget_spec ROOTDEV (dent_inum V ip k) s1) as (i & f & Hi & Ei & Hr1 & Hr2 & Hr3);
    [apply I1|by rewrite Eit|done|].
  exists s1. split; [done|]. split; [done|]. right. exists k, i, f. split; [lia|]. split; [done|].
  split; [split; [done|by apply Hsame]|]. split; [lia|]. split; [by split|]. by rewrite (bind_ok _ _ _ _ _ Ei).
Qed.
Lemma dirlookup_finds bs V ip dp s name : intx bs V ∅ s -> (length bs < NBUF)%nat -> ip_of s dp = ip -> file_ok V ip ->
  i_size ip mod 16 = 0 -> i_type ip = T_DIR -> length (itable s) = NINODE ->
  (exists j, (j < NINODE)%nat /\ i_ref (ip_of s j) = 0) -> bytes_ok name ->
  finds bs V ip name 0 s (dirlookup dp name s).
Proof using All.
  intros HI Hn <- Hok Hmod Ht Hlen Hfree Hname. unfold dirlookup. rewrite bind_gets, Ht, Z.eqb_refl. cbn [negb].
  apply (dirlookup_loop_spec bs V (ip_of s dp) dp name _ 0 s); try done.
  pose proof (fo_size _ _ Hok). unfold DIRENT. pose proof (Z.div_mod (i_size (ip_of s dp)) 16 ltac:(lia)).
  pose proof (Z.div_pos (i_size (ip_of s dp)) 16 ltac:(lia) ltac:(lia)). cbn [Nat.add]. rewrite Z2Nat.id; lia.
Qed.
End Dir.

(** C12: [dirlookup] finds the name.  In a directory without holes, with a slot of
    the inode table free, it returns nothing if no entry in use has the name up
    to 14 characters, and otherwise the offset of the first such entry and an
    inode-table entry for its inode number: the cached one with one more
    reference, or a fresh one with a single reference that is not yet read from
    disk.  Only the scratch entry on the stack and that one slot change. *)
Theorem dirlookup_correct (L : Layout) (LO : LayoutOk L) (W : World) (D : DiskDriver) (DO : DiskOk D)
    (Ser : Serial) (SO : SerialOk Ser) me st sz bs V s dp name :
  intx me st sz bs V ∅ s -> (length bs < NBUF)%nat -> length (itable s) = NINODE ->
  (exists j, (j < NINODE)%nat /\ i_ref (ip_of s j) = 0) -> bytes_ok name ->
  file_ok V (ip_of s dp) -> i_size (ip_of s dp) mod 16 = 0 -> i_type (ip_of s dp) = T_DIR ->
  finds me st sz bs V (ip_of s dp) name 0 s (dirlookup dp name s).
Proof. intros HI Hn Hlen Hfree Hname Hok Hmod Ht. by apply dirlookup_finds. Qed.

(** *** A directory *)

(** Two entries, "ab" for inode 7 and a free one, and the machine with it. *)
Definition dir_block : list Z := [7; 0; 97; 98] ++ replicate 508 0.
Definition dir_inode : inode := mk_inode ROOTDEV 1 1 1 T_DIR 0 0 1 32 ([45] ++ replicate 12 0).
Definition free_inode : inode := mk_inode 0 0 0 0 0 0 0 0 0 (replicate 13 0).
Definition dir_disk : gmap Z (list Z) := <[45 := dir_block]> fs_disk.
Definition dir_machine : kstate := set_itable (dir_inode :: replicate 7 free_inode) (fs_machine dir_disk).

Lemma dir_disk_len b : length (disk_block dir_disk b) = Z.to_nat BSIZE.
Proof.
  unfold disk_block, dir_disk. destruct (decide (b = 45)) as [->|]; [by rewrite lookup_insert_eq|].
  rewrite lookup_insert_ne by done. apply fs_disk_len.
Qed.
Lemma dir_machine_quiet : quiet 0 2 16 dir_machine.
Proof.
  assert (H0 : quiet 0 2 16 (fs_machine dir_disk)).
  { apply fs_machine_quiet; [apply dir_disk_len|]. split; [reflexivity| |reflexivity]. intros i b. by rewrite lookup_nil. }
  destruct H0 as [Hc Hl H Hst Hq]. split; [|done| |done|done].
  - destruct Hc as [[] ? ? ? ?]. by split.
  - eapply cache_same; [|exact H]. by split_and!.
Qed.
Lemma dir_machine_block : disk_block (disk dir_machine) 45 = dir_block.
Proof. destruct (booted_on_ok dir_disk dir_disk_len) as (_ & _ & Sl & B & E). unfold dir_machine, fs_machine, log_machine_on. by rewrite E. Qed.
Lemma dir_file V : file_ok V dir_inode.
Proof.
  split; [done|cbn; unfold MAXFILE, NDIRECT, NINDIRECT, BSIZE; lia|by vm_compute|].
  intros bn H0 Hb. cbn [i_size dir_inode] in Hb. unfold BSIZE in Hb. assert (bn = 0) as -> by lia. by vm_compute.
Qed.

(** The name "ab" is found: inode 7, at offset 0. *)
Lemma dirlookup_correct_witness : exists s s', @begin_op nemu_world dir_machine = Ok tt s /\
  exists i, @dirlookup test_layout nemu_world (@nemu_disk_driver test_layout nemu_world) (@nemu_serial nemu_world) 0 [97; 98] s =
    Ok (Some (i, 0)) s' /\ (i < NINODE)%nat.
Proof.
  destruct (begin_tx (W := nemu_world) 0 2 16 dir_machine dir_machine_quiet) as (s & E & HI & K).
  set (V := disk_block (disk dir_machine)) in *. assert (HV : V 45 = dir_block) by exact dir_machine_block.
  assert (Hit : itable s = itable dir_machine) by exact (tkept_itable _ _ _ K).
  assert (Hip : ip_of s 0 = dir_inode) by (unfold ip_of; by rewrite Hit).
  assert (Hd : dent V dir_inode 0 = [7; 0; 97; 98] ++ replicate 12 0).
  { unfold dent. rewrite fbytes_block; [|done|change (length (V 45) = Z.to_nat BSIZE); by rewrite HV|done].
    change (V (baddr V dir_inode (16 * Z.of_nat 0 / BSIZE))) with (V 45). by rewrite HV. }
  assert (He : entry_is V dir_inode [97; 98] 0).
  { unfold entry_is, dent_inum, dent_name. rewrite Hd. split; [done|].
    apply namecmp_same; [|intros j; rewrite at_drop; apply (at_u8 ([7; 0; 97; 98] ++ replicate 12 0))|by vm_compute].
    exact (at_u8 [97; 98]). }
  assert (Hfind : @finds test_layout 0 2 16 [] V (ip_of s 0) [97; 98] 0 s (@dirlookup test_layout nemu_world
    (@nemu_disk_driver test_layout nemu_world) (@nemu_serial nemu_world) 0 [97; 98] s)).
  { apply (dirlookup_correct test_layout test_layout_ok nemu_world (@nemu_disk_driver test_layout nemu_world) (nemu_disk_laws _ _ nemu_world_disk)
      (@nemu_serial nemu_world) (nemu_serial_laws _ nemu_world_uart) 0 2 16 [] V s 0 [97; 98] HI); rewrite ?Hip.
    - unfold NBUF. cbn. lia.
    - by rewrite Hit.
    - exists 1%nat. unfold ip_of. rewrite Hit. unfold NINODE. split; [lia|reflexivity].
    - exact (at_u8 [97; 98]).
    - apply dir_file.
    - reflexivity.
    - reflexivity. }
  destruct Hfind as (s1 & _ & _ & [[_ Hno]|(j & i & f & _ & _ & _ & Hfst & Hg & Ef)]).
  - rewrite Hip in Hno. by apply (Hno 0%nat) in He.
  - destruct j as [|j]; [|rewrite Hip in Hfst; by apply (Hfst 0%nat ltac:(lia)) in He].
    exists s, (upd_inode i f s1). split; [exact E|]. exists i. split; [exact Ef|apply Hg].
Defined.
