(* ===== verification/FsLink.v ===== *)
(** * Adding a name to a directory (dirlink of kernel/fs.c) *)
From S2P Require Import Prelude Memory Machine Platform Sv32 Spinlock Printf Kalloc Vm Proc Sleeplock Bio Log Fs.
From S2P Require Import ProcSpec SleepSpec BioSpec BioRefine LogSpec LogTx LogCrash ExitSpec FsTx FsAlloc FsFile FsWrite FsDir Nemu NemuSpec.
From stdpp Require Import gmap strings countable prelude.

Open Scope Z_scope.

(** Entry [k] is the first free one, or the one behind the last. *)
Record free_slot (V : Z -> list Z) (ip : inode) (k : nat) : Prop := {
  fs_before : forall j, (j < k)%nat -> dent_inum V ip j <> 0;
  fs_inside : 16 * Z.of_nat k <= i_size ip;
  fs_free : 16 * Z.of_nat k < i_size ip -> dent_inum V ip k = 0;
}.
(** The directory [ip] with the name in entry [k], every other entry as before. *)
Record linked (V : Z -> list Z) (ip : inode) (V' : Z -> list Z) (ip' : inode) (k : nat) (name : list Z) (inum : Z) : Prop := {
  ln_size : i_size ip' = Z.max (i_size ip) (16 * Z.of_nat k + 16);
  ln_inum : dent_inum V' ip' k = inum;
  ln_name : same_name name (dent_name V' ip' k);
  ln_others : forall j, j <> k -> 16 * Z.of_nat j < i_size ip -> dent V' ip' j = dent V ip j;
}.

(** The bytes [dirlink] writes: the number and the name, cut or padded. *)
Definition new_entry (nm name : list Z) (inum : Z) : list Z := bytes_of_u16 (u16 inum) ++ strncpy nm name DIRSIZ.

Section Link.
Context {L : Layout} {LO : LayoutOk L} {W : World} {D : DiskDriver} {DO : DiskOk D} {Ser : Serial} {SO : SerialOk Ser}.
Context (me : nat) (st sz : Z) (sb : superblock).
Abbreviation intx := (intx me st sz).
Abbreviation scratch := (scratch me).

(** ** The free entry *)

Lemma scratch_ip s s' j : scratch s s' -> ip_of s' j = ip_of s j.
Proof using. intros K. unfold ip_of. by rewrite (scratch_itable _ _ _ K). Qed.

Lemma dirlink_find_spec bs V ip dp fuel : forall k s,
  intx bs V ∅ s -> (length bs < NBUF)%nat -> ip_of s dp = ip -> file_ok V ip -> i_size ip mod 16 = 0 ->
  (forall j, (j < k)%nat -> dent_inum V ip j <> 0) -> 16 * Z.of_nat k <= i_size ip <= 16 * Z.of_nat (k + fuel) ->
  exists k' s', dirlink_find fuel dp (16 * Z.of_nat k) s = Ok (16 * Z.of_nat k') s' /\ intx bs V ∅ s' /\ scratch s s' /\
    free_slot V ip k'.
Proof using All.
  induction fuel as [|fuel IH]; intros k s HI Hn Hip Hok Hmod Hbefore Hf; cbn [dirlink_find].
  all: rewrite bind_gets, Hip; destruct (Z.ltb_spec (16 * Z.of_nat k) (i_size ip)) as [Hlt|Hge].
  all: try (exists k, s; split; [done|]; split; [done|]; split; [apply scratch_refl|]; split; [done|lia|lia]).
  { lia. }
  assert (Hroom : 16 * Z.of_nat k + 16 <= i_size ip) by (pose proof (Z.div_mod (i_size ip) 16 ltac:(lia)); lia).
  destruct (read_entry me st sz bs V dp s k HI Hn) as (s1 & E1 & I1 & K1 & Hb); [by rewrite Hip..|].
  rewrite (bind_ok _ _ _ _ _ E1), Z.eqb_refl. cbn [negb]. unfold de_inum. rewrite bind_gets.
  rewrite Hip in Hb. destruct (entry_fields _ _ Hb) as [-> _]. fold (dent_inum V ip k).
  destruct (Z.eqb_spec (dent_inum V ip k) 0) as [E0|Hnz].
  - exists k, s1. split; [done|]. split; [done|]. split; [done|]. split; [done|lia|done].
  - replace (16 * Z.of_nat k + DIRENT) with (16 * Z.of_nat (S k)) by (unfold DIRENT; lia).
    destruct (IH (S k) s1) as (k' & s' & E & I' & K' & Hs); try done.
    + by rewrite (scratch_ip _ _ _ K1).
    + intros j Hj. destruct (decide (j = k)) as [->|]; [done|]. apply Hbefore. lia.
    + lia.
    + exists k', s'. split; [exact E|]. split; [done|]. split; [by eapply scratch_trans|done].
Qed.

(** ** The entry is written *)

Lemma new_entry_bytes m nm name inum : length nm = 14%nat ->
  load_bytes (store_bytes (store_bytes m (frame + 2) (strncpy nm name DIRSIZ)) frame (bytes_of_u16 (u16 inum))) frame 16 =
  u8 <$> new_entry nm name inum.
Proof using.
  intros Hl. unfold new_entry. change 16%nat with (2 + 14)%nat. rewrite load_bytes_app, fmap_app. f_equal.
  - apply load_bytes_store_bytes.
  - change (frame + Z.of_nat 2) with (frame + 2). erewrite load_bytes_ext.
    + rewrite <- (load_bytes_store_bytes m (frame + 2) (strncpy nm name DIRSIZ)). f_equal.
      unfold strncpy. by rewrite length_strncpy_copy.
    + intros i Hi. apply load8_store_bytes_out. cbn. lia.
Qed.

(** What the 16 bytes of the entry say. *)
Lemma new_entry_fields nm name inum : length nm = 14%nat -> bytes_ok name -> 0 <= inum < 65536 ->
  let e := u8 <$> new_entry nm name inum in
  u16_at e 0 = inum /\ same_name name (drop 2 e).
Proof using.
  intros Hl Hname Hi. cbv zeta. unfold new_entry. rewrite fmap_app.
  assert (E : u8 <$> bytes_of_u16 (u16 inum) = bytes_of_u16 inum).
  { replace (u16 inum) with inum by (unfold u16; by rewrite Z.mod_small). unfold bytes_of_u16. cbn. by rewrite !u8_idemp. }
  rewrite E. split; [by apply u16_bytes|].
  intros j Hj Hk. change (drop 2 (bytes_of_u16 inum ++ ?l)) with l. rewrite (strncpy_same nm name Hl j Hj Hk).
  assert (Hb : u8 <$> strncpy nm name DIRSIZ = strncpy nm name DIRSIZ).
  { apply list_eq. intros x. rewrite list_lookup_fmap. destruct (decide (x < 14)%nat) as [Hx|Hx].
    - rewrite lookup_at by (unfold strncpy; rewrite length_strncpy_copy; lia). cbn. f_equal. rewrite strncpy_at by done.
      case_decide; [apply u8_small, Hname|done].
    - rewrite lookup_ge_None_2; [done|]. unfold strncpy. rewrite length_strncpy_copy. lia. }
  by rewrite Hb.
Qed.

(** An aligned entry lies in one block. *)
Lemma touched_entry k : touched (16 * Z.of_nat k) 16 = touched 0 16.
Proof using.
  unfold touched. f_equal. unfold BSIZE. Z.div_mod_to_equations. lia.
Qed.

Definition with_entry (nm name : list Z) (inum : Z) (s : kstate) : kstate :=
  set_mem (store_bytes (store_bytes (mem s) (frame + 2) (strncpy nm name DIRSIZ)) frame (bytes_of_u16 (u16 inum))) s.

Lemma written_linked V ip V' ip' k nm name inum :
  file_ok V ip -> i_size ip mod 16 = 0 -> length nm = 14%nat -> bytes_ok name -> 0 <= inum < 65536 ->
  write_effect st sb V ip V' ip' (16 * Z.of_nat k) (u8 <$> new_entry nm name inum) -> linked V ip V' ip' k name inum.
Proof using.
  intros Hok Hmod Hl Hname Hi E.
  assert (Hlen : length (u8 <$> new_entry nm name inum) = 16%nat).
  { rewrite length_fmap. unfold new_entry, strncpy. by rewrite length_app, length_strncpy_copy, Hl. }
  pose proof (we_data _ _ _ _ _ _ _ _ E) as Hd. pose proof (we_size _ _ _ _ _ _ _ _ E) as Hs. rewrite Hlen in Hd, Hs.
  assert (Hdent : dent V' ip' k = u8 <$> new_entry nm name inum).
  { unfold dent. rewrite Hd, <- list_fmap_compose. apply list_fmap_ext. intros _ x _. apply u8_idemp. }
  destruct (new_entry_fields nm name inum Hl Hname Hi) as [H1 H2].
  split; [lia|unfold dent_inum; by rewrite Hdent|unfold dent_name; by rewrite Hdent|].
  intros j Hj Hlt. unfold dent, fbytes. f_equal. apply list_fmap_ext. intros x y Hx.
  apply lookup_seq in Hx as [-> Hx]. pose proof (Z.div_mod (i_size ip) 16 ltac:(lia)).
  assert (Ho : 0 <= 16 * Z.of_nat j + Z.of_nat (0 + x) < i_size ip) by lia.
  destruct (block_in_file _ _ Ho) as [Hb0 Hb1].
  apply (we_keep _ _ _ _ _ _ _ _ E); [done|rewrite Hlen; lia|]. by apply (fo_blocks _ _ Hok).
Qed.

(** Then exactly that entry has the name. *)
Lemma linked_unique V ip V' ip' k name inum : linked V ip V' ip' k name inum -> inum <> 0 -> i_size ip mod 16 = 0 ->
  16 * Z.of_nat k <= i_size ip ->
  (forall j, 16 * Z.of_nat j < i_size ip -> ~ entry_is V ip name j) ->
  entry_is V' ip' name k /\ forall j, 16 * Z.of_nat j < i_size ip' -> entry_is V' ip' name j -> j = k.
Proof using.
  intros H Hi Hmod Hk Hno. split; [split; [by rewrite (ln_inum _ _ _ _ _ _ _ H)|apply H]|].
  intros j Hj He. destruct (decide (j = k)) as [|Hne]; [done|]. exfalso.
  assert (Hj' : 16 * Z.of_nat j < i_size ip).
  { rewrite (ln_size _ _ _ _ _ _ _ H) in Hj. pose proof (Z.div_mod (i_size ip) 16 ltac:(lia)). lia. }
  apply (Hno j Hj'). unfold entry_is, dent_inum, dent_name in *. by rewrite <- (ln_others _ _ _ _ _ _ _ H j Hne Hj').
Qed.

(** ** The name is there already *)

(** Inode [dp] is a directory without holes, in a transaction with room for one
    more entry, and the inode table has a free slot. *)
Record directory (bs : list Z) (V : Z -> list Z) (ip : inode) (dp : nat) (s : kstate) : Prop := {
  dr_write : writable me st sz sb bs V ip dp 0 16 s;
  dr_file : file_ok V ip;
  dr_entries : i_size ip mod 16 = 0;
  dr_type : i_type ip = T_DIR;
  dr_slots : length (itable s) = NINODE;
  dr_spare : exists j, (j < NINODE)%nat /\ i_ref (ip_of s j) = 0;
}.

Lemma directory_ready bs V (ip : inode) dp s : directory bs V ip dp s -> fready me st sz sb bs V ip dp s.
Proof using. intros H. apply (dr_write _ _ _ _ _ H). Qed.
Lemma fready_cache bs V (ip : inode) dp s : fready me st sz sb bs V ip dp s -> (length bs < NBUF)%nat.
Proof using. intros F. eapply ho_len, it_homes, F. Qed.
Lemma ip_of_upd i f s x : (i < length (itable s))%nat ->
  ip_of (upd_inode i f s) x = if decide (x = i) then f (ip_of s i) else ip_of s x.
Proof using.
  intros Hi. unfold ip_of, upd_inode. ksimp. destruct (decide (x = i)) as [->|Hne].
  - rewrite list_lookup_alter_eq. by destruct (lookup_lt_is_Some_2 _ _ Hi) as [y ->].
  - by rewrite list_lookup_alter_ne.
Qed.

(** The outcome if the name is there: the counts of references are as before. *)
Lemma link_present bs V dp s name n s1 i f j inum : igot ROOTDEV n s1 i f -> intx bs V ∅ s1 -> scratch s s1 ->
  length (itable s) = NINODE -> dirlookup dp name s = Ok (Some (i, j)) (upd_inode i f s1) ->
  exists s', dirlink dp name inum s = Ok (-1) s' /\ intx bs V ∅ s' /\ forall x, i_ref (ip_of s' x) = i_ref (ip_of s x).
Proof using.
  intros G HI K Hlen E. unfold dirlink. rewrite (bind_ok _ _ _ _ _ E).
  assert (Hi : (i < length (itable s1))%nat) by (rewrite (scratch_itable _ _ _ K), Hlen; apply G).
  assert (I2 : intx bs V ∅ (upd_inode i f s1)) by by apply intx_upd_inode.
  assert (Hip : ip_of (upd_inode i f s1) i = f (ip_of s1 i)) by (rewrite ip_of_upd by done; by rewrite decide_True).
  erewrite bind_ok.
  2: { eapply iput_drops; [apply I2|]. rewrite Hip. destruct (ig_ref _ _ _ _ _ G) as [[Hc ->]|(_ & _ & _ & ?)]; [left|by right; left].
       unfold caches_inode in Hc. cbn. lia. }
  eexists. split; [done|]. split; [by apply intx_upd_inode|]. intros x. rewrite upd_inode_twice, ip_of_upd by done.
  case_decide as Hx; [|by rewrite (scratch_ip _ _ _ K)]. subst x. rewrite <- (scratch_ip _ _ i K). cbn.
  destruct (ig_ref _ _ _ _ _ G) as [[Hc ->]|(-> & _ & -> & _)]; cbn; lia.
Qed.

(** ** The name is new *)

Lemma fready_scratch bs V (ip : inode) dp s s' : fready me st sz sb bs V ip dp s -> scratch s s' -> intx bs V ∅ s' ->
  fready me st sz sb bs V ip dp s'.
Proof using.
  intros [H1 H2 H3 H4 H5 H6 H7] K HI. pose proof (scratch_itable _ _ _ K) as Hit. destruct K as (m & _ & K).
  split; try done; [by rewrite (tkept_sblk _ _ _ K)|unfold ip_of in *; by rewrite Hit|by rewrite Hit].
Qed.
Lemma writable_scratch bs V (ip : inode) dp s s' off : writable me st sz sb bs V ip dp 0 16 s -> scratch s s' -> intx bs V ∅ s' ->
  touched off 16 = touched 0 16 -> writable me st sz sb bs V ip dp off 16 s'.
Proof using. intros [H1 H2 H3 H4 H5 H6] K HI Ht. split; try done; [by eapply fready_scratch|by rewrite Ht]. Qed.
Lemma scratch_entry nm name inum s : length nm = 14%nat -> scratch s (with_entry nm name inum s).
Proof using.
  intros Hl. eexists. split; [|apply tkept_refl]. intros a Ha. unfold DIRENT in Ha.
  rewrite load8_store_bytes_out by (cbn; lia). rewrite load8_store_bytes_out; [done|].
  unfold strncpy. rewrite length_strncpy_copy. lia.
Qed.

(** The entry [k] has been added: what holds then, a search for the name
    included. *)
Definition link_done (V : Z -> list Z) (ip : inode) (dp k : nat) (name : list Z) (inum : Z) (s' : kstate) : Prop :=
  exists bs' V' ip', fready me st sz sb bs' V' ip' dp s' /\ file_ok V' ip' /\ linked V ip V' ip' k name inum /\
    (forall b, foreign st sb V ip b -> b <> iblk sb ip -> V' b = V b) /\
    exists i s'', dirlookup dp name s' = Ok (Some (i, 16 * Z.of_nat k)) s'' /\ i_inum (ip_of s'' i) = inum.

Lemma link_written bs V ip dp s name inum nm k s2 s' bs' V' ip' : directory bs V ip dp s -> bytes_ok name -> 0 < inum < 65536 ->
  (forall j, 16 * Z.of_nat j < i_size ip -> ~ entry_is V ip name j) -> free_slot V ip k -> length nm = 14%nat ->
  itable s2 = itable s -> fready me st sz sb bs' V' ip' dp s' -> fstep me dp ip' s2 s' ->
  write_effect st sb V ip V' ip' (16 * Z.of_nat k) (u8 <$> new_entry nm name inum) ->
  link_done V ip dp k name inum s'.
Proof using All.
  intros Hdir Hname Hi Hno Hk Hl Hit F K E. destruct Hdir as [Hw Hok Hmod Ht Hlen Hfree].
  pose proof (fs_inside _ _ _ Hk) as Hin.
  assert (Hok' : file_ok V' ip') by (eapply file_ok_written; [exact Hok| |exact F|exact E]; lia).
  pose proof (written_linked V ip V' ip' k nm name inum Hok Hmod Hl Hname ltac:(lia) E) as Hln.
  exists bs', V', ip'. split; [done|]. split; [done|]. split; [done|]. split; [apply E|].
  destruct (linked_unique V ip V' ip' k name inum Hln ltac:(lia) Hmod Hin Hno) as [He Hu].
  assert (Hit' : itable s' = alter (fun _ => ip') dp (itable s2)) by exact (tkept_itable _ _ _ K).
  assert (Hfree' : exists j, (j < NINODE)%nat /\ i_ref (ip_of s' j) = 0).
  { destruct Hfree as (j & Hj & Hr). exists j. split; [done|]. destruct (decide (j = dp)) as [->|Hne].
    - rewrite (fr_ip _ _ _ _ _ _ _ _ _ F), (we_inode _ _ _ _ _ _ _ _ E). cbn.
      by rewrite <- (fr_ip _ _ _ _ _ _ _ _ _ (wt_file _ _ _ _ _ _ _ _ _ _ _ Hw)).
    - unfold ip_of in *. by rewrite Hit', list_lookup_alter_ne, Hit by done. }
  destruct (dirlookup_finds me st sz bs' V' ip' dp s' name) as (s3 & I3 & K3 & [[_ Hn]|(j & i & f & _ & Hj & Hej & _ & G & Ef)]); try done.
  - apply F.
  - by eapply fready_cache.
  - apply F.
  - rewrite (ln_size _ _ _ _ _ _ _ Hln). Z.div_mod_to_equations. lia.
  - by rewrite (we_inode _ _ _ _ _ _ _ _ E).
  - by rewrite Hit', length_alter, Hit.
  - exfalso. apply (Hn k); [lia| |done]. rewrite (ln_size _ _ _ _ _ _ _ Hln). lia.
  - assert (j = k) as -> by by apply Hu. exists i, (upd_inode i f s3). split; [done|].
    rewrite ip_of_upd by (rewrite (scratch_itable _ _ _ K3), Hit', length_alter, Hit, Hlen; apply G).
    rewrite decide_True by done. rewrite (ig_inum _ _ _ _ _ G). apply Hln.
Qed.

Lemma link_absent bs V ip dp s name inum s1 : directory bs V ip dp s -> bytes_ok name -> 0 < inum < 65536 ->
  (forall j, 16 * Z.of_nat j < i_size ip -> ~ entry_is V ip name j) ->
  dirlookup dp name s = Ok None s1 -> intx bs V ∅ s1 -> scratch s s1 ->
  exists k s', free_slot V ip k /\
  (dirlink dp name inum s = Ok 0 s' /\ link_done V ip dp k name inum s' \/
   dirlink dp name inum s = Ok (-1) s' /\
     (MAXFILE * BSIZE < 16 * Z.of_nat k + 16 \/
      exists bs' V' ip', fready me st sz sb bs' V' ip' dp s' /\ all_marked sb V')).
Proof using All.
  intros Hdir Hname Hi Hno E I1 K1. pose proof (directory_ready _ _ _ _ _ Hdir) as F. pose proof (dr_file _ _ _ _ _ Hdir) as Hok.
  pose proof (fo_size _ _ Hok) as Hsz. pose proof (dr_entries _ _ _ _ _ Hdir) as Hmod.
  pose proof (fready_scratch _ _ _ _ _ _ F K1 I1) as F1.
  unfold dirlink. rewrite (bind_ok _ _ _ _ _ E), bind_gets, (fr_ip _ _ _ _ _ _ _ _ _ F1).
  destruct (dirlink_find_spec bs V ip dp (Z.to_nat (i_size ip / DIRENT + 1)) 0 s1) as (k & s2 & E2 & I2 & K2 & Hk); try done.
  { by eapply fready_cache. }
  { apply F1. }
  { intros; lia. }
  { unfold DIRENT. Z.div_mod_to_equations. lia. }
  exists k. change (16 * Z.of_nat 0) with 0 in E2. rewrite (bind_ok _ _ _ _ _ E2). unfold de_name. rewrite bind_gets, !bind_modify.
  set (nm := load_bytes (mem s2) (frame + 2) (Z.to_nat DIRSIZ)). assert (Hl : length nm = 14%nat) by apply length_load_bytes.
  match goal with |- context [(writei _ _ _ _ _ ≫= _) ?t] => change t with (with_entry nm name inum s2) end.
  pose proof (scratch_trans _ _ _ _ K1 K2) as K12. pose proof (scratch_entry nm name inum s2 Hl) as Ke.
  assert (I3 : intx bs V ∅ (with_entry nm name inum s2)) by by apply intx_set_mem.
  pose proof frame_range as Hfr. assert (Hp : 0 < PHYSTOP) by (vm_compute; reflexivity).
  pose proof (fs_inside _ _ _ Hk) as Hin.
  destruct (decide (16 * Z.of_nat k + 16 <= MAXFILE * BSIZE)) as [Hmax|Hmax].
  2: { exists (with_entry nm name inum s2). split; [done|]. right. split; [|left; lia].
       pose proof (fready_scratch _ _ _ _ _ _ F (scratch_trans _ _ _ _ K12 Ke) I3) as F3.
       rewrite (bind_ok _ _ (with_entry nm name inum s2) (-1) (with_entry nm name inum s2)); [done|].
       apply writei_bad; rewrite ?(fr_ip _ _ _ _ _ _ _ _ _ F3); unfold is_u32, DIRENT, MAXFILE, NDIRECT, NINDIRECT, BSIZE in *; lia. }
  assert (Hw : writable me st sz sb bs V ip dp (16 * Z.of_nat k) 16 (with_entry nm name inum s2)).
  { eapply writable_scratch; [apply Hdir|exact (scratch_trans _ _ _ _ K12 Ke)|done|apply touched_entry]. }
  destruct (writei_good me st sz sb bs V ip dp _ frame _ 16 Hw) as (d & s' & bs' & V' & ip' & Ew & Hd & Hall & F' & K' & Eff);
    try (unfold DIRENT in *; lia).
  exists s'. split; [done|]. erewrite bind_ok by exact Ew. change DIRENT with 16. destruct (Z.eqb_spec d 16) as [->|Hne]; cbn [negb].
  - left. split; [done|]. apply (link_written bs V ip dp s name inum nm k (with_entry nm name inum s2) s' bs' V' ip'); try done.
    + exact (scratch_itable _ _ _ K12).
    + change (Z.to_nat 16) with 16%nat in Eff. rewrite <- (new_entry_bytes (mem s2)) by done. exact Eff.
  - right. split; [done|]. right. exists bs', V', ip'. split; [done|]. apply Hall. lia.
Qed.
End Link.

(** C13: [dirlink] adds a name to a directory.  If an entry in use has the name,
    it returns -1, changes no block and keeps the counts of references.
    Otherwise the first free entry, or a new one at the end, gets the inode
    number and the name; every other entry, the other blocks in use and the
    well-formedness of the file system are kept, the inode on disk is up to
    date, and [dirlookup] then finds the inode number under the name at that
    entry.  It returns -1 instead if the directory has its largest size or all
    blocks of the disk are in use. *)
Theorem dirlink_correct (L : Layout) (LO : LayoutOk L) (W : World) (D : DiskDriver) (DO : DiskOk D)
    (Ser : Serial) (SO : SerialOk Ser) me st sz sb bs V ip dp s name inum :
  directory me st sz sb bs V ip dp s -> bytes_ok name -> 0 < inum < 65536 ->
  (exists s' j, dirlink dp name inum s = Ok (-1) s' /\ 16 * Z.of_nat j < i_size ip /\ entry_is V ip name j /\
     intx me st sz bs V ∅ s' /\ forall x, i_ref (ip_of s' x) = i_ref (ip_of s x)) \/
  (exists s' k, (forall j, 16 * Z.of_nat j < i_size ip -> ~ entry_is V ip name j) /\ free_slot V ip k /\
    (dirlink dp name inum s = Ok 0 s' /\ link_done me st sz sb V ip dp k name inum s' \/
     dirlink dp name inum s = Ok (-1) s' /\
       (MAXFILE * BSIZE < 16 * Z.of_nat k + 16 \/
        exists bs' V' ip', fready me st sz sb bs' V' ip' dp s' /\ all_marked sb V'))).
Proof.
  intros Hdir Hname Hi. pose proof (directory_ready _ _ _ _ _ _ _ _ _ Hdir) as F.
  destruct (dirlookup_finds me st sz bs V ip dp s name) as (s1 & I1 & K1 & Hr);
    [apply F|eapply fready_cache, F|apply F|by destruct Hdir..|done|].
  destruct Hr as [[E Hno]|(j & i & f & _ & Hj & He & _ & G & E)].
  - right. destruct (link_absent me st sz sb bs V ip dp s name inum s1 Hdir Hname Hi) as (k & s' & Hk & Hr); try done.
    { intros j. apply Hno. lia. }
    exists s', k. split; [intros j; apply Hno; lia|]. split; [done|exact Hr].
  - left. destruct (link_present me st sz bs V dp s name _ s1 i f (16 * Z.of_nat j) inum G I1 K1) as (s' & E' & I' & Hr); [by destruct Hdir|done|].
    exists s', j. by split_and!.
Qed.

(** *** A name is added *)

Lemma dir_baddr V bn : 0 <= bn -> baddr V dir_inode bn <> 0 -> bn = 0 /\ baddr V dir_inode bn = 45.
Proof.
  intros Hb Hnz. assert (H0 : forall k, (1 <= k)%nat -> at_ (i_addrs dir_inode) k = 0).
  { intros [|k] Hk; [lia|]. apply (at_replicate 12 k). }
  unfold baddr in *. destruct (Z.ltb_spec bn NDIRECT).
  - destruct (decide (bn = 0)) as [->|]; [done|]. rewrite H0 in Hnz by lia. done.
  - rewrite H0 in Hnz by (unfold NDIRECT; lia). done.
Qed.
Lemma dir_wfile V : V 44 = sample_map -> wfile 2 fs_sb V dir_inode.
Proof.
  intros HV. split; [done|done|cbn; unfold MAXFILE, NDIRECT, NINDIRECT, BSIZE; lia|done| |].
  - intros bn Hbn Hnz. destruct (dir_baddr V bn ltac:(lia) Hnz) as [-> ->].
    split; [apply sample_used; [done|lia|lia|done]|done].
  - intros bn bn' Hbn Hbn' Hnz E. destruct (dir_baddr V bn ltac:(lia) Hnz) as [-> _]. rewrite E in Hnz.
    by destruct (dir_baddr V bn' ltac:(lia) Hnz) as [-> _].
Qed.
Lemma dir_machine_map : disk_block (disk dir_machine) 44 = sample_map.
Proof. destruct (booted_on_ok dir_disk dir_disk_len) as (_ & _ & Sl & B & E). unfold dir_machine, fs_machine, log_machine_on. by rewrite E. Qed.
Lemma dir_machine_begun : exists s V, @begin_op nemu_world dir_machine = Ok tt s /\ V 45 = dir_block /\
  directory 0 2 16 fs_sb [] V dir_inode 0 s.
Proof.
  destruct (begin_tx (W := nemu_world) 0 2 16 dir_machine dir_machine_quiet) as (s & E & HI & K).
  pose proof dir_machine_map as HV. assert (Hit : itable s = itable dir_machine) by exact (tkept_itable _ _ _ K).
  assert (Hip : ip_of s 0 = dir_inode) by (unfold ip_of; by rewrite Hit).
  exists s, (disk_block (disk dir_machine)). split; [exact E|]. split; [exact dir_machine_block|].
  split; [|apply dir_file|reflexivity|reflexivity|by rewrite Hit|].
  - split; [cbn; unfold BPB, BSIZE; lia| | |unfold shorts, short; cbn; unfold T_DIR; lia|cbn; lia|vm_compute; reflexivity].
    + split; [exact HI|by rewrite (tkept_sblk _ _ _ K)|by apply bitmap_sample|by apply dir_wfile|exact Hip| |].
      * rewrite Hit. by eexists.
      * unfold LOGSIZE, MAXOPBLOCKS. lia.
    + split; [apply sample_used; [exact HV|vm_compute; by split|vm_compute; by right|by vm_compute]|]. split; [by vm_compute|].
      intros bn Hbn Hx. destruct (dir_baddr (disk_block (disk dir_machine)) bn) as [_ Hy]; [lia|by rewrite Hx|].
      rewrite Hx in Hy. by vm_compute in Hy.
  - exists 1%nat. unfold ip_of. rewrite Hit. unfold NINODE. split; [lia|reflexivity].
Qed.
Lemma dirlink_correct_witness : exists s r s', @begin_op nemu_world dir_machine = Ok tt s /\
  @dirlink test_layout nemu_world (@nemu_disk_driver test_layout nemu_world) (@nemu_serial nemu_world) 0 [97; 98] 9 s = Ok r s' /\ r = -1.
Proof.
  destruct dir_machine_begun as (s & V & E & HV & Hdir).
  destruct (dirlink_correct test_layout test_layout_ok nemu_world (@nemu_disk_driver test_layout nemu_world) (nemu_disk_laws _ _ nemu_world_disk)
    (@nemu_serial nemu_world) (nemu_serial_laws _ nemu_world_uart) 0 2 16 fs_sb [] V dir_inode 0 s [97; 98] 9 Hdir (at_u8 [97; 98]) ltac:(lia))
    as [(s' & j & Er & _)|(s' & k & Hno & _)].
  - exists s, (-1), s'. split; [exact E|]. split; [exact Er|reflexivity].
  - exfalso. apply (Hno 0%nat); [cbn; lia|].
    assert (Hd : dent V dir_inode 0 = [7; 0; 97; 98] ++ replicate 12 0).
    { unfold dent. rewrite fbytes_block; [|done|change (length (V 45) = Z.to_nat BSIZE); by rewrite HV|done].
      change (V (baddr V dir_inode (16 * Z.of_nat 0 / BSIZE))) with (V 45). by rewrite HV. }
    unfold entry_is, dent_inum, dent_name. rewrite Hd. split; [done|].
    apply namecmp_same; [exact (at_u8 [97; 98])|intros j; rewrite at_drop; apply (at_u8 ([7; 0; 97; 98] ++ replicate 12 0))|by vm_compute].
Defined.
