(* ===== verification/FsPath.v ===== *)
(** * Paths (ilock, iunlock, iput and namex of kernel/fs.c)

    [namex] walks the tree of directories that is on disk: it returns a
    reference to the inode the elements of the path lead to, and gives back all
    others it took on the way. *)
From S2P Require Import Prelude Memory Machine Platform Sv32 Spinlock Printf Kalloc Vm Proc Sleeplock Bio Log Fs Nemu.
From S2P Require Import ProcSpec SleepSpec NemuSpec BioSpec BioRefine LogSpec LogTx LogCrash ExitSpec FsTx FsAlloc FsFile FsWrite FsDir FsLink.
From stdpp Require Import gmap strings countable prelude.

Open Scope Z_scope.

(** ** The elements of a path *)

(** The non-empty strings between slashes; [cur] is the one under way. *)
Fixpoint elems_from (cur path : list Z) : list (list Z) :=
  let flush := fun l => match cur with [] => l | _ => cur :: l end in
  match path with
  | [] => flush []
  | c :: path' => if c =? 47 then flush (elems_from [] path') else elems_from (cur ++ [c]) path'
  end.
Definition elems : list Z -> list (list Z) := elems_from [].

(** A path as C has it: bytes, none of them NUL. *)
Definition c_path (path : list Z) : Prop := Forall (fun c => 0 < c < 256) path.

Lemma skip_slashes_cons c path : skip_slashes (c :: path) = if c =? 47 then skip_slashes path else c :: path.
Proof. destruct (Z.eqb_spec c 47) as [->|]; [done|]. cbn. by repeat case_match. Qed.
Lemma elems_skip path : elems (skip_slashes path) = elems path.
Proof.
  induction path as [|c path IH]; [done|]. rewrite skip_slashes_cons. unfold elems at 2. cbn [elems_from].
  by destruct (c =? 47) eqn:E; [|unfold elems; cbn [elems_from]; rewrite E].
Qed.
Lemma skip_slashes_le path : (length (skip_slashes path) <= length path)%nat.
Proof. induction path as [|c path IH]; [done|]. rewrite skip_slashes_cons. case_match; cbn [length]; lia. Qed.
Lemma skip_slashes_ok path : c_path path -> c_path (skip_slashes path).
Proof. unfold c_path. induction 1; [done|]. rewrite skip_slashes_cons. case_match; [done|]. by constructor. Qed.
Lemma skip_slashes_head c path p : skip_slashes path = c :: p -> c <> 47.
Proof.
  induction path as [|d path IH]; [done|]. rewrite skip_slashes_cons.
  destruct (Z.eqb_spec d 47); [done|]. congruence.
Qed.

Lemma take_elem_app path : forall e rest, take_elem path = (e, rest) -> path = e ++ rest /\ 47 ∉ e /\ head rest ∈ [None; Some 47].
Proof.
  induction path as [|c path IH]; intros e rest E; cbn [take_elem] in E.
  - injection E as <- <-. split; [done|]. set_solver.
  - destruct (Z.eqb_spec c 47) as [->|Hc].
    + injection E as <- <-. split; [done|]. set_solver.
    + destruct (take_elem path) as [e' r']. injection E as <- <-. destruct (IH e' r' eq_refl) as (-> & H1 & H2).
      split; [done|]. set_solver.
Qed.
Lemma elems_from_app e : forall cur rest, 47 ∉ e -> head rest ∈ [None; Some 47] -> cur ++ e <> [] ->
  elems_from cur (e ++ rest) = (cur ++ e) :: elems rest.
Proof.
  induction e as [|c e IH]; intros cur rest He Hr Hne; cbn [app].
  - rewrite app_nil_r in *. unfold elems. destruct rest as [|d rest]; cbn [elems_from]; [by destruct cur|].
    assert (d = 47) as -> by (cbn in Hr; set_solver). by destruct cur.
  - cbn [elems_from]. rewrite (proj2 (Z.eqb_neq c 47)) by set_solver. rewrite IH; [by rewrite <- app_assoc|set_solver|done|].
    by destruct cur.
Qed.

(** *** Names *)

Lemma same_name_sym a b : same_name a b -> same_name b a.
Proof.
  intros H j. induction j as [j IH] using lt_wf_ind. intros Hj Hk. symmetry. apply H; [done|].
  intros k Hkj. rewrite <- (IH k Hkj ltac:(lia)) by (intros; apply Hk; lia). by apply Hk.
Qed.
Lemma same_name_trans a b c : same_name a b -> same_name b c -> same_name a c.
Proof.
  intros H1 H2 j Hj Hk. rewrite (H1 j Hj Hk). apply H2; [done|]. intros k Hkj.
  rewrite <- (H1 k ltac:(lia)); [by apply Hk|]. intros k' ?. apply Hk. lia.
Qed.
Lemma entry_is_same V ip a b k : same_name a b -> entry_is V ip a k <-> entry_is V ip b k.
Proof.
  intros H. unfold entry_is. split; intros [H1 H2]; (split; [done|]).
  - eapply same_name_trans; [|exact H2]. by apply same_name_sym.
  - by eapply same_name_trans.
Qed.

(** The buffer [skipelem] leaves the element in. *)
Definition elem_name (name e : list Z) : list Z :=
  if DIRSIZ <=? Z.of_nat (length e) then splice name 0 (take (Z.to_nat DIRSIZ) e)
  else splice (splice name 0 e) (length e) [0].

Lemma at_end l j : (length l <= j)%nat -> at_ l j = 0.
Proof. intros H. unfold at_. by rewrite nth_overflow. Qed.
Lemma at_path path j : c_path path -> 0 <= at_ path j < 256.
Proof.
  intros H. unfold at_. rewrite nth_lookup. destruct (path !! j) eqn:E; cbn; [|lia].
  pose proof (Forall_lookup_1 _ _ _ _ H E). cbn in *. lia.
Qed.

Lemma elem_name_ok name e : length name = Z.to_nat DIRSIZ -> bytes_ok name -> c_path e ->
  length (elem_name name e) = Z.to_nat DIRSIZ /\ bytes_ok (elem_name name e) /\ same_name (elem_name name e) e.
Proof.
  intros Hl Hb He. change (Z.to_nat DIRSIZ) with 14%nat in *. unfold elem_name.
  destruct (Z.leb_spec DIRSIZ (Z.of_nat (length e))) as [H|H]; unfold DIRSIZ in H.
  - change (Z.to_nat DIRSIZ) with 14%nat. assert (Ht : length (take 14 e) = 14%nat) by (rewrite length_take; lia).
    assert (Hat : forall j, at_ (splice name 0 (take 14 e)) j = if decide (j < 14)%nat then at_ e j else at_ name j).
    { intros j. rewrite at_splice by (rewrite Ht; lia). rewrite Ht. destruct (decide (j < 14)%nat) as [Hj|Hj].
      - rewrite decide_True by lia. rewrite Nat.sub_0_r. by apply at_take.
      - by rewrite decide_False by lia. }
    split; [by rewrite length_splice|]. split.
    + intros j. rewrite Hat. case_decide; [by apply at_path|apply Hb].
    + intros j Hj _. rewrite Hat. by rewrite decide_True.
  - assert (Hat : forall j, at_ (splice (splice name 0 e) (length e) [0]) j =
      if decide (j < length e)%nat then at_ e j else if decide (j = length e) then 0 else at_ name j).
    { intros j. rewrite at_splice by (rewrite length_splice; cbn; lia). cbn [length].
      rewrite at_splice by lia. destruct (decide (j = length e)) as [->|Hne].
      - rewrite decide_True by lia. rewrite decide_False by lia. by rewrite Nat.sub_diag.
      - rewrite decide_False by lia. destruct (decide (j < length e)%nat).
        + rewrite decide_True by lia. by rewrite Nat.sub_0_r.
        + by rewrite decide_False by lia. }
    split; [by rewrite !length_splice|]. split.
    + intros j. rewrite Hat. repeat case_decide; [by apply at_path|lia|apply Hb].
    + intros j Hj Hk. rewrite Hat. case_decide; [done|]. rewrite (at_end e) by lia. case_decide; [done|].
      exfalso. apply (Hk (length e)); [lia|]. rewrite Hat, (decide_False (P := (length e < length e)%nat)) by lia.
      by rewrite decide_True.
Qed.

Lemma skipelem_none path name : skipelem path name = None -> elems path = [].
Proof.
  unfold skipelem. rewrite <- elems_skip. destruct (skip_slashes path); [done|]. by destruct (take_elem _).
Qed.
Lemma skipelem_some path name p' nm : skipelem path name = Some (p', nm) -> length name = Z.to_nat DIRSIZ ->
  bytes_ok name -> c_path path ->
  exists e, elems path = e :: elems p' /\ same_name nm e /\ bytes_ok nm /\ length nm = Z.to_nat DIRSIZ /\
    c_path p' /\ (length p' < length path)%nat /\ (elems p' = [] -> p' = []).
Proof.
  intros E Hl Hb Hp. pose proof (skip_slashes_le path) as Hle. apply skip_slashes_ok in Hp.
  rewrite <- elems_skip. unfold skipelem in E. destruct (skip_slashes path) as [|c q] eqn:Eq; [done|].
  apply skip_slashes_head in Eq. destruct (take_elem (c :: q)) as [e rest] eqn:Et.
  destruct (take_elem_app _ _ _ Et) as (Ee & He & Hr). fold (elem_name name e) in E. injection E as <- <-.
  assert (Hne : e <> []) by (intros ->; cbn in Ee; subst rest; cbn in Hr; set_solver).
  rewrite Ee in Hp |- *. apply Forall_app in Hp as [Hpe Hpr].
  destruct (elem_name_ok name e Hl Hb Hpe) as (H1 & H2 & H3).
  exists e. split; [unfold elems at 1; by rewrite (elems_from_app e [] rest), elems_skip|].
  split_and!; [done|done|done|by apply skip_slashes_ok| |].
  - apply (f_equal length) in Ee. rewrite length_app in Ee. pose proof (skip_slashes_le rest).
    destruct e; [done|]. cbn [length] in *. lia.
  - destruct (skip_slashes rest) as [|d p] eqn:Er; [done|]. apply skip_slashes_head in Er.
    unfold elems. cbn [elems_from]. rewrite (proj2 (Z.eqb_neq d 47)) by done.
    assert (Hf : forall l cur, cur <> [] -> elems_from cur l <> []).
    { clear. induction l as [|x l IH]; intros cur Hc; cbn [elems_from]; [by destruct cur|].
      case_match; [by destruct cur|]. apply IH. by destruct cur. }
    intros E0. by apply Hf in E0.
Qed.

(** ** The tree on disk *)

Section Tree.
Context (sb : superblock) (V : Z -> list Z).

(** An entry of the inode table once it has been read from disk, and inode
    [n] as it is there. *)
Definition on_disk (ip : inode) : inode := dip_read (V (IBLOCK (i_inum ip) sb)) (dinode_off (i_inum ip)) ip.
Definition dnode (n : Z) : inode := on_disk (mk_inode ROOTDEV n 0 0 0 0 0 0 0 []).

(** An inode of the file system that is allocated and has a link. *)
Definition live (n : Z) : Prop := 0 < n < sb_ninodes sb /\ i_type (dnode n) <> 0 /\ i_nlink (dnode n) <> 0.
Definition is_dir (n : Z) : Prop := i_type (dnode n) = T_DIR.
(** Entry [k] of directory [n] is within its size. *)
Definition has_entry (n : Z) (k : nat) : Prop := 16 * Z.of_nat k < i_size (dnode n).

(** The directories are well-formed files, and what they name is live. *)
Record tree_ok : Prop := {
  tr_root : live ROOTINO;
  tr_dir : forall n, live n -> is_dir n -> file_ok V (dnode n) /\ i_size (dnode n) mod 16 = 0;
  tr_entry : forall n k, live n -> is_dir n -> has_entry n k -> dent_inum V (dnode n) k <> 0 ->
    live (dent_inum V (dnode n) k);
}.

(** Entry [k] is the first of directory [n] with the name. *)
Definition first_entry (n : Z) (name : list Z) (k : nat) : Prop :=
  has_entry n k /\ entry_is V (dnode n) name k /\ forall j, (j < k)%nat -> ~ entry_is V (dnode n) name j.
Definition no_entry (n : Z) (name : list Z) : Prop :=
  forall k, has_entry n k -> ~ entry_is V (dnode n) name k.

(** Where the elements of a path lead from inode [n]; with [parent], to the
    directory the last element is to be found in. *)
Inductive walks (parent : bool) : Z -> list (list Z) -> option Z -> Prop :=
| walks_here n : parent = false -> walks parent n [] (Some n)
| walks_no_parent n : parent = true -> walks parent n [] None
| walks_file n e es : ~ is_dir n -> walks parent n (e :: es) None
| walks_parent n e : parent = true -> is_dir n -> walks parent n [e] (Some n)
| walks_missing n e es : is_dir n -> (parent = true -> es <> []) -> no_entry n e -> walks parent n (e :: es) None
| walks_entry n e es k r : is_dir n -> (parent = true -> es <> []) -> first_entry n e k ->
    walks parent (dent_inum V (dnode n) k) es r -> walks parent n (e :: es) r.

(** A path leads to one place at most. *)
Lemma first_entry_unique n e k k' : first_entry n e k -> first_entry n e k' -> k = k'.
Proof.
  intros (_ & H1 & H2) (_ & H1' & H2'). destruct (Nat.lt_trichotomy k k') as [H|[H|H]]; [|done|].
  - by apply H2' in H.
  - by apply H2 in H.
Qed.
Lemma walks_det parent n es r r' : walks parent n es r -> walks parent n es r' -> r = r'.
Proof.
  assert (Hex : forall m e k, no_entry m e -> first_entry m e k -> False) by (intros m e k H (H1 & H2 & _); by apply (H k)).
  intros H. revert r'. induction H as [| | | | |n e es k r Hd Hp Hf Hw IH]; intros r' H'; inversion H'; subst;
    try reflexivity; try discriminate; try contradiction;
    try (exfalso; match goal with
      | N : no_entry _ ?e, F : first_entry _ ?e _ |- _ => exact (Hex _ _ _ N F)
      | N : ?p = true -> [] <> [] |- _ => by apply N
      end).
  apply IH. by rewrite (first_entry_unique n e k k0).
Qed.
End Tree.

(** An entry that has been read is what is on disk. *)
Section Cached.
Context (sb : superblock) (V : Z -> list Z) (ip : inode).
Hypothesis Hd : on_disk sb V ip = ip.
Notation n := (i_inum ip).

Lemma cached_type : i_type ip = i_type (dnode sb V n).
Proof using Hd. by rewrite <- Hd. Qed.
Lemma cached_nlink : i_nlink ip = i_nlink (dnode sb V n).
Proof using Hd. by rewrite <- Hd. Qed.
Lemma cached_size : i_size ip = i_size (dnode sb V n).
Proof using Hd. by rewrite <- Hd. Qed.
Lemma cached_addrs : i_addrs ip = i_addrs (dnode sb V n).
Proof using Hd. by rewrite <- Hd. Qed.
Lemma cached_baddr bn : baddr V ip bn = baddr V (dnode sb V n) bn.
Proof using Hd. unfold baddr. by rewrite cached_addrs. Qed.
Lemma cached_bytes off k : fbytes V ip off k = fbytes V (dnode sb V n) off k.
Proof using Hd. unfold fbytes. apply list_fmap_ext. intros j x _. unfold fbyte. by rewrite cached_baddr. Qed.
Lemma cached_dent k : dent V ip k = dent V (dnode sb V n) k.
Proof using Hd. unfold dent. by rewrite cached_bytes. Qed.
Lemma cached_entry name k : entry_is V ip name k <-> entry_is V (dnode sb V n) name k.
Proof using Hd. unfold entry_is, dent_inum, dent_name. by rewrite cached_dent. Qed.
Lemma cached_file : i_dev ip = ROOTDEV -> file_ok V (dnode sb V n) -> file_ok V ip.
Proof using Hd.
  intros Hdev [H1 H2 H3 H4]. split; [done|by rewrite cached_size|by rewrite cached_addrs|].
  intros bn H0 Hb. rewrite cached_baddr. apply H4; [done|]. by rewrite <- cached_size.
Qed.
End Cached.

(** ** What a walk changes *)

(** Only the scratch entry on the stack, the inode table, the sleep locks and
    what transactions change, differ. *)
Definition walked `{Layout} (me : nat) (s s' : kstate) : Prop := exists m It S l B D T M U N P,
  (forall a, ~ (frame <= a < frame + DIRENT) -> load8 m a = load8 (mem s) a) /\ woken me (procs s) P /\
  s' = set_mem m (set_itable It (set_slocks S (set_log l (set_bufs B (set_disk D (set_dtrace T
         (set_mmio M (set_uart U (set_nmmio N (set_procs P s)))))))))).

Section Walked.
Context {L : Layout} (me : nat).

Lemma walked_trans s1 s2 s3 : walked me s1 s2 -> walked me s2 s3 -> walked me s1 s3.
Proof.
  intros (m & It & S & l & B & D & T & M & U & N & P & Hm & Hw & ->)
    (m' & It' & S' & l' & B' & D' & T' & M' & U' & N' & P' & Hm' & Hw' & ->).
  exists m', It', S', l', B', D', T', M', U', N', P'. split; [|split; [by eapply woken_trans|done]].
  intros a Ha. rewrite Hm' by done. by apply Hm.
Qed.
Lemma walked_tkept s s' : tkept me s s' -> walked me s s'.
Proof.
  intros (l & t & -> & B & S & D & T & M & U & N & P & [Hw _] & ->).
  by exists (mem s), (itable s), S, l, B, D, T, M, U, N, P.
Qed.
Lemma walked_scratch s s' : scratch me s s' -> walked me s s'.
Proof.
  intros (m & Hm & l & t & -> & B & S & D & T & M & U & N & P & [Hw _] & ->).
  by exists m, (itable s), S, l, B, D, T, M, U, N, P.
Qed.
Lemma walked_upd_inode i f s : walked me s (upd_inode i f s).
Proof.
  exists (mem s), (alter f i (itable s)), (slocks s), (log s), (bufs s), (disk s), (dtrace s), (mmio s), (uart s), (nmmio s), (procs s).
  split; [done|]. split; [apply woken_refl|]. by destruct s.
Qed.
Lemma walked_upd_slock x v s : walked me s (upd_slock x v s).
Proof.
  exists (mem s), (itable s), (<[x := v]> (slocks s)), (log s), (bufs s), (disk s), (dtrace s), (mmio s), (uart s), (nmmio s), (procs s).
  split; [done|]. split; [apply woken_refl|]. by destruct s.
Qed.
Lemma walked_sblk s s' : walked me s s' -> sblk s' = sblk s.
Proof. by intros (m & It & S & l & B & D & T & M & U & N & P & Hm & Hw & ->). Qed.
Lemma walked_pid s s' : walked me s s' -> pid_of me s' = pid_of me s.
Proof.
  intros (m & It & S & l & B & D & T & M & U & N & P & Hm & [Hw _] & ->). unfold pid_of, proc_of. ksimp. by rewrite Hw.
Qed.
End Walked.

(** ** The inode table *)

Section Table.
Context {L : Layout} {LO : LayoutOk L} {W : World} {D : DiskDriver} {DO : DiskOk D} {Ser : Serial} {SO : SerialOk Ser}.
Context (me : nat) (st sz : Z) (sb : superblock) (bs : list Z) (V : Z -> list Z).
Notation intx := (intx me st sz bs V ∅).
Notation on_disk := (on_disk sb V).
Notation dnode := (dnode sb V).
Notation live := (live sb V).

(** Inside a transaction: what an entry in use has read is what is on disk, no
    inode is in two entries, and [lk] is the only inode locked. *)
Record itab (lk : option nat) (s : kstate) : Prop := {
  tb_tx : intx s;
  tb_room : (length bs < NBUF)%nat;
  tb_sb : sblk s = sb;
  tb_len : length (itable s) = NINODE;
  tb_ref : forall j, 0 <= i_ref (ip_of s j);
  tb_dev : forall j, 0 < i_ref (ip_of s j) -> i_dev (ip_of s j) = ROOTDEV;
  tb_valid : forall j, 0 < i_ref (ip_of s j) -> i_valid (ip_of s j) <> 0 -> on_disk (ip_of s j) = ip_of s j;
  tb_uniq : forall j j', 0 < i_ref (ip_of s j) -> 0 < i_ref (ip_of s j') -> i_inum (ip_of s j) = i_inum (ip_of s j') -> j = j';
  tb_lock : forall j, (j < NINODE)%nat -> slock_of s (SLInode j) = if decide (lk = Some j) then taken me s else sl_blank;
}.

(** From [s] to [s'] the references of entry [j] go up by [d j], and the
    entries in use stay. *)
Definition recount (s s' : kstate) (d : nat -> Z) : Prop := forall j, (j < NINODE)%nat ->
  i_ref (ip_of s' j) = i_ref (ip_of s j) + d j /\ (0 < i_ref (ip_of s j) -> i_inum (ip_of s' j) = i_inum (ip_of s j)).
Definition one (o : option nat) (j : nat) : Z := if decide (o = Some j) then 1 else 0.

Lemma one_same i : one (Some i) i = 1.
Proof. unfold one. by rewrite decide_True. Qed.
Lemma one_none j : one None j = 0.
Proof. unfold one. by rewrite decide_False. Qed.
Lemma one_nonneg o j : 0 <= one o j.
Proof. unfold one. case_decide; lia. Qed.
Lemma recount_trans s s1 s2 d d1 : recount s s1 d -> recount s1 s2 d1 -> (forall j, 0 <= d j) ->
  recount s s2 (fun j => d j + d1 j).
Proof.
  intros H H1 Hd j Hj. destruct (H j Hj) as [A B], (H1 j Hj) as [A1 B1]. specialize (Hd j).
  split; [lia|]. intros Hr. rewrite B1 by lia. by apply B.
Qed.
Lemma recount_ext s s' d d' : recount s s' d -> (forall j, d j = d' j) -> recount s s' d'.
Proof. intros H E j Hj. rewrite <- E. by apply H. Qed.
Lemma recount_table s s' : itable s' = itable s -> recount s s' (one None).
Proof. intros E j _. unfold ip_of. rewrite E, one_none. split; [lia|done]. Qed.

(** *** How the table is kept *)

Lemma tkept_ilock s s' j : tkept me s s' -> slock_of s' (SLInode j) = slock_of s (SLInode j).
Proof. intros (l & t & -> & B & S & D' & T & M & U & N & P & [Hw HS] & ->). apply HS. Qed.
Lemma itab_scratch lk s s' : itab lk s -> scratch me s s' -> intx s' -> itab lk s'.
Proof.
  intros H K HI. pose proof (walked_pid _ _ _ (walked_scratch _ _ _ K)) as Ep.
  assert (Eip : forall j, ip_of s' j = ip_of s j) by (intros j; unfold ip_of; by rewrite (scratch_itable _ _ _ K)).
  destruct H as [H1 H2 H3 H4 H5 H6 H7 H8 H9]. split; [done|done| | | | | | |].
  - by rewrite (walked_sblk _ _ _ (walked_scratch _ _ _ K)).
  - by rewrite (scratch_itable _ _ _ K).
  - intros j. by rewrite Eip.
  - intros j. rewrite Eip. apply H6.
  - intros j. rewrite Eip. apply H7.
  - intros j j'. rewrite !Eip. apply H8.
  - intros j Hj. destruct K as (m & _ & K). rewrite (tkept_ilock _ _ _ K). unfold taken. rewrite Ep. by apply H9.
Qed.
Lemma itab_tkept lk s s' : itab lk s -> tkept me s s' -> intx s' -> itab lk s'.
Proof. intros H K. apply (itab_scratch lk s); [done|]. by exists (mem s). Qed.

(** An entry that may stand in slot [i]. *)
Definition slot_fits (s : kstate) (i : nat) (ip : inode) : Prop := 0 <= i_ref ip /\ (0 < i_ref ip ->
  i_dev ip = ROOTDEV /\ (i_valid ip <> 0 -> on_disk ip = ip) /\
  forall j, j <> i -> 0 < i_ref (ip_of s j) -> i_inum (ip_of s j) <> i_inum ip).
Lemma itab_upd lk s i f : itab lk s -> (i < NINODE)%nat -> slot_fits s i (f (ip_of s i)) -> itab lk (upd_inode i f s).
Proof.
  intros [H1 H2 H3 H4 H5 H6 H7 H8 H9] Hi [F1 F2].
  assert (Eip : forall j, ip_of (upd_inode i f s) j = if decide (j = i) then f (ip_of s i) else ip_of s j)
    by (intros j; apply ip_of_upd; by rewrite H4).
  split; [by apply intx_upd_inode|done|done| | | | | |exact H9].
  - unfold upd_inode. ksimp. by rewrite length_alter.
  - intros j. rewrite Eip. by case_decide.
  - intros j. rewrite Eip. case_decide; [intros; by apply F2|apply H6].
  - intros j. rewrite Eip. case_decide; [intros; by apply F2|apply H7].
  - intros j j'. rewrite !Eip. repeat case_decide; intros Hr Hr' En; subst; [done| | |by apply H8].
    + destruct (F2 Hr) as (_ & _ & F3). by destruct (F3 j').
    + destruct (F2 Hr') as (_ & _ & F3). by destruct (F3 j).
Qed.
Lemma itab_slock lk lk' s i v : itab lk s -> (i < NINODE)%nat -> (forall j, j <> i -> lk = Some j <-> lk' = Some j) ->
  v = (if decide (lk' = Some i) then taken me s else sl_blank) -> itab lk' (upd_slock (SLInode i) v s).
Proof.
  intros [H1 H2 H3 H4 H5 H6 H7 H8 H9] Hi Hlk ->. split; [|done..|].
  - apply (intx_same me st sz bs V ∅ s); [|done| |done].
    + split; [done|]. split; [|done]. intros b. by apply slock_of_upd_ne.
    + destruct (it_ctx _ _ _ _ _ _ _ H1) as [[] ? ? ? ?]. by split.
  - intros j Hj. change (taken me (upd_slock (SLInode i) ?v s)) with (taken me s).
    destruct (decide (j = i)) as [->|Hne]; [by rewrite slock_of_upd|].
    rewrite slock_of_upd_ne, H9 by congruence. by rewrite (decide_ext (lk = Some j) (lk' = Some j)) by by apply Hlk.
Qed.

Lemma itab_ctx lk s : itab lk s -> ctx me s.
Proof. intros H. apply (tb_tx _ _ H). Qed.
Lemma itab_free j s : itab None s -> (j < NINODE)%nat -> sl_locked (slock_of s (SLInode j)) = 0.
Proof. intros H Hj. rewrite (tb_lock _ _ H j Hj). by rewrite decide_False. Qed.

(** *** ilock, iunlock and iput *)

(** Reading the entry: what [ilock] does once it has the lock. *)
Lemma ilock_read i s (k : K unit) : itab (Some i) s -> (i < NINODE)%nat -> 0 < i_ref (ip_of s i) ->
  exists s', (sb ← gets (fun s => sblk s);
      ip ← gets (fun s => ip_of s i);
      bp ← bread (i_dev ip) (IBLOCK (i_inum ip) sb);
      data ← bget_field bp b_data;
      iset i (fun ip => dip_read data (dinode_off (i_inum ip)) ip) ;;
      brelse bp ;;
      iset i (set_i_valid 1) ;; k) s = k s' /\ itab (Some i) s' /\ walked me s s' /\
    forall j, ip_of s' j = if decide (j = i) then set_i_valid 1 (on_disk (ip_of s i)) else ip_of s j.
Proof.
  intros H Hi Hr. pose proof (tb_tx _ _ H) as HI. rewrite !bind_gets, (tb_sb _ _ H), (tb_dev _ _ H i Hr).
  set (b := IBLOCK (i_inum (ip_of s i)) sb).
  destruct (tx_bread me st sz bs V ∅ s b HI (lookup_empty _)) as (x & s2 & E2 & I2 & K2);
    [apply u32_range|rewrite map_size_empty; pose proof (tb_room _ _ H); lia|].
  rewrite (bind_ok _ _ _ _ _ E2), (tx_get me st sz _ _ _ _ _ _ _ I2 (lookup_insert_eq _ _ _)).
  unfold iset. set (g := fun ip => dip_read (V b) (dinode_off (i_inum ip)) ip). rewrite bind_modify.
  destruct (tx_brelse me st sz _ _ _ (upd_inode i g s2) b x (intx_upd_inode me st sz _ _ _ i g s2 I2) (lookup_insert_eq _ _ _))
    as (s4 & E4 & I4 & K4). rewrite (bind_ok _ _ _ _ _ E4). rewrite delete_insert_eq, delete_empty in I4.
  set (h := fun ip => set_i_valid 1 (g ip)).
  assert (K : tkept me (upd_inode i h s) (upd_inode i (set_i_valid 1) s4)).
  { change h with (fun ip => set_i_valid 1 (g ip)). rewrite <- (upd_inode_twice i (set_i_valid 1) g). apply tkept_upd_inode.
    eapply tkept_trans; [|exact K4]. by apply tkept_upd_inode. }
  assert (Hip : forall j, ip_of (upd_inode i h s) j = if decide (j = i) then set_i_valid 1 (on_disk (ip_of s i)) else ip_of s j)
    by (intros j; apply ip_of_upd; by rewrite (tb_len _ _ H)).
  assert (Hh : itab (Some i) (upd_inode i h s)).
  { apply itab_upd; [done|done|]. split; [apply (tb_ref _ _ H i)|]. intros _. split; [by apply (tb_dev _ _ H)|]. split; [done|].
    intros j Hne Hrj E. by apply Hne, (tb_uniq _ _ H). }
  exists (upd_inode i (set_i_valid 1) s4). split; [done|]. split.
  - eapply itab_tkept; [exact Hh|exact K|]. by apply intx_upd_inode.
  - split; [eapply walked_trans; [apply walked_upd_inode|by apply walked_tkept]|].
    intros j. by rewrite (tkept_ip _ _ _ _ K).
Qed.
(** [ilock] of a live inode takes the lock and has read the entry. *)
Lemma ilock_ok i s : itab None s -> (i < NINODE)%nat -> 0 < i_ref (ip_of s i) -> live (i_inum (ip_of s i)) ->
  exists s', ilock (Some i) s = Ok tt s' /\ itab (Some i) s' /\ walked me s s' /\ recount s s' (one None) /\
    i_valid (ip_of s' i) <> 0.
Proof.
  intros H Hi Hr (_ & Ht & _). unfold ilock. rewrite bind_gets, (proj2 (Z.ltb_ge _ _)) by lia.
  erewrite bind_ok by (apply (acquiresleep_ok me); [by eapply itab_ctx|exact Hi|by apply itab_free]).
  set (s1 := upd_slock (SLInode i) (taken me s) s).
  assert (H1 : itab (Some i) s1).
  { apply (itab_slock None); [done|done| |by rewrite decide_True]. intros j Hne. split; congruence. }
  rewrite bind_gets. change (ip_of s1 i) with (ip_of s i).
  destruct (Z.eqb_spec (i_valid (ip_of s i)) 0) as [Hv|Hv].
  - match goal with |- context [iset i (set_i_valid 1) ;; ?k] => destruct (ilock_read i s1 k H1 Hi Hr) as (s' & E & H' & Hw & Hip) end.
    rewrite E, bind_gets, Hip, decide_True by done. rewrite (proj2 (Z.eqb_neq _ _)) by exact Ht.
    exists s'. split; [done|]. split; [done|]. split; [eapply walked_trans; [apply walked_upd_slock|done]|].
    split; [|by rewrite Hip, decide_True]. intros j _. rewrite Hip, one_none.
    case_decide as Ej; [subst j|]; (split; [by rewrite Z.add_0_r|done]).
  - exists s1. split; [done|]. split; [done|]. split; [apply walked_upd_slock|]. split; [by apply recount_table|done].
Qed.

Lemma iunlock_ok i s : itab (Some i) s -> (i < NINODE)%nat -> 0 < i_ref (ip_of s i) ->
  exists s', iunlock (Some i) s = Ok tt s' /\ itab None s' /\ walked me s s' /\ itable s' = itable s.
Proof.
  intros H Hi Hr. pose proof (itab_ctx _ _ H) as Hc. unfold iunlock.
  erewrite bind_ok by (apply (holdingsleep_ok me); [done|exact Hi|rewrite (tb_lock _ _ H i Hi); by rewrite decide_True]).
  cbn [negb]. rewrite bind_gets, (proj2 (Z.ltb_ge _ _)) by lia.
  rewrite (releasesleep_ok me (SLInode i) s Hc Hi). set (s1 := upd_slock (SLInode i) sl_blank s).
  assert (H1 : itab None s1).
  { apply (itab_slock (Some i)); [done|done| |by rewrite decide_False]. intros j Hne. split; congruence. }
  set (s2 := set_procs _ _).
  assert (K0 : bkept me s1 s2) by exact (bkept_wake me s1 s1 (bkept_refl me s1) _).
  pose proof (bkept_tkept _ _ _ K0) as K.
  assert (I2 : intx s2).
  { apply (intx_same me st sz bs V ∅ s1); [|done| |apply (tb_tx _ _ H1)].
    - split; [done|]. split; [done|]. split; [done|]. apply (walked_pid me s1). by apply walked_tkept.
    - apply (bkept_ctx me s1); [done|by eapply itab_ctx]. }
  exists s2. split; [done|]. split; [by eapply itab_tkept|].
  split; [eapply walked_trans; [apply walked_upd_slock|by apply walked_tkept]|done].
Qed.

Lemma on_disk_ref r ip : on_disk (set_i_ref r ip) = set_i_ref r (on_disk ip).
Proof. done. Qed.
(** [iput] of an inode with a link drops a reference. *)
Lemma iput_ok i s : itab None s -> (i < NINODE)%nat -> 0 < i_ref (ip_of s i) -> live (i_inum (ip_of s i)) ->
  exists s', iput i s = Ok tt s' /\ itab None s' /\ walked me s s' /\ recount s s' (fun j => - one (Some i) j).
Proof.
  intros H Hi Hr (_ & _ & Hn). set (f := fun ip => set_i_ref (i_ref ip - 1) ip). exists (upd_inode i f s). split.
  - apply (iput_drops me); [by eapply itab_ctx|]. destruct (decide (i_valid (ip_of s i) = 0)) as [E|E]; [by right; left|].
    right; right. by rewrite (cached_nlink sb V) by by apply (tb_valid _ _ H).
  - split; [|split; [apply walked_upd_inode|]].
    + apply itab_upd; [done|done|]. split; [cbn; lia|]. intros _. split; [by apply (tb_dev _ _ H)|].
      split; [|intros j Hne Hrj E; by apply Hne, (tb_uniq _ _ H)].
      intros Hv. unfold f. rewrite on_disk_ref. by rewrite (tb_valid _ _ H i Hr Hv).
    + intros j _. rewrite ip_of_upd by by rewrite (tb_len _ _ H). unfold one.
      destruct (decide (j = i)) as [->|Hne]; [rewrite decide_True by done; split; [cbn; lia|done]|].
      rewrite decide_False by congruence. split; [lia|done].
Qed.
Lemma iunlockput_ok i s : itab (Some i) s -> (i < NINODE)%nat -> 0 < i_ref (ip_of s i) -> live (i_inum (ip_of s i)) ->
  exists s', iunlockput i s = Ok tt s' /\ itab None s' /\ walked me s s' /\ recount s s' (fun j => - one (Some i) j).
Proof.
  intros H Hi Hr Hl. destruct (iunlock_ok i s H Hi Hr) as (s1 & E1 & H1 & W1 & Et).
  assert (Eip : forall j, ip_of s1 j = ip_of s j) by (intros j; unfold ip_of; by rewrite Et).
  rewrite <- (Eip i) in Hr, Hl. destruct (iput_ok i s1 H1 Hi Hr Hl) as (s2 & E2 & H2 & W2 & R2).
  exists s2. split; [unfold iunlockput; by rewrite (bind_ok _ _ _ _ _ E1)|]. split; [done|].
  split; [by eapply walked_trans|]. intros j Hj. rewrite <- Eip. by apply R2.
Qed.

(** *** Taking a reference *)

Lemma igot_ok lk n s i f : itab lk s -> igot ROOTDEV n s i f ->
  itab lk (upd_inode i f s) /\ recount s (upd_inode i f s) (one (Some i)) /\ i_inum (ip_of (upd_inode i f s) i) = n.
Proof.
  intros H [Hi Hdev Hn Hc].
  assert (Eip : forall j, ip_of (upd_inode i f s) j = if decide (j = i) then f (ip_of s i) else ip_of s j)
    by (intros j; apply ip_of_upd; by rewrite (tb_len _ _ H)).
  assert (Hcount : i_ref (f (ip_of s i)) = i_ref (ip_of s i) + 1 /\
    (0 < i_ref (ip_of s i) -> f (ip_of s i) = set_i_ref (i_ref (ip_of s i) + 1) (ip_of s i)))
    by (destruct Hc as [[_ ->]|(E0 & _ & E1 & _)]; [done|split; lia]).
  split_and!.
  - apply itab_upd; [done|done|]. pose proof (tb_ref _ _ H i). split; [lia|]. intros _. split; [done|].
    destruct Hc as [[Hca Ef]|(E0 & Hno & E1 & Ev)].
    + apply andb_prop in Hca as [[Hr%Z.ltb_lt _]%andb_prop _]. rewrite Ef. split.
      * intros Hv. rewrite on_disk_ref. by rewrite (tb_valid _ _ H i Hr Hv).
      * intros j Hne Hrj E. by apply Hne, (tb_uniq _ _ H).
    + split; [congruence|]. intros j Hne Hrj E. rewrite Hn in E.
      assert (Hj : (j < NINODE)%nat).
      { rewrite <- (tb_len _ _ H). apply lookup_lt_is_Some. unfold ip_of in Hrj. destruct (itable s !! j); [by eexists|done]. }
      specialize (Hno j Hj). unfold caches_inode in Hno.
      rewrite (proj2 (Z.ltb_lt _ _) Hrj), (tb_dev _ _ H j Hrj), E, !Z.eqb_refl in Hno. done.
  - intros j Hj. rewrite Eip. unfold one. destruct (decide (j = i)) as [->|Hne].
    + rewrite decide_True by done. split; [apply Hcount|]. intros Hr. by rewrite (proj2 Hcount Hr).
    + rewrite decide_False by congruence. split; [lia|done].
  - rewrite Eip. by rewrite decide_True.
Qed.

Definition spare (s : kstate) : Prop := exists j, (j < NINODE)%nat /\ i_ref (ip_of s j) = 0.

Lemma iget_ok n s : itab None s -> spare s -> exists i s', iget ROOTDEV n s = Ok i s' /\ (i < NINODE)%nat /\
  itab None s' /\ walked me s s' /\ recount s s' (one (Some i)) /\ i_inum (ip_of s' i) = n.
Proof.
  intros H Hsp. destruct (iget_spec me ROOTDEV n s (itab_ctx _ _ H) (tb_len _ _ H) Hsp) as (i & f & Hi & E & Hd & Hn & Hc).
  assert (G : igot ROOTDEV n s i f) by by split.
  destruct (igot_ok _ _ _ _ _ H G) as (H' & R & En). exists i, (upd_inode i f s).
  split_and!; [done|done|done|apply walked_upd_inode|done|done].
Qed.
Lemma idup_tab i s : itab None s -> (i < NINODE)%nat -> 0 < i_ref (ip_of s i) ->
  exists s', idup i s = Ok i s' /\ itab None s' /\ walked me s s' /\ recount s s' (one (Some i)) /\
    i_inum (ip_of s' i) = i_inum (ip_of s i).
Proof.
  intros H Hi Hr. set (f := fun ip => set_i_ref (i_ref ip + 1) ip).
  assert (G : igot ROOTDEV (i_inum (ip_of s i)) s i f).
  { split; [done|by apply (tb_dev _ _ H)|done|]. left. split; [|done]. unfold caches_inode.
    rewrite (proj2 (Z.ltb_lt _ _) Hr), (tb_dev _ _ H i Hr). by rewrite !Z.eqb_refl. }
  destruct (igot_ok _ _ _ _ _ H G) as (H' & R & En). exists (upd_inode i f s).
  split; [|split_and!; [done|apply walked_upd_inode|done|done]].
  pose proof (itab_ctx _ _ H) as Hc. pose proof (ctx_settled _ _ Hc) as Hs. pose proof (ctx_locks _ _ Hc LItable I) as Hf.
  unfold idup, iset. rewrite (bind_ok _ _ _ _ _ (acquire_ok LItable s Hs Hf)), bind_modify, iset_acq.
  erewrite bind_ok by (apply release_acq; [destruct Hs; by split|exact Hf]). done.
Qed.

(** *** Looking a name up in a locked directory *)

Lemma lookup_ok i s name e : tree_ok sb V -> itab (Some i) s -> (i < NINODE)%nat -> 0 < i_ref (ip_of s i) ->
  i_valid (ip_of s i) <> 0 -> spare s -> bytes_ok name -> same_name name e ->
  let n := i_inum (ip_of s i) in live n -> is_dir sb V n ->
  exists r s', dirlookup i name s = Ok r s' /\ itab (Some i) s' /\ walked me s s' /\
    recount s s' (one (fst <$> r)) /\
    match r with
    | None => no_entry sb V n e
    | Some (j, _) => (j < NINODE)%nat /\ exists k, first_entry sb V n e k /\ i_inum (ip_of s' j) = dent_inum V (dnode n) k
    end.
Proof using All.
  intros HT H Hi Hr Hv Hsp Hb Hs n Hl Hdir. destruct (tr_dir _ _ HT n Hl Hdir) as [Hok Hmod].
  pose proof (tb_valid _ _ H i Hr Hv) as Hd.
  destruct (dirlookup_finds me st sz bs V (ip_of s i) i s name (tb_tx _ _ H) (tb_room _ _ H) eq_refl)
    as (s1 & I1 & K1 & [[E Hno]|(k & j & f & _ & Hk & He & Hfst & G & E)]).
  { apply (cached_file sb V); [done|by apply (tb_dev _ _ H)|done]. } { by rewrite (cached_size sb V). }
  { by rewrite (cached_type sb V). } { apply H. } { done. } { done. }
  all: pose proof (itab_scratch _ _ _ H K1 I1) as H1; pose proof (recount_table _ _ (scratch_itable _ _ _ K1)) as R1.
  - exists None, s1. split; [done|]. split; [done|]. split; [by apply walked_scratch|]. split; [done|].
    intros k Hk He. apply (Hno k); [lia|by rewrite (cached_size sb V)|].
    apply (cached_entry sb V _ Hd). by apply (entry_is_same _ _ name e).
  - destruct (igot_ok _ _ _ _ _ H1 G) as (H2 & R2 & En). exists (Some (j, 16 * Z.of_nat k)), (upd_inode j f s1).
    split; [done|]. split; [done|]. split; [eapply walked_trans; [by apply walked_scratch|apply walked_upd_inode]|].
    split; [eapply recount_ext; [eapply recount_trans; [exact R1|exact R2|apply one_nonneg]|];
      intros x; change (one None x + one (Some j) x = one (Some j) x); by rewrite one_none|].
    split; [apply G|]. exists k. split.
    + split; [unfold has_entry, n; rewrite (cached_size sb V _ Hd) in Hk; exact Hk|]. split.
      * apply (entry_is_same _ _ name e); [done|]. exact (proj1 (cached_entry sb V _ Hd name k) He).
      * intros x Hx Hex. apply (Hfst x); [lia|]. apply (cached_entry sb V _ Hd). by apply (entry_is_same _ _ name e).
    + rewrite En. unfold dent_inum. by rewrite (cached_dent sb V).
Qed.

(** ** The walk *)

(** The walk that began in [s0] has come to entry [i]. *)
Record stands (s0 s : kstate) (i : nat) : Prop := {
  sd_slot : (i < NINODE)%nat;
  sd_tab : itab None s;
  sd_walked : walked me s0 s;
  sd_count : recount s0 s (one (Some i));
  sd_live : live (i_inum (ip_of s i));
}.
(** Its end: a reference to the inode the path leads to and no other, and for
    the parent the last element. *)
Record ends (s0 : kstate) (parent : bool) (n : Z) (es : list (list Z)) (r : option nat) (name : list Z) (s' : kstate) : Prop := {
  en_tab : itab None s';
  en_walked : walked me s0 s';
  en_count : recount s0 s' (one r);
  en_walks : walks sb V parent n es ((fun i => i_inum (ip_of s' i)) <$> r);
  en_name : parent = true -> r <> None -> exists e, last es = Some e /\ same_name name e;
}.

(** Two slots of the table are free. *)
Definition two_spare (s : kstate) : Prop := exists a b, (a < NINODE)%nat /\ (b < NINODE)%nat /\ a <> b /\
  i_ref (ip_of s a) = 0 /\ i_ref (ip_of s b) = 0.

Lemma spare_left s0 s i : two_spare s0 -> recount s0 s (one (Some i)) -> spare s.
Proof.
  intros (a & b & Ha & Hb & Hne & Ra & Rb) Hc. destruct (decide (a = i)) as [->|Hi].
  - exists b. split; [done|]. rewrite (proj1 (Hc b Hb)), Rb. unfold one. by rewrite decide_False by congruence.
  - exists a. split; [done|]. rewrite (proj1 (Hc a Ha)), Ra. unfold one. by rewrite decide_False by congruence.
Qed.
Lemma recount_pos s s' d j : (forall x, 0 <= i_ref (ip_of s x)) -> recount s s' d -> (j < NINODE)%nat -> d j = 1 -> 0 < i_ref (ip_of s' j).
Proof. intros H Hc Hj Hd. specialize (H j). destruct (Hc j Hj) as [-> _]. lia. Qed.

Section Walk.
Context (s0 : kstate) (parent : bool).
Hypothesis HT : tree_ok sb V.
Hypothesis H0 : forall j, 0 <= i_ref (ip_of s0 j).
Hypothesis Hsp : two_spare s0.

(** The reference to where the walk stands is dropped. *)
Lemma drop_count s s' i d : recount s0 s (fun j => one (Some i) j + d j) -> (forall j, 0 <= d j) ->
  recount s s' (fun j => - one (Some i) j) -> recount s0 s' d.
Proof.
  intros R1 Hd R2. eapply recount_ext; [eapply recount_trans; [exact R1|exact R2|]|]; intros j; cbn beta.
  - pose proof (one_nonneg (Some i) j). specialize (Hd j). lia.
  - lia.
Qed.
Lemma keep_count s s' i : recount s0 s (one (Some i)) -> recount s s' (one None) -> recount s0 s' (one (Some i)).
Proof.
  intros R1 R2. eapply recount_ext; [eapply recount_trans; [exact R1|exact R2|apply one_nonneg]|].
  intros j. cbn beta. rewrite one_none. lia.
Qed.

(** The walk stands at [i], locked. *)
Record stands_locked (s : kstate) (i : nat) (n : Z) : Prop := {
  sl_slot : (i < NINODE)%nat;
  sl_tab : itab (Some i) s;
  sl_walked : walked me s0 s;
  sl_count : recount s0 s (one (Some i));
  sl_inum : i_inum (ip_of s i) = n;
  sl_live : live n;
}.
Lemma stands_pos s i : stands s0 s i -> 0 < i_ref (ip_of s i).
Proof using H0. intros [Hi _ _ Hc _]. by eapply recount_pos, one_same. Qed.
Lemma locked_pos s i n : stands_locked s i n -> 0 < i_ref (ip_of s i).
Proof using H0. intros [Hi _ _ Hc _]. by eapply recount_pos, one_same. Qed.
Lemma walk_locks s i : stands s0 s i -> exists s1, ilock (Some i) s = Ok tt s1 /\ stands_locked s1 i (i_inum (ip_of s i)) /\
  i_valid (ip_of s1 i) <> 0.
Proof using All.
  intros Hst. pose proof (stands_pos _ _ Hst) as Hr. destruct Hst as [Hi H Hw Hc Hl].
  destruct (ilock_ok i s H Hi Hr Hl) as (s1 & E1 & H1 & W1 & R1 & Hv). exists s1. split; [done|]. split; [|done].
  split; [done|done|by eapply walked_trans|by eapply keep_count|by apply R1|done].
Qed.

(** One step down the tree: the next inode, with its reference in place of that
    of the directory. *)
Lemma walk_step s i n name e : stands_locked s i n -> i_valid (ip_of s i) <> 0 -> is_dir sb V n -> bytes_ok name -> same_name name e ->
  exists r s1, dirlookup i name s = Ok r s1 /\
  match r with
  | None => no_entry sb V n e /\ stands_locked s1 i n
  | Some (j, _) => exists k s2, first_entry sb V n e k /\ iunlockput i s1 = Ok tt s2 /\
      stands s0 s2 j /\ i_inum (ip_of s2 j) = dent_inum V (dnode n) k
  end.
Proof using All.
  intros Hst Hv Hdir Hb Hs. pose proof (locked_pos _ _ _ Hst) as Hr. destruct Hst as [Hi H Hw Hc En Hl].
  destruct (lookup_ok i s name e HT H Hi Hr Hv) as (r & s1 & E & H1 & W1 & R1 & Hres);
    [by eapply spare_left|done|done|by rewrite En..|].
  exists r, s1. split; [done|]. rewrite En in Hres. pose proof (walked_trans _ _ _ _ Hw W1) as W01.
  destruct (R1 i Hi) as [Er1 Ei1]. specialize (Ei1 Hr). rewrite En in Ei1.
  pose proof (one_nonneg (fst <$> r) i) as Hnn.
  destruct r as [[j o]|]; cbn [fmap option_fmap option_map fst] in *.
  - destruct Hres as (Hj & k & Hk & Ek). destruct (iunlockput_ok i s1 H1 Hi) as (s2 & E2 & H2 & W2 & R2); [lia|by rewrite Ei1|].
    exists k, s2. split; [done|]. split; [done|].
    pose proof (recount_trans _ _ _ _ _ Hc R1 (one_nonneg _)) as R01.
    assert (Hj1 : 0 < i_ref (ip_of s1 j)).
    { rewrite (proj1 (R1 j Hj)), one_same. pose proof (tb_ref _ _ H j). lia. }
    assert (Ej : i_inum (ip_of s2 j) = dent_inum V (dnode n) k) by (rewrite <- Ek; by apply R2).
    split; [|done]. split; [done|done|by eapply walked_trans|by eapply drop_count; [|apply one_nonneg|]|].
    rewrite Ej. destruct Hk as (Hh & [Hnz _] & _). by apply (tr_entry _ _ HT).
  - split; [done|]. pose proof (keep_count _ _ _ Hc R1) as R01. by split.
Qed.
(** The walk ends without an inode. *)
Lemma walk_fails s i n es name : stands_locked s i n -> walks sb V parent n es None ->
  exists s', iunlockput i s = Ok tt s' /\ ends s0 parent n es None name s'.
Proof using All.
  intros Hst Hwk. pose proof (locked_pos _ _ _ Hst) as Hr. destruct Hst as [Hi H Hw Hc En Hl].
  destruct (iunlockput_ok i s H Hi Hr) as (s' & E & H' & W' & R'); [by rewrite En|].
  exists s'. split; [done|]. split; [done|by eapply walked_trans| |done|done].
  eapply drop_count; [|apply one_nonneg|exact R'].
  eapply recount_ext; [exact Hc|]. intros j. cbn beta. rewrite one_none. lia.
Qed.
(** ... at the directory the last element is to be found in. *)
Lemma walk_stops s i n e name : stands_locked s i n -> is_dir sb V n -> parent = true -> same_name name e ->
  exists s', iunlock (Some i) s = Ok tt s' /\ ends s0 parent n [e] (Some i) name s'.
Proof using All.
  intros Hst Hdir Hp Hs. pose proof (locked_pos _ _ _ Hst) as Hr. destruct Hst as [Hi H Hw Hc En Hl].
  destruct (iunlock_ok i s H Hi Hr) as (s' & E & H' & W' & Et). exists s'. split; [done|].
  assert (Ei : i_inum (ip_of s' i) = n) by (unfold ip_of in *; by rewrite Et).
  split; [done|by eapply walked_trans|eapply keep_count; [done|by apply recount_table]| |by exists e].
  cbn [fmap option_fmap option_map]. rewrite Ei. by apply walks_parent.
Qed.
(** ... because there are no elements left. *)
Lemma walk_here s i name : stands s0 s i -> parent = false -> ends s0 parent (i_inum (ip_of s i)) [] (Some i) name s.
Proof using. intros [Hi H Hw Hc Hl] Hp. split; [done..|by apply walks_here|by rewrite Hp]. Qed.
Lemma walk_nothing s i name : stands s0 s i -> parent = true ->
  exists s', iput i s = Ok tt s' /\ ends s0 parent (i_inum (ip_of s i)) [] None name s'.
Proof using All.
  intros Hst Hp. pose proof (stands_pos _ _ Hst) as Hr. destruct Hst as [Hi H Hw Hc Hl].
  destruct (iput_ok i s H Hi Hr Hl) as (s' & E & H' & W' & R'). exists s'. split; [done|].
  split; [done|by eapply walked_trans| |by apply walks_no_parent|done].
  eapply drop_count; [|apply one_nonneg|exact R'].
  eapply recount_ext; [exact Hc|]. intros j. cbn beta. rewrite one_none. lia.
Qed.

Lemma namex_loop_spec fuel : forall path name i s, stands s0 s i -> (length path < fuel)%nat -> c_path path ->
  length name = Z.to_nat DIRSIZ -> bytes_ok name ->
  exists r nm s', namex_loop fuel i path parent name s = Ok (r, nm) s' /\
    ends s0 parent (i_inum (ip_of s i)) (elems path) r nm s'.
Proof using All.
  induction fuel as [|fuel IH]; intros path name i s Hst Hf Hp Hl Hb; [lia|]. cbn [namex_loop].
  destruct (skipelem path name) as [[p' nm]|] eqn:E.
  2: { rewrite (skipelem_none _ _ E). destruct (decide (parent = true)) as [Ep|Ep%not_true_is_false].
    - destruct (walk_nothing s i name Hst Ep) as (s' & E' & He). exists None, name, s'. split; [|done].
      rewrite Ep. by rewrite (bind_ok _ _ _ _ _ E').
    - exists (Some i), name, s. split; [by rewrite Ep|by apply walk_here]. }
  destruct (skipelem_some _ _ _ _ E Hl Hb Hp) as (e & -> & Hs & Hb' & Hl' & Hp' & Hlt & Hnil).
  destruct (walk_locks s i Hst) as (s1 & E1 & H1 & Hv1). rewrite (bind_ok _ _ _ _ _ E1), bind_gets.
  set (n := i_inum (ip_of s i)) in *.
  rewrite (cached_type sb V) by (apply (tb_valid _ _ (sl_tab _ _ _ H1)); [by eapply locked_pos|done]). rewrite (sl_inum _ _ _ H1).
  destruct (Z.eqb_spec (i_type (dnode n)) T_DIR) as [Hdir|Hdir]; cbn [negb].
  2: { destruct (walk_fails s1 i n (e :: elems p') nm H1) as (s' & E' & He); [by apply walks_file|].
    exists None, nm, s'. by rewrite (bind_ok _ _ _ _ _ E'). }
  destruct (parent && bool_decide (p' = [])) eqn:Ep.
  { apply andb_prop in Ep as [Ep ->%bool_decide_eq_true]. destruct (walk_stops s1 i n e nm H1 Hdir Ep Hs) as (s' & E' & He).
    exists (Some i), nm, s'. by rewrite (bind_ok _ _ _ _ _ E'). }
  assert (Hne : parent = true -> elems p' <> []).
  { intros Hpt E0%Hnil. rewrite Hpt, (bool_decide_true _ E0) in Ep. done. }
  destruct (walk_step s1 i n nm e H1 Hv1 Hdir Hb' Hs) as (r & s2 & E2 & Hres). rewrite (bind_ok _ _ _ _ _ E2).
  destruct r as [[j o]|].
  - destruct Hres as (k & s3 & Hk & E3 & Hst3 & En3). rewrite (bind_ok _ _ _ _ _ E3).
    destruct (IH p' nm j s3 Hst3) as (r & nm' & s' & E4 & [N1 N2 N3 N4 N5]); [lia|done..|].
    exists r, nm', s'. split; [done|]. rewrite En3 in N4. split; [done..|by eapply walks_entry|].
    intros Hpt Hr. destruct (N5 Hpt Hr) as (e' & He' & Hs'). exists e'. split; [|done].
    destruct (elems p') as [|x l]; [by apply Hne in Hpt|]. exact He'.
  - destruct Hres as [Hno H2]. destruct (walk_fails s2 i n (e :: elems p') nm H2) as (s' & E' & He); [by apply walks_missing|].
    exists None, nm, s'. by rewrite (bind_ok _ _ _ _ _ E').
Qed.
End Walk.

(** Where a path starts: at the root, or at the working directory. *)
Definition starts (s : kstate) (path : list Z) (n : Z) : Prop :=
  if at_ path 0 =? 47 then n = ROOTINO
  else exists c, p_cwd (proc_of s me) = Some c /\ (c < NINODE)%nat /\ 0 < i_ref (ip_of s c) /\ i_inum (ip_of s c) = n /\ live n.

Lemma namex_spec s path parent name n : tree_ok sb V -> itab None s -> two_spare s -> c_path path ->
  length name = Z.to_nat DIRSIZ -> bytes_ok name -> starts s path n ->
  exists r nm s', namex path parent name s = Ok (r, nm) s' /\ ends s parent n (elems path) r nm s'.
Proof using All.
  intros HT H Hsp Hp Hl Hb Hst. unfold namex.
  assert (Hfrom : exists i s1, (if at_ path 0 =? 47 then iget ROOTDEV ROOTINO
        else
          i ← curproc;
          cwd ← pget i p_cwd;
          match cwd with Some ip => idup ip | None => panic "kerneltrap" end) s = Ok i s1 /\
    stands s s1 i /\ i_inum (ip_of s1 i) = n).
  { unfold starts in Hst. destruct (at_ path 0 =? 47).
    - subst n. destruct (iget_ok ROOTINO s H) as (i & s1 & E & Hi & H1 & W1 & R1 & En).
      { destruct Hsp as (a & _ & Ha & _ & _ & Ra & _). by exists a. }
      exists i, s1. split; [done|]. split; [|done]. split; [done..|]. rewrite En. apply (tr_root _ _ HT).
    - destruct Hst as (c & Ec & Hc & Hr & En & Hlv). destruct (idup_tab c s H Hc Hr) as (s1 & E & H1 & W1 & R1 & En1).
      exists c, s1. split; [|split; [|by rewrite En1]].
      + rewrite (bind_ok _ _ _ _ _ (curproc_ctx me s (itab_ctx _ _ H))), bind_gets, Ec. exact E.
      + split; [done..|]. by rewrite En1, En. }
  destruct Hfrom as (i & s1 & E & Hs1 & <-). rewrite (bind_ok _ _ _ _ _ E).
  apply namex_loop_spec; [done|apply H|done|done|lia|done..].
Qed.
End Table.

(** C7: [namex] finds what the path names.  In a transaction with a well-formed
    tree of directories on disk, two free slots in the inode table and no inode
    locked, it returns the inode the elements of the path lead to from the root
    or the working directory, for [nameiparent] the directory that should have
    the last element and that element, or nothing if an element on the way is
    missing or not a directory.  The caller has exactly one reference more if
    it got an inode and none otherwise, the table still agrees with the disk and
    no inode is left locked. *)
Theorem namex_correct (L : Layout) (LO : LayoutOk L) (W : World) (D : DiskDriver) (DO : DiskOk D) (Ser : Serial) (SO : SerialOk Ser)
    me st sz sb bs V s path parent name n :
  tree_ok sb V -> itab me st sz sb bs V None s -> two_spare s -> c_path path ->
  length name = Z.to_nat DIRSIZ -> bytes_ok name -> starts me sb V s path n ->
  exists r nm s', namex path parent name s = Ok (r, nm) s' /\ ends me st sz sb bs V s parent n (elems path) r nm s'.
Proof. intros. by apply namex_spec. Qed.

(** *** A machine with nothing cached *)

Definition cold (d : gmap Z (list Z)) : kstate := set_itable (replicate NINODE blank_inode) (fs_machine d).

Lemma cold_locks d j : (j < NINODE)%nat -> slock_of (cold d) (SLInode j) = sl_blank.
Proof. unfold NINODE. intros Hj. do 8 (destruct j as [|j]; [vm_compute; reflexivity|]). lia. Qed.
(** Its first transaction begins. *)
Lemma cold_begins d : (forall b, length (disk_block d b) = Z.to_nat BSIZE) -> heads [] (disk_block d 2) ->
  exists s, @begin_op nemu_world (cold d) = Ok tt s /\ itab 0 2 16 fs_sb [] (disk_block d) None s /\ two_spare s.
Proof.
  intros Hlen Hh. assert (Hq : quiet 0 2 16 (cold d)).
  { destruct (fs_machine_quiet d Hlen Hh) as [Hc Hl H Hst Hd]. split; [|done| |done|done].
    - destruct Hc as [[] ? ? ? ?]. by split.
    - eapply cache_same; [|exact H]. by split_and!. }
  assert (Ed : disk (cold d) = d).
  { destruct (booted_on_ok d Hlen) as (_ & _ & Sl & B & E). unfold cold, fs_machine, log_machine_on. by rewrite E. }
  destruct (begin_tx (W := nemu_world) 0 2 16 (cold d) Hq) as (s & E & HI & K). rewrite Ed in HI.
  pose proof (tkept_itable _ _ _ K) as Hit.
  assert (Hip : forall j, ip_of s j = blank_inode).
  { intros j. unfold ip_of. rewrite Hit. change (itable (cold d)) with (replicate NINODE blank_inode).
    destruct (replicate NINODE blank_inode !! j) eqn:Ej; [|done]. by apply lookup_replicate in Ej as [-> _]. }
  exists s. split; [done|]. split.
  - split; [done|cbn; unfold NBUF; lia|exact (tkept_sblk _ _ _ K)|by rewrite Hit|..].
    + intros j. by rewrite Hip.
    + intros j. by rewrite Hip.
    + intros j. by rewrite Hip.
    + intros j j'. by rewrite !Hip.
    + intros j Hj. rewrite (tkept_ilock _ _ _ _ K), decide_False by done. by apply cold_locks.
  - exists 0%nat, 1%nat. rewrite !Hip. unfold NINODE. split_and!; [lia|lia|done|done|done].
Qed.

(** *** A tree *)

(** The root directory, inode 1, with "ab" for the file that is inode 2. *)
Definition path_inodes : list Z :=
  replicate 64 0 ++
  ([1; 0; 0; 0; 0; 0; 1; 0; 16; 0; 0; 0; 45; 0; 0; 0] ++ replicate 48 0) ++
  ([2; 0; 0; 0; 0; 0; 1; 0] ++ replicate 56 0) ++ replicate 320 0.
Definition path_root : list Z := [2; 0; 97; 98] ++ replicate 508 0.
Definition path_disk : gmap Z (list Z) := <[18 := path_inodes]> (<[45 := path_root]> fs_disk).
Lemma path_disk_len b : length (disk_block path_disk b) = Z.to_nat BSIZE.
Proof.
  unfold disk_block, path_disk. destruct (decide (b = 18)) as [->|]; [by rewrite lookup_insert_eq|].
  rewrite lookup_insert_ne by done. destruct (decide (b = 45)) as [->|]; [by rewrite lookup_insert_eq|].
  rewrite lookup_insert_ne by done. apply fs_disk_len.
Qed.
Notation path_view := (disk_block path_disk).
Lemma path_live n : live fs_sb path_view n -> n = 1 \/ n = 2.
Proof.
  intros ((H1 & H2) & Ht & _). cbn in H2.
  assert (Hall : forallb (fun n => (i_type (dnode fs_sb path_view n) =? 0) || (n =? 1) || (n =? 2)) (seqZ 1 199) = true)
    by (vm_compute; reflexivity).
  rewrite forallb_forall in Hall. specialize (Hall n ltac:(apply list_elem_of_In, elem_of_seqZ; lia)). lia.
Qed.
Lemma path_root_inode : dnode fs_sb path_view 1 = mk_inode ROOTDEV 1 0 0 T_DIR 0 0 1 16 (45 :: replicate 12 0).
Proof. vm_compute. reflexivity. Qed.
Lemma path_root_entry : dent path_view (dnode fs_sb path_view 1) 0 = [2; 0; 97; 98] ++ replicate 12 0.
Proof. vm_compute. reflexivity. Qed.
Lemma path_has_entry k : has_entry fs_sb path_view 1 k -> k = 0%nat.
Proof. unfold has_entry. rewrite path_root_inode. cbn [i_size]. lia. Qed.
Lemma path_dir n : live fs_sb path_view n -> is_dir fs_sb path_view n -> n = 1.
Proof. intros [->| ->]%path_live Hd; [done|]. vm_compute in Hd. discriminate. Qed.
Lemma path_tree : tree_ok fs_sb path_view.
Proof.
  split.
  - vm_compute. split_and!; discriminate || reflexivity.
  - intros n Hl ->%path_dir; [|done]. rewrite path_root_inode. split; [|done].
    split; [done|cbn; unfold MAXFILE, NDIRECT, NINDIRECT, BSIZE; lia|by vm_compute|].
    intros bn H0 Hb. cbn [i_size] in Hb. unfold BSIZE in Hb. assert (bn = 0) as -> by lia. by vm_compute.
  - intros n k Hl ->%path_dir; [|done]. intros ->%path_has_entry _. vm_compute. split_and!; discriminate || reflexivity.
Qed.
(** "/ab" leads to inode 2. *)
Lemma path_walk : walks fs_sb path_view false 1 [[97; 98]] (Some 2).
Proof.
  change 2 with (dent_inum path_view (dnode fs_sb path_view 1) 0).
  apply (walks_entry _ _ _ _ _ _ 0%nat); [by vm_compute|done| |by apply walks_here].
  split; [by vm_compute|]. split; [|lia]. split; [by vm_compute|]. unfold dent_name. rewrite path_root_entry.
  apply namecmp_same; [exact (at_u8 [97; 98])|exact (at_u8 ([97; 98] ++ replicate 12 0))|by vm_compute].
Qed.

Lemma namex_correct_witness : exists s i nm s', @begin_op nemu_world (cold path_disk) = Ok tt s /\
  @namex test_layout nemu_world (@nemu_disk_driver test_layout nemu_world) (@nemu_serial nemu_world)
    [47; 97; 98] false (replicate 14 0) s = Ok (Some i, nm) s' /\ i_inum (ip_of s' i) = 2.
Proof.
  destruct (cold_begins path_disk path_disk_len) as (s & E & Htab & Hsp).
  { split; [reflexivity| |reflexivity]. intros i b. by rewrite lookup_nil. }
  destruct (namex_correct test_layout test_layout_ok nemu_world (@nemu_disk_driver test_layout nemu_world) (nemu_disk_laws _ _ nemu_world_disk)
    (@nemu_serial nemu_world) (nemu_serial_laws _ nemu_world_uart) 0 2 16 fs_sb [] path_view s [47; 97; 98] false (replicate 14 0) 1)
    as (r & nm & s' & E' & [_ _ _ Hwalk _]).
  - exact path_tree.
  - exact Htab.
  - exact Hsp.
  - repeat constructor; lia.
  - done.
  - exact (at_u8 (replicate 14 0)).
  - reflexivity.
  - pose proof (walks_det _ _ _ _ _ _ _ Hwalk path_walk) as Er. destruct r as [i|]; [|done].
    exists s, i, nm, s'. split; [done|]. split; [done|]. cbn in Er. by injection Er.
Defined.
