(* ===== verification/InitSpec.v ===== *)
(** * The first process (userinit of kernel/proc.c, uvmfirst of kernel/vm.c)

    [userinit] makes a process whose memory is one page that starts with
    [initcode].  Put together with the program of Entry.v, the trampoline of
    Asm.v and the system call of ExecArgs.v: the first thing the first process
    does is to execute /init. *)
From S2P Require Import Prelude Memory Machine Platform Sv32 Spinlock Printf Kalloc Vm Proc Sleeplock Bio Log Fs Console File Life Exec Syscall Asm.
From S2P Require Import ProcSpec VmSpec UserVm UserCopy ProcVm ForkSpec WaitSpec SleepSpec FsDir Entry ExecArgs.
From stdpp Require Import gmap strings countable prelude.

Open Scope Z_scope.
#[local] Opaque memset.

Section InitSpec.
Context {L : Layout} {LO : LayoutOk L} {W : World} {D : DiskDriver} {Ser : Serial}.

(** ** The root directory *)

Lemma namei_root s :
  settled s -> lock_free LItable s -> length (itable s) = NINODE ->
  (exists j, (j < NINODE)%nat /\ i_ref (ip_of s j) = 0) ->
  exists i f, (i < NINODE)%nat /\ namei (chars "/") s = Ok (Some i) (upd_inode i f s) /\
    i_dev (f (ip_of s i)) = ROOTDEV /\ i_inum (f (ip_of s i)) = ROOTINO /\ 1 <= i_ref (f (ip_of s i)).
Proof.
  intros Hs Hl Hlen Hfree. destruct (iget_free_slot ROOTDEV ROOTINO s Hs Hl Hlen Hfree) as (i & f & Hi & E & Hd & Hn & Hr).
  exists i, f. split_and!; try done.
  - unfold namei, namex. change (at_ (chars "/") 0 =? 47) with true. cbv iota.
    rewrite bind_assoc, (bind_ok _ _ _ _ _ E). reflexivity.
  - destruct Hr as [[Hc ->]|(_ & _ & -> & _)]; [|lia]. cbn. unfold caches_inode in Hc.
    apply andb_prop in Hc as [[Hc _]%andb_prop _]. apply Z.ltb_lt in Hc. lia.
Qed.

(** ** The page of the program *)

(** The permissions of the page. *)
Abbreviation WRXU := (Z.lor (Z.lor (Z.lor PTE_W PTE_R) PTE_X) PTE_U).

(** A page of the program, filled with [src]. *)
Lemma first_page_byte m3 m root p src va :
  pte_of m root va = leaf_pte p WRXU -> page p -> 0 <= va < PGSIZE ->
  m = store_bytes m3 p src -> Z.of_nat (length src) < PGSIZE -> zero_page m3 p ->
  accessible m root va = true /\ ubyte m root va = u8 (at_ src (Z.to_nat va)).
Proof.
  intros Hpt Hp Hva -> Hlen Hz. destruct (leaf_pte_ok p WRXU (proj1 Hp) (page_u32 p Hp)) as (HV & Hfl & Hpa & _); [done|].
  split.
  - unfold accessible. rewrite Hpt, HV. unfold is_set. by rewrite land_flags, Hfl.
  - unfold ubyte, upa. rewrite Hpt, Hpa, Z.mod_small by done.
    destruct (src !! Z.to_nat va) as [c|] eqn:Hc.
    + replace (p + va) with (p + Z.of_nat (Z.to_nat va)) by lia. rewrite (load8_store_bytes_in _ _ _ _ c) by done.
      by rewrite (at_lookup _ _ _ Hc).
    + apply lookup_ge_None in Hc. rewrite load8_store_bytes_out by lia. rewrite Hz by lia.
      unfold at_. by rewrite nth_overflow by lia.
Qed.

(** [uvmfirst] on an empty process with two free pages. *)
Lemma uvmfirst_spec T F root tf src s :
  pspace T F root [] tf s -> (2 <= size F)%nat -> Z.of_nat (length src) < PGSIZE -> 
  exists pa T' F' s', uvmfirst root src (Z.of_nat (length src)) s = Ok tt s' /\ vstep (F ∪ T) s s' /\
    pspace T' F' root [pa] tf s' /\ {[pa]} ∪ (F' ∪ T') = F ∪ T /\ (pa ∉ F' ∪ T') /\ (size F <= size F' + 2)%nat /\
    (forall va, 0 <= va < PGSIZE -> accessible (mem s') root va = true /\
      ubyte (mem s') root va = u8 (at_ src (Z.to_nat va))).
Proof.
  intros Hps Hsz Hlen. unfold uvmfirst. rewrite (proj2 (Z.leb_gt _ _)) by done.
  pose proof Hps as [Hu Hh Hroom Hpg].
  destruct (space_kalloc T F root s (uv_space _ _ _ _ _ Hu))
    as [[-> _]|(p & s1 & Hr & Hin & Hp & HT & Hsp1 & Hvs1 & Hpt1)]; [rewrite size_empty in Hsz; lia|].
  rewrite (bind_ok _ _ _ _ _ Hr). unfold upd_mem. rewrite bind_modify.
  destruct (space_fill T (F ∖ {[p]}) root p s1 (memset (mem s1) p 0 PGSIZE)) as (Hsp2 & Hpt2);
    [done|done|done|clear; set_solver|by apply fill_memset|].
  set (s2 := set_mem (memset (mem s1) p 0 PGSIZE) s1) in *.
  assert (forall va, pte_of (mem s2) root va = pte_of (mem s) root va) as Hpt12
    by (intros va; unfold s2; ksimp; by rewrite Hpt2, Hpt1).
  assert (uvm T (F ∖ {[p]}) root [] s2) as Hu2.
  { eapply uvm_ptes; [done|done|clear; set_solver|clear; set_solver|]. intros va _. apply Hpt12. }
  destruct (uvm_map_next T (F ∖ {[p]}) root [] p WRXU s2)
    as (r & s3 & T' & F' & Hr3 & HTT & HU & Hvs3 & Hres);
    [done|done|set_solver|done|clear; set_solver|done|done| |].
  { rewrite Hpt12, Hh by done. unfold high_pte. by rewrite !decide_False by done. }
  change (Z.of_nat (length (@nil Z)) * PGSIZE) with 0 in Hr3. rewrite (bind_ok _ _ _ _ _ Hr3).
  pose proof (size_remove F p) as Hrem.
  destruct Hres as [(-> & Hu3 & Hsz3 & Hpt3)|(-> & _ & HF0 & _)]; [|rewrite HF0, size_empty in Hrem; lia].
  cbn [app length] in Hu3, Hpt3.
  assert (p ∉ F' /\ p ∉ T') as [HnF HnT] by (clear -HU HT; set_solver).
  rewrite take_ge by lia. set (m4 := store_bytes (mem s3) p src).
  assert (agree_off {[p]} (mem s3) m4) as Ha4.
  { intros b Hb. apply load8_store_bytes_out. destruct (Hb p ltac:(by apply elem_of_singleton)); lia. }
  destruct (space_fill T' F' root p s3 m4) as (Hsp4 & Hpt4); [apply Hu3|done..|].
  exists p, T', F', (set_mem m4 s3). split; [done|]. split_and!.
  - apply (vstep_trans _ s s2); [eapply vstep_mono; [|eapply vstep_trans; [exact Hvs1|apply vstep_mem, fill_memset, Hp]]; clear -Hin; set_solver|].
    apply (vstep_trans _ s2 s3); (eapply vstep_mono; [|first [exact Hvs3|by apply vstep_mem]]); clear -Hin; set_solver.
  - split; [eapply uvm_ptes; [exact Hu3|done|clear; set_solver|clear; set_solver|by intros va _; apply Hpt4]| |done|done].
    cbn [length]. intros va Hva Hv. ksimp. rewrite Hpt4, (Hpt3 va Hva), decide_False by lia.
    rewrite Hpt12. apply Hh; [exact Hva|cbn [length]; lia].
  - rewrite HU. clear -Hin. apply set_eq. intros x. destruct (decide (x = p)) as [->|]; set_solver.
  - clear -HnF HnT. set_solver.
  - lia.
  - intros va Hva. apply (first_page_byte (mem s3) _ root p src); [|exact Hp|exact Hva|reflexivity|exact Hlen|].
    + assert (is_u32 va /\ vpn va = 0) as [Hvu Hv0].
      { unfold is_u32, vpn, PGSIZE in *. Z.div_mod_to_equations. lia. }
      ksimp. rewrite Hpt4, (Hpt3 va Hvu), Hv0. by rewrite decide_True.
    + intros b Hb. destruct Hvs3 as [Ha _]. rewrite (agree_off_load8 _ _ _ p b Ha); [| |exact Hp|clear -HT; set_solver|exact Hb].
      * unfold s2. ksimp. by rewrite load8_memset, decide_True.
      * intros q Hq. apply elem_of_union in Hq as [Hq|Hq].
        -- apply (free_pages_page (F ∖ {[p]}) s1 q); [apply (sp_free _ _ _ _ Hsp1)|done].
        -- eapply pt_pages; [apply (sp_pt _ _ _ _ Hsp1)|done].
Qed.

(** ** userinit *)

(** The entry of the first process, and its trap frame. *)
Definition first_proc (pid tf root : Z) (cwd : option nat) (q : proc) : proc :=
  set_p_state RUNNABLE (set_p_cwd cwd (set_p_name (safestrcpy (p_name q) (chars "initcode") 16)
    (set_p_sz PGSIZE (born pid tf root q)))).
Definition first_frame (m : gmap Z Z) (tf : Z) : gmap Z Z := store32 (store32 m (tf + TF_epc) 0) (tf + TF_sp) PGSIZE.

(** [userinit] after [uvmfirst]. *)
Definition userinit_rest (i : nat) : K unit :=
  pset i (set_p_sz PGSIZE) ;;
  tf_set i TF_epc 0 ;;
  tf_set i TF_sp PGSIZE ;;
  pset i (fun p => set_p_name (safestrcpy (p_name p) (chars "initcode") 16) p) ;;
  cwd ← namei (chars "/");
  pset i (set_p_cwd cwd) ;;
  pset i (set_p_state RUNNABLE) ;;
  release (LProc i).

Lemma userinit_rest_ok i pid tf root q s :
  settled s -> lock_free (LProc i) s -> lock_free LItable s -> length (itable s) = NINODE ->
  (exists j, (j < NINODE)%nat /\ i_ref (ip_of s j) = 0) -> procs s !! i = Some q ->
  exists ip f, userinit_rest i (acq (LProc i) (upd_proc i (born pid tf root) s)) =
    Ok tt (upd_proc i (first_proc pid tf root (Some ip)) (upd_inode ip f (set_mem (first_frame (mem s) tf) s))) /\
    (ip < NINODE)%nat /\ i_dev (f (ip_of s ip)) = ROOTDEV /\ i_inum (f (ip_of s ip)) = ROOTINO /\ 1 <= i_ref (f (ip_of s ip)).
Proof.
  intros Hs Hl Hli Hlen Hfree Hq. unfold userinit_rest, pset, tf_set. rewrite !bind_modify.
  set (s1 := upd_proc i (fun p => set_p_name _ p) _).
  assert (s1 = acq (LProc i) (upd_proc i (fun q => set_p_name (safestrcpy (p_name q) (chars "initcode") 16)
    (set_p_sz PGSIZE (born pid tf root q))) (set_mem (first_frame (mem s) tf) s))) as ->.
  { unfold s1.
    assert (p_trapframe (proc_of (upd_proc i (set_p_sz PGSIZE) (acq (LProc i) (upd_proc i (born pid tf root) s))) i) = tf) as Etf.
    { unfold proc_of. cbn. by rewrite !list_lookup_alter_eq, Hq. }
    change (p_trapframe (proc_of (set_mem ?m ?t) i)) with (p_trapframe (proc_of t i)).
    rewrite Etf. change (mem (set_mem ?m ?t)) with m.
    change (set_mem ?m (set_mem ?m' ?t)) with (set_mem m t).
    change (upd_proc i ?f (set_mem ?m (upd_proc i ?g (acq (LProc i) (upd_proc i ?h s)))))
      with (acq (LProc i) (upd_proc i f (upd_proc i g (upd_proc i h (set_mem m s))))).
    by rewrite !upd_proc_twice. }
  set (s2 := upd_proc i _ (set_mem _ s)).
  assert (settled s2) as Hs2 by (destruct Hs; by split).
  destruct (namei_root (acq (LProc i) s2)) as (ip & f & Hip & E & Hd & Hn & Hr);
    [by apply settled_acq|by apply lock_free_acq_ne|done|done|].
  rewrite (bind_ok _ _ _ _ _ E), !bind_modify. exists ip, f. split; [|done].
  change (upd_proc i ?g (upd_proc i ?h (upd_inode ip f (acq (LProc i) s2))))
    with (acq (LProc i) (upd_proc i g (upd_proc i h (upd_inode ip f s2)))).
  rewrite release_acq; [|destruct Hs2; by split|done]. f_equal. unfold s2.
  change (upd_inode ip f (upd_proc i ?g ?t)) with (upd_proc i g (upd_inode ip f t)). by rewrite !upd_proc_twice.
Qed.

(** What the first process is: entry [i], one page of memory [pa] that holds
    [initcode], a trap frame that starts it at 0 with a stack, and the root
    directory as its current one. *)
Record first_process (i : nat) (T F F' : gset Z) (pa : Z) (s s' : kstate) : Prop := {
  fp_init : initproc s' = Some i;
  fp_state : p_state (proc_of s' i) = RUNNABLE;
  fp_sz : p_sz (proc_of s' i) = PGSIZE;
  fp_owns : owns T F' [pa] (proc_of s' i) s';
  fp_pages : owned T [pa] (proc_of s' i) ∪ F' = F;
  fp_code : forall va, 0 <= va < PGSIZE -> accessible (mem s') (p_pagetable (proc_of s' i)) va = true /\
    ubyte (mem s') (p_pagetable (proc_of s' i)) va = at_ initcode (Z.to_nat va);
  fp_epc : load32 (mem s') (p_trapframe (proc_of s' i) + TF_epc) = 0;
  fp_sp : load32 (mem s') (p_trapframe (proc_of s' i) + TF_sp) = PGSIZE;
  fp_cwd : exists ip, p_cwd (proc_of s' i) = Some ip /\ i_dev (ip_of s' ip) = ROOTDEV /\
    i_inum (ip_of s' ip) = ROOTINO /\ 1 <= i_ref (ip_of s' ip);
  fp_locks : locks s' = locks s /\ kcpu s' = kcpu s /\ length (procs s') = length (procs s);
}.

Lemma first_frame_words m tf :
  agree_off {[tf]} m (first_frame m tf) /\
  load32 (first_frame m tf) (tf + TF_epc) = 0 /\ load32 (first_frame m tf) (tf + TF_sp) = PGSIZE.
Proof.
  unfold first_frame, TF_epc, TF_sp. split_and!.
  - do 2 (apply (agree_off_store32 _ _ _ tf); [by apply elem_of_singleton|lia|unfold PGSIZE; lia|]). apply agree_off_refl.
  - rewrite load32_store32_ne by lia. apply load32_store32_eq.
  - apply load32_store32_eq.
Qed.

Lemma initcode_bytes k : u8 (at_ initcode k) = at_ initcode k.
Proof.
  apply u8_small. unfold at_. rewrite nth_lookup. destruct (initcode !! k) as [b|] eqn:Hb; cbn; [|lia].
  assert (Forall (fun b => 0 <= b < 256) initcode) as Hall by (repeat constructor; lia).
  by apply (Forall_lookup_1 _ _ _ _ Hall Hb).
Qed.

(** The memory of the first process: it has the page, and the trap frame is
    written; [t] is the state when the page is there. *)
Lemma first_process_memory T F pa p t s' :
  pspace T F (p_pagetable p) [pa] (p_trapframe p) t -> p_trapframe p ∉ list_to_set [pa] ∪ (F ∪ T) -> p_sz p = PGSIZE ->
  settled s' -> locks s' !! LKmem = locks t !! LKmem -> freelist s' = freelist t ->
  mem s' = first_frame (mem t) (p_trapframe p) ->
  owns T F [pa] p s' /\ same_user (mem t) (mem s') (p_pagetable p).
Proof.
  intros Hps Htf Hsz Hs El Ef Em. destruct (first_frame_words (mem t) (p_trapframe p)) as [Ha _]. rewrite <- Em in Ha.
  assert (owns T F [pa] p t) as Ho by (split; [done|done|by rewrite Hsz|by rewrite Hsz]).
  assert (forall x, x ∈ ({[p_trapframe p]} : gset Z) -> page x) as HP by (intros x ->%elem_of_singleton; exact (ps_page _ _ _ _ _ _ Hps)).
  split; [by eapply owns_trapframe|].
  eapply owns_same_user; [exact Ho|exact Ha|exact HP|clear -Htf; set_solver].
Qed.

Lemma userinit_spec F s :
  alloc_ready s -> free_pages F s -> (6 <= size F)%nat -> (exists k, (k < NPROC)%nat /\ p_state (proc_of s k) = UNUSED) ->
  lock_free LItable s -> length (itable s) = NINODE -> (exists j, (j < NINODE)%nat /\ i_ref (ip_of s j) = 0) ->
  exists i T F' pa s', userinit s = Ok tt s' /\ (i < NPROC)%nat /\ first_unused 0 i s /\
    first_process i T F F' pa s s' /\ settled s' /\ (size F <= size F' + 6)%nat.
Proof.
  intros Hr HF Hsz (k & Hk & Hku) Hli Hlen Hfree. unfold userinit.
  destruct (allocproc_spec F s Hr HF) as (r & s0 & E & [(_ & _ & Hn)|[(_ & _ & _ & _ & ?)|Hok]]); [by destruct (Hn k)|lia|].
  destruct Hok as (i & s1 & T1 & F1 & root & tf & -> & Hi & Hfu & -> & (_ & m1 & fl1 & ->) & HU & Htf & Hsz1 & Hps).
  rewrite (bind_ok _ _ _ _ _ E), bind_modify, bind_gets. clear E.
  destruct Hr as (Hs & Hl & _ & Hnp & _).
  destruct (lookup_lt_is_Some_2 (procs s) i) as [q Hq]; [lia|].
  set (s1 := set_mem m1 _) in *. set (x := set_initproc _ _).
  assert (p_pagetable (proc_of x i) = root) as ->.
  { unfold proc_of. cbn. by rewrite list_lookup_alter_eq, Hq. }
  assert (pspace T1 F1 root [] tf x) as Hpx.
  { eapply pspace_same; [exact Hps|done|]. apply (free_pages_same _ (acq (LProc i) s1)); [apply free_pages_acq; [exact (sp_free _ _ _ _ (uv_space _ _ _ _ _ (ps_uvm _ _ _ _ _ _ Hps)))|done]|..]; try done.
    apply (settled_acq (LProc i) (set_initproc (Some i) (upd_proc i (born (nextpid s) tf root) s1))). destruct Hs; by split. }
  destruct (uvmfirst_spec T1 F1 root tf initcode x Hpx) as (pa & T & F' & s2 & E2 & (_ & m2 & fl2 & Es2) & Hps2 & HU2 & Hpa & Hsz2 & Hcode);
    [lia|done|]. rewrite (bind_ok _ _ _ _ _ E2).
  set (y := set_mem m2 (set_freelist fl2 (set_initproc (Some i) s1))).
  assert (s2 = acq (LProc i) (upd_proc i (born (nextpid s) tf root) y)) as Ey by (by rewrite Es2).
  destruct (userinit_rest_ok i (nextpid s) tf root q y) as (ip & f & E3 & Hip & Hdn);
    [destruct Hs; by split|by apply Hl|done..|].
  change (pset i (set_p_sz PGSIZE) ≫= _) with (userinit_rest i). rewrite Ey, E3.
  set (s' := upd_proc i _ _).
  assert (proc_of s' i = first_proc (nextpid s) tf root (Some ip) q) as Ep.
  { unfold proc_of. cbn. by rewrite list_lookup_alter_eq, Hq. }
  assert (settled s') as Hs' by (destruct Hs; by split).
  assert (tf ∉ list_to_set [pa] ∪ (F' ∪ T)) as Htf'.
  { rewrite list_to_set_singleton_L, HU2. exact Htf. }
  destruct (first_process_memory T F' pa (proc_of s' i) s2 s') as [Ho Hsu]; [by rewrite Ep|by rewrite Ep|by rewrite Ep|done| |by rewrite Es2|by rewrite Ep, Es2|].
  { rewrite Ey. cbn. by rewrite lookup_insert_ne. }
  exists i, T, F', pa, s'. split; [done|]. split; [done|]. split; [done|]. split; [|split; [done|lia]].
  destruct (first_frame_words (mem s2) tf) as (_ & Hepc & Hsp).
  assert (mem s' = first_frame (mem s2) tf) as Em by (by rewrite Es2).
  split; rewrite ?Ep; try done.
  - by rewrite Ep in Ho.
  - unfold owned. change (p_trapframe (first_proc _ tf _ _ _)) with tf.
    rewrite <- HU, <- HU2. clear. set_solver.
  - intros va Hva. destruct (Hcode va Hva) as [Hac Hby]. rewrite Ep in Hsu. destruct (Hsu va) as [E4 E5].
    change (p_pagetable (first_proc _ _ root _ _)) with root in *.
    split; [by rewrite E4|]. rewrite E5, Hby, initcode_bytes by (done || unfold is_u32, PGSIZE in *; lia). done.
  - by rewrite Em.
  - by rewrite Em.
  - exists ip. split; [done|].
    assert (ip_of s' ip = f (ip_of y ip)) as ->; [|exact Hdn].
    destruct (lookup_lt_is_Some_2 (itable y) ip) as [x0 Hx0]; [change (itable y) with (itable s); lia|].
    unfold ip_of, s', upd_proc, upd_inode. ksimp. by rewrite list_lookup_alter_eq, Hx0.
  - split_and!; [done|done|]. cbn. by rewrite length_alter.
Qed.

(** ** The first system call *)

(** The bytes of the program as the process sees them. *)
Lemma first_bytes i T F F' pa s s' va n :
  first_process i T F F' pa s s' -> 0 <= va -> va + Z.of_nat n <= PGSIZE ->
  ubytes (mem s') (p_pagetable (proc_of s' i)) va n = (fun k => at_ initcode (Z.to_nat va + k)) <$> seq 0 n.
Proof.
  intros Hf Hva Hn. apply list_eq. intros k. destruct (decide (k < n)%nat) as [Hk|Hk].
  - rewrite lookup_ubytes, list_lookup_fmap, lookup_seq_lt by lia. cbn [fmap option_fmap option_map]. f_equal.
    destruct (fp_code _ _ _ _ _ _ _ Hf (va + Z.of_nat k)) as [_ ->]; [lia|].
    replace (Z.to_nat (va + Z.of_nat k)) with (Z.to_nat va + (0 + k))%nat by lia. reflexivity.
  - rewrite !lookup_ge_None_2; [done|rewrite length_fmap, length_seq; lia|rewrite length_ubytes; lia].
Qed.

(** At 36 there is the string /init, and at 43 a vector of that string. *)
Lemma first_strings i T F F' pa s s' :
  first_process i T F F' pa s s' ->
  let root := p_pagetable (proc_of s' i) in
  (forall max, 5 < max -> ustring (mem s') root 36 max (chars "/init")) /\
  argvec (mem s') root PGSIZE 43 [chars "/init"].
Proof.
  intros Hf root.
  assert (forall va len, 0 <= va -> va + len <= PGSIZE -> range_ok (mem s') root va len) as Hr.
  { intros va len H0 H1 va' Hv. apply (fp_code _ _ _ _ _ _ _ Hf). lia. }
  assert (forall max, 5 < max -> ustring (mem s') root 36 max (chars "/init")) as Hs.
  { intros max Hmax. split_and!; [cbn; lia|apply Hr; [lia|unfold PGSIZE; cbn; lia]| | |].
    - unfold root. rewrite (first_bytes i T F F' pa s s') by (done || unfold PGSIZE; cbn; lia). reflexivity.
    - apply (fp_code _ _ _ _ _ _ _ Hf 41). unfold PGSIZE. lia.
    - rewrite list_elem_of_In. cbn. lia. }
  assert (uword (mem s') root 43 = 36 /\ uword (mem s') root 47 = 0) as [E1 E2].
  { unfold uword, root. rewrite !(first_bytes i T F F' pa s s') by (done || unfold PGSIZE; lia). by split. }
  split; [exact Hs|]. apply argvec_cons; [split; [unfold PGSIZE; lia|apply Hr; unfold PGSIZE; lia]|by rewrite E1|rewrite E1; by apply Hs|].
  apply argvec_nil; [split; [unfold PGSIZE; lia|apply Hr; unfold PGSIZE; lia]|exact E2].
Qed.

(** What [uservec] leaves of memory: the registers are in the trap frame. *)
Lemma stores_agree l b f m m' tf :
  f b = tf -> Forall (fun p => 0 <= p.2 /\ p.2 + 4 <= PGSIZE) l -> agree_off {[tf]} m m' -> agree_off {[tf]} m (stores l b f m').
Proof.
  intros Hb. revert m'. induction l as [|p l IH]; intros m' Hl Ha; [done|]. apply Forall_cons in Hl as [Hp Hl].
  rewrite stores_cons. apply IH; [done|]. rewrite Hb. apply (agree_off_store32 _ _ _ tf); [by apply elem_of_singleton|lia|lia|done].
Qed.
Lemma uservec_memory tf f m :
  let m1 := (uservec_code tf f m).1.1.2 in
  agree_off {[tf]} m m1 /\ load32 m1 (tf + TF_a 0) = u32 (f a0) /\ load32 m1 (tf + TF_a 1) = u32 (f a1) /\
  load32 m1 (tf + TF_a 7) = u32 (f a7).
Proof.
  destruct (uservec_eq tf f m) as (f1 & m1 & E & Em & _). rewrite E. cbn [fst snd]. rewrite Em.
  change (TF_a 0) with 56. change (TF_a 1) with 60. change (TF_a 7) with 84.
  assert (forall r off, (r, off) ∈ tf_table -> r <> a0 ->
    off + 4 <= 56 \/ 60 <= off -> load32 (store32 (stores tf_table a0 (rset a0 tf f) m) (tf + 56) (f a0)) (tf + off) = u32 (f r)) as Hin.
  { intros r off Hro Hr Ho. rewrite load32_store32_ne by lia.
    rewrite <- (rset_eq a0 tf f) at 2. rewrite (stores_in _ _ _ _ r) by done. by rewrite rset_ne. }
  split_and!; [|apply load32_store32_eq|apply Hin; try done; [set_solver|lia]|apply Hin; try done; [set_solver|lia]].
  apply (agree_off_store32 _ _ _ tf); [by apply elem_of_singleton|lia|unfold PGSIZE; lia|].
  apply stores_agree; [apply rset_eq| |apply agree_off_refl]. repeat constructor; unfold PGSIZE; cbn; lia.
Qed.

(** The process when the scheduler runs it and it has trapped with the
    registers [f]. *)
Definition trapped (i : nat) (f : regs) (s : kstate) : kstate :=
  set_mem (uservec_code (p_trapframe (proc_of s i)) f (mem s)).1.1.2
    (as_proc i (upd_proc i (set_p_state RUNNING) s)).

Lemma trapped_ok i T F F' pa f s s' :
  first_process i T F F' pa s s' -> settled s' -> (forall lk, static_lock lk -> lock_free lk s) ->
  (i < NPROC)%nat -> length (procs s) = NPROC -> is_exec f ->
  let t := trapped i f s' in
  ctx i t /\ owns T F' [pa] (proc_of t i) t /\
  (forall max, 5 < max <= PGSIZE -> ustring (mem t) (p_pagetable (proc_of t i)) (arg 0 i t) max (chars "/init")) /\
  argvec (mem t) (p_pagetable (proc_of t i)) (p_sz (proc_of t i)) (arg 1 i t) [chars "/init"] /\
  load32 (mem t) (p_trapframe (proc_of t i) + TF_a 7) = 7.
Proof.
  intros Hf Hs Hl Hi Hnp (H7 & H0 & H1) t. set (p := proc_of s' i).
  destruct (fp_locks _ _ _ _ _ _ _ Hf) as (El & _ & Elen).
  assert (procs s' !! i = Some p) as Hp by (apply lookup_proc_of; lia).
  assert (proc_of t i = set_p_state RUNNING p) as Ep by (unfold proc_of; cbn; by rewrite list_lookup_alter_eq, Hp).
  destruct (uservec_memory (p_trapframe p) f (mem s')) as (Ha & E0 & E1 & E7). cbv zeta in *.
  change (uservec_code _ _ _).1.1.2 with (mem t) in *.
  pose proof (fp_owns _ _ _ _ _ _ _ Hf) as Ho. fold p in Ho.
  assert (forall x, x ∈ ({[p_trapframe p]} : gset Z) -> page x) as HP
    by (intros x ->%elem_of_singleton; exact (ps_page _ _ _ _ _ _ (ow_space _ _ _ _ _ Ho))).
  pose proof (ow_tf _ _ _ _ _ Ho) as Htf.
  pose proof (owns_same_user _ _ _ _ _ _ _ Ho Ha HP ltac:(clear -Htf; set_solver)) as Hsu.
  pose proof (owns_low _ _ _ _ _ Ho) as Hlow.
  destruct (first_strings _ _ _ _ _ _ _ Hf) as [Hstr Hvec]. fold p in Hstr, Hvec.
  assert (arg 0 i t = 36 /\ arg 1 i t = 43) as [-> ->].
  { unfold arg. rewrite Ep. cbn [p_trapframe set_p_state]. rewrite E0, E1, H0, H1. by split. }
  rewrite Ep. cbn [p_trapframe p_pagetable p_sz set_p_state]. split_and!.
  - split; [destruct Hs; by split| |done|cbn; rewrite length_alter; lia|done].
    intros lk Hlk. unfold lock_free. change (locks t) with (locks s'). rewrite El. by apply Hl.
  - apply (owns_proc T F' [pa] p); [|done..]. eapply owns_trapframe; [exact Ho|exact Ha|destruct Hs; by split|done..].
  - intros max Hmax. apply (same_user_string (mem s') (mem t) _ Hsu); [done|unfold is_u32; lia|lia|apply Hstr; lia].
  - unfold p. rewrite (fp_sz _ _ _ _ _ _ _ Hf). apply (same_user_argvec (mem s')); [done..|lia|done].
  - by rewrite E7, H7.
Qed.

(** A boot time state: nothing runs, all locks are free, and there is a free
    entry in the process table and in the inode table. *)
Record bootable (F : gset Z) (s : kstate) : Prop := {
  bt_alloc : alloc_ready s;
  bt_locks : forall lk, static_lock lk -> lock_free lk s;
  bt_free : free_pages F s;
  bt_proc : exists k, (k < NPROC)%nat /\ p_state (proc_of s k) = UNUSED;
  bt_itable : length (itable s) = NINODE;
  bt_inode : exists j, (j < NINODE)%nat /\ i_ref (ip_of s j) = 0;
}.

(** The memory of the process as its program sees it. *)
Definition user_byte (p : proc) (m : gmap Z Z) (va : Z) : option Z :=
  if accessible m (p_pagetable p) va then Some (ubyte m (p_pagetable p) va) else None.

(** The [exec] system call of the first process. *)
Lemma first_syscall i T F F' pa f s s' :
  first_process i T F F' pa s s' -> settled s' -> (forall lk, static_lock lk -> lock_free lk s) ->
  (i < NPROC)%nat -> length (procs s) = NPROC -> is_exec f -> (1 <= size F')%nat ->
  exists pg t', pg ∈ F' /\ page_holds (mem t') pg (chars "/init") /\ vstep F' (trapped i f s') t' /\
    syscall (trapped i f s') = (ret ← exec (chars "/init") [pg]; free_argv [pg] ;; tf_set i (TF_a 0) (u32 ret)) t'.
Proof.
  intros Hf Hs Hl Hi Hnp Hx Hsz. destruct (trapped_ok i T F F' pa f s s') as (Hc & Ho & Hstr & Hvec & E7); [done..|].
  set (t := trapped i f s') in *. unfold syscall. erewrite bind_ok by (apply curproc_ok; apply Hc).
  unfold tf_get at 1. rewrite bind_gets, E7. change (s32 7) with 7. cbv zeta.
  change (if (0 <? 7) && (7 <? 22) then syscalls 7 else None) with (Some sys_exec). cbv iota.
  assert (length [chars "/init"] < MAXARG)%nat as Hma by (unfold MAXARG; cbn; lia).
  pose proof (Hstr MAXPATH ltac:(unfold MAXPATH, PGSIZE; lia)) as Hstr'.
  destruct (sys_exec_spec i T F' [pa] t Hc Ho) as [(path & args & pages & t' & (Hp & Hv & _) & E & V & _ & Hin & _ & Hh)|(t' & _ & _ & _ & Hno)].
  - assert (path = chars "/init") as -> by (eapply ustring_unique; [exact Hp|exact Hstr']).
    assert (args = [chars "/init"]) as -> by (by eapply argvec_unique).
    apply Forall2_cons_inv_r in Hh as (pg & pages' & Hpg & Hnil & ->). apply Forall2_nil_inv_r in Hnil as ->.
    exists pg, t'. split; [apply Hin; by left|]. split; [done|]. split; [done|].
    unfold mbind, M_bind in *. rewrite E. destruct (exec _ _ t') as [a u|msg u|u]; [|done..]. by destruct (free_argv [pg] u).
  - exfalso. specialize (Hno (chars "/init") [chars "/init"] (conj Hstr' (conj Hvec Hma))).
    cbn [length] in Hno. lia.
Qed.

(** C10: the first process executes /init.  [userinit], with a free entry of
    both tables and seven free pages, makes a runnable process of one page
    which holds [initcode], with the root directory, and is the init process.
    Its program, started where the trap frame says, with any registers and
    reading its instructions through its page table, runs to a system call;
    when the trampoline has saved its registers, [syscall] calls [exec] with
    the path /init and one argument, a page taken from the free ones that
    holds /init. *)
Theorem first_process_execs_init F s :
  bootable F s -> (7 <= size F)%nat ->
  exists i T F' pa s', userinit s = Ok tt s' /\ first_process i T F F' pa s s' /\
    let p := proc_of s' i in
    forall f, exists c,
      user_run (user_byte p (mem s')) (mk_core (load32 (mem s') (p_trapframe p + TF_epc)) f) [] c /\
      fetch (user_byte p (mem s')) c = Some Ecall /\
      exists pg t', pg ∈ F' /\ page_holds (mem t') pg (chars "/init") /\ vstep F' (trapped i (xs c) s') t' /\
        syscall (trapped i (xs c) s') =
          (ret ← exec (chars "/init") [pg]; free_argv [pg] ;; tf_set i (TF_a 0) (u32 ret)) t'.
Proof.
  intros [Ha Hl HF Hu Hit Hj] Hsz.
  destruct (userinit_spec F s) as (i & T & F' & pa & s' & E & Hi & _ & Hf & Hs & Hsz'); [done|done|lia|done|by apply (Hl LItable)|done|done|].
  exists i, T, F', pa, s'. split; [done|]. split; [done|]. intros p f. unfold p at 2. rewrite (fp_epc _ _ _ _ _ _ _ Hf).
  destruct (initcode_first (user_byte p (mem s'))) with (f := f) as (c & Hrun & Hec & Hx).
  { intros k b Hb. assert (k < 52)%nat as Hk by (by apply lookup_lt_Some in Hb).
    destruct (fp_code _ _ _ _ _ _ _ Hf (Z.of_nat k)) as [Hac Hby]; [unfold PGSIZE; lia|].
    unfold user_byte. fold p in Hac, Hby. by rewrite Hac, Hby, Nat2Z.id, (at_lookup _ _ _ Hb). }
  exists c. split; [done|]. split; [done|].
  apply (first_syscall i T F F' pa (xs c) s s'); try done; [|lia]. by destruct Ha as (_ & _ & _ & ? & _).
Qed.
End InitSpec.

(** ** The first process of a small machine *)

#[local] Existing Instance test_layout.
#[local] Existing Instance test_layout_ok.

Definition boot_machine : kstate := set_locks boot_locks booted.

Lemma boot_machine_bootable : bootable (list_to_set test_frames) boot_machine.
Proof.
  assert (procs boot_machine = replicate NPROC blank_proc) as Ep by (vm_compute; reflexivity).
  assert (itable boot_machine = replicate NINODE blank_inode) as Ei by (vm_compute; reflexivity).
  assert (settled boot_machine) as Hs by (split; vm_compute; congruence).
  assert (forall lk, static_lock lk -> lock_free lk boot_machine) as Hl by (intros lk; by apply boot_locks_free).
  assert (forall i q, procs boot_machine !! i = Some q -> q = blank_proc) as Hb.
  { intros i q. rewrite Ep. intros Hi. by apply lookup_replicate_1 in Hi as [-> _]. }
  split.
  - split_and!; [exact Hs|intros i Hi; by apply (Hl (LProc i))|by apply (Hl LPid)|by rewrite Ep, length_replicate|].
    intros i q Hi _. by rewrite (Hb i q Hi).
  - exact Hl.
  - eapply free_pages_same; [exact booted_free|exact Hs| |reflexivity|reflexivity]. vm_compute. reflexivity.
  - exists 0%nat. split; [unfold NPROC; lia|]. unfold proc_of. rewrite Ep. reflexivity.
  - by rewrite Ei, length_replicate.
  - exists 0%nat. split; [unfold NINODE; lia|]. unfold ip_of. rewrite Ei. reflexivity.
Qed.

Definition init_world : World := {| others _ _ := None; hw_read _ _ _ := 0; hw_write _ _ s := s; patience := 0 |}.
Definition init_disk : DiskDriver :=
  {| platform_disk_init := mret tt; platform_disk_read _ _ := mret tt; platform_disk_write _ _ := mret tt |}.
Definition init_serial : Serial :=
  {| platform_uart_init := mret tt; platform_uart_putc _ := mret tt; platform_uart_putc_sync _ := mret tt |}.

Lemma first_process_execs_init_witness :
  exists i s', @userinit test_layout init_world init_disk init_serial boot_machine = Ok tt s' /\
    initproc s' = Some i.
Proof.
  assert (7 <= size (list_to_set test_frames : gset Z))%nat as Hsz by (rewrite test_frames_size; lia).
  destruct (@first_process_execs_init test_layout test_layout_ok init_world init_disk init_serial
    (list_to_set test_frames) boot_machine boot_machine_bootable Hsz) as (i & T & F' & pa & s' & E & Hf & _).
  exists i, s'. split; [exact E|exact (fp_init _ _ _ _ _ _ _ Hf)].
Defined.

(** The call of the first process, as [sys_exec] finds it. *)
Lemma sys_exec_args_witness : exists t pages t',
  @sys_exec test_layout init_world init_disk init_serial t =
    (ret ← @exec test_layout init_world init_disk init_serial (chars "/init") pages; free_argv pages ;; mret ret) t'.
Proof.
  pose proof boot_machine_bootable as [Ha Hl HF Hu Hit Hj].
  assert (6 <= size (list_to_set test_frames : gset Z))%nat as H6 by (rewrite test_frames_size; lia).
  destruct (@userinit_spec test_layout test_layout_ok init_world init_disk init_serial
    (list_to_set test_frames) boot_machine Ha HF H6 Hu (Hl LItable I) Hit Hj)
    as (i & T & F' & pa & s' & _ & Hi & Hfu & Hf & Hs & Hsz).
  rewrite test_frames_size in Hsz. destruct Ha as (_ & _ & _ & Hn & _).
  set (f := fun r : reg => match r with a7 => 7 | a0 => 36 | a1 => 43 | _ => 0 end).
  destruct (trapped_ok i T (list_to_set test_frames) F' pa f boot_machine s' Hf Hs Hl Hi Hn) as (Hc & Ho & Hstr & Hvec & _).
  { unfold is_exec. split; [|split]; reflexivity. }
  assert (5 < MAXPATH <= PGSIZE) as Hm by (unfold MAXPATH, PGSIZE; lia). specialize (Hstr MAXPATH Hm).
  exists (trapped i f s').
  destruct (@sys_exec_args test_layout test_layout_ok init_world init_disk init_serial i T F' [pa] (trapped i f s') Hc Ho)
    as [(path & args & pages & t' & (Hp & _) & E & _)|(t' & E & _ & _ & Hno)].
  - exists pages, t'. rewrite (ustring_unique _ _ _ _ _ _ _ Hstr Hp). exact E.
  - exfalso. assert (length [chars "/init"] < MAXARG)%nat as Hlt by (unfold MAXARG; cbn; lia).
    specialize (Hno _ _ (conj Hstr (conj Hvec Hlt))). cbn [length] in Hno. lia.
Defined.
