(* ===== verification/Mkfs.v ===== *)
(** * The file system builder (mkfs/mkfs.c)

    A program of the host that writes the image the kernel boots from: super
    block, empty log, inodes, bitmap, the root directory and the files of the
    command line.  Asserts that fail and [die] are panics, [exit(0)] is a
    return.  The host is a parameter: its byte order, and what opening a file
    and the reads of its contents give.  The image is a seekable file whose
    reads and writes of whole sectors inside it succeed; the messages on the
    standard output are left out. *)
From S2P Require Import Prelude Memory Machine Platform Sv32 Spinlock Printf Kalloc Vm Proc Sleeplock Bio Log Fs.
From stdpp Require Import gmap strings countable prelude.

Open Scope Z_scope.

Module Mkfs.

(** ** The host and the state of the program *)

Class Host := {
  little : bool;                                   (** byte order *)
  create : list Z -> bool;                         (** whether the image can be created *)
  open_ : list Z -> option (list (list Z));        (** a file by name: the chunks its reads return *)
}.

Record mkst := mk_mkst {
  img : list (list Z);    (** sectors of the image *)
  freeinode : Z;
  freeblock : Z;
  sb : superblock;        (** fields as integers of the host *)
}.
Definition set_img v s := mk_mkst v (freeinode s) (freeblock s) (sb s).
Definition set_freeinode v s := mk_mkst (img s) v (freeblock s) (sb s).
Definition set_freeblock v s := mk_mkst (img s) (freeinode s) v (sb s).
Definition set_sb v s := mk_mkst (img s) (freeinode s) (freeblock s) v.

(** [struct dinode], fields as integers of the host. *)
Record dinode := mk_dinode {
  d_type : Z; d_major : Z; d_minor : Z; d_nlink : Z; d_size : Z; d_addrs : list Z;
}.
Definition set_d_size v d := mk_dinode (d_type d) (d_major d) (d_minor d) (d_nlink d) v (d_addrs d).
Definition set_d_addrs v d := mk_dinode (d_type d) (d_major d) (d_minor d) (d_nlink d) (d_size d) v.

(** ** Parameters *)

Definition FSSIZE : Z := 2000.
Definition NINODES : Z := 200.
Definition nbitmap : Z := FSSIZE / (BSIZE * 8) + 1.
Definition ninodeblocks : Z := NINODES / IPB + 1.
Definition nlog : Z := LOGSIZE.
Definition nmeta : Z := 2 + nlog + ninodeblocks + nbitmap.
Definition nblocks : Z := FSSIZE - nmeta.
Definition zeroes : list Z := replicate (Z.to_nat BSIZE) 0.

Section Host.
Context {H : Host}.

(** ** Integers in memory *)

Definition order (l : list Z) : list Z := if little then l else rev l.
(** The bytes of an integer of the host. *)
Definition bytes16 (v : Z) : list Z := order (bytes_of_u16 v).
Definition bytes32 (v : Z) : list Z := order (bytes_of_u32 v).
(** The integer of the host at an offset. *)
Definition get16 (data : list Z) (o : nat) : Z := u16_at (order (take 2 (drop o data))) 0.
Definition get32 (data : list Z) (o : nat) : Z := u32_at (order (take 4 (drop o data))) 0.

(** [a[0] = x; a[1] = x >> 8; ...] *)
Definition xshort (x : Z) : Z := get16 [u8 x; u8 (x / 256)] 0.
Definition xint (x : Z) : Z := get32 [u8 x; u8 (x / 256); u8 (x / 65536); u8 (x / 16777216)] 0.

(** The bytes of the structures. *)
Definition sb_bytes (b : superblock) : list Z :=
  mjoin (bytes32 <$> [sb_magic b; sb_size b; sb_nblocks b; sb_ninodes b; sb_nlog b; sb_logstart b;
    sb_inodestart b; sb_bmapstart b]).
Definition dinode_bytes (d : dinode) : list Z :=
  bytes16 (d_type d) ++ bytes16 (d_major d) ++ bytes16 (d_minor d) ++ bytes16 (d_nlink d) ++
  bytes32 (d_size d) ++ mjoin (bytes32 <$> d_addrs d).
Definition dinode_at (data : list Z) (o : nat) : dinode :=
  mk_dinode (get16 data o) (get16 data (o + 2)) (get16 data (o + 4)) (get16 data (o + 6)) (get32 data (o + 8))
    ((fun i => get32 data (o + 12 + 4 * i)) <$> seq 0 13).

(** ** Sectors *)

(** The sector at [sec * BSIZE], computed in 32 bits. *)
Definition sector (sec : Z) : nat := Z.to_nat (u32 (sec * BSIZE) / BSIZE).
(** A write beyond the end leaves a hole of zeroes. *)
Definition wsect (sec : Z) (buf : list Z) : M mkst unit :=
  modify (fun s => set_img (<[sector sec := buf]> (img s ++ replicate (S (sector sec) - length (img s)) zeroes)) s).
Definition rsect (sec : Z) : M mkst (list Z) := fun s =>
  match img s !! sector sec with
  | Some buf => Ok buf s
  | None => Panic "read" s
  end.

(** ** Inodes *)

Definition winode (inum : Z) (ip : dinode) : M mkst unit :=
  bn ← gets (fun s => IBLOCK inum (sb s));
  buf ← rsect bn;
  wsect bn (splice buf (dinode_off inum) (dinode_bytes ip)).
Definition rinode (inum : Z) : M mkst dinode :=
  bn ← gets (fun s => IBLOCK inum (sb s));
  buf ← rsect bn;
  mret (dinode_at buf (dinode_off inum)).

Definition ialloc (type : Z) : M mkst Z :=
  inum ← gets freeinode;
  modify (set_freeinode (u32 (inum + 1))) ;;
  winode inum (mk_dinode (xshort type) 0 0 (xshort 1) (xint 0) (replicate 13 0)) ;;
  mret inum.

(** [freeblock++] *)
Definition take_block : M mkst Z :=
  b ← gets freeblock;
  modify (set_freeblock (u32 (b + 1))) ;;
  mret b.

(** The bitmap block with the first [used] bits set. *)
Fixpoint balloc_bits (n : nat) (i : Z) (buf : list Z) : list Z :=
  match n with
  | O => buf
  | S n' =>
    let k := Z.to_nat (i / 8) in
    balloc_bits n' (i + 1) (<[k := u8 (Z.lor (at_ buf k) (Z.shiftl 1 (i mod 8)))]> buf)
  end.
Definition balloc (used : Z) : M mkst unit :=
  if negb (used <? BSIZE * 8) then panic "assert" else
  b ← gets (fun s => sb_bmapstart (sb s));
  wsect b (balloc_bits (Z.to_nat used) 0 zeroes).

(** *** iappend *)

(** The block with block [fbn] of the file, allocated if need be. *)
Definition block_for (din : dinode) (fbn : Z) : M mkst (dinode * Z) :=
  if fbn <? NDIRECT then
    din ← (if xint (at_ (d_addrs din) (Z.to_nat fbn)) =? 0 then
             b ← take_block;
             mret (set_d_addrs (<[Z.to_nat fbn := xint b]> (d_addrs din)) din)
           else mret din);
    mret (din, xint (at_ (d_addrs din) (Z.to_nat fbn)))
  else
    din ← (if xint (at_ (d_addrs din) (Z.to_nat NDIRECT)) =? 0 then
             b ← take_block;
             mret (set_d_addrs (<[Z.to_nat NDIRECT := xint b]> (d_addrs din)) din)
           else mret din);
    let ind := xint (at_ (d_addrs din) (Z.to_nat NDIRECT)) in
    let o := Z.to_nat (4 * (fbn - NDIRECT)) in
    indirect ← rsect ind;
    indirect ← (if get32 indirect o =? 0 then
                  b ← take_block;
                  let indirect := splice indirect o (bytes32 (xint b)) in
                  wsect ind indirect ;;
                  mret indirect
                else mret indirect);
    mret (din, xint (get32 indirect o)).

(** The loop of [iappend] with [p] left to append at [off]. *)
Fixpoint iappend_loop (fuel : nat) (din : dinode) (off : Z) (p : list Z) : M mkst (dinode * Z) :=
  let n := Z.of_nat (length p) in
  if 0 <? n then
    match fuel with
    | O => hang
    | S fuel' =>
      let fbn := off / BSIZE in
      if negb (fbn <? MAXFILE) then panic "assert" else
      r ← block_for din fbn;
      let '(din, x) := r in
      let n1 := Z.min n (u32 ((fbn + 1) * BSIZE - off)) in
      buf ← rsect x;
      wsect x (splice buf (Z.to_nat (off - fbn * BSIZE)) (take (Z.to_nat n1) p)) ;;
      iappend_loop fuel' din (u32 (off + n1)) (drop (Z.to_nat n1) p)
    end
  else mret (din, off).
Definition iappend (inum : Z) (p : list Z) : M mkst unit :=
  din ← rinode inum;
  r ← iappend_loop (S (length p)) din (xint (d_size din)) p;
  let '(din, off) := r in
  winode inum (set_d_size (xint off) din).

(** ** main *)

(** [struct dirent] with a name of at most 14 characters. *)
Definition dirent (inum : Z) (name : list Z) : list Z :=
  bytes16 (xshort inum) ++ strncpy (replicate (Z.to_nat DIRSIZ) 0) name DIRSIZ.

Definition dot : list Z := [46].
Definition dotdot : list Z := [46; 46].
Definition user_prefix : list Z := [117; 115; 101; 114; 47].

(** The name of a file without "user/". *)
Definition shortname (arg : list Z) : list Z :=
  if strncmp arg user_prefix 5 =? 0 then drop 5 arg else arg.
(** Without its leading '_'. *)
Definition strip (name : list Z) : list Z :=
  if at_ name 0 =? 95 then drop 1 name else name.

(** [while((cc = read(fd, buf, sizeof(buf))) > 0) iappend(inum, buf, cc);] *)
Fixpoint copy_in (inum : Z) (reads : list (list Z)) : M mkst unit :=
  match reads with
  | [] => mret tt
  | buf :: reads' =>
    if 0 <? Z.of_nat (length buf) then iappend inum buf ;; copy_in inum reads' else mret tt
  end.

Fixpoint add_files (rootino : Z) (args : list (list Z)) : M mkst unit :=
  match args with
  | [] => mret tt
  | arg :: args' =>
    let name := shortname arg in
    if existsb (Z.eqb 47) name then panic "assert" else
    match open_ arg with
    | None => panic "open"
    | Some reads =>
      inum ← ialloc T_FILE;
      iappend rootino (dirent inum (strip name)) ;;
      copy_in inum reads ;;
      add_files rootino args'
    end
  end.

Definition super : superblock :=
  {| sb_magic := FSMAGIC; sb_size := xint FSSIZE; sb_nblocks := xint nblocks; sb_ninodes := xint NINODES;
     sb_nlog := xint nlog; sb_logstart := xint 2; sb_inodestart := xint (2 + nlog);
     sb_bmapstart := xint (2 + nlog + ninodeblocks) |}.

(** The program as started: no image, [freeinode] at 1. *)
Definition start_st : mkst := mk_mkst [] 1 0 (mk_superblock 0 0 0 0 0 0 0 0).

(** Rounds the size of the root directory up to the next multiple of BSIZE. *)
Definition fix_root (rootino : Z) : M mkst unit :=
  din ← rinode rootino;
  let off := xint (d_size din) in
  let off := (off / BSIZE + 1) * BSIZE in
  winode rootino (set_d_size (xint off) din).

(** [main] with the arguments after the program's name. *)
Definition main (argv : list (list Z)) : M mkst unit :=
  match argv with
  | [] => panic "Usage: mkfs fs.img files..."
  | image :: args =>
    if negb (create image) then panic "open" else
    modify (set_img []) ;;
    modify (set_sb super) ;;
    modify (set_freeblock nmeta) ;;
    for_range (Z.to_nat FSSIZE) 0 (fun i => wsect (Z.of_nat i) zeroes) ;;
    sb ← gets sb;
    wsect 1 (splice zeroes 0 (sb_bytes sb)) ;;
    rootino ← ialloc T_DIR;
    if negb (rootino =? ROOTINO) then panic "assert" else
    iappend rootino (dirent rootino dot) ;;
    iappend rootino (dirent rootino dotdot) ;;
    add_files rootino args ;;
    fix_root rootino ;;
    used ← gets freeblock;
    balloc used
  end.
End Host.
End Mkfs.
