(* ===== verification/MkfsSpec.v ===== *)
(** * The image mkfs writes (mkfs/mkfs.c)

    Who owns which block of the image mkfs is writing, and that taking a block
    and appending data keep it so; the image as a list of blocks. *)
From S2P Require Import Prelude Memory Machine Platform Sv32 Spinlock Printf Kalloc Vm Proc Sleeplock Bio Log Fs.
From S2P Require Import ProcSpec SleepSpec BioSpec BioRefine LogSpec LogTx LogCrash FsTx FsAlloc FsFile FsWrite FsDir.
From S2P Require Import Mkfs.
From stdpp Require Import gmap strings countable prelude.

Open Scope Z_scope.
Import Mkfs.

Lemma nmeta_val : nmeta = 45.
Proof. reflexivity. Qed.

(** ** Slots of a file *)

Definition addrs_ip (a : list Z) : inode := set_i_addrs a blank_inode.
(** Slot -1 is the indirect block, slot [x] block [x] of the file. *)
Definition slot (x : Z) : Prop := -1 <= x < MAXFILE.
Definition blk (U : Z -> list Z) (a : list Z) (x : Z) : Z :=
  if x =? -1 then at_ a (Z.to_nat NDIRECT) else baddr U (addrs_ip a) x.
(** Which slots a file of [n] blocks has, and how many. *)
Definition present (n x : Z) : bool := if x =? -1 then NDIRECT <? n else x <? n.
Definition cost (n : Z) : Z := n + (if NDIRECT <? n then 1 else 0).
Fixpoint sum_cost (nb : nat -> Z) (N : nat) : Z :=
  match N with O => 0 | S n => sum_cost nb n + cost (nb n) end.

Definition fset {A} (f : nat -> A) (i : nat) (v : A) : nat -> A := fun j => if decide (j = i) then v else f j.
Lemma fset_eq {A} (f : nat -> A) i v : fset f i v i = v.
Proof. unfold fset. by rewrite decide_True. Qed.
Lemma fset_ne {A} (f : nat -> A) i v j : j <> i -> fset f i v j = f j.
Proof. intros H. unfold fset. by rewrite decide_False. Qed.

Lemma sum_cost_ext nb nb' N : (forall j, (j < N)%nat -> nb j = nb' j) -> sum_cost nb N = sum_cost nb' N.
Proof. induction N as [|N IH]; intros H; [done|]. cbn. rewrite (IH ltac:(intros; apply H; lia)), (H N) by lia. done. Qed.
Lemma sum_cost_fset nb i v N : (i < N)%nat -> sum_cost (fset nb i v) N = sum_cost nb N + (cost v - cost (nb i)).
Proof.
  induction N as [|N IH]; intros H; [lia|]. cbn [sum_cost]. destruct (decide (i = N)) as [->|Hne].
  - rewrite fset_eq, (sum_cost_ext _ nb) by (intros; apply fset_ne; lia). lia.
  - rewrite fset_ne, IH by lia. lia.
Qed.
Lemma cost_pos n : 0 <= n -> 0 <= cost n.
Proof. unfold cost. destruct (_ <? _); lia. Qed.
Lemma sum_cost_pos nb N : (forall j, (j < N)%nat -> 0 <= nb j) -> 0 <= sum_cost nb N.
Proof. induction N as [|N IH]; intros H; [done|]. cbn. pose proof (cost_pos (nb N) (H N ltac:(lia))). specialize (IH ltac:(intros; apply H; lia)). lia. Qed.

Lemma cost_mono n m : n <= m -> cost n <= cost m.
Proof. intros Hn. unfold cost. destruct (Z.ltb_spec NDIRECT n), (Z.ltb_spec NDIRECT m); lia. Qed.
Lemma sum_cost_mono nb nb' N N' : (N <= N')%nat -> (forall j, (j < N)%nat -> nb j <= nb' j) -> (forall j, (j < N')%nat -> 0 <= nb' j) ->
  sum_cost nb N <= sum_cost nb' N'.
Proof.
  intros HN Hle Hpos. assert (E : sum_cost nb' N <= sum_cost nb' N').
  { induction HN as [|N' HN IH]; [done|]. cbn. pose proof (cost_pos (nb' N') (Hpos N' ltac:(lia))).
    specialize (IH ltac:(intros; apply Hpos; lia)). lia. }
  enough (sum_cost nb N <= sum_cost nb' N) by lia. clear E. induction N as [|N IH]; [done|]. cbn.
  pose proof (cost_mono _ _ (Hle N ltac:(lia))). specialize (IH ltac:(lia) ltac:(intros; apply Hle; lia)). lia.
Qed.

(** ** Ownership *)

(** In the image [U] with the blocks from [fb] on unused there are [N] files:
    file [i] has [nb i] blocks with addresses [A i] and starts with [C i],
    followed by zeroes. *)
Record owns (U : Z -> list Z) (fb : Z) (N : nat) (A : nat -> list Z) (nb : nat -> Z) (C : nat -> list Z) : Prop := {
  ow_fb : nmeta <= fb <= FSSIZE;
  ow_count : fb = nmeta + sum_cost nb N;
  ow_alen : forall i, (i < N)%nat -> length (A i) = 13%nat;
  ow_nb : forall i, (i < N)%nat -> 0 <= nb i <= MAXFILE;
  ow_some : forall i x, (i < N)%nat -> slot x -> present (nb i) x = true -> nmeta <= blk U (A i) x < fb;
  ow_none : forall i x, (i < N)%nat -> slot x -> present (nb i) x = false -> blk U (A i) x = 0;
  ow_inj : forall i j x y, (i < N)%nat -> (j < N)%nat -> slot x -> slot y -> present (nb i) x = true ->
    present (nb j) y = true -> blk U (A i) x = blk U (A j) y -> i = j /\ x = y;
  ow_data : forall i o, (i < N)%nat -> 0 <= o < nb i * BSIZE -> fbyte U (addrs_ip (A i)) o = at_ (C i) (Z.to_nat o);
  ow_clen : forall i, (i < N)%nat -> Z.of_nat (length (C i)) <= nb i * BSIZE;
  ow_zero : forall b, fb <= b < FSSIZE -> U b = zeroes;
  ow_blen : forall b, 0 <= b -> length (U b) = Z.to_nat BSIZE;
}.

Lemma present_more n x : present n x = true -> present (n + 1) x = true.
Proof. unfold present. destruct (x =? -1); rewrite !Z.ltb_lt; lia. Qed.
Lemma blk_data U a x : 0 <= x -> blk U a x = baddr U (addrs_ip a) x.
Proof. intros H. unfold blk. by rewrite (proj2 (Z.eqb_neq _ _)) by lia. Qed.
Lemma present_data n x : 0 <= x -> present n x = (x <? n).
Proof. intros H. unfold present. by rewrite (proj2 (Z.eqb_neq _ _)) by lia. Qed.
Lemma slot_ind : slot (-1).
Proof. unfold slot, MAXFILE, NDIRECT, NINDIRECT, BSIZE. lia. Qed.

(** The block of an offset. *)
Lemma off_block o n : 0 <= o < n * BSIZE -> 0 <= o / BSIZE < n.
Proof.
  intros H. split; [apply Z.div_pos; unfold BSIZE in *; lia|]. apply Z.div_lt_upper_bound; unfold BSIZE in *; lia.
Qed.

(** ** Another block *)

Section Grow.
Context (U U' : Z -> list Z) (fb fb' : Z) (N : nat) (A : nat -> list Z) (nb : nat -> Z) (C : nat -> list Z) (i : nat) (a' : list Z).
Hypothesis (O : owns U fb N A nb C) (Hi : (i < N)%nat) (Hnb : nb i < MAXFILE) (Ha' : length a' = 13%nat).
Let A' := fset A i a'.
Let nb' := fset nb i (nb i + 1).
Hypothesis (Hfb : fb' = fb + (cost (nb i + 1) - cost (nb i))) (Hfit : fb' <= FSSIZE).
(** Slots that were there stay, new ones have new blocks, absent ones are 0. *)
Hypothesis (Hold : forall j x, (j < N)%nat -> slot x -> present (nb j) x = true -> blk U' (A' j) x = blk U (A j) x).
Hypothesis (Hnew : forall x, slot x -> present (nb i) x = false -> present (nb i + 1) x = true -> fb <= blk U' a' x < fb').
Hypothesis (Hdiff : forall x y, slot x -> slot y -> present (nb i) x = false -> present (nb i + 1) x = true ->
  present (nb i) y = false -> present (nb i + 1) y = true -> blk U' a' x = blk U' a' y -> x = y).
Hypothesis (Habs : forall j x, (j < N)%nat -> slot x -> present (nb' j) x = false -> blk U' (A' j) x = 0).
(** Only indirect blocks change. *)
Hypothesis (Hsame : forall b, 0 <= b -> b <> blk U' a' (-1) -> U' b = U b).
Hypothesis (Hwhen : NDIRECT <= nb i \/ forall b, 0 <= b -> U' b = U b).
Hypothesis (Hlen : forall b, 0 <= b -> length (U' b) = Z.to_nat BSIZE).

Lemma grow_fb : fb <= fb'.
Proof using All. rewrite Hfb. unfold cost. destruct (Z.ltb_spec NDIRECT (nb i + 1)), (Z.ltb_spec NDIRECT (nb i)); lia. Qed.
(** A slot is old or new. *)
Lemma grow_case j x : (j < N)%nat -> slot x -> present (nb' j) x = true ->
  (present (nb j) x = true /\ blk U' (A' j) x = blk U (A j) x /\ nmeta <= blk U' (A' j) x < fb) \/
  (j = i /\ present (nb i) x = false /\ present (nb i + 1) x = true /\ fb <= blk U' (A' j) x < fb').
Proof using All.
  intros Hj Hx Hp. unfold A', nb' in *. destruct (present (nb j) x) eqn:E.
  - left. rewrite Hold by done. split; [done|]. split; [done|]. by apply (ow_some _ _ _ _ _ _ O).
  - right. destruct (decide (j = i)) as [->|Hne]; [|rewrite fset_ne in Hp by done; congruence].
    rewrite fset_eq in Hp. rewrite fset_eq. destruct (Hnew x Hx E Hp). by split_and!.
Qed.
Lemma grow_inj j k x y : (j < N)%nat -> (k < N)%nat -> slot x -> slot y -> present (nb' j) x = true -> present (nb' k) y = true ->
  blk U' (A' j) x = blk U' (A' k) y -> j = k /\ x = y.
Proof using All.
  intros Hj Hk Hx Hy Px Py E.
  destruct (grow_case j x Hj Hx Px) as [(P1 & E1 & R1)|(-> & P1 & Q1 & R1)], (grow_case k y Hk Hy Py) as [(P2 & E2 & R2)|(-> & P2 & Q2 & R2)].
  - rewrite E1, E2 in E. by apply (ow_inj _ _ _ _ _ _ O).
  - lia.
  - lia.
  - split; [done|]. unfold A' in E. rewrite !fset_eq in E. by apply Hdiff.
Qed.
(** Blocks with data are as before. *)
Lemma grow_same j x : (j < N)%nat -> slot x -> 0 <= x -> present (nb' j) x = true -> U' (blk U' (A' j) x) = U (blk U' (A' j) x).
Proof using All.
  intros Hj Hx Hx0 Hp. pose proof (ow_fb _ _ _ _ _ _ O) as Hf.
  assert (0 <= blk U' (A' j) x) by (destruct (grow_case j x Hj Hx Hp) as [(_ & _ & R)|(_ & _ & _ & R)]; rewrite nmeta_val in *; lia).
  destruct Hwhen as [Hw|Hw]; [|by apply Hw]. apply Hsame; [done|]. intros E.
  assert (E' : blk U' (A' j) x = blk U' (A' i) (-1)) by (rewrite E; unfold A'; by rewrite fset_eq).
  apply grow_inj in E' as [_ ?]; [lia|done|done|done|apply slot_ind|done|].
  unfold nb'. rewrite fset_eq. unfold present. cbn. apply Z.ltb_lt. lia.
Qed.

Lemma owns_grow : owns U' fb' N A' nb' C.
Proof using All.
  pose proof nmeta_val. pose proof grow_fb as Hle. pose proof (ow_fb _ _ _ _ _ _ O) as Hf. split.
  - lia.
  - unfold nb'. rewrite sum_cost_fset by done. rewrite Hfb, (ow_count _ _ _ _ _ _ O). lia.
  - intros j Hj. unfold A', fset. case_decide; [done|]. by apply (ow_alen _ _ _ _ _ _ O).
  - intros j Hj. unfold nb', fset. pose proof (ow_nb _ _ _ _ _ _ O) as Hr. case_decide as E; [specialize (Hr i Hi); lia|by apply Hr].
  - intros j x Hj Hx Hp. destruct (grow_case j x Hj Hx Hp) as [(_ & _ & R)|(_ & _ & _ & R)]; lia.
  - exact Habs.
  - exact grow_inj.
  - intros j o Hj Ho. pose proof (off_block _ _ Ho) as Hb. set (bn := o / BSIZE) in *.
    assert (Hm : nb' j <= MAXFILE) by (unfold nb', fset; case_decide; [lia|by apply (ow_nb _ _ _ _ _ _ O)]).
    assert (Hs : slot bn) by (unfold slot; lia).
    assert (Hp : present (nb' j) bn = true) by (rewrite present_data by lia; apply Z.ltb_lt; lia).
    pose proof (grow_same j bn Hj Hs ltac:(lia) Hp) as Hsm.
    destruct (grow_case j bn Hj Hs Hp) as [(P & E & R)|(-> & P & Q & R)]; rewrite blk_data in * by lia.
    + unfold fbyte. fold bn. rewrite Hsm, E, blk_data by lia.
      rewrite present_data in P by lia. apply Z.ltb_lt in P.
      apply (ow_data _ _ _ _ _ _ O j o Hj). pose proof (Z.div_mod o BSIZE ltac:(unfold BSIZE; lia)).
      pose proof (Z.mod_pos_bound o BSIZE ltac:(unfold BSIZE; lia)). nia.
    + unfold fbyte. fold bn. rewrite Hsm, (ow_zero _ _ _ _ _ _ O) by lia. unfold zeroes. rewrite at_replicate.
      rewrite present_data in P by lia. apply Z.ltb_ge in P. pose proof (ow_clen _ _ _ _ _ _ O i Hi).
      unfold at_. symmetry. apply nth_overflow. pose proof (Z.div_mod o BSIZE ltac:(unfold BSIZE; lia)).
      pose proof (Z.mod_pos_bound o BSIZE ltac:(unfold BSIZE; lia)). nia.
  - intros j Hj. pose proof (ow_clen _ _ _ _ _ _ O j Hj). unfold nb', fset. case_decide as E; [subst; unfold BSIZE in *; lia|done].
  - intros b Hb. destruct Hwhen as [Hw|Hw]; [|rewrite Hw by lia; apply (ow_zero _ _ _ _ _ _ O); lia].
    rewrite Hsame; [apply (ow_zero _ _ _ _ _ _ O); lia|lia|]. intros ->.
    assert (Hp : present (nb' i) (-1) = true) by (unfold nb'; rewrite fset_eq; unfold present; cbn; apply Z.ltb_lt; lia).
    pose proof (grow_case i (-1) Hi slot_ind Hp) as Hg. unfold A' in Hg. rewrite fset_eq in Hg. lia.
  - exact Hlen.
Qed.
End Grow.

Lemma baddr_direct U a x : 0 <= x < NDIRECT -> baddr U (addrs_ip a) x = at_ a (Z.to_nat x).
Proof. intros H. unfold baddr. by rewrite (proj2 (Z.ltb_lt _ _)) by lia. Qed.
Lemma baddr_indirect U a x : NDIRECT <= x -> at_ a (Z.to_nat NDIRECT) <> 0 ->
  baddr U (addrs_ip a) x = u32_at (U (at_ a (Z.to_nat NDIRECT))) (Z.to_nat (4 * (x - NDIRECT))).
Proof. intros H Hnz. unfold baddr. cbn [addrs_ip i_addrs set_i_addrs]. rewrite (proj2 (Z.ltb_ge _ _)) by lia. by rewrite (proj2 (Z.eqb_neq _ _)) by done. Qed.

(** A direct address. *)
Lemma blk_insert U a k v x : length a = 13%nat -> 0 <= k < NDIRECT -> slot x ->
  blk U (<[Z.to_nat k := v]> a) x = if decide (x = k) then v else blk U a x.
Proof.
  intros Ha Hk Hx. assert (E : forall j, at_ (<[Z.to_nat k := v]> a) j = if decide (j = Z.to_nat k) then v else at_ a j).
  { intros j. apply at_insert. rewrite Ha. unfold NDIRECT in *. lia. }
  unfold blk. destruct (Z.eqb_spec x (-1)) as [->|Hne].
  - rewrite E. rewrite !decide_False by (unfold NDIRECT in *; lia). done.
  - unfold slot in Hx. unfold baddr. cbn [addrs_ip i_addrs set_i_addrs]. rewrite !E.
    rewrite (decide_False (P := Z.to_nat NDIRECT = Z.to_nat k)) by (unfold NDIRECT in *; lia).
    destruct (Z.ltb_spec x NDIRECT); [|by rewrite decide_False by lia].
    destruct (decide (x = k)) as [->|]; [by rewrite decide_True|]. by rewrite decide_False by lia.
Qed.
Lemma grow_direct U fb N A nb C i : owns U fb N A nb C -> (i < N)%nat -> nb i < NDIRECT -> fb < FSSIZE ->
  owns U (fb + 1) N (fset A i (<[Z.to_nat (nb i) := fb]> (A i))) (fset nb i (nb i + 1)) C.
Proof.
  intros O Hi Hn Hf. pose proof (ow_nb _ _ _ _ _ _ O i Hi) as Hr. pose proof (ow_alen _ _ _ _ _ _ O i Hi) as Ha.
  assert (HM : NDIRECT < MAXFILE) by (unfold MAXFILE, NDIRECT, NINDIRECT, BSIZE; lia).
  assert (Hp : forall x, present (nb i) x = false -> present (nb i + 1) x = true -> x = nb i).
  { intros x. unfold present. destruct (x =? -1); rewrite Z.ltb_ge, Z.ltb_lt; lia. }
  assert (Hc : cost (nb i + 1) - cost (nb i) = 1) by (unfold cost; rewrite !(proj2 (Z.ltb_ge _ _)) by lia; lia).
  assert (Hb : forall x, slot x -> blk U (<[Z.to_nat (nb i) := fb]> (A i)) x = if decide (x = nb i) then fb else blk U (A i) x).
  { intros x. apply blk_insert; [done|lia]. }
  assert (H0 : forall j x, (j < N)%nat -> slot x -> x <> nb i \/ j <> i ->
    blk U (fset A i (<[Z.to_nat (nb i) := fb]> (A i)) j) x = blk U (A j) x).
  { intros j x Hj Hx Hne. unfold fset. case_decide as E; [|done]. subst. rewrite Hb by done. by rewrite decide_False by tauto. }
  apply owns_grow with (U := U) (fb := fb); try done; [lia|by rewrite length_insert|lia|lia|..].
  - intros j x Hj Hx P. apply H0; [done|done|]. destruct (decide (j = i)) as [->|]; [left|by right]. intros ->.
    rewrite present_data, Z.ltb_irrefl in P by lia. done.
  - intros x Hx P Q. rewrite Hb, decide_True by (done || by apply Hp). lia.
  - intros x y _ _ P Q P' Q' _. by rewrite (Hp x), (Hp y).
  - intros j x Hj Hx P. unfold fset in P. destruct (decide (j = i)) as [->|Hne].
    + rewrite H0; [|done|done|left; intros ->; rewrite present_data in P by lia; apply Z.ltb_ge in P; lia].
      apply (ow_none _ _ _ _ _ _ O); [done|done|]. destruct (present (nb i) x) eqn:E; [|done]. apply present_more in E. congruence.
    + rewrite H0 by auto. by apply (ow_none _ _ _ _ _ _ O).
  - by right.
  - apply (ow_blen _ _ _ _ _ _ O).
Qed.

(** An entry of the indirect block [d], new or there. *)
Definition ind_block (nb : Z) (a : list Z) (fb : Z) : Z := if nb =? NDIRECT then fb else at_ a (Z.to_nat NDIRECT).
Definition ind_entry (nb fb : Z) : Z := if nb =? NDIRECT then fb + 1 else fb.

Section Indirect.
Context (U U' : Z -> list Z) (fb : Z) (N : nat) (A : nat -> list Z) (nb : nat -> Z) (C : nat -> list Z) (i : nat).
Hypothesis (O : owns U fb N A nb C) (Hi : (i < N)%nat) (Hn : NDIRECT <= nb i < MAXFILE).
Let d := ind_block (nb i) (A i) fb.
Let v := ind_entry (nb i) fb.
Let a' := <[Z.to_nat NDIRECT := d]> (A i).
Hypothesis (Hfit : v + 1 <= FSSIZE).
Hypothesis (Hother : forall b, 0 <= b -> b <> d -> U' b = U b).
Hypothesis (Hd : U' d = splice (U d) (Z.to_nat (4 * (nb i - NDIRECT))) (bytes_of_u32 v)).

Lemma ind_present : nb i <> NDIRECT -> present (nb i) (-1) = true.
Proof using All. intros H. unfold present. cbn. apply Z.ltb_lt. lia. Qed.
Lemma ind_range : nmeta <= d < v + 1 /\ fb <= v.
Proof using All.
  pose proof (ow_fb _ _ _ _ _ _ O). unfold d, v, ind_block, ind_entry. destruct (Z.eqb_spec (nb i) NDIRECT) as [E|E]; [lia|].
  pose proof (ow_some _ _ _ _ _ _ O i (-1) Hi slot_ind (ind_present E)) as Hs. unfold blk in Hs. cbn [Z.eqb Z.opp Pos.eqb] in Hs. lia.
Qed.
Lemma ind_nz j : (j < N)%nat -> at_ (A j) (Z.to_nat NDIRECT) <> 0 -> present (nb j) (-1) = true.
Proof using All.
  intros Hj Hnz. destruct (present (nb j) (-1)) eqn:E; [done|]. by pose proof (ow_none _ _ _ _ _ _ O j (-1) Hj slot_ind E).
Qed.
(** No other file has the block. *)
Lemma ind_other j : (j < N)%nat -> j <> i -> at_ (A j) (Z.to_nat NDIRECT) <> 0 -> at_ (A j) (Z.to_nat NDIRECT) <> d.
Proof using All.
  intros Hj Hne Hnz E. pose proof (ind_nz j Hj Hnz) as Hp. unfold d, ind_block in E.
  pose proof (ow_some _ _ _ _ _ _ O j (-1) Hj slot_ind Hp) as Hr. unfold blk in Hr. cbn [Z.eqb Z.opp Pos.eqb] in Hr.
  destruct (Z.eqb_spec (nb i) NDIRECT) as [E'|E']; [lia|].
  by destruct (ow_inj _ _ _ _ _ _ O j i (-1) (-1) Hj Hi slot_ind slot_ind Hp (ind_present E') E).
Qed.
(** The words of the indirect block. *)
Lemma ind_word x : NDIRECT <= x < MAXFILE ->
  u32_at (U' d) (Z.to_nat (4 * (x - NDIRECT))) = if decide (x = nb i) then v else blk U (A i) x.
Proof using All.
  intros Hx. pose proof ind_range as [Hr Hv]. pose proof nmeta_val. pose proof (ow_fb _ _ _ _ _ _ O) as Hf.
  assert (Hl : length (U d) = 512%nat) by (apply (ow_blen _ _ _ _ _ _ O); lia).
  rewrite Hd. unfold MAXFILE, NDIRECT, NINDIRECT, BSIZE in *. case_decide as E.
  - subst x. apply put_u32_same; [rewrite Hl; lia|]. unfold is_u32, FSSIZE in *. lia.
  - rewrite u32_at_splice by (rewrite ?Hl; cbn [length bytes_of_u32]; lia).
    rewrite blk_data by lia. unfold d, ind_block in *. unfold NDIRECT in *. destruct (Z.eqb_spec (nb i) 12) as [E'|E'].
    + rewrite (ow_zero _ _ _ _ _ _ O) by (unfold v, ind_entry, NDIRECT in *; rewrite (proj2 (Z.eqb_eq _ _) E') in *; lia).
      unfold zeroes. rewrite u32_at_zero. symmetry. rewrite <- blk_data by lia.
      apply (ow_none _ _ _ _ _ _ O); [done|unfold slot, MAXFILE, NDIRECT, NINDIRECT, BSIZE; lia|].
      rewrite present_data by lia. apply Z.ltb_ge. lia.
    + rewrite baddr_indirect by (unfold NDIRECT; lia). done.
Qed.

Lemma ind_blk x : slot x -> blk U' a' x = if decide (x = -1) then d else if decide (x = nb i) then v else blk U (A i) x.
Proof using All.
  intros Hx. pose proof (ow_alen _ _ _ _ _ _ O i Hi) as Ha. pose proof ind_range as [Hr _]. pose proof nmeta_val.
  assert (E : forall j, at_ a' j = if decide (j = Z.to_nat NDIRECT) then d else at_ (A i) j).
  { intros j. apply at_insert. rewrite Ha. unfold NDIRECT. lia. }
  unfold slot in Hx. destruct (decide (x = -1)) as [->|Hne].
  - unfold blk. cbn [Z.eqb Z.opp Pos.eqb]. by rewrite E, decide_True.
  - rewrite blk_data by lia. destruct (decide (x < NDIRECT)) as [Hlt|Hge].
    + rewrite decide_False by lia. rewrite blk_data, !baddr_direct, E by lia. by rewrite decide_False by (unfold NDIRECT in *; lia).
    + rewrite baddr_indirect; [|lia|]; rewrite E, decide_True by done; [|lia]. apply ind_word. lia.
Qed.
Lemma ind_blk_other j x : (j < N)%nat -> j <> i -> slot x -> blk U' (A j) x = blk U (A j) x.
Proof using All.
  intros Hj Hne Hx. unfold slot in Hx. unfold blk. destruct (Z.eqb_spec x (-1)) as [|Hx']; [done|].
  unfold baddr. cbn [addrs_ip i_addrs set_i_addrs]. destruct (Z.ltb_spec x NDIRECT); [done|].
  destruct (Z.eqb_spec (at_ (A j) (Z.to_nat NDIRECT)) 0) as [|Hnz]; [done|].
  pose proof (ow_some _ _ _ _ _ _ O j (-1) Hj slot_ind (ind_nz j Hj Hnz)) as Hr. unfold blk in Hr. cbn [Z.eqb Z.opp Pos.eqb] in Hr.
  pose proof nmeta_val. rewrite Hother; [done|lia|by apply ind_other].
Qed.

Lemma grow_indirect : owns U' (v + 1) N (fset A i a') (fset nb i (nb i + 1)) C.
Proof using All.
  pose proof ind_range as [Hr Hv]. pose proof nmeta_val. pose proof (ow_fb _ _ _ _ _ _ O).
  assert (HN : 0 < NDIRECT) by done.
  assert (Hp : forall x, present (nb i) x = false -> present (nb i + 1) x = true -> x = nb i \/ (x = -1 /\ nb i = NDIRECT)).
  { intros x. unfold present. destruct (Z.eqb_spec x (-1)); rewrite Z.ltb_ge, Z.ltb_lt; lia. }
  assert (Hdv : nb i = NDIRECT -> d = fb /\ v = fb + 1).
  { intros E. unfold d, v, ind_block, ind_entry. by rewrite (proj2 (Z.eqb_eq _ _) E). }
  assert (Hoi : nb i <> NDIRECT -> d = blk U (A i) (-1)).
  { intros E. unfold d, ind_block. by rewrite (proj2 (Z.eqb_neq _ _) E). }
  apply owns_grow with (U := U) (fb := fb); try done; [lia|unfold a'; rewrite length_insert; by apply (ow_alen _ _ _ _ _ _ O)|..].
  - unfold v, ind_entry, cost. rewrite (proj2 (Z.ltb_lt _ (nb i + 1))) by lia.
    destruct (Z.eqb_spec (nb i) NDIRECT) as [->|]; [rewrite Z.ltb_irrefl; lia|]. rewrite (proj2 (Z.ltb_lt _ _)) by lia. lia.
  - intros j x Hj Hx P. unfold fset. case_decide as E; [|by apply ind_blk_other]. subst j. rewrite ind_blk by done.
    destruct (decide (x = -1)) as [->|Hne].
    + apply Hoi. intros E. by rewrite E in P.
    + rewrite decide_False; [done|]. intros ->. rewrite present_data, Z.ltb_irrefl in P by lia. done.
  - intros x Hx P Q. rewrite ind_blk by done. destruct (Hp x P Q) as [->|[-> E]].
    + rewrite decide_False, decide_True by lia. lia.
    + rewrite decide_True by done. destruct (Hdv E). lia.
  - intros x y Hx Hy P Q P' Q' E. rewrite !ind_blk in E by done.
    destruct (Hp x P Q) as [->|[-> Ex]], (Hp y P' Q') as [->|[-> Ey]]; [done| | |done].
    all: destruct (Hdv ltac:(assumption)); repeat case_decide; lia.
  - intros j x Hj Hx P. unfold fset in *. case_decide as E; [|rewrite ind_blk_other by done; by apply (ow_none _ _ _ _ _ _ O)].
    subst j. rewrite ind_blk by done. rewrite !decide_False.
    + apply (ow_none _ _ _ _ _ _ O); [done|done|]. destruct (present (nb i) x) eqn:E; [|done]. apply present_more in E. congruence.
    + intros ->. rewrite present_data in P by lia. apply Z.ltb_ge in P. lia.
    + intros ->. unfold present in P. cbn [Z.eqb Z.opp Pos.eqb] in P. apply Z.ltb_ge in P. lia.
  - intros b Hb. rewrite ind_blk, decide_True by (done || apply slot_ind). by apply Hother.
  - left. lia.
  - intros b Hb. destruct (decide (b = d)) as [->|]; [|by rewrite Hother; [apply (ow_blen _ _ _ _ _ _ O)|..]].
    rewrite Hd, length_splice. by apply (ow_blen _ _ _ _ _ _ O).
Qed.
End Indirect.

(** ** Appending data *)

Section Append.
Context (U U' : Z -> list Z) (fb : Z) (N : nat) (A : nat -> list Z) (nb : nat -> Z) (C : nat -> list Z) (i : nat) (p : list Z).
Hypothesis (O : owns U fb N A nb C) (Hi : (i < N)%nat).
Let off := Z.of_nat (length (C i)).
Let x := baddr U (addrs_ip (A i)) (off / BSIZE).
Hypothesis (Hroom : off / BSIZE < nb i) (Hp : off mod BSIZE + Z.of_nat (length p) <= BSIZE).
Hypothesis (Hother : forall b, 0 <= b -> b <> x -> U' b = U b).
Hypothesis (Hx : U' x = splice (U x) (Z.to_nat (off mod BSIZE)) p).

Lemma off_slot : slot (off / BSIZE) /\ 0 <= off / BSIZE /\ present (nb i) (off / BSIZE) = true /\ x = blk U (A i) (off / BSIZE).
Proof using All.
  pose proof (ow_nb _ _ _ _ _ _ O i Hi). assert (0 <= off / BSIZE) by (apply Z.div_pos; unfold off, BSIZE; lia).
  split; [unfold slot; lia|]. split; [done|]. rewrite present_data, blk_data by done. split; [by apply Z.ltb_lt|done].
Qed.
Lemma append_range : nmeta <= x < fb.
Proof using All. destruct off_slot as (H1 & _ & H2 & E). rewrite E. by apply (ow_some _ _ _ _ _ _ O). Qed.
Lemma append_blk j y : (j < N)%nat -> slot y -> blk U' (A j) y = blk U (A j) y.
Proof using All.
  intros Hj Hy. unfold slot in Hy. unfold blk. destruct (Z.eqb_spec y (-1)) as [|Hy']; [done|].
  unfold baddr. cbn [addrs_ip i_addrs set_i_addrs]. destruct (Z.ltb_spec y NDIRECT); [done|].
  destruct (Z.eqb_spec (at_ (A j) (Z.to_nat NDIRECT)) 0) as [|Hnz]; [done|].
  destruct (present (nb j) (-1)) eqn:P; [|by pose proof (ow_none _ _ _ _ _ _ O j (-1) Hj slot_ind P)].
  pose proof (ow_some _ _ _ _ _ _ O j (-1) Hj slot_ind P) as Hr. unfold blk in Hr. cbn [Z.eqb Z.opp Pos.eqb] in Hr.
  pose proof nmeta_val. rewrite Hother; [done|lia|]. intros E. destruct off_slot as (H1 & H2 & H3 & H4). rewrite H4 in E.
  destruct (ow_inj _ _ _ _ _ _ O j i (-1) (off / BSIZE) Hj Hi slot_ind H1 P H3 E). lia.
Qed.
(** The bytes of the files. *)
Lemma append_byte j o : (j < N)%nat -> 0 <= o < nb j * BSIZE ->
  fbyte U' (addrs_ip (A j)) o = at_ (fset C i (C i ++ p) j) (Z.to_nat o).
Proof using All.
  intros Hj Ho. pose proof (off_block _ _ Ho) as Hb. pose proof (ow_nb _ _ _ _ _ _ O j Hj) as Hm.
  assert (Hs : slot (o / BSIZE)) by (unfold slot; lia).
  assert (P : present (nb j) (o / BSIZE) = true) by (rewrite present_data by lia; apply Z.ltb_lt; lia).
  pose proof (ow_data _ _ _ _ _ _ O j o Hj Ho) as D. pose proof (append_blk j _ Hj Hs) as E. rewrite !blk_data in E by lia.
  pose proof (ow_some _ _ _ _ _ _ O j _ Hj Hs P) as Hr. rewrite blk_data in Hr by lia. pose proof nmeta_val.
  destruct off_slot as (F1 & F2 & F3 & F4). unfold fbyte in *. rewrite E.
  destruct (decide (baddr U (addrs_ip (A j)) (o / BSIZE) = x)) as [Ex|Hne].
  - assert (Ex' : blk U (A j) (o / BSIZE) = blk U (A i) (off / BSIZE)) by (rewrite blk_data by lia; congruence).
    destruct (ow_inj _ _ _ _ _ _ O j i _ _ Hj Hi Hs F1 P F3 Ex') as [-> Eo]. rewrite fset_eq, Ex, Hx.
    rewrite Ex in D. pose proof (ow_blen _ _ _ _ _ _ O x ltac:(lia)) as Hl.
    pose proof (Z.mod_pos_bound o BSIZE ltac:(unfold BSIZE; lia)). pose proof (Z.mod_pos_bound off BSIZE ltac:(unfold BSIZE; lia)).
    pose proof (Z.div_mod o BSIZE ltac:(unfold BSIZE; lia)). pose proof (Z.div_mod off BSIZE ltac:(unfold BSIZE; lia)).
    rewrite at_splice by (rewrite Hl; lia). rewrite D. unfold at_, off in *. case_decide as Hc.
    + rewrite app_nth2 by lia. f_equal. lia.
    + destruct (decide (Z.to_nat o < length (C i))%nat); [by rewrite app_nth1 by lia|].
      rewrite !nth_overflow; [done|rewrite length_app; lia|lia].
  - rewrite Hother by lia. rewrite D. destruct (decide (j = i)) as [->|Hji]; [|by rewrite fset_ne].
    rewrite fset_eq. unfold at_. pose proof (Z.div_mod o BSIZE ltac:(unfold BSIZE; lia)).
    pose proof (Z.div_mod off BSIZE ltac:(unfold BSIZE; lia)). pose proof (Z.mod_pos_bound o BSIZE ltac:(unfold BSIZE; lia)).
    pose proof (Z.mod_pos_bound off BSIZE ltac:(unfold BSIZE; lia)).
    assert (o / BSIZE <> off / BSIZE) by (intros Eb; apply Hne; unfold x; by rewrite Eb).
    unfold off in *. destruct (decide (Z.to_nat o < length (C i))%nat); [by rewrite app_nth1 by lia|].
    rewrite !nth_overflow; [done|rewrite length_app|]; unfold BSIZE in *; nia.
Qed.

Lemma owns_append : owns U' fb N A nb (fset C i (C i ++ p)).
Proof using All.
  pose proof append_range as Hr. pose proof nmeta_val. destruct O as [H1 H2 H3 H4 H5 H6 H7 H8 H9 H10 H11]. split; try done.
  - intros j y Hj Hy P. rewrite append_blk by done. by apply H5.
  - intros j y Hj Hy P. rewrite append_blk by done. by apply H6.
  - intros j k y z Hj Hk Hy Hz P Q E. rewrite !append_blk in E by done. by eapply H7.
  - exact append_byte.
  - intros j Hj. specialize (H9 j Hj). unfold fset. case_decide as E; [|done]. subst j. rewrite length_app. fold off in H9.
    pose proof (Z.div_mod off BSIZE ltac:(unfold BSIZE; lia)). fold off. unfold BSIZE in *. unfold off in *. nia.
  - intros b Hb. rewrite Hother by lia. by apply H10.
  - intros b Hb. destruct (decide (b = x)) as [->|]; [|by rewrite Hother; [apply H11|..]].
    rewrite Hx, length_splice. by apply H11.
Qed.
End Append.

(** ** A new file *)

Lemma owns_new U fb N A nb C : owns U fb N A nb C ->
  owns U fb (S N) (fset A N (replicate 13 0)) (fset nb N 0) (fset C N []).
Proof.
  intros [H1 H2 H3 H4 H5 H6 H7 H8 H9 H10 H11].
  assert (Hp : forall y, slot y -> present 0 y = true -> False).
  { intros y [Hy _] P. unfold present in P. destruct (Z.eqb_spec y (-1)); apply Z.ltb_lt in P; unfold NDIRECT in *; lia. }
  assert (Hb : forall y, slot y -> blk U (replicate 13 0) y = 0).
  { intros y Hy. unfold blk, baddr. cbn [addrs_ip i_addrs set_i_addrs]. rewrite !at_replicate. cbn. by destruct (y =? -1), (y <? NDIRECT). }
  assert (HN : forall j, (j < S N)%nat -> j <> N -> (j < N)%nat) by lia.
  split; try done.
  - cbn [sum_cost]. rewrite fset_eq, (sum_cost_ext _ nb) by (intros; apply fset_ne; lia). change (cost 0) with 0. lia.
  - intros j Hj. unfold fset. case_decide; [done|]. auto.
  - intros j Hj. unfold fset. case_decide; [unfold MAXFILE, NDIRECT, NINDIRECT, BSIZE; lia|]. auto.
  - intros j y Hj Hy P. unfold fset in *. case_decide; [by destruct (Hp y)|]. auto.
  - intros j y Hj Hy P. unfold fset in *. case_decide; [by apply Hb|]. auto.
  - intros j k y z Hj Hk Hy Hz P Q E. unfold fset in *.
    case_decide; [by destruct (Hp y)|]. case_decide; [by destruct (Hp z)|]. eapply H7; eauto.
  - intros j o Hj Ho. unfold fset in *. case_decide; [lia|]. auto.
  - intros j Hj. unfold fset. case_decide; [cbn; lia|]. auto.
Qed.

Lemma owns_ext U fb N A A' nb nb' C C' : (forall j, (j < N)%nat -> A j = A' j) -> (forall j, (j < N)%nat -> nb j = nb' j) ->
  (forall j, (j < N)%nat -> C j = C' j) -> owns U fb N A nb C -> owns U fb N A' nb' C'.
Proof.
  intros EA En EC [H1 H2 H3 H4 H5 H6 H7 H8 H9 H10 H11]. split; try done.
  - by rewrite H2, (sum_cost_ext nb nb').
  - intros j Hj. rewrite <- EA by done. auto.
  - intros j Hj. rewrite <- En by done. auto.
  - intros j x Hj. rewrite <- EA, <- En by done. auto.
  - intros j x Hj. rewrite <- EA, <- En by done. auto.
  - intros j k x y Hj Hk. rewrite <- !EA, <- !En by done. auto.
  - intros j o Hj. rewrite <- EA, <- En, <- EC by done. auto.
  - intros j Hj. rewrite <- En, <- EC by done. auto.
Qed.

(** The blocks before the data do not matter. *)
Lemma owns_meta U U' fb N A nb C : (forall b, nmeta <= b -> U' b = U b) -> (forall b, 0 <= b -> length (U' b) = Z.to_nat BSIZE) ->
  owns U fb N A nb C -> owns U' fb N A nb C.
Proof.
  intros HU Hl [H1 H2 H3 H4 H5 H6 H7 H8 H9 H10 H11]. pose proof nmeta_val.
  assert (Hb : forall j x, (j < N)%nat -> slot x -> blk U' (A j) x = blk U (A j) x).
  { intros j x Hj Hx. unfold slot in Hx. unfold blk. destruct (Z.eqb_spec x (-1)) as [|Hy']; [done|].
    unfold baddr. cbn [addrs_ip i_addrs set_i_addrs]. destruct (Z.ltb_spec x NDIRECT); [done|].
    destruct (Z.eqb_spec (at_ (A j) (Z.to_nat NDIRECT)) 0) as [|Hnz]; [done|].
    destruct (present (nb j) (-1)) eqn:P; [|by pose proof (H6 j (-1) Hj slot_ind P)].
    pose proof (H5 j (-1) Hj slot_ind P) as Hr. unfold blk in Hr. cbn [Z.eqb Z.opp Pos.eqb] in Hr. by rewrite HU by lia. }
  split; try done.
  - intros j x Hj Hx P. rewrite Hb by done. auto.
  - intros j x Hj Hx P. rewrite Hb by done. auto.
  - intros j k x y Hj Hk Hx Hy P Q. rewrite !Hb by done. auto.
  - intros j o Hj Ho. rewrite <- (H8 j o Hj Ho). pose proof (off_block _ _ Ho). specialize (H4 j Hj).
    assert (Hs : slot (o / BSIZE)) by (unfold slot; lia).
    assert (P : present (nb j) (o / BSIZE) = true) by (rewrite present_data by lia; apply Z.ltb_lt; lia).
    pose proof (Hb j _ Hj Hs) as E. pose proof (H5 j _ Hj Hs P) as R. rewrite !blk_data in * by lia.
    unfold fbyte. rewrite E, HU by lia. done.
  - intros b Hb'. rewrite HU by lia. auto.
Qed.

(** * The image mkfs writes (mkfs/mkfs.c)

    On a host with the byte order of the target, the image is a well-formed
    file system as the kernel reads it, with the files of the command line. *)

(** The blocks of an image. *)
Definition view (im : list (list Z)) (b : Z) : list Z := default zeroes (im !! Z.to_nat b).

Lemma view_set im b buf b' : length im = Z.to_nat FSSIZE -> 0 <= b < FSSIZE -> 0 <= b' ->
  view (<[Z.to_nat b := buf]> im) b' = if decide (b' = b) then buf else view im b'.
Proof.
  intros Hl Hb Hb'. unfold view. case_decide as E.
  - subst b'. by rewrite list_lookup_insert_eq by lia.
  - by rewrite list_lookup_insert_ne by lia.
Qed.

(** ** Bytes *)

Lemma u32_at_in d o v k : (o + length v <= length d)%nat -> (k + 4 <= length v)%nat -> u32_at (splice d o v) (o + k) = u32_at v k.
Proof.
  intros Hd Hk. unfold u32_at. rewrite !at_splice by done. rewrite !decide_True by lia.
  repeat (f_equal; [|f_equal]); f_equal; lia.
Qed.
Lemma u16_at_in d o v k : (o + length v <= length d)%nat -> (k + 2 <= length v)%nat -> u16_at (splice d o v) (o + k) = u16_at v k.
Proof.
  intros Hd Hk. unfold u16_at. rewrite !at_splice by done. rewrite !decide_True by lia.
  repeat (f_equal; [|f_equal]); f_equal; lia.
Qed.

Section Host.
Context {H : Host} (Hlittle : little = true).

Lemma order_little l : order l = l.
Proof using Hlittle. unfold order. by rewrite Hlittle. Qed.
Lemma get32_little d o : get32 d o = u32_at d o.
Proof using Hlittle. unfold get32. rewrite order_little. unfold u32_at. rewrite !at_take, !at_drop by lia. by rewrite Nat.add_0_r. Qed.
Lemma get16_little d o : get16 d o = u16_at d o.
Proof using Hlittle. unfold get16. rewrite order_little. unfold u16_at. rewrite !at_take, !at_drop by lia. by rewrite Nat.add_0_r. Qed.
Lemma bytes32_little v : bytes32 v = bytes_of_u32 v.
Proof using Hlittle. apply order_little. Qed.
Lemma bytes16_little v : bytes16 v = bytes_of_u16 v.
Proof using Hlittle. apply order_little. Qed.
Lemma xint_id v : is_u32 v -> xint v = v.
Proof using Hlittle. intros Hv. unfold xint. rewrite get32_little. exact (u32_bytes v [] Hv). Qed.
Lemma xshort_id v : 0 <= v < 65536 -> xshort v = v.
Proof using Hlittle. intros Hv. unfold xshort. rewrite get16_little. unfold u16_at, at_. cbn [nth plus]. unfold u8. Z.div_mod_to_equations. lia. Qed.

(** *** Inodes in their blocks *)

Record dinode_fits (d : dinode) : Prop := {
  df_type : 0 <= d_type d < 65536;
  df_major : 0 <= d_major d < 65536;
  df_minor : 0 <= d_minor d < 65536;
  df_nlink : 0 <= d_nlink d < 65536;
  df_size : is_u32 (d_size d);
  df_addrs : length (d_addrs d) = 13%nat /\ Forall is_u32 (d_addrs d);
}.

Lemma length_dinode_bytes d : length (d_addrs d) = 13%nat -> length (dinode_bytes d) = 64%nat.
Proof using Hlittle.
  intros Hd. unfold dinode_bytes. rewrite !bytes16_little, bytes32_little.
  assert (E : bytes32 <$> d_addrs d = bytes_of_u32 <$> d_addrs d) by (apply list_fmap_ext; intros; apply bytes32_little).
  rewrite E, !length_app, length_words, Hd. done.
Qed.
Lemma dinode_round_trip d buf o : dinode_fits d -> (o + 64 <= length buf)%nat -> dinode_at (splice buf o (dinode_bytes d)) o = d.
Proof using Hlittle.
  intros [H1 H2 H3 H4 H5 [H6 H7]] Ho. pose proof (length_dinode_bytes d H6) as Hl. unfold dinode_at.
  replace (get16 (splice buf o (dinode_bytes d)) o) with (get16 (splice buf o (dinode_bytes d)) (o + 0)) by (f_equal; lia).
  rewrite !get16_little, get32_little, !u16_at_in, u32_at_in by lia.
  assert (E : bytes32 <$> d_addrs d = bytes_of_u32 <$> d_addrs d) by (apply list_fmap_ext; intros; apply bytes32_little).
  unfold dinode_bytes in *. rewrite !bytes16_little, bytes32_little, E in *. set (ws := mjoin (bytes_of_u32 <$> d_addrs d)) in *.
  destruct d as [t ma mi nl sz ad]. cbn [d_type d_major d_minor d_nlink d_size d_addrs] in *. f_equal.
  - by apply u16_bytes.
  - by apply (u16_bytes ma (bytes_of_u16 mi ++ bytes_of_u16 nl ++ bytes_of_u32 sz ++ ws)).
  - by apply (u16_bytes mi (bytes_of_u16 nl ++ bytes_of_u32 sz ++ ws)).
  - by apply (u16_bytes nl (bytes_of_u32 sz ++ ws)).
  - by apply (u32_bytes sz ws).
  - apply list_eq. intros k. rewrite list_lookup_fmap. destruct (decide (k < 13)%nat) as [Hk|Hk].
    + rewrite lookup_seq_lt by done. cbn [fmap option_fmap option_map plus]. rewrite get32_little.
      replace (o + 12 + 4 * k)%nat with (o + (12 + 4 * k))%nat by lia. rewrite u32_at_in by lia.
      pose proof (word_at ad k H7 ltac:(lia)) as Hw. fold ws in Hw. rewrite lookup_at by lia. by rewrite <- Hw.
    + rewrite !lookup_ge_None_2; [done|lia|rewrite length_seq; lia].
Qed.
Lemma dinode_other d buf o o' : length (d_addrs d) = 13%nat -> (o + 64 <= length buf)%nat -> (o + 64 <= o' \/ o' + 64 <= o)%nat ->
  dinode_at (splice buf o (dinode_bytes d)) o' = dinode_at buf o'.
Proof using Hlittle.
  intros H6 Ho Hoo. pose proof (length_dinode_bytes d H6) as Hl. unfold dinode_at. rewrite !get16_little, !get32_little.
  rewrite !u16_at_splice, u32_at_splice by lia. f_equal. apply list_fmap_ext. intros k x Hk%lookup_seq.
  rewrite !get32_little. apply u32_at_splice; lia.
Qed.

(** ** Sectors *)

Lemma sector_id b : 0 <= b < FSSIZE -> sector b = Z.to_nat b.
Proof using. intros Hb. unfold sector. rewrite u32_small by (unfold is_u32, FSSIZE, BSIZE in *; lia). by rewrite Z.div_mul by (unfold BSIZE; lia). Qed.
Lemma rsect_ok b s : length (img s) = Z.to_nat FSSIZE -> 0 <= b < FSSIZE -> rsect b s = Ok (view (img s) b) s.
Proof using.
  intros Hl Hb. unfold rsect, view. rewrite sector_id by done.
  destruct (lookup_lt_is_Some_2 (img s) (Z.to_nat b)) as [x E]; [lia|]. by rewrite E.
Qed.
Lemma wsect_ok b buf s : length (img s) = Z.to_nat FSSIZE -> 0 <= b < FSSIZE ->
  wsect b buf s = Ok tt (set_img (<[Z.to_nat b := buf]> (img s)) s).
Proof using.
  intros Hl Hb. unfold wsect, modify. rewrite sector_id by done. rewrite (proj2 (Nat.sub_0_le _ _)) by lia.
  cbn [replicate]. by rewrite app_nil_r.
Qed.
(** ** Appending to a file *)

Record ready (s : mkst) (N : nat) (A : nat -> list Z) (nb : nat -> Z) (C : nat -> list Z) : Prop := {
  rd_img : length (img s) = Z.to_nat FSSIZE;
  rd_own : owns (view (img s)) (freeblock s) N A nb C;
}.
(** Only the blocks for data change. *)
Definition meta (s s' : mkst) : Prop :=
  sb s' = sb s /\ freeinode s' = freeinode s /\ forall b, 0 <= b < nmeta -> view (img s') b = view (img s) b.
Lemma meta_refl s : meta s s.
Proof using. by split_and!. Qed.
Lemma meta_trans s1 s2 s3 : meta s1 s2 -> meta s2 s3 -> meta s1 s3.
Proof using. intros (E1 & F1 & G1) (E2 & F2 & G2). split_and!; [congruence|congruence|]. intros b Hb. by rewrite G2, G1. Qed.
Lemma meta_block b buf s : length (img s) = Z.to_nat FSSIZE -> nmeta <= b < FSSIZE ->
  meta s (set_img (<[Z.to_nat b := buf]> (img s)) s).
Proof using.
  intros Hl Hb. pose proof nmeta_val. split_and!; [done|done|]. intros b' Hb'. cbn [img set_img].
  rewrite view_set by lia. by rewrite decide_False by lia.
Qed.

Lemma take_block_ok s : is_u32 (freeblock s + 1) -> take_block s = Ok (freeblock s) (set_freeblock (freeblock s + 1) s).
Proof using. intros Hb. unfold take_block. rewrite bind_gets, bind_modify. by rewrite u32_small. Qed.

(** What the tests for 0 in the addresses show. *)
Lemma slot_zero s N A nb C i x : ready s N A nb C -> (i < N)%nat -> slot x ->
  is_u32 (blk (view (img s)) (A i) x) /\ (blk (view (img s)) (A i) x =? 0) = negb (present (nb i) x).
Proof using.
  intros [Hl O] Hi Hx. pose proof nmeta_val. pose proof (ow_fb _ _ _ _ _ _ O). unfold is_u32, FSSIZE in *.
  destruct (present (nb i) x) eqn:P.
  - pose proof (ow_some _ _ _ _ _ _ O i x Hi Hx P). split; [lia|]. apply Z.eqb_neq. lia.
  - rewrite (ow_none _ _ _ _ _ _ O i x Hi Hx P). split; [lia|done].
Qed.

Definition grown (nb fbn : Z) : Z := Z.max nb (fbn + 1).

Lemma block_direct s N A nb C i din fbn : ready s N A nb C -> (i < N)%nat -> d_addrs din = A i -> 0 <= fbn <= nb i -> fbn < NDIRECT ->
  freeblock s + (cost (grown (nb i) fbn) - cost (nb i)) <= FSSIZE ->
  exists a' s', block_for din fbn s = Ok (set_d_addrs a' din, baddr (view (img s')) (addrs_ip a') fbn) s' /\
    ready s' N (fset A i a') (fset nb i (grown (nb i) fbn)) C /\ meta s s'.
Proof using Hlittle.
  intros R Hi Hdin Hfbn Hd Hroom. pose proof (rd_own _ _ _ _ _ R) as O. pose proof (ow_alen _ _ _ _ _ _ O i Hi) as Ha.
  assert (Hs : slot fbn) by (unfold slot, MAXFILE, NDIRECT, NINDIRECT, BSIZE in *; lia).
  destruct (slot_zero s N A nb C i fbn R Hi Hs) as [Hu Hz]. rewrite blk_data, baddr_direct, present_data in * by lia.
  unfold block_for. rewrite (proj2 (Z.ltb_lt _ _)) by done. rewrite Hdin, xint_id, Hz by done.
  pose proof (ow_fb _ _ _ _ _ _ O) as Hf. destruct (Z.ltb_spec fbn (nb i)) as [Hlt|Hge]; cbn [negb].
  - exists (A i), s. rewrite bind_ret, Hdin, xint_id, baddr_direct by (done || lia).
    split; [destruct din; cbn in *; by subst|]. split; [|apply meta_refl].
    destruct R as [R1 R2]. split; [done|]. eapply owns_ext; [..|exact R2]; [..|done]; intros j Hj; unfold fset, grown; case_decide; subst; try done; lia.
  - assert (fbn = nb i) as -> by lia. unfold grown in *. rewrite Z.max_r in * by lia.
    assert (Hc : cost (nb i + 1) - cost (nb i) = 1) by (unfold cost; rewrite !(proj2 (Z.ltb_ge _ _)) by lia; lia).
    pose proof nmeta_val. assert (Hfu : is_u32 (freeblock s + 1) /\ is_u32 (freeblock s)) by (unfold is_u32, FSSIZE in *; lia).
    rewrite bind_assoc, (bind_ok _ _ _ _ _ (take_block_ok s (proj1 Hfu))), bind_ret.
    exists (<[Z.to_nat (nb i) := freeblock s]> (A i)), (set_freeblock (freeblock s + 1) s).
    cbn [d_addrs set_d_addrs]. rewrite xint_id by tauto. rewrite at_insert_eq by (rewrite Ha; unfold NDIRECT in *; lia).
    rewrite xint_id by tauto. rewrite baddr_direct, at_insert_eq by (rewrite ?Ha; unfold NDIRECT in *; lia). split; [done|]. split; [|by split_and!].
    split; [apply R|]. apply (grow_direct _ _ _ _ _ _ i O); [done|lia|lia].
Qed.

(** The indirect block is there or is taken. *)
Lemma indirect_ready s N A nb C i din : ready s N A nb C -> (i < N)%nat -> d_addrs din = A i -> NDIRECT <= nb i ->
  ind_entry (nb i) (freeblock s) < FSSIZE ->
  (if xint (at_ (d_addrs din) (Z.to_nat NDIRECT)) =? 0 then
     b ← take_block; mret (set_d_addrs (<[Z.to_nat NDIRECT := xint b]> (d_addrs din)) din)
   else mret din) s =
  Ok (set_d_addrs (<[Z.to_nat NDIRECT := ind_block (nb i) (A i) (freeblock s)]> (A i)) din)
     (set_freeblock (ind_entry (nb i) (freeblock s)) s).
Proof using Hlittle.
  intros R Hi Hdin Hn Hfit. destruct (slot_zero s N A nb C i (-1) R Hi slot_ind) as [Hu Hz].
  pose proof (ow_fb _ _ _ _ _ _ (rd_own _ _ _ _ _ R)) as Hf. pose proof nmeta_val.
  unfold blk, present in Hz, Hu. cbn [Z.eqb Z.opp Pos.eqb] in Hz, Hu. rewrite Hdin, xint_id, Hz by done.
  unfold ind_block, ind_entry in *. destruct (Z.eqb_spec (nb i) NDIRECT) as [->|Hne].
  - rewrite Z.ltb_irrefl. cbn [negb]. assert (Hfu : is_u32 (freeblock s + 1) /\ is_u32 (freeblock s)) by (unfold is_u32, FSSIZE in *; lia).
    rewrite (bind_ok _ _ _ _ _ (take_block_ok s (proj1 Hfu))). by rewrite xint_id by tauto.
  - rewrite (proj2 (Z.ltb_lt _ _)) by lia. cbn [negb]. rewrite list_insert_id.
    + destruct din, s. cbn in *. by subst.
    + apply lookup_at. rewrite (ow_alen _ _ _ _ _ _ (rd_own _ _ _ _ _ R) i Hi). unfold NDIRECT. lia.
Qed.

Lemma block_indirect_old s N A nb C i din fbn : ready s N A nb C -> (i < N)%nat -> d_addrs din = A i ->
  NDIRECT <= fbn < nb i -> block_for din fbn s = Ok (din, baddr (view (img s)) (addrs_ip (A i)) fbn) s.
Proof using Hlittle.
  intros R Hi Hdin Hb. pose proof (rd_own _ _ _ _ _ R) as O. pose proof (ow_nb _ _ _ _ _ _ O i Hi) as Hm. pose proof nmeta_val.
  pose proof (ow_fb _ _ _ _ _ _ O) as Hf. assert (Hs : slot fbn) by (unfold slot; assert (0 < NDIRECT) by done; lia).
  destruct (slot_zero s N A nb C i (-1) R Hi slot_ind) as [Hu Hz].
  assert (P : present (nb i) (-1) = true) by (apply Z.ltb_lt; lia).
  pose proof (ow_some _ _ _ _ _ _ O i (-1) Hi slot_ind P) as Hr. rewrite P in Hz. unfold blk in Hz, Hu, Hr.
  cbn [Z.eqb Z.opp Pos.eqb] in Hz, Hu, Hr. destruct (slot_zero s N A nb C i fbn R Hi Hs) as [Hu' Hz'].
  assert (0 < NDIRECT) by done. rewrite blk_data in Hu', Hz' by lia. rewrite present_data, (proj2 (Z.ltb_lt fbn (nb i))) in Hz' by lia.
  rewrite baddr_indirect in Hu', Hz' |- * by lia. cbn [negb] in Hz, Hz'.
  unfold block_for. rewrite (proj2 (Z.ltb_ge _ _)) by lia. rewrite Hdin, xint_id, Hz by done. rewrite bind_ret, Hdin, xint_id by done.
  rewrite (bind_ok _ _ _ _ _ (rsect_ok (at_ (A i) (Z.to_nat NDIRECT)) s (rd_img _ _ _ _ _ R) ltac:(lia))). rewrite get32_little, Hz', bind_ret.
  by rewrite get32_little, xint_id.
Qed.

(** The next entry of the indirect block is free. *)
Lemma new_entry s N A nb C i : ready s N A nb C -> (i < N)%nat -> NDIRECT <= nb i < MAXFILE ->
  ind_entry (nb i) (freeblock s) + 1 <= FSSIZE ->
  let d := ind_block (nb i) (A i) (freeblock s) in let v := ind_entry (nb i) (freeblock s) in
  (nmeta <= d < v + 1 /\ freeblock s <= v) /\ u32_at (view (img s) d) (Z.to_nat (4 * (nb i - NDIRECT))) = 0.
Proof using.
  intros R Hi Hn Hfit d v. pose proof (rd_own _ _ _ _ _ R) as O. pose proof (ow_fb _ _ _ _ _ _ O) as Hf. assert (0 < NDIRECT) by done.
  unfold d, v, ind_block, ind_entry in *. destruct (Z.eqb_spec (nb i) NDIRECT) as [E|E].
  - split; [lia|]. rewrite (ow_zero _ _ _ _ _ _ O) by lia. apply u32_at_zero.
  - assert (P : present (nb i) (-1) = true) by (apply Z.ltb_lt; lia). pose proof nmeta_val.
    pose proof (ow_some _ _ _ _ _ _ O i (-1) Hi slot_ind P) as Hr. unfold blk in Hr. cbn [Z.eqb Z.opp Pos.eqb] in Hr.
    assert (Hs : slot (nb i)) by (unfold slot; lia).
    assert (P' : present (nb i) (nb i) = false) by (rewrite present_data by lia; apply Z.ltb_irrefl).
    pose proof (ow_none _ _ _ _ _ _ O i (nb i) Hi Hs P') as Hz. rewrite blk_data, baddr_indirect in Hz by lia. split; [lia|exact Hz].
Qed.

Lemma block_indirect_new s N A nb C i din : ready s N A nb C -> (i < N)%nat -> d_addrs din = A i ->
  NDIRECT <= nb i < MAXFILE -> ind_entry (nb i) (freeblock s) + 1 <= FSSIZE ->
  exists a' s', block_for din (nb i) s = Ok (set_d_addrs a' din, baddr (view (img s')) (addrs_ip a') (nb i)) s' /\
    ready s' N (fset A i a') (fset nb i (nb i + 1)) C /\ meta s s'.
Proof using Hlittle.
  intros R Hi Hdin Hn Hfit. pose proof (rd_own _ _ _ _ _ R) as O. pose proof (ow_alen _ _ _ _ _ _ O i Hi) as Ha.
  pose proof (rd_img _ _ _ _ _ R) as Hl. pose proof (ow_fb _ _ _ _ _ _ O) as Hf. pose proof nmeta_val.
  unfold block_for. rewrite (proj2 (Z.ltb_ge _ _)) by lia.
  rewrite (bind_ok _ _ _ _ _ (indirect_ready s N A nb C i din R Hi Hdin ltac:(lia) ltac:(lia))).
  set (d := ind_block (nb i) (A i) (freeblock s)). set (v := ind_entry (nb i) (freeblock s)) in *.
  destruct (new_entry s N A nb C i R Hi Hn Hfit) as [Hdr Hzero]. fold d v in Hdr, Hzero.
  assert (Hdu : is_u32 d /\ is_u32 v /\ is_u32 (v + 1)) by (unfold is_u32, FSSIZE in *; lia). destruct Hdu as (Hdu & Hvu & Hvu').
  cbn [d_addrs set_d_addrs]. rewrite at_insert_eq by (rewrite Ha; unfold NDIRECT; lia). rewrite xint_id by done.
  rewrite (bind_ok _ _ _ _ _ (rsect_ok d (set_freeblock v s) Hl ltac:(lia))). cbn [img set_freeblock].
  set (o := Z.to_nat (4 * (nb i - NDIRECT))) in *. set (U := view (img s)) in *. rewrite <- get32_little in Hzero.
  assert (Hlen : length (U d) = 512%nat) by (apply (ow_blen _ _ _ _ _ _ O); lia).
  assert (Ho : (o + 4 <= 512)%nat) by (unfold o, MAXFILE, NDIRECT, NINDIRECT, BSIZE in *; lia).
  rewrite Hzero. cbn [Z.eqb]. rewrite bind_assoc. pose proof (take_block_ok (set_freeblock v s) Hvu') as Et.
  rewrite (bind_ok _ _ _ _ _ Et). cbn [freeblock set_freeblock]. rewrite xint_id, bytes32_little by done.
  set (buf := splice (U d) o (bytes_of_u32 v)).
  assert (Ew : wsect d buf (set_freeblock (v + 1) (set_freeblock v s)) =
    Ok tt (set_img (<[Z.to_nat d := buf]> (img s)) (set_freeblock (v + 1) s))).
  { exact (wsect_ok d buf (set_freeblock (v + 1) (set_freeblock v s)) Hl ltac:(lia)). }
  cbv zeta. rewrite bind_assoc, (bind_ok _ _ _ _ _ Ew), bind_ret, get32_little.
  assert (Ev : u32_at buf o = v) by (apply put_u32_same; [lia|done]). rewrite Ev, xint_id by done.
  set (U' := view (<[Z.to_nat d := buf]> (img s))).
  assert (HU : forall b, 0 <= b -> U' b = if decide (b = d) then buf else U b) by (intros b Hb; apply view_set; [done|lia|done]).
  exists (<[Z.to_nat NDIRECT := d]> (A i)), (set_img (<[Z.to_nat d := buf]> (img s)) (set_freeblock (v + 1) s)).
  cbn [img set_img set_freeblock freeblock]. fold U'.
  assert (Hb : baddr U' (addrs_ip (<[Z.to_nat NDIRECT := d]> (A i))) (nb i) = v).
  { rewrite baddr_indirect; rewrite ?at_insert_eq by (rewrite Ha; unfold NDIRECT; lia); [|lia|lia]. by rewrite HU, decide_True by lia. }
  rewrite Hb. split; [done|]. split.
  - split; [cbn; by rewrite length_insert|]. cbn [img set_img set_freeblock freeblock]. fold U'.
    apply (grow_indirect U U' (freeblock s) N A nb C i O Hi Hn); [exact Hfit| |].
    + intros b Hb0 Hne. rewrite HU by done. by rewrite decide_False.
    + fold d. rewrite HU, decide_True by (done || lia). done.
  - split_and!; [done|done|]. intros b Hb0. cbn [img set_img]. fold U'. rewrite HU by lia. by rewrite decide_False by lia.
Qed.

Lemma ind_cost n fb : NDIRECT <= n -> fb + (cost (n + 1) - cost n) = ind_entry n fb + 1.
Proof using.
  intros Hn. unfold cost, ind_entry. rewrite (proj2 (Z.ltb_lt NDIRECT (n + 1))) by lia.
  destruct (Z.eqb_spec n NDIRECT) as [->|]; [rewrite Z.ltb_irrefl; lia|]. rewrite (proj2 (Z.ltb_lt _ _)) by lia. lia.
Qed.

(** [block_for] gives the block of the file, with [nb i] blocks before it. *)
Lemma block_for_spec s N A nb C i din fbn : ready s N A nb C -> (i < N)%nat -> d_addrs din = A i ->
  0 <= fbn <= nb i -> fbn < MAXFILE -> freeblock s + (cost (grown (nb i) fbn) - cost (nb i)) <= FSSIZE ->
  exists a' s', block_for din fbn s = Ok (set_d_addrs a' din, baddr (view (img s')) (addrs_ip a') fbn) s' /\
    ready s' N (fset A i a') (fset nb i (grown (nb i) fbn)) C /\ meta s s'.
Proof using Hlittle.
  intros R Hi Hdin Hfbn Hm Hroom. destruct (decide (fbn < NDIRECT)) as [|Hge]; [by apply (block_direct s N A nb C)|].
  destruct (decide (fbn < nb i)) as [Hlt|Hge'].
  - exists (A i), s. rewrite (block_indirect_old s N A nb C i din fbn R Hi Hdin) by lia.
    split; [destruct din; cbn in *; by subst|]. split; [|apply meta_refl]. destruct R as [R1 R2]. split; [done|].
    eapply owns_ext; [..|exact R2]; [..|done]; intros j Hj; unfold fset, grown; case_decide; subst; try done; lia.
  - assert (fbn = nb i) as -> by lia. unfold grown in *. rewrite Z.max_r in * by lia. rewrite ind_cost in Hroom by lia.
    apply (block_indirect_new s N A nb C); (done || lia).
Qed.

(** *** The loop *)

(** Blocks of a file of [n] bytes. *)
Definition blocks (n : Z) : Z := (n + BSIZE - 1) / BSIZE.

Lemma blocks_mono n m : n <= m -> blocks n <= blocks m.
Proof using. intros Hn. unfold blocks. apply Z.div_le_mono; unfold BSIZE; lia. Qed.
Lemma blocks_next n k : 0 <= n -> 0 < k -> n mod BSIZE + k <= BSIZE ->
  n / BSIZE <= blocks n /\ grown (blocks n) (n / BSIZE) = blocks (n + k) /\ blocks (n + k) = n / BSIZE + 1.
Proof using.
  intros Hn Hk Hm. unfold grown, blocks, BSIZE in *. Z.div_mod_to_equations. lia.
Qed.

Lemma append_nothing s N A nb C i din : ready s N A nb C -> d_addrs din = A i -> nb i = blocks (Z.of_nat (length (C i))) ->
  exists a' s', (mret (din, Z.of_nat (length (C i))) : M mkst (dinode * Z)) s = Ok (set_d_addrs a' din, Z.of_nat (length (C i))) s' /\
    ready s' N (fset A i a') (fset nb i (blocks (Z.of_nat (length (C i))))) (fset C i (C i)) /\ meta s s'.
Proof using.
  intros [R1 R2] Hdin Hnb. exists (A i), s. split; [destruct din; cbn in *; by subst|]. split; [|apply meta_refl]. split; [done|].
  eapply owns_ext; [..|exact R2]; intros j Hj; unfold fset; case_decide; by subst.
Qed.
Lemma iappend_loop_spec N i fuel : forall s A nb C din p,
  ready s N A nb C -> (i < N)%nat -> d_addrs din = A i -> nb i = blocks (Z.of_nat (length (C i))) ->
  (length p <= fuel)%nat -> Z.of_nat (length (C i ++ p)) <= MAXFILE * BSIZE ->
  freeblock s + (cost (blocks (Z.of_nat (length (C i ++ p)))) - cost (nb i)) <= FSSIZE ->
  exists a' s', iappend_loop fuel din (Z.of_nat (length (C i))) p s =
      Ok (set_d_addrs a' din, Z.of_nat (length (C i ++ p))) s' /\
    ready s' N (fset A i a') (fset nb i (blocks (Z.of_nat (length (C i ++ p))))) (fset C i (C i ++ p)) /\ meta s s'.
Proof using Hlittle.
  induction fuel as [|fuel IH]; intros s A nb C din p R Hi Hdin Hnb Hf Hmax Hroom; cbn [iappend_loop].
  all: destruct (Z.ltb_spec 0 (Z.of_nat (length p))) as [Hp|Hp];
    [|assert (p = []) as -> by (destruct p; [done|cbn in Hp; lia]); rewrite app_nil_r; by apply append_nothing].
  { lia. }
  set (off := Z.of_nat (length (C i))) in *. rewrite length_app in Hmax, Hroom.
  pose proof (Z.mod_pos_bound off BSIZE ltac:(unfold BSIZE; lia)) as Hmod. pose proof (Z.div_mod off BSIZE ltac:(unfold BSIZE; lia)) as Hdm.
  assert (Hoff : 0 <= off < MAXFILE * BSIZE) by (unfold off; lia).
  pose proof (off_block off MAXFILE Hoff) as Hbn. rewrite (proj2 (Z.ltb_lt _ _)) by lia. cbn [negb].
  assert (Hn1 : u32 ((off / BSIZE + 1) * BSIZE - off) = BSIZE - off mod BSIZE).
  { rewrite u32_small; unfold is_u32, BSIZE in *; lia. }
  set (n1 := Z.min (Z.of_nat (length p)) (BSIZE - off mod BSIZE)).
  assert (Hn1r : 0 < n1 /\ n1 <= Z.of_nat (length p) /\ off mod BSIZE + n1 <= BSIZE) by lia.
  destruct (blocks_next off n1 ltac:(lia) ltac:(lia) ltac:(lia)) as (B1 & B2 & B3). rewrite <- Hnb in B1, B2.
  pose proof (cost_mono _ _ (blocks_mono (off + n1) (Z.of_nat (length (C i) + length p)) ltac:(unfold off; lia))) as Hcm.
  destruct (block_for_spec s N A nb C i din (off / BSIZE) R Hi Hdin ltac:(lia) ltac:(lia)) as (a1 & s1 & E1 & R1 & K1); [rewrite B2; lia|].
  rewrite (bind_ok _ _ _ _ _ E1), Hn1. fold n1. rewrite B2 in R1.
  pose proof (rd_own _ _ _ _ _ R1) as O1. pose proof (rd_img _ _ _ _ _ R1) as L1. pose proof nmeta_val.
  set (x := baddr (view (img s1)) (addrs_ip a1) (off / BSIZE)).
  set (p1 := take (Z.to_nat n1) p). assert (Hp1 : Z.of_nat (length p1) = n1) by (unfold p1; rewrite length_take; lia).
  assert (Hx : nmeta <= x < freeblock s1).
  { pose proof (ow_some _ _ _ _ _ _ O1 i (off / BSIZE) Hi ltac:(unfold slot; lia)) as Hs. rewrite !fset_eq, blk_data, present_data in Hs by lia.
    apply Hs, Z.ltb_lt. lia. }
  pose proof (ow_fb _ _ _ _ _ _ O1) as Hfb1. rewrite (bind_ok _ _ _ _ _ (rsect_ok x s1 L1 ltac:(lia))).
  rewrite (bind_ok _ _ _ _ _ (wsect_ok x _ s1 L1 ltac:(lia))). replace (off - off / BSIZE * BSIZE) with (off mod BSIZE) by lia.
  set (s2 := set_img _ s1).
  assert (R2 : ready s2 N (fset A i a1) (fset nb i (blocks (off + n1))) (fset C i (C i ++ p1))).
  { split; [cbn; by rewrite length_insert|]. apply (owns_append (view (img s1)) (view (img s2)) (freeblock s1) N _ _ C i p1 O1 Hi).
    - rewrite fset_eq. fold off. lia.
    - fold off. lia.
    - rewrite fset_eq. fold off x. intros b Hb Hne. unfold s2. cbn [img set_img]. rewrite view_set by (done || lia). by rewrite decide_False.
    - rewrite fset_eq. fold off x. unfold s2. cbn [img set_img]. rewrite view_set by (done || lia). by rewrite decide_True. }
  assert (Hlen1 : Z.of_nat (length (C i ++ p1)) = off + n1) by (rewrite length_app; unfold off; lia).
  rewrite u32_small by (unfold is_u32, MAXFILE, NDIRECT, NINDIRECT, BSIZE in *; lia). rewrite <- Hlen1 in *.
  assert (Happ : (C i ++ p1) ++ drop (Z.to_nat n1) p = C i ++ p) by (unfold p1; by rewrite <- app_assoc, take_drop).
  destruct (IH s2 (fset A i a1) (fset nb i (blocks (Z.of_nat (length (C i ++ p1))))) (fset C i (C i ++ p1)) (set_d_addrs a1 din) (drop (Z.to_nat n1) p) R2 Hi)
    as (a3 & s3 & E3 & R3 & K3); rewrite ?fset_eq, ?Happ, ?length_app in *.
  - done.
  - done.
  - rewrite length_drop. lia.
  - lia.
  - pose proof (ow_count _ _ _ _ _ _ (rd_own _ _ _ _ _ R)). pose proof (ow_count _ _ _ _ _ _ O1) as Hcnt.
    rewrite sum_cost_fset in Hcnt by done. change (freeblock s2) with (freeblock s1). lia.
  - exists a3, s3. rewrite <- !length_app in *. split; [exact E3|]. split.
    + destruct R3 as [R31 R32]. split; [done|]. eapply owns_ext; [..|exact R32]; intros j Hj; unfold fset; by case_decide.
    + eapply meta_trans; [exact K1|]. eapply meta_trans; [|exact K3]. apply meta_block; [done|lia].
Qed.

(** ** Inodes and files *)

(** File [i] has inode number [i + 1]. *)
Definition inum_of (i : nat) : Z := Z.of_nat i + 1.
Definition iblk (i : nat) : Z := inum_of i / 8 + 18.
Definition ioff (i : nat) : nat := dinode_off (inum_of i).
Definition NI : nat := 207.
Definition ftype (i : nat) : Z := if decide (i = 0%nat) then T_DIR else T_FILE.
Definition dino (i : nat) (a : list Z) (n : Z) : dinode := mk_dinode (ftype i) 0 0 1 n a.
Definition blank_d : dinode := mk_dinode 0 0 0 0 0 (replicate 13 0).

Lemma iblk_range i : (i < NI)%nat -> 18 <= iblk i < 44.
Proof using. intros Hi. unfold iblk, inum_of, NI in *. Z.div_mod_to_equations. lia. Qed.
Lemma ioff_range i : (ioff i + 64 <= 512)%nat.
Proof using. unfold ioff, dinode_off, IPB, BSIZE. change (512 / 64) with 8. pose proof (Z.mod_pos_bound (inum_of i) 8 ltac:(lia)). lia. Qed.
Lemma inode_apart i j : i <> j -> iblk i <> iblk j \/ (ioff i + 64 <= ioff j \/ ioff j + 64 <= ioff i)%nat.
Proof using.
  intros Hne. unfold iblk, ioff, dinode_off, IPB, BSIZE, inum_of. change (512 / 64) with 8.
  pose proof (Z.mod_pos_bound (Z.of_nat i + 1) 8 ltac:(lia)). pose proof (Z.mod_pos_bound (Z.of_nat j + 1) 8 ltac:(lia)).
  pose proof (Z.div_mod (Z.of_nat i + 1) 8 ltac:(lia)). pose proof (Z.div_mod (Z.of_nat j + 1) 8 ltac:(lia)). lia.
Qed.
Lemma super_inodes : sb_inodestart super = 18.
Proof using Hlittle. cbn [super sb_inodestart]. rewrite xint_id; [reflexivity|]. by vm_compute. Qed.
Lemma IBLOCK_iblk i s : (i < NI)%nat -> sb s = super -> IBLOCK (inum_of i) (sb s) = iblk i.
Proof using Hlittle.
  intros Hi ->. unfold IBLOCK. rewrite super_inodes. change IPB with 8. rewrite u32_small; [done|].
  pose proof (iblk_range i Hi). unfold is_u32, iblk in *. lia.
Qed.

(** The image as a table of inodes. *)
Definition inode_at (s : mkst) (i : nat) : dinode := dinode_at (view (img s) (iblk i)) (ioff i).

Lemma rinode_spec i s : (i < NI)%nat -> sb s = super -> length (img s) = Z.to_nat FSSIZE -> rinode (inum_of i) s = Ok (inode_at s i) s.
Proof using Hlittle.
  intros Hi Hsb Hl. pose proof (iblk_range i Hi). unfold rinode. rewrite bind_gets, IBLOCK_iblk by done.
  by rewrite (bind_ok _ _ _ _ _ (rsect_ok (iblk i) s Hl ltac:(unfold FSSIZE; lia))).
Qed.
Lemma winode_spec i d s : (i < NI)%nat -> sb s = super -> length (img s) = Z.to_nat FSSIZE -> dinode_fits d ->
  length (view (img s) (iblk i)) = Z.to_nat BSIZE ->
  exists s', winode (inum_of i) d s = Ok tt s' /\ sb s' = sb s /\ freeinode s' = freeinode s /\ freeblock s' = freeblock s /\
    length (img s') = length (img s) /\ length (view (img s') (iblk i)) = Z.to_nat BSIZE /\
    (forall j, (j < NI)%nat -> inode_at s' j = if decide (j = i) then d else inode_at s j) /\
    (forall b, 0 <= b -> b <> iblk i -> view (img s') b = view (img s) b).
Proof using Hlittle.
  intros Hi Hsb Hl Hd Hlen. pose proof (iblk_range i Hi) as Hr. pose proof (ioff_range i) as Ho. unfold winode.
  rewrite bind_gets, IBLOCK_iblk by done. rewrite (bind_ok _ _ _ _ _ (rsect_ok (iblk i) s Hl ltac:(unfold FSSIZE; lia))).
  rewrite wsect_ok by (done || (unfold FSSIZE; lia)). eexists. split; [done|]. cbn [sb freeinode freeblock img set_img].
  fold (ioff i). change (Z.to_nat BSIZE) with 512%nat in *.
  assert (HV : forall b, 0 <= b -> view (<[Z.to_nat (iblk i) := splice (view (img s) (iblk i)) (ioff i) (dinode_bytes d)]> (img s)) b =
    if decide (b = iblk i) then splice (view (img s) (iblk i)) (ioff i) (dinode_bytes d) else view (img s) b).
  { intros b Hb. apply view_set; [done|unfold FSSIZE; lia|done]. }
  split_and!; [done|done|done|by rewrite length_insert| | |].
  - rewrite HV, decide_True, length_splice by (done || lia). done.
  - intros j Hj. unfold inode_at. cbn [img set_img]. pose proof (iblk_range j Hj). rewrite HV by lia.
    destruct (decide (j = i)) as [->|Hne]; [rewrite decide_True by done; apply dinode_round_trip; [done|lia]|].
    destruct (decide (iblk j = iblk i)) as [E|]; [|done]. rewrite E. apply dinode_other; [apply Hd|lia|].
    destruct (inode_apart i j ltac:(done)); [congruence|done].
  - intros b Hb Hne. rewrite HV by done. by rewrite decide_False.
Qed.
End Host.
