(* ===== verification/MkfsCorrect.v ===== *)
(** * The image mkfs writes is the file system the kernel reads *)
From S2P Require Import Prelude Memory Machine Platform Sv32 Spinlock Printf Kalloc Vm Proc Sleeplock Bio Log Fs.
From S2P Require Import ProcSpec SleepSpec BioSpec BioRefine LogSpec LogTx LogCrash FsTx FsAlloc FsFile FsWrite FsDir.
From S2P Require Import Mkfs MkfsSpec.
From stdpp Require Import gmap strings countable prelude.

Open Scope Z_scope.
Import Mkfs.

Notation len l := (Z.of_nat (length l)).

Section Host.
Context {H : Host} (Hlittle : little = true).

(** ** The image under construction *)

(** The image has [N] inodes; file [i] has the contents [C i]. *)
Record built (s : mkst) (N : nat) (A : nat -> list Z) (C : nat -> list Z) : Prop := {
  bd_img : length (img s) = Z.to_nat FSSIZE;
  bd_sb : sb s = super;
  bd_next : freeinode s = inum_of N;
  bd_N : (N <= NI)%nat;
  bd_own : owns (view (img s)) (freeblock s) N A (fun i => blocks (len (C i))) C;
  bd_tab : forall i, (i < NI)%nat -> inode_at s i = if decide (i < N)%nat then dino i (A i) (len (C i)) else blank_d;
  bd_super : view (img s) 1 = splice zeroes 0 (sb_bytes super);
  bd_rest : forall b, 0 <= b < 18 \/ b = 44 -> b <> 1 -> view (img s) b = zeroes;
}.

Lemma ftype_range i : 0 <= ftype i < 65536.
Proof using. unfold ftype. case_decide; unfold T_DIR, T_FILE; lia. Qed.
(** Inodes of the image fit in their place. *)
Lemma owns_fits s N A nb C i n : ready s N A nb C -> (i < N)%nat -> is_u32 n -> dinode_fits (dino i (A i) n).
Proof using.
  intros R Hi Hn. pose proof (ow_alen _ _ _ _ _ _ (rd_own _ _ _ _ _ R) i Hi) as Ha. split; cbn; [apply ftype_range|lia..|done|].
  split; [done|]. apply Forall_lookup. intros k v Hk. pose proof (lookup_lt_Some _ _ _ Hk) as Hlt. apply at_lookup in Hk. subst v.
  destruct (decide (k = 12%nat)) as [->|].
  - destruct (slot_zero s N A nb C i (-1) R Hi slot_ind) as [Hu _]. exact Hu.
  - assert (Hs : slot (Z.of_nat k)) by (unfold slot, MAXFILE, NDIRECT, NINDIRECT, BSIZE; lia).
    destruct (slot_zero s N A nb C i (Z.of_nat k) R Hi Hs) as [Hu _].
    rewrite blk_data, baddr_direct, Nat2Z.id in Hu by (unfold NDIRECT; lia). exact Hu.
Qed.
Lemma owns_size U fb N A C i : owns U fb N A (fun i => blocks (len (C i))) C -> (i < N)%nat -> 0 <= len (C i) <= MAXFILE * BSIZE.
Proof using.
  intros O Hi. pose proof (ow_clen _ _ _ _ _ _ O i Hi) as Hc. pose proof (ow_nb _ _ _ _ _ _ O i Hi). cbn beta in *.
  unfold BSIZE in *. lia.
Qed.

(** Writing an inode of a built image. *)
Lemma write_inode s N A C i d : built s N A C -> (i < NI)%nat -> dinode_fits d ->
  exists s', winode (inum_of i) d s = Ok tt s' /\ sb s' = super /\ freeinode s' = freeinode s /\ freeblock s' = freeblock s /\
    length (img s') = Z.to_nat FSSIZE /\ (forall j, (j < NI)%nat -> inode_at s' j = if decide (j = i) then d else inode_at s j) /\
    owns (view (img s')) (freeblock s') N A (fun i => blocks (len (C i))) C /\
    forall b, 0 <= b -> b <> iblk i -> view (img s') b = view (img s) b.
Proof using Hlittle.
  intros [B1 B2 B3 B4 B5 B6 B7 B8] Hi Hd. pose proof (iblk_range i Hi) as Hr.
  destruct (winode_spec Hlittle i d s Hi B2 B1 Hd) as (s' & E & E1 & E2 & E3 & E4 & E5 & E6 & E7); [apply (ow_blen _ _ _ _ _ _ B5); lia|].
  exists s'. split_and!; [done|congruence|done|done|congruence|done| |done]. rewrite E3. pose proof nmeta_val.
  apply (owns_meta (view (img s))); [intros b Hb; apply E7; lia| |done].
  intros b Hb. destruct (decide (b = iblk i)) as [->|]; [done|]. rewrite E7 by done. by apply (ow_blen _ _ _ _ _ _ B5).
Qed.

Lemma ialloc_spec s N A C : built s N A C -> (N < NI)%nat -> exists s',
  ialloc (ftype N) s = Ok (inum_of N) s' /\ built s' (S N) (fset A N (replicate 13 0)) (fset C N []).
Proof using Hlittle.
  intros B HN. pose proof B as [B1 B2 B3 B4 B5 B6 B7 B8]. unfold ialloc. rewrite bind_gets, bind_modify.
  rewrite xint_id, !xshort_id, B3 by (done || apply ftype_range || by vm_compute).
  rewrite u32_small by (unfold is_u32, inum_of, NI in *; lia). pose proof (iblk_range N HN) as Hr.
  set (s1 := set_freeinode (inum_of N + 1) s). set (d := mk_dinode _ _ _ _ _ _).
  assert (Hd : dinode_fits d) by (split; cbn; [apply ftype_range|lia..|done|split; [done|repeat constructor; done]]).
  destruct (winode_spec Hlittle N d s1 HN B2 B1 Hd) as (s' & E & E1 & E2 & E3 & E4 & E5 & E6 & E7); [apply (ow_blen _ _ _ _ _ _ B5); lia|].
  rewrite (bind_ok _ _ _ _ _ E). exists s'. split; [done|]. split.
  - rewrite E4. exact B1.
  - rewrite E1. exact B2.
  - rewrite E2. change (freeinode s1) with (inum_of N + 1). unfold inum_of. lia.
  - lia.
  - rewrite E3. pose proof nmeta_val. apply (owns_meta (view (img s))); [intros b Hb; apply E7; lia| |].
    + intros b Hb. destruct (decide (b = iblk N)) as [->|]; [done|]. rewrite E7 by done. by apply (ow_blen _ _ _ _ _ _ B5).
    + eapply owns_ext; [..|exact (owns_new _ _ _ _ _ _ B5)]; [done| |done]. intros j Hj. unfold fset. by case_decide.
  - intros j Hj. rewrite E6 by done. unfold fset. destruct (decide (j = N)) as [->|Hne]; [by rewrite decide_True by lia|].
    change (inode_at s1 j) with (inode_at s j). rewrite B6 by done. destruct (decide (j < N)%nat); [by rewrite decide_True by lia|by rewrite decide_False by lia].
  - rewrite E7 by lia. done.
  - intros b Hb Hb1. rewrite E7 by lia. by apply B8.
Qed.

(** The room an append needs, for the image to have contents [C']. *)
Definition fits_in (N : nat) (C' : nat -> list Z) : Prop :=
  nmeta + sum_cost (fun i => blocks (len (C' i))) N <= FSSIZE /\ forall i, (i < N)%nat -> len (C' i) <= MAXFILE * BSIZE.

Lemma iappend_spec s N A C i p : built s N A C -> (i < N)%nat -> fits_in N (fset C i (C i ++ p)) -> exists a' s',
  iappend (inum_of i) p s = Ok tt s' /\ built s' N (fset A i a') (fset C i (C i ++ p)).
Proof using Hlittle.
  intros B Hi [F1 F2]. pose proof B as [B1 B2 B3 B4 B5 B6 B7 B8]. unfold iappend.
  rewrite (bind_ok _ _ _ _ _ (rinode_spec Hlittle i s ltac:(lia) B2 B1)). rewrite B6, decide_True by lia. cbn [d_size dino].
  pose proof (owns_size _ _ _ _ _ _ B5 Hi) as Hsz. specialize (F2 i Hi). rewrite fset_eq in F2.
  rewrite xint_id by (done || unfold is_u32, MAXFILE, NDIRECT, NINDIRECT, BSIZE in *; lia).
  pose proof (ow_count _ _ _ _ _ _ B5) as Hcnt. cbn beta in Hcnt.
  assert (Ht : sum_cost (fun j => blocks (len (fset C i (C i ++ p) j))) N =
    sum_cost (fun j => blocks (len (C j))) N + (cost (blocks (len (C i ++ p))) - cost (blocks (len (C i))))).
  { rewrite <- (sum_cost_fset (fun j => blocks (len (C j)))) by done. apply sum_cost_ext. intros j Hj. unfold fset. by case_decide. }
  destruct (iappend_loop_spec Hlittle N i (S (length p)) s A (fun j => blocks (len (C j))) C (dino i (A i) (len (C i))) p) as (a' & s1 & E1 & [L1 O1] & M1 & M2 & M3);
    [by split|done|done|done|lia|done|cbn beta; lia|].
  rewrite (bind_ok _ _ _ _ _ E1). cbn [set_d_size set_d_addrs dino d_type d_major d_minor d_nlink d_addrs].
  assert (Hn : is_u32 (len (C i ++ p))) by (unfold is_u32, MAXFILE, NDIRECT, NINDIRECT, BSIZE in *; lia).
  rewrite xint_id by done. set (C' := fset C i (C i ++ p)) in *. set (A' := fset A i a') in *.
  assert (O1' : owns (view (img s1)) (freeblock s1) N A' (fun j => blocks (len (C' j))) C').
  { eapply owns_ext; [..|exact O1]; [done| |done]. intros j Hj. unfold C', fset. by case_decide. }
  pose proof nmeta_val. assert (Hfit : dinode_fits (dino i a' (len (C i ++ p)))).
  { pose proof (owns_fits s1 N A' _ C' i (len (C i ++ p)) {| rd_img := L1; rd_own := O1' |} Hi Hn) as Hf. unfold A' in Hf. by rewrite fset_eq in Hf. }
  pose proof (iblk_range i ltac:(lia)) as Hr.
  destruct (winode_spec Hlittle i (dino i a' (len (C i ++ p))) s1 ltac:(lia) ltac:(congruence) L1 Hfit) as (s' & E & G1 & G2 & G3 & G4 & G5 & G6 & G7);
    [apply (ow_blen _ _ _ _ _ _ O1'); lia|].
  exists a', s'. split; [exact E|]. split.
  - congruence.
  - congruence.
  - congruence.
  - done.
  - rewrite G3. apply (owns_meta (view (img s1))); [intros b Hb; apply G7; lia| |done].
    intros b Hb. destruct (decide (b = iblk i)) as [->|]; [done|]. rewrite G7 by done. by apply (ow_blen _ _ _ _ _ _ O1').
  - intros j Hj. rewrite G6 by done. unfold C', A', fset. destruct (decide (j = i)) as [->|Hne]; [by rewrite decide_True by lia|].
    rewrite <- B6 by done. unfold inode_at. pose proof (iblk_range j Hj). by rewrite M3 by lia.
  - rewrite G7, M3 by lia. done.
  - intros b Hb Hb1. rewrite G7, M3 by lia. by apply B8.
Qed.

Lemma built_ext s N A C C' : (forall j, (j < N)%nat -> C j = C' j) -> built s N A C -> built s N A C'.
Proof using.
  intros E [B1 B2 B3 B4 B5 B6 B7 B8]. split; try done.
  - eapply owns_ext; [..|exact B5]; [done| |done]. intros j Hj. cbn. by rewrite E.
  - intros j Hj. rewrite B6 by done. case_decide; [by rewrite E|done].
Qed.
Lemma blocks_pos n : 0 <= n -> 0 <= blocks n.
Proof using. intros Hn. apply Z.div_pos; unfold BSIZE; lia. Qed.
Lemma fits_weaken N N' C C' : (N <= N')%nat -> (forall j, (j < N)%nat -> len (C j) <= len (C' j)) -> fits_in N' C' -> fits_in N C.
Proof using.
  intros HN Hle [F1 F2]. split.
  - enough (sum_cost (fun i => blocks (len (C i))) N <= sum_cost (fun i => blocks (len (C' i))) N') by lia.
    apply sum_cost_mono; [done|intros j Hj; by apply blocks_mono, Hle|intros j Hj; apply blocks_pos; lia].
  - intros j Hj. specialize (Hle j Hj). specialize (F2 j ltac:(lia)). lia.
Qed.

(** ** Files *)

(** The bytes [read] returns before its first 0. *)
Fixpoint contents (reads : list (list Z)) : list Z :=
  match reads with
  | [] => []
  | buf :: reads' => if 0 <? len buf then buf ++ contents reads' else []
  end.

Lemma copy_in_spec N i reads : forall s A C, built s N A C -> (i < N)%nat -> fits_in N (fset C i (C i ++ contents reads)) ->
  exists A' s', copy_in (inum_of i) reads s = Ok tt s' /\ built s' N A' (fset C i (C i ++ contents reads)).
Proof using Hlittle.
  assert (Hnil : forall s A C, built s N A C -> built s N A (fset C i (C i ++ []))).
  { intros s A C. apply built_ext. intros j _. unfold fset. case_decide; [subst; by rewrite app_nil_r|done]. }
  induction reads as [|buf reads IH]; intros s A C B Hi F; cbn [copy_in contents] in *; [exists A, s; auto|].
  destruct (0 <? len buf) eqn:E; [|exists A, s; auto]. destruct (iappend_spec s N A C i buf B Hi) as (a' & s1 & E1 & B1).
  { eapply fits_weaken; [done| |exact F]. intros j Hj. unfold fset. case_decide; [|done]. rewrite !length_app. lia. }
  rewrite (bind_ok _ _ _ _ _ E1). assert (Hj : forall j, fset (fset C i (C i ++ buf)) i (fset C i (C i ++ buf) i ++ contents reads) j =
    fset C i (C i ++ buf ++ contents reads) j) by (intros j; unfold fset; rewrite (decide_True (P := i = i)) by done; case_decide; [by rewrite app_assoc|done]).
  destruct (IH s1 _ _ B1 Hi) as (A' & s' & E' & B').
  { eapply fits_weaken; [done| |exact F]. intros j _. by rewrite Hj. }
  exists A', s'. split; [done|]. eapply built_ext; [|exact B']. intros j _. apply Hj.
Qed.

(** The contents of the files after [add_files]: [N] files are there already. *)
Fixpoint placed (files : list (list Z * list Z)) (N : nat) (C : nat -> list Z) : nat -> list Z :=
  match files with
  | [] => C
  | (name, c) :: files' => placed files' (S N) (fset (fset C 0 (C 0%nat ++ dirent (inum_of N) name)) N c)
  end.
(** The entries for them in the root directory. *)
Fixpoint dirents (files : list (list Z * list Z)) (N : nat) : list Z :=
  match files with
  | [] => []
  | (name, _) :: files' => dirent (inum_of N) name ++ dirents files' (S N)
  end.

Lemma placed_spec files : forall N C, (0 < N)%nat ->
  placed files N C 0 = C 0%nat ++ dirents files N /\
  (forall j, (0 < j < N)%nat -> placed files N C j = C j) /\
  forall k f, files !! k = Some f -> placed files N C (N + k) = snd f.
Proof using.
  induction files as [|[name c] files IH]; intros N C HN; cbn [placed dirents].
  - split; [by rewrite app_nil_r|]. split; [done|]. intros k f Hk. by rewrite lookup_nil in Hk.
  - destruct (IH (S N) (fset (fset C 0 (C 0%nat ++ dirent (inum_of N) name)) N c) ltac:(lia)) as (I1 & I2 & I3). split_and!.
    + rewrite I1, fset_ne, fset_eq, app_assoc by lia. done.
    + intros j Hj. rewrite I2 by lia. by rewrite !fset_ne by lia.
    + intros [|k] f Hk; cbn in Hk.
      * injection Hk as <-. rewrite I2 by lia. rewrite Nat.add_0_r. apply fset_eq.
      * replace (N + S k)%nat with (S N + k)%nat by lia. by apply I3.
Qed.

(** An argument and the file it names: name in the image and contents. *)
Definition arg_file (arg : list Z) (f : list Z * list Z) : Prop :=
  existsb (Z.eqb 47) (shortname arg) = false /\ fst f = strip (shortname arg) /\
  exists reads, open_ arg = Some reads /\ snd f = contents reads.

Lemma add_files_spec args : forall files s N A C, Forall2 arg_file args files -> built s N A C -> (0 < N)%nat ->
  (N + length files <= NI)%nat -> fits_in (N + length files) (placed files N C) ->
  exists A' s', add_files (inum_of 0) args s = Ok tt s' /\ built s' (N + length files) A' (placed files N C).
Proof using Hlittle.
  induction args as [|arg args IH]; intros files s N A C Hf B HN HI F; inversion Hf as [|? [name c] ? files' (Hs & Hn & reads & Ho & Hc) Hf']; subst.
  - exists A, s. cbn. by rewrite Nat.add_0_r.
  - cbn [length fst snd add_files placed] in *. rewrite Hs, Ho. rewrite Nat.add_succ_r in *.
    set (C1 := fset C 0 (C 0%nat ++ dirent (inum_of N) name)) in *. set (C2 := fset C1 N c) in *.
    destruct (placed_spec files' (S N) C2 ltac:(lia)) as (P1 & P2 & _).
    assert (HC : forall j, (j < S N)%nat -> len (C2 j) <= len (placed files' (S N) C2 j)).
    { intros j Hj. destruct j as [|j]; [rewrite P1, length_app; lia|]. by rewrite P2 by lia. }
    assert (F2 : fits_in (S N) C2) by (eapply fits_weaken; [|exact HC|exact F]; lia).
    destruct (ialloc_spec s N A C B ltac:(lia)) as (s1 & E1 & B1). unfold ftype in E1. rewrite decide_False in E1 by lia.
    rewrite (bind_ok _ _ _ _ _ E1), <- Hn.
    destruct (iappend_spec s1 (S N) _ _ 0 (dirent (inum_of N) name) B1 ltac:(lia)) as (a2 & s2 & E2 & B2).
    { eapply fits_weaken; [done| |exact F2]. intros j Hj. unfold C2, C1, fset. repeat (case_decide; subst; try lia); cbn; lia. }
    rewrite (bind_ok _ _ _ _ _ E2). set (C3 := fset (fset C N []) 0 (fset C N [] 0%nat ++ dirent (inum_of N) name)) in *.
    assert (HC3 : forall j, fset C3 N (C3 N ++ c) j = C2 j).
    { intros j. unfold C3, C2, C1, fset. repeat (case_decide; subst; try done; try lia). }
    subst c. destruct (copy_in_spec (S N) N reads s2 _ _ B2 ltac:(lia)) as (A3 & s3 & E3 & B3).
    { eapply fits_weaken; [done| |exact F2]. intros j _. by rewrite HC3. }
    rewrite (bind_ok _ _ _ _ _ E3). apply (IH files' s3 (S N) A3 C2); [done| |lia|lia|done].
    eapply built_ext; [|exact B3]. intros j _. apply HC3.
Qed.

(** ** The run *)

Lemma zero_image s : img s = [] -> exists s', for_range (Z.to_nat FSSIZE) 0 (fun i => wsect (Z.of_nat i) zeroes) s = Ok tt s' /\
  s' = set_img (replicate (Z.to_nat FSSIZE) zeroes) s.
Proof using.
  intros Hs. apply (for_range_inv (fun i s' => s' = set_img (replicate i zeroes) s)); [destruct s; cbn in *; by subst|].
  intros i s' Hi ->. eexists. split; [done|]. unfold set_img. cbn [img freeinode freeblock sb]. f_equal.
  rewrite sector_id by lia. rewrite Nat2Z.id, length_replicate, Nat.sub_succ_l, Nat.sub_diag by lia.
  rewrite <- replicate_add, Nat.add_1_r. apply insert_replicate.
Qed.
Lemma view_zero b : view (replicate (Z.to_nat FSSIZE) zeroes) b = zeroes.
Proof using. unfold view. destruct (_ !! _) eqn:E; [|done]. by apply lookup_replicate in E as [-> _]. Qed.
Lemma dinode_zero o : dinode_at zeroes o = blank_d.
Proof using Hlittle.
  unfold dinode_at, zeroes. rewrite !get16_little, !get32_little by done. unfold u16_at. rewrite !u32_at_zero, !at_replicate.
  unfold blank_d. f_equal. apply list_eq. intros k. rewrite list_lookup_fmap. destruct (decide (k < 13)%nat).
  - rewrite lookup_seq_lt, lookup_replicate_2 by done. cbn. by rewrite get32_little, u32_at_zero.
  - rewrite !lookup_ge_None_2; [done|rewrite length_replicate; lia|rewrite length_seq; lia].
Qed.
Lemma length_zeroes : length zeroes = Z.to_nat BSIZE.
Proof using. apply length_replicate. Qed.
Lemma length_super : length (splice zeroes 0 (sb_bytes super)) = Z.to_nat BSIZE.
Proof using. rewrite length_splice. apply length_zeroes. Qed.

(** The empty image. *)
Lemma built_empty A C : built (mk_mkst (<[1%nat := splice zeroes 0 (sb_bytes super)]> (replicate (Z.to_nat FSSIZE) zeroes)) 1 nmeta super) 0 A C.
Proof using Hlittle.
  set (im := <[1%nat := _]> _). assert (HV : forall b, 0 <= b -> view im b = if decide (b = 1) then splice zeroes 0 (sb_bytes super) else zeroes).
  { intros b Hb. unfold im. rewrite (view_set _ 1) by (rewrite ?length_replicate; unfold FSSIZE; lia). by rewrite view_zero. }
  split; cbn [img sb freeinode freeblock].
  - unfold im. by rewrite length_insert, length_replicate.
  - done.
  - done.
  - lia.
  - pose proof nmeta_val. split; try lia.
    + unfold FSSIZE. lia.
    + cbn. lia.
    + intros b Hb. rewrite HV by lia. by rewrite decide_False by lia.
    + intros b Hb. rewrite HV by done. case_decide; [apply length_super|apply length_zeroes].
  - intros i Hi. unfold inode_at. cbn [img]. pose proof (iblk_range i Hi). rewrite HV by lia. rewrite !decide_False by lia. apply dinode_zero.
  - by rewrite HV, decide_True.
  - intros b Hb Hb1. rewrite HV by lia. by rewrite decide_False.
Qed.

(** Where the size of the root directory ends up. *)
Definition root_size (n : Z) : Z := (n / BSIZE + 1) * BSIZE.

Record finished (s : mkst) (N : nat) (A : nat -> list Z) (C : nat -> list Z) : Prop := {
  fi_own : owns (view (img s)) (freeblock s) N A (fun i => blocks (len (C i))) C;
  fi_tab : forall i, (i < NI)%nat -> inode_at s i =
    if decide (i < N)%nat then dino i (A i) (if decide (i = 0%nat) then root_size (len (C i)) else len (C i)) else blank_d;
  fi_super : view (img s) 1 = splice zeroes 0 (sb_bytes super);
  fi_rest : forall b, 0 <= b < 18 -> b <> 1 -> view (img s) b = zeroes;
  fi_bits : view (img s) 44 = balloc_bits (Z.to_nat (freeblock s)) 0 zeroes;
}.

Lemma length_balloc_bits n : forall i buf, length (balloc_bits n i buf) = length buf.
Proof using. induction n as [|n IH]; intros i buf; [done|]. cbn [balloc_bits]. rewrite IH. apply length_insert. Qed.
Lemma super_bmap : sb_bmapstart super = 44.
Proof using Hlittle. cbn [super sb_bmapstart]. rewrite xint_id; [reflexivity|done|by vm_compute]. Qed.

Lemma finish_spec s N A C : built s N A C -> (0 < N)%nat -> exists s',
  (fix_root (inum_of 0) ;; used ← gets freeblock; balloc used) s = Ok tt s' /\ finished s' N A C.
Proof using Hlittle.
  intros B HN. pose proof B as [B1 B2 B3 B4 B5 B6 B7 B8]. unfold fix_root. rewrite bind_assoc.
  assert (H0 : (0 < NI)%nat) by (unfold NI; lia). rewrite (bind_ok _ _ _ _ _ (rinode_spec Hlittle 0 s H0 B2 B1)).
  rewrite B6, decide_True by done. cbn [d_size dino]. pose proof (owns_size _ _ _ _ _ _ B5 HN) as Hsz.
  assert (Hu : is_u32 (len (C 0%nat)) /\ is_u32 (root_size (len (C 0%nat)))).
  { unfold root_size, is_u32, MAXFILE, NDIRECT, NINDIRECT, BSIZE in *. Z.div_mod_to_equations. lia. }
  rewrite !xint_id by (done || apply Hu || (rewrite xint_id by (done || apply Hu); apply Hu)). fold (root_size (len (C 0%nat))).
  cbn [set_d_size dino d_type d_major d_minor d_nlink d_addrs].
  pose proof (owns_fits s N A _ C 0 _ {| rd_img := B1; rd_own := B5 |} HN (proj2 Hu)) as Hfit.
  destruct (write_inode s N A C 0 (dino 0 (A 0%nat) (root_size (len (C 0%nat)))) B H0 Hfit) as (s1 & E1 & S1 & S2 & S3 & S4 & S5 & S6 & S7).
  rewrite (bind_ok _ _ _ _ _ E1), bind_gets. pose proof (ow_fb _ _ _ _ _ _ S6) as Hfb. pose proof nmeta_val.
  unfold balloc. rewrite (proj2 (Z.ltb_lt _ _)) by (unfold FSSIZE, BSIZE in *; lia). cbn [negb]. rewrite bind_gets, S1, super_bmap.
  rewrite wsect_ok by (done || (unfold FSSIZE; lia)). eexists. split; [done|]. cbn [set_img img].
  set (im := <[Z.to_nat 44 := _]> _).
  assert (HV : forall b, 0 <= b -> view im b = if decide (b = 44) then balloc_bits (Z.to_nat (freeblock s1)) 0 zeroes else view (img s1) b).
  { intros b Hb. apply view_set; [done|unfold FSSIZE; lia|done]. }
  pose proof (iblk_range 0 H0) as Hr. split; cbn [img freeblock set_img]; fold im.
  - apply (owns_meta (view (img s1))); [intros b Hb; rewrite HV by lia; by rewrite decide_False by lia| |done].
    intros b Hb. rewrite HV by done. case_decide; [rewrite length_balloc_bits; apply length_zeroes|by apply (ow_blen _ _ _ _ _ _ S6)].
  - intros i Hi. unfold inode_at. cbn [img set_img]. fold im. pose proof (iblk_range i Hi). rewrite HV by lia. rewrite decide_False by lia.
    change (dinode_at (view (img s1) (iblk i)) (ioff i)) with (inode_at s1 i). rewrite S5, B6 by done.
    destruct (decide (i = 0%nat)) as [->|]; [by rewrite decide_True by lia|done].
  - rewrite HV, decide_False, S7 by lia. done.
  - intros b Hb Hb1. rewrite HV, decide_False, S7 by lia. apply B8; lia.
  - by rewrite HV, decide_True by lia.
Qed.

(** The root directory before the files. *)
Definition root0 (j : nat) : list Z := dirent (inum_of 0) dot ++ dirent (inum_of 0) dotdot.

Lemma main_spec image args files : create image = true -> Forall2 arg_file args files -> (1 + length files <= NI)%nat ->
  fits_in (1 + length files) (placed files 1 root0) ->
  exists A s, main (image :: args) start_st = Ok tt s /\ finished s (1 + length files) A (placed files 1 root0).
Proof using Hlittle.
  intros Hc Hf HI F. unfold main. rewrite Hc. cbn [negb]. rewrite !bind_modify.
  destruct (zero_image (set_freeblock nmeta (set_sb super (set_img [] start_st))) eq_refl) as (s0 & E0 & ->).
  rewrite (bind_ok _ _ _ _ _ E0), bind_gets.
  set (s0 := set_img _ _). assert (L0 : length (img s0) = Z.to_nat FSSIZE) by apply length_replicate.
  rewrite (bind_ok _ _ _ _ _ (wsect_ok 1 (splice zeroes 0 (sb_bytes (sb s0))) s0 L0 ltac:(unfold FSSIZE; lia))).
  set (s1 := set_img _ s0). assert (B0 : built s1 0 root0 root0) by exact (built_empty root0 root0).
  destruct (ialloc_spec s1 0 root0 root0 B0 ltac:(unfold NI; lia)) as (s2 & E2 & B2). rewrite (bind_ok _ _ _ _ _ E2).
  change (inum_of 0 =? ROOTINO) with true. cbn [negb]. destruct (placed_spec files 1 root0 ltac:(lia)) as (P1 & _).
  assert (Hle : forall j, (j < 1)%nat -> len (root0 j) <= len (placed files 1 root0 j)).
  { intros j Hj. assert (j = 0%nat) as -> by lia. rewrite P1, length_app. lia. }
  destruct (iappend_spec s2 1 _ _ 0 (dirent (inum_of 0) dot) B2 ltac:(lia)) as (a3 & s3 & E3 & B3).
  { eapply fits_weaken; [|etrans; [|by apply Hle]|exact F]; [lia|]. assert (j = 0%nat) as -> by lia. rewrite !fset_eq. unfold root0. rewrite !length_app. cbn [length]. lia. }
  rewrite (bind_ok _ _ _ _ _ E3).
  destruct (iappend_spec s3 1 _ _ 0 (dirent (inum_of 0) dotdot) B3 ltac:(lia)) as (a4 & s4 & E4 & B4).
  { eapply fits_weaken; [|etrans; [|by apply Hle]|exact F]; [lia|]. assert (j = 0%nat) as -> by lia. rewrite !fset_eq. unfold root0. rewrite !length_app. cbn [length]. lia. }
  rewrite (bind_ok _ _ _ _ _ E4).
  assert (B4' : built s4 1 _ root0) by (eapply built_ext; [|exact B4]; intros j Hj; assert (j = 0%nat) as -> by lia; by rewrite !fset_eq).
  destruct (add_files_spec args files s4 1 _ root0 Hf B4' ltac:(lia) HI F) as (A5 & s5 & E5 & B5). rewrite (bind_ok _ _ _ _ _ E5).
  destruct (finish_spec s5 _ A5 _ B5 ltac:(lia)) as (s6 & E6 & F6). exists A5, s6. split; [exact E6|exact F6].
Qed.
End Host.

(** * The image mkfs writes is the file system the kernel reads *)

(** ** The bitmap *)

Lemma u8_testbit v k : 0 <= k < 8 -> Z.testbit (u8 v) k = Z.testbit v k.
Proof. intros Hk. unfold u8. change 256 with (2 ^ 8). by rewrite Z.mod_pow2_bits_low by lia. Qed.
Lemma balloc_bits_bit n : forall i buf k, length buf = Z.to_nat BSIZE -> 0 <= i -> i + Z.of_nat n <= BPB -> 0 <= k ->
  bit (balloc_bits n i buf) k = if decide (i <= k < i + Z.of_nat n) then true else bit buf k.
Proof.
  induction n as [|n IH]; intros i buf k Hl Hi Hn Hk; cbn [balloc_bits]; [by rewrite decide_False by lia|].
  rewrite IH by (rewrite ?length_insert; (done || lia)).
  assert (Hb : bit (<[Z.to_nat (i / 8) := u8 (Z.lor (at_ buf (Z.to_nat (i / 8))) (Z.shiftl 1 (i mod 8)))]> buf) k =
    bit (bit_mark buf i) k).
  { unfold bit, bit_mark. pose proof (bit_byte buf i Hl ltac:(lia)) as Hin. rewrite !at_insert by done. case_decide; [|done].
    apply u8_testbit. apply Z.mod_pos_bound. lia. }
  rewrite Hb, bit_bit_mark by (done || lia). repeat case_decide; (done || lia).
Qed.

(** ** What the kernel reads *)

(** The inode as [ilock] reads it. *)
Definition kinode (V : Z -> list Z) (inum : Z) : inode :=
  dip_read (V (IBLOCK inum fs_sb)) (dinode_off inum) (mk_inode ROOTDEV inum 1 1 0 0 0 0 0 []).

Lemma dip_read_fields data o dev inum ref valid t ma mi nl sz ad : dip_read data o (mk_inode dev inum ref valid t ma mi nl sz ad) =
  mk_inode dev inum ref valid (s16 (u16_at data o)) (s16 (u16_at data (o + 2))) (s16 (u16_at data (o + 4))) (s16 (u16_at data (o + 6)))
    (u32_at data (o + 8)) ((fun i => u32_at data (o + 12 + 4 * i)) <$> seq 0 13).
Proof. reflexivity. Qed.

Section Host.
Context {H : Host} (Hlittle : little = true).
Context (s : mkst) (N : nat) (A : nat -> list Z) (C : nat -> list Z).
Hypothesis (F : finished s N A C) (HN : (0 < N <= NI)%nat).
Let V := view (img s).

Lemma kinode_read i d : (i < NI)%nat -> inode_at s i = d -> kinode V (inum_of i) =
  mk_inode ROOTDEV (inum_of i) 1 1 (s16 (d_type d)) (s16 (d_major d)) (s16 (d_minor d)) (s16 (d_nlink d)) (d_size d) (d_addrs d).
Proof using All.
  intros Hi <-. assert (E : IBLOCK (inum_of i) fs_sb = iblk i).
  { unfold IBLOCK. change IPB with 8. change (sb_inodestart fs_sb) with 18. apply u32_small. pose proof (iblk_range i Hi).
    unfold is_u32, iblk in *. lia. }
  unfold kinode. rewrite E, dip_read_fields. unfold inode_at, dinode_at. fold V. fold (ioff i).
  cbn [d_type d_major d_minor d_nlink d_size d_addrs].
  rewrite !get16_little, get32_little by done. f_equal. apply list_fmap_ext. intros k x _. by rewrite get32_little.
Qed.

(** The size an inode has in the end. *)
Definition fsize (i : nat) : Z := if decide (i = 0%nat) then root_size (len (C i)) else len (C i).
Lemma kinode_file i : (i < N)%nat ->
  kinode V (inum_of i) = mk_inode ROOTDEV (inum_of i) 1 1 (ftype i) 0 0 1 (fsize i) (A i).
Proof using All.
  intros Hi. rewrite (kinode_read i (dino i (A i) (fsize i)) ltac:(lia)).
  - cbn. f_equal. unfold ftype. by case_decide.
  - rewrite (fi_tab _ _ _ _ F) by lia. by rewrite decide_True.
Qed.
Lemma kinode_free i : (N <= i < NI)%nat -> i_type (kinode V (inum_of i)) = 0.
Proof using All.
  intros Hi. rewrite (kinode_read i blank_d ltac:(lia)); [done|]. rewrite (fi_tab _ _ _ _ F) by lia. by rewrite decide_False by lia.
Qed.
Lemma kinode_baddr i bn : (i < N)%nat -> 0 <= bn -> baddr V (kinode V (inum_of i)) bn = blk V (A i) bn.
Proof using All. intros Hi Hb. rewrite kinode_file, blk_data by done. done. Qed.
Lemma kinode_ind i : (i < N)%nat -> ind (kinode V (inum_of i)) = blk V (A i) (-1).
Proof using All. intros Hi. by rewrite kinode_file. Qed.

(** *** Marks *)

Lemma fin_own : owns V (freeblock s) N A (fun i => blocks (len (C i))) C.
Proof using All. apply F. Qed.
Lemma fin_marked b : 0 <= b < FSSIZE -> marked fs_sb V b = bool_decide (b < freeblock s).
Proof using All.
  intros Hb. unfold marked, BBLOCK. change (sb_bmapstart fs_sb) with 44. unfold FSSIZE in Hb.
  rewrite Z.div_small, Z.mod_small by (unfold BPB, BSIZE; lia). change (u32 (0 + 44)) with 44. unfold V. rewrite (fi_bits _ _ _ _ F).
  pose proof (ow_fb _ _ _ _ _ _ fin_own) as Hf. pose proof nmeta_val. unfold FSSIZE in Hf.
  rewrite balloc_bits_bit by (apply length_zeroes || (unfold BPB, BSIZE; lia)). rewrite Z2Nat.id by lia.
  case_decide; case_bool_decide; try done; try lia. unfold bit, zeroes. rewrite at_replicate. apply Z.bits_0.
Qed.
Lemma fin_used b : nmeta <= b < freeblock s -> used 2 fs_sb V b.
Proof using All.
  intros Hb. pose proof (ow_fb _ _ _ _ _ _ fin_own) as Hf. pose proof nmeta_val. unfold FSSIZE in Hf.
  split; [cbn; lia|]. split; [rewrite fin_marked by (unfold FSSIZE; lia); apply bool_decide_eq_true; lia|].
  split; [change (b <> 44); lia|]. split; [lia|]. unfold outside, LOGSIZE, MAXOPBLOCKS. lia.
Qed.
Lemma fin_bitmap : bitmap_ok 2 fs_sb V.
Proof using All.
  pose proof (ow_fb _ _ _ _ _ _ fin_own) as Hf. pose proof nmeta_val.
  assert (HB : forall b, 0 <= b < 2000 -> BBLOCK b fs_sb = b / BPB + 44 /\ BBLOCK b fs_sb = 44).
  { intros b Hb. unfold BBLOCK. cbn [sb_bmapstart fs_sb]. rewrite Z.div_small by (unfold BPB, BSIZE; lia). done. }
  split; cbn [sb_size fs_sb sb_bmapstart].
  - lia.
  - intros b Hb. destruct (HB b Hb) as (E1 & E2). split; [done|]. rewrite E2. split; [lia|]. unfold outside, LOGSIZE, MAXOPBLOCKS. lia.
  - intros b Hb Hm. rewrite fin_marked in Hm by done. apply bool_decide_eq_false in Hm.
    split; [split; [lia|unfold outside, LOGSIZE, MAXOPBLOCKS; lia]|]. split; [lia|]. intros b' Hb'. destruct (HB b' Hb') as (_ & ->). lia.
Qed.

(** *** Files *)

Lemma blk_used i x : (i < N)%nat -> slot x -> blk V (A i) x <> 0 -> used 2 fs_sb V (blk V (A i) x) /\ present (blocks (len (C i))) x = true.
Proof using All.
  intros Hi Hx Hnz. destruct (present (blocks (len (C i))) x) eqn:P; [|by rewrite (ow_none _ _ _ _ _ _ fin_own i x Hi Hx P) in Hnz].
  split; [|done]. apply fin_used. by apply (ow_some _ _ _ _ _ _ fin_own).
Qed.
Lemma fin_size i : (i < N)%nat -> fsize i <= MAXFILE * BSIZE -> wfile 2 fs_sb V (kinode V (inum_of i)).
Proof using All.
  intros Hi Hsz. pose proof (owns_size _ _ _ _ _ _ fin_own Hi) as Hs. split.
  - by rewrite kinode_file.
  - rewrite kinode_file by done. by apply (ow_alen _ _ _ _ _ _ fin_own).
  - rewrite kinode_file by done. cbn [i_size]. split; [|done]. unfold fsize, root_size. case_decide; [|lia].
    unfold BSIZE. pose proof (Z.div_pos (len (C i)) 512 ltac:(lia) ltac:(lia)). lia.
  - rewrite kinode_ind by done. intros Hnz. by apply blk_used; [|apply slot_ind|].
  - intros bn Hb Hnz. rewrite kinode_baddr, kinode_ind in * by (done || lia).
    assert (Hs' : slot bn) by (unfold slot; lia). destruct (blk_used i bn Hi Hs' Hnz) as [Hu P]. split; [done|]. intros E.
    rewrite E in Hnz. destruct (blk_used i (-1) Hi slot_ind Hnz) as [_ P']. destruct (ow_inj _ _ _ _ _ _ fin_own i i bn (-1) Hi Hi Hs' slot_ind P P' E). lia.
  - intros bn bn' Hb Hb' Hnz E. rewrite !kinode_baddr in * by (done || lia).
    assert (Hs1 : slot bn) by (unfold slot; lia). assert (Hs2 : slot bn') by (unfold slot; lia).
    destruct (blk_used i bn Hi Hs1 Hnz) as [_ P]. rewrite E in Hnz. destruct (blk_used i bn' Hi Hs2 Hnz) as [_ P'].
    by destruct (ow_inj _ _ _ _ _ _ fin_own i i bn bn' Hi Hi Hs1 Hs2 P P' E).
Qed.
(** No two files share a block. *)
Lemma fin_apart i j x : (i < N)%nat -> (j < N)%nat -> i <> j -> slot x -> blk V (A j) x <> 0 -> foreign 2 fs_sb V (kinode V (inum_of i)) (blk V (A j) x).
Proof using All.
  intros Hi Hj Hne Hx Hnz. destruct (blk_used j x Hj Hx Hnz) as [Hu P]. split; [done|].
  assert (Hd : forall y, slot y -> blk V (A i) y <> blk V (A j) x).
  { intros y Hy E. rewrite <- E in Hnz. destruct (blk_used i y Hi Hy Hnz) as [_ P'].
    by destruct (ow_inj _ _ _ _ _ _ fin_own i j y x Hi Hj Hy Hx P' P E). }
  split; [rewrite kinode_ind by done; intros E; by apply (Hd (-1) slot_ind)|].
  intros bn Hb. rewrite kinode_baddr by (done || lia). apply Hd. unfold slot. lia.
Qed.
Lemma fin_file_ok i : (i < N)%nat -> fsize i <= MAXFILE * BSIZE -> fsize i <= blocks (len (C i)) * BSIZE -> file_ok V (kinode V (inum_of i)).
Proof using All.
  intros Hi Hsz Hb. pose proof (fin_size i Hi Hsz) as Hw. split; [apply Hw|apply Hw| |].
  - change (is_u32 (ind (kinode V (inum_of i)))). rewrite kinode_ind by done.
    destruct (decide (blk V (A i) (-1) = 0)) as [->|Hnz]; [done|]. destruct (blk_used i (-1) Hi slot_ind Hnz) as [[Hr _] _].
    unfold is_u32. change (sb_size fs_sb) with 2000 in Hr. lia.
  - intros bn Hb0 Hlt. rewrite kinode_file in Hlt by done. cbn [i_size] in Hlt. rewrite kinode_baddr by done.
    pose proof (ow_nb _ _ _ _ _ _ fin_own i Hi) as Hm. cbn beta in Hm.
    assert (Hbn : bn < blocks (len (C i))) by (unfold BSIZE in *; lia).
    pose proof (ow_some _ _ _ _ _ _ fin_own i bn Hi ltac:(unfold slot; lia)) as Hs. rewrite present_data in Hs by done.
    specialize (Hs (proj2 (Z.ltb_lt _ _) Hbn)). pose proof nmeta_val. pose proof (ow_fb _ _ _ _ _ _ fin_own). unfold is_u32, FSSIZE in *. lia.
Qed.
(** The bytes, zeroes after the end. *)
Lemma fin_byte i o : (i < N)%nat -> 0 <= o < MAXFILE * BSIZE -> fbyte V (kinode V (inum_of i)) o = at_ (C i) (Z.to_nat o).
Proof using All.
  intros Hi Ho. pose proof (off_block o MAXFILE Ho) as Hb. unfold fbyte. rewrite kinode_baddr by (done || lia).
  assert (Hs : slot (o / BSIZE)) by (unfold slot; lia). destruct (decide (o < blocks (len (C i)) * BSIZE)) as [Hlt|Hge].
  - rewrite blk_data by lia. apply (ow_data _ _ _ _ _ _ fin_own i o Hi). lia.
  - rewrite (ow_none _ _ _ _ _ _ fin_own i _ Hi Hs).
    + unfold V. rewrite (fi_rest _ _ _ _ F) by lia. unfold zeroes. rewrite at_replicate. symmetry. apply nth_overflow.
      pose proof (ow_clen _ _ _ _ _ _ fin_own i Hi). cbn beta in *. lia.
    + rewrite present_data by lia. apply Z.ltb_ge. apply Z.div_le_lower_bound; unfold BSIZE in *; lia.
Qed.
Lemma fin_bytes i : (i < N)%nat -> fbytes V (kinode V (inum_of i)) 0 (length (C i)) = C i.
Proof using All.
  intros Hi. pose proof (owns_size _ _ _ _ _ _ fin_own Hi) as Hs. apply list_eq. intros k. unfold fbytes. rewrite list_lookup_fmap.
  destruct (decide (k < length (C i))%nat) as [Hk|Hk].
  - rewrite lookup_seq_lt, lookup_at by done. cbn. rewrite fin_byte by lia. by rewrite Z.add_0_l, Nat2Z.id.
  - rewrite !lookup_ge_None_2; [done|lia|rewrite length_seq; lia].
Qed.
End Host.

(** ** The root directory *)

(** The entries: inode number and name. *)
Definition entries (files : list (list Z * list Z)) : list (Z * list Z) :=
  (ROOTINO, dot) :: (ROOTINO, dotdot) :: imap (fun j f => (Z.of_nat j + 2, fst f)) files.

Lemma entries_file files k : entries files !! S (S k) = (fun f => (Z.of_nat k + 2, fst f)) <$> files !! k.
Proof. apply list_lookup_imap. Qed.

Section Dirents.
Context {H : Host} (Hlittle : little = true).

Lemma length_dirent n nm : length (dirent n nm) = 16%nat.
Proof using Hlittle.
  unfold dirent. rewrite bytes16_little by done. rewrite length_app. unfold strncpy. by rewrite length_strncpy_copy, length_replicate.
Qed.
Lemma dirent_inum n nm : 0 <= n < 65536 -> u16_at (dirent n nm) 0 = n.
Proof using Hlittle. intros Hn. unfold dirent. rewrite bytes16_little, xshort_id by done. by apply u16_bytes. Qed.
Lemma dirent_name n nm j : (j < 14)%nat -> at_ (dirent n nm) (2 + j) = if decide (j < strlen nm)%nat then at_ nm j else 0.
Proof using Hlittle.
  intros Hj. unfold dirent. rewrite bytes16_little by done. change (at_ (bytes_of_u16 (xshort n) ++ ?l) (2 + j)) with (at_ l j).
  by apply strncpy_at.
Qed.
Lemma dirent_u8 n nm : bytes_ok nm -> 0 <= n < 65536 -> u8 <$> dirent n nm = dirent n nm.
Proof using Hlittle.
  intros Hb Hn. apply list_eq. intros j. rewrite list_lookup_fmap. destruct (decide (j < 16)%nat) as [Hj|Hj].
  - rewrite lookup_at by (rewrite length_dirent; lia). cbn. f_equal. apply u8_small. destruct j as [|[|j]].
    + unfold dirent. rewrite bytes16_little by done. apply u8_range.
    + unfold dirent. rewrite bytes16_little by done. apply u8_range.
    + change (S (S j)) with (2 + j)%nat. rewrite dirent_name by lia. case_decide; [apply Hb|lia].
  - rewrite lookup_ge_None_2; [done|]. rewrite length_dirent. lia.
Qed.
(** The name is the one asked for, up to 14 characters. *)
Lemma dirent_same n nm : same_name nm (drop 2 (dirent n nm)).
Proof using Hlittle.
  unfold dirent. rewrite bytes16_little by done. by apply (strncpy_same (replicate 14 0)).
Qed.

Lemma length_dirents files N : length (dirents files N) = (16 * length files)%nat.
Proof using Hlittle.
  revert N. induction files as [|[nm c] files IH]; intros N; [done|]. cbn [dirents]. rewrite length_app, length_dirent, IH. cbn. lia.
Qed.
Lemma dirents_at files : forall N k r, (r < 16)%nat -> at_ (dirents files N) (16 * k + r) =
  match files !! k with Some f => at_ (dirent (inum_of (N + k)) (fst f)) r | None => 0 end.
Proof using Hlittle.
  induction files as [|[nm c] files IH]; intros N k r Hr; cbn [dirents].
  - unfold at_. rewrite lookup_nil. by destruct (16 * k + r)%nat.
  - unfold at_ in *. destruct k as [|k]; cbn [lookup list_lookup].
    + rewrite app_nth1 by (rewrite length_dirent; lia). by rewrite Nat.add_0_r.
    + rewrite app_nth2 by (rewrite length_dirent; lia). rewrite length_dirent.
      replace (16 * S k + r - 16)%nat with (16 * k + r)%nat by lia. rewrite IH by done. by rewrite Nat.add_succ_r.
Qed.
Lemma root_at files k r : (r < 16)%nat -> at_ (placed files 1 root0 0) (16 * k + r) =
  match entries files !! k with Some (n, nm) => at_ (dirent n nm) r | None => 0 end.
Proof using Hlittle.
  intros Hr. destruct (placed_spec files 1 root0 ltac:(lia)) as (-> & _). unfold root0, at_.
  destruct k as [|[|k]]; [cbn [entries lookup list_lookup]..|rewrite entries_file].
  - rewrite app_nth1 by (rewrite length_app, !length_dirent; lia). by rewrite app_nth1 by (rewrite length_dirent; lia).
  - rewrite app_nth1 by (rewrite length_app, !length_dirent; lia). rewrite app_nth2 by (rewrite length_dirent; lia). rewrite length_dirent.
    by replace (16 * 1 + r - 16)%nat with r by lia.
  - rewrite app_nth2 by (rewrite length_app, !length_dirent; lia). rewrite length_app, !length_dirent.
    replace (16 * S (S k) + r - (16 + 16))%nat with (16 * k + r)%nat by lia.
    fold (at_ (dirents files 1) (16 * k + r)). rewrite dirents_at by done.
    destruct (files !! k) as [f|]; [|done]. cbn.
    unfold at_, inum_of. do 2 f_equal. lia.
Qed.
Lemma length_root files : len (placed files 1 root0 0) = 16 * (len files + 2).
Proof using Hlittle.
  destruct (placed_spec files 1 root0 ltac:(lia)) as (-> & _). unfold root0. rewrite !length_app, !length_dirent, length_dirents. lia.
Qed.
End Dirents.

(** ** The theorem *)

(** Blocks the files take. *)
Definition file_blocks (n : Z) : Z := cost (blocks n).
Definition files_blocks (files : list (list Z * list Z)) : Z := foldr (fun f a => file_blocks (len (snd f)) + a) 0 files.
Definition used_blocks (files : list (list Z * list Z)) : Z := nmeta + file_blocks (16 * (len files + 2)) + files_blocks files.

Lemma sum_cost_front nb N : sum_cost nb (S N) = cost (nb 0%nat) + sum_cost (fun i => nb (S i)) N.
Proof. induction N as [|N IH]; [cbn; lia|]. cbn [sum_cost] in *. lia. Qed.
Lemma files_sum files : forall nb, (forall k f, files !! k = Some f -> nb k = blocks (len (snd f))) ->
  sum_cost nb (length files) = files_blocks files.
Proof.
  induction files as [|f files IH]; intros nb Hnb; [done|]. cbn [length]. rewrite sum_cost_front, (Hnb 0%nat f) by done.
  cbn [files_blocks foldr]. f_equal. apply IH. intros k g Hk. by apply (Hnb (S k)).
Qed.

(** The blocks of an inode: its data and its indirect block. *)
Definition has_block (V : Z -> list Z) (ip : inode) (b : Z) : Prop :=
  b <> 0 /\ (b = ind ip \/ exists bn, 0 <= bn < MAXFILE /\ b = baddr V ip bn).

(** The image [V] is a file system with these files: what the kernel relies
    on of the super block, the log, the bitmap, the inodes and the root
    directory. *)
Record image_ok (V : Z -> list Z) (files : list (list Z * list Z)) : Prop := {
  io_len : forall b, 0 <= b -> length (V b) = Z.to_nat BSIZE;
  io_boot : V 0 = zeroes;
  io_sb : decode_sb (V 1) = fs_sb;
  io_log : heads [] (V 2);
  io_bitmap : bitmap_ok 2 fs_sb V;
  io_marks : forall b, 0 <= b < FSSIZE -> marked fs_sb V b = bool_decide (b < used_blocks files);
  io_root : let ip := kinode V ROOTINO in
    i_type ip = T_DIR /\ i_nlink ip = 1 /\ i_size ip = root_size (16 * (len files + 2)) /\ wfile 2 fs_sb V ip /\
    ((len files + 2) mod 32 <> 0 -> file_ok V ip);
  io_entry : forall k n nm, entries files !! k = Some (n, nm) ->
    dent_inum V (kinode V ROOTINO) k = n /\ same_name nm (dent_name V (kinode V ROOTINO) k);
  io_no_entry : forall k, (length files + 2 <= k)%nat -> 16 * Z.of_nat k < i_size (kinode V ROOTINO) ->
    dent_inum V (kinode V ROOTINO) k = 0;
  io_file : forall k f, files !! k = Some f -> let ip := kinode V (Z.of_nat k + 2) in
    i_type ip = T_FILE /\ i_nlink ip = 1 /\ i_size ip = len (snd f) /\ wfile 2 fs_sb V ip /\ file_ok V ip /\
    fbytes V ip 0 (length (snd f)) = snd f;
  io_apart : forall m n b, 1 <= m <= len files + 1 -> 1 <= n <= len files + 1 -> m <> n -> has_block V (kinode V n) b ->
    foreign 2 fs_sb V (kinode V m) b;
  io_free : forall n, len files + 2 <= n < NINODES -> i_type (kinode V n) = 0;
}.

(** What the image has room for. *)
Record fits (files : list (list Z * list Z)) : Prop := {
  ft_number : len files + 2 <= NINODES;
  ft_names : Forall (fun f => bytes_ok (fst f)) files;
  ft_sizes : Forall (fun f => len (snd f) <= MAXFILE * BSIZE) files;
  ft_blocks : used_blocks files <= FSSIZE;
}.

Section Image.
Context {H : Host} (Hlittle : little = true) (files : list (list Z * list Z)) (Hfit : fits files).
Let C := placed files 1 root0.

Lemma placed_file k f : files !! k = Some f -> C (S k) = snd f.
Proof using. intros Hk. by apply (placed_spec files 1 root0 ltac:(lia)). Qed.
Lemma image_sum : nmeta + sum_cost (fun i => blocks (len (C i))) (1 + length files) = used_blocks files.
Proof using Hlittle.
  cbn [plus]. rewrite sum_cost_front. unfold used_blocks, file_blocks. unfold C at 1. rewrite length_root by done.
  rewrite (files_sum files); [lia|]. intros k f Hk. cbn. by rewrite (placed_file k f Hk).
Qed.
Lemma image_fits : (1 + length files <= NI)%nat /\ fits_in (1 + length files) C.
Proof using All.
  destruct Hfit as [F1 F2 F3 F4]. split; [unfold NI, NINODES in *; lia|]. split; [by rewrite image_sum|].
  intros [|k] Hk.
  - unfold C. rewrite length_root by done. unfold NINODES, MAXFILE, NDIRECT, NINDIRECT, BSIZE in *. lia.
  - destruct (lookup_lt_is_Some_2 files k ltac:(lia)) as [f Hf]. rewrite (placed_file k f Hf). by apply (Forall_lookup_1 _ _ _ _ F3 Hf).
Qed.
Lemma super_decode : decode_sb (splice zeroes 0 (sb_bytes super)) = fs_sb.
Proof using Hlittle.
  assert (E : sb_bytes super = mjoin (bytes_of_u32 <$> [FSMAGIC; 2000; 1955; 200; 16; 2; 18; 44])).
  { unfold sb_bytes, super. cbn [sb_magic sb_size sb_nblocks sb_ninodes sb_nlog sb_logstart sb_inodestart sb_bmapstart fmap list_fmap].
    rewrite !bytes32_little, !xint_id by (done || by vm_compute). reflexivity. }
  rewrite E. vm_compute. reflexivity.
Qed.

Context (s : mkst) (A : nat -> list Z) (F : finished s (1 + length files) A C).
Let V := view (img s).
Let HN : (0 < 1 + length files <= NI)%nat := conj (Nat.lt_0_succ _) (proj1 image_fits).

Lemma image_kinode i : (i < 1 + length files)%nat ->
  kinode V (inum_of i) = mk_inode ROOTDEV (inum_of i) 1 1 (ftype i) 0 0 1 (fsize C i) (A i).
Proof using All. intros Hi. exact (kinode_file Hlittle s _ A C F HN i Hi). Qed.
Lemma root_kinode : kinode V ROOTINO = mk_inode ROOTDEV 1 1 1 T_DIR 0 0 1 (root_size (16 * (len files + 2))) (A 0%nat).
Proof using All.
  change ROOTINO with (inum_of 0). rewrite image_kinode by lia. unfold fsize. rewrite decide_True by done. unfold C. by rewrite length_root.
Qed.
Lemma root_bound : 0 < root_size (16 * (len files + 2)) <= MAXFILE * BSIZE /\ 16 * (len files + 2) < root_size (16 * (len files + 2)).
Proof using All.
  pose proof (ft_number _ Hfit). unfold root_size, NINODES, MAXFILE, NDIRECT, NINDIRECT, BSIZE in *. Z.div_mod_to_equations. lia.
Qed.
Lemma root_dent k : 16 * Z.of_nat k + 16 <= MAXFILE * BSIZE -> dent V (kinode V ROOTINO) k =
  u8 <$> match entries files !! k with Some (n, nm) => dirent n nm | None => replicate 16 0 end.
Proof using All.
  intros Hk. unfold dent. f_equal. apply list_eq. intros r. unfold fbytes. rewrite list_lookup_fmap. destruct (decide (r < 16)%nat) as [Hr|Hr].
  - rewrite lookup_seq_lt by done. cbn [fmap option_fmap option_map]. change ROOTINO with (inum_of 0).
    rewrite (fin_byte Hlittle s _ A C F HN 0) by lia. replace (Z.to_nat (16 * Z.of_nat k + Z.of_nat (0 + r))) with (16 * k + r)%nat by lia.
    unfold C. rewrite root_at by done. destruct (entries files !! k) as [[n nm]|].
    + by rewrite lookup_at by (rewrite length_dirent; done).
    + by rewrite lookup_replicate_2 by lia.
  - rewrite !lookup_ge_None_2; [done| |rewrite length_seq; lia]. destruct (entries files !! k) as [[n nm]|]; [rewrite length_dirent by done; lia|rewrite length_replicate; lia].
Qed.
Lemma entry_ok k n nm : entries files !! k = Some (n, nm) -> 0 <= n < 65536 /\ bytes_ok nm /\ (k < length files + 2)%nat.
Proof using All.
  destruct Hfit as [F1 F2 F3 F4]. unfold NINODES in *. intros Hk. destruct k as [|[|k]].
  - injection Hk as <- <-. split; [by vm_compute|]. split; [exact (at_u8 [46])|lia].
  - injection Hk as <- <-. split; [by vm_compute|]. split; [exact (at_u8 [46; 46])|lia].
  - rewrite entries_file in Hk. destruct (files !! k) as [f|] eqn:E; [|done]. injection Hk as <- <-. pose proof (lookup_lt_Some _ _ _ E).
    split; [lia|]. split; [exact (Forall_lookup_1 _ _ _ _ F2 E)|lia].
Qed.

Lemma image_entry k n nm : entries files !! k = Some (n, nm) ->
  dent_inum V (kinode V ROOTINO) k = n /\ same_name nm (dent_name V (kinode V ROOTINO) k).
Proof using All.
  intros Hk. destruct (entry_ok k n nm Hk) as (Hn & Hb & Hlt). pose proof root_bound.
  unfold dent_inum, dent_name. rewrite root_dent, Hk, dirent_u8 by (done || lia).
  split; [by apply dirent_inum|by apply dirent_same].
Qed.
Lemma image_no_entry k : (length files + 2 <= k)%nat -> 16 * Z.of_nat k < i_size (kinode V ROOTINO) -> dent_inum V (kinode V ROOTINO) k = 0.
Proof using All.
  intros Hk Hs. rewrite root_kinode in Hs. cbn [i_size] in Hs. pose proof root_bound.
  assert (16 * Z.of_nat k + 16 <= root_size (16 * (len files + 2))) by (unfold root_size, BSIZE in *; lia).
  unfold dent_inum. rewrite root_dent by lia. destruct (entries files !! k) as [[n nm]|] eqn:E; [destruct (entry_ok k n nm E); lia|done].
Qed.
Lemma image_root : let ip := kinode V ROOTINO in
  i_type ip = T_DIR /\ i_nlink ip = 1 /\ i_size ip = root_size (16 * (len files + 2)) /\ wfile 2 fs_sb V ip /\
  ((len files + 2) mod 32 <> 0 -> file_ok V ip).
Proof using All.
  pose proof root_bound as [Hb _]. assert (Es : fsize C 0 = root_size (16 * (len files + 2))).
  { unfold fsize. rewrite decide_True by done. unfold C. by rewrite length_root. }
  cbn zeta. split_and!; [by rewrite root_kinode..|apply (fin_size Hlittle s _ A C F HN 0); [lia|rewrite Es; lia]|].
  intros Hm. apply (fin_file_ok Hlittle s _ A C F HN 0); [lia|rewrite Es; lia|]. rewrite Es. unfold C. rewrite length_root by done.
  unfold root_size, blocks, BSIZE. Z.div_mod_to_equations. lia.
Qed.
Lemma image_file k f : files !! k = Some f -> let ip := kinode V (Z.of_nat k + 2) in
  i_type ip = T_FILE /\ i_nlink ip = 1 /\ i_size ip = len (snd f) /\ wfile 2 fs_sb V ip /\ file_ok V ip /\
  fbytes V ip 0 (length (snd f)) = snd f.
Proof using All.
  intros Hk. pose proof (lookup_lt_Some _ _ _ Hk) as Hlt. pose proof (Forall_lookup_1 _ _ _ _ (ft_sizes _ Hfit) Hk) as Hs. cbn in Hs.
  cbn zeta. replace (Z.of_nat k + 2) with (inum_of (S k)) by (unfold inum_of; lia).
  assert (Hi : (S k < 1 + length files)%nat) by lia. assert (Es : fsize C (S k) = len (snd f)) by (unfold fsize; by rewrite (placed_file k f Hk)).
  split_and!.
  - by rewrite image_kinode.
  - by rewrite image_kinode.
  - by rewrite image_kinode.
  - apply (fin_size Hlittle s _ A C F HN); [done|by rewrite Es].
  - apply (fin_file_ok Hlittle s _ A C F HN); [done|by rewrite Es|]. rewrite Es, (placed_file k f Hk).
    unfold blocks, BSIZE. Z.div_mod_to_equations. lia.
  - pose proof (fin_bytes Hlittle s _ A C F HN (S k) Hi) as E. by rewrite (placed_file k f Hk) in E.
Qed.

Lemma image_done : image_ok V files.
Proof using All.
  pose proof (fi_own _ _ _ _ F) as O. assert (Hfb : freeblock s = used_blocks files) by (rewrite (ow_count _ _ _ _ _ _ O); apply image_sum).
  assert (Hnum : forall m, 1 <= m <= len files + 1 -> exists i, (i < 1 + length files)%nat /\ m = inum_of i).
  { intros m Hm. exists (Z.to_nat (m - 1)). unfold inum_of. lia. }
  split.
  - exact (ow_blen _ _ _ _ _ _ O).
  - unfold V. by rewrite (fi_rest _ _ _ _ F) by lia.
  - unfold V. rewrite (fi_super _ _ _ _ F). apply super_decode.
  - unfold V. rewrite (fi_rest _ _ _ _ F) by lia. split; [reflexivity| |reflexivity]. intros i b. by rewrite lookup_nil.
  - exact (fin_bitmap Hlittle s _ A C F HN).
  - intros b Hb. rewrite <- Hfb. exact (fin_marked Hlittle s _ A C F HN b Hb).
  - exact image_root.
  - exact image_entry.
  - exact image_no_entry.
  - exact image_file.
  - intros m n b Hm Hn Hne [Hb Hhas]. destruct (Hnum m Hm) as (i & Hi & ->), (Hnum n Hn) as (j & Hj & ->).
    assert (Hij : i <> j) by congruence. destruct Hhas as [->|(bn & Hbn & ->)].
    + pose proof (kinode_ind Hlittle s _ A C F HN j Hj) as E. fold V in E. rewrite E in Hb |- *. by apply (fin_apart Hlittle s _ A C F HN i j (-1) Hi Hj Hij slot_ind).
    + pose proof (kinode_baddr Hlittle s _ A C F HN j bn Hj ltac:(lia)) as E. fold V in E. rewrite E in Hb |- *.
      apply (fin_apart Hlittle s _ A C F HN i j bn Hi Hj Hij); [unfold slot; lia|done].
  - intros n Hn. replace n with (inum_of (Z.to_nat (n - 1))) by (unfold inum_of; lia).
    apply (kinode_free Hlittle s _ A C F HN). unfold NI, NINODES in *. lia.
Qed.
End Image.

Lemma mkfs_image (H : Host) image args files : little = true -> create image = true ->
  Forall2 arg_file args files -> fits files ->
  exists s, main (image :: args) start_st = Ok tt s /\ image_ok (view (img s)) files.
Proof.
  intros Hl Hc Hf Hfit. destruct (image_fits Hl files Hfit) as [HI F].
  destruct (main_spec Hl image args files Hc Hf HI F) as (A & s & E & Fin). exists s. split; [exact E|].
  exact (image_done Hl files Hfit s A Fin).
Qed.

(** C5: mkfs builds the file system the kernel reads.  On a host with the byte
    order of the target, for files that can be opened and fit, mkfs succeeds
    and its image has the super block, an empty log, the bitmap with exactly
    the blocks in use marked, a root directory with an entry for each file, an
    inode for each file with exactly its contents, no two files sharing a
    block, and every other inode free.  The inodes meet what the theorems on
    the kernel ask of a file. *)
Theorem mkfs_correct (H : Host) image args files : little = true -> create image = true ->
  Forall2 arg_file args files -> fits files ->
  exists s, main (image :: args) start_st = Ok tt s /\ image_ok (view (img s)) files.
Proof. apply mkfs_image. Qed.

(** One file "user/_ab" read in two parts. *)
Definition small_host : Host := {|
  little := true;
  create := fun _ => true;
  open_ := fun _ => Some [[1; 2]; [3]];
|}.
Lemma mkfs_correct_witness : exists s, @main small_host [[105]; [117; 115; 101; 114; 47; 95; 97; 98]] start_st = Ok tt s /\
  image_ok (view (img s)) [([97; 98], [1; 2; 3])].
Proof.
  apply (mkfs_correct small_host [105] [[117; 115; 101; 114; 47; 95; 97; 98]] [([97; 98], [1; 2; 3])]).
  - reflexivity.
  - reflexivity.
  - repeat constructor. exists [[1; 2]; [3]]. split; reflexivity.
  - split.
    + vm_compute. discriminate.
    + apply Forall_cons; split; [exact (at_u8 [97; 98])|apply Forall_nil_2].
    + repeat constructor. vm_compute. discriminate.
    + vm_compute. discriminate.
Defined.

(** On a host of the other byte order the magic number comes out reversed,
    since it alone is stored without [xint]. *)
Lemma magic_big_endian (H : Host) : little = false ->
  sb_magic (decode_sb (splice zeroes 0 (sb_bytes super))) = 1076895760 /\ FSMAGIC <> 1076895760.
Proof.
  intros Hb. split; [|done]. unfold sb_bytes. cbn [super sb_magic fmap list_fmap]. unfold bytes32 at 1, order. rewrite Hb.
  unfold decode_sb. cbn [sb_magic]. change (rev (bytes_of_u32 FSMAGIC)) with [16; 32; 48; 64]. reflexivity.
Qed.
