(* ===== verification/MkfsBoot.v ===== *)
(** * The kernel on the image mkfs wrote

    The tree of the image is well-formed, so paths lead to its files, and what
    is read there is what mkfs was given. *)
From S2P Require Import Prelude Memory Machine Platform Sv32 Spinlock Printf Kalloc Vm Proc Sleeplock Bio Log Fs Nemu.
From S2P Require Import ProcSpec SleepSpec NemuSpec BioSpec BioRefine LogSpec LogTx LogCrash FsTx FsAlloc FsFile FsWrite FsDir FsLink.
From S2P Require Import FsPath Mkfs MkfsSpec MkfsCorrect.
From stdpp Require Import gmap strings countable prelude.

Open Scope Z_scope.
Import Mkfs.

Notation len l := (Z.of_nat (length l)).

Section Boot.
Context (V : Z -> list Z) (files : list (list Z * list Z)).
Hypothesis HV : image_ok V files.
Hypothesis Hfull : (len files + 2) mod 32 <> 0.
Notation dnode := (dnode fs_sb V).
Notation live := (live fs_sb V).

(** The inode as [ilock] leaves it is the one on disk. *)
Lemma kinode_disk n : on_disk fs_sb V (kinode V n) = kinode V n.
Proof. done. Qed.
Lemma dnode_file n : file_ok V (kinode V n) -> file_ok V (dnode n).
Proof.
  intros [H1 H2 H3 H4]. split; [done|done|done|]. intros bn H0 Hb. pose proof (cached_baddr fs_sb V _ (kinode_disk n) bn) as E.
  change (i_inum (kinode V n)) with n in E. rewrite <- E. by apply H4.
Qed.
Lemma dnode_dent n k : dent V (dnode n) k = dent V (kinode V n) k.
Proof. symmetry. exact (cached_dent fs_sb V _ (kinode_disk n) k). Qed.
Lemma dnode_dent_inum n k : dent_inum V (dnode n) k = dent_inum V (kinode V n) k.
Proof. unfold dent_inum. by rewrite dnode_dent. Qed.

(** The inodes in use are those of the root and the files. *)
Lemma image_live n : live n <-> 1 <= n < len files + 2 /\ n < NINODES.
Proof using HV.
  split.
  - intros ((H1 & H2) & Ht & _). change (n < NINODES) in H2. split; [|done].
    destruct (decide (n < len files + 2)); [lia|]. exfalso. apply Ht. apply (io_free _ _ HV n). lia.
  - intros [Hn Hi]. split; [change (sb_ninodes fs_sb) with NINODES; lia|]. destruct (decide (n = 1)) as [->|Hne].
    + destruct (io_root _ _ HV) as (Ht & Hl & _).
      change (i_type (dnode 1)) with (i_type (kinode V ROOTINO)). change (i_nlink (dnode 1)) with (i_nlink (kinode V ROOTINO)).
      by rewrite Ht, Hl.
    + destruct (lookup_lt_is_Some_2 files (Z.to_nat (n - 2)) ltac:(lia)) as [f Hf].
      destruct (io_file _ _ HV _ _ Hf) as (Ht & Hl & _). replace (Z.of_nat (Z.to_nat (n - 2)) + 2) with n in * by lia.
      change (i_type (dnode n)) with (i_type (kinode V n)). change (i_nlink (dnode n)) with (i_nlink (kinode V n)).
      by rewrite Ht, Hl.
Qed.
Lemma image_dir n : live n -> is_dir fs_sb V n -> n = ROOTINO.
Proof using HV.
  intros [Hn Hi]%image_live Hd. destruct (decide (n = 1)) as [|Hne]; [done|]. exfalso.
  destruct (lookup_lt_is_Some_2 files (Z.to_nat (n - 2)) ltac:(lia)) as [f Hf].
  destruct (io_file _ _ HV _ _ Hf) as (Ht & _). replace (Z.of_nat (Z.to_nat (n - 2)) + 2) with n in * by lia.
  unfold is_dir in Hd. change (i_type (dnode n)) with (i_type (kinode V n)) in Hd. by rewrite Ht in Hd.
Qed.
Lemma image_entry_at k : has_entry fs_sb V ROOTINO k ->
  dent_inum V (dnode ROOTINO) k = match entries files !! k with Some (n, _) => n | None => 0 end.
Proof using HV.
  intros Hk. rewrite dnode_dent_inum. destruct (entries files !! k) as [[n nm]|] eqn:E; [by apply (io_entry _ _ HV) in E as [-> _]|].
  apply (io_no_entry _ _ HV); [|exact Hk]. apply lookup_ge_None in E. unfold entries in E. cbn [length] in E.
  rewrite length_imap in E. lia.
Qed.
Lemma entries_live k n nm : len files + 2 <= NINODES -> entries files !! k = Some (n, nm) -> live n.
Proof using HV.
  intros Hfit E. apply image_live. destruct k as [|[|k]]; [by injection E as <- <-; unfold ROOTINO; lia..|].
  rewrite entries_file in E. destruct (files !! k) eqn:Ek; [|done]. injection E as <- _. apply lookup_lt_Some in Ek. lia.
Qed.
Lemma image_tree : len files + 2 <= NINODES -> tree_ok fs_sb V.
Proof using All.
  intros Hfit. destruct (io_root _ _ HV) as (_ & _ & Hsz & _ & Hok). split.
  - by apply (entries_live 0 ROOTINO dot).
  - intros n Hl ->%image_dir; [|done]. split; [by apply dnode_file, Hok|].
    change (i_size (dnode ROOTINO)) with (i_size (kinode V ROOTINO)). rewrite Hsz. unfold root_size, BSIZE.
    replace 512 with (32 * 16) by done. rewrite Z.mul_assoc. apply Z.mod_mul. lia.
  - intros n k Hl ->%image_dir; [|done]. intros Hk. rewrite image_entry_at by done.
    destruct (entries files !! k) as [[n nm]|] eqn:E; [|done]. intros _. by eapply entries_live.
Qed.

(** The path of file [k]. *)
Record names_file (k : nat) (nm : list Z) : Prop := {
  nf_path : c_path nm;
  nf_slash : 47 ∉ nm;
  nf_some : nm <> [];
  nf_dots : ~ same_name nm dot /\ ~ same_name nm dotdot;
  nf_file : exists f, files !! k = Some f /\ same_name nm (fst f);
  nf_first : forall j f, (j < k)%nat -> files !! j = Some f -> ~ same_name nm (fst f);
}.
Lemma image_walks k nm : names_file k nm -> walks fs_sb V false ROOTINO (elems (47 :: nm)) (Some (Z.of_nat k + 2)).
Proof using All.
  intros [Hp Hs Hne [Hd Hdd] (f & Hf & Hnm) Hfst].
  assert (elems (47 :: nm) = [nm]) as ->.
  { change (elems (47 :: nm)) with (elems_from [] nm). rewrite <- (app_nil_r nm) at 1.
    apply (elems_from_app nm [] []); [done|set_solver|done]. }
  destruct (io_root _ _ HV) as (Ht & _ & Hsz & _).
  assert (He : entries files !! S (S k) = Some (Z.of_nat k + 2, fst f)) by (by rewrite entries_file, Hf).
  destruct (io_entry _ _ HV _ _ _ He) as [Ei En]. pose proof (lookup_lt_Some _ _ _ Hf) as Hk.
  assert (Hroom : forall j, (j < length files + 2)%nat -> has_entry fs_sb V ROOTINO j).
  { intros j Hj. unfold has_entry. change (i_size (dnode ROOTINO)) with (i_size (kinode V ROOTINO)). rewrite Hsz.
    unfold root_size, BSIZE. pose proof (Z.div_mod (16 * (len files + 2)) 512 ltac:(lia)).
    pose proof (Z.mod_pos_bound (16 * (len files + 2)) 512 ltac:(lia)). lia. }
  assert (Hentry : forall j n nm', entries files !! j = Some (n, nm') -> entry_is V (dnode ROOTINO) nm j -> same_name nm nm').
  { intros j n nm' Ej [_ Hs']. destruct (io_entry _ _ HV _ _ _ Ej) as [_ Ej']. unfold dent_name in Hs'. rewrite dnode_dent in Hs'.
    eapply same_name_trans; [exact Hs'|]. by apply same_name_sym. }
  rewrite <- Ei, <- dnode_dent_inum. apply (walks_entry _ _ _ _ _ _ (S (S k))); [exact Ht|done| |by apply walks_here].
  split; [apply Hroom; lia|]. split.
  - unfold entry_is. rewrite dnode_dent_inum, Ei. unfold dent_name. rewrite dnode_dent. split; [lia|].
    by eapply same_name_trans.
  - intros [|[|j]] Hj Hx; [by apply (Hentry _ ROOTINO dot) in Hx|by apply (Hentry _ ROOTINO dotdot) in Hx|].
    destruct (lookup_lt_is_Some_2 files j ltac:(lia)) as [g Hg].
    apply (Hfst j g ltac:(lia) Hg). apply (Hentry (S (S j)) (Z.of_nat j + 2)); [by rewrite entries_file, Hg|done].
Qed.

(** *** Reading a file by its path *)

Context {L : Layout} {LO : LayoutOk L} {W : World} {D : DiskDriver} {DO : DiskOk D} {Ser : Serial} {SO : SerialOk Ser}.
Context (me : nat) (st sz : Z) (bs : list Z).
Notation itab := (itab me st sz fs_sb bs V).

(** [namei] of the path of a file gives a reference to its inode. *)
Lemma image_namei s k nm : len files + 2 <= NINODES -> itab None s -> two_spare s -> names_file k nm ->
  exists i s1, namei (47 :: nm) s = Ok (Some i) s1 /\ itab None s1 /\ (i < NINODE)%nat /\
    0 < i_ref (ip_of s1 i) /\ i_inum (ip_of s1 i) = Z.of_nat k + 2.
Proof using All.
  intros Hfit H Hsp Hn.
  destruct (namex_spec me st sz fs_sb bs V s (47 :: nm) false (replicate (Z.to_nat DIRSIZ) 0) ROOTINO (image_tree Hfit) H Hsp)
    as (r & nm' & s1 & E & [H1 _ Hc Hw _]).
  { constructor; [lia|apply Hn]. } { done. } { exact (at_u8 (replicate 14 0)). } { done. }
  pose proof (walks_det _ _ _ _ _ _ _ Hw (image_walks k nm Hn)) as Er. destruct r as [i|]; [|done].
  cbn [fmap option_fmap option_map] in Er. injection Er as Er. exists i, s1.
  split; [unfold namei; by rewrite (bind_ok _ _ _ _ _ E)|]. split; [done|].
  assert (Hi : (i < NINODE)%nat).
  { rewrite <- (tb_len _ _ _ _ _ _ _ _ H1). apply lookup_lt_is_Some. unfold ip_of in Er.
    destruct (itable s1 !! i); [by eexists|]. cbn in Er. lia. }
  split; [done|]. split; [|done]. destruct (Hc i Hi) as [-> _]. rewrite one_same. pose proof (tb_ref _ _ _ _ _ _ _ _ H i). lia.
Qed.
Lemma image_read s k nm f dst : len files + 2 <= NINODES -> itab None s -> two_spare s -> names_file k nm -> files !! k = Some f ->
  len (snd f) <= MAXFILE * BSIZE -> 0 <= dst -> dst + len (snd f) < 4294967296 ->
  exists i s1 s2 s3, namei (47 :: nm) s = Ok (Some i) s1 /\ ilock (Some i) s1 = Ok tt s2 /\
    readi i false dst 0 (len (snd f)) s2 = Ok (len (snd f)) s3 /\ load_bytes (mem s3) dst (length (snd f)) = u8 <$> snd f.
Proof using All.
  intros Hfit H Hsp Hn Hf Hlen Hd1 Hd2. destruct (image_namei s k nm Hfit H Hsp Hn) as (i & s1 & E1 & H1 & Hi & Hr1 & En1).
  pose proof (lookup_lt_Some _ _ _ Hf) as Hk.
  destruct (ilock_ok me st sz fs_sb bs V i s1 H1 Hi Hr1) as (s2 & E2 & H2 & _ & R2 & Hv2).
  { rewrite En1. apply image_live. lia. }
  destruct (R2 i Hi) as [Er2 En2]. specialize (En2 Hr1). rewrite En1 in En2. rewrite one_none in Er2.
  assert (Hdisk : on_disk fs_sb V (ip_of s2 i) = ip_of s2 i) by (apply (tb_valid _ _ _ _ _ _ _ _ H2); [lia|done]).
  destruct (io_file _ _ HV _ _ Hf) as (_ & _ & Hsz & _ & Hok & Hbytes).
  assert (Es : i_size (ip_of s2 i) = len (snd f)) by (rewrite (cached_size fs_sb V _ Hdisk), En2; exact Hsz).
  assert (Eb : fbytes V (ip_of s2 i) 0 (length (snd f)) = snd f).
  { rewrite (cached_bytes fs_sb V _ Hdisk), En2. etrans; [symmetry|exact Hbytes].
    exact (cached_bytes fs_sb V _ (kinode_disk (Z.of_nat k + 2)) 0 (length (snd f))). }
  destruct (readi_spec me st sz bs V i dst 0 (len (snd f)) s2 (tb_tx _ _ _ _ _ _ _ _ H2) (tb_room _ _ _ _ _ _ _ _ H2))
    as (s3 & E3 & _ & K3).
  - apply (cached_file fs_sb V _ Hdisk); [apply (tb_dev _ _ _ _ _ _ _ _ H2); lia|]. rewrite En2. by apply dnode_file.
  - done.
  - unfold is_u32, MAXFILE, NDIRECT, NINDIRECT, BSIZE in *. lia.
  - done.
  - done.
  - assert (Erl : read_len (i_size (ip_of s2 i)) 0 (len (snd f)) = len (snd f)).
    { rewrite Es. unfold read_len. rewrite (proj2 (Z.ltb_ge _ _)), (proj2 (Z.leb_gt _ _)) by lia. cbn [orb]. lia. }
    rewrite Erl, Nat2Z.id, Eb in K3. rewrite Erl in E3. exists i, s1, s2, s3. split_and!; [done..|].
    rewrite (tkept_mem _ _ _ K3). cbn [mem set_mem]. apply load_bytes_store_bytes.
Qed.
End Boot.

(** C6: what mkfs was given is read back by its path.  For files that fit, and
    not so many that the root directory fills whole blocks (their number plus
    two is no multiple of 32), mkfs succeeds, and
    a kernel with its image as disk, inside a transaction, finds the file of
    every path "/name" with [namei], locks it and reads exactly its contents. *)
Theorem mkfs_read_back (H : Host) (L : Layout) (LO : LayoutOk L) (W : World) (D : DiskDriver) (DO : DiskOk D)
    (Ser : Serial) (SO : SerialOk Ser) image args files me st sz bs :
  little = true -> create image = true -> Forall2 arg_file args files -> fits files -> (len files + 2) mod 32 <> 0 ->
  exists im, main (image :: args) start_st = Ok tt im /\
  forall s k nm f dst, itab me st sz fs_sb bs (view (img im)) None s -> two_spare s ->
    names_file files k nm -> files !! k = Some f -> 0 <= dst -> dst + len (snd f) < 4294967296 ->
    exists i s1 s2 s3, namei (47 :: nm) s = Ok (Some i) s1 /\ ilock (Some i) s1 = Ok tt s2 /\
      readi i false dst 0 (len (snd f)) s2 = Ok (len (snd f)) s3 /\ load_bytes (mem s3) dst (length (snd f)) = u8 <$> snd f.
Proof.
  intros Hl Hc Ha Hfit Hfull. destruct (mkfs_image H image args files Hl Hc Ha Hfit) as (im & E & HV).
  exists im. split; [done|]. intros s k nm f dst Hs Hsp Hn Hf Hd1 Hd2.
  apply (image_read (view (img im)) files HV Hfull me st sz bs s k nm f dst); try done.
  - apply Hfit.
  - exact (Forall_lookup_1 _ _ _ _ (ft_sizes _ Hfit) Hf).
Qed.

(** *** The image as a disk *)

Definition image_disk (im : list (list Z)) : gmap Z (list Z) := map_seqZ 0 im.
Lemma image_disk_block im b : view im 0 = zeroes -> disk_block (image_disk im) b = view im b.
Proof.
  intros H0. unfold disk_block, image_disk, view. destruct (decide (0 <= b)) as [Hb|Hb]; [by rewrite lookup_map_seqZ_0|].
  assert (map_seqZ (M := gmap Z (list Z)) 0 im !! b = None) as -> by (apply lookup_map_seqZ_None; lia).
  replace (Z.to_nat b) with 0%nat by lia. symmetry. exact H0.
Qed.
Lemma itab_ext me st sz sb bs V V' lk s : (forall b, V b = V' b) -> itab me st sz sb bs V lk s -> itab me st sz sb bs V' lk s.
Proof.
  intros E [[H1 H2 H3 (J & C & H4 & H5 & H6) H7] T2 T3 T4 T5 T6 T7 T8 T9]. split; [|done..| |done|done].
  - split; [done|done|done| |intros b Hb; rewrite <- E; by apply H7].
    exists J, C. split; [done|]. split; [done|]. intros b. rewrite H6. unfold tx_entry. by rewrite E.
  - intros j Hj Hv. rewrite <- (T7 j Hj Hv) at 2. unfold on_disk. by rewrite E.
Qed.

Lemma small_names : names_file [([97; 98], [1; 2; 3])] 0 [97; 98].
Proof.
  assert (Hb : forall l, bytes_ok (u8 <$> l)) by apply at_u8. split.
  - repeat constructor; lia.
  - set_solver.
  - done.
  - split; intros Hs%namecmp_same; try (vm_compute in Hs; discriminate);
      [exact (Hb [97; 98])|exact (Hb [46])|exact (Hb [97; 98])|exact (Hb [46; 46])].
  - by eexists.
  - lia.
Qed.

(** The file "ab" of the image [small_host] gives is read by its path. *)
Lemma mkfs_read_back_witness : exists im s i s1 s2 s3,
  @main small_host [[105]; [117; 115; 101; 114; 47; 95; 97; 98]] start_st = Ok tt im /\
  @begin_op nemu_world (cold (image_disk (img im))) = Ok tt s /\
  @namei test_layout nemu_world (@nemu_disk_driver test_layout nemu_world) (@nemu_serial nemu_world) [47; 97; 98] s = Ok (Some i) s1 /\
  @ilock nemu_world (@nemu_disk_driver test_layout nemu_world) (Some i) s1 = Ok tt s2 /\
  @readi nemu_world (@nemu_disk_driver test_layout nemu_world) (@nemu_serial nemu_world) i false 4096 0 3 s2 = Ok 3 s3 /\
  load_bytes (mem s3) 4096 3 = [1; 2; 3].
Proof.
  set (files := [([97; 98], [1; 2; 3])]).
  assert (Hargs : @Forall2 (list Z) (list Z * list Z) (@arg_file small_host) [[117; 115; 101; 114; 47; 95; 97; 98]] files)
    by (repeat constructor; exists [[1; 2]; [3]]; split; reflexivity).
  assert (Hfit : fits files).
  { split; [vm_compute; discriminate|apply Forall_cons; split; [exact (at_u8 [97; 98])|apply Forall_nil_2]| |vm_compute; discriminate].
    repeat constructor. vm_compute. discriminate. }
  destruct (mkfs_image small_host [105] _ files eq_refl eq_refl Hargs Hfit) as (im' & Em' & HV).
  destruct (mkfs_read_back small_host test_layout test_layout_ok nemu_world (@nemu_disk_driver test_layout nemu_world)
    (nemu_disk_laws _ _ nemu_world_disk) (@nemu_serial nemu_world) (nemu_serial_laws _ nemu_world_uart)
    [105] [[117; 115; 101; 114; 47; 95; 97; 98]] files 0 2 16 []) as (im & Em & Hread).
  { reflexivity. } { reflexivity. } { exact Hargs. } { exact Hfit. } { vm_compute. discriminate. }
  assert (im' = im) as -> by congruence.
  pose proof (fun b => image_disk_block (img im) b (io_boot _ _ HV)) as Ed.
  destruct (cold_begins (image_disk (img im))) as (s & Es & Htab & Hsp).
  { intros b. rewrite Ed. destruct (decide (0 <= b)); [by apply (io_len _ _ HV)|].
    unfold view. replace (Z.to_nat b) with 0%nat by lia. exact (io_len _ _ HV 0 ltac:(lia)). }
  { rewrite Ed. apply (io_log _ _ HV). }
  destruct (Hread s 0%nat [97; 98] ([97; 98], [1; 2; 3]) 4096 (itab_ext _ _ _ _ _ _ _ _ _ Ed Htab) Hsp)
    as (i & s1 & s2 & s3 & E1 & E2 & E3 & E4).
  - exact small_names.
  - reflexivity.
  - lia.
  - cbn. lia.
  - exists im, s, i, s1, s2, s3. exact (conj Em (conj Es (conj E1 (conj E2 (conj E3 E4))))).
Defined.
