(* ===== verification/PipeSpec.v ===== *)
(** * Pipes (kernel/pipe.c): a bounded queue of bytes

    What [pipewrite] and [piperead] do to the bytes in flight and to the
    user's memory when they do not have to wait. *)
From S2P Require Import Prelude Memory Machine Platform Sv32 Spinlock Printf Kalloc Vm Proc Sleeplock Bio Log Fs Console File.
From S2P Require Import ProcSpec SleepSpec VmSpec UserVm UserCopy.
From stdpp Require Import gmap strings countable prelude.

Open Scope Z_scope.

(** ** The bytes in flight *)

Definition pi_nread (m : gmap Z Z) (pi : Z) : Z := load32 m (pi + PI_nread).
Definition pi_nwrite (m : gmap Z Z) (pi : Z) : Z := load32 m (pi + PI_nwrite).
(** The place of the [i]th byte of the stream. *)
Definition pi_cell (pi i : Z) : Z := pi + PI_data + i mod PIPESIZE.

(** The pipe at [pi] holds [q], oldest byte first; the counters wrap. *)
Record pipe_at (pi : Z) (q : list Z) (m : gmap Z Z) : Prop := {
  pp_count : u32 (pi_nwrite m pi - pi_nread m pi) = Z.of_nat (length q);
  pp_len : Z.of_nat (length q) <= PIPESIZE;
  pp_data : forall i x, q !! i = Some x -> load8 m (pi_cell pi (pi_nread m pi + Z.of_nat i)) = x;
}.

Lemma pi_cell_range pi i : pi + 12 <= pi_cell pi i < pi + 524.
Proof. unfold pi_cell, PI_data, PIPESIZE. pose proof (Z.mod_pos_bound i 512). lia. Qed.
Lemma pi_cell_u32 pi i : pi_cell pi (u32 i) = pi_cell pi i.
Proof. unfold pi_cell, u32, PIPESIZE. f_equal. Z.div_mod_to_equations. lia. Qed.
Lemma pi_cell_ne pi i j : 0 < j - i < PIPESIZE -> pi_cell pi i <> pi_cell pi j.
Proof. unfold pi_cell, PIPESIZE. intros H. Z.div_mod_to_equations. lia. Qed.

Lemma pipe_full pi q m : pipe_at pi q m ->
  (pi_nwrite m pi =? u32 (pi_nread m pi + PIPESIZE)) = (Z.of_nat (length q) =? PIPESIZE).
Proof.
  intros [H1 H2 _]. apply eq_true_iff_eq. rewrite !Z.eqb_eq.
  pose proof (load32_range m (pi + PI_nwrite)) as R1. pose proof (load32_range m (pi + PI_nread)) as R2.
  fold (pi_nwrite m pi) in R1. fold (pi_nread m pi) in R2. unfold u32, is_u32, PIPESIZE in *.
  Z.div_mod_to_equations. lia.
Qed.
Lemma pipe_empty pi q m : pipe_at pi q m -> (pi_nread m pi =? pi_nwrite m pi) = (Z.of_nat (length q) =? 0).
Proof.
  intros [H1 H2 _]. apply eq_true_iff_eq. rewrite !Z.eqb_eq.
  pose proof (load32_range m (pi + PI_nwrite)) as R1. pose proof (load32_range m (pi + PI_nread)) as R2.
  fold (pi_nwrite m pi) in R1. fold (pi_nread m pi) in R2. unfold u32, is_u32, PIPESIZE in *.
  Z.div_mod_to_equations. lia.
Qed.

(** One byte in. *)
Definition put_byte (m : gmap Z Z) (pi b : Z) : gmap Z Z :=
  store32 (store8 m (pi_cell pi (pi_nwrite m pi)) b) (pi + PI_nwrite) (u32 (pi_nwrite m pi + 1)).
(** One byte out. *)
Definition drop_byte (m : gmap Z Z) (pi : Z) : gmap Z Z :=
  store32 m (pi + PI_nread) (u32 (pi_nread m pi + 1)).

Lemma put_byte_load8 m pi b a :
  a < pi + PI_nwrite \/ pi + PI_nwrite + 4 <= a -> load8 (put_byte m pi b) a =
    if decide (a = pi_cell pi (pi_nwrite m pi)) then u8 b else load8 m a.
Proof.
  intros H. unfold put_byte. rewrite load8_store32_ne by lia.
  case_decide as E; [subst a; by rewrite load8_store8_eq|by rewrite load8_store8_ne].
Qed.

Lemma load32_put_byte m pi b a : pi + 524 <= a -> a + 4 <= pi + PI_nwrite \/ pi + PI_nwrite + 4 <= a ->
  load32 (put_byte m pi b) a = load32 m a.
Proof.
  intros H1 H2. apply load32_ext. intros c Hc. rewrite put_byte_load8 by lia.
  pose proof (pi_cell_range pi (pi_nwrite m pi)). by rewrite decide_False by lia.
Qed.

Lemma pipe_put pi q m b :
  pipe_at pi q m -> Z.of_nat (length q) < PIPESIZE -> pipe_at pi (q ++ [u8 b]) (put_byte m pi b).
Proof.
  intros [H1 H2 H3] Hn.
  assert (Er : pi_nread (put_byte m pi b) pi = pi_nread m pi).
  { apply load32_put_byte; unfold PI_nwrite, PI_nread, PI_data, PIPESIZE; lia. }
  assert (Ew : pi_nwrite (put_byte m pi b) pi = u32 (pi_nwrite m pi + 1)).
  { unfold put_byte at 1, pi_nwrite at 1. rewrite load32_store32_eq. apply u32_idemp. }
  assert (Hcell : pi_cell pi (pi_nwrite m pi) = pi_cell pi (pi_nread m pi + Z.of_nat (length q))).
  { rewrite <- H1, <- (pi_cell_u32 pi (pi_nread m pi + _)), <- (pi_cell_u32 pi (pi_nwrite m pi)). f_equal.
    unfold u32. Z.div_mod_to_equations. lia. }
  split.
  - rewrite Er, Ew, length_app. cbn [length]. rewrite Nat2Z.inj_add, <- H1. unfold u32, PIPESIZE in *.
    Z.div_mod_to_equations. lia.
  - rewrite length_app. cbn. lia.
  - intros i x Hi. rewrite Er. pose proof (pi_cell_range pi (pi_nread m pi + Z.of_nat i)).
    rewrite put_byte_load8 by (unfold PI_nwrite, PI_nread, PI_data, PIPESIZE; lia). rewrite Hcell.
    apply lookup_app_Some in Hi as [Hi|[Hge Hi]].
    + pose proof (lookup_lt_Some _ _ _ Hi). rewrite decide_False by (apply pi_cell_ne; lia). by apply H3.
    + apply list_lookup_singleton_Some in Hi as [Hi <-]. by rewrite decide_True by (f_equal; lia).
Qed.

Lemma pipe_drop pi x q m :
  pipe_at pi (x :: q) m -> load8 m (pi_cell pi (pi_nread m pi)) = x /\ pipe_at pi q (drop_byte m pi).
Proof.
  intros [H1 H2 H3]. split; [by rewrite <- (H3 0%nat x eq_refl), Z.add_0_r|].
  assert (Er : pi_nread (drop_byte m pi) pi = u32 (pi_nread m pi + 1)).
  { unfold drop_byte at 1, pi_nread at 1. rewrite load32_store32_eq. apply u32_idemp. }
  assert (Ew : pi_nwrite (drop_byte m pi) pi = pi_nwrite m pi).
  { apply load32_store32_ne. unfold PI_nwrite, PI_nread, PI_data, PIPESIZE. lia. }
  cbn [length] in *. split.
  - rewrite Er, Ew. unfold u32, PIPESIZE in *. Z.div_mod_to_equations. lia.
  - lia.
  - intros i y Hi. rewrite Er. pose proof (pi_cell_range pi (u32 (pi_nread m pi + 1) + Z.of_nat i)).
    unfold drop_byte at 1. rewrite load8_store32_ne by (unfold PI_nread, PI_data, PIPESIZE; lia).
    rewrite <- (H3 (S i) y Hi). f_equal. rewrite <- pi_cell_u32, <- (pi_cell_u32 pi (pi_nread m pi + _)). f_equal.
    unfold u32. Z.div_mod_to_equations. lia.
Qed.

Section Pipe.
Context {L : Layout} {LO : LayoutOk L} {W : World}.

(** Process [me] with its address space, and a pipe in a page of its own. *)
Record pipe_user (me : nat) (root : Z) (T F : gset Z) (pas : list Z) (pi : Z) (s : kstate) : Prop := {
  pu_ctx : ctx me s;
  pu_lock : lock_free (LPipe pi) s;
  pu_uvm : uvm T F root pas s;
  pu_only : only_user (mem s) root (Z.of_nat (length pas));
  pu_root : p_pagetable (proc_of s me) = root;
  pu_page : page pi;
  pu_apart : pi ∉ T ∪ F ∪ list_to_set pas;
}.

(** Changes inside the page of the pipe do not show in the address space. *)
Lemma uvm_apart T F root pas pi s m :
  uvm T F root pas s -> page pi -> pi ∉ T ∪ F ∪ list_to_set pas -> agree_off {[pi]} (mem s) m ->
  uvm T F root pas (set_mem m s) /\ (forall va, pte_of m root va = pte_of (mem s) root va) /\
  (forall va, is_u32 va -> vpn va < Z.of_nat (length pas) -> ubyte m root va = ubyte (mem s) root va).
Proof.
  intros Hu Hp Hap Ha.
  destruct (space_fill T F root pi s m) as (Hsp & Hpt); [apply Hu|done|clear -Hap; set_solver..|done|].
  split_and!; [|done|].
  - eapply uvm_ptes; [exact Hu|done|clear; set_solver..|]. intros va _. apply Hpt.
  - intros va Hva Hv. unfold ubyte, upa. rewrite Hpt. pose proof (vpn_nonneg va Hva).
    destruct (lookup_lt_is_Some_2 pas (Z.to_nat (vpn va))) as [p Hpa]; [lia|].
    destruct (uv_mapped _ _ _ _ _ Hu _ _ Hpa) as (_ & _ & E2). pose proof (uv_low _ _ _ _ _ Hu) as Hlow.
    pose proof (list_elem_of_lookup_2 _ _ _ Hpa) as Hin.
    rewrite (pte_of_same_page _ _ ((0 + Z.of_nat (Z.to_nat (vpn va))) * PGSIZE)), E2;
      [|apply page_addr_u32; lia|done|by apply same_page_mul; lia].
    pose proof (Z.mod_pos_bound va PGSIZE). apply (agree_off_load8 {[pi]} (mem s) m p); try done.
    + intros p' Hx. by apply elem_of_singleton in Hx as ->.
    + by apply (fr_page _ _ _ (uv_frames _ _ _ _ _ Hu)).
    + clear -Hap Hin. set_solver.
    + unfold PGSIZE in *. lia.
Qed.

Lemma pipe_frame me root T F pas pi s m :
  pipe_user me root T F pas pi s -> agree_off {[pi]} (mem s) m ->
  user_table T m root /\ (forall va, accessible m root va = accessible (mem s) root va) /\
  (forall va, is_u32 va -> accessible m root va = true -> ubyte m root va = ubyte (mem s) root va).
Proof.
  intros [Hc Hf Hu Ho Hr Hp Hap] Ha. destruct (uvm_apart T F root pas pi s m Hu Hp Hap Ha) as (Hu' & Hpt & Hub).
  pose proof (accessible_ptes _ _ _ Hpt) as Hacc. split_and!; [|done|].
  - apply (uvm_user_table T F root pas (set_mem m s) Hu'). by apply (only_user_ptes (mem s)).
  - intros va Hva E. apply Hub; [done|]. rewrite Hacc in E. by apply Ho.
Qed.

Lemma put_byte_agree pi m0 m b : agree_off {[pi]} m0 m -> agree_off {[pi]} m0 (put_byte m pi b).
Proof.
  intros H. unfold put_byte. eapply agree_off_store32; [by apply elem_of_singleton|..].
  - unfold PI_nwrite, PI_nread, PI_data, PIPESIZE. lia.
  - unfold PI_nwrite, PI_nread, PI_data, PIPESIZE, PGSIZE. lia.
  - intros a Hx. pose proof (pi_cell_range pi (pi_nwrite m pi)). specialize (Hx pi ltac:(set_solver)).
    rewrite load8_store8_ne by (unfold PGSIZE in *; lia). apply H. intros p Hp. by apply elem_of_singleton in Hp as ->.
Qed.
Lemma drop_byte_agree pi m0 m : agree_off {[pi]} m0 m -> agree_off {[pi]} m0 (drop_byte m pi).
Proof.
  intros H. unfold drop_byte. eapply agree_off_store32; [by apply elem_of_singleton|..|done].
  - unfold PI_nread, PI_data, PIPESIZE. lia.
  - unfold PI_nread, PI_data, PIPESIZE, PGSIZE. lia.
Qed.

(** The ends that are open. *)
Definition pi_flags (m : gmap Z Z) (pi : Z) : Z * Z := (load32 m (pi + PI_readopen), load32 m (pi + PI_writeopen)).
Lemma put_byte_flags m pi b : pi_flags (put_byte m pi b) pi = pi_flags m pi.
Proof. unfold pi_flags. rewrite !load32_put_byte by (unfold PI_writeopen, PI_readopen, PI_nwrite, PI_nread, PI_data, PIPESIZE; lia). done. Qed.

(** One byte of the user's. *)
Lemma copyin_byte root T s va :
  user_table T (mem s) root -> is_u32 va ->
  copyin root va 1 s = Ok (if accessible (mem s) root va then (0, [ubyte (mem s) root va]) else (-1, [])) s.
Proof.
  intros Hut Hva. destruct (copyin_spec T root s va 1 Hut Hva) as (r & k & E & Hk & Hr & Hres); [lia|unfold is_u32 in *; lia|].
  rewrite E. destruct Hres as [[-> Hk1]|(-> & Hk1 & Ha)].
  - assert (k = 1%nat) as -> by lia. rewrite (Hr va) by lia. done.
  - assert (k = 0%nat) as -> by lia. rewrite Z.add_0_r in Ha. by rewrite Ha.
Qed.

Lemma pi_get_run {A} pi off (k : Z -> K A) s : (pi_get pi off ≫= k) s = k (load32 (mem s) (pi + off)) s.
Proof. done. Qed.
Lemma pi_set_run {A} pi off v (k : unit -> K A) s :
  (pi_set pi off v ≫= k) s = k tt (set_mem (store32 (mem s) (pi + off) v) s).
Proof. done. Qed.

(** What [pipewrite] leaves in the pipe's page after [k] bytes. *)
Record piped (s : kstate) (pi root addr : Z) (q : list Z) (k : nat) (m : gmap Z Z) : Prop := {
  pd_at : pipe_at pi (q ++ ubytes (mem s) root addr k) m;
  pd_agree : agree_off {[pi]} (mem s) m;
  pd_flags : pi_flags m pi = pi_flags (mem s) pi;
  pd_range : range_ok (mem s) root addr (Z.of_nat k);
}.

Lemma pipewrite_loop_spec me root T F pas pi s addr n q :
  pipe_user me root T F pas pi s -> is_u32 addr -> addr + n <= 2 ^ 32 -> Z.of_nat (length q) + n <= PIPESIZE ->
  load32 (mem s) (pi + PI_readopen) <> 0 -> p_killed (proc_of s me) = 0 ->
  forall j fuel k m, n - Z.of_nat k = Z.of_nat j -> (j <= fuel)%nat -> piped s pi root addr q k m ->
  exists k' m', pipewrite_loop fuel me pi addr n (Z.of_nat k) (acq (LPipe pi) (set_mem m s)) =
      Ok (Some (Z.of_nat k')) (acq (LPipe pi) (set_mem m' s)) /\
    piped s pi root addr q k' m' /\ Z.of_nat k' <= n /\
    (Z.of_nat k' = n \/ accessible (mem s) root (addr + Z.of_nat k') = false).
Proof.
  intros Hu Haddr Hlim Hroom Hro Hk0. pose proof (pu_ctx _ _ _ _ _ _ _ Hu) as Hc.
  induction j as [|j IH]; intros fuel k m Hj Hfuel Hp.
  { exists k, m. split; [|split; [done|split; [lia|left; lia]]].
    destruct fuel; cbn [pipewrite_loop]; by rewrite (proj2 (Z.ltb_ge _ _)) by lia. }
  destruct fuel as [|fuel]; [lia|]. cbn [pipewrite_loop]. rewrite (proj2 (Z.ltb_lt _ _)) by lia.
  destruct (pipe_frame _ _ _ _ _ _ _ m Hu (pd_agree _ _ _ _ _ _ _ Hp)) as (Hut & Hacc & Hub).
  set (a := acq (LPipe pi) (set_mem m s)).
  assert (Hs : settled a) by (apply settled_acq; destruct (ctx_settled _ _ Hc); by split).
  assert (Hlp : lock_free (LProc me) a).
  { apply lock_free_acq_ne; [done|]. exact (ctx_locks _ _ Hc (LProc me) (ctx_me _ _ Hc)). }
  rewrite pi_get_run. change (load32 (mem a) (pi + PI_readopen)) with (pi_flags m pi).1.
  rewrite (pd_flags _ _ _ _ _ _ _ Hp). cbn [pi_flags fst]. rewrite (proj2 (Z.eqb_neq _ _) Hro).
  rewrite bind_assoc. erewrite bind_ok by (by apply killed_ok).
  change (proc_of a me) with (proc_of s me). rewrite Hk0. cbn [Z.eqb negb]. rewrite bind_ret.
  rewrite !pi_get_run. change (load32 (mem a) (pi + PI_nwrite)) with (pi_nwrite m pi).
  change (load32 (mem a) (pi + PI_nread)) with (pi_nread m pi).
  rewrite (pipe_full _ _ _ (pd_at _ _ _ _ _ _ _ Hp)), length_app, length_ubytes.
  rewrite (proj2 (Z.eqb_neq _ _)) by lia.
  rewrite bind_gets. change (p_pagetable (proc_of a me)) with (p_pagetable (proc_of s me)).
  rewrite (pu_root _ _ _ _ _ _ _ Hu), (u32_small (addr + Z.of_nat k)) by (unfold is_u32 in *; lia).
  erewrite bind_ok by (apply (copyin_byte root T); [exact Hut|unfold is_u32 in *; lia]).
  change (mem a) with m. rewrite Hacc. destruct (accessible (mem s) root (addr + Z.of_nat k)) eqn:Ha.
  2:{ cbn [fst Z.eqb]. exists k, m. split; [done|]. split; [done|]. split; [lia|by right]. }
  cbn [fst snd Z.eqb]. rewrite bind_modify, pi_set_run.
  set (b := ubyte m root (addr + Z.of_nat k)).
  destruct (IH fuel (S k) (put_byte m pi b)) as (k' & m' & E & Hp' & Hk' & Hend); [lia|lia| |].
  - destruct Hp as [P1 P2 P3 P4]. split.
    + replace (S k) with (k + 1)%nat by lia. rewrite ubytes_app, app_assoc. cbn [ubytes].
      rewrite <- Hub by (rewrite ?Hacc; unfold is_u32 in *; lia || done).
      rewrite <- (u8_small (ubyte m root (addr + Z.of_nat k))) by apply load8_range.
      apply pipe_put; [done|]. rewrite length_app, length_ubytes. lia.
    + by apply put_byte_agree.
    + by rewrite put_byte_flags.
    + intros va Hva. destruct (decide (va = addr + Z.of_nat k)) as [->|]; [done|]. apply P4. lia.
  - exists k', m'. split; [|done]. rewrite Nat2Z.inj_succ in E. exact E.
Qed.

Lemma piped_0 s pi root addr q : pipe_at pi q (mem s) -> piped s pi root addr q 0 (mem s).
Proof. intros H. split; [by rewrite app_nil_r|apply agree_off_refl|done|intros va Hva; lia]. Qed.

Lemma ctx_set_mem me m s : ctx me (set_mem m s) <-> ctx me s.
Proof. split; intros [[] H2 H3 H4 H5]; by split. Qed.

Lemma pipewrite_spec me root T F pas pi s addr n q :
  pipe_user me root T F pas pi s -> is_u32 addr -> 0 <= n -> addr + n <= 2 ^ 32 ->
  pipe_at pi q (mem s) -> Z.of_nat (length q) + n <= PIPESIZE ->
  load32 (mem s) (pi + PI_readopen) <> 0 -> p_killed (proc_of s me) = 0 ->
  exists k m, pipewrite pi addr n s = Ok (Z.of_nat k) (woken_on me (CPipeR pi) (set_mem m s)) /\
    piped s pi root addr q k m /\ Z.of_nat k <= n /\
    (Z.of_nat k = n \/ accessible (mem s) root (addr + Z.of_nat k) = false).
Proof.
  intros Hu Haddr Hn Hlim Hp Hroom Hro Hk0. pose proof (pu_ctx _ _ _ _ _ _ _ Hu) as Hc.
  destruct (pipewrite_loop_spec me root T F pas pi s addr n q Hu Haddr Hlim Hroom Hro Hk0
    (Z.to_nat n) (Z.to_nat n + patience) 0 (mem s)) as (k & m & E & Hpd & Hk & Hend);
    [lia|lia|by apply piped_0|].
  exists k, m. split; [|done]. unfold pipewrite.
  erewrite bind_ok by by apply curproc_ctx.
  erewrite bind_ok by (apply acquire_ok; [exact (ctx_settled _ _ Hc)|exact (pu_lock _ _ _ _ _ _ _ Hu)]).
  change (acq (LPipe pi) s) with (acq (LPipe pi) (set_mem (mem s) s)).
  rewrite (bind_ok _ _ _ _ _ E). cbn [mbind].
  pose proof (proj2 (ctx_set_mem me m s) Hc) as Hc'.
  rewrite (bind_ok _ _ _ _ _ (wakeup_under me (LPipe pi) (CPipeR pi) (set_mem m s) Hc' ltac:(done))).
  erewrite bind_ok by (apply release_acq; [destruct (ctx_settled _ _ Hc'); by split|exact (pu_lock _ _ _ _ _ _ _ Hu)]). done.
Qed.

(** ** Reading *)

Lemma pipe_at_ext pi q m m' :
  (forall a, pi <= a < pi + PGSIZE -> load8 m' a = load8 m a) -> pipe_at pi q m -> pipe_at pi q m'.
Proof.
  intros H [H1 H2 H3].
  assert (Er : pi_nread m' pi = pi_nread m pi).
  { apply load32_ext. intros a Ha. apply H. unfold PI_nread, PI_data, PIPESIZE, PGSIZE in *. lia. }
  assert (Ew : pi_nwrite m' pi = pi_nwrite m pi).
  { apply load32_ext. intros a Ha. apply H. unfold PI_nwrite, PI_nread, PI_data, PIPESIZE, PGSIZE in *. lia. }
  split; rewrite ?Er, ?Ew; [done|done|]. intros i x Hi. rewrite H; [by apply H3|].
  pose proof (pi_cell_range pi (pi_nread m pi + Z.of_nat i)). unfold PGSIZE. lia.
Qed.
Lemma pi_flags_ext pi m m' :
  (forall a, pi <= a < pi + PGSIZE -> load8 m' a = load8 m a) -> pi_flags m' pi = pi_flags m pi.
Proof.
  intros H. unfold pi_flags. f_equal; apply load32_ext; intros a Ha; apply H;
    unfold PI_writeopen, PI_readopen, PI_nwrite, PI_nread, PI_data, PIPESIZE, PGSIZE in *; lia.
Qed.

(** One byte to the user. *)
Lemma copyout_byte root T s va b :
  user_table T (mem s) root -> is_u32 va ->
  copyout root va [b] 1 s =
    if accessible (mem s) root va then Ok 0 (set_mem (store8 (mem s) (upa (mem s) root va) b) s) else Ok (-1) s.
Proof.
  intros Hut Hva. unfold copyout. change (Z.to_nat (1 / PGSIZE + 2)) with 2%nat. cbn [copyout_loop Z.leb Z.compare].
  destruct (page_start_u32 va Hva) as [Hu0 Hsp0]. destruct (rounddown_eq va Hva) as (E0 & E1 & E2).
  erewrite bind_ok by by eapply walkaddr_ok. rewrite (accessible_same_page _ _ va) by done.
  destruct (accessible (mem s) root va) eqn:Ha; [|done].
  rewrite (pte_of_same_page _ _ va) by done.
  rewrite (proj2 (Z.eqb_neq _ _)) by (by apply (ut_nonzero _ _ _ Hut)). rewrite E1.
  pose proof (in_page_pos va). rewrite Z.min_r by lia. msimp. unfold upd_mem. msimp.
  replace (PTE2PA (pte_of (mem s) root va) + (va - PGROUNDDOWN va)) with (upa (mem s) root va) by (unfold upa; lia).
  done.
Qed.

(** What [piperead] leaves after delivering [k] bytes and taking [c]. *)
Record delivered (s : kstate) (pi root addr : Z) (T F : gset Z) (pas q : list Z) (k c : nat) (m : gmap Z Z) : Prop := {
  dl_at : pipe_at pi (drop c q) m;
  dl_uvm : uvm T F root pas (set_mem m s);
  dl_ptes : forall va, pte_of m root va = pte_of (mem s) root va;
  dl_user : forall va, is_u32 va -> vpn va < Z.of_nat (length pas) -> ubyte m root va =
    if decide (addr <= va < addr + Z.of_nat k) then at_ q (Z.to_nat (va - addr)) else ubyte (mem s) root va;
  dl_flags : pi_flags m pi = pi_flags (mem s) pi;
  dl_range : range_ok (mem s) root addr (Z.of_nat k);
  dl_agree : agree_off ({[pi]} ∪ list_to_set pas) (mem s) m;
}.

Lemma delivered_0 me root T F pas pi s addr q :
  pipe_user me root T F pas pi s -> pipe_at pi q (mem s) -> delivered s pi root addr T F pas q 0 0 (mem s).
Proof.
  intros Hu Hp. split; [done|apply (pu_uvm _ _ _ _ _ _ _ Hu)|done| |done|intros va Hva; lia|apply agree_off_refl].
  intros va _ _. by rewrite decide_False by lia.
Qed.

(** Taking the next byte. *)
Lemma delivered_take me root T F pas pi s addr q k x m :
  pipe_user me root T F pas pi s -> delivered s pi root addr T F pas q k k m -> q !! k = Some x ->
  load8 m (pi_cell pi (pi_nread m pi)) = x /\ delivered s pi root addr T F pas q k (S k) (drop_byte m pi).
Proof.
  intros Hu [D1 D2 D3 D4 D5 D6 D7] Hx. rewrite (drop_S _ _ _ Hx) in D1. apply pipe_drop in D1 as [E D1].
  split; [done|]. pose proof (drop_byte_agree pi m m (agree_off_refl _ m)) as Ha.
  destruct (uvm_apart T F root pas pi (set_mem m s) (drop_byte m pi)) as (Hu' & Hpt & Hub); try done.
  { exact (pu_page _ _ _ _ _ _ _ Hu). } { exact (pu_apart _ _ _ _ _ _ _ Hu). }
  split; [done|done| | | |done|].
  - intros va. rewrite Hpt. apply D3.
  - intros va Hva Hv. rewrite Hub by done. by apply D4.
  - rewrite <- D5. unfold pi_flags, drop_byte.
    rewrite !load32_store32_ne by (unfold PI_writeopen, PI_readopen, PI_nwrite, PI_nread, PI_data, PIPESIZE; lia). done.
  - eapply agree_off_trans; [done|]. eapply agree_off_mono; [|done]. set_solver.
Qed.

(** Handing it to the user. *)
Lemma delivered_give me root T F pas pi s addr q k x m :
  pipe_user me root T F pas pi s -> delivered s pi root addr T F pas q k (S k) m -> q !! k = Some x -> 0 <= x < 256 ->
  is_u32 (addr + Z.of_nat k) -> accessible (mem s) root (addr + Z.of_nat k) = true ->
  delivered s pi root addr T F pas q (S k) (S k) (store8 m (upa m root (addr + Z.of_nat k)) x).
Proof.
  intros Hu [D1 D2 D3 D4 D5 D6 D7] Hx Hb Hva Ha. pose proof (pu_only _ _ _ _ _ _ _ Hu _ Hva Ha) as Hv.
  destruct (uvm_store T F root pas (addr + Z.of_nat k) [x] (set_mem m s) D2 Hva Hv) as (U1 & U2 & U3 & U4).
  { cbn. pose proof (in_page_pos (addr + Z.of_nat k)). lia. }
  cbn [store_bytes] in *. set (m' := store8 m (upa m root (addr + Z.of_nat k)) x) in *.
  change (upa (mem (set_mem m s)) root (addr + Z.of_nat k)) with (upa m root (addr + Z.of_nat k)) in *. fold m' in U1, U2, U3, U4.
  assert (Hpi : forall a, pi <= a < pi + PGSIZE -> load8 m' a = load8 m a).
  { destruct U2 as [Hag _]. intros a Hin. apply (agree_off_load8 _ m m' pi a Hag); [|exact (pu_page _ _ _ _ _ _ _ Hu)| |done].
    - intros p Hp%elem_of_list_to_set. by apply (fr_page _ _ _ (uv_frames _ _ _ _ _ D2)).
    - pose proof (pu_apart _ _ _ _ _ _ _ Hu) as Hap. clear -Hap. set_solver. }
  split.
  - by apply (pipe_at_ext pi _ m).
  - exact U1.
  - intros va. etrans; [exact (U3 va)|]. apply D3.
  - intros va Hva' Hv'. etrans; [exact (U4 va Hva' Hv')|]. cbn [length].
    change (ubyte (mem (set_mem m s)) root va) with (ubyte m root va). rewrite D4 by done.
    repeat case_decide; try lia; try done.
    replace va with (addr + Z.of_nat k) by lia. rewrite Z.sub_diag.
    replace (Z.to_nat (addr + Z.of_nat k - addr)) with k by lia. rewrite (at_lookup _ _ _ Hx). cbn. by apply u8_small.
  - by rewrite (pi_flags_ext pi m).
  - intros va Hr. destruct (decide (va = addr + Z.of_nat k)) as [->|]; [done|]. apply D6. lia.
  - destruct U2 as [Hag _]. eapply agree_off_trans; [done|]. eapply agree_off_mono; [|exact Hag]. set_solver.
Qed.

Lemma pipe_bytes pi q m : pipe_at pi q m -> forall i x, q !! i = Some x -> 0 <= x < 256.
Proof. intros [_ _ H] i x Hi. rewrite <- (H i x Hi). apply load8_range. Qed.

(** The copying loop: [k] bytes delivered so far.  A fault in the user's range
    costs the byte that was to go there. *)
Lemma piperead_loop_spec me root T F pas pi s addr n q :
  pipe_user me root T F pas pi s -> pipe_at pi q (mem s) -> is_u32 addr -> addr + n <= 2 ^ 32 ->
  forall j k m, n - Z.of_nat k = Z.of_nat j -> (k <= length q)%nat -> delivered s pi root addr T F pas q k k m ->
  exists k' c m', piperead_loop j me pi addr (Z.of_nat k) (acq (LPipe pi) (set_mem m s)) =
      Ok (Z.of_nat k') (acq (LPipe pi) (set_mem m' s)) /\
    delivered s pi root addr T F pas q k' c m' /\
    ((c = k' /\ k' = Nat.min (Z.to_nat n) (length q)) \/
     (c = S k' /\ (k' < Nat.min (Z.to_nat n) (length q))%nat /\ accessible (mem s) root (addr + Z.of_nat k') = false)).
Proof.
  intros Hu Hq Haddr Hlim. induction j as [|j IH]; intros k m Hj Hk Hd; cbn [piperead_loop].
  { exists k, k, m. split; [done|]. split; [done|left; lia]. }
  set (a := acq (LPipe pi) (set_mem m s)). rewrite !pi_get_run.
  change (load32 (mem a) (pi + PI_nwrite)) with (pi_nwrite m pi).
  change (load32 (mem a) (pi + PI_nread)) with (pi_nread m pi).
  rewrite (pipe_empty _ _ _ (dl_at _ _ _ _ _ _ _ _ _ _ _ Hd)), length_drop.
  destruct (decide (k = length q)) as [->|Hne].
  { rewrite Nat.sub_diag. cbn [Z.of_nat Z.eqb]. exists (length q), (length q), m. split; [done|]. split; [done|left; lia]. }
  rewrite (proj2 (Z.eqb_neq _ _)) by lia.
  destruct (lookup_lt_is_Some_2 q k) as [x Hx]; [lia|]. pose proof (pipe_bytes _ _ _ Hq _ _ Hx) as Hbx.
  destruct (delivered_take _ _ _ _ _ _ _ _ _ _ _ _ Hu Hd Hx) as [Ex Hd1].
  rewrite bind_gets. change (load8 (mem a) _) with (load8 m (pi_cell pi (pi_nread m pi))). rewrite Ex.
  rewrite pi_set_run. change (set_mem (store32 (mem a) (pi + PI_nread) (u32 (pi_nread m pi + 1))) a)
    with (acq (LPipe pi) (set_mem (drop_byte m pi) s)).
  set (a1 := acq (LPipe pi) (set_mem (drop_byte m pi) s)). rewrite bind_gets.
  change (p_pagetable (proc_of a1 me)) with (p_pagetable (proc_of s me)). rewrite (pu_root _ _ _ _ _ _ _ Hu).
  assert (Hva : is_u32 (addr + Z.of_nat k)) by (unfold is_u32 in *; lia).
  rewrite (u32_small _ Hva). pose proof (dl_ptes _ _ _ _ _ _ _ _ _ _ _ Hd1) as Hpt.
  assert (Hut : user_table T (mem a1) root).
  { apply (uvm_user_table T F root pas (set_mem (drop_byte m pi) s)); [exact (dl_uvm _ _ _ _ _ _ _ _ _ _ _ Hd1)|].
    apply (only_user_ptes (mem s)); [done|exact (pu_only _ _ _ _ _ _ _ Hu)]. }
  pose proof (copyout_byte root T a1 (addr + Z.of_nat k) x Hut Hva) as Eo.
  rewrite (accessible_ptes (mem s) (mem a1) root Hpt) in Eo.
  destruct (accessible (mem s) root (addr + Z.of_nat k)) eqn:Ha.
  - rewrite (bind_ok _ _ _ _ _ Eo). cbn [Z.eqb].
    pose proof (delivered_give _ _ _ _ _ _ _ _ _ _ _ _ Hu Hd1 Hx Hbx Hva Ha) as Hd2.
    destruct (IH (S k) _ ltac:(lia) ltac:(lia) Hd2) as (k' & c & m' & E & Hd' & Hend).
    exists k', c, m'. split; [|done]. rewrite Nat2Z.inj_succ in E. exact E.
  - rewrite (bind_ok _ _ _ _ _ Eo). cbn [Z.eqb]. exists k, (S k), (drop_byte m pi).
    split; [done|]. split; [done|right; split; [done|split; [lia|done]]].
Qed.

Lemma piperead_spec me root T F pas pi s addr n q :
  pipe_user me root T F pas pi s -> is_u32 addr -> 0 <= n -> addr + n <= 2 ^ 32 ->
  pipe_at pi q (mem s) -> q <> [] \/ load32 (mem s) (pi + PI_writeopen) = 0 ->
  exists k c m, piperead pi addr n s = Ok (Z.of_nat k) (woken_on me (CPipeW pi) (set_mem m s)) /\
    delivered s pi root addr T F pas q k c m /\
    ((c = k /\ k = Nat.min (Z.to_nat n) (length q)) \/
     (c = S k /\ (k < Nat.min (Z.to_nat n) (length q))%nat /\ accessible (mem s) root (addr + Z.of_nat k) = false)).
Proof.
  intros Hu Haddr Hn Hlim Hp Hready. pose proof (pu_ctx _ _ _ _ _ _ _ Hu) as Hc.
  destruct (piperead_loop_spec me root T F pas pi s addr n q Hu Hp Haddr Hlim (Z.to_nat n) 0 (mem s))
    as (k & c & m & E & Hd & Hend); [lia|lia|by eapply delivered_0|].
  exists k, c, m. split; [|done]. unfold piperead.
  erewrite bind_ok by by apply curproc_ctx.
  erewrite bind_ok by (apply acquire_ok; [exact (ctx_settled _ _ Hc)|exact (pu_lock _ _ _ _ _ _ _ Hu)]).
  assert (Ew : piperead_wait patience me pi (acq (LPipe pi) s) = Ok true (acq (LPipe pi) s)).
  { assert (Eb : (pi_nread (mem s) pi =? pi_nwrite (mem s) pi) && negb (load32 (mem s) (pi + PI_writeopen) =? 0) = false).
    { rewrite (pipe_empty _ _ _ Hp). destruct Hready as [Hq|Hw]; [|by rewrite Hw, andb_false_r].
      destruct q; [done|]. by rewrite (proj2 (Z.eqb_neq _ _)) by (cbn; lia). }
    destruct patience; cbn [piperead_wait]; rewrite !pi_get_run;
      change (mem (acq (LPipe pi) s)) with (mem s); fold (pi_nread (mem s) pi) (pi_nwrite (mem s) pi); by rewrite Eb. }
  rewrite (bind_ok _ _ _ _ _ Ew). cbn [negb].
  change (acq (LPipe pi) s) with (acq (LPipe pi) (set_mem (mem s) s)).
  change 0 with (Z.of_nat 0). rewrite (bind_ok _ _ _ _ _ E).
  pose proof (proj2 (ctx_set_mem me m s) Hc) as Hc'.
  rewrite (bind_ok _ _ _ _ _ (wakeup_under me (LPipe pi) (CPipeW pi) (set_mem m s) Hc' ltac:(done))).
  erewrite bind_ok by (apply release_acq; [destruct (ctx_settled _ _ Hc'); by split|exact (pu_lock _ _ _ _ _ _ _ Hu)]).
  done.
Qed.
End Pipe.

(** C30: [pipewrite] appends to the pipe.  While there is room and the reader is
    there, the bytes of the user's buffer are added in order behind those in
    flight, up to the first one the user cannot read, their number is returned,
    the sleeping readers are made runnable and nothing else changes; with no
    reader, or killed, the writer gets -1 and nothing happens. *)
Theorem pipewrite_appends (L : Layout) (LO : LayoutOk L) (W : World) me root T F pas pi s addr n q :
  pipe_user me root T F pas pi s -> is_u32 addr -> 0 <= n -> addr + n <= 2 ^ 32 ->
  pipe_at pi q (mem s) ->
  (load32 (mem s) (pi + PI_readopen) <> 0 -> p_killed (proc_of s me) = 0 -> Z.of_nat (length q) + n <= PIPESIZE ->
   exists k m, pipewrite pi addr n s = Ok (Z.of_nat k) (woken_on me (CPipeR pi) (set_mem m s)) /\
     pipe_at pi (q ++ ubytes (mem s) root addr k) m /\ agree_off {[pi]} (mem s) m /\
     pi_flags m pi = pi_flags (mem s) pi /\ range_ok (mem s) root addr (Z.of_nat k) /\ Z.of_nat k <= n /\
     (Z.of_nat k = n \/ accessible (mem s) root (addr + Z.of_nat k) = false)) /\
  (0 < n -> load32 (mem s) (pi + PI_readopen) = 0 \/ p_killed (proc_of s me) <> 0 ->
   pipewrite pi addr n s = Ok (-1) s).
Proof.
  intros Hu Haddr Hn Hlim Hp. split.
  - intros Hro Hk0 Hroom.
    destruct (pipewrite_spec me root T F pas pi s addr n q) as (k & m & E & [P1 P2 P3 P4] & Hk & Hend); try done.
    exists k, m. by split_and!.
  - intros Hpos Hbad. pose proof (pu_ctx _ _ _ _ _ _ _ Hu) as Hc. pose proof (pu_lock _ _ _ _ _ _ _ Hu) as Hf.
    pose proof (ctx_settled _ _ Hc) as Hs.
    unfold pipewrite. erewrite bind_ok by by apply curproc_ctx. erewrite bind_ok by by apply acquire_ok.
    destruct (Z.to_nat n + patience)%nat as [|fuel] eqn:E; [lia|]. cbn [pipewrite_loop].
    rewrite (proj2 (Z.ltb_lt _ _)) by lia. rewrite bind_assoc, pi_get_run.
    change (mem (acq (LPipe pi) s)) with (mem s). rewrite bind_assoc.
    assert (El : lock_free (LProc me) (acq (LPipe pi) s)).
    { apply lock_free_acq_ne; [done|]. exact (ctx_locks _ _ Hc (LProc me) (ctx_me _ _ Hc)). }
    assert (Estop : (if load32 (mem s) (pi + PI_readopen) =? 0 then mret true
      else k ← killed me; mret (negb (k =? 0))) (acq (LPipe pi) s) = Ok true (acq (LPipe pi) s)).
    { destruct (Z.eqb_spec (load32 (mem s) (pi + PI_readopen)) 0) as [|Hr]; [done|].
      erewrite bind_ok by (apply killed_ok; [by apply settled_acq|done]).
      destruct Hbad as [?|Hk]; [done|]. change (proc_of (acq (LPipe pi) s) me) with (proc_of s me).
      by rewrite (proj2 (Z.eqb_neq _ _) Hk). }
    rewrite (bind_ok _ _ _ _ _ Estop), bind_assoc. by erewrite bind_ok by by apply release_acq.
Qed.

(** C31: [piperead] delivers the oldest bytes.  When there are bytes, or no
    writer, it copies the oldest ones into the user's buffer in order, as many
    as asked for and present, and returns their number (0 at the end of the
    stream); they are gone from the pipe, the rest stays, sleeping writers are
    made runnable, and of the user's memory only the buffer changes.  If the
    user cannot be written at some byte it stops there, and that byte is lost. *)
Theorem piperead_delivers (L : Layout) (LO : LayoutOk L) (W : World) me root T F pas pi s addr n q :
  pipe_user me root T F pas pi s -> is_u32 addr -> 0 <= n -> addr + n <= 2 ^ 32 ->
  pipe_at pi q (mem s) -> q <> [] \/ load32 (mem s) (pi + PI_writeopen) = 0 ->
  exists k c m, piperead pi addr n s = Ok (Z.of_nat k) (woken_on me (CPipeW pi) (set_mem m s)) /\
    pipe_at pi (drop c q) m /\ pi_flags m pi = pi_flags (mem s) pi /\
    uvm T F root pas (set_mem m s) /\ (forall va, pte_of m root va = pte_of (mem s) root va) /\
    (forall va, is_u32 va -> vpn va < Z.of_nat (length pas) -> ubyte m root va =
      if decide (addr <= va < addr + Z.of_nat k) then at_ q (Z.to_nat (va - addr)) else ubyte (mem s) root va) /\
    agree_off ({[pi]} ∪ list_to_set pas) (mem s) m /\
    ((c = k /\ k = Nat.min (Z.to_nat n) (length q)) \/
     (c = S k /\ (k < Nat.min (Z.to_nat n) (length q))%nat /\ accessible (mem s) root (addr + Z.of_nat k) = false)).
Proof.
  intros Hu Haddr Hn Hlim Hp Hready.
  destruct (piperead_spec me root T F pas pi s addr n q) as (k & c & m & E & [D1 D2 D3 D4 D5 D6 D7] & Hend); try done.
  exists k, c, m. by split_and!.
Qed.

(** ** A machine with a pipe *)

#[local] Existing Instance test_layout.
#[local] Existing Instance test_layout_ok.

(** What [uvm] depends on. *)
Definition pipe_page : Z := PHYSTOP - 5 * PGSIZE.
(** Two bytes in flight, across the wrap of the buffer and of the counters. *)
Definition pipe_mem (m : gmap Z Z) : gmap Z Z :=
  put_byte (put_byte
    (store32 (store32 (store32 (store32 m (pipe_page + PI_readopen) 1) (pipe_page + PI_writeopen) 1)
      (pipe_page + PI_nread) 4294967295) (pipe_page + PI_nwrite) 4294967295) pipe_page 65) pipe_page 66.
Definition pipe_machine : kstate :=
  let s := final (kalloc test_grown) in
  set_locks (<[LPipe pipe_page := unlocked]> boot_locks)
    (set_kcpu (set_c_proc (Some 0%nat) (kcpu s))
    (upd_proc 0 (fun p => set_p_pagetable test_root (set_p_state RUNNING p)) (set_mem (pipe_mem (mem s)) s))).

Lemma pipe_space : exists T F pas,
  uvm T F test_root pas (final (kalloc test_grown)) /\ length pas = 2%nat /\ page pipe_page /\
  pipe_page ∉ T ∪ F ∪ list_to_set pas /\ only_user (mem (final (kalloc test_grown))) test_root 2.
Proof.
  assert (R : result (kalloc test_grown) = Some pipe_page) by (vm_compute; reflexivity).
  destruct test_grown_uvm as (T & F & pas & Hu & Hlen & Hz).
  destruct (space_kalloc T F test_root test_grown (uv_space _ _ _ _ _ Hu))
    as [(_ & E)|(p & s1 & E & Hin & Hpp & HT & Hsp & Hv & Hpt)].
  { exfalso. rewrite E in R. discriminate R. }
  destruct (run_ok _ _ _ E) as [Ef Er]. rewrite R in Er. injection Er as <-. rewrite Ef. clear E Ef R.
  exists T, (F ∖ {[pipe_page]}), pas. split; [|split; [exact Hlen|split; [exact Hpp|split]]].
  - eapply uvm_ptes; [exact Hu|exact Hsp|clear; set_solver..|]. intros va _. apply Hpt.
  - pose proof (fr_page _ _ _ (uv_frames _ _ _ _ _ Hu)) as Hfr. intros Hx. rewrite !elem_of_union in Hx.
    destruct Hx as [[Hx|Hx]|Hx]; [exact (HT Hx)|clear -Hx; set_solver|].
    apply elem_of_list_to_set in Hx. destruct (Hfr _ Hx) as (_ & _ & Hn). exact (Hn Hin).
  - apply (only_user_ptes (mem test_grown)); [exact Hpt|]. by apply only_user_zero.
Qed.

Lemma pipe_mem_agree m : agree_off {[pipe_page]} m (pipe_mem m).
Proof.
  unfold pipe_mem. do 2 apply put_byte_agree.
  repeat (eapply agree_off_store32; [by apply elem_of_singleton|vm_compute; discriminate|vm_compute; discriminate|]).
  apply agree_off_refl.
Qed.

Lemma pipe_machine_user : exists T F pas,
  pipe_user 0 test_root T F pas pipe_page pipe_machine /\ length pas = 2%nat.
Proof.
  destruct pipe_space as (T & F & pas & Hu & Hlen & Hpp & Hap & Ho).
  assert (Em : mem pipe_machine = pipe_mem (mem (final (kalloc test_grown)))) by reflexivity.
  assert (El : locks pipe_machine = <[LPipe pipe_page := unlocked]> boot_locks) by reflexivity.
  destruct (uvm_apart T F test_root pas pipe_page _ _ Hu Hpp Hap (pipe_mem_agree _)) as (Hu2 & Hpt2 & _).
  exists T, F, pas. split; [|exact Hlen]. split.
  - split; [split; vm_compute; congruence| |reflexivity|vm_compute; reflexivity|unfold NPROC; lia].
    intros lk Hlk. unfold lock_free. rewrite El.
    destruct (decide (lk = LPipe pipe_page)) as [->|Hne]; [apply lookup_insert_eq|].
    rewrite lookup_insert_ne by (intros <-; exact (Hne eq_refl)). exact (boot_locks_free lk two_procs eq_refl Hlk).
  - unfold lock_free. rewrite El. apply lookup_insert_eq.
  - eapply uvm_same; [exact Hu2|exact Em|reflexivity| |].
    + split; vm_compute; congruence.
    + unfold lock_free. rewrite El. rewrite lookup_insert_ne by discriminate.
      exact (boot_locks_free LKmem two_procs eq_refl I).
  - rewrite Em, Hlen. exact (only_user_ptes _ _ _ _ Hpt2 Ho).
  - vm_compute. reflexivity.
  - exact Hpp.
  - exact Hap.
Qed.

Lemma pipe_machine_at : pipe_at pipe_page [65; 66] (mem pipe_machine).
Proof.
  change [65; 66] with (([] ++ [u8 65]) ++ [u8 66]). apply pipe_put; [apply pipe_put|].
  - split; [vm_compute; reflexivity|vm_compute; discriminate|]. intros i x Hi. rewrite lookup_nil in Hi. discriminate Hi.
  - vm_compute. reflexivity.
  - vm_compute. reflexivity.
Qed.

Lemma pipewrite_appends_witness :
  exists k m, @pipewrite lone_world pipe_page 4090 10 pipe_machine =
    Ok (Z.of_nat k) (woken_on 0 (CPipeR pipe_page) (set_mem m pipe_machine)) /\
  pipe_at pipe_page ([65; 66] ++ ubytes (mem pipe_machine) test_root 4090 k) m.
Proof.
  destruct pipe_machine_user as (T & F & pas & Hu & Hlen).
  destruct (pipewrite_appends test_layout test_layout_ok lone_world 0 test_root T F pas pipe_page pipe_machine
    4090 10 [65; 66]) as [H _].
  - exact Hu.
  - unfold is_u32. lia.
  - lia.
  - lia.
  - exact pipe_machine_at.
  - destruct H as (k & m & E & Hp & _).
    + vm_compute. discriminate.
    + vm_compute. reflexivity.
    + vm_compute. discriminate.
    + exists k, m. split; [exact E|exact Hp].
Defined.

Lemma piperead_delivers_witness :
  exists k c m, @piperead lone_world pipe_page 100 2 pipe_machine =
    Ok (Z.of_nat k) (woken_on 0 (CPipeW pipe_page) (set_mem m pipe_machine)) /\
  pipe_at pipe_page (drop c [65; 66]) m.
Proof.
  destruct pipe_machine_user as (T & F & pas & Hu & Hlen).
  destruct (piperead_delivers test_layout test_layout_ok lone_world 0 test_root T F pas pipe_page pipe_machine
    100 2 [65; 66]) as (k & c & m & E & Hp & _).
  - exact Hu.
  - unfold is_u32. lia.
  - lia.
  - lia.
  - exact pipe_machine_at.
  - left. discriminate.
  - exists k, c, m. split; [exact E|exact Hp].
Defined.
