(* ===== verification/ConsoleRead.v ===== *)
(** * Reading from the console (kernel/console.c)

    [consoleread] hands the reader at most one line: up to the newline, the
    end-of-file mark or the number of bytes asked for, from the text that
    ConsoleSpec.v says is there. *)
From S2P Require Import Prelude Memory Machine Platform Sv32 Spinlock Printf Kalloc Vm Proc Sleeplock Bio Log Fs Console File.
From S2P Require Import ProcSpec SleepSpec VmSpec UserVm UserCopy PipeSpec Typed TypedFs TypedSys NemuSpec ConsoleSpec.
From stdpp Require Import gmap strings countable prelude.

Open Scope Z_scope.

(** What a read of [n] bytes takes from the text: the bytes delivered and the
    text that stays; [None] when it has to wait for more.  An end-of-file mark
    is taken by the read it comes first in, and left for the next otherwise. *)
Fixpoint take_line (first : bool) (n : nat) (q : list Z) : option (list Z * list Z) :=
  match n, q with
  | O, _ => Some ([], q)
  | S _, [] => None
  | S n', c :: q' =>
    if c =? CTRL_D then Some ([], if first then q' else q)
    else if c =? 10 then Some ([c], q')
    else match take_line false n' q' with
         | Some (d, r) => Some (c :: d, r)
         | None => None
         end
  end.

Lemma take_line_length b n q d r : take_line b n q = Some (d, r) -> (length d <= n)%nat.
Proof.
  revert b q d r. induction n as [|n IH]; intros b q d r; [intros [= <- _]; cbn; lia|].
  destruct q as [|x q]; [done|]. cbn [take_line].
  destruct (x =? CTRL_D); [intros [= <- _]; cbn; lia|]. destruct (x =? 10); [intros [= <- _]; cbn; lia|].
  destruct (take_line false n q) as [[d' r']|] eqn:E; [|done]. intros [= <- _]. apply IH in E. cbn. lia.
Qed.

(** The next character is taken out of the buffer. *)
Lemma holds_take x q l c : holds (x :: q) l c ->
  cons_r c <> cons_w c /\ cons_at c (cons_r c) = x /\ holds q l (set_cons_r (u32 (cons_r c + 1)) c).
Proof.
  intros Hh. pose proof (holds_room _ _ _ Hh) as Hroom. destruct Hh as [Ht H1 H2 H3].
  assert (cons_r c <> cons_w c) as Hne by (intros E; rewrite E, Z.sub_diag in H1; discriminate H1).
  split; [done|]. split; [by rewrite <- (H3 0%nat x eq_refl), Z.add_0_r|].
  cbn [length] in *. split; ksimp.
  - by apply cons_take.
  - destruct Ht as [_ Hr Hw He _]. unfold is_u32, u32, INPUT_BUF_SIZE in *. Z.div_mod_to_equations. lia.
  - destruct Ht as [_ Hr Hw He _]. unfold is_u32, u32, INPUT_BUF_SIZE in *. Z.div_mod_to_equations. lia.
  - intros i y Hi. rewrite <- (H3 (S i) y Hi).
    change (cons_at (set_cons_r (u32 (cons_r c + 1)) c)) with (cons_at c).
    rewrite <- cons_at_u32, u32_add_l, cons_at_u32. f_equal. lia.
Qed.

Section Read.
Context {L : Layout} {LO : LayoutOk L} {W : World}.

(** Process [me] with its address space. *)
Record reader (me : nat) (root : Z) (T F : gset Z) (pas : list Z) (s : kstate) : Prop := {
  rd_ctx : ctx me s;
  rd_uvm : uvm T F root pas s;
  rd_only : only_user (mem s) root (Z.of_nat (length pas));
  rd_root : p_pagetable (proc_of s me) = root;
}.

Lemma give_byte me root T F pas s va x :
  reader me root T F pas s -> is_u32 va -> accessible (mem s) root va = true -> 0 <= x < 256 ->
  let m := store8 (mem s) (upa (mem s) root va) x in
  reader me root T F pas (set_mem m s) /\
  (forall va', pte_of m root va' = pte_of (mem s) root va') /\
  agree_off (list_to_set pas) (mem s) m /\
  forall va', is_u32 va' -> vpn va' < Z.of_nat (length pas) ->
    ubyte m root va' = if decide (va' = va) then x else ubyte (mem s) root va'.
Proof.
  intros Hr Hva Ha Hx m. pose proof (rd_only _ _ _ _ _ _ Hr _ Hva Ha) as Hv.
  destruct (uvm_store T F root pas va [x] s (rd_uvm _ _ _ _ _ _ Hr) Hva Hv) as (U1 & U2 & U3 & U4).
  { cbn. pose proof (in_page_pos va). lia. }
  cbn [store_bytes length] in *. fold m in U1, U2, U3, U4. split_and!.
  - split; [by apply ctx_set_mem, Hr|exact U1| |exact (rd_root _ _ _ _ _ _ Hr)].
    apply (only_user_ptes (mem s)); [exact U3|exact (rd_only _ _ _ _ _ _ Hr)].
  - exact U3.
  - apply U2.
  - intros va' Hva' Hv'. etrans; [exact (U4 va' Hva' Hv')|]. repeat case_decide; try lia; try done. subst va'.
    rewrite Z.sub_diag. cbn. by apply u8_small.
Qed.

(** What the reader finds after [d] was delivered at [dst]. *)
Record read_to (me : nat) (root : Z) (T F : gset Z) (pas : list Z) (dst : Z) (d : list Z)
    (s s' : kstate) : Prop := {
  rt_reader : reader me root T F pas s';
  rt_ptes : forall va, pte_of (mem s') root va = pte_of (mem s) root va;
  rt_user : forall va, is_u32 va -> vpn va < Z.of_nat (length pas) -> ubyte (mem s') root va =
    if decide (dst <= va < dst + Z.of_nat (length d)) then at_ d (Z.to_nat (va - dst)) else ubyte (mem s) root va;
  rt_frame : agree_off (list_to_set pas) (mem s) (mem s');
  rt_rest : s' = set_mem (mem s') (set_kcons (kcons s') s);
}.

Lemma read_to_nil me root T F pas dst k s :
  reader me root T F pas s -> read_to me root T F pas dst [] s (set_kcons k s).
Proof.
  intros [[[] ? ? ? ?] Hu Ho Hr]. split; [|done| |apply agree_off_refl|done].
  - split; [by split; [split|..]| |done|done].
    apply (uvm_same T F root pas s); [done..|by split|by apply (ctx_locks LKmem)].
  - intros va _ _. by rewrite decide_False by (cbn; lia).
Qed.
Lemma read_to_trans me root T F pas dst x d s1 s2 s3 : is_u32 dst ->
  read_to me root T F pas dst [x] s1 s2 -> read_to me root T F pas (dst + 1) d s2 s3 ->
  read_to me root T F pas dst (x :: d) s1 s3.
Proof.
  intros Hd [A1 A2 A3 A4 A5] [B1 B2 B3 B4 B5]. split; [done| | |by eapply agree_off_trans|].
  - intros va. by rewrite B2.
  - intros va Hva Hv. rewrite B3, A3 by done. cbn [length]. repeat case_decide; try lia; try done.
    + replace (Z.to_nat (va - dst)) with (S (Z.to_nat (va - (dst + 1)))) by lia. done.
    + by replace va with dst by lia; rewrite Z.sub_diag.
  - rewrite B5 at 1. by rewrite A5 at 1.
Qed.

Lemma read_to_byte me root T F pas dst x k s :
  reader me root T F pas s -> is_u32 dst -> accessible (mem s) root dst = true -> 0 <= x < 256 ->
  read_to me root T F pas dst [x] s (set_mem (store8 (mem s) (upa (mem s) root dst) x) (set_kcons k s)).
Proof.
  intros Hr Hd Ha Hx.
  destruct (read_to_nil me root T F pas dst k s Hr) as [Hr' _ _ _ _].
  destruct (give_byte me root T F pas (set_kcons k s) dst x Hr' Hd Ha Hx) as (G1 & G2 & G3 & G4).
  split; try done. intros va Hva Hv. etrans; [exact (G4 va Hva Hv)|]. cbn [length].
  repeat case_decide; try lia; try done. subst. by rewrite Z.sub_diag.
Qed.

(** [consoleread_loop] with the lock held, when it does not have to wait. *)
Lemma consoleread_loop_spec me root T F pas l target : forall n q d r dst s,
  reader me root T F pas s -> holds q l (kcons s) -> Forall (fun x => 0 <= x < 256) q ->
  take_line (negb (Z.of_nat n <? target)) n q = Some (d, r) -> Z.of_nat n <= target ->
  is_u32 dst -> dst + Z.of_nat n <= 2 ^ 32 -> range_ok (mem s) root dst (Z.of_nat n) ->
  exists s', consoleread_loop n true dst target (acq LCons s) =
      Ok (Some (Z.of_nat n - Z.of_nat (length d))) (acq LCons s') /\
    read_to me root T F pas dst d s s' /\ holds r l (kcons s').
Proof.
  induction n as [|n IH]; intros q d r dst s Hr Hh Hq Ht Hn Hd Hlim Hok; cbn [consoleread_loop].
  { injection Ht as <- <-. exists s. split; [done|]. split; [|done].
    pose proof (read_to_nil me root T F pas dst (kcons s) s Hr) as H. by destruct s. }
  destruct q as [|x q]; [discriminate Ht|]. destruct (holds_take _ _ _ _ Hh) as (Hne & Hx & Hh1).
  apply Forall_cons_1 in Hq as [Hbx Hq].
  assert (consoleread_wait patience (acq LCons s) = Ok true (acq LCons s)) as Ew.
  { destruct patience; cbn [consoleread_wait]; rewrite bind_gets;
      change (kcons (acq LCons s)) with (kcons s); by rewrite (proj2 (Z.eqb_neq _ _) Hne). }
  rewrite (bind_ok _ _ _ _ _ Ew). cbn [negb]. rewrite bind_gets, bind_cset.
  change (kcons (acq LCons s)) with (kcons s). rewrite Hx.
  set (k1 := set_cons_r (u32 (cons_r (kcons s) + 1)) (kcons s)) in *.
  change (set_kcons k1 (acq LCons s)) with (acq LCons (set_kcons k1 s)). cbn [take_line] in Ht.
  destruct (x =? CTRL_D).
  { injection Ht as <- <-. cbn [length]. rewrite Z.sub_0_r. destruct (Z.of_nat (S n) <? target); cbn [negb].
    - exists s. rewrite bind_cset. change (kcons (acq LCons (set_kcons k1 s))) with k1. unfold k1. ksimp.
      rewrite cons_untake by apply (hd_typed _ _ _ Hh).
      change (set_kcons (kcons s) (acq LCons (set_kcons k1 s))) with (acq LCons s). split; [done|].
      pose proof (read_to_nil me root T F pas dst (kcons s) s Hr) as H. by destruct s.
    - exists (set_kcons k1 s). split; [done|]. split; [by apply read_to_nil|done]. }
  assert (accessible (mem s) root dst = true) as Ha by (apply Hok; lia).
  assert (Eo : either_copyout true dst [x] 1 (acq LCons (set_kcons k1 s)) =
    Ok 0 (acq LCons (set_mem (store8 (mem s) (upa (mem s) root dst) x) (set_kcons k1 s)))).
  { destruct Hr as [Hc Hu Ho Hp]. unfold either_copyout.
    erewrite bind_ok by (apply myproc_ok, settled_acq; destruct (ctx_settled _ _ Hc); by split).
    change (c_proc _) with (c_proc (kcpu s)). rewrite (ctx_cur _ _ Hc), bind_gets.
    change (p_pagetable _) with (p_pagetable (proc_of s me)). rewrite Hp.
    pose proof (uvm_user_table T F root pas s Hu Ho) as Hut.
    rewrite (copyout_byte root T (acq LCons (set_kcons k1 s)) dst x Hut Hd).
    change (mem (acq LCons (set_kcons k1 s))) with (mem s). by rewrite Ha. }
  rewrite (bind_ok _ _ _ _ _ Eo). cbn [Z.eqb].
  pose proof (read_to_byte me root T F pas dst x k1 s Hr Hd Ha Hbx) as R1.
  set (s1 := set_mem _ (set_kcons k1 s)) in *.
  destruct (x =? 10).
  { injection Ht as <- <-. exists s1. cbn [length]. split; [do 2 f_equal; lia|done]. }
  destruct (take_line false n q) as [[d' r']|] eqn:Et; [|discriminate Ht]. injection Ht as <- <-.
  destruct (decide (n = 0%nat)) as [->|Hn0].
  { injection Et as <- <-. exists s1. cbn [consoleread_loop length]. by split_and!. }
  assert (is_u32 (dst + 1)) as Hd1 by (unfold is_u32 in *; lia). rewrite (u32_small _ Hd1).
  destruct (IH q d' r' (dst + 1) s1) as (s2 & E2 & R2 & H2); try done; try lia.
  - exact (rt_reader _ _ _ _ _ _ _ _ _ R1).
  - rewrite (proj2 (Z.ltb_lt (Z.of_nat n) target)) by lia. exact Et.
  - intros va Hva. rewrite (accessible_ptes (mem s)); [apply Hok; lia|].
    exact (rt_ptes _ _ _ _ _ _ _ _ _ R1).
  - exists s2. rewrite E2. split; [cbn [length]; do 2 f_equal; lia|]. split; [|done].
    by eapply read_to_trans.
Qed.

Lemma consoleread_spec me root T F pas s dst n q l d r :
  reader me root T F pas s -> holds q l (kcons s) -> Forall (fun x => 0 <= x < 256) q ->
  0 <= n < 2 ^ 31 -> take_line true (Z.to_nat n) q = Some (d, r) ->
  is_u32 dst -> dst + n <= 2 ^ 32 -> range_ok (mem s) root dst n ->
  exists s', consoleread true dst n s = Ok (Z.of_nat (length d)) s' /\
    read_to me root T F pas dst d s s' /\ holds r l (kcons s').
Proof.
  intros Hr Hh Hq Hn Ht Hd Hlim Hok. pose proof (rd_ctx _ _ _ _ _ _ Hr) as Hc. unfold consoleread.
  erewrite bind_ok by (apply acquire_ok; [apply Hc|by apply (ctx_locks _ _ Hc LCons)]).
  rewrite (u32_small n) by (unfold is_u32; lia).
  destruct (consoleread_loop_spec me root T F pas l n (Z.to_nat n) q d r dst s) as (s' & E & R & H');
    try done; rewrite ?Z2Nat.id by lia; try done; try lia.
  { by rewrite Z.ltb_irrefl. }
  rewrite Z2Nat.id in E by lia. rewrite (bind_ok _ _ _ _ _ E).
  exists s'. split; [|done].
  pose proof (rd_ctx _ _ _ _ _ _ (rt_reader _ _ _ _ _ _ _ _ _ R)) as Hc'.
  erewrite bind_ok by (apply release_acq; [apply Hc'|by apply (ctx_locks _ _ Hc' LCons)]).
  unfold mret, M_ret. f_equal. assert (Z.of_nat (length d) <= n) as Hld.
  { pose proof (take_line_length _ _ _ _ _ Ht). lia. }
  destruct (Z.ltb_spec 0 n); rewrite s32_small; lia.
Qed.
End Read.

Lemma Forall_removelast {A} (P : A -> Prop) l : Forall P l -> Forall P (removelast l).
Proof.
  destruct l as [|x l _] using rev_ind; [done|]. rewrite removelast_last. by intros [Hl _]%Forall_app.
Qed.

(** The keys that reach the text are bytes. *)
Lemma edit_bytes cs q l :
  Forall (fun c => 0 <= c < 256) cs -> Forall (fun c => 0 <= c < 256) (q ++ l) ->
  Forall (fun c => 0 <= c < 256) ((fold_left edit cs (q, l)).1 ++ (fold_left edit cs (q, l)).2).
Proof.
  intros Hcs. revert q l. induction Hcs as [|c cs Hc _ IH]; intros q l Hq; [done|]. cbn [fold_left].
  assert (Forall (fun c => 0 <= c < 256) ((edit (q, l) c).1 ++ (edit (q, l) c).2)) as H.
  { unfold edit. apply Forall_app in Hq as [Hq Hl].
    assert (0 <= (if c =? 13 then 10 else c) < 256) as Hc' by (case_match; lia).
    repeat case_match; cbn; rewrite ?app_nil_r, ?Forall_app, ?Forall_singleton; split_and?; try done; try lia;
      by apply Forall_removelast. }
  destruct (edit (q, l) c) as [q1 l1]. by apply IH.
Qed.

(** C29: what is typed is what is read.  Keys arrive at an empty console while
    process [me] is in the kernel; a [consoleread] into accessible memory that
    finds enough text then returns the bytes [take_line] takes from what the
    line editor made of the keys: at most one line, newline included, nothing
    for an end-of-file mark, never more than asked for.  The bytes are in the
    user's buffer in order, the rest of the text stays for the next reader, and
    of the user's memory nothing else changes. *)
Theorem typed_line_is_read (L : Layout) (LO : LayoutOk L) (W : World) (Ser : Serial) (SO : SerialOk Ser)
    me root T F pas s cs dst n d r :
  reader me root T F pas s -> holds [] [] (kcons s) -> Forall (fun c => 0 <= c < 256) cs ->
  0 <= n < 2 ^ 31 -> is_u32 dst -> dst + n <= 2 ^ 32 -> range_ok (mem s) root dst n ->
  take_line true (Z.to_nat n) (fold_left edit cs ([], [])).1 = Some (d, r) ->
  exists s', (type_keys cs ;; consoleread true dst n) s = Ok (Z.of_nat (length d)) s' /\
    holds r (fold_left edit cs ([], [])).2 (kcons s') /\
    (forall va, is_u32 va -> vpn va < Z.of_nat (length pas) -> ubyte (mem s') root va =
      if decide (dst <= va < dst + Z.of_nat (length d)) then at_ d (Z.to_nat (va - dst)) else ubyte (mem s) root va) /\
    (forall va, pte_of (mem s') root va = pte_of (mem s) root va) /\
    agree_off (list_to_set pas) (mem s) (mem s') /\ ctx me s'.
Proof.
  intros Hr Hh Hcs Hn Hd Hlim Hok Ht. pose proof (rd_ctx _ _ _ _ _ _ Hr) as Hc.
  assert (intr_ctx s) as Hi by (destruct Hc; by split).
  destruct (type_keys_spec cs s [] [] Hi Hh) as (s1 & E1 & C1 & H1 & P & k & HP & m & u & c & ->); [constructor|done|].
  set (s1 := set_mmio m (set_uart u (set_nmmio c (set_kcons k (set_procs P s))))) in *.
  assert (reader me root T F pas s1) as Hr1.
  { destruct Hr as [_ Hu Ho Hp]. destruct C1 as [A1 A2 A3]. split; [|by eapply uvm_same; [exact Hu|..|apply A2]|done|].
    - split; try done; apply Hc.
    - rewrite <- Hp. unfold proc_of, s1. ksimp.
      destruct (procs s !! me) as [p|] eqn:E.
      + destruct (Forall2_lookup_l _ _ _ _ _ HP E) as (p' & -> & [->| ->]); done.
      + apply lookup_ge_None in E. rewrite (ctx_procs _ _ Hc) in E. pose proof (ctx_me _ _ Hc). lia. }
  rewrite (bind_ok _ _ _ _ _ E1).
  pose proof (edit_bytes cs [] [] Hcs (Forall_nil_2 _)) as [Hb _]%Forall_app.
  destruct (consoleread_spec me root T F pas s1 dst n _ _ d r Hr1 H1 Hb Hn Ht Hd Hlim Hok) as (s' & E & R & H').
  exists s'. destruct R as [R1 R2 R3 R4 _]. split_and!; try done. apply R1.
Qed.

(** ** A line typed and read on the machine of PipeSpec.v *)

#[local] Existing Instance test_layout.
#[local] Existing Instance test_layout_ok.
#[local] Existing Instance nemu_world.

Lemma first_page va : 100 <= va < 110 -> same_page 100 va.
Proof. unfold same_page, PGSIZE. intros. Z.div_mod_to_equations. lia. Qed.

Lemma typed_line_is_read_witness : exists s',
  (@type_keys Nemu.nemu_serial [97; 98; 8; 99; 13; 100] ;; consoleread true 100 10) pipe_machine = Ok 3 s' /\
  holds [] [100] (kcons s') /\ ubyte (mem s') test_root 101 = 99.
Proof.
  destruct pipe_machine_user as (T & F & pas & [Hc _ Hu Ho Hp _ _] & Hlen).
  assert (Hl : pas = [at_ pas 0; at_ pas 1]) by (destruct pas as [|? [|? []]]; [discriminate Hlen..|reflexivity|discriminate Hlen]).
  destruct (typed_line_is_read test_layout test_layout_ok nemu_world Nemu.nemu_serial
    (nemu_serial_laws nemu_world nemu_world_uart) 0 test_root T F pas pipe_machine
    [97; 98; 8; 99; 13; 100] 100 10 [97; 99; 10] []) as (s' & E & H & Hb & _).
  - split; [exact Hc|exact Hu|exact Ho|exact Hp].
  - assert (kcons pipe_machine = kcons blank) as -> by (vm_compute; reflexivity).
    apply holds_empty; [apply typed_blank|reflexivity..].
  - repeat constructor; lia.
  - lia.
  - unfold is_u32. lia.
  - lia.
  - intros va Hva. rewrite (accessible_same_page _ _ 100).
    + vm_compute. reflexivity.
    + unfold is_u32. lia.
    + unfold is_u32. lia.
    + by apply first_page.
  - vm_compute. reflexivity.
  - exists s'. split; [exact E|]. split; [exact H|]. rewrite Hb.
    + reflexivity.
    + unfold is_u32. lia.
    + rewrite Hl. vm_compute. reflexivity.
Defined.
