(* ===== verification/User.v ===== *)
(** * User programs: system calls and the C library (user/ulib.c, user/printf.c)

    A user program is a tree of system calls: each call with what the program
    does for every answer of the kernel.  A program that loops has the number
    of turns as an argument and ends in [Fuel] if it is too small.  Strings of
    a program are lists of bytes without the final NUL; the functions of ulib.c
    that work on memory are given on the bytes of memory. *)
From S2P Require Import Prelude Memory Machine.
From stdpp Require Import gmap strings countable prelude.

Open Scope Z_scope.

(** ** System calls (user/user.h, user/usys.pl) *)

(** An argument that is passed as it is: an integer, a string, an address, a
    vector of pointers. *)
Inductive parg : Type := PInt (v : Z) | PStr (s : list Z) | PAt (a : Z) | PVec (l : list parg).

(** [Sraw] is the system call with a given number and such arguments; [Sload]
    and [Sstore] are accesses of the program to a byte of memory that may not be
    its own. *)
Inductive sysc : Type :=
| Sread (fd n : Z) | Swrite (fd : Z) (b : list Z)
| Sopen (path : list Z) (mode : Z) | Sclose (fd : Z) | Sfstat (fd : Z) | Sdup (fd : Z) | Spipe
| Sfork | Swait | Sexec (path : list Z) (argv : list (list Z))
| Schdir (path : list Z) | Smkdir (path : list Z) | Smknod (path : list Z) (major minor : Z)
| Sunlink (path : list Z) | Slink (old new : list Z)
| Skill (pid : Z) | Ssbrk (n : Z) | Ssleep (n : Z) | Suptime | Sgetpid
| Sraw (num : Z) (args : list parg) | Sload (a : Z) | Sstore (a v : Z).

(** The value returned and the bytes stored through a pointer argument. *)
Record resp : Type := mk_resp { rv : Z; rdata : list Z }.

Inductive prog (A : Type) : Type :=
| Ret (a : A)
| Exit (status : Z)
| Call (c : sysc) (k : resp -> prog A)
| Fuel.
Arguments Ret {A} a.
Arguments Exit {A} status.
Arguments Call {A} c k.
Arguments Fuel {A}.

#[export] Instance prog_ret : MRet prog := @Ret.
#[export] Instance prog_bind : MBind prog := fun A B f =>
  fix go (m : prog A) : prog B :=
    match m with
    | Ret a => f a
    | Exit st => Exit st
    | Call c k => Call c (fun r => go (k r))
    | Fuel => Fuel
    end.

(** A call whose result is the value returned. *)
Definition sys (c : sysc) : prog Z := Call c (fun r => Ret (rv r)).
Definition exit {A} (status : Z) : prog A := Exit status.
(** [read]: the result, and the bytes of the buffer it has set. *)
Definition read (fd n : Z) : prog (Z * list Z) := Call (Sread fd n) (fun r => Ret (rv r, rdata r)).

(** ** Running a program against a kernel *)

Inductive ran (S A : Type) : Type :=
| Returned (a : A) (s : S)
| Exited (status : Z) (s : S)
| OutOfFuel.
Arguments Returned {S A} a s.
Arguments Exited {S A} status s.
Arguments OutOfFuel {S A}.

Fixpoint run {S A} (h : sysc -> S -> resp * S) (p : prog A) (s : S) : ran S A :=
  match p with
  | Ret a => Returned a s
  | Exit st => Exited st s
  | Call c k => let r := h c s in run h (k r.1) r.2
  | Fuel => OutOfFuel
  end.

Definition bytes (s : string) : list Z := (fun a => Z.of_nat (Ascii.nat_of_ascii a)) <$> String.list_ascii_of_string s.

(** ** user/ulib.c, on memory *)

(** Copying up to and with the NUL. *)
Fixpoint strcpy (fuel : nat) (m : gmap Z Z) (s t : Z) : option (gmap Z Z) :=
  match fuel with
  | O => None
  | S fuel' =>
    let m' := store8 m s (load8 m t) in
    if load8 m t =? 0 then Some m' else strcpy fuel' m' (s + 1) (t + 1)
  end.

Fixpoint strcmp (fuel : nat) (m : gmap Z Z) (p q : Z) : option Z :=
  match fuel with
  | O => None
  | S fuel' =>
    if negb (load8 m p =? 0) && (load8 m p =? load8 m q) then strcmp fuel' m (p + 1) (q + 1)
    else Some (load8 m p - load8 m q)
  end.

Fixpoint strlen_loop (fuel : nat) (m : gmap Z Z) (s n : Z) : option Z :=
  match fuel with
  | O => None
  | S fuel' => if load8 m (s + n) =? 0 then Some (u32 n) else strlen_loop fuel' m s (n + 1)
  end.
Definition strlen (fuel : nat) (m : gmap Z Z) (s : Z) : option Z := strlen_loop fuel m s 0.

(** [cdst[i] = c] for [i] from 0; [n] of them. *)
Fixpoint memset_loop (n : nat) (m : gmap Z Z) (cdst i c : Z) : gmap Z Z :=
  match n with
  | O => m
  | S n' => memset_loop n' (store8 m (cdst + i) c) cdst (i + 1) c
  end.
Definition memset (m : gmap Z Z) (dst c n : Z) : gmap Z Z := memset_loop (Z.to_nat n) m dst 0 c.

(** The address found, or 0. *)
Fixpoint strchr (fuel : nat) (m : gmap Z Z) (s c : Z) : option Z :=
  match fuel with
  | O => None
  | S fuel' =>
    if load8 m s =? 0 then Some 0 else
    if load8 m s =? c then Some s else strchr fuel' m (s + 1) c
  end.

Fixpoint atoi_loop (fuel : nat) (m : gmap Z Z) (s n : Z) : option Z :=
  match fuel with
  | O => None
  | S fuel' =>
    let c := load8 m s in
    if (48 <=? c) && (c <=? 57) then atoi_loop fuel' m (s + 1) (s32 (n * 10 + c - 48))
    else Some n
  end.
Definition atoi (fuel : nat) (m : gmap Z Z) (s : Z) : option Z := atoi_loop fuel m s 0.

Definition memmove (m : gmap Z Z) (vdst vsrc n : Z) : gmap Z Z :=
  if vdst <? vsrc then memmove_up (Z.to_nat n) m vdst vsrc
  else memmove_down (Z.to_nat n) m (vdst + n) (vsrc + n).

Fixpoint memcmp_loop (n : nat) (m : gmap Z Z) (p1 p2 : Z) : Z :=
  match n with
  | O => 0
  | S n' =>
    if negb (load8 m p1 =? load8 m p2) then load8 m p1 - load8 m p2
    else memcmp_loop n' m (p1 + 1) (p2 + 1)
  end.
Definition memcmp (m : gmap Z Z) (s1 s2 n : Z) : Z := memcmp_loop (Z.to_nat n) m s1 s2.

Definition memcpy (m : gmap Z Z) (dst src n : Z) : gmap Z Z := memmove m dst src n.

(** ** user/ulib.c, on strings *)

(** The bytes before the first NUL. *)
Fixpoint cstr (l : list Z) : list Z :=
  match l with
  | [] => []
  | c :: l' => if c =? 0 then [] else c :: cstr l'
  end.

(** [strchr] of a string that is not empty at the character: the rest from it
    on. *)
Fixpoint chr (l : list Z) (c : Z) : option (list Z) :=
  match l with
  | [] => None
  | d :: l' => if d =? c then Some l else chr l' c
  end.

(** The digits at the start. *)
Fixpoint atoi_str (l : list Z) (n : Z) : Z :=
  match l with
  | [] => n
  | c :: l' => if (48 <=? c) && (c <=? 57) then atoi_str l' (s32 (n * 10 + c - 48)) else n
  end.

(** The loop of [gets]: [n] characters still fit. *)
Fixpoint gets_loop (n : nat) (buf : list Z) : prog (list Z) :=
  match n with
  | O => mret buf
  | S n' =>
    r ← read 0 1;
    if r.1 <? 1 then mret buf else
    let c := at_ r.2 0 in
    if (c =? 10) || (c =? 13) then mret (buf ++ [c]) else gets_loop n' (buf ++ [c])
  end.
(** The bytes of the buffer before the NUL [gets] puts after them. *)
Definition gets (max : Z) : prog (list Z) := gets_loop (Z.to_nat (max - 1)) [].

Record ustat : Type := mk_ustat { st_dev : Z; st_ino : Z; st_type : Z; st_nlink : Z; st_size : Z }.
(** The fields of the structure [fstat] fills in. *)
Definition decode_stat (b : list Z) : ustat :=
  {| st_dev := s32 (u32_at b 0); st_ino := u32_at b 4; st_type := s16 (u16_at b 8); st_nlink := s16 (u16_at b 10);
     st_size := u32_at b 12 |}.

Definition fstat (fd : Z) : prog (Z * ustat) := Call (Sfstat fd) (fun r => Ret (rv r, decode_stat (rdata r))).
Definition stat (n : list Z) : prog (Z * ustat) :=
  fd ← sys (Sopen n O_RDONLY);
  if fd <? 0 then mret (-1, decode_stat []) else
  r ← fstat fd;
  sys (Sclose fd) ;;
  mret r.

(** ** user/printf.c *)

Definition digits : list Z := bytes "0123456789ABCDEF".

Definition putc (fd c : Z) : prog unit := sys (Swrite fd [u8 c]) ;; mret tt.
Fixpoint putcs (fd : Z) (l : list Z) : prog unit :=
  match l with
  | [] => mret tt
  | c :: l' => putc fd c ;; putcs fd l'
  end.

(** The do-while loop: the digits of [x], the last first. *)
Fixpoint printint_digits (fuel : nat) (x base : Z) : list Z :=
  match fuel with
  | O => []
  | S fuel' =>
    let c := at_ digits (Z.to_nat (x mod base)) in
    let x := x / base in
    if negb (x =? 0) then c :: printint_digits fuel' x base else [c]
  end.
Definition printint_chars (xx base : Z) (sgn : bool) : list Z :=
  let neg := sgn && (s32 xx <? 0) in
  let x := if neg then u32 (- s32 xx) else u32 xx in
  let buf := printint_digits 32 x base in
  reverse (if neg then buf ++ [45] else buf).
Definition printint (fd xx base : Z) (sgn : bool) : prog unit := putcs fd (printint_chars xx base sgn).

Fixpoint printptr_digits (n : nat) (x : Z) : list Z :=
  match n with
  | O => []
  | S n' => at_ digits (Z.to_nat (Z.shiftr x 28)) :: printptr_digits n' (u32 (Z.shiftl x 4))
  end.
Definition printptr (fd x : Z) : prog unit :=
  putc fd 48 ;; putc fd 120 ;; putcs fd (printptr_digits 8 x).

(** A variable argument: an integer, or a string whose pointer may be null. *)
Inductive varg : Type := AInt (v : Z) | AStr (s : option (list Z)).
Definition va_int (a : varg) : Z := match a with AInt v => v | AStr _ => 0 end.
Definition va_str (a : varg) : option (list Z) := match a with AStr s => s | AInt _ => None end.

(** [state] says whether the character before was the percent sign of a
    conversion. *)
Fixpoint vprintf (fd : Z) (fmt : list Z) (ap : list varg) (state : bool) : prog unit :=
  match fmt with
  | [] => mret tt
  | c :: fmt' =>
    let a := default (AInt 0) (head ap) in
    if negb state then
      if c =? 37 then vprintf fd fmt' ap true
      else putc fd c ;; vprintf fd fmt' ap false
    else
      if c =? 100 then printint fd (va_int a) 10 true ;; vprintf fd fmt' (tail ap) false
      else if c =? 108 then printint fd (va_int a) 10 false ;; vprintf fd fmt' (tail ap) false
      else if c =? 120 then printint fd (va_int a) 16 false ;; vprintf fd fmt' (tail ap) false
      else if c =? 112 then printptr fd (u32 (va_int a)) ;; vprintf fd fmt' (tail ap) false
      else if c =? 115 then
        putcs fd (cstr (default (bytes "(null)") (va_str a))) ;; vprintf fd fmt' (tail ap) false
      else if c =? 99 then putc fd (va_int a) ;; vprintf fd fmt' (tail ap) false
      else if c =? 37 then putc fd c ;; vprintf fd fmt' ap false
      else putc fd 37 ;; putc fd c ;; vprintf fd fmt' ap false
  end.
Definition fprintf (fd : Z) (fmt : list Z) (ap : list varg) : prog unit := vprintf fd fmt ap false.
Definition printf (fmt : list Z) (ap : list varg) : prog unit := vprintf 1 fmt ap false.

(** A line of text with its newline. *)
Definition line (s : string) : list Z := bytes s ++ [10].

(** The wrapper around [main]. *)
Definition _main (main : prog Z) : prog Z := main ;; exit 0.
