(* ===== verification/Umalloc.v ===== *)
(** * The memory allocator of user programs (user/umalloc.c)

    Headers are in the memory of the program, a [ptr] of 4 bytes and a [size]
    of 4 bytes.  The loops have a bound on their turns.  [sbrk] is the system
    call: the class says what the kernel grants. *)
From S2P Require Import Prelude Memory.
From stdpp Require Import gmap strings countable prelude.

Open Scope Z_scope.

Module Umalloc.

Record ust := mk_ust {
  umem : gmap Z Z;    (** memory of the program *)
  freep : Z;
  brk : Z;            (** end of the memory of the program *)
}.
Definition set_umem v s := mk_ust v (freep s) (brk s).
Definition set_freep v s := mk_ust (umem s) v (brk s).
Definition set_brk v s := mk_ust (umem s) (freep s) v.

(** The address of [base], and whether [sbrk] of so many bytes succeeds at a
    given end of memory. *)
Class Process := {
  base : Z;
  grants : Z -> Z -> bool;
}.

(** [p->s.ptr] and [p->s.size]; a Header has 8 bytes. *)
Definition hdr : Z := 8.
Definition s_ptr (p : Z) : M ust Z := gets (fun s => load32 (umem s) p).
Definition s_size (p : Z) : M ust Z := gets (fun s => load32 (umem s) (p + 4)).
Definition set_ptr (p v : Z) : M ust unit := modify (fun s => set_umem (store32 (umem s) p v) s).
Definition set_size (p v : Z) : M ust unit := modify (fun s => set_umem (store32 (umem s) (p + 4) v) s).
(** [p + n] on a [Header *]. *)
Definition hadd (p n : Z) : Z := u32 (p + hdr * n).

Section Process.
Context {Pr : Process}.

(** sbrk(n); a failure is (char * )-1.  Memory can always be given back. *)
Definition sbrk (n : Z) : M ust Z :=
  let n := s32 n in
  b ← gets brk;
  if (0 <=? n) && negb (grants b n) then mret 4294967295 else
  modify (set_brk (u32 (b + n))) ;;
  mret b.

(** The loop of [free] with its test at [p]. *)
Fixpoint free_find (fuel : nat) (bp p : Z) : M ust Z :=
  next ← s_ptr p;
  if (p <? bp) && (bp <? next) then mret p else
  if (next <=? p) && ((p <? bp) || (bp <? next)) then mret p else
  match fuel with
  | O => hang
  | S fuel' => free_find fuel' bp next
  end.
Definition free (fuel : nat) (ap : Z) : M ust unit :=
  let bp := u32 (ap - hdr) in
  f ← gets freep;
  p ← free_find fuel bp f;
  next ← s_ptr p;
  bsize ← s_size bp;
  (if hadd bp bsize =? next then
     nsize ← s_size next;
     set_size bp (u32 (bsize + nsize)) ;;
     nnext ← s_ptr next;
     set_ptr bp nnext
   else set_ptr bp next) ;;
  psize ← s_size p;
  (if hadd p psize =? bp then
     bsize ← s_size bp;
     set_size p (u32 (psize + bsize)) ;;
     bnext ← s_ptr bp;
     set_ptr p bnext
   else set_ptr p bp) ;;
  modify (set_freep p).

Definition morecore (fuel : nat) (nu : Z) : M ust Z :=
  let nu := if nu <? 4096 then 4096 else nu in
  p ← sbrk (u32 (nu * hdr));
  if p =? 4294967295 then mret 0 else
  set_size p nu ;;
  free fuel (hadd p 1) ;;
  gets freep.

(** The loop of [malloc] at [prevp] and [p]. *)
Fixpoint malloc_loop (fuel : nat) (nunits prevp p : Z) : M ust Z :=
  size ← s_size p;
  if nunits <=? size then
    r ← (if size =? nunits then
           next ← s_ptr p;
           set_ptr prevp next ;;
           mret p
         else
           set_size p (u32 (size - nunits)) ;;
           size' ← s_size p;
           let p := hadd p size' in
           set_size p nunits ;;
           mret p);
    modify (set_freep prevp) ;;
    mret (hadd r 1)
  else
    match fuel with
    | O => hang
    | S fuel' =>
      f ← gets freep;
      if p =? f then
        p ← morecore fuel nunits;
        if p =? 0 then mret 0 else
        next ← s_ptr p;
        malloc_loop fuel' nunits p next
      else
        next ← s_ptr p;
        malloc_loop fuel' nunits p next
    end.

(** The units for [nbytes]: those of the data, rounded up, and a header. *)
Definition units (nbytes : Z) : Z := u32 (u32 (nbytes + hdr - 1) / hdr + 1).
Definition malloc (fuel : nat) (nbytes : Z) : M ust Z :=
  let nunits := units nbytes in
  f ← gets freep;
  (if f =? 0 then
     modify (set_freep base) ;;
     set_ptr base base ;;
     set_size base 0
   else mret tt) ;;
  prevp ← gets freep;
  p ← s_ptr prevp;
  malloc_loop fuel nunits prevp p.
End Process.
End Umalloc.
