(* ===== verification/UmallocSpec.v ===== *)
(** * The memory allocator of user programs (user/umalloc.c): what it does

    The memory between the first [sbrk] and the end of the program is tiled by
    blocks, used or free, no two free ones side by side; the free ones are
    linked in a ring with [base], in the order of their addresses. *)
From S2P Require Import Prelude Memory Umalloc.
From Stdlib Require Import Sorted.
From stdpp Require Import gmap strings countable prelude.

Open Scope Z_scope.
Import Umalloc.

(** ** Tilings *)

(** Blocks in the order of their addresses: units, and whether it is free. *)
Notation layout := (list (Z * bool)).
Fixpoint uns (T : layout) : Z := match T with [] => 0 | b :: T' => fst b + uns T' end.
(** The free and the used blocks with their addresses, from address [a] on. *)
Fixpoint blocks_at (f : bool) (a : Z) (T : layout) : list (Z * Z) :=
  match T with
  | [] => []
  | (n, g) :: T' => (if eqb f g then [(a, n)] else []) ++ blocks_at f (a + 8 * n) T'
  end.
Notation frees := (blocks_at true).
Notation useds := (blocks_at false).

Lemma uns_app T1 T2 : uns (T1 ++ T2) = uns T1 + uns T2.
Proof. induction T1 as [|[n g] T1 IH]; cbn; lia. Qed.
Lemma blocks_app f a T1 T2 : blocks_at f a (T1 ++ T2) = blocks_at f a T1 ++ blocks_at f (a + 8 * uns T1) T2.
Proof.
  revert a. induction T1 as [|[n g] T1 IH]; intros a; cbn [app blocks_at uns fst]; [f_equal; lia|].
  rewrite IH, app_assoc. do 2 f_equal. lia.
Qed.
Definition pos (T : layout) : Prop := Forall (fun b => 1 <= fst b) T.
Lemma uns_pos T : pos T -> 0 <= uns T.
Proof. induction 1 as [|[n g] T Hn HT IH]; cbn in *; lia. Qed.
Lemma blocks_range f a T b n : pos T -> (b, n) ∈ blocks_at f a T -> a <= b /\ b + 8 * n <= a + 8 * uns T /\ 1 <= n.
Proof.
  intros Hp. revert a. induction Hp as [|[k g] T Hk HT IH]; intros a Hin; cbn in *; [by apply elem_of_nil in Hin|].
  pose proof (uns_pos T HT). apply elem_of_app in Hin as [Hin|Hin].
  - destruct (eqb f g); [|by apply elem_of_nil in Hin]. apply list_elem_of_singleton in Hin. injection Hin as -> ->. lia.
  - apply IH in Hin. lia.
Qed.
(** Two blocks are the same one or do not overlap. *)
Lemma blocks_apart f g a T b n c k : pos T -> (b, n) ∈ blocks_at f a T -> (c, k) ∈ blocks_at g a T ->
  (f = g /\ b = c /\ n = k) \/ b + 8 * n <= c \/ c + 8 * k <= b.
Proof.
  intros Hp. revert a. induction Hp as [|[j h] T Hj HT IH]; intros a Hb Hc; cbn in *; [by apply elem_of_nil in Hb|].
  apply elem_of_app in Hb as [Hb|Hb], Hc as [Hc|Hc].
  - destruct (eqb_spec f h) as [->|]; [|by apply elem_of_nil in Hb]. destruct (eqb_spec g h) as [->|]; [|by apply elem_of_nil in Hc].
    apply list_elem_of_singleton in Hb, Hc. injection Hb as -> ->. injection Hc as -> ->. by left.
  - destruct (eqb f h); [|by apply elem_of_nil in Hb]. apply list_elem_of_singleton in Hb. injection Hb as -> ->.
    destruct (blocks_range _ _ _ _ _ HT Hc). lia.
  - destruct (eqb g h); [|by apply elem_of_nil in Hc]. apply list_elem_of_singleton in Hc. injection Hc as -> ->.
    destruct (blocks_range _ _ _ _ _ HT Hb). lia.
  - by eapply IH.
Qed.
Lemma blocks_split f a T b n : (b, n) ∈ blocks_at f a T -> exists T1 T2, T = T1 ++ (n, f) :: T2 /\ b = a + 8 * uns T1.
Proof.
  revert a. induction T as [|[k g] T IH]; intros a Hin; cbn in Hin; [by apply elem_of_nil in Hin|].
  apply elem_of_app in Hin as [Hin|Hin].
  - destruct (eqb_spec f g) as [->|]; [|by apply elem_of_nil in Hin]. apply list_elem_of_singleton in Hin. injection Hin as -> ->.
    exists [], T. cbn. split; [done|lia].
  - destruct (IH _ Hin) as (T1 & T2 & -> & ->). exists ((k, g) :: T1), T2. cbn. split; [done|lia].
Qed.

(** ** Links *)

(** Each header of the list points to the next one, the last to [z]. *)
Fixpoint linked (m : gmap Z Z) (L : list Z) (z : Z) : Prop :=
  match L with
  | [] => True
  | a :: L' => load32 m a = hd z L' /\ linked m L' z
  end.

Lemma linked_app m L1 L2 z : linked m (L1 ++ L2) z <-> linked m L1 (hd z L2) /\ linked m L2 z.
Proof.
  induction L1 as [|a L1 IH]; cbn; [tauto|]. rewrite IH. destruct L1; cbn; tauto.
Qed.
Lemma linked_ext m m' L z : (forall a, a ∈ L -> load32 m' a = load32 m a) -> linked m L z -> linked m' L z.
Proof.
  induction L as [|a L IH]; intros Ha; [done|]. intros [E H]. split; [rewrite Ha; [done|left]|]. apply IH; [|done]. intros b Hb. apply Ha. by right.
Qed.
(** The header before one is the one that points to it. *)
Lemma linked_pred m L z a p : linked m L z -> NoDup L -> a ∈ L -> load32 m a = p -> p ∈ L -> p <> hd p L -> z = hd z L ->
  exists X Y, L = X ++ a :: p :: Y.
Proof.
  intros HL Hnd Ha Hap Hp Hne Hz. apply list_elem_of_split in Ha as (X & Y & ->). apply linked_app in HL as [_ [E _]].
  destruct Y as [|q Y]; [|exists X, Y; do 3 f_equal; cbn in E; congruence]. cbn in E. exfalso. apply Hne. rewrite <- Hap, E, Hz.
  by destruct X.
Qed.

(** ** The invariant *)

Section Heap.
Context {Pr : Process} (lo : Z).

(** The ring: [base] and the free blocks. *)
Definition nodes (T : layout) : list Z := base :: (frees lo T).*1.

(** No two free blocks side by side. *)
Definition coalesced (T : layout) : Prop := forall i n k, T !! i = Some (n, true) -> T !! S i <> Some (k, true).

Definition ends_free (T : layout) : Prop := exists n, last T = Some (n, true).
Definition starts_free (T : layout) : Prop := exists n, head T = Some (n, true).
#[local] Instance ends_free_dec T : Decision (ends_free T).
Proof using. unfold ends_free. destruct (last T) as [[n []]|]; [left; by exists n|right; by intros [? ?]..]. Defined.
#[local] Instance starts_free_dec T : Decision (starts_free T).
Proof using. unfold starts_free. destruct (head T) as [[n []]|]; [left; by exists n|right; by intros [? ?]..]. Defined.
Lemma lookup_app_add (T1 T2 : layout) i : (T1 ++ T2) !! (length T1 + i)%nat = T2 !! i.
Proof using. rewrite lookup_app_r by lia. f_equal. lia. Qed.
Lemma coalesced_app T1 T2 : coalesced (T1 ++ T2) <-> coalesced T1 /\ coalesced T2 /\ ~ (ends_free T1 /\ starts_free T2).
Proof using.
  split.
  - intros H. split_and!.
    + intros i n k Hi Hk. apply (H i n k); by apply lookup_app_l_Some.
    + intros i n k Hi Hk. apply (H (length T1 + i)%nat n k); [by rewrite lookup_app_add|]. by rewrite <- Nat.add_succ_r, lookup_app_add.
    + intros [[n Hn] [k Hk]]. rewrite last_lookup in Hn. rewrite head_lookup in Hk. pose proof (lookup_lt_Some _ _ _ Hn).
      apply (H (pred (length T1)) n k); [by apply lookup_app_l_Some|]. replace (S (pred (length T1))) with (length T1 + 0)%nat by lia. by rewrite lookup_app_add.
  - intros (H1 & H2 & H3) i n k Hi Hk. destruct (decide (S i < length T1)%nat) as [Hlt|Hge].
    + rewrite lookup_app_l in Hi, Hk by lia. by apply (H1 i n k).
    + destruct (decide (i < length T1)%nat) as [Hlt|Hge'].
      * rewrite lookup_app_l in Hi by lia. rewrite lookup_app_r in Hk by lia. replace (S i - length T1)%nat with 0%nat in Hk by lia.
        apply H3. split; [exists n|exists k; by rewrite head_lookup]. rewrite last_lookup. by replace (pred (length T1)) with i by lia.
      * rewrite lookup_app_r in Hi, Hk by lia. replace (S i - length T1)%nat with (S (i - length T1)) in Hk by lia. by apply (H2 _ n k Hi).
Qed.

Record heap (s : ust) (T : layout) : Prop := {
  hp_base : 0 < base /\ base + 8 <= lo;
  hp_brk : brk s = lo + 8 * uns T;
  hp_top : brk s < 4294967296;
  hp_pos : pos T;
  hp_coalesced : coalesced T;
  hp_ring : linked (umem s) (nodes T) base;
  hp_bsize : load32 (umem s) (base + 4) = 0;
  hp_size : forall f a n, (a, n) ∈ blocks_at f lo T -> load32 (umem s) (a + 4) = n;
  hp_freep : freep s ∈ nodes T;
}.

(** The ring is in the order of the addresses. *)
Lemma frees_sorted T a : pos T -> Sorted Z.lt ((frees a T).*1) /\ Forall (fun x => a <= x) ((frees a T).*1).
Proof using.
  intros Hp. revert a. induction Hp as [|[n g] T Hn HT IH]; intros a; [done|]. cbn [blocks_at]. destruct (IH (a + 8 * n)) as [I1 I2].
  cbn in Hn. assert (Hall : Forall (fun x => a < x) ((frees (a + 8 * n) T).*1)) by (eapply Forall_impl; [exact I2|cbn; lia]).
  destruct g; cbn.
  - split; [|constructor; [lia|eapply Forall_impl; [exact Hall|cbn; lia]]]. constructor; [done|].
    destruct ((frees (a + 8 * n) T).*1) eqn:E; constructor. by inversion Hall.
  - split; [done|]. eapply Forall_impl; [exact Hall|cbn; lia].
Qed.
Lemma nodes_nodup T : pos T -> base + 8 <= lo -> NoDup (nodes T).
Proof using.
  intros Hp Hb. destruct (frees_sorted T lo Hp) as [S A]. constructor.
  - intros Hin. rewrite Forall_forall in A. specialize (A _ Hin). cbn in A. lia.
  - clear A. apply Sorted_StronglySorted in S; [|intros x y z; lia]. induction S as [|x l S IH Hx]; constructor; [|done].
    intros Hin. rewrite Forall_forall in Hx. specialize (Hx _ Hin). lia.
Qed.
Lemma elem_frees T a : a ∈ (frees lo T).*1 -> exists n, (a, n) ∈ frees lo T.
Proof using. intros H. apply list_elem_of_fmap in H as ([x n] & -> & H). by exists n. Qed.

(** A block and a header of the ring are the same or apart. *)
Lemma node_apart s T f a n p : heap s T -> (a, n) ∈ blocks_at f lo T -> p ∈ nodes T -> p = a \/ p + 8 <= a \/ a + 8 * n <= p.
Proof using.
  intros Hh Ha Hp. destruct (hp_base _ _ Hh) as [_ Hb]. destruct (blocks_range _ _ _ _ _ (hp_pos _ _ Hh) Ha) as (R1 & R2 & R3).
  apply elem_of_cons in Hp as [->|Hp]; [lia|]. destruct (elem_frees _ _ Hp) as [k Hk].
  destruct (blocks_range _ _ _ _ _ (hp_pos _ _ Hh) Hk) as (_ & _ & Hk1).
  destruct (blocks_apart _ _ _ _ _ _ _ _ (hp_pos _ _ Hh) Ha Hk) as [(_ & -> & _)|[?|?]]; [by left|lia..].
Qed.
Lemma nodes_apart s T p q : heap s T -> p ∈ nodes T -> q ∈ nodes T -> p = q \/ p + 8 <= q \/ q + 8 <= p.
Proof using.
  intros Hh Hp Hq. destruct (hp_base _ _ Hh) as [_ Hb]. apply elem_of_cons in Hq as [->|Hq].
  - apply elem_of_cons in Hp as [->|Hp]; [by left|]. destruct (elem_frees _ _ Hp) as [k Hk].
    destruct (blocks_range _ _ _ _ _ (hp_pos _ _ Hh) Hk). lia.
  - destruct (elem_frees _ _ Hq) as [k Hk]. destruct (blocks_range _ _ _ _ _ (hp_pos _ _ Hh) Hk).
    destruct (node_apart s T true q k p Hh Hk Hp) as [->|[?|?]]; [by left|lia..].
Qed.
Lemma node_size s T p : heap s T -> p ∈ nodes T -> (p = base /\ load32 (umem s) (p + 4) = 0) \/ (p, load32 (umem s) (p + 4)) ∈ frees lo T.
Proof using.
  intros Hh Hp. apply elem_of_cons in Hp as [->|Hp]; [left; split; [done|apply Hh]|]. right. destruct (elem_frees _ _ Hp) as [k Hk].
  by rewrite (hp_size _ _ Hh _ _ _ Hk).
Qed.

Lemma node_used s T a n p : heap s T -> (a, n) ∈ useds lo T -> p ∈ nodes T -> p + 8 <= a \/ a + 8 * n <= p.
Proof using.
  intros Hh Ha Hp. destruct (hp_base _ _ Hh) as [_ Hb]. destruct (blocks_range _ _ _ _ _ (hp_pos _ _ Hh) Ha) as (R1 & R2 & R3).
  apply elem_of_cons in Hp as [->|Hp]; [lia|]. destruct (elem_frees _ _ Hp) as [k Hk].
  destruct (blocks_range _ _ _ _ _ (hp_pos _ _ Hh) Hk) as (_ & _ & Hk1).
  destruct (blocks_apart _ _ _ _ _ _ _ _ (hp_pos _ _ Hh) Ha Hk) as [(? & _)|[?|?]]; [done|lia..].
Qed.

(** The bytes of these blocks are the same. *)
Definition kept (B : list (Z * Z)) (m m' : gmap Z Z) : Prop :=
  forall a n, (a, n) ∈ B -> forall x, a <= x < a + 8 * n -> load8 m' x = load8 m x.

(** ** free *)

(** The search below the block: it stops at the last header before it. *)
Lemma find_left s bp z Y : forall f fuel, linked (umem s) (f :: Y) z -> Sorted Z.lt (f :: Y) -> Forall (fun x => x < bp) (f :: Y) ->
  bp < z \/ Forall (fun x => z <= x) (f :: Y) -> (length Y <= fuel)%nat ->
  exists X p, f :: Y = X ++ [p] /\ free_find fuel bp f s = Ok p s.
Proof using.
  induction Y as [|g Y IH]; intros f fuel [E HL] HS Hlt Hz Hf; cbn in E; apply Forall_cons in Hlt as [Hfb Hlt].
  - exists [], f. split; [done|]. destruct fuel; cbn [free_find]; unfold s_ptr; rewrite bind_gets, E.
    all: destruct Hz as [Hz|[Hz _]%Forall_cons]; [by rewrite !(proj2 (Z.ltb_lt _ _)) by lia|].
    all: rewrite (proj2 (Z.ltb_lt f bp)), (proj2 (Z.leb_le z f)) by lia; by destruct (bp <? z).
  - destruct fuel as [|fuel]; [cbn in Hf; lia|]. apply Sorted_inv in HS as [HS Hfg]. inversion_clear Hfg as [|? ? Hfg'].
    pose proof (Forall_inv Hlt) as Hg. cbn in Hg. cbn [free_find]. unfold s_ptr. rewrite bind_gets, E.
    rewrite (proj2 (Z.ltb_ge bp g)), andb_false_r, (proj2 (Z.leb_gt g f)) by lia. cbn [andb].
    destruct (IH g fuel HL HS Hlt) as (X & p & EX & Ef); [destruct Hz as [?|Hz]; [by left|right; by apply Forall_cons in Hz as [_ Hz]]|cbn in Hf; lia|].
    exists (f :: X), p. split; [by rewrite EX|exact Ef].
Qed.
(** The search above it goes on to [base]. *)
Lemma find_right s bp Y : forall f fuel, linked (umem s) (f :: Y) base -> Sorted Z.lt (f :: Y) -> Forall (fun x => bp < x) (f :: Y) ->
  base < bp -> (length Y < fuel)%nat -> free_find fuel bp f s = free_find (fuel - length (f :: Y)) bp base s.
Proof using.
  induction Y as [|g Y IH]; intros f fuel [E HL] HS Hlt Hb Hf; cbn in E; apply Forall_cons in Hlt as [Hfb Hlt].
  - destruct fuel as [|fuel]; [cbn in Hf; lia|]. cbn [free_find]. unfold s_ptr. rewrite bind_gets, E.
    rewrite (proj2 (Z.ltb_ge f bp)), (proj2 (Z.ltb_ge bp base)) by lia. cbn [andb orb length]. rewrite andb_false_r. by replace (S fuel - 1)%nat with fuel by lia.
  - destruct fuel as [|fuel]; [cbn in Hf; lia|]. apply Sorted_inv in HS as [HS Hfg]. inversion_clear Hfg as [|? ? Hfg'].
    cbn [free_find]. unfold s_ptr. rewrite bind_gets, E.
    rewrite (proj2 (Z.ltb_ge f bp)), (proj2 (Z.leb_gt g f)) by lia. cbn [andb]. rewrite IH by (done || (cbn in Hf; lia)). done.
Qed.

Section Free.
Context (s : ust) (T1 T2 : layout) (n : Z).
Hypothesis (Hh : heap s (T1 ++ (n, false) :: T2)).
Let bp := lo + 8 * uns T1.
Let F1 := (frees lo T1).*1.
Let F2 := (frees (bp + 8 * n) T2).*1.

Lemma free_pos : pos T1 /\ 1 <= n /\ pos T2.
Proof using Hh. pose proof (hp_pos _ _ Hh) as Hp. unfold pos in *. apply Forall_app in Hp as [? [? ?]%Forall_cons]. done. Qed.
Lemma free_nodes : nodes (T1 ++ (n, false) :: T2) = base :: F1 ++ F2.
Proof using. unfold nodes. by rewrite blocks_app, fmap_app. Qed.
Lemma free_used : (bp, n) ∈ useds lo (T1 ++ (n, false) :: T2).
Proof using. rewrite blocks_app. apply elem_of_app. right. left. Qed.
Lemma free_lt : Forall (fun x => x < bp) (base :: F1) /\ Forall (fun x => bp < x) F2.
Proof using Hh.
  destruct free_pos as (P1 & Pn & P2). destruct (hp_base _ _ Hh). pose proof (uns_pos _ P1). split.
  - constructor; [unfold bp; lia|]. apply Forall_forall. intros x Hx. apply list_elem_of_fmap in Hx as ([y k] & -> & Hx).
    destruct (blocks_range _ _ _ _ _ P1 Hx). cbn. unfold bp. lia.
  - apply Forall_forall. intros x Hx. apply list_elem_of_fmap in Hx as ([y k] & -> & Hx). destruct (blocks_range _ _ _ _ _ P2 Hx). cbn. lia.
Qed.
Lemma free_sorted : Sorted Z.lt (base :: F1) /\ Sorted Z.lt F2.
Proof using Hh.
  destruct free_pos as (P1 & Pn & P2). destruct (hp_base _ _ Hh). destruct (frees_sorted T1 lo P1) as [S1 A1]. destruct (frees_sorted T2 (bp + 8 * n) P2) as [S2 _].
  split; [|done]. constructor; [done|]. fold F1 in A1 |- *. destruct F1; constructor. apply Forall_inv in A1. cbn in A1. lia.
Qed.
Lemma free_linked : linked (umem s) (base :: F1) (hd base F2) /\ linked (umem s) F2 base.
Proof using Hh. pose proof (hp_ring _ _ Hh) as R. rewrite free_nodes in R. by apply (linked_app _ (base :: F1)) in R. Qed.

(** The header before the block. *)
Lemma free_find_spec fuel : (2 + length (frees lo (T1 ++ (n, false) :: T2)) <= fuel)%nat ->
  exists X p, base :: F1 = X ++ [p] /\ free_find fuel bp (freep s) s = Ok p s.
Proof using Hh.
  intros Hf. rewrite blocks_app, length_app in Hf. destruct free_lt as [L1 L2], free_sorted as [S1 S2], free_linked as [K1 K2].
  assert (E1 : length F1 = length (frees lo T1)) by (unfold F1; by rewrite length_fmap).
  assert (E2 : length F2 = length (frees (bp + 8 * n) T2)) by (unfold F2; by rewrite length_fmap).
  cbn [blocks_at eqb app] in Hf. fold bp in Hf.
  assert (Hz : bp < hd base F2 \/ Forall (fun x => hd base F2 <= x) (base :: F1)).
  { destruct F2 as [|g F2'] eqn:E; [right|left; by apply Forall_inv in L2]. cbn. apply Sorted_StronglySorted in S1; [|intros x y z; lia].
    apply StronglySorted_inv in S1 as [_ S1]. constructor; [lia|]. eapply Forall_impl; [exact S1|]. cbn. lia. }
  assert (Hsplit : forall X f Y, base :: F1 = X ++ f :: Y -> exists X p, base :: F1 = X ++ [p] /\ forall fuel, (length F1 <= fuel)%nat -> free_find fuel bp f s = Ok p s).
  { intros X f Y E. rewrite E in K1, S1, L1, Hz. apply linked_app in K1 as [_ K1].
    assert (S1' : Sorted Z.lt (f :: Y)) by (clear -S1; induction X as [|x X IH]; [done|]; apply IH; by apply Sorted_inv in S1 as [S1 _]).
    apply Forall_app in L1 as [_ L1]. assert (Hl : (length Y <= length F1)%nat) by (apply (f_equal length) in E; rewrite length_app in E; cbn in E; lia).
    assert (Hz' : bp < hd base F2 \/ Forall (fun x => hd base F2 <= x) (f :: Y)) by (destruct Hz as [?|Hz]; [by left|right; by apply Forall_app in Hz as [_ Hz]]).
    destruct (find_left s bp _ Y f (length F1) K1 S1' L1 Hz' Hl) as (X' & p & E' & _).
    exists (X ++ X'), p. split; [by rewrite E, E', app_assoc|]. intros fu Hfu.
    destruct (find_left s bp _ Y f fu K1 S1' L1 Hz' ltac:(lia)) as (X2 & p2 & E2' & Ef). rewrite E' in E2'. by apply app_inj_tail in E2' as [_ ->]. }
  pose proof (hp_freep _ _ Hh) as Hfp. rewrite free_nodes in Hfp. change (base :: F1 ++ F2) with ((base :: F1) ++ F2) in Hfp.
  apply elem_of_app in Hfp as [Hfp|Hfp]; apply list_elem_of_split in Hfp as (X & Y & E).
  - destruct (Hsplit X (freep s) Y E) as (X' & p & E' & Ef). exists X', p. split; [done|]. apply Ef. lia.
  - rewrite E in K2, S2, L2. apply linked_app in K2 as [_ K2]. apply Forall_app in L2 as [_ L2].
    assert (S2' : Sorted Z.lt (freep s :: Y)) by (clear -S2; induction X as [|x X IH]; [done|]; apply IH; by apply Sorted_inv in S2 as [S2 _]).
    apply (f_equal length) in E. rewrite length_app in E. cbn in E.
    rewrite (find_right s bp Y (freep s) fuel); [|done|done|done|by apply Forall_inv in L1|lia].
    destruct (Hsplit [] base F1 eq_refl) as (X' & p & E' & Ef). exists X', p. split; [done|]. apply Ef. cbn. lia.
Qed.

(** *** The links and sizes it writes *)

Lemma load32_out m' m a : (forall x, a <= x < a + 4 -> load8 m' x = load8 m x) -> load32 m' a = load32 m a.
Proof using. apply load32_ext. Qed.

Let m := umem s.
Let next := hd base F2.

Lemma bp_range : lo <= bp /\ bp + 8 * n <= brk s /\ bp + 8 <= brk s /\ 0 < bp.
Proof using Hh.
  destruct free_pos as (P1 & Pn & P2). pose proof (uns_pos _ P1). pose proof (uns_pos _ P2). destruct (hp_base _ _ Hh).
  rewrite (hp_brk _ _ Hh), uns_app. cbn. unfold bp. lia.
Qed.
Lemma next_node : next = base \/ exists k, (next, k) ∈ frees (bp + 8 * n) T2 /\ load32 m (next + 4) = k /\ bp + 8 * n <= next /\ next + 8 * k <= brk s /\ 1 <= k.
Proof using Hh.
  destruct free_pos as (P1 & Pn & P2). unfold next, F2. destruct (frees (bp + 8 * n) T2) as [|[a k] F] eqn:E; [by left|right].
  assert (Hin : (a, k) ∈ frees (bp + 8 * n) T2) by (rewrite E; left). exists k. cbn. split; [by rewrite <- E|].
  destruct (blocks_range _ _ _ _ _ P2 Hin) as (R1 & R2 & R3). split_and!; [|lia| |done].
  - apply (hp_size _ _ Hh true). rewrite blocks_app. apply elem_of_app. right. exact Hin.
  - rewrite (hp_brk _ _ Hh), uns_app. cbn. unfold bp in *. lia.
Qed.
Lemma pred_node X p : base :: F1 = X ++ [p] -> p ∈ nodes (T1 ++ (n, false) :: T2) /\ 0 < p /\ p + 8 <= bp /\
  0 <= load32 m (p + 4) /\ p + 8 * load32 m (p + 4) <= bp.
Proof using Hh.
  intros E. assert (Hp : p ∈ base :: F1) by (rewrite E; apply elem_of_app; right; left).
  split; [rewrite free_nodes; change (base :: F1 ++ F2) with ((base :: F1) ++ F2); apply elem_of_app; by left|].
  destruct free_pos as (P1 & Pn & P2). destruct (hp_base _ _ Hh). pose proof (uns_pos _ P1). apply elem_of_cons in Hp as [->|Hp].
  - unfold m. rewrite (hp_bsize _ _ Hh). unfold bp. lia.
  - apply list_elem_of_fmap in Hp as ([y k] & -> & Hk). destruct (blocks_range _ _ _ _ _ P1 Hk). cbn [fst].
    assert (Hin : (y, k) ∈ frees lo (T1 ++ (n, false) :: T2)) by (rewrite blocks_app; apply elem_of_app; by left).
    unfold m. rewrite (hp_size _ _ Hh _ _ _ Hin). unfold bp. lia.
Qed.

Definition joins_next : bool := bp + 8 * n =? next.
Definition b_ptr : Z := if joins_next then load32 m next else next.
Definition b_size : Z := if joins_next then n + load32 m (next + 4) else n.

Lemma free_run fuel X p : base :: F1 = X ++ [p] -> free_find fuel bp (freep s) s = Ok p s ->
  exists m', free fuel (bp + 8) s = Ok tt (mk_ust m' p (brk s)) /\
    (forall x, ~ (bp <= x < bp + 8) -> ~ (p <= x < p + 8) -> load8 m' x = load8 m x) /\
    if p + 8 * load32 m (p + 4) =? bp then load32 m' p = b_ptr /\ load32 m' (p + 4) = load32 m (p + 4) + b_size
    else load32 m' p = bp /\ load32 m' (p + 4) = load32 m (p + 4) /\ load32 m' bp = b_ptr /\ load32 m' (bp + 4) = b_size.
Proof using Hh.
  intros EX Ef. destruct (pred_node X p EX) as (Hp & Hp0 & Hp1 & Hps & Hp2). destruct bp_range as (B1 & B2 & B3 & B4).
  pose proof (hp_top _ _ Hh) as Htop. destruct free_pos as (_ & Pn & _).
  assert (Hbn : load32 m (bp + 4) = n) by (apply (hp_size _ _ Hh false), free_used).
  assert (Hpn : load32 m p = next).
  { destruct free_linked as [K1 _]. rewrite EX in K1. by apply linked_app in K1 as [_ [K1 _]]. }
  assert (Hnx : next = base \/ bp + 8 * n <= next) by (destruct next_node as [?|(k & _ & _ & ? & _)]; auto).
  assert (Hbs : n <= b_size /\ bp + 8 * b_size <= brk s).
  { unfold b_size, joins_next. destruct (Z.eqb_spec (bp + 8 * n) next) as [E|]; [|lia].
    destruct next_node as [En|(k & _ & -> & R1 & R2 & R3)]; [destruct (hp_base _ _ Hh); lia|lia]. }
  assert (Hb0 : base + 8 <= bp) by (destruct (hp_base _ _ Hh); lia).
  assert (Hfar : bp + 8 * n = next -> bp + 8 <= next) by lia.
  unfold free, hadd, hdr. replace (u32 (bp + 8 - 8)) with bp by (rewrite u32_small; [lia|unfold is_u32; lia]).
  rewrite bind_gets, (bind_ok _ _ _ _ _ Ef). unfold s_ptr, s_size, set_ptr, set_size. rewrite !bind_gets. fold m. rewrite Hpn, Hbn.
  rewrite (u32_small (bp + 8 * n)) by (unfold is_u32; lia).
  set (m1 := if joins_next then store32 (store32 m (bp + 4) b_size) bp b_ptr else store32 m bp b_ptr).
  assert (E1 : forall B (k : unit -> M ust B), ((if bp + 8 * n =? next then
      nsize ← gets (fun s => load32 (umem s) (next + 4));
      modify (fun s => set_umem (store32 (umem s) (bp + 4) (u32 (n + nsize))) s) ;;
      nnext ← gets (fun s => load32 (umem s) next);
      modify (fun s => set_umem (store32 (umem s) bp nnext) s)
    else modify (fun s => set_umem (store32 (umem s) bp next) s)) ≫= k) s = k tt (set_umem m1 s)).
  { intros B k. unfold m1, b_ptr, b_size in *. fold joins_next in *. destruct joins_next eqn:EJ; [|done].
    apply Z.eqb_eq in EJ. rewrite bind_assoc, bind_gets, bind_assoc, bind_modify, bind_assoc, bind_gets, bind_modify. fold m. cbn [umem set_umem].
    rewrite (u32_small (n + _)) by (unfold is_u32; lia). rewrite load32_store32_ne by lia. done. }
  rewrite E1. rewrite bind_gets. cbn [umem set_umem].
  assert (Hm1 : forall a, a + 4 <= bp \/ bp + 8 <= a -> load32 m1 a = load32 m a).
  { intros a Ha. unfold m1. destruct joins_next; rewrite !load32_store32_ne by lia; done. }
  assert (Hptr : is_u32 b_ptr).
  { unfold b_ptr. destruct joins_next; [apply load32_range|]. unfold is_u32. destruct next_node as [->|(k & _ & _ & R1 & R2 & R3)]; [destruct (hp_base _ _ Hh); lia|lia]. }
  assert (Hm1b : load32 m1 bp = b_ptr /\ load32 m1 (bp + 4) = b_size).
  { unfold m1. destruct joins_next eqn:EJ; rewrite load32_store32_eq, load32_store32_ne by lia.
    - rewrite load32_store32_eq, !u32_small by (done || unfold is_u32; lia). done.
    - rewrite u32_small by done. split; [done|]. unfold b_size. by rewrite EJ. }
  rewrite (Hm1 (p + 4)) by lia. rewrite (u32_small (p + _)) by (unfold is_u32; lia).
  assert (Hk1 : forall x, ~ (bp <= x < bp + 8) -> load8 m1 x = load8 m x) by (intros x Hx; unfold m1; destruct joins_next; rewrite !load8_store32_ne by lia; done).
  destruct (Z.eqb_spec (p + 8 * load32 m (p + 4)) bp) as [EP|EP].
  - rewrite bind_assoc, bind_gets, bind_assoc, bind_modify, bind_assoc, bind_gets, bind_modify. cbn [umem set_umem].
    rewrite load32_store32_ne by lia. rewrite (proj1 Hm1b), (proj2 Hm1b). eexists. split; [reflexivity|]. cbn [umem set_umem]. split.
    + intros x Hx1 Hx2. rewrite !load8_store32_ne by lia. by apply Hk1.
    + rewrite load32_store32_eq, load32_store32_ne, load32_store32_eq by lia.
      rewrite (u32_small b_ptr) by done. rewrite (u32_small (_ + b_size)), u32_small by (unfold is_u32; lia). done.
  - rewrite bind_modify. eexists. split; [reflexivity|]. cbn [umem set_umem]. split.
    + intros x Hx1 Hx2. rewrite load8_store32_ne by lia. by apply Hk1.
    + rewrite load32_store32_eq, !load32_store32_ne by lia. rewrite (Hm1 (p + 4)) by lia. rewrite u32_small by (unfold is_u32; lia). tauto.
Qed.

(** *** The tiling after it *)

Lemma free_coalesced : coalesced T1 /\ coalesced T2.
Proof using Hh.
  pose proof (hp_coalesced _ _ Hh) as Hc. apply coalesced_app in Hc as (C1 & C2 & _). split; [done|].
  by apply (coalesced_app [(n, false)] T2) in C2 as (_ & C2 & _).
Qed.

(** The part after the block. *)
Lemma free_right : exists w Tb, b_size = w /\ b_ptr = hd base ((frees (bp + 8 * w) Tb).*1) /\ n + uns T2 = w + uns Tb /\ 1 <= w /\
  pos Tb /\ coalesced Tb /\ ~ starts_free Tb /\ useds (bp + 8 * w) Tb = useds (bp + 8 * n) T2 /\
  (forall f a k, (a, k) ∈ blocks_at f (bp + 8 * w) Tb -> (a, k) ∈ blocks_at f (bp + 8 * n) T2) /\
  linked m ((frees (bp + 8 * w) Tb).*1) base /\ (length (frees (bp + 8 * w) Tb) <= length (frees (bp + 8 * n) T2))%nat.
Proof using Hh.
  destruct free_pos as (P1 & Pn & P2), free_coalesced as [_ C2], free_linked as [_ K2]. destruct (hp_base _ _ Hh). destruct bp_range as (B1 & _).
  unfold b_size, b_ptr, joins_next. destruct (decide (starts_free T2)) as [[j Hj]|Hn].
  - destruct T2 as [|[j' g] Tb] eqn:E; [done|]. injection Hj as -> ->. assert (En : next = bp + 8 * n) by (unfold next, F2; done).
    rewrite En, Z.eqb_refl. exists (n + j), Tb. apply Forall_cons in P2 as [Pj P2]. cbn [fst] in Pj.
    assert (Hj4 : load32 m (bp + 8 * n + 4) = j).
    { apply (hp_size _ _ Hh true). rewrite blocks_app. apply elem_of_app. right. cbn. left. }
    apply (coalesced_app [(j, true)] Tb) in C2 as (_ & C2 & C3). unfold F2 in K2. cbn [blocks_at eqb app fmap list_fmap fst linked] in K2.
    replace (bp + 8 * (n + j)) with (bp + 8 * n + 8 * j) by lia. split_and!; try done; try lia.
    + apply K2.
    + cbn. lia.
    + intros Hs. apply C3. split; [by exists j|done].
    + intros f a k Hin. cbn. apply elem_of_app. by right.
    + apply K2.
    + cbn. lia.
  - assert (Hne : bp + 8 * n <> next).
    { unfold next, F2. destruct T2 as [|[j g] Tb] eqn:E; [cbn; lia|]. destruct g; [destruct Hn; by exists j|]. cbn [blocks_at eqb app].
      apply Forall_cons in P2 as [Pj P2]. cbn [fst] in Pj. destruct (frees (bp + 8 * n + 8 * j) Tb) as [|[a k] F] eqn:EF; [cbn; lia|].
      assert (Hin : (a, k) ∈ frees (bp + 8 * n + 8 * j) Tb) by (rewrite EF; left). destruct (blocks_range _ _ _ _ _ P2 Hin). cbn. lia. }
    rewrite (proj2 (Z.eqb_neq _ _) Hne). exists n, T2. by split_and!.
Qed.

(** The part before it. *)
Lemma free_left X p m' : base :: F1 = X ++ [p] ->
  (forall x, ~ (bp <= x < bp + 8) -> ~ (p <= x < p + 8) -> load8 m' x = load8 m x) ->
  (if p + 8 * load32 m (p + 4) =? bp then load32 m' p = b_ptr /\ load32 m' (p + 4) = load32 m (p + 4) + b_size
   else load32 m' p = bp /\ load32 m' (p + 4) = load32 m (p + 4) /\ load32 m' bp = b_ptr /\ load32 m' (bp + 4) = b_size) ->
  exists v Ta, let q := lo + 8 * uns Ta in uns T1 = uns Ta + v /\ 0 <= v /\ load32 m' q = b_ptr /\ load32 m' (q + 4) = v + b_size /\
    linked m' (base :: (frees lo Ta).*1) q /\ pos Ta /\ coalesced Ta /\ ~ ends_free Ta /\ useds lo Ta = useds lo T1 /\
    load32 m' (base + 4) = 0 /\ p ∈ base :: (frees lo Ta).*1 ++ [q] /\
    (forall f a k, (a, k) ∈ blocks_at f lo Ta -> load32 m' (a + 4) = k) /\ (length (frees lo Ta) <= length (frees lo T1))%nat.
Proof using Hh.
  intros EX Hk Hm. destruct free_pos as (P1 & Pn & P2), free_coalesced as [C1 _], free_linked as [K1 _]. destruct (hp_base _ _ Hh) as [_ Hb].
  destruct (pred_node X p EX) as (Hp & _ & Hp1 & _). destruct bp_range as (B1 & _).
  assert (Hfr : forall a, ~ (a < bp + 8 /\ bp < a + 4) -> ~ (a < p + 8 /\ p < a + 4) -> load32 m' a = load32 m a).
  { intros a Ha1 Ha2. apply load32_ext. intros x Hx. apply Hk; lia. }
  assert (Hblk : forall Ta U, T1 = Ta ++ U -> forall f a k, (a, k) ∈ blocks_at f lo Ta ->
    load32 m (a + 4) = k /\ a + 8 * k <= bp /\ lo <= a /\ 1 <= k /\ (p = a \/ p + 8 <= a \/ a + 8 * k <= p)).
  { intros Ta U E f a k Hin. assert (Hin1 : (a, k) ∈ blocks_at f lo T1) by (rewrite E, blocks_app; apply elem_of_app; by left).
    assert (Hin' : (a, k) ∈ blocks_at f lo (T1 ++ (n, false) :: T2)) by (rewrite blocks_app; apply elem_of_app; by left).
    destruct (blocks_range _ _ _ _ _ P1 Hin1). split; [by apply (hp_size _ _ Hh f)|]. split_and!; [unfold bp; lia|lia|lia|].
    apply (node_apart s _ f a k p Hh Hin' Hp). }
  assert (Hbase : load32 m' (base + 4) = 0).
  { assert (E0 : load32 m (base + 4) = 0) by apply Hh. destruct (decide (p = base)) as [->|Hne].
    - rewrite E0, Z.mul_0_r, Z.add_0_r in Hm. rewrite (proj2 (Z.eqb_neq base bp)) in Hm by lia. lia.
    - rewrite Hfr; [done|lia|]. destruct (nodes_apart s _ p base Hh Hp ltac:(left)); lia. }
  destruct (decide (ends_free T1)) as [[k Hl]|Hn].
  - apply last_Some in Hl as (Ta & E). unfold F1 in *. rewrite E, blocks_app, fmap_app in EX, K1. cbn [blocks_at eqb app fmap list_fmap fst] in EX, K1.
    change (base :: (frees lo Ta).*1 ++ [lo + 8 * uns Ta]) with ((base :: (frees lo Ta).*1) ++ [lo + 8 * uns Ta]) in EX, K1.
    apply app_inj_tail in EX as [_ Ep]. symmetry in Ep. subst p. set (q := lo + 8 * uns Ta) in *.
    assert (Hin : (q, k) ∈ frees lo T1) by (rewrite E, blocks_app; apply elem_of_app; right; left).
    destruct (Hblk T1 [] ltac:(by rewrite app_nil_r) true q k Hin) as (Hs & _).
    assert (Hbq : bp = q + 8 * k) by (unfold bp, q; rewrite E, uns_app; cbn; lia).
    rewrite Hs, (proj2 (Z.eqb_eq _ _)) in Hm by lia. destruct Hm as [M1 M2].
    assert (PT : pos Ta /\ 1 <= k) by (rewrite E in P1; unfold pos in *; apply Forall_app in P1 as [? [? ?]%Forall_cons]; done). destruct PT as [Pa Pk].
    assert (Hq : lo <= q) by (pose proof (uns_pos _ Pa); unfold q; lia).
    rewrite E in C1. apply coalesced_app in C1 as (C1 & _ & C3). exists k, Ta. fold q. split_and!; try done; try lia.
    + apply linked_app in K1 as [K1 _]. eapply linked_ext; [|exact K1]. intros a Ha. apply Hfr.
      * apply elem_of_cons in Ha as [->|Ha]; [lia|]. apply elem_frees in Ha as (j & Hj). destruct (Hblk Ta _ E true a j Hj). lia.
      * apply elem_of_cons in Ha as [->|Ha]; [lia|]. apply elem_frees in Ha as (j & Hj). destruct (blocks_range _ _ _ _ _ Pa Hj). unfold q. lia.
    + intros Ha. apply C3. split; [done|by exists k].
    + rewrite E, blocks_app. cbn. by rewrite app_nil_r.
    + right. apply elem_of_app. right. left.
    + intros f a j Hj. destruct (Hblk Ta _ E f a j Hj) as (<- & R). apply Hfr; [lia|]. destruct (blocks_range _ _ _ _ _ Pa Hj). unfold q. lia.
    + rewrite E, blocks_app, length_app. lia.
  - assert (Hne : p + 8 * load32 m (p + 4) <> bp).
    { intros Ebp. assert (Hp' : p ∈ base :: F1) by (rewrite EX; apply elem_of_app; right; left). apply elem_of_cons in Hp' as [->|Hp'].
      - unfold m in Ebp. rewrite (hp_bsize _ _ Hh) in Ebp. lia.
      - apply elem_frees in Hp' as (j & Hj). destruct (Hblk T1 [] ltac:(by rewrite app_nil_r) true p j Hj) as (Es & _). rewrite Es in Ebp.
        apply blocks_split in Hj as (Ta & U & E & Epa). unfold bp in Ebp. rewrite E, uns_app in Ebp. cbn in Ebp.
        assert (PU : pos U) by (rewrite E in P1; unfold pos in *; by apply Forall_app in P1 as [_ [_ ?]%Forall_cons]).
        destruct U as [|[w g] U]; [apply Hn; exists j; by rewrite E, last_snoc|]. apply Forall_cons in PU as [Pw PU]. pose proof (uns_pos _ PU). cbn in *. lia. }
    rewrite (proj2 (Z.eqb_neq _ _) Hne) in Hm. destruct Hm as (M1 & M2 & M3 & M4). exists 0, T1. fold bp. fold F1. split_and!; try done; try lia.
    + rewrite EX in K1 |- *. apply linked_app in K1 as [K1 _]. apply linked_app. split; [|split; [exact M1|done]].
      eapply linked_ext; [|exact K1]. intros a Ha.
      assert (Ha' : a ∈ nodes (T1 ++ (n, false) :: T2)) by (rewrite free_nodes; change (base :: F1 ++ F2) with ((base :: F1) ++ F2); rewrite EX; apply elem_of_app; left; apply elem_of_app; by left).
      assert (Hap : a <> p).
      { intros ->. pose proof (nodes_nodup _ (hp_pos _ _ Hh) Hb) as Hnd. rewrite free_nodes in Hnd. change (base :: F1 ++ F2) with ((base :: F1) ++ F2) in Hnd.
        rewrite EX in Hnd. apply NoDup_app in Hnd as [Hnd _]. apply NoDup_app in Hnd as (_ & Hnd & _). apply (Hnd p Ha). left. }
      assert (Ha1 : a < bp) by (destruct free_lt as [L1 _]; rewrite EX in L1; apply Forall_app in L1 as [L1 _]; rewrite Forall_forall in L1; by apply (L1 a)).
      destruct (node_apart s _ false bp n a Hh free_used Ha'); destruct (nodes_apart s _ a p Hh Ha' Hp); apply Hfr; lia.
    + change (base :: F1 ++ [bp]) with ((base :: F1) ++ [bp]). rewrite EX. apply elem_of_app. left. apply elem_of_app. right. left.
    + intros f a j Hj. destruct (Hblk T1 [] ltac:(by rewrite app_nil_r) f a j Hj) as (Ej & R1 & R2 & R3 & R4). destruct R4 as [->|R4]; [congruence|]. rewrite Hfr; [done|lia|lia].
Qed.

Lemma free_spec fuel : (2 + length (frees lo (T1 ++ (n, false) :: T2)) <= fuel)%nat ->
  exists s' T', free fuel (bp + 8) s = Ok tt s' /\ heap s' T' /\ brk s' = brk s /\
    useds lo T' = useds lo T1 ++ useds (bp + 8 * n) T2 /\ kept (useds lo T1 ++ useds (bp + 8 * n) T2) (umem s) (umem s') /\
    (length (frees lo T') <= S (length (frees lo (T1 ++ (n, false) :: T2))))%nat /\ exists a k, (a, k) ∈ frees lo T' /\ n <= k.
Proof using Hh.
  intros Hf. destruct (free_find_spec fuel Hf) as (X & p & EX & Ef). destruct (free_run fuel X p EX Ef) as (m' & Er & Hk & Hm).
  destruct (free_left X p m' EX Hk Hm) as (v & Ta & L1 & L2 & L3 & L4 & L5 & L6 & L7 & L8 & L9 & L10 & L11 & L12 & L13).
  destruct free_right as (w & Tb & R1 & R2 & R3 & R4 & R5 & R6 & R7 & R8 & R9 & R10 & R11). set (q := lo + 8 * uns Ta) in *.
  destruct (pred_node X p EX) as (Hp & _ & Hp1 & _). destruct bp_range as (B1 & _). destruct free_pos as (_ & Pn & P2).
  assert (Eq : q + 8 * (v + w) = bp + 8 * w) by (unfold q, bp; lia).
  assert (Hbs : forall f, blocks_at f lo (Ta ++ (v + w, true) :: Tb) = blocks_at f lo Ta ++ (if f then [(q, v + w)] else []) ++ blocks_at f (bp + 8 * w) Tb).
  { intros f. rewrite blocks_app. cbn [blocks_at]. fold q. rewrite Eq. by destruct f. }
  assert (Hr : forall f a k, (a, k) ∈ blocks_at f (bp + 8 * w) Tb -> bp + 8 * n <= a /\ load32 m (a + 4) = k).
  { intros f a k Hin%R9. destruct (blocks_range _ _ _ _ _ P2 Hin). split; [lia|]. apply (hp_size _ _ Hh f). rewrite blocks_app. apply elem_of_app. right.
    cbn. apply elem_of_app. by right. }
  assert (Hsame : forall a, bp + 8 * n <= a -> load32 m' a = load32 m a) by (intros a Ha; apply load32_ext; intros x Hx; apply Hk; lia).
  exists (mk_ust m' p (brk s)), (Ta ++ (v + w, true) :: Tb). split; [exact Er|]. split; [|split; [done|split; [|split; [|split]]]].
  - split; cbn [umem freep brk].
    + apply Hh.
    + rewrite (hp_brk _ _ Hh), !uns_app. cbn. lia.
    + apply Hh.
    + apply Forall_app. split; [done|]. constructor; [cbn; lia|done].
    + apply coalesced_app. split; [done|]. split; [|intros [? _]; done].
      apply (coalesced_app [(v + w, true)] Tb). split_and!; [|done|intros [_ ?]; done]. intros [|i] x y H1 H2; [done|]. by destruct i.
    + unfold nodes. rewrite Hbs, !fmap_app. cbn [fmap list_fmap fst app].
      change (linked m' ((base :: (frees lo Ta).*1) ++ q :: (frees (bp + 8 * w) Tb).*1) base). apply linked_app. split; [exact L5|].
      split; [by rewrite L3, R2|]. eapply linked_ext; [|exact R10]. intros a Ha. apply list_elem_of_fmap in Ha as ([a' k] & -> & Ha).
      apply Hsame. by destruct (Hr true a' k Ha).
    + exact L10.
    + intros f a k. rewrite Hbs, !elem_of_app. intros [Hin|[Hin|Hin]].
      * by apply (L12 f).
      * destruct f; [|by apply elem_of_nil in Hin]. apply list_elem_of_singleton in Hin. injection Hin as -> ->. by rewrite L4, R1.
      * destruct (Hr f a k Hin) as [Ha <-]. apply Hsame. lia.
    + unfold nodes. rewrite Hbs, !fmap_app. cbn [fmap list_fmap fst app]. set_solver.
  - rewrite Hbs, L9, R8. done.
  - intros a k Ha x Hx. assert (Ha' : (a, k) ∈ useds lo (T1 ++ (n, false) :: T2)).
    { rewrite blocks_app. apply elem_of_app in Ha as [Ha|Ha]; apply elem_of_app; [by left|right]. cbn. right. exact Ha. }
    apply Hk; [|destruct (node_used s _ a k p Hh Ha' Hp); lia]. apply elem_of_app in Ha as [Ha|Ha].
    + destruct (blocks_range _ _ _ _ _ (proj1 free_pos) Ha). unfold bp. lia.
    + destruct (blocks_range _ _ _ _ _ P2 Ha). lia.
  - rewrite Hbs, blocks_app, !length_app. cbn. fold bp. lia.
  - exists q, (v + w). rewrite Hbs. split; [apply elem_of_app; right; left|]. unfold b_size in R1. destruct joins_next; [|lia].
    destruct free_pos as (_ & _ & P2'). pose proof (load32_range m (next + 4)) as Hu. unfold is_u32 in Hu. lia.
Qed.
End Free.

(** ** malloc: taking a block *)

(** What [malloc] does with a block that is large enough. *)
Definition take_from (u prevp p : Z) : M ust Z :=
  size ← s_size p;
  r ← (if size =? u then
         next ← s_ptr p;
         set_ptr prevp next ;;
         mret p
       else
         set_size p (u32 (size - u)) ;;
         size' ← s_size p;
         let p := hadd p size' in
         set_size p u ;;
         mret p);
  modify (set_freep prevp) ;;
  mret (hadd r 1).

Section Take.
Context (s : ust) (T1 T2 : layout) (k u q : Z).
Hypothesis (Hh : heap s (T1 ++ (k, true) :: T2)) (Hu : 1 <= u <= k).
Let p := lo + 8 * uns T1.
Hypothesis (Hq : q ∈ nodes (T1 ++ (k, true) :: T2)) (Hqp : load32 (umem s) q = p).
Let m := umem s.
Let F1 := (frees lo T1).*1.
Let F2 := (frees (p + 8 * k) T2).*1.

Lemma take_pos : pos T1 /\ 1 <= k /\ pos T2.
Proof using Hh. pose proof (hp_pos _ _ Hh) as Hp. unfold pos in *. apply Forall_app in Hp as [? [? ?]%Forall_cons]. done. Qed.
Lemma take_free : (p, k) ∈ frees lo (T1 ++ (k, true) :: T2).
Proof using. rewrite blocks_app. apply elem_of_app. right. left. Qed.
Lemma take_nodes : nodes (T1 ++ (k, true) :: T2) = base :: F1 ++ p :: F2.
Proof using. unfold nodes. by rewrite blocks_app, fmap_app. Qed.
Lemma take_range : lo <= p /\ p + 8 * k <= brk s /\ brk s < 4294967296 /\ 0 < base /\ base + 8 <= lo.
Proof using Hh.
  destruct take_pos as (P1 & Pk & P2). pose proof (uns_pos _ P1). pose proof (uns_pos _ P2). pose proof (hp_top _ _ Hh). destruct (hp_base _ _ Hh).
  rewrite (hp_brk _ _ Hh), uns_app in *. cbn [uns fst] in *. unfold p. lia.
Qed.
(** The one before it in the ring. *)
Lemma take_prev : exists X, base :: F1 = X ++ [q].
Proof using Hh Hq Hqp.
  destruct take_range as (R1 & _ & _ & _ & R5). pose proof (nodes_nodup _ (hp_pos _ _ Hh) R5) as Hnd.
  destruct (linked_pred m (nodes (T1 ++ (k, true) :: T2)) base q p (hp_ring _ _ Hh) Hnd Hq Hqp) as (X & Y & E).
  - rewrite take_nodes. right. apply elem_of_app. right. left.
  - cbn. lia.
  - done.
  - exists X. rewrite take_nodes in E, Hnd. change (base :: F1 ++ p :: F2) with ((base :: F1) ++ p :: F2) in E, Hnd.
    replace (X ++ q :: p :: Y) with ((X ++ [q]) ++ p :: Y) in E by (rewrite <- app_assoc; done).
    assert (Hn1 : p ∉ base :: F1) by (intros Hin; apply NoDup_app in Hnd as (_ & Hnd & _); apply (Hnd p Hin); left).
    assert (Hn2 : p ∉ X ++ [q]).
    { intros Hin. rewrite E in Hnd. apply NoDup_app in Hnd as (_ & Hnd & _). apply (Hnd p Hin). left. }
    clear -E Hn1 Hn2. revert E Hn1 Hn2. generalize (base :: F1) (X ++ [q]). induction l as [|x l IH]; intros [|y l'] E Hn1 Hn2; cbn in E.
    + done.
    + injection E as -> _. destruct Hn2. left.
    + injection E as -> _. destruct Hn1. left.
    + injection E as -> E. f_equal. apply IH; [done|set_solver..].
Qed.

(** The rest of the tiling. *)
Lemma take_other f a j : (a, j) ∈ blocks_at f lo T1 \/ (a, j) ∈ blocks_at f (p + 8 * k) T2 -> load32 m (a + 4) = j /\ (a + 8 <= p \/ p + 8 * k <= a).
Proof using Hh.
  destruct take_pos as (P1 & Pk & P2). intros Hin. split.
  - apply (hp_size _ _ Hh f). rewrite blocks_app. apply elem_of_app. destruct Hin as [?|?]; [by left|right]. cbn. apply elem_of_app. by right.
  - destruct Hin as [Hin|Hin]; [destruct (blocks_range _ _ _ _ _ P1 Hin)|destruct (blocks_range _ _ _ _ _ P2 Hin)]; unfold p in *; lia.
Qed.
Lemma take_coalesced : coalesced T1 /\ ~ ends_free T1 /\ coalesced T2 /\ ~ starts_free T2.
Proof using Hh.
  pose proof (hp_coalesced _ _ Hh) as Hc. apply coalesced_app in Hc as (C1 & C2 & C3).
  apply (coalesced_app [(k, true)] T2) in C2 as (_ & C2 & C4). split_and!; [done| |done|].
  - intros He. apply C3. split; [done|by exists k].
  - intros Hs. apply C4. split; [by exists k|done].
Qed.

(** The whole block is taken. *)
Lemma take_whole : u = k -> exists s', take_from u q p s = Ok (p + 8) s' /\ heap s' (T1 ++ (k, false) :: T2) /\ brk s' = brk s /\
  kept (useds lo (T1 ++ (k, true) :: T2)) (umem s) (umem s').
Proof using All.
  intros E. destruct take_range as (R1 & R2 & R3 & R4 & R5), take_pos as (P1 & Pk & P2), take_coalesced as (C1 & C2 & C3 & C4), take_prev as [X EX].
  assert (Hpk : load32 (umem s) (p + 4) = k) by (apply (hp_size _ _ Hh true), take_free).
  assert (Hqr : 0 < q /\ q + 8 <= p).
  { assert (Hin : q ∈ base :: F1) by (rewrite EX; apply elem_of_app; right; left). apply elem_of_cons in Hin as [->|Hin]; [lia|].
    apply elem_frees in Hin as (j & Hj). destruct (blocks_range _ _ _ _ _ P1 Hj). destruct (take_other true q j); [by left|lia]. }
  pose proof (hp_ring _ _ Hh) as K. rewrite take_nodes in K. change (base :: F1 ++ p :: F2) with ((base :: F1) ++ p :: F2) in K.
  rewrite EX in K. apply linked_app in K as [K1 [Kp K2]]. apply linked_app in K1 as [K1 _].
  unfold take_from, s_size, s_ptr, set_ptr. rewrite bind_gets, Hpk, (proj2 (Z.eqb_eq _ _)) by lia.
  rewrite bind_assoc, bind_gets, bind_assoc, bind_modify, bind_ret, bind_modify. unfold hadd, hdr. rewrite u32_small by (unfold is_u32; lia).
  eexists. split; [by rewrite Z.mul_1_r|]. fold m in Kp, K1, K2 |- *. rewrite Kp. set (m' := store32 m q (hd base F2)).
  assert (Hm : forall a, a + 4 <= q \/ q + 4 <= a -> load32 m' a = load32 m a) by (intros a Ha; by apply load32_store32_ne).
  assert (En : nodes (T1 ++ (k, false) :: T2) = (X ++ [q]) ++ F2) by (unfold nodes; rewrite blocks_app, fmap_app; cbn [blocks_at eqb app]; fold F1 p F2; by rewrite <- EX).
  assert (Hnode : forall a, a ∈ X ++ [q] ++ F2 -> a ∈ nodes (T1 ++ (k, true) :: T2)).
  { intros a Ha. rewrite take_nodes. change (base :: F1 ++ p :: F2) with ((base :: F1) ++ p :: F2). rewrite EX. set_solver. }
  assert (Hnd : NoDup (nodes (T1 ++ (k, true) :: T2))) by (apply (nodes_nodup _ (hp_pos _ _ Hh)); lia).
  rewrite take_nodes in Hnd. change (base :: F1 ++ p :: F2) with ((base :: F1) ++ p :: F2) in Hnd. rewrite EX, <- app_assoc in Hnd.
  apply NoDup_app in Hnd as (_ & Hnx & Hnq). apply NoDup_cons in Hnq as [Hnq _].
  assert (Hap : forall a, a ∈ X \/ a ∈ F2 -> load32 m' a = load32 m a).
  { intros a Ha. apply Hm. destruct (nodes_apart s _ a q Hh) as [->|]; [apply Hnode; set_solver|done| |lia]. destruct Ha as [Ha|Ha]; [by destruct (Hnx q Ha); left|destruct Hnq; by right]. }
  split; [|split; [done|]].
  - split; cbn [umem freep brk set_umem set_freep].
    + done.
    + rewrite (hp_brk _ _ Hh), !uns_app. done.
    + done.
    + apply Forall_app. split; [done|]. by constructor.
    + apply coalesced_app. split; [done|]. split; [|intros [? _]; done]. apply (coalesced_app [(k, false)] T2). split_and!; [|done|intros [[j ?] _]; done].
      intros [|i] x y H1 H2; [done|]. by destruct i.
    + rewrite En. apply linked_app. split; [apply linked_app; split|].
      * eapply linked_ext; [|exact K1]. intros a Ha. apply Hap. by left.
      * split; [|done]. unfold m'. rewrite load32_store32_eq, u32_small; [done|]. rewrite <- Kp. apply load32_range.
      * eapply linked_ext; [|exact K2]. intros a Ha. apply Hap. by right.
    + rewrite Hm; [apply Hh|]. destruct (nodes_apart s _ base q Hh ltac:(left) Hq); lia.
    + intros f a j Hin. rewrite blocks_app in Hin. apply elem_of_app in Hin as [Hin|Hin]; [|cbn in Hin; apply elem_of_app in Hin as [Hin|Hin]].
      * destruct (blocks_range _ _ _ _ _ P1 Hin) as (_ & _ & Hj). assert (Hin' : (a, j) ∈ blocks_at f lo (T1 ++ (k, true) :: T2)) by (rewrite blocks_app; apply elem_of_app; by left).
        rewrite Hm; [by apply (hp_size _ _ Hh f)|]. destruct (node_apart s _ f a j q Hh Hin' Hq); lia.
      * destruct f; [by apply elem_of_nil in Hin|]. apply list_elem_of_singleton in Hin. injection Hin as -> ->. fold p. rewrite Hm by lia. done.
      * destruct (blocks_range _ _ _ _ _ P2 Hin). destruct (take_other f a j (or_intror Hin)) as [<- _]. apply Hm. lia.
    + rewrite En. set_solver.
  - intros a j Ha x Hx. apply load8_store32_ne. destruct (node_used s _ a j q Hh Ha Hq); lia.
Qed.

(** The end of the block is taken. *)
Lemma take_part : u < k -> exists s', take_from u q p s = Ok (p + 8 * (k - u) + 8) s' /\ heap s' (T1 ++ (k - u, true) :: (u, false) :: T2) /\
  brk s' = brk s /\ kept (useds lo (T1 ++ (k, true) :: T2)) (umem s) (umem s').
Proof using All.
  intros Hlt. destruct take_range as (R1 & R2 & R3 & R4 & R5), take_pos as (P1 & Pk & P2), take_coalesced as (C1 & C2 & C3 & C4).
  assert (Hpk : load32 (umem s) (p + 4) = k) by (apply (hp_size _ _ Hh true), take_free).
  unfold take_from, s_size, set_size. rewrite bind_gets, Hpk, (proj2 (Z.eqb_neq _ _)) by lia.
  rewrite bind_assoc, bind_modify, bind_assoc, bind_gets. cbn [umem set_umem]. rewrite load32_store32_eq, !(u32_small (k - u)) by (unfold is_u32; lia).
  rewrite bind_assoc, bind_modify, bind_ret, bind_modify. unfold hadd, hdr. rewrite !(u32_small (p + 8 * (k - u))), u32_small by (unfold is_u32; lia).
  set (r := p + 8 * (k - u)). eexists. split; [by rewrite Z.mul_1_r|]. cbn [umem set_umem set_freep]. fold m.
  set (m' := store32 (store32 m (p + 4) (k - u)) (r + 4) u).
  assert (Hm : forall a, a + 4 <= p + 4 \/ p + 8 * k <= a -> load32 m' a = load32 m a).
  { intros a Ha. unfold m', r. rewrite !load32_store32_ne by lia. done. }
  assert (Eb : forall f, blocks_at f lo (T1 ++ (k - u, true) :: (u, false) :: T2) =
    blocks_at f lo T1 ++ (if f then [(p, k - u)] else [(r, u)]) ++ blocks_at f (p + 8 * k) T2).
  { intros f. rewrite blocks_app. cbn [blocks_at]. fold p. replace (p + 8 * (k - u) + 8 * u) with (p + 8 * k) by lia. by destruct f. }
  split; [|split; [done|]].
  - split; cbn [umem freep brk set_umem set_freep].
    + done.
    + rewrite (hp_brk _ _ Hh), !uns_app. cbn. lia.
    + done.
    + apply Forall_app. split; [done|]. constructor; [cbn; lia|]. constructor; [cbn; lia|done].
    + apply coalesced_app. split; [done|]. split; [|intros [? _]; done].
      apply (coalesced_app [(k - u, true); (u, false)] T2). split_and!; [|done|intros [[j ?] _]; done].
      intros [|[|i]] x y H1 H2; [done|done|]. by destruct i.
    + assert (En : nodes (T1 ++ (k - u, true) :: (u, false) :: T2) = nodes (T1 ++ (k, true) :: T2)) by (rewrite take_nodes; unfold nodes; rewrite Eb, !fmap_app; done).
      rewrite En. eapply linked_ext; [|exact (hp_ring _ _ Hh)]. intros a Ha. fold m. apply Hm.
      destruct (node_apart s _ true p k a Hh take_free Ha); lia.
    + rewrite Hm by lia. apply Hh.
    + intros f a j. rewrite Eb, !elem_of_app. intros [Hin|[Hin|Hin]].
      * destruct (take_other f a j (or_introl Hin)) as [<- ?]. destruct (blocks_range _ _ _ _ _ P1 Hin). apply Hm. unfold p in *. lia.
      * destruct f; apply list_elem_of_singleton in Hin; injection Hin as -> ->; unfold m'.
        -- rewrite load32_store32_ne, load32_store32_eq, u32_small by (unfold r, is_u32; lia). done.
        -- rewrite load32_store32_eq, u32_small by (unfold is_u32; lia). done.
      * destruct (blocks_range _ _ _ _ _ P2 Hin). destruct (take_other f a j (or_intror Hin)) as [<- _]. apply Hm. lia.
    + rewrite take_nodes in Hq. unfold nodes. rewrite Eb, !fmap_app. exact Hq.
  - intros a j Ha x Hx. unfold m', r. destruct (blocks_apart _ _ _ _ _ _ _ _ (hp_pos _ _ Hh) Ha take_free) as [[? _]|?]; [done|].
    rewrite !load8_store32_ne by lia. done.
Qed.

Lemma take_spec : exists r s' T', take_from u q p s = Ok (r + 8) s' /\ heap s' T' /\ brk s' = brk s /\ p <= r /\ r + 8 * u <= p + 8 * k /\
  useds lo T' ≡ₚ (r, u) :: useds lo (T1 ++ (k, true) :: T2) /\ kept (useds lo (T1 ++ (k, true) :: T2)) (umem s) (umem s').
Proof using All.
  destruct take_range as (R1 & _). destruct (decide (u = k)) as [E|Hne].
  - destruct (take_whole E) as (s' & Et & H' & Eb & K). exists p, s', (T1 ++ (k, false) :: T2). split_and!; try done; try lia.
    rewrite !blocks_app. cbn [blocks_at eqb app]. fold p. rewrite E. by rewrite Permutation_middle.
  - destruct (take_part ltac:(lia)) as (s' & Et & H' & Eb & K). exists (p + 8 * (k - u)), s', (T1 ++ (k - u, true) :: (u, false) :: T2). split_and!; try done; [lia..|].
    rewrite !blocks_app. cbn [blocks_at eqb app]. fold p. replace (p + 8 * (k - u) + 8 * u) with (p + 8 * k) by lia. by rewrite Permutation_middle.
Qed.
End Take.

(** ** malloc: the search *)

(** What the loop does at [freep] when nothing was large enough. *)
Definition more (fuel : nat) (u : Z) : M ust Z :=
  p ← morecore (S fuel) u;
  if p =? 0 then mret 0 else
  next ← s_ptr p;
  malloc_loop fuel u p next.

Lemma malloc_loop_fit fuel u prevp p s : u <= load32 (umem s) (p + 4) -> malloc_loop fuel u prevp p s = take_from u prevp p s.
Proof using.
  intros Hu. unfold take_from, s_size. destruct fuel; cbn [malloc_loop]; unfold s_size; rewrite !bind_gets; by rewrite (proj2 (Z.leb_le _ _)).
Qed.
Lemma malloc_loop_next fuel u prevp p s : load32 (umem s) (p + 4) < u ->
  malloc_loop (S fuel) u prevp p s = if p =? freep s then more fuel u s else malloc_loop fuel u p (load32 (umem s) p) s.
Proof using.
  intros Hu. cbn [malloc_loop]. unfold s_size, s_ptr. rewrite bind_gets, (proj2 (Z.leb_gt _ _)), bind_gets by done. by destruct (p =? freep s).
Qed.

(** Along the ring up to [freep]: the first block that fits is taken, or none fits. *)
Lemma scan u s R : forall prevp z fuel, linked (umem s) (prevp :: R) z -> last R = Some (freep s) -> NoDup R -> (length R <= fuel)%nat ->
  (exists q p, q ∈ prevp :: R /\ p ∈ R /\ load32 (umem s) q = p /\ u <= load32 (umem s) (p + 4) /\
     malloc_loop fuel u prevp (load32 (umem s) prevp) s = take_from u q p s) \/
  (Forall (fun p => load32 (umem s) (p + 4) < u) R /\ malloc_loop fuel u prevp (load32 (umem s) prevp) s = more (fuel - length R) u s).
Proof using.
  induction R as [|p R IH]; intros prevp z fuel [E HL] Hlast Hnd Hf; [done|]. cbn in E. rewrite E.
  apply NoDup_cons in Hnd as [Hn Hnd]. cbn [length] in Hf. destruct fuel as [|fuel]; [lia|].
  destruct (decide (u <= load32 (umem s) (p + 4))) as [Hfit|Hno].
  - left. exists prevp, p. split_and!; [left|left|done|done|by apply malloc_loop_fit].
  - rewrite malloc_loop_next by lia. destruct R as [|p' R'].
    + injection Hlast as ->. rewrite Z.eqb_refl. right. split; [constructor; [lia|done]|]. cbn. by rewrite Nat.sub_0_r.
    + assert (Hne : p <> freep s).
      { intros ->. apply Hn. rewrite last_cons_cons in Hlast. apply last_Some in Hlast as (l' & ->). apply elem_of_app. right. left. }
      rewrite (proj2 (Z.eqb_neq _ _) Hne). rewrite last_cons_cons in Hlast.
      destruct (IH p z fuel HL Hlast Hnd ltac:(lia)) as [(q & p2 & Hq & Hp2 & E2 & Hu & Et)|[Hall Em]].
      * left. exists q, p2. split_and!; [by right|by right|done|done|done].
      * right. split; [constructor; [lia|done]|]. done.
Qed.

(** The ring seen from [freep]. *)
Lemma ring_from s T : heap s T -> exists R, linked (umem s) (freep s :: R) (load32 (umem s) (freep s)) /\ last R = Some (freep s) /\ R ≡ₚ nodes T.
Proof using.
  intros Hh. pose proof (hp_freep _ _ Hh) as Hf. pose proof (hp_ring _ _ Hh) as K. apply list_elem_of_split in Hf as (X & Y & E).
  assert (Hb : forall z, hd z (X ++ [freep s]) = base) by (intros z; unfold nodes in E; destruct X; cbn in *; congruence).
  rewrite E in K |- *. apply linked_app in K as [K1 K2]. exists (Y ++ X ++ [freep s]). split_and!.
  - change (freep s :: Y ++ X ++ [freep s]) with ((freep s :: Y) ++ X ++ [freep s]). apply linked_app. split; [by rewrite Hb|].
    apply linked_app. split; [exact K1|]. done.
  - by rewrite app_assoc, last_snoc.
  - by rewrite (Permutation_app_comm Y), <- app_assoc.
Qed.

(** A search that succeeds. *)
Lemma found_spec u s T q p : heap s T -> 1 <= u -> q ∈ nodes T -> p ∈ nodes T -> load32 (umem s) q = p -> u <= load32 (umem s) (p + 4) ->
  exists r s' T', take_from u q p s = Ok (r + 8) s' /\ heap s' T' /\ useds lo T' ≡ₚ (r, u) :: useds lo T /\ kept (useds lo T) (umem s) (umem s') /\
    lo <= r /\ forall b j, (b, j) ∈ useds lo T -> r + 8 * u <= b \/ b + 8 * j <= r.
Proof using.
  intros Hh Hu Hq Hp Hqp Hfit. destruct (node_size s T p Hh Hp) as [[_ E]|Hin]; [lia|]. set (k := load32 (umem s) (p + 4)) in *.
  pose proof (blocks_range _ _ _ _ _ (hp_pos _ _ Hh) Hin) as (Hr & _). pose proof Hin as Hin'.
  apply blocks_split in Hin as (T1 & T2 & -> & Ep). rewrite Ep in Hqp.
  destruct (take_spec s T1 T2 k u q Hh ltac:(lia) Hq Hqp) as (r & s' & T' & E & H' & _ & R1 & R2 & Pm & K). rewrite <- Ep in *.
  exists r, s', T'. split_and!; try done; [lia|]. intros b j Hb.
  destruct (blocks_apart _ _ _ _ _ _ _ _ (hp_pos _ _ Hh) Hb Hin') as [[? _]|?]; [done|lia].
Qed.
End Heap.

(** * malloc and free (user/umalloc.c): the theorems *)

(** What [sbrk] promises: it never grows a program beyond the address space. *)
Class ProcessOk (Pr : Process) : Prop := {
  grants_top : forall b n, grants b n = true -> b + n < 4294967296;
}.

Section Malloc.
Context {Pr : Process} {PrOk : ProcessOk Pr} (lo : Z).
Notation heap := (heap lo).

(** ** morecore *)

(** Units asked of [sbrk]. *)
Definition core (u : Z) : Z := Z.max u 4096.

(** New memory at the end, as a block in use. *)
Lemma heap_extend s T n : heap s T -> 1 <= n -> brk s + 8 * n < 4294967296 ->
  heap (set_umem (store32 (umem s) (brk s + 4) n) (set_brk (brk s + 8 * n) s)) (T ++ [(n, false)]).
Proof using.
  intros Hh Hn Htop. pose proof (hp_brk _ _ _ Hh) as Eb. pose proof (uns_pos _ (hp_pos _ _ _ Hh)) as Hu. destruct (hp_base _ _ _ Hh) as [Hb0 Hb].
  assert (En : nodes lo (T ++ [(n, false)]) = nodes lo T) by (unfold nodes; rewrite blocks_app; cbn; by rewrite app_nil_r).
  assert (Hbelow : forall f a k, (a, k) ∈ blocks_at f lo T -> a + 8 <= brk s).
  { intros f a k Hin. destruct (blocks_range _ _ _ _ _ (hp_pos _ _ _ Hh) Hin). lia. }
  split; cbn [umem freep brk set_umem set_brk].
  - done.
  - rewrite uns_app. cbn. lia.
  - done.
  - apply Forall_app. split; [apply Hh|]. by constructor.
  - apply coalesced_app. split_and!; [apply Hh| |intros [_ [k ?]]; done]. intros [|i] x y H1 H2; [done|]. by destruct i.
  - rewrite En. eapply linked_ext; [|exact (hp_ring _ _ _ Hh)]. intros a Ha. apply load32_store32_ne.
    apply elem_of_cons in Ha as [->|Ha]; [lia|]. apply elem_frees in Ha as (k & Hk). specialize (Hbelow true a k Hk). lia.
  - rewrite load32_store32_ne by lia. apply Hh.
  - intros f a k Hin. rewrite blocks_app in Hin. apply elem_of_app in Hin as [Hin|Hin].
    + specialize (Hbelow f a k Hin). rewrite load32_store32_ne by lia. by apply (hp_size _ _ _ Hh f).
    + destruct f; [by apply elem_of_nil in Hin|]. apply list_elem_of_singleton in Hin. injection Hin as -> ->.
      rewrite <- Eb, load32_store32_eq, u32_small; [done|]. unfold is_u32. lia.
  - rewrite En. apply Hh.
Qed.

Lemma frees_count f a T : (length (blocks_at f a T) <= length T)%nat.
Proof using. revert a. induction T as [|[n g] T IH]; intros a; [done|]. cbn. rewrite length_app. specialize (IH (a + 8 * n)). destruct (eqb f g); cbn; lia. Qed.

Lemma morecore_spec s T u fuel : heap s T -> 1 <= u < 268435456 -> (2 + length (frees lo T) <= fuel)%nat ->
  if grants (brk s) (8 * core u) then
    exists s' T', morecore fuel u s = Ok (freep s') s' /\ heap s' T' /\ useds lo T' = useds lo T /\ kept (useds lo T) (umem s) (umem s') /\
      (length (frees lo T') <= S (length (frees lo T)))%nat /\ exists a k, (a, k) ∈ frees lo T' /\ u <= k
  else morecore fuel u s = Ok 0 s.
Proof using PrOk.
  intros Hh Hu Hf. unfold morecore, sbrk, hdr, core. replace (if u <? 4096 then 4096 else u) with (Z.max u 4096) by (destruct (Z.ltb_spec u 4096); lia).
  set (nu := Z.max u 4096). rewrite (u32_small (nu * 8)), s32_small by (unfold is_u32; lia). rewrite bind_assoc, bind_gets.
  rewrite (proj2 (Z.leb_le 0 _)) by lia. cbn [andb]. rewrite (Z.mul_comm nu 8). pose proof (hp_brk _ _ _ Hh) as Eb. destruct (hp_base _ _ _ Hh) as [Hb0 Hb].
  pose proof (uns_pos _ (hp_pos _ _ _ Hh)) as Hp. destruct (grants (brk s) (8 * nu)) eqn:G; cbn [negb]; [|done].
  pose proof (grants_top _ _ G) as Htop. rewrite bind_assoc, bind_modify, bind_ret, (proj2 (Z.eqb_neq _ _)) by lia.
  rewrite (u32_small (brk s + _)) by (unfold is_u32; lia). unfold set_size. rewrite bind_modify. cbn [umem set_brk].
  pose proof (heap_extend s T nu Hh ltac:(lia) Htop) as H1. set (s1 := set_umem _ _) in *.
  assert (Ef : (2 + length (frees lo (T ++ (nu, false) :: [])) <= fuel)%nat) by (rewrite blocks_app, length_app; cbn; lia).
  destruct (free_spec lo s1 T [] nu H1 fuel Ef) as (s' & T' & E & H' & _ & Eu & K & Hc & a & k & Hin & Hk). unfold hadd, hdr. rewrite u32_small by (unfold is_u32; lia).
  rewrite Z.mul_1_r. rewrite <- Eb in E. rewrite (bind_ok _ _ _ _ _ E). exists s', T'. cbn in Eu. rewrite app_nil_r in Eu. split_and!; try done.
  - cbn in K. rewrite app_nil_r in K. intros b j Hbj x Hx. rewrite (K b j Hbj x Hx). apply load8_store32_ne.
    destruct (blocks_range _ _ _ _ _ (hp_pos _ _ _ Hh) Hbj). lia.
  - rewrite blocks_app, length_app in Hc. cbn in Hc. lia.
  - exists a, k. split; [done|lia].
Qed.

(** ** malloc *)

(** The outcome of a request for [u] units. *)
Definition allocates (u : Z) (s : ust) (T : list (Z * bool)) (o : outcome ust Z) : Prop :=
  exists r s' T', o = Ok r s' /\ heap s' T' /\ kept (useds lo T) (umem s) (umem s') /\
    ((r = 0 /\ useds lo T' = useds lo T /\ grants (brk s) (8 * core u) = false /\ forall a k, (a, k) ∈ frees lo T -> k < u) \/
     (lo + 8 <= r /\ useds lo T' ≡ₚ (r - 8, u) :: useds lo T /\
      forall b j, (b, j) ∈ useds lo T -> r - 8 + 8 * u <= b \/ b + 8 * j <= r - 8)).

Lemma allocates_found u s0 s T0 T q p : heap s T -> useds lo T = useds lo T0 -> kept (useds lo T0) (umem s0) (umem s) -> 1 <= u ->
  q ∈ nodes lo T -> p ∈ nodes lo T -> load32 (umem s) q = p -> u <= load32 (umem s) (p + 4) -> allocates u s0 T0 (take_from u q p s).
Proof using.
  intros Hh Eu K0 Hu Hq Hp Hqp Hfit. destruct (found_spec lo u s T q p Hh Hu Hq Hp Hqp Hfit) as (r & s' & T' & E & H' & Pm & K & R & Hd).
  exists (r + 8), s', T'. split_and!; try done.
  - intros a n Ha x Hx. rewrite (K a n) by (rewrite ?Eu; done). by apply (K0 a n).
  - right. replace (r + 8 - 8) with r by lia. rewrite <- Eu. split_and!; [lia|done|done].
Qed.

Lemma malloc_heap s T u fuel : heap s T -> 1 <= u < 268435456 -> (2 * length (frees lo T) + 6 <= fuel)%nat ->
  allocates u s T (malloc_loop fuel u (freep s) (load32 (umem s) (freep s)) s).
Proof using PrOk.
  intros Hh Hu Hf. destruct (ring_from lo s T Hh) as (R & HL & Hlast & HP). destruct (hp_base _ _ _ Hh) as [Hb0 Hb].
  assert (Hnd : NoDup R) by (rewrite HP; apply nodes_nodup; [apply Hh|done]).
  assert (HlR : length R = S (length (frees lo T))) by (rewrite HP; unfold nodes; cbn; by rewrite length_fmap).
  destruct (scan u s R _ _ fuel HL Hlast Hnd ltac:(lia)) as [(q & p & Hq & Hp & Hqp & Hfit & ->)|[Hall ->]].
  - apply (allocates_found u s s T T q p); try done; [lia| |by rewrite <- HP]. apply elem_of_cons in Hq as [->|Hq]; [apply Hh|by rewrite <- HP].
  - assert (Hno : forall a k, (a, k) ∈ frees lo T -> k < u).
    { intros a k Hin. rewrite <- (hp_size _ _ _ Hh true a k Hin). rewrite Forall_forall in Hall. apply Hall. rewrite HP. right.
      apply list_elem_of_fmap. by exists (a, k). }
    pose proof (morecore_spec s T u (S (fuel - length R)) Hh Hu ltac:(lia)) as Hm. unfold more.
    destruct (grants (brk s) (8 * core u)) eqn:G.
    + destruct Hm as (s1 & T1 & E1 & H1 & Eu & K1 & Hc & a & k & Hin & Hk). rewrite (bind_ok _ _ _ _ _ E1).
      assert (Hf0 : freep s1 <> 0).
      { pose proof (hp_freep _ _ _ H1) as Hfp. apply elem_of_cons in Hfp as [->|Hfp]; [lia|]. apply elem_frees in Hfp as (j & Hj).
        destruct (blocks_range _ _ _ _ _ (hp_pos _ _ _ H1) Hj). lia. }
      rewrite (proj2 (Z.eqb_neq _ _) Hf0). unfold s_ptr. rewrite bind_gets.
      destruct (ring_from lo s1 T1 H1) as (R1 & HL1 & Hlast1 & HP1).
      assert (Hnd1 : NoDup R1) by (rewrite HP1; apply nodes_nodup; [apply H1|done]).
      assert (HlR1 : length R1 = S (length (frees lo T1))) by (rewrite HP1; unfold nodes; cbn; by rewrite length_fmap).
      destruct (scan u s1 R1 _ _ (fuel - length R) HL1 Hlast1 Hnd1 ltac:(lia)) as [(q & p & Hq & Hp & Hqp & Hfit & ->)|[Hall1 _]].
      * apply (allocates_found u s s1 T T1 q p); try done; [lia| |by rewrite <- HP1]. apply elem_of_cons in Hq as [->|Hq]; [apply H1|by rewrite <- HP1].
      * exfalso. rewrite Forall_forall in Hall1. specialize (Hall1 a). rewrite (hp_size _ _ _ H1 true a k Hin) in Hall1.
        enough (k < u) by lia. apply Hall1. rewrite HP1. right. apply list_elem_of_fmap. by exists (a, k).
    + rewrite (bind_ok _ _ _ _ _ Hm). exists 0, s, T. split_and!; try done. by left.
Qed.

(** A program before its first [malloc]. *)
Record fresh (s : ust) : Prop := {
  fs_freep : freep s = 0;
  fs_brk : brk s = lo;
  fs_top : lo < 4294967296;
  fs_base : 0 < base /\ base + 8 <= lo;
}.
Lemma fresh_heap s : fresh s -> heap (set_umem (store32 (store32 (umem s) base base) (base + 4) 0) (set_freep base s)) [].
Proof using.
  intros [F1 F2 F3 F4]. split; cbn [umem freep brk set_umem set_freep].
  - done.
  - cbn. lia.
  - lia.
  - constructor.
  - intros i n k Hi. by rewrite lookup_nil in Hi.
  - cbn. split; [|done]. rewrite load32_store32_ne, load32_store32_eq, u32_small by (unfold is_u32; lia). done.
  - by rewrite load32_store32_eq.
  - intros f a n Hin. by apply elem_of_nil in Hin.
  - left.
Qed.
End Malloc.

(** Units for [nbytes], if the sum does not wrap around. *)
Lemma units_ok nbytes : 0 <= nbytes < 2147483600 -> 1 <= units nbytes < 268435456 /\ nbytes <= 8 * (units nbytes - 1) < nbytes + 8.
Proof.
  intros Hn. unfold units, hdr. rewrite (u32_small (nbytes + 8 - 1)) by (unfold is_u32; lia).
  rewrite u32_small by (unfold is_u32; Z.div_mod_to_equations; lia). Z.div_mod_to_equations. lia.
Qed.

(** C21: [malloc] allocates.  From a program that has not used the allocator or
    from a well-formed heap, [malloc] of [nbytes] below 2147483600, which the
    computation of units does not wrap around for, returns: either 0, when no free
    block is large enough and [sbrk] refuses, with the same blocks in use; or
    the address after the header of a new block in use, with at least [nbytes]
    and at most 7 more for data, which overlaps no block in use.  The heap is
    well formed again, and no byte of a block in use has changed. *)
Theorem malloc_correct (Pr : Process) (PrOk : ProcessOk Pr) lo s T nbytes fuel :
  heap lo s T \/ (fresh lo s /\ T = []) -> 0 <= nbytes < 2147483600 -> (2 * length T + 6 <= fuel)%nat ->
  nbytes <= 8 * (units nbytes - 1) < nbytes + 8 /\ allocates lo (units nbytes) s T (malloc fuel nbytes s).
Proof.
  intros Hs Hn Hf. destruct (units_ok nbytes Hn) as [Hu Hu']. split; [done|]. unfold malloc. rewrite bind_gets. destruct Hs as [Hh|[Hfr ->]].
  - assert (Hf0 : freep s <> 0).
    { destruct (hp_base _ _ _ Hh). pose proof (hp_freep _ _ _ Hh) as Hfp. apply elem_of_cons in Hfp as [->|Hfp]; [lia|]. apply elem_frees in Hfp as (j & Hj).
      destruct (blocks_range _ _ _ _ _ (hp_pos _ _ _ Hh) Hj). lia. }
    rewrite (proj2 (Z.eqb_neq _ _) Hf0), bind_ret, bind_gets. unfold s_ptr. rewrite bind_gets.
    apply malloc_heap; [done|done|]. pose proof (frees_count true lo T). lia.
  - rewrite (fs_freep _ _ Hfr). cbn [Z.eqb]. unfold set_ptr, set_size. rewrite bind_assoc, bind_modify, bind_assoc, bind_modify, bind_modify, bind_gets.
    unfold s_ptr. rewrite bind_gets. pose proof (fresh_heap lo s Hfr) as Hh.
    destruct (malloc_heap lo _ _ (units nbytes) fuel Hh Hu ltac:(cbn in *; lia)) as (r & s' & T' & E & H' & K & Hr).
    exists r, s', T'. split; [exact E|]. split; [done|]. split; [intros a n Ha; by apply elem_of_nil in Ha|exact Hr].
Qed.

(** C22: [free] gives a block back.  Freeing a block in use of a well-formed heap
    leaves a well-formed heap, with neighbouring free blocks merged, in which
    the blocks in use are the others, none of whose bytes has changed. *)
Theorem free_correct (Pr : Process) lo s T a n fuel : heap lo s T -> (a, n) ∈ useds lo T -> (2 + length T <= fuel)%nat ->
  exists s' T', free fuel (a + 8) s = Ok tt s' /\ heap lo s' T' /\ useds lo T ≡ₚ (a, n) :: useds lo T' /\
    kept (useds lo T') (umem s) (umem s').
Proof.
  intros Hh Hin Hf. pose proof (frees_count true lo T) as Hc. apply blocks_split in Hin as (T1 & T2 & -> & ->).
  destruct (free_spec lo s T1 T2 n Hh fuel ltac:(lia)) as (s' & T' & E & H' & _ & Eu & K & _).
  exists s', T'. split_and!; try done; [|by rewrite Eu]. rewrite Eu, blocks_app. cbn [blocks_at eqb app]. by rewrite Permutation_middle.
Qed.

(** A request close to 2^32 wraps around: a block with no room for data. *)
Lemma units_wrap : units 4294967295 = 1.
Proof. reflexivity. Qed.

(** A program with its data at 4096 and 8192 bytes, that may grow to 2^31. *)
Definition small_process : Process := {| base := 4096; grants := fun b n => b + n <? 2147483648 |}.
Lemma small_process_ok : ProcessOk small_process.
Proof. split. intros b n Hg%Z.ltb_lt. lia. Qed.
Definition small_start : ust := mk_ust ∅ 0 8192.
Lemma small_fresh : @fresh small_process 8192 small_start.
Proof. split; cbn; (done || lia). Qed.

Lemma malloc_correct_witness : exists r s', @malloc small_process 6 100 small_start = Ok r s' /\ 8192 + 8 <= r.
Proof.
  destruct (malloc_correct small_process small_process_ok 8192 small_start [] 100 6) as [_ (r & s' & T' & E & _ & _ & Hr)].
  - right. split; [exact small_fresh|reflexivity].
  - lia.
  - cbn. lia.
  - exists r, s'. split; [exact E|]. destruct Hr as [(_ & _ & G & _)|(Hr & _)]; [discriminate G|exact Hr].
Defined.

Lemma free_correct_witness : exists fuel s r s1 s2, @malloc_loop small_process 6 14 (freep s) (load32 (umem s) (freep s)) s = Ok r s1 /\
  free fuel r s1 = Ok tt s2.
Proof.
  pose proof (@fresh_heap small_process 8192 small_start small_fresh) as Hh. set (s := set_umem _ _) in Hh.
  destruct (@malloc_heap small_process small_process_ok 8192 s [] 14 6 Hh ltac:(lia) ltac:(cbn; lia)) as (r & s1 & T & E & H1 & _ & Hr).
  destruct Hr as [(_ & _ & G & _)|(Hr & Hp & _)]; [discriminate G|].
  assert (Hin : (r - 8, 14) ∈ useds 8192 T) by (rewrite Hp; left).
  destruct (free_correct small_process 8192 s1 T (r - 8) 14 (2 + length T)%nat H1 Hin ltac:(lia)) as (s2 & T2 & Ef & _).
  replace (r - 8 + 8) with r in Ef by lia. exists (2 + length T)%nat, s, r, s1, s2. split; [exact E|exact Ef].
Defined.
