(* ===== verification/Grep.v ===== *)
(** * user/grep.c

    A pointer into a string is the rest of the string from there on, without
    the final NUL; the character after the last one is 0. *)
From S2P Require Import Prelude Memory User.
From stdpp Require Import gmap strings countable prelude.

Open Scope Z_scope.

(** ** The matcher *)

(** Search for [c*re] at the beginning of the text; [here] is [matchhere re]. *)
Fixpoint matchstar (here : list Z -> bool) (c : Z) (text : list Z) : bool :=
  if here text then true else
  match text with
  | [] => false
  | t :: text' => if (t =? c) || (c =? 46) then matchstar here c text' else false
  end.

(** Search for [re] at the beginning of the text. *)
Fixpoint matchhere (re text : list Z) {struct re} : bool :=
  match re with
  | [] => true
  | c :: re1 =>
    match re1 with
    | d :: re2 =>
      if d =? 42 then matchstar (matchhere re2) c text else
      match text with
      | t :: text' => if (c =? 46) || (c =? t) then matchhere re1 text' else false
      | [] => false
      end
    | [] =>
      if c =? 36 then match text with [] => true | _ => false end else
      match text with
      | t :: text' => if (c =? 46) || (c =? t) then matchhere re1 text' else false
      | [] => false
      end
    end
  end.

(** The do-while loop of [match]. *)
Fixpoint match_loop (re text : list Z) : bool :=
  if matchhere re text then true else
  match text with
  | [] => false
  | _ :: text' => match_loop re text'
  end.
Definition match_ (re text : list Z) : bool :=
  match re with
  | c :: re' => if c =? 94 then matchhere re' text else match_loop re text
  | [] => match_loop re text
  end.

(** ** The program *)

Definition BUFSIZE : Z := 1024.

(** [strchr(p, '\n')] in the buffer: the line before the newline and what
    follows it; the search ends at a NUL. *)
Fixpoint split_line (p : list Z) : option (list Z * list Z) :=
  match p with
  | [] => None
  | c :: p' =>
    if c =? 0 then None else
    if c =? 10 then Some ([], p') else
    match split_line p' with
    | Some (a, q) => Some (c :: a, q)
    | None => None
    end
  end.

(** The loop over the lines of the buffer from [p] on; it returns the last
    [p].  Each turn takes at least a newline. *)
Fixpoint grep_lines (fuel : nat) (pattern p : list Z) : prog (list Z) :=
  match split_line p with
  | None => mret p
  | Some (l, q) =>
    match fuel with
    | O => Fuel
    | S fuel' =>
      (if match_ pattern l then sys (Swrite 1 (l ++ [10])) ;; mret tt else mret tt) ;;
      grep_lines fuel' pattern q
    end
  end.

(** The loop of reads; [buf] is what is left in the buffer. *)
Fixpoint grep (fuel : nat) (pattern : list Z) (fd : Z) (buf : list Z) : prog unit :=
  match fuel with
  | O => Fuel
  | S fuel' =>
    r ← read fd (BUFSIZE - Z.of_nat (length buf) - 1);
    if r.1 <=? 0 then mret tt else
    let buf := buf ++ take (Z.to_nat r.1) r.2 in
    p ← grep_lines (length buf) pattern buf;
    grep fuel' pattern fd p
  end.

Fixpoint grep_files (fuel : nat) (pattern : list Z) (files : list (list Z)) : prog unit :=
  match files with
  | [] => mret tt
  | f :: files' =>
    fd ← sys (Sopen f 0);
    if fd <? 0 then
      printf (bytes "grep: cannot open %s" ++ [10]) [AStr (Some f)] ;;
      exit 1
    else
      grep fuel pattern fd [] ;;
      sys (Sclose fd) ;;
      grep_files fuel pattern files'
  end.

Definition main (fuel : nat) (argv : list (list Z)) : prog Z :=
  match argv with
  | [] | [_] =>
    fprintf 2 (line "usage: grep pattern [file ...]") [] ;;
    exit 1
  | [_; pattern] =>
    grep fuel pattern 0 [] ;;
    exit 0
  | _ :: pattern :: files =>
    grep_files fuel pattern files ;;
    exit 0
  end.
