(* ===== verification/Progs.v ===== *)
(** * The small user programs

    user/cat.c, wc.c, echo.c, rm.c, mkdir.c, ln.c, kill.c, ls.c, zombie.c,
    init.c, stressfs.c and forktest.c, as trees of system calls; [argv] has the
    name of the program first. *)
From S2P Require Import Prelude Memory Machine User.
From stdpp Require Import gmap strings countable prelude.

Open Scope Z_scope.

(** ** user/cat.c *)

Fixpoint cat (fuel : nat) (fd : Z) : prog unit :=
  match fuel with
  | O => Fuel
  | S fuel' =>
    r ← read fd 512;
    if 0 <? r.1 then
      w ← sys (Swrite 1 (take (Z.to_nat r.1) r.2));
      if negb (w =? r.1) then
        fprintf 2 (line "cat: write error") [] ;;
        exit 1
      else cat fuel' fd
    else if r.1 <? 0 then
      fprintf 2 (line "cat: read error") [] ;;
      exit 1
    else mret tt
  end.
Fixpoint cat_files (fuel : nat) (files : list (list Z)) : prog unit :=
  match files with
  | [] => mret tt
  | f :: files' =>
    fd ← sys (Sopen f 0);
    if fd <? 0 then
      fprintf 2 (line "cat: cannot open %s") [AStr (Some f)] ;;
      exit 1
    else
      cat fuel fd ;;
      sys (Sclose fd) ;;
      cat_files fuel files'
  end.
Definition cat_main (fuel : nat) (argv : list (list Z)) : prog Z :=
  match argv with
  | _ :: ((_ :: _) as files) => cat_files fuel files ;; exit 0
  | _ => cat fuel 0 ;; exit 0
  end.

(** ** user/wc.c *)

Record counts : Type := mk_counts { wc_l : Z; wc_w : Z; wc_c : Z; wc_inword : bool }.
(** The body of the loop over the buffer, on one character. *)
Definition wc_char (k : counts) (b : Z) : counts :=
  let c := s32 (wc_c k + 1) in
  let l := if b =? 10 then s32 (wc_l k + 1) else wc_l k in
  match chr [32; 13; 9; 10; 11] b with
  | Some _ => mk_counts l (wc_w k) c false
  | None =>
    if negb (wc_inword k) then mk_counts l (s32 (wc_w k + 1)) c true
    else mk_counts l (wc_w k) c true
  end.
Fixpoint wc_loop (fuel : nat) (fd : Z) (k : counts) : prog counts :=
  match fuel with
  | O => Fuel
  | S fuel' =>
    r ← read fd 512;
    if 0 <? r.1 then wc_loop fuel' fd (foldl wc_char k (take (Z.to_nat r.1) r.2))
    else if r.1 <? 0 then
      printf (line "wc: read error") [] ;;
      exit 1
    else mret k
  end.
Definition wc (fuel : nat) (fd : Z) (name : list Z) : prog unit :=
  k ← wc_loop fuel fd (mk_counts 0 0 0 false);
  printf (line "%d %d %d %s") [AInt (wc_l k); AInt (wc_w k); AInt (wc_c k); AStr (Some name)].
Fixpoint wc_files (fuel : nat) (files : list (list Z)) : prog unit :=
  match files with
  | [] => mret tt
  | f :: files' =>
    fd ← sys (Sopen f 0);
    if fd <? 0 then
      printf (line "wc: cannot open %s") [AStr (Some f)] ;;
      exit 1
    else
      wc fuel fd f ;;
      sys (Sclose fd) ;;
      wc_files fuel files'
  end.
Definition wc_main (fuel : nat) (argv : list (list Z)) : prog Z :=
  match argv with
  | _ :: ((_ :: _) as files) => wc_files fuel files ;; exit 0
  | _ => wc fuel 0 [] ;; exit 0
  end.

(** ** user/echo.c *)

Fixpoint echo_args (args : list (list Z)) : prog unit :=
  match args with
  | [] => mret tt
  | a :: args' =>
    sys (Swrite 1 a) ;;
    sys (Swrite 1 (match args' with _ :: _ => [32] | [] => [10] end)) ;;
    echo_args args'
  end.
Definition echo_main (argv : list (list Z)) : prog Z := echo_args (tail argv) ;; exit 0.

(** ** user/rm.c and user/mkdir.c *)

(** The loop: it stops at the first failure. *)
Fixpoint rm_files (files : list (list Z)) : prog unit :=
  match files with
  | [] => mret tt
  | f :: files' =>
    r ← sys (Sunlink f);
    if r <? 0 then fprintf 2 (line "rm: %s failed to delete") [AStr (Some f)]
    else rm_files files'
  end.
Definition rm_main (argv : list (list Z)) : prog Z :=
  if (length argv <? 2)%nat then
    fprintf 2 (line "Usage: rm files...") [] ;;
    exit 1
  else
    rm_files (tail argv) ;;
    exit 0.
Fixpoint mkdir_files (files : list (list Z)) : prog unit :=
  match files with
  | [] => mret tt
  | f :: files' =>
    r ← sys (Smkdir f);
    if r <? 0 then fprintf 2 (line "mkdir: %s failed to create") [AStr (Some f)]
    else mkdir_files files'
  end.
Definition mkdir_main (argv : list (list Z)) : prog Z :=
  if (length argv <? 2)%nat then
    fprintf 2 (line "Usage: mkdir files...") [] ;;
    exit 1
  else
    mkdir_files (tail argv) ;;
    exit 0.

(** ** user/ln.c, user/kill.c, user/zombie.c *)

Definition ln_main (argv : list (list Z)) : prog Z :=
  match argv with
  | [_; old; new] =>
    r ← sys (Slink old new);
    (if r <? 0 then fprintf 2 (line "link %s %s: failed") [AStr (Some old); AStr (Some new)] else mret tt) ;;
    exit 0
  | _ =>
    fprintf 2 (line "Usage: ln old new") [] ;;
    exit 1
  end.
Fixpoint kill_pids (args : list (list Z)) : prog unit :=
  match args with
  | [] => mret tt
  | a :: args' => sys (Skill (atoi_str a 0)) ;; kill_pids args'
  end.
Definition kill_main (argv : list (list Z)) : prog Z :=
  if (length argv <? 2)%nat then
    fprintf 2 (line "usage: kill pid...") [] ;;
    exit 1
  else
    kill_pids (tail argv) ;;
    exit 0.
Definition zombie_main : prog Z :=
  pid ← sys Sfork;
  (if 0 <? pid then sys (Ssleep 5) ;; mret tt else mret tt) ;;
  exit 0.

(** ** user/ls.c *)

(** The characters after the last slash. *)
Fixpoint last_name (path : list Z) : list Z :=
  match path with
  | [] => []
  | c :: p => if bool_decide (47 ∈ p) then last_name p else if c =? 47 then p else path
  end.
(** The name, padded with blanks if it is short. *)
Definition fmtname (path : list Z) : list Z :=
  let p := last_name path in
  if (Z.to_nat DIRSIZ <=? length p)%nat then p
  else p ++ replicate (Z.to_nat DIRSIZ - length p) 32.

(** The loop over the entries of the directory open at [fd]; [buf] is the path
    and its slash. *)
Fixpoint ls_entries (fuel : nat) (fd : Z) (buf : list Z) : prog unit :=
  match fuel with
  | O => Fuel
  | S fuel' =>
    r ← read fd 16;
    if negb (r.1 =? 16) then mret tt else
    if u16_at r.2 0 =? 0 then ls_entries fuel' fd buf else
    let name := buf ++ cstr (take (Z.to_nat DIRSIZ) (drop 2 r.2)) in
    st ← stat name;
    (if st.1 <? 0 then printf (line "ls: cannot stat %s") [AStr (Some name)]
     else printf (line "%s %d %d %d")
       [AStr (Some (fmtname name)); AInt (st_type st.2); AInt (st_ino st.2); AInt (st_size st.2)]) ;;
    ls_entries fuel' fd buf
  end.
Definition ls (fuel : nat) (path : list Z) : prog unit :=
  fd ← sys (Sopen path 0);
  if fd <? 0 then fprintf 2 (line "ls: cannot open %s") [AStr (Some path)] else
  st ← fstat fd;
  if st.1 <? 0 then
    fprintf 2 (line "ls: cannot stat %s") [AStr (Some path)] ;;
    sys (Sclose fd) ;; mret tt
  else
    (if (st_type st.2 =? T_DEVICE) || (st_type st.2 =? T_FILE) then
       printf (line "%s %d %d %l")
         [AStr (Some (fmtname path)); AInt (st_type st.2); AInt (st_ino st.2); AInt (st_size st.2)]
     else if st_type st.2 =? T_DIR then
       if 512 <? Z.of_nat (length path) + 1 + DIRSIZ + 1 then printf (line "ls: path too long") []
       else ls_entries fuel fd (path ++ [47])
     else mret tt) ;;
    sys (Sclose fd) ;; mret tt.
Fixpoint ls_files (fuel : nat) (files : list (list Z)) : prog unit :=
  match files with
  | [] => mret tt
  | f :: files' => ls fuel f ;; ls_files fuel files'
  end.
Definition ls_main (fuel : nat) (argv : list (list Z)) : prog Z :=
  if (length argv <? 2)%nat then ls fuel (bytes ".") ;; exit 0
  else ls_files fuel (tail argv) ;; exit 0.

(** ** user/init.c *)

(** The inner loop, until the shell [pid] has exited. *)
Fixpoint init_wait (fuel : nat) (pid : Z) : prog unit :=
  match fuel with
  | O => Fuel
  | S fuel' =>
    wpid ← sys Swait;
    if wpid =? pid then mret tt
    else if wpid <? 0 then
      printf (line "init: wait returned an error") [] ;;
      exit 1
    else init_wait fuel' pid
  end.
Fixpoint init_loop (fuel wfuel : nat) : prog Z :=
  match fuel with
  | O => Fuel
  | S fuel' =>
    printf (line "init: starting sh") [] ;;
    pid ← sys Sfork;
    if pid <? 0 then
      printf (line "init: fork failed") [] ;;
      exit 1
    else if pid =? 0 then
      sys (Sexec (bytes "sh") [bytes "sh"]) ;;
      printf (line "init: exec sh failed") [] ;;
      exit 1
    else
      init_wait wfuel pid ;;
      init_loop fuel' wfuel
  end.
Definition init_main (fuel wfuel : nat) : prog Z :=
  fd ← sys (Sopen (bytes "console") O_RDWR);
  (if fd <? 0 then
     sys (Smknod (bytes "console") CONSOLE 0) ;;
     sys (Sopen (bytes "console") O_RDWR) ;; mret tt
   else mret tt) ;;
  sys (Sdup 0) ;;
  sys (Sdup 0) ;;
  init_loop fuel wfuel.

(** ** user/stressfs.c *)

(** The loop of forks from [i]: the value of [i] after it. *)
Fixpoint stress_forks (n : nat) (i : Z) : prog Z :=
  match n with
  | O => mret i
  | S n' =>
    pid ← sys Sfork;
    if 0 <? pid then mret i else stress_forks n' (i + 1)
  end.
(** A call made [n] times. *)
Fixpoint times (n : nat) (c : sysc) : prog unit :=
  match n with
  | O => mret tt
  | S n' => sys c ;; times n' c
  end.
Definition stressfs_main : prog Z :=
  printf (line "stressfs starting") [] ;;
  i ← stress_forks 4 0;
  printf (line "write %d") [AInt i] ;;
  let path := bytes "stressfs" ++ [48 + i] in
  fd ← sys (Sopen path (Z.lor O_CREATE O_RDWR));
  times 20 (Swrite fd (replicate 512 97)) ;;
  sys (Sclose fd) ;;
  printf (line "read") [] ;;
  fd ← sys (Sopen path O_RDONLY);
  times 20 (Sread fd 512) ;;
  sys (Sclose fd) ;;
  sys Swait ;;
  exit 0.

(** ** user/forktest.c *)

Definition forktest_N : nat := 1000.
Definition print (s : list Z) : prog unit := sys (Swrite 1 s) ;; mret tt.
(** The loop of forks: how many turns of [n] are left when it ends. *)
Fixpoint forktest_forks (n : nat) : prog nat :=
  match n with
  | O => mret O
  | S n' =>
    pid ← sys Sfork;
    if pid <? 0 then mret n
    else if pid =? 0 then exit 0
    else forktest_forks n'
  end.
Fixpoint forktest_waits (n : nat) : prog unit :=
  match n with
  | O => mret tt
  | S n' =>
    r ← sys Swait;
    if r <? 0 then
      print (line "wait stopped early") ;;
      exit 1
    else forktest_waits n'
  end.
Definition forktest : prog unit :=
  print (line "fork test") ;;
  left ← forktest_forks forktest_N;
  let n := (forktest_N - left)%nat in
  if (n =? forktest_N)%nat then
    print (line "fork claimed to work N times!") ;;
    exit 1
  else
    forktest_waits n ;;
    r ← sys Swait;
    if negb (r =? -1) then
      print (line "wait got too many") ;;
      exit 1
    else print (line "fork test OK").
Definition forktest_main : prog Z := forktest ;; exit 0.
