(* ===== verification/ProgsSpec.v ===== *)
(** * printf, grep, cat and wc of the user programs: what they do

    printf prints its conversions in full; the matcher of grep decides the
    language of its patterns and the program prints the lines that match; cat
    and wc on a stream, however the kernel cuts it into reads. *)
From S2P Require Import Prelude Memory Printf User Grep Progs.
From stdpp Require Import gmap strings countable prelude.

Open Scope Z_scope.

(** ** Reading a number *)

(** The place of a character among the digits [ds]. *)
Fixpoint digit (ds : list Z) (c : Z) : option Z :=
  match ds with
  | [] => None
  | d :: ds' => if d =? c then Some 0 else match digit ds' c with Some n => Some (n + 1) | None => None end
  end.
Fixpoint value (ds : list Z) (base acc : Z) (l : list Z) : option Z :=
  match l with
  | [] => Some acc
  | c :: l' => match digit ds c with Some d => value ds base (acc * base + d) l' | None => None end
  end.
Definition number (ds : list Z) (base : Z) (l : list Z) : option Z :=
  match l with
  | 45 :: l' => match value ds base 0 l' with Some v => Some (- v) | None => None end
  | _ => value ds base 0 l
  end.

(** ** The digits printed *)

Section Digits.
Variables (ds : list Z) (base : Z).
Hypothesis Hbase : base = 10 \/ base = 16.
Hypothesis Hds : forall d, 0 <= d < 16 -> digit ds (at_ ds (Z.to_nat d)) = Some d /\ at_ ds (Z.to_nat d) <> 45.

(** The do-while loop of [printint], with the digits [ds]. *)
Fixpoint int_digits (fuel : nat) (x : Z) : list Z :=
  match fuel with
  | O => []
  | S fuel' =>
    let c := at_ ds (Z.to_nat (x mod base)) in
    let x := x / base in
    if negb (x =? 0) then c :: int_digits fuel' x else [c]
  end.

Lemma digit_mod x : 0 <= x -> 0 <= x mod base < 16.
Proof using Hbase. intros. pose proof (Z.mod_pos_bound x base ltac:(lia)). lia. Qed.
Lemma value_app a : forall acc b, value ds base acc (a ++ b) =
  match value ds base acc a with Some v => value ds base v b | None => None end.
Proof.
  induction a as [|c a IH]; intros acc b; cbn [value app]; [done|]. destruct (digit ds c); [apply IH|done].
Qed.
(** The loop ends within [k] turns if [x] has at most [k] digits, and the
    digits, the last first, are those of [x]. *)
Lemma int_digits_value k : forall fuel x, 0 <= x < base ^ Z.of_nat (S k) -> (k < fuel)%nat ->
  value ds base 0 (reverse (int_digits fuel x)) = Some x /\ (length (int_digits fuel x) <= S k)%nat.
Proof using Hbase Hds.
  induction k as [|k IH]; intros [|fuel] x Hx Hf; [lia| |lia|]; cbn [int_digits];
    destruct (Hds (x mod base) (digit_mod x ltac:(lia))) as [Hd _]; pose proof (Z.div_mod x base ltac:(lia)) as Hdm.
  - change (Z.of_nat 1) with 1 in Hx. rewrite Z.pow_1_r in Hx. rewrite Z.div_small by lia. cbn. rewrite Hd.
    rewrite Z.mod_small by lia. split; [f_equal; lia|lia].
  - destruct (Z.eqb_spec (x / base) 0) as [E|E]; cbn [negb].
    + cbn. rewrite Hd. split; [f_equal; lia|lia].
    + assert (Hr : 0 <= x / base < base ^ Z.of_nat (S k)).
      { split; [apply Z.div_pos; lia|]. apply Z.div_lt_upper_bound; [lia|].
        rewrite <- Z.pow_succ_r by lia. replace (Z.succ (Z.of_nat (S k))) with (Z.of_nat (S (S k))) by lia. lia. }
      destruct (IH fuel (x / base) Hr ltac:(lia)) as [IHv IHl]. split; [|cbn; lia].
      rewrite reverse_cons, value_app, IHv. cbn. rewrite Hd. f_equal. lia.
Qed.
Lemma int_digits_head fuel x : 0 <= x -> (0 < fuel)%nat -> 45 ∉ int_digits fuel x.
Proof using Hbase Hds.
  revert x. induction fuel as [|fuel IH]; intros x Hx Hf; [lia|]. cbn [int_digits].
  destruct (Hds (x mod base) (digit_mod x Hx)) as [_ Hd].
  destruct (negb _); [|set_solver]. destruct fuel; [set_solver|].
  apply not_elem_of_cons. split; [congruence|]. apply IH; [apply Z.div_pos; lia|lia].
Qed.

(** The whole of [printint]. *)
Lemma int_chars x neg : 0 <= x < 4294967296 ->
  let l := reverse (if (neg : bool) then int_digits 32 x ++ [45] else int_digits 32 x) in
  number ds base l = Some (if neg then - x else x) /\ (length l <= 11)%nat.
Proof using Hbase Hds.
  intros Hx. cbv zeta.
  destruct (int_digits_value 9 32 x) as [Hv Hl]; [|lia|].
  { change (Z.of_nat 10) with 10. destruct Hbase as [-> | ->]; lia. }
  pose proof (int_digits_head 32 x ltac:(lia) ltac:(lia)) as Hh. destruct neg.
  - rewrite reverse_app, length_app, !length_reverse. cbn [length]. split; [|lia].
    change (reverse [45]) with [45]. cbn [app number]. by rewrite Hv.
  - rewrite length_reverse. split; [|lia]. unfold number.
    destruct (reverse (int_digits 32 x)) as [|c l] eqn:E; [done|].
    assert (Hc : c <> 45).
    { intros ->. apply Hh. apply elem_of_reverse. rewrite E. by left. }
    destruct (decide (c = 45)); [done|]. rewrite <- Hv. clear -Hc.
    destruct c as [|c|]; [done| |done]. do 6 (destruct c as [c|c|]; try done).
Qed.
End Digits.

(** The digits can be told apart, and from the sign. *)
Definition digits_ok (ds : list Z) : bool :=
  forallb (fun d => bool_decide (digit ds (at_ ds (Z.to_nat d)) = Some d) && negb (at_ ds (Z.to_nat d) =? 45)) (seqZ 0 16).
Lemma digits_ok_spec ds : digits_ok ds = true -> forall d, 0 <= d < 16 ->
  digit ds (at_ ds (Z.to_nat d)) = Some d /\ at_ ds (Z.to_nat d) <> 45.
Proof.
  unfold digits_ok. rewrite forallb_forall. intros H d Hd.
  specialize (H d ltac:(apply list_elem_of_In, elem_of_seqZ; lia)).
  apply andb_prop in H as [H1%bool_decide_eq_true H2%negb_true_iff%Z.eqb_neq]. done.
Qed.

Lemma kernel_loop fuel base : forall x, Printf.printint_digits fuel x base = int_digits Printf.digits base fuel x.
Proof. induction fuel as [|fuel IH]; intros x; cbn [Printf.printint_digits int_digits]; [done|]. by rewrite IH. Qed.
Lemma user_loop fuel base : forall x, User.printint_digits fuel x base = int_digits User.digits base fuel x.
Proof. induction fuel as [|fuel IH]; intros x; cbn [User.printint_digits int_digits]; [done|]. by rewrite IH. Qed.

Lemma printint_correct xx base sgn :
  -2147483648 <= xx < 2147483648 -> base = 10 \/ base = 16 ->
  let n := if (sgn : bool) then xx else u32 xx in
  number Printf.digits base (Printf.printint xx base sgn) = Some n /\
  number User.digits base (User.printint_chars xx base sgn) = Some n /\
  (length (Printf.printint xx base sgn) <= 11)%nat /\ (length (User.printint_chars xx base sgn) <= 11)%nat.
Proof.
  intros Hx Hb. cbv zeta. unfold Printf.printint, User.printint_chars. rewrite s32_small, kernel_loop, user_loop by done.
  set (neg := sgn && (xx <? 0)). set (x := if neg then u32 (- xx) else u32 xx).
  assert (Hr : 0 <= x < 4294967296) by (subst x; destruct neg; apply u32_range).
  assert (Hn : (if neg then - x else x) = if (sgn : bool) then xx else u32 xx).
  { subst x neg. destruct sgn; cbn [andb]; [|done]. destruct (Z.ltb_spec xx 0); rewrite u32_small; unfold is_u32; lia. }
  destruct (int_chars Printf.digits base Hb (digits_ok_spec Printf.digits eq_refl) x neg Hr) as [H1 H2].
  destruct (int_chars User.digits base Hb (digits_ok_spec User.digits eq_refl) x neg Hr) as [H3 H4].
  rewrite Hn in H1, H3. change (chars "-") with [45]. auto.
Qed.

(** The characters are bytes. *)
Lemma printint_bytes xx base sgn : u8 <$> User.printint_chars xx base sgn = User.printint_chars xx base sgn.
Proof.
  assert (Hd : forall fuel x, Forall (fun c => 0 <= c < 256) (User.printint_digits fuel x base)).
  { induction fuel as [|fuel IH]; intros x; cbn [User.printint_digits]; [constructor|].
    assert (Hc : forall i, 0 <= at_ User.digits i < 256) by (intros i; unfold at_; do 16 (destruct i; [vm_compute; by split|]); destruct i; vm_compute; by split).
    destruct (negb _); repeat constructor; apply Hc || apply IH. }
  assert (H : Forall (fun c => 0 <= c < 256) (User.printint_chars xx base sgn)).
  { unfold User.printint_chars. apply Forall_reverse. destruct (_ && _); [|apply Hd]. apply Forall_app. split; [apply Hd|].
    repeat constructor; lia. }
  induction H as [|c l Hc H IH]; [done|]. rewrite fmap_cons, IH, u8_small by done. done.
Qed.

(** Numbers are printed right and fit the buffer.  For every [int] and the
    bases 10 and 16, what [printint] of the kernel and of the user library
    print reads back as the number (as an unsigned one where the sign is not
    asked for), the most negative [int] included, and the characters collected
    in [buf] are at most 11 of its 16. *)
Theorem printint_reads_back xx base sgn :
  -2147483648 <= xx < 2147483648 -> base = 10 \/ base = 16 ->
  let n := if (sgn : bool) then xx else u32 xx in
  number Printf.digits base (Printf.printint xx base sgn) = Some n /\
  number User.digits base (User.printint_chars xx base sgn) = Some n /\
  (length (Printf.printint xx base sgn) <= 11)%nat /\ (length (User.printint_chars xx base sgn) <= 11)%nat.
Proof. exact (printint_correct xx base sgn). Qed.

Lemma printint_reads_back_witness :
  number Printf.digits 10 (Printf.printint (-2147483648) 10 true) = Some (-2147483648) /\
  User.printint_chars (-1) 16 false = bytes "FFFFFFFF".
Proof.
  split; [apply (printint_reads_back (-2147483648) 10 true); [lia|by left]|reflexivity].
Defined.

(** * user/grep.c: the matcher decides the language of its patterns, and the
    program prints the lines that match *)

(** ** Patterns *)

Inductive item : Type := One (c : Z) | Many (c : Z).

(** The character [t] is one that [c] stands for. *)
Definition hits (c t : Z) : Prop := c = 46 \/ c = t.

(** The items of a pattern without its leading [^], and whether it ends in the
    anchor [$]. *)
Fixpoint parse_re (re : list Z) : list item * bool :=
  match re with
  | [] => ([], false)
  | c :: re1 =>
    match re1 with
    | d :: re2 =>
      if d =? 42 then let p := parse_re re2 in (Many c :: p.1, p.2)
      else let p := parse_re re1 in (One c :: p.1, p.2)
    | [] => if c =? 36 then ([], true) else ([One c], false)
    end
  end.

(** The words of a sequence of items. *)
Inductive lang : list item -> list Z -> Prop :=
| lang_nil : lang [] []
| lang_one c t l w : hits c t -> lang l w -> lang (One c :: l) (t :: w)
| lang_none c l w : lang l w -> lang (Many c :: l) w
| lang_more c t l w : hits c t -> lang (Many c :: l) w -> lang (Many c :: l) (t :: w).

(** The pattern matches at the start of the text. *)
Definition matches (p : list item * bool) (text : list Z) : Prop :=
  exists w rest, text = w ++ rest /\ lang p.1 w /\ (p.2 = true -> rest = []).

(** ** The matcher *)

Lemma hits_star t c : (t =? c) || (c =? 46) = true <-> hits c t.
Proof. unfold hits. rewrite orb_true_iff, !Z.eqb_eq. intuition congruence. Qed.
Lemma hits_one t c : (c =? 46) || (c =? t) = true <-> hits c t.
Proof. unfold hits. by rewrite orb_true_iff, !Z.eqb_eq. Qed.

Lemma matches_one c p t text : matches (One c :: p.1, p.2) (t :: text) <-> hits c t /\ matches p text.
Proof.
  split.
  - intros (w & rest & E & Hl & Ha). inversion Hl as [|c' t' l w' Hc Hw| |]; subst. injection E as -> ->.
    split; [done|]. by exists w', rest.
  - intros (Hc & w & rest & -> & Hl & Ha). exists (t :: w), rest. split; [done|]. split; [by constructor|done].
Qed.
Lemma matches_one_nil c p : ~ matches (One c :: p.1, p.2) [].
Proof. intros (w & rest & E & Hl & _). symmetry in E. apply app_nil in E as [-> _]. inversion Hl. Qed.
Lemma matches_many c p text :
  matches (Many c :: p.1, p.2) text <->
  matches p text \/ exists t text', text = t :: text' /\ hits c t /\ matches (Many c :: p.1, p.2) text'.
Proof.
  split.
  - intros (w & rest & -> & Hl & Ha). inversion Hl as [| |c' l w' Hw|c' t l w' Hc Hw]; subst.
    + left. by exists w, rest.
    + right. exists t, (w' ++ rest). split; [done|]. split; [done|]. by exists w', rest.
  - intros [(w & rest & -> & Hl & Ha)|(t & text' & -> & Hc & w & rest & -> & Hl & Ha)].
    + exists w, rest. split; [done|]. split; [by constructor|done].
    + exists (t :: w), rest. split; [done|]. split; [by constructor|done].
Qed.

Lemma matchstar_spec (here : list Z -> bool) p c :
  (forall text, here text = true <-> matches p text) ->
  forall text, matchstar here c text = true <-> matches (Many c :: p.1, p.2) text.
Proof.
  intros Hh text. induction text as [|t text IH]; cbn [matchstar]; rewrite matches_many, <- Hh.
  - destruct (here []); [intuition|]. split; [done|]. intros [?|(t & text' & ? & _)]; done.
  - destruct (here (t :: text)); [intuition|]. destruct ((t =? c) || (c =? 46)) eqn:E.
    + rewrite IH. apply hits_star in E. split; [intros H; right; eauto|].
      intros [?|(t' & text' & [= <- <-] & _ & H)]; done.
    + split; [done|]. intros [?|(t' & text' & [= <- <-] & Hc & _)]; [done|].
      apply hits_star in Hc. congruence.
Qed.

Lemma matchhere_spec n : forall re, (length re <= n)%nat -> forall text,
  matchhere re text = true <-> matches (parse_re re) text.
Proof.
  induction n as [|n IH]; intros re Hn text.
  { destruct re; [|cbn in Hn; lia]. cbn. split; [|done]. intros _. exists [], text. split; [done|]. split; [constructor|done]. }
  destruct re as [|c re1].
  { cbn. split; [|done]. intros _. exists [], text. split; [done|]. split; [constructor|done]. }
  cbn [length] in Hn. destruct re1 as [|d re2].
  - cbn [matchhere parse_re]. destruct (Z.eqb_spec c 36).
    + destruct text as [|t text].
      * split; [|done]. intros _. exists [], []. split; [done|]. split; [constructor|done].
      * split; [done|]. intros (w & rest & E & Hl & Ha). inversion Hl; subst. by rewrite Ha in E.
    + change ([One c], false) with (One c :: (parse_re []).1, (parse_re []).2). destruct text as [|t text].
      * split; [done|]. by intros ?%matches_one_nil.
      * rewrite matches_one, <- hits_one, <- (IH [] ltac:(cbn; lia) text). cbn [matchhere].
        destruct ((c =? 46) || (c =? t)); naive_solver.
  - cbn [matchhere parse_re]. destruct (Z.eqb_spec d 42).
    + apply matchstar_spec. apply IH. cbn in Hn. lia.
    + destruct text as [|t text]; [split; [done|]; by intros ?%matches_one_nil|].
      rewrite matches_one, <- hits_one, <- (IH (d :: re2) ltac:(cbn in *; lia) text).
      destruct ((c =? 46) || (c =? t)); naive_solver.
Qed.

Lemma match_loop_spec re text :
  match_loop re text = true <-> exists pre suf, text = pre ++ suf /\ matches (parse_re re) suf.
Proof.
  induction text as [|t text IH]; cbn [match_loop].
  - destruct (matchhere re []) eqn:E.
    + split; [|done]. intros _. exists [], []. split; [done|]. by apply (matchhere_spec (length re)).
    + split; [done|]. intros (pre & suf & Ea & H). symmetry in Ea. apply app_nil in Ea as [-> ->].
      apply (matchhere_spec (length re)) in H; [congruence|done].
  - destruct (matchhere re (t :: text)) eqn:E.
    + split; [|done]. intros _. exists [], (t :: text). split; [done|]. by apply (matchhere_spec (length re)).
    + rewrite IH. split.
      * intros (pre & suf & -> & H). by exists (t :: pre), suf.
      * intros (pre & suf & Ea & H). destruct pre as [|x pre].
        -- cbn in Ea. subst suf. apply (matchhere_spec (length re)) in H; [congruence|done].
        -- injection Ea as _ ->. by exists pre, suf.
Qed.

(** C33: grep's matcher decides its patterns.  [match] answers 1 exactly when
    some part of the text, from the beginning if the pattern starts with [^] and
    to the end if it ends with [$], is a word of the pattern, in which [.]
    stands for any character and [c*] for any number of what [c] stands for. *)
Theorem match_correct re text :
  match_ re text = true <->
  match re with
  | 94 :: re' => matches (parse_re re') text
  | _ => exists pre suf, text = pre ++ suf /\ matches (parse_re re) suf
  end.
Proof.
  unfold match_. destruct re as [|c re']; [apply match_loop_spec|].
  destruct (Z.eqb_spec c 94) as [->|Hne]; [by apply (matchhere_spec (length re'))|].
  destruct c as [|p|p]; try apply match_loop_spec.
  do 7 (destruct p as [p|p|]; try apply match_loop_spec). by destruct Hne.
Qed.

(** ** The program *)

(** A kernel with one input stream and one output stream.  [cuts] says how
    many bytes each [read] finds ready, one at least unless the input is at
    its end. *)
Record streams : Type := mk_streams { s_in : list Z; s_cuts : list nat; s_out : list Z }.

Definition stream_kernel (c : sysc) (s : streams) : resp * streams :=
  match c with
  | Sread _ n =>
    let k := Nat.min (Z.to_nat n) (Nat.min (S (default 0%nat (head (s_cuts s)))) (length (s_in s))) in
    (mk_resp (Z.of_nat k) (take k (s_in s)), mk_streams (drop k (s_in s)) (tail (s_cuts s)) (s_out s))
  | Swrite _ b => (mk_resp (Z.of_nat (length b)) [], mk_streams (s_in s) (s_cuts s) (s_out s ++ b))
  | _ => (mk_resp (-1) [], s)
  end.

Lemma run_bind {S A B} (h : sysc -> S -> resp * S) (p : prog A) (f : A -> prog B) s :
  run h (p ≫= f) s =
  match run h p s with
  | Returned a s' => run h (f a) s'
  | Exited st s' => Exited st s'
  | OutOfFuel => OutOfFuel
  end.
Proof. revert s. induction p as [a|st|c k IH|]; intros s; cbn; [done|done|apply IH|done]. Qed.

(** The complete lines of a text, without their newlines, and what follows the
    last one. *)
Fixpoint lines (t : list Z) : list (list Z) * list Z :=
  match t with
  | [] => ([], [])
  | c :: t' =>
    let r := lines t' in
    if c =? 10 then ([] :: r.1, r.2)
    else match r.1 with
         | [] => ([], c :: r.2)
         | l :: ls => ((c :: l) :: ls, r.2)
         end
  end.
(** What grep prints for them. *)
Definition selected (pattern : list Z) (ls : list (list Z)) : list Z :=
  mjoin ((fun l => if match_ pattern l then l ++ [10] else []) <$> ls).

Lemma split_line_lines p : 0 ∉ p ->
  match split_line p with
  | None => lines p = ([], p)
  | Some (l, q) => lines p = (l :: (lines q).1, (lines q).2) /\ p = l ++ 10 :: q
  end.
Proof.
  induction p as [|c p IH]; intros H0; cbn [split_line lines]; [done|].
  apply not_elem_of_cons in H0 as [Hc H0]. rewrite (proj2 (Z.eqb_neq _ _)) by congruence.
  destruct (Z.eqb_spec c 10) as [->|Hne]; [done|]. specialize (IH H0).
  destruct (split_line p) as [[l q]|].
  - destruct IH as [-> ->]. done.
  - by rewrite IH.
Qed.

Lemma lines_app p q : (lines p).1 = [] -> (lines (p ++ q)) =
  match (lines q).1 with
  | [] => ([], p ++ (lines q).2)
  | l :: ls => ((p ++ l) :: ls, (lines q).2)
  end.
Proof.
  induction p as [|c p IH]; intros Hp; [cbn; destruct (lines q) as [[|l ls] r]; done|].
  cbn [app lines] in *. destruct (c =? 10); [done|].
  destruct (lines p).1 eqn:Ep; [|done]. rewrite IH by done. destruct (lines q).1; done.
Qed.

(** The lines of the buffer are printed, and what follows the last is kept. *)
Lemma grep_lines_spec pattern fuel : forall p s,
  (length p <= fuel)%nat -> 0 ∉ p ->
  run stream_kernel (grep_lines fuel pattern p) s =
    Returned (lines p).2 (mk_streams (s_in s) (s_cuts s) (s_out s ++ selected pattern (lines p).1)).
Proof.
  induction fuel as [|fuel IH]; intros p s Hf H0; pose proof (split_line_lines p H0) as Hs; cbn [grep_lines].
  - destruct p; [|cbn in Hf; lia]. cbn. rewrite app_nil_r. by destruct s.
  - destruct (split_line p) as [[l q]|].
    + destruct Hs as [El Ep]. rewrite run_bind, El. cbn [fst snd].
      assert (Hq : (length q <= fuel)%nat) by (rewrite Ep, length_app in Hf; cbn in Hf; lia).
      assert (Hq0 : 0 ∉ q) by (rewrite Ep in H0; set_solver).
      unfold selected. cbn [fmap list_fmap mjoin list_join]. destruct (match_ pattern l).
      * cbn. rewrite IH by done. cbn. unfold selected. by rewrite <- !app_assoc.
      * cbn. rewrite IH by done. done.
    + rewrite Hs. cbn. rewrite app_nil_r. by destruct s.
Qed.

(** The lines of a text in two parts. *)
Lemma lines_cat p q :
  lines (p ++ q) = ((lines p).1 ++ (lines ((lines p).2 ++ q)).1, (lines ((lines p).2 ++ q)).2).
Proof.
  induction p as [|c p IH]; [cbn; by destruct (lines q)|]. cbn [app lines]. rewrite IH. cbn [fst snd].
  destruct (c =? 10) eqn:E; cbn [fst snd]; [done|].
  destruct (lines p).1 as [|l ls]; cbn [fst snd app]; [|done]. cbn [lines]. rewrite E.
  by destruct (lines ((lines p).2 ++ q)) as [[|l ls] r].
Qed.
Lemma lines_rest p : (lines (lines p).2).1 = [].
Proof.
  induction p as [|c p IH]; [done|]. cbn [lines]. destruct (c =? 10) eqn:E; cbn [snd]; [done|].
  destruct (lines p).1; cbn [snd lines]; [|done]. by rewrite E, IH.
Qed.
Lemma lines_rest_incl p x : x ∈ (lines p).2 -> x ∈ p.
Proof.
  induction p as [|c p IH]; [done|]. cbn [lines]. destruct (c =? 10); cbn [snd]; [set_solver|].
  destruct (lines p).1; cbn [snd]; set_solver.
Qed.

(** The loop of reads, [buf] holding the start of a line. *)
Lemma grep_stream pattern fd n : forall fuel buf inp cuts out,
  (length inp <= n)%nat -> (n < fuel)%nat -> 0 ∉ buf ++ inp -> (lines buf).1 = [] ->
  Forall (fun l => (length l < 1023)%nat) (lines (buf ++ inp)).1 ->
  exists cuts' rest, run stream_kernel (grep fuel pattern fd buf) (mk_streams inp cuts out) =
    Returned tt (mk_streams rest cuts' (out ++ selected pattern (lines (buf ++ inp)).1)).
Proof.
  induction n as [|n IH]; intros fuel buf inp cuts out Hn Hfuel H0 Hb Hfit; (destruct fuel as [|fuel]; [lia|]);
    cbn [grep]; rewrite run_bind; unfold read; cbn [run stream_kernel fst snd s_in s_cuts s_out rv rdata];
    set (k := Nat.min _ _).
  - destruct inp; [|cbn in Hn; lia]. assert (k = 0%nat) as -> by (unfold k; cbn [length]; lia).
    exists (tail cuts), []. rewrite (app_nil_r buf), Hb. cbn. rewrite (app_nil_r out). reflexivity.
  - destruct (decide (k = 0%nat)) as [Ek|Ek].
    + rewrite Ek. cbn [Z.of_nat Z.leb Z.compare run drop].
      assert (Es : selected pattern (lines (buf ++ inp)).1 = []).
      { rewrite lines_app in * by done. destruct inp as [|c inp]; [done|].
        destruct (lines (c :: inp)).1 as [|l ls]; [done|]. cbn [fst] in Hfit.
        apply Forall_cons in Hfit as [Hl _]. rewrite length_app in Hl. subst k. cbn [length] in Ek.
        unfold BUFSIZE in Ek. lia. }
      rewrite Es, (app_nil_r out). exists (tail cuts), inp. reflexivity.
    + rewrite (proj2 (Z.leb_gt _ _)) by lia. rewrite run_bind, Nat2Z.id, take_take, Nat.min_id.
      assert (Hbi : (buf ++ take k inp) ++ drop k inp = buf ++ inp) by (by rewrite <- app_assoc, take_drop).
      rewrite grep_lines_spec; [|done|]. cbn [s_in s_cuts s_out].
      2:{ intros Hx. apply H0. rewrite <- Hbi. set_solver. }
      pose proof (lines_cat (buf ++ take k inp) (drop k inp)) as Hc. rewrite Hbi in Hc.
      destruct (IH fuel (lines (buf ++ take k inp)).2 (drop k inp) (tail cuts)
        (out ++ selected pattern (lines (buf ++ take k inp)).1)) as (cuts' & rest & E).
      * rewrite length_drop. lia.
      * lia.
      * intros [Hx%lines_rest_incl|Hx]%elem_of_app; apply H0; rewrite <- Hbi; set_solver.
      * apply lines_rest.
      * rewrite Hc in Hfit. cbn [fst] in Hfit. apply Forall_app in Hfit as [_ ?]. done.
      * exists cuts', rest. rewrite E. do 2 f_equal. rewrite Hc. cbn [fst]. unfold selected.
        by rewrite fmap_app, join_app, app_assoc.
Qed.

(** C34: grep prints the lines that match.  For an input without NUL bytes whose
    lines fit the buffer, however the kernel cuts it into reads, [grep] writes
    exactly the lines the pattern matches, with their newlines and in order; an
    unfinished last line is not looked at. *)
Theorem grep_correct pattern fd input cuts fuel :
  0 ∉ input -> Forall (fun l => (length l < 1023)%nat) (lines input).1 -> (length input < fuel)%nat ->
  exists cuts' rest, run stream_kernel (grep fuel pattern fd []) (mk_streams input cuts []) =
    Returned tt (mk_streams rest cuts' (selected pattern (lines input).1)).
Proof.
  intros H0 Hfit Hf.
  exact (grep_stream pattern fd (length input) fuel [] input cuts [] ltac:(lia) Hf H0 eq_refl Hfit).
Qed.

Lemma grep_correct_witness :
  let input := bytes "hello" ++ [10] ++ bytes "world" ++ [10] ++ bytes "held" in
  exists cuts' rest, run stream_kernel (grep 20 (bytes "^he") 0 []) (mk_streams input [2; 0; 7]%nat []) =
    Returned tt (mk_streams rest cuts' (bytes "hello" ++ [10])).
Proof.
  intros input. destruct (grep_correct (bytes "^he") 0 input [2; 0; 7]%nat 20) as (cuts' & rest & E).
  - apply (bool_decide_unpack _). vm_compute. exact I.
  - apply (bool_decide_unpack _). vm_compute. exact I.
  - vm_compute. lia.
  - exists cuts', rest. exact E.
Defined.

(** A line that does not fit the buffer ends the program: nothing after it is
    looked at. *)
Lemma grep_long_line :
  run stream_kernel (grep 5 (bytes "x") 0 [])
    (mk_streams (replicate 1100 97 ++ [10] ++ bytes "x" ++ [10]) [1099]%nat []) =
  Returned tt (mk_streams (replicate 77 97 ++ [10] ++ bytes "x" ++ [10]) [] []).
Proof. vm_compute. reflexivity. Qed.

(** * user/cat.c and user/wc.c on a stream *)

(** ** cat *)

(** How many bytes a read of up to 512 gets. *)
Definition chunk (inp : list Z) (cuts : list nat) : nat :=
  Nat.min 512 (Nat.min (S (default 0%nat (head cuts))) (length inp)).
Lemma read_stream {A} fd inp cuts out (k : Z * list Z -> prog A) :
  run stream_kernel (read fd 512 ≫= k) (mk_streams inp cuts out) =
  run stream_kernel (k (Z.of_nat (chunk inp cuts), take (chunk inp cuts) inp))
    (mk_streams (drop (chunk inp cuts) inp) (tail cuts) out).
Proof. reflexivity. Qed.
Lemma chunk_pos c inp cuts : (0 < chunk (c :: inp) cuts)%nat.
Proof. unfold chunk. cbn [length]. lia. Qed.

Lemma chunk_nil cuts : chunk [] cuts = 0%nat.
Proof. unfold chunk. cbn [length]. lia. Qed.

Lemma cat_stream fd n fuel : forall inp cuts out,
  (length inp <= n)%nat -> (n < fuel)%nat ->
  exists cuts', run stream_kernel (cat fuel fd) (mk_streams inp cuts out) =
    Returned tt (mk_streams [] cuts' (out ++ inp)).
Proof.
  revert fuel. induction n as [|n IH]; intros [|fuel] inp cuts out Hn Hf; try lia; cbn [cat]; rewrite read_stream; cbn [fst snd].
  - destruct inp; [|cbn in Hn; lia]. exists (tail cuts). rewrite chunk_nil, app_nil_r. reflexivity.
  - destruct inp as [|c inp]; [exists (tail cuts); rewrite chunk_nil, app_nil_r; reflexivity|].
    pose proof (chunk_pos c inp cuts) as Hk. set (k := chunk (c :: inp) cuts) in *.
    rewrite (proj2 (Z.ltb_lt _ _)) by lia. rewrite run_bind. cbn [sys run stream_kernel fst snd rv s_in s_cuts s_out].
    rewrite Nat2Z.id, take_take, Nat.min_id.
    assert (El : Z.of_nat (length (take k (c :: inp))) = Z.of_nat k) by (rewrite length_take; subst k; unfold chunk; lia).
    rewrite El, Z.eqb_refl. cbn [negb].
    destruct (IH fuel (drop k (c :: inp)) (tail cuts) (out ++ take k (c :: inp))) as [cuts' E];
      [rewrite length_drop; cbn [length] in *; lia|lia|].
    exists cuts'. rewrite E. by rewrite <- app_assoc, take_drop.
Qed.
(** [cat] copies.  However the kernel cuts the input into reads, [cat]
    returns after writing exactly the input, having read all of it. *)
Theorem cat_copies fd fuel inp cuts out : (length inp < fuel)%nat ->
  exists cuts', run stream_kernel (cat fuel fd) (mk_streams inp cuts out) =
    Returned tt (mk_streams [] cuts' (out ++ inp)).
Proof. intros Hf. exact (cat_stream fd (length inp) fuel inp cuts out (Nat.le_refl _) Hf). Qed.
Lemma cat_copies_witness : exists cuts',
  run stream_kernel (cat 10 0) (mk_streams (bytes "hello") [1; 0]%nat []) = Returned tt (mk_streams [] cuts' (bytes "hello")).
Proof. apply (cat_copies 0 10 (bytes "hello") [1; 0]%nat []); vm_compute; lia. Defined.

(** ** wc *)

Definition blank (c : Z) : bool := bool_decide (c ∈ [32; 13; 9; 10; 11]).
(** The unfinished word a text begins with, and the words after it. *)
Fixpoint split_words (t : list Z) : list Z * list (list Z) :=
  match t with
  | [] => ([], [])
  | c :: t' =>
    let r := split_words t' in
    if blank c then ([], match r.1 with [] => r.2 | _ => r.1 :: r.2 end) else (c :: r.1, r.2)
  end.
(** The words: the longest runs of characters that are not blank. *)
Definition words (t : list Z) : list (list Z) :=
  let r := split_words t in match r.1 with [] => r.2 | _ => r.1 :: r.2 end.
Definition newlines (t : list Z) : nat := length (filter (fun c => c = 10) t).

Lemma chr_blank b : match chr [32; 13; 9; 10; 11] b with Some _ => true | None => false end = blank b.
Proof.
  unfold blank. case_bool_decide as H.
  - set_unfold in H. by destruct_or! H; subst b.
  - cbn [chr]. repeat (match goal with |- context [?a =? b] => destruct (Z.eqb_spec a b) as [<-|] end; [set_solver|]). done.
Qed.
Lemma words_cons c t : length (words (c :: t)) =
  if blank c then length (words t) else S (length (split_words t).2).
Proof. unfold words. cbn [split_words]. by destruct (blank c). Qed.
Lemma rest_cons c t : length (split_words (c :: t)).2 =
  if blank c then length (words t) else length (split_words t).2.
Proof. unfold words. cbn [split_words]. by destruct (blank c). Qed.

(** What the loop of [wc] counts. *)
Lemma wc_counts t : forall l w c inw, 0 <= l <= c -> 0 <= w <= c -> c + Z.of_nat (length t) < 2147483648 ->
  exists inw', foldl wc_char (mk_counts l w c inw) t =
    mk_counts (l + Z.of_nat (newlines t))
      (w + Z.of_nat (if (inw : bool) then length (split_words t).2 else length (words t)))
      (c + Z.of_nat (length t)) inw'.
Proof.
  induction t as [|b t IH]; intros l w c inw Hl Hw Hc; cbn [foldl length] in *.
  - exists inw. f_equal; cbn; destruct inw; cbn; lia.
  - assert (En : newlines (b :: t) = ((if (b =? 10)%Z then 1 else 0) + newlines t)%nat).
    { unfold newlines. rewrite filter_cons. destruct (Z.eqb_spec b 10); by case_decide. }
    rewrite En, words_cons, rest_cons. unfold wc_char at 2. cbn [wc_l wc_w wc_c wc_inword].
    pose proof (chr_blank b) as Hb. destruct (chr _ b), (blank b); try done;
      (destruct (Z.eqb_spec b 10); destruct inw; cbn [negb]; rewrite !s32_small by lia;
       match goal with |- context [foldl wc_char (mk_counts ?l ?w ?c ?i) t] =>
         destruct (IH l w c i) as [inw' E]; [lia..|] end;
       exists inw'; rewrite E; f_equal; lia).
Qed.

Lemma wc_stream fd n : forall fuel k inp cuts out, (length inp <= n)%nat -> (n < fuel)%nat ->
  exists cuts', run stream_kernel (wc_loop fuel fd k) (mk_streams inp cuts out) =
    Returned (foldl wc_char k inp) (mk_streams [] cuts' out).
Proof.
  induction n as [|n IH]; intros [|fuel] k inp cuts out Hn Hf; try lia; cbn [wc_loop]; rewrite read_stream; cbn [fst snd].
  - destruct inp; [|cbn in Hn; lia]. exists (tail cuts). rewrite chunk_nil. reflexivity.
  - destruct inp as [|c inp]; [exists (tail cuts); rewrite chunk_nil; reflexivity|].
    pose proof (chunk_pos c inp cuts) as Hk. set (m := chunk (c :: inp) cuts) in *.
    rewrite (proj2 (Z.ltb_lt _ _)) by lia. rewrite Nat2Z.id, take_take, Nat.min_id.
    destruct (IH fuel (foldl wc_char k (take m (c :: inp))) (drop m (c :: inp)) (tail cuts) out) as [cuts' E];
      [rewrite length_drop; cbn [length] in *; lia|lia|].
    exists cuts'. by rewrite E, <- foldl_app, take_drop.
Qed.

(** Printing to a stream. *)
Lemma putcs_stream fd l : forall inp cuts out,
  run stream_kernel (putcs fd l) (mk_streams inp cuts out) = Returned tt (mk_streams inp cuts (out ++ (u8 <$> l))).
Proof.
  induction l as [|c l IH]; intros inp cuts out; [by rewrite app_nil_r|]. cbn [putcs]. rewrite run_bind. cbn.
  rewrite IH. by rewrite <- app_assoc.
Qed.
Lemma wc_line inp cuts out l w c name :
  run stream_kernel (printf (line "%d %d %d %s") [AInt l; AInt w; AInt c; AStr (Some name)]) (mk_streams inp cuts out) =
  Returned tt (mk_streams inp cuts (out ++ (u8 <$> printint_chars l 10 true) ++ [32] ++ (u8 <$> printint_chars w 10 true) ++
    [32] ++ (u8 <$> printint_chars c 10 true) ++ [32] ++ (u8 <$> cstr name) ++ [10])).
Proof.
  unfold printf. change (line "%d %d %d %s") with [37; 100; 32; 37; 100; 32; 37; 100; 32; 37; 115; 10].
  Local Opaque putcs printint_chars cstr.
  cbn. unfold printint. repeat (rewrite run_bind, putcs_stream; cbn). by rewrite <- !app_assoc.
  Local Transparent putcs printint_chars cstr.
Qed.

Lemma newlines_le t : (newlines t <= length t)%nat.
Proof. apply length_filter. Qed.
Lemma words_le t : (length (split_words t).2 <= length t)%nat /\ (length (words t) <= length t)%nat.
Proof.
  induction t as [|c t [IH1 IH2]]; [done|]. rewrite rest_cons, words_cons. cbn [length]. destruct (blank c); lia.
Qed.

(** [wc] counts.  For an input shorter than 2^31, however the kernel cuts
    it into reads, [wc] prints one line with three numbers: how many newlines
    the input has, how many words (longest runs of characters that are not
    blank) and how many bytes. *)
Theorem wc_correct fd fuel inp cuts name :
  (length inp < fuel)%nat -> Z.of_nat (length inp) < 2147483648 ->
  exists cuts' tl tw tc, run stream_kernel (wc fuel fd name) (mk_streams inp cuts []) =
      Returned tt (mk_streams [] cuts' (tl ++ [32] ++ tw ++ [32] ++ tc ++ [32] ++ (u8 <$> cstr name) ++ [10])) /\
    number User.digits 10 tl = Some (Z.of_nat (newlines inp)) /\
    number User.digits 10 tw = Some (Z.of_nat (length (words inp))) /\
    number User.digits 10 tc = Some (Z.of_nat (length inp)).
Proof.
  intros Hf Hl. destruct (wc_stream fd (length inp) fuel (mk_counts 0 0 0 false) inp cuts [] (Nat.le_refl _) Hf) as [cuts' E].
  destruct (wc_counts inp 0 0 0 false ltac:(lia) ltac:(lia) ltac:(lia)) as [inw' Ec].
  exists cuts', (printint_chars (Z.of_nat (newlines inp)) 10 true),
    (printint_chars (Z.of_nat (length (words inp))) 10 true), (printint_chars (Z.of_nat (length inp)) 10 true).
  split.
  - unfold wc. rewrite run_bind, E, Ec. cbn [wc_l wc_w wc_c]. by rewrite wc_line, !printint_bytes.
  - pose proof (newlines_le inp). pose proof (words_le inp).
    split_and!; apply (printint_correct _ 10 true); (lia || by left).
Qed.
Lemma wc_correct_witness : exists cuts' tl tw tc,
  run stream_kernel (wc 20 0 (bytes "f")) (mk_streams (line "two words") [1; 3]%nat []) =
    Returned tt (mk_streams [] cuts' (tl ++ [32] ++ tw ++ [32] ++ tc ++ [32] ++ bytes "f" ++ [10])) /\
  number User.digits 10 tl = Some 1 /\ number User.digits 10 tw = Some 2 /\ number User.digits 10 tc = Some 10.
Proof. apply (wc_correct 0 20 (line "two words") [1; 3]%nat (bytes "f")); vm_compute; [lia|done]. Defined.
