(* ===== verification/Sh.v ===== *)
(** * user/sh.c

    The parser works on the text of the command line.  A pointer into the text
    is the text from it to the end [es]; a pointer kept in a command is the
    number of characters from it to [es]. *)
From S2P Require Import Prelude Memory Machine User.
From stdpp Require Import gmap strings countable prelude.

Open Scope Z_scope.

(** ** Commands *)

(** [W] is what stands for a string. *)
Inductive cmd (W : Type) : Type :=
| EXEC (argv : list W)
| REDIR (c : cmd W) (file : W) (mode fd : Z)
| PIPE (left right : cmd W)
| LIST (left right : cmd W)
| BACK (c : cmd W).
Arguments EXEC {W} argv.
Arguments REDIR {W} c file mode fd.
Arguments PIPE {W} left right.
Arguments LIST {W} left right.
Arguments BACK {W} c.

(** The start and the end of a word of the text. *)
Notation word := (nat * nat)%type.

Definition MAXARGS : nat := 10.

(** ** Tokens *)

Definition whitespace : list Z := [32; 9; 13; 10; 11].
Definition symbols : list Z := bytes "<|>&;()".

Fixpoint skip_ws (s : list Z) : list Z :=
  match s with
  | [] => []
  | c :: s' => if bool_decide (c ∈ whitespace) then skip_ws s' else s
  end.
Fixpoint skip_word (s : list Z) : list Z :=
  match s with
  | [] => []
  | c :: s' =>
    if negb (bool_decide (c ∈ whitespace)) && negb (bool_decide (c ∈ symbols)) then skip_word s' else s
  end.

(** The parser's state is the pointer [*ps]; an error is the panic of the
    shell with its message. *)
Notation parser := (M (list Z)).
Definition ps : parser (list Z) := fun s => Ok s s.

(** The [switch] of [gettoken]: the kind of the token at [s] and what follows
    it. *)
Definition token (s : list Z) : Z * list Z :=
  match s with
  | [] => (0, [])
  | c :: s' =>
    if bool_decide (c ∈ bytes "|();&<") then (c, s')
    else if c =? 62 then
      match s' with
      | d :: s'' => if d =? 62 then (43, s'') else (c, s')
      | [] => (c, s')
      end
    else (97, skip_word s)
  end.
(** The kind of the next token and where it is. *)
Definition gettoken : parser (Z * word) :=
  s ← ps;
  let s := skip_ws s in
  let q := length s in
  let r := token s in
  let eq := length r.2 in
  modify (fun _ => skip_ws r.2) ;;
  mret (r.1, (q, eq)).

Definition peek (toks : list Z) : parser bool :=
  modify skip_ws ;;
  s ← ps;
  mret (match s with [] => false | c :: _ => bool_decide (c ∈ toks) end).

(** ** The parser *)

Record redir : Type := mk_redir { r_file : word; r_mode : Z; r_fd : Z }.
(** The commands [redircmd] has put around [c], the first innermost. *)
Definition redirs_on (l : list redir) (c : cmd word) : cmd word :=
  foldl (fun c r => REDIR c (r_file r) (r_mode r) (r_fd r)) c l.

(** The loop of [parseredirs]; each turn takes a character. *)
Fixpoint parseredirs (fuel : nat) (acc : list redir) : parser (list redir) :=
  p ← peek (bytes "<>");
  if negb p then mret acc else
  match fuel with
  | O => hang
  | S fuel' =>
    t ← gettoken;
    f ← gettoken;
    if negb (f.1 =? 97) then panic "missing file for redirection" else
    let r := if t.1 =? 60 then mk_redir f.2 O_RDONLY 0
             else if t.1 =? 62 then mk_redir f.2 (Z.lor (Z.lor O_WRONLY O_CREATE) O_TRUNC) 1
             else mk_redir f.2 (Z.lor O_WRONLY O_CREATE) 1 in
    parseredirs fuel' (acc ++ [r])
  end.

(** The loop of [parseexec].  The structure of the command is filled in while
    the redirections are already put around it; here they are put around it at
    the end. *)
Fixpoint parseargs (fuel rfuel : nat) (argv : list word) (rs : list redir) : parser (cmd word) :=
  p ← peek (bytes "|)&;");
  if (p : bool) then mret (redirs_on rs (EXEC argv)) else
  match fuel with
  | O => hang
  | S fuel' =>
    t ← gettoken;
    if t.1 =? 0 then mret (redirs_on rs (EXEC argv)) else
    if negb (t.1 =? 97) then panic "syntax" else
    let argv := argv ++ [t.2] in
    if (MAXARGS <=? length argv)%nat then panic "too many args" else
    rs ← parseredirs rfuel rs;
    parseargs fuel' rfuel argv rs
  end.

(** The loop over [&] of [parseline]. *)
Fixpoint parseback (fuel : nat) (c : cmd word) : parser (cmd word) :=
  p ← peek (bytes "&");
  if negb p then mret c else
  match fuel with
  | O => hang
  | S fuel' => gettoken ;; parseback fuel' (BACK c)
  end.

Section Parse.
(** Enough turns for the loops of any text of this length. *)
Variable size : nat.

Fixpoint parseline (fuel : nat) : parser (cmd word) :=
  match fuel with
  | O => hang
  | S fuel' =>
    c ← parsepipe fuel';
    c ← parseback size c;
    p ← peek (bytes ";");
    if (p : bool) then
      gettoken ;;
      r ← parseline fuel';
      mret (LIST c r)
    else mret c
  end
with parsepipe (fuel : nat) : parser (cmd word) :=
  match fuel with
  | O => hang
  | S fuel' =>
    c ← parseexec fuel';
    p ← peek (bytes "|");
    if (p : bool) then
      gettoken ;;
      r ← parsepipe fuel';
      mret (PIPE c r)
    else mret c
  end
with parseexec (fuel : nat) : parser (cmd word) :=
  match fuel with
  | O => hang
  | S fuel' =>
    p ← peek (bytes "(");
    if (p : bool) then parseblock fuel' else
    rs ← parseredirs size [];
    parseargs (S size) size [] rs
  end
with parseblock (fuel : nat) : parser (cmd word) :=
  match fuel with
  | O => hang
  | S fuel' =>
    p ← peek (bytes "(");
    if negb p then panic "parseblock" else
    gettoken ;;
    c ← parseline fuel';
    p ← peek (bytes ")");
    if negb p then panic "syntax - missing )" else
    gettoken ;;
    rs ← parseredirs size [];
    mret (redirs_on rs c)
  end.
End Parse.

(** With text left over the shell prints it and panics. *)
Definition parsecmd_text (fuel : nat) : parser (cmd word) :=
  s ← ps;
  let size := length s in
  c ← parseline size fuel;
  peek [] ;;
  s ← ps;
  match s with
  | [] => mret c
  | _ => panic "leftovers"
  end.

(** [*e = 0] for the end of a word, in the buffer of the text and its NUL. *)
Definition end_word (es : nat) (w : word) (b : list Z) : list Z := <[(es - w.2)%nat := 0]> b.
Fixpoint nulterminate (es : nat) (c : cmd word) (b : list Z) : list Z :=
  match c with
  | EXEC argv => foldl (fun b w => end_word es w b) b argv
  | REDIR c f _ _ => end_word es f (nulterminate es c b)
  | PIPE l r | LIST l r => nulterminate es r (nulterminate es l b)
  | BACK c => nulterminate es c b
  end.

(** The string a pointer of a command points to. *)
Definition str_at (es : nat) (b : list Z) (w : word) : list Z := cstr (drop (es - w.1) b).

(** ** Running commands *)

Definition panic {A} (s : string) : prog A :=
  fprintf 2 (bytes "%s" ++ [10]) [AStr (Some (bytes s))] ;;
  exit 1.

Definition fork1 : prog Z :=
  pid ← sys Sfork;
  if pid =? -1 then panic "fork" else mret pid.

(** [runcmd]; it never returns.  [b] is the buffer of the command line after
    [nulterminate]. *)
Fixpoint runcmd (es : nat) (b : list Z) (c : cmd word) : prog Z :=
  match c with
  | EXEC argv =>
    match argv with
    | [] => exit 1
    | w :: _ =>
      sys (Sexec (str_at es b w) (str_at es b <$> argv)) ;;
      fprintf 2 (line "exec %s failed") [AStr (Some (str_at es b w))] ;;
      exit 0
    end
  | REDIR c f mode fd =>
    sys (Sclose fd) ;;
    r ← sys (Sopen (str_at es b f) mode);
    if r <? 0 then
      fprintf 2 (line "open %s failed") [AStr (Some (str_at es b f))] ;;
      exit 1
    else runcmd es b c
  | LIST l r =>
    pid ← fork1;
    if pid =? 0 then runcmd es b l else
    sys Swait ;;
    runcmd es b r
  | PIPE l r =>
    Call Spipe (fun p =>
    let p0 := s32 (u32_at (rdata p) 0) in
    let p1 := s32 (u32_at (rdata p) 4) in
    if rv p <? 0 then panic "pipe" else
    pid ← fork1;
    if pid =? 0 then
      sys (Sclose 1) ;; sys (Sdup p1) ;; sys (Sclose p0) ;; sys (Sclose p1) ;;
      runcmd es b l
    else
    pid ← fork1;
    if pid =? 0 then
      sys (Sclose 0) ;; sys (Sdup p0) ;; sys (Sclose p0) ;; sys (Sclose p1) ;;
      runcmd es b r
    else
    sys (Sclose p0) ;; sys (Sclose p1) ;;
    sys Swait ;;
    sys Swait ;;
    exit 0)
  | BACK c =>
    pid ← fork1;
    if pid =? 0 then runcmd es b c else exit 0
  end.

(** The recursion of the parser goes down one level for each call, and at most
    four levels for each character. *)
Definition parse_fuel (s : list Z) : nat := (4 * length s + 4)%nat.

(** [parsecmd] and then [runcmd], in the child. *)
Definition run_line (s : list Z) : prog Z :=
  match parsecmd_text (parse_fuel s) s with
  | Ok c _ => runcmd (length s) (nulterminate (length s) c (s ++ [0])) c
  | Panic msg rest =>
    if bool_decide (msg = "leftovers"%string) then
      fprintf 2 (line "leftovers: %s") [AStr (Some rest)] ;;
      panic "syntax"
    else panic msg
  | Hang _ => Fuel
  end.

(** ** The main loop *)

(** The line read; [None] at the end of the input. *)
Definition getcmd (nbuf : Z) : prog (option (list Z)) :=
  sys (Swrite 2 (bytes "$ ")) ;;
  buf ← User.gets nbuf;
  mret (match cstr buf with [] => None | s => Some s end).

(** Opening the console until there are three descriptors. *)
Fixpoint open_console (fuel : nat) : prog unit :=
  match fuel with
  | O => Fuel
  | S fuel' =>
    fd ← sys (Sopen (bytes "console") O_RDWR);
    if 0 <=? fd then
      if 3 <=? fd then sys (Sclose fd) ;; mret tt else open_console fuel'
    else mret tt
  end.

Fixpoint main_loop (fuel : nat) : prog Z :=
  match fuel with
  | O => Fuel
  | S fuel' =>
    l ← getcmd 100;
    match l with
    | None => exit 0
    | Some s =>
      if bool_decide (take 3 s = bytes "cd ") then
        let dir := drop 3 (take (length s - 1) s) in
        r ← sys (Schdir dir);
        (if r <? 0 then fprintf 2 (line "cannot cd %s") [AStr (Some dir)] else mret tt) ;;
        main_loop fuel'
      else
        pid ← fork1;
        if pid =? 0 then run_line s else
        sys Swait ;;
        main_loop fuel'
    end
  end.
Definition main (fuel : nat) : prog Z := open_console fuel ;; main_loop fuel.
