(* ===== verification/ShSpec.v ===== *)
(** * user/sh.c: the parser ends, and reads back what is printed *)
From S2P Require Import Prelude Memory Machine User Sh.
From stdpp Require Import gmap strings countable prelude.

Open Scope Z_scope.

(** ** The parser ends *)

(** The parser does not run out of turns, and what it returns satisfies [Q]. *)
Definition ends {A} (m : parser A) (Q : A -> list Z -> Prop) (s : list Z) : Prop :=
  match m s with Ok a s' => Q a s' | Panic _ _ => True | Hang _ => False end.

Lemma ends_bind {A B} (m : parser A) (k : A -> parser B) Q R s :
  ends m R s -> (forall a s', R a s' -> ends (k a) Q s') -> ends (m ≫= k) Q s.
Proof. unfold ends, mbind, M_bind. intros H Hk. destruct (m s); [by apply Hk|done|done]. Qed.
Lemma ends_ret {A} (a : A) (Q : A -> list Z -> Prop) s : Q a s -> ends (mret a) Q s.
Proof. done. Qed.
Lemma ends_panic {A} msg (Q : A -> list Z -> Prop) s : ends (Prelude.panic msg) Q s.
Proof. done. Qed.
Lemma ends_mono {A} (m : parser A) (Q R : A -> list Z -> Prop) s :
  ends m Q s -> (forall a s', Q a s' -> R a s') -> ends m R s.
Proof. unfold ends. intros H HQ. destruct (m s); [by apply HQ|done|done]. Qed.

Lemma skip_ws_le s : (length (skip_ws s) <= length s)%nat.
Proof. induction s as [|c s IH]; cbn; [lia|]. case_bool_decide; cbn; lia. Qed.
Lemma skip_word_le s : (length (skip_word s) <= length s)%nat.
Proof. induction s as [|c s IH]; cbn; [lia|]. destruct (negb _ && negb _); cbn; lia. Qed.
Lemma skip_ws_id c s : c ∉ whitespace -> skip_ws (c :: s) = c :: s.
Proof. intros H. cbn. by rewrite bool_decide_eq_false_2. Qed.
Lemma skip_ws_head s : match skip_ws s with [] => True | c :: _ => c ∉ whitespace end.
Proof. induction s as [|c s IH]; cbn; [done|]. by case_bool_decide. Qed.
Lemma skip_ws_twice s : skip_ws (skip_ws s) = skip_ws s.
Proof. pose proof (skip_ws_head s) as H. destruct (skip_ws s); [done|by apply skip_ws_id]. Qed.

Lemma gettoken_eq s :
  gettoken s = Ok ((token (skip_ws s)).1, (length (skip_ws s), length (token (skip_ws s)).2))
                  (skip_ws (token (skip_ws s)).2).
Proof. done. Qed.
Lemma peek_eq toks s :
  peek toks s = Ok (match skip_ws s with [] => false | c :: _ => bool_decide (c ∈ toks) end) (skip_ws s).
Proof. done. Qed.

(** A token takes at least a character of what is not blank. *)
Lemma token_lt c s : c ∉ whitespace ->
  (token (c :: s)).1 <> 0 /\ (length (token (c :: s)).2 < length (c :: s))%nat.
Proof.
  intros Hw. cbn [token]. case_bool_decide as Hc; [|destruct (Z.eqb_spec c 62) as [->|Hne]].
  - cbn. split; [|lia]. intros ->. apply (bool_decide_eq_true_2 _) in Hc. vm_compute in Hc. done.
  - destruct s as [|d s']; [cbn; lia|]. destruct (d =? 62); cbn; lia.
  - cbn [fst snd skip_word]. rewrite !bool_decide_eq_false_2; [cbn [negb andb]|..|done].
    + pose proof (skip_word_le s). cbn [length]. lia.
    + intros Hs. apply Hc. change (bytes "<|>&;()") with [60; 124; 62; 38; 59; 40; 41] in Hs.
      change (bytes "|();&<") with [124; 40; 41; 59; 38; 60]. set_solver.
Qed.
Lemma gettoken_ends s (Q : Z * word -> list Z -> Prop) :
  (forall t s', (length s' <= length s)%nat -> (t.1 <> 0 -> (length s' < length s)%nat) ->
    (skip_ws s <> [] -> t.1 <> 0) -> Q t s') -> ends gettoken Q s.
Proof.
  intros H. unfold ends. rewrite gettoken_eq. pose proof (skip_ws_le s) as Hle. pose proof (skip_ws_head s) as Hh.
  destruct (skip_ws s) as [|c s']; [apply H; cbn; done || lia|].
  destruct (token_lt c s' Hh) as [H1 H2]. pose proof (skip_ws_le (token (c :: s')).2).
  apply H; cbn [fst] in *; [lia|lia|done].
Qed.
Lemma peek_ends toks s (Q : bool -> list Z -> Prop) :
  (forall b, (b = true -> skip_ws (skip_ws s) <> []) -> Q b (skip_ws s)) -> ends (peek toks) Q s.
Proof.
  intros H. unfold ends. rewrite peek_eq. apply H. rewrite skip_ws_twice. by destruct (skip_ws s).
Qed.

(** Going on from [n] characters to no more than [n]. *)
Definition shrinks {A} (n : nat) (_ : A) (s : list Z) : Prop := (length s <= n)%nat.

(** The rule for [peek] followed by a choice. *)
Lemma ends_peek {A} toks (k : bool -> parser A) Q s :
  (forall s', (length s' <= length s)%nat -> skip_ws s' <> [] -> ends (k true) Q s') ->
  (forall s', (length s' <= length s)%nat -> ends (k false) Q s') -> ends (peek toks ≫= k) Q s.
Proof.
  intros Ht Hf. unfold ends, mbind, M_bind. rewrite peek_eq. pose proof (skip_ws_le s) as Hle.
  destruct (skip_ws s) as [|c s'] eqn:E; [exact (Hf [] Hle)|]. case_bool_decide.
  - apply (Ht (c :: s') Hle). rewrite <- E, skip_ws_twice, E. done.
  - exact (Hf (c :: s') Hle).
Qed.
(** [gettoken] where something is left takes it. *)
Lemma ends_token {A} (k : Z * word -> parser A) Q s :
  skip_ws s <> [] -> (forall t s', (length s' < length s)%nat -> ends (k t) Q s') -> ends (gettoken ≫= k) Q s.
Proof.
  intros Hne H. apply (ends_bind _ _ _ (fun _ s' => (length s' < length s)%nat)); [|done].
  apply gettoken_ends. intros t s' H1 H2 H3. exact (H2 (H3 Hne)).
Qed.

Lemma parseredirs_ends fuel : forall acc s n,
  (length s <= fuel)%nat -> (length s <= n)%nat -> ends (parseredirs fuel acc) (shrinks n) s.
Proof.
  induction fuel as [|fuel IH]; intros acc s n Hf Hn; cbn [parseredirs]; apply ends_peek; cbn [negb].
  - intros s' Hl Hne. destruct s'; [done|]. cbn in Hl. lia.
  - intros s' Hl. apply ends_ret. unfold shrinks. lia.
  - intros s' Hl Hne. apply ends_token; [done|]. intros t s1 H1.
    apply (ends_bind _ _ _ (shrinks (length s1))); [apply gettoken_ends; intros f s2 H2 _ _; exact H2|].
    intros f s2 H2. unfold shrinks in H2.
    destruct (negb _); [apply ends_panic|]. apply IH; lia.
  - intros s' Hl. apply ends_ret. unfold shrinks. lia.
Qed.
Lemma parseargs_ends rfuel fuel : forall argv rs s n,
  (length s < fuel)%nat -> (length s <= rfuel)%nat -> (length s <= n)%nat ->
  ends (parseargs fuel rfuel argv rs) (shrinks n) s.
Proof.
  induction fuel as [|fuel IH]; intros argv rs s n Hf Hr Hn; [lia|]; cbn [parseargs]; apply ends_peek.
  - intros s' Hl Hne. apply ends_ret. unfold shrinks. lia.
  - intros s' Hl. eapply ends_bind; [apply (gettoken_ends _ (fun t s1 => (length s1 <= length s')%nat /\ (t.1 <> 0 -> (length s1 < length s')%nat))); done|].
    cbv beta. intros t s1 [H1 H2]. destruct (Z.eqb_spec t.1 0) as [|Hnz].
    + apply ends_ret. unfold shrinks. lia.
    + specialize (H2 Hnz). destruct (negb _); [apply ends_panic|]. destruct (MAXARGS <=? _)%nat; [apply ends_panic|].
      eapply ends_bind; [apply (parseredirs_ends rfuel rs s1 (length s1)); lia|]. intros rs' s2 H3.
      unfold shrinks in H3. apply IH; lia.
Qed.
Lemma parseback_ends fuel : forall c s n,
  (length s <= fuel)%nat -> (length s <= n)%nat -> ends (parseback fuel c) (shrinks n) s.
Proof.
  induction fuel as [|fuel IH]; intros c s n Hf Hn; cbn [parseback]; apply ends_peek; cbn [negb].
  - intros s' Hl Hne. destruct s'; [done|]. cbn in Hl. lia.
  - intros s' Hl. apply ends_ret. unfold shrinks. lia.
  - intros s' Hl Hne. apply ends_token; [done|]. intros t s1 H1. apply IH; lia.
  - intros s' Hl. apply ends_ret. unfold shrinks. lia.
Qed.

(** The four functions that call each other. *)
Lemma parse_ends size fuel : forall s, (length s <= size)%nat ->
  ((4 * length s + 4 <= fuel)%nat -> ends (parseline size fuel) (shrinks (length s)) s) /\
  ((4 * length s + 3 <= fuel)%nat -> ends (parsepipe size fuel) (shrinks (length s)) s) /\
  ((4 * length s + 2 <= fuel)%nat -> ends (parseexec size fuel) (shrinks (length s)) s) /\
  ((4 * length s + 1 <= fuel)%nat -> ends (parseblock size fuel) (shrinks (length s)) s).
Proof.
  induction fuel as [|fuel IH]; intros s Hs; [split_and!; lia|].
  assert (Hsh : forall n m A (a : A) s', (n <= m)%nat -> shrinks n a s' -> shrinks m a s') by (unfold shrinks; intros; lia).
  split_and!; intros Hf; cbn [parseline parsepipe parseexec parseblock].
  - eapply ends_bind; [apply IH; lia|]. intros c s1 H1. unfold shrinks in H1.
    eapply ends_bind; [apply (parseback_ends size c s1 (length s1)); lia|]. intros c' s2 H2. unfold shrinks in H2.
    apply ends_peek; [|intros s3 H3; apply ends_ret; unfold shrinks; lia].
    intros s3 H3 Hne. apply ends_token; [done|]. intros t s4 H4.
    eapply ends_bind; [apply IH; lia|]. intros r s5 H5. apply ends_ret. unfold shrinks in *. lia.
  - eapply ends_bind; [apply IH; lia|]. intros c s1 H1. unfold shrinks in H1.
    apply ends_peek; [|intros s3 H3; apply ends_ret; unfold shrinks; lia].
    intros s3 H3 Hne. apply ends_token; [done|]. intros t s4 H4.
    eapply ends_bind; [apply IH; lia|]. intros r s5 H5. apply ends_ret. unfold shrinks in *. lia.
  - apply ends_peek.
    + intros s1 H1 Hne. eapply ends_mono; [apply IH; lia|]. intros a s2. apply Hsh. lia.
    + intros s1 H1. eapply ends_bind; [apply (parseredirs_ends size [] s1 (length s1)); lia|].
      intros rs s2 H2. unfold shrinks in H2. apply parseargs_ends; lia.
  - apply ends_peek; cbn [negb]; [|intros; apply ends_panic].
    intros s1 H1 Hne. apply ends_token; [done|]. intros t s2 H2.
    eapply ends_bind; [apply IH; lia|]. intros c s3 H3. unfold shrinks in H3.
    apply ends_peek; cbn [negb]; [|intros; apply ends_panic].
    intros s4 H4 Hne4. apply ends_token; [done|]. intros t' s5 H5.
    eapply ends_bind; [apply (parseredirs_ends size [] s5 (length s5)); lia|].
    intros rs s6 H6. apply ends_ret. unfold shrinks in *. lia.
Qed.

(** C35: the shell's parser ends.  On every line, [parsecmd] returns a command
    or panics with a message: its loops and its recursion end within the number
    of turns the model gives them, four levels for each character. *)
Theorem parsecmd_terminates s :
  match parsecmd_text (parse_fuel s) s with Ok _ rest => rest = [] | Panic _ _ => True | Hang _ => False end.
Proof.
  change (ends (parsecmd_text (parse_fuel s)) (fun _ rest => rest = []) s). unfold parsecmd_text.
  eapply (ends_bind ps _ _ (fun a s' => a = s /\ s' = s)); [done|]. intros a s' [-> ->].
  eapply ends_bind; [apply (parse_ends (length s)); unfold parse_fuel; lia|]. intros c s1 _.
  eapply ends_bind; [apply (peek_ends _ _ (fun _ _ => True)); done|]. intros b s2 _.
  eapply (ends_bind ps _ _ (fun a s' => a = s2 /\ s' = s2)); [done|]. intros a s' [-> ->].
  destruct s2; [by apply ends_ret|apply ends_panic].
Qed.

(** ** Commands and their text *)

Definition wordchar (c : Z) : Prop := (c ∉ whitespace) /\ (c ∉ symbols).
(** A text at which a word ends. *)
Definition word_end (s : list Z) : Prop := match s with [] => True | c :: _ => ~ wordchar c end.
Definition good_word (w : list Z) : Prop := w <> [] /\ Forall (fun c => wordchar c /\ c <> 0) w.

Definition APPEND : Z := Z.lor O_WRONLY O_CREATE.
Definition REPLACE : Z := Z.lor APPEND O_TRUNC.

(** Commands with the strings themselves that the shell can be given. *)
Fixpoint good (c : cmd (list Z)) : Prop :=
  match c with
  | EXEC argv => (length argv < MAXARGS)%nat /\ Forall good_word argv
  | REDIR c f mode fd =>
    good c /\ good_word f /\ ((mode = O_RDONLY /\ fd = 0) \/ (mode = REPLACE /\ fd = 1) \/ (mode = APPEND /\ fd = 1))
  | PIPE l r | LIST l r => good l /\ good r
  | BACK c => good c
  end.

(** A redirection as text. *)
Definition pr_redir (f : list Z) (mode : Z) : list Z :=
  (if mode =? O_RDONLY then bytes "<" else if mode =? REPLACE then bytes ">" else bytes ">>") ++ f ++ [32].
Definition pr_words (argv : list (list Z)) : list Z := mjoin ((fun w => w ++ [32]) <$> argv).

Inductive level : Type := LExec | LPipe | LBack | LLine.
Definition parens (t : list Z) : list Z := bytes "(" ++ t ++ bytes ")".

(** The text of a command where a command of level [lv] may stand. *)
Fixpoint print (lv : level) (c : cmd (list Z)) : list Z :=
  match c with
  | EXEC argv => pr_words argv
  | REDIR c f mode _ => print LExec c ++ pr_redir f mode
  | PIPE l r =>
    let t := print LExec l ++ bytes "|" ++ print LPipe r in
    match lv with LExec => parens t | _ => t end
  | BACK c =>
    let t := print LBack c ++ bytes "&" in
    match lv with LExec | LPipe => parens t | _ => t end
  | LIST l r =>
    let t := print LBack l ++ bytes ";" ++ print LLine r in
    match lv with LLine => t | _ => parens t end
  end.

(** The pointers [w] of a parsed text that ends in [s] delimit [x]. *)
Definition word_in (s : list Z) (w : word) (x : list Z) : Prop :=
  exists a b, s = a ++ x ++ b /\ w = (length (x ++ b), length b) /\ good_word x /\ word_end b.
Fixpoint words_in (s : list Z) (c' : cmd word) (c : cmd (list Z)) : Prop :=
  match c', c with
  | EXEC a', EXEC a => Forall2 (word_in s) a' a
  | REDIR x' f' m' d', REDIR x f m d => words_in s x' x /\ word_in s f' f /\ m' = m /\ d' = d
  | PIPE l' r', PIPE l r => words_in s l' l /\ words_in s r' r
  | LIST l' r', LIST l r => words_in s l' l /\ words_in s r' r
  | BACK x', BACK x => words_in s x' x
  | _, _ => False
  end.

Lemma word_in_app p s w x : word_in s w x -> word_in (p ++ s) w x.
Proof. intros (a & b & -> & H). exists (p ++ a), b. by rewrite <- app_assoc. Qed.
Lemma words_in_app p s c' : forall c, words_in s c' c -> words_in (p ++ s) c' c.
Proof.
  induction c' as [a'|x' IH f' m' d'|l' IHl r' IHr|l' IHl r' IHr|x' IH]; intros [a|x f m d|l r|l r|x]; cbn; try done.
  - intros H. eapply Forall2_impl; [exact H|]. intros. by apply word_in_app.
  - intros (? & ? & ?). split; [auto|]. split; [by apply word_in_app|done].
  - intros []. auto.
  - intros []. auto.
  - auto.
Qed.

(** *** Tokens of a printed text *)

Lemma skip_word_good w s : Forall (fun c => wordchar c /\ c <> 0) w -> word_end s -> skip_word (w ++ s) = s.
Proof.
  intros Hw He. induction Hw as [|c w [[H1 H2] _] Hw IH]; cbn [app].
  - destruct s as [|c s]; [done|]. cbn [skip_word].
    destruct (bool_decide (c ∈ whitespace)) eqn:E1; [reflexivity|].
    destruct (bool_decide (c ∈ symbols)) eqn:E2; [reflexivity|].
    exfalso. apply He. split; by eapply bool_decide_eq_false_1.
  - cbn [skip_word]. rewrite !bool_decide_eq_false_2 by done. exact IH.
Qed.
Lemma symbols_eq : symbols = [60; 124; 62; 38; 59; 40; 41].
Proof. reflexivity. Qed.
Lemma good_head w : good_word w -> exists c w', w = c :: w' /\ c ∉ whitespace /\ c ∉ symbols.
Proof. intros [Hne Hw]. destruct Hw as [|c w [[H1 H2] _] Hw]; [done|]. by exists c, w. Qed.
Lemma skip_ws_good w s : good_word w -> skip_ws (w ++ s) = w ++ s.
Proof. intros H. destruct (good_head w H) as (c & w' & -> & H1 & _). by apply skip_ws_id. Qed.
Lemma token_good w s : good_word w -> word_end s -> token (w ++ s) = (97, s).
Proof.
  intros Hg He. pose proof (skip_word_good w s (proj2 Hg) He) as Hs.
  destruct (good_head w Hg) as (c & w' & -> & _ & H2). cbn [app token] in *.
  rewrite symbols_eq in H2. change (bytes "|();&<") with [124; 40; 41; 59; 38; 60].
  rewrite bool_decide_eq_false_2 by set_solver.
  destruct (Z.eqb_spec c 62); [set_solver|]. by rewrite Hs.
Qed.
(** The next token is a word. *)
Lemma gettoken_word w s : good_word w -> word_end s ->
  gettoken (w ++ s) = Ok (97, (length (w ++ s), length s)) (skip_ws s).
Proof. intros Hg He. by rewrite gettoken_eq, skip_ws_good, token_good. Qed.
Lemma peek_word toks w s : forallb (fun c => bool_decide (c ∈ symbols)) toks = true ->
  good_word w -> peek toks (w ++ s) = Ok false (w ++ s).
Proof.
  intros Hi Hg. rewrite peek_eq, skip_ws_good by done. destruct (good_head w Hg) as (c & w' & -> & _ & H2). cbn.
  rewrite bool_decide_eq_false_2; [done|]. intros H. apply H2. rewrite forallb_forall in Hi.
  specialize (Hi c (proj1 (list_elem_of_In _ _) H)). by eapply bool_decide_eq_true_1.
Qed.

(** What follows starts with one of [toks], blanks apart, or is the end. *)
Definition starts_in (toks s : list Z) : Prop := match skip_ws s with [] => True | c :: _ => c ∈ toks end.
Lemma peek_no toks toks' s : forallb (fun c => negb (bool_decide (c ∈ toks))) toks' = true ->
  starts_in toks' s -> peek toks s = Ok false (skip_ws s).
Proof.
  intros Hd Hs. rewrite peek_eq. unfold starts_in in Hs. destruct (skip_ws s) as [|c s']; [done|].
  rewrite forallb_forall in Hd. specialize (Hd c (proj1 (list_elem_of_In _ _) Hs)).
  by destruct (bool_decide (c ∈ toks)).
Qed.
(** The character [c] is next, and is taken. *)
Lemma peek_yes toks c s : c ∉ whitespace -> c ∈ toks -> peek toks (c :: s) = Ok true (c :: s).
Proof. intros Hw Hc. rewrite peek_eq, skip_ws_id by done. by rewrite bool_decide_eq_true_2. Qed.
Lemma gettoken_sym c s : c ∉ whitespace -> c ∈ bytes "|();&<" ->
  gettoken (c :: s) = Ok (c, (S (length s), length s)) (skip_ws s).
Proof. intros Hw Hc. rewrite gettoken_eq, skip_ws_id by done. cbn [token]. by rewrite bool_decide_eq_true_2. Qed.
(** Both in one go. *)
Definition is_sym (toks : list Z) (c : Z) : bool :=
  bool_decide (c ∉ whitespace) && bool_decide (c ∈ toks) && bool_decide (c ∈ bytes "|();&<").
Lemma peek_take {A} toks c (k : bool -> parser A) (n : parser A) s :
  is_sym toks c = true -> k true = (gettoken ;; n) -> (peek toks ≫= k) (c :: s) = n (skip_ws s).
Proof.
  unfold is_sym. rewrite !andb_true_iff, !bool_decide_eq_true. intros [[H1 H2] H3] Hk.
  rewrite (bind_ok _ _ _ _ _ (peek_yes toks c s H1 H2)), Hk. by rewrite (bind_ok _ _ _ _ _ (gettoken_sym c s H1 H3)).
Qed.

(** Blanks at the pointer make no difference to what starts with [peek]. *)
Lemma peek_skip {A} toks (k : bool -> parser A) s : (peek toks ≫= k) (skip_ws s) = (peek toks ≫= k) s.
Proof. unfold mbind, M_bind. by rewrite !peek_eq, skip_ws_twice. Qed.
Lemma parseredirs_skip fuel acc s : parseredirs fuel acc (skip_ws s) = parseredirs fuel acc s.
Proof. destruct fuel; apply peek_skip. Qed.
Lemma parseback_skip fuel c s : parseback fuel c (skip_ws s) = parseback fuel c s.
Proof. destruct fuel; apply peek_skip. Qed.
Lemma parseexec_skip size fuel s : parseexec size (S fuel) (skip_ws s) = parseexec size (S fuel) s.
Proof. apply peek_skip. Qed.
Lemma bind_skip {A B} (m : parser A) (k : A -> parser B) s : m (skip_ws s) = m s -> (m ≫= k) (skip_ws s) = (m ≫= k) s.
Proof. unfold mbind, M_bind. by intros ->. Qed.
Lemma parsepipe_skip size fuel s : parsepipe size (S (S fuel)) (skip_ws s) = parsepipe size (S (S fuel)) s.
Proof. apply bind_skip, parseexec_skip. Qed.
Lemma parseline_skip size fuel s : parseline size (S (S (S fuel))) (skip_ws s) = parseline size (S (S (S fuel))) s.
Proof. apply bind_skip, parsepipe_skip. Qed.

(** *** Redirections and words *)

Notation sredir := (list Z * Z * Z)%type.
Definition good_redir (r : sredir) : Prop :=
  good_word r.1.1 /\ ((r.1.2 = O_RDONLY /\ r.2 = 0) \/ (r.1.2 = REPLACE /\ r.2 = 1) \/ (r.1.2 = APPEND /\ r.2 = 1)).
Definition redir_in (s : list Z) (r' : redir) (r : sredir) : Prop :=
  word_in s (r_file r') r.1.1 /\ r_mode r' = r.1.2 /\ r_fd r' = r.2.
Definition pr_redirs (rs : list sredir) : list Z := mjoin ((fun r => pr_redir r.1.1 r.1.2) <$> rs).

Lemma redirs_in_app p s rs' rs : Forall2 (redir_in s) rs' rs -> Forall2 (redir_in (p ++ s)) rs' rs.
Proof. intros H. eapply Forall2_impl; [exact H|]. intros r' r (H1 & H2). split; [by apply word_in_app|done]. Qed.
Lemma space_ends s : word_end (32 :: s).
Proof. intros [H _]. apply H. by left. Qed.
Lemma word_here w s : good_word w -> word_end s -> word_in (w ++ s) (length (w ++ s), length s) w.
Proof. intros Hg He. by exists [], s. Qed.

(** The token of a redirection. *)
Definition redir_kind (mode : Z) : Z := if mode =? O_RDONLY then 60 else if mode =? REPLACE then 62 else 43.
Lemma redir_token f mode s : good_word f ->
  peek (bytes "<>") (pr_redir f mode ++ s) = Ok true (pr_redir f mode ++ s) /\
  exists w, gettoken (pr_redir f mode ++ s) = Ok (redir_kind mode, w) (f ++ 32 :: s).
Proof.
  intros Hg. unfold pr_redir, redir_kind. rewrite <- !app_assoc. cbn [app].
  pose proof (skip_ws_good f (32 :: s) Hg) as Hs.
  assert (H62 : 62 ∉ whitespace /\ 62 ∉ bytes "|();&<") by (split; by apply (bool_decide_unpack _)).
  destruct (good_head f Hg) as (c & f' & -> & _ & Hc). cbn [app] in *.
  destruct (mode =? O_RDONLY); [|destruct (mode =? REPLACE)]; (split; [reflexivity|]); eexists.
  - change (bytes "<" ++ c :: f' ++ 32 :: s) with (60 :: c :: f' ++ 32 :: s).
    rewrite gettoken_sym, Hs; [reflexivity|by apply (bool_decide_unpack _)..].
  - change (bytes ">" ++ c :: f' ++ 32 :: s) with (62 :: c :: f' ++ 32 :: s).
    rewrite gettoken_eq, skip_ws_id by apply H62. cbn [token]. rewrite bool_decide_eq_false_2 by apply H62.
    destruct (Z.eqb_spec c 62) as [->|]; [exfalso; apply Hc; by apply (bool_decide_unpack _)|].
    cbn [fst snd Z.eqb Pos.eqb]. rewrite Hs. reflexivity.
  - change (bytes ">>" ++ c :: f' ++ 32 :: s) with (62 :: 62 :: c :: f' ++ 32 :: s).
    rewrite gettoken_eq, skip_ws_id by apply H62. cbn [token]. rewrite bool_decide_eq_false_2 by apply H62.
    cbn [fst snd Z.eqb Pos.eqb]. rewrite Hs. reflexivity.
Qed.
(** One redirection. *)
Lemma redir_step fuel acc r s : good_redir r -> exists r', redir_in (pr_redir r.1.1 r.1.2 ++ s) r' r /\
  parseredirs (S fuel) acc (pr_redir r.1.1 r.1.2 ++ s) = parseredirs fuel (acc ++ [r']) s.
Proof.
  destruct r as [[f mode] fd]. intros [Hg Hm]. cbn [fst snd] in *.
  pose proof (gettoken_word f (32 :: s) Hg (space_ends s)) as Hf.
  pose proof (word_here f (32 :: s) Hg (space_ends s)) as Hw.
  exists (mk_redir (length (f ++ 32 :: s), length (32 :: s)) mode fd). split.
  - split; [|done]. cbn [r_file fst]. unfold pr_redir. rewrite <- !app_assoc. by apply word_in_app.
  - change (skip_ws (32 :: s)) with (skip_ws s) in Hf. destruct (redir_token f mode s Hg) as (H1 & w & H2).
    cbn [parseredirs]. rewrite (bind_ok _ _ _ _ _ H1). cbn [negb].
    rewrite (bind_ok _ _ _ _ _ H2), (bind_ok _ _ _ _ _ Hf). cbn [fst snd negb Z.eqb Pos.eqb].
    rewrite parseredirs_skip. destruct Hm as [[-> ->]|[[-> ->]|[-> ->]]]; reflexivity.
Qed.
Lemma parseredirs_print rs : forall fuel acc post, (length rs <= fuel)%nat -> Forall good_redir rs ->
  starts_in (bytes "|)&;") post ->
  exists rs', Forall2 (redir_in (pr_redirs rs ++ post)) rs' rs /\
    parseredirs fuel acc (pr_redirs rs ++ post) = Ok (acc ++ rs') (skip_ws post).
Proof.
  induction rs as [|r rs IH]; intros fuel acc post Hf Hg Hp.
  - exists []. split; [constructor|]. cbn [pr_redirs fmap list_fmap mjoin list_join app].
    destruct fuel; cbn [parseredirs]; rewrite (bind_ok _ _ _ _ _ (peek_no (bytes "<>") (bytes "|)&;") _ eq_refl Hp)); cbn; by rewrite app_nil_r.
  - destruct fuel as [|fuel]; [cbn in Hf; lia|]. apply Forall_cons in Hg as [Hg1 Hg2].
    destruct (redir_step fuel acc r (pr_redirs rs ++ post) Hg1) as (r' & Hr & Hs).
    destruct (IH fuel (acc ++ [r']) post ltac:(cbn in Hf; lia) Hg2 Hp) as (rs' & Hrs & Hs').
    exists (r' :: rs').
    change (pr_redirs (r :: rs)) with (pr_redir r.1.1 r.1.2 ++ pr_redirs rs). rewrite <- app_assoc. split.
    + constructor; [exact Hr|]. by apply redirs_in_app.
    + by rewrite Hs, Hs', <- app_assoc.
Qed.

(** The words of a command, then its redirections. *)
Lemma parseargs_stop fuel rfuel argv rs post : starts_in (bytes "|)&;") post ->
  parseargs (S fuel) rfuel argv rs post = Ok (redirs_on rs (EXEC argv)) (skip_ws post).
Proof.
  intros Hp. cbn [parseargs]. unfold mbind at 1, M_bind at 1. rewrite peek_eq. unfold starts_in in Hp.
  destruct (skip_ws post) as [|c s]; [done|]. by rewrite bool_decide_eq_true_2.
Qed.
Lemma parseargs_print rfuel rs post argv : forall fuel a0,
  (length argv < fuel)%nat -> (length rs <= rfuel)%nat -> (length a0 + length argv < MAXARGS)%nat ->
  Forall good_word argv -> Forall good_redir rs -> starts_in (bytes "|)&;") post ->
  exists argv' rs', Forall2 (word_in (pr_words argv ++ pr_redirs rs ++ post)) argv' argv /\
    Forall2 (redir_in (pr_words argv ++ pr_redirs rs ++ post)) rs' rs /\
    (rs ← parseredirs rfuel []; parseargs fuel rfuel a0 rs) (pr_words argv ++ pr_redirs rs ++ post)
    = Ok (redirs_on rs' (EXEC (a0 ++ argv'))) (skip_ws post).
Proof.
  induction argv as [|w argv IH]; intros [|fuel] a0 Hf Hr Ha Hw Hg Hp; cbn in Hf, Ha; try lia.
  - destruct (parseredirs_print rs rfuel [] post Hr Hg Hp) as (rs' & Hrs & Hs).
    exists [], rs'. split; [constructor|]. split; [exact Hrs|]. cbn [pr_words fmap list_fmap mjoin list_join app] in *.
    rewrite (bind_ok _ _ _ _ _ Hs), app_nil_r. rewrite parseargs_stop; [by rewrite skip_ws_twice|].
    unfold starts_in. by rewrite skip_ws_twice.
  - apply Forall_cons in Hw as [Hw1 Hw2]. set (T := pr_words argv ++ pr_redirs rs ++ post) in *.
    destruct (IH fuel (a0 ++ [(length (w ++ 32 :: T), length (32 :: T))]) ltac:(lia) Hr
      ltac:(rewrite length_app; cbn; lia) Hw2 Hg Hp) as (argv' & rs' & H1 & H2 & H3).
    assert (HT : pr_words (w :: argv) ++ pr_redirs rs ++ post = w ++ 32 :: T).
    { cbn [pr_words fmap list_fmap mjoin list_join]. subst T. by rewrite <- !app_assoc. }
    rewrite HT. exists ((length (w ++ 32 :: T), length (32 :: T)) :: argv'), rs'. split_and!.
    + constructor; [apply word_here; [done|apply space_ends]|].
      eapply Forall2_impl; [exact H1|]. intros. rewrite (cons_middle 32 w T), app_assoc. by apply word_in_app.
    + rewrite (cons_middle 32 w T), app_assoc. by apply redirs_in_app.
    + assert (Hpr : parseredirs rfuel [] (w ++ 32 :: T) = Ok [] (w ++ 32 :: T)).
      { destruct rfuel; cbn [parseredirs]; rewrite (bind_ok _ _ _ _ _ (peek_word (bytes "<>") w _ eq_refl Hw1)); reflexivity. }
      rewrite (bind_ok _ _ _ _ _ Hpr). cbn [parseargs].
      rewrite (bind_ok _ _ _ _ _ (peek_word (bytes "|)&;") w _ eq_refl Hw1)).
      rewrite (bind_ok _ _ _ _ _ (gettoken_word w (32 :: T) Hw1 (space_ends T))). cbn [fst snd Z.eqb Pos.eqb negb].
      destruct (Nat.leb_spec MAXARGS (length (a0 ++ [(length (w ++ 32 :: T), length (32 :: T))]))) as [Hl|_];
        [rewrite length_app in Hl; cbn in Hl; lia|].
      change (skip_ws (32 :: T)) with (skip_ws T). rewrite (bind_skip _ _ _ (parseredirs_skip _ _ _)), H3.
      by rewrite <- app_assoc.
Qed.

(** *** Commands *)

Lemma pr_redirs_len rs : (length rs <= length (pr_redirs rs))%nat.
Proof.
  induction rs as [|r rs IH]; cbn; [lia|]. change (mjoin _) with (pr_redirs rs).
  rewrite length_app. unfold pr_redir. rewrite !length_app. cbn. lia.
Qed.
Lemma pr_words_len argv : (length argv <= length (pr_words argv))%nat.
Proof.
  induction argv as [|w argv IH]; cbn; [lia|]. change (mjoin _) with (pr_words argv). rewrite !length_app. cbn. lia.
Qed.
Lemma starts_more toks toks' s : starts_in toks s ->
  forallb (fun c => bool_decide (c ∈ toks')) toks = true -> starts_in toks' s.
Proof.
  unfold starts_in. intros Hs Hi. destruct (skip_ws s) as [|c s']; [done|]. rewrite forallb_forall in Hi.
  specialize (Hi c (proj1 (list_elem_of_In _ _) Hs)). by eapply bool_decide_eq_true_1.
Qed.
Lemma starts_skip toks s : starts_in toks s -> starts_in toks (skip_ws s).
Proof. unfold starts_in. by rewrite skip_ws_twice. Qed.

Lemma starts_sym toks c s : is_sym toks c = true -> starts_in toks (c :: s).
Proof.
  unfold is_sym, starts_in. rewrite !andb_true_iff, !bool_decide_eq_true. intros [[H1 H2] _]. by rewrite skip_ws_id.
Qed.

Section Levels.
Variable size : nat.

(** The functions of the parser read the text of [c] and stop after it. *)
Definition reads_exec (c : cmd (list Z)) : Prop := forall rs post fuel,
  Forall good_redir rs -> starts_in (bytes "|)&;") post ->
  let s := print LExec c ++ pr_redirs rs ++ post in
  (length s <= size)%nat -> (4 * length s + 2 <= fuel)%nat ->
  exists c' rs', words_in s c' c /\ Forall2 (redir_in s) rs' rs /\
    parseexec size fuel s = Ok (redirs_on rs' c') (skip_ws post).
Definition reads_pipe (c : cmd (list Z)) : Prop := forall post fuel,
  starts_in (bytes ")&;") post ->
  let s := print LPipe c ++ post in
  (length s <= size)%nat -> (4 * length s + 3 <= fuel)%nat ->
  exists c', words_in s c' c /\ parsepipe size fuel s = Ok c' (skip_ws post).
Definition reads_back (c : cmd (list Z)) : Prop := forall k post fuel,
  starts_in (bytes ");") post ->
  let s := print LBack c ++ repeat 38 k ++ post in
  (length s <= size)%nat -> (4 * length s + 3 <= fuel)%nat ->
  exists c', words_in s c' c /\
    (parsepipe size fuel ≫= parseback size) s = Ok (Nat.iter k BACK c') (skip_ws post).
Definition reads_line (c : cmd (list Z)) : Prop := forall post fuel,
  starts_in (bytes ")") post ->
  let s := print LLine c ++ post in
  (length s <= size)%nat -> (4 * length s + 4 <= fuel)%nat ->
  exists c', words_in s c' c /\ parseline size fuel s = Ok c' (skip_ws post).

Lemma exec_pipe c : print LPipe c = print LExec c -> reads_exec c -> reads_pipe c.
Proof.
  intros He H post fuel Hp s Hs Hf. subst s. rewrite He in *. destruct fuel as [|fuel]; [lia|].
  destruct (H [] post fuel (Forall_nil_2 _) (starts_more _ (bytes "|)&;") _ Hp eq_refl) Hs ltac:(cbn in *; lia)) as (c' & rs' & H1 & H2 & H3).
  apply Forall2_nil_inv_r in H2 as ->. exists c'. split; [exact H1|]. cbn [parsepipe].
  change (pr_redirs [] ++ post) with post in H3. rewrite (bind_ok _ _ _ _ _ H3).
  rewrite (bind_ok _ _ _ _ _ (peek_no (bytes "|") (bytes ")&;") _ eq_refl (starts_skip _ _ Hp))). by rewrite skip_ws_twice.
Qed.
Lemma parseback_print k : forall fuel c post, (k <= fuel)%nat -> starts_in (bytes ");") post ->
  parseback fuel c (repeat 38 k ++ post) = Ok (Nat.iter k BACK c) (skip_ws post).
Proof.
  induction k as [|k IH]; intros fuel c post Hf Hp; cbn [repeat app].
  - destruct fuel; cbn [parseback]; by rewrite (bind_ok _ _ _ _ _ (peek_no (bytes "&") (bytes ");") _ eq_refl Hp)).
  - destruct fuel as [|fuel]; [lia|]. cbn [parseback].
    erewrite peek_take by reflexivity.
    rewrite parseback_skip, IH by (done || lia). by rewrite Nat.iter_succ_r.
Qed.
Lemma pipe_back c : print LBack c = print LPipe c -> reads_pipe c -> reads_back c.
Proof.
  intros He H k post fuel Hp s Hs Hf. subst s. rewrite He in *.
  assert (Hk : starts_in (bytes ")&;") (repeat 38 k ++ post)).
  { destruct k; cbn [repeat app]; [by apply (starts_more _ _ _ Hp)|by apply starts_sym]. }
  destruct (H _ fuel Hk Hs Hf) as (c' & H1 & H2). exists c'. split; [exact H1|].
  rewrite (bind_ok _ _ _ _ _ H2), parseback_skip. apply parseback_print; [|done].
  rewrite !length_app, repeat_length in Hs. lia.
Qed.
Lemma back_line c : print LLine c = print LBack c -> reads_back c -> reads_line c.
Proof.
  intros He H post fuel Hp s Hs Hf. subst s. rewrite He in *. destruct fuel as [|fuel]; [lia|].
  destruct (H 0%nat post fuel ltac:(by apply (starts_more _ _ _ Hp)) Hs ltac:(cbn in *; lia)) as (c' & H1 & H2).
  exists c'. split; [exact H1|]. cbn [parseline]. cbn [repeat app Nat.iter] in H2.
  rewrite <- bind_assoc, (bind_ok _ _ _ _ _ H2).
  rewrite (bind_ok _ _ _ _ _ (peek_no (bytes ";") (bytes ")") _ eq_refl (starts_skip _ _ Hp))). by rewrite skip_ws_twice.
Qed.
Lemma line_exec c : print LExec c = parens (print LLine c) -> reads_line c -> reads_exec c.
Proof.
  intros He H rs post fuel Hg Hp s Hs Hf. subst s. rewrite He in *. unfold parens in *.
  change (bytes "(") with [40] in *. change (bytes ")") with [41] in *. cbn [app] in *. rewrite <- app_assoc in *.
  cbn [app length] in *. destruct fuel as [|[|fuel]]; [lia..|]. set (T := pr_redirs rs ++ post) in *.
  destruct (H (41 :: T) fuel ltac:(by apply starts_sym) ltac:(cbn in *; lia) ltac:(cbn in *; lia)) as (c' & H1 & H2).
  destruct (parseredirs_print rs size [] post ltac:(pose proof (pr_redirs_len rs); subst T; rewrite !length_app in Hs; cbn in Hs; rewrite length_app in Hs; lia) Hg Hp) as (rs' & H3 & H4).
  exists c', rs'. split_and!.
  - exact (words_in_app [40] _ _ _ H1).
  - rewrite cons_middle, app_assoc. apply (redirs_in_app (40 :: _)). exact H3.
  - cbn [parseexec]. rewrite (bind_ok _ _ _ _ _ (peek_yes (bytes "(") 40 _ ltac:(by apply (bool_decide_unpack _)) ltac:(by apply (bool_decide_unpack _)))).
    cbn [parseblock]. erewrite peek_take by reflexivity. rewrite bind_skip.
    + rewrite (bind_ok _ _ _ _ _ H2). change (skip_ws (41 :: T)) with (41 :: T).
      erewrite peek_take by reflexivity. rewrite (bind_skip _ _ _ (parseredirs_skip _ _ _)).
      by rewrite (bind_ok _ _ _ _ _ H4).
    + do 3 (destruct fuel as [|fuel]; [lia|]). apply parseline_skip.
Qed.
(** A simple command does not start with a parenthesis. *)
Lemma exec_no_block argv rs post : Forall good_word argv -> starts_in (bytes "|)&;") post ->
  let s := pr_words argv ++ pr_redirs rs ++ post in peek (bytes "(") s = Ok false (skip_ws s).
Proof.
  intros Hw Hp. cbv zeta. destruct Hw as [|w argv Hw _].
  - destruct rs as [|[[f mode] fd] rs]; [exact (peek_no (bytes "(") (bytes "|)&;") _ eq_refl Hp)|].
    cbn [pr_words pr_redirs fmap list_fmap mjoin list_join app fst snd]. unfold pr_redir.
    destruct (mode =? O_RDONLY); [reflexivity|]. destruct (mode =? REPLACE); reflexivity.
  - cbn [pr_words fmap list_fmap mjoin list_join]. rewrite <- !app_assoc.
    rewrite (skip_ws_good w) by done. exact (peek_word (bytes "(") w _ eq_refl Hw).
Qed.
Lemma exec_reads argv : (length argv < MAXARGS)%nat -> Forall good_word argv -> reads_exec (EXEC argv).
Proof.
  intros Ha Hw rs post fuel Hr Hp s Hs Hf. destruct fuel as [|fuel]; [lia|]. cbn [print] in s.
  pose proof (pr_redirs_len rs). pose proof (pr_words_len argv).
  assert (Hl : length s = (length (pr_words argv) + (length (pr_redirs rs) + length post))%nat) by (subst s; by rewrite !length_app).
  destruct (parseargs_print size rs post argv (S size) [] ltac:(lia) ltac:(lia) Ha Hw Hr Hp) as (argv' & rs' & H1 & H2 & H3).
  exists (EXEC argv'), rs'. split; [exact H1|]. split; [exact H2|]. cbn [parseexec].
  rewrite (bind_ok _ _ _ _ _ (exec_no_block argv rs post Hw Hp)). by rewrite (bind_skip _ _ _ (parseredirs_skip _ _ _)).
Qed.
Lemma redir_reads c f mode fd : good_redir (f, mode, fd) -> reads_exec c -> reads_exec (REDIR c f mode fd).
Proof.
  intros Hg H rs post fuel Hr Hp s Hs Hf. subst s.
  change (print LExec (REDIR c f mode fd)) with (print LExec c ++ pr_redir f mode) in *. rewrite <- app_assoc in *.
  rewrite (app_assoc (pr_redir f mode)) in *.
  destruct (H ((f, mode, fd) :: rs) post fuel ltac:(by constructor) Hp Hs Hf) as (c' & rs' & H1 & H2 & H3).
  destruct rs' as [|r' rs']; [by inversion H2|]. apply Forall2_cons in H2 as [(Hf1 & Hf2 & Hf3) H2].
  exists (REDIR c' (r_file r') (r_mode r') (r_fd r')), rs'. split; [by split_and!|]. split; [exact H2|exact H3].
Qed.
Lemma pipe_reads l r : reads_exec l -> reads_pipe r -> reads_pipe (PIPE l r).
Proof.
  intros Hl Hr post fuel Hp s Hs Hf. subst s.
  change (print LPipe (PIPE l r)) with (print LExec l ++ 124 :: print LPipe r) in *. rewrite <- app_assoc in *.
  cbn [app] in *. rewrite length_app in *. cbn [length] in *. destruct fuel as [|fuel]; [lia|].
  destruct (Hl [] (124 :: print LPipe r ++ post) fuel ltac:(constructor) ltac:(by apply starts_sym)
    ltac:(cbn; rewrite length_app; cbn; lia) ltac:(cbn; rewrite length_app; cbn; lia)) as (l' & rs' & L1 & L2 & L3).
  apply Forall2_nil_inv_r in L2 as ->.
  destruct (Hr post fuel Hp ltac:(lia) ltac:(lia)) as (r' & R1 & R2).
  exists (PIPE l' r'). split.
  - split; [exact L1|]. apply words_in_app, (words_in_app [124]). exact R1.
  - cbn [parsepipe]. cbn [pr_redirs fmap list_fmap mjoin list_join app] in L3. rewrite (bind_ok _ _ _ _ _ L3).
    change (skip_ws (124 :: ?s)) with (124 :: s). erewrite peek_take by reflexivity.
    do 2 (destruct fuel as [|fuel]; [lia|]). rewrite bind_skip by apply parsepipe_skip.
    by rewrite (bind_ok _ _ _ _ _ R2).
Qed.
Lemma back_reads c : reads_back c -> reads_back (BACK c).
Proof.
  intros H k post fuel Hp s Hs Hf. subst s.
  change (print LBack (BACK c)) with (print LBack c ++ [38]) in *. rewrite <- app_assoc in *.
  destruct (H (S k) post fuel Hp Hs Hf) as (c' & H1 & H2). exists (BACK c'). split; [exact H1|].
  by rewrite <- Nat.iter_succ_r.
Qed.
Lemma list_reads l r : reads_back l -> reads_line r -> reads_line (LIST l r).
Proof.
  intros Hl Hr post fuel Hp s Hs Hf. subst s.
  change (print LLine (LIST l r)) with (print LBack l ++ 59 :: print LLine r) in *. rewrite <- app_assoc in *.
  cbn [app] in *. rewrite length_app in *. cbn [length] in *. destruct fuel as [|fuel]; [lia|].
  destruct (Hl 0%nat (59 :: print LLine r ++ post) fuel ltac:(by apply starts_sym)
    ltac:(cbn; rewrite length_app; cbn; lia) ltac:(cbn; rewrite length_app; cbn; lia)) as (l' & L1 & L2).
  destruct (Hr post fuel Hp ltac:(lia) ltac:(lia)) as (r' & R1 & R2).
  exists (LIST l' r'). split.
  - split; [exact L1|]. apply words_in_app, (words_in_app [59]). exact R1.
  - cbn [parseline]. cbn [repeat app Nat.iter] in L2. rewrite <- bind_assoc, (bind_ok _ _ _ _ _ L2).
    change (skip_ws (59 :: ?s)) with (59 :: s). erewrite peek_take by reflexivity.
    do 3 (destruct fuel as [|fuel]; [lia|]). rewrite bind_skip by apply parseline_skip.
    by rewrite (bind_ok _ _ _ _ _ R2).
Qed.

(** Every command is read at every level. *)
Lemma print_parses c : good c -> reads_exec c /\ reads_pipe c /\ reads_back c /\ reads_line c.
Proof.
  induction c as [argv|c IH f mode fd|l IHl r IHr|l IHl r IHr|c IH]; cbn [good].
  - intros [Ha Hw]. pose proof (exec_reads argv Ha Hw) as H.
    pose proof (exec_pipe (EXEC argv) eq_refl H) as H2. pose proof (pipe_back (EXEC argv) eq_refl H2) as H3.
    pose proof (back_line (EXEC argv) eq_refl H3) as H4. auto.
  - intros (Hc & Hg). pose proof (redir_reads c f mode fd Hg (proj1 (IH Hc))) as H.
    pose proof (exec_pipe (REDIR c f mode fd) eq_refl H) as H2. pose proof (pipe_back (REDIR c f mode fd) eq_refl H2) as H3.
    pose proof (back_line (REDIR c f mode fd) eq_refl H3) as H4. auto.
  - intros [Hl Hr]. assert (H : reads_pipe (PIPE l r)) by (apply pipe_reads; naive_solver).
    pose proof (pipe_back (PIPE l r) eq_refl H) as H2. pose proof (back_line (PIPE l r) eq_refl H2) as H3.
    pose proof (line_exec (PIPE l r) eq_refl H3) as H4. auto.
  - intros [Hl Hr]. assert (H : reads_line (LIST l r)) by (apply list_reads; naive_solver).
    pose proof (line_exec (LIST l r) eq_refl H) as H2. pose proof (exec_pipe (LIST l r) eq_refl H2) as H3.
    pose proof (pipe_back (LIST l r) eq_refl H3) as H4. auto.
  - intros Hc. assert (H : reads_back (BACK c)) by (apply back_reads; naive_solver).
    pose proof (back_line (BACK c) eq_refl H) as H2. pose proof (line_exec (BACK c) eq_refl H2) as H3.
    pose proof (exec_pipe (BACK c) eq_refl H3) as H4. auto.
Qed.
End Levels.

(** *** The strings of the words *)

(** The buffer [b] of the text [T] and its NUL, where [nulterminate] has
    overwritten ends of words. *)
Definition cut_of (T b : list Z) : Prop :=
  length b = S (length T) /\ (forall i c, T !! i = Some c -> wordchar c -> b !! i = Some c).
(** The word of [w] is terminated in [b]. *)
Definition cut_at (T b : list Z) (w : word) : Prop := b !! (length T - w.2)%nat = Some 0.
Fixpoint words (c : cmd word) : list word :=
  match c with
  | EXEC argv => argv
  | REDIR c f _ _ => words c ++ [f]
  | PIPE l r | LIST l r => words l ++ words r
  | BACK c => words c
  end.

Lemma nulterminate_words es c : forall b, nulterminate es c b = foldl (fun b w => end_word es w b) b (words c).
Proof.
  induction c as [argv|c IH f mode fd|l IHl r IHr|l IHl r IHr|c IH]; intros b; cbn [nulterminate words]; [done|..].
  - by rewrite foldl_app, IH.
  - by rewrite foldl_app, IHl, IHr.
  - by rewrite foldl_app, IHl, IHr.
  - apply IH.
Qed.
Lemma words_in_words T c' : forall c, words_in T c' c -> Forall (fun w => exists x, word_in T w x) (words c').
Proof.
  induction c' as [a'|x' IH f' m' d'|l' IHl r' IHr|l' IHl r' IHr|x' IH]; intros [a|x f m d|l r|l r|x]; cbn [words_in]; try done.
  - intros H. cbn. induction H; constructor; eauto.
  - intros (H1 & H2 & _). cbn [words]. apply Forall_app. split; [eapply IH, H1|]. constructor; eauto.
  - intros [H1 H2]. apply Forall_app. split; [eapply IHl, H1|eapply IHr, H2].
  - intros [H1 H2]. apply Forall_app. split; [eapply IHl, H1|eapply IHr, H2].
  - apply IH.
Qed.

(** Ending one word keeps the others. *)
Lemma end_word_cut T b w x : word_in T w x -> cut_of T b ->
  cut_of T (end_word (length T) w b) /\ cut_at T (end_word (length T) w b) w /\
  forall w', cut_at T b w' -> cut_at T (end_word (length T) w b) w'.
Proof.
  intros (p & e & HT & -> & _ & He) [Hl Hb]. unfold end_word, cut_of, cut_at. cbn [snd].
  assert (Hlt : (length T - length e < length b)%nat) by lia.
  assert (HTl : length T = (length (p ++ x) + length e)%nat) by (rewrite HT, app_assoc; apply length_app).
  split_and!.
  - by rewrite length_insert.
  - intros i c Hi Hc. rewrite list_lookup_insert_ne; [by apply Hb|]. intros <-.
    replace (length T - length e)%nat with (length (p ++ x)) in Hi by lia.
    rewrite HT, app_assoc, lookup_app_r, Nat.sub_diag in Hi by done. destruct e as [|d e]; [done|]. by injection Hi as ->.
  - by rewrite list_lookup_insert_eq.
  - intros w' Hw'. destruct (decide ((length T - length e)%nat = (length T - w'.2)%nat)) as [<-|Hne].
    + by rewrite list_lookup_insert_eq.
    + by rewrite list_lookup_insert_ne.
Qed.
Lemma cut_words T ws : forall b, Forall (fun w => exists x, word_in T w x) ws -> cut_of T b ->
  let b' := foldl (fun b w => end_word (length T) w b) b ws in
  cut_of T b' /\ (forall w, cut_at T b w -> cut_at T b' w) /\ Forall (cut_at T b') ws.
Proof.
  induction ws as [|w ws IH]; intros b Hws Hb; cbn [foldl]; [auto|].
  apply Forall_cons in Hws as [[x Hw] Hws]. destruct (end_word_cut T b w x Hw Hb) as (H1 & H2 & H3).
  destruct (IH _ Hws H1) as (H4 & H5 & H6). split_and!; [exact H4|auto|]. constructor; auto.
Qed.
Lemma cstr_app x l : Forall (fun c => wordchar c /\ c <> 0) x -> cstr (x ++ 0 :: l) = x.
Proof. induction 1 as [|c x [_ Hc] Hx IH]; cbn; [done|]. destruct (Z.eqb_spec c 0); [done|]. by rewrite IH. Qed.
(** A terminated word is the string its pointer points to. *)
Lemma str_at_word T b w x : word_in T w x -> cut_of T b -> cut_at T b w -> str_at (length T) b w = x.
Proof.
  intros (p & e & HT & -> & [_ Hx] & _) [Hl Hb] Hw. unfold str_at, cut_at in *. cbn [fst snd] in *.
  assert (HTl : length T = (length p + (length x + length e))%nat) by (rewrite HT, !length_app; lia).
  rewrite length_app. replace (length T - (length x + length e))%nat with (length p) by lia.
  replace (length T - length e)%nat with (length p + length x)%nat in Hw by lia.
  assert (E : drop (length p) b = x ++ 0 :: drop (S (length x)) (drop (length p) b)).
  { rewrite <- (take_drop (length x) (drop (length p) b)) at 1. f_equal.
    - apply list_eq. intros i. destruct (decide (i < length x)%nat) as [Hi|Hi].
      + rewrite lookup_take_lt, lookup_drop by done. destruct (lookup_lt_is_Some_2 x i Hi) as [c Hc].
        rewrite Hc. apply Hb; [|exact (proj1 (Forall_lookup_1 _ _ _ _ Hx Hc))].
        rewrite HT, lookup_app_r by lia. replace (length p + i - length p)%nat with i by lia. by apply lookup_app_l_Some.
      + rewrite (lookup_ge_None_2 x) by lia. apply lookup_take_ge. lia.
    - rewrite !drop_drop. erewrite drop_S by exact Hw. f_equal. f_equal. lia. }
  rewrite E. by apply cstr_app.
Qed.

(** The command with [f] of its words. *)
Fixpoint cmd_map {V W} (f : V -> W) (c : cmd V) : cmd W :=
  match c with
  | EXEC argv => EXEC (f <$> argv)
  | REDIR c x mode fd => REDIR (cmd_map f c) (f x) mode fd
  | PIPE l r => PIPE (cmd_map f l) (cmd_map f r)
  | LIST l r => LIST (cmd_map f l) (cmd_map f r)
  | BACK c => BACK (cmd_map f c)
  end.
Lemma cut_command T b c' : forall c, cut_of T b -> words_in T c' c -> Forall (cut_at T b) (words c') ->
  cmd_map (str_at (length T) b) c' = c.
Proof.
  induction c' as [a'|x' IH f' m' d'|l' IHl r' IHr|l' IHl r' IHr|x' IH]; intros [a|x f m d|l r|l r|x] Hb; cbn [words_in words cmd_map]; try done.
  - intros H Hc. f_equal. induction H as [|w y ws ys Hw H IH]; [done|]. apply Forall_cons in Hc as [Hc1 Hc2].
    cbn [fmap list_fmap]. rewrite (str_at_word T b w y) by done. f_equal. by apply IH.
  - intros (H1 & H2 & -> & ->) Hc. apply Forall_app in Hc as [Hc1 Hc2]. apply Forall_cons in Hc2 as [Hc2 _].
    by rewrite (IH x), (str_at_word T b f' f).
  - intros [H1 H2] Hc. apply Forall_app in Hc as [Hc1 Hc2]. by rewrite (IHl l), (IHr r).
  - intros [H1 H2] Hc. apply Forall_app in Hc as [Hc1 Hc2]. by rewrite (IHl l), (IHr r).
  - intros H Hc. by rewrite (IH x).
Qed.

(** C32: the shell reads back every command.  Print a command (words, pipes,
    lists, background commands and redirections, with parentheses where a
    level needs them) and give the text to [parsecmd]: it consumes it all and,
    once [nulterminate] has cut the words in the buffer, returns the same
    command, each of its pointers pointing to the word's string. *)
Theorem parsecmd_print c : good c ->
  let text := print LLine c in
  exists c', parsecmd_text (parse_fuel text) text = Ok c' [] /\
    let buf := nulterminate (length text) c' (text ++ [0]) in
    cmd_map (str_at (length text) buf) c' = c.
Proof.
  intros Hg text. destruct (print_parses (length text) c Hg) as (_ & _ & _ & Hl).
  destruct (Hl [] (parse_fuel text)) as (c' & Hw & Hp); rewrite ?app_nil_r in *; [done|done|unfold parse_fuel; fold text; lia|].
  fold text in Hw, Hp. exists c'. split.
  - unfold parsecmd_text. rewrite (bind_ok ps _ text text text eq_refl), (bind_ok _ _ _ _ _ Hp). reflexivity.
  - cbv zeta. rewrite nulterminate_words.
    destruct (cut_words text (words c') (text ++ [0]) (words_in_words _ _ _ Hw)) as (H1 & _ & H3).
    + split; [rewrite length_app; cbn; lia|]. intros i d Hi _. by apply lookup_app_l_Some.
    + by apply cut_command.
Qed.

(** [(ls <a >b; wc|cat)& echo] is such a command. *)
Lemma parsecmd_print_witness :
  let c := LIST (BACK (LIST (REDIR (REDIR (EXEC [bytes "ls"]) (bytes "a") O_RDONLY 0) (bytes "b") REPLACE 1)
                            (PIPE (EXEC [bytes "wc"]) (EXEC [bytes "cat"])))) (EXEC [bytes "echo"; bytes "x"]) in
  exists c', parsecmd_text (parse_fuel (print LLine c)) (print LLine c) = Ok c' [] /\
    cmd_map (str_at (length (print LLine c)) (nulterminate (length (print LLine c)) c' (print LLine c ++ [0]))) c' = c.
Proof.
  intros c. apply (parsecmd_print c). apply (bool_decide_unpack _). vm_compute. exact I.
Defined.
