(* ===== verification/TestLib.v ===== *)
(** * What the tests of user/usertests.c have in common

    A test is a tree of system calls, as the other user programs; where it
    forks, the tree goes on as the parent or as the child, according to the
    answer.  Each test starts in a process of its own, with the static buffer
    [buf] all zeroes.  The tests are in TestFs.v, TestProc.v and TestMem.v, the
    program that runs them in Usertests.v. *)
From S2P Require Import Prelude Memory Machine User.
From stdpp Require Import gmap strings countable prelude.

Open Scope Z_scope.

(** ** Calls *)

Definition open (path : string) (mode : Z) : prog Z := sys (Sopen (bytes path) mode).
Definition close (fd : Z) : prog unit := sys (Sclose fd) ;; mret tt.
Definition write (fd : Z) (b : list Z) : prog Z := sys (Swrite fd b).
Definition unlink (path : string) : prog Z := sys (Sunlink (bytes path)).
Definition link (old new : string) : prog Z := sys (Slink (bytes old) (bytes new)).
Definition mkdir (path : string) : prog Z := sys (Smkdir (bytes path)).
Definition chdir (path : string) : prog Z := sys (Schdir (bytes path)).
Definition fork : prog Z := sys Sfork.
Definition kill (pid : Z) : prog Z := sys (Skill pid).
Definition sleep (n : Z) : prog Z := sys (Ssleep n).
Definition sbrk (n : Z) : prog Z := sys (Ssbrk n).
Definition exec (path : string) (argv : list (list Z)) : prog Z := sys (Sexec (bytes path) argv).
Definition ignore (p : prog Z) : prog unit := p ;; mret tt.

Definition RDWR_CREATE : Z := Z.lor O_CREATE O_RDWR.

(** [wait(&st)]: the result and the status; [st] was [st0] before. *)
Definition wait_st (st0 : Z) : prog (Z * Z) :=
  Call Swait (fun r => Ret (rv r, if rv r <? 0 then st0 else s32 (u32_at (rdata r) 0))).
(** [wait(0)] *)
Definition wait : prog Z := sys Swait.
(** [pipe(fds)]: the result, [fds[0]] and [fds[1]]. *)
Definition pipe : prog (Z * Z * Z) :=
  Call Spipe (fun r => Ret (rv r, s32 (u32_at (rdata r) 0), s32 (u32_at (rdata r) 4))).

(** ** Failing *)

Definition die {A} (fmt : list Z) (ap : list varg) : prog A := printf fmt ap ;; exit 1.
(** [if(b){ printf(fmt, ...); exit(1); }] *)
Definition check (b : bool) (fmt : list Z) (ap : list varg) : prog unit :=
  if b then die fmt ap else mret tt.
(** The same with a message that starts with the name of the test and ends in a
    newline, or has none. *)
Definition fails (s : list Z) (b : bool) (t : string) : prog unit :=
  check b (line ("%s: " +:+ t)) [AStr (Some s)].
Definition fails_ (s : list Z) (b : bool) (t : string) : prog unit :=
  check b (bytes ("%s: " +:+ t)) [AStr (Some s)].

(** ** Loops *)

(** [for(i = lo; ...; i++)], [n] turns. *)
Fixpoint for_ (n : nat) (i : Z) (body : Z -> prog unit) : prog unit :=
  match n with
  | O => mret tt
  | S n' => body i ;; for_ n' (i + 1) body
  end.
(** The same, left by a break when the body answers [false]: the last [i]. *)
Fixpoint for_break (n : nat) (i : Z) (body : Z -> prog bool) : prog Z :=
  match n with
  | O => mret i
  | S n' => go ← body i; if (go : bool) then for_break n' (i + 1) body else mret i
  end.
(** [while(1)], left when the body answers [None]. *)
Fixpoint forever {A} (fuel : nat) (a : A) (body : A -> prog (option A)) : prog A :=
  match fuel with
  | O => Fuel
  | S fuel' => r ← body a; match r with Some a' => forever fuel' a' body | None => mret a end
  end.
(** [for(;;);] *)
Definition spin {A} : prog A := Fuel.

(** [for(...){ wait(&st); if(st != 0) ... }], [n] turns, with one variable for
    them all. *)
Fixpoint wait_all (n : nat) (st : Z) (bad : Z -> prog unit) : prog unit :=
  match n with
  | O => mret tt
  | S n' =>
    w ← wait_st st;
    (if negb (w.2 =? 0) then bad w.2 else mret tt) ;;
    wait_all n' w.2 bad
  end.

(** ** Memory *)

Definition BUFSZ : Z := (MAXOPBLOCKS + 2) * BSIZE.
(** The static buffer at the start of a test. *)
Definition buf0 : list Z := replicate (Z.to_nat BUFSZ) 0.
(** [n] bytes of a buffer, from its start. *)
Definition first (n : Z) (b : list Z) : list Z := take (Z.to_nat n) b.
(** A buffer after [read] has stored [d] in it, and after [memset(b, c, n)]. *)
Definition stored (d b : list Z) : list Z := d ++ drop (length d) b.
Definition filled (c n : Z) (b : list Z) : list Z := stored (replicate (Z.to_nat n) (u8 c)) b.
(** An address, as the program compares it. *)
Definition addr (v : Z) : Z := u32 v.
Definition NOMEM : Z := 4294967295.

(** One character more, of the digits and the characters after them. *)
Definition digit (i : Z) : Z := u8 (48 + i).
