(* ===== verification/TestFs.v ===== *)
(** * Tests of the file system (user/usertests.c)

    [s] is the name of the test, [fuel] bounds loops that go on until the kernel
    says stop, [junk] is what a local variable or array holds that has not been
    set. *)
From S2P Require Import Prelude Memory Machine User TestLib.
From stdpp Require Import gmap strings countable prelude.

Open Scope Z_scope.

Section TestFs.
Context (fuel : nat) (junk : Z).

(** ** Truncation *)

Definition truncate1 (s : list Z) : prog unit :=
  unlink "truncfile" ;;
  fd1 ← open "truncfile" (Z.lor (Z.lor O_CREATE O_WRONLY) O_TRUNC);
  write fd1 (bytes "abcd") ;;
  close fd1 ;;
  fd2 ← open "truncfile" O_RDONLY;
  n ← read fd2 32;
  check (negb (n.1 =? 4)) (line "%s: read %d bytes, wanted 4") [AStr (Some s); AInt n.1] ;;
  fd1 ← open "truncfile" (Z.lor O_WRONLY O_TRUNC);
  fd3 ← open "truncfile" O_RDONLY;
  n ← read fd3 32;
  (if negb (n.1 =? 0) then
     printf (line "aaa fd3=%d") [AInt fd3] ;;
     die (line "%s: read %d bytes, wanted 0") [AStr (Some s); AInt n.1]
   else mret tt) ;;
  n ← read fd2 32;
  (if negb (n.1 =? 0) then
     printf (line "bbb fd2=%d") [AInt fd2] ;;
     die (line "%s: read %d bytes, wanted 0") [AStr (Some s); AInt n.1]
   else mret tt) ;;
  write fd1 (bytes "abcdef") ;;
  n ← read fd3 32;
  check (negb (n.1 =? 6)) (line "%s: read %d bytes, wanted 6") [AStr (Some s); AInt n.1] ;;
  n ← read fd2 32;
  check (negb (n.1 =? 2)) (line "%s: read %d bytes, wanted 2") [AStr (Some s); AInt n.1] ;;
  unlink "truncfile" ;;
  close fd1 ;;
  close fd2 ;;
  close fd3.

Definition truncate2 (s : list Z) : prog unit :=
  unlink "truncfile" ;;
  fd1 ← open "truncfile" (Z.lor (Z.lor O_CREATE O_TRUNC) O_WRONLY);
  write fd1 (bytes "abcd") ;;
  fd2 ← open "truncfile" (Z.lor O_TRUNC O_WRONLY);
  n ← write fd1 (bytes "x");
  check (negb (n =? -1)) (line "%s: write returned %d, expected -1") [AStr (Some s); AInt n] ;;
  unlink "truncfile" ;;
  close fd1 ;;
  close fd2.

Definition truncate3 (s : list Z) : prog unit :=
  fd ← open "truncfile" (Z.lor (Z.lor O_CREATE O_TRUNC) O_WRONLY);
  close fd ;;
  pid ← fork;
  fails s (pid <? 0) "fork failed" ;;
  if pid =? 0 then
    for_ 100 0 (fun _ =>
      fd ← open "truncfile" O_WRONLY;
      fails s (fd <? 0) "open failed" ;;
      n ← write fd (bytes "1234567890");
      check (negb (n =? 10)) (line "%s: write got %d, expected 10") [AStr (Some s); AInt n] ;;
      close fd ;;
      fd ← open "truncfile" O_RDONLY;
      read fd 32 ;;
      close fd) ;;
    exit 0
  else
  for_ 150 0 (fun _ =>
    fd ← open "truncfile" (Z.lor (Z.lor O_CREATE O_WRONLY) O_TRUNC);
    fails s (fd <? 0) "open failed" ;;
    n ← write fd (bytes "xxx");
    check (negb (n =? 3)) (line "%s: write got %d, expected 3") [AStr (Some s); AInt n] ;;
    close fd) ;;
  w ← wait_st junk;
  unlink "truncfile" ;;
  exit w.2.

(** ** Inodes released in a transaction *)

Definition iputtest (s : list Z) : prog unit :=
  r ← mkdir "iputdir"; fails s (r <? 0) "mkdir failed" ;;
  r ← chdir "iputdir"; fails s (r <? 0) "chdir iputdir failed" ;;
  r ← unlink "../iputdir"; fails s (r <? 0) "unlink ../iputdir failed" ;;
  r ← chdir "/"; fails s (r <? 0) "chdir / failed".

Definition exitiputtest (s : list Z) : prog unit :=
  pid ← fork;
  fails s (pid <? 0) "fork failed" ;;
  if pid =? 0 then
    r ← mkdir "iputdir"; fails s (r <? 0) "mkdir failed" ;;
    r ← chdir "iputdir"; fails s (r <? 0) "child chdir failed" ;;
    r ← unlink "../iputdir"; fails s (r <? 0) "unlink ../iputdir failed" ;;
    exit 0
  else
  w ← wait_st junk;
  exit w.2.

Definition openiputtest (s : list Z) : prog unit :=
  r ← mkdir "oidir"; fails s (r <? 0) "mkdir oidir failed" ;;
  pid ← fork;
  fails s (pid <? 0) "fork failed" ;;
  if pid =? 0 then
    fd ← open "oidir" O_RDWR;
    fails s (0 <=? fd) "open directory for write succeeded" ;;
    exit 0
  else
  sleep 1 ;;
  r ← unlink "oidir"; fails s (negb (r =? 0)) "unlink failed" ;;
  w ← wait_st junk;
  exit w.2.

(** ** Simple tests *)

Definition opentest (s : list Z) : prog unit :=
  fd ← open "echo" 0;
  fails s (fd <? 0) "open echo failed!" ;;
  close fd ;;
  fd ← open "doesnotexist" 0;
  fails s (0 <=? fd) "open doesnotexist succeeded!".

Definition writetest (s : list Z) : prog unit :=
  fd ← open "small" RDWR_CREATE;
  fails s (fd <? 0) "error: creat small failed!" ;;
  for_ 100 0 (fun i =>
    r ← write fd (bytes "aaaaaaaaaa");
    check (negb (r =? 10)) (line "%s: error: write aa %d new file failed") [AStr (Some s); AInt i] ;;
    r ← write fd (bytes "bbbbbbbbbb");
    check (negb (r =? 10)) (line "%s: error: write bb %d new file failed") [AStr (Some s); AInt i]) ;;
  close fd ;;
  fd ← open "small" O_RDONLY;
  fails s (fd <? 0) "error: open small failed!" ;;
  r ← read fd 2000;
  fails s (negb (r.1 =? 2000)) "read failed" ;;
  close fd ;;
  r ← unlink "small"; fails s (r <? 0) "unlink small failed".

(** The loop that reads the blocks back; [n] blocks have been read. *)
Fixpoint writebig_read (fuel : nat) (s : list Z) (fd n : Z) (b : list Z) : prog unit :=
  match fuel with
  | O => Fuel
  | S fuel' =>
    r ← read fd BSIZE;
    if r.1 =? 0 then
      check (n =? MAXFILE - 1) (bytes "%s: read only %d blocks from big") [AStr (Some s); AInt n]
    else if negb (r.1 =? BSIZE) then
      die (line "%s: read failed %d") [AStr (Some s); AInt r.1]
    else
      let b := stored r.2 b in
      let v := s32 (u32_at b 0) in
      check (negb (v =? n)) (line "%s: read content of block %d is %d") [AStr (Some s); AInt n; AInt v] ;;
      writebig_read fuel' s fd (n + 1) b
  end.
Definition writebig (s : list Z) : prog unit :=
  fd ← open "big" RDWR_CREATE;
  fails s (fd <? 0) "error: creat big failed!" ;;
  for_ (Z.to_nat MAXFILE) 0 (fun i =>
    r ← write fd (first BSIZE (stored (bytes_of_u32 i) buf0));
    fails s (negb (r =? BSIZE)) "error: write big file failed") ;;
  close fd ;;
  fd ← open "big" O_RDONLY;
  fails s (fd <? 0) "error: open big failed!" ;;
  writebig_read fuel s fd 0 (stored (bytes_of_u32 (MAXFILE - 1)) buf0) ;;
  close fd ;;
  r ← unlink "big"; fails s (r <? 0) "unlink big failed".

Definition createtest (s : list Z) : prog unit :=
  for_ 52 0 (fun i =>
    fd ← sys (Sopen [97; digit i] RDWR_CREATE);
    close fd) ;;
  for_ 52 0 (fun i => ignore (sys (Sunlink [97; digit i]))).

Definition dirtest (s : list Z) : prog unit :=
  r ← mkdir "dir0"; fails s (r <? 0) "mkdir failed" ;;
  r ← chdir "dir0"; fails s (r <? 0) "chdir dir0 failed" ;;
  r ← chdir ".."; fails s (r <? 0) "chdir .. failed" ;;
  r ← unlink "dir0"; fails s (r <? 0) "unlink dir0 failed".

(** ** Several processes *)

(** How often [c] is in the ten bytes of the buffer. *)
Definition occurrences (c : Z) (b : list Z) : Z := Z.of_nat (length (filter (fun x => x = c) b)).
Fixpoint sharedfd_count (fuel : nat) (fd nc np : Z) (b : list Z) : prog (Z * Z) :=
  match fuel with
  | O => Fuel
  | S fuel' =>
    r ← read fd 10;
    if 0 <? r.1 then
      let b := stored r.2 b in
      sharedfd_count fuel' fd (nc + occurrences 99 b) (np + occurrences 112 b) b
    else mret (nc, np)
  end.
Definition sharedfd (s : list Z) : prog unit :=
  unlink "sharedfd" ;;
  fd ← open "sharedfd" RDWR_CREATE;
  fails_ s (fd <? 0) "cannot open sharedfd for writing" ;;
  pid ← fork;
  let b := replicate 10 (if pid =? 0 then 99 else 112) in
  for_ 1000 0 (fun _ =>
    r ← write fd b;
    fails s (negb (r =? 10)) "write sharedfd failed") ;;
  (if pid =? 0 then exit 0
   else w ← wait_st junk; if negb (w.2 =? 0) then exit w.2 else mret tt) ;;
  close fd ;;
  fd ← open "sharedfd" 0;
  fails s (fd <? 0) "cannot open sharedfd for reading" ;;
  k ← sharedfd_count fuel fd 0 0 b;
  close fd ;;
  unlink "sharedfd" ;;
  if (k.1 =? 10000) && (k.2 =? 10000) then exit 0
  else die (line "%s: nc/np test fails") [AStr (Some s)].

Fixpoint fourfiles_read (fuel : nat) (fd c total : Z) : prog Z :=
  match fuel with
  | O => Fuel
  | S fuel' =>
    r ← read fd BUFSZ;
    if 0 <? r.1 then
      check (negb (forallb (fun x => x =? c) (first r.1 r.2))) (line "wrong char") [] ;;
      fourfiles_read fuel' fd c (total + r.1)
    else mret total
  end.
Definition fourfiles (s : list Z) : prog unit :=
  let fname i := [102; digit i] in
  for_ 4 0 (fun pi =>
    sys (Sunlink (fname pi)) ;;
    pid ← fork;
    check (pid <? 0) (line "fork failed") [] ;;
    if pid =? 0 then
      fd ← sys (Sopen (fname pi) RDWR_CREATE);
      check (fd <? 0) (line "create failed") [] ;;
      for_ 12 0 (fun _ =>
        n ← write fd (replicate 500 (digit pi));
        check (negb (n =? 500)) (line "write failed %d") [AInt n]) ;;
      exit 0
    else mret tt) ;;
  wait_all 4 junk exit ;;
  for_ 4 0 (fun i =>
    fd ← sys (Sopen (fname i) 0);
    total ← fourfiles_read fuel fd (digit i) 0;
    close fd ;;
    check (negb (total =? 6000)) (line "wrong length %d") [AInt total] ;;
    ignore (sys (Sunlink (fname i)))).

Definition createdelete (s : list Z) : prog unit :=
  let name pi i := [u8 (112 + pi); digit i] in
  for_ 4 0 (fun pi =>
    pid ← fork;
    check (pid <? 0) (line "fork failed") [] ;;
    if pid =? 0 then
      for_ 20 0 (fun i =>
        fd ← sys (Sopen (name pi i) RDWR_CREATE);
        fails s (fd <? 0) "create failed" ;;
        close fd ;;
        if (0 <? i) && (i mod 2 =? 0) then
          r ← sys (Sunlink (name pi (i / 2)));
          fails s (r <? 0) "unlink failed"
        else mret tt) ;;
      exit 0
    else mret tt) ;;
  wait_all 4 junk (fun _ => exit 1) ;;
  for_ 20 0 (fun i => for_ 4 0 (fun pi =>
    fd ← sys (Sopen (name pi i) 0);
    (if ((i =? 0) || (10 <=? i)) && (fd <? 0) then
       die (line "%s: oops createdelete %s didn't exist") [AStr (Some s); AStr (Some (name pi i))]
     else if ((1 <=? i) && (i <? 10)) && (0 <=? fd) then
       die (line "%s: oops createdelete %s did exist") [AStr (Some s); AStr (Some (name pi i))]
     else mret tt) ;;
    if 0 <=? fd then close fd else mret tt)) ;;
  for_ 20 0 (fun i => for_ 4 0 (fun _ => ignore (sys (Sunlink (name i i))))).

(** ** Links *)

Definition unlinkread (s : list Z) : prog unit :=
  fd ← open "unlinkread" RDWR_CREATE;
  fails s (fd <? 0) "create unlinkread failed" ;;
  write fd (bytes "hello") ;;
  close fd ;;
  fd ← open "unlinkread" O_RDWR;
  fails s (fd <? 0) "open unlinkread failed" ;;
  r ← unlink "unlinkread"; fails s (negb (r =? 0)) "unlink unlinkread failed" ;;
  fd1 ← open "unlinkread" RDWR_CREATE;
  write fd1 (bytes "yyy") ;;
  close fd1 ;;
  r ← read fd BUFSZ;
  fails_ s (negb (r.1 =? 5)) "unlinkread read failed" ;;
  let b := stored r.2 buf0 in
  fails s (negb (at_ b 0 =? 104)) "unlinkread wrong data" ;;
  r ← write fd (first 10 b);
  fails s (negb (r =? 10)) "unlinkread write failed" ;;
  close fd ;;
  ignore (unlink "unlinkread").

Definition linktest (s : list Z) : prog unit :=
  unlink "lf1" ;;
  unlink "lf2" ;;
  fd ← open "lf1" RDWR_CREATE;
  fails s (fd <? 0) "create lf1 failed" ;;
  r ← write fd (bytes "hello"); fails s (negb (r =? 5)) "write lf1 failed" ;;
  close fd ;;
  r ← link "lf1" "lf2"; fails s (r <? 0) "link lf1 lf2 failed" ;;
  unlink "lf1" ;;
  r ← open "lf1" 0; fails s (0 <=? r) "unlinked lf1 but it is still there!" ;;
  fd ← open "lf2" 0;
  fails s (fd <? 0) "open lf2 failed" ;;
  r ← read fd BUFSZ;
  fails s (negb (r.1 =? 5)) "read lf2 failed" ;;
  close fd ;;
  r ← link "lf2" "lf2"; fails s (0 <=? r) "link lf2 lf2 succeeded! oops" ;;
  unlink "lf2" ;;
  r ← link "lf2" "lf1"; fails s (0 <=? r) "link non-existent succeeded! oops" ;;
  r ← link "." "lf1"; fails s (0 <=? r) "link . lf1 succeeded! oops".

(** The loop over the directory: which files have been seen, and how many. *)
Fixpoint concreate_list (fuel : nat) (s : list Z) (fd n : Z) (fa de : list Z) : prog Z :=
  match fuel with
  | O => Fuel
  | S fuel' =>
    r ← read fd 16;
    if 0 <? r.1 then
      let de := stored r.2 de in
      if u16_at de 0 =? 0 then concreate_list fuel' s fd n fa de else
      let name := drop 2 de in
      if (at_ name 0 =? 67) && (at_ name 2 =? 0) then
        let i := at_ name 1 - 48 in
        check ((i <? 0) || (40 <=? i)) (line "%s: concreate weird file %s") [AStr (Some s); AStr (Some (cstr name))] ;;
        check (negb (at_ fa (Z.to_nat i) =? 0)) (line "%s: concreate duplicate file %s")
          [AStr (Some s); AStr (Some (cstr name))] ;;
        concreate_list fuel' s fd (n + 1) (<[Z.to_nat i := 1]> fa) de
      else concreate_list fuel' s fd n fa de
    else mret n
  end.
(** A call made six times. *)
Definition six (p : prog unit) : prog unit := for_ 6 0 (fun _ => p).
Definition concreate (s : list Z) : prog unit :=
  let file i := [67; digit i] in
  for_ 40 0 (fun i =>
    sys (Sunlink (file i)) ;;
    pid ← fork;
    (if negb (pid =? 0) && (i mod 3 =? 1) then ignore (sys (Slink (bytes "C0") (file i)))
     else if (pid =? 0) && (i mod 5 =? 1) then ignore (sys (Slink (bytes "C0") (file i)))
     else
       fd ← sys (Sopen (file i) RDWR_CREATE);
       check (fd <? 0) (line "concreate create %s failed") [AStr (Some (file i))] ;;
       close fd) ;;
    if pid =? 0 then exit 0
    else w ← wait_st junk; if negb (w.2 =? 0) then exit 1 else mret tt) ;;
  fd ← open "." 0;
  n ← concreate_list fuel s fd 0 (replicate 40 0) (replicate 16 junk);
  close fd ;;
  fails s (negb (n =? 40)) "concreate not enough files in directory listing" ;;
  for_ 40 0 (fun i =>
    pid ← fork;
    fails s (pid <? 0) "fork failed" ;;
    (if ((i mod 3 =? 0) && (pid =? 0)) || ((i mod 3 =? 1) && negb (pid =? 0)) then
       six (fd ← sys (Sopen (file i) 0); close fd)
     else six (ignore (sys (Sunlink (file i))))) ;;
    if pid =? 0 then exit 0 else ignore wait).

Fixpoint linkunlink_loop (n : nat) (x : Z) : prog unit :=
  match n with
  | O => mret tt
  | S n' =>
    let x := u32 (x * 1103515245 + 12345) in
    (if x mod 3 =? 0 then fd ← open "x" (Z.lor O_RDWR O_CREATE); close fd
     else if x mod 3 =? 1 then ignore (link "cat" "x")
     else ignore (unlink "x")) ;;
    linkunlink_loop n' x
  end.
Definition linkunlink (s : list Z) : prog unit :=
  unlink "x" ;;
  pid ← fork;
  fails s (pid <? 0) "fork failed" ;;
  linkunlink_loop 100 (if negb (pid =? 0) then 1 else 97) ;;
  if negb (pid =? 0) then ignore wait else exit 0.

(** ** Directories *)

(** The first half of [subdir]: a tree of two directories. *)
Definition subdir_make (s : list Z) : prog unit :=
  unlink "ff" ;;
  r ← mkdir "dd"; fails s (negb (r =? 0)) "mkdir dd failed" ;;
  fd ← open "dd/ff" RDWR_CREATE;
  fails s (fd <? 0) "create dd/ff failed" ;;
  write fd (bytes "ff") ;;
  close fd ;;
  r ← unlink "dd"; fails s (0 <=? r) "unlink dd (non-empty dir) succeeded!" ;;
  r ← mkdir "/dd/dd"; check (negb (r =? 0)) (line "subdir mkdir dd/dd failed") [] ;;
  fd ← open "dd/dd/ff" RDWR_CREATE;
  fails s (fd <? 0) "create dd/dd/ff failed" ;;
  write fd (bytes "FF") ;;
  close fd ;;
  fd ← open "dd/dd/../ff" 0;
  fails s (fd <? 0) "open dd/dd/../ff failed" ;;
  cc ← read fd BUFSZ;
  let b := stored cc.2 buf0 in
  fails s (negb (cc.1 =? 2) || negb (at_ b 0 =? 102)) "dd/dd/../ff wrong content" ;;
  close fd ;;
  r ← link "dd/dd/ff" "dd/dd/ffff"; check (negb (r =? 0)) (line "link dd/dd/ff dd/dd/ffff failed") [] ;;
  r ← unlink "dd/dd/ff"; fails s (negb (r =? 0)) "unlink dd/dd/ff failed" ;;
  r ← open "dd/dd/ff" O_RDONLY; fails s (0 <=? r) "open (unlinked) dd/dd/ff succeeded" ;;
  r ← chdir "dd"; fails s (negb (r =? 0)) "chdir dd failed" ;;
  r ← chdir "dd/../../dd"; fails s (negb (r =? 0)) "chdir dd/../../dd failed" ;;
  r ← chdir "dd/../../../dd"; check (negb (r =? 0)) (line "chdir dd/../../dd failed") [] ;;
  r ← chdir "./.."; fails s (negb (r =? 0)) "chdir ./.. failed" ;;
  fd ← open "dd/dd/ffff" 0;
  fails s (fd <? 0) "open dd/dd/ffff failed" ;;
  r ← read fd BUFSZ;
  fails s (negb (r.1 =? 2)) "read dd/dd/ffff wrong len" ;;
  close fd.
(** The second half: what must not work, and cleaning up. *)
Definition subdir_refuse (s : list Z) : prog unit :=
  r ← open "dd/dd/ff" O_RDONLY; fails s (0 <=? r) "open (unlinked) dd/dd/ff succeeded!" ;;
  r ← open "dd/ff/ff" RDWR_CREATE; fails s (0 <=? r) "create dd/ff/ff succeeded!" ;;
  r ← open "dd/xx/ff" RDWR_CREATE; fails s (0 <=? r) "create dd/xx/ff succeeded!" ;;
  r ← open "dd" O_CREATE; fails s (0 <=? r) "create dd succeeded!" ;;
  r ← open "dd" O_RDWR; fails s (0 <=? r) "open dd rdwr succeeded!" ;;
  r ← open "dd" O_WRONLY; fails s (0 <=? r) "open dd wronly succeeded!" ;;
  r ← link "dd/ff/ff" "dd/dd/xx"; fails s (r =? 0) "link dd/ff/ff dd/dd/xx succeeded!" ;;
  r ← link "dd/xx/ff" "dd/dd/xx"; fails s (r =? 0) "link dd/xx/ff dd/dd/xx succeeded!" ;;
  r ← link "dd/ff" "dd/dd/ffff"; fails s (r =? 0) "link dd/ff dd/dd/ffff succeeded!" ;;
  r ← mkdir "dd/ff/ff"; fails s (r =? 0) "mkdir dd/ff/ff succeeded!" ;;
  r ← mkdir "dd/xx/ff"; fails s (r =? 0) "mkdir dd/xx/ff succeeded!" ;;
  r ← mkdir "dd/dd/ffff"; fails s (r =? 0) "mkdir dd/dd/ffff succeeded!" ;;
  r ← unlink "dd/xx/ff"; fails s (r =? 0) "unlink dd/xx/ff succeeded!" ;;
  r ← unlink "dd/ff/ff"; fails s (r =? 0) "unlink dd/ff/ff succeeded!" ;;
  r ← chdir "dd/ff"; fails s (r =? 0) "chdir dd/ff succeeded!" ;;
  r ← chdir "dd/xx"; fails s (r =? 0) "chdir dd/xx succeeded!" ;;
  r ← unlink "dd/dd/ffff"; fails s (negb (r =? 0)) "unlink dd/dd/ff failed" ;;
  r ← unlink "dd/ff"; fails s (negb (r =? 0)) "unlink dd/ff failed" ;;
  r ← unlink "dd"; fails s (r =? 0) "unlink non-empty dd succeeded!" ;;
  r ← unlink "dd/dd"; fails s (r <? 0) "unlink dd/dd failed" ;;
  r ← unlink "dd"; fails s (r <? 0) "unlink dd failed".
Definition subdir (s : list Z) : prog unit := subdir_make s ;; subdir_refuse s.

(** ** Large files *)

Fixpoint bigwrite_loop (fuel : nat) (s : list Z) (sz : Z) : prog unit :=
  match fuel with
  | O => Fuel
  | S fuel' =>
    if sz <? (MAXOPBLOCKS + 2) * BSIZE then
      fd ← open "bigwrite" RDWR_CREATE;
      fails s (fd <? 0) "cannot create bigwrite" ;;
      for_ 2 0 (fun _ =>
        cc ← write fd (first sz buf0);
        check (negb (cc =? sz)) (line "%s: write(%d) ret %d") [AStr (Some s); AInt sz; AInt cc]) ;;
      close fd ;;
      unlink "bigwrite" ;;
      bigwrite_loop fuel' s (sz + 471)
    else mret tt
  end.
(** The loop ends after 19 turns. *)
Definition bigwrite (s : list Z) : prog unit :=
  unlink "bigwrite" ;;
  bigwrite_loop 20 s 499.

Fixpoint bigfile_read (fuel : nat) (s : list Z) (fd i total : Z) (b : list Z) : prog Z :=
  match fuel with
  | O => Fuel
  | S fuel' =>
    r ← read fd 300;
    fails s (r.1 <? 0) "read bigfile failed" ;;
    if r.1 =? 0 then mret total else
    fails s (negb (r.1 =? 300)) "short read bigfile" ;;
    let b := stored r.2 b in
    fails s (negb (at_ b 0 =? i / 2) || negb (at_ b 299 =? i / 2)) "read bigfile wrong data" ;;
    bigfile_read fuel' s fd (i + 1) (total + r.1) b
  end.
Definition bigfile (s : list Z) : prog unit :=
  unlink "bigfile.dat" ;;
  fd ← open "bigfile.dat" RDWR_CREATE;
  fails_ s (fd <? 0) "cannot create bigfile" ;;
  for_ 20 0 (fun i =>
    r ← write fd (replicate 600 (u8 i));
    fails s (negb (r =? 600)) "write bigfile failed") ;;
  close fd ;;
  fd ← open "bigfile.dat" 0;
  fails s (fd <? 0) "cannot open bigfile" ;;
  total ← bigfile_read fuel s fd 0 0 (filled 19 600 buf0);
  close fd ;;
  fails s (negb (total =? 12000)) "read bigfile wrong total" ;;
  ignore (unlink "bigfile.dat").

(** ** Names *)

Definition fourteen (s : list Z) : prog unit :=
  r ← mkdir "12345678901234"; fails s (negb (r =? 0)) "mkdir 12345678901234 failed" ;;
  r ← mkdir "12345678901234/123456789012345";
  fails s (negb (r =? 0)) "mkdir 12345678901234/123456789012345 failed" ;;
  fd ← open "123456789012345/123456789012345/123456789012345" O_CREATE;
  fails s (fd <? 0) "create 123456789012345/123456789012345/123456789012345 failed" ;;
  close fd ;;
  fd ← open "12345678901234/12345678901234/12345678901234" 0;
  fails s (fd <? 0) "open 12345678901234/12345678901234/12345678901234 failed" ;;
  close fd ;;
  r ← mkdir "12345678901234/12345678901234";
  fails s (r =? 0) "mkdir 12345678901234/12345678901234 succeeded!" ;;
  r ← mkdir "123456789012345/12345678901234";
  fails s (r =? 0) "mkdir 12345678901234/123456789012345 succeeded!" ;;
  unlink "123456789012345/12345678901234" ;;
  unlink "12345678901234/12345678901234" ;;
  unlink "12345678901234/12345678901234/12345678901234" ;;
  unlink "123456789012345/123456789012345/123456789012345" ;;
  unlink "12345678901234/123456789012345" ;;
  ignore (unlink "12345678901234").

Definition rmdot (s : list Z) : prog unit :=
  r ← mkdir "dots"; fails s (negb (r =? 0)) "mkdir dots failed" ;;
  r ← chdir "dots"; fails s (negb (r =? 0)) "chdir dots failed" ;;
  r ← unlink "."; fails s (r =? 0) "rm . worked!" ;;
  r ← unlink ".."; fails s (r =? 0) "rm .. worked!" ;;
  r ← chdir "/"; fails s (negb (r =? 0)) "chdir / failed" ;;
  r ← unlink "dots/."; fails s (r =? 0) "unlink dots/. worked!" ;;
  r ← unlink "dots/.."; fails s (r =? 0) "unlink dots/.. worked!" ;;
  r ← unlink "dots"; fails s (negb (r =? 0)) "unlink dots failed!".

Definition dirfile (s : list Z) : prog unit :=
  fd ← open "dirfile" O_CREATE;
  fails s (fd <? 0) "create dirfile failed" ;;
  close fd ;;
  r ← chdir "dirfile"; fails s (r =? 0) "chdir dirfile succeeded!" ;;
  fd ← open "dirfile/xx" 0; fails s (0 <=? fd) "create dirfile/xx succeeded!" ;;
  fd ← open "dirfile/xx" O_CREATE; fails s (0 <=? fd) "create dirfile/xx succeeded!" ;;
  r ← mkdir "dirfile/xx"; fails s (r =? 0) "mkdir dirfile/xx succeeded!" ;;
  r ← unlink "dirfile/xx"; fails s (r =? 0) "unlink dirfile/xx succeeded!" ;;
  r ← link "README" "dirfile/xx"; fails s (r =? 0) "link to dirfile/xx succeeded!" ;;
  r ← unlink "dirfile"; fails s (negb (r =? 0)) "unlink dirfile failed!" ;;
  fd ← open "." O_RDWR; fails s (0 <=? fd) "open . for writing succeeded!" ;;
  fd ← open "." 0;
  r ← write fd (bytes "x"); fails s (0 <? r) "write . succeeded!" ;;
  close fd.

(** [if(fd >= 0) close(fd);] *)
Definition close_ok (fd : Z) : prog unit := if 0 <=? fd then close fd else mret tt.
Definition iref (s : list Z) : prog unit :=
  for_ (NINODE + 1) 0 (fun _ =>
    r ← mkdir "irefd"; fails s (negb (r =? 0)) "mkdir irefd failed" ;;
    r ← chdir "irefd"; fails s (negb (r =? 0)) "chdir irefd failed" ;;
    sys (Smkdir []) ;;
    sys (Slink (bytes "README") []) ;;
    fd ← sys (Sopen [] O_CREATE); close_ok fd ;;
    fd ← open "xx" O_CREATE; close_ok fd ;;
    ignore (unlink "xx")) ;;
  for_ (NINODE + 1) 0 (fun _ =>
    chdir ".." ;;
    ignore (unlink "irefd")) ;;
  ignore (chdir "/").

(** ** A full disk *)

Definition fsfull_name (n : Z) : list Z :=
  [102; digit (n / 1000); digit (n mod 1000 / 100); digit (n mod 100 / 10); digit (n mod 10)].
(** [while(1)]: the bytes written before a short write. *)
Fixpoint fsfull_write (fuel : nat) (fd total : Z) : prog Z :=
  match fuel with
  | O => Fuel
  | S fuel' =>
    cc ← write fd (first BSIZE buf0);
    if cc <? BSIZE then mret total else fsfull_write fuel' fd (total + cc)
  end.
(** The files, until one cannot be made or stays empty: the last number. *)
Fixpoint fsfull_fill (n : nat) (nfiles : Z) : prog Z :=
  match n with
  | O => Fuel
  | S n' =>
    let name := fsfull_name nfiles in
    printf (line "writing %s") [AStr (Some name)] ;;
    fd ← sys (Sopen name RDWR_CREATE);
    if fd <? 0 then
      printf (line "open %s failed") [AStr (Some name)] ;;
      mret nfiles
    else
    total ← fsfull_write fuel fd 0;
    printf (line "wrote %d bytes") [AInt total] ;;
    close fd ;;
    if total =? 0 then mret nfiles else fsfull_fill n' (nfiles + 1)
  end.
Fixpoint fsfull_clean (n : nat) (nfiles : Z) : prog unit :=
  sys (Sunlink (fsfull_name nfiles)) ;;
  match n with
  | O => mret tt
  | S n' => fsfull_clean n' (nfiles - 1)
  end.
Definition fsfull : prog unit :=
  printf (line "fsfull test") [] ;;
  nfiles ← fsfull_fill fuel 0;
  fsfull_clean (Z.to_nat nfiles) nfiles ;;
  printf (line "fsfull test finished") [].

(** ** Slow tests *)

Definition bigdir (s : list Z) : prog unit :=
  let name i := [120; digit (i / 64); digit (i mod 64)] in
  unlink "bd" ;;
  fd ← open "bd" O_CREATE;
  fails s (fd <? 0) "bigdir create failed" ;;
  close fd ;;
  for_ 500 0 (fun i =>
    r ← sys (Slink (bytes "bd") (name i));
    check (negb (r =? 0)) (line "%s: bigdir link(bd, %s) failed") [AStr (Some s); AStr (Some (name i))]) ;;
  unlink "bd" ;;
  for_ 500 0 (fun i =>
    r ← sys (Sunlink (name i));
    fails_ s (negb (r =? 0)) "bigdir unlink failed").

Definition manywrites (s : list Z) : prog unit :=
  for_ 4 0 (fun ci =>
    pid ← fork;
    check (pid <? 0) (line "fork failed") [] ;;
    if pid =? 0 then
      let name := [98; u8 (97 + ci)] in
      sys (Sunlink name) ;;
      for_ 30 0 (fun _ =>
        for_ (Z.to_nat (ci + 1)) 0 (fun _ =>
          fd ← sys (Sopen name RDWR_CREATE);
          check (fd <? 0) (line "%s: cannot create %s") [AStr (Some s); AStr (Some name)] ;;
          cc ← write fd buf0;
          check (negb (cc =? BUFSZ)) (line "%s: write(%d) ret %d") [AStr (Some s); AInt BUFSZ; AInt cc] ;;
          close fd) ;;
        ignore (sys (Sunlink name))) ;;
      sys (Sunlink name) ;;
      exit 0
    else mret tt) ;;
  for_ 4 0 (fun _ =>
    w ← wait_st 0;
    if negb (w.2 =? 0) then exit w.2 else mret tt) ;;
  exit 0.

Definition SYS_write : Z := 16.
Definition badwrite (s : list Z) : prog unit :=
  unlink "junk" ;;
  for_ 600 0 (fun _ =>
    fd ← open "junk" (Z.lor O_CREATE O_WRONLY);
    check (fd <? 0) (line "open junk failed") [] ;;
    sys (Sraw SYS_write [PInt fd; PAt 268435455; PInt 1]) ;;
    close fd ;;
    ignore (unlink "junk")) ;;
  fd ← open "junk" (Z.lor O_CREATE O_WRONLY);
  check (fd <? 0) (line "open junk failed") [] ;;
  r ← write fd (bytes "x");
  check (negb (r =? 1)) (line "write failed") [] ;;
  close fd ;;
  unlink "junk" ;;
  exit 0.

(** Writing blocks to the file [fd]: whether all of them went in. *)
Fixpoint diskfull_write (n : nat) (fd : Z) : prog bool :=
  match n with
  | O => mret true
  | S n' =>
    r ← write fd (replicate (Z.to_nat BSIZE) junk);
    if negb (r =? BSIZE) then
      close fd ;;
      mret false
    else diskfull_write n' fd
  end.
(** [for(fi = 0; done == 0; fi++)]: the value of [fi] after it. *)
Fixpoint diskfull_fill (n : nat) (s : list Z) (fi : Z) : prog Z :=
  match n with
  | O => Fuel
  | S n' =>
    let name := bytes "big" ++ [digit fi] in
    sys (Sunlink name) ;;
    fd ← sys (Sopen name (Z.lor RDWR_CREATE O_TRUNC));
    if fd <? 0 then
      printf (line "%s: could not create file %s") [AStr (Some s); AStr (Some name)] ;;
      mret fi
    else
    more ← diskfull_write (Z.to_nat MAXFILE) fd;
    close fd ;;
    if (more : bool) then diskfull_fill n' s (fi + 1) else mret (fi + 1)
  end.
Definition zz (i : Z) : list Z := bytes "zz" ++ [digit (i / 32); digit (i mod 32)].
(** Making files until one cannot be made. *)
Definition zz_make (n : nat) : prog Z :=
  for_break n 0 (fun i =>
    sys (Sunlink (zz i)) ;;
    fd ← sys (Sopen (zz i) (Z.lor RDWR_CREATE O_TRUNC));
    if fd <? 0 then mret false else close fd ;; mret true).
Definition diskfull (s : list Z) : prog unit :=
  unlink "diskfulldir" ;;
  fi ← diskfull_fill fuel s 0;
  zz_make 128 ;;
  r ← mkdir "diskfulldir";
  (if r =? 0 then printf (line "%s: mkdir(diskfulldir) unexpectedly succeeded!") [] else mret tt) ;;
  unlink "diskfulldir" ;;
  for_ 128 0 (fun i => ignore (sys (Sunlink (zz i)))) ;;
  for_ (Z.to_nat fi) 0 (fun i => ignore (sys (Sunlink (bytes "big" ++ [digit i])))).

Definition outofinodes (s : list Z) : prog unit :=
  zz_make 1024 ;;
  for_ 1024 0 (fun i => ignore (sys (Sunlink (zz i)))).
End TestFs.
