(* ===== verification/TestProc.v ===== *)
(** * Tests of processes, pipes and exec (user/usertests.c)

    As in TestFs.v, [fuel] bounds loops that go on until the kernel says stop and
    [junk] is the value of a variable that has not been set. *)
From S2P Require Import Prelude Memory Machine User Umalloc TestLib.
From stdpp Require Import gmap strings countable prelude.

Open Scope Z_scope.

Section TestProc.
Context (fuel : nat) (junk : Z).

(** ** exec and pipes *)

Definition exectest (s : list Z) : prog unit :=
  unlink "echo-ok" ;;
  pid ← fork;
  fails s (pid <? 0) "fork failed" ;;
  (if pid =? 0 then
     close 1 ;;
     fd ← open "echo-ok" (Z.lor O_CREATE O_WRONLY);
     fails s (fd <? 0) "create failed" ;;
     fails s (negb (fd =? 1)) "wrong fd" ;;
     r ← exec "echo" [bytes "echo"; bytes "OK"];
     fails s (r <? 0) "exec echo failed"
   else mret tt) ;;
  w ← wait_st junk;
  (if negb (w.1 =? pid) then printf (line "%s: wait failed!") [AStr (Some s)] else mret tt) ;;
  if negb (w.2 =? 0) then exit w.2 else
  fd ← open "echo-ok" O_RDONLY;
  fails s (fd <? 0) "open failed" ;;
  r ← read fd 2;
  fails s (negb (r.1 =? 2)) "read failed" ;;
  unlink "echo-ok" ;;
  if (at_ r.2 0 =? 79) && (at_ r.2 1 =? 75) then exit 0
  else die (line "%s: wrong output") [AStr (Some s)].

(** [n] bytes counted up from [seq]. *)
Fixpoint counted (n : nat) (seq : Z) : list Z :=
  match n with
  | O => []
  | S n' => u8 seq :: counted n' (seq + 1)
  end.
(** The loop that reads the pipe: the bytes read, or [None] if one of them is
    wrong. *)
Fixpoint pipe1_read (fuel : nat) (s : list Z) (fd seq total cc : Z) : prog (option Z) :=
  match fuel with
  | O => Fuel
  | S fuel' =>
    r ← read fd cc;
    if 0 <? r.1 then
      if negb (bool_decide (first r.1 r.2 = counted (Z.to_nat r.1) seq)) then
        printf (line "%s: pipe1 oops 2") [AStr (Some s)] ;;
        mret None
      else
        let cc := cc * 2 in
        pipe1_read fuel' s fd (seq + r.1) (total + r.1) (if BUFSZ <? cc then BUFSZ else cc)
    else mret (Some total)
  end.
Definition pipe1 (s : list Z) : prog unit :=
  p ← pipe;
  let '(r, fd0, fd1) := p in
  fails s (negb (r =? 0)) "pipe() failed" ;;
  pid ← fork;
  if pid =? 0 then
    close fd0 ;;
    for_ 5 0 (fun n =>
      r ← write fd1 (counted 1033 (n * 1033));
      fails s (negb (r =? 1033)) "pipe1 oops 1") ;;
    exit 0
  else if 0 <? pid then
    close fd1 ;;
    t ← pipe1_read fuel s fd0 0 0 1;
    match t with
    | None => mret tt
    | Some total =>
      check (negb (total =? 5165)) (line "%s: pipe1 oops 3 total %d") [AInt total] ;;
      close fd0 ;;
      w ← wait_st junk;
      exit w.2
    end
  else die (line "%s: fork() failed") [AStr (Some s)].

(** ** Killing *)

(** [xst] is the same variable in every turn. *)
Fixpoint killstatus_loop (n : nat) (s : list Z) (xst : Z) : prog unit :=
  match n with
  | O => exit 0
  | S n' =>
    pid1 ← fork;
    fails s (pid1 <? 0) "fork failed" ;;
    if pid1 =? 0 then
      forever fuel tt (fun _ => sys Sgetpid ;; mret (Some tt)) ;;
      exit 0
    else
    sleep 1 ;;
    kill pid1 ;;
    w ← wait_st xst;
    fails s (negb (w.2 =? -1)) "status should be -1" ;;
    killstatus_loop n' s w.2
  end.
Definition killstatus (s : list Z) : prog unit := killstatus_loop 100 s junk.

Definition preempt (s : list Z) : prog unit :=
  pid1 ← fork;
  fails_ s (pid1 <? 0) "fork failed" ;;
  if pid1 =? 0 then spin else
  pid2 ← fork;
  fails s (pid2 <? 0) "fork failed" ;;
  if pid2 =? 0 then spin else
  p ← pipe;
  let '(_, pfd0, pfd1) := p in
  pid3 ← fork;
  fails s (pid3 <? 0) "fork failed" ;;
  if pid3 =? 0 then
    close pfd0 ;;
    r ← write pfd1 (bytes "x");
    (if negb (r =? 1) then printf (bytes "%s: preempt write error") [AStr (Some s)] else mret tt) ;;
    close pfd1 ;;
    spin
  else
  close pfd1 ;;
  r ← read pfd0 BUFSZ;
  if negb (r.1 =? 1) then printf (bytes "%s: preempt read error") [AStr (Some s)] else
  close pfd0 ;;
  printf (bytes "kill... ") [] ;;
  kill pid1 ;;
  kill pid2 ;;
  kill pid3 ;;
  printf (bytes "wait... ") [] ;;
  wait ;;
  wait ;;
  ignore wait.

(** ** fork, exit and wait *)

Definition exitwait (s : list Z) : prog unit :=
  for_ 100 0 (fun i =>
    pid ← fork;
    fails s (pid <? 0) "fork failed" ;;
    if negb (pid =? 0) then
      w ← wait_st junk;
      fails s (negb (w.1 =? pid)) "wait wrong pid" ;;
      fails s (negb (i =? w.2)) "wait wrong exit status"
    else exit i).

Definition reparent (s : list Z) : prog unit :=
  master_pid ← sys Sgetpid;
  for_ 200 0 (fun _ =>
    pid ← fork;
    fails s (pid <? 0) "fork failed" ;;
    if negb (pid =? 0) then
      w ← wait;
      fails s (negb (w =? pid)) "wait wrong pid"
    else
      pid2 ← fork;
      if pid2 <? 0 then kill master_pid ;; exit 1
      else exit 0) ;;
  exit 0.

Definition twochildren (s : list Z) : prog unit :=
  for_ 1000 0 (fun _ =>
    pid1 ← fork;
    fails s (pid1 <? 0) "fork failed" ;;
    if pid1 =? 0 then exit 0 else
    pid2 ← fork;
    fails s (pid2 <? 0) "fork failed" ;;
    if pid2 =? 0 then exit 0 else
    wait ;;
    ignore wait).

Definition forkfork (s : list Z) : prog unit :=
  for_ 2 0 (fun _ =>
    pid ← fork;
    fails_ s (pid <? 0) "fork failed" ;;
    if pid =? 0 then
      for_ 200 0 (fun _ =>
        pid1 ← fork;
        if pid1 <? 0 then exit 1
        else if pid1 =? 0 then exit 0
        else ignore wait) ;;
      exit 0
    else mret tt) ;;
  wait_all 2 junk (fun _ => fails_ s true "fork in child failed").

Definition forkforkfork (s : list Z) : prog unit :=
  unlink "stopforking" ;;
  pid ← fork;
  fails_ s (pid <? 0) "fork failed" ;;
  if pid =? 0 then
    forever fuel tt (fun _ =>
      fd ← open "stopforking" 0;
      if 0 <=? fd then exit 0 else
      r ← fork;
      (if r <? 0 then fd ← open "stopforking" RDWR_CREATE; close fd else mret tt) ;;
      mret (Some tt)) ;;
    exit 0
  else
  sleep 20 ;;
  fd ← open "stopforking" RDWR_CREATE;
  close fd ;;
  wait ;;
  ignore (sleep 10).

Definition reparent2 (s : list Z) : prog unit :=
  for_ 800 0 (fun _ =>
    pid1 ← fork;
    check (pid1 <? 0) (line "fork failed") [] ;;
    if pid1 =? 0 then
      fork ;;
      fork ;;
      exit 0
    else ignore wait) ;;
  exit 0.

(** [for(n=0; n<N; n++)]: how many children there are. *)
Definition forktest_fork (n : nat) : prog Z :=
  for_break n 0 (fun _ =>
    pid ← fork;
    if pid <? 0 then mret false
    else if pid =? 0 then exit 0
    else mret true).
Definition forktest (s : list Z) : prog unit :=
  n ← forktest_fork 1000;
  fails s (n =? 0) "no fork at all!" ;;
  fails s (n =? 1000) "fork claimed to work 1000 times!" ;;
  for_ (Z.to_nat n) 0 (fun _ =>
    r ← wait;
    fails s (r <? 0) "wait stopped early") ;;
  r ← wait;
  fails s (negb (r =? -1)) "wait got too many".

(** ** Memory *)

Section Mem.
Context {Pr : Umalloc.Process}.
Import Umalloc.

(** Allocating all there is, in a list; then freeing it. *)
Fixpoint mem_take (n : nat) (m1 : Z) : M ust Z :=
  match n with
  | O => hang
  | S n' =>
    m2 ← malloc fuel 10001;
    if m2 =? 0 then mret m1 else
    modify (fun u => set_umem (store32 (umem u) m2 m1) u) ;;
    mem_take n' m2
  end.
Fixpoint mem_give (n : nat) (m1 : Z) : M ust unit :=
  if m1 =? 0 then mret tt else
  match n with
  | O => hang
  | S n' =>
    m2 ← Prelude.gets (fun u => load32 (umem u) m1);
    free fuel m1 ;;
    mem_give n' m2
  end.
(** What the child does, in its memory: whether the last allocation succeeds. *)
Definition mem_child : M ust bool :=
  m1 ← mem_take fuel 0;
  mem_give fuel m1 ;;
  m1 ← malloc fuel 20480;
  if m1 =? 0 then mret false else
  free fuel m1 ;;
  mret true.
(** [u0] is the memory of the process. *)
Definition mem (u0 : ust) (s : list Z) : prog unit :=
  pid ← fork;
  if pid =? 0 then
    match mem_child u0 with
    | Ok true _ => exit 0
    | Ok false _ => die (line "couldn't allocate mem?!!") []
    | _ => Fuel
    end
  else
    w ← wait_st junk;
    if w.2 =? -1 then exit 0 else exit w.2.
End Mem.

(** [n] blanks. *)
Definition blanks (n : nat) : list Z := replicate n 32.
Definition bigarg : list Z := line "bigargs test: failed" ++ blanks 199.
Definition bigargtest (s : list Z) : prog unit :=
  unlink "bigarg-ok" ;;
  pid ← fork;
  (if pid =? 0 then
     exec "echo" (replicate (MAXARG - 1) bigarg) ;;
     fd ← open "bigarg-ok" O_CREATE;
     close fd ;;
     exit 0
   else fails s (pid <? 0) "bigargtest: fork failed") ;;
  w ← wait_st junk;
  if negb (w.2 =? 0) then exit w.2 else
  fd ← open "bigarg-ok" 0;
  fails s (fd <? 0) "bigarg test failed!" ;;
  close fd.

(** Taking all memory, a page at a time; the last byte of each is written. *)
Definition take_pages : prog unit :=
  forever fuel tt (fun _ =>
    a ← sbrk 4096;
    if addr a =? NOMEM then mret None else
    sys (Sstore (addr (a + 4096 - 1)) 1) ;;
    mret (Some tt)).
Definition execout (s : list Z) : prog unit :=
  for_ 15 0 (fun avail =>
    pid ← fork;
    if pid <? 0 then die (line "fork failed") []
    else if pid =? 0 then
      take_pages ;;
      for_ (Z.to_nat avail) 0 (fun _ => ignore (sbrk (-4096))) ;;
      close 1 ;;
      exec "echo" [bytes "echo"; bytes "x"] ;;
      exit 0
    else ignore wait) ;;
  exit 0.
End TestProc.
