(* ===== verification/TestMem.v ===== *)
(** * Tests of memory and of wild pointers (user/usertests.c)

    Pointers that are not to the program's own data are passed as they are
    ([Sraw]); loads and stores through them are calls of their own ([Sload],
    [Sstore]), which a kernel that kills the process does not answer.  [fuel]
    and [junk] are as in TestFs.v; [sp] is the stack pointer. *)
From S2P Require Import Prelude Memory Machine User TestLib.
From stdpp Require Import gmap strings countable prelude.

Open Scope Z_scope.

Section TestMem.
Context (fuel : nat) (junk sp : Z).

Definition SYS_pipe : Z := 4.
Definition SYS_read : Z := 5.
Definition SYS_exec : Z := 7.
Definition SYS_open : Z := 15.
Definition SYS_write : Z := 16.
Definition SYS_unlink : Z := 18.
Definition SYS_link : Z := 19.

Definition write_at (fd a n : Z) : prog Z := sys (Sraw SYS_write [PInt fd; PAt a; PInt n]).
Definition read_at (fd a n : Z) : prog Z := sys (Sraw SYS_read [PInt fd; PAt a; PInt n]).
Definition open_at (a mode : Z) : prog Z := sys (Sraw SYS_open [PAt a; PInt mode]).
(** A byte stored at an address, and loaded from it. *)
Definition poke (a v : Z) : prog unit := sys (Sstore (addr a) v) ;; mret tt.
Definition peek (a : Z) : prog Z := sys (Sload (addr a)).

(** [for(int ai = 0; ai < 2; ai++)] over the two addresses of the first tests. *)
Definition wild (body : Z -> prog unit) : prog unit := body 2147483648 ;; body 4294967295.

(** ** Copying to and from the kernel *)

Definition copyin (s : list Z) : prog unit :=
  wild (fun a =>
    fd ← open "copyin1" (Z.lor O_CREATE O_WRONLY);
    check (fd <? 0) (line "open(copyin1) failed") [] ;;
    n ← write_at fd a 8192;
    check (0 <=? n) (line "write(fd, %p, 8192) returned %d, not -1") [AInt a; AInt n] ;;
    close fd ;;
    unlink "copyin1" ;;
    n ← write_at 1 a 8192;
    check (0 <? n) (line "write(1, %p, 8192) returned %d, not -1 or 0") [AInt a; AInt n] ;;
    p ← pipe;
    let '(r, fd0, fd1) := p in
    check (r <? 0) (line "pipe() failed") [] ;;
    n ← write_at fd1 a 8192;
    check (0 <? n) (line "write(pipe, %p, 8192) returned %d, not -1 or 0") [AInt a; AInt n] ;;
    close fd0 ;;
    close fd1).

Definition copyout (s : list Z) : prog unit :=
  wild (fun a =>
    fd ← open "README" 0;
    check (fd <? 0) (line "open(README) failed") [] ;;
    n ← read_at fd a 8192;
    check (0 <? n) (line "read(fd, %p, 8192) returned %d, not -1 or 0") [AInt a; AInt n] ;;
    close fd ;;
    p ← pipe;
    let '(r, fd0, fd1) := p in
    check (r <? 0) (line "pipe() failed") [] ;;
    n ← write fd1 (bytes "x");
    check (negb (n =? 1)) (line "pipe write failed") [] ;;
    n ← read_at fd0 a 8192;
    check (0 <? n) (line "read(pipe, %p, 8192) returned %d, not -1 or 0") [AInt a; AInt n] ;;
    close fd0 ;;
    close fd1).

Definition copyinstr1 (s : list Z) : prog unit :=
  wild (fun a =>
    fd ← open_at a (Z.lor O_CREATE O_WRONLY);
    check (0 <=? fd) (line "open(%p) returned %d, not -1") [AInt a; AInt fd]).

Definition copyinstr2 (s : list Z) : prog unit :=
  let b := replicate (Z.to_nat MAXPATH) 120 in
  ret ← sys (Sunlink b);
  check (negb (ret =? -1)) (line "unlink(%s) returned %d, not -1") [AStr (Some b); AInt ret] ;;
  fd ← sys (Sopen b (Z.lor O_CREATE O_WRONLY));
  check (negb (fd =? -1)) (line "open(%s) returned %d, not -1") [AStr (Some b); AInt fd] ;;
  ret ← sys (Slink b b);
  check (negb (ret =? -1)) (line "link(%s, %s) returned %d, not -1") [AStr (Some b); AStr (Some b); AInt ret] ;;
  ret ← sys (Sexec b [bytes "xx"]);
  check (negb (ret =? -1)) (line "exec(%s) returned %d, not -1") [AStr (Some b); AInt fd] ;;
  pid ← fork;
  check (pid <? 0) (line "fork failed") [] ;;
  if pid =? 0 then
    let big := replicate (Z.to_nat PGSIZE) 120 in
    ret ← exec "echo" [big; big; big];
    check (negb (ret =? -1)) (line "exec(echo, BIG) returned %d, not -1") [AInt fd] ;;
    exit 747
  else
  w ← wait_st 0;
  check (negb (w.2 =? 747)) (line "exec(echo, BIG) succeeded, should have failed") [].

(** The messages would show the byte at [b] and go on beyond the memory. *)
Definition copyinstr3 (s : list Z) : prog unit :=
  sbrk 8192 ;;
  top ← sbrk 0;
  (if negb (addr top mod PGSIZE =? 0) then ignore (sbrk (PGSIZE - addr top mod PGSIZE)) else mret tt) ;;
  top ← sbrk 0;
  check (negb (addr top mod PGSIZE =? 0)) (line "oops") [] ;;
  let b := addr (top - 1) in
  poke b 120 ;;
  ret ← sys (Sraw SYS_unlink [PAt b]);
  check (negb (ret =? -1)) (line "unlink(%s) returned %d, not -1") [AStr (Some [120]); AInt ret] ;;
  fd ← open_at b (Z.lor O_CREATE O_WRONLY);
  check (negb (fd =? -1)) (line "open(%s) returned %d, not -1") [AStr (Some [120]); AInt fd] ;;
  ret ← sys (Sraw SYS_link [PAt b; PAt b]);
  check (negb (ret =? -1)) (line "link(%s, %s) returned %d, not -1")
    [AStr (Some [120]); AStr (Some [120]); AInt ret] ;;
  ret ← sys (Sraw SYS_exec [PAt b; PVec [PStr (bytes "xx")]]);
  check (negb (ret =? -1)) (line "exec(%s) returned %d, not -1") [AStr (Some [120]); AInt fd].

Definition rwsbrk : prog unit :=
  a ← sbrk 8192;
  check (addr a =? NOMEM) (line "sbrk(rwsbrk) failed") [] ;;
  r ← sbrk (-8192);
  check (addr r =? NOMEM) (line "sbrk(rwsbrk) shrink failed") [] ;;
  fd ← open "rwsbrk" (Z.lor O_CREATE O_WRONLY);
  check (fd <? 0) (line "open(rwsbrk) failed") [] ;;
  n ← write_at fd (addr (a + 4096)) 1024;
  check (0 <=? n) (line "write(fd, %p, 1024) returned %d, not -1") [AInt (addr (a + 4096)); AInt n] ;;
  close fd ;;
  unlink "rwsbrk" ;;
  fd ← open "README" O_RDONLY;
  check (fd <? 0) (line "open(rwsbrk) failed") [] ;;
  n ← read_at fd (addr (a + 4096)) 10;
  check (0 <=? n) (line "read(fd, %p, 10) returned %d, not -1") [AInt (addr (a + 4096)); AInt n] ;;
  close fd ;;
  exit 0.

(** ** Growing and shrinking *)

(** [for(b = a; b < a + n; b += 4096) *b = v;], [k] pages. *)
Fixpoint touch (k : nat) (b v : Z) : prog unit :=
  match k with
  | O => mret tt
  | S k' => poke b v ;; touch k' (b + 4096) v
  end.
Fixpoint sbrk_ones (n : nat) (s : list Z) (i a : Z) : prog Z :=
  match n with
  | O => mret a
  | S n' =>
    b ← sbrk 1;
    check (negb (addr b =? addr a)) (line "%s: sbrk test failed %d %x %x") [AStr (Some s); AInt i; AInt a; AInt b] ;;
    poke b 1 ;;
    sbrk_ones n' s (i + 1) (addr (b + 1))
  end.
Definition sbrkbasic (s : list Z) : prog unit :=
  pid ← fork;
  check (pid <? 0) (line "fork failed in sbrkbasic") [] ;;
  if pid =? 0 then
    a ← sbrk 1073741824;
    if addr a =? NOMEM then exit 0 else
    touch (Z.to_nat 262144) a 99 ;;
    exit 1
  else
  w ← wait_st junk;
  fails s (w.2 =? 1) "too much memory allocated!" ;;
  a ← sbrk 0;
  a ← sbrk_ones (Z.to_nat 5000) s 0 (addr a);
  pid ← fork;
  fails s (pid <? 0) "sbrk test fork failed" ;;
  sbrk 1 ;;
  c ← sbrk 1;
  fails s (negb (addr c =? addr (a + 1))) "sbrk test failed post-fork" ;;
  if pid =? 0 then exit 0 else
  w ← wait_st w.2;
  exit w.2.

Definition sbrkmuch (s : list Z) : prog unit :=
  let BIG := 104857600 in
  oldbrk ← sbrk 0;
  a ← sbrk 0;
  p ← sbrk (s32 (BIG - addr a));
  fails s (negb (addr p =? addr a)) "sbrk test failed to grow big address space; enough phys mem?" ;;
  eee ← sbrk 0;
  touch (Z.to_nat ((addr eee - addr a + 4095) / 4096)) (addr a) 1 ;;
  let lastaddr := BIG - 1 in
  poke lastaddr 99 ;;
  a ← sbrk 0;
  c ← sbrk (- PGSIZE);
  fails s (addr c =? NOMEM) "sbrk could not deallocate" ;;
  c ← sbrk 0;
  check (negb (addr c =? addr (a - PGSIZE)))
    (line "%s: sbrk deallocation produced wrong address, a %x c %x") [AStr (Some s); AInt a; AInt c] ;;
  a ← sbrk 0;
  c ← sbrk PGSIZE;
  (if negb (addr c =? addr a) then
     die (line "%s: sbrk re-allocation failed, a %x c %x") [AStr (Some s); AInt a; AInt c]
   else
     e ← sbrk 0;
     check (negb (addr e =? addr (a + PGSIZE)))
       (line "%s: sbrk re-allocation failed, a %x c %x") [AStr (Some s); AInt a; AInt c]) ;;
  v ← peek lastaddr;
  fails s (v =? 99) "sbrk de-allocation didn't really deallocate" ;;
  a ← sbrk 0;
  e ← sbrk 0;
  c ← sbrk (s32 (- (addr e - addr oldbrk)));
  check (negb (addr c =? addr a)) (line "%s: sbrk downsize failed, a %x c %x") [AStr (Some s); AInt a; AInt c].

(** ** Forbidden memory *)

(** A child that must be killed for what it does; [if(xstatus != -1) exit(1);] *)
Definition must_die (s : list Z) (act : prog unit) : prog unit :=
  pid ← fork;
  fails s (pid <? 0) "fork failed" ;;
  if pid =? 0 then act ;; exit 1
  else
  w ← wait_st junk;
  if negb (w.2 =? -1) then exit 1 else mret tt.
Definition kernmem (s : list Z) : prog unit :=
  for_ 40 0 (fun i =>
    let a := KERNBASE + 50000 * i in
    must_die s (
      v ← peek a;
      printf (line "%s: oops could read %x = %x") [AStr (Some s); AInt a; AInt v])).

(** [for( ; a != 0; a <<= 1)]; a word has 32 bits. *)
Fixpoint MAXVAplus_loop (n : nat) (s : list Z) (a : Z) : prog unit :=
  match n with
  | O => mret tt
  | S n' =>
    if a =? 0 then mret tt else
    must_die s (
      poke a 99 ;;
      printf (line "%s: oops wrote %x") [AStr (Some s); AInt a]) ;;
    MAXVAplus_loop n' s (u32 (Z.shiftl a 1))
  end.
Definition MAXVAplus (s : list Z) : prog unit := MAXVAplus_loop 33 s MAXVA.

(** The children of [sbrkfail] and their pids. *)
Fixpoint sbrkfail_fork (n : nat) (fd0 fd1 : Z) : prog (list Z) :=
  match n with
  | O => mret []
  | S n' =>
    pid ← fork;
    (if pid =? 0 then
       e ← sbrk 0;
       sbrk (s32 (104857600 - addr e)) ;;
       write fd1 (bytes "x") ;;
       forever fuel tt (fun _ => sleep 1000 ;; mret (Some tt))
     else mret tt) ;;
    (if negb (pid =? -1) then read fd0 1 ;; mret tt else mret tt) ;;
    pids ← sbrkfail_fork n' fd0 fd1;
    mret (pid :: pids)
  end.
Fixpoint sbrkfail_kill (pids : list Z) : prog unit :=
  match pids with
  | [] => mret tt
  | pid :: pids' =>
    (if pid =? -1 then mret tt else kill pid ;; ignore wait) ;;
    sbrkfail_kill pids'
  end.
(** The sum of the first bytes of [k] pages. *)
Fixpoint sum_pages (k : nat) (a n : Z) : prog Z :=
  match k with
  | O => mret n
  | S k' => v ← peek a; sum_pages k' (a + PGSIZE) (s32 (n + v))
  end.
Definition sbrkfail (s : list Z) : prog unit :=
  p ← pipe;
  let '(r, fd0, fd1) := p in
  fails s (negb (r =? 0)) "pipe() failed" ;;
  pids ← sbrkfail_fork 10 fd0 fd1;
  c ← sbrk PGSIZE;
  sbrkfail_kill pids ;;
  fails s (addr c =? NOMEM) "failed sbrk leaked memory" ;;
  pid ← fork;
  fails s (pid <? 0) "fork failed" ;;
  if pid =? 0 then
    a ← sbrk 0;
    sbrk 1048576000 ;;
    n ← sum_pages (Z.to_nat 256000) (addr a) 0;
    die (line "%s: allocate a lot of memory succeeded %d") [AStr (Some s); AInt n]
  else
  w ← wait_st junk;
  if negb (w.2 =? -1) && negb (w.2 =? 2) then exit 1 else mret tt.

(** ** Arguments *)

Definition sbrkarg (s : list Z) : prog unit :=
  a ← sbrk PGSIZE;
  fd ← open "sbrk" (Z.lor O_CREATE O_WRONLY);
  unlink "sbrk" ;;
  fails s (fd <? 0) "open sbrk failed" ;;
  n ← write_at fd (addr a) PGSIZE;
  fails s (n <? 0) "write sbrk failed" ;;
  close fd ;;
  a ← sbrk PGSIZE;
  r ← sys (Sraw SYS_pipe [PAt (addr a)]);
  fails s (negb (r =? 0)) "pipe() failed".

(** [p] goes from 0 to 1100*1024 in steps of a page. *)
Definition validatetest (s : list Z) : prog unit :=
  for_ 276 0 (fun i =>
    r ← sys (Sraw SYS_link [PStr (bytes "nosuchfile"); PAt (PGSIZE * i)]);
    fails s (negb (r =? -1)) "link should not succeed").

(** [uninit] is the address of the array. *)
Definition bsstest (uninit : Z) (s : list Z) : prog unit :=
  for_ (Z.to_nat 10000) 0 (fun i =>
    v ← peek (uninit + i);
    fails s (negb (v =? 0)) "bss test failed").

Definition argptest (s : list Z) : prog unit :=
  fd ← open "init" O_RDONLY;
  fails s (fd <? 0) "open failed" ;;
  a ← sbrk 0;
  read_at fd (addr (a - 1)) (-1) ;;
  close fd.

(** The parent's half of the next two tests: the child must be killed. *)
Definition killed_child : prog unit :=
  w ← wait_st junk;
  if w.2 =? -1 then exit 0 else exit w.2.
Definition stacktest (s : list Z) : prog unit :=
  pid ← fork;
  (if pid =? 0 then
     v ← peek (sp - PGSIZE);
     die (line "%s: stacktest: read below stack %p") [AStr (Some s); AInt v]
   else fails s (pid <? 0) "fork failed") ;;
  killed_child.
(** A word is four bytes. *)
Definition textwrite (s : list Z) : prog unit :=
  pid ← fork;
  (if pid =? 0 then
     poke 0 10 ;;
     poke 1 0 ;;
     poke 2 0 ;;
     poke 3 0 ;;
     exit 1
   else fails s (pid <? 0) "fork failed") ;;
  killed_child.

(** The constant does not fit a pointer; its low 32 bits remain. *)
Definition big : Z := u32 16927636109872082782.
Definition pgbug (s : list Z) : prog unit :=
  sys (Sraw SYS_exec [PAt big; PVec []]) ;;
  sys (Sraw SYS_pipe [PAt big]) ;;
  exit 0.

(** A child that changes its size. *)
Definition sbrk_child (act : prog unit) : prog unit :=
  pid ← fork;
  check (pid <? 0) (line "fork failed") [] ;;
  if pid =? 0 then act ;; exit 0 else ignore wait.
Definition sbrkbugs (s : list Z) : prog unit :=
  sbrk_child (sz ← sbrk 0; ignore (sbrk (s32 (- s32 (addr sz))))) ;;
  sbrk_child (sz ← sbrk 0; ignore (sbrk (s32 (- (s32 (addr sz) - 3500))))) ;;
  sbrk_child (
    e ← sbrk 0;
    sbrk (s32 (43008 - addr e)) ;;
    ignore (sbrk (-10))) ;;
  exit 0.

Definition sbrklast (s : list Z) : prog unit :=
  top ← sbrk 0;
  (if negb (addr top mod 4096 =? 0) then ignore (sbrk (4096 - addr top mod 4096)) else mret tt) ;;
  sbrk 4096 ;;
  sbrk 10 ;;
  sbrk (-20) ;;
  top ← sbrk 0;
  let p := addr (top - 64) in
  poke p 120 ;;
  poke (p + 1) 0 ;;
  fd ← open_at p (Z.lor O_RDWR O_CREATE);
  write_at fd p 1 ;;
  close fd ;;
  fd ← open_at p O_RDWR;
  poke p 0 ;;
  read_at fd p 1 ;;
  v ← peek p;
  if negb (v =? 120) then exit 1 else mret tt.

Definition sbrk8000 (s : list Z) : prog unit :=
  sbrk (s32 2147483652) ;;
  top ← sbrk 0;
  v ← peek (top - 1);
  poke (top - 1) (u8 (v + 1)).

Definition badarg (s : list Z) : prog unit :=
  for_ (Z.to_nat 50000) 0 (fun _ =>
    ignore (sys (Sraw SYS_exec [PStr (bytes "echo"); PVec [PAt 4294967295]]))) ;;
  exit 0.
End TestMem.
