(* ===== verification/Usertests.v ===== *)
(** * The test driver (user/usertests.c: the tables, run, runtests, countfree,
    drivetests, main)

    The tests themselves are in TestFs.v, TestProc.v and TestMem.v; [fuel],
    [junk] and [sp] are as there, [uninit] is the address of the array of
    [bsstest], [u0] the memory the allocator of [mem] starts with. *)
From S2P Require Import Prelude Memory Machine User Umalloc TestLib TestFs TestProc TestMem.
From stdpp Require Import gmap strings countable prelude.

Open Scope Z_scope.

Record test : Type := mk_test { t_f : list Z -> prog unit; t_s : list Z }.

Section Usertests.
Context (fuel : nat) (junk sp uninit : Z) {Pr : Umalloc.Process} (u0 : Umalloc.ust).

Definition quicktests : list test :=
  (fun p => mk_test p.1 (bytes p.2)) <$>
  [(truncate1, "truncate1"); (truncate2, "truncate2"); (truncate3 junk, "truncate3");
   (openiputtest junk, "openiput"); (exitiputtest junk, "exitiput"); (iputtest, "iput");
   (opentest, "opentest"); (writetest, "writetest"); (writebig fuel, "writebig");
   (createtest, "createtest"); (dirtest, "dirtest"); (exectest junk, "exectest");
   (pipe1 fuel junk, "pipe1"); (killstatus fuel junk, "killstatus"); (preempt, "preempt");
   (exitwait junk, "exitwait"); (reparent, "reparent"); (twochildren, "twochildren");
   (forkfork junk, "forkfork"); (forkforkfork fuel, "forkforkfork"); (reparent2, "reparent2");
   (mem fuel junk u0, "mem"); (sharedfd fuel junk, "sharedfd"); (fourfiles fuel junk, "fourfiles");
   (createdelete junk, "createdelete"); (unlinkread, "unlinkread"); (linktest, "linktest");
   (concreate fuel junk, "concreate"); (linkunlink, "linkunlink"); (subdir, "subdir");
   (bigwrite, "bigwrite"); (bigfile fuel, "bigfile"); (fourteen, "fourteen"); (rmdot, "rmdot");
   (dirfile, "dirfile"); (iref, "iref"); (forktest, "forktest"); (sbrkbasic junk, "sbrkbasic");
   (sbrkmuch, "sbrkmuch"); (kernmem junk, "kernmem"); (MAXVAplus junk, "MAXVAplus");
   (sbrkfail fuel junk, "sbrkfail"); (sbrkarg, "sbrkarg"); (validatetest, "validatetest");
   (bsstest uninit, "bsstest"); (bigargtest junk, "bigargtest"); (argptest, "argptest");
   (stacktest junk sp, "stacktest"); (textwrite junk, "textwrite"); (pgbug, "pgbug");
   (sbrkbugs, "sbrkbugs"); (sbrklast, "sbrklast"); (sbrk8000, "sbrk8000"); (badarg, "badarg")].

Definition slowtests : list test :=
  (fun p => mk_test p.1 (bytes p.2)) <$>
  [(bigdir, "bigdir"); (manywrites, "manywrites"); (badwrite, "badwrite");
   (execout fuel, "execout"); (diskfull fuel junk, "diskfull"); (outofinodes, "outofinodes")].

(** Each test in its own process; whether its exit status is 0. *)
Definition run (f : list Z -> prog unit) (s : list Z) : prog bool :=
  printf (bytes "test %s: ") [AStr (Some s)] ;;
  pid ← fork;
  check (pid <? 0) (line "runtest: fork error") [] ;;
  if pid =? 0 then f s ;; exit 0
  else
    w ← wait_st junk;
    (if negb (w.2 =? 0) then printf (line "FAILED") [] else printf (line "OK") []) ;;
    mret (w.2 =? 0).

(** [justone] is the null pointer or a name: is the test to be run? *)
Definition picked (justone : option (list Z)) (t : test) : bool :=
  match justone with None => true | Some n => bool_decide (t_s t = n) end.
(** Whether a test has failed. *)
Fixpoint runtests (tests : list test) (justone : option (list Z)) : prog bool :=
  match tests with
  | [] => mret false
  | t :: tests' =>
    if picked justone t then
      ok ← run (t_f t) (t_s t);
      if negb ok then printf (line "SOME TESTS FAILED") [] ;; mret true
      else runtests tests' justone
    else runtests tests' justone
  end.

(** A child takes all the memory there is and says so, page by page. *)
Definition countfree_child (fd1 : Z) : prog unit :=
  forever fuel tt (fun _ =>
    a ← sbrk 4096;
    if addr a =? NOMEM then mret None else
    poke (a + 4096 - 1) 1 ;;
    n ← write fd1 (bytes "x");
    check (negb (n =? 1)) (line "write() failed in countfree()") [] ;;
    mret (Some tt)).
Definition countfree_read (fd0 : Z) : prog Z :=
  forever fuel 0 (fun n =>
    r ← read fd0 1;
    check (r.1 <? 0) (line "read() failed in countfree()") [] ;;
    if r.1 =? 0 then mret None else mret (Some (n + 1))).
Definition countfree : prog Z :=
  p ← pipe;
  let '(r, fd0, fd1) := p in
  check (r <? 0) (line "pipe() failed in countfree()") [] ;;
  pid ← fork;
  check (pid <? 0) (line "fork failed in countfree()") [] ;;
  if pid =? 0 then close fd0 ;; countfree_child fd1 ;; exit 0
  else
    close fd1 ;;
    n ← countfree_read fd0;
    close fd0 ;;
    wait ;;
    mret n.

(** Whether the run has failed; [n] turns of the do-while loop. *)
Fixpoint drivetests (n : nat) (quick : bool) (continuous : Z) (justone : option (list Z)) : prog bool :=
  match n with
  | O => Fuel
  | S n' =>
    printf (line "usertests starting") [] ;;
    free0 ← countfree;
    r ← runtests quicktests justone;
    if r && negb (continuous =? 2) then mret true else
    r ← (if quick then mret false else
         (if justone is Some _ then mret tt else printf (line "usertests slow tests starting") []) ;;
         runtests slowtests justone);
    if r && negb (continuous =? 2) then mret true else
    free1 ← countfree;
    r ← (if free1 <? free0 then
           printf (line "FAILED -- lost some free pages %d (out of %d)") [AInt free1; AInt free0] ;;
           mret true
         else mret false);
    if r && negb (continuous =? 2) then mret true else
    if continuous =? 0 then mret false else drivetests n' quick continuous justone
  end.

(** [quick], [continuous] and [justone]; nothing for a usage message. *)
Definition options (argv : list (list Z)) : option (bool * Z * option (list Z)) :=
  match argv with
  | [_; a] =>
    if bool_decide (a = bytes "-q") then Some (true, 0, None)
    else if bool_decide (a = bytes "-c") then Some (false, 1, None)
    else if bool_decide (a = bytes "-C") then Some (false, 2, None)
    else if negb (at_ a 0 =? 45) then Some (false, 0, Some a)
    else None
  | _ :: _ :: _ => None
  | _ => Some (false, 0, None)
  end.
Definition main (argv : list (list Z)) : prog Z :=
  match options argv with
  | None => die (line "Usage: usertests [-c] [-C] [-q] [testname]") []
  | Some (quick, continuous, justone) =>
    r ← drivetests fuel quick continuous justone;
    if (r : bool) then exit 1 else
    printf (line "ALL TESTS PASSED") [] ;;
    exit 0
  end.
End Usertests.
