(* ===== verification/Grind.v ===== *)
(** * Random system calls (user/grind.c)

    [rand_next] is passed along; on this machine [long] has 32 bits.  [fuel]
    bounds the turns of the endless loops, [junk] is what an integer variable
    without an initial value holds. *)
From S2P Require Import Prelude Memory Machine User TestLib.
From stdpp Require Import gmap strings countable prelude.

Open Scope Z_scope.

(** ** The random numbers *)

(** The number returned is also the new [*ctx]. *)
Definition do_rand (ctx : Z) : Z :=
  let x := s32 (u32 (ctx mod 2147483646 + 1)) in
  let hi := x ÷ 127773 in
  let lo := Z.rem x 127773 in
  let x := s32 (s32 (16807 * lo) - s32 (2836 * hi)) in
  let x := if x <? 0 then s32 (x + 2147483647) else x in
  s32 (x - 1).
(** The number and the new [rand_next]. *)
Definition rand (rand_next : Z) : Z * Z := let x := do_rand rand_next in (x, u32 x).

(** ** The system calls *)

Section Grind.
Context (fuel : nat) (junk : Z).

Definition stop (status : Z) (msg : string) : prog unit := printf (line msg) [] ;; exit status.
Definition stop2 (status : Z) (msg : string) : prog unit := fprintf 2 (line msg) [] ;; exit status.
(** [close(open(path, O_CREATE|O_RDWR))] *)
Definition touch (path : string) : prog unit := fd ← open path RDWR_CREATE; close fd.
Definition dup (fd : Z) : prog Z := sys (Sdup fd).

(** A child that does something and exits with 0, and its parent. *)
Definition child (act : prog unit) (parent : Z -> prog unit) : prog unit :=
  pid ← fork;
  if pid =? 0 then act ;; exit 0
  else if pid <? 0 then stop 1 "grind: fork failed"
  else parent pid.

(** 21: a new file is as it should be. *)
Definition fresh_file : prog unit :=
  unlink "c" ;;
  fd1 ← open "c" RDWR_CREATE;
  (if fd1 <? 0 then stop 1 "grind: create c failed" else mret tt) ;;
  n ← write fd1 (bytes "x");
  (if negb (n =? 1) then stop 1 "grind: write c failed" else mret tt) ;;
  r ← fstat fd1;
  (if negb (r.1 =? 0) then stop 1 "grind: fstat failed" else mret tt) ;;
  check (negb (st_size r.2 =? 1)) (line "grind: fstat reports wrong size %d") [AInt (s32 (st_size r.2))] ;;
  check (200 <? st_ino r.2) (line "grind: fstat reports crazy i-number %d") [AInt (st_ino r.2)] ;;
  close fd1 ;;
  ignore (unlink "c").

(** 22: echo hi | cat.  [read] of one byte at [buf+i]. *)
Definition read_one (fd : Z) (i : nat) (buf : list Z) : prog (list Z) :=
  r ← read fd 1;
  mret (if 0 <? r.1 then <[i := at_ r.2 0]> buf else buf).
Definition echo_end (a0 a1 b0 b1 : Z) : prog unit :=
  close b0 ;;
  close b1 ;;
  close a0 ;;
  close 1 ;;
  d ← dup a1;
  (if negb (d =? 1) then stop2 1 "grind: dup failed" else mret tt) ;;
  close a1 ;;
  exec "grindir/../echo" [bytes "echo"; bytes "hi"] ;;
  stop2 2 "grind: echo: not found".
Definition cat_end (a0 a1 b0 b1 : Z) : prog unit :=
  close a1 ;;
  close b0 ;;
  close 0 ;;
  d ← dup a0;
  (if negb (d =? 0) then stop2 4 "grind: dup failed" else mret tt) ;;
  close a0 ;;
  close 1 ;;
  d ← dup b1;
  (if negb (d =? 1) then stop2 5 "grind: dup failed" else mret tt) ;;
  close b1 ;;
  exec "/cat" [bytes "cat"] ;;
  stop2 6 "grind: cat: not found".
Definition pipeline : prog unit :=
  p ← pipe;
  let '(r, a0, a1) := p in
  (if r <? 0 then stop2 1 "grind: pipe failed" else mret tt) ;;
  p ← pipe;
  let '(r, b0, b1) := p in
  (if r <? 0 then stop2 1 "grind: pipe failed" else mret tt) ;;
  pid1 ← fork;
  (if pid1 =? 0 then echo_end a0 a1 b0 b1
   else if pid1 <? 0 then stop2 3 "grind: fork failed" else mret tt) ;;
  pid2 ← fork;
  (if pid2 =? 0 then cat_end a0 a1 b0 b1
   else if pid2 <? 0 then stop2 7 "grind: fork failed" else mret tt) ;;
  close a0 ;;
  close a1 ;;
  close b1 ;;
  buf ← read_one b0 0 [0; 0; 0; 0];
  buf ← read_one b0 1 buf;
  buf ← read_one b0 2 buf;
  close b0 ;;
  w1 ← wait_st junk;
  w2 ← wait_st junk;
  check (negb (w1.2 =? 0) || negb (w2.2 =? 0) || negb (bool_decide (cstr buf = line "hi")))
    (bytes "grind: exec pipeline failed %d %d " ++ [34] ++ bytes "%s" ++ [34; 10])
    [AInt w1.2; AInt w2.2; AStr (Some buf)].

(** One turn: [fd] and [buf] after it. *)
Definition go_turn (what break0 fd : Z) (buf : list Z) : prog (Z * list Z) :=
  let same := mret (fd, buf) : prog (Z * list Z) in
  if what =? 1 then touch "grindir/../a" ;; same
  else if what =? 2 then touch "grindir/../grindir/../b" ;; same
  else if what =? 3 then unlink "grindir/../a" ;; same
  else if what =? 4 then
    r ← chdir "grindir";
    (if negb (r =? 0) then stop 1 "grind: chdir grindir failed" else mret tt) ;;
    unlink "../b" ;;
    chdir "/" ;;
    same
  else if what =? 5 then close fd ;; fd ← open "/grindir/../a" RDWR_CREATE; mret (fd, buf)
  else if what =? 6 then close fd ;; fd ← open "/./grindir/./../b" RDWR_CREATE; mret (fd, buf)
  else if what =? 7 then write fd buf ;; same
  else if what =? 8 then r ← read fd (Z.of_nat (length buf)); mret (fd, stored r.2 buf)
  else if what =? 9 then mkdir "grindir/../a" ;; touch "a/../a/./a" ;; unlink "a/a" ;; same
  else if what =? 10 then mkdir "/../b" ;; touch "grindir/../b/b" ;; unlink "b/b" ;; same
  else if what =? 11 then unlink "b" ;; link "../grindir/./../a" "../b" ;; same
  else if what =? 12 then unlink "../grindir/../a" ;; link ".././b" "/grindir/../a" ;; same
  else if what =? 13 then child (mret tt) (fun _ => ignore wait) ;; same
  else if what =? 14 then child (fork ;; fork ;; mret tt) (fun _ => ignore wait) ;; same
  else if what =? 15 then sbrk 6011 ;; same
  else if what =? 16 then
    e ← sbrk 0;
    (if addr break0 <? addr e then e ← sbrk 0; ignore (sbrk (s32 (- (addr e - addr break0)))) else mret tt) ;;
    same
  else if what =? 17 then
    child (touch "a") (fun pid =>
      r ← chdir "../grindir/..";
      (if negb (r =? 0) then stop 1 "grind: chdir failed" else mret tt) ;;
      kill pid ;;
      ignore wait) ;;
    same
  else if what =? 18 then
    child (pid ← sys Sgetpid; ignore (kill pid)) (fun _ => ignore wait) ;;
    same
  else if what =? 19 then
    p ← pipe;
    let '(r, fd0, fd1) := p in
    (if r <? 0 then stop 1 "grind: pipe failed" else mret tt) ;;
    child (fork ;; fork ;;
           n ← write fd1 (bytes "x");
           (if negb (n =? 1) then printf (line "grind: pipe write failed") [] else mret tt) ;;
           c ← read fd0 1;
           if negb (c.1 =? 1) then printf (line "grind: pipe read failed") [] else mret tt)
      (fun _ => close fd0 ;; close fd1 ;; ignore wait) ;;
    same
  else if what =? 20 then
    child (unlink "a" ;; mkdir "a" ;; chdir "a" ;; unlink "../a" ;; open "x" RDWR_CREATE ;; ignore (unlink "x"))
      (fun _ => ignore wait) ;;
    same
  else if what =? 21 then fresh_file ;; same
  else if what =? 22 then pipeline ;; same
  else same.

Fixpoint go_loop (n : nat) (which_child break0 fd iters rand_next : Z) (buf : list Z) : prog unit :=
  match n with
  | O => Fuel
  | S n' =>
    let iters := u32 (iters + 1) in
    (if iters mod 500 =? 0 then ignore (write 1 (bytes (if which_child =? 0 then "A" else "B"))) else mret tt) ;;
    let '(x, rand_next) := rand rand_next in
    r ← go_turn (Z.rem x 23) break0 fd buf;
    go_loop n' which_child break0 r.1 iters rand_next r.2
  end.
Definition go (which_child rand_next : Z) : prog unit :=
  break0 ← sbrk 0;
  mkdir "grindir" ;;
  r ← chdir "grindir";
  (if negb (r =? 0) then stop 1 "grind: chdir grindir failed" else mret tt) ;;
  chdir "/" ;;
  go_loop fuel which_child break0 (-1) 0 rand_next (replicate 999 0).

Definition iter (rand_next : Z) : prog unit :=
  unlink "a" ;;
  unlink "b" ;;
  pid1 ← fork;
  (if pid1 <? 0 then stop 1 "grind: fork failed" else mret tt) ;;
  (if pid1 =? 0 then go 0 (Z.lxor rand_next 31) ;; exit 0 else mret tt) ;;
  pid2 ← fork;
  (if pid2 <? 0 then stop 1 "grind: fork failed" else mret tt) ;;
  (if pid2 =? 0 then go 1 (Z.lxor rand_next 7177) ;; exit 0 else mret tt) ;;
  w1 ← wait_st (-1);
  (if negb (w1.2 =? 0) then kill pid1 ;; ignore (kill pid2) else mret tt) ;;
  wait_st (-1) ;;
  exit 0.

(** [rand_next] is 1 at the start. *)
Fixpoint main_loop (n : nat) (rand_next : Z) : prog unit :=
  match n with
  | O => Fuel
  | S n' =>
    pid ← fork;
    (if pid =? 0 then iter rand_next ;; exit 0 else mret tt) ;;
    (if 0 <? pid then ignore wait else mret tt) ;;
    sleep 20 ;;
    main_loop n' (u32 (rand_next + 1))
  end.
Definition main : prog unit := main_loop fuel 1.
End Grind.

(** ** The random numbers are those of Park and Miller *)

Definition modulus : Z := 2147483647.   (** 2^31 - 1 = 127773 * 7^5 + 2836 *)

(** Schrage's method on the range of [x]. *)
Lemma schrage x : 1 <= x <= modulus - 1 ->
  let v := 16807 * (x mod 127773) - 2836 * (x / 127773) in
  - modulus < v < modulus /\ 0 <= 16807 * (x mod 127773) < modulus /\ 0 <= 2836 * (x / 127773) < modulus /\
  v mod modulus = (16807 * x) mod modulus.
Proof.
  unfold modulus. intros Hx. cbv zeta.
  pose proof (Z.mod_pos_bound x 127773 ltac:(lia)) as Hlo. pose proof (Z.div_mod x 127773 ltac:(lia)) as Hd.
  assert (Hhi : 0 <= x / 127773 < 16808) by (split; [apply Z.div_pos|apply Z.div_lt_upper_bound]; lia).
  split_and!; try lia.
  rewrite <- (Z_mod_plus_full (16807 * _ - _) (x / 127773)). f_equal. lia.
Qed.
(** 7^5 and the modulus have no common divisor. *)
Lemma multiplier_cancels d : (modulus | 16807 * d) -> (modulus | d).
Proof. intros H. apply (Z.gauss modulus 16807 d H). reflexivity. Qed.
Lemma product_nonzero x : 1 <= x <= modulus - 1 -> (16807 * x) mod modulus <> 0.
Proof.
  intros Hx H%Z.mod_divide; [|done]. apply multiplier_cancels in H. pose proof (Z.divide_pos_le modulus x ltac:(lia) H). lia.
Qed.
Lemma product_injective x y : 1 <= x <= modulus - 1 -> 1 <= y <= modulus - 1 ->
  (16807 * x) mod modulus = (16807 * y) mod modulus -> x = y.
Proof.
  intros Hx Hy H. assert (Hd : (modulus | 16807 * (x - y))).
  { apply Z.mod_divide; [done|]. rewrite Z.mul_sub_distr_l, Zminus_mod, H, Z.sub_diag. done. }
  apply multiplier_cancels in Hd as [q Hq]. unfold modulus in *. nia.
Qed.
Lemma do_rand_value ctx : do_rand ctx = (16807 * (ctx mod 2147483646 + 1)) mod modulus - 1.
Proof.
  unfold do_rand. pose proof (Z.mod_pos_bound ctx 2147483646 ltac:(lia)) as Hc.
  set (x := ctx mod 2147483646 + 1). assert (Hx : 1 <= x <= modulus - 1) by (unfold modulus; lia). clearbody x. clear Hc.
  rewrite (u32_small x), (s32_small x) by (unfold is_u32, modulus in *; lia).
  rewrite Z.quot_div_nonneg, Z.rem_mod_nonneg by lia.
  destruct (schrage x Hx) as (Hv & Hlo & Hhi & <-). pose proof (product_nonzero x Hx) as Hnz.
  destruct (schrage x Hx) as (_ & _ & _ & E). rewrite <- E in Hnz. clear E.
  set (v := 16807 * (x mod 127773) - 2836 * (x / 127773)) in *. unfold modulus in *.
  rewrite (s32_small (16807 * _)), (s32_small (2836 * _)) by lia. fold v. rewrite (s32_small v) by lia.
  destruct (Z.ltb_spec v 0).
  - rewrite !s32_small by (rewrite ?s32_small; lia). rewrite <- (Z_mod_plus_full v 1), Z.mod_small by lia. lia.
  - rewrite s32_small by lia. rewrite Z.mod_small by lia. done.
Qed.

(** [do_rand] computes what its comment says, in 32 bits.  With [x] the
    state taken to [1, 0x7ffffffe], the result is (7^5 * x) mod (2^31 - 1),
    less one, in [0, 0x7ffffffd]; no product and no difference of the
    computation exceeds 31 bits and a sign; and states that differ modulo
    0x7ffffffe give different numbers, so that no state of the cycle is lost. *)
Theorem do_rand_correct ctx :
  let x := ctx mod 2147483646 + 1 in
  do_rand ctx = (7 ^ 5 * x) mod (2 ^ 31 - 1) - 1 /\ 0 <= do_rand ctx <= 2147483645 /\
  0 <= 16807 * (x mod 127773) < 2 ^ 31 /\ 0 <= 2836 * (x / 127773) < 2 ^ 31 /\
  - 2 ^ 31 < 16807 * (x mod 127773) - 2836 * (x / 127773) < 2 ^ 31 /\
  forall ctx', do_rand ctx' = do_rand ctx -> ctx' mod 2147483646 = ctx mod 2147483646.
Proof.
  cbv zeta. change (7 ^ 5) with 16807. change (2 ^ 31 - 1) with modulus. change (2 ^ 31) with (modulus + 1).
  assert (Hr : forall c, 1 <= c mod 2147483646 + 1 <= modulus - 1).
  { intros c. pose proof (Z.mod_pos_bound c 2147483646 ltac:(lia)). unfold modulus. lia. }
  destruct (schrage _ (Hr ctx)) as (Hv & Hlo & Hhi & _). pose proof (product_nonzero _ (Hr ctx)) as Hnz.
  split_and!; rewrite ?do_rand_value; try lia.
  - pose proof (Z.mod_pos_bound (16807 * (ctx mod 2147483646 + 1)) modulus ltac:(done)). unfold modulus in *. lia.
  - pose proof (Z.mod_pos_bound (16807 * (ctx mod 2147483646 + 1)) modulus ltac:(done)). unfold modulus in *. lia.
  - intros ctx'. rewrite !do_rand_value. intros H.
    assert (E := product_injective _ _ (Hr ctx') (Hr ctx) ltac:(lia)). lia.
Qed.
